(* ===== verification/_CoqProject ===== *)
-Q . S2P
Prelude.v
Timestamp.v
Auth.v
Http.v
HubConfig.v
AdminState.v
AdminTokens.v
AdminAccess.v
AdminInvariant.v
Sha256.v
PortalProtocol.v
Channel.v
Portals.v
AdminUpdate.v
Pair.v
FilePath.v
FileSys.v
PortalFile.v
PortalFileProofs.v
Url.v
PortalServer.v
Credstore.v
FileShare.v
FileShareProofs.v
Relay.v
CertPin.v
SessionState.v
Bridge.v
UdpRelay.v
Session.v
SessionInvariant.v
SessionProtocol.v
SessionE2E.v
PortalE2E.v
PortalClient.v
PortalClientProofs.v
Aggregate.v
Flags.v
HubCli.v
HubCliProofs.v
HubLog.v
HubStart.v
Agent.v
HubStatus.v
WsBind.v
WsBindProofs.v
TunnelE2E.v
ChannelHost.v
ChannelHostProofs.v
AgentMgmt.v
AgentProofs.v
AgentMgmtProofs.v
AgentE2E.v
ClientFiles.v
Mount.v
MountProofs.v
ClientConnect.v
ClientConnectProofs.v
TunnelBridge.v
ClientConfig.v
ClientConfigProofs.v
Profiles.v
ClientExamples.v
ClientAdmin.v
ClientAdminProofs.v
AdminE2E.v
PortalSources.v
PortalEmbed.v
DesktopExamples.v
ClientUpdate.v
ClientUpdateProofs.v
UpdateE2E.v
AppAdmin.v
AppE2E.v
AppProfiles.v
AppProfilesProofs.v
ClientControl.v
ClientControlProofs.v
