(* ===== verification/Prelude.v ===== *)
(** * Tela: a verification library

    Tela connects a client machine to services on a remote machine through a relay.  An agent
    ([telad]) registers its machine with a hub ([telahubd]); a client ([tela]) asks the hub for a
    session; the hub pairs the two connections and forwards opaque WireGuard datagrams between them,
    over WebSocket or UDP, possibly through a second hub (a bridge).  Who may register, connect and
    administer is decided by the hub's token store, which an HTTP admin API edits; the client's
    [tela admin] commands and portals drive that API.  A portal ([telaportal], or the one inside the
    desktop application) is a directory of hubs that passes administration on to them.  Hubs and
    agents update themselves from release channels, verified by digest; a hub can host such channels.

    This library models that logic as executable definitions translated from the Go sources, and
    proves what makes it correct, part by part and across parts.

    ** Parts, files and sources

    Shared ground:
    - [Prelude]: notation, automation, machine integers, byte strings, the parts of Go's [strings],
      [strconv] and [encoding/hex] the sources use, map iteration order.
    - [Timestamp] (Go's [time]): calendar dates, RFC 3339 texts and durations of days.
    - [Http]: requests, JSON bodies, caller tokens; [Url]: escaping, queries, absolute URLs.
    - [FilePath], [FileSys]: Go's [path/filepath] and the [os] calls on Unix, over a file system with
      symbolic links.
    - [Flags] (internal/hub/hub.go, internal/client/admin.go): flag sets and [permuteArgs].
    - [Sha256], [Channel] (internal/channel/channel.go): digest, channel names, version order, update
      decision, manifests, caching fetcher, verified download.
    - [CertPin] (internal/certpin/certpin.go); [Credstore] (internal/credstore/credstore.go).

    The hub (internal/hub):
    - [Auth] (auth.go): token entries, ACLs, the store [authStore] and its decisions ([canConnect],
      [canRegister], [canManage], [connectServicesFilter], ...).  [Authorizer] is the type class
      through which the relay asks the store, with its laws; [authStore] is its instance.  The version
      counters of identities (access_version.go).
    - [HubConfig] (hub.go, auth.go): configuration and the
      bootstrap of identities; [HubStart]: a start of the hub; [HubCli]: the offline user and portal
      commands.
    - [AdminState], [AdminTokens], [AdminAccess], [AdminUpdate] (admin_api.go): the admin API's state
      and handlers; [AdminInvariant]: the abstract transition relation [effect] they refine.
    - [Pair] (pair.go); [Portals] (hub.go): pairing codes, registrations with portals and their sync.
    - [SessionState], [Bridge], [UdpRelay], [Session] (hub.go, bridge.go) and [Relay]
      (internal/relay/frame.go): machines, sessions and connections, hub-to-hub bridges, the UDP relay,
      the WebSocket handlers.  [SessionInvariant]: the events as one step relation and its invariants.
    - [HubStatus], [HubLog] (hub.go): status, discovery, presence, the management proxy, logs, history.
    - [ChannelHost] (channels_admin.go, channels_publish.go, channels_server.go): hosted channels.

    The agent (internal/agent): [Agent], [AgentMgmt] (agent.go, upstream.go, gateway.go): path routing,
    configuration, state file, registration, management requests, reconnecting; [FileShare]
    (fileshare.go): the path sandbox and the operations of a file share.

    The tunnel (internal/wsbind/bind.go): [WsBind].

    The client (internal/client): [ClientConfig], [Profiles], [ClientConnect], [TunnelBridge]
    (client.go, dns.go): remotes, hub names, credentials and pins, profiles and the local names of
    their machines, from a profile to sessions and listeners; [ClientFiles] (fileshare.go, control.go);
    [Mount] (mount.go): the mounted shares; [ClientAdmin] (admin.go): every [tela admin] command;
    [ClientUpdate] (channel.go, update.go): the release channel, downloads and the self-update;
    [ClientControl] (control.go): the control server, its event receivers and the log buffer.

    Portals: [PortalProtocol] (internal/portal/portal.go, token.go): the protocol and the [Store]
    interface as a class of operations with laws; [PortalFile] (store/file/file.go): the store on disk
    and a file replaced through a temporary one; [PortalServer] (server.go, fleet.go, admin_proxy.go,
    public_proxy.go); [PortalClient] (internal/portalclient); [Aggregate] (internal/portalaggregate).

    The desktop application (cmd/telagui): [PortalSources] (portal_sources.go), [PortalEmbed]
    (portal_embed.go); [AppAdmin] (app.go): administration of hubs and agents, the hub directory;
    [AppProfiles] (app.go): local ports, profiles, client settings.

    The theorems about [X] stand at the end of [X] or in [XProofs]; the witnesses and small evaluated
    inputs stand at the end of the last file of a part or in its [XExamples].  [SessionProtocol],
    [SessionE2E], [PortalE2E], [TunnelE2E], [AgentE2E], [AdminE2E], [UpdateE2E] and [AppE2E] compose
    parts: relay and store, hub and portal, two tunnel ends and the relay, hub and agent, command and
    hub, a hosted channel and a client that updates from it, desktop and portal and hub.

    ** How code becomes definitions

    A package-level variable guarded by a mutex is a field of a state record passed through the
    handlers ([hubState], [pairState], [sessions]); a handler is a function from the state, an
    environment (clock, random bytes, which calls fail, what a remote peer answers) and a request to
    its replies and the next state.  Handlers run to their end as one transition: the admin handlers
    hold [globalCfgMu] for theirs; for the WebSocket handlers this leaves out the interleavings
    between their critical sections.  Machine entries live behind pointers ([ss_heap]), because
    renames and join timers keep pointers past the key.  A save that may crash returns the disks it
    passes through.  Commands of the client run in a small monad of reads, requests and output
    ([ClientAdmin]).  Instants are nanoseconds, [uint8], [uint32], [uint64] and [int64] are integers
    with their wrap-around written out ([u8], [u32], [u64], [i64]).  Strings are byte strings; case
    folding and trimming are those of ASCII text.  Files are read and written through a codec; bodies
    of requests arrive as parsed values.  Where the order of a Go [range] over a map shows in a result,
    the definition takes a [RangeOrder] and its theorems hold for every order.

    ** What the theorems show

    - Decisions of the store are exactly the documented policy, and a dead token decides nothing.
      Every admin request takes the hub along [effect]; so tokens stay distinct (and identities, as long
      as no pairing code names one that is there), the enforced store is the live configuration's, an
      owner remains, strangers change nothing, and of two writers with the same version one loses.
    - A [tela admin] command sends at most one management request, over the pinned connection, with the
      token of its own flags or the one stored for the hub; a grant and a new identity have, at the hub,
      the meaning of the command line.  A change made in
      the desktop application goes through a portal as if made at the hub, and none is lost.
    - Session indexes are distinct octets that are never reused; a connect the policy does not admit is
      refused and touches nothing; connect and join pair the two ends and relay both ways; a stale control
      connection takes nothing down; a revoked token is cut off from the relay at once.
    - Datagrams cross the relay unchanged over every transport, the transport falls back, and its
      state stays well-formed under every interleaving of its operations; forwarding through hubs is
      bounded and transparent.
    - A management request reaches the agent it names and its answer returns; agents accept only
      well-formed configurations, keep their identity, adopt the hub's defaults, and install only
      binaries with the digest of the manifest.  So does the client, and a client that follows a channel
      hosted by a hub installs exactly the binary published there.
    - File share requests leave nothing changed outside the share while no symbolic link lies in it; what
      is written through a mount is what a get delivers; a mounted share lists exactly what the share
      holds.  No dial through the tunnel is left behind.
    - A hub's name resolves to a URL by the documented precedence, pinned connections enforce the
      pin, pairing stores a credential that connects, profiles settle when loaded, and the client listens at distinct
      addresses.  The profile the desktop application saves is the one the client connects with; the
      ports it assigns are distinct; the local names are those of the machines connected to.
    - Without its token nothing can be done to a running client; a receiver of its events gets them in
      order, each at most once.
    - Every portal endpoint answers only the requests its gate admits, whatever the store behind the
      interface; the proxy sends exactly what was asked with the hub's own token; the client refines
      the store; the file store survives failing calls and a crash at any point.
    - The desktop application's list of portals changes by pure steps whatever fails, the source for a
      hub is the best one, signing in ends, and its own portal starts ready and guarded.

    Corner cases where the code departs from its comments or guides are evaluated as [Example]s or
    proved beside the component they belong to.

    ** Bounds and fuel

    Recursion is structural except for: the printing of integers ([FormatUint], fuelled by the
    number's bit length, which bounds its digits); the version loop of [Channel] (the longer segment
    list, which it consumes); the transfer loops of [FileShare] and [ClientFiles] (the bytes left, of
    which every round takes at least one); and the sign-in of [PortalSources] ([pollFuel], the twenty
    minutes of its deadline over the shortest wait, which is shown to be enough).  Path resolution has
    the kernel's budget of 40 links.  [Sha256] is evaluated against published vectors.
    Parameters stand for code not in the repository: the YAML library ([Yaml] in [Profiles]: trees read
    by a type), the other YAML and JSON codecs (with their round trip as a law, and instances in the
    example files), the length of a JSON text where a reader limits it, the answers of the network, the clock, random
    bytes, failing system calls, [time.ParseDuration] on fractional texts.

    ** Not modelled

    Sockets, TLS, WireGuard and its network stack, the copying of bytes between connections, log
    output, the layout of printed tables, service installation and process control.  Of the hub: the
    embedded console and the channel commands; of the agent: its command line ([telad channel],
    [update], [login], [pair]), the event stream of the file share and TCP forwarding; of the client:
    the service command, the event stream of file subscriptions, the pings of the control server; of
    the desktop application: windows, tray, dialogs, its settings file and remotes, and the bindings
    that start and stop processes and install binaries.  Windows paths, the test stack and build
    tools. *)

From Stdlib Require Import ZArith Lia Ascii String.
From stdpp Require Import base gmap strings list fin_maps sorting.

#[global] Set Default Goal Selector "!".

(** ** Notation of the development *)

Declare Scope tela_scope.
Delimit Scope tela_scope with tela.

(** Go strings are byte sequences; the model reads a byte as an [ascii]. *)
Notation "s '!b' i" := (String.get i s) (at level 20, only parsing) : tela_scope.

(** Equality and order tests the executable definitions use. *)
Notation "x =s y" := (bool_decide ((x : string) = y)) (at level 70, no associativity) : tela_scope.
Notation "x <>s y" := (negb (bool_decide ((x : string) = y))) (at level 70, no associativity) : tela_scope.

#[global] Open Scope tela_scope.

(** ** Automation shared by the components *)

Create HintDb tela discriminated.
Create Rewrite HintDb tela_simpl.

(** Case analysis on the innermost scrutinee of a goal, keeping the equation. *)
Ltac case_scrut :=
  match goal with
  | |- context [match ?x with _ => _ end] =>
      lazymatch x with
      | context [match _ with _ => _ end] => fail
      | _ => destruct x eqn:?
      end
  end.

(** Turn boolean hypotheses into propositions. *)
Ltac prop_bool :=
  repeat match goal with
  | H : _ && _ = true |- _ => apply andb_true_iff in H as [? ?]
  | H : _ || _ = false |- _ => apply orb_false_iff in H as [? ?]
  | H : negb _ = true |- _ => apply negb_true_iff in H
  | H : negb _ = false |- _ => apply negb_false_iff in H
  | H : bool_decide _ = true |- _ => apply bool_decide_eq_true_1 in H
  | H : bool_decide _ = false |- _ => apply bool_decide_eq_false_1 in H
  | H : (_ =? _)%Z = true |- _ => apply Z.eqb_eq in H
  | H : (_ =? _)%Z = false |- _ => apply Z.eqb_neq in H
  | H : (_ <? _)%Z = true |- _ => apply Z.ltb_lt in H
  | H : (_ <? _)%Z = false |- _ => apply Z.ltb_ge in H
  | H : (_ <=? _)%Z = true |- _ => apply Z.leb_le in H
  | H : (_ <=? _)%Z = false |- _ => apply Z.leb_gt in H
  end.

(** ** Machine integers *)

(** Unsigned wrap-around at 8, 32 and 64 bits, signed at 64 bits. *)
Definition u8 (z : Z) : Z := (z mod 256)%Z.
Definition u32 (z : Z) : Z := (z mod 4294967296)%Z.
Definition u64 (z : Z) : Z := (z mod 18446744073709551616)%Z.
Definition i64 (z : Z) : Z :=
  ((z + 9223372036854775808) mod 18446744073709551616 - 9223372036854775808)%Z.

Lemma u8_small z : (0 <= z < 256)%Z -> u8 z = z.
Proof. intros. unfold u8. by rewrite Z.mod_small. Qed.

Lemma u64_small z : (0 <= z < 18446744073709551616)%Z -> u64 z = z.
Proof. intros. unfold u64. by rewrite Z.mod_small. Qed.

Lemma i64_small z :
  (-9223372036854775808 <= z < 9223372036854775808)%Z -> i64 z = z.
Proof. intros. unfold i64. rewrite Z.mod_small; lia. Qed.

(** ** Byte strings *)

Definition bytes (s : string) : list ascii := list_ascii_of_string s.
Definition of_bytes (l : list ascii) : string := string_of_list_ascii l.

Lemma of_bytes_bytes s : of_bytes (bytes s) = s.
Proof. apply string_of_list_ascii_of_string. Qed.

Lemma bytes_of_bytes l : bytes (of_bytes l) = l.
Proof. apply list_ascii_of_string_of_list_ascii. Qed.
#[export] Hint Rewrite of_bytes_bytes bytes_of_bytes : tela_simpl.

Lemma bytes_inj s t : bytes s = bytes t -> s = t.
Proof. intros E. by rewrite <- (of_bytes_bytes s), E, of_bytes_bytes. Qed.

Lemma of_bytes_inj l k : of_bytes l = of_bytes k -> l = k.
Proof. intros E. by rewrite <- (bytes_of_bytes l), E, bytes_of_bytes. Qed.

Lemma bytes_app s t : bytes (s +:+ t) = bytes s ++ bytes t.
Proof.
  induction s as [|c s IH]; [done|].
  change (c :: bytes (s +:+ t) = c :: (bytes s ++ bytes t)). by rewrite IH.
Qed.

Lemma of_bytes_app l k : of_bytes (l ++ k) = of_bytes l +:+ of_bytes k.
Proof. apply bytes_inj. by rewrite bytes_app, !bytes_of_bytes. Qed.

Lemma string_app_nil_r s : s +:+ "" = s.
Proof. apply bytes_inj. by rewrite bytes_app, app_nil_r. Qed.

(** Go's [len(s)]. *)
Definition slen (s : string) : Z := Z.of_nat (String.length s).

Lemma length_bytes s : length (bytes s) = String.length s.
Proof.
  induction s as [|c s IH]; [done|].
  change (S (length (bytes s)) = S (String.length s)). by rewrite IH.
Qed.

Definition code (c : ascii) : Z := Z.of_N (N_of_ascii c).

(** The bytes of a text as numbers. *)
Definition z_bytes (s : string) : list Z := map code (bytes s).

Definition in_range (lo hi : ascii) (c : ascii) : bool :=
  (code lo <=? code c)%Z && (code c <=? code hi)%Z.

Definition is_digit : ascii -> bool := in_range "0" "9".
Definition is_lower : ascii -> bool := in_range "a" "z".
Definition is_upper : ascii -> bool := in_range "A" "Z".

(** ** The part of Go's package [strings] the sources use, on ASCII input *)

Fixpoint drop_prefix (p l : list ascii) : option (list ascii) :=
  match p, l with
  | [], _ => Some l
  | c :: p', d :: l' => if Ascii.eqb c d then drop_prefix p' l' else None
  | _, [] => None
  end.

Lemma drop_prefix_app p l : drop_prefix p (p ++ l) = Some l.
Proof. induction p as [|c p IH]; [done|]. cbn. by rewrite Ascii.eqb_refl. Qed.

Lemma drop_prefix_Some p l r : drop_prefix p l = Some r <-> l = p ++ r.
Proof.
  split; [|intros ->; apply drop_prefix_app].
  revert l. induction p as [|c p IH]; intros l; [cbn; congruence|].
  destruct l as [|d l]; [done|]. cbn.
  destruct (Ascii.eqb_spec c d) as [->|]; [|done].
  intros H. by rewrite (IH _ H).
Qed.

Definition has_prefix (s p : string) : bool :=
  match drop_prefix (bytes p) (bytes s) with Some _ => true | None => false end.

Definition trim_prefix (s p : string) : string :=
  match drop_prefix (bytes p) (bytes s) with Some r => of_bytes r | None => s end.

Definition has_suffix (s p : string) : bool :=
  match drop_prefix (rev (bytes p)) (rev (bytes s)) with Some _ => true | None => false end.

Lemma has_prefix_iff s p : has_prefix s p = true <-> exists r, s = p +:+ r.
Proof.
  unfold has_prefix. split.
  - destruct (drop_prefix _ _) as [r|] eqn:E; [|done]. intros _.
    apply drop_prefix_Some in E. exists (of_bytes r).
    apply bytes_inj. by rewrite bytes_app, bytes_of_bytes.
  - intros [r ->]. by rewrite bytes_app, drop_prefix_app.
Qed.

Lemma has_suffix_iff s p : has_suffix s p = true <-> exists r, s = r +:+ p.
Proof.
  unfold has_suffix. split.
  - destruct (drop_prefix _ _) as [r|] eqn:E; [|done]. intros _.
    apply drop_prefix_Some in E. exists (of_bytes (rev r)).
    apply bytes_inj. rewrite bytes_app, bytes_of_bytes.
    rewrite <- (rev_involutive (bytes s)), E, rev_app_distr. by rewrite rev_involutive.
  - intros [r ->]. by rewrite bytes_app, rev_app_distr, drop_prefix_app.
Qed.

Lemma trim_prefix_app p s : trim_prefix (p +:+ s) p = s.
Proof. unfold trim_prefix. by rewrite bytes_app, drop_prefix_app, of_bytes_bytes. Qed.

(** [strings.TrimSuffix] *)
Definition trim_suffix (s p : string) : string :=
  match drop_prefix (rev (bytes p)) (rev (bytes s)) with Some r => of_bytes (rev r) | None => s end.

Lemma trim_suffix_app s p : trim_suffix (s +:+ p) p = s.
Proof.
  unfold trim_suffix. rewrite bytes_app, rev_app_distr, drop_prefix_app, rev_involutive.
  apply of_bytes_bytes.
Qed.

(** [strings.ToLower] on ASCII letters; other bytes are unchanged. *)
Definition lower_byte (c : ascii) : ascii :=
  if is_upper c then ascii_of_N (N_of_ascii c + 32) else c.

Definition to_lower (s : string) : string := of_bytes (map lower_byte (bytes s)).

Lemma lower_byte_idem c : lower_byte (lower_byte c) = lower_byte c.
Proof. destruct c as [[] [] [] [] [] [] [] []]; reflexivity. Qed.

Lemma to_lower_idem s : to_lower (to_lower s) = to_lower s.
Proof.
  unfold to_lower. rewrite bytes_of_bytes, map_map. f_equal.
  apply map_ext, lower_byte_idem.
Qed.

Lemma slen_to_lower s : slen (to_lower s) = slen s.
Proof.
  unfold slen, to_lower. rewrite <- !length_bytes, bytes_of_bytes, length_map. done.
Qed.

(** [strings.EqualFold] on ASCII input. *)
Definition equal_fold (s t : string) : bool := to_lower s =s to_lower t.

Lemma equal_fold_spec s t : equal_fold s t = true <-> to_lower s = to_lower t.
Proof. unfold equal_fold. by rewrite bool_decide_eq_true. Qed.

(** Dropping a class of bytes from both ends ([strings.Trim], [TrimSpace]). *)
Fixpoint drop_while (f : ascii -> bool) (l : list ascii) : list ascii :=
  match l with
  | c :: l' => if f c then drop_while f l' else l
  | [] => []
  end.

Definition trim_right_with (f : ascii -> bool) (s : string) : string :=
  of_bytes (rev (drop_while f (rev (bytes s)))).
Definition trim_with (f : ascii -> bool) (s : string) : string :=
  trim_right_with f (of_bytes (drop_while f (bytes s))).

Definition is_space (c : ascii) : bool :=
  in_range "009" "013" c || Ascii.eqb c " ".
Definition trim_space : string -> string := trim_with is_space.

(** [strings.TrimRight(s, "/")]. *)
Definition is_slash (c : ascii) : bool := Ascii.eqb c "/".
Definition trim_slashes : string -> string := trim_right_with is_slash.

Lemma drop_while_none f l : forallb (fun c => negb (f c)) l = true -> drop_while f l = l.
Proof.
  destruct l as [|c l]; [done|]. cbn. intros H. prop_bool. by destruct (f c).
Qed.

Lemma forallb_rev {A} (f : A -> bool) l : forallb f (rev l) = forallb f l.
Proof.
  apply eq_true_iff_eq. rewrite !forallb_forall.
  split; intros H x Hx; apply H; by rewrite <- in_rev in *.
Qed.

Lemma trim_with_none f s :
  forallb (fun c => negb (f c)) (bytes s) = true -> trim_with f s = s.
Proof.
  intros H. unfold trim_with, trim_right_with.
  rewrite (drop_while_none _ _ H), bytes_of_bytes.
  rewrite drop_while_none by (by rewrite forallb_rev).
  by rewrite rev_involutive, of_bytes_bytes.
Qed.

Lemma drop_while_app f l m :
  forallb f l = true -> drop_while f (l ++ m) = drop_while f m.
Proof. induction l as [|c l IH]; [done|]. cbn. intros H. prop_bool. rewrite H. by apply IH. Qed.

Lemma drop_while_head f m r :
  m <> [] -> forallb (fun c => negb (f c)) m = true -> drop_while f (m ++ r) = m ++ r.
Proof. destruct m as [|c m]; [done|]. cbn. intros _ H. prop_bool. by destruct (f c). Qed.

(** Trimming removes exactly the borders of the class around a text free of it. *)
Lemma trim_with_border f l m r :
  m <> [] -> forallb f l = true -> forallb f r = true ->
  forallb (fun c => negb (f c)) m = true ->
  trim_with f (of_bytes (l ++ m ++ r)) = of_bytes m.
Proof.
  intros Hne Hl Hr Hm. unfold trim_with, trim_right_with. rewrite !bytes_of_bytes.
  rewrite drop_while_app, drop_while_head by done.
  rewrite rev_app_distr, drop_while_app by (by rewrite forallb_rev).
  rewrite drop_while_none by (by rewrite forallb_rev).
  by rewrite rev_involutive.
Qed.

(** First occurrence of a separator, as [strings.SplitN(s, sep, 2)] uses it. *)
Fixpoint cut_bytes (sep l : list ascii) : option (list ascii * list ascii) :=
  match drop_prefix sep l with
  | Some r => Some ([], r)
  | None =>
      match l with
      | [] => None
      | c :: l' =>
          match cut_bytes sep l' with
          | Some (a, b) => Some (c :: a, b)
          | None => None
          end
      end
  end.

Definition cut (s sep : string) : option (string * string) :=
  match cut_bytes (bytes sep) (bytes s) with
  | Some (a, b) => Some (of_bytes a, of_bytes b)
  | None => None
  end.

Definition splitn2 (s sep : string) : list string :=
  match cut s sep with Some (a, b) => [a; b] | None => [s] end.

Lemma cut_bytes_Some sep l a b : cut_bytes sep l = Some (a, b) -> l = a ++ sep ++ b.
Proof.
  revert a b. induction l as [|c l IH]; intros a b; cbn [cut_bytes].
  - destruct (drop_prefix sep []) as [r|] eqn:E; [|done].
    intros [= <- <-]. by apply drop_prefix_Some in E.
  - destruct (drop_prefix sep (c :: l)) as [r|] eqn:E.
    + intros [= <- <-]. by apply drop_prefix_Some in E.
    + destruct (cut_bytes sep l) as [[a' b']|]; [|done].
      intros [= <- <-]. cbn. by rewrite (IH a' b').
Qed.

Lemma cut_Some s sep a b : cut s sep = Some (a, b) -> s = a +:+ sep +:+ b.
Proof.
  unfold cut. destruct (cut_bytes _ _) as [[x y]|] eqn:E; [|done].
  intros [= <- <-]. apply cut_bytes_Some in E. apply bytes_inj.
  by rewrite !bytes_app, !bytes_of_bytes.
Qed.

(** A separator byte that does not occur before the cut is found there. *)
Lemma cut_bytes_byte (c : ascii) (l r : list ascii) :
  c ∉ l -> cut_bytes [c] (l ++ c :: r) = Some (l, r).
Proof.
  induction l as [|d l IH]; intros Hc; cbn.
  - by rewrite Ascii.eqb_refl.
  - apply not_elem_of_cons in Hc as [Hne Hc].
    destruct (Ascii.eqb_spec c d); [done|]. by rewrite IH.
Qed.

Lemma cut_byte (c : ascii) (s t : string) :
  c ∉ bytes s -> cut (s +:+ String c t) (String c "") = Some (s, t).
Proof.
  intros H. unfold cut. rewrite bytes_app. cbn.
  rewrite cut_bytes_byte by done. by rewrite !of_bytes_bytes.
Qed.

(** ** Lists *)

Lemma existsb_elem_of {A} (f : A -> bool) (l : list A) :
  existsb f l = true <-> exists x, x ∈ l /\ f x = true.
Proof.
  rewrite existsb_exists. by setoid_rewrite list_elem_of_In.
Qed.

(** The first element a boolean test accepts. *)
Fixpoint find_first {A} (f : A -> bool) (l : list A) : option A :=
  match l with
  | [] => None
  | x :: l' => if f x then Some x else find_first f l'
  end.

Lemma find_first_Some {A} (f : A -> bool) l x :
  find_first f l = Some x -> x ∈ l /\ f x = true.
Proof.
  induction l as [|y l IH]; [done|]. cbn. destruct (f y) eqn:E.
  - intros [= ->]. split; [left|done].
  - intros H. destruct (IH H). split; [by right|done].
Qed.

Lemma find_first_app {A} (f : A -> bool) l k :
  find_first f (l ++ k) = match find_first f l with Some x => Some x | None => find_first f k end.
Proof. induction l as [|x l IH]; [done|]. cbn. by destruct (f x). Qed.

Lemma find_first_None {A} (f : A -> bool) l :
  find_first f l = None <-> forall x, x ∈ l -> f x = false.
Proof.
  induction l as [|y l IH]; cbn.
  - split; [intros _ x Hx; by apply elem_of_nil in Hx|done].
  - destruct (f y) eqn:E.
    + split; [done|]. intros H. rewrite H in E by left. done.
    + rewrite IH. split; intros H x; [|intros Hx; apply H; by right].
      intros [->|Hx]%elem_of_cons; [done|by apply H].
Qed.

(** ** Ranging over a Go map *)

(** Go leaves the order of [range] over a map open.  A definition whose result depends on the
    order takes it as an argument: some permutation of the entries. *)
Class RangeOrder := {
  range {V : Type} : gmap string V -> list (string * V);
  range_perm {V : Type} (m : gmap string V) : range m ≡ₚ map_to_list m
}.

#[export] Instance sorted_range : RangeOrder | 100 :=
  { range V m := map_to_list m; range_perm V m := reflexivity _ }.

Lemma elem_of_range `{RangeOrder} {V} (m : gmap string V) k v :
  (k, v) ∈ range m <-> m !! k = Some v.
Proof. rewrite range_perm. apply elem_of_map_to_list. Qed.

Lemma range_empty `{RangeOrder} {V} : range (∅ : gmap string V) = [].
Proof. apply Permutation_nil_r. rewrite range_perm. by rewrite map_to_list_empty. Qed.

Lemma range_NoDup `{RangeOrder} {V} (m : gmap string V) : NoDup ((range m).*1).
Proof. rewrite range_perm. apply NoDup_fst_map_to_list. Qed.

(** ** Lists ordered by a string key *)

Definition by_key {A} (key : A -> string) (a b : A) : Prop := String.le (key a) (key b).
#[export] Instance by_key_dec {A} (key : A -> string) : RelDecision (by_key key).
Proof. intros a b. unfold by_key. apply _. Defined.
#[export] Instance by_key_trans {A} (key : A -> string) : Transitive (by_key key).
Proof. intros a b c. unfold by_key. apply String.le_po. Qed.
#[export] Instance by_key_total {A} (key : A -> string) : Total (by_key key).
Proof. intros a b. apply String.le_total. Qed.

(** A list with distinct keys has one ordering by key. *)
Lemma by_key_unique {A} (key : A -> string) (l1 l2 : list A) :
  NoDup (key <$> l1) -> StronglySorted (by_key key) l1 -> StronglySorted (by_key key) l2 ->
  l1 ≡ₚ l2 -> l1 = l2.
Proof.
  intros Hnd H1 H2 Hp. apply (StronglySorted_unique_strong (by_key key)); try done.
  intros x y Hx Hy Hxy Hyx. assert (key x = key y) as E.
  { unfold by_key in *. by apply (anti_symm String.le). }
  rewrite <- Hp in Hy. clear -Hnd Hx Hy E.
  apply list_elem_of_lookup in Hx as [i Hi]. apply list_elem_of_lookup in Hy as [j Hj].
  assert (i = j) as ->; [|congruence].
  apply (NoDup_lookup (key <$> l1) i j (key x)); [done|..]; rewrite list_lookup_fmap.
  - by rewrite Hi.
  - by rewrite Hj, E.
Qed.

(** ** Decimal and hexadecimal text ([strconv], [encoding/hex]) *)

Definition digit_val (c : ascii) : Z := (code c - 48)%Z.
Definition digit_char (n : Z) : ascii := ascii_of_N (Z.to_N (48 + n)).

Fixpoint parse_digits (l : list ascii) (acc : Z) : option Z :=
  match l with
  | [] => Some acc
  | c :: l' => if is_digit c then parse_digits l' (acc * 10 + digit_val c)%Z else None
  end.

(** [strconv.ParseUint(s, 10, 64)]; [None] is a syntax or range error. *)
Definition ParseUint (s : string) : option Z :=
  match bytes s with
  | [] => None
  | l => match parse_digits l 0 with
         | Some v => if (v <? 18446744073709551616)%Z then Some v else None
         | None => None
         end
  end.

(** [strconv.Atoi] with a 64-bit [int]. *)
Definition Atoi (s : string) : option Z :=
  let digits (l : list ascii) := match l with [] => None | _ => parse_digits l 0 end in
  let range_check (o : option Z) :=
    v ← o;
    if ((-9223372036854775808 <=? v) && (v <=? 9223372036854775807))%Z then Some v else None in
  match bytes s with
  | c :: l =>
      if Ascii.eqb c "-" then range_check (Z.opp <$> digits l)
      else if Ascii.eqb c "+" then range_check (digits l)
      else range_check (digits (c :: l))
  | [] => None
  end.

Fixpoint fmt_digits (fuel : nat) (n : Z) (acc : list ascii) : list ascii :=
  match fuel with
  | O => acc
  | S f => if (n <? 10)%Z then digit_char n :: acc
           else fmt_digits f (n / 10)%Z (digit_char (n mod 10)%Z :: acc)
  end.

(** [strconv.FormatUint(n, 10)]; the fuel bounds the number of digits. *)
Definition FormatUint (n : Z) : string :=
  of_bytes (fmt_digits (S (Z.to_nat (Z.log2 n))) n []).
Definition Itoa (n : Z) : string :=
  if (n <? 0)%Z then "-" +:+ FormatUint (- n) else FormatUint n.

(** A property of small integers checked by computation. *)
Lemma small_Z_check (P : Z -> bool) (k n : Z) :
  forallb P (seqZ 0 k) = true -> (0 <= n < k)%Z -> P n = true.
Proof.
  rewrite forallb_forall. intros H Hn. apply H, list_elem_of_In, elem_of_seqZ. lia.
Qed.

Lemma digit_char_spec n :
  (0 <= n < 10)%Z -> is_digit (digit_char n) = true /\ digit_val (digit_char n) = n.
Proof.
  intros H.
  apply (small_Z_check (fun n => is_digit (digit_char n) && (digit_val (digit_char n) =? n)%Z))
    in H; [|reflexivity].
  by prop_bool.
Qed.

Lemma parse_fmt_digits fuel n acc :
  (0 <= n < 10 ^ Z.of_nat fuel)%Z -> (0 < fuel)%nat ->
  parse_digits (fmt_digits fuel n acc) 0 = parse_digits acc n.
Proof.
  revert n acc. induction fuel as [|f IH]; intros n acc Hn Hf; [lia|]. cbn [fmt_digits].
  destruct (Z.ltb_spec n 10) as [Hlt|Hge].
  - destruct (digit_char_spec n) as [Hd Hv]; [lia|]. cbn. by rewrite Hd, Hv.
  - rewrite Nat2Z.inj_succ, Z.pow_succ_r in Hn by lia.
    destruct f as [|f]; [cbn in Hn; lia|].
    rewrite IH; [| |lia].
    + destruct (digit_char_spec (n mod 10)) as [Hd Hv]; [apply Z.mod_pos_bound; lia|].
      cbn [parse_digits]. rewrite Hd, Hv. f_equal. pose proof (Z.div_mod n 10). lia.
    + split; [apply Z.div_pos; lia|]. apply Z.div_lt_upper_bound; lia.
Qed.

Lemma fmt_digits_digit fuel n acc c :
  (0 <= n)%Z -> c ∈ fmt_digits fuel n acc -> is_digit c = true \/ c ∈ acc.
Proof.
  revert n acc. induction fuel as [|f IH]; intros n acc Hn; cbn [fmt_digits]; [by right|].
  destruct (Z.ltb_spec n 10) as [Hlt|Hge].
  - intros [->|?]%elem_of_cons; [|by right]. left. by apply digit_char_spec.
  - intros H. apply IH in H; [|apply Z.div_pos; lia].
    destruct H as [?|[->|?]%elem_of_cons]; [by left| |by right].
    left. apply digit_char_spec, Z.mod_pos_bound. lia.
Qed.

Lemma FormatUint_digit n c : (0 <= n)%Z -> c ∈ bytes (FormatUint n) -> is_digit c = true.
Proof.
  intros Hn. unfold FormatUint. rewrite bytes_of_bytes.
  intros H. apply fmt_digits_digit in H as [?|H]; [done| |done]. by apply elem_of_nil in H.
Qed.

Lemma FormatUint_fuel n : (0 <= n)%Z -> (n < 10 ^ Z.of_nat (S (Z.to_nat (Z.log2 n))))%Z.
Proof.
  intros Hn. pose proof (Z.log2_nonneg n).
  rewrite Nat2Z.inj_succ, Z2Nat.id by lia.
  destruct (Z.eq_dec n 0%Z) as [->|]; [done|].
  pose proof (Z.log2_spec n ltac:(lia)) as Hl.
  assert (2 ^ Z.succ (Z.log2 n) <= 10 ^ Z.succ (Z.log2 n))%Z; [|lia].
  apply Z.pow_le_mono_l. lia.
Qed.

Lemma FormatUint_nonempty n : bytes (FormatUint n) <> [].
Proof.
  unfold FormatUint. rewrite bytes_of_bytes. cbn [fmt_digits].
  assert (forall f m acc, acc <> [] -> fmt_digits f m acc <> []) as Hne.
  { induction f as [|f IH]; intros m acc Ha; cbn; [done|]. case_match; [done|]. by apply IH. }
  case_match; [done|]. by apply Hne.
Qed.

Lemma parse_FormatUint n :
  (0 <= n)%Z -> parse_digits (bytes (FormatUint n)) 0 = Some n.
Proof.
  intros Hn. unfold FormatUint. rewrite bytes_of_bytes, parse_fmt_digits; [done| |lia].
  split; [done|]. by apply FormatUint_fuel.
Qed.

Lemma ParseUint_FormatUint n :
  (0 <= n < 18446744073709551616)%Z -> ParseUint (FormatUint n) = Some n.
Proof.
  intros Hn. unfold ParseUint. pose proof (FormatUint_nonempty n).
  pose proof (parse_FormatUint n ltac:(lia)) as Hp.
  destruct (bytes (FormatUint n)) as [|c l]; [done|]. rewrite Hp.
  by destruct (Z.ltb_spec n 18446744073709551616); [|lia].
Qed.

Lemma FormatUint_inj a b : (0 <= a)%Z -> (0 <= b)%Z -> FormatUint a = FormatUint b -> a = b.
Proof.
  intros Ha Hb E. apply (f_equal (fun s => parse_digits (bytes s) 0)) in E.
  rewrite !parse_FormatUint in E by done. by injection E.
Qed.

(** [encoding/hex]: the value of one digit, and of a text of digit pairs. *)
Definition hex_val (c : ascii) : option Z :=
  if is_digit c then Some (code c - 48)%Z
  else if in_range "a" "f" c then Some (code c - 87)%Z
  else if in_range "A" "F" c then Some (code c - 55)%Z
  else None.

Fixpoint hex_decode (l : list ascii) : option (list Z) :=
  match l with
  | [] => Some []
  | [_] => None
  | a :: b :: l' =>
      h ← hex_val a; d ← hex_val b; r ← hex_decode l'; Some ((h * 16 + d)%Z :: r)
  end.

Definition hex_char (n : Z) : ascii :=
  ascii_of_N (Z.to_N (if (n <? 10)%Z then 48 + n else 87 + n)).
Fixpoint hex_encode (l : list Z) : list ascii :=
  match l with
  | [] => []
  | b :: l' => hex_char (b / 16)%Z :: hex_char (b mod 16)%Z :: hex_encode l'
  end.

Definition hex_of (l : list Z) : string := of_bytes (hex_encode l).

Definition is_byte (z : Z) : Prop := (0 <= z < 256)%Z.

(** A version-4 UUID made of 16 random bytes. *)
Definition format_uuid (b : list Z) : string :=
  let b := alter (fun x => Z.lor (Z.land x 15) 64) 6%nat b in
  let b := alter (fun x => Z.lor (Z.land x 63) 128) 8%nat b in
  hex_of (take 4 b) +:+ "-" +:+ hex_of (take 2 (drop 4 b)) +:+ "-" +:+
  hex_of (take 2 (drop 6 b)) +:+ "-" +:+ hex_of (take 2 (drop 8 b)) +:+ "-" +:+
  hex_of (take 6 (drop 10 b)).

Lemma format_uuid_ne b : format_uuid b <> "".
Proof.
  unfold format_uuid. intros E. apply (f_equal bytes) in E. revert E. rewrite !bytes_app. cbn.
  intros E. by apply app_eq_nil in E as [_ ?].
Qed.

Lemma hex_val_char n : (0 <= n < 16)%Z -> hex_val (hex_char n) = Some n.
Proof.
  intros H. apply (small_Z_check (fun n => bool_decide (hex_val (hex_char n) = Some n))) in H;
    [|reflexivity].
  by prop_bool.
Qed.

Lemma hex_decode_encode l : Forall is_byte l -> hex_decode (hex_encode l) = Some l.
Proof.
  induction l as [|b l IH]; [done|]. intros [Hb Hl]%Forall_cons. cbn.
  unfold is_byte in Hb.
  rewrite !hex_val_char by (split; [Z.div_mod_to_equations; lia|Z.div_mod_to_equations; lia]).
  cbn. rewrite IH by done. cbn. do 2 f_equal. pose proof (Z.div_mod b 16). lia.
Qed.

Lemma length_hex_encode l : length (hex_encode l) = (2 * length l)%nat.
Proof. induction l as [|b l IH]; [done|]. cbn. lia. Qed.

Lemma hex_encode_inj l k :
  Forall is_byte l -> Forall is_byte k -> hex_encode l = hex_encode k -> l = k.
Proof.
  intros Hl Hk E. apply (f_equal hex_decode) in E.
  rewrite !hex_decode_encode in E by done. by injection E.
Qed.

(** Letter case does not matter to a hexadecimal text. *)
Lemma hex_val_lower c v : hex_val c = Some v -> hex_char v = lower_byte c /\ (0 <= v < 16)%Z.
Proof. destruct c as [[] [] [] [] [] [] [] []]; cbn; intros [= <-]; vm_compute; repeat split; discriminate. Qed.

Lemma hex_val_lower_byte c : hex_val (lower_byte c) = hex_val c.
Proof. by destruct c as [[] [] [] [] [] [] [] []]. Qed.

Lemma hex_decode_lower l : hex_decode (map lower_byte l) = hex_decode l.
Proof.
  revert l. fix IH 1. intros [|a [|b l]]; [done|done|]. cbn.
  by rewrite !hex_val_lower_byte, IH.
Qed.

Lemma hex_decode_Some l d :
  hex_decode l = Some d -> map lower_byte l = hex_encode d /\ Forall is_byte d.
Proof.
  revert l d. fix IH 1. intros [|a [|b l]] d; cbn; [by intros [= <-]|done|].
  destruct (hex_val a) as [x|] eqn:Ha; [|done]. destruct (hex_val b) as [y|] eqn:Hb; [|done]. cbn.
  destruct (hex_decode l) as [r|] eqn:Hl; [|done]. cbn. intros [= <-].
  destruct (IH l r Hl) as [-> Hr]. apply hex_val_lower in Ha as [Ha Hx], Hb as [Hb Hy]. cbn.
  replace ((x * 16 + y) / 16)%Z with x by (Z.div_mod_to_equations; lia).
  replace ((x * 16 + y) mod 16)%Z with y by (Z.div_mod_to_equations; lia).
  rewrite Ha, Hb. split; [done|]. constructor; [unfold is_byte; lia|done].
Qed.
