(* ===== verification/Timestamp.v ===== *)
(** * Calendar dates and RFC 3339 timestamps (the part of Go's [time] the sources use)

    Instants are nanoseconds since 1970-01-01T00:00:00Z.  The civil calendar, [Time.AddDate] in UTC,
    [Time.Format] and [time.Parse] with [time.RFC3339], and the text [encoding/json] gives a time;
    with the laws the admin API and its command line rely on.  Years are those of the proleptic
    Gregorian calendar; the wrap-around of Go's internal day count, which begins beyond
    292 thousand million years, is left out. *)

From S2P Require Import Prelude.
From Stdlib Require Import ZArith Lia Ascii String.
From stdpp Require Import base gmap strings list.

#[local] Open Scope Z_scope.
#[local] Arguments is_digit : simpl never.
#[local] Arguments digit_val : simpl never.

(** ** The civil calendar *)

Definition isLeap (y : Z) : bool :=
  (y mod 4 =? 0) && (negb (y mod 100 =? 0) || (y mod 400 =? 0)).

Definition daysIn (m y : Z) : Z :=
  if (m =? 2) then (if isLeap y then 29 else 28)
  else if (m =? 4) || (m =? 6) || (m =? 9) || (m =? 11) then 30 else 31.

(** Years counted from March, so that the leap day is the last day of its year; [dayOf] is linear
    in the day of the month, as [time.Date] is for days outside the month. *)
Definition yearDays (y : Z) : Z := 365 * y + y / 4 - y / 100 + y / 400.
Definition monthDays (m : Z) : Z := (153 * m + 2) / 5.
Definition dayOf (y m d : Z) : Z :=
  let y' := if m <=? 2 then y - 1 else y in
  let m' := if m <=? 2 then m + 9 else m - 3 in
  yearDays y' + monthDays m' + d - 1 - 719468.

Definition yearInEra (e : Z) : Z := (e - e / 1460 + e / 36524 - e / 146096) / 365.

(** The date of a day of one 400-year cycle that begins on 1 March. *)
Definition dateInEra (e : Z) : Z * Z * Z :=
  let yoe := yearInEra e in
  let doy := e - yearDays yoe in
  let mp := (5 * doy + 2) / 153 in
  let d := doy - monthDays mp + 1 in
  let m := if mp <? 10 then mp + 3 else mp - 9 in
  (if m <=? 2 then yoe + 1 else yoe, m, d).

Definition daysPerEra : Z := 146097.
Definition dateOf (day : Z) : Z * Z * Z :=
  let z := day + 719468 in
  let '(y, m, d) := dateInEra (z mod daysPerEra) in
  (y + 400 * (z / daysPerEra), m, d).

Definition validDate (y m d : Z) : bool := (1 <=? m) && (m <=? 12) && (1 <=? d) && (d <=? daysIn m y).

(** ** Text *)

Definition perSecond : Z := 1000000000.
Definition secondsPerDay : Z := 86400.

(** [appendInt(b, n, width)] for [n >= 0] *)
Definition pad (width : nat) (n : Z) : string :=
  of_bytes (replicate (width - length (bytes (FormatUint n)))%nat "0"%char) +:+ FormatUint n.
Definition appendInt (width : nat) (n : Z) : string :=
  if n <? 0 then "-" +:+ pad width (- n) else pad width n.

Definition formatDate (y m d : Z) : string :=
  appendInt 4 y +:+ "-" +:+ pad 2 m +:+ "-" +:+ pad 2 d.
Definition formatClock (s : Z) : string :=
  pad 2 (s / 3600) +:+ ":" +:+ pad 2 (s / 60 mod 60) +:+ ":" +:+ pad 2 (s mod 60).
Definition formatSeconds (t : Z) : string :=
  let s := t / perSecond in
  let '(y, m, d) := dateOf (s / secondsPerDay) in
  formatDate y m d +:+ "T" +:+ formatClock (s mod secondsPerDay).

(** [t.UTC().Format(time.RFC3339)] *)
Definition FormatRFC3339 (t : Z) : string := formatSeconds t +:+ "Z".

(** The fraction [MarshalJSON] writes: nine digits without their trailing zeros. *)
Definition fraction (ns : Z) : string :=
  if ns =? 0 then ""
  else "." +:+ trim_right_with (Ascii.eqb "0") (pad 9 ns).
Definition MarshalTime (t : Z) : string := formatSeconds t +:+ fraction (t mod perSecond) +:+ "Z".

(** ** Parsing ([parse] with the layout [2006-01-02T15:04:05Z07:00]) *)

Definition isDigitAt (l : list ascii) (i : nat) : bool :=
  match l !! i with Some c => is_digit c | None => false end.

(** [getnum]: two digits, or one where [fixed] does not ask for two *)
Definition getnum (fixed : bool) (l : list ascii) : option (Z * list ascii) :=
  match l with
  | a :: l' =>
      if is_digit a then
        match l' with
        | b :: l'' =>
            if is_digit b then Some (digit_val a * 10 + digit_val b, l'')
            else if fixed then None else Some (digit_val a, l')
        | [] => if fixed then None else Some (digit_val a, l')
        end
      else None
  | [] => None
  end.

Definition expect (c : ascii) (l : list ascii) : option (list ascii) :=
  match l with d :: l' => if Ascii.eqb c d then Some l' else None | [] => None end.

Definition getyear (l : list ascii) : option (Z * list ascii) :=
  match l with
  | a :: b :: c :: d :: l' => y ← parse_digits [a; b; c; d] 0; Some (y, l')
  | _ => None
  end.

(** The digits of a fraction of a second, if there is one. *)
Fixpoint takeDigits (l : list ascii) : list ascii * list ascii :=
  match l with
  | c :: l' => if is_digit c then let '(ds, r) := takeDigits l' in (c :: ds, r) else ([], l)
  | [] => ([], [])
  end.
Definition parseNanoseconds (ds : list ascii) : option Z :=
  let ds := take 9 ds in
  v ← parse_digits ds 0; Some (v * 10 ^ (9 - Z.of_nat (length ds))).
Definition getfraction (l : list ascii) : option (Z * list ascii) :=
  match l with
  | c :: l' =>
      if (Ascii.eqb c "." || Ascii.eqb c ",") && isDigitAt l' 0 then
        let '(ds, r) := takeDigits l' in
        ns ← parseNanoseconds ds; Some (ns, r)
      else Some (0, l)
  | [] => Some (0, l)
  end.

(** The zone offset, in seconds. *)
Definition getzone (l : list ascii) : option (Z * list ascii) :=
  match l with
  | c :: l' =>
      if Ascii.eqb c "Z" then Some (0, l')
      else
        sign ← if Ascii.eqb c "+" then Some 1 else if Ascii.eqb c "-" then Some (-1) else None;
        '(hr, l1) ← getnum true l';
        l2 ← expect ":" l1;
        '(mm, l3) ← getnum true l2;
        if (24 <? hr) || (60 <? mm) then None else Some (sign * (hr * 3600 + mm * 60), l3)
  | [] => None
  end.

Definition parseFields (l : list ascii) : option Z :=
  '(y, l) ← getyear l; l ← expect "-" l;
  '(mo, l) ← getnum true l; l ← expect "-" l;
  '(d, l) ← getnum true l; l ← expect "T" l;
  '(h, l) ← getnum false l; l ← expect ":" l;
  '(mi, l) ← getnum true l; l ← expect ":" l;
  '(s, l) ← getnum true l;
  '(ns, l) ← getfraction l;
  '(off, l) ← getzone l;
  if bool_decide (l = []) && validDate y mo d && (h <? 24) && (mi <? 60) && (s <? 60)
  then Some ((dayOf y mo d * secondsPerDay + h * 3600 + mi * 60 + s - off) * perSecond + ns)
  else None.

(** [time.Parse(time.RFC3339, s)] *)
Definition ParseRFC3339 (s : string) : option Z := parseFields (bytes s).

(** [t.AddDate(years, 0, days)] in UTC; the sum of seconds wraps as an [int64]. *)
Definition AddDate (t years days : Z) : Z :=
  let s := t / perSecond in
  let '(y, m, d) := dateOf (s / secondsPerDay) in
  i64 (dayOf (i64 (y + years)) m (i64 (d + days)) * secondsPerDay + s mod secondsPerDay) * perSecond
  + t mod perSecond.

(** ** The calendar is exact *)

Lemma yearInEra_mono e f : 0 <= e <= f -> yearInEra e <= yearInEra f.
Proof.
  intros [He Hf]. assert (exists n, f = e + Z.of_nat n) as [n ->] by (exists (Z.to_nat (f - e)); lia).
  clear Hf. induction n as [|n IH]; [by rewrite Z.add_0_r|].
  etrans; [exact IH|]. unfold yearInEra. set (x := e + Z.of_nat n).
  replace (e + Z.of_nat (S n)) with (x + 1) by lia. assert (0 <= x) by lia. clearbody x.
  apply Z.div_le_mono; [lia|]. Z.div_mod_to_equations. lia.
Qed.

(** The first and the last day of a year, and its length. *)
Definition yearOk (y : Z) : bool :=
  (yearInEra (yearDays y) =? y) && (yearInEra (yearDays (y + 1) - 1) =? y) &&
  (yearDays (y + 1) - yearDays y =? if isLeap (y + 1) then 366 else 365) && (0 <=? yearDays y).

Lemma yearOk_all y : 0 <= y < 400 -> yearOk y = true.
Proof. by apply (small_Z_check yearOk). Qed.

Lemma year_of_day n e : 0 <= e < yearDays (Z.of_nat n) ->
  exists y, 0 <= y < Z.of_nat n /\ yearDays y <= e < yearDays (y + 1).
Proof.
  induction n as [|n IH]; [change (yearDays (Z.of_nat 0)) with 0; lia|]. intros He.
  replace (Z.of_nat (S n)) with (Z.of_nat n + 1) in * by lia.
  destruct (Z.lt_ge_cases e (yearDays (Z.of_nat n))) as [Hlt|Hge].
  - destruct IH as (y & Hy & Hd); [lia|]. exists y. lia.
  - exists (Z.of_nat n). lia.
Qed.

(** The month and the day of the month, for a day of a year counted from March. *)
Definition dayOfYearOk (doy : Z) : bool :=
  let mp := (5 * doy + 2) / 153 in
  let d := doy - monthDays mp + 1 in
  let m := if mp <? 10 then mp + 3 else mp - 9 in
  let y (leap : bool) := if leap then 4 else 1 in
  let fits leap := (1 <=? m) && (m <=? 12) && (1 <=? d) && (d <=? daysIn m (y leap)) in
  fits true && ((365 <=? doy) || fits false) &&
  (mp =? if m <=? 2 then m + 9 else m - 3).

Lemma dayOfYearOk_all doy : 0 <= doy < 366 -> dayOfYearOk doy = true.
Proof. by apply (small_Z_check dayOfYearOk). Qed.

Lemma daysIn_leap m y y' : isLeap y = isLeap y' -> daysIn m y = daysIn m y'.
Proof. unfold daysIn. by intros ->. Qed.

Lemma daysIn_year m y : m <> 2 -> daysIn m y = daysIn m 4.
Proof. unfold daysIn. by destruct (Z.eqb_spec m 2). Qed.

Lemma era_day e :
  0 <= e < daysPerEra ->
  let '(y, m, d) := dateInEra e in dayOf y m d = e - 719468 /\ validDate y m d = true.
Proof.
  intros He. destruct (year_of_day 400 e) as (y & Hy & Hd); [exact He|].
  pose proof (yearOk_all y Hy) as Hok. unfold yearOk in Hok. prop_bool.
  assert (yearInEra e = y) as Hye.
  { pose proof (yearInEra_mono (yearDays y) e) as Hl. pose proof (yearInEra_mono e (yearDays (y + 1) - 1)) as Hu. lia. }
  unfold dateInEra. rewrite Hye. cbv zeta. set (doy := e - yearDays y).
  assert (0 <= doy < 366) as Hdoy by (destruct (isLeap (y + 1)); lia).
  pose proof (dayOfYearOk_all doy Hdoy) as Hm. unfold dayOfYearOk in Hm. cbv zeta in Hm.
  set (mp := (5 * doy + 2) / 153) in *. set (m := if mp <? 10 then mp + 3 else mp - 9) in *.
  set (d := doy - monthDays mp + 1) in *. apply andb_true_iff in Hm as [[Hf Hg]%andb_true_iff Hmp].
  apply Z.eqb_eq in Hmp. split.
  - unfold dayOf. destruct (m <=? 2).
    + replace (y + 1 - 1) with y by lia. rewrite <- Hmp. lia.
    + rewrite <- Hmp. lia.
  - unfold validDate. prop_bool. rewrite !andb_true_iff, !Z.leb_le. split_and!; try done.
    destruct (Z.leb_spec m 2) as [Hm2|Hm2]; [|rewrite daysIn_year; [done|lia]].
    destruct (isLeap (y + 1)) eqn:Hl; [by rewrite (daysIn_leap m _ 4)|].
    rewrite (daysIn_leap m _ 1) by done. apply orb_true_iff in Hg as [Hg%Z.leb_le|Hg]; [lia|].
    prop_bool. done.
Qed.

Lemma yearDays_era y k : yearDays (y + 400 * k) = yearDays y + daysPerEra * k.
Proof.
  unfold yearDays, daysPerEra.
  replace (y + 400 * k) with (y + (100 * k) * 4) at 2 by lia.
  replace (y + 400 * k) with (y + (4 * k) * 100) at 2 by lia.
  replace (y + 400 * k) with (y + k * 400) at 2 by lia.
  rewrite !Z.div_add by lia. lia.
Qed.

Lemma isLeap_era y k : isLeap (y + 400 * k) = isLeap y.
Proof.
  unfold isLeap.
  replace ((y + 400 * k) mod 4) with (y mod 4) by (rewrite <- (Z.mod_add y (100 * k)) by lia; f_equal; lia).
  replace ((y + 400 * k) mod 100) with (y mod 100) by (rewrite <- (Z.mod_add y (4 * k)) by lia; f_equal; lia).
  replace ((y + 400 * k) mod 400) with (y mod 400) by (rewrite <- (Z.mod_add y k) by lia; f_equal; lia).
  done.
Qed.

Lemma validDate_era y k m d : validDate (y + 400 * k) m d = validDate y m d.
Proof. unfold validDate, daysIn. by rewrite isLeap_era. Qed.

Lemma dayOf_era y k m d : dayOf (y + 400 * k) m d = dayOf y m d + daysPerEra * k.
Proof.
  unfold dayOf. destruct (m <=? 2); [|rewrite yearDays_era; lia].
  replace (y + 400 * k - 1) with (y - 1 + 400 * k) by lia. rewrite yearDays_era. lia.
Qed.

(** Every day has a valid date, and the date is that day's. *)
Lemma dateOf_spec day : let '(y, m, d) := dateOf day in dayOf y m d = day /\ validDate y m d = true.
Proof.
  unfold dateOf. set (z := day + 719468).
  assert (0 <= z mod daysPerEra < daysPerEra) as Hz by (apply Z.mod_pos_bound; done).
  pose proof (era_day _ Hz) as Hok.
  destruct (dateInEra (z mod daysPerEra)) as [[y m] d]. destruct Hok as [Hd Hv].
  rewrite dayOf_era, validDate_era. split; [|done].
  pose proof (Z.div_mod z daysPerEra ltac:(done)). lia.
Qed.

(** ** Round trips of the text *)

Lemma parse_digits_app l k a : parse_digits (l ++ k) a = (v ← parse_digits l a; parse_digits k v).
Proof. revert a. induction l as [|c l IH]; intros a; [done|]. cbn. by destruct (is_digit c). Qed.

Lemma parse_zeros n l : parse_digits (replicate n "0"%char ++ l) 0 = parse_digits l 0.
Proof. induction n as [|n IH]; [done|]. exact IH. Qed.

Lemma parse_digits_zeros n v : parse_digits (replicate n "0"%char) v = Some (v * 10 ^ Z.of_nat n).
Proof.
  revert v. induction n as [|n IH]; intros v; [cbn; f_equal; lia|]. cbn [replicate parse_digits].
  change (is_digit "0") with true. change (digit_val "0") with 0. cbn match. rewrite IH. f_equal.
  rewrite Nat2Z.inj_succ, Z.pow_succ_r by lia. lia.
Qed.

Lemma fmt_digits_length w fuel n acc :
  0 <= n < 10 ^ Z.of_nat (S w) -> (length (fmt_digits fuel n acc) <= S w + length acc)%nat.
Proof.
  revert w n acc. induction fuel as [|f IH]; intros w n acc Hn; cbn [fmt_digits]; [lia|].
  destruct (Z.ltb_spec n 10); [cbn; lia|]. rewrite Nat2Z.inj_succ, Z.pow_succ_r in Hn by lia.
  destruct w as [|w]; [cbn in Hn; lia|]. rewrite (IH w).
  - cbn. lia.
  - split; [apply Z.div_pos; lia|]. apply Z.div_lt_upper_bound; lia.
Qed.

(** A padded number has exactly the digits asked for, and reads back. *)
Lemma pad_spec w n :
  0 <= n < 10 ^ Z.of_nat (S w) ->
  length (bytes (pad (S w) n)) = S w /\ parse_digits (bytes (pad (S w) n)) 0 = Some n.
Proof.
  intros Hn. unfold pad. rewrite bytes_app, bytes_of_bytes, length_app, length_replicate. split.
  - assert (length (bytes (FormatUint n)) <= S w)%nat; [|lia].
    unfold FormatUint. rewrite bytes_of_bytes.
    pose proof (fmt_digits_length w (S (Z.to_nat (Z.log2 n))) n [] Hn) as Hl.
    rewrite Nat.add_0_r in Hl. exact Hl.
  - rewrite parse_zeros. apply parse_FormatUint. by destruct Hn.
Qed.

Lemma parse_cons c l v n :
  parse_digits (c :: l) v = Some n -> is_digit c = true /\ parse_digits l (v * 10 + digit_val c) = Some n.
Proof. cbn. by destruct (is_digit c). Qed.

Lemma getnum_pad fixed n l : 0 <= n < 100 -> getnum fixed (bytes (pad 2 n) ++ l) = Some (n, l).
Proof.
  intros Hn. destruct (pad_spec 1 n Hn) as [Hl Hp].
  destruct (bytes (pad 2 n)) as [|a [|b [|x r]]]; try discriminate Hl.
  apply parse_cons in Hp as [Ha [Hb Hp]%parse_cons]. cbn in Hp. injection Hp as Hp.
  cbn. rewrite Ha, Hb. do 2 f_equal. lia.
Qed.

Lemma getyear_pad n l : 0 <= n < 10000 -> getyear (bytes (pad 4 n) ++ l) = Some (n, l).
Proof.
  intros Hn. destruct (pad_spec 3 n Hn) as [Hl Hp].
  destruct (bytes (pad 4 n)) as [|a [|b [|c [|d [|x r]]]]]; try discriminate Hl.
  cbn [app getyear]. by rewrite Hp.
Qed.

Lemma expect_here c l : expect c (c :: l) = Some l.
Proof. cbn. by rewrite Ascii.eqb_refl. Qed.

Lemma takeDigits_app ds l :
  forallb is_digit ds = true -> isDigitAt l 0 = false -> takeDigits (ds ++ l) = (ds, l).
Proof.
  intros Hd Hl. induction ds as [|c ds IH].
  - destruct l as [|c l]; [done|]. cbn in *. by rewrite Hl.
  - cbn in Hd. apply andb_true_iff in Hd as [Hc Hd]. cbn. by rewrite Hc, IH.
Qed.

Lemma parse_digits_digits l v n : parse_digits l v = Some n -> forallb is_digit l = true.
Proof. revert v. induction l as [|c l IH]; intros v; [done|]. intros [Hc H]%parse_cons. cbn. rewrite Hc. by eapply IH. Qed.

(** Nine digits without their trailing zeros. *)
Lemma strip_zeros l :
  exists n, l = bytes (trim_right_with (Ascii.eqb "0") (of_bytes l)) ++ replicate n "0"%char.
Proof.
  unfold trim_right_with. rewrite !bytes_of_bytes.
  induction l as [|c l [n IH]] using rev_ind; [by exists 0%nat|].
  rewrite rev_unit. cbn [drop_while]. destruct (Ascii.eqb_spec "0" c) as [<-|Hc].
  - exists (S n). rewrite IH at 1. rewrite <- app_assoc. f_equal. by rewrite replicate_S_end.
  - exists 0%nat. cbn [replicate rev]. by rewrite app_nil_r, rev_involutive.
Qed.

Lemma getfraction_here ns l :
  0 <= ns < perSecond -> isDigitAt l 0 = false -> (forall c r, l = c :: r -> c <> "."%char /\ c <> ","%char) ->
  getfraction (bytes (fraction ns) ++ l) = Some (ns, l).
Proof.
  intros Hns Hl Hc. unfold fraction. destruct (Z.eqb_spec ns 0) as [->|Hne].
  { cbn [bytes list_ascii_of_string app]. destruct l as [|c r]; [done|]. cbn [getfraction].
    destruct (Hc c r eq_refl) as [H1 H2].
    destruct (Ascii.eqb_spec c "."); [done|]. by destruct (Ascii.eqb_spec c ","). }
  destruct (pad_spec 8 ns Hns) as [Hlen Hp]. revert Hlen Hp.
  destruct (strip_zeros (bytes (pad 9 ns))) as [n E]. rewrite of_bytes_bytes in E.
  set (ds := bytes (trim_right_with _ _)) in *. rewrite E. intros Hlen Hp.
  rewrite length_app, length_replicate in Hlen. rewrite parse_digits_app in Hp.
  destruct (parse_digits ds 0) as [v|] eqn:Hv; [|done]. cbn in Hp. rewrite parse_digits_zeros in Hp.
  injection Hp as Hp. rewrite bytes_app. fold ds. change (bytes ".") with ["."%char].
  assert (forallb is_digit ds = true) as Hds by by eapply parse_digits_digits.
  assert (isDigitAt (ds ++ l) 0 = true) as H0.
  { destruct ds as [|d ds']; [injection Hv as <-; lia|]. cbn in *. by apply andb_true_iff in Hds as [-> _]. }
  cbn [app getfraction]. rewrite H0. change (Ascii.eqb "." ".") with true. cbn [orb andb].
  rewrite takeDigits_app by done.
  unfold parseNanoseconds. rewrite take_ge by lia. rewrite Hv. cbn. do 2 f_equal. rewrite <- Hp. f_equal. f_equal. lia.
Qed.

(** The instants whose year has four digits. *)
Definition fourDigitYear (t : Z) : Prop :=
  let '(y, _, _) := dateOf (t / perSecond / secondsPerDay) in 0 <= y <= 9999.

Lemma clock_fields s : 0 <= s < secondsPerDay ->
  s / 3600 < 24 /\ 0 <= s / 3600 /\ 0 <= s / 60 mod 60 < 60 /\ 0 <= s mod 60 < 60 /\
  s = s / 3600 * 3600 + s / 60 mod 60 * 60 + s mod 60.
Proof. unfold secondsPerDay. intros Hs. Z.div_mod_to_equations. lia. Qed.

(** Whatever follows the seconds, they are read back. *)
Lemma parse_formatSeconds t frac ns zone off :
  fourDigitYear t ->
  getfraction (bytes frac ++ bytes zone) = Some (ns, bytes zone) -> getzone (bytes zone) = Some (off, []) ->
  ParseRFC3339 (formatSeconds t +:+ frac +:+ zone) = Some ((t / perSecond - off) * perSecond + ns).
Proof.
  intros Hy Hfrac Hzone. unfold ParseRFC3339, formatSeconds, fourDigitYear in *.
  pose proof (dateOf_spec (t / perSecond / secondsPerDay)) as Hdate.
  destruct (dateOf (t / perSecond / secondsPerDay)) as [[y m] d]. destruct Hdate as [Hday Hv].
  pose proof (Z.mod_pos_bound (t / perSecond) secondsPerDay ltac:(done)) as Hs.
  destruct (clock_fields _ Hs) as (Hh & Hh0 & Hm & Hs0 & Hsum).
  assert (m < 100 /\ d < 100 /\ 0 <= m /\ 0 <= d) as (Hm1 & Hd1 & Hm0 & Hd0).
  { pose proof Hv as Hv'. unfold validDate in Hv'. prop_bool. split_and!; try lia.
    unfold daysIn in *. repeat case_match; lia. }
  unfold formatDate, formatClock, appendInt. rewrite (proj2 (Z.ltb_ge y 0)) by lia.
  rewrite !bytes_app, <- !app_assoc. unfold parseFields.
  change (bytes "-") with ["-"%char]. change (bytes ":") with [":"%char]. change (bytes "T") with ["T"%char].
  rewrite getyear_pad by lia. cbn [mbind option_bind app]. rewrite expect_here. cbn [mbind option_bind].
  repeat (rewrite getnum_pad by lia; cbn [mbind option_bind app]; rewrite ?expect_here; cbn [mbind option_bind]).
  rewrite Hfrac. cbn [mbind option_bind]. rewrite Hzone. cbn [mbind option_bind].
  rewrite Hv, bool_decide_true by done. rewrite !(proj2 (Z.ltb_lt _ _)) by lia. cbn [andb].
  f_equal. rewrite Hday. pose proof (Z.div_mod (t / perSecond) secondsPerDay ltac:(done)). lia.
Qed.

(** A formatted instant reads back, to the second. *)
Lemma Parse_Format t :
  fourDigitYear t -> ParseRFC3339 (FormatRFC3339 t) = Some (t / perSecond * perSecond).
Proof.
  intros Hy. unfold FormatRFC3339.
  change (formatSeconds t +:+ "Z") with (formatSeconds t +:+ ("" +:+ "Z")).
  rewrite (parse_formatSeconds t "" 0 "Z" 0); [f_equal; lia|done|done|done].
Qed.

(** A time in a JSON reply reads back exactly. *)
Lemma Parse_Marshal t : fourDigitYear t -> ParseRFC3339 (MarshalTime t) = Some t.
Proof.
  intros Hy. unfold MarshalTime. rewrite (parse_formatSeconds t _ (t mod perSecond) "Z" 0); [|done| |done].
  - f_equal. rewrite Z.sub_0_r. pose proof (Z.div_mod t perSecond ltac:(done)). lia.
  - apply getfraction_here; [by apply Z.mod_pos_bound|done|]. intros c r [= <- <-]. done.
Qed.

(** Adding days adds that many times 24 hours. *)
Lemma AddDate_days t n :
  - 2 ^ 40 <= t / perSecond < 2 ^ 40 -> - 2 ^ 40 <= n < 2 ^ 40 ->
  AddDate t 0 n = t + n * secondsPerDay * perSecond.
Proof.
  intros Ht Hn. unfold AddDate.
  pose proof (dateOf_spec (t / perSecond / secondsPerDay)) as Hdate.
  pose proof (Z.mod_pos_bound (t / perSecond) secondsPerDay ltac:(done)) as Hs.
  pose proof (Z.div_mod (t / perSecond) secondsPerDay ltac:(done)) as Hq.
  pose proof (Z.div_mod t perSecond ltac:(done)) as Hns.
  destruct (dateOf _) as [[y m] d]. destruct Hdate as [Hday Hv].
  assert (1 <= d <= 31) as Hd.
  { unfold validDate in Hv. prop_bool. unfold daysIn in *. repeat case_match; lia. }
  rewrite (i64_small (d + n)) by lia.
  assert (dayOf (i64 (y + 0)) m (d + n) = dayOf y m d + n) as Hlin.
  { rewrite Z.add_0_r. rewrite i64_small; [unfold dayOf; lia|].
    assert (- 2 ^ 50 < y < 2 ^ 50); [|lia].
    unfold secondsPerDay in *. assert (- 2^41 <= dayOf y m d <= 2 ^ 41) as Hb by (rewrite Hday; lia).
    assert (1 <= m <= 12) as Hm by (unfold validDate in Hv; prop_bool; lia).
    clear -Hb Hd Hm. unfold dayOf, yearDays, monthDays in Hb.
    destruct (m <=? 2); Z.div_mod_to_equations; lia. }
  rewrite Hlin, Hday, i64_small by (unfold secondsPerDay in *; lia). lia.
Qed.
