(* ===== verification/Auth.v ===== *)
(** * Token store and permission checks ([internal/hub/auth.go])

    The data of the [auth:] block of a hub's configuration, the runtime store built from it, and
    every authorisation decision the hub takes from that store.  Instants ([time.Time]) are
    integers (nanoseconds since the epoch); a pointer that may be nil is an [option].  A nil and an
    empty Go map read alike and are both the empty [gmap].  [time.Now()] is the argument [now].

    Theorems: each decision is the declarative policy of the ACL; a token that is unknown, revoked
    or expired decides nothing; a service filter is never empty and comes from a grant.

    The file ends with the type class [Authorizer] through which the relay asks the store, and with the
    version counters of identities ([access_version.go]). *)

From S2P Require Import Prelude.
From Stdlib Require Import ZArith Lia Ascii String.
From stdpp Require Import base gmap strings list fin_maps.

(** ** Configuration types *)

Record tokenEntry := TokenEntry {
  te_ID : string;
  te_Token : string;
  te_HubRole : string;
  te_IssuedAt : option Z;
  te_ExpiresAt : option Z;
  te_RevokedAt : option Z
}.

Record connectGrant := ConnectGrant { cg_Token : string; cg_Services : list string }.

Record machineACL := MachineACL {
  RegisterToken : string;
  ConnectTokens : list connectGrant;
  ManageTokens : list string
}.

Record authConfig := AuthConfig {
  Tokens : list tokenEntry;
  Machines : gmap string machineACL
}.

#[export] Instance tokenEntry_eq_dec : EqDecision tokenEntry.
Proof. solve_decision. Defined.
#[export] Instance connectGrant_eq_dec : EqDecision connectGrant.
Proof. solve_decision. Defined.
#[export] Instance machineACL_eq_dec : EqDecision machineACL.
Proof. solve_decision. Defined.

(** Go's zero value: what reading an absent key of [map[string]machineACL] yields. *)
Definition zeroACL : machineACL := MachineACL "" [] [].
Definition acl_of (m : gmap string machineACL) (k : string) : machineACL :=
  default zeroACL (m !! k).

Definition isRevoked (e : option tokenEntry) : bool :=
  match e with
  | Some e => bool_decide (is_Some (te_RevokedAt e))
  | None => false
  end.

Definition isExpired (e : option tokenEntry) (now : Z) : bool :=
  match e with
  | Some e => match te_ExpiresAt e with Some t => (t <? now)%Z | None => false end
  | None => false
  end.

Definition isValid (e : option tokenEntry) (now : Z) : bool :=
  match e with
  | None => false
  | Some _ => negb (isRevoked e) && negb (isExpired e now)
  end.

(** What [UnmarshalYAML] reads of a node of the YAML library: whether it is a scalar, its text,
    and the result of decoding it as [{token, services}]. *)
Record yamlNode := YamlNode {
  yn_scalar : bool;
  yn_Value : string;
  yn_Decode : option (string * list string)
}.

(** [None] is the error of [node.Decode]; a nil node leaves the grant alone. *)
Definition connectGrant_UnmarshalYAML (g : connectGrant) (node : option yamlNode)
    : option connectGrant :=
  match node with
  | None => Some g
  | Some n =>
      if yn_scalar n then Some (ConnectGrant (yn_Value n) [])
      else match yn_Decode n with
           | None => None
           | Some (t, s) => Some (ConnectGrant t s)
           end
  end.

(** ** Runtime store *)

Record authStore := AuthStore {
  enabled : bool;
  byToken : gmap string tokenEntry;
  machines : gmap string machineACL
}.

(** The loop of [newAuthStore] and [reload]: later rows win, rows without a token are skipped. *)
Definition indexTokens (ts : list tokenEntry) : gmap string tokenEntry :=
  fold_left (fun m e => if te_Token e <>s "" then <[te_Token e := e]> m else m) ts ∅.

Definition newAuthStore (cfg : option authConfig) : authStore :=
  match cfg with
  | None => AuthStore false ∅ ∅
  | Some c =>
      match Tokens c with
      | [] => AuthStore false ∅ ∅
      | _ => AuthStore true (indexTokens (Tokens c)) (Machines c)
      end
  end.

Definition validEntry (s : authStore) (now : Z) (token : string) : option tokenEntry :=
  if token =s "" then None
  else match byToken s !! token with
       | None => None
       | Some e => if isValid (Some e) now then Some e else None
       end.

Definition isEnabled (s : authStore) : bool := enabled s.

Definition identityID (s : authStore) (now : Z) (token : string) : string :=
  if token =s "" then ""
  else match validEntry s now token with Some e => te_ID e | None => "" end.

(** The test [e.HubRole == "owner" || e.HubRole == "admin"] on a possibly nil entry. *)
Definition ownerOrAdminRole (e : option tokenEntry) : bool :=
  match e with
  | Some e => (te_HubRole e =s "owner") || (te_HubRole e =s "admin")
  | None => false
  end.

Definition isOwnerOrAdmin (s : authStore) (now : Z) (token : string) : bool :=
  if negb (enabled s) then false else ownerOrAdminRole (validEntry s now token).

Definition valid (s : authStore) (now : Z) (token : string) : bool :=
  match validEntry s now token with Some _ => true | None => false end.

Definition canRegister (s : authStore) (now : Z) (token machineID : string) : bool :=
  if negb (enabled s) then true
  else if ownerOrAdminRole (validEntry s now token) then true
  else match machines s !! machineID with
       | None => false
       | Some acl =>
           if RegisterToken acl <>s "" then
             if RegisterToken acl <>s token then false else valid s now token
           else valid s now token
       end.

Definition inTokenList (l : list string) (target : string) : bool :=
  existsb (fun v => v =s target) l.

Fixpoint findConnectGrant (grants : list connectGrant) (target : string) : option connectGrant :=
  match grants with
  | [] => None
  | g :: grants' => if cg_Token g =s target then Some g else findConnectGrant grants' target
  end.

Definition hasConnectGrant (grants : list connectGrant) (target : string) : bool :=
  match findConnectGrant grants target with Some _ => true | None => false end.

Definition canConnect (s : authStore) (now : Z) (token machineID : string) : bool :=
  if negb (enabled s) then true
  else if ownerOrAdminRole (validEntry s now token) then true
  else if negb (valid s now token) then false
  else if hasConnectGrant (ConnectTokens (acl_of (machines s) machineID)) token then true
  else hasConnectGrant (ConnectTokens (acl_of (machines s) "*")) token.

(** [Some names] is [(names, true)]; [None] is [(nil, false)], "all services". *)
Definition connectServicesFilter (s : authStore) (now : Z) (token machineID : string)
    : option (list string) :=
  if negb (enabled s) then None
  else if match validEntry s now token with
          | Some e => ownerOrAdminRole (Some e) || (te_HubRole e =s "viewer")
          | None => false
          end then None
  else match findConnectGrant (ConnectTokens (acl_of (machines s) machineID)) token with
       | Some g => match cg_Services g with [] => None | sv => Some sv end
       | None =>
           match findConnectGrant (ConnectTokens (acl_of (machines s) "*")) token with
           | Some g => match cg_Services g with [] => None | sv => Some sv end
           | None => None
           end
       end.

Definition canManage (s : authStore) (now : Z) (token machineID : string) : bool :=
  if negb (enabled s) then true
  else if ownerOrAdminRole (validEntry s now token) then true
  else if negb (valid s now token) then false
  else if inTokenList (ManageTokens (acl_of (machines s) machineID)) token then true
  else inTokenList (ManageTokens (acl_of (machines s) "*")) token.

Definition isViewer (s : authStore) (now : Z) (token : string) : bool :=
  if token =s "" then false
  else if negb (enabled s) then false
  else match validEntry s now token with
       | Some e => te_HubRole e =s "viewer"
       | None => false
       end.

Definition canViewMachine (s : authStore) (now : Z) (token machineID : string) : bool :=
  if isViewer s now token then true else canConnect s now token machineID.

(** The first viewer in the order the map is ranged over; its validity is not examined. *)
Definition consoleViewerToken `{RangeOrder} (s : authStore) : string :=
  match find_first (fun kv => te_HubRole kv.2 =s "viewer") (range (byToken s)) with
  | Some kv => te_Token kv.2
  | None => ""
  end.

Definition removeConnectGrant (grants : list connectGrant) (target : string)
    : list connectGrant :=
  filter (fun g => cg_Token g ≠ target) grants.

(** The rewritten slice and whether an entry changed. *)
Definition replaceConnectGrantToken (grants : list connectGrant) (oldToken newToken : string)
    : list connectGrant * bool :=
  (map (fun g => if cg_Token g =s oldToken then ConnectGrant newToken (cg_Services g) else g)
     grants,
   existsb (fun g => cg_Token g =s oldToken) grants).

(** [reload] overwrites every field, so the previous store does not matter. *)
Definition reload (s : authStore) (cfg : option authConfig) : authStore :=
  let s := AuthStore (enabled s) ∅ ∅ in
  match cfg with
  | None => AuthStore false (byToken s) (machines s)
  | Some c =>
      match Tokens c with
      | [] => AuthStore false (byToken s) (machines s)
      | _ => AuthStore true (indexTokens (Tokens c)) (Machines c)
      end
  end.

Definition toConfig `{RangeOrder} (s : authStore) : authConfig :=
  AuthConfig (map snd (range (byToken s))) (machines s).

(** A 32-byte random value as 64 hexadecimal digits; the bytes are the argument, [None] is the
    error of [rand.Read]. *)
Definition generateToken (b : option (list Z)) : option string :=
  (fun l => of_bytes (hex_encode l)) <$> b.

(** ** Lemmas *)

(** The declarative side of the decisions. *)
Definition live (e : tokenEntry) (now : Z) : Prop :=
  te_RevokedAt e = None /\ match te_ExpiresAt e with Some t => (now <= t)%Z | None => True end.

(** [e] is the entry a request carrying [token] is authorised as. *)
Definition authenticates (s : authStore) (now : Z) (token : string) (e : tokenEntry) : Prop :=
  token <> "" /\ byToken s !! token = Some e /\ live e now.

Definition privileged (e : tokenEntry) : Prop :=
  te_HubRole e = "owner" \/ te_HubRole e = "admin".

Definition granted (s : authStore) (token machineID : string) : Prop :=
  exists g, g ∈ ConnectTokens (acl_of (machines s) machineID) /\ cg_Token g = token.

Lemma isValid_live e now : isValid (Some e) now = true <-> live e now.
Proof.
  unfold isValid, isRevoked, isExpired, live.
  rewrite andb_true_iff, !negb_true_iff, bool_decide_eq_false, <- eq_None_not_Some.
  destruct (te_ExpiresAt e); [rewrite Z.ltb_ge|]; naive_solver.
Qed.

Lemma validEntry_Some s now token e :
  validEntry s now token = Some e <-> authenticates s now token e.
Proof.
  unfold validEntry, authenticates. rewrite <- isValid_live.
  case_bool_decide as Ht; [naive_solver|].
  destruct (byToken s !! token) as [e'|]; [|naive_solver].
  destruct (isValid (Some e') now) eqn:E.
  - split; [by intros [= <-]|]. by intros (_ & [= ->] & _).
  - split; [done|]. intros (_ & [= ->] & ?). congruence.
Qed.

Lemma valid_iff s now token :
  valid s now token = true <-> exists e, authenticates s now token e.
Proof.
  unfold valid. setoid_rewrite <- validEntry_Some.
  destruct (validEntry s now token); naive_solver.
Qed.

Lemma valid_false s now token :
  valid s now token = false <-> validEntry s now token = None.
Proof. unfold valid. by destruct (validEntry s now token). Qed.

Lemma ownerOrAdminRole_iff s now token :
  ownerOrAdminRole (validEntry s now token) = true <->
  exists e, authenticates s now token e /\ privileged e.
Proof.
  setoid_rewrite <- validEntry_Some. unfold ownerOrAdminRole, privileged.
  destruct (validEntry s now token); [|naive_solver].
  rewrite orb_true_iff, !bool_decide_eq_true. naive_solver.
Qed.

Lemma inTokenList_iff l t : inTokenList l t = true <-> t ∈ l.
Proof.
  unfold inTokenList. rewrite existsb_elem_of.
  setoid_rewrite bool_decide_eq_true. naive_solver.
Qed.

Lemma findConnectGrant_Some grants t g :
  findConnectGrant grants t = Some g -> g ∈ grants /\ cg_Token g = t.
Proof.
  induction grants as [|h grants IH]; [done|]. cbn. case_bool_decide as E.
  - intros [= <-]. split; [left|done].
  - intros H. destruct (IH H). split; [by right|done].
Qed.

Lemma hasConnectGrant_iff grants t :
  hasConnectGrant grants t = true <-> exists g, g ∈ grants /\ cg_Token g = t.
Proof.
  unfold hasConnectGrant. induction grants as [|h grants IH]; cbn.
  - split; [done|]. intros (g & Hg & _). by apply elem_of_nil in Hg.
  - case_bool_decide as E.
    + split; [|done]. intros _. exists h. split; [left|done].
    + rewrite IH. split.
      * intros (g & Hg & Ht). exists g. split; [by right|done].
      * intros (g & [->|Hg]%elem_of_cons & Ht); [done|by exists g].
Qed.

Lemma hasConnectGrant_acl s m t :
  hasConnectGrant (ConnectTokens (acl_of (machines s) m)) t = true <-> granted s t m.
Proof. apply hasConnectGrant_iff. Qed.

Lemma hasConnectGrant_remove grants t t' :
  hasConnectGrant (removeConnectGrant grants t) t' =
  if t' =s t then false else hasConnectGrant grants t'.
Proof.
  apply eq_true_iff_eq. unfold removeConnectGrant.
  case_bool_decide as E; rewrite hasConnectGrant_iff; setoid_rewrite list_elem_of_filter.
  - naive_solver.
  - rewrite hasConnectGrant_iff. naive_solver.
Qed.

Lemma hasConnectGrant_app g1 g2 t :
  hasConnectGrant (g1 ++ g2) t = hasConnectGrant g1 t || hasConnectGrant g2 t.
Proof.
  apply eq_true_iff_eq. rewrite orb_true_iff, !hasConnectGrant_iff.
  setoid_rewrite elem_of_app. naive_solver.
Qed.

Lemma findConnectGrant_replace_new grants o n :
  hasConnectGrant grants n = false ->
  findConnectGrant (fst (replaceConnectGrantToken grants o n)) n =
  (fun g => ConnectGrant n (cg_Services g)) <$> findConnectGrant grants o.
Proof.
  unfold hasConnectGrant. cbn.
  induction grants as [|g grants IH]; [done|]. cbn.
  repeat case_bool_decide; cbn; subst; try done; by auto.
Qed.

Lemma hasConnectGrant_replace_old grants o n :
  o <> n -> hasConnectGrant (fst (replaceConnectGrantToken grants o n)) o = false.
Proof.
  intros Hne. apply not_true_iff_false. rewrite hasConnectGrant_iff. cbn.
  intros (g & Hg & Ht). apply list_elem_of_fmap in Hg as (h & -> & _).
  case_bool_decide; cbn in *; congruence.
Qed.

(** Rows of the configuration and the index built from them. *)
Lemma indexTokens_snoc ts e :
  indexTokens (ts ++ [e]) =
  if te_Token e <>s "" then <[te_Token e := e]> (indexTokens ts) else indexTokens ts.
Proof. unfold indexTokens. by rewrite fold_left_app. Qed.

Lemma indexTokens_Some ts t e :
  indexTokens ts !! t = Some e -> e ∈ ts /\ te_Token e = t /\ t <> "".
Proof.
  induction ts as [|x ts IH] using rev_ind; [done|].
  rewrite indexTokens_snoc, elem_of_app, list_elem_of_singleton.
  case_bool_decide as E; cbn; [naive_solver|].
  rewrite lookup_insert. case_decide; naive_solver.
Qed.

Lemma indexTokens_None ts t :
  indexTokens ts !! t = None <-> t = "" \/ forall e, e ∈ ts -> te_Token e <> t.
Proof.
  induction ts as [|x ts IH] using rev_ind.
  - split; [|done]. intros _. right. intros e He. by apply elem_of_nil in He.
  - rewrite indexTokens_snoc. setoid_rewrite elem_of_app.
    setoid_rewrite list_elem_of_singleton. case_bool_decide as E; cbn.
    + rewrite IH. destruct (decide (t = "")); naive_solver.
    + rewrite lookup_insert. case_decide as E'; [naive_solver|]. rewrite IH. naive_solver.
Qed.

(** With no two rows of the same token every row is indexed. *)
Lemma indexTokens_elem ts e :
  NoDup (te_Token <$> ts) -> e ∈ ts -> te_Token e <> "" ->
  indexTokens ts !! te_Token e = Some e.
Proof.
  intros Hnd He Ht.
  destruct (indexTokens ts !! te_Token e) as [e'|] eqn:E.
  - apply indexTokens_Some in E as (He' & Heq & _). f_equal.
    apply list_elem_of_lookup in He as [i Hi], He' as [j Hj].
    assert (i = j) as ->; [|congruence].
    eapply (NoDup_lookup (te_Token <$> ts)); [done|..].
    + by rewrite list_lookup_fmap, Hi.
    + by rewrite list_lookup_fmap, Hj; cbn; rewrite Heq.
  - apply indexTokens_None in E as [?|E]; [done|]. by destruct (E e He).
Qed.

Lemma newAuthStore_nonempty c :
  Tokens c <> [] ->
  newAuthStore (Some c) = AuthStore true (indexTokens (Tokens c)) (Machines c).
Proof. cbn. by destruct (Tokens c). Qed.

(** A caller whose role test fails authenticates no privileged entry. *)
Lemma nonprivileged s now token e :
  ownerOrAdminRole (validEntry s now token) = false ->
  authenticates s now token e -> ~ privileged e.
Proof.
  intros Hp He Hpr. apply not_true_iff_false in Hp. apply Hp, ownerOrAdminRole_iff. by exists e.
Qed.

(** The guard sequence [canConnect] and [canManage] share, over the two list tests. *)
Lemma role_or_list_shape s now token (onMachine onWildcard : bool) :
  (if negb (enabled s) then true
   else if ownerOrAdminRole (validEntry s now token) then true
   else if negb (valid s now token) then false
   else if onMachine then true else onWildcard) = true <->
  enabled s = false \/
  exists e, authenticates s now token e /\
            (privileged e \/ onMachine = true \/ onWildcard = true).
Proof.
  destruct (enabled s); cbn; [|naive_solver].
  destruct (ownerOrAdminRole _) eqn:Hp.
  - apply ownerOrAdminRole_iff in Hp. naive_solver.
  - pose proof (fun e => nonprivileged s now token e Hp) as Hnp.
    destruct (valid s now token) eqn:Hv; cbn.
    + apply valid_iff in Hv as [e He]. destruct onMachine, onWildcard; naive_solver.
    + split; [done|]. intros [|(e & He & _)]; [done|].
      assert (valid s now token = true); [|congruence]. apply valid_iff. by exists e.
Qed.

(** The policy of connecting to a machine. *)
Definition may_connect (s : authStore) (now : Z) (token m : string) : Prop :=
  enabled s = false \/
  exists e, authenticates s now token e /\
            (privileged e \/ granted s token m \/ granted s token "*").

Lemma canConnect_iff s now token m : canConnect s now token m = true <-> may_connect s now token m.
Proof.
  unfold may_connect.
  setoid_rewrite <- hasConnectGrant_acl. apply role_or_list_shape.
Qed.

(** The policy of managing a machine. *)
Definition may_manage (s : authStore) (now : Z) (token m : string) : Prop :=
  enabled s = false \/
  exists e, authenticates s now token e /\
            (privileged e \/ token ∈ ManageTokens (acl_of (machines s) m)
             \/ token ∈ ManageTokens (acl_of (machines s) "*")).

Lemma canManage_iff s now token m : canManage s now token m = true <-> may_manage s now token m.
Proof.
  unfold may_manage.
  setoid_rewrite <- inTokenList_iff. apply role_or_list_shape.
Qed.

(** The policy of registering a machine. *)
Definition may_register (s : authStore) (now : Z) (token m : string) : Prop :=
  enabled s = false \/
  exists e, authenticates s now token e /\
            (privileged e \/
             exists acl, machines s !! m = Some acl /\
                         (RegisterToken acl = "" \/ RegisterToken acl = token)).

Lemma canRegister_iff s now token m : canRegister s now token m = true <-> may_register s now token m.
Proof.
  unfold may_register, canRegister. destruct (enabled s); cbn; [|naive_solver].
  destruct (ownerOrAdminRole _) eqn:Hp.
  - apply ownerOrAdminRole_iff in Hp. naive_solver.
  - pose proof (fun e => nonprivileged s now token e Hp) as Hnp.
    destruct (machines s !! m) as [acl|]; [|naive_solver].
    repeat case_bool_decide; cbn; rewrite ?valid_iff; naive_solver.
Qed.

(** A token that authenticates nothing decides nothing. *)
Lemma unauthenticated_denied s now token m :
  enabled s = true -> (forall e, ~ authenticates s now token e) ->
  canConnect s now token m = false /\ canManage s now token m = false /\
  canRegister s now token m = false /\ canViewMachine s now token m = false /\
  isOwnerOrAdmin s now token = false /\ isViewer s now token = false /\
  identityID s now token = "".
Proof.
  intros Hen Hdead.
  assert (validEntry s now token = None) as Hv.
  { destruct (validEntry s now token) as [e|] eqn:E; [|done].
    by apply validEntry_Some, Hdead in E. }
  unfold canViewMachine, isViewer, identityID, canConnect, canManage, canRegister,
    isOwnerOrAdmin, valid.
  rewrite Hen, Hv. cbn.
  repeat split; try (by case_bool_decide); by repeat case_match.
Qed.

(** ** Properties of the decisions *)

(** C1. [canConnect] is exactly the documented policy: an open hub admits everybody; an enforcing
    hub admits a token that authenticates a live entry which is owner or admin, or which holds a
    connect grant on the machine or on the wildcard. *)
Theorem canConnect_policy s now token m :
  canConnect s now token m = true <->
  enabled s = false \/
  exists e, authenticates s now token e /\
            (privileged e \/ granted s token m \/ granted s token "*").
Proof.
  apply canConnect_iff.
Qed.

(** [canManage] is exactly the documented policy over the machine's and the wildcard's manage
    lists. *)
Theorem canManage_policy s now token m :
  canManage s now token m = true <->
  enabled s = false \/
  exists e, authenticates s now token e /\
            (privileged e \/ token ∈ ManageTokens (acl_of (machines s) m)
             \/ token ∈ ManageTokens (acl_of (machines s) "*")).
Proof.
  apply canManage_iff.
Qed.

(** [canRegister] is exactly the documented policy: owner or admin always; otherwise the
    machine needs an ACL entry, and its register token, when it has one, must be the caller's. *)
Theorem canRegister_policy s now token m :
  canRegister s now token m = true <->
  enabled s = false \/
  exists e, authenticates s now token e /\
            (privileged e \/
             exists acl, machines s !! m = Some acl /\
                         (RegisterToken acl = "" \/ RegisterToken acl = token)).
Proof.
  apply canRegister_iff.
Qed.

(** On an enforcing hub a token that is unknown, revoked or expired is refused by every
    decision, whatever ACL lists still name it, and shows no identity. *)
Theorem dead_token_denied s now token m :
  enabled s = true -> (forall e, ~ authenticates s now token e) ->
  canConnect s now token m = false /\ canManage s now token m = false /\
  canRegister s now token m = false /\ canViewMachine s now token m = false /\
  isOwnerOrAdmin s now token = false /\ isViewer s now token = false /\
  identityID s now token = "".
Proof.
  apply unauthenticated_denied.
Qed.

Definition store_with (e : tokenEntry) (acls : gmap string machineACL) : authStore :=
  newAuthStore (Some (AuthConfig [e] acls)).

Lemma dead_token_denied_witness :
  let s := store_with (TokenEntry "a" "tok" "owner" None None (Some 5%Z)) ∅ in
  canConnect s 7 "tok" "m" = false.
Proof.
  refine (proj1 (dead_token_denied _ 7 "tok" "m" _ _)); [reflexivity|].
  intros e (_ & He & Hr & _). vm_compute in He. injection He as <-. discriminate Hr.
Defined.

(** The service filter of a session is decided by one grant of the caller: a filtered result
    is the non-empty service list of the first matching grant on the machine, or, when the machine
    has none, on the wildcard; owners, admins and viewers are never filtered. *)
Theorem connectServicesFilter_spec s now token m names :
  connectServicesFilter s now token m = Some names ->
  names <> [] /\
  (forall e, authenticates s now token e -> ~ privileged e /\ te_HubRole e <> "viewer") /\
  exists g, cg_Token g = token /\ cg_Services g = names /\
    (g ∈ ConnectTokens (acl_of (machines s) m) \/
     ~ granted s token m /\ g ∈ ConnectTokens (acl_of (machines s) "*")).
Proof.
  unfold connectServicesFilter. destruct (enabled s); cbn; [|done].
  case_match eqn:Hrole; [done|].
  assert (forall e, authenticates s now token e -> ~ privileged e /\ te_HubRole e <> "viewer")
    as Hnp.
  { intros e He. apply validEntry_Some in He. rewrite He in Hrole. cbn in Hrole.
    unfold privileged. prop_bool. naive_solver. }
  destruct (findConnectGrant (ConnectTokens (acl_of _ m)) token) as [g|] eqn:Hg.
  - apply findConnectGrant_Some in Hg as [Hin Ht].
    intros H'. repeat split; [| | |exists g]; try (by eapply Hnp).
    + by destruct (cg_Services g); simplify_eq.
    + by destruct (cg_Services g); simplify_eq; auto.
  - assert (~ granted s token m) as Hng.
    { rewrite <- hasConnectGrant_acl. unfold hasConnectGrant. by rewrite Hg. }
    destruct (findConnectGrant (ConnectTokens (acl_of _ "*")) token) as [g|] eqn:Hw; [|done].
    apply findConnectGrant_Some in Hw as [Hin Ht].
    intros H'. repeat split; [| | |exists g]; try (by eapply Hnp).
    + by destruct (cg_Services g); simplify_eq.
    + by destruct (cg_Services g); simplify_eq; auto.
Qed.

Lemma connectServicesFilter_spec_witness :
  let s := store_with (TokenEntry "a" "tok" "" None None None)
             {["m" := MachineACL "" [ConnectGrant "tok" ["ssh"]] []]} in
  ["ssh"] <> [].
Proof.
  refine (proj1 (connectServicesFilter_spec
    (store_with (TokenEntry "a" "tok" "" None None None)
       {["m" := MachineACL "" [ConnectGrant "tok" ["ssh"]] []]}) 7 "tok" "m" ["ssh"] _)).
  vm_compute. reflexivity.
Defined.

(** ** Time, reload and export *)

(** Expiry and revocation are final as time passes: what was refused for the entry's state stays
    refused. *)
Lemma live_antitone e t1 t2 : (t1 <= t2)%Z -> live e t2 -> live e t1.
Proof. intros ? [? H]. split; [done|]. destruct (te_ExpiresAt e); [lia|done]. Qed.

(** A hot reload yields the store a fresh start would build, whatever was enforced before. *)
Lemma reload_newAuthStore s cfg : reload s cfg = newAuthStore cfg.
Proof. destruct cfg as [c|]; [|done]. cbn. by destruct (Tokens c). Qed.
#[export] Hint Rewrite reload_newAuthStore : tela_simpl.

(** * What the relay relies on of the token store

    The session handlers ask the store three questions: whether the hub enforces tokens at all, and
    whether a token may connect to, or register, a machine.  They are written against this
    interface; [authStore] implements it. *)

Class Authorizer (A : Type) := {
  az_enabled : A -> bool;
  az_canConnect : A -> Z -> string -> string -> bool;
  az_canRegister : A -> Z -> string -> string -> bool;
  (** The token is one the store knows and that is neither revoked nor expired. *)
  az_live : A -> Z -> string -> bool;
  az_open a now token m :
    az_enabled a = false -> az_canConnect a now token m = true /\ az_canRegister a now token m = true;
  az_dead a now token m :
    az_enabled a = true -> az_live a now token = false ->
    az_canConnect a now token m = false /\ az_canRegister a now token m = false
}.

Lemma authStore_open s now token m :
  isEnabled s = false -> canConnect s now token m = true /\ canRegister s now token m = true.
Proof. unfold isEnabled, canConnect, canRegister. by intros ->. Qed.

Lemma authStore_dead s now token m :
  isEnabled s = true -> valid s now token = false ->
  canConnect s now token m = false /\ canRegister s now token m = false.
Proof.
  intros Hen Hv. destruct (unauthenticated_denied s now token m Hen) as (? & _ & ? & _); [|done].
  intros e He. assert (valid s now token = true); [|congruence]. apply valid_iff. by exists e.
Qed.

#[export] Instance authStore_Authorizer : Authorizer authStore := {
  az_enabled := isEnabled;
  az_canConnect := canConnect;
  az_canRegister := canRegister;
  az_live := valid;
  az_open := authStore_open;
  az_dead := authStore_dead
}.

(** * Per-identity version counters ([internal/hub/access_version.go])

    The in-memory map of counters behind the ETag / If-Match exchange of the access endpoints.
    The map is the state and is passed explicitly; counters are [uint64] and wrap. *)

(** The counters; an absent key reads 0. *)
Abbreviation accessVersions := (gmap string Z).

Definition currentAccessVersion (av : accessVersions) (id : string) : Z :=
  default 0%Z (av !! id).

Definition ensureAccessVersion (av : accessVersions) (id : string) : Z * accessVersions :=
  let v := default 0%Z (av !! id) in
  if (v =? 0)%Z then (1%Z, <[id := 1%Z]> av) else (v, av).

Definition bumpAccessVersion (av : accessVersions) (id : string) : Z * accessVersions :=
  let v := default 0%Z (av !! id) in
  let v := if (v =? 0)%Z then 1%Z else v in
  let v := u64 (v + 1) in
  (v, <[id := v]> av).

Definition renameAccessVersion (av : accessVersions) (oldID newID : string) : accessVersions :=
  if oldID =s newID then av
  else
    let v := default 0%Z (av !! oldID) in
    let av := delete oldID av in
    let v := if (v =? 0)%Z then 1%Z else v in
    <[newID := u64 (v + 1)]> av.

Definition deleteAccessVersion (av : accessVersions) (id : string) : accessVersions :=
  delete id av.

(** The double quote. *)
Definition quote : ascii := "034".

(** The argument is the value of the If-Match header, empty when absent. *)
Definition parseIfMatch (header : string) : option Z :=
  let raw := trim_space header in
  if (raw =s "") || (raw =s "*") then None
  else
    let raw := trim_prefix raw "W/" in
    let raw := trim_with (Ascii.eqb quote) raw in
    ParseUint raw.

(** The value of the ETag header, when one is set. *)
Definition setETag (version : Z) : option string :=
  if (version =? 0)%Z then None
  else Some (String quote (FormatUint version +:+ String quote EmptyString)).

(** ** Lemmas *)

Lemma ensureAccessVersion_nonzero av id : fst (ensureAccessVersion av id) <> 0%Z.
Proof. unfold ensureAccessVersion. by destruct (Z.eqb_spec (default 0%Z (av !! id)) 0). Qed.

Lemma ensureAccessVersion_current av id :
  currentAccessVersion (snd (ensureAccessVersion av id)) id = fst (ensureAccessVersion av id).
Proof.
  unfold currentAccessVersion, ensureAccessVersion.
  destruct (Z.eqb_spec (default 0%Z (av !! id)) 0); cbn; [|done]. by rewrite lookup_insert_eq.
Qed.

Lemma ensureAccessVersion_idem av id :
  ensureAccessVersion (snd (ensureAccessVersion av id)) id =
  (fst (ensureAccessVersion av id), snd (ensureAccessVersion av id)).
Proof.
  pose proof (ensureAccessVersion_nonzero av id) as Hn.
  pose proof (ensureAccessVersion_current av id) as Hc. unfold currentAccessVersion in Hc.
  unfold ensureAccessVersion at 1. rewrite Hc.
  by destruct (Z.eqb_spec (fst (ensureAccessVersion av id)) 0).
Qed.

Lemma ensureAccessVersion_other av id id' :
  id <> id' -> snd (ensureAccessVersion av id) !! id' = av !! id'.
Proof.
  intros Hne. unfold ensureAccessVersion. case_match; [|done]. by apply lookup_insert_ne.
Qed.

(** A bump moves the counter to a value no earlier read of it returned. *)
Lemma bumpAccessVersion_after_ensure av id :
  (0 <= fst (ensureAccessVersion av id) < 18446744073709551615)%Z ->
  bumpAccessVersion (snd (ensureAccessVersion av id)) id =
  ((fst (ensureAccessVersion av id) + 1)%Z,
   <[id := (fst (ensureAccessVersion av id) + 1)%Z]> (snd (ensureAccessVersion av id))).
Proof.
  intros Hr. pose proof (ensureAccessVersion_nonzero av id) as Hn.
  pose proof (ensureAccessVersion_current av id) as Hc. unfold currentAccessVersion in Hc.
  unfold bumpAccessVersion. rewrite Hc.
  destruct (Z.eqb_spec (fst (ensureAccessVersion av id)) 0); [done|].
  by rewrite u64_small by lia.
Qed.

Lemma digit_neq c d : is_digit c = true -> is_digit d = false -> c <> d.
Proof. intros ?? ->. congruence. Qed.

Lemma FormatUint_free (f : ascii -> bool) n :
  (0 <= n)%Z -> (forall c, is_digit c = true -> f c = false) ->
  forallb (fun c => negb (f c)) (bytes (FormatUint n)) = true.
Proof.
  intros Hn Hf. apply forallb_forall. intros c Hc. rewrite Hf; [done|].
  eapply FormatUint_digit; [done|]. by apply list_elem_of_In.
Qed.

Lemma digit_not_space c : is_digit c = true -> is_space c = false.
Proof. destruct c as [[] [] [] [] [] [] [] []]; by intros. Qed.

Lemma digit_not_quote c : is_digit c = true -> Ascii.eqb quote c = false.
Proof. destruct c as [[] [] [] [] [] [] [] []]; by intros. Qed.

(** Reading back a header made of borders of quotes around a number, after an optional weak
    prefix. *)
Lemma parseIfMatch_quoted weak q v :
  (0 <= v < 18446744073709551616)%Z ->
  (weak = "" \/ weak = "W/") -> (q = [] \/ q = [quote]) ->
  parseIfMatch (weak +:+ of_bytes (q ++ bytes (FormatUint v) ++ q)) = Some v.
Proof.
  intros Hv Hw Hq. pose proof (FormatUint_nonempty v) as Hne.
  pose proof (FormatUint_free is_space v ltac:(lia) digit_not_space) as Hsp.
  pose proof (FormatUint_free (Ascii.eqb quote) v ltac:(lia) digit_not_quote) as Hqt.
  assert (exists c l, bytes (FormatUint v) = c :: l /\ is_digit c = true) as (c & l & Hcl & Hc).
  { destruct (bytes (FormatUint v)) as [|c l] eqn:E; [done|]. exists c, l. split; [done|].
    apply (FormatUint_digit v); [lia|]. rewrite E. left. }
  unfold parseIfMatch. unfold trim_space. rewrite trim_with_none.
  2:{ rewrite bytes_app, bytes_of_bytes, !forallb_app, Hsp.
      by destruct Hw as [-> | ->], Hq as [-> | ->]. }
  rewrite !bool_decide_false; cbn [orb].
  2,3: intros E; apply (f_equal bytes) in E; rewrite bytes_app, bytes_of_bytes, Hcl in E;
    destruct Hw as [-> | ->], Hq as [-> | ->]; cbn in E; try discriminate E;
    injection E as -> _; by vm_compute in Hc.
  assert (trim_prefix (weak +:+ of_bytes (q ++ bytes (FormatUint v) ++ q)) "W/" =
          of_bytes (q ++ bytes (FormatUint v) ++ q)) as ->.
  { destruct Hw as [-> | ->]; [|apply trim_prefix_app].
    change ("" +:+ ?x) with x. unfold trim_prefix. rewrite bytes_of_bytes, Hcl.
    change (bytes "W/") with ["W"; "/"]%char.
    assert (Ascii.eqb "W" c = false) as HW by (by apply Ascii.eqb_neq; intros <-).
    destruct Hq as [-> | ->]; [|done]. cbn [drop_prefix app]. by rewrite HW. }
  rewrite trim_with_border; [|done|by destruct Hq as [-> | ->]..|done].
  rewrite of_bytes_bytes. by apply ParseUint_FormatUint.
Qed.

(** The version a response carries is the version a later request presents: the strong ETag
    [setETag] writes, its weak form and the bare number all read back through [parseIfMatch] as
    the same 64-bit counter; a zero counter writes no header. *)
Theorem parseIfMatch_setETag v :
  (1 <= v < 18446744073709551616)%Z ->
  exists h, setETag v = Some h /\ parseIfMatch h = Some v /\
            parseIfMatch ("W/" +:+ h) = Some v /\ parseIfMatch (FormatUint v) = Some v.
Proof.
  intros Hv. unfold setETag. destruct (Z.eqb_spec v 0); [lia|].
  assert (String quote (FormatUint v +:+ String quote EmptyString) =
          of_bytes ([quote] ++ bytes (FormatUint v) ++ [quote])) as ->.
  { apply bytes_inj. rewrite bytes_of_bytes. cbn. by rewrite bytes_app. }
  eexists. split; [done|]. repeat split.
  - apply (parseIfMatch_quoted ""); [lia|by left|by right].
  - apply parseIfMatch_quoted; [lia|by right|by right].
  - rewrite <- (of_bytes_bytes (FormatUint v)).
    rewrite <- (app_nil_r (bytes (FormatUint v))), <- (app_nil_l (bytes _ ++ [])).
    apply (parseIfMatch_quoted "" []); [lia|by left|by left].
Qed.

Lemma parseIfMatch_setETag_witness :
  exists h, setETag 41 = Some h /\ parseIfMatch h = Some 41%Z /\
            parseIfMatch ("W/" +:+ h) = Some 41%Z /\ parseIfMatch (FormatUint 41) = Some 41%Z.
Proof. apply (parseIfMatch_setETag 41). lia. Defined.
