(* ===== verification/Http.v ===== *)
(** * Requests, JSON bodies and caller tokens

    What the HTTP handlers read of a request: the values of the headers, cookies and query
    parameters they look at, and the body as [encoding/json] parsed it.  [tokenFromRequest] of
    [internal/hub/hub.go] is translated here because every handler starts with it. *)

From S2P Require Import Prelude.
From Stdlib Require Import ZArith Lia Ascii String.
From stdpp Require Import base gmap strings list.

#[local] Set Warnings "-register-all".

(** A parsed JSON value.  A number is the integer part of its [float64] value, the only part of it
    the handlers use. *)
Inductive json :=
  | JNull
  | JBool (b : bool)
  | JNum (n : Z)
  | JStr (s : string)
  | JArr (l : list json)
  | JObj (kvs : list (string * json)).

(** A body: absent or empty, text that is not JSON, or a JSON value. *)
Inductive reqBody := BodyEmpty | BodyBad | BodyJson (j : json).

Record request := Request {
  r_Method : string;
  r_Path : string;
  r_Authorization : string;
  r_Cookie : option string;       (** value of the [tela_viewer] cookie *)
  r_Query : gmap string string;   (** first value of each query parameter *)
  r_IfMatch : string;             (** value of the If-Match header, empty when absent *)
  r_Body : reqBody
}.

Definition query_get (r : request) (k : string) : string := default "" (r_Query r !! k).

Definition tokenFromRequest (r : request) : string :=
  if has_prefix (r_Authorization r) "Bearer " then trim_prefix (r_Authorization r) "Bearer "
  else match r_Cookie r with
       | Some v => v
       | None => if query_get r "token" <>s "" then query_get r "token" else ""
       end.

(** ** Decoding into Go structs

    [json.Unmarshal] assigns fields in the order of the keys (so the last one wins), matches names
    without regard to case, ignores unknown keys, leaves a field alone on [null], and reports a
    value of the wrong type after decoding the rest. *)

Definition json_fields (b : reqBody) : option (list (string * json)) :=
  match b with
  | BodyJson JNull => Some []
  | BodyJson (JObj kvs) => Some kvs
  | _ => None
  end.

(** The field's value and whether every assignment had the right type. *)
Fixpoint decode_string (name : string) (kvs : list (string * json)) (v : string) (ok : bool)
    : string * bool :=
  match kvs with
  | [] => (v, ok)
  | (k, j) :: kvs' =>
      if equal_fold k name then
        match j with
        | JStr s => decode_string name kvs' s ok
        | JNull => decode_string name kvs' v ok
        | _ => decode_string name kvs' v false
        end
      else decode_string name kvs' v ok
  end.

(** A [*string] field: [null] sets it to nil. *)
Fixpoint decode_string_ptr (name : string) (kvs : list (string * json)) (v : option string)
    (ok : bool) : option string * bool :=
  match kvs with
  | [] => (v, ok)
  | (k, j) :: kvs' =>
      if equal_fold k name then
        match j with
        | JStr s => decode_string_ptr name kvs' (Some s) ok
        | JNull => decode_string_ptr name kvs' None ok
        | _ => decode_string_ptr name kvs' v false
        end
      else decode_string_ptr name kvs' v ok
  end.

(** The elements of a [[]string]: a [null] element is the empty string. *)
Fixpoint decode_elems (l : list json) : option (list string) :=
  match l with
  | [] => Some []
  | JStr s :: l' => cons s <$> decode_elems l'
  | JNull :: l' => cons "" <$> decode_elems l'
  | _ => None
  end.

Fixpoint decode_strings (name : string) (kvs : list (string * json)) (v : list string) (ok : bool)
    : list string * bool :=
  match kvs with
  | [] => (v, ok)
  | (k, j) :: kvs' =>
      if equal_fold k name then
        match j with
        | JNull => decode_strings name kvs' [] ok
        | JArr l => match decode_elems l with
                    | Some ss => decode_strings name kvs' ss ok
                    | None => decode_strings name kvs' v false
                    end
        | _ => decode_strings name kvs' v false
        end
      else decode_strings name kvs' v ok
  end.

(** A key of a [map[string]any]: the last occurrence of exactly that key. *)
Definition json_key (kvs : list (string * json)) (k : string) : option json :=
  fold_left (fun acc kv => if kv.1 =s k then Some kv.2 else acc) kvs None.

(** The type assertion [v.(string)] on a possibly absent key, ignoring failure. *)
Definition as_string (o : option json) : string :=
  match o with Some (JStr s) => s | _ => "" end.

(** ** Lemmas *)

Lemma tokenFromRequest_bearer r t :
  r_Authorization r = "Bearer " +:+ t -> tokenFromRequest r = t.
Proof.
  intros E. unfold tokenFromRequest. rewrite E.
  assert (has_prefix ("Bearer " +:+ t) "Bearer " = true) as ->
    by (apply has_prefix_iff; by exists t).
  apply trim_prefix_app.
Qed.
