(* ===== verification/HubConfig.v ===== *)
(** * The hub's configuration and its bootstrap ([internal/hub/hub.go], [auth.go], [bridge.go])

    The YAML configuration record, and the bootstrap of the first owner identity.  Writing a file
    is an effect: a function that persists returns the configuration it writes, if it writes. *)

From S2P Require Import Prelude Auth.
From Stdlib Require Import ZArith Lia String.
From stdpp Require Import base gmap strings list fin_maps.

Record portalEntry := PortalEntry {
  pe_URL : string;
  pe_Token : string;
  pe_SyncToken : string;
  pe_HubDirectory : string
}.

Record updateConfig := UpdateConfig { uc_Channel : string; uc_Sources : gmap string string }.

Record channelsConfig := ChannelsConfig {
  cc_Enabled : bool;
  cc_Data : string;
  cc_PublicURL : string
}.

Record bridgeConfig := BridgeConfig {
  bc_HubID : string;
  bc_URL : string;
  bc_Token : string;
  bc_Pin : string;
  bc_MaxHops : Z;          (** [uint8] *)
  bc_Machines : list string
}.

Record hubConfig := HubConfig {
  hc_HubID : string;
  hc_Port : Z;
  hc_UDPPort : Z;
  hc_UDPHost : string;
  hc_Name : string;
  hc_WWWDir : string;
  hc_ShutdownTimeout : Z;
  hc_Auth : authConfig;
  hc_Portals : gmap string portalEntry;
  hc_Update : updateConfig;
  hc_Bridges : list bridgeConfig;
  hc_Channels : channelsConfig
}.

(** Assignments to one field. *)
Definition set_Auth (c : hubConfig) (a : authConfig) : hubConfig :=
  HubConfig (hc_HubID c) (hc_Port c) (hc_UDPPort c) (hc_UDPHost c) (hc_Name c) (hc_WWWDir c)
    (hc_ShutdownTimeout c) a (hc_Portals c) (hc_Update c) (hc_Bridges c) (hc_Channels c).
Definition set_Portals (c : hubConfig) (p : gmap string portalEntry) : hubConfig :=
  HubConfig (hc_HubID c) (hc_Port c) (hc_UDPPort c) (hc_UDPHost c) (hc_Name c) (hc_WWWDir c)
    (hc_ShutdownTimeout c) (hc_Auth c) p (hc_Update c) (hc_Bridges c) (hc_Channels c).
Definition set_Update (c : hubConfig) (u : updateConfig) : hubConfig :=
  HubConfig (hc_HubID c) (hc_Port c) (hc_UDPPort c) (hc_UDPHost c) (hc_Name c) (hc_WWWDir c)
    (hc_ShutdownTimeout c) (hc_Auth c) (hc_Portals c) u (hc_Bridges c) (hc_Channels c).
Definition set_Tokens (c : hubConfig) (ts : list tokenEntry) : hubConfig :=
  set_Auth c (AuthConfig ts (Machines (hc_Auth c))).
Definition set_Machines (c : hubConfig) (ms : gmap string machineACL) : hubConfig :=
  set_Auth c (AuthConfig (Tokens (hc_Auth c)) ms).

Definition emptyConfig : hubConfig :=
  HubConfig "" 0 0 "" "" "" 0 (AuthConfig [] ∅) ∅ (UpdateConfig "" ∅) []
    (ChannelsConfig false "" "").

(** ** Bootstrap

    [rnd] is what [rand.Read] yields when the viewer token is generated.  The second component is
    the configuration handed to [writeHubConfig], [None] when nothing is written. *)

Definition bootstrapAuth (rnd : option (list Z)) (cfg : hubConfig) (cfgPath ownerToken : string)
    : hubConfig * option hubConfig :=
  let viewerToken := default "" (generateToken rnd) in
  let tokens :=
    [TokenEntry "owner" ownerToken "owner" None None None] ++
    (if viewerToken <>s "" then [TokenEntry "console-viewer" viewerToken "viewer" None None None]
     else []) in
  let ms := <["*" := MachineACL "" [ConnectGrant ownerToken []] []]> (Machines (hc_Auth cfg)) in
  let cfg := set_Auth cfg (AuthConfig tokens ms) in
  (cfg, if cfgPath <>s "" then Some cfg else None).

Definition bootstrapFromEnv (rnd : option (list Z)) (envOwnerToken : string) (cfg : hubConfig)
    (cfgPath : string) : bool * hubConfig * option hubConfig :=
  if envOwnerToken =s "" then (false, cfg, None)
  else match Tokens (hc_Auth cfg) with
       | _ :: _ => (false, cfg, None)
       | [] => let '(cfg, w) := bootstrapAuth rnd cfg cfgPath envOwnerToken in (true, cfg, w)
       end.

Definition autoBootstrapAuth (rndOwner rndViewer : option (list Z)) (cfg : hubConfig)
    (cfgPath : string) : bool * hubConfig * option hubConfig :=
  match Tokens (hc_Auth cfg) with
  | _ :: _ => (false, cfg, None)
  | [] =>
      match generateToken rndOwner with
      | None => (false, cfg, None)
      | Some ownerToken =>
          let '(cfg, w) := bootstrapAuth rndViewer cfg cfgPath ownerToken in (true, cfg, w)
      end
  end.

Definition ensureConsoleViewer (rnd : option (list Z)) (cfg : hubConfig) (cfgPath : string)
    : bool * hubConfig * option hubConfig :=
  match Tokens (hc_Auth cfg) with
  | [] => (false, cfg, None)
  | ts =>
      if existsb (fun t => te_HubRole t =s "viewer") ts then (false, cfg, None)
      else match generateToken rnd with
           | None => (false, cfg, None)
           | Some viewerToken =>
               let cfg := set_Tokens cfg
                 (ts ++ [TokenEntry "console-viewer" viewerToken "viewer" None None None]) in
               (true, cfg, if cfgPath <>s "" then Some cfg else None)
           end
  end.

(** ** Properties of the bootstrap *)

Lemma hex_encode_nonempty l : l <> [] -> of_bytes (hex_encode l) <> "".
Proof. destruct l as [|b l]; [done|]. intros _ E. by apply (of_bytes_inj _ []) in E. Qed.

Definition ownerRow (owner : string) : tokenEntry := TokenEntry "owner" owner "owner" None None None.
Definition viewerRow (v : string) : tokenEntry := TokenEntry "console-viewer" v "viewer" None None None.

(** The index a bootstrap leaves behind, given what [generateToken] returned for the viewer. *)
Definition bootstrapIndex (owner : string) (viewer : option string) : gmap string tokenEntry :=
  match viewer with
  | Some v => <[v := viewerRow v]> {[owner := ownerRow owner]}
  | None => {[owner := ownerRow owner]}
  end.

Lemma bootstrapAuth_store rnd cfg path owner :
  owner <> "" -> (forall v, generateToken rnd = Some v -> v <> "") ->
  let s := newAuthStore (Some (hc_Auth (fst (bootstrapAuth rnd cfg path owner)))) in
  enabled s = true /\ byToken s = bootstrapIndex owner (generateToken rnd).
Proof.
  intros Hne Hrnd. unfold bootstrapAuth. destruct (generateToken rnd) as [v|]; cbn.
  - specialize (Hrnd v eq_refl). rewrite bool_decide_false by done. cbn.
    unfold indexTokens. cbn. by rewrite !bool_decide_false.
  - rewrite (bool_decide_true ("" = "")) by done. unfold indexTokens. cbn.
    by rewrite bool_decide_false.
Qed.

Lemma generateToken_nonempty rnd v :
  (forall b, rnd = Some b -> b <> []) -> generateToken rnd = Some v -> v <> "".
Proof.
  unfold generateToken. destruct rnd as [b|]; [|done]. intros Hb [= <-].
  by apply hex_encode_nonempty, Hb.
Qed.

(** After a bootstrap the hub enforces: the owner's token passes every decision at any time,
    the generated console token (when random bytes are available) is a viewer and nothing more,
    and a token that is neither is refused everywhere. *)
Theorem bootstrapAuth_enforces rnd cfg path owner now m :
  owner <> "" -> (forall b, rnd = Some b -> b <> []) -> generateToken rnd <> Some owner ->
  let s := newAuthStore (Some (hc_Auth (fst (bootstrapAuth rnd cfg path owner)))) in
  isOwnerOrAdmin s now owner = true /\
  (canConnect s now owner m = true /\ canManage s now owner m = true /\
   canRegister s now owner m = true) /\
  (forall v, generateToken rnd = Some v ->
     isViewer s now v = true /\ isOwnerOrAdmin s now v = false) /\
  (forall t, t <> owner -> generateToken rnd <> Some t ->
     canConnect s now t m = false /\ canManage s now t m = false /\
     canRegister s now t m = false /\ isViewer s now t = false).
Proof.
  intros Hne Hb Hvo s.
  pose proof (fun v => generateToken_nonempty rnd v Hb) as Hv.
  destruct (bootstrapAuth_store rnd cfg path owner Hne Hv) as [Hen Hby].
  fold s in Hen, Hby. clearbody s.
  assert (authenticates s now owner (ownerRow owner)) as Ho.
  { split; [done|]. split; [|done]. rewrite Hby. unfold bootstrapIndex.
    destruct (generateToken rnd); [rewrite lookup_insert_ne by congruence|];
      apply lookup_singleton_eq. }
  split_and!.
  - unfold isOwnerOrAdmin. rewrite Hen. apply ownerOrAdminRole_iff.
    exists (ownerRow owner). split; [done|by left].
  - apply canConnect_iff. right. exists (ownerRow owner). split; [done|]. by left; left.
  - apply canManage_iff. right. exists (ownerRow owner). split; [done|]. by left; left.
  - apply canRegister_iff. right. exists (ownerRow owner). split; [done|]. by left; left.
  - intros v Hg. assert (validEntry s now v = Some (viewerRow v)) as Hval.
    { apply validEntry_Some. split; [by apply Hv|]. by rewrite Hby, Hg; cbn; simplify_map_eq. }
    unfold isViewer, isOwnerOrAdmin. rewrite bool_decide_false, Hen, Hval by (by apply Hv).
    done.
  - intros t Ht Hgt. destruct (unauthenticated_denied s now t m Hen) as (? & ? & ? & _ & _ & ? & _);
      [|done].
    intros e (_ & He & _). rewrite Hby in He. unfold bootstrapIndex in He.
    destruct (generateToken rnd) as [v|]; [|by simplify_map_eq].
    assert (v <> t) by congruence. by simplify_map_eq.
Qed.

Lemma bootstrapAuth_enforces_witness :
  isOwnerOrAdmin (newAuthStore (Some (hc_Auth
    (fst (bootstrapAuth (Some [1; 2]%Z) emptyConfig "" "0wner"))))) 9 "0wner" = true.
Proof.
  refine (proj1 (bootstrapAuth_enforces (Some [1; 2]%Z) emptyConfig "" "0wner" 9 "m" _ _ _)).
  - discriminate.
  - intros b [= <-]. discriminate.
  - vm_compute. discriminate.
Defined.

(** A second bootstrap from the environment changes nothing. *)
Lemma bootstrapFromEnv_once rnd rnd' env env' cfg path :
  bootstrapFromEnv rnd' env' (snd (fst (bootstrapFromEnv rnd env cfg path))) path =
  (false, snd (fst (bootstrapFromEnv rnd env cfg path)), None)
  \/ env = "" /\ Tokens (hc_Auth cfg) = [].
Proof.
  unfold bootstrapFromEnv at 2 3. destruct (bool_decide_reflect (env = "")) as [->|].
  - cbn. destruct (Tokens (hc_Auth cfg)) as [|t ts] eqn:E; [by right|left].
    unfold bootstrapFromEnv. rewrite E. by case_bool_decide.
  - left. destruct (Tokens (hc_Auth cfg)) as [|t ts] eqn:E.
    + cbn. unfold bootstrapFromEnv. cbn. by case_bool_decide.
    + cbn. unfold bootstrapFromEnv. rewrite E. by case_bool_decide.
Qed.
