(* ===== verification/AdminState.v ===== *)
(** * State, environment and responses of the admin API ([internal/hub/admin_api.go])

    The live configuration, the enforced store and the version counters are globals in the source;
    here they are one record passed through every handler.  A handler runs under [globalCfgMu], so
    it is one transition.  What it takes from outside is the environment: the clock, the random
    bytes of [rand.Read] and whether the configuration file can be written. *)

From S2P Require Import Prelude Auth Http HubConfig.
From Stdlib Require Import ZArith Lia Ascii String.
From stdpp Require Import base gmap strings list fin_maps.

Record hubState := HubState {
  globalCfg : hubConfig;
  globalCfgPath : string;
  globalAuth : authStore;
  versions : accessVersions;
  diskCfg : option hubConfig     (** content last written to [globalCfgPath] *)
}.

Record environ := Environ {
  env_now : Z;
  env_rand : option (list Z);
  env_writable : bool
}.

Definition cfg_tokens (st : hubState) : list tokenEntry := Tokens (hc_Auth (globalCfg st)).
Definition cfg_machines (st : hubState) : gmap string machineACL :=
  Machines (hc_Auth (globalCfg st)).

Definition with_cfg (st : hubState) (c : hubConfig) : hubState :=
  HubState c (globalCfgPath st) (globalAuth st) (versions st) (diskCfg st).
Definition with_tokens (st : hubState) (ts : list tokenEntry) : hubState :=
  with_cfg st (set_Tokens (globalCfg st) ts).
Definition with_machines (st : hubState) (ms : gmap string machineACL) : hubState :=
  with_cfg st (set_Machines (globalCfg st) ms).
Definition with_versions (st : hubState) (av : accessVersions) : hubState :=
  HubState (globalCfg st) (globalCfgPath st) (globalAuth st) av (diskCfg st).

(** The enforced store holds pointers into the live token slice, so an assignment through a
    pointer into that slice is visible in it without a reload.  [newAuthStore] of the slice as it
    now stands is what those pointers read, as long as the store was built from this slice and no
    token value or row position changed. *)
Definition through_pointers (st : hubState) : hubState :=
  HubState (globalCfg st) (globalCfgPath st) (newAuthStore (Some (hc_Auth (globalCfg st))))
    (versions st) (diskCfg st).

(** The [bool] is the absence of a write error. *)
Definition persistConfig (env : environ) (st : hubState) : bool * hubState :=
  let auth := reload (globalAuth st) (Some (hc_Auth (globalCfg st))) in
  let st := HubState (globalCfg st) (globalCfgPath st) auth (versions st) (diskCfg st) in
  if globalCfgPath st <>s "" then
    if env_writable env then
      (true, HubState (globalCfg st) (globalCfgPath st) (globalAuth st) (versions st)
               (Some (globalCfg st)))
    else (false, st)
  else (true, st).

(** A pointer into the token slice: the row's index, with the row. *)
Definition findTokenEntryInCfg (st : hubState) (id : string) : option (nat * tokenEntry) :=
  list_find (fun e => te_ID e = id) (cfg_tokens st).

(** ** Views and responses *)

Record adminTokenView := AdminTokenView {
  tv_ID : string;
  tv_Role : string;
  tv_TokenPreview : string;
  tv_IssuedAt : option Z;
  tv_ExpiresAt : option Z;
  tv_RevokedAt : option Z
}.

Record machineAccess := MachineAccess {
  ma_MachineID : string;
  ma_Permissions : list string;
  ma_Services : list string
}.

Record accessEntry := AccessEntry {
  ae_ID : string;
  ae_Role : string;
  ae_TokenPreview : string;
  ae_Machines : list machineAccess;
  ae_IssuedAt : option Z;
  ae_ExpiresAt : option Z;
  ae_RevokedAt : option Z;
  ae_Version : Z;
  ae_WildcardInherited : list string;
  ae_WildcardInheritedServices : list string
}.

Record adminPortalView := AdminPortalView {
  pv_Name : string;
  pv_URL : string;
  pv_HubDirectory : string;
  pv_HasSyncToken : bool
}.

(** The value handed to the JSON encoder; one constructor per shape of reply. *)
Inductive payload :=
  | PNone
  | PError (msg : string)
  | PTokens (l : list adminTokenView)
  | PCreated (id role token : string) (version : Z)
  | PRotated (id token : string) (version : Z)
  | PRevokedToken (id : string) (revokedAt : option Z) (version : Z)
  | PAlreadyRevoked (id : string) (revokedAt : option Z)
  | PConflict (id : string) (version : Z) (current : accessEntry)
  | PAccessList (l : list accessEntry)
  | PAccess (e : accessEntry)
  | PUpdated (id : string) (version : Z)
  | PRemoved (name : string)
  | PSetAccess (id machineID : string) (permissions services : list string) (version : Z)
  | PRevokedMachine (id machineID : string) (version : Z)
  | PPortals (l : list adminPortalView)
  | PPortalAdded (updated : bool) (name url hubDirectory : string) (hasSyncToken : bool)
  | PPairCode (code type : string) (expiresAt : Z)
  | PPaired (token identity type : string)
  | PSources (m : gmap string string)
  | PSourceSet (name base : string)
  | PChannelStatus (channel manifestUrl currentVersion latestVersion : string)
      (updateAvailable : bool) (sources : gmap string string) (error : bool)
  | PChannelSet (channel manifestUrl : string)
  | PMessage (m : string)
  | PLines (l : list string).

Record response := Response { status : Z; etag : option string; body : payload }.

Definition reply (code : Z) (p : payload) : response := Response code None p.
Definition errorReply (code : Z) (msg : string) : response := reply code (PError msg).

(** The first 8 bytes of a longer secret, followed by dots. *)
Definition tokenPreview (t : string) : string :=
  if (8 <? slen t)%Z then String.substring 0 8 t +:+ "..." else t.

Definition roleName (hubRole : string) : string := if hubRole =s "" then "user" else hubRole.

(** ** Access entries *)

Definition machinePerms (tok : string) (acl : machineACL) : list string * list string :=
  let perms := if RegisterToken acl =s tok then ["register"] else [] in
  let '(perms, services) :=
    match findConnectGrant (ConnectTokens acl) tok with
    | Some g => (perms ++ ["connect"], cg_Services g)
    | None => (perms, [])
    end in
  let perms := if inTokenList (ManageTokens acl) tok then perms ++ ["manage"] else perms in
  (perms, services).

(** The rows of the machines on which the token holds something, in the order of the range. *)
Definition machineRows (l : list (string * machineACL)) (tok : string) : list machineAccess :=
  omap (fun kv =>
    match machinePerms tok kv.2 with
    | ([], _) => None
    | (perms, services) => Some (MachineAccess kv.1 perms services)
    end) l.

Definition buildAccessEntry `{RangeOrder} (st : hubState) (t : tokenEntry)
    : accessEntry * hubState :=
  let role := roleName (te_HubRole t) in
  let '(v, av) := ensureAccessVersion (versions st) (te_ID t) in
  let st := with_versions st av in
  let entry ms wi ws := AccessEntry (te_ID t) role (tokenPreview (te_Token t)) ms
    (te_IssuedAt t) (te_ExpiresAt t) (te_RevokedAt t) v wi ws in
  if (role =s "owner") || (role =s "admin") then
    (entry [MachineAccess "*" ["register"; "connect"; "manage"] []] [] [], st)
  else
    let ms := machineRows (range (cfg_machines st)) (te_Token t) in
    match cfg_machines st !! "*" with
    | None => (entry ms [] [], st)
    | Some wild =>
        let '(wi, ws) :=
          match findConnectGrant (ConnectTokens wild) (te_Token t) with
          | Some g => (["connect"], cg_Services g)
          | None => ([], [])
          end in
        let wi := if inTokenList (ManageTokens wild) (te_Token t) then wi ++ ["manage"] else wi in
        (entry ms wi ws, st)
    end.

Definition writeAccessConflict (id : string) (currentVersion : Z) (current : accessEntry)
    : response :=
  Response 412 (setETag currentVersion) (PConflict id currentVersion current).

Definition removeToken (tokens : list string) (tok : string) : list string :=
  filter (fun t => t ≠ tok) tokens.

(** The block every mutating access handler runs after finding its entry: a request that carries
    an If-Match other than the current version is answered 412. *)
Definition checkIfMatch `{RangeOrder} (st : hubState) (r : request) (id : string)
    (entry : tokenEntry) : option response * hubState :=
  match parseIfMatch (r_IfMatch r) with
  | None => (None, st)
  | Some ifm =>
      let '(current, av) := ensureAccessVersion (versions st) id in
      let st := with_versions st av in
      if (ifm =? current)%Z then (None, st)
      else let '(e, st) := buildAccessEntry st entry in
           (Some (writeAccessConflict id current e), st)
  end.

Definition requireOwnerOrAdmin (env : environ) (st : hubState) (r : request) : option string :=
  let callerToken := tokenFromRequest r in
  if isOwnerOrAdmin (globalAuth st) (env_now env) callerToken then Some callerToken else None.

Definition forbidden : response := errorReply 403 "forbidden".

(** ** Frame lemmas *)

(** The enforced store is the one the live configuration describes. *)
Definition coherent (st : hubState) : Prop :=
  globalAuth st = newAuthStore (Some (hc_Auth (globalCfg st))).

Lemma persistConfig_spec env st ok st' :
  persistConfig env st = (ok, st') ->
  globalCfg st' = globalCfg st /\ versions st' = versions st /\
  globalCfgPath st' = globalCfgPath st /\
  globalAuth st' = newAuthStore (Some (hc_Auth (globalCfg st))) /\
  diskCfg st' = if (globalCfgPath st <>s "") && env_writable env then Some (globalCfg st)
                else diskCfg st.
Proof.
  unfold persistConfig. rewrite reload_newAuthStore. cbn.
  case_bool_decide; cbn; [by intros [= <- <-]|].
  destruct (env_writable env); by intros [= <- <-].
Qed.

Lemma buildAccessEntry_frame `{RangeOrder} st t :
  exists av, snd (buildAccessEntry st t) = with_versions st av /\
    av = snd (ensureAccessVersion (versions st) (te_ID t)).
Proof.
  unfold buildAccessEntry. destruct (ensureAccessVersion _ _) as [v av] eqn:E. cbn.
  exists av. split; [|done]. repeat (case_match; cbn; try done).
Qed.

(** A passed check is no check, or the current version; either way only versions are touched. *)
Lemma checkIfMatch_None `{RangeOrder} st r id e st' :
  checkIfMatch st r id e = (None, st') ->
  match parseIfMatch (r_IfMatch r) with
  | None => st' = st
  | Some v => v = fst (ensureAccessVersion (versions st) id) /\
              st' = with_versions st (snd (ensureAccessVersion (versions st) id))
  end.
Proof.
  unfold checkIfMatch. destruct (parseIfMatch _) as [v|]; [|by intros [= <-]].
  destruct (ensureAccessVersion _ _) as [c av]. cbn.
  destruct (Z.eqb_spec v c) as [->|]; [by intros [= <-]|]. by case_match.
Qed.

Lemma checkIfMatch_Some `{RangeOrder} st r id e resp st' :
  checkIfMatch st r id e = (Some resp, st') ->
  status resp = 412%Z /\ exists av, st' = with_versions st av.
Proof.
  unfold checkIfMatch. destruct (parseIfMatch _) as [v|]; [|done].
  destruct (ensureAccessVersion _ _) as [c av].
  destruct (Z.eqb_spec v c) as [->|]; [done|].
  destruct (buildAccessEntry_frame (with_versions st av) e) as (av' & Hav & _).
  destruct (buildAccessEntry _ _) as [e' st'']. cbn in Hav. subst st''.
  intros [= <- <-]. split; [done|]. by exists av'.
Qed.

Lemma checkIfMatch_frame `{RangeOrder} st r id e :
  exists av, snd (checkIfMatch st r id e) = with_versions st av.
Proof.
  destruct (checkIfMatch st r id e) as [[resp|] st'] eqn:E.
  - by apply checkIfMatch_Some in E as [_ ?].
  - apply checkIfMatch_None in E. destruct (parseIfMatch _).
    + destruct E as [_ ->]. by eexists.
    + subst. exists (versions st). by destruct st.
Qed.

(** A stale If-Match is refused. *)
Lemma checkIfMatch_stale `{RangeOrder} st r id e v :
  parseIfMatch (r_IfMatch r) = Some v -> v <> fst (ensureAccessVersion (versions st) id) ->
  exists resp st', checkIfMatch st r id e = (Some resp, st').
Proof.
  intros Hp Hv. destruct (checkIfMatch st r id e) as [[resp|] st'] eqn:E; [by eauto|].
  apply checkIfMatch_None in E. rewrite Hp in E. by destruct E.
Qed.

Lemma findTokenEntryInCfg_Some st id i e :
  findTokenEntryInCfg st id = Some (i, e) ->
  cfg_tokens st !! i = Some e /\ te_ID e = id.
Proof.
  unfold findTokenEntryInCfg. intros H. apply list_find_Some in H as (? & ? & _). done.
Qed.

Lemma findTokenEntryInCfg_None st id :
  findTokenEntryInCfg st id = None <-> forall e, e ∈ cfg_tokens st -> te_ID e <> id.
Proof.
  unfold findTokenEntryInCfg. rewrite list_find_None. by rewrite Forall_forall.
Qed.

Lemma removeToken_elem l tok t : t ∈ removeToken l tok <-> t <> tok /\ t ∈ l.
Proof. unfold removeToken. by rewrite list_elem_of_filter. Qed.

(** Two rows a test accepts leave one at an index other than any given one. *)
Lemma filter_two_other {A} (P : A -> Prop) `{!forall x, Decision (P x)} (l : list A) i :
  (2 <= length (filter P l))%nat -> exists j x, j <> i /\ l !! j = Some x /\ P x.
Proof.
  assert (forall k : list A, (1 <= length (filter P k))%nat -> exists j x, k !! j = Some x /\ P x)
    as Hone.
  { intros k Hk. destruct (filter P k) as [|x f] eqn:E; [cbn in Hk; lia|].
    assert (x ∈ filter P k) as Hx by (rewrite E; left).
    apply list_elem_of_filter in Hx as [Hp Hx]. apply list_elem_of_lookup in Hx as [j Hj].
    by exists j, x. }
  revert i. induction l as [|y l IH]; intros i; [cbn; lia|].
  rewrite filter_cons. case_decide as Hy; cbn [length].
  - intros Hl. destruct (Hone l) as (j & x & Hj & Hx); [lia|].
    destruct i as [|i]; [by exists (S j), x|by exists 0%nat, y].
  - intros Hl. destruct i as [|i].
    + destruct (Hone l) as (j & x & Hj & Hx); [lia|]. by exists (S j), x.
    + destruct (IH i Hl) as (j & x & Hne & Hj & Hx). exists (S j), x. naive_solver lia.
Qed.

(** A request that was refused: nothing but version counters may have been initialised. *)
Definition unchanged (st st' : hubState) : Prop := exists av, st' = with_versions st av.

Lemma unchanged_refl st : unchanged st st.
Proof. exists (versions st). by destruct st. Qed.

Lemma unchanged_trans st1 st2 st3 : unchanged st1 st2 -> unchanged st2 st3 -> unchanged st1 st3.
Proof. intros [a ->] [b ->]. by exists b. Qed.

Lemma unchanged_versions st av : unchanged st (with_versions st av).
Proof. by exists av. Qed.

Lemma unchanged_coherent st st' : unchanged st st' -> coherent st -> coherent st'.
Proof. by intros [av ->]. Qed.

Lemma checkIfMatch_unchanged `{RangeOrder} st r id e o st' :
  checkIfMatch st r id e = (o, st') -> unchanged st st'.
Proof. intros E. pose proof (checkIfMatch_frame st r id e) as [av Hav]. rewrite E in Hav. by exists av. Qed.
#[export] Hint Resolve unchanged_refl unchanged_versions checkIfMatch_unchanged : tela.

(** The end of every mutating handler: the configuration is replaced, persisted, and the counters
    are set. *)
Record committed (st st' : hubState) (ts : list tokenEntry) (ms : gmap string machineACL) : Prop := {
  committed_tokens : cfg_tokens st' = ts;
  committed_machines : cfg_machines st' = ms;
  committed_coherent : coherent st';
  committed_path : globalCfgPath st' = globalCfgPath st
}.

Lemma persist_committed env st0 st ok st' av :
  persistConfig env st = (ok, st') ->
  globalCfgPath st = globalCfgPath st0 ->
  committed st0 (with_versions st' av) (cfg_tokens st) (cfg_machines st).
Proof.
  intros Hp Hpath. apply persistConfig_spec in Hp as (Hc & _ & Hpa & Ha & _).
  constructor; unfold cfg_tokens, cfg_machines; cbn; [congruence..| |congruence].
  unfold coherent. cbn. by rewrite Ha, Hc.
Qed.

(** The branch of an outcome lemma in which the handler replied with an error. *)
Ltac refused H :=
  injection H as <- <-; left; split;
    [first [done | by left | by cbn | left; by cbn] | by eauto with tela].

(** ** What a committed configuration enforces *)

(** A token no row and no ACL mentions, as a freshly generated one is. *)
Definition fresh_token (st : hubState) (tok : string) : Prop :=
  tok <> "" /\ (forall e, e ∈ cfg_tokens st -> te_Token e <> tok) /\
  (forall m acl, cfg_machines st !! m = Some acl ->
     RegisterToken acl <> tok /\ hasConnectGrant (ConnectTokens acl) tok = false /\
     tok ∉ ManageTokens acl).

Lemma coherent_store st :
  coherent st -> cfg_tokens st <> [] ->
  globalAuth st = AuthStore true (indexTokens (cfg_tokens st)) (cfg_machines st).
Proof. unfold coherent. intros -> Hne. exact (newAuthStore_nonempty _ Hne). Qed.

(** Reading the enforced store at the token of a row. *)
Lemma coherent_authenticates st e now :
  coherent st -> NoDup (te_Token <$> cfg_tokens st) -> e ∈ cfg_tokens st -> te_Token e <> "" ->
  live e now -> authenticates (globalAuth st) now (te_Token e) e.
Proof.
  intros Hco Hnd He Ht Hl. split; [done|]. split; [|done].
  assert (cfg_tokens st <> []) by (intros E; rewrite E in He; by apply elem_of_nil in He).
  rewrite coherent_store by done. by apply indexTokens_elem.
Qed.

(** A token every row of which is dead authenticates nobody. *)
Lemma coherent_dead st tok now :
  coherent st -> (forall e, e ∈ cfg_tokens st -> te_Token e = tok -> ~ live e now) ->
  forall e, ~ authenticates (globalAuth st) now tok e.
Proof.
  intros Hco Hdead e (_ & He & Hl).
  destruct (decide (cfg_tokens st = [])) as [Hnil|Hne].
  - rewrite Hco in He. unfold cfg_tokens in Hnil. cbn [newAuthStore] in He.
    rewrite Hnil in He. cbn [byToken] in He. by rewrite lookup_empty in He.
  - rewrite coherent_store in He by done. cbn in He.
    apply indexTokens_Some in He as (He & Ht & _). by destruct (Hdead e He Ht).
Qed.

Lemma acl_of_fmap (f : machineACL -> machineACL) ms m :
  f zeroACL = zeroACL -> acl_of (f <$> ms) m = f (acl_of ms m).
Proof. intros Hz. unfold acl_of. rewrite lookup_fmap. by destruct (ms !! m). Qed.

Lemma fresh_acl_of st tok m :
  fresh_token st tok ->
  hasConnectGrant (ConnectTokens (acl_of (cfg_machines st) m)) tok = false /\
  tok ∉ ManageTokens (acl_of (cfg_machines st) m).
Proof.
  intros (_ & _ & Hf). unfold acl_of. destruct (cfg_machines st !! m) as [acl|] eqn:E.
  - by apply Hf in E as (_ & ? & ?).
  - cbn. split; [done|apply not_elem_of_nil].
Qed.

(** ** Concrete hubs and requests, for evaluating the handlers *)

Definition hub_of (ts : list tokenEntry) (ms : gmap string machineACL) : hubState :=
  let auth := AuthConfig ts ms in
  HubState (set_Auth emptyConfig auth) "" (newAuthStore (Some auth)) ∅ None.

Definition row (id token role : string) : tokenEntry := TokenEntry id token role None None None.

Definition request_of (method path token ifMatch : string) (body : reqBody) : request :=
  Request method path ("Bearer " +:+ token) None ∅ ifMatch body.

Definition env_at (now : Z) : environ := Environ now (Some [18; 52]%Z) true.
