(* ===== verification/AdminTokens.v ===== *)
(** * Token endpoints of the admin API ([internal/hub/admin_api.go])

    [/api/admin/tokens] (list, create), [/api/admin/rotate/{id}] and
    [/api/admin/tokens/{id}/revoke].  Each handler is the whole handler: the guards in the order
    of the source, then the mutation, the persist, the version and the reply. *)

From S2P Require Import Prelude Auth Http HubConfig AdminState.
From Stdlib Require Import ZArith Lia Ascii String.
From stdpp Require Import base gmap strings list fin_maps.

Section handlers.
  Context `{RangeOrder}.

  (** [time.Parse(time.RFC3339, s)] in UTC. *)
  Variable time_Parse : string -> option Z.

Definition adminListTokens (st : hubState) : response * hubState :=
  let view t := AdminTokenView (te_ID t) (roleName (te_HubRole t)) (tokenPreview (te_Token t))
    (te_IssuedAt t) (te_ExpiresAt t) (te_RevokedAt t) in
  (reply 200 (PTokens (map view (cfg_tokens st))), st).

Definition adminAddToken (env : environ) (st : hubState) (r : request) : response * hubState :=
  match json_fields (r_Body r) with
  | None => (errorReply 400 "id is required", st)
  | Some kvs =>
      let '(id, ok1) := decode_string "id" kvs "" true in
      let '(role, ok2) := decode_string "role" kvs "" true in
      let '(expires, ok3) := decode_string "expiresAt" kvs "" true in
      if negb (ok1 && ok2 && ok3) || (id =s "") then (errorReply 400 "id is required", st)
      else if (role <>s "") && (role <>s "owner") && (role <>s "admin") then
        (errorReply 400 "role must be 'owner', 'admin', or omitted", st)
      else match findTokenEntryInCfg st id with
           | Some _ => (errorReply 409 "identity already exists", st)
           | None =>
               match generateToken (env_rand env) with
               | None => (errorReply 500 "token generation failed", st)
               | Some token =>
                   let parsed :=
                     if expires =s "" then Some None
                     else match time_Parse expires with
                          | Some t => Some (Some t)
                          | None => None
                          end in
                   match parsed with
                   | None => (errorReply 400
                       "expiresAt must be RFC3339 (e.g. 2027-01-01T00:00:00Z)", st)
                   | Some expiresAt =>
                       let row := TokenEntry id token role (Some (env_now env)) expiresAt None in
                       let st := with_tokens st (cfg_tokens st ++ [row]) in
                       let '(_, st) := persistConfig env st in
                       let '(version, av) := ensureAccessVersion (versions st) id in
                       let st := with_versions st av in
                       (Response 201 (setETag version) (PCreated id role token version), st)
                   end
               end
           end
  end.

Definition handleAdminTokens (env : environ) (st : hubState) (r : request)
    : response * hubState :=
  if r_Method r =s "OPTIONS" then (reply 204 PNone, st)
  else match requireOwnerOrAdmin env st r with
       | None => (forbidden, st)
       | Some _ =>
           if r_Method r =s "GET" then adminListTokens st
           else if r_Method r =s "POST" then adminAddToken env st r
           else (reply 405 PNone, st)
       end.

(** The cascade of a rotation over one machine's ACL. *)
Definition rotateACL (oldToken newToken : string) (acl : machineACL) : machineACL :=
  MachineACL (if RegisterToken acl =s oldToken then newToken else RegisterToken acl)
    (fst (replaceConnectGrantToken (ConnectTokens acl) oldToken newToken))
    (ManageTokens acl).

Definition rotateEntry (now : Z) (newToken : string) (e : tokenEntry) : tokenEntry :=
  TokenEntry (te_ID e) newToken (te_HubRole e) (Some now) (te_ExpiresAt e) None.

(** The handler past its method and caller checks, for the identity in the path. *)
Definition adminRotateToken (env : environ) (st : hubState) (r : request) (id : string)
    : response * hubState :=
  if id =s "" then (errorReply 400 "id is required in URL path", st)
  else match findTokenEntryInCfg st id with
       | None => (errorReply 404 "identity not found", st)
       | Some (i, entry) =>
           match checkIfMatch st r id entry with
           | (Some conflict, st) => (conflict, st)
           | (None, st) =>
               match generateToken (env_rand env) with
               | None => (errorReply 500 "token generation failed", st)
               | Some newToken =>
                   let oldToken := te_Token entry in
                   let st := with_tokens st
                     (<[i := rotateEntry (env_now env) newToken entry]> (cfg_tokens st)) in
                   let st := with_machines st
                     (rotateACL oldToken newToken <$> cfg_machines st) in
                   let '(_, st) := persistConfig env st in
                   let '(newVersion, av) := bumpAccessVersion (versions st) id in
                   let st := with_versions st av in
                   (Response 200 (setETag newVersion) (PRotated id newToken newVersion), st)
               end
           end
       end.

Definition handleAdminRotate (env : environ) (st : hubState) (r : request)
    : response * hubState :=
  if r_Method r =s "OPTIONS" then (reply 204 PNone, st)
  else if r_Method r <>s "POST" then (reply 405 PNone, st)
  else match requireOwnerOrAdmin env st r with
       | None => (forbidden, st)
       | Some _ => adminRotateToken env st r (trim_prefix (r_Path r) "/api/admin/rotate/")
       end.

(** The owners the last-owner guards count. *)
Definition activeOwner (t : tokenEntry) : bool :=
  (te_HubRole t =s "owner") && negb (isRevoked (Some t)).
Definition countActiveOwners (ts : list tokenEntry) : nat := length (filter activeOwner ts).

Definition adminRevokeToken (env : environ) (st : hubState) (r : request) (id : string)
    : response * hubState :=
  match findTokenEntryInCfg st id with
  | None => (errorReply 404 "identity not found", st)
  | Some (i, entry) =>
      if (te_HubRole entry =s "owner") && (countActiveOwners (cfg_tokens st) <=? 1)%nat then
        (errorReply 409
           "cannot revoke the last remaining owner; promote another identity to owner first", st)
      else match checkIfMatch st r id entry with
           | (Some conflict, st) => (conflict, st)
           | (None, st) =>
               if isRevoked (Some entry) then
                 (reply 200 (PAlreadyRevoked id (te_RevokedAt entry)), st)
               else
                 let now := env_now env in
                 let entry' := TokenEntry (te_ID entry) (te_Token entry) (te_HubRole entry)
                   (te_IssuedAt entry) (te_ExpiresAt entry) (Some now) in
                 let st := with_tokens st (<[i := entry']> (cfg_tokens st)) in
                 let '(_, st) := persistConfig env st in
                 let '(newVersion, av) := bumpAccessVersion (versions st) id in
                 let st := with_versions st av in
                 (Response 200 (setETag newVersion) (PRevokedToken id (Some now) newVersion), st)
           end
  end.

Definition handleAdminTokenAction (env : environ) (st : hubState) (r : request)
    : response * hubState :=
  if r_Method r =s "OPTIONS" then (reply 204 PNone, st)
  else if r_Method r <>s "POST" then (reply 405 PNone, st)
  else match requireOwnerOrAdmin env st r with
       | None => (forbidden, st)
       | Some _ =>
           match splitn2 (trim_prefix (r_Path r) "/api/admin/tokens/") "/" with
           | [id; action] =>
               if (id =s "") || (action =s "") then
                 (errorReply 400 "expected /api/admin/tokens/{id}/{action}", st)
               else if action =s "revoke" then adminRevokeToken env st r id
               else (errorReply 404 ("unknown action: " +:+ action), st)
           | _ => (errorReply 400 "expected /api/admin/tokens/{id}/{action}", st)
           end
       end.

End handlers.

(** ** Outcomes *)

Section outcomes.
  Context `{RangeOrder}.

(** Either the request is refused and nothing changed, or the row is rotated and the new token
    replaces the old one in every register token and connect grant. *)
Lemma adminRotateToken_outcome env st r id resp st' :
  adminRotateToken env st r id = (resp, st') ->
  status resp <> 200%Z /\ unchanged st st' \/
  exists i entry newToken st1,
    findTokenEntryInCfg st id = Some (i, entry) /\
    generateToken (env_rand env) = Some newToken /\
    checkIfMatch st r id entry = (None, st1) /\
    resp = Response 200 (setETag (fst (bumpAccessVersion (versions st1) id)))
             (PRotated id newToken (fst (bumpAccessVersion (versions st1) id))) /\
    versions st' = snd (bumpAccessVersion (versions st1) id) /\
    committed st st' (<[i := rotateEntry (env_now env) newToken entry]> (cfg_tokens st))
      (rotateACL (te_Token entry) newToken <$> cfg_machines st).
Proof.
  unfold adminRotateToken. intros Hh.
  case_bool_decide; [refused Hh|].
  destruct (findTokenEntryInCfg st id) as [[i entry]|]; [|refused Hh].
  destruct (checkIfMatch st r id entry) as [[conflict|] st1] eqn:Hck.
  { injection Hh as <- <-. left. split; [|by eauto with tela].
    apply checkIfMatch_Some in Hck as [-> _]. done. }
  destruct (generateToken _) as [newToken|]; [|refused Hh].
  destruct (checkIfMatch_unchanged _ _ _ _ _ _ Hck) as [av ->].
  destruct (persistConfig env _) as [ok st2] eqn:Hp.
  destruct (bumpAccessVersion (versions st2) id) as [v av'] eqn:Hb.
  injection Hh as <- <-. right.
  pose proof (persistConfig_spec _ _ _ _ Hp) as (_ & Hv & _). cbn in Hv. rewrite Hv in Hb.
  exists i, entry, newToken, (with_versions st av). change (versions (with_versions st av)) with av. rewrite Hb.
  split_and!; try done. exact (persist_committed _ st _ _ _ _ Hp eq_refl).
Qed.

Lemma adminRevokeToken_outcome env st r id resp st' :
  adminRevokeToken env st r id = (resp, st') ->
  (status resp <> 200%Z \/ exists t, body resp = PAlreadyRevoked id t) /\ unchanged st st' \/
  exists i entry st1,
    findTokenEntryInCfg st id = Some (i, entry) /\
    (te_HubRole entry = "owner" -> (2 <= countActiveOwners (cfg_tokens st))%nat) /\
    checkIfMatch st r id entry = (None, st1) /\
    te_RevokedAt entry = None /\
    versions st' = snd (bumpAccessVersion (versions st1) id) /\
    status resp = 200%Z /\
    committed st st'
      (<[i := TokenEntry (te_ID entry) (te_Token entry) (te_HubRole entry) (te_IssuedAt entry)
                (te_ExpiresAt entry) (Some (env_now env))]> (cfg_tokens st)) (cfg_machines st).
Proof.
  unfold adminRevokeToken. intros Hh.
  destruct (findTokenEntryInCfg st id) as [[i entry]|];
    [|refused Hh].
  destruct ((te_HubRole entry =s "owner") && _) eqn:Hguard.
  { refused Hh. }
  destruct (checkIfMatch st r id entry) as [[conflict|] st1] eqn:Hck.
  { injection Hh as <- <-. left. split; [|by eauto with tela].
    apply checkIfMatch_Some in Hck as [-> _]. by left. }
  destruct (isRevoked (Some entry)) eqn:Hrev.
  { injection Hh as <- <-. left. split; [right; by eexists|by eauto with tela]. }
  destruct (checkIfMatch_unchanged _ _ _ _ _ _ Hck) as [av ->].
  destruct (persistConfig env _) as [ok st2] eqn:Hp.
  destruct (bumpAccessVersion (versions st2) id) as [v av'] eqn:Hb.
  injection Hh as <- <-. right.
  pose proof (persistConfig_spec _ _ _ _ Hp) as (_ & Hv & _). cbn in Hv. rewrite Hv in Hb.
  exists i, entry, (with_versions st av). change (versions (with_versions st av)) with av. rewrite Hb. split_and!; try done.
  - intros Howner. apply andb_false_iff in Hguard as [Hg|Hg]; [by prop_bool|].
    apply Nat.leb_gt in Hg. lia.
  - unfold isRevoked in Hrev. prop_bool. by apply eq_None_not_Some.
  - exact (persist_committed _ st _ _ _ _ Hp eq_refl).
Qed.

Lemma adminAddToken_outcome time_Parse env st r resp st' :
  adminAddToken time_Parse env st r = (resp, st') ->
  status resp <> 201%Z /\ unchanged st st' \/
  exists id role token expiresAt,
    id <> "" /\ (role = "" \/ role = "owner" \/ role = "admin") /\
    findTokenEntryInCfg st id = None /\
    generateToken (env_rand env) = Some token /\
    body resp = PCreated id role token (fst (ensureAccessVersion (versions st) id)) /\
    committed st st'
      (cfg_tokens st ++ [TokenEntry id token role (Some (env_now env)) expiresAt None])
      (cfg_machines st).
Proof.
  unfold adminAddToken. intros Hh.
  destruct (json_fields _) as [kvs|]; [|refused Hh].
  destruct (decode_string "id" kvs "" true) as [id ok1].
  destruct (decode_string "role" kvs "" true) as [role ok2].
  destruct (decode_string "expiresAt" kvs "" true) as [expires ok3].
  destruct (_ || _) eqn:Hbad; [refused Hh|].
  destruct (_ && _ && _) eqn:Hrole in Hh; [refused Hh|].
  destruct (findTokenEntryInCfg st id) as [?|] eqn:Hfind;
    [refused Hh|].
  destruct (generateToken _) as [token|]; [|refused Hh].
  destruct (if expires =s "" then _ else _) as [expiresAt|];
    [|refused Hh].
  destruct (persistConfig env _) as [ok st2] eqn:Hp.
  destruct (ensureAccessVersion (versions st2) id) as [v av'] eqn:Hb.
  injection Hh as <- <-. right.
  pose proof (persistConfig_spec _ _ _ _ Hp) as (_ & Hv & _). cbn in Hv. rewrite Hv in Hb.
  exists id, role, token, expiresAt. rewrite Hb. prop_bool. split_and!; try done.
  - destruct (decide (role = "")), (decide (role = "owner")), (decide (role = "admin"));
      auto. by rewrite !bool_decide_false in Hrole.
  - exact (persist_committed _ st _ _ _ _ Hp eq_refl).
Qed.

End outcomes.

(** ** Rotation *)

Section rotation.
  Context `{RangeOrder}.

(** The situation of the rotation theorems: a served rotation of the identity [id], whose row is
    [e] with a non-empty token, in a hub whose store is coherent and whose rows have distinct
    tokens, the generated token being fresh. *)
Record rotated (env : environ) (st : hubState) (r : request) (id : string) (i : nat)
    (e : tokenEntry) (new : string) (st' : hubState) : Prop := {
  rot_run : exists v, adminRotateToken env st r id = (Response 200 (setETag v) (PRotated id new v), st');
  rot_coherent : coherent st;
  rot_distinct : NoDup (te_Token <$> cfg_tokens st);
  rot_find : findTokenEntryInCfg st id = Some (i, e);
  rot_token : te_Token e <> "";
  rot_fresh : fresh_token st new
}.
#[local] Arguments rot_coherent {_ _ _ _ _ _ _ _} _.
#[local] Arguments rot_distinct {_ _ _ _ _ _ _ _} _.
#[local] Arguments rot_find {_ _ _ _ _ _ _ _} _.
#[local] Arguments rot_token {_ _ _ _ _ _ _ _} _.
#[local] Arguments rot_fresh {_ _ _ _ _ _ _ _} _.

  Context {env st r id i e new st'} (R : rotated env st r id i e new st').

Lemma rotated_committed :
  committed st st' (<[i := rotateEntry (env_now env) new e]> (cfg_tokens st))
    (rotateACL (te_Token e) new <$> cfg_machines st).
Proof.
  destruct R as [[v Hrun] _ _ Hf _ _].
  apply adminRotateToken_outcome in Hrun as [[Hs _]|Hrun]; [done|].
  destruct Hrun as (i' & e' & new' & st1 & Hf' & _ & _ & [= _ <- _] & _ & Hc).
  rewrite Hf in Hf'. by injection Hf' as <- <-.
Qed.

Lemma rotated_token : te_Token e <> "".
Proof. apply R. Qed.

Lemma rotated_fresh : fresh_token st new.
Proof. apply R. Qed.

Lemma rotated_row : cfg_tokens st !! i = Some e.
Proof. by pose proof (findTokenEntryInCfg_Some _ _ _ _ (R.(rot_find))) as [? _]. Qed.

Lemma rotated_distinct : NoDup (te_Token <$> cfg_tokens st').
Proof.
  rewrite (committed_tokens _ _ _ _ rotated_committed).
  pose proof rotated_row as Hrow. pose proof (lookup_lt_Some _ _ _ Hrow).
  rewrite list_fmap_insert.
  apply NoDup_alt. intros j k t Hj Hk.
  pose proof (proj1 (NoDup_alt _) (R.(rot_distinct))) as Hnd.
  assert (forall k', (te_Token <$> cfg_tokens st) !! k' <> Some new) as Hfr.
  { intros k' Hk'. rewrite list_lookup_fmap in Hk'. apply fmap_Some in Hk' as (x & Hx & Hn).
    destruct (R.(rot_fresh)) as (_ & Hfr & _).
    by apply (Hfr x); [eapply list_elem_of_lookup_2|]. }
  rewrite list_lookup_insert in Hj, Hk. cbn in Hj, Hk.
  repeat case_decide; naive_solver.
Qed.

Lemma rotated_auth_old now : live e now -> authenticates (globalAuth st) now (te_Token e) e.
Proof.
  apply coherent_authenticates; [apply R|apply R| |apply R].
  eapply list_elem_of_lookup_2, rotated_row.
Qed.

Lemma rotated_auth_new now :
  live (rotateEntry (env_now env) new e) now ->
  authenticates (globalAuth st') now new (rotateEntry (env_now env) new e).
Proof.
  pose proof rotated_committed as HC.
  apply (coherent_authenticates st' (rotateEntry (env_now env) new e)).
  - apply HC.
  - apply rotated_distinct.
  - rewrite (committed_tokens _ _ _ _ HC). eapply list_elem_of_lookup_2.
    apply list_lookup_insert_eq. eapply lookup_lt_Some, rotated_row.
  - apply (R.(rot_fresh)).
Qed.

Lemma rotateACL_acl_of m :
  acl_of (rotateACL (te_Token e) new <$> cfg_machines st) m =
  rotateACL (te_Token e) new (acl_of (cfg_machines st) m).
Proof.
  apply acl_of_fmap. unfold rotateACL. cbn. rewrite bool_decide_false; [done|].
  intros E. by apply (R.(rot_token)).
Qed.

(** The old credential is dead. *)
Lemma rotated_old_dead now x : ~ authenticates (globalAuth st') now (te_Token e) x.
Proof.
  pose proof rotated_committed as HC. apply coherent_dead; [apply HC|].
  intros y Hy Ht. rewrite (committed_tokens _ _ _ _ HC) in Hy. exfalso.
  apply list_elem_of_lookup in Hy as [j Hj].
  pose proof rotated_row as Hrow. pose proof (lookup_lt_Some _ _ _ Hrow).
  rewrite list_lookup_insert in Hj by done. destruct (R.(rot_fresh)) as (_ & Hfr & _).
  case_decide as Hij.
  - injection Hj as <-. cbn in Ht. by apply (Hfr e); [eapply list_elem_of_lookup_2|].
  - apply Hij. split; [|done].
    eapply (NoDup_lookup (te_Token <$> cfg_tokens st)); [apply R|..];
      rewrite list_lookup_fmap, ?Hrow, ?Hj; [done|]. cbn. by rewrite Ht.
Qed.
End rotation.

Lemma rotateACL_find old new acl :
  hasConnectGrant (ConnectTokens acl) new = false ->
  findConnectGrant (ConnectTokens (rotateACL old new acl)) new =
  (fun g => ConnectGrant new (cg_Services g)) <$> findConnectGrant (ConnectTokens acl) old.
Proof. apply findConnectGrant_replace_new. Qed.

Lemma rotateACL_has old new acl :
  hasConnectGrant (ConnectTokens acl) new = false ->
  hasConnectGrant (ConnectTokens (rotateACL old new acl)) new =
  hasConnectGrant (ConnectTokens acl) old.
Proof.
  intros Hf. unfold hasConnectGrant. rewrite rotateACL_find by done.
  by destruct (findConnectGrant (ConnectTokens acl) old).
Qed.

Lemma rotateACL_register old new acl :
  old <> "" -> new <> "" -> RegisterToken acl <> new ->
  (RegisterToken (rotateACL old new acl) =s "") = (RegisterToken acl =s "") /\
  (RegisterToken (rotateACL old new acl) =s new) = (RegisterToken acl =s old).
Proof. intros. cbn. split; repeat case_bool_decide; congruence. Qed.

(** A served rotation moves the identity's credential: under the new token the identity may
    connect and register exactly where it could under the old one, with the same service filter,
    and the old token is refused by every decision. *)
Theorem rotate_moves_grants `{RangeOrder} env st r id i e new st' now m :
  rotated env st r id i e new st' -> live e now ->
  canConnect (globalAuth st') now new m = canConnect (globalAuth st) now (te_Token e) m /\
  canRegister (globalAuth st') now new m = canRegister (globalAuth st) now (te_Token e) m /\
  connectServicesFilter (globalAuth st') now new m =
    connectServicesFilter (globalAuth st) now (te_Token e) m /\
  canConnect (globalAuth st') now (te_Token e) m = false /\
  canManage (globalAuth st') now (te_Token e) m = false /\
  canRegister (globalAuth st') now (te_Token e) m = false.
Proof.
  intros R Hl.
  assert (live (rotateEntry (env_now env) new e) now) as Hl' by (split; [done|apply Hl]).
  pose proof (rotated_auth_old R now Hl) as Ho. apply validEntry_Some in Ho.
  pose proof (rotated_auth_new R now Hl') as Hn. apply validEntry_Some in Hn.
  pose proof (rotated_committed R) as HC. pose proof (rotated_row R) as Hrow.
  assert (cfg_tokens st <> []) as Hne by (intros E; by rewrite E in Hrow).
  assert (cfg_tokens st' <> []) as Hne'.
  { rewrite (committed_tokens _ _ _ _ HC). intros E. apply (f_equal length) in E.
    rewrite length_insert in E. by destruct (cfg_tokens st). }
  pose proof (coherent_store st ltac:(apply R) Hne) as Es.
  pose proof (coherent_store st' ltac:(apply HC) Hne') as Es'.
  assert (enabled (globalAuth st') = true) as Hen' by (by rewrite Es').
  assert (enabled (globalAuth st) = true) as Hen by (by rewrite Es).
  assert (machines (globalAuth st) = cfg_machines st) as Hm by (by rewrite Es).
  assert (machines (globalAuth st') = rotateACL (te_Token e) new <$> cfg_machines st) as Hm'.
  { rewrite Es'. cbn. apply (committed_machines _ _ _ _ HC). }
  pose proof (rotated_token R) as Htok. pose proof (rotated_fresh R) as Hfresh.
  pose proof (fresh_acl_of st new m Hfresh) as [Hfm _].
  pose proof (fresh_acl_of st new "*" Hfresh) as [Hfw _].
  destruct (unauthenticated_denied (globalAuth st') now (te_Token e) m Hen' (rotated_old_dead R now))
    as (Hd1 & Hd2 & Hd3 & _).
  split_and!; [| | |done..].
  - unfold canConnect, valid. rewrite Hen, Hen', Ho, Hn, Hm, Hm'.
    rewrite !(rotateACL_acl_of R), !rotateACL_has by done. done.
  - unfold canRegister, valid. rewrite Hen, Hen', Ho, Hn, Hm, Hm', lookup_fmap.
    destruct (cfg_machines st !! m) as [acl|] eqn:Hacl; [|done]. cbn [fmap option_fmap option_map].
    destruct Hfresh as (Hn0 & _ & Hfa). destruct (Hfa m acl Hacl) as (Hr & _).
    destruct (rotateACL_register (te_Token e) new acl Htok Hn0 Hr) as [-> ->]. done.
  - unfold connectServicesFilter. rewrite Hen, Hen', Ho, Hn, Hm, Hm'.
    rewrite !(rotateACL_acl_of R), !rotateACL_find by done. cbn.
    by destruct (findConnectGrant (ConnectTokens (acl_of _ m)) _),
      (findConnectGrant (ConnectTokens (acl_of _ "*")) _).
Qed.

(** The hub of the witnesses: an owner, and a user who may connect to, register and manage one
    machine. *)
Definition demo_hub : hubState :=
  hub_of [row "boss" "boss-token" "owner"; row "alice" "alice-token" ""]
    {["m" := MachineACL "alice-token" [ConnectGrant "alice-token" ["ssh"]] ["alice-token"]]}.

Definition demo_rotation : response * hubState :=
  adminRotateToken (env_at 5) demo_hub (request_of "POST" "" "boss-token" "" BodyEmpty) "alice".

Lemma demo_rotated :
  rotated (env_at 5) demo_hub (request_of "POST" "" "boss-token" "" BodyEmpty) "alice" 1
    (row "alice" "alice-token" "") "1234" (snd demo_rotation).
Proof.
  constructor.
  - exists 2%Z. vm_compute. reflexivity.
  - reflexivity.
  - refine (bool_decide_unpack _ _). vm_compute. exact I.
  - reflexivity.
  - discriminate.
  - split; [discriminate|]. split.
    + intros e He.
      change (e ∈ [row "boss" "boss-token" "owner"; row "alice" "alice-token" ""]) in He.
      rewrite !elem_of_cons, elem_of_nil in He. by destruct He as [-> | [-> | []]].
    + intros m acl Hm.
      change (cfg_machines demo_hub) with
        ({["m" := MachineACL "alice-token" [ConnectGrant "alice-token" ["ssh"]] ["alice-token"]]}
          : gmap string machineACL) in Hm.
      apply lookup_singleton_Some in Hm as [<- <-]. cbn.
      split; [discriminate|]. split; [reflexivity|].
      intros Hin. by apply list_elem_of_singleton in Hin.
Defined.

Lemma rotate_moves_grants_witness :
  canConnect (globalAuth (snd demo_rotation)) 9 "1234" "m" =
    canConnect (globalAuth demo_hub) 9 "alice-token" "m" /\
  canConnect (globalAuth demo_hub) 9 "alice-token" "m" = true.
Proof.
  split; [|reflexivity].
  refine (proj1 (rotate_moves_grants _ _ _ _ _ _ _ _ 9 "m" demo_rotated _)). by split.
Defined.

(** The manage permissions of an identity do not survive a rotation: no manage list is
    rewritten, so whatever machines the old token could manage, the new token of an identity that
    is neither owner nor admin manages none. *)
Theorem rotate_drops_manage `{RangeOrder} env st r id i e new st' now m :
  rotated env st r id i e new st' -> ~ privileged e ->
  canManage (globalAuth st') now new m = false.
Proof.
  intros R Hnp. apply not_true_iff_false. rewrite canManage_iff. unfold may_manage.
  pose proof (rotated_committed R) as HC. pose proof (rotated_row R) as Hrow.
  assert (cfg_tokens st' <> []) as Hne'.
  { rewrite (committed_tokens _ _ _ _ HC). intros E. apply (f_equal length) in E.
    rewrite length_insert in E. by destruct (cfg_tokens st). }
  pose proof (coherent_store st' ltac:(apply HC) Hne') as Es'. rewrite Es'. cbn.
  rewrite (committed_machines _ _ _ _ HC), !(rotateACL_acl_of R). cbn.
  intros [|(x & (_ & Hx & _) & [Hpr|[Hin|Hin]])]; [done| | |];
    [|by eapply fresh_acl_of in Hin; [|exact (rotated_fresh R)]..].
  cbn in Hx. apply indexTokens_Some in Hx as (Hx & Ht & _).
  rewrite (committed_tokens _ _ _ _ HC) in Hx. apply list_elem_of_lookup in Hx as [j Hj].
  rewrite list_lookup_insert in Hj. case_decide; [by injection Hj as <-|].
  destruct (rotated_fresh R) as (_ & Hfr & _).
  by apply (Hfr x); [eapply list_elem_of_lookup_2|].
Qed.

Lemma rotate_drops_manage_witness :
  canManage (globalAuth demo_hub) 9 "alice-token" "m" = true /\
  canManage (globalAuth (snd demo_rotation)) 9 "1234" "m" = false.
Proof.
  split; [reflexivity|].
  refine (rotate_drops_manage _ _ _ _ _ _ _ _ 9 "m" demo_rotated _).
  by intros [|].
Defined.

(** ** Revocation *)

(** A served revocation leaves the hub enforcing, the ACLs as they were, and no entry the token
    authenticates. *)
Lemma revoke_kills `{RangeOrder} env st r id resp st' i e :
  adminRevokeToken env st r id = (resp, st') -> status resp = 200%Z ->
  (forall t, body resp <> PAlreadyRevoked id t) ->
  NoDup (te_Token <$> cfg_tokens st) -> findTokenEntryInCfg st id = Some (i, e) ->
  enabled (globalAuth st') = true /\ cfg_machines st' = cfg_machines st /\
  forall now x, ~ authenticates (globalAuth st') now (te_Token e) x.
Proof.
  intros Hrun Hs Hb Hnd Hf.
  apply adminRevokeToken_outcome in Hrun as [[[?|[t Ht]] _]|Hrun]; [done|by destruct (Hb t)|].
  destruct Hrun as (i' & e' & st1 & Hf' & _ & _ & _ & _ & _ & HC).
  rewrite Hf in Hf'. injection Hf' as <- <-.
  apply findTokenEntryInCfg_Some in Hf as [Hrow _].
  pose proof (lookup_lt_Some _ _ _ Hrow) as Hlt.
  assert (cfg_tokens st' <> []) as Hne.
  { rewrite (committed_tokens _ _ _ _ HC). intros E. apply (f_equal length) in E.
    rewrite length_insert in E. cbn in E. lia. }
  split; [rewrite coherent_store; [done|apply HC|done]|]. split; [apply HC|].
  intros now. apply coherent_dead; [apply HC|]. intros x Hx Ht.
  rewrite (committed_tokens _ _ _ _ HC) in Hx. apply list_elem_of_lookup in Hx as [j Hj].
  rewrite list_lookup_insert in Hj. case_decide as Hij.
  - injection Hj as <-. intros [Hrv _]. discriminate Hrv.
  - exfalso. apply Hij. split; [|done].
    eapply (NoDup_lookup (te_Token <$> cfg_tokens st)); [done|..];
      rewrite list_lookup_fmap, ?Hrow, ?Hj; [done|]. cbn. by rewrite Ht.
Qed.

(** A served revocation is final until a rotation: at every later check the revoked token is
    refused by every decision, while its ACL entries stay in place. *)
Theorem revoke_disables `{RangeOrder} env st r id resp st' i e now m :
  adminRevokeToken env st r id = (resp, st') -> status resp = 200%Z ->
  (forall t, body resp <> PAlreadyRevoked id t) ->
  NoDup (te_Token <$> cfg_tokens st) ->
  findTokenEntryInCfg st id = Some (i, e) ->
  canConnect (globalAuth st') now (te_Token e) m = false /\
  canManage (globalAuth st') now (te_Token e) m = false /\
  canRegister (globalAuth st') now (te_Token e) m = false /\
  isOwnerOrAdmin (globalAuth st') now (te_Token e) = false /\
  cfg_machines st' = cfg_machines st.
Proof.
  intros Hrun Hs Hb Hnd Hf. destruct (revoke_kills _ _ _ _ _ _ _ _ Hrun Hs Hb Hnd Hf) as (Hen & Hm & Hk).
  by destruct (unauthenticated_denied (globalAuth st') now (te_Token e) m Hen (Hk now))
    as (? & ? & ? & _ & ? & _).
Qed.

Lemma revoke_disables_witness :
  let '(resp, st') := adminRevokeToken (env_at 5) demo_hub
        (request_of "POST" "" "boss-token" "" BodyEmpty) "alice" in
  canConnect (globalAuth st') 9 "alice-token" "m" = false.
Proof.
  refine (proj1 (revoke_disables (env_at 5) demo_hub
    (request_of "POST" "" "boss-token" "" BodyEmpty) "alice" _ _ 1
    (row "alice" "alice-token" "") 9 "m" eq_refl _ _ _ _)).
  - vm_compute. reflexivity.
  - intros t. vm_compute. discriminate.
  - refine (bool_decide_unpack _ _). vm_compute. exact I.
  - reflexivity.
Defined.
