(* ===== verification/AdminAccess.v ===== *)
(** * The unified access endpoints ([internal/hub/admin_api.go])

    [/api/admin/access] and its sub-resources: list, read, rename and change role, delete, set and
    revoke the permissions of an identity on a machine. *)

From S2P Require Import Prelude Auth Http HubConfig AdminState AdminTokens.
From Stdlib Require Import ZArith Lia Ascii String.
From stdpp Require Import base gmap strings list fin_maps.

Section handlers.
  Context `{RangeOrder}.

(** Every row in turn; each read initialises the version of its identity. *)
Fixpoint buildAccessEntries (st : hubState) (ts : list tokenEntry)
    : list accessEntry * hubState :=
  match ts with
  | [] => ([], st)
  | t :: ts' =>
      let '(e, st) := buildAccessEntry st t in
      let '(es, st) := buildAccessEntries st ts' in
      (e :: es, st)
  end.

Definition adminListAccess (st : hubState) : response * hubState :=
  let '(entries, st) := buildAccessEntries st (cfg_tokens st) in
  (reply 200 (PAccessList entries), st).

Definition adminGetAccess (st : hubState) (id : string) : response * hubState :=
  match findTokenEntryInCfg st id with
  | Some (_, t) =>
      let '(e, st) := buildAccessEntry st t in
      (Response 200 (setETag (ae_Version e)) (PAccess e), st)
  | None => (errorReply 404 "identity not found", st)
  end.

Definition withID (e : tokenEntry) (id : string) : tokenEntry :=
  TokenEntry id (te_Token e) (te_HubRole e) (te_IssuedAt e) (te_ExpiresAt e) (te_RevokedAt e).
Definition withRole (e : tokenEntry) (role : string) : tokenEntry :=
  TokenEntry (te_ID e) (te_Token e) role (te_IssuedAt e) (te_ExpiresAt e) (te_RevokedAt e).

(** The owners the demotion guard counts: revoked ones included. *)
Definition countOwners (ts : list tokenEntry) : nat :=
  length (filter (fun t => te_HubRole t = "owner") ts).

Definition validRole (role : string) : bool :=
  (role =s "") || (role =s "owner") || (role =s "admin") || (role =s "viewer").

(** The body past its validation: [newID] and [newRole] are the patch's pointers. *)
Definition patchEntry (env : environ) (st : hubState) (r : request) (id : string)
    (newID newRole : option string) : response * hubState :=
  match findTokenEntryInCfg st id with
  | None => (errorReply 404 "identity not found", st)
  | Some (i, entry) =>
      match checkIfMatch st r id entry with
      | (Some conflict, st) => (conflict, st)
      | (None, st) =>
          let target := default id newID in
          let renamed := target <>s id in
          if renamed && match findTokenEntryInCfg st target with Some _ => true | None => false end
          then (errorReply 409 ("identity already exists: " +:+ target), st)
          else
            (* entry.ID is assigned through the pointer before the role is examined *)
            let entry := if renamed then withID entry target else entry in
            let st := if renamed
                      then through_pointers (with_tokens st (<[i := entry]> (cfg_tokens st)))
                      else st in
            let role := default (te_HubRole entry) newRole in
            if (role <>s te_HubRole entry) && (te_HubRole entry =s "owner") && (role <>s "owner")
               && (countOwners (cfg_tokens st) <=? 1)%nat
            then (errorReply 409 "cannot demote the sole owner; promote another identity first", st)
            else
              let st := with_tokens st (<[i := withRole entry role]> (cfg_tokens st)) in
              let '(_, st) := persistConfig env st in
              let '(v, st) :=
                if renamed then
                  let av := renameAccessVersion (versions st) id target in
                  (currentAccessVersion av target, with_versions st av)
                else
                  let '(v, av) := bumpAccessVersion (versions st) id in
                  (v, with_versions st av) in
              (Response 200 (setETag v) (PUpdated target v), st)
      end
  end.

Definition adminPatchAccess (env : environ) (st : hubState) (r : request) (id : string)
    : response * hubState :=
  match json_fields (r_Body r) with
  | None => (errorReply 400 "invalid body", st)
  | Some kvs =>
      let '(newID, ok1) := decode_string_ptr "id" kvs None true in
      let '(newRole, ok2) := decode_string_ptr "role" kvs None true in
      if negb (ok1 && ok2) then (errorReply 400 "invalid body", st)
      else match newID, newRole with
           | None, None => (errorReply 400 "specify at least one of id or role", st)
           | _, _ =>
               if match newRole with Some role => negb (validRole role) | None => false end
               then (errorReply 400
                       "role must be one of owner, admin, viewer, or empty (user)", st)
               else if match newID with Some i => i =s "" | None => false end
               then (errorReply 400 "id cannot be empty", st)
               else patchEntry env st r id newID newRole
           end
  end.

(** Removing one token from one machine's ACL. *)
Definition scrubACL (token : string) (acl : machineACL) : machineACL :=
  MachineACL (if RegisterToken acl =s token then "" else RegisterToken acl)
    (removeConnectGrant (ConnectTokens acl) token)
    (removeToken (ManageTokens acl) token).

Definition adminDeleteAccess (env : environ) (st : hubState) (r : request) (id : string)
    : response * hubState :=
  match findTokenEntryInCfg st id with
  | None => (errorReply 404 "identity not found", st)
  | Some (_, entry) =>
      if (te_HubRole entry =s "owner") && (countActiveOwners (cfg_tokens st) <=? 1)%nat then
        (errorReply 409
           "cannot delete the last remaining owner; promote another identity to owner first", st)
      else match checkIfMatch st r id entry with
           | (Some conflict, st) => (conflict, st)
           | (None, st) =>
               let token := te_Token entry in
               let st := with_tokens st (filter (fun t => te_ID t ≠ id) (cfg_tokens st)) in
               let st := with_machines st (scrubACL token <$> cfg_machines st) in
               let '(_, st) := persistConfig env st in
               let st := with_versions st (deleteAccessVersion (versions st) id) in
               (reply 200 (PRemoved id), st)
           end
  end.

(** One requested permission, in the order of the request. *)
Definition grantPerm (token : string) (services : list string) (acl : machineACL) (perm : string)
    : machineACL :=
  if perm =s "register" then MachineACL token (ConnectTokens acl) (ManageTokens acl)
  else if perm =s "connect" then
    MachineACL (RegisterToken acl) (ConnectTokens acl ++ [ConnectGrant token services])
      (ManageTokens acl)
  else if perm =s "manage" then
    MachineACL (RegisterToken acl) (ConnectTokens acl) (ManageTokens acl ++ [token])
  else acl.

Definition adminSetMachineAccess (env : environ) (st : hubState) (r : request)
    (id machineID : string) : response * hubState :=
  match json_fields (r_Body r) with
  | None => (errorReply 400 "invalid body", st)
  | Some kvs =>
      let '(perms, ok1) := decode_strings "permissions" kvs [] true in
      let '(services, ok2) := decode_strings "services" kvs [] true in
      if negb (ok1 && ok2) then (errorReply 400 "invalid body", st)
      else match findTokenEntryInCfg st id with
           | None => (errorReply 404 "identity not found", st)
           | Some (_, entry) =>
               match checkIfMatch st r id entry with
               | (Some conflict, st) => (conflict, st)
               | (None, st) =>
                   let token := te_Token entry in
                   let acl := scrubACL token (acl_of (cfg_machines st) machineID) in
                   let acl := fold_left (grantPerm token services) perms acl in
                   let st := with_machines st (<[machineID := acl]> (cfg_machines st)) in
                   let '(_, st) := persistConfig env st in
                   let '(newVersion, av) := bumpAccessVersion (versions st) id in
                   let st := with_versions st av in
                   (Response 200 (setETag newVersion)
                      (PSetAccess id machineID perms services newVersion), st)
               end
           end
  end.

Definition adminRevokeMachineAccess (env : environ) (st : hubState) (r : request)
    (id machineID : string) : response * hubState :=
  match findTokenEntryInCfg st id with
  | None => (errorReply 404 "identity not found", st)
  | Some (_, entry) =>
      match checkIfMatch st r id entry with
      | (Some conflict, st) => (conflict, st)
      | (None, st) =>
          match cfg_machines st !! machineID with
          | None => (errorReply 404 "no ACL for machine", st)
          | Some acl =>
              let st := with_machines st
                (<[machineID := scrubACL (te_Token entry) acl]> (cfg_machines st)) in
              let '(_, st) := persistConfig env st in
              let '(newVersion, av) := bumpAccessVersion (versions st) id in
              let st := with_versions st av in
              (Response 200 (setETag newVersion) (PRevokedMachine id machineID newVersion), st)
          end
      end
  end.

Definition handleAdminAccess (env : environ) (st : hubState) (r : request)
    : response * hubState :=
  if r_Method r =s "OPTIONS" then (reply 204 PNone, st)
  else match requireOwnerOrAdmin env st r with
       | None => (forbidden, st)
       | Some _ =>
           let path := trim_prefix (trim_prefix (r_Path r) "/api/admin/access") "/" in
           if path =s "" then
             if r_Method r <>s "GET" then (reply 405 PNone, st) else adminListAccess st
           else match cut path "/machines/" with
                | Some (id, machineID) =>
                    if machineID =s "" then (errorReply 400 "machineId required", st)
                    else if r_Method r =s "PUT" then adminSetMachineAccess env st r id machineID
                    else if r_Method r =s "DELETE" then
                      adminRevokeMachineAccess env st r id machineID
                    else (reply 405 PNone, st)
                | None =>
                    if r_Method r =s "GET" then adminGetAccess st path
                    else if r_Method r =s "PATCH" then adminPatchAccess env st r path
                    else if r_Method r =s "DELETE" then adminDeleteAccess env st r path
                    else (reply 405 PNone, st)
                end
       end.

End handlers.

(** ** Outcomes *)

Section outcomes.
  Context `{RangeOrder}.

(** Reading entries initialises counters and nothing else. *)
Lemma buildAccessEntry_unchanged st e : unchanged st (snd (buildAccessEntry st e)).
Proof. destruct (buildAccessEntry_frame st e) as (av & -> & _). by exists av. Qed.

Lemma buildAccessEntries_unchanged ts st : unchanged st (snd (buildAccessEntries st ts)).
Proof.
  revert st. induction ts as [|t ts IH]; intros st; [apply unchanged_refl|]. cbn.
  pose proof (buildAccessEntry_unchanged st t) as Hu.
  destruct (buildAccessEntry st t) as [e st1]. specialize (IH st1).
  destruct (buildAccessEntries st1 ts) as [es st2]. cbn in *. by eapply unchanged_trans.
Qed.

Lemma adminDeleteAccess_outcome env st r id resp st' :
  adminDeleteAccess env st r id = (resp, st') ->
  status resp <> 200%Z /\ unchanged st st' \/
  exists i entry st1,
    findTokenEntryInCfg st id = Some (i, entry) /\
    (te_HubRole entry = "owner" -> (2 <= countActiveOwners (cfg_tokens st))%nat) /\
    checkIfMatch st r id entry = (None, st1) /\
    resp = reply 200 (PRemoved id) /\
    versions st' = deleteAccessVersion (versions st1) id /\
    committed st st' (filter (fun t => te_ID t ≠ id) (cfg_tokens st))
      (scrubACL (te_Token entry) <$> cfg_machines st).
Proof.
  unfold adminDeleteAccess. intros Hh.
  destruct (findTokenEntryInCfg st id) as [[i entry]|]; [|refused Hh].
  destruct ((te_HubRole entry =s "owner") && _) eqn:Hguard; [refused Hh|].
  destruct (checkIfMatch st r id entry) as [[conflict|] st1] eqn:Hck.
  { injection Hh as <- <-. left. split; [|by eauto with tela].
    apply checkIfMatch_Some in Hck as [-> _]. done. }
  destruct (checkIfMatch_unchanged _ _ _ _ _ _ Hck) as [av ->].
  destruct (persistConfig env _) as [ok st2] eqn:Hp.
  injection Hh as <- <-. right.
  pose proof (persistConfig_spec _ _ _ _ Hp) as (_ & Hv & _). cbn in Hv.
  exists i, entry, (with_versions st av). split_and!; try done.
  - intros Howner. apply andb_false_iff in Hguard as [Hg|Hg]; [by prop_bool|].
    apply Nat.leb_gt in Hg. lia.
  - cbn. by rewrite Hv.
  - exact (persist_committed _ st _ _ _ _ Hp eq_refl).
Qed.

Lemma adminSetMachineAccess_outcome env st r id mid resp st' :
  adminSetMachineAccess env st r id mid = (resp, st') ->
  status resp <> 200%Z /\ unchanged st st' \/
  exists i entry st1 perms services,
    findTokenEntryInCfg st id = Some (i, entry) /\
    checkIfMatch st r id entry = (None, st1) /\
    versions st' = snd (bumpAccessVersion (versions st1) id) /\
    resp = Response 200 (setETag (fst (bumpAccessVersion (versions st1) id)))
             (PSetAccess id mid perms services (fst (bumpAccessVersion (versions st1) id))) /\
    committed st st' (cfg_tokens st)
      (<[mid := fold_left (grantPerm (te_Token entry) services) perms
                  (scrubACL (te_Token entry) (acl_of (cfg_machines st) mid))]> (cfg_machines st)).
Proof.
  unfold adminSetMachineAccess. intros Hh.
  destruct (json_fields _) as [kvs|]; [|refused Hh].
  destruct (decode_strings "permissions" kvs [] true) as [perms ok1].
  destruct (decode_strings "services" kvs [] true) as [services ok2].
  destruct (negb _); [refused Hh|].
  destruct (findTokenEntryInCfg st id) as [[i entry]|]; [|refused Hh].
  destruct (checkIfMatch st r id entry) as [[conflict|] st1] eqn:Hck.
  { injection Hh as <- <-. left. split; [|by eauto with tela].
    apply checkIfMatch_Some in Hck as [-> _]. done. }
  destruct (checkIfMatch_unchanged _ _ _ _ _ _ Hck) as [av ->].
  destruct (persistConfig env _) as [ok st2] eqn:Hp.
  destruct (bumpAccessVersion (versions st2) id) as [v av'] eqn:Hb.
  injection Hh as <- <-. right.
  pose proof (persistConfig_spec _ _ _ _ Hp) as (_ & Hv & _). cbn in Hv. rewrite Hv in Hb.
  exists i, entry, (with_versions st av), perms, services.
  change (versions (with_versions st av)) with av. rewrite Hb. split_and!; try done.
  exact (persist_committed _ st _ _ _ _ Hp eq_refl).
Qed.

Lemma adminRevokeMachineAccess_outcome env st r id mid resp st' :
  adminRevokeMachineAccess env st r id mid = (resp, st') ->
  status resp <> 200%Z /\ unchanged st st' \/
  exists i entry st1 acl,
    findTokenEntryInCfg st id = Some (i, entry) /\
    checkIfMatch st r id entry = (None, st1) /\
    cfg_machines st !! mid = Some acl /\
    versions st' = snd (bumpAccessVersion (versions st1) id) /\
    resp = Response 200 (setETag (fst (bumpAccessVersion (versions st1) id)))
             (PRevokedMachine id mid (fst (bumpAccessVersion (versions st1) id))) /\
    committed st st' (cfg_tokens st) (<[mid := scrubACL (te_Token entry) acl]> (cfg_machines st)).
Proof.
  unfold adminRevokeMachineAccess. intros Hh.
  destruct (findTokenEntryInCfg st id) as [[i entry]|]; [|refused Hh].
  destruct (checkIfMatch st r id entry) as [[conflict|] st1] eqn:Hck.
  { injection Hh as <- <-. left. split; [|by eauto with tela].
    apply checkIfMatch_Some in Hck as [-> _]. done. }
  destruct (checkIfMatch_unchanged _ _ _ _ _ _ Hck) as [av ->].
  change (cfg_machines (with_versions st av)) with (cfg_machines st) in *.
  destruct (cfg_machines st !! mid) as [acl|] eqn:Hacl; [|refused Hh].
  destruct (persistConfig env _) as [ok st2] eqn:Hp.
  destruct (bumpAccessVersion (versions st2) id) as [v av'] eqn:Hb.
  injection Hh as <- <-. right.
  pose proof (persistConfig_spec _ _ _ _ Hp) as (_ & Hv & _). cbn in Hv. rewrite Hv in Hb.
  exists i, entry, (with_versions st av), acl.
  change (versions (with_versions st av)) with av. rewrite Hb. split_and!; try done.
  exact (persist_committed _ st _ _ _ _ Hp eq_refl).
Qed.

End outcomes.

(** ** What a scrubbed ACL holds *)

Lemma scrubACL_connect tok acl t :
  hasConnectGrant (ConnectTokens (scrubACL tok acl)) t =
  if t =s tok then false else hasConnectGrant (ConnectTokens acl) t.
Proof. apply hasConnectGrant_remove. Qed.

Lemma scrubACL_manage tok acl t :
  inTokenList (ManageTokens (scrubACL tok acl)) t =
  if t =s tok then false else inTokenList (ManageTokens acl) t.
Proof.
  apply eq_true_iff_eq. cbn [ManageTokens scrubACL].
  case_bool_decide; rewrite !inTokenList_iff, removeToken_elem;
    naive_solver.
Qed.

Lemma scrubACL_zero tok : scrubACL tok zeroACL = zeroACL.
Proof. unfold scrubACL. cbn. by case_bool_decide. Qed.
#[export] Hint Rewrite scrubACL_connect scrubACL_manage : tela_simpl.

(** ** What a fold of grants holds *)

Section grants.
  Context (tok : string) (services : list string).

Lemma grants_register perms acl :
  RegisterToken (fold_left (grantPerm tok services) perms acl) =
  if bool_decide ("register" ∈ perms) then tok else RegisterToken acl.
Proof.
  revert acl. induction perms as [|p perms IH]; intros acl; [done|].
  cbn [fold_left]. rewrite IH. unfold grantPerm.
  destruct (bool_decide_reflect ("register" ∈ perms)) as [Hi|Hi].
  - by rewrite bool_decide_true by (by right).
  - case_bool_decide as Hp.
    + rewrite bool_decide_true; [done|subst; left].
    + rewrite (bool_decide_false ("register" ∈ p :: perms)); [|rewrite elem_of_cons; naive_solver].
      repeat case_bool_decide; done.
Qed.

Lemma grants_connect perms acl t :
  hasConnectGrant (ConnectTokens (fold_left (grantPerm tok services) perms acl)) t =
  hasConnectGrant (ConnectTokens acl) t || (bool_decide ("connect" ∈ perms) && (t =s tok)).
Proof.
  revert acl. induction perms as [|p perms IH]; intros acl; [by rewrite orb_false_r|].
  cbn [fold_left]. rewrite IH. unfold grantPerm.
  destruct (decide (p = "connect")) as [->|Hne].
  - rewrite (bool_decide_true ("connect" ∈ "connect" :: perms)) by left.
    rewrite bool_decide_false, bool_decide_true by done. cbn [ConnectTokens].
    rewrite hasConnectGrant_app. unfold hasConnectGrant at 2. cbn.
    rewrite (bool_decide_ext (tok = t) (t = tok)) by naive_solver.
    by destruct (hasConnectGrant _ _), (bool_decide (t = tok)), (bool_decide _).
  - rewrite (bool_decide_ext ("connect" ∈ p :: perms) ("connect" ∈ perms))
      by (rewrite elem_of_cons; naive_solver).
    repeat case_bool_decide; done.
Qed.

Lemma grants_manage perms acl t :
  inTokenList (ManageTokens (fold_left (grantPerm tok services) perms acl)) t =
  inTokenList (ManageTokens acl) t || (bool_decide ("manage" ∈ perms) && (t =s tok)).
Proof.
  revert acl. induction perms as [|p perms IH]; intros acl; [by rewrite orb_false_r|].
  cbn [fold_left]. rewrite IH. unfold grantPerm.
  destruct (decide (p = "manage")) as [->|Hne].
  - rewrite (bool_decide_true ("manage" ∈ "manage" :: perms)) by left.
    rewrite 2!bool_decide_false, bool_decide_true by done. cbn [ManageTokens].
    unfold inTokenList. rewrite existsb_app. cbn.
    rewrite (bool_decide_ext (tok = t) (t = tok)) by naive_solver.
    by destruct (existsb _ _), (bool_decide (t = tok)), (bool_decide _).
  - rewrite (bool_decide_ext ("manage" ∈ p :: perms) ("manage" ∈ perms))
      by (rewrite elem_of_cons; naive_solver).
    repeat case_bool_decide; done.
Qed.
End grants.

(** ** Reading the store after a commit *)

Section committed_reads.
  Context {st st' : hubState} {ts : list tokenEntry} {ms : gmap string machineACL}.
  Context (HC : committed st st' ts ms).

Lemma committed_store : ts <> [] -> globalAuth st' = AuthStore true (indexTokens ts) ms.
Proof.
  intros Hne. rewrite coherent_store; [|apply HC|by rewrite (committed_tokens _ _ _ _ HC)].
  by rewrite (committed_tokens _ _ _ _ HC), (committed_machines _ _ _ _ HC).
Qed.

(** A token no committed row carries is refused, if any row was committed. *)
Lemma committed_no_row now tok m :
  ts <> [] -> (forall e, e ∈ ts -> te_Token e <> tok) ->
  canConnect (globalAuth st') now tok m = false /\
  canManage (globalAuth st') now tok m = false /\
  canRegister (globalAuth st') now tok m = false /\
  isOwnerOrAdmin (globalAuth st') now tok = false.
Proof.
  intros Hne Hno.
  destruct (unauthenticated_denied (globalAuth st') now tok m) as (? & ? & ? & _ & ? & _); [| |done].
  - by rewrite committed_store.
  - apply coherent_dead; [apply HC|]. rewrite (committed_tokens _ _ _ _ HC).
    intros e He Ht. by destruct (Hno e He).
Qed.
End committed_reads.

(** The decisions of a store with the same tokens read only two ACLs. *)
Lemma canConnect_ext en bt ms ms' now t m :
  hasConnectGrant (ConnectTokens (acl_of ms m)) t = hasConnectGrant (ConnectTokens (acl_of ms' m)) t ->
  hasConnectGrant (ConnectTokens (acl_of ms "*")) t =
    hasConnectGrant (ConnectTokens (acl_of ms' "*")) t ->
  canConnect (AuthStore en bt ms) now t m = canConnect (AuthStore en bt ms') now t m.
Proof. intros H1 H2. unfold canConnect, valid, validEntry. cbn. by rewrite H1, H2. Qed.

Lemma canManage_ext en bt ms ms' now t m :
  inTokenList (ManageTokens (acl_of ms m)) t = inTokenList (ManageTokens (acl_of ms' m)) t ->
  inTokenList (ManageTokens (acl_of ms "*")) t = inTokenList (ManageTokens (acl_of ms' "*")) t ->
  canManage (AuthStore en bt ms) now t m = canManage (AuthStore en bt ms') now t m.
Proof. intros H1 H2. unfold canManage, valid, validEntry. cbn. by rewrite H1, H2. Qed.

(** The decisions for a live caller that is neither owner nor admin. *)
Lemma canConnect_plain s now t m e :
  enabled s = true -> validEntry s now t = Some e -> ownerOrAdminRole (Some e) = false ->
  canConnect s now t m = hasConnectGrant (ConnectTokens (acl_of (machines s) m)) t ||
                         hasConnectGrant (ConnectTokens (acl_of (machines s) "*")) t.
Proof. intros He Hv Hr. unfold canConnect, valid. rewrite He, Hv, Hr. cbn [negb]. by destruct (hasConnectGrant _ t). Qed.

Lemma canManage_plain s now t m e :
  enabled s = true -> validEntry s now t = Some e -> ownerOrAdminRole (Some e) = false ->
  canManage s now t m = inTokenList (ManageTokens (acl_of (machines s) m)) t ||
                        inTokenList (ManageTokens (acl_of (machines s) "*")) t.
Proof. intros He Hv Hr. unfold canManage, valid. rewrite He, Hv, Hr. cbn [negb]. by destruct (inTokenList _ t). Qed.

Lemma acl_of_insert ms k acl m :
  acl_of (<[k := acl]> ms) m = if m =s k then acl else acl_of ms m.
Proof.
  unfold acl_of. case_bool_decide as E; [subst; by rewrite lookup_insert_eq|].
  by rewrite lookup_insert_ne.
Qed.

(** ** Deleting an identity *)

(** A served deletion erases the identity: no row carries its name, its token occurs in no
    ACL of any machine, every other token's connect and manage grants are untouched, and unless
    the deletion emptied the token list the token is refused by every decision. *)
Theorem delete_access_erases `{RangeOrder} env st r id resp st' i e now :
  adminDeleteAccess env st r id = (resp, st') -> status resp = 200%Z ->
  NoDup (te_Token <$> cfg_tokens st) -> te_Token e <> "" ->
  findTokenEntryInCfg st id = Some (i, e) ->
  (forall x, x ∈ cfg_tokens st' <-> x ∈ cfg_tokens st /\ te_ID x <> id) /\
  (forall m acl, cfg_machines st' !! m = Some acl ->
     RegisterToken acl <> te_Token e /\ hasConnectGrant (ConnectTokens acl) (te_Token e) = false /\
     inTokenList (ManageTokens acl) (te_Token e) = false) /\
  (forall m t, t <> te_Token e ->
     hasConnectGrant (ConnectTokens (acl_of (cfg_machines st') m)) t =
       hasConnectGrant (ConnectTokens (acl_of (cfg_machines st) m)) t /\
     inTokenList (ManageTokens (acl_of (cfg_machines st') m)) t =
       inTokenList (ManageTokens (acl_of (cfg_machines st) m)) t) /\
  (cfg_tokens st' <> [] -> forall m,
     canConnect (globalAuth st') now (te_Token e) m = false /\
     canManage (globalAuth st') now (te_Token e) m = false /\
     canRegister (globalAuth st') now (te_Token e) m = false /\
     isOwnerOrAdmin (globalAuth st') now (te_Token e) = false).
Proof.
  intros Hrun Hs Hnd Htok Hf.
  apply adminDeleteAccess_outcome in Hrun as [[? _]|Hrun]; [done|].
  destruct Hrun as (i' & e' & st1 & Hf' & _ & _ & _ & _ & HC).
  rewrite Hf in Hf'. injection Hf' as <- <-.
  apply findTokenEntryInCfg_Some in Hf as [Hrow Hid].
  pose proof (committed_tokens _ _ _ _ HC) as Hts. pose proof (committed_machines _ _ _ _ HC) as Hms.
  split_and!.
  - intros x. rewrite Hts, list_elem_of_filter. naive_solver.
  - intros m acl. rewrite Hms, lookup_fmap. intros (acl0 & _ & ->)%fmap_Some.
    split; [cbn; case_bool_decide; congruence|]. autorewrite with tela_simpl.
    by rewrite bool_decide_true.
  - intros m t Ht. rewrite Hms, acl_of_fmap by apply scrubACL_zero.
    autorewrite with tela_simpl. by rewrite bool_decide_false.
  - intros Hne m. apply (committed_no_row HC); [by rewrite <- Hts|].
    intros x [Hx1 Hx2]%list_elem_of_filter Ht.
    apply list_elem_of_lookup in Hx2 as [j Hj]. assert (i = j) as <-.
    { eapply (NoDup_lookup (te_Token <$> cfg_tokens st)); [done|..];
        rewrite list_lookup_fmap, ?Hrow, ?Hj; [done|]. cbn. by rewrite Ht. }
    rewrite Hrow in Hj. by injection Hj as <-.
Qed.

Lemma delete_access_erases_witness :
  let '(resp, st') := adminDeleteAccess (env_at 5) demo_hub
        (request_of "DELETE" "" "boss-token" "" BodyEmpty) "alice" in
  canConnect (globalAuth st') 9 "alice-token" "m" = false.
Proof.
  refine (proj1 (proj2 (proj2 (proj2 (delete_access_erases (env_at 5) demo_hub
    (request_of "DELETE" "" "boss-token" "" BodyEmpty) "alice" _ _ 1
    (row "alice" "alice-token" "") 9 eq_refl _ _ _ _))) _ "m")).
  - reflexivity.
  - refine (bool_decide_unpack _ _). vm_compute. exact I.
  - discriminate.
  - reflexivity.
  - vm_compute. discriminate.
Defined.

(** The guard counts owners only: an admin who is the only identity may delete itself, and the
    hub it leaves has no token at all, so it is open to everybody. *)
Example delete_sole_admin_opens :
  let st := hub_of [row "a" "a-token" "admin"] ∅ in
  let '(resp, st') := handleAdminAccess (env_at 5) st
        (request_of "DELETE" "/api/admin/access/a" "a-token" "" BodyEmpty) in
  status resp = 200%Z /\ isEnabled (globalAuth st) = true /\
  isEnabled (globalAuth st') = false /\
  canConnect (globalAuth st') 9 "anybody" "m" = true /\
  canManage (globalAuth st') 9 "" "m" = true.
Proof. vm_compute. repeat split. Qed.

(** ** Setting permissions *)

(** Setting the permissions of an identity that is neither owner nor admin makes them exactly
    the requested ones on that machine, the wildcard grants aside; no other token gains or loses a
    connection or management right anywhere. *)
Theorem set_access_exact `{RangeOrder} env st r id mid v perms services v' st' i e now :
  adminSetMachineAccess env st r id mid =
    (Response 200 v (PSetAccess id mid perms services v'), st') ->
  coherent st -> NoDup (te_Token <$> cfg_tokens st) ->
  findTokenEntryInCfg st id = Some (i, e) -> te_Token e <> "" ->
  live e now -> ~ privileged e ->
  canConnect (globalAuth st') now (te_Token e) mid =
    bool_decide ("connect" ∈ perms) ||
    (mid <>s "*") && hasConnectGrant (ConnectTokens (acl_of (cfg_machines st) "*")) (te_Token e) /\
  canManage (globalAuth st') now (te_Token e) mid =
    bool_decide ("manage" ∈ perms) ||
    (mid <>s "*") && inTokenList (ManageTokens (acl_of (cfg_machines st) "*")) (te_Token e) /\
  ("register" ∈ perms -> canRegister (globalAuth st') now (te_Token e) mid = true) /\
  (forall m t, t <> te_Token e ->
     canConnect (globalAuth st') now t m = canConnect (globalAuth st) now t m /\
     canManage (globalAuth st') now t m = canManage (globalAuth st) now t m).
Proof.
  intros Hrun Hco Hnd Hf Htok Hl Hnp.
  apply adminSetMachineAccess_outcome in Hrun as [[? _]|Hrun]; [done|].
  destruct Hrun as (i' & e' & st1 & perms' & services' & Hf' & _ & _ & Hresp & HC).
  injection Hresp as _ <- <- _. rewrite Hf in Hf'. injection Hf' as <- <-.
  apply findTokenEntryInCfg_Some in Hf as [Hrow Hid].
  assert (cfg_tokens st <> []) as Hne by (intros E; by rewrite E in Hrow).
  pose proof (committed_store HC Hne) as Es'. pose proof (coherent_store st Hco Hne) as Es.
  assert (validEntry (globalAuth st') now (te_Token e) = Some e) as Hv.
  { apply validEntry_Some. rewrite Es'. split; [done|]. split; [|done].
    apply indexTokens_elem; [done| |done]. by eapply list_elem_of_lookup_2. }
  assert (ownerOrAdminRole (Some e) = false) as Hor.
  { apply not_true_iff_false. cbn. rewrite orb_true_iff, !bool_decide_eq_true. done. }
  split_and!.
  - rewrite (canConnect_plain _ _ _ _ e) by (rewrite ?Es' in *; done). rewrite Es'. cbn [machines].
    rewrite !acl_of_insert, (bool_decide_true (mid = mid)) by done.
    rewrite (bool_decide_ext ("*" = mid) (mid = "*")) by naive_solver.
    case_bool_decide; subst; rewrite !grants_connect, !scrubACL_connect;
      rewrite !(bool_decide_true (te_Token e = te_Token e)) by done;
      by rewrite !orb_false_l, andb_true_r, ?orb_diag, ?orb_false_r.
  - rewrite (canManage_plain _ _ _ _ e) by (rewrite ?Es' in *; done). rewrite Es'. cbn [machines].
    rewrite !acl_of_insert, (bool_decide_true (mid = mid)) by done.
    rewrite (bool_decide_ext ("*" = mid) (mid = "*")) by naive_solver.
    case_bool_decide; subst; rewrite !grants_manage, !scrubACL_manage;
      rewrite !(bool_decide_true (te_Token e = te_Token e)) by done;
      by rewrite !orb_false_l, andb_true_r, ?orb_diag, ?orb_false_r.
  - intros Hreg. unfold canRegister, valid. rewrite Hv, Hor, Es'. cbn [enabled machines negb].
    rewrite lookup_insert_eq, grants_register, (bool_decide_true ("register" ∈ perms)) by done.
    rewrite bool_decide_false by done. by rewrite bool_decide_true.
  - intros m t Ht. rewrite Es', Es. split; [apply canConnect_ext|apply canManage_ext];
      rewrite !acl_of_insert; case_bool_decide; subst; try done;
      rewrite ?grants_connect, ?grants_manage, ?scrubACL_connect, ?scrubACL_manage;
      by rewrite !(bool_decide_false (t = te_Token e)), andb_false_r, orb_false_r by done.
Qed.

(** The body of a PUT that asks for the given permissions. *)
Definition perms_body (perms services : list string) : reqBody :=
  BodyJson (JObj [("permissions", JArr (map JStr perms)); ("services", JArr (map JStr services))]).

Lemma set_access_exact_witness :
  let '(resp, st') := adminSetMachineAccess (env_at 5) demo_hub
        (request_of "PUT" "" "boss-token" "" (perms_body ["manage"] [])) "alice" "m" in
  canConnect (globalAuth st') 9 "alice-token" "m" = false /\
  canConnect (globalAuth demo_hub) 9 "alice-token" "m" = true.
Proof.
  split; [|reflexivity].
  refine (proj1 (set_access_exact (env_at 5) demo_hub
    (request_of "PUT" "" "boss-token" "" (perms_body ["manage"] [])) "alice" "m" _ ["manage"] [] _ _
    1 (row "alice" "alice-token" "") 9 eq_refl _ _ _ _ _ _)).
  - reflexivity.
  - refine (bool_decide_unpack _ _). vm_compute. exact I.
  - reflexivity.
  - discriminate.
  - by split.
  - by intros [|].
Defined.

(** ** Revoking the permissions on a machine *)

(** Revoking the machine permissions of the identity that holds the machine's register token
    opens registration: the register token becomes empty, and a machine whose ACL has an empty
    register token may be registered by every live token, the revoked identity's own included. *)
Theorem revoke_register_opens `{RangeOrder} env st r id mid v v' st' i e acl now t x :
  adminRevokeMachineAccess env st r id mid = (Response 200 v (PRevokedMachine id mid v'), st') ->
  coherent st -> findTokenEntryInCfg st id = Some (i, e) ->
  cfg_machines st !! mid = Some acl -> RegisterToken acl = te_Token e ->
  authenticates (globalAuth st) now t x ->
  canRegister (globalAuth st') now t mid = true /\
  canConnect (globalAuth st') now (te_Token e) mid =
    canConnect (AuthStore (enabled (globalAuth st)) (byToken (globalAuth st))
                  (delete mid (machines (globalAuth st)))) now (te_Token e) mid.
Proof.
  intros Hrun Hco Hf Hacl Hreg Hauth.
  apply adminRevokeMachineAccess_outcome in Hrun as [[? _]|Hrun]; [done|].
  destruct Hrun as (i' & e' & st1 & acl' & Hf' & _ & Hacl' & _ & _ & HC).
  rewrite Hf in Hf'. injection Hf' as <- <-. rewrite Hacl in Hacl'. injection Hacl' as <-.
  apply findTokenEntryInCfg_Some in Hf as [Hrow Hid].
  assert (cfg_tokens st <> []) as Hne by (intros E; by rewrite E in Hrow).
  rewrite (committed_store HC Hne). rewrite (coherent_store st Hco Hne) in *. split.
  - apply canRegister_iff. right. exists x. split; [exact Hauth|]. right.
    exists (scrubACL (te_Token e) acl). cbn [machines]. rewrite lookup_insert_eq.
    split; [done|]. left. cbn. by rewrite bool_decide_true.
  - cbn [enabled byToken machines]. apply canConnect_ext; rewrite acl_of_insert.
    + rewrite bool_decide_true, scrubACL_connect, bool_decide_true by done.
      unfold acl_of. by rewrite lookup_delete_eq.
    + unfold acl_of. case_bool_decide as E.
      * rewrite <- E, scrubACL_connect, bool_decide_true by done. by rewrite lookup_delete_eq.
      * by rewrite lookup_delete_ne.
Qed.

Lemma revoke_register_opens_witness :
  let '(resp, st') := adminRevokeMachineAccess (env_at 5) demo_hub
        (request_of "DELETE" "" "boss-token" "" BodyEmpty) "alice" "m" in
  canRegister (globalAuth st') 9 "alice-token" "m" = true.
Proof.
  refine (proj1 (revoke_register_opens (env_at 5) demo_hub
    (request_of "DELETE" "" "boss-token" "" BodyEmpty) "alice" "m" _ _ _
    1 (row "alice" "alice-token" "") _ 9 "alice-token" (row "alice" "alice-token" "")
    eq_refl _ _ _ _ _)).
  - reflexivity.
  - reflexivity.
  - apply lookup_singleton_eq.
  - reflexivity.
  - split; [discriminate|]. split; [reflexivity|by split].
Defined.

(** ** Renaming and changing the role *)

(** The row a served PATCH leaves. *)
Definition patched (e : tokenEntry) (newID newRole : option string) : tokenEntry :=
  TokenEntry (default (te_ID e) newID) (te_Token e) (default (te_HubRole e) newRole)
    (te_IssuedAt e) (te_ExpiresAt e) (te_RevokedAt e).

(** The three outcomes: a refusal that changes nothing, a refused demotion after the rename was
    already assigned, and the committed change of one row. *)
Inductive patch_result `{RangeOrder} (env : environ) (st : hubState) (r : request) (id : string)
    (newID newRole : option string) (resp : response) (st' : hubState) : Prop :=
  | patch_refused :
      status resp <> 200%Z -> unchanged st st' -> patch_result env st r id newID newRole resp st'
  | patch_half_done i e target st1 :
      findTokenEntryInCfg st id = Some (i, e) -> checkIfMatch st r id e = (None, st1) -> newID = Some target -> target <> id ->
      findTokenEntryInCfg st target = None ->
      te_HubRole e = "owner" -> status resp = 409%Z ->
      cfg_tokens st' = <[i := withID e target]> (cfg_tokens st) ->
      cfg_machines st' = cfg_machines st -> diskCfg st' = diskCfg st ->
      coherent st' ->
      patch_result env st r id newID newRole resp st'
  | patch_done i e st1 :
      findTokenEntryInCfg st id = Some (i, e) ->
      (default id newID <> id -> findTokenEntryInCfg st (default id newID) = None) ->
      (te_HubRole e = "owner" -> default "owner" newRole <> "owner" ->
       (2 <= countOwners (cfg_tokens st))%nat) ->
      checkIfMatch st r id e = (None, st1) ->
      (default id newID = id -> versions st' = snd (bumpAccessVersion (versions st1) id)) ->
      status resp = 200%Z ->
      committed st st' (<[i := patched e newID newRole]> (cfg_tokens st)) (cfg_machines st) ->
      patch_result env st r id newID newRole resp st'.

Lemma countOwners_insert ts i e :
  ts !! i = Some e -> forall e', te_HubRole e' = te_HubRole e ->
  countOwners (<[i := e']> ts) = countOwners ts.
Proof.
  intros Hi e' Hr. unfold countOwners. revert i Hi.
  induction ts as [|x ts IH]; intros [|i] Hi; [done|done|injection Hi as ->|].
  - cbn [insert list_insert]. rewrite !filter_cons, Hr. by case_decide.
  - change (<[S i := e']> (x :: ts)) with (x :: <[i := e']> ts). rewrite !filter_cons.
    specialize (IH i Hi).
    case_decide; cbn [length]; by rewrite IH.
Qed.

Lemma patchEntry_outcome `{RangeOrder} env st r id newID newRole resp st' :
  patchEntry env st r id newID newRole = (resp, st') ->
  patch_result env st r id newID newRole resp st'.
Proof.
  unfold patchEntry. intros Hh.
  destruct (findTokenEntryInCfg st id) as [[i e]|] eqn:Hf;
    [|injection Hh as <- <-; apply patch_refused; eauto with tela].
  destruct (checkIfMatch st r id e) as [[conflict|] st1] eqn:Hck.
  { injection Hh as <- <-. apply patch_refused; [|by eauto with tela].
    apply checkIfMatch_Some in Hck as [-> _]. done. }
  pose proof Hck as Hck'. destruct (checkIfMatch_unchanged _ _ _ _ _ _ Hck) as [av ->].
  change (findTokenEntryInCfg (with_versions st av)) with (findTokenEntryInCfg st) in Hh.
  pose proof (findTokenEntryInCfg_Some _ _ _ _ Hf) as [Hrow Hid].
  destruct (decide (default id newID = id)) as [Heq|Hne].
  - rewrite (bool_decide_true (default id newID = id)) in Hh by done. cbn [negb andb] in Hh.
    destruct (_ && _) eqn:Hg in Hh; [injection Hh as <- <-; apply patch_refused; eauto with tela|].
    destruct (persistConfig env _) as [ok st2] eqn:Hp.
    destruct (bumpAccessVersion _ id) as [v av'] eqn:Hb. injection Hh as <- <-.
    eapply (patch_done _ _ _ _ _ _ _ _ i e); try done.
    + intros Ho Hr. rewrite Ho in Hg. destruct newRole as [role|]; [|done]. cbn in Hr, Hg.
      rewrite bool_decide_false in Hg by done. cbn in Hg. apply Nat.leb_gt in Hg. exact Hg.
    + intros _. pose proof (persistConfig_spec _ _ _ _ Hp) as (_ & Hv & _). cbn in Hv.
      rewrite Hv in Hb. change (versions (with_versions st av)) with av. by rewrite Hb.
    + pose proof (persist_committed _ st _ _ _ av' Hp eq_refl) as HC.
      unfold patched. replace (default (te_ID e) newID) with (te_ID e) by (subst; done).
      exact HC.
  - rewrite (bool_decide_false (default id newID = id)) in Hh by done. cbn [negb andb] in Hh.
    destruct newID as [target|]; [|done]. change (default id (Some target)) with target in *.
    destruct (findTokenEntryInCfg st target) eqn:Hft;
      [injection Hh as <- <-; apply patch_refused; eauto with tela|].
    destruct (_ && _) eqn:Hg in Hh.
    + injection Hh as <- <-. prop_bool. eapply (patch_half_done _ _ _ _ _ _ _ _ i e target); eassumption || done.
    + destruct (persistConfig env _) as [ok st2] eqn:Hp. injection Hh as <- <-.
      eapply (patch_done _ _ _ _ _ _ _ _ i e); try done.
      * intros Ho Hr. cbn [withID te_HubRole] in Hg. rewrite Ho in Hg.
        destruct newRole as [role|]; [|done]. 
        change (default ?d (Some role)) with role in *.
        rewrite bool_decide_false in Hg by done. cbn [negb andb] in Hg.
        rewrite bool_decide_true in Hg by done. cbn [andb] in Hg.
        apply Nat.leb_gt in Hg.
        change (cfg_tokens _) with (<[i := withID e target]> (cfg_tokens st)) in Hg.
        rewrite (countOwners_insert _ _ e) in Hg by done. exact Hg.
      * pose proof (persist_committed _ st _ _ _
          (renameAccessVersion (versions st2) id target) Hp eq_refl) as HC.
        change (cfg_tokens _) with (<[i := withRole (withID e target) (default (te_HubRole e) newRole)]>
          (<[i := withID e target]> (cfg_tokens st))) in HC at 1.
        by rewrite list_insert_insert_eq in HC.
Qed.

Lemma adminPatchAccess_outcome `{RangeOrder} env st r id resp st' :
  adminPatchAccess env st r id = (resp, st') ->
  exists newID newRole, newID <> Some "" /\
    (newRole = None \/ exists role, newRole = Some role /\ validRole role = true) /\
    patch_result env st r id newID newRole resp st'.
Proof.
  unfold adminPatchAccess. intros Hh.
  assert (forall p, (errorReply 400 p, st) = (resp, st') -> exists newID newRole, newID <> Some "" /\
    (newRole = None \/ exists role, newRole = Some role /\ validRole role = true) /\
    patch_result env st r id newID newRole resp st') as Hbad.
  { intros p [= <- <-]. exists None, None. split_and!; [done|by left|].
    apply patch_refused; eauto with tela. }
  destruct (json_fields _) as [kvs|]; [|eauto].
  destruct (decode_string_ptr "id" kvs None true) as [newID ok1].
  destruct (decode_string_ptr "role" kvs None true) as [newRole ok2].
  destruct (negb _); [eauto|].
  destruct (match newRole with Some role => negb (validRole role) | None => false end) eqn:Hrole;
    [destruct newID, newRole; eauto|].
  destruct (match newID with Some i => i =s "" | None => false end) eqn:Hid;
    [destruct newID, newRole; eauto|].
  destruct (decide (newID = None /\ newRole = None)) as [[-> ->]|Hsome]; [eauto|].
  exists newID, newRole. split_and!.
  - intros ->. done.
  - destruct newRole as [role|]; [right|by left]. exists role. by prop_bool.
  - apply patchEntry_outcome. destruct newID, newRole; naive_solver.
Qed.

(** A PATCH never touches an ACL or a token value.  Served, it changes the name and the role of
    the identity's row as asked and nothing else, to a name no other row carries and a role the
    handler admits; refused, either nothing changed or the reply is the 409 of an owner demotion
    and the row already carries the new name, in the live configuration but not on disk. *)
Theorem patch_effect `{RangeOrder} env st r id resp st' :
  adminPatchAccess env st r id = (resp, st') -> id <> "" ->
  cfg_machines st' = cfg_machines st /\
  te_Token <$> cfg_tokens st' = te_Token <$> cfg_tokens st /\
  (status resp = 200%Z -> exists i e e',
     findTokenEntryInCfg st id = Some (i, e) /\ cfg_tokens st' = <[i := e']> (cfg_tokens st) /\
     coherent st' /\ te_ID e' <> "" /\
     (te_ID e' = id \/ forall x, x ∈ cfg_tokens st -> te_ID x <> te_ID e') /\
     (te_HubRole e' = te_HubRole e \/ validRole (te_HubRole e') = true) /\
     te_IssuedAt e' = te_IssuedAt e /\ te_RevokedAt e' = te_RevokedAt e /\
     te_ExpiresAt e' = te_ExpiresAt e) /\
  (status resp <> 200%Z -> unchanged st st' \/
     status resp = 409%Z /\ diskCfg st' = diskCfg st /\ exists i e target,
       findTokenEntryInCfg st id = Some (i, e) /\ te_HubRole e = "owner" /\ target <> id /\
       cfg_tokens st' = <[i := withID e target]> (cfg_tokens st)).
Proof.
  intros Hrun Hne. apply adminPatchAccess_outcome in Hrun as (newID & newRole & Hid0 & Hrole & Hres).
  assert (forall i e e', findTokenEntryInCfg st id = Some (i, e) -> te_Token e' = te_Token e ->
    te_Token <$> <[i := e']> (cfg_tokens st) = te_Token <$> cfg_tokens st) as Hsame.
  { intros i e e' [Hrow _]%findTokenEntryInCfg_Some Ht. rewrite list_fmap_insert, Ht.
    apply list_insert_id. by rewrite list_lookup_fmap, Hrow. }
  destruct Hres as [Hs [av ->]|i e target st1 Hf _ -> Hnt Hft Ho Hs Hts Hms Hd Hco
                   |i e st1 Hf Hfree Hown Hck Hver Hs HC].
  - split_and!; [done|done|done|]. intros _. left. by exists av.
  - split_and!; [done|rewrite Hts; by apply (Hsame _ e)|by rewrite Hs|].
    intros _. right. split_and!; [done|done|]. by exists i, e, target.
  - rewrite (committed_tokens _ _ _ _ HC), (committed_machines _ _ _ _ HC).
    pose proof (findTokenEntryInCfg_Some _ _ _ _ Hf) as [Hrow Hid].
    split_and!; [done|by apply (Hsame _ e)| |done].
    intros _. exists i, e, (patched e newID newRole). split_and!; try done; [apply HC| | |].
    + destruct newID as [t|]; cbn; [naive_solver|congruence].
    + destruct (decide (default id newID = id)) as [E|E].
      * left. destruct newID; cbn in *; congruence.
      * right. apply Hfree in E as E'. destruct newID as [t|]; [|done]. cbn.
        by apply findTokenEntryInCfg_None.
    + destruct newRole as [role|]; cbn; [right|by left].
      destruct Hrole as [?|(? & [= <-] & ?)]; done.
Qed.

(** The body of a PATCH. *)
Definition patch_body (kvs : list (string * json)) : reqBody := BodyJson (JObj kvs).

Lemma patch_effect_witness :
  let '(resp, st') := adminPatchAccess (env_at 5) demo_hub
        (request_of "PATCH" "" "boss-token" "" (patch_body [("id", JStr "bob")])) "alice" in
  cfg_machines st' = cfg_machines demo_hub.
Proof.
  refine (proj1 (patch_effect (env_at 5) demo_hub
    (request_of "PATCH" "" "boss-token" "" (patch_body [("id", JStr "bob")])) "alice" _ _ eq_refl _)).
  discriminate.
Defined.

(** A PATCH that both renames the sole owner and demotes it is refused with 409, yet the rename
    stays: the old name is gone from the live configuration, while the file keeps it. *)
Example patch_refused_renames :
  let st := demo_hub in
  let '(resp, st') := handleAdminAccess (env_at 5) st
        (request_of "PATCH" "/api/admin/access/boss" "boss-token" ""
           (patch_body [("id", JStr "chief"); ("role", JStr "admin")])) in
  status resp = 409%Z /\ findTokenEntryInCfg st' "boss" = None /\
  option_map fst (findTokenEntryInCfg st' "chief") = Some 0 /\ diskCfg st' = diskCfg st.
Proof. vm_compute. repeat split. Qed.

(** The demotion guard counts revoked owners, so the only owner whose token still works can be
    demoted while a revoked one is listed. *)
Example demote_last_active_owner :
  let st := hub_of [row "boss" "boss-token" "owner";
                    TokenEntry "old" "old-token" "owner" None None (Some 3%Z)] ∅ in
  let '(resp, st') := handleAdminAccess (env_at 5) st
        (request_of "PATCH" "/api/admin/access/boss" "boss-token" ""
           (patch_body [("role", JStr "")])) in
  status resp = 200%Z /\ countActiveOwners (cfg_tokens st) = 1 /\
  countActiveOwners (cfg_tokens st') = 0 /\
  isOwnerOrAdmin (globalAuth st') 9 "boss-token" = false /\
  isOwnerOrAdmin (globalAuth st') 9 "old-token" = false.
Proof. vm_compute. repeat split. Qed.
