(* ===== verification/AdminInvariant.v ===== *)
(** * Invariants of the admin API over any sequence of requests

    The mutating handlers of [AdminTokens] and [AdminAccess] refine one abstract transition
    relation on token rows and ACLs ([effect]); the invariants of the live configuration are proved
    on the relation, by rule induction over the states requests can reach. *)

From S2P Require Import Prelude Auth Http HubConfig AdminState AdminTokens AdminAccess.
From Stdlib Require Import ZArith Lia Ascii String Relations.
From stdpp Require Import base gmap strings list fin_maps relations.

(** ** The abstract transitions *)

(** What one request may do to the hub: each constructor is one operation on the rows and ACLs,
    with the guard its handler enforces. *)
Inductive effect `{RangeOrder} (method : string) (st st' : hubState) : Prop :=
  | eff_none : unchanged st st' -> effect method st st'
  | eff_add id token role issued expires :
      findTokenEntryInCfg st id = None -> id <> "" -> fresh_token st token ->
      committed st st' (cfg_tokens st ++ [TokenEntry id token role issued expires None])
        (cfg_machines st) -> effect method st st'
  | eff_rotate i e token now :
      findTokenEntryInCfg st (te_ID e) = Some (i, e) -> fresh_token st token ->
      committed st st' (<[i := rotateEntry now token e]> (cfg_tokens st))
        (rotateACL (te_Token e) token <$> cfg_machines st) -> effect method st st'
  | eff_revoke i e now :
      findTokenEntryInCfg st (te_ID e) = Some (i, e) ->
      (te_HubRole e = "owner" -> (2 <= countActiveOwners (cfg_tokens st))%nat) ->
      committed st st'
        (<[i := TokenEntry (te_ID e) (te_Token e) (te_HubRole e) (te_IssuedAt e) (te_ExpiresAt e)
                  (Some now)]> (cfg_tokens st)) (cfg_machines st) -> effect method st st'
  | eff_patch i e newID newRole :
      method = "PATCH" ->
      findTokenEntryInCfg st (te_ID e) = Some (i, e) ->
      (default (te_ID e) newID <> te_ID e ->
       findTokenEntryInCfg st (default (te_ID e) newID) = None) ->
      newID <> Some "" ->
      (te_HubRole e = "owner" -> default "owner" newRole <> "owner" ->
       (2 <= countOwners (cfg_tokens st))%nat) ->
      coherent st' -> cfg_tokens st' = <[i := patched e newID newRole]> (cfg_tokens st) ->
      cfg_machines st' = cfg_machines st -> effect method st st'
  | eff_delete i e :
      findTokenEntryInCfg st (te_ID e) = Some (i, e) ->
      (te_HubRole e = "owner" -> (2 <= countActiveOwners (cfg_tokens st))%nat) ->
      committed st st' (filter (fun t => te_ID t ≠ te_ID e) (cfg_tokens st))
        (scrubACL (te_Token e) <$> cfg_machines st) -> effect method st st'
  | eff_grant mid acl :
      committed st st' (cfg_tokens st) (<[mid := acl]> (cfg_machines st)) -> effect method st st'.

(** The request's token draw is fresh: no row and no ACL mentions it yet. *)
Definition fresh_draw (env : environ) (st : hubState) : Prop :=
  forall tok, generateToken (env_rand env) = Some tok -> fresh_token st tok.

(** One request to the admin API, whoever sends it and whatever it says. *)
Inductive admin_step `{RangeOrder} (time_Parse : string -> option Z) (r : request)
    : hubState -> hubState -> Prop :=
  | tokens_step env st :
      fresh_draw env st ->
      admin_step time_Parse r st (snd (handleAdminTokens time_Parse env st r))
  | rotate_step env st :
      fresh_draw env st -> admin_step time_Parse r st (snd (handleAdminRotate env st r))
  | action_step env st :
      admin_step time_Parse r st (snd (handleAdminTokenAction env st r))
  | access_step env st :
      admin_step time_Parse r st (snd (handleAdminAccess env st r)).

Section refinement.
  Context `{RangeOrder} (time_Parse : string -> option Z).

Lemma find_by_own_id st id i e :
  findTokenEntryInCfg st id = Some (i, e) -> te_ID e = id /\ findTokenEntryInCfg st (te_ID e) = Some (i, e).
Proof. intros Hf. pose proof (findTokenEntryInCfg_Some _ _ _ _ Hf) as [_ <-]. done. Qed.

Lemma patch_result_effect env st r id newID newRole resp st' :
  newID <> Some "" -> r_Method r = "PATCH" -> patch_result env st r id newID newRole resp st' ->
  effect (r_Method r) st st'.
Proof.
  intros Hne Hm [? Hu|i e target st1 Hf _ -> Hnt Hft Ho Hs Hts Hms Hd Hco|i e st1 Hf Hfree Hown _ _ _ HC].
  - by apply eff_none.
  - apply find_by_own_id in Hf as [<- Hf].
    apply (eff_patch _ _ _ i e (Some target) None); done.
  - apply find_by_own_id in Hf as [<- Hf].
    apply (eff_patch _ _ _ i e newID newRole); try done; apply HC.
Qed.

(** Every handler implements the abstract transitions. *)
Lemma handleAdminAccess_effect env st r :
  effect (r_Method r) st (snd (handleAdminAccess env st r)).
Proof.
  unfold handleAdminAccess.
  assert (forall p : response, effect (r_Method r) st (snd (p, st))) as Hsame
    by (intros; apply eff_none, unchanged_refl).
  case_bool_decide; [apply Hsame|].
  destruct (requireOwnerOrAdmin env st r); [|apply Hsame].
  generalize (trim_prefix (trim_prefix (r_Path r) "/api/admin/access") "/"). intros path.
  destruct (path =s ""); [destruct (negb _); [apply Hsame|]|].
  { unfold adminListAccess. pose proof (buildAccessEntries_unchanged (cfg_tokens st) st) as Hu.
    destruct (buildAccessEntries st (cfg_tokens st)). by apply eff_none. }
  destruct (cut path "/machines/") as [[id mid]|].
  - destruct (mid =s ""); [apply Hsame|]. destruct (r_Method r =s "PUT").
    + destruct (adminSetMachineAccess env st r id mid) as [resp st'] eqn:Hrun.
      apply adminSetMachineAccess_outcome in Hrun as [[_ Hu]|Hrun]; [by apply eff_none|].
      destruct Hrun as (i & e & st1 & perms & services & _ & _ & _ & _ & HC).
      by eapply eff_grant.
    + destruct (r_Method r =s "DELETE"); [|apply Hsame].
      destruct (adminRevokeMachineAccess env st r id mid) as [resp st'] eqn:Hrun.
      apply adminRevokeMachineAccess_outcome in Hrun as [[_ Hu]|Hrun]; [by apply eff_none|].
      destruct Hrun as (i & e & st1 & acl & _ & _ & _ & _ & _ & HC). by eapply eff_grant.
  - destruct (r_Method r =s "GET").
    { unfold adminGetAccess. destruct (findTokenEntryInCfg st path) as [[i e]|]; [|apply Hsame].
      pose proof (buildAccessEntry_unchanged st e) as Hu. destruct (buildAccessEntry st e).
      by apply eff_none. }
    destruct (bool_decide_reflect (r_Method r = "PATCH")) as [Hm|_].
    + destruct (adminPatchAccess env st r path) as [resp st'] eqn:Hrun.
      apply adminPatchAccess_outcome in Hrun as (newID & newRole & Hne & _ & Hres).
      by eapply patch_result_effect.
    + destruct (r_Method r =s "DELETE"); [|apply Hsame].
      destruct (adminDeleteAccess env st r path) as [resp st'] eqn:Hrun.
      apply adminDeleteAccess_outcome in Hrun as [[_ Hu]|Hrun]; [by apply eff_none|].
      destruct Hrun as (i & e & st1 & Hf & Hown & _ & _ & _ & HC).
      apply find_by_own_id in Hf as [<- Hf]. by eapply eff_delete.
Qed.

Lemma handleAdminTokens_effect env st r :
  fresh_draw env st -> effect (r_Method r) st (snd (handleAdminTokens time_Parse env st r)).
Proof.
  intros Hfresh. unfold handleAdminTokens, adminListTokens.
  case_bool_decide; [apply eff_none, unchanged_refl|].
  destruct (requireOwnerOrAdmin env st r); [|apply eff_none, unchanged_refl].
  destruct (r_Method r =s "GET"); [apply eff_none, unchanged_refl|].
  destruct (r_Method r =s "POST"); [|apply eff_none, unchanged_refl].
  destruct (adminAddToken time_Parse env st r) as [resp st'] eqn:Hrun.
  apply adminAddToken_outcome in Hrun as [[_ Hu]|Hrun]; [by apply eff_none|].
  destruct Hrun as (id & role & token & expires & Hid & _ & Hf & Hg & _ & HC).
  eapply eff_add; try done. by apply Hfresh.
Qed.

Lemma handleAdminRotate_effect env st r :
  fresh_draw env st -> effect (r_Method r) st (snd (handleAdminRotate env st r)).
Proof.
  intros Hfresh. unfold handleAdminRotate.
  case_bool_decide; [apply eff_none, unchanged_refl|].
  destruct (negb _); [apply eff_none, unchanged_refl|].
  destruct (requireOwnerOrAdmin env st r); [|apply eff_none, unchanged_refl].
  generalize (trim_prefix (r_Path r) "/api/admin/rotate/"). intros id.
  destruct (adminRotateToken env st r id) as [resp st'] eqn:Hrun.
  apply adminRotateToken_outcome in Hrun as [[_ Hu]|Hrun]; [by apply eff_none|].
  destruct Hrun as (i & e & token & st1 & Hf & Hg & _ & _ & _ & HC).
  apply find_by_own_id in Hf as [<- Hf]. eapply eff_rotate; try done. by apply Hfresh.
Qed.

Lemma handleAdminTokenAction_effect env st r :
  effect (r_Method r) st (snd (handleAdminTokenAction env st r)).
Proof.
  unfold handleAdminTokenAction.
  case_bool_decide; [apply eff_none, unchanged_refl|].
  destruct (negb _); [apply eff_none, unchanged_refl|].
  destruct (requireOwnerOrAdmin env st r); [|apply eff_none, unchanged_refl].
  destruct (splitn2 _ "/") as [|id [|action [|]]]; try (apply eff_none, unchanged_refl).
  destruct (_ || _); [apply eff_none, unchanged_refl|].
  destruct (action =s "revoke"); [|apply eff_none, unchanged_refl].
  destruct (adminRevokeToken env st r id) as [resp st'] eqn:Hrun.
  apply adminRevokeToken_outcome in Hrun as [[_ Hu]|Hrun]; [by apply eff_none|].
  destruct Hrun as (i & e & st1 & Hf & Hown & _ & _ & _ & _ & HC).
  apply find_by_own_id in Hf as [<- Hf]. by eapply eff_revoke.
Qed.

Lemma step_effect r st st' :
  admin_step time_Parse r st st' -> effect (r_Method r) st st'.
Proof.
  intros [env s Hf|env s Hf|env s|env s].
  - by apply handleAdminTokens_effect.
  - by apply handleAdminRotate_effect.
  - apply handleAdminTokenAction_effect.
  - apply handleAdminAccess_effect.
Qed.

(** C2. Every admin request, from whatever caller, with whatever method, path, headers and body,
    takes the hub to a state the abstract transition relation allows. *)
Theorem admin_refines_effect r st st' : admin_step time_Parse r st st' -> effect (r_Method r) st st'.
Proof. apply step_effect. Qed.

End refinement.

(** ** Invariants *)

(** Identities and tokens are distinct and non-empty, and the enforced store is the live
    configuration's. *)
Record admin_inv (st : hubState) : Prop := {
  inv_coherent : coherent st;
  inv_ids : NoDup (te_ID <$> cfg_tokens st);
  inv_tokens : NoDup (te_Token <$> cfg_tokens st);
  inv_named : forall e, e ∈ cfg_tokens st -> te_ID e <> "" /\ te_Token e <> ""
}.

Lemma NoDup_replace {A} (l : list A) i x :
  NoDup l -> (l !! i = Some x \/ x ∉ l) -> NoDup (<[i := x]> l).
Proof.
  intros Hnd [Hx|Hx]; [by rewrite list_insert_id|].
  apply NoDup_alt. intros j k y Hj Hk. rewrite list_lookup_insert in Hj, Hk.
  assert (forall n, l !! n <> Some x) as Hno.
  { intros n Hn. by apply list_elem_of_lookup_2 in Hn. }
  repeat case_decide; naive_solver eauto using NoDup_lookup.
Qed.

Section preservation.
  Context {st : hubState} (I : admin_inv st).

Lemma find_row i e : findTokenEntryInCfg st (te_ID e) = Some (i, e) -> cfg_tokens st !! i = Some e.
Proof. intros Hf. by pose proof (findTokenEntryInCfg_Some _ _ _ _ Hf) as [? _]. Qed.

(** Replacing a row by one whose name and token are the old ones or unused. *)
Lemma inv_replace st' i e e' :
  cfg_tokens st !! i = Some e -> cfg_tokens st' = <[i := e']> (cfg_tokens st) -> coherent st' ->
  (te_ID e' = te_ID e \/ te_ID e' <> "" /\ forall x, x ∈ cfg_tokens st -> te_ID x <> te_ID e') ->
  (te_Token e' = te_Token e \/
     te_Token e' <> "" /\ forall x, x ∈ cfg_tokens st -> te_Token x <> te_Token e') ->
  admin_inv st'.
Proof.
  intros Hrow Hts Hco Hid Htok. destruct I as [_ Hids Htoks Hnm].
  assert (e ∈ cfg_tokens st) as He by (by eapply list_elem_of_lookup_2).
  destruct (Hnm e He) as [Hn1 Hn2].
  constructor; [done|rewrite Hts, list_fmap_insert..|].
  - apply NoDup_replace; [done|]. destruct Hid as [->|[_ Hid]]; [left|right].
    + by rewrite list_lookup_fmap, Hrow.
    + intros (x & Hx & Hin)%list_elem_of_fmap. by apply (Hid x).
  - apply NoDup_replace; [done|]. destruct Htok as [->|[_ Htok]]; [left|right].
    + by rewrite list_lookup_fmap, Hrow.
    + intros (x & Hx & Hin)%list_elem_of_fmap. by apply (Htok x).
  - rewrite Hts. intros x Hx. apply list_elem_of_lookup in Hx as [j Hj].
    rewrite list_lookup_insert in Hj. case_decide as Hij.
    + injection Hj as <-. destruct Hid as [->|[? _]], Htok as [->|[? _]]; done.
    + apply Hnm. by eapply list_elem_of_lookup_2.
Qed.

Lemma effect_inv `{RangeOrder} m st' : effect m st st' -> admin_inv st'.
Proof.
  intros [[av ->]|id token role issued expires Hf Hid Hfr HC|i e token now Hf Hfr HC
    |i e now Hf _ HC|i e newID newRole _ Hf Hfree Hne _ Hco Hts Hms|i e Hf _ HC|mid acl HC].
  - destruct I. by constructor.
  - destruct I as [_ Hids Htoks Hnm]. destruct Hfr as (Ht & Hfr & _).
    rewrite findTokenEntryInCfg_None in Hf.
    constructor; [apply HC|rewrite (committed_tokens _ _ _ _ HC)..].
    + rewrite fmap_app, NoDup_app. split; [done|]. split; [|apply NoDup_singleton].
      intros x (y & -> & Hy)%list_elem_of_fmap. cbn. rewrite list_elem_of_singleton. by apply Hf.
    + rewrite fmap_app, NoDup_app. split; [done|]. split; [|apply NoDup_singleton].
      intros x (y & -> & Hy)%list_elem_of_fmap. cbn. rewrite list_elem_of_singleton. by apply Hfr.
    + intros x. rewrite elem_of_app, list_elem_of_singleton. intros [Hx| ->]; [by apply Hnm|done].
  - destruct Hfr as (Ht & Hfr & _).
    eapply (inv_replace st' i e); [by apply find_row|apply HC|apply HC|by left|by right].
  - eapply (inv_replace st' i e); [by apply find_row|apply HC|apply HC|by left|by left].
  - eapply (inv_replace st' i e); [by apply find_row|done|done| |by left].
    destruct (decide (default (te_ID e) newID = te_ID e)) as [E|E]; [by left|right].
    split; [|by apply findTokenEntryInCfg_None, Hfree].
    cbn. destruct newID as [t|]; cbn in *; [congruence|done].
  - destruct I as [_ Hids Htoks Hnm].
    constructor; [apply HC|rewrite (committed_tokens _ _ _ _ HC)..].
    + eapply sublist_NoDup; [exact Hids|]. apply fmap_sublist, sublist_filter.
    + eapply sublist_NoDup; [exact Htoks|]. apply fmap_sublist, sublist_filter.
    + intros x [_ Hx]%list_elem_of_filter. by apply Hnm.
  - destruct I as [_ Hids Htoks Hnm].
    constructor; [apply HC|rewrite (committed_tokens _ _ _ _ HC); done..].
Qed.

(** A row some test accepts survives when the test accepts two rows or the changed one still. *)
Lemma keep_row (P : tokenEntry -> Prop) `{!forall x, Decision (P x)} i e e' :
  cfg_tokens st !! i = Some e ->
  (P e -> P e' \/ 2 <= length (filter P (cfg_tokens st)))%nat ->
  (exists x, x ∈ cfg_tokens st /\ P x) -> exists x, x ∈ <[i := e']> (cfg_tokens st) /\ P x.
Proof.
  intros Hrow He (x & [j Hj]%list_elem_of_lookup & Hp).
  destruct (decide (i = j)) as [<-|Hij].
  - rewrite Hrow in Hj. injection Hj as <-. destruct (He Hp) as [He'|Htwo].
    + exists e'. split; [|done]. eapply list_elem_of_lookup_2, list_lookup_insert_eq.
      by eapply lookup_lt_Some.
    + destruct (filter_two_other P _ i Htwo) as (j & y & Hji & Hy & Hpy).
      exists y. split; [|done]. eapply list_elem_of_lookup_2. by rewrite list_lookup_insert_ne.
  - exists x. split; [|done]. eapply list_elem_of_lookup_2. by rewrite list_lookup_insert_ne.
Qed.

Lemma keep_after_delete (P : tokenEntry -> Prop) `{!forall x, Decision (P x)} i e :
  cfg_tokens st !! i = Some e ->
  (P e -> 2 <= length (filter P (cfg_tokens st)))%nat ->
  (exists x, x ∈ cfg_tokens st /\ P x) ->
  exists x, x ∈ filter (fun t => te_ID t ≠ te_ID e) (cfg_tokens st) /\ P x.
Proof.
  intros Hrow He (x & [j Hj]%list_elem_of_lookup & Hp). destruct I as [_ Hids _ _].
  assert (forall k y, k <> i -> cfg_tokens st !! k = Some y -> te_ID y <> te_ID e) as Hdist.
  { intros k y Hk Hy E. apply Hk. eapply (NoDup_lookup (te_ID <$> cfg_tokens st)); [done|..];
      rewrite list_lookup_fmap, ?Hrow, ?Hy; cbn; [by rewrite E|done]. }
  destruct (decide (i = j)) as [<-|Hij].
  - rewrite Hrow in Hj. injection Hj as <-.
    destruct (filter_two_other P _ i (He Hp)) as (k & y & Hk & Hy & Hpy).
    exists y. split; [|done]. apply list_elem_of_filter.
    split; [by eapply Hdist|by eapply list_elem_of_lookup_2].
  - exists x. split; [|done]. apply list_elem_of_filter.
    split; [by eapply Hdist|by eapply list_elem_of_lookup_2].
Qed.

End preservation.

(** The part of the invariant that needs no distinct identities: it also survives a redeemed pairing
    code, whose identity may be taken. *)
Record token_inv (s : hubState) : Prop := {
  ti_coherent : coherent s;
  ti_tokens : NoDup (te_Token <$> cfg_tokens s);
  ti_named : forall e, e ∈ cfg_tokens s -> te_ID e <> "" /\ te_Token e <> ""
}.

Lemma admin_inv_iff s : admin_inv s <-> token_inv s /\ NoDup (te_ID <$> cfg_tokens s).
Proof. split; [intros []; by split|by intros [[] ?]]. Qed.

Lemma token_inv_append s s' e ms :
  token_inv s -> fresh_token s (te_Token e) -> te_ID e <> "" -> committed s s' (cfg_tokens s ++ [e]) ms -> token_inv s'.
Proof.
  intros [_ Htoks Hnm] (Ht & Hfr & _) Hid HC. constructor; [apply HC|rewrite (committed_tokens _ _ _ _ HC)..].
  - rewrite fmap_app, NoDup_app. split; [done|]. split; [|apply NoDup_singleton].
    intros x (y & -> & Hy)%list_elem_of_fmap. cbn. rewrite list_elem_of_singleton. by apply Hfr.
  - intros x. rewrite elem_of_app, list_elem_of_singleton. intros [Hx| ->]; [by apply Hnm|done].
Qed.

Lemma token_inv_replace s s' i e e' :
  token_inv s -> cfg_tokens s !! i = Some e -> cfg_tokens s' = <[i := e']> (cfg_tokens s) -> coherent s' ->
  te_ID e' <> "" ->
  (te_Token e' = te_Token e \/ te_Token e' <> "" /\ forall x, x ∈ cfg_tokens s -> te_Token x <> te_Token e') ->
  token_inv s'.
Proof.
  intros [_ Htoks Hnm] Hrow Hts Hco Hid Htok. constructor; [done|rewrite Hts, list_fmap_insert|rewrite Hts].
  - apply NoDup_replace; [done|]. destruct Htok as [->|[_ Htok]]; [left|right].
    + by rewrite list_lookup_fmap, Hrow.
    + intros (x & Hx & Hin)%list_elem_of_fmap. by apply (Htok x).
  - intros x [j Hj]%list_elem_of_lookup. rewrite list_lookup_insert in Hj. case_decide as Hij.
    + injection Hj as <-. split; [done|]. destruct Htok as [->|[? _]]; [|done].
      apply (Hnm e). by eapply list_elem_of_lookup_2.
    + apply Hnm. by eapply list_elem_of_lookup_2.
Qed.

Lemma effect_tokens `{RangeOrder} m s s' : effect m s s' -> token_inv s -> token_inv s'.
Proof.
  intros Heff T.
  assert (forall i e, findTokenEntryInCfg s (te_ID e) = Some (i, e) -> cfg_tokens s !! i = Some e /\ te_ID e <> "") as Hrow.
  { intros i e Hf. apply findTokenEntryInCfg_Some in Hf as [Hf _]. split; [done|]. destruct T as [_ _ Hnm].
    apply Hnm. by eapply list_elem_of_lookup_2. }
  destruct Heff as [[av ->]|id token role issued expires Hf Hid Hfr HC|i e token now Hf Hfr HC
    |i e now Hf _ HC|i e newID newRole _ Hf Hfree Hne _ Hco Hts Hms|i e Hf _ HC|mid acl HC];
    try (destruct (Hrow _ _ Hf) as [Hi Hn]).
  - destruct T. by constructor.
  - by apply (token_inv_append s s' (TokenEntry id token role issued expires None) (cfg_machines s)).
  - destruct Hfr as (Ht & Hfr & _). eapply (token_inv_replace s s' i e); [done|done|apply HC|apply HC|done|by right].
  - eapply (token_inv_replace s s' i e); [done|done|apply HC|apply HC|done|by left].
  - eapply (token_inv_replace s s' i e); [done..| |by left]. destruct newID as [x|]; cbn; [congruence|done].
  - destruct T as [_ Htoks Hnm]. constructor; [apply HC|rewrite (committed_tokens _ _ _ _ HC)..].
    + eapply sublist_NoDup; [exact Htoks|]. apply fmap_sublist, sublist_filter.
    + intros x [_ Hx]%list_elem_of_filter. by apply Hnm.
  - destruct T as [_ Htoks Hnm]. constructor; [apply HC|rewrite (committed_tokens _ _ _ _ HC); done..].
Qed.

Definition hasActiveOwner (st : hubState) : Prop :=
  exists e, e ∈ cfg_tokens st /\ activeOwner e.

Lemma activeOwner_role e : activeOwner e -> te_HubRole e = "owner".
Proof. unfold activeOwner. by destruct (bool_decide_reflect (te_HubRole e = "owner")). Qed.


#[local] Ltac commit_rows HC := rewrite (committed_tokens _ _ _ _ HC); try done.


Lemma effect_active_owner `{RangeOrder} m st st' :
  effect m st st' -> m <> "PATCH" -> admin_inv st -> hasActiveOwner st -> hasActiveOwner st'.
Proof.
  intros Heff Hm I Ho. pose proof (@find_row st) as Hfind. unfold hasActiveOwner in *.
  pose proof activeOwner_role as Hrole.
  destruct Heff as [[av ->]|id token role issued expires Hf Hid Hfr HC|i e token now Hf Hfr HC
    |i e now Hf Hown HC|i e newID newRole Hp Hf Hfree Hne Hown Hco Hts Hms|i e Hf Hown HC|mid acl HC];
    [done|commit_rows HC|commit_rows HC|commit_rows HC|done|commit_rows HC|commit_rows HC].
  - destruct Ho as (x & Hx & Hr). exists x. by rewrite elem_of_app; auto.
  - eapply (keep_row activeOwner); [by eauto| |done].
    intros He. left. apply Hrole in He. unfold activeOwner, rotateEntry, isRevoked. cbn.
    by rewrite He.
  - eapply (keep_row activeOwner); [by eauto| |done]. intros He. right. apply Hown, Hrole, He.
  - eapply (keep_after_delete I activeOwner); [by eauto| |done]. intros He. apply Hown, Hrole, He.
Qed.

(** The states a sequence of admin requests can reach. *)
Definition reachable `{RangeOrder} (time_Parse : string -> option Z) : relation hubState :=
  rtc (fun st st' => exists r, admin_step time_Parse r st st').

Lemma reachable_ind `{RangeOrder} tp (P : hubState -> Prop) :
  (forall m st st', effect m st st' -> P st -> P st') ->
  forall st st', reachable tp st st' -> P st -> P st'.
Proof.
  intros Hstep st st' Hr. induction Hr as [|x y z [r Hxy] _ IH]; [done|].
  intros HP. apply IH. eapply Hstep; [by eapply step_effect|done].
Qed.

(** Whatever requests arrive, identities and tokens stay distinct and non-empty and the
    enforced store stays the one the live configuration describes. *)
Theorem admin_inv_reachable `{RangeOrder} tp st st' :
  reachable tp st st' -> admin_inv st -> admin_inv st'.
Proof. apply reachable_ind. intros m x y He I. by eapply effect_inv. Qed.


(** A request other than PATCH never leaves a hub that has an unrevoked owner without one. *)
Theorem active_owner_remains `{RangeOrder} tp r st st' :
  admin_step tp r st st' -> r_Method r <> "PATCH" -> admin_inv st ->
  hasActiveOwner st -> hasActiveOwner st'.
Proof.
  intros Hs Hm I Ho. eapply effect_active_owner; [by eapply step_effect|done..].
Qed.

(** ** The gate *)

(** C5. A request whose token is not a live owner's or admin's changes nothing at all, not even a
    counter, and is answered 403, 405 or, for OPTIONS, 204, with no data. *)
Theorem admin_gate `{RangeOrder} tp env st r resp st' :
  isOwnerOrAdmin (globalAuth st) (env_now env) (tokenFromRequest r) = false ->
  (resp, st') ∈ [handleAdminTokens tp env st r; handleAdminRotate env st r;
                 handleAdminTokenAction env st r; handleAdminAccess env st r] ->
  st' = st /\ resp ∈ [forbidden; reply 204 PNone; reply 405 PNone].
Proof.
  intros Hno. unfold handleAdminTokens, handleAdminRotate, handleAdminTokenAction,
    handleAdminAccess, requireOwnerOrAdmin. rewrite Hno.
  rewrite !elem_of_cons, elem_of_nil.
  destruct (r_Method r =s "OPTIONS"), (r_Method r =s "POST"); cbn [negb];
    intros [[= -> ->]|[[= -> ->]|[[= -> ->]|[[= -> ->]|[]]]]]; split; try done; set_solver.
Qed.

(** ** Optimistic concurrency *)

(** The operations that take an If-Match, on the identity of the path. *)
Inductive accessOp :=
  | OpRotate | OpRevokeToken | OpPatch | OpDelete
  | OpSetMachine (machineID : string) | OpRevokeMachine (machineID : string).

Section versions.
  Context `{RangeOrder}.

Definition runAccessOp (env : environ) (st : hubState) (r : request) (id : string) (op : accessOp)
    : response * hubState :=
  match op with
  | OpRotate => adminRotateToken env st r id
  | OpRevokeToken => adminRevokeToken env st r id
  | OpPatch => adminPatchAccess env st r id
  | OpDelete => adminDeleteAccess env st r id
  | OpSetMachine m => adminSetMachineAccess env st r id m
  | OpRevokeMachine m => adminRevokeMachineAccess env st r id m
  end.

(** Every operation is refused without effect when its entry is gone or the check fails. *)
Lemma runAccessOp_refused env st r id op resp st' :
  runAccessOp env st r id op = (resp, st') ->
  match findTokenEntryInCfg st id with
  | None => True
  | Some (_, e) => exists conflict st1, checkIfMatch st r id e = (Some conflict, st1)
  end ->
  status resp <> 200%Z /\ unchanged st st'.
Proof.
  intros Hrun Hck.
  assert (forall conflict st1 e, checkIfMatch st r id e = (Some conflict, st1) ->
            status conflict <> 200%Z /\ unchanged st st1) as Hcon.
  { intros conflict st1 e Hc. split; [|by eauto with tela].
    apply checkIfMatch_Some in Hc as [-> _]. done. }
  assert (forall code p, code <> 200%Z -> (errorReply code p, st) = (resp, st') ->
            status resp <> 200%Z /\ unchanged st st') as Herr
    by (intros code p Hc [= <- <-]; split; [done|apply unchanged_refl]).
  destruct op; cbn in Hrun.
  - unfold adminRotateToken in Hrun. case_bool_decide; [by refine (Herr _ _ _ Hrun)|].
    destruct (findTokenEntryInCfg st id) as [[i e]|]; [|by refine (Herr _ _ _ Hrun)].
    destruct Hck as (c & st1 & Hck). rewrite Hck in Hrun. injection Hrun as <- <-. by eapply Hcon.
  - unfold adminRevokeToken in Hrun.
    destruct (findTokenEntryInCfg st id) as [[i e]|]; [|by refine (Herr _ _ _ Hrun)].
    destruct (_ && _); [by refine (Herr _ _ _ Hrun)|].
    destruct Hck as (c & st1 & Hck). rewrite Hck in Hrun. injection Hrun as <- <-. by eapply Hcon.
  - apply adminPatchAccess_outcome in Hrun as (newID & newRole & _ & _ & Hres).
    destruct Hres as [Hs Hu|i e target st1 Hf Hn|i e st1 Hf _ _ Hn]; [done| |];
      rewrite Hf in Hck; destruct Hck as (c & st2 & Hck); by rewrite Hn in Hck.
  - unfold adminDeleteAccess in Hrun.
    destruct (findTokenEntryInCfg st id) as [[i e]|]; [|by refine (Herr _ _ _ Hrun)].
    destruct (_ && _); [by refine (Herr _ _ _ Hrun)|].
    destruct Hck as (c & st1 & Hck). rewrite Hck in Hrun. injection Hrun as <- <-. by eapply Hcon.
  - destruct (adminSetMachineAccess_outcome _ _ _ _ _ _ _ Hrun) as [|Hout]; [done|].
    destruct Hout as (i & e & st1 & perms & services & Hf & Hn & _). rewrite Hf in Hck.
    destruct Hck as (c & st2 & Hck). by rewrite Hn in Hck.
  - destruct (adminRevokeMachineAccess_outcome _ _ _ _ _ _ _ Hrun) as [|Hout]; [done|].
    destruct Hout as (i & e & st1 & acl & Hf & Hn & _). rewrite Hf in Hck.
    destruct Hck as (c & st2 & Hck). by rewrite Hn in Hck.
Qed.

(** A served operation that changed something either removed the name or bumped its counter. *)
Lemma runAccessOp_bumps env st r id op resp st' :
  runAccessOp env st r id op = (resp, st') -> status resp = 200%Z ->
  (forall t, body resp <> PAlreadyRevoked id t) -> NoDup (te_ID <$> cfg_tokens st) ->
  findTokenEntryInCfg st' id = None \/
  exists e st1, checkIfMatch st r id e = (None, st1) /\
    versions st' = snd (bumpAccessVersion (versions st1) id).
Proof.
  intros Hrun Hs Hb Hnd. destruct op; cbn in Hrun.
  - apply adminRotateToken_outcome in Hrun as [[? _]|Hrun]; [done|].
    destruct Hrun as (i & e & tok & st1 & _ & _ & Hck & _ & Hv & _). right. by exists e, st1.
  - apply adminRevokeToken_outcome in Hrun as [[[?|[t Ht]] _]|Hrun]; [done|by destruct (Hb t)|].
    destruct Hrun as (i & e & st1 & _ & _ & Hck & _ & Hv & _). right. by exists e, st1.
  - apply adminPatchAccess_outcome in Hrun as (newID & newRole & _ & _ & Hres).
    destruct Hres as [? _|i e target st1 _ _ _ _ _ _ Hn|i e st1 Hf Hfree _ Hck Hv _ HC];
      [done|congruence|].
    destruct (decide (default id newID = id)) as [E|E]; [right; exists e, st1; by auto|left].
    apply findTokenEntryInCfg_None. rewrite (committed_tokens _ _ _ _ HC).
    apply findTokenEntryInCfg_Some in Hf as [Hrow Hid].
    intros x [j Hj]%list_elem_of_lookup. rewrite list_lookup_insert in Hj.
    case_decide as Hij.
    + injection Hj as <-. destruct newID; cbn in *; congruence.
    + intros Hx. apply Hij. split; [|by eapply lookup_lt_Some].
      eapply (NoDup_lookup (te_ID <$> cfg_tokens st)); [done|..];
        rewrite list_lookup_fmap, ?Hrow, ?Hj; cbn; [done|by rewrite Hx, Hid].
  - apply adminDeleteAccess_outcome in Hrun as [[? _]|Hrun]; [done|].
    destruct Hrun as (i & e & st1 & _ & _ & _ & _ & _ & HC). left.
    apply findTokenEntryInCfg_None. rewrite (committed_tokens _ _ _ _ HC).
    by intros x [? _]%list_elem_of_filter.
  - apply adminSetMachineAccess_outcome in Hrun as [[? _]|Hrun]; [done|].
    destruct Hrun as (i & e & st1 & perms & services & _ & Hck & Hv & _). right. by exists e, st1.
  - apply adminRevokeMachineAccess_outcome in Hrun as [[? _]|Hrun]; [done|].
    destruct Hrun as (i & e & st1 & acl & _ & Hck & _ & Hv & _). right. by exists e, st1.
Qed.

(** An operation that presents the version another was served with is refused. *)
Lemma stale_refused env st r id op resp st' env' r' op' resp' st'' v :
  runAccessOp env st r id op = (resp, st') -> status resp = 200%Z ->
  (forall t, body resp <> PAlreadyRevoked id t) -> NoDup (te_ID <$> cfg_tokens st) ->
  parseIfMatch (r_IfMatch r) = Some v -> parseIfMatch (r_IfMatch r') = Some v ->
  (0 <= v < 18446744073709551615)%Z ->
  runAccessOp env' st' r' id op' = (resp', st'') ->
  status resp' <> 200%Z /\ unchanged st' st''.
Proof.
  intros Hrun Hs Hb Hnd Hv Hv' Hrange Hrun'.
  apply (runAccessOp_refused _ _ _ _ _ _ _ Hrun').
  destruct (findTokenEntryInCfg st' id) as [[i e']|] eqn:Hf; [|done].
  destruct (runAccessOp_bumps _ _ _ _ _ _ _ Hrun Hs Hb Hnd) as [?|(e & st1 & Hck & Hver)];
    [congruence|].
  apply checkIfMatch_None in Hck. rewrite Hv in Hck. destruct Hck as [Hcur ->].
  apply (checkIfMatch_stale _ _ _ _ v Hv'). rewrite Hver.
  change (versions (with_versions st ?a)) with a.
  rewrite bumpAccessVersion_after_ensure by (rewrite <- Hcur; lia). rewrite <- Hcur.
  cbn [snd]. unfold ensureAccessVersion at 1. rewrite lookup_insert_eq.
  change (default 0%Z (Some (v + 1)%Z)) with (v + 1)%Z.
  destruct (Z.eqb_spec (v + 1) 0) as [?|_]; [lia|]. change (v <> (v + 1)%Z). lia.
Qed.

(** C6. No lost update: of two operations on an identity that present the same version, if the
    first is served and changes something the second is refused and changes nothing, whichever
    operations they are and whoever sends them. *)
Theorem no_lost_update env st r id op resp st' env' r' op' resp' st'' v :
  runAccessOp env st r id op = (resp, st') -> status resp = 200%Z ->
  (forall t, body resp <> PAlreadyRevoked id t) -> NoDup (te_ID <$> cfg_tokens st) ->
  parseIfMatch (r_IfMatch r) = Some v -> parseIfMatch (r_IfMatch r') = Some v ->
  (0 <= v < 18446744073709551615)%Z ->
  runAccessOp env' st' r' id op' = (resp', st'') ->
  status resp' <> 200%Z /\ unchanged st' st''.
Proof. exact (stale_refused env st r id op resp st' env' r' op' resp' st'' v). Qed.

End versions.

(** ** Evaluated instances *)

Lemma demo_hub_inv : admin_inv demo_hub.
Proof.
  constructor.
  - reflexivity.
  - refine (bool_decide_unpack _ _). vm_compute. exact I.
  - refine (bool_decide_unpack _ _). vm_compute. exact I.
  - intros e He. change (e ∈ [row "boss" "boss-token" "owner"; row "alice" "alice-token" ""]) in He.
    rewrite !elem_of_cons, elem_of_nil in He. by destruct He as [-> | [-> | []]].
Qed.

Definition demo_delete : request :=
  request_of "DELETE" "/api/admin/access/alice" "boss-token" "" BodyEmpty.
Definition no_times : string -> option Z := fun _ => None.

Lemma demo_deleted :
  admin_step no_times demo_delete demo_hub (snd (handleAdminAccess (env_at 5) demo_hub demo_delete)).
Proof. apply access_step. Qed.

Lemma demo_deletable :
  reachable no_times demo_hub (snd (handleAdminAccess (env_at 5) demo_hub demo_delete)).
Proof. apply rtc_once. exists demo_delete. apply demo_deleted. Qed.


Lemma admin_refines_effect_witness :
  effect "DELETE" demo_hub (snd (handleAdminAccess (env_at 5) demo_hub demo_delete)) /\
  length (cfg_tokens (snd (handleAdminAccess (env_at 5) demo_hub demo_delete))) = 1.
Proof.
  split; [|vm_compute; reflexivity].
  exact (admin_refines_effect no_times demo_delete _ _ demo_deleted).
Defined.

Lemma admin_inv_reachable_witness :
  admin_inv (snd (handleAdminAccess (env_at 5) demo_hub demo_delete)).
Proof. exact (admin_inv_reachable no_times _ _ demo_deletable demo_hub_inv). Defined.


Lemma active_owner_remains_witness :
  hasActiveOwner (snd (handleAdminAccess (env_at 5) demo_hub demo_delete)).
Proof.
  refine (active_owner_remains no_times demo_delete _ _ demo_deleted _ demo_hub_inv _).
  - discriminate.
  - exists (row "boss" "boss-token" "owner"). split; [left|done].
Defined.

Definition demo_stranger : request :=
  request_of "DELETE" "/api/admin/access/boss" "alice-token" "" BodyEmpty.

Lemma admin_gate_witness :
  snd (handleAdminAccess (env_at 5) demo_hub demo_stranger) = demo_hub.
Proof.
  refine (proj1 (admin_gate no_times (env_at 5) demo_hub demo_stranger
    (fst (handleAdminAccess (env_at 5) demo_hub demo_stranger)) _ _ _)); [reflexivity|].
  do 3 right. left.
Defined.

(** Two administrators patch the same version of one identity. *)
Lemma no_lost_update_witness :
  let set := request_of "PUT" "" "boss-token" "1" (perms_body ["manage"] []) in
  let first := runAccessOp (env_at 5) demo_hub set "alice" (OpSetMachine "m") in
  status (fst first) = 200%Z /\
  status (fst (runAccessOp (env_at 6) (snd first) set "alice" OpDelete)) <> 200%Z.
Proof.
  intros set first. split; [reflexivity|].
  refine (proj1 (no_lost_update (env_at 5) demo_hub set "alice" (OpSetMachine "m")
    (fst first) (snd first) (env_at 6) set OpDelete _ _ 1 _ _ _ _ _ _ _ (surjective_pairing _))).
  - apply surjective_pairing.
  - reflexivity.
  - intros t. vm_compute. discriminate.
  - exact (inv_ids _ demo_hub_inv).
  - reflexivity.
  - reflexivity.
  - lia.
Defined.
