(* ===== verification/Sha256.v ===== *)
(** * SHA-256 ([crypto/sha256]), executable

    Channel manifests name binaries by their SHA-256 and certificates are pinned by theirs.  A
    message and a digest are lists of bytes; words are 32-bit integers. *)

From S2P Require Import Prelude.
From Stdlib Require Import ZArith Lia Ascii String.
From stdpp Require Import base list.

Definition rotr (n x : Z) : Z := u32 (Z.lor (Z.shiftr x n) (Z.shiftl x (32 - n))).
Definition add32 (a b : Z) : Z := u32 (a + b).

Definition sha_k : list Z := [
  1116352408; 1899447441; 3049323471; 3921009573; 961987163; 1508970993; 2453635748; 2870763221;
  3624381080; 310598401; 607225278; 1426881987; 1925078388; 2162078206; 2614888103; 3248222580;
  3835390401; 4022224774; 264347078; 604807628; 770255983; 1249150122; 1555081692; 1996064986;
  2554220882; 2821834349; 2952996808; 3210313671; 3336571891; 3584528711; 113926993; 338241895;
  666307205; 773529912; 1294757372; 1396182291; 1695183700; 1986661051; 2177026350; 2456956037;
  2730485921; 2820302411; 3259730800; 3345764771; 3516065817; 3600352804; 4094571909; 275423344;
  430227734; 506948616; 659060556; 883997877; 958139571; 1322822218; 1537002063; 1747873779;
  1955562222; 2024104815; 2227730452; 2361852424; 2428436474; 2756734187; 3204031479; 3329325298]%Z.

Definition sha_h0 : list Z := [
  1779033703; 3144134277; 1013904242; 2773480762; 1359893119; 2600822924; 528734635; 1541459225]%Z.

Definition sigma (a b : Z) (f : Z -> Z) (x : Z) : Z := Z.lxor (Z.lxor (rotr a x) (rotr b x)) (f x).
Definition small_s0 : Z -> Z := sigma 7 18 (fun x => Z.shiftr x 3).
Definition small_s1 : Z -> Z := sigma 17 19 (fun x => Z.shiftr x 10).
Definition big_s0 : Z -> Z := sigma 2 13 (rotr 22).
Definition big_s1 : Z -> Z := sigma 6 11 (rotr 25).

(** The message schedule, newest word first. *)
Fixpoint schedule (n : nat) (ws : list Z) : list Z :=
  match n with
  | O => ws
  | S n' =>
      let w i := nth i ws 0%Z in
      schedule n'
        (add32 (add32 (small_s1 (w 1%nat)) (w 6%nat)) (add32 (small_s0 (w 14%nat)) (w 15%nat)) :: ws)
  end.

Definition sha_round (s : list Z) (kw : Z * Z) : list Z :=
  match s with
  | [a; b; c; d; e; f; g; h] =>
      let ch := Z.lxor (Z.land e f) (Z.land (Z.lxor e 4294967295) g) in
      let maj := Z.lxor (Z.lxor (Z.land a b) (Z.land a c)) (Z.land b c) in
      let t1 := add32 (add32 (add32 h (big_s1 e)) (add32 ch kw.1)) kw.2 in
      let t2 := add32 (big_s0 a) maj in
      [add32 t1 t2; a; b; c; add32 d t1; e; f; g]
  | _ => s
  end.

Definition sha_block (h : list Z) (words : list Z) : list Z :=
  let ws := rev (schedule 48 (rev words)) in
  zip_with add32 h (fold_left sha_round (zip sha_k ws) h).

Fixpoint be_words (l : list Z) : list Z :=
  match l with
  | a :: b :: c :: d :: l' => (a * 16777216 + b * 65536 + c * 256 + d)%Z :: be_words l'
  | _ => []
  end.

Definition be_bytes (n : nat) (z : Z) : list Z :=
  rev (map (fun i => (z / 256 ^ Z.of_nat i) mod 256)%Z (seq 0 n)).

Definition sha_pad (m : list Z) : list Z :=
  let n := Z.of_nat (length m) in
  m ++ [128%Z] ++ repeat 0%Z (Z.to_nat ((55 - n) mod 64)) ++ be_bytes 8 (8 * n).

Fixpoint sha_blocks (n : nat) (h : list Z) (words : list Z) : list Z :=
  match n with
  | O => h
  | S n' => sha_blocks n' (sha_block h (take 16 words)) (drop 16 words)
  end.

(** [sha256.Sum256]; the padded message is a whole number of 64-byte blocks. *)
Definition sha256 (m : list Z) : list Z :=
  let words := be_words (sha_pad m) in
  flat_map (be_bytes 4) (sha_blocks (length words / 16) sha_h0 words).

(** The digests of the standard's first two test messages, "abc" and the empty one. *)
Example sha256_abc :
  of_bytes (hex_encode (sha256 [97; 98; 99]%Z)) =
  "ba7816bf8f01cfea414140de5dae2223b00361a396177a9cb410ff61f20015ad"%string.
Proof. vm_compute. reflexivity. Qed.

Example sha256_empty :
  of_bytes (hex_encode (sha256 [])) =
  "e3b0c44298fc1c149afbf4c8996fb92427ae41e4649b934ca495991b7852b855"%string.
Proof. vm_compute. reflexivity. Qed.

Lemma be_bytes_byte n z : Forall is_byte (be_bytes n z).
Proof.
  unfold be_bytes. apply Forall_forall. intros x Hx. apply list_elem_of_In in Hx.
  rewrite <- in_rev in Hx. apply in_map_iff in Hx as (i & <- & _).
  unfold is_byte. apply Z.mod_pos_bound. lia.
Qed.

Lemma sha256_bytes m : Forall is_byte (sha256 m).
Proof.
  unfold sha256. generalize (sha_blocks (length (be_words (sha_pad m)) / 16) sha_h0
    (be_words (sha_pad m))). intros ws.
  induction ws as [|w ws IH]; [constructor|]. cbn [flat_map].
  apply Forall_app. split; [apply be_bytes_byte|exact IH].
Qed.

Lemma length_sha_round s kw : length (sha_round s kw) = length s.
Proof. unfold sha_round. by repeat (case_match; try done). Qed.

Lemma length_sha_block h ws : length (sha_block h ws) = length h.
Proof.
  unfold sha_block. rewrite length_zip_with.
  assert (forall l k, length (fold_left sha_round l k) = length k) as ->; [|lia].
  intros l. induction l as [|x l IH]; intros k; [done|]. cbn. by rewrite IH, length_sha_round.
Qed.

Lemma length_sha_blocks n h ws : length (sha_blocks n h ws) = length h.
Proof. revert h ws. induction n as [|n IH]; intros h ws; cbn; [done|]. by rewrite IH, length_sha_block. Qed.

Lemma length_sha256 m : length (sha256 m) = 32.
Proof.
  unfold sha256.
  pose proof (length_sha_blocks (length (be_words (sha_pad m)) / 16) sha_h0 (be_words (sha_pad m))) as Hl.
  change (length sha_h0) with 8 in Hl.
  assert (forall l, length (flat_map (be_bytes 4) l) = 4 * length l) as ->; [|lia].
  intros l. induction l as [|x l IH]; [done|]. cbn [flat_map length]. rewrite length_app, IH.
  unfold be_bytes. rewrite length_rev, length_map, length_seq. lia.
Qed.
