(* ===== verification/PortalProtocol.v ===== *)
(** * The portal protocol ([internal/portal/portal.go], [token.go])

    The types of the protocol, its errors, sync tokens, and the [Store] interface behind the HTTP
    server as a type class.  The class carries the promises of the interface's comments that the
    server relies on as laws, relative to a well-formedness of the store's states that every
    operation keeps; [PortalFile] discharges them for the file store, and [PortalServer] is proved
    against the class. *)

From S2P Require Import Prelude Http Sha256.
From Stdlib Require Import ZArith Lia Ascii String.
From stdpp Require Import base gmap strings list.

Definition ProtocolVersion : string := "1.1".
Definition SupportedVersions : list string := [ProtocolVersion].
Definition HubDirectoryPath : string := "/api/hubs".
Definition HubSyncTokenPrefix : string := "hubsync_".

Record Hub := MkHub {
  h_Name : string;
  h_HubID : string;
  h_URL : string;
  h_ViewerToken : string;
  h_AdminToken : string;
  h_OrgName : string
}.

Record HubVisibility := MkHubVisibility {
  hv_ID : string;
  hv_Name : string;
  hv_URL : string;
  hv_CanManage : bool;
  hv_OrgName : string
}.

Record HubUpdate := MkHubUpdate {
  hu_Name : option string;
  hu_URL : option string;
  hu_ViewerToken : option string;
  hu_AdminToken : option string
}.

(** The sentinel errors; [ErrOther] is any error the server does not know. *)
Inductive portalErr :=
  ErrUnauthorized | ErrForbidden | ErrHubNotFound | ErrHubExists | ErrInvalidInput | ErrOther.
#[export] Instance portalErr_eq_dec : EqDecision portalErr.
Proof. solve_decision. Defined.

(** ** Sync tokens *)

(** [rand.Read] fails, or fills the buffer; the model reads the first 32 bytes it delivers. *)
Definition GenerateSyncToken (rnd : option (list Z)) : option string :=
  match rnd with
  | Some b => Some (HubSyncTokenPrefix +:+ of_bytes (hex_encode (take 32 b)))
  | None => None
  end.

Definition HashSyncToken (token : string) : string :=
  of_bytes (hex_encode (sha256 (z_bytes token))).

Definition isLowerHex (c : ascii) : bool := in_range "0" "9" c || in_range "a" "f" c.

(** A rune that is not ASCII is not lowercase hex, nor is any of its bytes. *)
Definition IsSyncTokenFormat (s : string) : bool :=
  match drop_prefix (bytes HubSyncTokenPrefix) (bytes s) with
  | None => false
  | Some rest => if (length rest <? 32)%nat then false else forallb isLowerHex rest
  end.

Definition CompareSyncTokenHash (presented stored : string) : bool :=
  if negb (IsSyncTokenFormat presented) then false
  else
    let presentedHash := HashSyncToken presented in
    if negb (slen presentedHash =? slen stored)%Z then false
    else presentedHash =s stored.

(** What the server reads of a request.  [pq_Escaped] is the path as it was sent; the query is given
    raw and parsed (first value of each parameter), the body as bytes and as the first JSON value
    [encoding/json] reads from at most 1 MiB of them. *)
Record preq := PReq {
  pq_Method : string;
  pq_Escaped : string;
  pq_Authorization : string;
  pq_RawQuery : string;
  pq_Query : gmap string string;
  pq_ContentType : string;
  pq_IfMatch : string;
  pq_IfNoneMatch : string;
  pq_Raw : list Z;
  pq_Body : reqBody
}.

(** [decodeJSONBody] hands the decoder at most a mebibyte; a body that does not fit does not decode.
    [jsonSize] is the length of a JSON text. *)
Definition decodeLimit : Z := 1048576.
Definition readCapped (jsonSize : json -> Z) (b : reqBody) : reqBody :=
  match b with BodyJson j => if (jsonSize j <=? decodeLimit)%Z then b else BodyBad | _ => b end.

Lemma readCapped_fits jsonSize b :
  (forall j, b = BodyJson j -> (jsonSize j <= decodeLimit)%Z) -> readCapped jsonSize b = b.
Proof.
  intros H. destruct b as [| |j]; [done..|]. cbn [readCapped]. specialize (H j eq_refl).
  by destruct (Z.leb_spec (jsonSize j) decodeLimit); [|lia].
Qed.

(** ** The store interface *)

(** [Authenticate]: a user, no user without an error, or an error. *)
Inductive authResult (U : Type) := AuthUser (u : U) | AuthNobody | AuthError (e : portalErr).
Arguments AuthUser {U} u.
Arguments AuthNobody {U}.
Arguments AuthError {U} e.

(** [T]: states of the store; [E]: what one call takes from its environment; [U]: users. *)
Class PortalStore (T E U : Type) := {
  PortalID : T -> string;
  Authenticate : T -> preq -> authResult U;
  ListHubsForUser : T -> U -> portalErr + list HubVisibility;
  LookupHubForUser : T -> U -> string -> portalErr + (Hub * bool);
  AddHub : E -> T -> U -> Hub -> (portalErr + bool * string) * T;
  UpdateHub : E -> T -> U -> string -> HubUpdate -> option portalErr * T;
  DeleteHub : E -> T -> U -> string -> option portalErr * T;
  VerifyHubSyncToken : T -> string -> string -> portalErr + Hub;
  SetHubViewerToken : E -> T -> string -> string -> option portalErr * T
}.

(** Two states no reading call tells apart. *)
Definition same_view `{PortalStore T E U} (s s' : T) : Prop :=
  PortalID s' = PortalID s /\
  (forall r, Authenticate s' r = Authenticate s r) /\
  (forall u, ListHubsForUser s' u = ListHubsForUser s u) /\
  (forall u n, LookupHubForUser s' u n = LookupHubForUser s u n) /\
  (forall n t, VerifyHubSyncToken s' n t = VerifyHubSyncToken s n t).

Definition set_ViewerToken (h : Hub) (t : string) : Hub :=
  MkHub (h_Name h) (h_HubID h) (h_URL h) t (h_AdminToken h) (h_OrgName h).

Class PortalStoreLaws (T E U : Type) `{PortalStore T E U} := {
  store_ok : T -> Prop;
  env_ok : E -> Prop;               (** the environment delivers what it is asked for *)
  ok_AddHub e s u h : store_ok s -> store_ok (AddHub e s u h).2;
  ok_UpdateHub e s u n d : store_ok s -> store_ok (UpdateHub e s u n d).2;
  ok_DeleteHub e s u n : store_ok s -> store_ok (DeleteHub e s u n).2;
  ok_SetHubViewerToken e s n t : store_ok s -> store_ok (SetHubViewerToken e s n t).2;
  (** a hub is found under its own name, and listed with the same rights *)
  lookup_listed s u n h m l :
    store_ok s -> LookupHubForUser s u n = inr (h, m) -> ListHubsForUser s u = inr l ->
    h_Name h = n /\ MkHubVisibility (h_HubID h) n (h_URL h) m (h_OrgName h) ∈ l;
  (** only tokens with the prefix verify *)
  verify_prefix s n t h :
    VerifyHubSyncToken s n t = inr h -> has_prefix t HubSyncTokenPrefix = true;
  (** the token an addition returns verifies for that hub *)
  add_verifies e s u h created t s' :
    env_ok e -> AddHub e s u h = (inr (created, t), s') -> t <> "" ->
    VerifyHubSyncToken s' (h_Name h) t = inr h;
  (** setting the viewer token sets it and changes nothing else *)
  viewer_lookup e s n t s' u m :
    store_ok s -> SetHubViewerToken e s n t = (None, s') ->
    LookupHubForUser s' u m =
      match LookupHubForUser s u m with
      | inr (h, c) => inr (if m =s n then set_ViewerToken h t else h, c)
      | inl err => inl err
      end;
  viewer_list e s n t s' u :
    store_ok s -> SetHubViewerToken e s n t = (None, s') -> ListHubsForUser s' u = ListHubsForUser s u;
  viewer_auth e s n t s' r :
    SetHubViewerToken e s n t = (None, s') -> Authenticate s' r = Authenticate s r;
  viewer_failed e s n t s' err :
    SetHubViewerToken e s n t = (Some err, s') -> same_view s s'
}.

(** ** Facts about sync tokens *)

Lemma isLowerHex_char n : (0 <= n < 16)%Z -> isLowerHex (hex_char n) = true.
Proof.
  intros H. assert (forallb (fun n => isLowerHex (hex_char n)) (map Z.of_nat (seq 0 16)) = true) as F
    by reflexivity.
  rewrite forallb_forall in F. apply F, in_map_iff. exists (Z.to_nat n). split; [lia|].
  apply in_seq. lia.
Qed.

Lemma isLowerHex_encode l : Forall is_byte l -> forallb isLowerHex (hex_encode l) = true.
Proof.
  induction 1 as [|b l Hb _ IH]; [done|]. cbn [hex_encode forallb app]. unfold is_byte in Hb.
  rewrite !isLowerHex_char; [done| |].
  - pose proof (Z.mod_pos_bound b 16). lia.
  - pose proof (Z.div_lt_upper_bound b 16 16). pose proof (Z.div_pos b 16). lia.
Qed.

Lemma generated_format b t :
  GenerateSyncToken (Some b) = Some t -> Forall is_byte b -> (32 <= length b)%nat ->
  IsSyncTokenFormat t = true.
Proof.
  intros [= <-] Hb Hl. unfold IsSyncTokenFormat. rewrite bytes_app, drop_prefix_app, bytes_of_bytes.
  rewrite length_hex_encode, length_take.
  destruct (Nat.ltb_spec (2 * (32 `min` length b)) 32); [lia|].
  apply isLowerHex_encode. by apply Forall_take.
Qed.

Lemma CompareSyncTokenHash_iff presented stored :
  CompareSyncTokenHash presented stored = true <->
  IsSyncTokenFormat presented = true /\ stored = HashSyncToken presented.
Proof.
  unfold CompareSyncTokenHash. destruct (IsSyncTokenFormat presented); cbn [negb]; [|naive_solver].
  destruct (Z.eqb_spec (slen (HashSyncToken presented)) (slen stored)) as [|Hne]; cbn [negb].
  - rewrite bool_decide_eq_true. naive_solver.
  - split; [done|]. intros [_ ->]. done.
Qed.

Lemma IsSyncTokenFormat_prefix t : IsSyncTokenFormat t = true -> has_prefix t HubSyncTokenPrefix = true.
Proof. unfold IsSyncTokenFormat, has_prefix. by destruct (drop_prefix _ _). Qed.
