(* ===== verification/Channel.v ===== *)
(** * Release channels ([internal/channel/channel.go])

    Channel names and base URLs, the channel a version string belongs to, version ordering and the
    update decision, manifest validation, the caching fetcher and the verified download.  Text is
    ASCII, as version strings, channel names and URLs are. *)

From S2P Require Import Prelude Sha256.
From Stdlib Require Import ZArith Lia Ascii String.
From stdpp Require Import base gmap strings list fin_maps.

Definition Dev : string := "dev".
Definition Beta : string := "beta".
Definition Stable : string := "stable".
Definition DefaultChannel : string := Dev.
Definition DefaultManifestBase : string :=
  "https://github.com/paulmooreparks/tela/releases/download/channels/".

Definition DefaultBases : gmap string string :=
  {[Dev := DefaultManifestBase; Beta := DefaultManifestBase; Stable := DefaultManifestBase]}.

Definition ResolveBase (name : string) (sources : gmap string string) : string :=
  match sources !! name with
  | Some v => if v <>s "" then v else default "" (DefaultBases !! name)
  | None => default "" (DefaultBases !! name)
  end.

Definition IsKnown (name : string) : bool :=
  (name =s Dev) || (name =s Beta) || (name =s Stable).

Definition channel_byte (c : ascii) : bool := is_lower c || is_digit c || Ascii.eqb c "-".

Definition IsValid (name : string) : bool :=
  if name =s "" then false else forallb channel_byte (bytes name).

Definition Normalize (name : string) : string :=
  let name := trim_space (to_lower name) in
  if IsValid name then name else DefaultChannel.

Definition with_slash (base : string) : string :=
  if has_suffix base "/" then base else base +:+ "/".

Definition ManifestURL (base name : string) : string :=
  let base := if base =s "" then DefaultManifestBase else base in
  with_slash base +:+ Normalize name +:+ ".json".

(** ** Versions *)

(** The text up to the first occurrence of a byte, or all of it. *)
Definition before (c : string) (s : string) : string :=
  match cut s c with Some (a, _) => a | None => s end.

Definition count_byte (c : ascii) (s : string) : nat :=
  length (List.filter (Ascii.eqb c) (bytes s)).

Definition looksLikeSemverCore (s : string) : bool :=
  if (count_byte "." s <? 2)%nat then false
  else forallb (fun r => Ascii.eqb r "." || is_digit r) (bytes s).

Definition InferFromVersion (v : string) : string :=
  let v := trim_space v in
  match v with
  | EmptyString => ""
  | String c v' =>
      let v := if Ascii.eqb c "v" || Ascii.eqb c "V" then v' else v in
      let v := before "+" v in
      match cut v "-" with
      | None => if looksLikeSemverCore v then Stable else ""
      | Some (core, prerelease) =>
          if negb (looksLikeSemverCore core) then ""
          else
            let firstIdent := to_lower (before "." prerelease) in
            if IsValid firstIdent then firstIdent else ""
      end
  end.

(** [strings.FieldsFunc]: the maximal runs of bytes outside the class. *)
Fixpoint fields_go (sep : ascii -> bool) (l cur : list ascii) : list (list ascii) :=
  match l with
  | [] => match cur with [] => [] | _ => [rev cur] end
  | c :: l' =>
      if sep c then match cur with [] => fields_go sep l' [] | _ => rev cur :: fields_go sep l' [] end
      else fields_go sep l' (c :: cur)
  end.
Definition FieldsFunc (s : string) (sep : ascii -> bool) : list string :=
  map of_bytes (fields_go sep (bytes s) []).

(** The local function [norm] of [CompareVersions]. *)
Definition norm (s : string) : list Z :=
  let s := trim_prefix (trim_prefix s "v") "V" in
  map (fun p => default (-1)%Z (Atoi p))
    (FieldsFunc s (fun r => Ascii.eqb r "." || Ascii.eqb r "-")).

(** The loop, [n] iterations left; an exhausted side reads 0. *)
Fixpoint compare_loop (n : nat) (pa pb : list Z) : Z :=
  match n with
  | O => 0
  | S n' =>
      let x := hd 0%Z pa in
      let y := hd 0%Z pb in
      if (x <? y)%Z then -1
      else if (y <? x)%Z then 1
      else compare_loop n' (tl pa) (tl pb)
  end%Z.

Definition CompareVersions (a b : string) : Z :=
  let pa := norm a in
  let pb := norm b in
  let length := if (length pa <? length pb)%nat then length pb else length pa in
  compare_loop length pa pb.

Definition IsNewer (candidate current : string) : bool :=
  if (candidate =s "dev") || (current =s "dev") then false
  else (0 <? CompareVersions candidate current)%Z.

Definition IsCrossChannel (currentVersion targetChannel : string) : bool :=
  if (currentVersion =s "") || (currentVersion =s "dev") || (targetChannel =s "") then false
  else InferFromVersion currentVersion <>s Normalize targetChannel.

Definition ShouldOfferUpdate (currentVersion targetChannel targetVersion : string) : bool :=
  if targetVersion =s "" then false
  else if (currentVersion =s "") || (currentVersion =s "dev") then true
  else if IsCrossChannel currentVersion targetChannel then currentVersion <>s targetVersion
  else IsNewer targetVersion currentVersion.

(** ** Manifests *)

Record BinaryEntry := MkBinaryEntry { SHA256 : string; Size : Z }.

Record Manifest := MkManifest {
  mf_Channel : string;
  mf_Version : string;
  mf_Tag : string;
  mf_PublishedAt : Z;
  mf_DownloadBase : string;
  mf_Binaries : gmap string BinaryEntry
}.

Definition BinaryURL (m : option Manifest) (binaryName : string) : string :=
  match m with
  | None => ""
  | Some m => if mf_DownloadBase m =s "" then ""
              else with_slash (mf_DownloadBase m) +:+ binaryName
  end.

(** The error of [Validate], one constructor per message. *)
Inductive manifestError :=
  | ErrNilManifest | ErrChannel (c : string) | ErrNoVersion | ErrNoTag | ErrNoDownloadBase
  | ErrNoBinaries | ErrShaLength (name : string) (got : Z) | ErrShaHex (name : string)
  | ErrSize (name : string).

Definition validateBinary (name : string) (b : BinaryEntry) : option manifestError :=
  if negb (slen (SHA256 b) =? 64)%Z then Some (ErrShaLength name (slen (SHA256 b)))
  else match hex_decode (bytes (SHA256 b)) with
       | None => Some (ErrShaHex name)
       | Some _ => if (Size b <=? 0)%Z then Some (ErrSize name) else None
       end.

(** The first error in the order of the range. *)
Fixpoint validateBinaries (l : list (string * BinaryEntry)) : option manifestError :=
  match l with
  | [] => None
  | (name, b) :: l' =>
      match validateBinary name b with Some e => Some e | None => validateBinaries l' end
  end.

Definition Validate `{RangeOrder} (m : option Manifest) : option manifestError :=
  match m with
  | None => Some ErrNilManifest
  | Some m =>
      if negb (IsValid (mf_Channel m)) then Some (ErrChannel (mf_Channel m))
      else if mf_Version m =s "" then Some ErrNoVersion
      else if mf_Tag m =s "" then Some ErrNoTag
      else if mf_DownloadBase m =s "" then Some ErrNoDownloadBase
      else if bool_decide (size (mf_Binaries m) = 0) then Some ErrNoBinaries
      else validateBinaries (range (mf_Binaries m))
  end.

(** ** The fetcher *)

Record cacheEntry := CacheEntry { ce_manifest : Manifest; ce_fetched : Z }.

Record Fetcher := MkFetcher {
  f_Base : string;
  f_CacheTTL : Z;
  f_cache : gmap string cacheEntry
}.

(** Five minutes, in nanoseconds. *)
Definition DefaultCacheTTL : Z := 300000000000.

(** What a GET of a URL yields: [None] is a transport error; otherwise the status and the body as
    [json.Unmarshal] read it, [None] for a body that is cut short or not a manifest. *)
Definition network := string -> option (Z * option Manifest).

Section fetcher.
  Context `{RangeOrder}.

Definition fetch (net : network) (url : string) : option Manifest :=
  match net url with
  | None => None
  | Some (status, parsed) =>
      if negb (status =? 200)%Z then None
      else match parsed with
           | None => None
           | Some m => match Validate (Some m) with Some _ => None | None => Some m end
           end
  end.

Definition store (f : Fetcher) (url : string) (m : Manifest) (now : Z) : Fetcher :=
  MkFetcher (f_Base f) (f_CacheTTL f) (<[url := CacheEntry m now]> (f_cache f)).

(** [now] is read by [time.Since] before and by [time.Now] after the transfer. *)
Definition GetURL (f : Fetcher) (net : network) (now now' : Z) (url : string)
    : option Manifest * Fetcher :=
  let ttl := if (f_CacheTTL f <=? 0)%Z then DefaultCacheTTL else f_CacheTTL f in
  let fresh e := (now - ce_fetched e <? ttl)%Z in
  match f_cache f !! url with
  | Some e =>
      if fresh e then (Some (ce_manifest e), f)
      else match fetch net url with
           | None => (Some (ce_manifest e), f)
           | Some m => (Some m, store f url m now')
           end
  | None =>
      match fetch net url with
      | None => (None, f)
      | Some m => (Some m, store f url m now')
      end
  end.

Definition Get (f : Fetcher) (net : network) (now now' : Z) (name : string)
    : option Manifest * Fetcher :=
  GetURL f net now now' (ManifestURL (f_Base f) name).

Definition Fetch (f : Fetcher) (net : network) (now' : Z) (url : string)
    : option Manifest * Fetcher :=
  match fetch net url with
  | None => (None, f)
  | Some m => (Some m, store f url m now')
  end.

End fetcher.

(** ** The verified download *)

Inductive verifyError := ErrCopy | ErrSizeMismatch (got : Z) | ErrShaMismatch (got : string).

(** [data] is what the reader delivers, with whether it then failed; the result is the error and
    what reached the writer. *)
Definition VerifyReader (data : list Z) (readFails : bool) (expected : string) (expectedSize : Z)
    : option verifyError * list Z :=
  let n := Z.of_nat (length data) in
  let got := of_bytes (hex_encode (sha256 data)) in
  (if readFails then Some ErrCopy
   else if (0 <? expectedSize)%Z && negb (n =? expectedSize)%Z then Some (ErrSizeMismatch n)
   else if negb (equal_fold got expected) then Some (ErrShaMismatch got)
   else None, data).

(** ** Lemmas on the version order *)

Lemma compare_loop_refl n p : compare_loop n p p = 0%Z.
Proof. revert p. induction n as [|n IH]; intros p; cbn; [done|]. by rewrite Z.ltb_irrefl. Qed.

Lemma compare_loop_antisym n p q : compare_loop n q p = (- compare_loop n p q)%Z.
Proof.
  revert p q. induction n as [|n IH]; intros p q; cbn; [done|].
  destruct (Z.ltb_spec (hd 0%Z p) (hd 0%Z q)), (Z.ltb_spec (hd 0%Z q) (hd 0%Z p)); try lia.
  apply IH.
Qed.

Lemma compare_loop_trans n p q r :
  (compare_loop n p q <= 0 -> compare_loop n q r <= 0 -> compare_loop n p r <= 0)%Z.
Proof.
  revert p q r. induction n as [|n IH]; intros p q r; cbn; [done|].
  destruct (Z.ltb_spec (hd 0%Z p) (hd 0%Z q)), (Z.ltb_spec (hd 0%Z q) (hd 0%Z p)),
    (Z.ltb_spec (hd 0%Z q) (hd 0%Z r)), (Z.ltb_spec (hd 0%Z r) (hd 0%Z q)),
    (Z.ltb_spec (hd 0%Z p) (hd 0%Z r)), (Z.ltb_spec (hd 0%Z r) (hd 0%Z p)); try lia.
  apply IH.
Qed.

Lemma compare_loop_nil n : compare_loop n [] [] = 0%Z.
Proof. by induction n. Qed.

(** Once both sides are exhausted more iterations change nothing. *)
Lemma compare_loop_more n k p q :
  (length p <= n)%nat -> (length q <= n)%nat -> compare_loop (n + k) p q = compare_loop n p q.
Proof.
  revert p q. induction n as [|n IH]; intros p q Hp Hq.
  - destruct p, q; cbn in *; try lia. apply compare_loop_nil.
  - cbn. rewrite IH; [done|destruct p; cbn in *; lia|destruct q; cbn in *; lia].
Qed.

Lemma CompareVersions_loop a b n :
  (length (norm a) <= n)%nat -> (length (norm b) <= n)%nat ->
  CompareVersions a b = compare_loop n (norm a) (norm b).
Proof.
  intros Ha Hb. unfold CompareVersions.
  destruct (Nat.ltb_spec (length (norm a)) (length (norm b))).
  - rewrite <- (compare_loop_more (length (norm b)) (n - length (norm b))) by lia. f_equal. lia.
  - rewrite <- (compare_loop_more (length (norm a)) (n - length (norm a))) by lia. f_equal. lia.
Qed.

Lemma CompareVersions_antisym a b : CompareVersions b a = (- CompareVersions a b)%Z.
Proof.
  rewrite !(CompareVersions_loop _ _ (length (norm a) + length (norm b))) by lia.
  apply compare_loop_antisym.
Qed.

(** [CompareVersions] is a total preorder on all strings: every version equals itself,
    swapping the arguments swaps the sign, and it is transitive. *)
Theorem CompareVersions_preorder a b c :
  CompareVersions a a = 0%Z /\ CompareVersions b a = (- CompareVersions a b)%Z /\
  ((CompareVersions a b <= 0)%Z /\ (CompareVersions b c <= 0)%Z -> (CompareVersions a c <= 0)%Z).
Proof.
  split; [|split; [apply CompareVersions_antisym|]].
  - rewrite (CompareVersions_loop _ _ (length (norm a))) by lia. apply compare_loop_refl.
  - rewrite !(CompareVersions_loop _ _ (length (norm a) + length (norm b) + length (norm c))) by lia.
    intros [H1 H2]. by eapply compare_loop_trans.
Qed.

Lemma CompareVersions_preorder_witness :
  (CompareVersions "v0.9.0-dev.3" "v0.9.0" <= 0)%Z.
Proof.
  refine (proj2 (proj2 (CompareVersions_preorder "v0.9.0-dev.3" "v0.9.0-dev.4" "v0.9.0")) _).
  by vm_compute.
Defined.

(** ** Release tags *)

(** The text of the number [n], as the release pipeline writes it into a tag. *)
Definition core_of (x y z : Z) : string :=
  FormatUint x +:+ "." +:+ FormatUint y +:+ "." +:+ FormatUint z.
Definition release_tag (x y z : Z) : string := "v" +:+ core_of x y z.
Definition channel_tag (x y z : Z) (name : string) (n : Z) : string :=
  "v" +:+ core_of x y z +:+ "-" +:+ name +:+ "." +:+ FormatUint n.

Lemma fields_go_sep sep l c r cur :
  sep c = true -> fields_go sep (l ++ c :: r) cur = fields_go sep l cur ++ fields_go sep r [].
Proof.
  intros Hc. revert cur. induction l as [|d l IH]; intros cur; cbn.
  - rewrite Hc. by destruct cur.
  - destruct (sep d); [|apply IH]. destruct cur; [apply IH|]. cbn. by rewrite IH.
Qed.

Lemma fields_go_none sep l cur :
  forallb (fun c => negb (sep c)) l = true -> cur <> [] -> fields_go sep l cur = [rev cur ++ l].
Proof.
  revert cur. induction l as [|c l IH]; intros cur; cbn.
  - intros _ Hc. rewrite app_nil_r. by destruct cur.
  - intros H Hc. prop_bool. destruct (sep c); [done|]. rewrite IH by done. cbn. by rewrite <- app_assoc.
Qed.

Definition dot_or_dash (r : ascii) : bool := Ascii.eqb r "." || Ascii.eqb r "-".

Lemma digit_not_sep c : is_digit c = true -> dot_or_dash c = false.
Proof. destruct c as [[] [] [] [] [] [] [] []]; by intros. Qed.

Lemma fields_number n :
  (0 <= n)%Z -> fields_go dot_or_dash (bytes (FormatUint n)) [] = [bytes (FormatUint n)].
Proof.
  intros Hn. pose proof (FormatUint_nonempty n) as Hne.
  assert (forall c, c ∈ bytes (FormatUint n) -> dot_or_dash c = false) as Hd.
  { intros c Hc. apply digit_not_sep. by eapply FormatUint_digit. }
  destruct (bytes (FormatUint n)) as [|c l]; [done|]. cbn.
  rewrite Hd by left. rewrite fields_go_none; [done| |done].
  apply forallb_forall. intros d Hdin. rewrite Hd; [done|]. right. by apply list_elem_of_In.
Qed.

Lemma Atoi_FormatUint n :
  (0 <= n < 9223372036854775808)%Z -> Atoi (FormatUint n) = Some n.
Proof.
  intros Hn. pose proof (FormatUint_nonempty n) as Hne. unfold Atoi.
  assert (forall c, c ∈ bytes (FormatUint n) -> is_digit c = true) as Hd.
  { intros c Hc. eapply FormatUint_digit; [|done]. lia. }
  pose proof (parse_FormatUint n ltac:(lia)) as Hp.
  destruct (bytes (FormatUint n)) as [|c l]; [done|].
  assert (is_digit c = true) as Hc by (apply Hd; left).
  destruct (Ascii.eqb_spec c "-") as [->|_]; [done|].
  destruct (Ascii.eqb_spec c "+") as [->|_]; [done|].
  rewrite Hp. cbn. destruct (Z.leb_spec (-9223372036854775808) n), (Z.leb_spec n 9223372036854775807);
    [done|lia..].
Qed.

(** The segments of a text, as numbers. *)
Definition segments (l : list ascii) : list Z :=
  map (fun p => default (-1)%Z (Atoi p)) (map of_bytes (fields_go dot_or_dash l [])).

Lemma segments_sep l c r : dot_or_dash c = true -> segments (l ++ c :: r) = segments l ++ segments r.
Proof. intros Hc. unfold segments. by rewrite fields_go_sep, !map_app. Qed.

Lemma segments_number n :
  (0 <= n < 9223372036854775808)%Z -> segments (bytes (FormatUint n)) = [n].
Proof.
  intros Hn. unfold segments. rewrite fields_number by lia. cbn [map].
  by rewrite of_bytes_bytes, Atoi_FormatUint.
Qed.

Lemma digit_not_V c l : is_digit c = true -> drop_prefix (bytes "V") (c :: l) = None.
Proof. destruct c as [[] [] [] [] [] [] [] []]; by intros. Qed.

Lemma FormatUint_head n s :
  (0 <= n)%Z -> exists c l, bytes (FormatUint n +:+ s) = c :: l /\ is_digit c = true.
Proof.
  intros Hn. pose proof (FormatUint_nonempty n). rewrite bytes_app.
  destruct (bytes (FormatUint n)) as [|c l] eqn:E; [done|]. exists c, (l ++ bytes s).
  split; [done|]. apply (FormatUint_digit n); [done|]. rewrite E. left.
Qed.

Lemma norm_v x s :
  (0 <= x)%Z -> norm ("v" +:+ FormatUint x +:+ s) = segments (bytes (FormatUint x +:+ s)).
Proof.
  intros Hx. unfold norm. rewrite trim_prefix_app.
  destruct (FormatUint_head x s Hx) as (c & l & E & Hc).
  unfold trim_prefix. by rewrite E, digit_not_V, <- E.
Qed.

Definition int63 (n : Z) : Prop := (0 <= n < 9223372036854775808)%Z.

Lemma segments_core x y z :
  int63 x -> int63 y -> int63 z -> segments (bytes (core_of x y z)) = [x; y; z].
Proof.
  intros Hx Hy Hz. unfold core_of. rewrite !bytes_app.
  change (bytes ".") with ["."%char]. cbn [app].
  by rewrite !segments_sep, !segments_number by done.
Qed.

Lemma norm_release x y z :
  int63 x -> int63 y -> int63 z -> norm (release_tag x y z) = [x; y; z].
Proof.
  intros Hx Hy Hz. unfold release_tag, core_of. rewrite norm_v by apply Hx.
  by apply segments_core.
Qed.

Lemma norm_channel x y z name n :
  int63 x -> int63 y -> int63 z -> int63 n ->
  norm (channel_tag x y z name n) = [x; y; z] ++ segments (bytes name) ++ [n].
Proof.
  intros Hx Hy Hz Hn. unfold channel_tag.
  assert ("v" +:+ core_of x y z +:+ "-" +:+ name +:+ "." +:+ FormatUint n =
          "v" +:+ FormatUint x +:+ ("." +:+ FormatUint y +:+ "." +:+ FormatUint z) +:+
          "-" +:+ name +:+ "." +:+ FormatUint n) as ->.
  { apply bytes_inj. unfold core_of. rewrite !bytes_app. by rewrite <- !app_assoc. }
  rewrite norm_v by apply Hx. rewrite bytes_app.
  replace (bytes (FormatUint x) ++ _) with
    (bytes (core_of x y z) ++ "-"%char :: bytes name ++ "."%char :: bytes (FormatUint n)).
  - by rewrite !segments_sep, segments_core, segments_number.
  - unfold core_of. rewrite !bytes_app. by rewrite <- !app_assoc.
Qed.

Lemma compare_loop_same n p q r :
  (length p <= n)%nat -> compare_loop n (p ++ q) (p ++ r) = compare_loop (n - length p) q r.
Proof.
  revert p. induction n as [|n IH]; intros [|x p] Hn; cbn in *; try (done || lia).
  rewrite Z.ltb_irrefl. apply IH. lia.
Qed.

(** On the tags of one channel [CompareVersions] is the lexicographic order of the numbers,
    whatever the channel is called; a release compares above the tags of any channel whose name is
    a word and whose version core is the same. *)
Theorem CompareVersions_tags x y z n x' y' z' n' name :
  int63 x -> int63 y -> int63 z -> int63 n -> int63 x' -> int63 y' -> int63 z' -> int63 n' ->
  CompareVersions (channel_tag x y z name n) (channel_tag x' y' z' name n') =
    compare_loop 4 [x; y; z; n] [x'; y'; z'; n'] /\
  (segments (bytes name) = [-1]%Z ->
   CompareVersions (channel_tag x y z name n) (release_tag x y z) = (-1)%Z /\
   CompareVersions (release_tag x y z) (channel_tag x y z name n) = 1%Z).
Proof.
  intros. split.
  - rewrite (CompareVersions_loop _ _ (4 + length (segments (bytes name)))).
    + rewrite !norm_channel by done. cbn [app].
      assert (compare_loop (S (length (segments (bytes name)))) (segments (bytes name) ++ [n])
                (segments (bytes name) ++ [n']) = compare_loop 1 [n] [n']) as Htail.
      { rewrite compare_loop_same by lia. f_equal. lia. }
      change (4 + length (segments (bytes name))) with
        (3 + S (length (segments (bytes name)))).
      remember (S (length (segments (bytes name)))) as k eqn:Hk.
      cbn [Nat.add compare_loop hd tl]. rewrite Htail. done.
    + rewrite norm_channel by done. rewrite !length_app. cbn. lia.
    + rewrite norm_channel by done. rewrite !length_app. cbn. lia.
  - intros Hname. rewrite (CompareVersions_antisym (channel_tag x y z name n)).
    assert (CompareVersions (channel_tag x y z name n) (release_tag x y z) = -1)%Z as ->; [|done].
    unfold CompareVersions. rewrite norm_channel, norm_release, Hname by done. cbn.
    by rewrite !Z.ltb_irrefl.
Qed.

Lemma CompareVersions_tags_witness :
  CompareVersions "v0.16.0-beta.9" "v0.16.0-beta.10" = (-1)%Z /\
  CompareVersions "v0.16.0" "v0.16.0-beta.10" = 1%Z.
Proof.
  split.
  - refine (proj1 (CompareVersions_tags 0 16 0 9 0 16 0 10 "beta" _ _ _ _ _ _ _ _)); by split.
  - refine (proj2 (proj2 (CompareVersions_tags 0 16 0 10 0 0 0 0 "beta" _ _ _ _ _ _ _ _) _));
      [by split..|reflexivity].
Defined.

(** Build metadata is part of a segment, so it makes a version compare below its own core. *)
Example compare_build_metadata :
  CompareVersions "v1.2.3+abc" "v1.2.3" = (-1)%Z /\ CompareVersions "v1.2.3+abc" "v1.2.0" = (-1)%Z /\
  InferFromVersion "v1.2.3+abc" = InferFromVersion "v1.2.3".
Proof. vm_compute. repeat split. Qed.

(** ** Channels of tags *)

Lemma cut_none (c : ascii) s : c ∉ bytes s -> cut s (String c "") = None.
Proof.
  unfold cut. change (bytes (String c "")) with [c]. intros Hc.
  assert (cut_bytes [c] (bytes s) = None) as ->; [|done].
  induction (bytes s) as [|d l IH]; [done|]. apply not_elem_of_cons in Hc as [Hne Hc].
  cbn. destruct (Ascii.eqb_spec c d); [done|]. by rewrite IH.
Qed.

Lemma before_none (c : ascii) s : c ∉ bytes s -> before (String c "") s = s.
Proof. intros Hc. unfold before. by rewrite cut_none. Qed.

(** The bytes of a version core. *)
Definition core_byte (c : ascii) : bool := Ascii.eqb c "." || is_digit c.

Lemma number_byte n c : (0 <= n)%Z -> c ∈ bytes (FormatUint n) -> core_byte c = true.
Proof. intros Hn Hc. unfold core_byte. rewrite (FormatUint_digit n) by done. apply orb_true_r. Qed.

Lemma core_of_bytes x y z c :
  (0 <= x)%Z -> (0 <= y)%Z -> (0 <= z)%Z -> c ∈ bytes (core_of x y z) -> core_byte c = true.
Proof.
  intros Hx Hy Hz. unfold core_of. rewrite !bytes_app, !elem_of_app.
  change (bytes ".") with ["."%char]. rewrite !list_elem_of_singleton.
  intros [H|[->|[H|[->|H]]]]; try done; (eapply number_byte; [|exact H]; done).
Qed.

Lemma count_byte_app c s t : count_byte c (s +:+ t) = count_byte c s + count_byte c t.
Proof. unfold count_byte. by rewrite bytes_app, List.filter_app, length_app. Qed.

Lemma core_of_semver x y z :
  (0 <= x)%Z -> (0 <= y)%Z -> (0 <= z)%Z -> looksLikeSemverCore (core_of x y z) = true.
Proof.
  intros Hx Hy Hz. unfold looksLikeSemverCore.
  destruct (Nat.ltb_spec (count_byte "." (core_of x y z)) 2) as [Hlt|_].
  - exfalso. unfold core_of in Hlt. rewrite !count_byte_app in Hlt. cbn in Hlt. lia.
  - apply forallb_forall. intros c Hc. apply (core_of_bytes x y z); [done..|].
    by apply list_elem_of_In.
Qed.

Lemma core_byte_cases c :
  core_byte c = true -> c <> "+"%char /\ c <> "-"%char /\ is_space c = false.
Proof. destruct c as [[] [] [] [] [] [] [] []]; by intros. Qed.

Lemma channel_byte_cases c :
  channel_byte c = true -> c <> "+"%char /\ c <> "."%char /\ is_space c = false /\ lower_byte c = c.
Proof. destruct c as [[] [] [] [] [] [] [] []]; by intros. Qed.

Lemma IsValid_byte name c : IsValid name = true -> c ∈ bytes name -> channel_byte c = true.
Proof.
  unfold IsValid. case_bool_decide; [done|]. rewrite forallb_forall. intros Hf Hc.
  by apply Hf, list_elem_of_In.
Qed.

Lemma to_lower_valid name : IsValid name = true -> to_lower name = name.
Proof.
  intros Hv. apply bytes_inj. unfold to_lower. rewrite bytes_of_bytes.
  pose proof (IsValid_byte name) as Hb. specialize (fun c => Hb c Hv).
  induction (bytes name) as [|c l IH]; [done|]. cbn. f_equal.
  - apply channel_byte_cases, Hb. left.
  - apply IH. intros d Hd. apply Hb. by right.
Qed.

Lemma Normalize_valid name : IsValid (Normalize name) = true.
Proof. unfold Normalize. by destruct (IsValid (trim_space (to_lower name))) eqn:E. Qed.

Lemma trim_space_valid name : IsValid name = true -> trim_space name = name.
Proof.
  intros Hv. apply trim_with_none, forallb_forall. intros c Hc.
  apply list_elem_of_In, (IsValid_byte name c Hv), channel_byte_cases in Hc as (_ & _ & -> & _).
  done.
Qed.

Lemma Normalize_id name : IsValid name = true -> Normalize name = name.
Proof. intros Hv. unfold Normalize. by rewrite to_lower_valid, trim_space_valid, Hv. Qed.

(** The channel read off a tag is the channel the tag was made for: a release tag is stable's,
    a channel tag is its channel's for every valid channel name; and whatever the version string,
    the result is empty or a valid name that [Normalize] leaves alone. *)
Theorem InferFromVersion_tags x y z n name v :
  (0 <= x)%Z -> (0 <= y)%Z -> (0 <= z)%Z -> (0 <= n)%Z -> IsValid name = true ->
  InferFromVersion (release_tag x y z) = Stable /\
  InferFromVersion (channel_tag x y z name n) = name /\
  (InferFromVersion v = "" \/ IsValid (InferFromVersion v) = true /\
     Normalize (InferFromVersion v) = InferFromVersion v).
Proof.
  intros Hx Hy Hz Hn Hv.
  assert (forall c, c ∈ bytes (core_of x y z) -> core_byte c = true) as Hcore
    by (intros c; by apply core_of_bytes).
  split_and!.
  - unfold InferFromVersion, release_tag. unfold trim_space. rewrite trim_with_none.
    + change ("v" +:+ ?s) with (String "v" s). cbv match beta zeta.
      change (if Ascii.eqb "v" "v" || _ then ?s else _) with s.
      rewrite before_none, cut_none.
      * by rewrite core_of_semver.
      * intros Hin. by apply Hcore, core_byte_cases in Hin as (_ & [] & _).
      * intros Hin. by apply Hcore, core_byte_cases in Hin as ([] & _).
    + rewrite bytes_app. cbn. apply forallb_forall. intros c Hc.
      apply list_elem_of_In, Hcore, core_byte_cases in Hc as (_ & _ & ->). done.
  - assert (forall c, c ∈ bytes (FormatUint n) -> core_byte c = true) as Hnum.
    { intros c. by apply number_byte. }
    pose proof (fun c => IsValid_byte name c Hv) as Hname.
    set (rest := core_of x y z +:+ "-" +:+ name +:+ "." +:+ FormatUint n).
    assert (forall c, c ∈ bytes rest -> c <> "+"%char /\ is_space c = false) as Hrest.
    { intros c. unfold rest. rewrite !bytes_app, !elem_of_app.
      change (bytes "-") with ["-"%char]. change (bytes ".") with ["."%char].
      rewrite !list_elem_of_singleton.
      intros [Hc|[->|[Hc|[->|Hc]]]]; try done.
      - by apply Hcore, core_byte_cases in Hc as (? & _ & ?).
      - by apply Hname, channel_byte_cases in Hc as (? & _ & ? & _).
      - by apply Hnum, core_byte_cases in Hc as (? & _ & ?). }
    unfold InferFromVersion, channel_tag. fold rest. unfold trim_space. rewrite trim_with_none.
    + change ("v" +:+ rest) with (String "v" rest). cbv match beta zeta.
      change (if Ascii.eqb "v" "v" || _ then ?s else _) with s.
      assert (before "+" rest = rest) as ->.
      { apply (before_none "+"). intros Hin. by apply Hrest in Hin as [[] _]. }
      assert (cut rest "-" = Some (core_of x y z, name +:+ "." +:+ FormatUint n)) as ->.
      { apply cut_byte. intros Hin. by apply Hcore, core_byte_cases in Hin as (_ & [] & _). }
      rewrite core_of_semver by done. cbn [negb].
      assert (before "." (name +:+ "." +:+ FormatUint n) = name) as ->.
      { unfold before. change (name +:+ "." +:+ ?t) with (name +:+ String "." t).
        rewrite cut_byte; [done|]. intros Hin.
        by apply Hname, channel_byte_cases in Hin as (_ & [] & _). }
      by rewrite to_lower_valid, Hv.
    + change (bytes ("v" +:+ rest)) with ("v"%char :: bytes rest). cbn [forallb].
      apply forallb_forall. intros c Hc.
      apply list_elem_of_In, Hrest in Hc as [_ ->]. done.
  - unfold InferFromVersion. destruct (trim_space v) as [|c v']; [by left|].
    destruct (cut _ "-") as [[core pre]|].
    + destruct (negb _); [by left|]. generalize (to_lower (before "." pre)). intros ident.
      destruct (IsValid ident) eqn:E; [right|by left]. split; [done|by apply Normalize_id].
    + destruct (looksLikeSemverCore _); [right|by left]. by vm_compute.
Qed.

Lemma InferFromVersion_tags_witness :
  InferFromVersion "v0.16.0-nightly-2.7" = "nightly-2".
Proof.
  refine (proj1 (proj2 (InferFromVersion_tags 0 16 0 7 "nightly-2" "" _ _ _ _ _)));
    first [lia|reflexivity].
Defined.

(** ** The update decision *)

(** Updating settles.  The version a channel points to is never offered to a binary that runs
    it; and along one channel an offered update is a strict increase, so it is never offered back,
    and two successive offers compose. *)
Theorem update_settles a b c ch :
  a <> "dev" -> b <> "dev" -> a <> "" -> b <> "" ->
  ShouldOfferUpdate a ch a = false /\
  (InferFromVersion a = Normalize ch -> InferFromVersion b = Normalize ch ->
   ShouldOfferUpdate a ch b = true ->
   (CompareVersions a b < 0)%Z /\ ShouldOfferUpdate b ch a = false /\
   (ShouldOfferUpdate b ch c = true -> c <> "dev" -> ShouldOfferUpdate a ch c = true)).
Proof.
  intros Ha Hb Ha0 Hb0.
  assert (forall u w, u <> "dev" -> u <> "" -> InferFromVersion u = Normalize ch -> w <> "dev" ->
    ShouldOfferUpdate u ch w = true <-> w <> "" /\ (CompareVersions u w < 0)%Z) as Hoffer.
  { intros u w Hu Hu0 Hch Hw. unfold ShouldOfferUpdate, IsCrossChannel, IsNewer.
    rewrite Hch, (bool_decide_true (Normalize ch = Normalize ch)) by done.
    rewrite (bool_decide_false (u = "")), (bool_decide_false (u = "dev")),
      (bool_decide_false (w = "dev")) by done.
    rewrite (CompareVersions_antisym u w). cbn [orb negb].
    replace (if ch =s "" then false else false) with false by (by case_match).
    case_bool_decide; [naive_solver|]. rewrite Z.ltb_lt.
    split; [split; [done|lia]|lia]. }
  split.
  - unfold ShouldOfferUpdate, IsNewer.
    rewrite (bool_decide_false (a = "")), (bool_decide_false (a = "dev")),
      (bool_decide_true (a = a)) by done. cbn [orb negb].
    case_match; [done|]. rewrite (CompareVersions_loop a a (length (norm a))) by lia.
    by rewrite compare_loop_refl.
  - intros Hca Hcb Hoff. apply Hoffer in Hoff as [_ Hlt]; [|done..]. split; [done|]. split.
    + apply not_true_iff_false. rewrite Hoffer by done. rewrite (CompareVersions_antisym a b). lia.
    + intros Hbc Hc. apply Hoffer in Hbc as [Hc0 Hbc]; [|done..].
      apply Hoffer; [done..|]. split; [done|].
      set (N := length (norm a) + length (norm b) + length (norm c)).
      rewrite (CompareVersions_loop a b N) in Hlt by lia.
      rewrite (CompareVersions_loop b c N) in Hbc by lia. rewrite (CompareVersions_loop a c N) by lia.
      destruct (Z.ltb_spec (compare_loop N (norm a) (norm c)) 0) as [|Hge]; [done|exfalso].
      pose proof (compare_loop_antisym N (norm a) (norm c)) as Hanti.
      pose proof (compare_loop_trans N (norm b) (norm c) (norm a) ltac:(lia) ltac:(lia)).
      pose proof (compare_loop_antisym N (norm a) (norm b)). lia.
Qed.

Lemma update_settles_witness :
  ShouldOfferUpdate "v0.9.0-beta.2" "beta" "v0.9.0-beta.10" = true /\
  ShouldOfferUpdate "v0.9.0-beta.10" "beta" "v0.9.0-beta.2" = false.
Proof.
  split; [vm_compute; reflexivity|].
  refine (proj1 (proj2 (proj2 (update_settles "v0.9.0-beta.2" "v0.9.0-beta.10" "" "beta" _ _ _ _)
    _ _ _))); try done; by vm_compute.
Defined.

(** ** Manifests and the cache *)

Lemma validateBinary_None name b :
  validateBinary name b = None <->
  slen (SHA256 b) = 64%Z /\ is_Some (hex_decode (bytes (SHA256 b))) /\ (0 < Size b)%Z.
Proof.
  unfold validateBinary. destruct (Z.eqb_spec (slen (SHA256 b)) 64) as [E|E]; cbn; [|naive_solver].
  destruct (hex_decode _) as [d|]; [|split; [done|by intros (_ & [? ?] & _)]].
  destruct (Z.leb_spec (Size b) 0) as [Hs|Hs].
  - split; [done|]. intros (_ & _ & ?). lia.
  - split; [|done]. intros _. split_and!; [done|by exists d|done].
Qed.

Lemma validateBinaries_None l :
  validateBinaries l = None <-> forall name b, (name, b) ∈ l -> validateBinary name b = None.
Proof.
  induction l as [|[name b] l IH]; cbn.
  - split; [|done]. intros _ name b Hin. by apply elem_of_nil in Hin.
  - destruct (validateBinary name b) eqn:E.
    + split; [done|]. intros Hall. rewrite (Hall name b) in E by left. done.
    + rewrite IH. split; intros Hall n' b'; [|intros Hin; apply Hall; by right].
      intros [[= -> ->]|Hin]%elem_of_cons; [done|by apply Hall].
Qed.

(** What [Validate] accepts, whatever order the binaries are visited in. *)
Lemma Validate_None `{RangeOrder} m :
  Validate (Some m) = None <->
  IsValid (mf_Channel m) = true /\ mf_Version m <> "" /\ mf_Tag m <> "" /\
  mf_DownloadBase m <> "" /\ mf_Binaries m <> ∅ /\
  forall name b, mf_Binaries m !! name = Some b ->
    slen (SHA256 b) = 64%Z /\ is_Some (hex_decode (bytes (SHA256 b))) /\ (0 < Size b)%Z.
Proof.
  unfold Validate. destruct (IsValid (mf_Channel m)); cbn [negb]; [|naive_solver].
  do 3 (case_bool_decide; [naive_solver|]).
  case_bool_decide as Hsize; rewrite map_size_empty_iff in Hsize; [naive_solver|].
  rewrite validateBinaries_None. setoid_rewrite elem_of_range.
  setoid_rewrite validateBinary_None. naive_solver.
Qed.

(** Every cached manifest passed validation. *)
Definition cache_ok `{RangeOrder} (f : Fetcher) : Prop :=
  forall url e, f_cache f !! url = Some e -> Validate (Some (ce_manifest e)) = None.

Section fetching.
  Context `{RangeOrder}.

Lemma fetch_valid net url m : fetch net url = Some m -> Validate (Some m) = None.
Proof.
  unfold fetch. destruct (net url) as [[st [m'|]]|]; [|by case_match|done].
  destruct (negb _); [done|]. destruct (Validate (Some m')) eqn:E; [done|]. by intros [= <-].
Qed.

Lemma store_ok f url m now : cache_ok f -> Validate (Some m) = None -> cache_ok (store f url m now).
Proof.
  intros Hf Hm u e. cbn. rewrite lookup_insert. case_decide; [|by apply Hf].
  by intros [= <-].
Qed.

(** The fetcher hands out validated manifests only, keeps only such in its cache, answers from
    the cache without touching the network while the entry is younger than the lifetime, and once a
    URL has been fetched never fails for it again, whatever the network does. *)
Theorem GetURL_spec f net now now' url r f' :
  GetURL f net now now' url = (r, f') -> cache_ok f ->
  cache_ok f' /\
  (forall m, r = Some m -> Validate (Some m) = None) /\
  (forall e, f_cache f !! url = Some e ->
     is_Some r /\
     ((now - ce_fetched e < (if (f_CacheTTL f <=? 0)%Z then DefaultCacheTTL else f_CacheTTL f))%Z ->
      r = Some (ce_manifest e) /\ f' = f)) /\
  (r <> None -> is_Some (f_cache f' !! url)) /\
  (forall u, u <> url -> f_cache f' !! u = f_cache f !! u).
Proof.
  unfold GetURL. intros Hget Hok.
  destruct (f_cache f !! url) as [e|] eqn:He.
  - destruct (Z.ltb_spec (now - ce_fetched e)
      (if (f_CacheTTL f <=? 0)%Z then DefaultCacheTTL else f_CacheTTL f)) as [Hlt|Hge].
    + injection Hget as <- <-. split_and!; [done| | |by rewrite He|done].
      * intros m [= <-]. by eapply Hok.
      * intros e' [= <-]. by split.
    + destruct (fetch net url) as [m|] eqn:Hf; injection Hget as <- <-.
      * apply fetch_valid in Hf. split_and!; [by apply store_ok|by intros m' [= <-]| | |].
        -- intros e' [= <-]. split; [done|]. lia.
        -- intros _. cbn. by rewrite lookup_insert_eq.
        -- intros u Hu. cbn. by rewrite lookup_insert_ne.
      * split_and!; [done| | |by rewrite He|done].
        -- intros m [= <-]. by eapply Hok.
        -- intros e' [= <-]. split; [done|]. lia.
  - destruct (fetch net url) as [m|] eqn:Hf; injection Hget as <- <-.
    + apply fetch_valid in Hf. split_and!; [by apply store_ok|by intros m' [= <-]|done| |].
      * intros _. cbn. by rewrite lookup_insert_eq.
      * intros u Hu. cbn. by rewrite lookup_insert_ne.
    + by split_and!.
Qed.
End fetching.

(** A manifest the release pipeline could have published. *)
Definition demo_manifest : Manifest :=
  MkManifest "beta" "v0.9.0-beta.2" "v0.9.0-beta.2" 0 "https://example.org/d/"
    {["telad" := MkBinaryEntry
       "ba7816bf8f01cfea414140de5dae2223b00361a396177a9cb410ff61f20015ad" 3]}.

Lemma GetURL_spec_witness :
  let f := MkFetcher "" 0 {["u" := CacheEntry demo_manifest 100]} in
  fst (GetURL f (fun _ => None) 100 100 "u") = Some demo_manifest.
Proof.
  refine (proj1 (proj2 (proj1 (proj2 (proj2 (GetURL_spec
    (MkFetcher "" 0 {["u" := CacheEntry demo_manifest 100]}) (fun _ => None) 100 100 "u" _ _
    (surjective_pairing _) _))) (CacheEntry demo_manifest 100) _) _)).
  - intros url e He. cbn [f_cache] in He.
    apply lookup_singleton_Some in He as [_ <-]. by vm_compute.
  - apply lookup_singleton_eq.
  - cbn. unfold DefaultCacheTTL. lia.
Defined.

(** ** The verified download *)

(** The acceptance test, for the entries of validated manifests. *)
Lemma VerifyReader_ok `{RangeOrder} m name b data fails :
  Validate (Some m) = None -> mf_Binaries m !! name = Some b ->
  (fst (VerifyReader data fails (SHA256 b) (Size b)) = None <->
   fails = false /\ Z.of_nat (length data) = Size b /\
   hex_decode (bytes (SHA256 b)) = Some (sha256 data)) /\
  snd (VerifyReader data fails (SHA256 b) (Size b)) = data.
Proof.
  intros Hv Hb. apply Validate_None in Hv as (_ & _ & _ & _ & _ & Hbin).
  destruct (Hbin name b Hb) as (_ & [d Hd] & Hsize). split; [|done].
  assert (equal_fold (of_bytes (hex_encode (sha256 data))) (SHA256 b) = true <-> d = sha256 data)
    as Hfold.
  { rewrite equal_fold_spec. unfold to_lower. rewrite bytes_of_bytes.
    pose proof (sha256_bytes data) as Hs. pose proof (hex_decode_encode _ Hs) as He.
    destruct (hex_decode_Some _ _ Hd) as [Hlow Hdb]. destruct (hex_decode_Some _ _ He) as [Hlow' _].
    rewrite Hlow, Hlow'. split; [|by intros ->].
    intros E. apply of_bytes_inj in E. symmetry. by apply hex_encode_inj. }
  rewrite Hd. unfold VerifyReader. cbn [fst].
  destruct fails; [naive_solver|]. destruct (Z.ltb_spec 0 (Size b)); [|lia]. cbn [andb].
  destruct (Z.eqb_spec (Z.of_nat (length data)) (Size b)); cbn [negb]; [|naive_solver].
  destruct (equal_fold _ _); cbn [negb]; naive_solver.
Qed.

(** A download for an entry of a validated manifest is accepted exactly when it was read to
    its end, has the listed size, and its SHA-256 is the listed digest, in whatever letter case the
    manifest spells it; everything read reaches the writer either way. *)
Theorem VerifyReader_spec `{RangeOrder} m name b data fails :
  Validate (Some m) = None -> mf_Binaries m !! name = Some b ->
  (fst (VerifyReader data fails (SHA256 b) (Size b)) = None <->
   fails = false /\ Z.of_nat (length data) = Size b /\
   hex_decode (bytes (SHA256 b)) = Some (sha256 data)) /\
  snd (VerifyReader data fails (SHA256 b) (Size b)) = data.
Proof. apply VerifyReader_ok. Qed.

Lemma VerifyReader_spec_witness :
  fst (VerifyReader [97; 98; 99]%Z false
         "ba7816bf8f01cfea414140de5dae2223b00361a396177a9cb410ff61f20015ad" 3) = None.
Proof.
  refine (proj2 (proj1 (VerifyReader_spec demo_manifest "telad" _ _ _ _ (lookup_singleton_eq _ _))) _).
  - by vm_compute.
  - split_and!; [reflexivity|reflexivity|by vm_compute].
Defined.
