(* ===== verification/Portals.v ===== *)
(** * Portal registrations ([internal/hub/hub.go], [internal/hub/admin_api.go])

    Discovery and registration with a portal over HTTP, the bootstrap from the environment, the
    admin endpoint [/api/admin/portals], and the viewer-token sync.  The portal is the
    environment: it answers each exchange with a transport error or a status and a body. *)

From S2P Require Import Prelude Auth Http HubConfig AdminState.
From Stdlib Require Import ZArith Lia Ascii String.
From stdpp Require Import base gmap strings list fin_maps.

(** One outgoing request. *)
Record outgoing := Outgoing {
  out_Method : string;
  out_URL : string;
  out_Bearer : string;                    (** empty when no Authorization header is set *)
  out_Payload : list (string * string)
}.

(** What comes of it: the URL does not parse, no reply, or a status and a body. *)
Inductive exchange := ExBadRequest | ExFailed | ExReply (status : Z) (body : reqBody).
Definition portalNet := outgoing -> exchange.

(** A [bool] field of a decoded struct. *)
Fixpoint decode_bool (name : string) (kvs : list (string * json)) (v ok : bool) : bool * bool :=
  match kvs with
  | [] => (v, ok)
  | (k, j) :: kvs' =>
      if equal_fold k name then
        match j with
        | JBool b => decode_bool name kvs' b ok
        | JNull => decode_bool name kvs' v ok
        | _ => decode_bool name kvs' v false
        end
      else decode_bool name kvs' v ok
  end.

(** The other fields of [telaWellKnown] only decide whether the document decodes, and what is
    logged. *)
Definition discoverHubDirectory (net : portalNet) (baseURL token : string) : string :=
  let fallback := "/api/hubs" in
  let wkURL := trim_slashes baseURL +:+ "/.well-known/tela" in
  match net (Outgoing "GET" wkURL token []) with
  | ExReply 200 body =>
      match json_fields body with
      | None => fallback
      | Some kvs =>
          let '(dir, ok1) := decode_string "hub_directory" kvs "" true in
          let '(_, ok2) := decode_string "protocolVersion" kvs "" true in
          let '(_, ok3) := decode_strings "supportedVersions" kvs [] true in
          let '(_, ok4) := decode_strings "capabilities" kvs [] true in
          if negb (ok1 && ok2 && ok3 && ok4) then fallback
          else if dir =s "" then fallback else dir
      end
  | _ => fallback
  end.

Inductive registerError :=
  | ErrBuildRequest | ErrUnreachable | ErrUnauthorized | ErrStatus (code : Z)
  | ErrDecode | ErrNoSyncToken.

Record registerResult := RegisterResult { rr_Entry : portalEntry; rr_Updated : bool }.

Definition withScheme (url : string) : string :=
  if negb (has_prefix url "http://") && negb (has_prefix url "https://")
  then "https://" +:+ url else url.

(** The fields of the registration payload, in the order they are put into the map. *)
Definition registerPayload (hubID regHubName regHubURL viewerToken : string)
    : list (string * string) :=
  [("name", regHubName); ("url", regHubURL)] ++
  (if hubID <>s "" then [("hubId", hubID)] else []) ++
  (if viewerToken <>s "" then [("viewerToken", viewerToken)] else []).

Definition registerWithPortal (net : portalNet) (hubID : string)
    (portalURL adminToken regHubName regHubURL viewerToken : string)
    : registerError + registerResult :=
  let portalURL := withScheme (trim_slashes portalURL) in
  let hubDirectory := discoverHubDirectory net portalURL adminToken in
  match net (Outgoing "POST" (portalURL +:+ hubDirectory) adminToken
               (registerPayload hubID regHubName regHubURL viewerToken)) with
  | ExBadRequest => inl ErrBuildRequest
  | ExFailed => inl ErrUnreachable
  | ExReply code body =>
      if (code =? 401)%Z then inl ErrUnauthorized
      else if (code <? 200)%Z || (300 <=? code)%Z then inl (ErrStatus code)
      else match json_fields body with
           | None => inl ErrDecode
           | Some kvs =>
               let '(updated, ok1) := decode_bool "updated" kvs false true in
               let '(syncToken, ok2) := decode_string "syncToken" kvs "" true in
               if negb (ok1 && ok2) then inl ErrDecode
               else if syncToken =s "" then inl ErrNoSyncToken
               else inr (RegisterResult (PortalEntry portalURL "" syncToken hubDirectory) updated)
           end
  end.

Section portals.
  Context `{RangeOrder}.
  Context (net : portalNet) (hubID hubName : string).   (** the globals *)

(** The environment variables the bootstrap reads. *)
Record portalEnv := PortalEnv {
  penv_PORTAL_URL : string;
  penv_PORTAL_TOKEN : string;
  penv_PUBLIC_URL : string;
  penv_NAME : string
}.

Definition bootstrapPortalsFromEnv (pe : portalEnv) (auth : authStore) (cfg : hubConfig)
    (cfgPath : string) : bool * hubConfig * option hubConfig :=
  if penv_PORTAL_URL pe =s "" then (false, cfg, None)
  else if (0 <? size (hc_Portals cfg))%nat then (false, cfg, None)
  else
    let regHubName := if hc_Name cfg =s "" then penv_NAME pe else hc_Name cfg in
    if (penv_PUBLIC_URL pe =s "") || (regHubName =s "") then (false, cfg, None)
    else match registerWithPortal net hubID (penv_PORTAL_URL pe) (penv_PORTAL_TOKEN pe) regHubName
                 (penv_PUBLIC_URL pe) (consoleViewerToken auth) with
         | inl _ => (false, cfg, None)
         | inr result =>
             let cfg := set_Portals cfg (<["default" := rr_Entry result]> (hc_Portals cfg)) in
             (true, cfg, if cfgPath <>s "" then Some cfg else None)
         end.

(** ** The admin endpoint *)

Definition cfg_portals (st : hubState) : gmap string portalEntry := hc_Portals (globalCfg st).
Definition with_portals (st : hubState) (p : gmap string portalEntry) : hubState :=
  with_cfg st (set_Portals (globalCfg st) p).

Definition adminListPortals (st : hubState) : response * hubState :=
  let view kv := AdminPortalView (fst kv) (pe_URL (snd kv)) (pe_HubDirectory (snd kv))
    (pe_SyncToken (snd kv) <>s "") in
  (reply 200 (PPortals (map view (range (cfg_portals st)))), st).

Definition registerErrorText (e : registerError) : string :=
  match e with
  | ErrBuildRequest => "build request"
  | ErrUnreachable => "could not reach"
  | ErrUnauthorized => "unauthorized. Check your API token"
  | ErrStatus c => "portal returned HTTP " +:+ Itoa c
  | ErrDecode => "decode portal response"
  | ErrNoSyncToken => "portal returned no syncToken"
  end.

Definition adminAddPortal (env : environ) (st : hubState) (r : request) : response * hubState :=
  match json_fields (r_Body r) with
  | None => (errorReply 400 "name, portalUrl, and hubUrl are required", st)
  | Some kvs =>
      let '(name, ok1) := decode_string "name" kvs "" true in
      let '(portalURL, ok2) := decode_string "portalUrl" kvs "" true in
      let '(portalToken, ok3) := decode_string "portalToken" kvs "" true in
      let '(hubURL, ok4) := decode_string "hubUrl" kvs "" true in
      if negb (ok1 && ok2 && ok3 && ok4) || (name =s "") || (portalURL =s "") || (hubURL =s "")
      then (errorReply 400 "name, portalUrl, and hubUrl are required", st)
      else
        let regHubName := if hc_Name (globalCfg st) =s "" then hubName else hc_Name (globalCfg st) in
        if regHubName =s "" then
          (errorReply 400 "hub name not configured (set HUB_NAME or name in config)", st)
        else
          match registerWithPortal net hubID portalURL portalToken regHubName hubURL
                  (consoleViewerToken (globalAuth st)) with
          | inl err => (errorReply 502 (registerErrorText err), st)
          | inr result =>
              let entry := rr_Entry result in
              let st := with_portals st (<[name := entry]> (cfg_portals st)) in
              let '(_, st) := persistConfig env st in
              (reply 201 (PPortalAdded (rr_Updated result) name (pe_URL entry)
                            (pe_HubDirectory entry) (pe_SyncToken entry <>s "")), st)
          end
  end.

Definition adminRemovePortal (env : environ) (st : hubState) (name : string)
    : response * hubState :=
  if name =s "" then (errorReply 400 "name query param is required", st)
  else match cfg_portals st !! name with
       | None => (errorReply 404 "portal not found", st)
       | Some _ =>
           let st := with_portals st (delete name (cfg_portals st)) in
           let '(_, st) := persistConfig env st in
           (reply 200 (PRemoved name), st)
       end.

Definition handleAdminPortals (env : environ) (st : hubState) (r : request)
    : response * hubState :=
  if r_Method r =s "OPTIONS" then (reply 204 PNone, st)
  else match requireOwnerOrAdmin env st r with
       | None => (forbidden, st)
       | Some _ =>
           let pathName :=
             let p := trim_prefix (r_Path r) "/api/admin/portals/" in
             if p =s r_Path r then "" else p in
           if r_Method r =s "GET" then adminListPortals st
           else if r_Method r =s "POST" then adminAddPortal env st r
           else if r_Method r =s "DELETE" then
             (* a name in the path replaces the query before it is read *)
             adminRemovePortal env st (if pathName <>s "" then pathName else query_get r "name")
           else (reply 405 PNone, st)
       end.

(** ** Sync: the requests [syncViewerTokenToPortals] sends, in the order of the range. *)

Definition syncRequest (name viewerToken : string) (p : portalEntry) : outgoing :=
  Outgoing "PATCH" (pe_URL p +:+ pe_HubDirectory p +:+ "/sync") (pe_SyncToken p)
    [("name", name); ("viewerToken", viewerToken)].

Definition syncViewerTokenToPortals (st : hubState) : list outgoing :=
  let name := if hc_Name (globalCfg st) =s "" then hubName else hc_Name (globalCfg st) in
  if name =s "" then []
  else
    let viewerToken := consoleViewerToken (globalAuth st) in
    if viewerToken =s "" then []
    else omap (fun kv => if pe_SyncToken (snd kv) =s "" then None
                         else Some (syncRequest name viewerToken (snd kv)))
           (range (cfg_portals st)).

(** ** Registration *)

Lemma registerWithPortal_ok url adminToken name huburl viewer res :
  registerWithPortal net hubID url adminToken name huburl viewer = inr res ->
  let e := rr_Entry res in
  pe_Token e = "" /\ pe_SyncToken e <> "" /\
  pe_URL e = withScheme (trim_slashes url) /\
  (has_prefix (pe_URL e) "http://" = true \/ has_prefix (pe_URL e) "https://" = true) /\
  pe_HubDirectory e = discoverHubDirectory net (pe_URL e) adminToken /\ pe_HubDirectory e <> "" /\
  exists code body, net (Outgoing "POST" (pe_URL e +:+ pe_HubDirectory e) adminToken
                           (registerPayload hubID name huburl viewer)) = ExReply code body /\
                    (200 <= code < 300)%Z.
Proof.
  unfold registerWithPortal. cbv zeta.
  assert (forall b t, discoverHubDirectory net b t <> "") as Hdir.
  { intros b t. unfold discoverHubDirectory.
    destruct (net _) as [| |code body]; [done..|].
    repeat (case_match; try done). by prop_bool. }
  set (u := withScheme (trim_slashes url)).
  assert (has_prefix u "http://" = true \/ has_prefix u "https://" = true) as Hscheme.
  { unfold u, withScheme. generalize (trim_slashes url). intros v.
    destruct (has_prefix v "http://") eqn:E1; cbn [negb andb]; [by left|].
    destruct (has_prefix v "https://") eqn:E2; cbn [negb]; [by right|].
    right. apply has_prefix_iff. by exists v. }
  destruct (net _) as [| |code body] eqn:Hnet; [done..|].
  destruct (Z.eqb_spec code 401); [done|].
  destruct ((code <? 200)%Z || (300 <=? code)%Z) eqn:Hcode; [done|].
  destruct (json_fields body) as [kvs|]; [|done].
  destruct (decode_bool "updated" kvs false true) as [upd ok1].
  destruct (decode_string "syncToken" kvs "" true) as [tok ok2].
  destruct (negb _); [done|]. case_bool_decide as Ht; [done|]. intros [= <-]. cbn.
  split_and!; try done. exists code, body. split; [done|]. prop_bool. lia.
Qed.

Lemma registerWithPortal_stored url adminToken name huburl viewer res :
  registerWithPortal net hubID url adminToken name huburl viewer = inr res ->
  pe_Token (rr_Entry res) = "" /\ pe_SyncToken (rr_Entry res) <> "".
Proof. intros Hr. by apply registerWithPortal_ok in Hr as (? & ? & _). Qed.

(** What a registration stores is safe to keep: the entry has no admin token, a sync token the
    portal issued, an http or https URL and the directory that URL advertises, and the portal
    accepted the registration, sent to URL and directory, with a 2xx status. *)
Theorem registerWithPortal_spec url adminToken name huburl viewer res :
  registerWithPortal net hubID url adminToken name huburl viewer = inr res ->
  let e := rr_Entry res in
  pe_Token e = "" /\ pe_SyncToken e <> "" /\
  pe_URL e = withScheme (trim_slashes url) /\
  (has_prefix (pe_URL e) "http://" = true \/ has_prefix (pe_URL e) "https://" = true) /\
  pe_HubDirectory e = discoverHubDirectory net (pe_URL e) adminToken /\ pe_HubDirectory e <> "" /\
  exists code body, net (Outgoing "POST" (pe_URL e +:+ pe_HubDirectory e) adminToken
                           (registerPayload hubID name huburl viewer)) = ExReply code body /\
                    (200 <= code < 300)%Z.
Proof. apply registerWithPortal_ok. Qed.

End portals.

(** ** Portal operations on the hub's state *)

Section outcomes.
  Context `{RangeOrder} (net : portalNet) (hubID hubName : string).

(** What a portal request leaves alone: every access decision and every counter. *)
Definition access_unchanged (st st' : hubState) : Prop :=
  hc_Auth (globalCfg st') = hc_Auth (globalCfg st) /\ versions st' = versions st /\
  (coherent st -> globalAuth st' = globalAuth st).

Lemma persist_access env st ok st' p :
  persistConfig env (with_portals st p) = (ok, st') ->
  cfg_portals st' = p /\ access_unchanged st st'.
Proof.
  intros Hp. apply persistConfig_spec in Hp as (Hc & Hv & _ & Ha & _). cbn in *.
  unfold cfg_portals, access_unchanged. rewrite Hc, Ha. cbn. split_and!; try done.
Qed.

(** The portal table behaves as a map under the admin endpoint: a successful add stores one
    entry without an admin token and leaves the others, a successful removal deletes exactly the
    named entry, every other outcome leaves the table as it was; and no portal request changes an
    identity, an ACL, a counter or an access decision. *)
Theorem handleAdminPortals_spec env st r resp st' :
  handleAdminPortals net hubID hubName env st r = (resp, st') ->
  access_unchanged st st' /\
  (cfg_portals st' = cfg_portals st \/
   (exists name e, status resp = 201%Z /\ name <> "" /\ pe_Token e = "" /\ pe_SyncToken e <> "" /\
      cfg_portals st' = <[name := e]> (cfg_portals st)) \/
   (exists name, status resp = 200%Z /\ is_Some (cfg_portals st !! name) /\
      cfg_portals st' = delete name (cfg_portals st))).
Proof.
  assert (access_unchanged st st) as Hrefl by (by split).
  unfold handleAdminPortals, adminListPortals. intros Hh.
  destruct (r_Method r =s "OPTIONS"); [injection Hh as <- <-; by auto|].
  destruct (requireOwnerOrAdmin env st r); [|injection Hh as <- <-; by auto].
  destruct (r_Method r =s "GET"); [injection Hh as <- <-; by auto|].
  destruct (r_Method r =s "POST").
  - unfold adminAddPortal in Hh.
    destruct (json_fields _) as [kvs|]; [|injection Hh as <- <-; by auto].
    destruct (decode_string "name" kvs "" true) as [name ok1].
    destruct (decode_string "portalUrl" kvs "" true) as [url ok2].
    destruct (decode_string "portalToken" kvs "" true) as [tok ok3].
    destruct (decode_string "hubUrl" kvs "" true) as [huburl ok4].
    destruct (_ || _) eqn:Hbad in Hh; [injection Hh as <- <-; by auto|].
    destruct (_ =s "") in Hh; [injection Hh as <- <-; by auto|].
    destruct (registerWithPortal _ _ _ _ _ _ _) as [err|res] eqn:Hreg;
      [injection Hh as <- <-; by auto|].
    apply registerWithPortal_stored in Hreg as (Ht & Hs).
    destruct (persistConfig env _) as [ok st2] eqn:Hp. injection Hh as <- <-.
    apply persist_access in Hp as [Hpt Hacc]. split; [done|]. right. left.
    exists name, (rr_Entry res). prop_bool. by split_and!.
  - destruct (r_Method r =s "DELETE"); [|injection Hh as <- <-; by auto].
    unfold adminRemovePortal in Hh. revert Hh.
    generalize (if (if trim_prefix (r_Path r) "/api/admin/portals/" =s r_Path r then "" else
      trim_prefix (r_Path r) "/api/admin/portals/") <>s "" then
      (if trim_prefix (r_Path r) "/api/admin/portals/" =s r_Path r then "" else
      trim_prefix (r_Path r) "/api/admin/portals/") else query_get r "name"). intros name Hh.
    case_bool_decide; [injection Hh as <- <-; by auto|].
    destruct (cfg_portals st !! name) as [e|] eqn:He; [|injection Hh as <- <-; by auto].
    destruct (persistConfig env _) as [ok st2] eqn:Hp. injection Hh as <- <-.
    apply persist_access in Hp as [Hpt Hacc]. split; [done|]. right. right.
    exists name. split_and!; [done|by exists e|done].
Qed.

(** The sync sends the viewer token and each portal's own sync token, and only to that portal. *)
Lemma syncViewerTokenToPortals_sends st o :
  o ∈ syncViewerTokenToPortals hubName st ->
  exists k p, cfg_portals st !! k = Some p /\ pe_SyncToken p <> "" /\
    out_Bearer o = pe_SyncToken p /\ has_prefix (out_URL o) (pe_URL p) = true.
Proof.
  unfold syncViewerTokenToPortals.
  destruct (_ =s ""); [intros Ho; by apply elem_of_nil in Ho|].
  destruct (_ =s ""); [intros Ho; by apply elem_of_nil in Ho|].
  rewrite list_elem_of_omap. intros ([k p] & Hin & Ho). apply elem_of_range in Hin. cbn in Ho.
  case_bool_decide as Ht; [done|]. injection Ho as <-. exists k, p. split_and!; try done.
  apply has_prefix_iff. by eexists.
Qed.
End outcomes.

(** A portal that answers discovery with nothing and registrations with a sync token. *)
Definition demo_portal : portalNet := fun o =>
  if out_Method o =s "POST"
  then ExReply 200 (BodyJson (JObj [("syncToken", JStr "hubsync_1"); ("updated", JBool true)]))
  else ExReply 404 BodyEmpty.

Definition demo_entry : portalEntry := PortalEntry "https://p.example" "" "hubsync_1" "/api/hubs".

Lemma registerWithPortal_spec_witness :
  registerWithPortal demo_portal "id" "p.example//" "secret" "hub" "wss://hub" "" =
    inr (RegisterResult demo_entry true) /\
  pe_Token demo_entry = "".
Proof.
  split; [vm_compute; reflexivity|].
  refine (proj1 (registerWithPortal_spec demo_portal "id" "p.example//" "secret" "hub" "wss://hub"
    "" (RegisterResult demo_entry true) _)).
  vm_compute. reflexivity.
Defined.

Definition portal_hub : hubState := hub_of [row "boss" "boss-token" "owner"] ∅.
Definition portal_post : request :=
  request_of "POST" "/api/admin/portals" "boss-token" ""
    (BodyJson (JObj [("name", JStr "main"); ("portalUrl", JStr "p.example");
                     ("hubUrl", JStr "wss://hub"); ("portalToken", JStr "secret")])).

Lemma handleAdminPortals_spec_witness :
  let '(resp, st') := handleAdminPortals demo_portal "id" "hub" (env_at 5) portal_hub portal_post in
  status resp = 201%Z /\ cfg_portals st' !! "main" = Some demo_entry /\
  access_unchanged portal_hub st'.
Proof.
  split; [vm_compute; reflexivity|]. split; [vm_compute; reflexivity|].
  exact (proj1 (handleAdminPortals_spec demo_portal "id" "hub" (env_at 5) portal_hub portal_post
    _ _ eq_refl)).
Defined.
