(* ===== verification/AdminUpdate.v ===== *)
(** * Self-update of the hub ([internal/hub/admin_api.go])

    The update channel, the [update.sources] map, the update trigger with its downgrade refusal,
    and the staging of a verified download.  The manifest cache is the state of the package-level
    fetcher; the running version is a constant of the process. *)

From S2P Require Import Prelude Auth Http HubConfig AdminState Sha256 Channel.
From Stdlib Require Import ZArith Lia Ascii String.
From stdpp Require Import base gmap strings list fin_maps.

(** What the update endpoints read and write. *)
Record updState := UpdState { us_hub : hubState; us_fetcher : Fetcher }.

Definition cfg_update (st : hubState) : updateConfig := hc_Update (globalCfg st).
Definition with_update (st : hubState) (u : updateConfig) : hubState :=
  with_cfg st (set_Update (globalCfg st) u).
Definition set_Sources (st : hubState) (m : gmap string string) : hubState :=
  with_update st (UpdateConfig (uc_Channel (cfg_update st)) m).

Definition hubChannel (st : hubState) : string * string :=
  let name := Normalize (uc_Channel (cfg_update st)) in
  (name, ResolveBase name (uc_Sources (cfg_update st))).

(** [json.NewDecoder(r.Body).Decode(&req)] into a struct of string fields: [None] for text that is
    not JSON or not an object, the fields otherwise; an empty body ([io.EOF]) leaves all empty. *)
Definition decoder_fields (b : reqBody) : option (list (string * json)) :=
  match b with BodyEmpty => Some [] | _ => json_fields b end.

(** What follows a reply: nothing, an update to a version, or a restart. *)
Inductive followUp := NoFollowUp | StageUpdate (ver : string) | RestartSelf.

Section update.
  Context `{RangeOrder}.
  Context (version : string).   (** the version of the running binary *)

Definition hubLatestRelease (net : network) (now : Z) (st : updState)
    : option string * updState :=
  let '(ch, base) := hubChannel (us_hub st) in
  let '(m, f) := GetURL (us_fetcher st) net now now (ManifestURL base ch) in
  (mf_Version <$> m, UpdState (us_hub st) f).

Definition updateStatus (net : network) (now : Z) (st : updState) : response * updState :=
  let '(ch, base) := hubChannel (us_hub st) in
  let sources := uc_Sources (cfg_update (us_hub st)) in
  match hubLatestRelease net now st with
  | (Some latest, st) =>
      (reply 200 (PChannelStatus ch (ManifestURL base ch) version latest
                    (ShouldOfferUpdate version ch latest) sources false), st)
  | (None, st) =>
      (reply 200 (PChannelStatus ch (ManifestURL base ch) version "" false sources true), st)
  end.

(** The assignments of a PATCH, on the live configuration. *)
Definition patchUpdate (u : updateConfig) (channel manifestBase : string) : updateConfig :=
  let u := if channel <>s "" then UpdateConfig channel (uc_Sources u) else u in
  if manifestBase <>s "" then
    let ch := if channel =s "" then uc_Channel u else channel in
    if ch <>s "" then UpdateConfig (uc_Channel u) (<[ch := manifestBase]> (uc_Sources u)) else u
  else u.

Definition updatePatch (env : environ) (st : updState) (r : request) : response * updState :=
  match decoder_fields (r_Body r) with
  | None => (errorReply 400 "invalid JSON", st)
  | Some kvs =>
      let '(channel, ok1) := decode_string "channel" kvs "" true in
      let '(manifestBase, ok2) := decode_string "manifestBase" kvs "" true in
      if negb (ok1 && ok2) then (errorReply 400 "invalid JSON", st)
      else
        let channel := trim_space (to_lower channel) in
        if (channel <>s "") && negb (IsValid channel) then
          (errorReply 400 ("invalid channel name: " +:+ channel), st)
        else
          let hub := with_update (us_hub st)
                       (patchUpdate (cfg_update (us_hub st)) channel manifestBase) in
          let '(ok, hub) := persistConfig env hub in
          let st := UpdState hub (us_fetcher st) in
          if negb ok then (errorReply 500 "persist config", st)
          else
            let '(ch, base) := hubChannel hub in
            (reply 200 (PChannelSet ch (ManifestURL base ch)), st)
  end.

(** The version to move to, then the guards, in the order of the source. *)
Definition updateTrigger (net : network) (now : Z) (st : updState) (r : request)
    : response * updState * followUp :=
  let ver :=
    match json_fields (r_Body r) with
    | Some kvs => fst (decode_string "version" kvs "" true)
    | None => ""
    end in
  let explicitVersion := (ver <>s "") && (ver <>s "latest") in
  let '(resolved, st) :=
    if (ver =s "") || (ver =s "latest") then hubLatestRelease net now st
    else (Some ver, st) in
  match resolved with
  | None => (errorReply 502 "failed to query latest release", st, NoFollowUp)
  | Some ver =>
      if (ver =s version) && (version <>s "dev") then
        (reply 200 (PMessage ("already running " +:+ ver)), st, NoFollowUp)
      else
        let '(targetCh, _) := hubChannel (us_hub st) in
        if negb explicitVersion && (version <>s "dev") && negb (IsCrossChannel version targetCh)
           && negb (IsNewer ver version) then
          (errorReply 409 ("latest version on channel is " +:+ ver +:+
             ", older than currently running " +:+ version +:+
             "; specify an explicit version to downgrade"), st, NoFollowUp)
        else (reply 200 (PMessage ("updating to " +:+ ver)), st, StageUpdate ver)
  end.

Definition handleAdminUpdate (env : environ) (net : network) (st : updState) (r : request)
    : response * updState * followUp :=
  if r_Method r =s "OPTIONS" then (reply 204 PNone, st, NoFollowUp)
  else match requireOwnerOrAdmin env (us_hub st) r with
       | None => (forbidden, st, NoFollowUp)
       | Some _ =>
           if r_Method r =s "GET" then (updateStatus net (env_now env) st, NoFollowUp)
           else if r_Method r =s "PATCH" then (updatePatch env st r, NoFollowUp)
           else if r_Method r =s "POST" then updateTrigger net (env_now env) st r
           else (errorReply 405 "method not allowed", st, NoFollowUp)
       end.

(** ** Sources *)

(** The text before the last occurrence of a byte, [None] when it does not occur. *)
Definition before_last (c : ascii) (s : string) : option string :=
  match cut_bytes [c] (rev (bytes s)) with
  | Some (_, b) => Some (of_bytes (rev b))
  | None => None
  end.

Definition sourceBase (base : string) : string :=
  let base := trim_right_with (fun c => Ascii.eqb c "/") (trim_space base) in
  if has_suffix base ".json" then default base (before_last "/" base) else base.

Definition putSource (env : environ) (st : hubState) (r : request) (name : string)
    : response * hubState :=
  if name =s "" then (errorReply 400 "PUT requires /api/admin/update/sources/{name}", st)
  else if negb (IsValid name) then (errorReply 400 ("invalid channel name: " +:+ name), st)
  else match decoder_fields (r_Body r) with
       | None => (errorReply 400 "invalid JSON", st)
       | Some kvs =>
           let '(b, ok) := decode_string "base" kvs "" true in
           if negb ok then (errorReply 400 "invalid JSON", st)
           else
             let base := sourceBase b in
             let st := set_Sources st (<[name := base]> (uc_Sources (cfg_update st))) in
             let '(written, st) := persistConfig env st in
             if negb written then (errorReply 500 "persist config", st)
             else (reply 200 (PSourceSet name base), st)
       end.

Definition deleteSource (env : environ) (st : hubState) (name : string) : response * hubState :=
  if name =s "" then (errorReply 400 "DELETE requires /api/admin/update/sources/{name}", st)
  else
    let exists_ := bool_decide (is_Some (uc_Sources (cfg_update st) !! name)) in
    let st := set_Sources st (delete name (uc_Sources (cfg_update st))) in
    if negb exists_ then (errorReply 404 ("no source entry for channel " +:+ name), st)
    else
      let '(written, st) := persistConfig env st in
      if negb written then (errorReply 500 "persist config", st)
      else (reply 200 (PRemoved name), st).

Definition handleAdminUpdateSources (env : environ) (st : hubState) (r : request)
    : response * hubState :=
  if r_Method r =s "OPTIONS" then (reply 204 PNone, st)
  else match requireOwnerOrAdmin env st r with
       | None => (forbidden, st)
       | Some _ =>
           let rest := trim_prefix (trim_prefix (r_Path r) "/api/admin/update/sources") "/" in
           let name := trim_space (to_lower rest) in
           if r_Method r =s "GET" then
             if name <>s "" then
               (errorReply 400 "GET /api/admin/update/sources/{name} not supported; GET the collection instead", st)
             else (reply 200 (PSources (uc_Sources (cfg_update st))), st)
           else if r_Method r =s "PUT" then putSource env st r name
           else if r_Method r =s "DELETE" then deleteSource env st name
           else (errorReply 405 "method not allowed", st)
       end.

(** ** Staging *)

(** The file system as the staging sees it: where the executable is, whether a temporary file can
    be created next to it and renamed over it. *)
Record exeEnv := ExeEnv {
  exe_found : bool;
  exe_canCreateTemp : bool;
  exe_canRename : bool;
  exe_binaryName : string        (** telahubd-GOOS-GOARCH, with the platform's extension *)
}.

Inductive stageError :=
  | StNoExecutable | StFetch | StNotCurrent (current : string) | StNoBinary | StDownload
  | StHTTP (code : Z) | StTempFile | StVerify (e : verifyError) | StRename.

(** From the manifest on, the hub, the agent and the client do the same.  [download] is a GET of a
    binary: a transport error, or the status, the bytes read and whether reading then failed.  The
    result is the error, or the bytes now installed as the executable.  This is the path of every
    platform but windows. *)
Definition installFrom (fs : exeEnv) (download : string -> option (Z * list Z * bool)) (m : Manifest) (ver : string)
    : stageError + list Z :=
  if ver <>s mf_Version m then inl (StNotCurrent (mf_Version m))
  else match mf_Binaries m !! exe_binaryName fs with
       | None => inl StNoBinary
       | Some entry =>
           match download (BinaryURL (Some m) (exe_binaryName fs)) with
           | None => inl StDownload
           | Some (code, data, readFails) =>
               if negb (code =? 200)%Z then inl (StHTTP code)
               else if negb (exe_canCreateTemp fs) then inl StTempFile
               else match VerifyReader data readFails (SHA256 entry) (Channel.Size entry) with
                    | (Some e, _) => inl (StVerify e)
                    | (None, written) =>
                        if negb (exe_canRename fs) then inl StRename else inr written
                    end
           end
       end.

Definition hubDownloadAndStage (fs : exeEnv) (net : network)
    (download : string -> option (Z * list Z * bool)) (now : Z) (st : updState) (ver : string)
    : (stageError + list Z) * updState :=
  if negb (exe_found fs) then (inl StNoExecutable, st)
  else
    let '(ch, base) := hubChannel (us_hub st) in
    let '(m, f) := Fetch (us_fetcher st) net now (ManifestURL base ch) in
    let st := UpdState (us_hub st) f in
    match m with
    | None => (inl StFetch, st)
    | Some m => (installFrom fs download m ver, st)
    end.

(** ** Restart *)

Definition handleAdminRestart (env : environ) (st : hubState) (r : request)
    : response * followUp :=
  if r_Method r =s "OPTIONS" then (reply 204 PNone, NoFollowUp)
  else match requireOwnerOrAdmin env st r with
       | None => (forbidden, NoFollowUp)
       | Some _ =>
           if r_Method r <>s "POST" then (errorReply 405 "method not allowed", NoFollowUp)
           else (reply 200 (PMessage "restarting"), RestartSelf)
       end.

End update.

(** ** The installed binary *)

Lemma installFrom_verified `{RangeOrder} fs net download url m ver data :
  fetch net url = Some m -> installFrom fs download m ver = inr data ->
  exists entry,
    Validate (Some m) = None /\ mf_Version m = ver /\ mf_Binaries m !! exe_binaryName fs = Some entry /\
    download (BinaryURL (Some m) (exe_binaryName fs)) = Some (200%Z, data, false) /\
    Z.of_nat (length data) = Channel.Size entry /\
    hex_decode (bytes (SHA256 entry)) = Some (sha256 data).
Proof.
  intros Hf. unfold installFrom. case_bool_decide as Hver; cbn [negb]; [|done].
  destruct (mf_Binaries m !! exe_binaryName fs) as [entry|] eqn:He; [|done].
  destruct (download _) as [[[code d] fails]|] eqn:Hd; [|done].
  destruct (Z.eqb_spec code 200) as [->|]; cbn [negb]; [|done].
  destruct (exe_canCreateTemp fs); cbn [negb]; [|done].
  pose proof (fetch_valid _ _ _ Hf) as Hv.
  destruct (VerifyReader_ok m (exe_binaryName fs) entry d fails Hv He) as [Hacc Hsnd].
  destruct (VerifyReader d fails _ _) as [[e|] written]; [done|]. cbn in Hacc, Hsnd.
  destruct (exe_canRename fs); cbn [negb]; [|done]. intros [= <-]. subst written.
  destruct (proj1 Hacc eq_refl) as (-> & Hl & Hsha). exists entry. by split_and!.
Qed.

(** Nothing unverified is installed: the bytes that replace the executable were downloaded
    from the URL of the hub's channel manifest's download base, that manifest was fetched now and
    passed validation, it names the requested version, and the bytes have the listed size and
    SHA-256. *)
Theorem staged_verified `{RangeOrder} fs net download now st ver data st' :
  hubDownloadAndStage fs net download now st ver = (inr data, st') ->
  let '(ch, base) := hubChannel (us_hub st) in
  exists m entry,
    fetch net (ManifestURL base ch) = Some m /\ Validate (Some m) = None /\
    mf_Version m = ver /\ mf_Binaries m !! exe_binaryName fs = Some entry /\
    download (BinaryURL (Some m) (exe_binaryName fs)) = Some (200%Z, data, false) /\
    Z.of_nat (length data) = Channel.Size entry /\
    hex_decode (bytes (SHA256 entry)) = Some (sha256 data).
Proof.
  unfold hubDownloadAndStage, Fetch. destruct (exe_found fs); cbn [negb]; [|done].
  destruct (hubChannel (us_hub st)) as [ch base].
  destruct (fetch net (ManifestURL base ch)) as [m|] eqn:Hf; [|done]. intros [= Hi <-].
  destruct (installFrom_verified _ _ _ _ _ _ _ Hf Hi) as (entry & Hv & Hrest). exists m, entry.
  split; [done|]. split; [done|exact Hrest].
Qed.

(** ** The update trigger *)

(** What passes the downgrade guard on the channel of the running version is newer. *)
Lemma unguarded_newer version ver name :
  version <> "dev" -> InferFromVersion version = Normalize name ->
  (version <>s "dev") && negb (IsCrossChannel version (Normalize name)) && negb (IsNewer ver version) = false ->
  (CompareVersions version ver < 0)%Z.
Proof.
  intros Hdev Hinf Hguard. rewrite (bool_decide_false (version = "dev")) in Hguard by done. cbn [negb andb] in Hguard.
  assert (IsCrossChannel version (Normalize name) = false) as Hcross.
  { unfold IsCrossChannel. rewrite Hinf.
    rewrite (Normalize_id (Normalize _)) by apply Normalize_valid.
    rewrite (bool_decide_true (Normalize _ = Normalize _)) by done.
    match goal with |- (if ?b then _ else _) = _ => by destruct b end. }
  rewrite Hcross in Hguard. cbn [negb andb] in Hguard. apply negb_false_iff in Hguard.
  unfold IsNewer in Hguard. destruct (_ || _) in Hguard; [done|].
  apply Z.ltb_lt in Hguard. rewrite (CompareVersions_antisym ver version). lia.
Qed.

Section trigger.
  Context `{RangeOrder} (version : string).

Lemma hubLatestRelease_hub net now st r st' :
  hubLatestRelease net now st = (r, st') -> us_hub st' = us_hub st.
Proof.
  unfold hubLatestRelease. destruct (hubChannel _) as [ch base].
  destruct (GetURL _ _ _ _ _) as [m f]. by intros [= _ <-].
Qed.

(** A release build never moves backwards on its own: an update that starts without an
    explicit version moves to a version different from the running one, and when that version is
    on the hub's own channel it is strictly newer; no trigger changes the configuration. *)
Theorem no_silent_downgrade net now st r resp st' ver :
  updateTrigger version net now st r = (resp, st', StageUpdate ver) ->
  version <> "dev" -> version <> "" ->
  us_hub st' = us_hub st /\ ver <> version /\
  (fst (decode_string "version" (default [] (json_fields (r_Body r))) "" true) ∈ [""; "latest"] ->
   InferFromVersion version = Normalize (uc_Channel (cfg_update (us_hub st))) ->
   (CompareVersions version ver < 0)%Z).
Proof.
  unfold updateTrigger. intros Htr Hdev Hne.
  replace (match json_fields (r_Body r) with
           | Some kvs => fst (decode_string "version" kvs "" true) | None => "" end)
    with (fst (decode_string "version" (default [] (json_fields (r_Body r))) "" true)) in Htr
    by (by destruct (json_fields (r_Body r))).
  revert Htr. generalize (fst (decode_string "version" (default [] (json_fields (r_Body r))) "" true)).
  intros req Htr.
  destruct (if (req =s "") || (req =s "latest") then _ else _) as [resolved st1] eqn:Hres.
  assert (us_hub st1 = us_hub st) as Hhub.
  { destruct (_ || _) in Hres; [by eapply hubLatestRelease_hub|by injection Hres as _ <-]. }
  destruct resolved as [v|]; [|done].
  destruct (_ && _) eqn:Hsame in Htr; [done|].
  destruct (hubChannel (us_hub st1)) as [ch base] eqn:Hch.
  destruct (_ && _) eqn:Hguard in Htr; [done|]. injection Htr as _ <- <-.
  rewrite (bool_decide_false (version = "dev")) in Hsame by done.
  cbn [negb] in Hsame. rewrite andb_true_r in Hsame. prop_bool.
  split_and!; [done|done|]. intros Hreq Hinf.
  unfold hubChannel in Hch. injection Hch as Hch _. rewrite Hhub in Hch. subst ch.
  assert ((req <>s "") && (req <>s "latest") = false) as Hex.
  { rewrite !elem_of_cons, elem_of_nil in Hreq. destruct Hreq as [-> | [-> | []]]; done. }
  rewrite Hex in Hguard. cbn [negb] in Hguard. by apply (unguarded_newer _ _ _ Hdev Hinf).
Qed.
End trigger.

(** ** Sources *)

Lemma cut_bytes_rev_last (c : ascii) l r :
  c ∉ r -> cut_bytes [c] (rev (l ++ c :: r)) = Some (rev r, rev l).
Proof.
  intros Hr. rewrite rev_app_distr. cbn. rewrite <- app_assoc. cbn. apply cut_bytes_byte.
  intros Hin. apply Hr. apply list_elem_of_In. apply list_elem_of_In in Hin. by apply in_rev.
Qed.

Lemma before_last_app (c : ascii) s t : c ∉ bytes t -> before_last c (s +:+ String c t) = Some s.
Proof.
  intros Ht. unfold before_last. rewrite bytes_app. change (bytes (String c t)) with (c :: bytes t).
  rewrite cut_bytes_rev_last by done. by rewrite rev_involutive, of_bytes_bytes.
Qed.

(** A base the handler stores as it is: no space around it, no slash at its end, and not the
    address of a manifest. *)
Definition clean_base (base : string) : Prop :=
  base <> "" /\ forallb (fun c => negb (is_space c)) (bytes base) = true /\
  trim_right_with (fun c => Ascii.eqb c "/") base = base /\ has_suffix base ".json" = false.

Lemma sourceBase_clean base : clean_base base -> sourceBase base = base.
Proof.
  intros (_ & Ht & Hs & Hj). unfold sourceBase. unfold trim_space.
  by rewrite trim_with_none, Hs, Hj.
Qed.

(** The address of a manifest names the base it is published under. *)
Lemma sourceBase_manifest base name :
  clean_base base -> IsValid name = true ->
  sourceBase (base +:+ "/" +:+ name +:+ ".json") = base.
Proof.
  intros (_ & Ht & _ & _) Hname.
  assert (forall c, c ∈ bytes name -> channel_byte c = true) as Hb by (intros c; by apply IsValid_byte).
  unfold sourceBase, trim_space. rewrite trim_with_none.
  - assert (forall s, trim_right_with (fun c => Ascii.eqb c "/") (s +:+ ".json") = s +:+ ".json")
      as Hjson.
    { intros s. unfold trim_right_with. rewrite bytes_app, rev_app_distr.
      change (rev (bytes ".json")) with ["n"; "o"; "s"; "j"; "."]%char. cbn [app drop_while].
      change (Ascii.eqb "n" "/") with false. cbn match.
      change ("n"%char :: "o"%char :: "s"%char :: "j"%char :: "."%char :: rev (bytes s)) with
        (rev (bytes ".json") ++ rev (bytes s)).
      by rewrite <- rev_app_distr, rev_involutive, <- bytes_app, of_bytes_bytes. }
    assert (base +:+ "/" +:+ name +:+ ".json" = (base +:+ "/" +:+ name) +:+ ".json") as E.
    { apply bytes_inj. rewrite !bytes_app. by rewrite <- !app_assoc. }
    rewrite E, Hjson, (proj2 (has_suffix_iff _ ".json")) by (by eexists). rewrite <- E.
    change ("/" +:+ ?t) with (String "/" t). rewrite before_last_app; [done|].
    rewrite bytes_app, elem_of_app. intros [Hin|Hin].
    + apply Hb in Hin. by vm_compute in Hin.
    + change (bytes ".json") with ["."; "j"; "s"; "o"; "n"]%char in Hin.
      rewrite !elem_of_cons, elem_of_nil in Hin. naive_solver.
  - assert (forallb (fun c => negb (is_space c)) (bytes name) = true) as Hn.
    { apply forallb_forall. intros c Hc.
      apply list_elem_of_In, Hb, channel_byte_cases in Hc as (_ & _ & -> & _). done. }
    rewrite !bytes_app, !forallb_app, Ht, Hn. done.
Qed.

Section sources.
  Context `{RangeOrder}.

Lemma putSource_outcome env st r name resp st' :
  putSource env st r name = (resp, st') ->
  (st' = st /\ status resp = 400%Z) \/
  IsValid name = true /\ exists b,
    uc_Sources (cfg_update st') = <[name := sourceBase b]> (uc_Sources (cfg_update st)) /\
    uc_Channel (cfg_update st') = uc_Channel (cfg_update st) /\
    hc_Auth (globalCfg st') = hc_Auth (globalCfg st) /\
    (status resp = 200%Z /\ body resp = PSourceSet name (sourceBase b) \/
     status resp = 500%Z /\ env_writable env = false).
Proof.
  unfold putSource. intros Hh.
  case_bool_decide; [injection Hh as <- <-; by left|].
  destruct (IsValid name); cbn [negb] in Hh; [|injection Hh as <- <-; by left].
  destruct (decoder_fields _) as [kvs|]; [|injection Hh as <- <-; by left].
  destruct (decode_string "base" kvs "" true) as [b ok].
  destruct (negb ok); [injection Hh as <- <-; by left|].
  destruct (persistConfig env _) as [written st2] eqn:Hp. right. split; [done|]. exists b.
  pose proof Hp as Hw. apply persistConfig_spec in Hp as (Hc & _ & _ & _ & _).
  unfold cfg_update, set_Sources, with_update in *.
  destruct (negb written) eqn:Hn; injection Hh as <- <-; rewrite Hc; cbn; split_and!; try done;
    [right|by left].
  split; [done|]. unfold persistConfig in Hw. cbn in Hw.
  destruct (negb _) in Hw; [|by injection Hw as <- _].
  destruct (env_writable env); [by injection Hw as <- _|done].
Qed.

(** A source that was set is the one its channel resolves to: after a served PUT of a clean
    base, or of the address of the channel's manifest below it, the named channel's manifest is
    looked up below that base, and every other channel resolves as before. *)
Theorem putSource_resolves env st r name base st' resp kvs :
  putSource env st r name = (resp, st') -> status resp = 200%Z -> clean_base base ->
  decoder_fields (r_Body r) = Some kvs ->
  fst (decode_string "base" kvs "" true) ∈ [base; base +:+ "/" +:+ name +:+ ".json"] ->
  ResolveBase name (uc_Sources (cfg_update st')) = base /\
  (has_suffix base "/" = false ->
   ManifestURL (ResolveBase name (uc_Sources (cfg_update st'))) name =
     (base +:+ "/") +:+ name +:+ ".json") /\
  (forall other, other <> name ->
     ResolveBase other (uc_Sources (cfg_update st')) = ResolveBase other (uc_Sources (cfg_update st))).
Proof.
  intros Hput Hs Hclean Hk Hb. pose proof Hput as Hput'.
  apply putSource_outcome in Hput as [[_ Hs']|(Hname & b & Hsrc & _ & _ & Hbody)]; [congruence|].
  destruct Hbody as [[_ Hbody]|[? _]]; [|congruence].
  assert (sourceBase b = base) as Hbase.
  { unfold putSource in Hput'. rewrite Hk in Hput'.
    case_bool_decide; [injection Hput' as <- <-; done|]. rewrite Hname in Hput'. cbn [negb] in Hput'.
    destruct (decode_string "base" kvs "" true) as [b' ok]. cbn [fst] in Hb.
    destruct (negb ok); [by injection Hput' as <- <-|].
    destruct (persistConfig env _) as [written st2].
    destruct (negb written); [by injection Hput' as <- <-|]. injection Hput' as <- <-.
    injection Hbody as <-.
    rewrite !elem_of_cons, elem_of_nil in Hb. destruct Hb as [-> | [-> | []]].
    - by apply sourceBase_clean.
    - by apply sourceBase_manifest. }
  assert (ResolveBase name (uc_Sources (cfg_update st')) = base) as Hres.
  { unfold ResolveBase. rewrite Hsrc, lookup_insert_eq, Hbase.
    destruct Hclean as (Hne & _). by rewrite bool_decide_false. }
  split_and!; [done| |].
  - intros Hslash. rewrite Hres. unfold ManifestURL, with_slash.
    destruct Hclean as (Hne & _). rewrite bool_decide_false by done. rewrite Hslash.
    by rewrite Normalize_id.
  - intros other Ho. unfold ResolveBase. by rewrite Hsrc, lookup_insert_ne.
Qed.

End sources.

(** ** Removing a source

    A removed custom channel resolves to no base at all, and [ManifestURL] reads an empty base as
    the upstream one, so the hub goes on to look the custom channel up there. *)

Definition custom_hub : hubState :=
  with_update (hub_of [row "boss" "boss-token" "owner"] ∅)
    (UpdateConfig "local" {["local" := "https://mirror.example/ch"]}).

Example custom_channel_falls_back_upstream :
  let '(resp, st') := handleAdminUpdateSources (env_at 5) custom_hub
        (request_of "DELETE" "/api/admin/update/sources/local" "boss-token" "" BodyEmpty) in
  status resp = 200%Z /\ hubChannel st' = ("local", "") /\
  ManifestURL (snd (hubChannel st')) "local" = DefaultManifestBase +:+ "local.json".
Proof. vm_compute. repeat split. Qed.

(** ** Evaluated instances *)

Definition beta_hub : updState :=
  UpdState (with_update (hub_of [row "boss" "boss-token" "owner"] ∅) (UpdateConfig "beta" ∅))
    (MkFetcher "" 0 ∅).

(** A network whose every GET yields the demonstration manifest, and a mirror of its binary. *)
Definition demo_net : network := fun _ => Some (200%Z, Some demo_manifest).
Definition demo_mirror : string -> option (Z * list Z * bool) :=
  fun _ => Some (200%Z, [97; 98; 99]%Z, false).
Definition demo_exe : exeEnv := ExeEnv true true true "telad".

Lemma staged_verified_witness :
  exists st', hubDownloadAndStage demo_exe demo_net demo_mirror 5 beta_hub "v0.9.0-beta.2" =
      (inr [97; 98; 99]%Z, st') /\
    fetch demo_net (ManifestURL (snd (hubChannel (us_hub beta_hub))) "beta") = Some demo_manifest.
Proof.
  eexists. split; [vm_compute; reflexivity|].
  destruct (staged_verified demo_exe demo_net demo_mirror 5 beta_hub "v0.9.0-beta.2" [97; 98; 99]%Z
    (snd (hubDownloadAndStage demo_exe demo_net demo_mirror 5 beta_hub "v0.9.0-beta.2")))
    as (m & entry & Hf & _ & Hv & _).
  - vm_compute. reflexivity.
  - vm_compute in Hf. injection Hf as <-. vm_compute. reflexivity.
Defined.

Lemma no_silent_downgrade_witness :
  snd (updateTrigger "v0.9.0-beta.1" demo_net 5 beta_hub
         (request_of "POST" "" "boss-token" "" BodyEmpty)) = StageUpdate "v0.9.0-beta.2" /\
  (CompareVersions "v0.9.0-beta.1" "v0.9.0-beta.2" < 0)%Z.
Proof.
  split; [vm_compute; reflexivity|].
  refine (proj2 (proj2 (no_silent_downgrade "v0.9.0-beta.1" demo_net 5 beta_hub
    (request_of "POST" "" "boss-token" "" BodyEmpty)
    (reply 200 (PMessage "updating to v0.9.0-beta.2"))
    (snd (fst (updateTrigger "v0.9.0-beta.1" demo_net 5 beta_hub
         (request_of "POST" "" "boss-token" "" BodyEmpty)))) "v0.9.0-beta.2" _ _ _)) _ _).
  - vm_compute. reflexivity.
  - discriminate.
  - discriminate.
  - left.
  - vm_compute. reflexivity.
Defined.

Definition source_put : request :=
  request_of "PUT" "" "boss-token" ""
    (BodyJson (JObj [("base", JStr "https://mirror.example/ch/local.json")])).

Lemma putSource_resolves_witness :
  ResolveBase "local" (uc_Sources (cfg_update (snd (putSource (env_at 5) (us_hub beta_hub)
    source_put "local")))) = "https://mirror.example/ch".
Proof.
  refine (proj1 (putSource_resolves (env_at 5) (us_hub beta_hub) source_put "local"
    "https://mirror.example/ch" _ (fst (putSource (env_at 5) (us_hub beta_hub) source_put "local"))
    [("base", JStr "https://mirror.example/ch/local.json")] (surjective_pairing _) _ _ _ _)).
  - vm_compute. reflexivity.
  - split_and!; [discriminate|by vm_compute..].
  - reflexivity.
  - right. left.
Defined.
