(* ===== verification/Pair.v ===== *)
(** * One-time pairing codes ([internal/hub/pair.go])

    The in-memory store of codes, the admin endpoint that generates one and the public endpoint
    that exchanges one for a token.  Instants and durations are nanoseconds. *)

From S2P Require Import Prelude Auth Http HubConfig AdminState AdminTokens AdminAccess AdminInvariant.
From Stdlib Require Import ZArith Lia Ascii String.
From stdpp Require Import base gmap strings list fin_maps relations.

Record pairCode := PairCode {
  pc_Code : string;
  pc_MachineID : string;
  pc_Role : string;
  pc_Type : string;
  pc_Machines : list string;
  pc_ExpiresAt : Z
}.

(** [pairStore.codes]; a code's record is not changed after it is stored. *)
Abbreviation pairStore := (gmap string pairCode).

Definition to_upper (s : string) : string :=
  of_bytes (map (fun c => if is_lower c then ascii_of_N (N_of_ascii c - 32) else c) (bytes s)).

Definition second : Z := 1000000000.

(** [rnd] is the outcome of [rand.Read] of six bytes. *)
Definition Generate (rnd : option (list Z)) (now : Z) (ps : pairStore) (pc : pairCode)
    (expiresIn : Z) : option (string * Z) * pairStore :=
  match rnd with
  | None => (None, ps)
  | Some buf =>
      let code := to_upper (of_bytes (take 8 (hex_encode buf))) in
      let code := String.substring 0 4 code +:+ "-" +:+ String.substring 4 (String.length code - 4) code in
      let expiresAt := (now + expiresIn)%Z in
      let pc := PairCode code (pc_MachineID pc) (pc_Role pc) (pc_Type pc) (pc_Machines pc) expiresAt in
      (Some (code, expiresAt), <[code := pc]> ps)
  end.

Inductive redeemError := ErrCodeNotFound | ErrCodeExpired | ErrCodeMachine.

Definition Redeem (now : Z) (ps : pairStore) (code expectedMachineID : string)
    : (redeemError + pairCode) * pairStore :=
  match ps !! code with
  | None => (inl ErrCodeNotFound, ps)
  | Some pc =>
      if (pc_ExpiresAt pc <? now)%Z then (inl ErrCodeExpired, delete code ps)
      else if (pc_Type pc =s "register") && (pc_MachineID pc <>s expectedMachineID)
      then (inl ErrCodeMachine, ps)
      else (inr pc, delete code ps)
  end.

(** The range deletes each expired entry it visits. *)
Definition CleanupExpiredCodes (now : Z) (ps : pairStore) : pairStore :=
  filter (fun kv => (now <= pc_ExpiresAt kv.2)%Z) ps.

Definition maxPairCodeExpiry : Z := 7 * 24 * 3600 * second.

(** [time.Duration(val)] of a [float64], on amd64 outside the range of [int64]. *)
Definition float_to_int64 (n : Z) : Z :=
  if ((-9223372036854775808 <=? n) && (n <=? 9223372036854775807))%Z then n
  else (-9223372036854775808)%Z.

Section parse.
  (** The floating-point text parsers of the standard library: [time.ParseDuration], and a number
      of days to a duration. *)
  Context (ParseDuration ParseDays : string -> option Z).

(** The multiplication by [time.Second] wraps at 64 bits. *)
Definition parseDuration (v : json) : option Z :=
  match v with
  | JNum n => Some (i64 (float_to_int64 n * second))
  | JStr val =>
      let val := trim_space val in
      if val =s "" then None
      else if has_suffix val "d" then
        ParseDays (of_bytes (take (length (bytes val) - 1) (bytes val)))
      else ParseDuration val
  | _ => None
  end.

(** The pairing codes and the hub they onboard to. *)
Record pairState := PairState { ps_codes : pairStore; ps_hub : hubState }.

(** The elements of [raw["machines"]] that are kept. *)
Definition pairMachines (raw : list (string * json)) : list string :=
  match json_key raw "machines" with
  | Some (JArr arr) =>
      match omap (fun m => match m with JStr s => if s <>s "" then Some s else None | _ => None end)
              arr with
      | [] => ["*"]
      | parsed => parsed
      end
  | _ => ["*"]
  end.

(** The duration a request asks for: the error of the parse, or the default of ten minutes unless a
    positive duration was given. *)
Definition requestedExpiry (raw : list (string * json)) : option Z :=
  match json_key raw "expiresIn" with
  | None => Some (600 * second)%Z
  | Some v => (fun parsed => if (0 <? parsed)%Z then parsed else (600 * second)%Z) <$> parseDuration v
  end.

Definition handleAdminPairCode (env : environ) (st : pairState) (r : request)
    : response * pairState :=
  if r_Method r <>s "POST" then (reply 405 PNone, st)
  else match requireOwnerOrAdmin env (ps_hub st) r with
       | None => (forbidden, st)
       | Some _ =>
           match json_fields (r_Body r) with
           | None => (errorReply 400 "invalid request", st)
           | Some raw =>
               let codeType :=
                 let t := as_string (json_key raw "type") in if t <>s "" then t else "connect" in
               if (codeType <>s "register") && (codeType <>s "connect") then
                 (errorReply 400 "type must be register or connect", st)
               else
                 let machineID := as_string (json_key raw "machineId") in
                 if (codeType =s "register") && (machineID =s "") then
                   (errorReply 400 "machineId required for register codes", st)
                 else
                   let role := as_string (json_key raw "role") in
                   let role := if role =s "" then "user" else role in
                   match requestedExpiry raw with
                   | None => (errorReply 400 "parse duration", st)
                   | Some expiresIn =>
                       if (maxPairCodeExpiry <? expiresIn)%Z then
                         (errorReply 400 "expiresIn exceeds maximum of 7 days (604800 seconds)", st)
                       else
                         let pc := PairCode "" machineID role codeType (pairMachines raw) 0 in
                         match Generate (env_rand env) (env_now env) (ps_codes st) pc expiresIn with
                         | (None, _) => (errorReply 500 "generate pairing code", st)
                         | (Some (code, expiresAt), codes) =>
                             (reply 200 (PPairCode code codeType expiresAt),
                              PairState codes (ps_hub st))
                         end
                   end
           end
       end.

(** The identity a redeemed code creates, and the ACLs it is granted. *)
Definition pairIdentity (now : Z) (pc : pairCode) : string :=
  if pc_Type pc =s "register" then pc_MachineID pc +:+ "-agent"
  else if pc_Type pc =s "connect" then "paired-user-" +:+ Itoa (now / second)
  else "".

Definition grantConnect (token : string) (ms : gmap string machineACL) (machineID : string)
    : gmap string machineACL :=
  let acl := acl_of ms machineID in
  <[machineID := MachineACL (RegisterToken acl) (ConnectTokens acl ++ [ConnectGrant token []])
                   (ManageTokens acl)]> ms.

Definition pairGrant (now : Z) (token : string) (pc : pairCode) (st : hubState) : hubState :=
  let row := TokenEntry (pairIdentity now pc) token (pc_Role pc) None None None in
  if pc_Type pc =s "register" then
    with_machines (with_tokens st (cfg_tokens st ++ [row]))
      (<[pc_MachineID pc := MachineACL token [] []]> (cfg_machines st))
  else if pc_Type pc =s "connect" then
    with_machines (with_tokens st (cfg_tokens st ++ [row]))
      (fold_left (grantConnect token) (pc_Machines pc) (cfg_machines st))
  else st.

Definition redeemErrorText (e : redeemError) : string :=
  match e with
  | ErrCodeNotFound => "pairing code not found"
  | ErrCodeExpired => "pairing code expired"
  | ErrCodeMachine => "pairing code does not match machine ID"
  end.

Definition handlePair (env : environ) (st : pairState) (r : request) : response * pairState :=
  if r_Method r <>s "POST" then (reply 405 PNone, st)
  else match json_fields (r_Body r) with
       | None => (errorReply 400 "invalid request", st)
       | Some kvs =>
           let '(code, ok1) := decode_string "code" kvs "" true in
           let '(machineID, ok2) := decode_string "machineId" kvs "" true in
           if negb (ok1 && ok2) then (errorReply 400 "invalid request", st)
           else if code =s "" then (errorReply 400 "code is required", st)
           else match Redeem (env_now env) (ps_codes st) code machineID with
                | (inl err, codes) =>
                    let st := PairState codes (ps_hub st) in
                    match err with
                    | ErrCodeMachine =>
                        if machineID =s "" then
                          (errorReply 400 "machineId is required for register codes", st)
                        else (errorReply 401 (redeemErrorText err), st)
                    | _ => (errorReply 401 (redeemErrorText err), st)
                    end
                | (inr pc, codes) =>
                    match generateToken (env_rand env) with
                    | None => (errorReply 500 "generate token", PairState codes (ps_hub st))
                    | Some token =>
                        let identity := pairIdentity (env_now env) pc in
                        let hub := pairGrant (env_now env) token pc (ps_hub st) in
                        let '(ok, hub) := persistConfig env hub in
                        let st := PairState codes hub in
                        if negb ok then (errorReply 500 "persist config", st)
                        else (reply 200 (PPaired token identity (pc_Type pc)), st)
                    end
                end
       end.

(** ** Events

    What one request does to a code, read off its reply: the admin endpoint issued it, or the
    public endpoint exchanged it for a token. *)
Inductive pairEvent := Issued (code : string) | Redeemed (code : string) | Quiet.

Definition eventOf (r : request) (resp : response) : pairEvent :=
  match body resp with
  | PPairCode code _ _ => Issued code
  | PPaired _ _ _ => Redeemed (fst (decode_string "code" (default [] (json_fields (r_Body r))) "" true))
  | _ => Quiet
  end.

Inductive pair_step : pairState -> pairEvent -> pairState -> Prop :=
  | admin_pair_step env st r :
      pair_step st (eventOf r (fst (handleAdminPairCode env st r)))
        (snd (handleAdminPairCode env st r))
  | pair_request_step env st r :
      pair_step st (eventOf r (fst (handlePair env st r))) (snd (handlePair env st r))
  | cleanup_step now st :
      pair_step st Quiet (PairState (CleanupExpiredCodes now (ps_codes st)) (ps_hub st)).

Inductive pair_run : pairState -> list pairEvent -> pairState -> Prop :=
  | run_nil st : pair_run st [] st
  | run_cons st ev st1 evs st2 :
      pair_step st ev st1 -> pair_run st1 evs st2 -> pair_run st (ev :: evs) st2.

End parse.

#[export] Instance pairEvent_eq_dec : EqDecision pairEvent.
Proof. solve_decision. Defined.

Definition countEvent (ev : pairEvent) (evs : list pairEvent) : nat :=
  length (filter (fun x => x = ev) evs).

(** ** Codes *)

Lemma Redeem_ok now ps code m pc ps' :
  Redeem now ps code m = (inr pc, ps') <->
  ps !! code = Some pc /\ (now <= pc_ExpiresAt pc)%Z /\
  (pc_Type pc = "register" -> pc_MachineID pc = m) /\ ps' = delete code ps.
Proof.
  unfold Redeem. destruct (ps !! code) as [x|] eqn:E; [|naive_solver].
  destruct (Z.ltb_spec (pc_ExpiresAt x) now) as [Hlt|Hge].
  - split; [done|]. intros ([= <-] & ? & _). lia.
  - destruct (_ && _) eqn:Ht.
    + prop_bool. split; [done|]. intros ([= <-] & _ & Hm & _). naive_solver.
    + apply andb_false_iff in Ht. split.
      * intros [= <- <-]. split_and!; try done. intros Hreg. by destruct Ht; prop_bool.
      * intros ([= <-] & _ & _ & ->). done.
Qed.

(** A failed redemption removes the code at most when it has expired. *)
Lemma Redeem_err now ps code m e ps' :
  Redeem now ps code m = (inl e, ps') ->
  ps' = ps \/ e = ErrCodeExpired /\ ps' = delete code ps.
Proof.
  unfold Redeem. destruct (ps !! code) as [x|]; [|intros [= <- <-]; by left].
  destruct (_ <? _)%Z; [intros [= <- <-]; by right|].
  destruct (_ && _); [intros [= <- <-]; by left|done].
Qed.

#[local] Ltac quiet Hh := injection Hh as <- <-; cbn; reflexivity.

Lemma handlePair_event env st r resp st' :
  handlePair env st r = (resp, st') ->
  match eventOf r resp with
  | Issued _ => False
  | Redeemed c => is_Some (ps_codes st !! c) /\ ps_codes st' = delete c (ps_codes st)
  | Quiet => ps_codes st' ⊆ ps_codes st
  end.
Proof.
  unfold handlePair. intros Hh.
  case_bool_decide; cbn [negb] in Hh; [|quiet Hh].
  destruct (json_fields (r_Body r)) as [kvs|] eqn:Hb; [|quiet Hh].
  destruct (decode_string "code" kvs "" true) as [code ok1] eqn:Hcode.
  destruct (decode_string "machineId" kvs "" true) as [mid ok2].
  destruct (negb _); [quiet Hh|].
  case_bool_decide; [quiet Hh|].
  destruct (Redeem _ _ _ _) as [[e|pc] codes] eqn:Hr.
  - assert (codes ⊆ ps_codes st) as Hsub.
    { apply Redeem_err in Hr as [->|[_ ->]]; [done|apply delete_subseteq]. }
    destruct e; [injection Hh as <- <-; exact Hsub..|].
    destruct (mid =s ""); injection Hh as <- <-; exact Hsub.
  - apply Redeem_ok in Hr as (Hc & _ & _ & ->).
    destruct (generateToken _) as [token|].
    + destruct (persistConfig env _) as [ok hub].
      destruct (negb ok); injection Hh as <- <-; cbn; [apply delete_subseteq|].
      rewrite Hb. cbn. rewrite Hcode. cbn. split; [by exists pc|done].
    + injection Hh as <- <-. cbn. apply delete_subseteq.
Qed.

(** What a served generation stores, and when its caller may ask for it. *)
Lemma handleAdminPairCode_outcome pd pdays env st r resp st' :
  handleAdminPairCode pd pdays env st r = (resp, st') ->
  (forall r', eventOf r' resp = Quiet) /\ st' = st \/
  exists code type expiresAt pc,
    body resp = PPairCode code type expiresAt /\ ps_hub st' = ps_hub st /\
    ps_codes st' = <[code := pc]> (ps_codes st) /\
    pc_Type pc = type /\ (type = "register" \/ type = "connect") /\
    (type = "register" -> pc_MachineID pc <> "") /\ pc_ExpiresAt pc = expiresAt /\
    (env_now env < expiresAt <= env_now env + maxPairCodeExpiry)%Z /\
    isOwnerOrAdmin (globalAuth (ps_hub st)) (env_now env) (tokenFromRequest r) = true.
Proof.
  unfold handleAdminPairCode. intros Hh.
  case_bool_decide; cbn [negb] in Hh; [|by injection Hh as <- <-; left].
  destruct (requireOwnerOrAdmin env (ps_hub st) r) as [tok|] eqn:Hown; [|by injection Hh as <- <-; left].
  destruct (json_fields (r_Body r)) as [raw|]; [|by injection Hh as <- <-; left].
  revert Hh. generalize (if as_string (json_key raw "type") <>s "" then as_string (json_key raw "type")
    else "connect"). intros type Hh.
  destruct ((type <>s "register") && (type <>s "connect")) eqn:Htype; [by injection Hh as <- <-; left|].
  destruct ((type =s "register") && (as_string (json_key raw "machineId") =s "")) eqn:Hmid;
    [by injection Hh as <- <-; left|].
  destruct (requestedExpiry pd pdays raw) as [ex|] eqn:Hex; [|by injection Hh as <- <-; left].
  destruct (Z.ltb_spec maxPairCodeExpiry ex) as [|Hmax]; [by injection Hh as <- <-; left|].
  unfold Generate in Hh. destruct (env_rand env) as [buf|]; [|by injection Hh as <- <-; left].
  injection Hh as <- <-. right. do 4 eexists. split; [reflexivity|]. cbn.
  split; [done|]. split; [reflexivity|]. split; [done|].
  split; [|split; [|split; [done|split]]].
  - destruct (decide (type = "register")), (decide (type = "connect")); auto.
    by rewrite !bool_decide_false in Htype.
  - intros ->. by destruct (bool_decide_reflect (as_string (json_key raw "machineId") = "")).
  - enough (0 < ex)%Z by lia. unfold requestedExpiry in Hex.
    destruct (json_key raw "expiresIn") as [v|]; [|by injection Hex as <-].
    destruct (parseDuration pd pdays v) as [d|]; [|done]. injection Hex as <-.
    destruct (Z.ltb_spec 0 d); [done|]. unfold second. lia.
  - unfold requireOwnerOrAdmin in Hown. by destruct (isOwnerOrAdmin _ _ _).
Qed.

(** Whether the store holds the code. *)
Definition held (code : string) (s : pairState) : nat :=
  match ps_codes s !! code with Some _ => 1 | None => 0 end.

Lemma held_mono code s s' : ps_codes s' ⊆ ps_codes s -> held code s' <= held code s.
Proof.
  intros Hsub. unfold held. destruct (ps_codes s' !! code) as [x|] eqn:E; [|lia].
  by rewrite (lookup_weaken _ _ _ _ E Hsub).
Qed.

Lemma countEvent_cons ev x evs :
  countEvent ev (x :: evs) = (if decide (x = ev) then 1 else 0) + countEvent ev evs.
Proof. unfold countEvent. rewrite filter_cons. by case_decide. Qed.

(** A redemption gives up the held code, an issue takes at most one, nothing else adds any. *)
Lemma pair_step_held pd pdays st ev st' code :
  pair_step pd pdays st ev st' ->
  (if decide (ev = Redeemed code) then 1 else 0) + held code st' <=
  (if decide (ev = Issued code) then 1 else 0) + held code st.
Proof.
  intros [env s r|env s r|now s].
  - destruct (handleAdminPairCode pd pdays env s r) as [resp s1] eqn:Hg. cbn [fst snd].
    apply handleAdminPairCode_outcome in Hg as [[Hno ->]|Hg].
    + rewrite Hno. repeat case_decide; simplify_eq; lia.
    + destruct Hg as (c & type & e & pc & Hb & _ & Hcodes & _).
      unfold eventOf. rewrite Hb. unfold held. rewrite Hcodes, lookup_insert.
      repeat case_decide; simplify_eq; try lia; case_match; lia.
  - destruct (handlePair env s r) as [resp s1] eqn:Hg. cbn [fst snd].
    apply handlePair_event in Hg. destruct (eventOf r resp) as [c|c|]; [done| |].
    + destruct Hg as [[pc Hc] Hdel]. unfold held. rewrite Hdel, lookup_delete.
      repeat case_decide; simplify_eq; try lia; rewrite ?Hc; lia.
    + apply (held_mono code) in Hg. repeat case_decide; simplify_eq; lia.
  - assert (held code (PairState (CleanupExpiredCodes now (ps_codes s)) (ps_hub s)) <= held code s)
      by (apply held_mono; cbn; apply map_filter_subseteq).
    repeat case_decide; simplify_eq; lia.
Qed.

Lemma pair_run_held pd pdays st evs st' code :
  pair_run pd pdays st evs st' ->
  countEvent (Redeemed code) evs + held code st' <= countEvent (Issued code) evs + held code st.
Proof.
  induction 1 as [st|st ev st1 evs st2 Hstep Hrun IH]; [done|].
  apply (pair_step_held _ _ _ _ _ code) in Hstep. rewrite !countEvent_cons. lia.
Qed.

(** A code buys at most one token.  Over any sequence of requests and clean-ups, starting where
    the code is unknown, it is redeemed at most as often as the admin endpoint issued it. *)
Theorem pair_single_use pd pdays st evs st' code :
  pair_run pd pdays st evs st' -> ps_codes st !! code = None ->
  countEvent (Redeemed code) evs <= countEvent (Issued code) evs.
Proof.
  intros Hrun Hnone.
  pose proof (pair_run_held pd pdays st evs st' code Hrun) as Hc. unfold held in Hc at 2.
  rewrite Hnone in Hc. lia.
Qed.

(** Only a live owner or admin obtains a code; it is stored under its text, for a machine when
    it is a register code, and expires later than now and within seven days, whatever number or
    text the request asked for, 64-bit overflow of the seconds included. *)
Theorem pair_code_lifetime pd pdays env st r resp st' code type expiresAt :
  handleAdminPairCode pd pdays env st r = (resp, st') ->
  body resp = PPairCode code type expiresAt ->
  isOwnerOrAdmin (globalAuth (ps_hub st)) (env_now env) (tokenFromRequest r) = true /\
  (env_now env < expiresAt <= env_now env + maxPairCodeExpiry)%Z /\ ps_hub st' = ps_hub st /\
  exists pc, ps_codes st' = <[code := pc]> (ps_codes st) /\ pc_Type pc = type /\
    pc_ExpiresAt pc = expiresAt /\ (type = "register" -> pc_MachineID pc <> "").
Proof.
  intros Hrun Hb. apply handleAdminPairCode_outcome in Hrun as [[Hq _]|Hrun].
  - specialize (Hq r). unfold eventOf in Hq. by rewrite Hb in Hq.
  - destruct Hrun as (c & t & e & pc & Hb' & Hhub & Hcodes & Ht & _ & Hm & He & Hl & Hown).
    rewrite Hb in Hb'. injection Hb' as <- <- <-. split_and!; try done; try lia. by exists pc.
Qed.

(** ** The token a code buys *)

(** The code of a request. *)
Definition codeOf (r : request) : string :=
  fst (decode_string "code" (default [] (json_fields (r_Body r))) "" true).

(** A served redemption: the code was stored, in time and for the right machine, and the token is
    the one generated. *)
Lemma handlePair_served env st r resp st' token identity type :
  handlePair env st r = (resp, st') -> body resp = PPaired token identity type ->
  exists code pc, code = codeOf r /\ status resp = 200%Z /\
    ps_codes st !! code = Some pc /\ (env_now env <= pc_ExpiresAt pc)%Z /\ pc_Type pc = type /\
    generateToken (env_rand env) = Some token /\ identity = pairIdentity (env_now env) pc /\
    ps_codes st' = delete code (ps_codes st) /\
    exists hub, hub = pairGrant (env_now env) token pc (ps_hub st) /\
      committed (ps_hub st) (ps_hub st') (cfg_tokens hub) (cfg_machines hub).
Proof.
  unfold handlePair, codeOf. intros Hh Hb.
  case_bool_decide; cbn [negb] in Hh; [|by injection Hh as <- <-].
  destruct (json_fields (r_Body r)) as [kvs|]; [|by injection Hh as <- <-]. cbn [default from_option id].
  destruct (decode_string "code" kvs "" true) as [code ok1].
  destruct (decode_string "machineId" kvs "" true) as [mid ok2].
  destruct (negb _); [by injection Hh as <- <-|].
  case_bool_decide; [by injection Hh as <- <-|].
  destruct (Redeem _ _ _ _) as [[e|pc] codes] eqn:Hr.
  - destruct e; [by injection Hh as <- <-..|]. destruct (mid =s ""); by injection Hh as <- <-.
  - apply Redeem_ok in Hr as (Hc & Hexp & _ & ->).
    destruct (generateToken _) as [tok|] eqn:Hg; [|by injection Hh as <- <-].
    destruct (persistConfig env _) as [ok hub] eqn:Hp.
    destruct (negb ok); injection Hh as <- <-; [done|]. cbn in Hb. injection Hb as <- <- <-.
    exists code, pc. split_and!; try done. eexists. split; [done|].
    assert (globalCfgPath (pairGrant (env_now env) tok pc (ps_hub st)) = globalCfgPath (ps_hub st))
      as Hpath by (unfold pairGrant; by repeat case_match).
    pose proof (persist_committed env (ps_hub st) _ _ _ (versions hub) Hp Hpath) as HC.
    by replace (with_versions hub (versions hub)) with hub in HC by (by destruct hub).
Qed.

(** What the connect grants of a list of machines add up to. *)
Lemma grantConnect_fold tok l ms m t :
  hasConnectGrant (ConnectTokens (acl_of (fold_left (grantConnect tok) l ms) m)) t =
    hasConnectGrant (ConnectTokens (acl_of ms m)) t || (bool_decide (m ∈ l) && (t =s tok)) /\
  ManageTokens (acl_of (fold_left (grantConnect tok) l ms) m) = ManageTokens (acl_of ms m) /\
  RegisterToken (acl_of (fold_left (grantConnect tok) l ms) m) = RegisterToken (acl_of ms m).
Proof.
  revert ms. induction l as [|k l IH]; intros ms.
  - by rewrite bool_decide_false, andb_false_l, orb_false_r by (by apply not_elem_of_nil).
  - cbn [fold_left]. destruct (IH (grantConnect tok ms k)) as (-> & -> & ->).
    unfold grantConnect. rewrite !acl_of_insert. destruct (decide (m = k)) as [<-|Hk].
    + rewrite (bool_decide_true (m = m)) by done. cbn [ConnectTokens ManageTokens RegisterToken].
      rewrite hasConnectGrant_app. unfold hasConnectGrant at 2. cbn [findConnectGrant cg_Token].
      rewrite (bool_decide_true (m ∈ m :: l)) by left.
      rewrite (bool_decide_ext (tok = t) (t = tok)) by naive_solver. split; [|done].
      by destruct (hasConnectGrant _ t), (bool_decide (t = tok)), (bool_decide (m ∈ l)).
    + rewrite (bool_decide_false (m = k)) by done.
      rewrite (bool_decide_ext (m ∈ k :: l) (m ∈ l)) by (rewrite elem_of_cons; naive_solver). done.
Qed.

(** Decisions of two stores that agree on the token and on the ACLs looked at. *)
Lemma canConnect_agree s s' now t m :
  enabled s = enabled s' -> byToken s !! t = byToken s' !! t ->
  (forall k, hasConnectGrant (ConnectTokens (acl_of (machines s) k)) t =
             hasConnectGrant (ConnectTokens (acl_of (machines s') k)) t) ->
  canConnect s now t m = canConnect s' now t m.
Proof. intros He Hb Ha. unfold canConnect, valid, validEntry. by rewrite He, Hb, !Ha. Qed.

Lemma canManage_agree s s' now t m :
  enabled s = enabled s' -> byToken s !! t = byToken s' !! t ->
  (forall k, ManageTokens (acl_of (machines s) k) = ManageTokens (acl_of (machines s') k)) ->
  canManage s now t m = canManage s' now t m.
Proof. intros He Hb Ha. unfold canManage, valid, validEntry. by rewrite He, Hb, !Ha. Qed.

(** A redeemed connect code gives its new token the right to connect to every machine the code
    names, at once and without expiry, and changes no other token's right to connect or manage. *)
Theorem pair_connect_grants env st r resp st' token identity now :
  handlePair env st r = (resp, st') -> body resp = PPaired token identity "connect" ->
  coherent (ps_hub st) -> cfg_tokens (ps_hub st) <> [] -> fresh_token (ps_hub st) token ->
  exists pc, ps_codes st !! codeOf r = Some pc /\ ps_codes st' !! codeOf r = None /\
    (forall m, m ∈ pc_Machines pc -> canConnect (globalAuth (ps_hub st')) now token m = true) /\
    (forall t m, t <> token ->
       canConnect (globalAuth (ps_hub st')) now t m = canConnect (globalAuth (ps_hub st)) now t m /\
       canManage (globalAuth (ps_hub st')) now t m = canManage (globalAuth (ps_hub st)) now t m).
Proof.
  intros Hrun Hb Hco Hne (Htok & Hfresh & _).
  destruct (handlePair_served _ _ _ _ _ _ _ _ Hrun Hb)
    as (code & pc & -> & _ & Hc & _ & Hty & _ & _ & Hcodes & hub & -> & HC).
  exists pc. split; [done|]. rewrite Hcodes, lookup_delete_eq. split; [done|].
  unfold pairGrant in HC. rewrite Hty in HC. cbn [bool_decide] in HC.
  rewrite bool_decide_false, bool_decide_true in HC by done.
  cbn [cfg_tokens cfg_machines with_machines with_tokens with_cfg globalCfg hc_Auth set_Machines
    set_Tokens set_Auth Tokens Machines] in HC.
  set (e := TokenEntry (pairIdentity (env_now env) pc) token (pc_Role pc) None None None) in *.
  assert (Tokens (hc_Auth (globalCfg (ps_hub st))) ++ [e] <> []) as Hne' by (by destruct (Tokens _)).
  rewrite (committed_store HC) by done. rewrite (coherent_store _ Hco Hne).
  assert (indexTokens (cfg_tokens (ps_hub st) ++ [e]) = <[token := e]> (indexTokens (cfg_tokens (ps_hub st))))
    as Hidx by (by rewrite indexTokens_snoc, bool_decide_false).
  change (Tokens (hc_Auth (globalCfg (ps_hub st)))) with (cfg_tokens (ps_hub st)).
  change (Machines (hc_Auth (globalCfg (ps_hub st)))) with (cfg_machines (ps_hub st)).
  rewrite Hidx. split.
  - intros m Hm. apply canConnect_iff. right. exists e. split.
    + split; [done|]. cbn. rewrite lookup_insert_eq. by repeat split.
    + right. left. apply hasConnectGrant_acl. cbn [machines].
      destruct (grantConnect_fold token (pc_Machines pc) (cfg_machines (ps_hub st)) m token) as (-> & _).
      by rewrite !bool_decide_true, orb_true_r.
  - intros t m Ht. split; [apply canConnect_agree|apply canManage_agree]; cbn [enabled byToken machines];
      try done; try (by rewrite lookup_insert_ne).
    + intros k.
      destruct (grantConnect_fold token (pc_Machines pc) (cfg_machines (ps_hub st)) k t) as (-> & _).
      by rewrite (bool_decide_false (t = token)), andb_false_r, orb_false_r.
    + intros k.
      by destruct (grantConnect_fold token (pc_Machines pc) (cfg_machines (ps_hub st)) k t) as (_ & -> & _).
Qed.

(** ** The hub's identities over requests of every kind

    The requests that change the rows of the store at run time are those of the token and access
    endpoints and the exchange of a pairing code.  An exchange does not look whether the name it
    gives is taken. *)

Definition pairedRow (now : Z) (pc : pairCode) (token : string) : tokenEntry :=
  TokenEntry (pairIdentity now pc) token (pc_Role pc) None None None.

Lemma pairGrant_rows now token pc st :
  exists rows, cfg_tokens (pairGrant now token pc st) = cfg_tokens st ++ rows /\
    (rows = [] \/ rows = [pairedRow now pc token] /\ pairIdentity now pc <> "").
Proof.
  assert (forall a b, bytes a <> [] -> a +:+ b <> "") as Hne.
  { intros a b Ha E. apply (f_equal bytes) in E. rewrite bytes_app in E. by apply app_eq_nil in E as [? _]. }
  unfold pairGrant. destruct (pc_Type pc =s "register") eqn:Er; [|destruct (pc_Type pc =s "connect") eqn:Ec].
  - exists [pairedRow now pc token]. split; [done|]. right. split; [done|]. unfold pairIdentity. rewrite Er.
    intros E. apply (f_equal bytes) in E. rewrite bytes_app in E. by apply app_eq_nil in E as [_ ?].
  - exists [pairedRow now pc token]. split; [done|]. right. split; [done|]. unfold pairIdentity. rewrite Er, Ec.
    by apply Hne.
  - exists []. split; [by rewrite app_nil_r|by left].
Qed.

(** What an exchange leaves of the hub: the same, or at most one row more. *)
Lemma handlePair_hub env st r :
  let st' := snd (handlePair env st r) in
  ps_hub st' = ps_hub st \/
  exists pc token rows ms, ps_codes st !! codeOf r = Some pc /\ generateToken (env_rand env) = Some token /\
    (rows = [] \/ rows = [pairedRow (env_now env) pc token] /\ pairIdentity (env_now env) pc <> "") /\
    committed (ps_hub st) (ps_hub st') (cfg_tokens (ps_hub st) ++ rows) ms.
Proof.
  unfold handlePair, codeOf.
  case_bool_decide; cbn [negb]; [|by left].
  destruct (json_fields (r_Body r)) as [kvs|]; [|by left]. cbn [default from_option Datatypes.id].
  destruct (decode_string "code" kvs "" true) as [code ok1].
  destruct (decode_string "machineId" kvs "" true) as [mid ok2].
  destruct (negb _); [by left|]. case_bool_decide; [by left|].
  destruct (Redeem _ _ _ _) as [[e|pc] codes] eqn:Hr.
  - destruct e; [by left..|]. destruct (mid =s ""); by left.
  - apply Redeem_ok in Hr as (Hc & _ & _ & ->).
    destruct (generateToken _) as [tok|] eqn:Hg; [|by left]. right.
    destruct (persistConfig env _) as [ok hub] eqn:Hp.
    assert (globalCfgPath (pairGrant (env_now env) tok pc (ps_hub st)) = globalCfgPath (ps_hub st))
      as Hpath by (unfold pairGrant; by repeat case_match).
    pose proof (persist_committed env (ps_hub st) _ _ _ (versions hub) Hp Hpath) as HC.
    replace (with_versions hub (versions hub)) with hub in HC by (by destruct hub).
    destruct (pairGrant_rows (env_now env) tok pc (ps_hub st)) as (rows & Hrows & Hr). rewrite Hrows in HC.
    exists pc, tok, rows. eexists. cbn [fst]. split; [exact Hc|]. split; [done|]. split; [exact Hr|].
    by destruct (negb ok).
Qed.

(** One request or clean-up.  With [distinct], an exchange gives a name that is not taken. *)
Inductive hub_step `{RangeOrder} (tp pd pdays : string -> option Z) (distinct : bool) (st : pairState) : pairState -> Prop :=
  | hub_admin_step r hub : admin_step tp r (ps_hub st) hub -> hub_step tp pd pdays distinct st (PairState (ps_codes st) hub)
  | hub_code_step env r : hub_step tp pd pdays distinct st (snd (handleAdminPairCode pd pdays env st r))
  | hub_exchange_step env r :
      fresh_draw env (ps_hub st) ->
      (distinct = true -> forall pc, ps_codes st !! codeOf r = Some pc ->
        findTokenEntryInCfg (ps_hub st) (pairIdentity (env_now env) pc) = None) ->
      hub_step tp pd pdays distinct st (snd (handlePair env st r))
  | hub_cleanup_step now : hub_step tp pd pdays distinct st (PairState (CleanupExpiredCodes now (ps_codes st)) (ps_hub st)).

Lemma exchange_inv env st r distinct :
  fresh_draw env (ps_hub st) ->
  (distinct = true -> forall pc, ps_codes st !! codeOf r = Some pc ->
     findTokenEntryInCfg (ps_hub st) (pairIdentity (env_now env) pc) = None) ->
  token_inv (ps_hub st) ->
  token_inv (ps_hub (snd (handlePair env st r))) /\
  (distinct = true -> NoDup (te_ID <$> cfg_tokens (ps_hub st)) ->
   NoDup (te_ID <$> cfg_tokens (ps_hub (snd (handlePair env st r))))).
Proof.
  intros Hfr Hnew T. destruct (handlePair_hub env st r) as [->|(pc & tok & rows & ms & Hc & Hg & Hrows & HC)]; [done|].
  destruct Hrows as [->|[-> Hid]].
  - rewrite app_nil_r in HC. destruct T as [_ Ht Hn]. rewrite (committed_tokens _ _ _ _ HC).
    split; [|done]. constructor; [apply HC|by rewrite (committed_tokens _ _ _ _ HC)..].
  - split; [by eapply (token_inv_append _ _ (pairedRow (env_now env) pc tok)); [| |done|exact HC]; [|by apply Hfr]|].
    intros Hd Hnd. rewrite (committed_tokens _ _ _ _ HC), fmap_app, NoDup_app. split; [done|].
    split; [|apply NoDup_singleton]. intros x (y & -> & Hy)%list_elem_of_fmap. cbn. rewrite list_elem_of_singleton.
    pose proof (Hnew Hd pc Hc) as Hf. rewrite findTokenEntryInCfg_None in Hf. by apply Hf.
Qed.

(** C3. Whatever requests reach the token, access and pairing endpoints: tokens stay distinct, tokens and
    identities stay non-empty, and the enforced store stays the one the live configuration describes.
    Identities stay distinct as long as no exchanged pairing code names an identity that is there
    already, which the exchange itself does not check. *)
Theorem hub_inv_reachable `{RangeOrder} tp pd pdays distinct st st' :
  rtc (hub_step tp pd pdays distinct) st st' -> token_inv (ps_hub st) ->
  token_inv (ps_hub st') /\
  (distinct = true -> NoDup (te_ID <$> cfg_tokens (ps_hub st)) -> NoDup (te_ID <$> cfg_tokens (ps_hub st'))).
Proof.
  intros Hr. induction Hr as [x|x y z Hxy _ IH]; [done|]. intros T.
  assert (token_inv (ps_hub y) /\
    (distinct = true -> NoDup (te_ID <$> cfg_tokens (ps_hub x)) -> NoDup (te_ID <$> cfg_tokens (ps_hub y)))) as [Ty Hy].
  { destruct Hxy as [r hub Hs|env r|env r Hf Hnew|now]; cbn [ps_hub].
    - apply step_effect in Hs. split; [by eapply effect_tokens|]. intros _ Hnd.
      refine (proj2 (proj1 (admin_inv_iff _) (effect_inv _ _ _ Hs))). by apply admin_inv_iff.
    - destruct (handleAdminPairCode pd pdays env x r) as [resp x'] eqn:Hg.
      apply handleAdminPairCode_outcome in Hg as [[_ ->]|(? & ? & ? & ? & _ & Hh & _)]; [done|]. cbn [snd]. by rewrite Hh.
    - by apply exchange_inv.
    - done. }
  destruct (IH Ty) as [Tz Hz]. split; [done|]. intros Hd Hnd. by apply Hz, Hy.
Qed.

(** ** What a redeemed register code does to the machine it names

    The handler stores a new ACL for the machine, so every connect and manage grant it had is gone;
    and it appends a row under a name that may be taken, after which the endpoints that look an
    identity up by name act on the older row only. *)

Definition register_code : pairCode := PairCode "ABCD-1234" "m" "user" "register" ["*"] 100.
Definition pairing_hub : pairState :=
  PairState {["ABCD-1234" := register_code]}
    (hub_of [row "boss" "boss-token" "owner"; row "m-agent" "old-agent" "user";
             row "alice" "alice-token" ""]
       {["m" := MachineACL "old-agent" [ConnectGrant "alice-token" []] []]}).
Definition pair_request : request :=
  request_of "POST" "/api/pair" "" ""
    (BodyJson (JObj [("code", JStr "ABCD-1234"); ("machineId", JStr "m")])).

Example register_pairing_drops_grants :
  let '(resp, st') := handlePair (env_at 5) pairing_hub pair_request in
  body resp = PPaired "1234" "m-agent" "register" /\
  canRegister (globalAuth (ps_hub st')) 9 "1234" "m" = true /\
  canConnect (globalAuth (ps_hub pairing_hub)) 9 "alice-token" "m" = true /\
  canConnect (globalAuth (ps_hub st')) 9 "alice-token" "m" = false.
Proof. vm_compute. repeat split. Qed.

(** Revoking the identity after a re-pairing revokes the replaced token, and the new agent keeps
    its right to register. *)
Example revoke_after_repairing_misses :
  let '(_, st1) := handlePair (env_at 5) pairing_hub pair_request in
  let '(resp, st2) := adminRevokeToken (env_at 6) (ps_hub st1)
        (request_of "POST" "" "boss-token" "" BodyEmpty) "m-agent" in
  status resp = 200%Z /\ canRegister (globalAuth st2) 9 "1234" "m" = true /\
  map te_ID (cfg_tokens (ps_hub st1)) = ["boss"; "m-agent"; "alice"; "m-agent"].
Proof. vm_compute. repeat split. Qed.

(** ** Evaluated instances *)

Definition no_durations : string -> option Z := fun _ => None.

Definition fresh_pairing : pairState :=
  PairState ∅ (hub_of [row "boss" "boss-token" "owner"; row "alice" "alice-token" ""]
    {["n" := MachineACL "" [ConnectGrant "alice-token" []] []]}).

Definition ask_connect : request :=
  request_of "POST" "/api/admin/pair-code" "boss-token" ""
    (BodyJson (JObj [("machines", JArr [JStr "m"; JStr "n"]); ("expiresIn", JNum 9300000000)])).
Definition use_connect : request :=
  request_of "POST" "/api/pair" "" "" (BodyJson (JObj [("code", JStr "1234-")])).

Definition asked : pairState :=
  snd (handleAdminPairCode no_durations no_durations (env_at 5) fresh_pairing ask_connect).
Definition used : pairState := snd (handlePair (env_at 6) asked use_connect).

Lemma pair_single_use_witness :
  let again := handlePair (env_at 7) used use_connect in
  countEvent (Redeemed "1234-") [Issued "1234-"; Redeemed "1234-"; Quiet] <=
  countEvent (Issued "1234-") [Issued "1234-"; Redeemed "1234-"; Quiet] /\
  status (fst again) = 401%Z.
Proof.
  split; [|vm_compute; reflexivity].
  apply (pair_single_use no_durations no_durations fresh_pairing _
           (snd (handlePair (env_at 7) used use_connect))); [|reflexivity].
  refine (run_cons _ _ _ _ asked _ _ _ _).
  { exact (admin_pair_step no_durations no_durations (env_at 5) fresh_pairing ask_connect). }
  refine (run_cons _ _ _ _ used _ _ _ _).
  { exact (pair_request_step no_durations no_durations (env_at 6) asked use_connect). }
  refine (run_cons _ _ _ _ (snd (handlePair (env_at 7) used use_connect)) _ _ _ (run_nil _ _ _)).
  exact (pair_request_step no_durations no_durations (env_at 7) used use_connect).
Defined.

(** The requested seconds overflow to a negative duration, and the default applies. *)
Lemma pair_code_lifetime_witness :
  fst (handleAdminPairCode no_durations no_durations (env_at 5) fresh_pairing ask_connect) =
    reply 200 (PPairCode "1234-" "connect" (5 + 600 * second)) /\
  (5 < 5 + 600 * second <= 5 + maxPairCodeExpiry)%Z.
Proof.
  split; [vm_compute; reflexivity|].
  refine (proj1 (proj2 (pair_code_lifetime no_durations no_durations (env_at 5) fresh_pairing
    ask_connect _ _ "1234-" "connect" _ (surjective_pairing _) _))).
  vm_compute. reflexivity.
Defined.

Lemma pair_connect_grants_witness :
  canConnect (globalAuth (ps_hub used)) 9 "1234" "m" = true /\
  canConnect (globalAuth (ps_hub used)) 9 "alice-token" "n" = true.
Proof.
  destruct (pair_connect_grants (env_at 6) asked use_connect (fst (handlePair (env_at 6) asked use_connect))
    used "1234" "paired-user-0" 9 (surjective_pairing _)) as (pc & Hc & _ & Hnew & Hold).
  - vm_compute. reflexivity.
  - reflexivity.
  - vm_compute. discriminate.
  - split; [discriminate|]. split.
    + intros e He. change (e ∈ [row "boss" "boss-token" "owner"; row "alice" "alice-token" ""]) in He.
      rewrite !elem_of_cons, elem_of_nil in He. by destruct He as [-> | [-> | []]].
    + intros m acl Hm.
      change (cfg_machines (ps_hub asked)) with
        ({["n" := MachineACL "" [ConnectGrant "alice-token" []] []]} : gmap string machineACL) in Hm.
      apply lookup_singleton_Some in Hm as [_ <-]. cbn. split; [discriminate|].
      split; [reflexivity|apply not_elem_of_nil].
  - split.
    + apply Hnew. change (ps_codes asked) with
        ({["1234-" := PairCode "1234-" "" "user" "connect" ["m"; "n"] (5 + 600 * second)]} : pairStore) in Hc.
      apply lookup_singleton_Some in Hc as [_ <-]. left.
    + rewrite (proj1 (Hold "alice-token" "n" ltac:(discriminate))). reflexivity.
Defined.

Lemma hub_inv_reachable_witness :
  token_inv (ps_hub used) /\ NoDup (te_ID <$> cfg_tokens (ps_hub used)) /\ length (cfg_tokens (ps_hub used)) = 3.
Proof.
  assert (rtc (hub_step no_times no_durations no_durations true) fresh_pairing used) as Hr.
  { eapply rtc_l; [exact (hub_code_step no_times no_durations no_durations true fresh_pairing (env_at 5) ask_connect)|].
    apply rtc_once, hub_exchange_step.
    - intros tok [= <-]. split; [discriminate|]. split.
      + intros e He. change (e ∈ [row "boss" "boss-token" "owner"; row "alice" "alice-token" ""]) in He.
        rewrite !elem_of_cons, elem_of_nil in He. by destruct He as [-> | [-> | []]].
      + intros m acl Hm.
        change (cfg_machines (ps_hub asked)) with
          ({["n" := MachineACL "" [ConnectGrant "alice-token" []] []]} : gmap string machineACL) in Hm.
        apply lookup_singleton_Some in Hm as [_ <-]. cbn. split; [discriminate|]. split; [reflexivity|apply not_elem_of_nil].
    - intros _ pc Hc. change (ps_codes asked) with
        ({["1234-" := PairCode "1234-" "" "user" "connect" ["m"; "n"] (5 + 600 * second)]} : pairStore) in Hc.
      apply lookup_singleton_Some in Hc as [_ <-]. reflexivity. }
  destruct (hub_inv_reachable no_times no_durations no_durations true fresh_pairing used Hr) as [HT Hids].
  - constructor; [reflexivity|refine (bool_decide_unpack _ _); vm_compute; exact I|].
    intros e He. change (e ∈ [row "boss" "boss-token" "owner"; row "alice" "alice-token" ""]) in He.
    rewrite !elem_of_cons, elem_of_nil in He. by destruct He as [-> | [-> | []]].
  - split; [exact HT|]. split; [|reflexivity]. apply Hids; [reflexivity|].
    refine (bool_decide_unpack _ _). vm_compute. exact I.
Defined.
