(* ===== verification/FilePath.v ===== *)
(** * Slash-separated paths ([path/filepath] on Unix)

    The path functions the agent's file share uses, on strings, and the algebra of clean absolute
    paths: such a path is its list of elements. *)

From S2P Require Import Prelude.
From Stdlib Require Import ZArith Lia Ascii String.
From stdpp Require Import base strings list.

Fixpoint split_slash (s : string) : list string :=
  match s with
  | "" => [""]
  | String c s' =>
      if Ascii.eqb c "/" then "" :: split_slash s'
      else match split_slash s' with
           | [] => [String c ""]
           | e :: es => String c e :: es
           end
  end.
Definition join_slash (es : list string) : string := String.concat "/" es.

Definition rooted (p : string) : bool := has_prefix p "/".

(** The loop of [Clean]; [out] is reversed. *)
Fixpoint clean_elems (root : bool) (out es : list string) : list string :=
  match es with
  | [] => rev out
  | e :: es' =>
      if (e =s "") || (e =s ".") then clean_elems root out es'
      else if e =s ".." then
        match out with
        | x :: out' =>
            if x =s ".." then clean_elems root (".." :: out) es' else clean_elems root out' es'
        | [] => clean_elems root (if root then [] else [".."]) es'
        end
      else clean_elems root (e :: out) es'
  end.

Definition Clean (p : string) : string :=
  if p =s "" then "."
  else
    let es := clean_elems (rooted p) [] (split_slash p) in
    if rooted p then "/" +:+ join_slash es
    else match es with [] => "." | _ => join_slash es end.

(** [Join] of two elements. *)
Definition Join (a b : string) : string :=
  if a =s "" then (if b =s "" then "" else Clean b) else Clean (a +:+ "/" +:+ b).

(** The elements of a clean path; the root is one empty element. *)
Definition elems (p : string) : list string :=
  if p =s "" then [] else if p =s "/" then [""] else split_slash p.

Fixpoint strip_common (b t : list string) : list string * list string :=
  match b, t with
  | x :: b', y :: t' => if x =s y then strip_common b' t' else (b, t)
  | _, _ => (b, t)
  end.

(** [None] is the error of [Rel]. *)
Definition Rel (basepath targpath : string) : option string :=
  let base := Clean basepath in
  let targ := Clean targpath in
  if base =s targ then Some "."
  else
    let base := if base =s "." then "" else base in
    if negb (Bool.eqb (rooted base) (rooted targ)) then None
    else
      let '(b, t) := strip_common (elems base) (elems targ) in
      match b, t with
      | x :: _, _ :: _ => if x =s ".." then None else Some (join_slash (map (fun _ => "..") b ++ t))
      | _ :: _, [] => Some (join_slash (map (fun _ => "..") b))
      | [], _ => Some (join_slash t)
      end.

(** Up to and with the last slash. *)
Fixpoint upto_slash (s : string) : string :=
  match s with
  | "" => ""
  | String c s' =>
      let r := upto_slash s' in
      if r =s "" then (if Ascii.eqb c "/" then "/" else "") else String c r
  end.
Definition Dir (p : string) : string := Clean (upto_slash p).

Definition Base (p : string) : string :=
  if p =s "" then "."
  else
    let p := trim_right_with (fun c => Ascii.eqb c "/") p in
    if p =s "" then "/" else default "" (last (split_slash p)).

(** From the last dot of the last element. *)
Fixpoint last_dot (l : list ascii) (acc : list ascii) : string :=
  match l with
  | [] => ""
  | c :: l' =>
      if Ascii.eqb c "/" then ""
      else if Ascii.eqb c "." then of_bytes (c :: acc) else last_dot l' (c :: acc)
  end.
Definition Ext (p : string) : string := last_dot (rev (bytes p)) [].

(** ** Clean absolute paths *)

Definition no_slash (e : string) : Prop := ("/"%char : ascii) ∉ bytes e.
Definition good_elem (e : string) : Prop := e <> "" /\ e <> "." /\ e <> ".." /\ no_slash e.
Abbreviation good_elems := (Forall good_elem).

Definition abs (es : list string) : string := "/" +:+ join_slash es.

Example clean_examples :
  map Clean [""; "/"; "a//b/./c/"; "../a/../b"; "/../x"; "a/.."] =
    ["."; "/"; "a/b/c"; "../b"; "/x"; "."].
Proof. vm_compute. done. Qed.
Example rel_examples :
  [Rel "/a/b" "/a/b/c"; Rel "/a/b" "/a/c"; Rel "/" "/x"; Rel "/a" "/a"; Rel "/a" "b"; Rel "/a/b" "/a"] =
    [Some "c"; Some "../c"; Some "x"; Some "."; None; Some ".."].
Proof. vm_compute. done. Qed.
Example dir_base_ext_examples :
  (map Dir ["/a/b"; "/a"; "/"; "a"], map Base ["/a/b"; "/"; ""; "a/"], map Ext ["a.tar.gz"; "a.b/c"; ".x"]) =
    (["/a"; "/"; "/"; "."], ["b"; "/"; "."; "a"], [".gz"; ""; ".x"]).
Proof. vm_compute. done. Qed.

(** ** Splitting and joining *)

Lemma split_slash_cons s : exists e es, split_slash s = e :: es.
Proof.
  destruct s as [|c s]; [by do 2 eexists|]. cbn. destruct (Ascii.eqb c "/"); [by do 2 eexists|].
  destruct (split_slash s); by do 2 eexists.
Qed.

Lemma split_slash_app a b :
  split_slash (a +:+ "/" +:+ b) = split_slash a ++ split_slash b.
Proof.
  induction a as [|c a IH]; [done|].
  change (split_slash (String c (a +:+ "/" +:+ b)) = split_slash (String c a) ++ split_slash b).
  cbn [split_slash]. rewrite IH. destruct (Ascii.eqb c "/"); [done|].
  by destruct (split_slash_cons a) as (e & es & ->).
Qed.

Lemma split_slash_single e : no_slash e -> split_slash e = [e].
Proof.
  induction e as [|c e IH]; [done|]. unfold no_slash. cbn [bytes list_ascii_of_string].
  rewrite elem_of_cons. intros Hn. cbn. destruct (Ascii.eqb_spec c "/") as [->|]; [naive_solver|].
  rewrite IH; [done|]. unfold no_slash, bytes. naive_solver.
Qed.

Lemma split_slash_no_slash s : Forall no_slash (split_slash s).
Proof.
  induction s as [|c s IH]; [by repeat constructor; apply not_elem_of_nil|].
  cbn. destruct (Ascii.eqb_spec c "/") as [|Hc]; [constructor; [apply not_elem_of_nil|done]|].
  destruct (split_slash s) as [|e es]; [by constructor; [intros [<-|[]%elem_of_nil]%elem_of_cons|]|].
  apply Forall_cons in IH as [He Hes]. constructor; [|done].
  unfold no_slash. cbn. by intros [<-|?]%elem_of_cons.
Qed.

Lemma join_slash_cons e es : es <> [] -> join_slash (e :: es) = e +:+ "/" +:+ join_slash es.
Proof. by destruct es. Qed.

Lemma split_join es : es <> [] -> Forall no_slash es -> split_slash (join_slash es) = es.
Proof.
  induction es as [|e es IH]; [done|]. intros _ [He Hes]%Forall_cons.
  destruct (decide (es = [])) as [->|Hne]; [by apply split_slash_single|].
  rewrite join_slash_cons, split_slash_app, split_slash_single, IH by done. done.
Qed.

Lemma good_no_slash es : good_elems es -> Forall no_slash es.
Proof. intros Hg. eapply Forall_impl; [exact Hg|]. by intros e (_ & _ & _ & ?). Qed.

(** ** Cleaning *)

Definition nontrivial (e : string) : Prop := e <> "" /\ e <> ".".
#[export] Instance nontrivial_dec e : Decision (nontrivial e).
Proof. unfold nontrivial. apply _. Defined.

(** The elements of a path that name something. *)
Definition real_elems (p : string) : list string := filter nontrivial (split_slash p).

Lemma clean_elems_plain root out es :
  ".." ∉ es -> clean_elems root out es = rev out ++ filter nontrivial es.
Proof.
  revert out. induction es as [|e es IH]; intros out Hd; [by rewrite app_nil_r|].
  rewrite not_elem_of_cons in Hd. destruct Hd as [He Hes]. cbn [clean_elems]. rewrite filter_cons.
  destruct (decide (nontrivial e)) as [[H1 H2]|Hn].
  - rewrite !bool_decide_false by done. cbn. rewrite IH by done. cbn. by rewrite <- app_assoc.
  - replace ((e =s "") || (e =s ".")) with true; [by apply IH|].
    unfold nontrivial in Hn. repeat case_bool_decide; naive_solver.
Qed.

(** Cleaning a rooted path never leaves a dot element. *)
Lemma clean_elems_rooted out es :
  Forall no_slash es -> good_elems out -> good_elems (clean_elems true out es).
Proof.
  revert out. induction es as [|e es IH]; intros out Hes Ho; [by apply Forall_rev|].
  apply Forall_cons in Hes as [He Hes]. cbn [clean_elems].
  destruct (bool_decide_reflect (e = "")); [by apply IH|].
  destruct (bool_decide_reflect (e = ".")); [by apply IH|].
  destruct (bool_decide_reflect (e = "..")); cbn [orb].
  - destruct out as [|x out]; [by apply IH|]. apply Forall_cons in Ho as [Hx Ho].
    rewrite bool_decide_false by apply Hx. by apply IH.
  - apply IH; [done|]. by constructor.
Qed.

Lemma Clean_rooted p :
  rooted p = true -> exists qs, good_elems qs /\ Clean p = abs qs.
Proof.
  intros Hr. exists (clean_elems true [] (split_slash p)). split.
  - apply clean_elems_rooted; [apply split_slash_no_slash|done].
  - unfold Clean. rewrite bool_decide_false, Hr; [done|]. by intros ->.
Qed.

Lemma rooted_abs es : rooted (abs es) = true.
Proof. apply has_prefix_iff. by exists (join_slash es). Qed.

Lemma split_abs es : good_elems es -> split_slash (abs es) = "" :: (if decide (es = []) then [""] else es).
Proof.
  intros Hg. change (split_slash (abs es)) with ("" :: split_slash (join_slash es)). f_equal.
  destruct (decide (es = [])) as [->|]; [done|]. by apply split_join, good_no_slash.
Qed.

Lemma filter_good es : good_elems es -> filter nontrivial es = es.
Proof.
  induction 1 as [|e es He _ IH]; [done|]. rewrite filter_cons_True, IH; [done|].
  by destruct He as (? & ? & _).
Qed.

Lemma real_elems_abs es : good_elems es -> real_elems (abs es) = es.
Proof.
  intros Hg. unfold real_elems. rewrite split_abs by done. rewrite filter_cons_False by (by intros [? _]).
  destruct (decide (es = [])) as [->|]; [done|by apply filter_good].
Qed.

Lemma good_no_dots es : good_elems es -> ".." ∉ es.
Proof. intros Hg Hin. rewrite Forall_forall in Hg. by apply Hg in Hin as (_ & _ & ? & _). Qed.

Lemma dots_split_abs es : good_elems es -> ".." ∉ split_slash (abs es).
Proof.
  intros Hg. rewrite split_abs by done. rewrite not_elem_of_cons. split; [done|].
  case_decide; [by rewrite list_elem_of_singleton|by apply good_no_dots].
Qed.

Lemma Clean_plain p :
  rooted p = true -> ".." ∉ split_slash p -> Clean p = abs (real_elems p).
Proof.
  intros Hr Hd. unfold Clean. rewrite bool_decide_false by (by intros ->).
  by rewrite Hr, clean_elems_plain.
Qed.

Lemma Clean_abs es : good_elems es -> Clean (abs es) = abs es.
Proof.
  intros Hg. rewrite Clean_plain, real_elems_abs by auto using rooted_abs, dots_split_abs. done.
Qed.

Lemma real_elems_good p : ".." ∉ split_slash p -> good_elems (real_elems p).
Proof.
  intros Hd. unfold real_elems. apply Forall_forall. intros e [[H1 H2] He]%list_elem_of_filter.
  split_and!; [done|done|by intros ->|].
  pose proof (split_slash_no_slash p) as Hn. rewrite Forall_forall in Hn. by apply Hn.
Qed.

(** ** Joining, relating, parents *)

Lemma string_app_assoc a b c : (a +:+ b) +:+ c = a +:+ (b +:+ c).
Proof. apply bytes_inj. by rewrite !bytes_app, app_assoc. Qed.

Lemma rooted_app p q : rooted p = true -> rooted (p +:+ q) = true.
Proof.
  unfold rooted. rewrite !has_prefix_iff. intros [r ->]. exists (r +:+ q). apply string_app_assoc.
Qed.

Lemma abs_nonempty es : abs es <> "".
Proof. done. Qed.

Lemma Join_abs_good es q :
  exists qs, good_elems qs /\ Join (abs es) q = abs qs.
Proof.
  unfold Join. rewrite bool_decide_false by apply abs_nonempty.
  apply Clean_rooted, rooted_app, rooted_abs.
Qed.

Lemma real_elems_app a b : real_elems (a +:+ "/" +:+ b) = real_elems a ++ real_elems b.
Proof. unfold real_elems. by rewrite split_slash_app, filter_app. Qed.

(** A relative path without dot-dot elements, cleaned, keeps its elements. *)
Lemma real_elems_Clean p : ".." ∉ split_slash p ->
  real_elems (Clean p) = real_elems p /\ ".." ∉ split_slash (Clean p).
Proof.
  intros Hd. pose proof (real_elems_good p Hd) as Hg.
  destruct (rooted p) eqn:Hr.
  { rewrite Clean_plain by done. split; [by apply real_elems_abs|by apply dots_split_abs]. }
  unfold Clean. destruct (bool_decide_reflect (p = "")) as [->|Hne].
  { split; [done|]. cbn. by rewrite list_elem_of_singleton. }
  rewrite Hr, clean_elems_plain by done. fold (real_elems p). cbn [rev app].
  destruct (real_elems p) as [|e es] eqn:E; [split; [done|cbn; by rewrite list_elem_of_singleton]|].
  rewrite <- E in *. assert (real_elems p <> []) as Hn by (by rewrite E).
  unfold real_elems at 1. rewrite split_join by auto using good_no_slash.
  split; [by apply filter_good|by apply good_no_dots].
Qed.

Lemma Join_plain ds rel :
  good_elems ds -> ".." ∉ split_slash rel ->
  Join (abs ds) (Clean rel) = abs (ds ++ real_elems rel).
Proof.
  intros Hds Hd. destruct (real_elems_Clean rel Hd) as [Hr Hd'].
  unfold Join. rewrite bool_decide_false by apply abs_nonempty.
  rewrite Clean_plain; [|apply rooted_app, rooted_abs|].
  - by rewrite real_elems_app, real_elems_abs, Hr.
  - rewrite split_slash_app, elem_of_app. intros [?|?]; [by apply (dots_split_abs ds)|done].
Qed.

Lemma strip_common_spec b t b' t' :
  strip_common b t = (b', t') -> exists c, b = c ++ b' /\ t = c ++ t'.
Proof.
  revert t. induction b as [|x b IH]; intros t; [intros [= <- <-]; by exists []|].
  destruct t as [|y t]; [intros [= <- <-]; by exists []|]. cbn.
  case_bool_decide as Hxy; [|intros [= <- <-]; by exists []].
  subst y. intros (c & -> & ->)%IH. by exists (x :: c).
Qed.

Lemma strip_common_app b t : strip_common b (b ++ t) = ([], t).
Proof. induction b as [|x b IH]; [done|]. cbn. by rewrite bool_decide_true. Qed.

Lemma elems_abs es : good_elems es -> elems (abs es) = "" :: es.
Proof.
  intros Hg. unfold elems. rewrite bool_decide_false by apply abs_nonempty.
  destruct (decide (es = [])) as [->|Hn]; [done|].
  rewrite bool_decide_false; [by rewrite split_abs, decide_False|].
  intros E. apply (f_equal split_slash) in E. rewrite split_abs, decide_False in E by done.
  injection E as ->. apply Forall_cons in Hg as [(? & _) _]. done.
Qed.

Lemma abs_inj es fs : good_elems es -> good_elems fs -> abs es = abs fs -> es = fs.
Proof. intros He Hf E. by rewrite <- (real_elems_abs es), E, real_elems_abs. Qed.

Lemma abs_not_dot es : abs es <> ".".
Proof. done. Qed.

Lemma join_dotdot_prefix n (b : list string) t :
  has_prefix (join_slash (map (fun _ => "..") (n :: b) ++ t)) ".." = true.
Proof.
  apply has_prefix_iff. cbn [map app]. destruct (map (fun _ => "..") b ++ t) as [|x l] eqn:E.
  - by exists "".
  - rewrite join_slash_cons by done. by eexists.
Qed.

(** What [Rel] finds inside the base is below it. *)
Lemma Rel_inside ds qs r :
  good_elems ds -> good_elems qs -> Rel (abs ds) (abs qs) = Some r -> has_prefix r ".." = false ->
  exists es, qs = ds ++ es.
Proof.
  intros Hds Hqs. unfold Rel. rewrite !Clean_abs by done.
  case_bool_decide as E; [intros _ _; exists []; rewrite app_nil_r; by apply abs_inj|].
  rewrite bool_decide_false by apply abs_not_dot. rewrite !rooted_abs. cbn [Bool.eqb negb].
  rewrite !elems_abs by done. destruct (strip_common _ _) as [b t] eqn:Es.
  apply strip_common_spec in Es as (c & Eb & Et).
  destruct b as [|x b'].
  - intros _ _. rewrite app_nil_r in Eb. subst c. injection Et as ->. by exists t.
  - intros Hr Hf. exfalso. destruct t as [|y t'].
    + injection Hr as <-. pose proof (join_dotdot_prefix x b' []) as Hp. rewrite app_nil_r in Hp.
      by apply (eq_true_false_abs _ Hp).
    + case_bool_decide; [done|]. injection Hr as <-.
      by apply (eq_true_false_abs _ (join_dotdot_prefix x b' (y :: t'))).
Qed.

Lemma Rel_below ds es :
  good_elems ds -> good_elems es ->
  Rel (abs ds) (abs (ds ++ es)) = Some (if decide (es = []) then "." else join_slash es).
Proof.
  intros Hds Hes. assert (good_elems (ds ++ es)) by (by apply Forall_app).
  unfold Rel. rewrite !Clean_abs by done. destruct (decide (es = [])) as [->|Hn].
  { by rewrite app_nil_r, bool_decide_true. }
  rewrite bool_decide_false.
  2:{ intros E%abs_inj; [|done..]. apply (f_equal length) in E. rewrite length_app in E.
      destruct es; [done|cbn in E; lia]. }
  rewrite bool_decide_false by apply abs_not_dot. rewrite !rooted_abs. cbn [Bool.eqb negb].
  rewrite !elems_abs by done. by rewrite app_comm_cons, strip_common_app.
Qed.

Lemma upto_slash_app s e : no_slash e -> upto_slash (s +:+ "/" +:+ e) = s +:+ "/".
Proof.
  intros He. induction s as [|c s IH].
  - change (upto_slash ("" +:+ "/" +:+ e)) with (upto_slash ("/" +:+ e)).
    assert (upto_slash e = "") as E.
    { induction e as [|d e IHe]; [done|]. unfold no_slash in He. cbn in He.
      rewrite elem_of_cons in He. cbn. rewrite IHe by (unfold no_slash, bytes; naive_solver).
      rewrite bool_decide_true by done. destruct (Ascii.eqb_spec d "/") as [->|]; [naive_solver|done]. }
    change (upto_slash ("/" +:+ e)) with
      (let r := upto_slash e in if r =s "" then "/" else String "/" r). cbv zeta.
    by rewrite E.
  - change (upto_slash (String c (s +:+ "/" +:+ e)) = String c (s +:+ "/")).
    cbn [upto_slash]. rewrite IH. rewrite bool_decide_false; [done|]. by destruct s.
Qed.

Lemma abs_snoc es e : abs (es ++ [e]) = (if decide (es = []) then "" else abs es) +:+ "/" +:+ e.
Proof.
  case_decide as H; [by subst|].
  assert (join_slash (es ++ [e]) = join_slash es +:+ "/" +:+ e) as E.
  { revert H. induction es as [|x es IH]; [done|]. intros _. destruct (decide (es = [])) as [->|Hn]; [done|].
    change ((x :: es) ++ [e]) with (x :: (es ++ [e])).
    rewrite !join_slash_cons, IH by (done || by destruct es). by rewrite !string_app_assoc. }
  unfold abs. by rewrite E, string_app_assoc.
Qed.

Lemma Dir_abs_snoc es e : good_elems (es ++ [e]) -> Dir (abs (es ++ [e])) = abs es.
Proof.
  intros [Hes He]%Forall_app. apply Forall_singleton in He as (_ & _ & _ & He).
  unfold Dir. rewrite abs_snoc, upto_slash_app by done. case_decide; [by subst|].
  change (abs es +:+ "/") with (abs es +:+ "/" +:+ "").
  rewrite Clean_plain; [|apply rooted_app, rooted_abs|].
  - rewrite real_elems_app, real_elems_abs by done. cbn. by rewrite app_nil_r.
  - rewrite split_slash_app, elem_of_app.
    intros [?|Hs]; [by apply (dots_split_abs es)|]. cbn in Hs. by apply list_elem_of_singleton in Hs.
Qed.

Lemma Join_elem es e : good_elems es -> good_elem e -> FilePath.Join (abs es) e = abs (es ++ [e]).
Proof.
  intros Hes (H1 & H2 & H3 & H4).
  unfold FilePath.Join. rewrite bool_decide_false by apply abs_nonempty.
  rewrite Clean_plain; [|apply rooted_app, rooted_abs|].
  - rewrite real_elems_app, real_elems_abs by done. unfold real_elems.
    by rewrite split_slash_single, filter_cons_True by done.
  - rewrite split_slash_app, elem_of_app, (split_slash_single e), list_elem_of_singleton by done.
    intros [?|?]; [by apply (dots_split_abs es)|congruence].
Qed.
