(* ===== verification/FileSys.v ===== *)
(** * The file system under the agent's file share ([os] on Unix)

    A file system is a map from physical paths, lists of element names below the root, to nodes.
    Path resolution follows symbolic links as the kernel does; the calls of package [os] the file
    share makes are functions on the map.  A call also fails when its environment says so.

    The second part has the facts on the children of an existing directory that the stores share. *)

From S2P Require Import Prelude FilePath.
From Stdlib Require Import ZArith Lia Ascii String.
From stdpp Require Import base gmap strings list fin_maps sorting.

Inductive node :=
  | NDir
  | NFile (data : list Z)
  | NLink (target : string)
  | NOther.                      (** a device, socket or pipe *)

Abbreviation ppath := (list string).
Abbreviation fsys := (gmap ppath node).

Definition node_at (fs : fsys) (p : ppath) : option node :=
  match p with [] => Some NDir | _ => fs !! p end.

(** ** Resolution *)

Inductive walked :=
  | WFound (p : ppath) (n : node)
  | WMissing (p : ppath)         (** only the last element is missing *)
  | WNotExist                    (** an earlier element is missing *)
  | WError.                      (** not a directory, or too many links *)

Definition is_nil {A} (l : list A) : bool := match l with [] => true | _ => false end.

(** [follow] says whether a link as last element is followed; [links] is the kernel's budget. *)
Fixpoint walk (links : nat) (fs : fsys) : ppath -> list string -> bool -> walked :=
  fix go (cur : ppath) (rest : list string) (follow : bool) {struct rest} : walked :=
    match rest with
    | [] => match node_at fs cur with Some n => WFound cur n | None => WNotExist end
    | e :: rest' =>
        if e =s ".." then go (removelast cur) rest' follow
        else
          let p := cur ++ [e] in
          match fs !! p with
          | None => if is_nil rest' then WMissing p else WNotExist
          | Some NDir => go p rest' follow
          | Some (NLink t) =>
              if follow || negb (is_nil rest') then
                match links with
                | O => WError
                | S l => walk l fs (if rooted t then [] else cur) (real_elems t ++ rest') follow
                end
              else WFound p (NLink t)
          | Some n => if is_nil rest' then WFound p n else WError
          end
    end.

Definition maxLinks : nat := 40.
Definition resolve (fs : fsys) (path : string) (follow : bool) : walked :=
  walk maxLinks fs [] (real_elems path) follow.

(** ** The calls *)

Inductive ostat := SInfo (n : node) | SNotExist | SErr.
Definition stat_of (w : walked) : ostat :=
  match w with
  | WFound _ n => SInfo n
  | WMissing _ | WNotExist => SNotExist
  | WError => SErr
  end.
Definition Lstat (fs : fsys) (path : string) : ostat := stat_of (resolve fs path false).
Definition Stat (fs : fsys) (path : string) : ostat := stat_of (resolve fs path true).

Inductive mkResult := MkOk (fs : fsys) | MkExist | MkFail.
Definition Mkdir (fs : fsys) (path : string) : mkResult :=
  match resolve fs path false with
  | WMissing p => MkOk (<[p := NDir]> fs)
  | WFound _ _ => MkExist
  | _ => MkFail
  end.

(** The [bool] is success; directories made before a failure stay. *)
Fixpoint mkdir_all (fs : fsys) (pre es : list string) : bool * fsys :=
  match es with
  | [] => (true, fs)
  | e :: es' =>
      let p := abs (pre ++ [e]) in
      match Stat fs p with
      | SInfo NDir => mkdir_all fs (pre ++ [e]) es'
      | SInfo _ => (false, fs)
      | _ => match Mkdir fs p with
             | MkOk fs' => mkdir_all fs' (pre ++ [e]) es'
             | _ => (false, fs)
             end
      end
  end.
Definition MkdirAll (fs : fsys) (path : string) : bool * fsys := mkdir_all fs [] (real_elems path).

(** An exclusive create of the name the random draw gave: the path, and the open file. *)
Definition CreateTemp (fs : fsys) (dir name : string) : option (string * ppath * fsys) :=
  let path := FilePath.Join dir name in
  match resolve fs path false with
  | WMissing p => Some (path, p, <[p := NFile []]> fs)
  | _ => None
  end.

(** Writing to an open file. *)
Definition WriteOpen (fs : fsys) (p : ppath) (data : list Z) : fsys := <[p := NFile data]> fs.

Definition below (p : ppath) (fs : fsys) : fsys := filter (fun kv => p `prefix_of` fst kv) fs.
Definition children (fs : fsys) (p : ppath) : list (string * node) :=
  omap (fun kv => match drop (length p) (fst kv) with [e] => Some (e, snd kv) | _ => None end)
    (map_to_list (below p fs)).

(** Moving a node with what is below it. *)
Definition move (fs : fsys) (p q : ppath) : fsys :=
  filter (fun kv => ~ p `prefix_of` fst kv) (delete q fs) ∪
  list_to_map ((fun kv => (q ++ drop (length p) (fst kv), snd kv)) <$> map_to_list (below p fs)).

Definition Rename (fs : fsys) (old new : string) : option fsys :=
  match resolve fs old false, resolve fs new false with
  | WFound p n, WMissing q =>
      if bool_decide (p = []) || bool_decide (p `prefix_of` q) then None else Some (move fs p q)
  | WFound p n, WFound q m =>
      if bool_decide (p = []) then None
      else match m, n with
           | NDir, _ => None
           | _, NDir => None
           | _, _ => Some (if bool_decide (p = q) then fs else move fs p q)
           end
  | _, _ => None
  end.

Definition Remove (fs : fsys) (path : string) : option fsys :=
  match resolve fs path false with
  | WFound p n =>
      if bool_decide (p = []) then None
      else match n with
           | NDir => if is_nil (children fs p) then Some (delete p fs) else None
           | _ => Some (delete p fs)
           end
  | _ => None
  end.

Definition OpenRead (fs : fsys) (path : string) : option (list Z) :=
  match resolve fs path true with WFound _ (NFile d) => Some d | _ => None end.

Definition by_name (a b : string * node) : Prop := String.leb (fst a) (fst b) = true.
#[export] Instance by_name_dec : RelDecision by_name.
Proof. intros a b. unfold by_name. apply _. Defined.

(** Sorted by name. *)
Definition ReadDir (fs : fsys) (path : string) : option (list (string * node)) :=
  match resolve fs path true with
  | WFound p NDir =>
      Some (merge_sort by_name (children fs p))
  | _ => None
  end.

(** ** Confinement *)

(** Outside a directory the two file systems agree. *)
Definition same_outside (ds : ppath) (fs fs' : fsys) : Prop :=
  forall k, ~ ds `prefix_of` k -> fs' !! k = fs !! k.

(** No link leads to the directory or lies below it. *)
Definition plain_tree (ds : ppath) (fs : fsys) : Prop :=
  forall q t, fs !! q = Some (NLink t) -> ~ q `prefix_of` ds /\ ~ ds `prefix_of` q.

#[export] Instance same_outside_refl ds : Reflexive (same_outside ds).
Proof. by intros fs k. Qed.
#[export] Instance same_outside_trans ds : Transitive (same_outside ds).
Proof. intros f g h H1 H2 k Hk. by rewrite H2, H1. Qed.

Lemma same_outside_insert ds fs p n : ds `prefix_of` p -> same_outside ds fs (<[p := n]> fs).
Proof. intros Hp k Hk. rewrite lookup_insert_ne; [done|]. by intros ->. Qed.

Lemma same_outside_delete ds fs p : ds `prefix_of` p -> same_outside ds fs (delete p fs).
Proof. intros Hp k Hk. rewrite lookup_delete_ne; [done|]. by intros ->. Qed.

Lemma lookup_move_outside fs p q k :
  ~ p `prefix_of` k -> ~ q `prefix_of` k -> move fs p q !! k = fs !! k.
Proof.
  intros Hp Hq. unfold move. rewrite lookup_union.
  assert (list_to_map ((fun kv => (q ++ drop (length p) (fst kv), snd kv)) <$>
    map_to_list (below p fs)) !! k = (None : option node)) as ->.
  { apply not_elem_of_list_to_map_1. intros (kv & -> & (x & -> & _)%list_elem_of_fmap)%list_elem_of_fmap.
    apply Hq. by exists (drop (length p) (fst x)). }
  assert (forall o : option node, o ∪ None = o) as -> by (by intros []). apply option_eq. intros n. rewrite map_lookup_filter_Some, lookup_delete_Some.
  cbn. split; [naive_solver|]. intros Hn. split_and!; try done. intros ->. by apply Hq.
Qed.

Lemma node_at_ne fs p : p <> [] -> node_at fs p = fs !! p.
Proof. by destruct p. Qed.

Lemma lookup_move_target fs p q n :
  fs !! p = Some n -> (forall k, p `prefix_of` k -> q ++ drop (length p) k = q -> k = p) ->
  move fs p q !! q = Some n.
Proof.
  intros Hp Hinj. unfold move. rewrite lookup_union_Some_raw. right. split.
  - apply map_lookup_filter_None. left. apply lookup_delete_eq.
  - apply elem_of_list_to_map_1'.
    + intros m (x & E & Hx)%list_elem_of_fmap. destruct x as [k v]. injection E as E ->. cbn in *.
      apply elem_of_map_to_list, map_lookup_filter_Some in Hx as [Hk Hpk]. cbn in Hpk.
      rewrite (Hinj k Hpk (eq_sym E)) in Hk. congruence.
    + apply list_elem_of_fmap. exists (p, n). cbn. rewrite drop_all, app_nil_r. split; [done|].
      apply elem_of_map_to_list, map_lookup_filter_Some. done.
Qed.

Lemma lookup_move_source fs p q : ~ q `prefix_of` p -> move fs p q !! p = None.
Proof.
  intros Hq. unfold move. apply lookup_union_None. split.
  - apply map_lookup_filter_None. right. intros x _ Hn. by apply Hn.
  - apply not_elem_of_list_to_map_1. intros (kv & E & (x & -> & _)%list_elem_of_fmap)%list_elem_of_fmap.
    cbn in E. apply Hq. rewrite E. by eexists.
Qed.

(** ** Resolution without links *)

Lemma walk_nil l fs cur follow :
  walk l fs cur [] follow = match node_at fs cur with Some n => WFound cur n | None => WNotExist end.
Proof. by destruct l. Qed.

Lemma walk_cons l fs cur e rest follow :
  walk l fs cur (e :: rest) follow =
    if e =s ".." then walk l fs (removelast cur) rest follow
    else match fs !! (cur ++ [e]) with
         | None => if is_nil rest then WMissing (cur ++ [e]) else WNotExist
         | Some NDir => walk l fs (cur ++ [e]) rest follow
         | Some (NLink t) =>
             if follow || negb (is_nil rest) then
               match l with
               | O => WError
               | S l => walk l fs (if rooted t then [] else cur) (real_elems t ++ rest) follow
               end
             else WFound (cur ++ [e]) (NLink t)
         | Some n => if is_nil rest then WFound (cur ++ [e]) n else WError
         end.
Proof. by destruct l. Qed.

(** The result of a resolution is about exactly this path. *)
Definition lands (fs : fsys) (p : ppath) (w : walked) : Prop :=
  match w with
  | WFound q n => q = p /\ node_at fs p = Some n
  | WMissing q => q = p /\ p <> [] /\ fs !! p = None
  | _ => True
  end.

Lemma walk_lands l fs cur es follow :
  ".." ∉ es ->
  (forall q t, cur `prefix_of` q -> q `prefix_of` cur ++ es -> fs !! q = Some (NLink t) -> q = cur) ->
  lands fs (cur ++ es) (walk l fs cur es follow).
Proof.
  revert cur. induction es as [|e es IH]; intros cur Hd Hnl.
  { rewrite walk_nil, app_nil_r. by destruct (node_at fs cur) eqn:E. }
  rewrite not_elem_of_cons in Hd. destruct Hd as [He Hd].
  rewrite walk_cons, bool_decide_false by done.
  assert (cur ++ e :: es = (cur ++ [e]) ++ es) as Eapp by (by rewrite <- app_assoc).
  assert (cur ++ [e] `prefix_of` cur ++ e :: es) as Hpre by (rewrite Eapp; by eexists).
  assert (cur ++ [e] <> []) as Hne by (by destruct cur).
  destruct (fs !! (cur ++ [e])) as [n|] eqn:En.
  - destruct n as [|d|t|].
    + rewrite Eapp. apply IH; [done|]. intros q t Hq1 Hq2 Hq.
      rewrite <- Eapp in Hq2. assert (q = cur) as ->.
      { apply (Hnl q t); [|done|done]. etrans; [|exact Hq1]. by eexists. }
      apply prefix_length in Hq1. rewrite length_app in Hq1. cbn in Hq1. lia.
    + destruct es; [|done]. split; [done|]. unfold node_at. by destruct (cur ++ [e]).
    + exfalso. apply Hnl in En; [|by eexists|done]. apply (f_equal length) in En.
      rewrite length_app in En. cbn in En. lia.
    + destruct es; [|done]. split; [done|]. unfold node_at. by destruct (cur ++ [e]).
  - by destruct es.
Qed.

Lemma resolve_lands ds fs es follow :
  plain_tree ds fs -> good_elems (ds ++ es) ->
  lands fs (ds ++ es) (resolve fs (abs (ds ++ es)) follow).
Proof.
  intros Hpl Hg. unfold resolve. rewrite real_elems_abs by done.
  apply (walk_lands maxLinks fs [] (ds ++ es) follow); [by apply good_no_dots|].
  intros q t _ Hq Hl. exfalso. destruct (Hpl q t Hl) as [H1 H2].
  destruct (prefix_weak_total q ds (ds ++ es) Hq); [by eexists|done..].
Qed.

(** * Files of an existing directory ([os.ReadFile], and a file replaced by renaming)

    Facts about [FileSys] on the direct children of a directory that exists: what a path of one
    resolves to, what reading, creating, renaming and removing one does.  The stores that save by
    writing a temporary file and renaming it into place share them. *)

(** [os.ReadFile], with the one error its callers tell apart. *)
Inductive readResult := RdData (d : list Z) | RdNotExist | RdError.
Definition ReadFile (fs : fsys) (path : string) : readResult :=
  match resolve fs path true with
  | WFound _ (NFile d) => RdData d
  | WMissing _ | WNotExist => RdNotExist
  | _ => RdError
  end.

(** [os.WriteFile]: created when missing, truncated when a file. *)
Definition WriteFile (fs : fsys) (path : string) (data : list Z) : option fsys :=
  match resolve fs path true with
  | WFound p (NFile _) | WMissing p => Some (WriteOpen fs p data)
  | _ => None
  end.

(** What fails in a save, and how much of a failing write reaches the file. *)
Record saveEnv := SaveEnv { se_fault : string -> bool; se_short : nat }.
Definition no_fault : saveEnv := SaveEnv (fun _ => false) 0.

(** The way the configuration files are saved: the directory, the encoder's bytes (if it gives
    any), and [os.WriteFile], which truncates before it writes. *)
Definition writeDoc (env : saveEnv) (fs : fsys) (path : string) (data : option (list Z)) : bool * fsys :=
  let '(ok, fs1) := MkdirAll fs (Dir path) in
  if se_fault env "mkdirall" || negb ok then (false, fs1)
  else match data with
  | None => (false, fs1)
  | Some data =>
      if se_fault env "open" then (false, fs1)
      else match WriteFile fs1 path (if se_fault env "write" then take (se_short env) data else data) with
           | None => (false, fs1)
           | Some fs2 => (negb (se_fault env "write"), fs2)
           end
  end.

(** Every directory on the way to [ds], and [ds], exists. *)
Definition dir_at (ds : ppath) (fs : fsys) : Prop :=
  forall q, q <> [] -> q `prefix_of` ds -> fs !! q = Some NDir.

(** What stands under a name: nothing, or a regular file. *)
Definition plain_slot (p : ppath) (fs : fsys) : Prop :=
  fs !! p = None \/ exists d, fs !! p = Some (NFile d).

(** The directory exists and the file is missing or a regular file. *)
Definition disk_ok (ds : ppath) (f : string) (fs : fsys) : Prop :=
  dir_at ds fs /\ plain_slot (ds ++ [f]) fs.

Lemma walk_dirs l fs cur es rest follow :
  ".." ∉ es -> (forall q, q <> [] -> q `prefix_of` es -> fs !! (cur ++ q) = Some NDir) ->
  walk l fs cur (es ++ rest) follow = walk l fs (cur ++ es) rest follow.
Proof.
  revert cur. induction es as [|e es IH]; intros cur Hd Hq; [by rewrite app_nil_r|].
  rewrite not_elem_of_cons in Hd. destruct Hd as [He Hd].
  cbn [app]. rewrite walk_cons, bool_decide_false by done.
  rewrite (Hq [e]); [|done|by exists es].
  rewrite IH; [by rewrite <- app_assoc|done|]. intros q Hne Hp.
  rewrite <- app_assoc. apply Hq; [done|]. by apply prefix_cons.
Qed.

Section children.
  Context (ds : ppath) (f : string) (Hg : good_elems (ds ++ [f])).

Lemma good_dir : good_elems ds.
Proof. by apply Forall_app in Hg as [? _]. Qed.

Lemma good_name : good_elem f.
Proof. apply Forall_app in Hg as [_ Hf]. inversion Hf; subst. assumption. Qed.

Lemma child_ne : ds ++ [f] <> [].
Proof. by destruct ds. Qed.

Lemma resolve_child fs follow :
  dir_at ds fs -> plain_slot (ds ++ [f]) fs ->
  resolve fs (abs (ds ++ [f])) follow =
    match fs !! (ds ++ [f]) with Some n => WFound (ds ++ [f]) n | None => WMissing (ds ++ [f]) end.
Proof.
  intros Hdir Hs. unfold resolve. rewrite real_elems_abs by done.
  rewrite (walk_dirs _ _ [] ds [f]) by (exact Hdir || by apply good_no_dots, good_dir).
  cbn [app]. rewrite walk_cons. destruct good_name as (_ & _ & Hdd & _).
  rewrite bool_decide_false by done.
  by destruct Hs as [-> |[d ->]].
Qed.

Lemma ReadFile_child fs :
  dir_at ds fs -> plain_slot (ds ++ [f]) fs ->
  ReadFile fs (abs (ds ++ [f])) =
    match fs !! (ds ++ [f]) with Some (NFile d) => RdData d | _ => RdNotExist end.
Proof.
  intros Hd Hs. unfold ReadFile. rewrite resolve_child by done. by destruct Hs as [-> |[d ->]].
Qed.

Lemma CreateTemp_child fs :
  dir_at ds fs -> plain_slot (ds ++ [f]) fs ->
  CreateTemp fs (abs ds) f =
    match fs !! (ds ++ [f]) with
    | Some _ => None
    | None => Some (abs (ds ++ [f]), ds ++ [f], <[ds ++ [f] := NFile []]> fs)
    end.
Proof.
  intros Hd Hs. unfold CreateTemp. rewrite Join_elem by (apply good_dir || apply good_name).
  rewrite resolve_child by done. by destruct Hs as [-> |[d ->]].
Qed.

Lemma Remove_child fs d :
  dir_at ds fs -> fs !! (ds ++ [f]) = Some (NFile d) ->
  Remove fs (abs (ds ++ [f])) = Some (delete (ds ++ [f]) fs).
Proof.
  intros Hd Hf. unfold Remove. rewrite resolve_child; [|done|right; by eexists].
  rewrite Hf. by rewrite bool_decide_false by apply child_ne.
Qed.

End children.

Lemma dir_at_child_ne (ds q : ppath) (f : string) : q `prefix_of` ds -> q <> ds ++ [f].
Proof. intros Hp%prefix_length ->. rewrite length_app in Hp. cbn in Hp. lia. Qed.

Lemma dir_at_insert ds f n fs : dir_at ds fs -> dir_at ds (<[ds ++ [f] := n]> fs).
Proof.
  intros Hd q Hne Hp. rewrite lookup_insert_ne; [by apply Hd|]. symmetry. by apply dir_at_child_ne.
Qed.

Lemma dir_at_delete ds f fs : dir_at ds fs -> dir_at ds (delete (ds ++ [f]) fs).
Proof.
  intros Hd q Hne Hp. rewrite lookup_delete_ne; [by apply Hd|]. symmetry. by apply dir_at_child_ne.
Qed.

Lemma dir_at_nil fs : dir_at [] fs.
Proof. intros q Hne Hp%prefix_nil_inv. done. Qed.

Lemma dir_at_snoc ds e fs : dir_at ds fs -> fs !! (ds ++ [e]) = Some NDir -> dir_at (ds ++ [e]) fs.
Proof.
  intros Hd He q Hne [k E]. destruct k as [|x k _] using rev_ind.
  - rewrite app_nil_r in E. by rewrite <- E.
  - rewrite app_assoc in E. apply app_inj_tail in E as [E _]. apply Hd; [done|]. by exists k.
Qed.

Lemma child_inj (ds : ppath) (f g : string) : ds ++ [f] = ds ++ [g] -> f = g.
Proof. by intros [= ->]%app_inv_head. Qed.

Lemma child_prefix (ds : ppath) (f g : string) : ds ++ [f] `prefix_of` ds ++ [g] -> f = g.
Proof. intros Hp%prefix_app_inv. by apply prefix_cons_inv_1 in Hp. Qed.

Lemma plain_slot_insert_ne (ds : ppath) (f g : string) (n : node) (fs : fsys) :
  f <> g -> plain_slot (ds ++ [f]) fs -> plain_slot (ds ++ [f]) (<[ds ++ [g] := n]> fs).
Proof. intros Hne H. unfold plain_slot. rewrite lookup_insert_ne; [done|]. by intros ?%child_inj. Qed.

Lemma plain_slot_file (p : ppath) (fs : fsys) (d : list Z) : plain_slot p (<[p := NFile d]> fs).
Proof. right. exists d. apply lookup_insert_eq. Qed.

Lemma WriteFile_child ds f fs d :
  good_elems (ds ++ [f]) -> dir_at ds fs -> plain_slot (ds ++ [f]) fs ->
  WriteFile fs (abs (ds ++ [f])) d = Some (<[ds ++ [f] := NFile d]> fs).
Proof. intros Hg Hd Hs. unfold WriteFile. rewrite resolve_child by done. by destruct Hs as [-> |[? ->]]. Qed.

Lemma elem_of_children fs p e n : (e, n) ∈ children fs p <-> fs !! (p ++ [e]) = Some n.
Proof.
  unfold children. rewrite list_elem_of_omap. split.
  - intros ([k v] & Hin & E). apply elem_of_map_to_list, map_lookup_filter_Some in Hin as [Hk [s Hs]].
    cbn in *. subst k. rewrite drop_app_length in E. destruct s as [|x [|]]; [done| |done].
    by injection E as -> ->.
  - intros Hk. exists (p ++ [e], n). cbn. rewrite drop_app_length. split; [|done].
    apply elem_of_map_to_list, map_lookup_filter_Some. split; [done|]. by eexists.
Qed.

(** No name twice. *)
Lemma NoDup_children fs p : NoDup (map fst (children fs p)).
Proof.
  unfold children. set (h := fun kv : ppath * node => match drop (length p) (fst kv) with [e] => Some (e, snd kv) | _ => None end).
  assert (forall l : list (ppath * node), NoDup (map fst l) -> Forall (fun kv => exists s, fst kv = p ++ s) l ->
    NoDup (map fst (omap h l))) as Hall.
  { intros l. induction l as [|[k v] l IH]; intros Hnd Hf; [constructor|].
    apply NoDup_cons in Hnd as [Hnin Hnd]. apply Forall_cons in Hf as [[s Hs] Hf]. cbn in Hs. subst k.
    cbn [omap list_omap]. unfold h at 1. cbn [fst snd]. rewrite drop_app_length.
    destruct s as [|x [|y s]]; [by apply IH| |by apply IH]. cbn [map]. constructor; [|by apply IH].
    intros Hin. apply Hnin. apply list_elem_of_fmap in Hin as ([e w] & Ee & Hin). cbn in Ee. subst e.
    apply list_elem_of_omap in Hin as ([k w'] & Hk & Eh). apply list_elem_of_fmap. exists (k, w'). split; [|done].
    rewrite Forall_forall in Hf. destruct (Hf _ Hk) as [s Hs]. cbn in Hs. subst k. unfold h in Eh. cbn [fst snd] in Eh.
    rewrite drop_app_length in Eh. destruct s as [|z [|? ?]]; [done| |done]. cbn. congruence. }
  apply Hall; [apply NoDup_fst_map_to_list|]. apply Forall_forall. intros [k v] Hin%elem_of_map_to_list.
  apply map_lookup_filter_Some in Hin as [_ [s Hs]]. by exists s.
Qed.

Lemma resolve_dir fs d follow : good_elems d -> dir_at d fs -> resolve fs (abs d) follow = WFound d NDir.
Proof.
  intros Hg Hd. unfold resolve. rewrite real_elems_abs by done. rewrite <- (app_nil_r d) at 1.
  rewrite walk_dirs by (exact Hd || by apply good_no_dots). cbn [app]. rewrite walk_nil.
  destruct d as [|x d]; [done|]. unfold node_at. by rewrite (Hd (x :: d)).
Qed.

Lemma ReadDir_present fs ds :
  good_elems ds -> dir_at ds fs -> ReadDir fs (abs ds) = Some (merge_sort by_name (children fs ds)).
Proof. intros Hg Hd. unfold ReadDir. by rewrite resolve_dir. Qed.

(** Renaming a file over its sibling. *)
Lemma Rename_child ds f t fs data :
  good_elems (ds ++ [f]) -> good_elems (ds ++ [t]) -> t <> f ->
  dir_at ds fs -> plain_slot (ds ++ [f]) fs -> fs !! (ds ++ [t]) = Some (NFile data) ->
  exists fs', Rename fs (abs (ds ++ [t])) (abs (ds ++ [f])) = Some fs' /\
    fs' !! (ds ++ [f]) = Some (NFile data) /\ fs' !! (ds ++ [t]) = None /\
    (forall k, ~ ds ++ [f] `prefix_of` k -> ~ ds ++ [t] `prefix_of` k -> fs' !! k = fs !! k).
Proof.
  intros Hgf Hgt Hne Hd Hs Ht. exists (move fs (ds ++ [t]) (ds ++ [f])). split_and!.
  - unfold Rename. rewrite !resolve_child; [|done..|right; by eexists]. rewrite Ht.
    assert (ds ++ [t] <> ds ++ [f]) by (by intros ?%child_inj).
    destruct Hs as [-> |[d ->]].
    + rewrite !bool_decide_false; [done| |by destruct ds]. by intros ?%child_prefix.
    + by rewrite !bool_decide_false by (done || by destruct ds).
  - apply lookup_move_target; [done|]. intros k [k' ->] E. rewrite drop_app_length in E.
    destruct k'; [by rewrite app_nil_r|].
    apply (f_equal length) in E. rewrite !length_app in E. cbn in E. lia.
  - apply lookup_move_source. intros E%child_prefix. congruence.
  - intros k Hf Hk. by apply lookup_move_outside.
Qed.

Lemma mkdir_all_present fs pre es :
  good_elems (pre ++ es) -> dir_at (pre ++ es) fs -> mkdir_all fs pre es = (true, fs).
Proof.
  revert pre. induction es as [|e es IH]; intros pre Hg Hd; [done|]. cbn [mkdir_all].
  assert (pre ++ e :: es = (pre ++ [e]) ++ es) as E by (by rewrite <- app_assoc).
  rewrite E in Hg, Hd. pose proof (proj1 (Forall_app _ _ _) Hg) as [Hgp _].
  assert (Stat fs (abs (pre ++ [e])) = SInfo NDir) as ->; [|by apply IH].
  unfold Stat, resolve. rewrite real_elems_abs by done.
  rewrite <- (app_nil_r (pre ++ [e])) at 1. rewrite walk_dirs; [|by apply good_no_dots|].
  - cbn [app]. rewrite walk_nil. unfold node_at. destruct (pre ++ [e]) eqn:E'; [by destruct pre|].
    rewrite Hd; [done|done|by eexists].
  - intros q Hne Hp. apply Hd; [done|]. etrans; [exact Hp|]. by eexists.
Qed.

Lemma MkdirAll_present fs ds : good_elems ds -> dir_at ds fs -> MkdirAll fs (abs ds) = (true, fs).
Proof. intros Hg Hd. unfold MkdirAll. rewrite real_elems_abs by done. by apply mkdir_all_present. Qed.

(** A save into an existing directory either writes nothing, or fails half-way, or succeeds with the
    whole document in the file and every other file as it was. *)
Lemma writeDoc_child env fs ds f data ok fs' :
  good_elems (ds ++ [f]) -> dir_at ds fs -> plain_slot (ds ++ [f]) fs ->
  writeDoc env fs (abs (ds ++ [f])) data = (ok, fs') ->
  (ok = false /\ (fs' = fs \/ se_fault env "write" = true)) \/
  (ok = true /\ exists d, data = Some d /\ fs' = <[ds ++ [f] := NFile d]> fs).
Proof.
  intros Hg Hd Hs. unfold writeDoc. rewrite Dir_abs_snoc by done.
  rewrite MkdirAll_present by (done || by apply (good_dir ds f)).
  destruct (se_fault env "mkdirall"); [intros [= <- <-]; left; by auto|]. cbn [orb negb].
  destruct data as [d|]; [|intros [= <- <-]; left; by auto].
  destruct (se_fault env "open"); [intros [= <- <-]; left; by auto|].
  assert (forall x, WriteFile fs (abs (ds ++ [f])) x = Some (<[ds ++ [f] := NFile x]> fs)) as Hw.
  { intros x. unfold WriteFile. rewrite resolve_child by done. by destruct Hs as [-> |[? ->]]. }
  destruct (se_fault env "write"); rewrite Hw; intros [= <- <-]; [left; by auto|].
  right. split; [done|]. by exists d.
Qed.

Lemma writeDoc_true env fs ds f data fs' :
  good_elems (ds ++ [f]) -> dir_at ds fs -> plain_slot (ds ++ [f]) fs ->
  writeDoc env fs (abs (ds ++ [f])) data = (true, fs') ->
  exists d, data = Some d /\ fs' = <[ds ++ [f] := NFile d]> fs.
Proof. intros Hg Hd Hs H. by destruct (writeDoc_child _ _ _ _ _ _ _ Hg Hd Hs H) as [[? _]|[_ ?]]. Qed.
