(* ===== verification/PortalFile.v ===== *)
(** * The portal's file store ([internal/portal/store/file/file.go])

    A portal's hubs in memory and in one YAML file.  Every mutation rewrites the file through a
    temporary file renamed into place, and undoes or reloads the memory when that fails.  The disk
    is [FileSys]; which system call fails is the environment's choice.  [yaml.v3] is a parameter:
    the codec of the document, with the law that a marshalled document parses back.

    The last part is the replacement of a file as the desktop application does it. *)

From S2P Require Import Prelude Http Sha256 PortalProtocol FilePath FileSys.
From Stdlib Require Import ZArith Lia Ascii String.
From stdpp Require Import base countable sorting gmap strings list fin_maps.

Record storedHub := StoredHub {
  sh_Name : string;
  sh_HubID : string;
  sh_URL : string;
  sh_ViewerToken : string;
  sh_AdminToken : string;
  sh_SyncTokenHash : string;
  sh_OrgName : string
}.

(** The YAML document; a list element may be [null]. *)
Record fileShape := FileShape {
  fs_PortalID : string;
  fs_AdminTokenHash : string;
  fs_Hubs : list (option storedHub)
}.

Record Store := MkStore {
  s_path : string;
  s_portalID : string;
  s_adminTokenHash : string;
  s_hubs : gmap string storedHub
}.

Class ShapeCodec := {
  Marshal : fileShape -> option (list Z);
  Unmarshal : list Z -> option fileShape;
  unmarshal_marshal s d : Marshal s = Some d -> Unmarshal d = Some s
}.

(** What a call takes from outside: random bytes, which system call fails, the name drawn for the
    temporary file, and how much of a failing write reaches the disk. *)
Record fileEnv := FileEnv {
  fe_rand : option (list Z);
  fe_fault : string -> bool;
  fe_tmp : string;
  fe_short : nat
}.

Definition with_hubs (s : Store) (m : gmap string storedHub) : Store :=
  MkStore (s_path s) (s_portalID s) (s_adminTokenHash s) m.
Definition with_adminHash (s : Store) (h : string) : Store :=
  MkStore (s_path s) (s_portalID s) h (s_hubs s).

(** ** Helpers *)

Definition newUUID (rnd : option (list Z)) : option string :=
  match rnd with
  | None => None
  | Some r => Some (format_uuid (take 16 r))
  end.

Definition hashHex (s : string) : string := hex_of (sha256 (z_bytes s)).

Definition toPublicHub (h : storedHub) : Hub :=
  MkHub (sh_Name h) (sh_HubID h) (sh_URL h) (sh_ViewerToken h) (sh_AdminToken h) (sh_OrgName h).

(** Go's [a > b] on strings. *)
Definition str_gt (a b : string) : bool := String.ltb b a.

(** The insertion sort of [sortHubVisibility] and [sortStoredHubs]: the sorted part is kept back to
    front, and the next element moves down past the greater ones. *)
Section insertion.
  Context {A : Type} (name : A -> string).

Fixpoint sink (x : A) (acc : list A) : list A :=
  match acc with
  | [] => [x]
  | y :: acc' => if str_gt (name y) (name x) then y :: sink x acc' else x :: acc
  end.

Definition sort_names (l : list A) : list A :=
  rev (fold_left (fun acc x => sink x acc) l []).

End insertion.

Definition sortHubVisibility : list HubVisibility -> list HubVisibility := sort_names hv_Name.
Definition sortStoredHubs : list storedHub -> list storedHub := sort_names sh_Name.

Section store.
  Context {RO : RangeOrder} {YC : ShapeCodec}.

(** ** Opening, loading and saving *)

Definition loadHubs (l : list (option storedHub)) : gmap string storedHub :=
  fold_left (fun m o =>
    match o with
    | Some h => if sh_Name h =s "" then m else <[sh_Name h := h]> m
    | None => m
    end) l ∅.

Definition shapeOf (s : Store) : fileShape :=
  FileShape (s_portalID s) (s_adminTokenHash s)
    (Some <$> sortStoredHubs (snd <$> range (s_hubs s))).

Definition readStore (env : fileEnv) (fs : fsys) (path : string) : readResult :=
  if fe_fault env "readfile" then RdError else ReadFile fs path.

Definition Open (env : fileEnv) (fs : fsys) (path : string) : option Store :=
  match readStore env fs path with
  | RdNotExist =>
      match newUUID (fe_rand env) with
      | Some id => Some (MkStore path id "" ∅)
      | None => None
      end
  | RdError => None
  | RdData d =>
      match Unmarshal d with
      | None => None
      | Some shape =>
          let mk id := MkStore path id (fs_AdminTokenHash shape) (loadHubs (fs_Hubs shape)) in
          if fs_PortalID shape =s "" then mk <$> newUUID (fe_rand env)
          else Some (mk (fs_PortalID shape))
      end
  end.

Definition dropTmp (env : fileEnv) (fs : fsys) (tmpPath : string) : fsys :=
  if fe_fault env "remove" then fs else default fs (Remove fs tmpPath).

(** Success, and the file systems a crash could leave: the states after the system calls, the
    latest first, the middle of the write included. *)
Definition saveLocked (env : fileEnv) (s : Store) (fs : fsys) : bool * list fsys :=
  if s_path s =s "" then (false, [fs])
  else match Marshal (shapeOf s) with
  | None => (false, [fs])
  | Some data =>
      let dir := Dir (s_path s) in
      let '(ok, fs1) := MkdirAll fs dir in
      if fe_fault env "mkdirall" || negb ok then (false, [fs1; fs])
      else match (if fe_fault env "createtemp" then None
                  else CreateTemp fs1 dir (".portal-" +:+ fe_tmp env +:+ ".tmp")) with
      | None => (false, [fs1; fs])
      | Some (tmpPath, p, fs2) =>
          let part := WriteOpen fs2 p (take (fe_short env) data) in
          let full := WriteOpen fs2 p data in
          if fe_fault env "write" then
            (false, [dropTmp env part tmpPath; part; fs2; fs1; fs])
          else if fe_fault env "close" || fe_fault env "chmod" then
            (false, [dropTmp env full tmpPath; full; part; fs2; fs1; fs])
          else match (if fe_fault env "rename" then None else Rename full tmpPath (s_path s)) with
          | None => (false, [dropTmp env full tmpPath; full; part; fs2; fs1; fs])
          | Some fs3 => (true, [fs3; full; part; fs2; fs1; fs])
          end
      end
  end.

Definition after_save (r : bool * list fsys) (fs : fsys) : fsys := default fs (head (snd r)).

(** A failing reload leaves the memory as it is; its error is ignored by every caller. *)
Definition reloadLocked (env : fileEnv) (s : Store) (fs : fsys) : Store :=
  match readStore env fs (s_path s) with
  | RdNotExist => MkStore (s_path s) (s_portalID s) "" ∅
  | RdError => s
  | RdData d =>
      match Unmarshal d with
      | None => s
      | Some shape =>
          MkStore (s_path s) (fs_PortalID shape) (fs_AdminTokenHash shape)
            (loadHubs (fs_Hubs shape))
      end
  end.

(** ** The operations.  A state is the memory and the disk. *)

Definition fstate : Type := Store * fsys.

(** Saving [s]; on failure the memory becomes what [back] makes of it on the disk left behind. *)
Definition commit (env : fileEnv) (s : Store) (fs : fsys) (back : fsys -> Store)
    : option portalErr * fstate :=
  let r := saveLocked env s fs in
  let fs' := after_save r fs in
  if fst r then (None, (s, fs')) else (Some ErrOther, (back fs', fs')).

(** No rollback: the new hash stays in force when the save fails. *)
Definition SetAdminToken (env : fileEnv) (st : fstate) (token : string)
    : option portalErr * fstate :=
  let '(s, fs) := st in
  let s := with_adminHash s (if token =s "" then "" else hashHex token) in
  commit env s fs (fun _ => s).

Definition HasAuth (st : fstate) : bool := s_adminTokenHash (fst st) <>s "".

(** The one user of a file store. *)
Inductive localUser := LocalUser.

Definition file_Authenticate (st : fstate) (r : preq) : authResult localUser :=
  let hash := s_adminTokenHash (fst st) in
  if hash =s "" then AuthUser LocalUser
  else
    let auth := pq_Authorization r in
    if negb (has_prefix auth "Bearer ") then AuthError ErrUnauthorized
    else
      let presented := trim_prefix auth "Bearer " in
      if presented =s "" then AuthError ErrUnauthorized
      else if hashHex presented <>s hash then AuthError ErrUnauthorized
      else AuthUser LocalUser.

Definition visible (h : storedHub) : HubVisibility :=
  MkHubVisibility (sh_HubID h) (sh_Name h) (sh_URL h) true (sh_OrgName h).

Definition file_ListHubsForUser (st : fstate) (_ : localUser) : portalErr + list HubVisibility :=
  inr (sortHubVisibility ((fun kv => visible (snd kv)) <$> range (s_hubs (fst st)))).

Definition file_LookupHubForUser (st : fstate) (_ : localUser) (hubName : string)
    : portalErr + (Hub * bool) :=
  match s_hubs (fst st) !! hubName with
  | None => inl ErrHubNotFound
  | Some h => inr (toPublicHub h, true)
  end.

Definition file_AddHub (env : fileEnv) (st : fstate) (_ : localUser) (hub : Hub)
    : (portalErr + bool * string) * fstate :=
  let '(s, fs) := st in
  if (h_Name hub =s "") || (h_URL hub =s "") then (inl ErrInvalidInput, st)
  else match GenerateSyncToken (fe_rand env) with
  | None => (inl ErrOther, st)
  | Some syncToken =>
      let existed := bool_decide (is_Some (s_hubs s !! h_Name hub)) in
      let h := StoredHub (h_Name hub) (h_HubID hub) (h_URL hub) (h_ViewerToken hub)
                 (h_AdminToken hub) (HashSyncToken syncToken) (h_OrgName hub) in
      let s1 := with_hubs s (<[h_Name hub := h]> (s_hubs s)) in
      match commit env s1 fs (fun fs' =>
              if existed then reloadLocked env s1 fs'
              else with_hubs s1 (delete (h_Name hub) (s_hubs s1))) with
      | (Some e, st') => (inl e, st')
      | (None, st') => (inr (negb existed, syncToken), st')
      end
  end.

Definition updated (h : storedHub) (u : HubUpdate) : storedHub :=
  StoredHub (default (sh_Name h) (hu_Name u)) (sh_HubID h) (default (sh_URL h) (hu_URL u))
    (default (sh_ViewerToken h) (hu_ViewerToken u)) (default (sh_AdminToken h) (hu_AdminToken u))
    (sh_SyncTokenHash h) (sh_OrgName h).

Definition file_UpdateHub (env : fileEnv) (st : fstate) (_ : localUser) (currentName : string)
    (u : HubUpdate) : option portalErr * fstate :=
  let '(s, fs) := st in
  match s_hubs s !! currentName with
  | None => (Some ErrHubNotFound, st)
  | Some h =>
      let next := updated h u in
      if (sh_Name next =s "") || (sh_URL next =s "") then (Some ErrInvalidInput, st)
      else if sh_Name next <>s currentName then
        if bool_decide (is_Some (s_hubs s !! sh_Name next)) then (Some ErrHubExists, st)
        else
          let s1 := with_hubs s (<[sh_Name next := next]> (delete currentName (s_hubs s))) in
          commit env s1 fs (reloadLocked env s1)
      else
        let s1 := with_hubs s (<[currentName := next]> (s_hubs s)) in
        commit env s1 fs (reloadLocked env s1)
  end.

Definition file_DeleteHub (env : fileEnv) (st : fstate) (_ : localUser) (hubName : string)
    : option portalErr * fstate :=
  let '(s, fs) := st in
  match s_hubs s !! hubName with
  | None => (Some ErrHubNotFound, st)
  | Some _ =>
      let s1 := with_hubs s (delete hubName (s_hubs s)) in
      commit env s1 fs (reloadLocked env s1)
  end.

Definition file_VerifyHubSyncToken (st : fstate) (hubName syncToken : string) : portalErr + Hub :=
  match s_hubs (fst st) !! hubName with
  | None => inl ErrHubNotFound
  | Some h =>
      if sh_SyncTokenHash h =s "" then inl ErrUnauthorized
      else if negb (CompareSyncTokenHash syncToken (sh_SyncTokenHash h)) then inl ErrUnauthorized
      else inr (toPublicHub h)
  end.

Definition set_viewer (h : storedHub) (t : string) : storedHub :=
  StoredHub (sh_Name h) (sh_HubID h) (sh_URL h) t (sh_AdminToken h) (sh_SyncTokenHash h)
    (sh_OrgName h).

Definition file_SetHubViewerToken (env : fileEnv) (st : fstate) (hubName viewerToken : string)
    : option portalErr * fstate :=
  let '(s, fs) := st in
  match s_hubs s !! hubName with
  | None => (Some ErrHubNotFound, st)
  | Some h =>
      let prev := sh_ViewerToken h in
      let s1 := with_hubs s (<[hubName := set_viewer h viewerToken]> (s_hubs s)) in
      commit env s1 fs (fun _ =>
        with_hubs s1 (alter (fun h => set_viewer h prev) hubName (s_hubs s1)))
  end.

#[export] Instance fileStore : PortalStore fstate fileEnv localUser := {
  PortalID st := s_portalID (fst st);
  Authenticate := file_Authenticate;
  ListHubsForUser := file_ListHubsForUser;
  LookupHubForUser := file_LookupHubForUser;
  AddHub := file_AddHub;
  UpdateHub := file_UpdateHub;
  DeleteHub := file_DeleteHub;
  VerifyHubSyncToken := file_VerifyHubSyncToken;
  SetHubViewerToken := file_SetHubViewerToken
}.

End store.

(** ** The insertion sort *)

Section insertion_facts.
  Context {A : Type} (name : A -> string).

Lemma str_gt_spec a b : if str_gt a b then String.le b a else String.le a b.
Proof.
  unfold str_gt, String.le, String.ltb, String.leb.
  destruct (String.compare b a) eqn:E; [|done|].
  - rewrite String.compare_antisym, E. done.
  - rewrite String.compare_antisym, E. done.
Qed.

(** From back to front, no name exceeds the one before it. *)
Definition back_sorted (l : list A) : Prop := StronglySorted (fun x y => by_key name y x) l.

Lemma sink_perm x l : sink name x l ≡ₚ x :: l.
Proof.
  induction l as [|y l IH]; [done|]. cbn. destruct (str_gt _ _); [|done].
  rewrite IH. constructor.
Qed.

Lemma sink_sorted x l : back_sorted l -> back_sorted (sink name x l).
Proof.
  induction 1 as [|y l Hl IH Hy]; [repeat constructor|]. cbn.
  pose proof (str_gt_spec (name y) (name x)) as Hg. destruct (str_gt _ _).
  - constructor; [done|]. rewrite sink_perm. by constructor.
  - constructor; [by constructor|]. constructor; [done|].
    rewrite Forall_forall in *. intros z Hz. transitivity y; [by apply Hy|done].
Qed.

Lemma sinks_spec l acc :
  back_sorted acc ->
  back_sorted (fold_left (fun d x => sink name x d) l acc) /\
  fold_left (fun d x => sink name x d) l acc ≡ₚ l ++ acc.
Proof.
  revert acc. induction l as [|x l IH]; intros acc Hd; [done|].
  destruct (IH (sink name x acc) (sink_sorted x acc Hd)) as [H1 H2]. split; [done|].
  cbn. rewrite H2, sink_perm. by rewrite Permutation_middle.
Qed.

Lemma back_sorted_rev l : back_sorted l -> StronglySorted (by_key name) (rev l).
Proof.
  induction 1 as [|x l Hl IH Hx]; [constructor|]. cbn.
  apply StronglySorted_app. split_and!; [|done|by repeat constructor].
  intros y z Hy Hz%list_elem_of_singleton. subst z.
  rewrite Forall_forall in Hx. apply Hx. by apply list_elem_of_In, in_rev, list_elem_of_In.
Qed.

Lemma sort_names_sorted l : StronglySorted (by_key name) (sort_names name l).
Proof. apply back_sorted_rev. apply sinks_spec. constructor. Qed.

Lemma sort_names_perm l : sort_names name l ≡ₚ l.
Proof.
  unfold sort_names. rewrite <- Permutation_rev.
  rewrite (proj2 (sinks_spec l [] ltac:(constructor))). by rewrite app_nil_r.
Qed.

(** Lists with the same elements, all of different names, sort to the same list. *)
Lemma sort_names_eq l k :
  NoDup (name <$> l) -> l ≡ₚ k -> sort_names name l = sort_names name k.
Proof.
  intros Hnd Hp. apply (by_key_unique name); [|apply sort_names_sorted..|].
  - by rewrite sort_names_perm.
  - by rewrite !sort_names_perm.
Qed.

End insertion_facts.

(** ** The memory *)

(** Hubs stand under their own, nonempty names. *)
Definition well_named (s : Store) : Prop :=
  forall k h, s_hubs s !! k = Some h -> sh_Name h = k /\ k <> "".

Section facts.
  Context {RO : RangeOrder} {YC : ShapeCodec}.
  Implicit Types (s : Store) (st : fstate) (env : fileEnv) (fs : fsys).

Definition named (h : storedHub) : Prop := sh_Name h <> "".

Lemma loadHubs_snoc l o :
  loadHubs (l ++ [o]) =
    match o with
    | Some h => if sh_Name h =s "" then loadHubs l else <[sh_Name h := h]> (loadHubs l)
    | None => loadHubs l
    end.
Proof. unfold loadHubs. by rewrite fold_left_app. Qed.

Lemma loadHubs_named l k h : loadHubs l !! k = Some h -> sh_Name h = k /\ k <> "".
Proof.
  induction l as [|o l IH] using rev_ind; [done|]. rewrite loadHubs_snoc.
  destruct o as [x|]; [|done]. case_bool_decide as Hx; [done|].
  rewrite lookup_insert. case_decide as Hk; [|done]. intros [= ->]. by split; [|rewrite <- Hk].
Qed.

Lemma loadHubs_distinct l k h :
  NoDup (sh_Name <$> l) -> Forall named l ->
  loadHubs (Some <$> l) !! k = Some h <-> h ∈ l /\ sh_Name h = k.
Proof.
  induction l as [|x l IH] using rev_ind; intros Hnd Hne.
  { cbn. split; [done|]. intros [Hin _]. by apply elem_of_nil in Hin. }
  rewrite fmap_app. rewrite fmap_app in Hnd. apply NoDup_app in Hnd as (Hnd & Hdis & _).
  apply Forall_app in Hne as [Hne Hx]. inversion Hx as [|?? Hx' _]; subst.
  cbn [fmap list_fmap]. rewrite loadHubs_snoc, bool_decide_false by done.
  rewrite elem_of_app, list_elem_of_singleton, lookup_insert. case_decide as Hk.
  - split; [intros [= ->]; by split; [right|]|]. intros [[Hh| ->] E]; [|done].
    exfalso. apply (Hdis (sh_Name h)); [by apply list_elem_of_fmap_2|].
    apply list_elem_of_singleton. congruence.
  - rewrite IH by done. naive_solver.
Qed.

Lemma range_values s h :
  well_named s -> h ∈ snd <$> range (s_hubs s) <-> s_hubs s !! sh_Name h = Some h.
Proof.
  intros Hwf. rewrite list_elem_of_fmap. split.
  - intros ([k h'] & -> & Hin). apply elem_of_range in Hin. cbn.
    destruct (Hwf _ _ Hin) as [-> _]. done.
  - intros Hh. exists (sh_Name h, h). split; [done|]. by apply elem_of_range.
Qed.

Lemma range_names s : well_named s -> sh_Name <$> (snd <$> range (s_hubs s)) = (range (s_hubs s)).*1.
Proof.
  intros Hwf. rewrite <- list_fmap_compose. apply list_fmap_ext. intros i [k h] Hi.
  apply list_elem_of_lookup_2, elem_of_range in Hi. by apply Hwf in Hi as [? _].
Qed.

Lemma NoDup_names s : well_named s -> NoDup (sh_Name <$> (snd <$> range (s_hubs s))).
Proof. intros Hwf. rewrite range_names by done. apply range_NoDup. Qed.

(** What is saved loads back as the same hubs. *)
Lemma loadHubs_shapeOf s : well_named s -> loadHubs (fs_Hubs (shapeOf s)) = s_hubs s.
Proof.
  intros Hwf. apply map_eq. intros k. apply option_eq. intros h. unfold shapeOf. cbn [fs_Hubs].
  rewrite loadHubs_distinct.
  - unfold sortStoredHubs. rewrite sort_names_perm, range_values by done.
    split; [by intros [? <-]|]. intros Hh. by destruct (Hwf _ _ Hh) as [<- _].
  - unfold sortStoredHubs. rewrite sort_names_perm. by apply NoDup_names.
  - apply Forall_forall. intros x Hx. unfold sortStoredHubs in Hx.
    rewrite sort_names_perm, range_values in Hx by done. by destruct (Hwf _ _ Hx) as [_ ?].
Qed.

Lemma well_named_insert s h :
  well_named s -> sh_Name h <> "" -> well_named (with_hubs s (<[sh_Name h := h]> (s_hubs s))).
Proof.
  intros Hwf Hne k h'. cbn. rewrite lookup_insert. case_decide as Hk; [|by apply Hwf].
  intros [= <-]. by split; [|rewrite <- Hk].
Qed.

Lemma well_named_delete s k : well_named s -> well_named (with_hubs s (delete k (s_hubs s))).
Proof. intros Hwf k' h'. cbn. intros [_ Hl]%lookup_delete_Some. by apply Hwf. Qed.

Lemma well_named_reload env s fs : well_named s -> well_named (reloadLocked env s fs).
Proof.
  intros Hwf. unfold reloadLocked. destruct (readStore _ _ _); [|by intros ??|done].
  destruct (Unmarshal d) as [shape|]; [|done]. intros k h. apply loadHubs_named.
Qed.

Lemma commit_memory env s fs back :
  well_named s -> (forall fs', well_named (back fs')) -> well_named (fst (snd (commit env s fs back))).
Proof. intros Hs Hb. unfold commit. cbv zeta. destruct (fst (saveLocked env s fs)); [exact Hs|apply Hb]. Qed.

Lemma set_viewer_named s n h t :
  well_named s -> s_hubs s !! n = Some h ->
  well_named (with_hubs s (<[n := set_viewer h t]> (s_hubs s))).
Proof.
  intros Hwf Hh. destruct (Hwf _ _ Hh) as [<- Hne].
  apply (well_named_insert s (set_viewer h t) Hwf Hne).
Qed.

Lemma alter_named s n t :
  well_named s -> well_named (with_hubs s (alter (fun h => set_viewer h t) n (s_hubs s))).
Proof.
  intros Hwf k h. cbn. destruct (decide (n = k)) as [->|Hk].
  - rewrite lookup_alter_eq. intros (h' & Hh' & ->)%fmap_Some. by apply Hwf in Hh'.
  - rewrite lookup_alter_ne by done. by apply Hwf.
Qed.

Lemma AddHub_named env st u h : well_named (fst st) -> well_named (fst (file_AddHub env st u h).2).
Proof.
  destruct st as [s fs]. intros Hwf. unfold file_AddHub. destruct (_ || _) eqn:Hin; [done|].
  destruct (GenerateSyncToken _) as [t|]; [|done]. prop_bool.
  match goal with |- context [commit env ?s1 fs ?b] =>
    pose proof (commit_memory env s1 fs b) as Hc; destruct (commit env s1 fs b) as [[]] eqn:E end;
  (apply Hc; [by apply (well_named_insert s (StoredHub _ _ _ _ _ _ _))|];
   intros fs'; destruct (bool_decide _);
   [apply well_named_reload; by apply (well_named_insert s (StoredHub _ _ _ _ _ _ _))|];
   apply (well_named_delete (with_hubs s _)); by apply (well_named_insert s (StoredHub _ _ _ _ _ _ _))).
Qed.

Lemma UpdateHub_named env st u n d :
  well_named (fst st) -> well_named (fst (file_UpdateHub env st u n d).2).
Proof.
  destruct st as [s fs]. intros Hwf. unfold file_UpdateHub. destruct (s_hubs s !! n) as [h|]; [|done].
  destruct (_ || _) eqn:Hin; [done|]. prop_bool.
  case_bool_decide as Hn; cbn [negb].
  - assert (well_named (with_hubs s (<[n := updated h d]> (s_hubs s)))) as Hw.
    { rewrite <- Hn. by apply well_named_insert. }
    apply commit_memory; [done|]. intros fs'. by apply well_named_reload.
  - destruct (bool_decide _); [done|].
    assert (well_named (with_hubs s (<[sh_Name (updated h d) := updated h d]> (delete n (s_hubs s))))) as Hw.
    { exact (well_named_insert (with_hubs s (delete n (s_hubs s))) (updated h d)
        (well_named_delete s n Hwf) ltac:(done)). }
    apply commit_memory; [done|]. intros fs'. by apply well_named_reload.
Qed.

Lemma DeleteHub_named env st u n : well_named (fst st) -> well_named (fst (file_DeleteHub env st u n).2).
Proof.
  destruct st as [s fs]. intros Hwf. unfold file_DeleteHub. destruct (s_hubs s !! n) as [h|]; [|done].
  apply commit_memory; [by apply well_named_delete|]. intros fs'.
  by apply well_named_reload, well_named_delete.
Qed.

Lemma SetHubViewerToken_named env st n t :
  well_named (fst st) -> well_named (fst (file_SetHubViewerToken env st n t).2).
Proof.
  destruct st as [s fs]. intros Hwf. unfold file_SetHubViewerToken.
  destruct (s_hubs s !! n) as [h|] eqn:Hh; [|done].
  apply commit_memory; [by apply set_viewer_named|]. intros fs'.
  apply alter_named. by apply set_viewer_named.
Qed.

End facts.

(** * A file replaced through a temporary file

    The desktop application saves its list of portals and the endpoint of its own portal the same way:
    the directory is made, the data goes to a fresh temporary file beside the target, which is then
    renamed over it.  A save is the file systems a crash could leave, the latest first. *)

(** [data] is what the encoder gives; the temporary file is named with the random text of the
    environment between [pre] and [.tmp]. *)
Definition replaceFile (env : fileEnv) (fs : fsys) (path pre : string) (data : option (list Z))
    : bool * list fsys :=
  let dir := Dir path in
  let '(ok, fs1) := MkdirAll fs dir in
  if fe_fault env "mkdirall" || negb ok then (false, [fs1; fs])
  else match data with
  | None => (false, [fs1; fs])
  | Some data =>
      match (if fe_fault env "createtemp" then None
             else CreateTemp fs1 dir (pre +:+ fe_tmp env +:+ ".tmp")) with
      | None => (false, [fs1; fs])
      | Some (tmpPath, p, fs2) =>
          let part := WriteOpen fs2 p (take (fe_short env) data) in
          let full := WriteOpen fs2 p data in
          if fe_fault env "write" then (false, [dropTmp env part tmpPath; part; fs2; fs1; fs])
          else if fe_fault env "close" || fe_fault env "chmod" then
            (false, [dropTmp env full tmpPath; full; part; fs2; fs1; fs])
          else match (if fe_fault env "rename" then None else Rename full tmpPath path) with
          | None => (false, [dropTmp env full tmpPath; full; part; fs2; fs1; fs])
          | Some fs3 => (true, [fs3; full; part; fs2; fs1; fs])
          end
      end
  end.

(** For each state of a trace. *)
Ltac all_states := repeat first [apply Forall_nil_2 | apply Forall_cons; split]; try done.
Ltac states := split; [done|all_states].

Section replace.
  Context (ds : ppath) (f : string) (env : fileEnv) (pre : string).

Definition temp_name : string := pre +:+ fe_tmp env +:+ ".tmp".

(** The directory exists, and the file and the temporary name are as a save expects them. *)
Record ready (fs : fsys) : Prop := Ready {
  rd_file : good_elems (ds ++ [f]);
  rd_tmp : good_elems (ds ++ [temp_name]);
  rd_ne : temp_name <> f;
  rd_disk : disk_ok ds f fs;
  rd_slot : plain_slot (ds ++ [temp_name]) fs
}.

(** Everything but the temporary file is as before. *)
Definition but_temp (fs g : fsys) : Prop :=
  disk_ok ds f g /\ plain_slot (ds ++ [temp_name]) g /\
  forall k, ~ ds ++ [temp_name] `prefix_of` k -> g !! k = fs !! k.
(** The file holds [data], everything else but the temporary file is as before. *)
Definition replaced (data : list Z) (fs g : fsys) : Prop :=
  disk_ok ds f g /\ g !! (ds ++ [f]) = Some (NFile data) /\ g !! (ds ++ [temp_name]) = None /\
  forall k, ~ ds ++ [f] `prefix_of` k -> ~ ds ++ [temp_name] `prefix_of` k -> g !! k = fs !! k.

Lemma but_temp_file fs g : temp_name <> f -> but_temp fs g -> g !! (ds ++ [f]) = fs !! (ds ++ [f]).
Proof. intros Hne (_ & _ & H). apply H. by intros E%child_prefix. Qed.

Lemma but_temp_insert fs g d : temp_name <> f -> but_temp fs g -> but_temp fs (<[ds ++ [temp_name] := NFile d]> g).
Proof.
  intros Hne ([Hd Hs] & _ & H). split_and!.
  - split; [by apply dir_at_insert|apply plain_slot_insert_ne; [congruence|done]].
  - apply plain_slot_file.
  - intros k Hk. rewrite lookup_insert_ne; [by apply H|]. intros <-. by apply Hk.
Qed.

Lemma but_temp_drop fs g d :
  good_elems (ds ++ [temp_name]) -> temp_name <> f ->
  but_temp fs (<[ds ++ [temp_name] := NFile d]> g) ->
  but_temp fs (dropTmp env (<[ds ++ [temp_name] := NFile d]> g) (abs (ds ++ [temp_name]))).
Proof.
  intros Hg Hne Hb. unfold dropTmp. destruct (fe_fault env "remove"); [done|].
  destruct Hb as ([Hd Hs] & _ & H). rewrite (Remove_child ds temp_name Hg _ d) by (done || apply lookup_insert_eq).
  cbn [from_option id]. split_and!.
  - split; [by apply dir_at_delete|]. unfold plain_slot. rewrite lookup_delete_ne; [done|]. by intros ?%child_inj.
  - left. apply lookup_delete_eq.
  - intros k Hk. rewrite lookup_delete_ne; [by apply H|]. intros <-. by apply Hk.
Qed.

(** The rename of a full temporary file. *)
Lemma swap_replaces fs d :
  ready fs ->
  exists fs', Rename (WriteOpen (<[ds ++ [temp_name] := NFile []]> fs) (ds ++ [temp_name]) d)
                (abs (ds ++ [temp_name])) (abs (ds ++ [f])) = Some fs' /\ replaced d fs fs'.
Proof.
  intros [Hgf Hgt Hne [Hd Hs] Hts]. assert (but_temp fs fs) as H0 by (by split_and!).
  assert (but_temp fs (WriteOpen (<[ds ++ [temp_name] := NFile []]> fs) (ds ++ [temp_name]) d)) as ([Hd' Hs'] & _ & Ho).
  { unfold WriteOpen. by apply but_temp_insert, but_temp_insert. }
  destruct (Rename_child ds f temp_name _ d Hgf Hgt Hne Hd' Hs') as (fs' & -> & R1 & R2 & R3); [apply lookup_insert_eq|].
  exists fs'. split; [done|].
  assert (forall k, ~ ds ++ [f] `prefix_of` k -> ~ ds ++ [temp_name] `prefix_of` k -> fs' !! k = fs !! k) as Hot.
  { intros k Hk1 Hk2. rewrite R3 by done. by apply Ho. }
  split_and!; [|done..]. split; [|right; by eexists].
  intros q Hqne Hq. rewrite Hot; [by apply Hd| |];
    intros Hpre; pose proof (prefix_length _ _ Hq) as L1; pose proof (prefix_length _ _ Hpre) as L2;
    rewrite length_app in L2; cbn in L2; lia.
Qed.

(** Every state of a save leaves the file as it was, or the save succeeded and in the last state the
    file is the new one. *)
Lemma replaceFile_states fs data :
  ready fs ->
  match replaceFile env fs (abs (ds ++ [f])) pre data with
  | (false, tr) => tr <> [] /\ Forall (but_temp fs) tr
  | (true, tr) => exists d fs' tr', data = Some d /\ tr = fs' :: tr' /\ replaced d fs fs' /\
                    Forall (but_temp fs) tr'
  end.
Proof.
  intros [Hgf Hgt Hne [Hd Hs] Hts]. assert (but_temp fs fs) as H0 by (by split_and!).
  unfold replaceFile. rewrite Dir_abs_snoc by done. rewrite MkdirAll_present by (done || by eapply good_dir).
  destruct (fe_fault env "mkdirall"); [by states|]. cbn [orb negb].
  destruct data as [d|]; [|by states].
  destruct (fe_fault env "createtemp"); [by states|]. fold temp_name.
  rewrite (CreateTemp_child ds temp_name Hgt) by done.
  destruct (fs !! (ds ++ [temp_name])) as [n|]; [by states|].
  assert (forall x, but_temp fs (WriteOpen (<[ds ++ [temp_name] := NFile []]> fs) (ds ++ [temp_name]) x)) as Hw.
  { intros x. unfold WriteOpen. by apply but_temp_insert, but_temp_insert. }
  pose proof (but_temp_insert _ _ [] Hne H0) as H1.
  destruct (fe_fault env "write").
  { states; try apply Hw. apply but_temp_drop; try done. apply Hw. }
  destruct (fe_fault env "close" || fe_fault env "chmod").
  { states; try apply Hw. apply but_temp_drop; try done. apply Hw. }
  destruct (fe_fault env "rename").
  { states; try apply Hw. apply but_temp_drop; try done. apply Hw. }
  destruct (swap_replaces fs d) as (fs' & -> & Hr); [by split|].
  exists d, fs'. eexists. split_and!; [done|done|done|all_states; apply Hw].
Qed.

(** What a completed save leaves. *)
Lemma replaceFile_done fs data ok g :
  ready fs -> replaceFile env fs (abs (ds ++ [f])) pre data = (ok, g) ->
  exists fs', head g = Some fs' /\
    if ok then exists d, data = Some d /\ replaced d fs fs' else but_temp fs fs'.
Proof.
  intros Hr E. pose proof (replaceFile_states fs data Hr) as H. rewrite E in H. destruct ok.
  - destruct H as (d & fs' & tr & -> & -> & H & _). exists fs'. split; [done|]. by exists d.
  - destruct H as [Hne Hall]. destruct g as [|x g]; [done|]. exists x. split; [done|].
    by inversion Hall.
Qed.

(** Without a fault a save succeeds. *)
Lemma replaceFile_works fs d :
  ready fs -> (forall call, fe_fault env call = false) -> fs !! (ds ++ [temp_name]) = None ->
  fst (replaceFile env fs (abs (ds ++ [f])) pre (Some d)) = true.
Proof.
  intros [Hgf Hgt Hne [Hd Hs] Hts] Hnf Hfree. unfold replaceFile.
  rewrite Dir_abs_snoc by done. rewrite MkdirAll_present by (done || by eapply good_dir).
  rewrite !Hnf. cbn [orb negb]. fold temp_name. rewrite (CreateTemp_child ds temp_name Hgt) by done. rewrite Hfree.
  destruct (swap_replaces fs d) as (fs' & -> & _); [by split|done].
Qed.

End replace.
