(* ===== verification/PortalFileProofs.v ===== *)
(** * The file store: atomic saves, recovery, and the promises of the interface

    [PortalFile] on a disk whose directory exists: a save leaves the old document or the new one at
    every moment, a failing operation leaves the store as it was, and what a restart reads is what
    the running store holds.  The laws of [PortalProtocol.PortalStoreLaws] are discharged here. *)

From S2P Require Import Prelude Http Sha256 PortalProtocol FilePath FileSys PortalFile.
From Stdlib Require Import ZArith Lia Ascii String.
From stdpp Require Import base countable sorting gmap strings list fin_maps.

(** Where a store's file stands: a directory, a name in it, and the drawn temporary name. *)
Record placed (ds : ppath) (f : string) (env : fileEnv) : Prop := Placed {
  pl_file : good_elems (ds ++ [f]);
  pl_tmp : good_elems (ds ++ [".portal-" +:+ fe_tmp env +:+ ".tmp"]);
  pl_ne : ".portal-" +:+ fe_tmp env +:+ ".tmp" <> f
}.

(** Everything but the two names in the directory is as before. *)
Definition only_these (ds : ppath) (f t : string) (fs fs' : fsys) : Prop :=
  forall k, ~ ds ++ [f] `prefix_of` k -> ~ ds ++ [t] `prefix_of` k -> fs' !! k = fs !! k.

Section saving.
  Context {RO : RangeOrder} {YC : ShapeCodec}.
  Context (ds : ppath) (f : string) (env : fileEnv) (Hpl : placed ds f env).
  Implicit Types (s : Store) (fs g : fsys).

Definition tmp_name : string := ".portal-" +:+ fe_tmp env +:+ ".tmp".

(** The file reads as before, everything else but the temporary file is as before. *)
Definition old_file (fs g : fsys) : Prop :=
  disk_ok ds f g /\ g !! (ds ++ [f]) = fs !! (ds ++ [f]) /\ only_these ds f tmp_name fs g.

Definition new_file (data : list Z) (fs g : fsys) : Prop :=
  disk_ok ds f g /\ g !! (ds ++ [f]) = Some (NFile data) /\ g !! (ds ++ [tmp_name]) = None /\
  only_these ds f tmp_name fs g.

Lemma old_file_refl fs : disk_ok ds f fs -> old_file fs fs.
Proof. by intros. Qed.

Lemma old_file_tmp fs g d : old_file fs g -> old_file fs (<[ds ++ [tmp_name] := NFile d]> g).
Proof.
  destruct Hpl as [Hf Ht Hne]. intros ([Hd Hs] & He & Ho). split_and!.
  - split; [by apply dir_at_insert|]. apply plain_slot_insert_ne; [|done]. intros E. by apply Hne.
  - rewrite lookup_insert_ne; [done|]. by intros ?%child_inj.
  - intros k Hk1 Hk2. rewrite lookup_insert_ne; [by apply Ho|]. intros <-. by apply Hk2.
Qed.

Lemma old_file_drop fs g d :
  old_file fs (<[ds ++ [tmp_name] := NFile d]> g) ->
  old_file fs (dropTmp env (<[ds ++ [tmp_name] := NFile d]> g) (abs (ds ++ [tmp_name]))).
Proof.
  destruct Hpl as [Hf Ht Hne]. intros Hold. unfold dropTmp. destruct (fe_fault env "remove"); [done|].
  destruct Hold as ([Hd Hs] & He & Ho).
  rewrite (Remove_child ds tmp_name Ht _ d) by (done || apply lookup_insert_eq). cbn [from_option id].
  assert (ds ++ [tmp_name] <> ds ++ [f]) as Hpne by (by intros ?%child_inj).
  split_and!.
  - split; [by apply dir_at_delete|]. unfold plain_slot. by rewrite lookup_delete_ne.
  - by rewrite lookup_delete_ne.
  - intros k Hk1 Hk2. rewrite lookup_delete_ne; [by apply Ho|]. intros <-. by apply Hk2.
Qed.

(** A list of states, each with the old file. *)
Ltac old_all := repeat first [apply Forall_nil_2 | apply Forall_cons; split]; try done.
Ltac old_states := split; [done|old_all].

(** Every state a save passes through has the old file, or the save succeeded and it is the last
    one, with the new file. *)
Lemma saveLocked_states s fs :
  s_path s = abs (ds ++ [f]) -> disk_ok ds f fs -> plain_slot (ds ++ [tmp_name]) fs ->
  match saveLocked env s fs with
  | (false, tr) => tr <> [] /\ Forall (old_file fs) tr
  | (true, tr) => exists data fs' tr', Marshal (shapeOf s) = Some data /\ tr = fs' :: tr' /\
      new_file data fs fs' /\ Forall (old_file fs) tr'
  end.
Proof.
  destruct Hpl as [Hf Ht Hne]. intros Hp Hok Hts. pose proof (old_file_refl fs Hok) as H0.
  unfold saveLocked. rewrite Hp. rewrite bool_decide_false by apply abs_nonempty.
  destruct (Marshal (shapeOf s)) as [data|] eqn:Hm; [|by old_states].
  rewrite Dir_abs_snoc by done. destruct Hok as [Hd Hs].
  rewrite MkdirAll_present by (done || by eapply good_dir).
  destruct (fe_fault env "mkdirall"); [by old_states|]. cbn [orb negb].
  destruct (fe_fault env "createtemp"); [by old_states|]. fold tmp_name.
  rewrite (CreateTemp_child ds tmp_name Ht) by done.
  destruct (fs !! (ds ++ [tmp_name])) as [n|] eqn:Htn; [by old_states|].
  assert (forall d, old_file fs (WriteOpen (<[ds ++ [tmp_name] := NFile []]> fs) (ds ++ [tmp_name]) d)) as Hw.
  { intros d. unfold WriteOpen. by apply old_file_tmp, old_file_tmp. }
  pose proof (old_file_tmp _ _ [] H0) as H1.
  destruct (fe_fault env "write").
  { old_states; try apply Hw. apply old_file_drop, Hw. }
  destruct (fe_fault env "close" || fe_fault env "chmod").
  { old_states; try apply Hw. apply old_file_drop, Hw. }
  destruct (fe_fault env "rename").
  { old_states; try apply Hw. apply old_file_drop, Hw. }
  destruct (Hw data) as ([Hd' Hs'] & He' & Ho').
  destruct (Rename_child ds f tmp_name _ data Hf Ht Hne Hd' Hs') as (fs' & -> & R1 & R2 & R3).
  { apply lookup_insert_eq. }
  exists data, fs'. eexists. split_and!; [done|done| |old_all; apply Hw].
  assert (only_these ds f tmp_name fs fs') as Hot.
  { intros k Hk1 Hk2. rewrite R3 by done. by apply Ho'. }
  split_and!; [|done..]. split; [|right; by eexists].
  intros q Hqne Hq. rewrite Hot; [by apply Hd| |];
    intros Hpre; pose proof (prefix_length _ _ Hq) as L1; pose proof (prefix_length _ _ Hpre) as L2;
    rewrite length_app in L2; cbn in L2; lia.
Qed.

(** Whether a save succeeds depends on the calls and on the two names only: on no stored data. *)
Definition save_works (data : option (list Z)) (fs : fsys) : bool :=
  match data, fs !! (ds ++ [tmp_name]) with
  | Some _, None => negb (existsb (fe_fault env) ["mkdirall"; "createtemp"; "write"; "close"; "chmod"; "rename"])
  | _, _ => false
  end.

Lemma saveLocked_works s fs :
  s_path s = abs (ds ++ [f]) -> disk_ok ds f fs -> plain_slot (ds ++ [tmp_name]) fs ->
  fst (saveLocked env s fs) = save_works (Marshal (shapeOf s)) fs.
Proof.
  destruct Hpl as [Hf Ht Hne]. intros Hp [Hd Hs] Hts. unfold saveLocked, save_works.
  rewrite Hp. rewrite bool_decide_false by apply abs_nonempty.
  destruct (Marshal (shapeOf s)) as [data|]; [|done]. cbn [existsb].
  rewrite Dir_abs_snoc by done. rewrite MkdirAll_present by (done || by eapply good_dir).
  destruct (fe_fault env "mkdirall"); cbn [orb negb fst]; [by destruct (fs !! _)|].
  destruct (fe_fault env "createtemp"); cbn [orb negb fst]; [by destruct (fs !! _)|].
  fold tmp_name. rewrite (CreateTemp_child ds tmp_name Ht) by done.
  destruct (fs !! (ds ++ [tmp_name])) as [n|] eqn:Htn; [done|].
  destruct (fe_fault env "write"); [done|]. destruct (fe_fault env "close"); [done|].
  destruct (fe_fault env "chmod"); [done|]. destruct (fe_fault env "rename"); [done|]. cbn [orb negb].
  pose proof (old_file_tmp fs _ data (old_file_tmp fs fs [] (old_file_refl fs (conj Hd Hs))))
    as ([Hd' Hs'] & _ & _).
  destruct (Rename_child ds f tmp_name _ data Hf Ht Hne Hd' Hs') as (fs' & E & _); [apply lookup_insert_eq|].
  unfold WriteOpen. by rewrite E.
Qed.

End saving.

(** ** Memory and disk *)

(** The mutations of a running store. *)
Inductive fileOp :=
  | OpAdd (h : Hub) | OpUpdate (n : string) (u : HubUpdate) | OpDelete (n : string)
  | OpViewer (n t : string) | OpAdmin (token : string).

Section recovery.
  Context {RO : RangeOrder} {YC : ShapeCodec}.
  Context (ds : ppath) (f : string).
  Implicit Types (s : Store) (fs g : fsys) (st : fstate) (env : fileEnv).

Definition run (env : fileEnv) (op : fileOp) (st : fstate) : option portalErr * fstate :=
  match op with
  | OpAdd h => let r := file_AddHub env st LocalUser h in
               (match fst r with inl e => Some e | inr _ => None end, snd r)
  | OpUpdate n u => file_UpdateHub env st LocalUser n u
  | OpDelete n => file_DeleteHub env st LocalUser n
  | OpViewer n t => file_SetHubViewerToken env st n t
  | OpAdmin t => SetAdminToken env st t
  end.

(** The document [d] holds the store's data. *)
Definition holds (s : Store) (d : list Z) : Prop :=
  exists shape, Unmarshal d = Some shape /\ fs_PortalID shape = s_portalID s /\
    fs_AdminTokenHash shape = s_adminTokenHash s /\ loadHubs (fs_Hubs shape) = s_hubs s.

(** Memory and disk agree: the file holds the store, or there is none and the store is new. *)
Record synced (st : fstate) : Prop := Synced {
  sy_named : well_named (fst st);
  sy_path : s_path (fst st) = abs (ds ++ [f]);
  sy_id : s_portalID (fst st) <> "";
  sy_disk : disk_ok ds f (snd st);
  sy_file : match snd st !! (ds ++ [f]) with
            | Some (NFile d) => holds (fst st) d
            | _ => s_hubs (fst st) = ∅ /\ s_adminTokenHash (fst st) = ""
            end
}.

(** The calls a running process makes: reads work, and the temporary name is free or taken by a
    file. *)
Record fits (env : fileEnv) (fs : fsys) : Prop := Fits {
  fi_placed : placed ds f env;
  fi_read : fe_fault env "readfile" = false;
  fi_tmp : plain_slot (ds ++ [tmp_name env]) fs
}.

Lemma synced_old env s fs g : synced (s, fs) -> old_file ds f env fs g -> synced (s, g).
Proof. intros [H1 H2 H3 H4 H5] (Hd & He & _). split; [done..|]. cbn in *. by rewrite He. Qed.

Lemma readStore_disk env fs :
  fe_fault env "readfile" = false -> good_elems (ds ++ [f]) -> disk_ok ds f fs ->
  readStore env fs (abs (ds ++ [f])) =
    match fs !! (ds ++ [f]) with Some (NFile d) => RdData d | _ => RdNotExist end.
Proof. intros Hr Hg [Hd Hs]. unfold readStore. rewrite Hr. by apply ReadFile_child. Qed.

Lemma Store_eta s : s = MkStore (s_path s) (s_portalID s) (s_adminTokenHash s) (s_hubs s).
Proof. by destruct s. Qed.

(** Reloading after a failed save recovers the state before the operation. *)
Lemma reload_recovers env s s1 fs :
  fe_fault env "readfile" = false -> good_elems (ds ++ [f]) -> synced (s, fs) ->
  s_path s1 = s_path s -> s_portalID s1 = s_portalID s -> reloadLocked env s1 fs = s.
Proof.
  intros Hr Hg [_ Hp _ Hd Hf] E1 E2. unfold reloadLocked. cbn [fst snd] in *.
  rewrite E1, Hp, (readStore_disk env fs) by done. etrans; [|symmetry; apply Store_eta].
  destruct (fs !! _) as [[|d| |]|].
  2:{ destruct Hf as (shape & -> & <- & <- & <-). by rewrite Hp. }
  all: destruct Hf as [-> ->]; by rewrite E2, Hp.
Qed.

Lemma Open_synced env s fs d :
  fe_fault env "readfile" = false -> good_elems (ds ++ [f]) -> synced (s, fs) ->
  fs !! (ds ++ [f]) = Some (NFile d) -> Open env fs (abs (ds ++ [f])) = Some s.
Proof.
  intros Hr Hg [_ Hp Hid Hd Hf] Hfile. unfold Open. cbn [fst snd] in *. rewrite readStore_disk by done.
  rewrite Hfile in *. destruct Hf as (shape & -> & E1 & E2 & E3). rewrite E1.
  rewrite bool_decide_false by done. rewrite E2, E3, <- Hp. by rewrite <- Store_eta.
Qed.

(** Saving a store: it is on disk, or the disk still agrees with the store before. *)
Lemma commit_synced env s s1 fs back e st' :
  fits env fs -> synced (s, fs) -> well_named s1 -> s_path s1 = s_path s ->
  s_portalID s1 = s_portalID s ->
  commit env s1 fs back = (e, st') ->
  match e with
  | None => fst st' = s1 /\ synced st'
  | Some _ => exists g, st' = (back g, g) /\ synced (s, g)
  end.
Proof.
  intros [Hpl Hr Ht] Hsy Hw Ep Ei. unfold commit. cbv zeta.
  pose proof (saveLocked_states ds f env Hpl s1 fs) as Hs.
  rewrite Ep in Hs. specialize (Hs (sy_path _ Hsy) (sy_disk _ Hsy) Ht).
  destruct (saveLocked env s1 fs) as [[] tr]; unfold after_save; cbn [fst snd].
  - destruct Hs as (data & fs' & tr' & Hm & -> & (Hd & Hf & _ & _) & _).
    cbn [head from_option id]. intros [= <- <-]. split; [done|]. split; cbn [fst snd]; try done.
    + rewrite Ep. apply (sy_path _ Hsy).
    + rewrite Ei. apply (sy_id _ Hsy).
    + rewrite Hf. exists (shapeOf s1). split_and!; [by apply unmarshal_marshal|done..|].
      by apply loadHubs_shapeOf.
  - destruct Hs as [Hne Hall]. destruct tr as [|g tr]; [done|].
    cbn [head from_option id]. intros [= <- <-]. inversion Hall as [|?? Hg _]; subst.
    exists g. split; [done|]. by eapply synced_old.
Qed.

(** Failing, the operation leaves the memory as it was; either way memory and disk agree. *)
Definition all_or_nothing (st : fstate) (r : option portalErr * fstate) : Prop :=
  synced (snd r) /\ (fst r <> None -> fst (snd r) = fst st).

Lemma commit_all_or_nothing env s s1 fs back :
  fits env fs -> synced (s, fs) -> well_named s1 -> s_path s1 = s_path s ->
  s_portalID s1 = s_portalID s -> (forall g, synced (s, g) -> back g = s) ->
  all_or_nothing (s, fs) (commit env s1 fs back).
Proof.
  intros Hfit Hsy Hw Ep Ei Hb. destruct (commit env s1 fs back) as [e st'] eqn:E.
  pose proof (commit_synced _ _ _ _ _ _ _ Hfit Hsy Hw Ep Ei E) as H. destruct e as [e|].
  - destruct H as (g & -> & Hg). rewrite (Hb g Hg). by split.
  - by destruct H as [_ H].
Qed.

Lemma refused st e : synced st -> all_or_nothing st (e, st).
Proof. by split. Qed.

Lemma run_spec env op st :
  fits env (snd st) -> synced st ->
  (forall t, op = OpAdmin t -> fst (run env op st) = None) ->
  all_or_nothing st (run env op st).
Proof.
  destruct st as [s fs]. intros Hfit Hsy Hadm.
  assert (forall s1, s_path s1 = s_path s -> s_portalID s1 = s_portalID s -> forall g,
    synced (s, g) -> reloadLocked env s1 g = s) as Hrel.
  { intros s1 E1 E2 g Hg. apply reload_recovers; try done; apply Hfit. }
  pose proof (sy_named _ Hsy) as Hw. cbn [fst snd] in *.
  destruct op as [h|n u|n|n t|t]; cbn [run] in *.
  - unfold file_AddHub. destruct (_ || _) eqn:Hin; [by apply refused|].
    destruct (GenerateSyncToken _) as [tok|]; [|by apply refused]. prop_bool.
    set (s1 := with_hubs s _).
    assert (well_named s1) as Hw1 by (by apply (well_named_insert s (StoredHub _ _ _ _ _ _ _))).
    match goal with |- context [commit env s1 fs ?b] =>
      pose proof (commit_all_or_nothing env s s1 fs b Hfit Hsy Hw1 eq_refl eq_refl) as Hc;
      destruct (commit env s1 fs b) as [[e|] st'] end; apply Hc.
    all: intros g Hg; case_bool_decide as Hex; [by apply Hrel|].
    all: unfold s1, with_hubs; cbn; rewrite delete_insert_id; [symmetry; apply Store_eta|].
    all: by apply eq_None_not_Some.
  - unfold file_UpdateHub. destruct (s_hubs s !! n) as [h|] eqn:Hh; [|by apply refused].
    destruct (_ || _) eqn:Hin; [by apply refused|]. prop_bool. case_bool_decide as Hn; cbn [negb].
    + apply commit_all_or_nothing; try done; [|by apply Hrel]. rewrite <- Hn. by apply well_named_insert.
    + destruct (bool_decide _); [by apply refused|].
      apply commit_all_or_nothing; try done; [|by apply Hrel].
      exact (well_named_insert (with_hubs s (delete n (s_hubs s))) (updated h u)
        (well_named_delete s n Hw) ltac:(done)).
  - unfold file_DeleteHub. destruct (s_hubs s !! n) as [h|] eqn:Hh; [|by apply refused].
    apply commit_all_or_nothing; try done; [by apply well_named_delete|by apply Hrel].
  - unfold file_SetHubViewerToken. destruct (s_hubs s !! n) as [h|] eqn:Hh; [|by apply refused].
    apply commit_all_or_nothing; try done; [by apply set_viewer_named|]. intros g _.
    etrans; [|symmetry; apply Store_eta]. unfold with_hubs. cbn. f_equal.
    rewrite alter_insert_eq. apply insert_id. by destruct h.
  - specialize (Hadm t eq_refl). unfold SetAdminToken in *.
    destruct (commit env _ fs _) as [e st'] eqn:E. cbn in Hadm. subst e.
    apply (commit_synced env s) in E as [_ H]; [|done..]. split; [exact H|]. by intros Hn.
Qed.

Lemma all_or_nothing_cases st r : all_or_nothing st r ->
  match r with (None, st') => synced st' | (Some _, st') => synced (fst st, snd st') /\ fst st' = fst st end.
Proof.
  destruct r as [[e|] [s' fs']]; intros [H1 H2]; [|done]. cbn [fst snd] in *. specialize (H2 ltac:(done)).
  subst s'. by split.
Qed.

(** ** A running store *)

(** One mutation, failing or not; the admin token is only set with success. *)
Inductive file_step (st : fstate) : fstate -> Prop :=
  | FileStep env op : fits env (snd st) ->
      (forall t, op = OpAdmin t -> fst (run env op st) = None) ->
      file_step st (snd (run env op st)).

Lemma steps_synced st st' : rtc file_step st st' -> synced st -> synced st'.
Proof.
  induction 1 as [|st _ st' [env op Hfit Hadm] _ IH]; [done|]. intros Hsy. apply IH.
  by apply run_spec.
Qed.

Lemma newUUID_Some_ne r id : newUUID r = Some id -> id <> "".
Proof.
  destruct r as [r|]; [|done]. intros [= <-]. apply format_uuid_ne.
Qed.

(** A store that was opened agrees with its file, when the document has a portal id. *)
Lemma Open_agrees env fs s :
  fe_fault env "readfile" = false -> good_elems (ds ++ [f]) -> disk_ok ds f fs ->
  Open env fs (abs (ds ++ [f])) = Some s ->
  (forall d shape, fs !! (ds ++ [f]) = Some (NFile d) -> Unmarshal d = Some shape ->
     fs_PortalID shape <> "") ->
  synced (s, fs).
Proof.
  intros Hr Hg Hd Ho Hid. unfold Open in Ho. rewrite readStore_disk in Ho by done.
  destruct Hd as [Hd [Hs|[d Hs]]]; rewrite Hs in Ho.
  - destruct (newUUID _) as [id|] eqn:Hu; [|done]. injection Ho as <-.
    split; cbn [fst snd s_path s_portalID s_hubs]; [by intros ??|done|by eapply newUUID_Some_ne| |].
    + split; [done|by left].
    + by rewrite Hs.
  - destruct (Unmarshal d) as [shape|] eqn:Hu; [|done]. specialize (Hid d shape Hs Hu).
    rewrite bool_decide_false in Ho by done. injection Ho as <-.
    split; cbn [fst snd s_path s_portalID s_hubs]; [|done|done| |].
    + intros k h. apply loadHubs_named.
    + split; [done|right; by eexists].
    + rewrite Hs. by exists shape.
Qed.

(** C37. All or nothing: an operation of a store that agrees with its file, portal id included, either
    succeeds, and the new state is on disk, or fails, and then the file is that of the store before and so
    is the memory, whichever call of the save failed; reads must work, since the roll-back can reload the
    file.  The exception is the admin token: a change that cannot be saved is in force all the same, with
    everything else as it was. *)
Theorem failed_operation_unchanged env op st :
  fits env (snd st) -> synced st ->
  match run env op st with
  | (None, st') => synced st'
  | (Some _, st') =>
      synced (fst st, snd st') /\
      fst st' = match op with OpAdmin t => with_adminHash (fst st) (if t =s "" then "" else hashHex t) | _ => fst st end
  end.
Proof.
  intros Hfit Hsy. destruct op as [h|n u|n|n t|t].
  1-4: apply all_or_nothing_cases, run_spec; done.
  cbn [run]. destruct st as [s fs]. pose proof (sy_named _ Hsy) as Hw. cbn [fst snd] in *. unfold SetAdminToken. destruct (commit _ _ _ _) as [e st'] eqn:E.
  apply (commit_synced env s) in E; [|done..]. destruct e; [|by apply E]. by destruct E as (g & -> & Hg).
Qed.

(** A restart loses nothing: whatever mutations ran, with whatever failures, opening the file
    again gives the store that was running, once a file exists. *)
Theorem restart_recovers env0 fs0 s0 st env1 :
  fe_fault env0 "readfile" = false -> fe_fault env1 "readfile" = false ->
  good_elems (ds ++ [f]) -> disk_ok ds f fs0 ->
  Open env0 fs0 (abs (ds ++ [f])) = Some s0 ->
  (forall d shape, fs0 !! (ds ++ [f]) = Some (NFile d) -> Unmarshal d = Some shape ->
     fs_PortalID shape <> "") ->
  rtc file_step (s0, fs0) st -> snd st !! (ds ++ [f]) <> None ->
  Open env1 (snd st) (abs (ds ++ [f])) = Some (fst st).
Proof.
  intros Hr0 Hr1 Hg Hd Ho Hid Hst Hfile.
  pose proof (steps_synced _ _ Hst (Open_agrees _ _ _ Hr0 Hg Hd Ho Hid)) as Hsy.
  destruct st as [s fs]. destruct (sy_disk _ Hsy) as [_ [Hn|[d Hf]]]; [done|].
  by eapply Open_synced.
Qed.

(** C38. A crash in the middle of a save is harmless: in every state the save passes through, half
    written temporary files included, opening the file gives what it gave before the save or, at
    the end of a successful save, the store that was saved. *)
Theorem crash_in_save env env1 s s1 fs g :
  fits env fs -> fe_fault env1 "readfile" = false -> synced (s, fs) -> well_named s1 ->
  s_path s1 = s_path s -> s_portalID s1 = s_portalID s ->
  g ∈ snd (saveLocked env s1 fs) ->
  Open env1 g (abs (ds ++ [f])) = Open env1 fs (abs (ds ++ [f])) \/
  fst (saveLocked env s1 fs) = true /\ Some g = head (snd (saveLocked env s1 fs)) /\
  Open env1 g (abs (ds ++ [f])) = Some s1.
Proof.
  intros Hfit Hr1 Hsy Hw Ep Ei.
  assert (forall g, old_file ds f env fs g ->
    Open env1 g (abs (ds ++ [f])) = Open env1 fs (abs (ds ++ [f]))) as Hold.
  { intros g' (Hd & He & _). unfold Open.
    rewrite !readStore_disk by (done || apply Hfit || apply (sy_disk _ Hsy)). by rewrite He. }
  pose proof (saveLocked_states ds f env (fi_placed _ _ Hfit) s1 fs) as Hs.
  rewrite Ep in Hs. specialize (Hs (sy_path _ Hsy) (sy_disk _ Hsy) (fi_tmp _ _ Hfit)).
  destruct (saveLocked env s1 fs) as [[] tr]; cbn [fst snd].
  - destruct Hs as (data & fs' & tr' & Hm & -> & (Hd & Hf & _ & _) & Hall).
    rewrite elem_of_cons. intros [-> |Hin].
    + right. split_and!; [done|done|]. apply (Open_synced env1 s1 fs' data); try done; [apply Hfit|].
      split; cbn [fst snd]; try done.
      * rewrite Ep. apply (sy_path _ Hsy).
      * rewrite Ei. apply (sy_id _ Hsy).
      * rewrite Hf. exists (shapeOf s1). split_and!; [by apply unmarshal_marshal|done..|].
        by apply loadHubs_shapeOf.
    + left. rewrite Forall_forall in Hall. by apply Hold, Hall.
  - intros Hin. left. destruct Hs as [_ Hall]. rewrite Forall_forall in Hall. by apply Hold, Hall.
Qed.

End recovery.

(** ** The promises of the interface *)

Section laws.
  Context {RO : RangeOrder} {YC : ShapeCodec}.
  Implicit Types (s : Store) (st : fstate) (env : fileEnv).

Definition rand_ok (env : fileEnv) : Prop :=
  forall b, fe_rand env = Some b -> Forall is_byte b /\ (32 <= length b)%nat.

Lemma toPublicHub_stored h hash :
  toPublicHub (StoredHub (h_Name h) (h_HubID h) (h_URL h) (h_ViewerToken h) (h_AdminToken h) hash
    (h_OrgName h)) = h.
Proof. by destruct h. Qed.

Lemma commit_None env s fs back st' : commit env s fs back = (None, st') -> fst st' = s.
Proof. unfold commit. cbv zeta. destruct (fst (saveLocked env s fs)); by intros [= <-]. Qed.

Lemma HashSyncToken_ne t : HashSyncToken t <> "".
Proof.
  unfold HashSyncToken. intros E%(f_equal bytes). rewrite bytes_of_bytes in E.
  apply (f_equal length) in E. by rewrite length_hex_encode, length_sha256 in E.
Qed.

Lemma file_add_verifies env st h created t st' :
  rand_ok env -> file_AddHub env st LocalUser h = (inr (created, t), st') ->
  file_VerifyHubSyncToken st' (h_Name h) t = inr h.
Proof.
  destruct st as [s fs]. intros Hr. unfold file_AddHub. destruct (_ || _) eqn:Hin; [done|].
  destruct (fe_rand env) as [b|] eqn:Hb; [|done]. cbn [GenerateSyncToken].
  match goal with |- context [commit env ?s1 fs ?bk] =>
    destruct (commit env s1 fs bk) as [[e|] st''] eqn:E end; [done|].
  intros [= <- <- <-]. apply commit_None in E. unfold file_VerifyHubSyncToken. rewrite E. cbn [s_hubs with_hubs].
  rewrite lookup_insert_eq. cbn [sh_SyncTokenHash]. rewrite bool_decide_false by apply HashSyncToken_ne.
  assert (forall t, IsSyncTokenFormat t = true -> CompareSyncTokenHash t (HashSyncToken t) = true) as Hc.
  { intros t Ht. by apply CompareSyncTokenHash_iff. }
  rewrite Hc; [by rewrite toPublicHub_stored|].
  destruct (Hr b Hb) as [Hby Hl]. by eapply generated_format.
Qed.

Lemma viewer_success env s fs n t st' :
  file_SetHubViewerToken env (s, fs) n t = (None, st') ->
  exists h, s_hubs s !! n = Some h /\
    fst st' = with_hubs s (<[n := set_viewer h t]> (s_hubs s)).
Proof.
  unfold file_SetHubViewerToken. destruct (s_hubs s !! n) as [h|]; [|done].
  intros E%commit_None. by exists h.
Qed.

(** Listing shows neither tokens nor the order of the map. *)
Lemma visible_set_viewer (m : gmap string storedHub) n h t (Hh : m !! n = Some h) :
  visible <$> <[n := set_viewer h t]> m = visible <$> m.
Proof.
  apply map_eq. intros k. rewrite !lookup_fmap, lookup_insert. case_decide as Hk; [|done].
  subst k. by rewrite Hh.
Qed.

Lemma listing_perm s :
  (fun kv => visible (snd kv)) <$> range (s_hubs s) ≡ₚ snd <$> map_to_list (visible <$> s_hubs s).
Proof.
  rewrite range_perm, map_to_list_fmap, <- list_fmap_compose. done.
Qed.

Lemma listing_NoDup s :
  well_named s -> NoDup (hv_Name <$> ((fun kv => visible (snd kv)) <$> range (s_hubs s))).
Proof.
  intros Hwf. pose proof (NoDup_names s Hwf) as Hnd.
  rewrite <- list_fmap_compose in Hnd. by rewrite <- list_fmap_compose.
Qed.

Lemma listing_eq s s' :
  well_named s -> visible <$> s_hubs s' = visible <$> s_hubs s ->
  sortHubVisibility ((fun kv => visible (snd kv)) <$> range (s_hubs s')) =
  sortHubVisibility ((fun kv => visible (snd kv)) <$> range (s_hubs s)).
Proof.
  intros Hwf E. symmetry. apply sort_names_eq; [by apply listing_NoDup|].
  by rewrite !listing_perm, E.
Qed.

Lemma file_viewer_lookup env s fs n t st' m :
  well_named s -> file_SetHubViewerToken env (s, fs) n t = (None, st') ->
  file_LookupHubForUser st' LocalUser m =
    match file_LookupHubForUser (s, fs) LocalUser m with
    | inr (h, c) => inr (if m =s n then set_ViewerToken h t else h, c)
    | inl err => inl err
    end.
Proof.
  intros Hwf E. destruct (viewer_success _ _ _ _ _ _ E) as (h & Hh & Es).
  unfold file_LookupHubForUser. rewrite Es. cbn [s_hubs with_hubs fst]. rewrite lookup_insert.
  case_decide as Hk.
  - subst m. by rewrite Hh, bool_decide_true by done.
  - destruct (s_hubs s !! m) as [h'|]; [|done]. by rewrite bool_decide_false by done.
Qed.

Lemma file_viewer_failed env st n t st' err :
  file_SetHubViewerToken env st n t = (Some err, st') -> fst st' = fst st.
Proof.
  destruct st as [s fs]. unfold file_SetHubViewerToken.
  destruct (s_hubs s !! n) as [h|] eqn:Hh; [|by intros [= _ <-]].
  unfold commit. cbv zeta. destruct (fst (saveLocked _ _ _)); [done|]. intros [= _ <-]. cbn [fst].
  etrans; [|symmetry; apply Store_eta]. unfold with_hubs. cbn. f_equal.
  rewrite alter_insert_eq. apply insert_id. by destruct h.
Qed.

Lemma file_lookup_listed st n h m l :
  well_named (fst st) -> file_LookupHubForUser st LocalUser n = inr (h, m) ->
  file_ListHubsForUser st LocalUser = inr l ->
  h_Name h = n /\ MkHubVisibility (h_HubID h) n (h_URL h) m (h_OrgName h) ∈ l.
Proof.
  intros Hwf. unfold file_LookupHubForUser, file_ListHubsForUser.
  destruct (s_hubs (fst st) !! n) as [x|] eqn:Hx; [|done]. intros [= <- <-] [= <-].
  destruct (Hwf _ _ Hx) as [E _]. split; [done|]. unfold sortHubVisibility. rewrite sort_names_perm.
  apply list_elem_of_fmap. exists (n, x). split; [by destruct x; cbn in *; subst|]. by apply elem_of_range.
Qed.

#[export, refine] Instance fileStoreLaws : PortalStoreLaws fstate fileEnv localUser := {
  store_ok st := well_named (fst st);
  env_ok := rand_ok;
  ok_AddHub e st u h := AddHub_named e st u h;
  ok_UpdateHub e st u n d := UpdateHub_named e st u n d;
  ok_DeleteHub e st u n := DeleteHub_named e st u n;
  ok_SetHubViewerToken e st n t := SetHubViewerToken_named e st n t
}.
Proof.
  - intros s [] n h m l. apply file_lookup_listed.
  - intros s n t h. cbn. unfold file_VerifyHubSyncToken.
    destruct (s_hubs s.1 !! n) as [x|]; [|done]. destruct (bool_decide _); [done|].
    destruct (CompareSyncTokenHash _ _) eqn:E; [|done]. intros _.
    apply IsSyncTokenFormat_prefix. by apply CompareSyncTokenHash_iff in E as [? _].
  - intros e s [] h created t s' He E _. exact (file_add_verifies e s h created t s' He E).
  - intros e [s fs] n t s' [] m Hwf E. exact (file_viewer_lookup e s fs n t s' m Hwf E).
  - intros e [s fs] n t s' [] Hwf E. cbn. unfold file_ListHubsForUser. f_equal.
    destruct (viewer_success _ _ _ _ _ _ E) as (h & Hh & ->). cbn [s_hubs with_hubs fst].
    apply (listing_eq s (with_hubs s _)); [done|]. by apply visible_set_viewer.
  - intros e [s fs] n t s' r E. cbn. unfold file_Authenticate.
    by destruct (viewer_success _ _ _ _ _ _ E) as (h & Hh & ->).
  - intros e s n t s' err E. pose proof (file_viewer_failed _ _ _ _ _ _ E) as Es.
    unfold same_view. cbn. unfold file_Authenticate, file_ListHubsForUser, file_LookupHubForUser,
      file_VerifyHubSyncToken. by rewrite Es.
Defined.

End laws.

(** The listing is a function of the hubs alone: it is sorted by name and does not depend on the
    order Go ranges over the map, so it equals the listing under any other order. *)
Theorem listing_deterministic (R1 R2 : RangeOrder) (st : fstate) :
  well_named (fst st) ->
  @file_ListHubsForUser R1 st LocalUser = @file_ListHubsForUser R2 st LocalUser /\
  exists l, @file_ListHubsForUser R1 st LocalUser = inr l /\
    StronglySorted (by_key hv_Name) l /\ NoDup (hv_Name <$> l) /\
    forall v, v ∈ l <-> exists h, s_hubs (fst st) !! hv_Name v = Some h /\ v = visible h.
Proof.
  intros Hwf. split.
  - unfold file_ListHubsForUser. f_equal. apply sort_names_eq; [by apply listing_NoDup|].
    by rewrite !(@listing_perm).
  - eexists. split; [done|]. split_and!; [apply sort_names_sorted| |].
    + unfold sortHubVisibility. rewrite sort_names_perm. by apply listing_NoDup.
    + intros v. unfold sortHubVisibility. rewrite sort_names_perm, list_elem_of_fmap. split.
      * intros ([k h] & -> & Hin). apply elem_of_range in Hin. exists h.
        destruct (Hwf _ _ Hin) as [Ek _]. cbn. by rewrite Ek.
      * intros (h & Hh & ->). exists (sh_Name h, h). split; [done|]. by apply elem_of_range.
Qed.

(** ** A small store evaluated *)

(** A codec with the law: a document is the list of its strings, each as a number. *)
Definition enc (s : string) : Z := Z.pos (encode s).
Definition dec (z : Z) : option string := match z with Z.pos p => decode p | _ => None end.

Lemma dec_enc s : dec (enc s) = Some s.
Proof. apply decode_encode. Qed.

Definition enc_hub (o : option storedHub) : list Z :=
  match o with
  | None => [0%Z]
  | Some h => [1%Z; enc (sh_Name h); enc (sh_HubID h); enc (sh_URL h); enc (sh_ViewerToken h);
               enc (sh_AdminToken h); enc (sh_SyncTokenHash h); enc (sh_OrgName h)]
  end.

Fixpoint dec_hubs (l : list Z) : option (list (option storedHub)) :=
  match l with
  | [] => Some []
  | 0%Z :: l' => cons None <$> dec_hubs l'
  | 1%Z :: a :: b :: c :: d :: e :: f :: g :: l' =>
      match dec a, dec b, dec c, dec d, dec e, dec f, dec g, dec_hubs l' with
      | Some a, Some b, Some c, Some d, Some e, Some f, Some g, Some r =>
          Some (Some (StoredHub a b c d e f g) :: r)
      | _, _, _, _, _, _, _, _ => None
      end
  | _ => None
  end.

Lemma dec_enc_hubs l : dec_hubs (concat (map enc_hub l)) = Some l.
Proof.
  induction l as [|[h|] l IH]; [done| |].
  - cbn [map concat enc_hub app dec_hubs]. by rewrite !dec_enc, IH; destruct h.
  - cbn [map concat enc_hub app dec_hubs]. by rewrite IH.
Qed.

#[export, refine] Instance demo_codec : ShapeCodec | 100 := {
  Marshal s := Some (enc (fs_PortalID s) :: enc (fs_AdminTokenHash s) ::
                     concat (map enc_hub (fs_Hubs s)));
  Unmarshal d := match d with
                 | a :: b :: r =>
                     match dec a, dec b, dec_hubs r with
                     | Some a, Some b, Some hs => Some (FileShape a b hs)
                     | _, _, _ => None
                     end
                 | _ => None
                 end
}.
Proof. intros s d [= <-]. by rewrite !dec_enc, dec_enc_hubs; destruct s. Defined.

Definition demo_dir : ppath := ["srv"].
Definition demo_file : string := "portal.yaml".
Definition demo_path : string := "/srv/portal.yaml".
Definition demo_disk : fsys := {[ demo_dir := NDir ]}.
Definition demo_fenv (fault : string) : fileEnv :=
  FileEnv (Some (repeat 7%Z 32)) (fun call => call =s fault) "42" 3.
Definition demo_hub : Hub := MkHub "home" "id-1" "https://hub.example" "" "adm" "".
Definition fresh_store : Store :=
  MkStore demo_path "07070707-0707-4707-8707-070707070707" "" ∅.

Lemma demo_good : good_elems (demo_dir ++ [demo_file]).
Proof. apply (bool_decide_unpack _). by vm_compute. Qed.

Lemma portal_demo_placed fault : placed demo_dir demo_file (demo_fenv fault).
Proof. split; [apply demo_good|apply (bool_decide_unpack _); by vm_compute|done]. Qed.

Lemma demo_disk_ok : disk_ok demo_dir demo_file demo_disk.
Proof.
  split; [|by left]. intros q Hne Hq. assert (q = ["srv"]) as ->; [|done].
  destruct q as [|e q]; [done|]. destruct Hq as [k E]. injection E as -> E. by destruct q.
Qed.

Lemma demo_fits fault : fault <> "readfile" -> fits demo_dir demo_file (demo_fenv fault) demo_disk.
Proof.
  intros Hne. split; [apply portal_demo_placed| |by left].
  cbn. apply bool_decide_eq_false. congruence.
Qed.

Example demo_open : Open (demo_fenv "") demo_disk demo_path = Some fresh_store.
Proof. by vm_compute. Qed.

Lemma demo_synced : synced demo_dir demo_file (fresh_store, demo_disk).
Proof.
  apply (Open_agrees demo_dir demo_file (demo_fenv "")); [done|apply demo_good|apply demo_disk_ok| |].
  - apply demo_open.
  - intros d shape E. by vm_compute in E.
Qed.

Lemma failed_operation_unchanged_witness :
  fst (run (demo_fenv "rename") (OpAdd demo_hub) (fresh_store, demo_disk)) = Some ErrOther /\
  fst (snd (run (demo_fenv "rename") (OpAdd demo_hub) (fresh_store, demo_disk))) = fresh_store.
Proof.
  assert (fst (run (demo_fenv "rename") (OpAdd demo_hub) (fresh_store, demo_disk)) = Some ErrOther)
    as E by (by vm_compute).
  split; [exact E|].
  pose proof (failed_operation_unchanged demo_dir demo_file (demo_fenv "rename") (OpAdd demo_hub)
    (fresh_store, demo_disk) (demo_fits "rename" ltac:(done)) demo_synced) as H.
  destruct (run _ _ _) as [e st']. cbn [fst] in E. subst e. apply H.
Defined.

Definition added : fstate := snd (run (demo_fenv "") (OpAdd demo_hub) (fresh_store, demo_disk)).

Lemma restart_recovers_witness :
  snd added !! (demo_dir ++ [demo_file]) <> None /\
  Open (demo_fenv "") (snd added) demo_path = Some (fst added).
Proof.
  assert (snd added !! (demo_dir ++ [demo_file]) <> None) as E by (by vm_compute).
  split; [exact E|].
  apply (restart_recovers demo_dir demo_file (demo_fenv "") demo_disk fresh_store added (demo_fenv ""));
    [done|done|apply demo_good|apply demo_disk_ok|apply demo_open| | |exact E].
  - intros d shape Ef. by vm_compute in Ef.
  - eapply rtc_l; [|apply rtc_refl].
    apply (FileStep demo_dir demo_file (fresh_store, demo_disk) (demo_fenv "") (OpAdd demo_hub));
      [by apply demo_fits|done].
Defined.

Definition two_stores : Store := with_adminHash fresh_store "h".

Lemma crash_in_save_witness :
  length (snd (saveLocked (demo_fenv "") two_stores demo_disk)) = 6 /\
  forall g, g ∈ snd (saveLocked (demo_fenv "") two_stores demo_disk) ->
    Open (demo_fenv "") g demo_path = Open (demo_fenv "") demo_disk demo_path \/
    fst (saveLocked (demo_fenv "") two_stores demo_disk) = true /\
    Some g = head (snd (saveLocked (demo_fenv "") two_stores demo_disk)) /\
    Open (demo_fenv "") g demo_path = Some two_stores.
Proof.
  split; [by vm_compute|]. intros g Hg.
  apply (crash_in_save demo_dir demo_file (demo_fenv "") (demo_fenv "") fresh_store two_stores demo_disk);
    [by apply demo_fits|done|apply demo_synced|by intros ??|done|done|exact Hg].
Defined.

Lemma listing_deterministic_witness :
  @file_ListHubsForUser sorted_range added LocalUser =
    @file_ListHubsForUser sorted_range added LocalUser /\
  exists l, @file_ListHubsForUser sorted_range added LocalUser = inr l /\
    StronglySorted (by_key hv_Name) l /\ NoDup (hv_Name <$> l) /\
    forall v, v ∈ l <-> exists h, s_hubs (fst added) !! hv_Name v = Some h /\ v = visible h.
Proof.
  apply (listing_deterministic sorted_range sorted_range added).
  apply (AddHub_named (demo_fenv "") (fresh_store, demo_disk) LocalUser demo_hub). by intros ??.
Defined.

(** A failed change of the admin token stays in force until the process ends. *)
Example admin_token_not_rolled_back :
  let r := SetAdminToken (demo_fenv "rename") (fresh_store, demo_disk) "secret" in
  fst r = Some ErrOther /\ HasAuth (snd r) = true /\
  Open (demo_fenv "") (snd (snd r)) demo_path = Some fresh_store.
Proof. by vm_compute. Qed.

(** The id drawn for a file from before portal ids is lost when a mutation fails: the reload takes
    the empty id of the document. *)
Definition old_document : fileShape :=
  FileShape "" "" [Some (StoredHub "home" "id-1" "https://hub.example" "" "adm" "" "")].
Definition old_disk : fsys :=
  <[demo_dir ++ [demo_file] := NFile (default [] (Marshal old_document))]> demo_disk.

Example reload_drops_portal_id :
  exists s, Open (demo_fenv "") old_disk demo_path = Some s /\
    PortalID (s, old_disk) = "07070707-0707-4707-8707-070707070707" /\
    let r := file_DeleteHub (demo_fenv "rename") (s, old_disk) LocalUser "home" in
    fst r = Some ErrOther /\ PortalID (snd r) = "".
Proof. eexists. split; [by vm_compute|]. by vm_compute. Qed.
