(* ===== verification/Url.v ===== *)
(** * The part of Go's [net/url] the sources use

    Percent-escaping of path segments and query values, its inverse, and the parsing of a query, on
    byte strings, with the round-trip laws.

    The second part takes absolute URLs apart and puts them together. *)

From S2P Require Import Prelude.
From Stdlib Require Import ZArith Lia Ascii String.
From stdpp Require Import base gmap strings list.

Definition is_letter (c : ascii) : bool := is_lower c || is_upper c.
Definition unreserved (c : ascii) : bool :=
  is_letter c || is_digit c || existsb (Ascii.eqb c) ["-"; "_"; "."; "~"]%char.
(** The bytes a path segment keeps. *)
Definition keep_path (c : ascii) : bool :=
  unreserved c || existsb (Ascii.eqb c) ["$"; "&"; "+"; "="; ":"; "@"]%char.

(** [url.PathEscape] writes upper-case hexadecimal digits. *)
Definition upper_hex (n : Z) : ascii := if (n <? 10)%Z then digit_char n else ascii_of_N (Z.to_N (55 + n)).
Definition percent (c : ascii) : list ascii :=
  ["%"%char; upper_hex (code c / 16); upper_hex (code c mod 16)].

Definition PathEscape (s : string) : string :=
  of_bytes (flat_map (fun c => if keep_path c then [c] else percent c) (bytes s)).
Definition QueryEscape (s : string) : string :=
  of_bytes (flat_map (fun c => if unreserved c then [c]
                               else if Ascii.eqb c " " then ["+"%char] else percent c) (bytes s)).

(** [plus]: whether ['+'] stands for a space.  No result for an invalid escape. *)
Fixpoint unescape (plus : bool) (l : list ascii) : option (list ascii) :=
  match l with
  | "%"%char :: l' =>
      match l' with
      | a :: b :: l'' =>
          match hex_val a, hex_val b with
          | Some x, Some y => cons (ascii_of_N (Z.to_N (16 * x + y))) <$> unescape plus l''
          | _, _ => None
          end
      | _ => None
      end
  | c :: l' => cons (if plus && Ascii.eqb c "+" then " "%char else c) <$> unescape plus l'
  | [] => Some []
  end.
Definition PathUnescape (s : string) : option string := of_bytes <$> unescape false (bytes s).
Definition QueryUnescape (s : string) : option string := of_bytes <$> unescape true (bytes s).

(** Splitting on one byte ([strings.Split]). *)
Fixpoint split_on (c : ascii) (l : list ascii) : list (list ascii) :=
  match l with
  | [] => [[]]
  | d :: l' =>
      if Ascii.eqb d c then [] :: split_on c l'
      else match split_on c l' with
           | p :: ps => (d :: p) :: ps
           | [] => [[d]]
           end
  end.

(** [url.ParseQuery]: pairs that do not unescape, or hold a semicolon, are dropped; the first value
    of a key counts. *)
Definition parse_pair (p : list ascii) : option (string * string) :=
  if existsb (Ascii.eqb ";") p then None
  else match p with
       | [] => None
       | _ =>
           let '(k, v) := match cut (of_bytes p) "=" with Some kv => kv | None => (of_bytes p, "") end in
           match QueryUnescape k, QueryUnescape v with
           | Some k, Some v => Some (k, v)
           | _, _ => None
           end
       end.
Definition ParseQuery (q : string) : gmap string string :=
  fold_right (fun kv m => <[fst kv := snd kv]> m) ∅ (omap parse_pair (split_on "&" (bytes q))).

(** ** Round trips *)

Lemma upper_hex_val n : (0 <= n < 16)%Z -> hex_val (upper_hex n) = Some n.
Proof.
  intros H. assert (forallb (fun n => match hex_val (upper_hex n) with Some m => (m =? n)%Z | None => false end)
    (map Z.of_nat (seq 0 16)) = true) as F by reflexivity.
  rewrite forallb_forall in F.
  assert (In n (map Z.of_nat (seq 0 16))) as Hin.
  { apply in_map_iff. exists (Z.to_nat n). split; [lia|]. apply in_seq. lia. }
  apply F in Hin. destruct (hex_val _) as [m|]; [|done]. by apply Z.eqb_eq in Hin as ->.
Qed.

Lemma code_bounds c : (0 <= code c < 256)%Z.
Proof. unfold code. pose proof (N_ascii_bounded c). lia. Qed.

Lemma ascii_code c : ascii_of_N (Z.to_N (16 * (code c / 16) + code c mod 16)) = c.
Proof.
  assert (16 * (code c / 16) + code c mod 16 = code c)%Z as -> by (symmetry; apply Z.div_mod; lia).
  unfold code. by rewrite N2Z.id, ascii_N_embedding.
Qed.

Lemma unescape_percent plus c l : unescape plus (percent c ++ l) = cons c <$> unescape plus l.
Proof.
  pose proof (code_bounds c). cbn [percent app unescape].
  rewrite !upper_hex_val.
  - by rewrite ascii_code.
  - apply Z.mod_pos_bound. lia.
  - split; [apply Z.div_pos; lia|apply Z.div_lt_upper_bound; lia].
Qed.

Lemma unescape_keep plus c l :
  c <> "%"%char -> (plus = true -> c <> "+"%char) ->
  unescape plus (c :: l) = cons c <$> unescape plus l.
Proof.
  intros Hc Hp.
  assert (unescape plus (c :: l) =
    cons (if plus && Ascii.eqb c "+" then " "%char else c) <$> unescape plus l) as ->.
  { destruct c as [[] [] [] [] [] [] [] []]; try reflexivity. by destruct Hc. }
  destruct plus; [|done]. cbn. destruct (Ascii.eqb_spec c "+"); [by destruct (Hp eq_refl)|done].
Qed.

Lemma PathUnescape_escape s : PathUnescape (PathEscape s) = Some s.
Proof.
  unfold PathUnescape, PathEscape. rewrite bytes_of_bytes.
  assert (unescape false (flat_map (fun c => if keep_path c then [c] else percent c) (bytes s)) =
    Some (bytes s)) as ->; [|by cbn; rewrite of_bytes_bytes].
  induction (bytes s) as [|c l IH]; [done|]. cbn [flat_map].
  destruct (keep_path c) eqn:Hk; [|by rewrite unescape_percent, IH].
  cbn [app]. rewrite unescape_keep, IH; [done| |done]. intros ->. by vm_compute in Hk.
Qed.

Lemma QueryUnescape_escape s : QueryUnescape (QueryEscape s) = Some s.
Proof.
  unfold QueryUnescape, QueryEscape. rewrite bytes_of_bytes.
  match goal with |- context [unescape true ?l] => assert (unescape true l = Some (bytes s)) as -> end;
    [|by cbn; rewrite of_bytes_bytes].
  induction (bytes s) as [|c l IH]; [done|]. cbn [flat_map].
  destruct (unreserved c) eqn:Hk.
  - cbn [app]. rewrite unescape_keep, IH; [done|intros ->|intros _ ->]; by vm_compute in Hk.
  - destruct (Ascii.eqb_spec c " ") as [->|]; [|by rewrite unescape_percent, IH].
    cbn [app unescape]. by rewrite IH.
Qed.

(** An escaped text has only kept bytes and escapes. *)
Lemma upper_hex_plain n : (0 <= n < 16)%Z -> unreserved (upper_hex n) = true.
Proof.
  intros H. assert (forallb (fun n => unreserved (upper_hex n)) (map Z.of_nat (seq 0 16)) = true) as F
    by reflexivity.
  rewrite forallb_forall in F. apply F, in_map_iff. exists (Z.to_nat n). split; [lia|]. apply in_seq. lia.
Qed.

Lemma percent_plain c d : d ∈ percent c -> d = "%"%char \/ unreserved d = true.
Proof.
  pose proof (code_bounds c). unfold percent. rewrite !elem_of_cons.
  intros [-> |[-> |[-> |Hn]]]; [by left|right..|by apply elem_of_nil in Hn].
  - apply upper_hex_plain. split; [apply Z.div_pos; lia|apply Z.div_lt_upper_bound; lia].
  - apply upper_hex_plain, Z.mod_pos_bound. lia.
Qed.

Lemma QueryEscape_bytes s d :
  d ∈ bytes (QueryEscape s) -> d = "%"%char \/ d = "+"%char \/ unreserved d = true.
Proof.
  unfold QueryEscape. rewrite bytes_of_bytes. induction (bytes s) as [|c l IH]; cbn [flat_map].
  { by intros ?%elem_of_nil. }
  rewrite elem_of_app. intros [Hd|Hd]; [|by apply IH].
  destruct (unreserved c) eqn:Hc; [apply list_elem_of_singleton in Hd as ->; auto|].
  destruct (Ascii.eqb c " "); [apply list_elem_of_singleton in Hd as ->; auto|].
  apply percent_plain in Hd as [?|?]; auto.
Qed.

Lemma PathEscape_bytes s d : d ∈ bytes (PathEscape s) -> d = "%"%char \/ keep_path d = true.
Proof.
  unfold PathEscape. rewrite bytes_of_bytes. induction (bytes s) as [|c l IH]; cbn [flat_map].
  { by intros ?%elem_of_nil. }
  rewrite elem_of_app. intros [Hd|Hd]; [|by apply IH].
  destruct (keep_path c) eqn:Hc; [apply list_elem_of_singleton in Hd as ->; auto|].
  apply percent_plain in Hd as [?|E]; [auto|right]. unfold keep_path. by rewrite E.
Qed.

Lemma split_on_none c l : c ∉ l -> split_on c l = [l].
Proof.
  induction l as [|d l IH]; [done|]. rewrite not_elem_of_cons. intros [Hd Hl]. cbn.
  destruct (Ascii.eqb_spec d c) as [->|]; [done|]. by rewrite IH.
Qed.

(** The query [k=v] with escaped value parses to that pair; [k] needs no escaping. *)
Lemma ParseQuery_single k v :
  k <> "" -> forallb unreserved (bytes k) = true ->
  ParseQuery (k +:+ "=" +:+ QueryEscape v) = {[ k := v ]}.
Proof.
  intros Hne Hk. rewrite forallb_forall in Hk. unfold ParseQuery.
  assert (forall d, d ∈ bytes (k +:+ "=" +:+ QueryEscape v) ->
    d = "%"%char \/ d = "+"%char \/ d = "="%char \/ unreserved d = true) as Hb.
  { intros d. rewrite !bytes_app, !elem_of_app.
    intros [Hd|[Hd|Hd]]; [right; right; right; by apply Hk, list_elem_of_In| |].
    - apply list_elem_of_singleton in Hd as ->. auto.
    - apply QueryEscape_bytes in Hd. naive_solver. }
  rewrite split_on_none by (intros Hin; apply Hb in Hin as [Hin|[Hin|[Hin|Hin]]]; by vm_compute in Hin).
  cbn [omap list_omap]. unfold parse_pair.
  destruct (existsb _ _) eqn:Hs.
  { apply existsb_exists in Hs as (d & Hd%list_elem_of_In & E). apply Ascii.eqb_eq in E as <-.
    apply Hb in Hd as [Hd|[Hd|[Hd|Hd]]]; by vm_compute in Hd. }
  destruct (bytes (k +:+ "=" +:+ QueryEscape v)) as [|b0 bs] eqn:Eb.
  { exfalso. apply (f_equal length) in Eb. rewrite bytes_app, length_app, bytes_app in Eb. cbn in Eb. lia. }
  rewrite <- Eb, of_bytes_bytes.
  assert (cut (k +:+ "=" +:+ QueryEscape v) "=" = Some (k, QueryEscape v)) as ->.
  { apply cut_byte. intros Hin%list_elem_of_In%Hk. by vm_compute in Hin. }
  rewrite QueryUnescape_escape.
  assert (QueryUnescape k = Some k) as ->; [|done].
  unfold QueryUnescape. assert (unescape true (bytes k) = Some (bytes k)) as ->;
    [|by cbn; rewrite of_bytes_bytes].
  clear -Hk. induction (bytes k) as [|c l IH]; [done|].
  rewrite unescape_keep, IH; [done| | |].
  - intros x Hx. apply Hk. by right.
  - intros ->. by specialize (Hk _ (or_introl eq_refl)).
  - intros _ ->. by specialize (Hk _ (or_introl eq_refl)).
Qed.

Example escape_examples :
  (PathEscape "a b/c", QueryEscape "a b&c=d", PathUnescape "a%2Fb", PathUnescape "a%zz",
   QueryUnescape "a+b") = ("a%20b%2Fc", "a+b%26c%3Dd", Some "a/b", None, Some "a b").
Proof. vm_compute. done. Qed.

(** * URLs taken apart and put together ([url.Parse] and [URL.String] of Go's [net/url])

    Absolute URLs with an authority, as the callers of this library use them: the scheme, the user
    information, the host, the path, and whether a query was there.  What [Parse] refuses is
    refused here; a URL without an authority parses to one without a host. *)

Record URL := MkURL {
  u_Scheme : string;
  u_User : option (string * option string);
  u_Host : string;
  u_Path : string;
  u_RawQuery : string;
  u_ForceQuery : bool;
  u_Fragment : string
}.

Definition one_of (l : list ascii) (c : ascii) : bool := existsb (Ascii.eqb c) l.
Definition ascii_byte (c : ascii) : bool := (code c <? 128)%Z.

(** The bytes a host and a user's name keep when written. *)
Definition keep_host (c : ascii) : bool :=
  unreserved c || one_of (bytes "!$&'()*+,;=:[]<>" ++ [ascii_of_nat 34]) c.
Definition keep_user (c : ascii) : bool := unreserved c || one_of (bytes "$&+,;=") c.
Definition escape_with (keep : ascii -> bool) (s : string) : string :=
  of_bytes (flat_map (fun c => if keep c then [c] else percent c) (bytes s)).

(** Unescaping a host: escapes stand for bytes outside ASCII, or for a percent sign; other ASCII bytes
    must be ones a host keeps.  In a zone an escape may also stand for a blank, or for what a host keeps. *)
Fixpoint unescape_host (zone : bool) (l : list ascii) : option (list ascii) :=
  match l with
  | [] => Some []
  | c :: l' =>
      if Ascii.eqb c "%" then
        match l' with
        | a :: b :: l'' =>
            match hex_val a, hex_val b with
            | Some x, Some y =>
                let d := ascii_of_N (Z.to_N (16 * x + y)) in
                if zone then
                  if negb (Ascii.eqb d "%") && negb (Ascii.eqb d " ") && negb (keep_host d) then None
                  else cons d <$> unescape_host zone l''
                else if (x <? 8)%Z && negb (Ascii.eqb d "%") then None
                else cons d <$> unescape_host zone l''
            | _, _ => None
            end
        | _ => None
        end
      else if ascii_byte c && negb (keep_host c) then None
      else cons c <$> unescape_host zone l'
  end.

Definition last_index (c : ascii) (l : list ascii) : option (list ascii * list ascii) :=
  (fun '(b, a) => (rev a, rev b)) <$> cut_bytes [c] (rev l).

(** An empty port, or a colon and digits. *)
Definition validOptionalPort (l : list ascii) : bool :=
  match l with
  | [] => true
  | c :: l' => Ascii.eqb c ":" && forallb is_digit l'
  end.

Definition parseHost (h : list ascii) : option string :=
  match h with
  | c :: _ =>
      if Ascii.eqb c "[" then
        match last_index "]" h with
        | None => None
        | Some (inside, port) =>
            if negb (validOptionalPort port) then None
            else match cut_bytes (bytes "%25") inside with
            | Some (address, zone) =>
                match unescape_host false address, unescape_host true (bytes "%25" ++ zone),
                      unescape_host false ("]"%char :: port) with
                | Some a, Some z, Some p => Some (of_bytes (a ++ z ++ p))
                | _, _, _ => None
                end
            | None => of_bytes <$> unescape_host false h
            end
        end
      else match last_index ":" h with
           | Some (_, port) =>
               if validOptionalPort (":"%char :: port) then of_bytes <$> unescape_host false h else None
           | None => of_bytes <$> unescape_host false h
           end
  | [] => Some ""
  end.

Definition validUserinfo (l : list ascii) : bool :=
  forallb (fun c => is_letter c || is_digit c || one_of (bytes "-._:~!$&'()*+,;=%@") c) l.

(** The authority after the two slashes. *)
Definition parseAuthority (l : list ascii) : option (option (string * option string) * string) :=
  match last_index "@" l with
  | None => pair None <$> parseHost l
  | Some (user, h) =>
      host ← parseHost h;
      if negb (validUserinfo user) then None
      else match cut (of_bytes user) ":" with
      | None => name ← PathUnescape (of_bytes user); Some (Some (name, None), host)
      | Some (name, pass) =>
          name ← PathUnescape name; pass ← PathUnescape pass; Some (Some (name, Some pass), host)
      end
  end.

(** The scheme before the first colon: letters, and after the first one also digits and three signs.
    Something else before the colon means there is no scheme. *)
Fixpoint scheme_end (first : bool) (l : list ascii) : option (list ascii * list ascii) :=
  match l with
  | [] => None
  | c :: l' =>
      if is_letter c || (negb first && (is_digit c || one_of (bytes "+-.") c)) then
        (fun '(a, b) => (c :: a, b)) <$> scheme_end false l'
      else if Ascii.eqb c ":" && negb first then Some ([], l') else None
  end.

Definition control (c : ascii) : bool := (code c <? 32)%Z || (code c =? 127)%Z.

(** [None]: refused, or without a scheme, which no caller accepts. *)
Definition Parse (raw : string) : option URL :=
  let '(main, frag) := match cut raw "#" with Some p => p | None => (raw, "") end in
  if existsb control (bytes main) then None
  else
    '(scheme, rest) ← scheme_end true (bytes main);
    let scheme := to_lower (of_bytes scheme) in
    let rest := of_bytes rest in
    let '(rest, query, force) :=
      match cut rest "?" with
      | None => (rest, "", false)
      | Some (p, q) => (p, q, q =s "")
      end in
    fragment ← PathUnescape frag;
    if negb (has_prefix rest "/") then Some (MkURL scheme None "" rest query force fragment)
    else if negb (has_prefix rest "//") then
      path ← PathUnescape rest; Some (MkURL scheme None "" path query force fragment)
    else
      let after := bytes (trim_prefix rest "//") in
      let '(auth, path) := match cut_bytes ["/"%char] after with
                           | Some (a, p) => (a, "/"%char :: p) | None => (after, []) end in
      '(user, host) ← parseAuthority auth;
      path ← PathUnescape (of_bytes path);
      Some (MkURL scheme user host path query force fragment).

(** [URL.String] of a URL with a host and without a path. *)
Definition base_string (u : URL) : string :=
  u_Scheme u +:+ "://" +:+
  match u_User u with
  | None => ""
  | Some (name, pass) =>
      escape_with keep_user name +:+
      match pass with Some p => ":" +:+ escape_with keep_user p | None => "" end +:+ "@"
  end +:+
  escape_with keep_host (u_Host u) +:+
  (if u_ForceQuery u || (u_RawQuery u <>s "") then "?" +:+ u_RawQuery u else "") +:+
  (if u_Fragment u <>s "" then "#" +:+ u_Fragment u else "").

(** A text without control bytes is its scheme, an authority and a path. *)
Example parse_examples :
  Parse "HTTPS://Portal.Example:8443/a/b?x=1#f" =
    Some (MkURL "https" None "Portal.Example:8443" "/a/b" "x=1" false "f") /\
  Parse "https://al:p%40w@h" = Some (MkURL "https" (Some ("al", Some "p@w")) "h" "" "" false "") /\
  Parse "http://[::1]:80/" = Some (MkURL "http" None "[::1]:80" "/" "" false "") /\
  Parse "http://h:x" = None /\ Parse "http://a b/" = None /\ Parse "1http://a" = None /\
  Parse "http://%41/" = None /\ Parse "mailto:a" = Some (MkURL "mailto" None "" "a" "" false "").
Proof. by vm_compute. Qed.
