(* ===== verification/PortalServer.v ===== *)
(** * The portal server ([internal/portal/server.go], [fleet.go], [admin_proxy.go], [public_proxy.go])

    The handlers of the portal protocol over any store ([PortalProtocol.PortalStore]): discovery,
    the hub directory, the hub-driven sync, the token endpoint, the admin and public proxies and the
    fleet aggregation, and the [http.ServeMux] in front of them.  Upstream hubs are the
    environment: a function from the request sent to what comes back.

    The second part has the theorems. *)

From S2P Require Import Prelude Http PortalProtocol FilePath Url Sha256 FileSys PortalFile PortalFileProofs.
From Stdlib Require Import ZArith Lia Ascii String Permutation.
From stdpp Require Import base gmap strings list sorting fin_maps.

(** ** Requests sent upstream *)

Record upreq := UpReq {
  up_Method : string;
  up_URL : string;
  up_Bearer : string;              (** empty when no Authorization header is set *)
  up_ContentType : string;         (** likewise for the other headers *)
  up_IfMatch : string;
  up_IfNoneMatch : string;
  up_Body : list Z
}.
Definition plainGet (url bearer : string) : upreq := UpReq "GET" url bearer "" "" "" [].

(** One [Read] of a body: the bytes it delivers and how it ends. *)
Inductive readEnd := ReadMore | ReadEOF | ReadFailed.

Record upreply := UpReply {
  ur_Status : Z;
  ur_ContentType : string;
  ur_ETag : string;
  ur_Reads : list (list Z * readEnd);
  ur_Json : reqBody                (** what decoding the body as JSON gives *)
}.

(** [http.NewRequest] refuses the URL, [Do] fails, or a reply. *)
Inductive upresult := UpBadURL | UpFailed | UpOk (r : upreply).
Abbreviation upnet := (upreq -> upresult).

(** ** Responses *)

Inductive respBody :=
  | RNone
  | RWellKnown (portalID : string)
  | RHubs (hubs : list HubVisibility)
  | RAdded (hubs : list HubVisibility) (syncToken : string) (updated : bool)
  | RSynced
  | RToken (token : string)
  | RAgents (agents : list (gmap string json))
  | RError (msg : string)
  | RRaw (data : list Z).

Record presp := PResp {
  pr_Status : Z;
  pr_Body : respBody;
  pr_ContentType : string;
  pr_Cache : string;
  pr_ETag : string
}.

Definition jsonType : string := "application/json; charset=utf-8".
Definition writeJSON (status : Z) (body : respBody) : presp := PResp status body jsonType "" "".
Definition writeError (status : Z) (msg : string) : presp := writeJSON status (RError msg).

Definition writeStoreError (e : portalErr) : presp :=
  match e with
  | ErrUnauthorized => writeError 401 "unauthorized"
  | ErrForbidden => writeError 403 "forbidden"
  | ErrHubNotFound => writeError 404 "hub not found"
  | ErrHubExists => writeError 409 "hub already exists"
  | ErrInvalidInput => writeError 400 "invalid input"
  | ErrOther => writeError 500 "internal error"
  end.

(** ** Parsing *)

(** [r.URL.Path]; the server never sees an invalid escape. *)
Definition unescaped (s : string) : string := default s (PathUnescape s).
Definition url_Path (r : preq) : string := unescaped (pq_Escaped r).

(** With [DisallowUnknownFields]: the fields, when every key is one of the struct's. *)
Definition decodeJSONBody (names : list string) (b : reqBody) : option (list (string * json)) :=
  match json_fields b with
  | Some kvs =>
      if forallb (fun kv => existsb (equal_fold (fst kv)) names) kvs then Some kvs else None
  | None => None
  end.

Definition bearerToken (r : preq) : option string :=
  let auth := pq_Authorization r in
  if negb (has_prefix auth "Bearer ") then None
  else
    let tok := trim_prefix auth "Bearer " in
    if tok =s "" then None else Some tok.

Record addHubRequest := AddHubRequest {
  ar_Name : string; ar_HubID : string; ar_URL : string;
  ar_ViewerToken : string; ar_AdminToken : string; ar_OrgName : string
}.

Definition decodeAdd (b : reqBody) : option addHubRequest :=
  match decodeJSONBody ["name"; "hubId"; "url"; "viewerToken"; "adminToken"; "orgName"] b with
  | None => None
  | Some kvs =>
      let '(name, ok1) := decode_string "name" kvs "" true in
      let '(hubID, ok2) := decode_string "hubId" kvs "" true in
      let '(url, ok3) := decode_string "url" kvs "" true in
      let '(viewer, ok4) := decode_string "viewerToken" kvs "" true in
      let '(admin, ok5) := decode_string "adminToken" kvs "" true in
      let '(org, ok6) := decode_string "orgName" kvs "" true in
      if ok1 && ok2 && ok3 && ok4 && ok5 && ok6
      then Some (AddHubRequest name hubID url viewer admin org) else None
  end.

Definition decodeUpdate (b : reqBody) : option (string * HubUpdate) :=
  match decodeJSONBody ["currentName"; "name"; "url"; "viewerToken"; "adminToken"] b with
  | None => None
  | Some kvs =>
      let '(cur, ok1) := decode_string "currentName" kvs "" true in
      let '(name, ok2) := decode_string_ptr "name" kvs None true in
      let '(url, ok3) := decode_string_ptr "url" kvs None true in
      let '(viewer, ok4) := decode_string_ptr "viewerToken" kvs None true in
      let '(admin, ok5) := decode_string_ptr "adminToken" kvs None true in
      if ok1 && ok2 && ok3 && ok4 && ok5
      then Some (cur, MkHubUpdate name url viewer admin) else None
  end.

Definition decodeSync (b : reqBody) : option (string * string) :=
  match decodeJSONBody ["name"; "viewerToken"] b with
  | None => None
  | Some kvs =>
      let '(name, ok1) := decode_string "name" kvs "" true in
      let '(viewer, ok2) := decode_string "viewerToken" kvs "" true in
      if ok1 && ok2 then Some (name, viewer) else None
  end.

(** The order in which concurrent fetches finish. *)
Class Interleaving := {
  finish {A : Type} : list A -> list A;
  finish_perm {A : Type} (l : list A) : finish l ≡ₚ l
}.
#[export] Instance in_order : Interleaving | 100 :=
  { finish A l := l; finish_perm A l := reflexivity _ }.

(** A handler's outcome: its response, or nothing when the process panics; the requests it sent
    upstream; the store it leaves. *)
Record outcome (T : Type) := Outcome {
  o_resp : option presp;
  o_sent : list upreq;
  o_store : T
}.
Arguments Outcome {T}. Arguments o_resp {T}. Arguments o_sent {T}. Arguments o_store {T}.

(** [copyBody]: everything read until EOF or an error, while the writer accepts it. *)
Fixpoint copyBody (reads : list (list Z * readEnd)) (accept : nat) : list Z :=
  match reads, accept with
  | [], _ | _, O => []
  | (chunk, e) :: reads', S accept' =>
      chunk ++ match e with
               | ReadMore => copyBody reads' (if (0 <? length chunk)%nat then accept' else accept)
               | _ => []
               end
  end.

Section server.
  Context {T E U : Type} {PS : PortalStore T E U} {IL : Interleaving}.
  Context (net : upreq -> upresult).

Definition done_with (st : T) (sent : list upreq) (p : presp) : outcome T := Outcome (Some p) sent st.

(** [authenticate]: a user, or the 401 already written. *)
Definition authenticate (st : T) (r : preq) : presp + U :=
  match Authenticate st r with
  | AuthUser u => inr u
  | _ => inl (writeError 401 "unauthorized")
  end.

Definition handleWellKnown (st : T) (r : preq) : outcome T :=
  let body := if pq_Method r =s "HEAD" then RNone else RWellKnown (PortalID st) in
  done_with st [] (PResp 200 body jsonType "public, max-age=86400" "").

(** ** The hub directory *)

Definition respond_hubs (st : T) (sent : list upreq) (u : U) (mk : list HubVisibility -> respBody)
    : outcome T :=
  match ListHubsForUser st u with
  | inl e => done_with st sent (writeStoreError e)
  | inr hubs => done_with st sent (writeJSON 200 (mk hubs))
  end.

Definition handleHubsList (st : T) (r : preq) : outcome T :=
  match authenticate st r with
  | inl p => done_with st [] p
  | inr u => respond_hubs st [] u RHubs
  end.

(** A request leaves unless its URL is refused. *)
Definition sent_ok (q : upreq) : bool := match net q with UpBadURL => false | _ => true end.

(** The requests sent, and the id; no id on any error. *)
Definition discoverHubID (hubURL : string) : list upreq * option string :=
  let q := plainGet (trim_slashes hubURL +:+ "/.well-known/tela") "" in
  (List.filter sent_ok [q],
      match net q with
      | UpBadURL | UpFailed => None
      | UpOk p =>
          if negb (ur_Status p =? 200)%Z then Some ""
          else match json_fields (ur_Json p) with
               | None => None
               | Some kvs =>
                   let '(id, ok) := decode_string "hubId" kvs "" true in
                   if ok then Some id else None
               end
      end).

Definition needHubID : string :=
  "hubId required: provide it in the request body or ensure the hub serves /.well-known/tela with a hubId".

Definition handleHubsAdd (env : E) (st : T) (r : preq) : outcome T :=
  match authenticate st r with
  | inl p => done_with st [] p
  | inr u =>
      match decodeAdd (pq_Body r) with
      | None => done_with st [] (writeError 400 "invalid JSON body")
      | Some body =>
          if (ar_Name body =s "") || (ar_URL body =s "") then
            done_with st [] (writeError 400 "name and url are required")
          else
            let '(sent, id) :=
              if ar_HubID body =s "" then
                let '(q, d) := discoverHubID (ar_URL body) in (q, default "" d)
              else ([], ar_HubID body) in
            if id =s "" then done_with st sent (writeError 400 needHubID)
            else match AddHub env st u (MkHub (ar_Name body) id (ar_URL body) (ar_ViewerToken body)
                                          (ar_AdminToken body) (ar_OrgName body)) with
                 | (inl e, st') => done_with st' sent (writeStoreError e)
                 | (inr (created, syncToken), st') =>
                     respond_hubs st' sent u (fun hubs => RAdded hubs syncToken (negb created))
                 end
      end
  end.

Definition handleHubsUpdate (env : E) (st : T) (r : preq) : outcome T :=
  match authenticate st r with
  | inl p => done_with st [] p
  | inr u =>
      match decodeUpdate (pq_Body r) with
      | None => done_with st [] (writeError 400 "invalid JSON body")
      | Some (currentName, update) =>
          if currentName =s "" then done_with st [] (writeError 400 "currentName is required")
          else match UpdateHub env st u currentName update with
               | (Some e, st') => done_with st' [] (writeStoreError e)
               | (None, st') => respond_hubs st' [] u RHubs
               end
      end
  end.

Definition handleHubsDelete (env : E) (st : T) (r : preq) : outcome T :=
  match authenticate st r with
  | inl p => done_with st [] p
  | inr u =>
      let name := default "" (pq_Query r !! "name") in
      if name =s "" then done_with st [] (writeError 400 "name query parameter is required")
      else match DeleteHub env st u name with
           | (Some e, st') => done_with st' [] (writeStoreError e)
           | (None, st') => respond_hubs st' [] u RHubs
           end
  end.

(** ** Hub-driven sync *)

Definition handleHubSync (env : E) (st : T) (r : preq) : outcome T :=
  match decodeSync (pq_Body r) with
  | None => done_with st [] (writeError 400 "invalid JSON body")
  | Some (name, viewerToken) =>
      if (name =s "") || (viewerToken =s "") then
        done_with st [] (writeError 400 "name and viewerToken are required")
      else match bearerToken r with
      | None => done_with st [] (writeError 401 "unauthorized")
      | Some syncToken =>
          match VerifyHubSyncToken st name syncToken with
          | inl e => done_with st [] (writeStoreError e)
          | inr _ =>
              match SetHubViewerToken env st name viewerToken with
              | (Some e, st') => done_with st' [] (writeStoreError e)
              | (None, st') => done_with st' [] (writeJSON 200 RSynced)
              end
          end
      end
  end.

(** ** Proxies *)

(** What the proxies copy back of an upstream reply. *)
Definition mirrored (p : upreply) (etag : string) : presp :=
  PResp (ur_Status p) (RRaw (copyBody (ur_Reads p) (length (ur_Reads p))))
    (if ur_ContentType p <>s "" then ur_ContentType p else jsonType) "no-cache" etag.

Definition forward (st : T) (q : upreq) (etag : upreply -> string) : outcome T :=
  match net q with
  | UpBadURL => done_with st [] (writeError 500 "build upstream request")
  | UpFailed => done_with st [q] (writeError 502 "hub unreachable")
  | UpOk p => done_with st [q] (mirrored p (etag p))
  end.

Definition adminUsage : string := "expected /api/hub-admin/{hubName}/{operation}".
Definition legacyForm : string :=
  "legacy double-prefix admin proxy form is not supported in protocol version 1.0; use /api/hub-admin/{hubName}/{operation}".

Definition with_query (r : preq) (target : string) : string :=
  if pq_RawQuery r <>s "" then target +:+ "?" +:+ pq_RawQuery r else target.

(** The request the admin proxy sends for an operation on a hub. *)
Definition adminUpstream (r : preq) (hub : Hub) (operation : string) : upreq :=
  UpReq (pq_Method r)
    (with_query r (trim_slashes (h_URL hub) +:+ "/api/admin/" +:+ operation))
    (h_AdminToken hub)
    (if (pq_ContentType r <>s "") && (pq_Method r <>s "GET") && (pq_Method r <>s "HEAD")
     then pq_ContentType r else "")
    (pq_IfMatch r) (pq_IfNoneMatch r) (pq_Raw r).

(** [handleAdminProxy]'s reading of the path: the hub's name and the operation. *)
Definition adminPath (r : preq) : presp + (string * string) :=
  let rest := trim_prefix (url_Path r) "/api/hub-admin/" in
  if rest =s url_Path r then inl (writeError 400 adminUsage)
  else match cut rest "/" with
       | None => inl (writeError 400 adminUsage)
       | Some (hubName, operation) =>
           if (hubName =s "") || (operation =s "") then inl (writeError 400 adminUsage)
           else if has_prefix operation "api/admin/" || (operation =s "api/admin") then
             inl (writeError 400 legacyForm)
           else inr (hubName, operation)
       end.

Definition handleAdminProxy (st : T) (r : preq) : outcome T :=
  match adminPath r with
  | inl p => done_with st [] p
  | inr (hubName, operation) =>
      match authenticate st r with
      | inl p => done_with st [] p
      | inr u =>
          match LookupHubForUser st u hubName with
          | inl e => done_with st [] (writeStoreError e)
          | inr (hub, canManage) =>
              if negb canManage then done_with st [] (writeError 403 "manage permission required")
              else if h_AdminToken hub =s "" then
                done_with st [] (writeError 400 "no admin token stored for this hub")
              else forward st (adminUpstream r hub operation) ur_ETag
          end
      end
  end.

Definition proxyHubPublicEndpoint (st : T) (r : preq) (prefix hubPath : string) : outcome T :=
  let hubName := trim_prefix (url_Path r) prefix in
  if hubName =s "" then done_with st [] (writeError 400 "hub name required")
  else match authenticate st r with
  | inl p => done_with st [] p
  | inr u =>
      match LookupHubForUser st u hubName with
      | inl e => done_with st [] (writeStoreError e)
      | inr (hub, _) =>
          let token := if h_ViewerToken hub =s "" then h_AdminToken hub else h_ViewerToken hub in
          forward st (plainGet (with_query r (trim_slashes (h_URL hub) +:+ hubPath)) token)
            (fun _ => "")
      end
  end.

Definition handleHubStatusProxy (st : T) (r : preq) : outcome T :=
  proxyHubPublicEndpoint st r "/api/hub-status/" "/api/status".
Definition handleHubHistoryProxy (st : T) (r : preq) : outcome T :=
  proxyHubPublicEndpoint st r "/api/hub-history/" "/api/history".

Definition handleHubToken (st : T) (r : preq) : outcome T :=
  let hubName := trim_prefix (url_Path r) "/api/hub-token/" in
  if hubName =s "" then done_with st [] (writeError 400 "hub name required")
  else match authenticate st r with
  | inl p => done_with st [] p
  | inr u =>
      match LookupHubForUser st u hubName with
      | inl e => done_with st [] (writeStoreError e)
      | inr (hub, canManage) =>
          if negb canManage then done_with st [] (writeError 403 "manage permission required")
          else if h_AdminToken hub =s "" then
            done_with st [] (writeError 404 "no admin token stored for this hub")
          else done_with st [] (PResp 200 (RToken (h_AdminToken hub)) jsonType "no-store" "")
      end
  end.

(** ** Fleet aggregation *)

(** An element of a decoded [[]map[string]any]: [null] is the nil map. *)
Definition decode_machine (j : json) : option (option (gmap string json)) :=
  match j with
  | JNull => Some None
  | JObj kvs => Some (Some (fold_left (fun m kv => <[fst kv := snd kv]> m) kvs ∅))
  | _ => None
  end.

(** The field [machines] of the status document (its last occurrence). *)
Definition decode_machines (b : reqBody) : option (list (option (gmap string json))) :=
  match json_fields b with
  | None => None
  | Some kvs =>
      fold_left (fun acc kv =>
        if equal_fold (fst kv) "machines" then
          match snd kv with
          | JNull => (fun _ => []) <$> acc
          | JArr l => match mapM decode_machine l with Some ms => (fun _ => ms) <$> acc | None => None end
          | _ => None
          end
        else acc) kvs (Some [])
  end.

Definition tag (hub : Hub) (m : gmap string json) : gmap string json :=
  let m := <["hubUrl" := JStr (h_URL hub)]> (<["hub" := JStr (h_Name hub)]> m) in
  if h_HubID hub <>s "" then <["hubId" := JStr (h_HubID hub)]> m else m.

Definition fleetRequest (hub : Hub) : upreq :=
  plainGet (trim_slashes (h_URL hub) +:+ "/api/status")
    (if h_ViewerToken hub <>s "" then h_ViewerToken hub else h_AdminToken hub).

(** [None]: writing to the nil map of a [null] machine panics. *)
Definition fetchHubAgents (hub : Hub) : option (list (gmap string json)) :=
  match net (fleetRequest hub) with
  | UpBadURL | UpFailed => Some []
  | UpOk p =>
      if negb (ur_Status p =? 200)%Z then Some []
      else match decode_machines (ur_Json p) with
           | None => Some []
           | Some ms => mapM (fmap (tag hub)) ms
           end
  end.

(** The full records of the hubs the user may manage; a failing lookup skips the hub. *)
Definition manageable (st : T) (u : U) (hubs : list HubVisibility) : list Hub :=
  omap (fun hv =>
    if hv_CanManage hv then
      match LookupHubForUser st u (hv_Name hv) with inr (hub, _) => Some hub | inl _ => None end
    else None) hubs.

(** The fetches run in goroutines of their own; a panic in one of them ends the process. *)
Definition handleFleetAgents (st : T) (r : preq) : outcome T :=
  match authenticate st r with
  | inl p => done_with st [] p
  | inr u =>
      match ListHubsForUser st u with
      | inl e => done_with st [] (writeStoreError e)
      | inr hubs =>
          let hs := manageable st u hubs in
          Outcome
            ((fun l => writeJSON 200 (RAgents (concat l))) <$> mapM fetchHubAgents (finish hs))
            (List.filter sent_ok (map fleetRequest hs)) st
      end
  end.

(** ** The mux of [Handler] *)

Inductive target :=
  | ToWellKnown | ToHubsList | ToHubsAdd | ToHubsUpdate | ToHubsDelete | ToHubSync
  | ToHubToken | ToAdminProxy | ToHubStatus | ToHubHistory | ToFleet
  | ToRedirect | ToNotFound | ToNotAllowed.

(** The decoded segments of a path, as the patterns see them. *)
Definition segments (path : string) : list string :=
  match split_slash path with "" :: es => map unescaped es | es => map unescaped es end.

Definition cleanPath (p : string) : string :=
  let p := if has_prefix p "/" then p else "/" +:+ p in
  let np := Clean p in
  if has_suffix p "/" && (np <>s "/") then np +:+ "/" else np.

Definition is_get (m : string) : bool := (m =s "GET") || (m =s "HEAD").
Definition on (b : bool) (t : target) : target := if b then t else ToNotAllowed.

Definition matchPattern (m : string) (es : list string) : target :=
  match es with
  | [".well-known"; "tela"] => on (is_get m) ToWellKnown
  | ["api"; "hubs"] =>
      if is_get m then ToHubsList
      else if m =s "POST" then ToHubsAdd
      else if m =s "PATCH" then ToHubsUpdate
      else on (m =s "DELETE") ToHubsDelete
  | ["api"; "hubs"; "sync"] => on (m =s "PATCH") ToHubSync
  | "api" :: "hub-token" :: _ :: _ => on (is_get m) ToHubToken
  | "api" :: "hub-admin" :: _ :: _ => ToAdminProxy
  | "api" :: "hub-status" :: _ :: _ => on (is_get m) ToHubStatus
  | "api" :: "hub-history" :: _ :: _ => on (is_get m) ToHubHistory
  | ["api"; "fleet"; "agents"] => on (is_get m) ToFleet
  | ["api"; "hub-token"] | ["api"; "hub-status"] | ["api"; "hub-history"] => ToNotAllowed
  | _ => ToNotFound
  end.

(** Patterns that end in a slash: their path without it redirects. *)
Definition slashless (m : string) (es : list string) : bool :=
  match es with
  | ["api"; "hub-admin"] => true
  | ["api"; "hub-token"] | ["api"; "hub-status"] | ["api"; "hub-history"] => is_get m
  | _ => false
  end.

Definition mux (r : preq) : target :=
  let path := cleanPath (pq_Escaped r) in
  let es := segments path in
  if slashless (pq_Method r) es then ToRedirect
  else if path <>s pq_Escaped r then ToRedirect
  else matchPattern (pq_Method r) es.

Definition serve (env : E) (st : T) (r : preq) : outcome T :=
  match mux r with
  | ToWellKnown => handleWellKnown st r
  | ToHubsList => handleHubsList st r
  | ToHubsAdd => handleHubsAdd env st r
  | ToHubsUpdate => handleHubsUpdate env st r
  | ToHubsDelete => handleHubsDelete env st r
  | ToHubSync => handleHubSync env st r
  | ToHubToken => handleHubToken st r
  | ToAdminProxy => handleAdminProxy st r
  | ToHubStatus => handleHubStatusProxy st r
  | ToHubHistory => handleHubHistoryProxy st r
  | ToFleet => handleFleetAgents st r
  | ToRedirect => done_with st [] (PResp 301 RNone "" "" "")
  | ToNotFound => done_with st [] (PResp 404 RNone "" "" "")
  | ToNotAllowed => done_with st [] (PResp 405 RNone "" "" "")
  end.

End server.

(** * What the portal server guarantees

    Proved for every store behind the interface of [PortalProtocol]: the gate on every endpoint,
    the proxies' exact upstream request, the reach of a sync token, the fleet aggregation, and a hub
    ([Portals]) registering and then syncing with this server.  For the file store: no response of
    the directory depends on a stored token. *)

Section any_store.
  Context {T E U : Type} {PS : PortalStore T E U} {PL : PortalStoreLaws T E U} {IL : Interleaving}.
  Context (net : upreq -> upresult).
  Implicit Types (st : T) (env : E) (r : preq).

(** No user stands behind the request. *)
Definition anonymous (st : T) (r : preq) : Prop := forall u, Authenticate st r <> AuthUser u.

Lemma authenticate_anonymous st r :
  anonymous st r -> authenticate st r = inl (writeError 401 "unauthorized").
Proof. intros H. unfold authenticate. destruct (Authenticate st r) as [u| |] eqn:Ea; [by destruct (H u)|done..]. Qed.

(** A refusal: nothing sent, nothing stored, and an error of the client. *)
Definition refusal (st : T) (o : outcome T) : Prop :=
  exists code msg, o = done_with st [] (writeError code msg) /\ (code = 400 \/ code = 401)%Z.

Ltac refuse := by do 2 eexists; split; [reflexivity|auto].

(** C33. The gate: without a user, every endpoint but discovery and the sync refuses; the store is
    untouched and no hub is contacted. *)
Theorem portal_gate env st r :
  anonymous st r ->
  match mux r with
  | ToWellKnown | ToHubSync | ToRedirect | ToNotFound | ToNotAllowed => True
  | _ => refusal st (serve net env st r)
  end.
Proof.
  intros Ha. pose proof (authenticate_anonymous st r Ha) as E'. unfold serve.
  destruct (mux r); try done;
    unfold handleHubsList, handleHubsAdd, handleHubsUpdate, handleHubsDelete, handleFleetAgents,
      handleHubToken, handleAdminProxy, handleHubStatusProxy, handleHubHistoryProxy,
      proxyHubPublicEndpoint; rewrite ?E'; try refuse.
  - destruct (bool_decide _); refuse.
  - unfold adminPath. destruct (bool_decide _); [refuse|].
    destruct (cut _ _) as [[n o]|]; [|refuse]. destruct (_ || _); [refuse|].
    destruct (_ || _); refuse.
  - destruct (bool_decide _); refuse.
  - destruct (bool_decide _); refuse.
Qed.

Lemma forward_sent st q etag q' :
  q' ∈ o_sent (forward net st q etag) <-> q' = q /\ sent_ok net q = true.
Proof.
  unfold forward, sent_ok. destruct (net q); cbn [o_sent done_with].
  - split; [by intros ?%elem_of_nil|by intros [_ ?]].
  - rewrite list_elem_of_singleton. naive_solver.
  - rewrite list_elem_of_singleton. naive_solver.
Qed.

Lemma forward_store st q etag : o_store (forward net st q etag) = st.
Proof. unfold forward. by destruct (net q). Qed.

Lemma nothing_sent st (q : upreq) p : q ∈ o_sent (done_with st [] p) <-> False.
Proof. cbn. split; [apply not_elem_of_nil|done]. Qed.

Lemma only_error st p (q : upreq) (P : Prop) :
  ~ P -> o_store (done_with st [] p) = st /\ (q ∈ o_sent (done_with st [] p) <-> P).
Proof. intros HP. split; [done|]. by rewrite nothing_sent. Qed.

Lemma adminPath_spec r n op :
  adminPath r = inr (n, op) ->
  url_Path r = "/api/hub-admin/" +:+ n +:+ "/" +:+ op /\ n <> "" /\ op <> "" /\
  has_prefix op "api/admin/" = false.
Proof.
  unfold adminPath, trim_prefix. destruct (drop_prefix _ _) as [rest|] eqn:Hd.
  2:{ by rewrite bool_decide_true. }
  apply drop_prefix_Some in Hd. case_bool_decide as H1; [done|].
  destruct (cut _ _) as [[n' op']|] eqn:Hc; [|done]. apply cut_Some in Hc.
  destruct (_ || _) eqn:H2; [done|]. destruct (has_prefix op' _) eqn:H3; [done|]. cbn [orb].
  prop_bool. case_bool_decide; [done|]. intros [= -> ->]. split_and!; [|done..].
  rewrite <- Hc. apply bytes_inj. by rewrite Hd, bytes_app, bytes_of_bytes.
Qed.

Ltac absurd_case :=
  intros (? & ? & ? & ? & _ & ? & _ & _ & _ & ? & ? & ? & _); congruence.

(** The admin proxy contacts a hub exactly when the path names a hub and an operation, the user
    may manage that hub and its admin token is stored; it then sends one request, to that hub's
    URL under [/api/admin/], with the method, body and query of the request and the stored token in
    place of the user's credentials.  It never changes the store. *)
Theorem admin_proxy_exact env st r q :
  mux r = ToAdminProxy ->
  o_store (serve net env st r) = st /\
  (q ∈ o_sent (serve net env st r) <->
   exists u n hub op,
     url_Path r = "/api/hub-admin/" +:+ n +:+ "/" +:+ op /\
     adminPath r = inr (n, op) /\ n <> "" /\ op <> "" /\ has_prefix op "api/admin/" = false /\
     Authenticate st r = AuthUser u /\
     LookupHubForUser st u n = inr (hub, true) /\ h_AdminToken hub <> "" /\
     sent_ok net q = true /\ q = adminUpstream r hub op /\
     up_Method q = pq_Method r /\ up_Body q = pq_Raw r /\ up_Bearer q = h_AdminToken hub /\
     up_URL q = with_query r (trim_slashes (h_URL hub) +:+ "/api/admin/" +:+ op)).
Proof.
  intros Hm. unfold serve. rewrite Hm. unfold handleAdminProxy, authenticate.
  destruct (adminPath r) as [p|[n op]] eqn:Hp; [apply only_error; absurd_case|].
  destruct (Authenticate st r) as [u| |] eqn:Ha; [|apply only_error; absurd_case..].
  destruct (LookupHubForUser st u n) as [e|[hub cm]] eqn:Hl; [apply only_error; absurd_case|].
  destruct cm; cbn [negb]; [|apply only_error; absurd_case].
  case_bool_decide as Ht; [apply only_error; absurd_case|].
  split; [apply forward_store|]. rewrite forward_sent. split.
  - intros [-> Hs]. destruct (adminPath_spec _ _ _ Hp) as (Hu & Hn & Ho & Hleg).
    exists u, n, hub, op. by split_and!.
  - intros (u' & n' & hub' & op' & _ & [= <- <-] & _ & _ & _ & [= <-] & El & _ & Hs & -> & _).
    rewrite Hl in El. injection El as <-. done.
Qed.

(** A sync token reaches one field: whatever request the sync endpoint serves, the store either
    keeps its view, or the token verified for the named hub (so it has the mandatory prefix), and
    the only change is that hub's viewer token, now the one of the request. *)
Theorem sync_reaches_viewer_token env st r :
  mux r = ToHubSync -> store_ok st ->
  let o := serve net env st r in
  o_sent o = [] /\
  (same_view st (o_store o) /\ o_resp o <> Some (writeJSON 200 RSynced) \/
   exists n v tok h,
     decodeSync (pq_Body r) = Some (n, v) /\ v <> "" /\ bearerToken r = Some tok /\
     VerifyHubSyncToken st n tok = inr h /\ has_prefix tok HubSyncTokenPrefix = true /\
     o_resp o = Some (writeJSON 200 RSynced) /\
     (forall u m, LookupHubForUser (o_store o) u m =
        match LookupHubForUser st u m with
        | inr (h, c) => inr (if m =s n then set_ViewerToken h v else h, c)
        | inl err => inl err
        end) /\
     (forall u, ListHubsForUser (o_store o) u = ListHubsForUser st u) /\
     (forall r', Authenticate (o_store o) r' = Authenticate st r')).
Proof.
  intros Hm Hok. unfold serve. rewrite Hm. unfold handleHubSync.
  assert (same_view st st) as Hsv by done.
  destruct (decodeSync _) as [[n v]|] eqn:Hd; [|by split; [|left]].
  destruct (_ || _) eqn:Hne; [by split; [|left]|]. prop_bool.
  destruct (bearerToken r) as [tok|] eqn:Hb; [|by split; [|left]].
  destruct (VerifyHubSyncToken st n tok) as [e|h] eqn:Hv; [by split; [|left]; destruct e|].
  destruct (SetHubViewerToken env st n v) as [[e|] st'] eqn:Hs; cbn [o_sent o_store o_resp done_with].
  - split; [done|left]. split; [by eapply viewer_failed|by destruct e].
  - split; [done|right]. exists n, v, tok, h. split_and!; try done.
    + by eapply verify_prefix.
    + intros u m. by eapply viewer_lookup.
    + intros u. by eapply viewer_list.
    + intros r'. by eapply viewer_auth.
Qed.

(** ** Fleet *)

Lemma mapM_Some_map {A B} (g : A -> option B) (d : B) l :
  (forall x, x ∈ l -> g x <> None) -> mapM g l = Some (map (fun x => default d (g x)) l).
Proof.
  induction l as [|x l IH]; intros H; [done|]. cbn.
  destruct (g x) as [y|] eqn:Hx; [|by destruct (H x (list_elem_of_here _ _))]. cbn.
  rewrite IH; [done|]. intros z Hz. apply H. by apply list_elem_of_further.
Qed.

Lemma mapM_None {A B} (g : A -> option B) l : mapM g l = None <-> exists x, x ∈ l /\ g x = None.
Proof.
  induction l as [|y l IH]; cbn.
  { split; [done|]. intros (x & Hx & _). by apply elem_of_nil in Hx. }
  setoid_rewrite elem_of_cons. destruct (g y) as [b|] eqn:Hy; cbn; [|naive_solver].
  destruct (mapM g l); cbn; [naive_solver|]. destruct (proj1 IH eq_refl) as (x & ? & ?). naive_solver.
Qed.

Lemma tag_lookup hub m :
  tag hub m !! "hub" = Some (JStr (h_Name hub)) /\ tag hub m !! "hubUrl" = Some (JStr (h_URL hub)).
Proof.
  unfold tag. case_bool_decide; cbn [negb].
  - split; [by rewrite lookup_insert_ne, lookup_insert_eq by done|by rewrite lookup_insert_eq].
  - split; [by rewrite !lookup_insert_ne, lookup_insert_eq by done|].
    by rewrite lookup_insert_ne, lookup_insert_eq by done.
Qed.

(** A hub brings the server down exactly when it answers 200 with a [null] among its machines. *)
Lemma fetch_crashes hub :
  fetchHubAgents net hub = None <->
  exists p ms, net (fleetRequest hub) = UpOk p /\ ur_Status p = 200%Z /\
    decode_machines (ur_Json p) = Some ms /\ None ∈ ms.
Proof.
  unfold fetchHubAgents. destruct (net (fleetRequest hub)) as [| |p]; [naive_solver..|].
  destruct (Z.eqb_spec (ur_Status p) 200) as [Hst|Hst]; cbn [negb]; [|naive_solver].
  destruct (decode_machines _) as [ms|] eqn:Hd; [|naive_solver]. split.
  - intros ([m|] & Hm & ?)%mapM_None; [done|]. by exists p, ms.
  - intros (p' & ms' & [= <-] & _ & Hd' & Hin). assert (ms' = ms) as -> by congruence. apply mapM_None. by exists None.
Qed.

(** The fleet view is complete and attributed: every agent of every manageable hub that answers,
    each tagged with its hub's name and URL, in the order the fetches finish; a hub that fails is
    skipped.  The store is only read, and hubs are only asked for their status.  (The exception is
    a hub that lists a [null] machine: writing the tags into the nil map ends the process.) *)
Theorem fleet_aggregates env st r u hubs :
  mux r = ToFleet -> Authenticate st r = AuthUser u -> ListHubsForUser st u = inr hubs ->
  let hs := manageable st u hubs in
  let o := serve net env st r in
  o_store o = st /\ (forall q, q ∈ o_sent o -> exists h, h ∈ hs /\ q = fleetRequest h) /\
  ((forall h, h ∈ hs -> fetchHubAgents net h <> None) ->
   exists l, o_resp o = Some (writeJSON 200 (RAgents l)) /\
     l ≡ₚ concat (map (fun h => default [] (fetchHubAgents net h)) hs)) /\
  (forall h, h ∈ hs -> fetchHubAgents net h = None -> o_resp o = None) /\
  (forall h l m, h ∈ hs -> fetchHubAgents net h = Some l -> m ∈ l ->
     m !! "hub" = Some (JStr (h_Name h)) /\ m !! "hubUrl" = Some (JStr (h_URL h))).
Proof.
  intros Hm Ha Hl hs. unfold serve. rewrite Hm. unfold handleFleetAgents, authenticate.
  rewrite Ha, Hl. cbn [o_store o_sent o_resp]. fold hs. split_and!; [done| | | |].
  - intros q Hq. apply list_elem_of_In, filter_In in Hq as [Hq _].
    apply in_map_iff in Hq as (h & <- & Hh). exists h. by rewrite list_elem_of_In.
  - intros Hall. rewrite (mapM_Some_map _ []).
    + eexists. split; [done|]. rewrite <- !flat_map_concat_map. apply Permutation_flat_map, finish_perm.
    + intros h Hh. apply Hall. by rewrite <- (finish_perm hs).
  - intros h Hh Hc. rewrite (proj2 (mapM_None (fetchHubAgents net) _)); [done|]. exists h. by rewrite finish_perm.
  - intros h l m Hh Hf Hin. unfold fetchHubAgents in Hf.
    assert (forall ms, mapM (fmap (tag h)) ms = Some l -> exists m', m = tag h m') as Hex.
    { intros ms Hms. apply mapM_Some in Hms. apply list_elem_of_lookup in Hin as [i Hi].
      destruct (Forall2_lookup_r _ _ _ _ _ Hms Hi) as ([m'|] & _ & [= <-]). by exists m'. }
    assert (forall l', Some l' = Some l -> l' = [] -> False) as Hnil.
    { intros l' [= ->] ->. by apply elem_of_nil in Hin. }
    destruct (net _) as [| |p]; [by destruct (Hnil _ Hf)..|].
    destruct (negb _); [by destruct (Hnil _ Hf)|].
    destruct (decode_machines _) as [ms|]; [|by destruct (Hnil _ Hf)].
    destruct (Hex _ Hf) as [m' ->]. apply tag_lookup.
Qed.

End any_store.

(** ** The file store keeps its secrets *)

Section secrets.
  Context {RO : RangeOrder} {YC : ShapeCodec} {IL : Interleaving} (net : upreq -> upresult).
  Context (ds : ppath) (f : string) (env : fileEnv).

(** The stores differ at most in viewer tokens, admin tokens and sync-token hashes. *)
Record same_public (s s' : Store) : Prop := SamePublic {
  sp_path : s_path s' = s_path s;
  sp_id : s_portalID s' = s_portalID s;
  sp_admin : s_adminTokenHash s' = s_adminTokenHash s;
  sp_hubs : visible <$> s_hubs s' = visible <$> s_hubs s
}.

Lemma public_lookup s s' n :
  same_public s s' ->
  match s_hubs s !! n, s_hubs s' !! n with
  | Some h, Some h' => visible h' = visible h
  | None, None => True
  | _, _ => False
  end.
Proof.
  intros [_ _ _ Hh]. apply (f_equal (.!! n)) in Hh. rewrite !lookup_fmap in Hh.
  destruct (s_hubs s !! n), (s_hubs s' !! n); cbn in Hh; (done || congruence).
Qed.

Lemma same_public_hubs s s' m m' :
  same_public s s' -> visible <$> m' = visible <$> m -> same_public (with_hubs s m) (with_hubs s' m').
Proof. intros [] ?. by split. Qed.

Lemma respond_public s s' fs fs' (mk : list HubVisibility -> respBody) :
  well_named s -> same_public s s' ->
  o_resp (respond_hubs (s', fs') [] LocalUser mk) = o_resp (respond_hubs (s, fs) [] LocalUser mk).
Proof.
  intros Hw [_ _ _ Hh]. unfold respond_hubs. cbn. by rewrite (listing_eq s s' Hw Hh).
Qed.

(** Two saves that write different secrets succeed or fail alike. *)
Lemma commit_public s s' fs b b' :
  (forall shape, Marshal shape <> None) -> placed ds f env -> disk_ok ds f fs ->
  plain_slot (ds ++ [tmp_name env]) fs -> s_path s = abs (ds ++ [f]) -> s_path s' = s_path s ->
  (exists fs1 fs2, commit env s fs b = (None, (s, fs1)) /\ commit env s' fs b' = (None, (s', fs2))) \/
  (exists st1 st2, commit env s fs b = (Some ErrOther, st1) /\ commit env s' fs b' = (Some ErrOther, st2)).
Proof.
  intros Hm Hpl Hd Ht Hp Hp'. unfold commit. cbv zeta.
  rewrite (saveLocked_works ds f env Hpl s), (saveLocked_works ds f env Hpl s') by congruence.
  specialize (Hm (shapeOf s)) as H1. specialize (Hm (shapeOf s')) as H2.
  destruct (Marshal (shapeOf s)) as [d|]; [|done]. destruct (Marshal (shapeOf s')) as [d'|]; [|done].
  assert (save_works ds env (Some d') fs = save_works ds env (Some d) fs) as -> by done.
  destruct (save_works ds env (Some d) fs); [left|right]; by do 2 eexists.
Qed.

Definition directory_target (t : target) : bool :=
  match t with ToWellKnown | ToHubsList | ToHubsAdd | ToHubsUpdate | ToHubsDelete => true | _ => false end.

Lemma visible_insert (m m' : gmap string storedHub) n h h' :
  visible <$> m' = visible <$> m -> visible h' = visible h ->
  visible <$> <[n := h']> m' = visible <$> <[n := h]> m.
Proof. intros E Eh. by rewrite !fmap_insert, E, Eh. Qed.

Lemma visible_delete (m m' : gmap string storedHub) n :
  visible <$> m' = visible <$> m -> visible <$> delete n m' = visible <$> delete n m.
Proof. intros E. by rewrite !fmap_delete, E. Qed.

Lemma visible_fields h h' :
  visible h' = visible h -> sh_Name h' = sh_Name h /\ sh_URL h' = sh_URL h.
Proof. by intros [=]. Qed.

Lemma visible_updated h h' u : visible h' = visible h -> visible (updated h' u) = visible (updated h u).
Proof. destruct h, h', u. cbn. by intros [= -> -> -> ->]. Qed.

(** A mutation answers alike on the two stores when it saves alike. *)
Lemma saved_public s s' fs b b' mk :
  (forall shape, Marshal shape <> None) -> fits ds f env fs -> disk_ok ds f fs ->
  s_path s = abs (ds ++ [f]) -> well_named s -> same_public s s' ->
  let respond r := match r with
                   | (Some e, st') => done_with st' [] (writeStoreError e)
                   | (None, st') => respond_hubs st' [] LocalUser mk
                   end in
  o_resp (respond (commit env s' fs b')) = o_resp (respond (commit env s fs b)).
Proof.
  intros Hm [Hpl _ Ht] Hd Hp Hw Hpub respond.
  destruct (commit_public s s' fs b b' Hm Hpl Hd Ht Hp (sp_path _ _ Hpub))
    as [(fs1 & fs2 & -> & ->)|(st1 & st2 & -> & ->)]; [|done].
  by apply respond_public.
Qed.

Section two_stores.
  Context (s s' : Store) (fs : fsys).
  Context (Hm : forall shape, Marshal shape <> None) (Hfit : fits ds f env fs).
  Context (Hd : disk_ok ds f fs) (Hp : s_path s = abs (ds ++ [f])).
  Context (Hw : well_named s) (Hpub : same_public s s').

Lemma authenticate_public r :
  authenticate ((s', fs) : fstate) r = authenticate ((s, fs) : fstate) r.
Proof.
  unfold authenticate. cbn. unfold file_Authenticate. cbn [fst]. by rewrite (sp_admin _ _ Hpub).
Qed.

Lemma update_public n u mk :
  let respond r := match r with
                   | (Some e, st') => done_with st' [] (writeStoreError e)
                   | (None, st') => respond_hubs st' [] LocalUser mk
                   end in
  o_resp (respond (file_UpdateHub env (s', fs) LocalUser n u)) =
  o_resp (respond (file_UpdateHub env (s, fs) LocalUser n u)).
Proof.
  intros respond. unfold file_UpdateHub. pose proof (public_lookup s s' n Hpub) as Hl.
  destruct (s_hubs s !! n) as [h|], (s_hubs s' !! n) as [h'|]; try done.
  pose proof (visible_updated h h' u Hl) as Hu.
  destruct (visible_fields _ _ Hu) as [En Eu]. rewrite En, Eu.
  destruct (_ || _) eqn:Hin; [done|]. prop_bool. case_bool_decide as Hn; cbn [negb].
  - apply saved_public; try done.
    + rewrite <- Hn. by apply well_named_insert.
    + apply same_public_hubs; [done|]. apply visible_insert; [apply Hpub|done].
  - pose proof (public_lookup s s' (sh_Name (updated h u)) Hpub) as Hl2.
    destruct (s_hubs s !! sh_Name (updated h u)), (s_hubs s' !! sh_Name (updated h u)); try done.
    apply saved_public; try done.
    + exact (well_named_insert (with_hubs s (delete n (s_hubs s))) (updated h u)
        (well_named_delete s n Hw) ltac:(done)).
    + apply same_public_hubs; [done|]. apply visible_insert; [|done].
      apply visible_delete, Hpub.
Qed.

Lemma delete_public n mk :
  let respond r := match r with
                   | (Some e, st') => done_with st' [] (writeStoreError e)
                   | (None, st') => respond_hubs st' [] LocalUser mk
                   end in
  o_resp (respond (file_DeleteHub env (s', fs) LocalUser n)) =
  o_resp (respond (file_DeleteHub env (s, fs) LocalUser n)).
Proof.
  intros respond. unfold file_DeleteHub. pose proof (public_lookup s s' n Hpub) as Hl.
  destruct (s_hubs s !! n) as [h|], (s_hubs s' !! n) as [h'|]; try done.
  apply saved_public; try done; [by apply well_named_delete|].
  apply same_public_hubs; [done|]. apply visible_delete, Hpub.
Qed.

Lemma add_public h sent :
  let respond r := match r with
                   | (inl e, st') => done_with st' sent (writeStoreError e)
                   | (inr (created, tok), st') =>
                       respond_hubs st' sent LocalUser (fun hubs => RAdded hubs tok (negb created))
                   end in
  o_resp (respond (file_AddHub env (s', fs) LocalUser h)) =
  o_resp (respond (file_AddHub env (s, fs) LocalUser h)).
Proof.
  intros respond. unfold file_AddHub. destruct (_ || _) eqn:Hin; [done|].
  destruct (GenerateSyncToken _) as [tok|]; [|done]. prop_bool.
  pose proof (public_lookup s s' (h_Name h) Hpub) as Hl.
  assert (bool_decide (is_Some (s_hubs s' !! h_Name h)) = bool_decide (is_Some (s_hubs s !! h_Name h)))
    as ->.
  { destruct (s_hubs s !! h_Name h), (s_hubs s' !! h_Name h); done. }
  set (x := StoredHub _ _ _ _ _ _ _).
  set (s1 := with_hubs s (<[h_Name h := x]> (s_hubs s))).
  set (s1' := with_hubs s' (<[h_Name h := x]> (s_hubs s'))).
  assert (well_named s1) as Hw1 by (by apply (well_named_insert s x)).
  assert (same_public s1 s1') as Hpub1.
  { apply same_public_hubs; [done|]. apply visible_insert; [apply Hpub|done]. }
  match goal with |- context [commit env s1' fs ?b1] => match goal with |- context [commit env s1 fs ?b2] =>
    destruct (commit_public s1 s1' fs b2 b1 Hm (fi_placed _ _ _ _ Hfit) Hd (fi_tmp _ _ _ _ Hfit) Hp
      (sp_path _ _ Hpub1)) as [(fs1 & fs2 & -> & ->)|(st1 & st2 & -> & ->)] end end; [|done].
  unfold respond. destruct Hpub1 as [_ _ _ Hh]. unfold respond_hubs. cbn.
  by rewrite (listing_eq s1 s1' Hw1 Hh).
Qed.

End two_stores.

(** No secret leaves through the directory: two stores that differ only in viewer tokens, admin
    tokens and sync-token hashes answer every request of the discovery and directory endpoints,
    reads and mutations, successes and failures, with the same response. *)
Theorem directory_hides_secrets s s' fs r :
  (forall shape, Marshal shape <> None) -> fits ds f env fs -> disk_ok ds f fs ->
  s_path s = abs (ds ++ [f]) -> well_named s -> same_public s s' ->
  directory_target (mux r) = true ->
  o_resp (serve net env ((s', fs) : fstate) r) = o_resp (serve net env ((s, fs) : fstate) r).
Proof.
  intros Hm Hfit Hd Hp Hw Hpub Ht. unfold serve. pose proof (authenticate_public s s' fs Hpub r) as Ha.
  destruct (mux r); try done.
  - unfold handleWellKnown. cbn. by rewrite (sp_id _ _ Hpub).
  - unfold handleHubsList. rewrite Ha. destruct (authenticate ((s, fs) : fstate) r) as [p|[]]; [done|].
    by apply respond_public.
  - unfold handleHubsAdd. rewrite Ha. destruct (authenticate ((s, fs) : fstate) r) as [p|[]]; [done|].
    destruct (decodeAdd _) as [b|]; [|done]. destruct (_ || _); [done|].
    destruct (if ar_HubID b =s "" then _ else _) as [sent id]. destruct (id =s ""); [done|].
    by apply (add_public s s' fs).
  - unfold handleHubsUpdate. rewrite Ha. destruct (authenticate ((s, fs) : fstate) r) as [p|[]]; [done|].
    destruct (decodeUpdate _) as [[n u]|]; [|done]. destruct (n =s ""); [done|].
    by apply (update_public s s' fs).
  - unfold handleHubsDelete. rewrite Ha. destruct (authenticate ((s, fs) : fstate) r) as [p|[]]; [done|].
    cbv zeta. destruct (bool_decide _); [done|]. by apply (delete_public s s' fs).
Qed.

End secrets.
