(* ===== verification/Credstore.v ===== *)
(** * The credential store ([internal/credstore/credstore.go])

    Tokens and certificate pins per hub URL, in a user-level and a system-level file.  The files are
    [FileSys] files under a YAML codec; their paths are given.  [os.WriteFile] truncates before it
    writes, so a failing save leaves part of the document. *)

From S2P Require Import Prelude HubConfig FilePath FileSys.
From Stdlib Require Import ZArith Lia Ascii String.
From stdpp Require Import base gmap strings list.

Record Credential := MkCredential { cr_Token : string; cr_Identity : string; cr_Pin : string }.
Definition zeroCredential : Credential := MkCredential "" "" "".

(** The section [update] is carried along unread. *)
Record CredStore := MkCredStore { cs_Hubs : gmap string Credential; cs_Update : updateConfig }.
Definition noUpdate : updateConfig := UpdateConfig "" ∅.

Class CredCodec := {
  MarshalCred : CredStore -> option (list Z);
  UnmarshalCred : list Z -> option CredStore;
  unmarshal_cred s d : MarshalCred s = Some d -> UnmarshalCred d = Some s
}.

(** ** URLs *)

(** [strings.Index(url, "://") > 0]: a separator after at least one byte. *)
Definition NormalizeHubURL (rawURL : string) : string :=
  let url := trim_slashes rawURL in
  match cut url "://" with
  | Some (scheme, rest) => if scheme =s "" then url else to_lower scheme +:+ "://" +:+ rest
  | None => url
  end.

(** ** The store in memory *)

Definition Get (s : CredStore) (hubURL : string) : Credential * bool :=
  match cs_Hubs s !! NormalizeHubURL hubURL with
  | Some c => (c, true)
  | None => (zeroCredential, false)
  end.

Definition CredSet (s : CredStore) (hubURL : string) (c : Credential) : CredStore :=
  MkCredStore (<[NormalizeHubURL hubURL := c]> (cs_Hubs s)) (cs_Update s).

Definition CredRemove (s : CredStore) (hubURL : string) : bool * CredStore :=
  match cs_Hubs s !! NormalizeHubURL hubURL with
  | Some _ => (true, MkCredStore (delete (NormalizeHubURL hubURL) (cs_Hubs s)) (cs_Update s))
  | None => (false, s)
  end.

(** ** The files *)

Section files.
  Context {CC : CredCodec}.

(** The directory of the user's files outside Windows. *)
Definition UserDir (home : string) : string := FilePath.Join home ".tela".
Definition UserPath (home : string) : string := FilePath.Join (UserDir home) "credentials.yaml".
Definition ConfigDir : string := "/etc/tela".
Definition SystemPath : string := FilePath.Join ConfigDir "credentials.yaml".

(** No store on a read or parse error. *)
Definition Load (fs : fsys) (path : string) : option CredStore :=
  match ReadFile fs path with
  | RdNotExist => Some (MkCredStore ∅ noUpdate)
  | RdError => None
  | RdData d => UnmarshalCred d
  end.

Definition Save (env : saveEnv) (fs : fsys) (s : CredStore) (path : string) : bool * fsys :=
  writeDoc env fs path (MarshalCred s).

Definition LookupToken (fs : fsys) (user system : string) (hubURL : string) : string :=
  let try path := match Load fs path with
                  | Some s => let '(c, ok) := Get s hubURL in if ok then Some (cr_Token c) else None
                  | None => None
                  end in
  match try user with
  | Some t => t
  | None => match try system with Some t => t | None => "" end
  end.

Definition LookupPin (fs : fsys) (user system : string) (hubURL : string) : string :=
  let try path := match Load fs path with
                  | Some s => let '(c, ok) := Get s hubURL in
                              if ok && (cr_Pin c <>s "") then Some (cr_Pin c) else None
                  | None => None
                  end in
  match try user with
  | Some p => p
  | None => match try system with Some p => p | None => "" end
  end.

Definition with_pin (c : Credential) (pin : string) : Credential :=
  MkCredential (cr_Token c) (cr_Identity c) pin.

Definition SetPin (env : saveEnv) (fs : fsys) (user hubURL pin : string) : bool * fsys :=
  match Load fs user with
  | None => (false, fs)
  | Some s => Save env fs (CredSet s hubURL (with_pin (fst (Get s hubURL)) pin)) user
  end.

End files.

(** ** Normalisation *)

(** Replacing bytes that occur in no separator moves no cut. *)
Definition alike (sep : list ascii) (c d : ascii) : Prop := forall s, s ∈ sep -> Ascii.eqb s c = Ascii.eqb s d.

Lemma drop_prefix_alike sep p l l' :
  (forall s, s ∈ p -> s ∈ sep) -> Forall2 (alike sep) l l' ->
  match drop_prefix p l with
  | Some r => exists r', drop_prefix p l' = Some r' /\ Forall2 (alike sep) r r'
  | None => drop_prefix p l' = None
  end.
Proof.
  revert l l'. induction p as [|s p IH]; intros l l' Hin Hf; [by exists l'|].
  destruct Hf as [|c d l l' Hcd Hf]; [done|]. cbn.
  rewrite <- (Hcd s) by (apply Hin; by left).
  destruct (Ascii.eqb s c); [|done]. apply IH; [|done]. intros x Hx. apply Hin. by right.
Qed.

Lemma cut_bytes_alike sep l l' a b :
  Forall2 (alike sep) l l' -> cut_bytes sep l = Some (a, b) ->
  exists a' b', cut_bytes sep l' = Some (a', b') /\ length a' = length a.
Proof.
  intros Hf. revert a b. induction Hf as [|c d l l' Hcd Hf IH]; intros a b Hc.
  { by exists a, b. }
  cbn [cut_bytes] in *.
  pose proof (drop_prefix_alike sep sep (c :: l) (d :: l') (fun _ H => H) (proj2 (Forall2_cons _ _ _ _ _) (conj Hcd Hf))) as Hd.
  destruct (drop_prefix sep (c :: l)) as [r|].
  - destruct Hd as (r' & -> & _). injection Hc as <- <-. by exists [], r'.
  - rewrite Hd. destruct (cut_bytes sep l) as [[x y]|]; [|done]. injection Hc as <- <-.
    destruct (IH x y eq_refl) as (x' & y' & -> & Hl). exists (d :: x'), y'. split; [done|]. cbn. by rewrite Hl.
Qed.

Lemma lower_alike c : alike (bytes "://") c (lower_byte c).
Proof.
  intros s Hs. assert (s = ":"%char \/ s = "/"%char) as Hs'.
  { cbn in Hs. rewrite !elem_of_cons in Hs. set_unfold. naive_solver. }
  destruct Hs' as [-> | ->]; by destruct c as [[] [] [] [] [] [] [] []].
Qed.

Lemma alike_refl sep c : alike sep c c.
Proof. by intros s _. Qed.

Lemma cut_lower scheme rest :
  cut (scheme +:+ "://" +:+ rest) "://" = Some (scheme, rest) ->
  cut (to_lower scheme +:+ "://" +:+ rest) "://" = Some (to_lower scheme, rest).
Proof.
  unfold cut, to_lower. rewrite !bytes_app, bytes_of_bytes.
  destruct (cut_bytes (bytes "://") (bytes scheme ++ _)) as [[a b]|] eqn:Hc; [|done].
  intros [= Ea Eb]. assert (a = bytes scheme) as -> by (by rewrite <- Ea, bytes_of_bytes).
  assert (Forall2 (alike (bytes "://")) (bytes scheme ++ bytes "://" ++ bytes rest)
    (map lower_byte (bytes scheme) ++ bytes "://" ++ bytes rest)) as Hf.
  { apply Forall2_app; [|apply Forall_Forall2_diag; apply Forall_forall; intros x _; apply alike_refl].
    apply Forall2_fmap_r, Forall_Forall2_diag. apply Forall_forall. intros x _. apply lower_alike. }
  destruct (cut_bytes_alike _ _ _ _ _ Hf Hc) as (a' & b' & Hc' & Hl). rewrite Hc'.
  apply cut_bytes_Some in Hc'. apply app_inj_1 in Hc' as [<- E]; [|by rewrite Hl, length_map].
  apply app_inv_head in E as <-. by rewrite of_bytes_bytes.
Qed.

(** The last byte of a trimmed text is no slash. *)
Lemma trim_slashes_idem s : trim_slashes (trim_slashes s) = trim_slashes s.
Proof.
  unfold trim_slashes, trim_right_with. rewrite bytes_of_bytes, rev_involutive. do 2 f_equal.
  induction (rev (bytes s)) as [|c l IH]; [done|]. cbn. destruct (is_slash c) eqn:E; [done|].
  cbn. by rewrite E.
Qed.

Lemma trim_slashes_app a b :
  bytes b <> [] -> trim_slashes (a +:+ b) = a +:+ b <-> trim_slashes b = b.
Proof.
  intros Hb. unfold trim_slashes, trim_right_with.
  assert (forall l, of_bytes (rev (drop_while is_slash (rev l))) = of_bytes l <->
    match rev l with c :: _ => is_slash c = false | [] => True end) as H.
  { intros l. split.
    - intros E%of_bytes_inj. destruct (rev l) as [|c r] eqn:Er; [done|].
      destruct (is_slash c) eqn:Hc; [|done]. exfalso. cbn in E. rewrite Hc in E.
      apply (f_equal length) in E. rewrite length_rev in E. rewrite <- (length_rev l), Er in E.
      assert (forall m, length (drop_while is_slash m) <= length m)%nat as Hle.
      { induction m as [|x m IH]; [done|]. cbn. destruct (is_slash x); cbn; lia. }
      specialize (Hle r). cbn in E. lia.
    - destruct (rev l) as [|c r] eqn:Er; intros Hc.
      + rewrite <- (rev_involutive l), Er. done.
      + cbn. rewrite Hc. rewrite <- Er, rev_involutive. done. }
  pose proof (H (bytes (a +:+ b))) as Hab. pose proof (H (bytes b)) as Hbb.
  rewrite of_bytes_bytes in Hab, Hbb. rewrite Hab, Hbb.
  rewrite bytes_app, rev_app_distr. destruct (rev (bytes b)) as [|c r] eqn:Er; [|reflexivity].
  exfalso. apply Hb. rewrite <- (rev_involutive (bytes b)), Er. done.
Qed.

(** Normalising is idempotent, so an entry stored under a URL is found under every URL that
    normalises alike, and its stored key is a normal form. *)
Theorem NormalizeHubURL_idem url : NormalizeHubURL (NormalizeHubURL url) = NormalizeHubURL url.
Proof.
  unfold NormalizeHubURL. destruct (cut (trim_slashes url) "://") as [[scheme rest]|] eqn:Hc.
  2:{ by rewrite trim_slashes_idem, Hc. }
  destruct (scheme =s "") eqn:Hs; [by rewrite trim_slashes_idem, Hc, Hs|]. prop_bool.
  pose proof (cut_Some _ _ _ _ Hc) as E. rewrite E in Hc.
  assert (trim_slashes (to_lower scheme +:+ "://" +:+ rest) = to_lower scheme +:+ "://" +:+ rest) as ->.
  { apply trim_slashes_app; [by rewrite bytes_app|].
    apply (trim_slashes_app scheme); [by rewrite bytes_app|]. rewrite <- E. apply trim_slashes_idem. }
  rewrite (cut_lower _ _ Hc). rewrite to_lower_idem. rewrite bool_decide_false; [done|].
  intros E0. apply (f_equal slen) in E0. rewrite slen_to_lower in E0. by destruct scheme.
Qed.

(** ** The store *)

(** The in-memory store is a map keyed by normalised URL: setting and removing one hub's
    credential shows under exactly the URLs that normalise alike and nowhere else. *)
Theorem credstore_map s u v c :
  Get (CredSet s u c) v = (if decide (NormalizeHubURL u = NormalizeHubURL v) then (c, true) else Get s v) /\
  Get (snd (CredRemove s u)) v =
    (if decide (NormalizeHubURL u = NormalizeHubURL v) then (zeroCredential, false) else Get s v) /\
  fst (CredRemove s u) = snd (Get s u).
Proof.
  split_and!.
  - unfold Get, CredSet. cbn. rewrite lookup_insert. by case_decide.
  - unfold Get, CredRemove. destruct (cs_Hubs s !! NormalizeHubURL u) as [x|] eqn:Hu; cbn.
    + rewrite lookup_delete. by case_decide.
    + case_decide as E; [|done]. by rewrite <- E, Hu.
  - unfold Get, CredRemove. by destruct (cs_Hubs s !! NormalizeHubURL u).
Qed.

(** ** Pins and tokens on disk *)

Section disk.
  Context {CC : CredCodec} (ds es : ppath) (f g : string).
  Context (Hgu : good_elems (ds ++ [f])) (Hgs : good_elems (es ++ [g])).

Local Abbreviation user := (abs (ds ++ [f])).
Local Abbreviation system := (abs (es ++ [g])).

Lemma Load_child fs :
  dir_at ds fs -> plain_slot (ds ++ [f]) fs ->
  Load fs user = match fs !! (ds ++ [f]) with
                 | Some (NFile d) => UnmarshalCred d
                 | _ => Some (MkCredStore ∅ noUpdate)
                 end.
Proof.
  intros Hd Hs. unfold Load. rewrite ReadFile_child by done. by destruct Hs as [-> |[d ->]].
Qed.

(** A save that reports success wrote the whole document, and nothing else. *)
Lemma Save_true env fs s fs' :
  dir_at ds fs -> plain_slot (ds ++ [f]) fs -> Save env fs s user = (true, fs') ->
  exists data, MarshalCred s = Some data /\ fs' = <[ds ++ [f] := NFile data]> fs.
Proof. intros Hd Hs. by apply writeDoc_true. Qed.

Lemma Load_saved env fs s fs' :
  dir_at ds fs -> plain_slot (ds ++ [f]) fs -> Save env fs s user = (true, fs') ->
  Load fs' user = Some s.
Proof.
  intros Hd Hs (data & Hm & ->)%Save_true; [|done..].
  rewrite Load_child by (by apply dir_at_insert || apply plain_slot_file).
  rewrite lookup_insert_eq. by apply unmarshal_cred.
Qed.

End disk.

(** After a pin is set, a lookup returns it for every URL that normalises alike (or, when it was
    cleared, what the system store says); other URLs keep their pin; and every URL keeps its token,
    provided the URL of the pin had an entry in the user's store. *)
Theorem set_pin_looked_up {CC : CredCodec} env fs fs' ds f es g u v pin s :
  let user := abs (ds ++ [f]) in
  let system := abs (es ++ [g]) in
  good_elems (ds ++ [f]) -> good_elems (es ++ [g]) ->
  dir_at ds fs -> plain_slot (ds ++ [f]) fs -> dir_at es fs -> plain_slot (es ++ [g]) fs ->
  ds ++ [f] <> es ++ [g] -> ~ ds ++ [f] `prefix_of` es ->
  Load fs user = Some s ->
  SetPin env fs user u pin = (true, fs') ->
  LookupPin fs' user system v =
    (if decide (NormalizeHubURL u = NormalizeHubURL v)
     then if decide (pin = "") then LookupPin fs' system system v else pin
     else LookupPin fs user system v) /\
  (NormalizeHubURL u <> NormalizeHubURL v \/ snd (Get s u) = true ->
   LookupToken fs' user system v = LookupToken fs user system v).
Proof.
  intros user system Hgu Hgs Hd Hs Hde Hse Hne Hnp Hl Hset. subst user system.
  unfold SetPin in Hset. rewrite Hl in Hset.
  pose proof (Load_saved ds f Hgu _ _ _ _ Hd Hs Hset) as Hl'.
  assert (Load fs' (abs (es ++ [g])) = Load fs (abs (es ++ [g]))) as Hsys.
  { apply (Save_true ds f) in Hset as (data & _ & ->); [|done..].
    assert (dir_at es (<[ds ++ [f] := NFile data]> fs)) as Hde'.
    { intros q Hq Hp. rewrite lookup_insert_ne; [by apply Hde|]. by intros <-. }
    rewrite !(Load_child es g Hgs); [|assumption..|].
    - by rewrite lookup_insert_ne.
    - unfold plain_slot. by rewrite lookup_insert_ne. }
  assert (Get (CredSet s u (with_pin (fst (Get s u)) pin)) v =
    if decide (NormalizeHubURL u = NormalizeHubURL v) then (with_pin (fst (Get s u)) pin, true) else Get s v) as Hg.
  { unfold Get, CredSet. cbn [cs_Hubs]. rewrite lookup_insert. by case_decide. }
  split.
  - unfold LookupPin. rewrite Hl', Hl, Hsys, Hg. case_decide as E; [|done].
    cbn [with_pin cr_Pin andb]. destruct (decide (pin = "")) as [-> |Hp].
    + rewrite bool_decide_true by done. cbn [negb].
      destruct (Load fs (abs (es ++ [g]))) as [x|]; [|done]. destruct (Get x v) as [c ok].
      destruct (ok && negb (bool_decide (cr_Pin c = ""))); reflexivity.
    + rewrite (bool_decide_false _ Hp). reflexivity.
  - intros Hv. unfold LookupToken. rewrite Hl', Hl, Hsys, Hg. case_decide as E; [|done].
    destruct Hv as [Hv|Hv]; [destruct (Hv E)|]. assert (Get s v = Get s u) as -> by (unfold Get; by rewrite E).
    destruct (Get s u) as [c ok]. cbn in Hv. by subst ok.
Qed.

(** ** Two small stores evaluated *)

(** A codec with the law: a document is one number. *)
Definition cred_tuple (c : Credential) : string * string * string := (cr_Token c, cr_Identity c, cr_Pin c).
Definition tuple_cred (t : string * string * string) : Credential := MkCredential t.1.1 t.1.2 t.2.
#[export, refine] Instance demo_cred_codec : CredCodec | 100 := {
  MarshalCred s := Some [Z.pos (encode (cred_tuple <$> cs_Hubs s, (uc_Channel (cs_Update s), uc_Sources (cs_Update s))))];
  UnmarshalCred d := match d with
                     | [Z.pos p] =>
                         match decode p : option (gmap string (string * string * string) * (string * gmap string string)) with
                         | Some (hs, (ch, src)) => Some (MkCredStore (tuple_cred <$> hs) (UpdateConfig ch src))
                         | None => None
                         end
                     | _ => None
                     end
}.
Proof.
  intros [hs [ch src]] d [= <-]. rewrite decode_encode. do 2 f_equal.
  rewrite <- map_fmap_compose. cbn. rewrite <- (map_fmap_id hs) at 2. apply map_fmap_ext. by intros k [] _.
Defined.

Definition demo_home : ppath := ["home"; ".tela"].
Definition demo_cred_disk (user_hubs : gmap string Credential) : fsys :=
  match MarshalCred (MkCredStore user_hubs noUpdate),
        MarshalCred (MkCredStore {[ "wss://hub.example" := MkCredential "system-token" "" "" ]} noUpdate) with
  | Some du, Some dsys =>
      <[["home"; ".tela"; "credentials.yaml"] := NFile du]>
      (<[["etc"; "tela"; "credentials.yaml"] := NFile dsys]>
       {[ ["home"] := NDir; ["home"; ".tela"] := NDir; ["etc"] := NDir; ["etc"; "tela"] := NDir ]})
  | _, _ => ∅
  end.
Definition demo_user : string := UserPath "/home".
Definition demo_pin : string := "sha256:00".

Example demo_paths : demo_user = "/home/.tela/credentials.yaml" /\ SystemPath = "/etc/tela/credentials.yaml".
Proof. done. Qed.

(** [SetPin] makes a user-level entry without a token, which then hides the system's token. *)
Example pin_hides_system_token :
  let fs := demo_cred_disk ∅ in
  LookupToken fs demo_user SystemPath "wss://hub.example/" = "system-token" /\
  match SetPin no_fault fs demo_user "wss://hub.example" demo_pin with
  | (true, fs') => LookupToken fs' demo_user SystemPath "wss://hub.example/" = "" /\
                   LookupPin fs' demo_user SystemPath "wss://hub.example/" = demo_pin
  | _ => False
  end.
Proof. by vm_compute. Qed.

(** Keys of the file are used as they stand: a key that is no normal form is never found. *)
Example unnormalised_key_lost :
  let fs := demo_cred_disk {[ "WSS://other.example/" := MkCredential "t" "" "" ]} in
  LookupToken fs demo_user SystemPath "WSS://other.example/" = "".
Proof. by vm_compute. Qed.

Definition demo_store : CredStore := MkCredStore {[ "wss://hub.example" := MkCredential "mine" "" "" ]} noUpdate.
Definition demo_disk0 : fsys := demo_cred_disk (cs_Hubs demo_store).
Definition demo_set : bool * fsys :=
  SetPin no_fault demo_disk0 (abs (["home"; ".tela"] ++ ["credentials.yaml"])) "WSS://hub.example/" demo_pin.

Lemma demo_dirs : dir_at ["home"; ".tela"] demo_disk0 /\ dir_at ["etc"; "tela"] demo_disk0.
Proof.
  split.
  - apply (dir_at_snoc ["home"]); [|by vm_compute]. apply (dir_at_snoc []); [|by vm_compute]. apply dir_at_nil.
  - apply (dir_at_snoc ["etc"]); [|by vm_compute]. apply (dir_at_snoc []); [|by vm_compute]. apply dir_at_nil.
Qed.

Lemma demo_slots :
  plain_slot (["home"; ".tela"] ++ ["credentials.yaml"]) demo_disk0 /\
  plain_slot (["etc"; "tela"] ++ ["credentials.yaml"]) demo_disk0.
Proof. split; right; eexists; vm_compute; reflexivity. Qed.

Lemma set_pin_looked_up_witness :
  fst demo_set = true /\
  LookupPin (snd demo_set) (abs (["home"; ".tela"] ++ ["credentials.yaml"]))
    (abs (["etc"; "tela"] ++ ["credentials.yaml"])) "wss://hub.example" = demo_pin.
Proof.
  assert (fst demo_set = true) as Hok by (by vm_compute). split; [exact Hok|].
  destruct (set_pin_looked_up no_fault demo_disk0 (snd demo_set) ["home"; ".tela"] "credentials.yaml"
    ["etc"; "tela"] "credentials.yaml" "WSS://hub.example/" "wss://hub.example" demo_pin demo_store) as [H _].
  - apply (bool_decide_unpack _). by vm_compute.
  - apply (bool_decide_unpack _). by vm_compute.
  - apply demo_dirs.
  - apply demo_slots.
  - apply demo_dirs.
  - apply demo_slots.
  - apply (bool_decide_unpack _). by vm_compute.
  - apply (bool_decide_unpack _). by vm_compute.
  - by vm_compute.
  - rewrite <- Hok. apply surjective_pairing.
  - rewrite H, decide_True by (by vm_compute). by rewrite decide_False by (by vm_compute).
Defined.
