(* ===== verification/FileShare.v ===== *)
(** * The agent's file share ([internal/agent/fileshare.go])

    Share configuration, the path sandbox, and the operations of a file share connection on the file
    system, for Unix.  A connection is the bytes still to be read; what a handler writes to it is its
    output.  Modification times and the subscribe stream are left out. *)

From S2P Require Import Prelude FilePath FileSys Sha256.
From Stdlib Require Import ZArith Lia Ascii String.
From stdpp Require Import base gmap strings list fin_maps.

Definition maxChunkSize : Z := 16384.

Record shareConfig := ShareConfig {
  sc_Name : string;
  sc_Path : string;
  sc_Writable : bool;
  sc_MaxFileSize : string;
  sc_MaxTotalSize : string;
  sc_AllowDelete : bool;
  sc_AllowedExtensions : list string;
  sc_BlockedExtensions : list string
}.

Record fileShareConfig := FileShareConfig {
  fc_Enabled : bool;
  fc_Share : shareConfig        (** its fields under the legacy names; the share name is unused *)
}.

Record parsedFileShareConfig := ParsedShare {
  ps_name : string;
  ps_enabled : bool;
  ps_directory : string;
  ps_writable : bool;
  ps_allowDelete : bool;
  ps_maxFileSize : Z;
  ps_maxTotalSize : Z;
  ps_allowedExtensions : gset string;
  ps_blockedExtensions : gset string
}.

Definition defaultBlockedExtensions : list string := [".exe"; ".bat"; ".cmd"; ".ps1"; ".sh"].
Definition systemDirs : list string := ["/"; "/etc"; "/bin"; "/sbin"; "/usr"; "/var"; "/tmp"; "/root"].

(** ** Configuration *)

Definition upper_byte (c : ascii) : ascii :=
  if is_lower c then ascii_of_N (Z.to_N (code c - 32)) else c.
Definition to_upper (s : string) : string := of_bytes (map upper_byte (bytes s)).

(** [None] is the error. *)
Definition parseSize (s : string) : option Z :=
  let s := trim_space (to_upper s) in
  let '(multiplier, s) :=
    if has_suffix s "GB" then ((1024 * 1024 * 1024)%Z, trim_suffix s "GB")
    else if has_suffix s "MB" then ((1024 * 1024)%Z, trim_suffix s "MB")
    else if has_suffix s "KB" then (1024%Z, trim_suffix s "KB")
    else (1%Z, s) in
  n ← Atoi (trim_space s); Some (i64 (n * multiplier)).

Definition dotted (ext : string) : string :=
  to_lower (if has_prefix ext "." then ext else "." +:+ ext).

(** [filepath.Abs]; [cwd] is the working directory, [None] if it cannot be found. *)
Definition Abs (cwd : option string) (p : string) : option string :=
  if rooted p then Some (Clean p) else d ← cwd; Some (FilePath.Join d p).

Definition parseShareConfig (cwd : option string) (cfg : shareConfig) : option parsedFileShareConfig :=
  if (sc_Name cfg =s "") || (sc_Path cfg =s "") then None
  else
    absDir ← Abs cwd (sc_Path cfg);
    let absDir := Clean absDir in
    if existsb (equal_fold absDir) systemDirs then None
    else if sc_AllowDelete cfg && negb (sc_Writable cfg) then None
    else
      maxFileSize ← (if sc_MaxFileSize cfg <>s "" then parseSize (sc_MaxFileSize cfg)
                     else Some (50 * 1024 * 1024)%Z);
      maxTotalSize ← (if sc_MaxTotalSize cfg <>s "" then parseSize (sc_MaxTotalSize cfg) else Some 0%Z);
      let blocked :=
        if is_nil (sc_BlockedExtensions cfg) && is_nil (sc_AllowedExtensions cfg)
        then defaultBlockedExtensions else sc_BlockedExtensions cfg in
      Some (ParsedShare (sc_Name cfg) true absDir (sc_Writable cfg) (sc_AllowDelete cfg) maxFileSize
              maxTotalSize (list_to_set (map dotted (sc_AllowedExtensions cfg)))
              (list_to_set (map dotted blocked))).

Definition with_name (c : shareConfig) (n : string) : shareConfig :=
  ShareConfig n (sc_Path c) (sc_Writable c) (sc_MaxFileSize c) (sc_MaxTotalSize c)
    (sc_AllowDelete c) (sc_AllowedExtensions c) (sc_BlockedExtensions c).

(** The shares and whether the deprecation notice is given. *)
Definition parseSharesConfig (cwd : option string) (shares : list shareConfig) (legacy : fileShareConfig)
    : option (list parsedFileShareConfig * bool) :=
  head ← (if fc_Enabled legacy then
            if existsb (fun s => sc_Name s =s "legacy") shares then None
            else p ← parseShareConfig cwd (with_name (fc_Share legacy) "legacy"); Some [p]
          else Some []);
  rest ← mapM (parseShareConfig cwd) shares;
  Some (head ++ rest, fc_Enabled legacy).

(** ** Checks *)

Definition isExtensionAllowed (p : parsedFileShareConfig) (name : string) : bool :=
  let ext := to_lower (Ext name) in
  if ext =s "" then bool_decide (ps_allowedExtensions p = ∅)
  else if bool_decide (ext ∈ ps_blockedExtensions p) then false
  else if bool_decide (ps_allowedExtensions p = ∅) then true
  else bool_decide (ext ∈ ps_allowedExtensions p).

Definition Contains (s sub : string) : bool :=
  match cut s sub with Some _ => true | None => false end.

Definition is_link (o : ostat) : bool := match o with SInfo (NLink _) => true | _ => false end.

(** [inl] is the error. *)
Definition validatePath (fs : fsys) (p : parsedFileShareConfig) (relPath : string) : string + string :=
  if Contains relPath ".." then inl "path traversal not allowed"
  else
    let cleaned := Clean relPath in
    let joined := FilePath.Join (ps_directory p) cleaned in
    match Rel (ps_directory p) joined with
    | None => inl "path validation failed"
    | Some rel =>
        if has_prefix rel ".." then inl "path escapes sandbox"
        else if is_link (Lstat fs joined) then inl "symlinks not allowed"
        else match Lstat fs joined with
             | SNotExist =>
                 if is_link (Lstat fs (Dir joined)) then inl "symlinks not allowed" else inr joined
             | _ => inr joined
             end
    end.

(** The total of all regular files below a directory. *)
Definition dirTotalSize (fs : fsys) (dir : string) : Z :=
  match resolve fs dir false with
  | WFound p _ =>
      foldr (fun kv n => match snd kv with NFile d => (Z.of_nat (length d) + n)%Z | _ => n end) 0%Z
        (map_to_list (below p fs))
  | _ => 0%Z
  end.

(** The [bool] is success. *)
Definition ensureShareDir (fs : fsys) (dir : string) : bool * fsys :=
  match Stat fs dir with
  | SInfo NDir => (true, fs)
  | SInfo _ => (false, fs)
  | SNotExist => MkdirAll fs dir
  | SErr => (false, fs)
  end.

Record fileShareCapability := FileShareCapability {
  ca_Name : string;
  ca_Writable : bool;
  ca_AllowDelete : bool;
  ca_MaxFileSize : Z;
  ca_BlockedExtensions : gset string;
  ca_AllowedExtensions : gset string
}.

(** The shares of the advertisement; the order of the extensions is left open. *)
Definition buildCapabilities (shares : list parsedFileShareConfig) : list fileShareCapability :=
  map (fun s => FileShareCapability (ps_name s) (ps_writable s) (ps_allowDelete s) (ps_maxFileSize s)
                  (ps_blockedExtensions s) (ps_allowedExtensions s))
    (List.filter ps_enabled shares).

(** ** Protocol *)

Record fsRequest := FsRequest {
  fr_Op : string;
  fr_Share : string;
  fr_Path : string;
  fr_Size : Z;
  fr_Checksum : string;
  fr_NewName : string;
  fr_NewPath : string;
  fr_Offset : Z;
  fr_Limit : Z
}.

Record fsShareInfo := FsShareInfo { si_Name : string; si_Writable : bool; si_AllowDelete : bool }.

(** The size is that of a regular file. *)
Record fsEntry := FsEntry { en_Name : string; en_Size : option Z; en_IsDir : bool }.

Record fsResponse := FsResponse {
  rs_OK : bool;
  rs_Error : string;
  rs_Entries : list fsEntry;
  rs_Shares : list fsShareInfo;
  rs_Size : Z;
  rs_Checksum : string;
  rs_Total : Z
}.

Definition failed (err : string) : fsResponse := FsResponse false err [] [] 0 "" 0.
Definition succeeded : fsResponse := FsResponse true "" [] [] 0 "" 0.

Inductive sent := SentResponse (r : fsResponse) | SentBytes (b : list Z).

(** Which calls of the file system fail, by name, and the name [CreateTemp] draws. *)
Record shareEnv := ShareEnv { sv_fault : string -> bool; sv_tmp : string }.

(** A handler's output, the file system and the input left. *)
Abbreviation outcome := (list sent * fsys)%type.
Definition reject (err : string) (fs : fsys) : outcome := ([SentResponse (failed err)], fs).

(** ** Operations *)

Definition handleListShares (shares : list parsedFileShareConfig) (fs : fsys) : outcome :=
  let info := map (fun s => FsShareInfo (ps_name s) (ps_writable s) (ps_allowDelete s))
                (List.filter ps_enabled shares) in
  ([SentResponse (FsResponse true "" [] info 0 "" 0)], fs).

Definition entry_of (kv : string * node) : option fsEntry :=
  match snd kv with
  | NLink _ => None
  | NDir => Some (FsEntry (fst kv) None true)
  | NFile d => Some (FsEntry (fst kv) (Some (Z.of_nat (length d))) false)
  | NOther => Some (FsEntry (fst kv) None false)
  end.

Definition paginate {A} (offset limit : Z) (l : list A) : list A :=
  let l := if (0 <? offset)%Z then drop (Z.to_nat offset) l else l in
  if (0 <? limit)%Z && (limit <? Z.of_nat (length l))%Z then take (Z.to_nat limit) l else l.

Definition handleList (env : shareEnv) (fs : fsys) (cfg : parsedFileShareConfig) (req : fsRequest)
    : outcome :=
  match (if fr_Path req <>s "" then validatePath fs cfg (fr_Path req) else inr (ps_directory cfg)) with
  | inl err => reject err fs
  | inr dirPath =>
      match (if sv_fault env "readdir" then None else ReadDir fs dirPath) with
      | None => reject "cannot read directory" fs
      | Some entries =>
          let result := omap entry_of entries in
          ([SentResponse (FsResponse true "" (paginate (fr_Offset req) (fr_Limit req) result) [] 0 ""
              (Z.of_nat (length result)))], fs)
      end
  end.

Definition chunkHeader (n : Z) : list Z := z_bytes ("CHUNK " +:+ Itoa n) ++ [10%Z].

(** The transfer loop; [n] bounds the number of chunks. *)
Fixpoint sendChunks (n : nat) (data : list Z) : list Z :=
  match n, data with
  | S n', _ :: _ =>
      let buf := take (Z.to_nat maxChunkSize) data in
      chunkHeader (Z.of_nat (length buf)) ++ buf ++ sendChunks n' (drop (Z.to_nat maxChunkSize) data)
  | _, _ => chunkHeader 0
  end.

Definition checksumOf (data : list Z) : string := "sha256:" +:+ of_bytes (hex_encode (sha256 data)).

Definition handleRead (env : shareEnv) (fs : fsys) (cfg : parsedFileShareConfig) (req : fsRequest)
    : outcome :=
  if fr_Path req =s "" then reject "path required" fs
  else match validatePath fs cfg (fr_Path req) with
       | inl err => reject err fs
       | inr absPath =>
           match Lstat fs absPath with
           | SInfo NDir => reject "cannot read a directory" fs
           | SInfo (NFile info) =>
               match (if sv_fault env "open" then None else OpenRead fs absPath) with
               | None => reject "cannot open file" fs
               | Some data =>
                   ([SentResponse (FsResponse true "" [] [] (Z.of_nat (length info)) (checksumOf data) 0);
                     SentBytes (sendChunks (length data) data)], fs)
               end
           | SInfo _ => reject "not a regular file" fs
           | _ => reject "file not found" fs
           end
       end.

(** *** Write *)

(** [reader.ReadString('\n')]: the line without its newline, and the rest. *)
Fixpoint readLine (input : list Z) : option (list Z * list Z) :=
  match input with
  | [] => None
  | c :: input' =>
      if (c =? 10)%Z then Some ([], input')
      else '(l, r) ← readLine input'; Some (c :: l, r)
  end.

Definition of_z_bytes (l : list Z) : string := of_bytes (map (fun z => ascii_of_N (Z.to_N z)) l).

(** [strings.TrimRight(line, "\n\r")]. *)
Definition trim_crlf (s : string) : string :=
  trim_right_with (fun c => Ascii.eqb c "010" || Ascii.eqb c "013") s.

(** The receive loop: an error or the data, and the input left; [n] bounds the lines read. *)
Fixpoint readChunks (n : nat) (size : Z) (got input : list Z) : (string + list Z) * list Z :=
  match n with
  | O => (inl "transfer stalled", input)
  | S n' =>
      match readLine input with
      | None => (inl "transfer stalled", [])
      | Some (line, input) =>
          let line := trim_crlf (of_z_bytes line) in
          if negb (has_prefix line "CHUNK ") then (inl "expected CHUNK header", input)
          else match Atoi (trim_prefix line "CHUNK ") with
               | None => (inl "invalid chunk size", input)
               | Some chunkSize =>
                   if (chunkSize =? 0)%Z then (inr got, input)
                   else if (maxChunkSize <? chunkSize)%Z then (inl "chunk too large", input)
                   else if (chunkSize <? 0)%Z || (Z.of_nat (length input) <? chunkSize)%Z then
                     (inl "incomplete chunk", if (chunkSize <? 0)%Z then input else [])
                   else
                     let got := got ++ take (Z.to_nat chunkSize) input in
                     let input := drop (Z.to_nat chunkSize) input in
                     if (size <? Z.of_nat (length got))%Z then
                       (inl "received more data than declared size", input)
                     else readChunks n' size got input
               end
      end
  end.

(** The checks before anything is written; [inr] is the absolute path. *)
Definition writeChecks (fs : fsys) (cfg : parsedFileShareConfig) (req : fsRequest) : string + string :=
  if negb (ps_writable cfg) then inl "file sharing is read-only"
  else if fr_Path req =s "" then inl "path required"
  else if (fr_Size req <=? 0)%Z then inl "size required"
  else match validatePath fs cfg (fr_Path req) with
       | inl err => inl err
       | inr absPath =>
           if negb (isExtensionAllowed cfg (fr_Path req)) then inl "file extension not allowed"
           else if (ps_maxFileSize cfg <? fr_Size req)%Z then
             inl ("file too large (max " +:+ Itoa (ps_maxFileSize cfg) +:+ " bytes)")
           else if (0 <? ps_maxTotalSize cfg)%Z &&
                   (ps_maxTotalSize cfg <? i64 (dirTotalSize fs (ps_directory cfg) + fr_Size req))%Z
           then inl "would exceed total size limit"
           else inr absPath
       end.

(** The tests on what was received. *)
Definition checkReceived (req : fsRequest) (data : list Z) : option string :=
  if negb (Z.of_nat (length data) =? fr_Size req)%Z then
    Some ("size mismatch: expected " +:+ Itoa (fr_Size req) +:+ ", got " +:+ Itoa (Z.of_nat (length data)))
  else if (fr_Checksum req <>s "") && (checksumOf data <>s fr_Checksum req) then
    Some "checksum mismatch"
  else None.

(** The deferred [os.Remove] of the temporary file. *)
Definition dropTemp (fs : fsys) (tmpPath : string) : fsys := default fs (Remove fs tmpPath).

Definition handleWrite (env : shareEnv) (fs : fsys) (cfg : parsedFileShareConfig) (req : fsRequest)
    (input : list Z) : outcome * list Z :=
  match writeChecks fs cfg req with
  | inl err => (reject err fs, input)
  | inr absPath =>
      let parentDir := Dir absPath in
      let '(ok, fs) := if sv_fault env "mkdirall" then (false, fs) else MkdirAll fs parentDir in
      if negb ok then (reject "cannot create directory" fs, input)
      else match (if sv_fault env "createtemp" then None
                  else CreateTemp fs parentDir (".tela-upload-" +:+ sv_tmp env)) with
           | None => (reject "cannot create temp file" fs, input)
           | Some (tmpPath, tmpFile, fs) =>
               match readChunks (S (length input)) (fr_Size req) [] input with
               | (inl err, input) => (reject err (dropTemp fs tmpPath), input)
               | (inr data, input) =>
                   match checkReceived req data with
                   | Some err => (reject err (dropTemp fs tmpPath), input)
                   | None =>
                       let fs := WriteOpen fs tmpFile data in
                       match (if sv_fault env "rename" then None else Rename fs tmpPath absPath) with
                       | None => (reject "failed to finalize file" (dropTemp fs tmpPath), input)
                       | Some fs =>
                           (([SentResponse (FsResponse true "" [] [] (Z.of_nat (length data)) "" 0)],
                             dropTemp fs tmpPath), input)
                       end
                   end
               end
           end
  end.

(** *** Delete, mkdir, rename, move *)

Definition handleDelete (env : shareEnv) (fs : fsys) (cfg : parsedFileShareConfig) (req : fsRequest)
    : outcome :=
  if negb (ps_writable cfg) || negb (ps_allowDelete cfg) then reject "delete not allowed" fs
  else if fr_Path req =s "" then reject "path required" fs
  else match validatePath fs cfg (fr_Path req) with
       | inl err => reject err fs
       | inr absPath =>
           let remove :=
             match (if sv_fault env "remove" then None else Remove fs absPath) with
             | None => reject "delete failed" fs
             | Some fs => ([SentResponse succeeded], fs)
             end in
           match Lstat fs absPath with
           | SInfo NDir => remove
           | SInfo (NFile _) =>
               if negb (isExtensionAllowed cfg (fr_Path req)) then reject "file extension not allowed" fs
               else remove
           | SInfo _ => reject "not a regular file or directory" fs
           | _ => reject "file not found" fs
           end
       end.

Definition handleMkdir (env : shareEnv) (fs : fsys) (cfg : parsedFileShareConfig) (req : fsRequest)
    : outcome :=
  if negb (ps_writable cfg) then reject "file sharing is read-only" fs
  else if fr_Path req =s "" then reject "path required" fs
  else match validatePath fs cfg (fr_Path req) with
       | inl err => reject err fs
       | inr absPath =>
           match (if sv_fault env "mkdir" then MkFail else Mkdir fs absPath) with
           | MkOk fs => ([SentResponse succeeded], fs)
           | MkExist => reject "directory already exists" fs
           | MkFail => reject "mkdir failed" fs
           end
       end.

(** The sandbox test of [rename] and [move]. *)
Definition escapes (cfg : parsedFileShareConfig) (path : string) : bool :=
  match Rel (ps_directory cfg) path with None => true | Some rel => has_prefix rel ".." end.

Definition finishRename (env : shareEnv) (fs : fsys) (what src dst : string) : outcome :=
  match (if sv_fault env "rename" then None else Rename fs src dst) with
  | None => reject (what +:+ " failed") fs
  | Some fs => ([SentResponse succeeded], fs)
  end.

Definition handleRename (env : shareEnv) (fs : fsys) (cfg : parsedFileShareConfig) (req : fsRequest)
    : outcome :=
  if negb (ps_writable cfg) then reject "file sharing is read-only" fs
  else if (fr_Path req =s "") || (fr_NewName req =s "") then reject "path and newName required" fs
  else match validatePath fs cfg (fr_Path req) with
       | inl err => reject err fs
       | inr absPath =>
           if Contains (fr_NewName req) "/" || Contains (fr_NewName req) "\" then
             reject "newName must be a filename, not a path" fs
           else
             let newAbs := FilePath.Join (Dir absPath) (fr_NewName req) in
             if escapes cfg newAbs then reject "rename would escape sandbox" fs
             else match Lstat fs absPath, Lstat fs newAbs with
                  | SInfo _, SInfo _ => reject "destination already exists" fs
                  | SInfo _, _ => finishRename env fs "rename" absPath newAbs
                  | _, _ => reject "source not found" fs
                  end
       end.

Definition moveTo (env : shareEnv) (fs : fsys) (srcAbs dstAbs : string) : outcome :=
  match Lstat fs dstAbs with
  | SInfo _ => reject "destination already exists" fs
  | _ =>
      match Stat fs (Dir dstAbs) with
      | SInfo _ =>
          if has_prefix dstAbs (srcAbs +:+ "/") then reject "cannot move a directory into itself" fs
          else finishRename env fs "move" srcAbs dstAbs
      | _ => reject "destination directory does not exist" fs
      end
  end.

Definition handleMove (env : shareEnv) (fs : fsys) (cfg : parsedFileShareConfig) (req : fsRequest)
    : outcome :=
  if negb (ps_writable cfg) then reject "file sharing is read-only" fs
  else if (fr_Path req =s "") || (fr_NewPath req =s "") then reject "path and newPath required" fs
  else match validatePath fs cfg (fr_Path req) with
       | inl err => reject ("source: " +:+ err) fs
       | inr srcAbs =>
           match validatePath fs cfg (fr_NewPath req) with
           | inl err => reject ("destination: " +:+ err) fs
           | inr dstAbs =>
               match Lstat fs srcAbs with
               | SInfo _ =>
                   match Lstat fs dstAbs with
                   | SInfo NDir =>
                       let dstAbs := FilePath.Join dstAbs (Base srcAbs) in
                       if escapes cfg dstAbs then reject "move would escape sandbox" fs
                       else moveTo env fs srcAbs dstAbs
                   | _ => moveTo env fs srcAbs dstAbs
                   end
               | _ => reject "source not found" fs
               end
           end
       end.

(** ** The connection *)

(** One request line, as [json.Unmarshal] reads it; the [bool] says whether the loop goes on. *)
Definition handleRequest (env : shareEnv) (shares : list parsedFileShareConfig) (fs : fsys)
    (req : option fsRequest) (input : list Z) : outcome * list Z * bool :=
  match req with
  | None => (reject "invalid request" fs, input, true)
  | Some req =>
      if fr_Op req =s "list-shares" then (handleListShares shares fs, input, true)
      else match find_first (fun s => ps_name s =s fr_Share req) shares with
           | None =>
               (reject (if fr_Share req =s "" then "share name required"
                        else "unknown share: " +:+ fr_Share req) fs, input, true)
           | Some cfg =>
               if fr_Op req =s "list" then (handleList env fs cfg req, input, true)
               else if fr_Op req =s "read" then (handleRead env fs cfg req, input, true)
               else if fr_Op req =s "write" then (handleWrite env fs cfg req input, true)
               else if fr_Op req =s "delete" then (handleDelete env fs cfg req, input, true)
               else if fr_Op req =s "mkdir" then (handleMkdir env fs cfg req, input, true)
               else if fr_Op req =s "rename" then (handleRename env fs cfg req, input, true)
               else if fr_Op req =s "move" then (handleMove env fs cfg req, input, true)
               else if fr_Op req =s "subscribe" then (([], fs), input, false)
               else (reject ("unknown operation: " +:+ fr_Op req) fs, input, true)
           end
  end.
