(* ===== verification/FileShareProofs.v ===== *)
(** * The file share stays in its directory

    Confinement of every operation to the share's directory, when no symbolic link lies in it, what
    a served write and a served read amount to, and the transfer format round trip. *)

From S2P Require Import Prelude FilePath FileSys Sha256 FileShare.
From Stdlib Require Import ZArith Lia Ascii String.
From stdpp Require Import base gmap strings list fin_maps.

(** ** The path check *)

Lemma cut_bytes_None sep l a b : cut_bytes sep l = None -> l <> a ++ sep ++ b.
Proof.
  revert a. induction l as [|c l IH]; intros a; cbn.
  - destruct (drop_prefix sep []) eqn:E; [done|]. intros _ Ha. destruct a; [|done].
    cbn in Ha. assert (drop_prefix sep [] = Some b) by (by apply drop_prefix_Some). congruence.
  - destruct (drop_prefix sep (c :: l)) eqn:E; [done|].
    destruct (cut_bytes sep l) as [[x y]|]; [done|]. intros _ Ha.
    destruct a as [|d a].
    + assert (drop_prefix sep (c :: l) = Some b) by (by apply drop_prefix_Some). congruence.
    + injection Ha as -> Ha. by apply (IH a).
Qed.

Lemma Contains_false s sub a b : Contains s sub = false -> s <> a +:+ sub +:+ b.
Proof.
  unfold Contains, cut. intros Hc E.
  destruct (cut_bytes (bytes sub) (bytes s)) as [[x y]|] eqn:Ec; [done|].
  eapply (cut_bytes_None _ _ (bytes a) (bytes b)) in Ec. apply Ec. by rewrite E, !bytes_app.
Qed.

Lemma split_slash_head p e es : split_slash p = e :: es -> exists b, p = e +:+ b.
Proof.
  revert e es. induction p as [|c p IH]; intros x es; [intros [= <- _]; by exists ""|]. cbn.
  destruct (Ascii.eqb c "/"); [intros [= <- _]; by exists (String c p)|].
  destruct (split_slash_cons p) as (y & ys & E). rewrite E. intros [= <- _].
  destruct (IH _ _ E) as [b Hb]. exists b. by rewrite Hb at 1.
Qed.

Lemma split_slash_sub p e : e ∈ split_slash p -> exists a b, p = a +:+ e +:+ b.
Proof.
  induction p as [|c p IH].
  { cbn. rewrite list_elem_of_singleton. intros ->. by exists "", "". }
  destruct (split_slash_cons (String c p)) as (y & ys & E). rewrite E, elem_of_cons.
  intros [->|He].
  { destruct (split_slash_head _ _ _ E) as [b Hb]. by exists "", b. }
  destruct IH as (a & b & ->); [|by exists (String c a), b].
  cbn in E. destruct (Ascii.eqb c "/"); [by injection E as _ <-|].
  destruct (split_slash_cons p) as (z & zs & Ez). rewrite Ez in E |- *. injection E as _ <-. by right.
Qed.

Lemma Contains_no_dots p : Contains p ".." = false -> ".." ∉ split_slash p.
Proof. intros Hc (a & b & E)%split_slash_sub. by eapply Contains_false. Qed.

(** ** Shares *)

(** The directory of the share is the clean absolute path of these elements. *)
Record share_at (cfg : parsedFileShareConfig) (ds : ppath) : Prop := ShareAt {
  sa_dir : ps_directory cfg = abs ds;
  sa_good : good_elems ds
}.

(** No link in the share or on the way to it; the directories on the way exist. *)
Record share_ok (ds : ppath) (fs : fsys) : Prop := ShareOk {
  ok_plain : plain_tree ds fs;
  ok_dirs : forall q, q <> [] -> q `prefix_of` ds -> q <> ds -> fs !! q = Some NDir
}.

(** The later file system agrees outside the share and has no link in it. *)
Definition confined (ds : ppath) (fs fs' : fsys) : Prop :=
  same_outside ds fs fs' /\ forall q t, ds `prefix_of` q -> fs' !! q <> Some (NLink t).

Lemma strict_prefix_outside (q ds : ppath) : q `prefix_of` ds -> q <> ds -> ~ ds `prefix_of` q.
Proof.
  intros H1 Hn H2. apply Hn. pose proof (prefix_length _ _ H1). destruct H2 as [k ->].
  rewrite length_app in *. destruct k; [by rewrite app_nil_r|cbn in *; lia].
Qed.

Lemma confined_ok ds fs fs' : share_ok ds fs -> confined ds fs fs' -> share_ok ds fs'.
Proof.
  intros [Hpl Hdirs] [Hso Hnl]. split.
  - intros q t Hq. destruct (decide (ds `prefix_of` q)) as [Hin|Hout]; [by destruct (Hnl q t)|].
    rewrite Hso in Hq by done. by apply Hpl in Hq.
  - intros q Hne Hp Hd. rewrite Hso by (by apply strict_prefix_outside). by apply Hdirs.
Qed.

Lemma confined_refl ds fs : share_ok ds fs -> confined ds fs fs.
Proof. intros [Hpl _]. split; [done|]. intros q t Hin Hq. by apply Hpl in Hq as [_ ?]. Qed.

Lemma confined_trans ds f g h : confined ds f g -> confined ds g h -> confined ds f h.
Proof. intros [H1 _] [H2 H3]. split; [by etrans|done]. Qed.

Lemma confined_insert ds fs p n :
  share_ok ds fs -> ds `prefix_of` p -> (forall t, n <> NLink t) -> confined ds fs (<[p := n]> fs).
Proof.
  intros Hok Hp Hn. split; [by apply same_outside_insert|]. intros q t Hin.
  rewrite lookup_insert. case_decide; [intros [= ->]; by apply (Hn t)|].
  by apply (confined_refl ds fs Hok).
Qed.

Lemma confined_delete ds fs p : share_ok ds fs -> ds `prefix_of` p -> confined ds fs (delete p fs).
Proof.
  intros Hok Hp. split; [by apply same_outside_delete|]. intros q t Hin [_ Hq]%lookup_delete_Some.
  by apply (proj2 (confined_refl ds fs Hok) q t).
Qed.

Lemma lookup_move_Some fs p q k n :
  move fs p q !! k = Some n -> exists k', fs !! k' = Some n /\ (k' = k \/ p `prefix_of` k').
Proof.
  unfold move. rewrite lookup_union_Some_raw, map_lookup_filter_Some, lookup_delete_Some.
  intros [[[_ Hk] _]|[_ Hk]]; [exists k; split; [done|by left]|].
  apply elem_of_list_to_map_2 in Hk. apply list_elem_of_fmap in Hk as ([k' n'] & [= -> ->] & Hk).
  apply elem_of_map_to_list, map_lookup_filter_Some in Hk as [Hk Hp]. exists k'. split; [done|by right].
Qed.

Lemma confined_move ds fs p q :
  share_ok ds fs -> ds `prefix_of` p -> ds `prefix_of` q -> confined ds fs (move fs p q).
Proof.
  intros Hok Hp Hq. split.
  - intros k Hk. apply lookup_move_outside; [intros ?; apply Hk; by transitivity p|].
    intros ?; apply Hk; by transitivity q.
  - intros k t Hin (k' & Hk' & Hor)%lookup_move_Some.
    apply (proj2 (confined_refl ds fs Hok) k' t); [|done]. destruct Hor as [-> |?]; [done|by transitivity p].
Qed.

(** ** The calls, on paths inside the share *)

Section calls.
  Context (ds : ppath) (fs : fsys) (Hok : share_ok ds fs).

Lemma resolve_inside es follow :
  good_elems (ds ++ es) -> lands fs (ds ++ es) (resolve fs (abs (ds ++ es)) follow).
Proof. apply resolve_lands, Hok. Qed.

Lemma Mkdir_confined es fs' :
  good_elems (ds ++ es) -> Mkdir fs (abs (ds ++ es)) = MkOk fs' -> confined ds fs fs'.
Proof.
  intros Hg. unfold Mkdir. pose proof (resolve_inside es false Hg) as Hl.
  destruct (resolve _ _ _) as [p n|p| |]; try done. intros [= <-]. destruct Hl as [-> _].
  apply confined_insert; [done|by eexists|done].
Qed.

Lemma Remove_confined es fs' :
  good_elems (ds ++ es) -> Remove fs (abs (ds ++ es)) = Some fs' -> confined ds fs fs'.
Proof.
  intros Hg. unfold Remove. pose proof (resolve_inside es false Hg) as Hl.
  destruct (resolve _ _ _) as [p n|p| |]; try done. destruct Hl as [-> _].
  case_bool_decide; [done|]. assert (confined ds fs (delete (ds ++ es) fs)).
  { apply confined_delete; [done|by eexists]. }
  destruct n; try (intros [= <-]; done). destruct (is_nil _); [intros [= <-]; done|done].
Qed.

Lemma Rename_confined es es' fs' :
  good_elems (ds ++ es) -> good_elems (ds ++ es') ->
  Rename fs (abs (ds ++ es)) (abs (ds ++ es')) = Some fs' -> confined ds fs fs'.
Proof.
  intros Hg Hg'. unfold Rename. pose proof (resolve_inside es false Hg) as Hl.
  pose proof (resolve_inside es' false Hg') as Hl'.
  assert (confined ds fs (move fs (ds ++ es) (ds ++ es'))) as Hm.
  { apply confined_move; [done|by eexists..]. }
  destruct (resolve fs (abs (ds ++ es)) _) as [p n|p| |]; try done.
  destruct Hl as [-> _].
  destruct (resolve fs (abs (ds ++ es')) _) as [q m|q| |]; try done; destruct Hl' as [-> _].
  - case_bool_decide; [done|]. assert (confined ds fs fs) by (by apply confined_refl).
    destruct m, n; try done; intros [= <-]; by case_bool_decide.
  - destruct (_ || _); [done|]. by intros [= <-].
Qed.

Lemma dropTemp_confined es : good_elems (ds ++ es) -> confined ds fs (dropTemp fs (abs (ds ++ es))).
Proof.
  intros Hg. unfold dropTemp. destruct (Remove _ _) eqn:E; [by eapply Remove_confined|].
  by apply confined_refl.
Qed.

Lemma good_prefix es es' : good_elems (es ++ es') -> good_elems es.
Proof. by intros [? _]%Forall_app. Qed.

(** The path to the share is directories all the way. *)
Lemma Stat_above q : good_elems ds -> q <> [] -> q `prefix_of` ds -> q <> ds ->
  Stat fs (abs q) = SInfo NDir.
Proof.
  intros Hds Hne Hp Hd. destruct Hok as [Hpl Hdirs].
  assert (good_elems q) as Hq by (destruct Hp as [k ->]; by eapply good_prefix).
  assert (forall r, r `prefix_of` q -> node_at fs r = Some NDir) as Hall.
  { intros r Hr. destruct r as [|x r]; [done|]. apply Hdirs; [done|by transitivity q|].
    intros E. apply Hd, (anti_symm prefix); [done|by rewrite <- E]. }
  unfold Stat, resolve. rewrite real_elems_abs by done.
  assert (forall cur es, good_elems es -> (forall r, r `prefix_of` cur ++ es -> node_at fs r = Some NDir) ->
    walk maxLinks fs cur es true = WFound (cur ++ es) NDir) as Hw.
  { clear -Hq. intros cur es. revert cur. induction es as [|e es IH]; intros cur Hg Hn.
    { rewrite walk_nil, app_nil_r, (Hn cur) by (by rewrite app_nil_r). done. }
    apply Forall_cons in Hg as [He Hg]. rewrite walk_cons, bool_decide_false by apply He.
    assert (cur ++ e :: es = (cur ++ [e]) ++ es) as Eapp by (by rewrite <- app_assoc).
    rewrite Eapp in *. assert (node_at fs (cur ++ [e]) = Some NDir) as Hc by (apply Hn; by eexists).
    assert (fs !! (cur ++ [e]) = Some NDir) as -> by (unfold node_at in Hc; by destruct (cur ++ [e]) eqn:E; [destruct cur|]).
    by apply IH. }
  by rewrite (Hw [] q).
Qed.
End calls.

Lemma mkdir_all_confined ds k fs pre es :
  share_ok ds fs -> good_elems ds -> good_elems (ds ++ k) -> pre ++ es = ds ++ k ->
  confined ds fs (snd (mkdir_all fs pre es)).
Proof.
  intros Hok Hds Hg. revert fs pre Hok. induction es as [|e es IH]; intros fs pre Hok E.
  { by apply confined_refl. }
  assert ((pre ++ [e]) ++ es = ds ++ k) as E' by (by rewrite <- app_assoc).
  cbn [mkdir_all]. destruct (decide (ds `prefix_of` pre ++ [e])) as [[j Hj]|Hout].
  - assert (good_elems (ds ++ j)) as Hgj.
    { rewrite <- Hj. rewrite <- E' in Hg. by eapply good_prefix. }
    rewrite Hj in *. destruct (Stat fs (abs (ds ++ j))) as [[]| |]; try (by apply confined_refl).
    { by apply IH. }
    all: destruct (Mkdir fs _) as [fs'| |] eqn:Em; try (by apply confined_refl).
    all: pose proof (Mkdir_confined ds fs Hok j fs' Hgj Em) as Hc.
    all: eapply confined_trans; [exact Hc|]; apply IH; [by eapply confined_ok|done].
  - destruct (prefix_weak_total (pre ++ [e]) ds (ds ++ k)) as [Hp|Hp]; [rewrite <- E'; by eexists|by eexists| |done].
    rewrite (Stat_above ds fs Hok (pre ++ [e])); [by apply IH|done|by destruct pre|done|].
    intros E0. apply Hout. by rewrite E0.
Qed.

Lemma MkdirAll_confined ds k fs :
  share_ok ds fs -> good_elems (ds ++ k) -> confined ds fs (snd (MkdirAll fs (abs (ds ++ k)))).
Proof.
  intros Hok Hg. unfold MkdirAll. rewrite real_elems_abs by done.
  by eapply mkdir_all_confined; [|eapply good_prefix| |].
Qed.

(** The name [CreateTemp] draws is decimal digits after the prefix. *)
Definition drawn (env : shareEnv) : Prop := Forall (fun c => is_digit c = true) (bytes (sv_tmp env)).

Lemma drawn_good env : drawn env -> good_elem (".tela-upload-" +:+ sv_tmp env).
Proof.
  intros Hd. split_and!; try done. unfold no_slash. rewrite bytes_app, elem_of_app.
  intros [Hin|Hin].
  - revert Hin. by apply (bool_decide_unpack (("/"%char : ascii) ∉ bytes ".tela-upload-")).
  - unfold drawn in Hd. rewrite Forall_forall in Hd. by apply Hd in Hin.
Qed.

Lemma validatePath_inside cfg ds fs rel q :
  share_at cfg ds -> validatePath fs cfg rel = inr q ->
  q = abs (ds ++ real_elems rel) /\ good_elems (ds ++ real_elems rel).
Proof.
  intros [Hdir Hds]. unfold validatePath. destruct (Contains rel "..") eqn:Hc; [done|].
  apply Contains_no_dots in Hc. rewrite Hdir, Join_plain by done.
  pose proof (real_elems_good rel Hc) as Hg.
  destruct (Rel _ _); [|done]. destruct (has_prefix _ _); [done|].
  destruct (is_link _); [done|].
  intros Hq. assert (q = abs (ds ++ real_elems rel)) as ->.
  { destruct (Lstat _ _) as [n| |]; [by injection Hq as <-| |by injection Hq as <-].
    destruct (is_link _); [done|by injection Hq as <-]. }
  split; [done|by apply Forall_app].
Qed.

(** A path that passes the sandbox test of rename and move is inside. *)
Lemma escapes_inside cfg ds es q :
  share_at cfg ds -> escapes cfg (FilePath.Join (abs es) q) = false ->
  exists k, FilePath.Join (abs es) q = abs (ds ++ k) /\ good_elems (ds ++ k).
Proof.
  intros [Hdir Hds]. destruct (Join_abs_good es q) as (qs & Hqs & ->). unfold escapes. rewrite Hdir.
  destruct (Rel _ _) as [r|] eqn:Hr; [|done]. intros Hp.
  destruct (Rel_inside ds qs r Hds Hqs Hr Hp) as [k ->]. by exists k.
Qed.

(** ** The operations *)

Section operations.
  Context (env : shareEnv) (cfg : parsedFileShareConfig) (ds : ppath).
  Context (Hat : share_at cfg ds) (Henv : drawn env).

Lemma finishRename_confined fs what es es' :
  share_ok ds fs -> good_elems (ds ++ es) -> good_elems (ds ++ es') ->
  confined ds fs (snd (finishRename env fs what (abs (ds ++ es)) (abs (ds ++ es')))).
Proof.
  intros Hok Hg Hg'. unfold finishRename. destruct (sv_fault env _); [by apply confined_refl|].
  destruct (Rename _ _ _) eqn:E; [exact (Rename_confined ds fs Hok es es' _ Hg Hg' E)|by apply confined_refl].
Qed.

Lemma handleDelete_confined fs req :
  share_ok ds fs -> confined ds fs (snd (handleDelete env fs cfg req)).
Proof.
  intros Hok. pose proof (confined_refl ds fs Hok) as Hr. unfold handleDelete.
  destruct (_ || _); [done|]. case_bool_decide; [done|].
  destruct (validatePath _ _ _) as [|q] eqn:Hv; [done|].
  apply (validatePath_inside cfg ds) in Hv as [-> Hg]; [|done].
  assert (forall fs', (if sv_fault env "remove" then None else Remove fs (abs (ds ++ real_elems (fr_Path req))))
    = Some fs' -> confined ds fs fs') as Hrem.
  { intros fs'. destruct (sv_fault _ _); [done|]. exact (Remove_confined ds fs Hok _ fs' Hg). }
  destruct (Lstat _ _) as [[]| |]; try done; try (destruct (negb _); [done|]).
  all: destruct (if sv_fault _ _ then _ else _) eqn:E; [by apply Hrem|done].
Qed.

Lemma handleMkdir_confined fs req :
  share_ok ds fs -> confined ds fs (snd (handleMkdir env fs cfg req)).
Proof.
  intros Hok. pose proof (confined_refl ds fs Hok) as Hr. unfold handleMkdir.
  destruct (negb _); [done|]. case_bool_decide; [done|].
  destruct (validatePath _ _ _) as [|q] eqn:Hv; [done|].
  apply (validatePath_inside cfg ds) in Hv as [-> Hg]; [|done].
  destruct (sv_fault _ _); [done|]. destruct (Mkdir _ _) eqn:E; [exact (Mkdir_confined ds fs Hok _ _ Hg E)|done..].
Qed.

Lemma Dir_abs es : good_elems es -> exists es', Dir (abs es) = abs es' /\ good_elems es'.
Proof.
  intros Hg. destruct es as [|e es _] using rev_ind; [by exists []|].
  exists es. split; [by apply Dir_abs_snoc|by eapply good_prefix].
Qed.

Lemma handleRename_confined fs req :
  share_ok ds fs -> confined ds fs (snd (handleRename env fs cfg req)).
Proof.
  intros Hok. pose proof (confined_refl ds fs Hok) as Hr. unfold handleRename.
  destruct (negb _); [done|]. destruct (_ || _); [done|].
  destruct (validatePath _ _ _) as [|q] eqn:Hv; [done|].
  apply (validatePath_inside cfg ds) in Hv as [-> Hg]; [|done].
  destruct (_ || _); [done|]. cbv zeta.
  destruct (Dir_abs _ Hg) as (es & -> & _). destruct (escapes _ _) eqn:He; [done|].
  apply (escapes_inside cfg ds) in He as (k & -> & Hk); [|done].
  destruct (Lstat _ _); try done. destruct (Lstat _ _); try done; by apply finishRename_confined.
Qed.

Lemma moveTo_confined fs es es' :
  share_ok ds fs -> good_elems (ds ++ es) -> good_elems (ds ++ es') ->
  confined ds fs (snd (moveTo env fs (abs (ds ++ es)) (abs (ds ++ es')))).
Proof.
  intros Hok Hg Hg'. pose proof (confined_refl ds fs Hok) as Hr. unfold moveTo.
  destruct (Lstat _ _); try done; (destruct (Stat _ _); try done);
    (destruct (has_prefix _ _); [done|by apply finishRename_confined]).
Qed.

Lemma handleMove_confined fs req :
  share_ok ds fs -> confined ds fs (snd (handleMove env fs cfg req)).
Proof.
  intros Hok. pose proof (confined_refl ds fs Hok) as Hr. unfold handleMove.
  destruct (negb _); [done|]. destruct (_ || _); [done|].
  destruct (validatePath fs cfg (fr_Path req)) as [|q] eqn:Hv; [done|].
  apply (validatePath_inside cfg ds) in Hv as [-> Hg]; [|done].
  destruct (validatePath fs cfg (fr_NewPath req)) as [|q'] eqn:Hv'; [done|].
  apply (validatePath_inside cfg ds) in Hv' as [-> Hg']; [|done].
  destruct (Lstat fs (abs (ds ++ real_elems (fr_Path req)))); try done.
  destruct (Lstat fs (abs (ds ++ real_elems (fr_NewPath req)))) as [[]| |];
    try (by apply moveTo_confined).
  cbv zeta. destruct (escapes _ _) eqn:He; [done|].
  apply (escapes_inside cfg ds) in He as (k & -> & Hk); [|done]. by apply moveTo_confined.
Qed.

(** A write that passes the checks names something inside. *)
Lemma writeChecks_inside fs req q :
  writeChecks fs cfg req = inr q -> real_elems (fr_Path req) <> [] ->
  exists es e, real_elems (fr_Path req) = es ++ [e] /\ q = abs (ds ++ es ++ [e]) /\
    good_elems (ds ++ es ++ [e]) /\ Dir q = abs (ds ++ es) /\ good_elems (ds ++ es).
Proof.
  unfold writeChecks. intros Hc Hne.
  destruct (negb _); [done|]. case_bool_decide; [done|]. destruct (_ <=? _)%Z; [done|].
  destruct (validatePath _ _ _) as [|q'] eqn:Hv; [done|].
  assert (q' = q) as ->.
  { destruct (negb _); [done|]. destruct (_ <? _)%Z; [done|]. destruct (_ && _); [done|].
    by injection Hc. }
  apply (validatePath_inside cfg ds) in Hv as [-> Hg]; [|done].
  destruct (real_elems (fr_Path req)) as [|e es _] using rev_ind; [done|].
  exists es, e. split_and!; [done..| |]; rewrite app_assoc in Hg; [|by eapply good_prefix].
  rewrite app_assoc. by apply Dir_abs_snoc.
Qed.

Lemma CreateTemp_inside fs es path p fs' :
  share_ok ds fs -> good_elems (ds ++ es) ->
  CreateTemp fs (abs (ds ++ es)) (".tela-upload-" +:+ sv_tmp env) = Some (path, p, fs') ->
  let tp := es ++ [".tela-upload-" +:+ sv_tmp env] in
  path = abs (ds ++ tp) /\ p = ds ++ tp /\ good_elems (ds ++ tp) /\ fs !! (ds ++ tp) = None /\
  fs' = <[ds ++ tp := NFile []]> fs /\ confined ds fs fs'.
Proof.
  intros Hok Hg. pose proof (drawn_good env Henv) as Hn. unfold CreateTemp.
  rewrite Join_elem, <- app_assoc by done.
  assert (good_elems (ds ++ es ++ [".tela-upload-" +:+ sv_tmp env])) as Hg'.
  { rewrite app_assoc. by apply Forall_app; split; [|apply Forall_singleton]. }
  pose proof (resolve_inside ds fs Hok _ false Hg') as Hl.
  destruct (resolve _ _ _) as [q n|q| |]; try done. destruct Hl as (-> & _ & Hnone).
  intros [= <- <- <-]. split_and!; try done. apply confined_insert; [done|by eexists|done].
Qed.

(** A write whose parent directory is in the share. *)
Lemma write_inside fs req input es tgt :
  share_ok ds fs -> writeChecks fs cfg req = inr (abs (ds ++ tgt)) -> good_elems (ds ++ tgt) ->
  Dir (abs (ds ++ tgt)) = abs (ds ++ es) -> good_elems (ds ++ es) ->
  confined ds fs (snd (fst (handleWrite env fs cfg req input))).
Proof.
  intros Hok Hc Hg HD Hgd. pose proof (confined_refl ds fs Hok) as Hr. unfold handleWrite. rewrite Hc, HD.
  destruct (sv_fault env "mkdirall"); [done|].
  pose proof (MkdirAll_confined ds es fs Hok Hgd) as Hm.
  destruct (MkdirAll fs _) as [ok fs1]. cbn [snd] in Hm. destruct ok; cbn [negb]; [|done].
  pose proof (confined_ok _ _ _ Hok Hm) as Hok1.
  destruct (sv_fault env "createtemp"); [done|].
  destruct (CreateTemp fs1 _ _) as [[[tmp tp] fs2]|] eqn:Ht; [|done].
  apply CreateTemp_inside in Ht as (-> & -> & Hgt & _ & _ & Ht); [|done..].
  pose proof (confined_trans _ _ _ _ Hm Ht) as H2. pose proof (confined_ok _ _ _ Hok H2) as Hok2.
  assert (forall fs', confined ds fs fs' ->
    confined ds fs (dropTemp fs' (abs (ds ++ es ++ [".tela-upload-" +:+ sv_tmp env])))) as Hdrop.
  { intros fs' Hc'. eapply confined_trans; [exact Hc'|]. apply dropTemp_confined; [|done].
    exact (confined_ok ds fs fs' Hok Hc'). }
  destruct (readChunks _ _ _ _) as [[err|data] input'] eqn:Hrd; [by apply Hdrop|].
  destruct (checkReceived _ _); [by apply Hdrop|]. cbv zeta.
  match goal with |- context [WriteOpen fs2 ?tp data] =>
    assert (confined ds fs2 (WriteOpen fs2 tp data)) as Hw by (apply confined_insert; [done|by eexists|done]) end.
  pose proof (confined_trans _ _ _ _ H2 Hw) as H3. pose proof (confined_ok _ _ _ Hok H3) as Hok3.
  destruct (sv_fault env "rename"); [by apply Hdrop|].
  destruct (Rename _ _ _) as [fs4|] eqn:Hren; [|by apply Hdrop]. apply Hdrop.
  eapply confined_trans; [exact H3|]. exact (Rename_confined ds _ Hok3 _ _ _ Hgt Hg Hren).
Qed.

End operations.

(** Outside the share, nothing stands below what is not there. *)
Definition closed_outside (ds : ppath) (fs : fsys) : Prop := forall k q,
  fs !! k = None -> k <> [] -> k `prefix_of` q -> ~ ds `prefix_of` q -> fs !! q = None.

Lemma closed_outside_same ds fs fs' : same_outside ds fs fs' -> closed_outside ds fs -> closed_outside ds fs'.
Proof.
  intros Hs Hc k q Hk Hne Hp Hq. rewrite Hs by done. apply (Hc k); [|done..].
  rewrite <- Hs; [done|]. intros Hdk. apply Hq. by transitivity k.
Qed.

(** A write to the root of the share puts its temporary file beside the share and takes it away. *)
Section beside.
  Context (ds : ppath) (e t : string) (fs : fsys).
Let root : ppath := ds ++ [e].
Let tmp : ppath := ds ++ [t].
  Context (Hok : share_ok root fs) (Hcl : closed_outside root fs) (Hg : good_elems root) (Hgt : good_elems tmp).
  Context (Hfree : fs !! tmp = None) (Hne : t <> e).

Lemma beside_dirs : dir_at ds fs.
Proof.
  intros q Hq Hp. apply (ok_dirs _ _ Hok); [done|unfold root; etrans; [exact Hp|by eexists]|].
  intros ->. apply prefix_length in Hp. unfold root in Hp. rewrite length_app in Hp. cbn in Hp. lia.
Qed.

Lemma beside_out : ~ root `prefix_of` tmp.
Proof. intros E%child_prefix. by apply Hne. Qed.

Lemma beside_dropped data : dropTemp (<[tmp := NFile data]> fs) (abs tmp) = fs.
Proof.
  unfold dropTemp. rewrite (Remove_child ds t Hgt _ data); cbn [default from_option].
  - by apply delete_insert_id.
  - apply dir_at_insert, beside_dirs.
  - apply lookup_insert_eq.
Qed.

Lemma beside_renamed data fs' :
  Rename (<[tmp := NFile data]> fs) (abs tmp) (abs root) = Some fs' -> confined root fs (dropTemp fs' (abs tmp)).
Proof.
  unfold Rename, tmp. rewrite (resolve_child ds t Hgt) by (apply dir_at_insert, beside_dirs || apply plain_slot_file).
  rewrite lookup_insert_eq. fold tmp.
  assert (plain_tree root (<[tmp := NFile data]> fs)) as Hpl.
  { intros q x Hq. rewrite lookup_insert in Hq. case_decide; [done|]. by apply (ok_plain _ _ Hok) in Hq. }
  pose proof (resolve_lands root _ [] false Hpl) as Hl. rewrite app_nil_r in Hl. specialize (Hl Hg).
  assert (move (<[tmp := NFile data]> fs) tmp root = fs' -> confined root fs (dropTemp fs' (abs tmp))) as Hmove.
  { intros <-. set (g := move _ _ _). assert (g !! tmp = None) as Hgone.
    { unfold g, move. rewrite lookup_union_None, map_lookup_filter_None. split; [right; by intros ? _ []|].
      apply not_elem_of_list_to_map_1. intros (kv & E & (x & -> & _)%list_elem_of_fmap)%list_elem_of_fmap.
      apply beside_out. exists (drop (length tmp) (fst x)). exact E. }
    assert (forall k, ~ tmp `prefix_of` k -> ~ root `prefix_of` k -> g !! k = fs !! k) as Hout.
    { intros k H1 H2. unfold g. rewrite lookup_move_outside by done. apply lookup_insert_ne. by intros ->. }
    assert (forall k, tmp `prefix_of` k -> fs !! k = None) as Hbelow.
    { intros k Hk. apply (Hcl tmp); [done|by destruct ds|done|]. intros Hr.
      destruct (prefix_weak_total _ _ _ Hr Hk) as [E|E]; [by apply beside_out|].
      apply child_prefix in E. by apply Hne. }
    assert (dropTemp g (abs tmp) = g) as ->.
    { unfold dropTemp, Remove. unfold tmp. rewrite (resolve_child ds t Hgt).
      - fold tmp. by rewrite Hgone.
      - intros q Hq Hp. rewrite Hout; [by apply beside_dirs|..]; intros Hx;
          apply prefix_length in Hx, Hp; unfold tmp, root in Hx; rewrite length_app in Hx; cbn in Hx; lia.
      - by left. }
    split.
    - intros k Hk. destruct (decide (tmp `prefix_of` k)) as [Ht|]; [|by apply Hout]. rewrite (Hbelow k Ht).
      destruct (g !! k) as [n|] eqn:E; [|done]. exfalso. unfold g, move in E.
      apply lookup_union_Some_raw in E as [[_ Hn]%map_lookup_filter_Some|[_ Hn]]; [by apply Hn|].
      apply elem_of_list_to_map_2, list_elem_of_fmap in Hn as ([k' n'] & [= -> ->] & _). apply Hk. by eexists.
    - intros q x Hq (k' & Hk' & Hor)%lookup_move_Some. rewrite lookup_insert in Hk'. case_decide; [done|].
      destruct Hor as [-> |Ht]; [by apply (proj2 (confined_refl root fs Hok) q x)|]. by rewrite Hbelow in Hk'. }
  destruct (resolve _ (abs root) false) as [q n|q| |]; [| |done..].
  - destruct Hl as [-> _]. rewrite bool_decide_false by by destruct ds.
    destruct n; [done|..]; intros [= E]; (case_bool_decide as E'; [apply child_inj in E'; by destruct Hne|by apply Hmove]).
  - destruct Hl as (-> & _). destruct (_ || _); [done|]. intros [= E]. by apply Hmove.
Qed.

End beside.

Lemma free_slot ds t fs p :
  good_elems (ds ++ [t]) -> dir_at ds fs -> resolve fs (abs (ds ++ [t])) false = WMissing p ->
  p = ds ++ [t] /\ fs !! (ds ++ [t]) = None.
Proof.
  intros Hg Hd. unfold resolve. rewrite real_elems_abs by done.
  rewrite (walk_dirs _ _ [] ds [t]) by (exact Hd || by apply good_no_dots, (good_dir ds t)).
  cbn [app]. rewrite walk_cons. destruct (good_name ds t Hg) as (_ & _ & Hdd & _). rewrite bool_decide_false by done.
  destruct (fs !! (ds ++ [t])) as [[]|]; try done; [|by intros [= <-]].
  rewrite walk_nil. by destruct (node_at _ _).
Qed.

Lemma handleWrite_confined env cfg ds fs req input :
  share_at cfg ds -> drawn env -> share_ok ds fs -> closed_outside ds fs ->
  confined ds fs (snd (fst (handleWrite env fs cfg req input))).
Proof.
  intros Hat Henv Hok Hcl. pose proof (confined_refl ds fs Hok) as Hr.
  destruct (writeChecks fs cfg req) as [|q] eqn:Hc; [unfold handleWrite; by rewrite Hc|].
  destruct (decide (real_elems (fr_Path req) = [])) as [Hroot|Hne]; cycle 1.
  { destruct (writeChecks_inside cfg ds Hat fs req q Hc Hne) as (es & e & _ & -> & Hg & HD & Hgd).
    by apply (write_inside env cfg ds Henv fs req input es (es ++ [e])). }
  assert (q = abs ds) as ->.
  { revert Hc. unfold writeChecks. destruct (negb _); [done|]. case_bool_decide; [done|]. destruct (_ <=? _)%Z; [done|].
    destruct (validatePath _ _ _) as [|q'] eqn:Hv; [done|].
    apply (validatePath_inside cfg ds) in Hv as [-> _]; [|done]. rewrite Hroot, app_nil_r.
    destruct (negb _); [done|]. destruct (_ <? _)%Z; [done|]. destruct (_ && _); [done|]. by intros [= <-]. }
  pose proof (sa_good _ _ Hat) as Hg. pose proof (drawn_good env Henv) as Hdr.
  destruct ds as [|e ds' _] using rev_ind.
  { by apply (write_inside env cfg [] Henv fs req input [] []). }
  assert (good_elems (ds' ++ [".tela-upload-" +:+ sv_tmp env])) as Hgt.
  { apply Forall_app. split; [by eapply good_prefix|by apply Forall_singleton]. }
  pose proof (beside_dirs ds' e fs Hok) as Hdirs.
  unfold handleWrite. rewrite Hc, Dir_abs_snoc by done. destruct (sv_fault env "mkdirall"); [done|].
  rewrite MkdirAll_present by (done || by eapply good_prefix). cbn [negb].
  destruct (sv_fault env "createtemp"); [done|].
  unfold CreateTemp. rewrite Join_elem by (done || by eapply good_prefix).
  set (t := ".tela-upload-" +:+ sv_tmp env) in *. clearbody t.
  destruct (resolve fs (abs (ds' ++ [t])) false) as [| p| |] eqn:Hres; try done.
  destruct (free_slot ds' t fs p Hgt Hdirs Hres) as [-> Hfree].
  assert (forall fs', (exists data, fs' = <[ds' ++ [t] := NFile data]> fs) ->
    confined (ds' ++ [e]) fs (dropTemp fs' (abs (ds' ++ [t]))) /\
    forall fs'', Rename fs' (abs (ds' ++ [t])) (abs (ds' ++ [e])) = Some fs'' ->
      confined (ds' ++ [e]) fs (dropTemp fs'' (abs (ds' ++ [t])))) as Hdrop.
  { intros fs' [data ->]. destruct (decide (t = e)) as [->|Hte]; cycle 1.
    { split; [by rewrite (beside_dropped ds' e)|]. by apply beside_renamed. }
    assert (confined (ds' ++ [e]) fs (<[ds' ++ [e] := NFile data]> fs)) as Hc1 by (by apply confined_insert).
    pose proof (confined_ok _ _ _ Hok Hc1) as Hok1.
    assert (forall g, share_ok (ds' ++ [e]) g -> confined (ds' ++ [e]) g (dropTemp g (abs (ds' ++ [e])))) as Hd.
    { intros g Hog. pose proof (dropTemp_confined (ds' ++ [e]) g Hog []) as Hd. rewrite app_nil_r in Hd. by apply Hd. }
    pose proof (Rename_confined (ds' ++ [e]) _ Hok1 [] []) as Hren. rewrite app_nil_r in Hren.
    split; [eapply confined_trans; [exact Hc1|by apply Hd]|]. intros fs'' E.
    pose proof (confined_trans _ _ _ _ Hc1 (Hren fs'' Hg Hg E)) as Hc2.
    eapply confined_trans; [exact Hc2|]. apply Hd. exact (confined_ok _ _ _ Hok Hc2). }
  destruct (readChunks _ _ _ _) as [[err|data] input'] eqn:Hrd; [by apply Hdrop; eexists|].
  destruct (checkReceived _ _); [by apply Hdrop; eexists|]. cbv zeta.
  assert (exists d, WriteOpen (<[ds' ++ [t] := NFile []]> fs) (ds' ++ [t]) data = <[ds' ++ [t] := NFile d]> fs) as Hw
    by (exists data; apply insert_insert_eq).
  destruct (Hdrop _ Hw) as [Hw1 Hw2]. destruct (sv_fault env "rename"); [done|].
  destruct (Rename _ _ _) as [fs4|] eqn:Hren; [by apply Hw2|done].
Qed.


(** ** The transfer format *)

Lemma Atoi_Itoa n : (0 <= n < 9223372036854775808)%Z -> Atoi (Itoa n) = Some n.
Proof.
  intros Hn. unfold Itoa. destruct (Z.ltb_spec n 0); [lia|].
  pose proof (FormatUint_nonempty n) as Hne. pose proof (parse_FormatUint n ltac:(lia)) as Hp.
  pose proof (fun c => FormatUint_digit n c ltac:(lia)) as Hd. unfold Atoi.
  destruct (bytes (FormatUint n)) as [|c l]; [done|].
  pose proof (Hd c ltac:(left)) as Hc.
  destruct (Ascii.eqb_spec c "-") as [->|]; [done|].
  destruct (Ascii.eqb_spec c "+") as [->|]; [done|].
  rewrite Hp. cbn [mbind option_bind].
  by destruct (Z.leb_spec (-9223372036854775808) n), (Z.leb_spec n 9223372036854775807); try lia.
Qed.

Lemma of_z_bytes_z_bytes s : of_z_bytes (z_bytes s) = s.
Proof.
  unfold of_z_bytes, z_bytes. rewrite map_map. apply bytes_inj. rewrite bytes_of_bytes.
  induction (bytes s) as [|c l IH]; [done|]. cbn. rewrite IH. f_equal.
  unfold code. by rewrite N2Z.id, ascii_N_embedding.
Qed.

Lemma readLine_app l r : 10%Z ∉ l -> readLine (l ++ 10%Z :: r) = Some (l, r).
Proof.
  induction l as [|c l IH]; [done|]. rewrite not_elem_of_cons. intros [Hc Hl]. cbn.
  destruct (Z.eqb_spec c 10); [congruence|]. by rewrite IH.
Qed.

(** No line break in the text of a chunk header. *)
Lemma chunk_line_bytes n c :
  (0 <= n)%Z -> c ∈ bytes ("CHUNK " +:+ Itoa n) -> c <> "010"%char /\ c <> "013"%char.
Proof.
  intros Hn. rewrite bytes_app, elem_of_app. unfold Itoa. destruct (Z.ltb_spec n 0); [lia|].
  intros [Hin|Hin].
  - cbn in Hin. rewrite !elem_of_cons, elem_of_nil in Hin. naive_solver.
  - apply FormatUint_digit in Hin; [|done]. split; by intros ->.
Qed.

Lemma readChunks_header n size got k rest :
  (0 <= k < 9223372036854775808)%Z ->
  readChunks (S n) size got (chunkHeader k ++ rest) =
    if (k =? 0)%Z then (inr got, rest)
    else if (maxChunkSize <? k)%Z then (inl "chunk too large", rest)
    else if (Z.of_nat (length rest) <? k)%Z then (inl "incomplete chunk", [])
    else if (size <? Z.of_nat (length (got ++ take (Z.to_nat k) rest)))%Z
         then (inl "received more data than declared size", drop (Z.to_nat k) rest)
         else readChunks n size (got ++ take (Z.to_nat k) rest) (drop (Z.to_nat k) rest).
Proof.
  intros Hk. cbn [readChunks]. unfold chunkHeader. rewrite <- app_assoc. cbn [app].
  rewrite readLine_app.
  2:{ unfold z_bytes. intros (c & Hc & Hin)%list_elem_of_fmap.
      apply chunk_line_bytes in Hin as [Hin _]; [|lia]. apply Hin.
      unfold code in Hc. assert (N_of_ascii c = 10%N) as E by lia.
      by rewrite <- (ascii_N_embedding c), E. }
  rewrite of_z_bytes_z_bytes.
  assert (trim_crlf ("CHUNK " +:+ Itoa k) = "CHUNK " +:+ Itoa k) as ->.
  { unfold trim_crlf, trim_right_with. rewrite drop_while_none; [by rewrite rev_involutive, of_bytes_bytes|].
    rewrite forallb_rev. apply forallb_forall. intros c Hin%list_elem_of_In.
    apply chunk_line_bytes in Hin as [H1 H2]; [|lia].
    destruct (Ascii.eqb_spec c "010"), (Ascii.eqb_spec c "013"); done. }
  assert (has_prefix ("CHUNK " +:+ Itoa k) "CHUNK " = true) as ->.
  { apply has_prefix_iff. by eexists. }
  cbn [negb]. rewrite trim_prefix_app, Atoi_Itoa by done.
  destruct (Z.ltb_spec k 0); [lia|]. done.
Qed.

Lemma chunks_roundtrip_at n m size got data rest :
  length data <= m -> length data < n -> (Z.of_nat (length (got ++ data)) <= size)%Z ->
  readChunks n size got (sendChunks m data ++ rest) = (inr (got ++ data), rest).
Proof.
  revert n got data. induction m as [|m IH]; intros n got data Hm Hn Hs.
  - destruct data; [|cbn in Hm; lia]. destruct n; [lia|]. cbn [sendChunks].
    rewrite readChunks_header by lia. cbn. by rewrite app_nil_r.
  - destruct n as [|n]; [lia|]. destruct data as [|z data].
    { cbn [sendChunks]. rewrite readChunks_header by lia. cbn. by rewrite app_nil_r. }
    cbn [sendChunks]. set (all := z :: data) in *.
    set (c := Z.to_nat maxChunkSize). assert (c = Z.to_nat 16384) as Ec by done.
    pose proof (length_take all c) as Hlt. assert (0 < length all) as Hpos by (cbn; lia).
    assert (0 < c) as Hcp by lia.
    rewrite <- !app_assoc, readChunks_header by (rewrite Hlt, Ec; lia).
    destruct (Z.eqb_spec (Z.of_nat (length (take c all))) 0); [lia|].
    assert (Z.of_nat c = maxChunkSize) as Hcz by (rewrite Ec; unfold maxChunkSize; lia).
    destruct (Z.ltb_spec maxChunkSize (Z.of_nat (length (take c all)))); [lia|].
    destruct (Z.ltb_spec (Z.of_nat (length (take c all ++ sendChunks m (drop c all) ++ rest)))
      (Z.of_nat (length (take c all)))); [rewrite length_app in *; lia|].
    rewrite Nat2Z.id, take_app_length, drop_app_length.
    assert (all = take c all ++ drop c all) as Hsplit by (by rewrite take_drop).
    rewrite length_app in Hs.
    destruct (Z.ltb_spec size (Z.of_nat (length (got ++ take c all)))).
    { rewrite length_app in *. lia. }
    pose proof (length_drop all c) as Hld.
    rewrite IH; [|lia|lia|rewrite <- app_assoc, take_drop, length_app; lia].
    by rewrite <- app_assoc, take_drop.
Qed.

(** ** Theorems *)

(** Any sequence of requests to a share. *)
Inductive share_run (cfg : parsedFileShareConfig) : fsys -> fsys -> Prop :=
  | share_nil fs : share_run cfg fs fs
  | share_cons env req input fs fs' :
      drawn env -> share_run cfg (snd (fst (fst (handleRequest env [cfg] fs req input)))) fs' ->
      share_run cfg fs fs'.

Lemma handleRequest_confined env cfg ds fs req input :
  share_at cfg ds -> drawn env -> share_ok ds fs -> closed_outside ds fs ->
  let fs' := snd (fst (fst (handleRequest env [cfg] fs req input))) in
  confined ds fs fs' /\ (ps_writable cfg = false -> fs' = fs).
Proof.
  intros Hat Henv Hok Hcl. pose proof (confined_refl ds fs Hok) as Hr. unfold handleRequest.
  destruct req as [r|]; [|done].
  case_bool_decide; [done|]. cbn [find_first]. destruct (ps_name cfg =s fr_Share r); [|done].
  destruct (bool_decide_reflect (fr_Op r = "list")).
  { unfold handleList. split; [|intros _]; by repeat (case_match; try done). }
  destruct (bool_decide_reflect (fr_Op r = "read")).
  { unfold handleRead. split; [|intros _]; by repeat (case_match; try done). }
  destruct (bool_decide_reflect (fr_Op r = "write")) as [Hop|].
  { split; [by apply handleWrite_confined|]. intros Hro. unfold handleWrite, writeChecks.
    by rewrite Hro. }
  destruct (bool_decide_reflect (fr_Op r = "delete")).
  { split; [by apply handleDelete_confined|]. intros Hro. unfold handleDelete. by rewrite Hro. }
  destruct (bool_decide_reflect (fr_Op r = "mkdir")).
  { split; [by apply handleMkdir_confined|]. intros Hro. unfold handleMkdir. by rewrite Hro. }
  destruct (bool_decide_reflect (fr_Op r = "rename")).
  { split; [by apply handleRename_confined|]. intros Hro. unfold handleRename. by rewrite Hro. }
  destruct (bool_decide_reflect (fr_Op r = "move")).
  { split; [by apply handleMove_confined|]. intros Hro. unfold handleMove. by rewrite Hro. }
  by case_bool_decide.
Qed.

(** C24. The sandbox holds: in a share with no symbolic link in it or on the way to it, no sequence of
    requests, whatever paths and names they carry and whichever calls fail, leaves anything changed
    outside the share's directory or puts a link inside it; and a read-only share changes nothing at
    all.  During a request that writes to the root of the share itself its temporary file lies beside
    the share; it is gone when the request is over. *)
Theorem share_confined cfg ds fs fs' :
  share_at cfg ds -> share_ok ds fs -> closed_outside ds fs -> share_run cfg fs fs' ->
  (forall k, ~ ds `prefix_of` k -> fs' !! k = fs !! k) /\ share_ok ds fs' /\
  (ps_writable cfg = false -> fs' = fs).
Proof.
  intros Hat Hok Hcl Hrun. induction Hrun as [fs|env req input fs fs' Henv Hrun IH]; [done|].
  destruct (handleRequest_confined env cfg ds fs req input Hat Henv Hok Hcl) as [Hc Hro].
  destruct (IH (confined_ok _ _ _ Hok Hc) (closed_outside_same _ _ _ (proj1 Hc) Hcl)) as (H1 & H2 & H3).
  split_and!; [|done|].
  - intros k Hk. by rewrite H1, (proj1 Hc).
  - intros Hnw. by rewrite H3, Hro.
Qed.

(** What a read serves is a regular file of the share: its size and SHA-256 go into the header,
    and the receiving side of the protocol recovers from the chunks exactly its bytes, with
    nothing left over. *)
Theorem read_serves_file env cfg ds fs req r b :
  share_at cfg ds -> share_ok ds fs ->
  handleRead env fs cfg req = ([SentResponse r; SentBytes b], fs) ->
  exists data, fs !! (ds ++ real_elems (fr_Path req)) = Some (NFile data) /\
    rs_OK r = true /\ rs_Size r = Z.of_nat (length data) /\ rs_Checksum r = checksumOf data /\
    forall rest, readChunks (S (length (b ++ rest))) (rs_Size r) [] (b ++ rest) = (inr data, rest).
Proof.
  intros Hat Hok. unfold handleRead. case_bool_decide; [done|].
  destruct (validatePath _ _ _) as [|q] eqn:Hv; [done|].
  apply (validatePath_inside cfg ds) in Hv as [-> Hg]; [|done].
  set (p := ds ++ real_elems (fr_Path req)) in *.
  pose proof (resolve_inside ds fs Hok (real_elems (fr_Path req)) false Hg) as Hl.
  pose proof (resolve_inside ds fs Hok (real_elems (fr_Path req)) true Hg) as Hl'. fold p in Hl, Hl'.
  unfold Lstat, OpenRead. destruct (resolve fs (abs p) false) as [q n|q| |]; try done. cbn [stat_of].
  destruct Hl as [-> Hn]. destruct n as [|info|t|]; try done. destruct (sv_fault env "open"); [done|].
  destruct (resolve fs (abs p) true) as [q n|q| |]; try done. destruct Hl' as [-> Hn'].
  rewrite Hn in Hn'. injection Hn' as <-. intros [= <- <-]. exists info.
  split_and!; try done.
  - unfold node_at in Hn. by destruct p.
  - intros rest. cbn [rs_Size]. rewrite chunks_roundtrip_at; [done|lia| |cbn; lia].
    rewrite length_app. assert (forall m d, length d <= m -> length d <= length (sendChunks m d)) as Hlen.
    { induction m as [|m IH]; intros d Hd; [destruct d; cbn in *; lia|]. destruct d as [|z d]; [cbn; lia|].
      cbn [sendChunks]. rewrite !length_app.
      pose proof (length_drop (z :: d) (Z.to_nat maxChunkSize)) as Hdr.
      pose proof (length_take (z :: d) (Z.to_nat maxChunkSize)) as Htk.
      assert (0 < Z.to_nat maxChunkSize) by (unfold maxChunkSize; lia).
      cbn [length] in *. specialize (IH (drop (Z.to_nat maxChunkSize) (z :: d))). lia. }
    specialize (Hlen (length info) info). lia.
Qed.

(** ** What a served write leaves *)

(** Renaming a fresh file over a sibling. *)
Lemma Rename_sibling ds fs es e t data fs' :
  share_ok ds fs -> good_elems (ds ++ es ++ [e]) -> good_elems (ds ++ es ++ [t]) -> t <> e ->
  fs !! (ds ++ es ++ [t]) = Some (NFile data) ->
  Rename fs (abs (ds ++ es ++ [t])) (abs (ds ++ es ++ [e])) = Some fs' ->
  fs' !! (ds ++ es ++ [e]) = Some (NFile data) /\ fs' !! (ds ++ es ++ [t]) = None.
Proof.
  intros Hok Hge Hgt Hne Ht. unfold Rename.
  pose proof (resolve_inside ds fs Hok _ false Hgt) as Hl.
  pose proof (resolve_inside ds fs Hok _ false Hge) as Hl'.
  assert (~ ds ++ es ++ [e] `prefix_of` ds ++ es ++ [t]) as Hnp.
  { rewrite !(app_assoc ds). intros Hp%prefix_app_inv. by apply prefix_cons_inv_1 in Hp. }
  assert (move fs (ds ++ es ++ [t]) (ds ++ es ++ [e]) !! (ds ++ es ++ [e]) = Some (NFile data) /\
          move fs (ds ++ es ++ [t]) (ds ++ es ++ [e]) !! (ds ++ es ++ [t]) = None) as Hm.
  { split; [|by apply lookup_move_source]. apply lookup_move_target; [done|].
    intros k [k' ->] E. rewrite drop_app_length in E. destruct k'; [by rewrite app_nil_r|].
    apply (f_equal length) in E. rewrite length_app in E. cbn in E. lia. }
  destruct (resolve fs (abs (ds ++ es ++ [t])) _) as [p n|p| |]; try done. destruct Hl as [-> Hn].
  assert (n = NFile data) as ->.
  { rewrite node_at_ne in Hn by (by destruct ds, es). congruence. }
  destruct (resolve fs (abs (ds ++ es ++ [e])) _) as [q m|q| |]; try done; destruct Hl' as [-> _].
  - case_bool_decide; [done|]. assert (ds ++ es ++ [t] <> ds ++ es ++ [e]).
    { intros E. apply Hnp. by rewrite E. }
    destruct m; try done; rewrite bool_decide_false by done; by intros [= <-].
  - destruct (_ || _); [done|]. by intros [= <-].
Qed.

Lemma writeChecks_passed fs cfg req q :
  writeChecks fs cfg req = inr q ->
  ps_writable cfg = true /\ isExtensionAllowed cfg (fr_Path req) = true /\
  (0 < fr_Size req <= ps_maxFileSize cfg)%Z /\
  ((0 < ps_maxTotalSize cfg)%Z ->
   (i64 (dirTotalSize fs (ps_directory cfg) + fr_Size req) <= ps_maxTotalSize cfg)%Z).
Proof.
  unfold writeChecks. destruct (ps_writable cfg); cbn [negb]; [|done]. case_bool_decide; [done|].
  destruct (Z.leb_spec (fr_Size req) 0); [done|]. destruct (validatePath _ _ _); [done|].
  destruct (isExtensionAllowed _ _); cbn [negb]; [|done].
  destruct (Z.ltb_spec (ps_maxFileSize cfg) (fr_Size req)); [done|].
  destruct (Z.ltb_spec 0 (ps_maxTotalSize cfg)); cbn [andb].
  - destruct (Z.ltb_spec (ps_maxTotalSize cfg) (i64 (dirTotalSize fs (ps_directory cfg) + fr_Size req)));
      [done|]. intros _. split_and!; try done; lia.
  - intros _. split_and!; try done; lia.
Qed.

Lemma checkReceived_None req data :
  checkReceived req data = None ->
  Z.of_nat (length data) = fr_Size req /\ (fr_Checksum req <> "" -> fr_Checksum req = checksumOf data).
Proof.
  unfold checkReceived. destruct (Z.eqb_spec (Z.of_nat (length data)) (fr_Size req)); [|done].
  cbn [negb]. intros Hc. split; [done|]. intros Hne. rewrite bool_decide_false in Hc by done.
  cbn [negb andb] in Hc. by case_bool_decide.
Qed.

(** Removing a temporary file that was renamed away does nothing. *)
Lemma dropTemp_gone ds fs es t :
  share_ok ds fs -> good_elems (ds ++ es ++ [t]) -> fs !! (ds ++ es ++ [t]) = None ->
  dropTemp fs (abs (ds ++ es ++ [t])) = fs.
Proof.
  intros Hok Hg Ht. unfold dropTemp, Remove. pose proof (resolve_inside ds fs Hok _ false Hg) as Hl.
  destruct (resolve _ _ _) as [p n|p| |]; try done. destruct Hl as [-> Hn].
  rewrite node_at_ne, Ht in Hn by (by destruct ds, es). done.
Qed.

(** A served write does what was asked and no more than was allowed: the share is writable and
    the name's extension allowed, exactly the received bytes stand under the name, as many as
    declared and no more than a file may have, with the declared SHA-256 when one was given; the
    share's total was checked with them counted; and the temporary file is gone. *)
Theorem write_stores env cfg ds fs req input r fs' rest es e :
  let tmp := ".tela-upload-" +:+ sv_tmp env in
  share_at cfg ds -> share_ok ds fs -> drawn env ->
  real_elems (fr_Path req) = es ++ [e] -> e <> tmp ->
  handleWrite env fs cfg req input = (([SentResponse r], fs'), rest) -> rs_OK r = true ->
  exists data,
    readChunks (S (length input)) (fr_Size req) [] input = (inr data, rest) /\
    fs' !! (ds ++ es ++ [e]) = Some (NFile data) /\ fs' !! (ds ++ es ++ [tmp]) = None /\
    Z.of_nat (length data) = fr_Size req /\ (fr_Size req <= ps_maxFileSize cfg)%Z /\
    (fr_Checksum req <> "" -> fr_Checksum req = checksumOf data) /\
    ps_writable cfg = true /\ isExtensionAllowed cfg (fr_Path req) = true /\
    ((0 < ps_maxTotalSize cfg)%Z ->
     (i64 (dirTotalSize fs (ps_directory cfg) + fr_Size req) <= ps_maxTotalSize cfg)%Z).
Proof.
  intros tmp Hat Hok Henv Hes Hne. unfold handleWrite.
  assert (forall err f i, (reject err f, i) = (([SentResponse r], fs'), rest) -> rs_OK r = true -> False) as Hrej.
  { by intros err f i [= <- _ _]. }
  destruct (writeChecks fs cfg req) as [|q] eqn:Hc; [intros E Hr; by destruct (Hrej _ _ _ E Hr)|].
  destruct (writeChecks_passed _ _ _ _ Hc) as (Hw & Hext & Hsize & Htot).
  destruct (writeChecks_inside cfg ds Hat fs req q Hc) as (es' & e' & Hes' & -> & Hg & HD & Hgd);
    [rewrite Hes; by destruct es|].
  rewrite Hes in Hes'. apply app_inj_tail in Hes' as [<- <-]. rewrite HD.
  pose proof (MkdirAll_confined ds es fs Hok Hgd) as Hm.
  destruct (sv_fault env "mkdirall"); [intros E Hr; by destruct (Hrej _ _ _ E Hr)|].
  destruct (MkdirAll fs _) as [ok fs1]. destruct ok; cbn [negb snd] in *;
    [|intros E Hr; by destruct (Hrej _ _ _ E Hr)].
  pose proof (confined_ok _ _ _ Hok Hm) as Hok1.
  destruct (sv_fault env "createtemp"); [intros E Hr; by destruct (Hrej _ _ _ E Hr)|].
  destruct (CreateTemp fs1 _ _) as [[[path p] fs2]|] eqn:Ht; [|intros E Hr; by destruct (Hrej _ _ _ E Hr)].
  apply (CreateTemp_inside env ds Henv) in Ht as (-> & -> & Hgt & _ & _ & Hct); [|done..].
  fold tmp in Hgt |- *. pose proof (confined_ok _ _ _ Hok1 Hct) as Hok2.
  destruct (readChunks _ _ _ _) as [[err|data] i] eqn:Hrd; [intros E Hr; by destruct (Hrej _ _ _ E Hr)|].
  destruct (checkReceived req data) eqn:Hcr; [intros E Hr; by destruct (Hrej _ _ _ E Hr)|]. cbv zeta.
  set (fs3 := WriteOpen fs2 (ds ++ es ++ [tmp]) data).
  assert (share_ok ds fs3) as Hok3.
  { eapply confined_ok; [exact Hok2|]. apply confined_insert; [done|by eexists|done]. }
  destruct (sv_fault env "rename"); [intros E Hr; by destruct (Hrej _ _ _ E Hr)|].
  destruct (Rename fs3 _ _) as [fs4|] eqn:Hren; [|intros E Hr; by destruct (Hrej _ _ _ E Hr)].
  destruct (Rename_sibling ds fs3 es e tmp data fs4) as [Hq Htp]; try done; [apply lookup_insert_eq|].
  assert (share_ok ds fs4) as Hok4.
  { eapply confined_ok; [exact Hok3|]. exact (Rename_confined ds fs3 Hok3 _ _ _ Hgt Hg Hren). }
  rewrite (dropTemp_gone ds fs4 es tmp) by done.
  intros [= <- <- <-] _. apply checkReceived_None in Hcr as [Hlen Hsum]. exists data.
  split_and!; try done; lia.
Qed.

(** ** Evaluated instances *)

Definition demo_share : parsedFileShareConfig :=
  ParsedShare "docs" true "/srv/share" true true 100 1000 ∅ {[".exe"]}.
Definition demo_fs : fsys :=
  {[ ["srv"] := NDir; ["srv"; "share"] := NDir; ["srv"; "share"; "a.txt"] := NFile [104; 105]%Z;
     ["etc"] := NDir; ["etc"; "passwd"] := NFile [120]%Z ]}.
Definition demo_env : shareEnv := ShareEnv (fun _ => false) "42".
Definition ask (op path newName newPath : string) (size : Z) : fsRequest :=
  FsRequest op "docs" path size "" newName newPath 0 0.

Lemma demo_at : share_at demo_share ["srv"; "share"].
Proof.
  split; [reflexivity|]. repeat constructor; try done;
    by apply (bool_decide_unpack (("/"%char : ascii) ∉ _)); vm_compute.
Qed.

Lemma demo_drawn : drawn demo_env.
Proof. repeat constructor. Qed.

Lemma demo_ok : share_ok ["srv"; "share"] demo_fs.
Proof.
  split.
  - intros q t Hq. exfalso. unfold demo_fs in Hq.
    by repeat (apply lookup_insert_Some in Hq as [[_ Hq]|[_ Hq]]; [discriminate|]);
      apply lookup_singleton_Some in Hq as [_ Hq].
  - intros q Hne [k Hk] Hd. destruct q as [|x [|y q]]; [done| |].
    + injection Hk as <- _. reflexivity.
    + injection Hk as <- <- Hk. symmetry in Hk. apply app_eq_nil in Hk as [-> _]. done.
Qed.

Definition uploaded : outcome * list Z :=
  handleWrite demo_env demo_fs demo_share (ask "write" "sub/b.txt" "" "" 2) (sendChunks 2 [104; 111]%Z).

(** Every file of the disk has its directories. *)
Definition whole (fs : fsys) : bool :=
  forallb (fun kv => forallb (fun n => bool_decide (is_Some (fs !! take n (fst kv)))) (seq 1 (length (fst kv))))
    (map_to_list fs).
Lemma whole_closed ds fs : whole fs = true -> closed_outside ds fs.
Proof.
  intros Hw k q Hk Hne [r ->] _. destruct (fs !! (k ++ r)) as [n|] eqn:E; [exfalso|done].
  unfold whole in Hw. rewrite forallb_forall in Hw.
  specialize (Hw (k ++ r, n) (proj1 (list_elem_of_In _ _) (proj2 (elem_of_map_to_list _ _ _) E))).
  rewrite forallb_forall in Hw. specialize (Hw (length k)). cbn [fst] in Hw.
  rewrite take_app_length in Hw. rewrite Hk in Hw. discriminate Hw. apply in_seq. rewrite length_app.
  destruct k; [done|cbn; lia].
Qed.
Lemma demo_closed : closed_outside ["srv"; "share"] demo_fs.
Proof. apply whole_closed. by vm_compute. Qed.

(** An upload, and a write to the root of the share. *)
Definition put (fs : fsys) (path : string) : fsys :=
  snd (fst (fst (handleRequest demo_env [demo_share] fs (Some (ask "write" path "" "" 2)) (sendChunks 2 [104; 111]%Z)))).

Lemma share_confined_witness :
  put (put demo_fs "sub/b.txt") "." !! ["etc"; "passwd"] = Some (NFile [120]%Z) /\
  put (put demo_fs "sub/b.txt") "." !! ["srv"; "share"; "sub"; "b.txt"] = Some (NFile [104; 111]%Z).
Proof.
  split; [|vm_compute; reflexivity].
  assert (forall fs path fs', share_run demo_share (put fs path) fs' -> share_run demo_share fs fs') as Hput.
  { intros fs path fs' Hrun. eapply share_cons; [exact demo_drawn|exact Hrun]. }
  destruct (share_confined demo_share ["srv"; "share"] demo_fs (put (put demo_fs "sub/b.txt") ".") demo_at demo_ok
    demo_closed (Hput _ _ _ (Hput _ _ _ (share_nil _ _)))) as [H _].
  rewrite H.
  - vm_compute. reflexivity.
  - refine (bool_decide_unpack (~ ["srv"; "share"] `prefix_of` ["etc"; "passwd"]) _). vm_compute. exact I.
Defined.

Lemma handleRead_fs env fs cfg req : snd (handleRead env fs cfg req) = fs.
Proof. unfold handleRead. by repeat (case_match; try done). Qed.

Definition served : fsResponse * list Z :=
  match fst (handleRead demo_env demo_fs demo_share (ask "read" "./a.txt" "" "" 0)) with
  | [SentResponse r; SentBytes b] => (r, b)
  | _ => (failed "", [])
  end.

Lemma read_serves_file_witness :
  exists data, demo_fs !! ["srv"; "share"; "a.txt"] = Some (NFile data) /\
    rs_Checksum (fst served) = checksumOf data /\ rs_Size (fst served) = 2%Z.
Proof.
  destruct (read_serves_file demo_env demo_share ["srv"; "share"] demo_fs (ask "read" "./a.txt" "" "" 0)
    (fst served) (snd served) demo_at demo_ok) as (data & Hd & _ & _ & Hc & _).
  - rewrite (surjective_pairing (handleRead _ _ _ _)), handleRead_fs. apply (f_equal (fun o => (o, demo_fs))). vm_compute. reflexivity.
  - exists data. split; [exact Hd|]. split; [exact Hc|vm_compute; reflexivity].
Defined.

Lemma write_stores_witness :
  exists data, snd (fst uploaded) !! ["srv"; "share"; "sub"; "b.txt"] = Some (NFile data) /\
    Z.of_nat (length data) = 2%Z.
Proof.
  destruct (write_stores demo_env demo_share ["srv"; "share"] demo_fs (ask "write" "sub/b.txt" "" "" 2)
    (sendChunks 2 [104; 111]%Z) (FsResponse true "" [] [] 2 "" 0) (snd (fst uploaded)) [] ["sub"] "b.txt"
    demo_at demo_ok demo_drawn) as (data & _ & Hd & _ & Hl & _).
  - reflexivity.
  - vm_compute. discriminate.
  - change (uploaded = (([SentResponse (FsResponse true "" [] [] 2 "" 0)], snd (fst uploaded)), [])).
    rewrite (surjective_pairing uploaded) at 1. rewrite (surjective_pairing (fst uploaded)) at 1.
    apply f_equal2; [apply (f_equal (fun o => (o, snd (fst uploaded))))|]; vm_compute; reflexivity.
  - reflexivity.
  - exists data. split; [exact Hd|exact Hl].
Defined.

(** ** Corner cases *)

(** A link to a directory inside the share: the check looks at the last element only, and files
    behind the link are served and written. *)
Example linked_directory_escapes :
  let fs := <[["srv"; "share"; "l"] := NLink "/etc"]> demo_fs in
  match fst (handleRead demo_env fs demo_share (ask "read" "l/passwd" "" "" 0)) with
  | [SentResponse r; SentBytes b] => rs_Checksum r = checksumOf [120]%Z
  | _ => False
  end /\
  snd (fst (handleWrite demo_env fs demo_share (ask "write" "l/passwd" "" "" 2) (sendChunks 2 [104; 111]%Z)))
    !! ["etc"; "passwd"] = Some (NFile [104; 111]%Z).
Proof. vm_compute. done. Qed.

(** A name the filter refuses for a write is reached by a rename. *)
Example rename_skips_filter :
  isExtensionAllowed demo_share "a.exe" = false /\
  snd (handleRename demo_env demo_fs demo_share (ask "rename" "a.txt" "a.exe" "" 0))
    !! ["srv"; "share"; "a.exe"] = Some (NFile [104; 105]%Z).
Proof. vm_compute. done. Qed.

(** A write to the share itself passes the checks and puts its temporary file beside the share. *)
Example root_write_leaves_share :
  writeChecks demo_fs demo_share (ask "write" "." "" "" 2) = inr "/srv/share" /\
  match CreateTemp demo_fs (Dir "/srv/share") ".tela-upload-42" with
  | Some (_, p, _) => p = ["srv"; ".tela-upload-42"]
  | None => False
  end.
Proof. vm_compute. done. Qed.

(** A size beyond 64 bits wraps instead of being refused. *)
Example parseSize_wraps : parseSize "8589934592GB" = Some (-9223372036854775808)%Z.
Proof. vm_compute. done. Qed.
