(* ===== verification/Relay.v ===== *)
(** * The relay frame ([internal/relay/frame.go])

    The 7-byte header every relayed payload carries, and the hop count that bounds forwarding.
    A frame is a list of bytes. *)

From S2P Require Import Prelude.
From Stdlib Require Import ZArith Lia.
From stdpp Require Import base list.

Definition Magic : Z := 84.
Definition HeaderLen : nat := 7.
Definition FlagData : Z := 0.
Definition FlagControl : Z := 1.
Definition DefaultMaxHops : Z := 8.

(** [binary.BigEndian.PutUint32] and [Uint32]. *)
Definition put_uint32 (v : Z) : list Z :=
  [Z.land (Z.shiftr v 24) 255; Z.land (Z.shiftr v 16) 255; Z.land (Z.shiftr v 8) 255;
   Z.land v 255].
Definition uint32_of (b : list Z) : Z :=
  let at_ i := nth i b 0%Z in
  Z.lor (Z.lor (at_ 3%nat) (Z.shiftl (at_ 2%nat) 8))
        (Z.lor (Z.shiftl (at_ 1%nat) 16) (Z.shiftl (at_ 0%nat) 24)).

(** The test [len(data) < HeaderLen || data[0] != Magic]. *)
Definition badFrame (data : list Z) : bool :=
  (length data <? HeaderLen)%nat || negb (nth 0 data 0%Z =? Magic)%Z.

Definition ForwardFrame (data : list Z) (maxHops : Z) : option (list Z) :=
  if badFrame data then None
  else
    let hop := nth 1 data 0%Z in
    let hop := if (hop =? 0)%Z then maxHops else hop in
    let hop := u8 (hop - 1) in
    if (hop =? 0)%Z then None else Some (<[1%nat := hop]> data).

Definition BuildFrame (flag : Z) (payload : list Z) (hop sessionID : Z) : list Z :=
  [Magic; hop; flag] ++ put_uint32 sessionID ++ payload.
Definition BuildDataFrame : list Z -> Z -> Z -> list Z := BuildFrame FlagData.
Definition BuildControlFrame : list Z -> Z -> Z -> list Z := BuildFrame FlagControl.

Record header := Header { h_hop : Z; h_flags : Z; h_session : Z; h_payload : list Z }.

Definition ParseHeader (data : list Z) : option header :=
  if badFrame data then None
  else Some (Header (nth 1 data 0%Z) (nth 2 data 0%Z) (uint32_of (take 4 (drop 3 data)))
               (drop HeaderLen data)).

(** ** Lemmas *)

Lemma uint32_put v : (0 <= v < 4294967296)%Z -> uint32_of (put_uint32 v) = v.
Proof.
  intros Hv. unfold uint32_of, put_uint32. cbn [nth].
  apply Z.bits_inj'. intros n Hn. rewrite !Z.lor_spec.
  change 255%Z with (Z.ones 8). rewrite !Z.land_ones by lia. rewrite !Z.shiftl_spec by lia.
  assert ((n < 32)%Z \/ Z.testbit v n = false) as Hbig.
  { destruct (Z.ltb_spec n 32); [by left|right].
    apply Z.bits_above_log2; [lia|]. destruct (Z.eq_dec v 0%Z) as [->|]; [cbn; lia|].
    apply Z.log2_lt_pow2; [lia|]. apply (Z.lt_le_trans _ (2 ^ 32)%Z); [lia|].
    apply Z.pow_le_mono_r; lia. }
  assert (forall k, (0 <= k)%Z -> (k <= n)%Z -> (n < k + 8)%Z ->
            Z.testbit ((Z.shiftr v k) mod 2 ^ 8) (n - k) = Z.testbit v n) as Hin.
  { intros k Hk H1 H2. rewrite Z.mod_pow2_bits_low by lia. rewrite Z.shiftr_spec by lia.
    f_equal. lia. }
  assert (forall k, (0 <= k)%Z -> (n < k \/ k + 8 <= n)%Z ->
            Z.testbit ((Z.shiftr v k) mod 2 ^ 8) (n - k) = false) as Hout.
  { intros k Hk [H|H]; [apply Z.testbit_neg_r; lia|apply Z.mod_pow2_bits_high; lia]. }
  assert (Z.testbit (v mod 2 ^ 8) n = if (n <? 8)%Z then Z.testbit v n else false) as ->.
  { destruct (Z.ltb_spec n 8); [apply Z.mod_pow2_bits_low; lia|apply Z.mod_pow2_bits_high; lia]. }
  destruct (Z.ltb_spec n 8); [rewrite !Hout by lia; by rewrite !orb_false_r|].
  destruct (Z.ltb_spec n 16).
  { rewrite (Hin 8%Z), !Hout by lia. by rewrite !orb_false_r. }
  destruct (Z.ltb_spec n 24).
  { rewrite (Hin 16%Z), !Hout by lia. by rewrite !orb_false_r. }
  destruct (Z.ltb_spec n 32).
  { rewrite (Hin 24%Z), !Hout by lia. done. }
  rewrite !Hout by lia. destruct Hbig as [| ->]; [lia|done].
Qed.









(** A frame parses back to what it was built from, data and control frames alike. *)
Theorem ParseHeader_Build payload hop sessionID :
  (0 <= sessionID < 4294967296)%Z ->
  ParseHeader (BuildDataFrame payload hop sessionID) =
    Some (Header hop FlagData sessionID payload) /\
  ParseHeader (BuildControlFrame payload hop sessionID) =
    Some (Header hop FlagControl sessionID payload).
Proof.
  intros Hs. pose proof (uint32_put _ Hs) as Hu.
  assert (forall f, ParseHeader (BuildFrame f payload hop sessionID) =
            Some (Header hop f (uint32_of (put_uint32 sessionID)) payload)) as E by reflexivity.
  rewrite Hu in E. split; apply E.
Qed.

Lemma ParseHeader_Build_witness :
  ParseHeader (BuildControlFrame [1]%Z 0 3735928559) = Some (Header 0 FlagControl 3735928559 [1]%Z).
Proof. refine (proj2 (ParseHeader_Build [1]%Z 0 3735928559 _)). lia. Defined.

(** A configured hop count of zero wraps around at the first hub. *)
Example zero_max_hops_wraps :
  ForwardFrame (BuildDataFrame [] 0 1) 0 = Some (BuildDataFrame [] 255 1).
Proof. reflexivity. Qed.
