(* ===== verification/CertPin.v ===== *)
(** * TLS certificate pins ([internal/certpin/certpin.go])

    A certificate is what the code reads of it, its subject public key info; a connection state is
    the verified chains and the peer's certificates.  Text is ASCII. *)

From S2P Require Import Prelude Sha256.
From Stdlib Require Import ZArith Lia Ascii String.
From stdpp Require Import base strings list.

Definition Algorithm : string := "sha256".
Definition HexLength : Z := 64.

Record certificate := Certificate { RawSubjectPublicKeyInfo : list Z }.
Record connectionState := ConnectionState {
  VerifiedChains : list (list certificate);
  PeerCertificates : list certificate
}.

Inductive pinError := ErrMalformed | ErrMismatch.

Definition Capture (cert : option certificate) : string :=
  match cert with
  | None => ""
  | Some c => Algorithm +:+ ":" +:+ of_bytes (hex_encode (sha256 (RawSubjectPublicKeyInfo c)))
  end.

Definition CaptureChain (state : connectionState) : string :=
  match VerifiedChains state with
  | (leaf :: _) :: _ => Capture (Some leaf)
  | _ => match PeerCertificates state with c :: _ => Capture (Some c) | [] => "" end
  end.

Definition Parse (pin : string) : pinError + list Z :=
  if pin =s "" then inl ErrMalformed
  else match splitn2 pin ":" with
       | [alg; hexText] =>
           if negb (equal_fold alg Algorithm) then inl ErrMalformed
           else
             let hexPart := to_lower hexText in
             if negb (slen hexPart =? HexLength)%Z then inl ErrMalformed
             else match hex_decode (bytes hexPart) with
                  | None => inl ErrMalformed
                  | Some out => inr out
                  end
       | _ => inl ErrMalformed
       end.

Definition Normalize (pin : string) : string :=
  match Parse pin with inl _ => pin | inr _ => to_lower pin end.

(** [None] is acceptance. *)
Definition Verify (cs : connectionState) (expected : string) : option pinError :=
  if expected =s "" then None
  else match Parse expected with
       | inl e => Some e
       | inr _ =>
           let got := CaptureChain cs in
           if got =s "" then Some ErrMismatch
           else if negb (equal_fold got expected) then Some ErrMismatch
           else None
       end.

(** The certificate a pin is compared with. *)
Definition leaf (state : connectionState) : option certificate :=
  match VerifiedChains state with
  | (l :: _) :: _ => Some l
  | _ => head (PeerCertificates state)
  end.

(** ** Lemmas *)

Lemma CaptureChain_leaf cs : CaptureChain cs = Capture (leaf cs).
Proof.
  unfold CaptureChain, leaf. destruct (VerifiedChains cs) as [|[|l ch] chs];
    [..|done]; by destruct (PeerCertificates cs).
Qed.

Lemma to_lower_app s t : to_lower (s +:+ t) = to_lower s +:+ to_lower t.
Proof. unfold to_lower. by rewrite bytes_app, map_app, of_bytes_app. Qed.

Lemma to_lower_hex d : Forall is_byte d -> to_lower (of_bytes (hex_encode d)) = of_bytes (hex_encode d).
Proof.
  intros Hd. unfold to_lower. rewrite bytes_of_bytes.
  by destruct (hex_decode_Some _ _ (hex_decode_encode _ Hd)) as [-> _].
Qed.

(** A pin that parses, as text. *)
Lemma Parse_inr pin d :
  Parse pin = inr d <->
  exists alg hexText, cut pin ":" = Some (alg, hexText) /\ equal_fold alg Algorithm = true /\
    slen hexText = HexLength /\ hex_decode (bytes hexText) = Some d.
Proof.
  unfold Parse, splitn2. case_bool_decide as Hne.
  - split; [done|]. intros (alg & h & Hc & _). by rewrite Hne in Hc.
  - destruct (cut pin ":") as [[alg h]|]; [|split; [done|by intros (? & ? & ? & _)]].
    rewrite slen_to_lower. unfold to_lower. rewrite bytes_of_bytes, hex_decode_lower.
    destruct (equal_fold alg Algorithm) eqn:Ha; cbn [negb];
      [|split; [done|intros (? & ? & [= <- <-] & ? & _); congruence]].
    destruct (Z.eqb_spec (slen h) HexLength) as [Hl|Hl]; cbn [negb];
      [|split; [done|intros (? & ? & [= <- <-] & _ & ? & _); congruence]].
    destruct (hex_decode (bytes h)) eqn:Hd; split; try done.
    + intros [= <-]. by exists alg, h.
    + intros (? & ? & [= <- <-] & _ & _ & ?). congruence.
    + intros (? & ? & [= <- <-] & _ & _ & ?). congruence.
Qed.

Lemma Parse_nonempty pin d : Parse pin = inr d -> pin <> "".
Proof. by intros H ->. Qed.

(** A parsed pin is, up to letter case, the text of its digest. *)
Lemma Parse_text pin d :
  Parse pin = inr d -> to_lower pin = Algorithm +:+ ":" +:+ of_bytes (hex_encode d) /\ Forall is_byte d.
Proof.
  intros (alg & h & Hc & Ha & _ & Hd)%Parse_inr. apply cut_Some in Hc as ->.
  apply equal_fold_spec in Ha. destruct (hex_decode_Some _ _ Hd) as [Hh Hb].
  rewrite !to_lower_app, Ha. split; [|done]. unfold to_lower at 3. rewrite Hh. done.
Qed.

Lemma Capture_lower c : to_lower (Capture (Some c)) = Capture (Some c).
Proof. unfold Capture. by rewrite !to_lower_app, (to_lower_hex _ (sha256_bytes _)). Qed.

Lemma Parse_Capture_ok c : Parse (Capture (Some c)) = inr (sha256 (RawSubjectPublicKeyInfo c)).
Proof.
  apply Parse_inr. exists Algorithm, (of_bytes (hex_encode (sha256 (RawSubjectPublicKeyInfo c)))).
  split_and!.
  - apply (cut_byte ":"). refine (bool_decide_unpack _ _). by vm_compute.
  - done.
  - unfold slen. rewrite <- length_bytes, bytes_of_bytes, length_hex_encode, length_sha256. done.
  - rewrite bytes_of_bytes. apply hex_decode_encode, sha256_bytes.
Qed.

(** Pinning ties a connection to a key: with a pin set, a connection is accepted exactly when
    the pin is well formed and is the SHA-256 of the leaf's public key, in whatever letter case it
    is written; without a pin every connection is accepted.  A captured pin parses to that digest
    and accepts the certificate it was captured from. *)
Theorem Verify_spec cs expected c :
  (Verify cs expected = None <->
   expected = "" \/
   exists l, leaf cs = Some l /\ Parse expected = inr (sha256 (RawSubjectPublicKeyInfo l))) /\
  Parse (Capture (Some c)) = inr (sha256 (RawSubjectPublicKeyInfo c)) /\
  (leaf cs = Some c -> Verify cs (Capture (Some c)) = None).
Proof.
  assert (forall e, Verify cs e = None <->
    e = "" \/ exists l, leaf cs = Some l /\ Parse e = inr (sha256 (RawSubjectPublicKeyInfo l))) as Hv.
  { intros e. unfold Verify. case_bool_decide as He; [naive_solver|].
    destruct (Parse e) as [err|d] eqn:Hp.
    { split; [done|]. intros [?|(l & _ & ?)]; done. }
    rewrite CaptureChain_leaf. destruct (leaf cs) as [l|].
    2:{ split; [done|]. intros [?|(? & ? & _)]; done. }
    case_bool_decide as Hg; [discriminate Hg|].
    destruct (Parse_text _ _ Hp) as [Ht Hb].
    assert (equal_fold (Capture (Some l)) e = true <-> sha256 (RawSubjectPublicKeyInfo l) = d) as Heq.
    { rewrite equal_fold_spec, Capture_lower, Ht. unfold Capture. split; [|by intros ->].
      intros E. apply (f_equal bytes) in E. rewrite !bytes_app, !bytes_of_bytes in E.
      apply app_inv_head, app_inv_head, hex_encode_inj in E; [done|apply sha256_bytes|done]. }
    destruct (equal_fold _ _); cbn [negb]; naive_solver. }
  split; [apply Hv|]. split; [apply Parse_Capture_ok|].
  intros Hl. apply Hv. right. exists c. split; [done|apply Parse_Capture_ok].
Qed.

Lemma Verify_spec_witness :
  Verify (ConnectionState [[Certificate [1; 2; 3]%Z]] [])
    (Capture (Some (Certificate [1; 2; 3]%Z))) = None /\
  Verify (ConnectionState [[Certificate [1; 2; 4]%Z]] [])
    (Capture (Some (Certificate [1; 2; 3]%Z))) = Some ErrMismatch.
Proof.
  split; [|vm_compute; reflexivity].
  refine (proj2 (proj2 (Verify_spec (ConnectionState [[Certificate [1; 2; 3]%Z]] []) ""
    (Certificate [1; 2; 3]%Z))) _).
  reflexivity.
Defined.

(** Normalising is what makes pins comparable: two pins of one key normalise to one text. *)
Lemma Normalize_digest p q d : Parse p = inr d -> Parse q = inr d -> Normalize p = Normalize q.
Proof.
  intros Hp Hq. unfold Normalize. rewrite Hp, Hq.
  by rewrite (proj1 (Parse_text _ _ Hp)), (proj1 (Parse_text _ _ Hq)).
Qed.
