(* ===== verification/SessionState.v ===== *)
(** * Machines, sessions and connections of the hub ([internal/hub/hub.go])

    The shared state of the WebSocket side: machine entries behind pointers, the three indexes that
    lead to them, the state of each connection, and the UDP relay table.  A connection is a
    number; what a handler writes to connections and to the event history is its output. *)

From S2P Require Import Prelude Auth Http HubConfig.
From Stdlib Require Import ZArith Lia Ascii String.
From stdpp Require Import base gmap strings list fin_maps.

Record serviceDesc := ServiceDesc {
  sd_Port : Z;
  sd_Proto : string;
  sd_Name : string;
  sd_Description : string
}.

(** A connection's address, as [safeConn] pointers are compared. *)
Abbreviation conn := nat.
(** The address of a [machineEntry]. *)
Abbreviation entryPtr := nat.

Record clientSession := ClientSession {
  cs_SessionID : string;
  cs_SessionIdx : Z;
  cs_ClientWS : option conn;
  cs_AgentWS : option conn;
  cs_UDPTokens : list string;
  cs_CreatedAt : Z
}.

Record machineEntry := MachineEntry {
  me_ControlWS : option conn;
  me_ControlGen : Z;                          (** [uint64] *)
  me_Sessions : gmap string clientSession;
  me_NextIdx : Z;
  me_AgentID : string;
  me_MachineRegistrationID : string;
  me_MachineName : string;
  me_Ports : list Z;
  me_Services : list serviceDesc;
  me_Token : string;
  me_RegisteredAt : Z;
  me_LastSeen : Z;
  me_DisplayName : string;
  me_Hostname : string;
  me_OS : string;
  me_AgentVersion : string;
  me_ProtocolVersion : Z;
  me_Tags : option (list string);
  me_Location : string;
  me_Owner : string;
  me_Capabilities : option (list (string * json))
}.

Record wsState := WsState {
  ws_Role : string;
  ws_MachineID : string;
  ws_MachineName : string;
  ws_SessionID : string;
  ws_Paired : bool;
  ws_Peer : option conn;
  ws_WGPubKey : string;
  ws_ControlGen : Z;
  ws_RequestedPorts : list Z;
  ws_SessionDetail : string;
  ws_BridgeWS : option conn
}.

Definition newWsState : wsState := WsState "" "" "" "" false None "" 0 [] "" None.

(** The address of a UDP sender, as the socket reports it. *)
Abbreviation udpAddr := string.

Record udpSession := UdpSession {
  us_PeerTokenHex : string;
  us_PeerWS : option conn;
  us_Role : string;
  us_Addr : option udpAddr;
  us_MachineID : string;
  us_CreatedAt : Z
}.

Record signalingMsg := SignalingMsg {
  sm_Type : string;
  sm_ProtocolVersion : Z;
  sm_MachineID : string;
  sm_MachineName : string;
  sm_AgentID : string;
  sm_MachineRegistrationID : string;
  sm_Token : string;
  sm_WGPubKey : string;
  sm_Ports : option (list Z);
  sm_Services : list serviceDesc;
  sm_DisplayName : string;
  sm_Hostname : string;
  sm_OS : string;
  sm_AgentVersion : string;
  sm_Tags : option (list string);
  sm_Location : string;
  sm_Owner : string;
  sm_SessionID : string;
  sm_Capabilities : option (list (string * json));
  sm_RequestID : string
}.

(** A goroutine that waits for the agent to join a session. *)
Record joinTimer := JoinTimer { jt_entry : entryPtr; jt_agentID : string; jt_sessionID : string }.

Record sessions := Sessions {
  ss_heap : gmap entryPtr machineEntry;
  ss_machines : gmap string entryPtr;
  ss_machinesByName : gmap string string;
  ss_machinesByRegID : gmap string string;
  ss_wsStates : gmap conn wsState;
  ss_udpSessions : gmap string udpSession;
  ss_timers : list joinTimer
}.

Definition with_heap (s : sessions) h : sessions :=
  Sessions h (ss_machines s) (ss_machinesByName s) (ss_machinesByRegID s) (ss_wsStates s)
    (ss_udpSessions s) (ss_timers s).
Definition with_ws (s : sessions) w : sessions :=
  Sessions (ss_heap s) (ss_machines s) (ss_machinesByName s) (ss_machinesByRegID s) w
    (ss_udpSessions s) (ss_timers s).
Definition with_udp (s : sessions) u : sessions :=
  Sessions (ss_heap s) (ss_machines s) (ss_machinesByName s) (ss_machinesByRegID s)
    (ss_wsStates s) u (ss_timers s).
Definition with_timers (s : sessions) t : sessions :=
  Sessions (ss_heap s) (ss_machines s) (ss_machinesByName s) (ss_machinesByRegID s)
    (ss_wsStates s) (ss_udpSessions s) t.

(** An assignment through an entry pointer. *)
Definition set_entry (s : sessions) (p : entryPtr) (e : machineEntry) : sessions :=
  with_heap s (<[p := e]> (ss_heap s)).
Definition set_ws (s : sessions) (c : conn) (w : wsState) : sessions :=
  with_ws s (<[c := w]> (ss_wsStates s)).
(** An update of a connection's state, if it still has one. *)
Definition update_ws (s : sessions) (c : option conn) (f : wsState -> wsState) : sessions :=
  match c with
  | None => s
  | Some c => match ss_wsStates s !! c with None => s | Some w => set_ws s c (f w) end
  end.

(** The lookup [machines[key]] followed through the pointer. *)
Definition lookup_entry (s : sessions) (key : string) : option (entryPtr * machineEntry) :=
  p ← ss_machines s !! key; e ← ss_heap s !! p; Some (p, e).

Definition with_Sessions (e : machineEntry) (m : gmap string clientSession) : machineEntry :=
  MachineEntry (me_ControlWS e) (me_ControlGen e) m (me_NextIdx e) (me_AgentID e)
    (me_MachineRegistrationID e) (me_MachineName e) (me_Ports e) (me_Services e) (me_Token e)
    (me_RegisteredAt e) (me_LastSeen e) (me_DisplayName e) (me_Hostname e) (me_OS e)
    (me_AgentVersion e) (me_ProtocolVersion e) (me_Tags e) (me_Location e) (me_Owner e)
    (me_Capabilities e).
Definition with_NextIdx (e : machineEntry) (n : Z) : machineEntry :=
  MachineEntry (me_ControlWS e) (me_ControlGen e) (me_Sessions e) n (me_AgentID e)
    (me_MachineRegistrationID e) (me_MachineName e) (me_Ports e) (me_Services e) (me_Token e)
    (me_RegisteredAt e) (me_LastSeen e) (me_DisplayName e) (me_Hostname e) (me_OS e)
    (me_AgentVersion e) (me_ProtocolVersion e) (me_Tags e) (me_Location e) (me_Owner e)
    (me_Capabilities e).
Definition with_Control (e : machineEntry) (c : option conn) (gen lastSeen : Z) : machineEntry :=
  MachineEntry c gen (me_Sessions e) (me_NextIdx e) (me_AgentID e)
    (me_MachineRegistrationID e) (me_MachineName e) (me_Ports e) (me_Services e) (me_Token e)
    (me_RegisteredAt e) lastSeen (me_DisplayName e) (me_Hostname e) (me_OS e)
    (me_AgentVersion e) (me_ProtocolVersion e) (me_Tags e) (me_Location e) (me_Owner e)
    (me_Capabilities e).

Definition with_AgentWS (cs : clientSession) (c : conn) : clientSession :=
  ClientSession (cs_SessionID cs) (cs_SessionIdx cs) (cs_ClientWS cs) (Some c) (cs_UDPTokens cs)
    (cs_CreatedAt cs).
Definition with_UDPTokens (cs : clientSession) (l : list string) : clientSession :=
  ClientSession (cs_SessionID cs) (cs_SessionIdx cs) (cs_ClientWS cs) (cs_AgentWS cs) l
    (cs_CreatedAt cs).

Definition pair_ws (peer : conn) (w : wsState) : wsState :=
  WsState (ws_Role w) (ws_MachineID w) (ws_MachineName w) (ws_SessionID w) true (Some peer)
    (ws_WGPubKey w) (ws_ControlGen w) (ws_RequestedPorts w) (ws_SessionDetail w) (ws_BridgeWS w).
Definition unpair_ws (w : wsState) : wsState :=
  WsState (ws_Role w) (ws_MachineID w) (ws_MachineName w) (ws_SessionID w) false None
    (ws_WGPubKey w) (ws_ControlGen w) (ws_RequestedPorts w) (ws_SessionDetail w) (ws_BridgeWS w).
Definition detail_ws (d : string) (w : wsState) : wsState :=
  WsState (ws_Role w) (ws_MachineID w) (ws_MachineName w) (ws_SessionID w) (ws_Paired w) (ws_Peer w)
    (ws_WGPubKey w) (ws_ControlGen w) (ws_RequestedPorts w) d (ws_BridgeWS w).

(** ** Output *)

(** The messages the hub composes; [MRaw] is one it passes on. *)
Inductive wsMessage :=
  | MError (message : string)
  | MClose (code : Z) (reason : string)
  | MRegistered (machineID : string) (update : option updateConfig)
  | MSessionRequest (sessionID wgPubKey : string) (sessionIdx : Z)
  | MSessionStart (wgPubKey : string)
  | MReady (sessionIdx : Z)
  | MUdpOffer (token : string)
  | MSessionEnd
  | MConnect (machineID wgPubKey token : string) (ports : option (list Z))
  | MMgmtRequest (requestID action : string) (payload : option json)
  | MRaw (binary : bool) (data : list Z).

Inductive output :=
  | Send (c : conn) (m : wsMessage)
  | CloseConn (c : conn)
  | SendUDP (addr : udpAddr) (data : list Z)
  | Deliver (requestID : string) (data : list Z)   (** to the waiting management request *)
  | Event (machineID event detail : string).

Definition CloseGoingAway : Z := 1001.
Definition CloseProtocolError : Z := 1002.
Definition ClosePolicyViolation : Z := 1008.

Definition sendError (c : conn) (message : string) : list output :=
  [Send c (MError message); Send c (MClose ClosePolicyViolation message)].

(** ** Input *)

(** A message read from a connection: its bytes, what [json.Unmarshal] makes of them as a
    [signalingMsg] ([None] is an error), and as a generic object. *)
Record wsFrame := WsFrame {
  wf_binary : bool;
  wf_data : list Z;
  wf_msg : option signalingMsg;
  wf_json : reqBody
}.

(** Random bytes as the hexadecimal text the code makes of them. *)
Definition hexText (l : list Z) : string := of_bytes (hex_encode l).

(** ** Services *)

Definition portLabels : list (Z * string) :=
  [(22, "SSH"); (80, "HTTP"); (443, "HTTPS"); (3389, "RDP");
   (5900, "VNC"); (8080, "HTTP-Alt"); (8443, "HTTPS-Alt")]%Z.

Definition portLabel (p : Z) : string :=
  match find_first (fun kv => (fst kv =? p)%Z) portLabels with
  | Some (_, name) => name
  | None => "port " +:+ Itoa p
  end.

Definition serviceFilterName (s : serviceDesc) : string :=
  if sd_Name s <>s "" then sd_Name s else "port-" +:+ Itoa (sd_Port s).

Definition filterServicesByName (services : list serviceDesc) (allowed : list string)
    : list serviceDesc :=
  match allowed with
  | [] => []
  | _ => filter (fun s => serviceFilterName s ∈ allowed) services
  end.

Definition normalizeService (s : serviceDesc) : option serviceDesc :=
  if (sd_Port s =? 0)%Z then None
  else
    let proto := to_lower (sd_Proto s) in
    let proto := if proto =s "" then "tcp" else proto in
    let name := if sd_Name s =s "" then portLabel (sd_Port s) else sd_Name s in
    Some (ServiceDesc (sd_Port s) proto name (sd_Description s)).

Definition normalizeServices (ports : list Z) (services : list serviceDesc) : list serviceDesc :=
  match services with
  | _ :: _ => omap normalizeService services
  | [] => map (fun p => ServiceDesc p "tcp" (portLabel p) "") ports
  end.

Definition strings_Join (sep : string) (l : list string) : string := String.concat sep l.

Definition sessionDetailFrom (e : machineEntry) (requestedPorts : list Z) : string :=
  let services := normalizeServices (me_Ports e) (me_Services e) in
  match services with
  | [] => ""
  | _ =>
      let wanted s :=
        match requestedPorts with [] => true | _ => bool_decide (sd_Port s ∈ requestedPorts) end in
      let part s :=
        (if sd_Name s =s "" then portLabel (sd_Port s) else sd_Name s) +:+ ":" +:+ Itoa (sd_Port s) in
      match map part (List.filter wanted services) with
      | [] => ""
      | parts => "services=" +:+ strings_Join "," parts
      end
  end.

(** ** Lemmas *)

Lemma filterServicesByName_spec services allowed s :
  s ∈ filterServicesByName services allowed <-> s ∈ services /\ serviceFilterName s ∈ allowed.
Proof.
  unfold filterServicesByName. destruct allowed as [|a l].
  - split; [intros H; by apply elem_of_nil in H|intros [_ H]; by apply elem_of_nil in H].
  - rewrite list_elem_of_filter. naive_solver.
Qed.

Lemma portLabel_nonempty p : portLabel p <> "".
Proof.
  unfold portLabel. destruct (find_first _ _) as [[k nm]|] eqn:Ef; [|done].
  apply find_first_Some in Ef as [Hin _]. intros ->.
  unfold portLabels in Hin. rewrite !elem_of_cons, elem_of_nil in Hin. naive_solver.
Qed.

(** A normalised service has a port, a protocol and a name, and normalises to itself. *)
Lemma normalizeService_idem s t : normalizeService s = Some t -> normalizeService t = Some t.
Proof.
  unfold normalizeService. destruct (Z.eqb_spec (sd_Port s) 0) as [|Hp]; [done|]. intros [= <-].
  cbn [sd_Port sd_Proto sd_Name sd_Description].
  destruct (Z.eqb_spec (sd_Port s) 0); [done|]. do 2 f_equal.
  - destruct (bool_decide_reflect (to_lower (sd_Proto s) = "")); [done|].
    rewrite to_lower_idem. by rewrite bool_decide_false.
  - pose proof (portLabel_nonempty (sd_Port s)).
    destruct (bool_decide_reflect (sd_Name s = "")); by rewrite bool_decide_false.
Qed.

Lemma normalizeServices_idem ports s services :
  normalizeServices [] (normalizeServices ports (s :: services)) =
  normalizeServices ports (s :: services).
Proof.
  cbn [normalizeServices]. generalize (s :: services). intros l.
  assert (omap normalizeService (omap normalizeService l) = omap normalizeService l) as E.
  { induction l as [|x l IH]; [done|]. cbn. destruct (normalizeService x) as [y|] eqn:Ey; [|done].
    cbn. rewrite (normalizeService_idem _ _ Ey). by f_equal. }
  destruct (omap normalizeService l); [done|exact E].
Qed.
