(* ===== verification/Bridge.v ===== *)
(** * Hub-to-hub bridges ([internal/hub/bridge.go])

    The bridge directory, the setup of a bridged session against the destination hub, and the
    reader that carries its traffic back.  The destination hub is the environment: whether it is
    reached, what certificate it shows and what it sends. *)

From S2P Require Import Prelude Auth Http HubConfig Relay CertPin SessionState.
From Stdlib Require Import ZArith Lia Ascii String.
From stdpp Require Import base gmap strings list fin_maps.

Definition effectiveMaxHops (bc : bridgeConfig) : Z :=
  if (0 <? bc_MaxHops bc)%Z then bc_MaxHops bc else DefaultMaxHops.

Definition selfBridge (hubID : string) (bc : bridgeConfig) : bool :=
  (hubID <>s "") && (bc_HubID bc <>s "") && (bc_HubID bc =s hubID).

(** Later entries win; an entry that names this hub is skipped. *)
Definition initBridgeDir (hubID : string) (cfg : hubConfig) : gmap string bridgeConfig :=
  fold_left (fun dir bc =>
    if selfBridge hubID bc then dir
    else fold_left (fun dir m => <[m := bc]> dir) (bc_Machines bc) dir)
    (hc_Bridges cfg) ∅.

(** ** The environment of the session handlers *)

(** The destination hub: [bp_replies] are the messages read before an error or the deadline. *)
Record bridgePeer := BridgePeer {
  bp_reachable : bool;
  bp_tls : connectionState;
  bp_conn : conn;
  bp_accepts : bool;
  bp_replies : list wsFrame
}.

Record senv (A : Type) := SEnv {
  se_now : Z;
  se_auth : A;                      (** the store, [globalAuth] *)
  se_update : updateConfig;
  se_uuid : string;                 (** what [newUUID] returns *)
  se_rand1 : list Z;                (** the 8-byte draws of [rand.Read], in order *)
  se_rand2 : list Z;
  se_peer : bridgePeer
}.
Arguments SEnv {A}.
Arguments se_now {A}.
Arguments se_auth {A}.
Arguments se_update {A}.
Arguments se_uuid {A}.
Arguments se_rand1 {A}.
Arguments se_rand2 {A}.
Arguments se_peer {A}.

(** ** Setup *)

Inductive signalingResult := SigReady (idx : Z) | SigError (message : string) | SigFailed.

Definition jsonType (kvs : list (string * json)) : string := as_string (json_key kvs "type").

(** The signaling loop: messages are consumed until one is ready or an error. *)
Fixpoint bridgeSignaling (frames : list wsFrame) : signalingResult :=
  match frames with
  | [] => SigFailed
  | f :: frames' =>
      if wf_binary f then bridgeSignaling frames'
      else match json_fields (wf_json f) with
           | None => bridgeSignaling frames'
           | Some kvs =>
               if jsonType kvs =s "ready" then
                 SigReady (match json_key kvs "sessionIdx" with Some (JNum n) => n | _ => 0%Z end)
               else if jsonType kvs =s "error" then SigError (as_string (json_key kvs "message"))
               else bridgeSignaling frames'
           end
  end.

(** The pin-aware dial. *)
Definition bridgeDial (bp : bridgePeer) (bc : bridgeConfig) : bool :=
  bp_reachable bp &&
  (if bc_Pin bc =s "" then true
   else match Verify (bp_tls bp) (bc_Pin bc) with None => true | Some _ => false end).

Definition handleBridgeConnect `{Authorizer A} (env : senv A) (s : sessions) (c : conn) (state : wsState)
    (msg : signalingMsg) (bc : bridgeConfig) : list output * sessions :=
  let machineName := sm_MachineID msg in
  let bp := se_peer env in
  if az_enabled (se_auth env) && negb (az_canConnect (se_auth env) (se_now env) (sm_Token msg) machineName)
  then (sendError c "Access denied", s)
  else if negb (bridgeDial bp bc) then (sendError c "Bridge unavailable", s)
  else if negb (bp_accepts bp) then
    (CloseConn (bp_conn bp) :: sendError c "Bridge connect failed", s)
  else
    let connectReq :=
      Send (bp_conn bp) (MConnect machineName (sm_WGPubKey msg) (bc_Token bc) (sm_Ports msg)) in
    match bridgeSignaling (bp_replies bp) with
    | SigFailed =>
        (connectReq :: CloseConn (bp_conn bp) :: sendError c "Bridge session setup failed", s)
    | SigError errMsg => (connectReq :: CloseConn (bp_conn bp) :: sendError c errMsg, s)
    | SigReady sessionIdx =>
        let sessionID := hexText (se_rand1 env) in
        let clientTokenHex := hexText (se_rand2 env) in
        let s := with_udp s (<[clientTokenHex :=
                   UdpSession "" (Some (bp_conn bp)) "client" None machineName (se_now env)]>
                   (ss_udpSessions s)) in
        let state := WsState "client" (ws_MachineID state) machineName sessionID true
          (Some (bp_conn bp)) (sm_WGPubKey msg) (ws_ControlGen state) (ws_RequestedPorts state)
          (ws_SessionDetail state) (Some (bp_conn bp)) in
        let s := set_ws s c state in
        let s := set_ws s (bp_conn bp)
          (WsState "bridge" machineName "" sessionID true (Some c) "" 0 [] "" None) in
        ([connectReq; Send c (MReady sessionIdx); Send c (MUdpOffer clientTokenHex);
          Event machineName "client-connect-bridge"
            ("via=" +:+ bc_HubID bc +:+ " session=" +:+ String.substring 0 8 sessionID)], s)
    end.

(** ** The reader *)

(** One message from the destination hub: [None] ends the loop. *)
Definition bridgeReaderStep (bc : bridgeConfig) (client : conn) (f : wsFrame)
    : option (list output) :=
  if wf_binary f then
    match ForwardFrame (wf_data f) (effectiveMaxHops bc) with
    | None => Some []
    | Some forwarded => Some [Send client (MRaw true forwarded)]
    end
  else match json_fields (wf_json f) with
       | None => Some []
       | Some kvs =>
           if jsonType kvs =s "session-end" then None
           else if jsonType kvs =s "udp-offer" then Some []
           else Some [Send client (MRaw false (wf_data f))]
       end.

(** The deferred function of the reader. *)
Definition bridgeTeardown (s : sessions) (bridge client : conn)
    (sessionID machineName clientTokenHex : string) : list output * sessions :=
  let s := with_udp s (delete clientTokenHex (ss_udpSessions s)) in
  let s := with_ws s (delete bridge (ss_wsStates s)) in
  ([CloseConn bridge;
    Event machineName "client-disconnect-bridge" ("session=" +:+ String.substring 0 8 sessionID);
    Send client (MClose CloseGoingAway "bridge session ended"); CloseConn client], s).

(** ** Lemmas *)

Lemma insert_all_Some (ms : list string) (b b' : bridgeConfig) (dir : gmap string bridgeConfig) m :
  fold_left (fun dir m => <[m := b]> dir) ms dir !! m = Some b' ->
  dir !! m = Some b' \/ m ∈ ms /\ b' = b.
Proof.
  revert dir. induction ms as [|k ms IH]; intros dir; [by left|]. cbn. intros H.
  apply IH in H as [H|[H ->]]; [|right; split; [by right|done]].
  rewrite lookup_insert in H. case_decide; [subst|by left].
  injection H as ->. right. split; [left|done].
Qed.

(** A directory entry comes from a bridge that lists the machine and is not this hub's own. *)
Lemma initBridgeDir_Some hubID cfg m bc :
  initBridgeDir hubID cfg !! m = Some bc ->
  bc ∈ hc_Bridges cfg /\ m ∈ bc_Machines bc /\ selfBridge hubID bc = false.
Proof.
  unfold initBridgeDir. induction (hc_Bridges cfg) as [|b bs IH] using rev_ind; [done|].
  rewrite fold_left_app, elem_of_app, list_elem_of_singleton. cbn [fold_left].
  destruct (selfBridge hubID b) eqn:Hs; [naive_solver|].
  intros [H|[? ->]]%insert_all_Some; naive_solver.
Qed.
