(* ===== verification/UdpRelay.v ===== *)
(** * The UDP relay ([runUDPRelay] and [runUDPSessionReaper] of [internal/hub/hub.go])

    What one datagram does, and one tick of the reaper.  A datagram is an 8-byte token followed by
    a probe or a relay frame; the token names the sender's side of a session. *)

From S2P Require Import Prelude Auth Http HubConfig Relay SessionState.
From Stdlib Require Import ZArith Lia Ascii String.
From stdpp Require Import base gmap strings list fin_maps.

Definition udpTokenLen : nat := 8.
Definition probeWord : list Z := z_bytes "PROBE".
Definition readyWord : list Z := z_bytes "READY".

Definition with_Addr (u : udpSession) (a : udpAddr) : udpSession :=
  UdpSession (us_PeerTokenHex u) (us_PeerWS u) (us_Role u) (Some a) (us_MachineID u) (us_CreatedAt u).

(** [hex.DecodeString] with its error dropped: what was decoded before it. *)
Fixpoint hex_decode_prefix (l : list ascii) : list Z :=
  match l with
  | a :: b :: l' =>
      match hex_val a, hex_val b with
      | Some h, Some d => (h * 16 + d)%Z :: hex_decode_prefix l'
      | _, _ => []
      end
  | _ => []
  end.

Definition sendTo (c : option conn) (data : list Z) : list output :=
  match c with Some c => [Send c (MRaw true data)] | None => [] end.

(** One datagram read from the socket. *)
Definition relayDatagram (s : sessions) (raddr : udpAddr) (buf : list Z) : list output * sessions :=
  if (length buf <? udpTokenLen)%nat then ([], s)
  else
    let token := take udpTokenLen buf in
    let tokenHex := hexText token in
    let payload := drop udpTokenLen buf in
    match ss_udpSessions s !! tokenHex with
    | None => ([], s)
    | Some session =>
        let session := with_Addr session raddr in
        let s := with_udp s (<[tokenHex := session]> (ss_udpSessions s)) in
        if bool_decide (payload = probeWord) then ([SendUDP raddr (token ++ readyWord)], s)
        else match ForwardFrame payload DefaultMaxHops with
             | None => ([], s)
             | Some forwarded =>
                 if us_PeerTokenHex session =s "" then (sendTo (us_PeerWS session) forwarded, s)
                 else match ss_udpSessions s !! us_PeerTokenHex session with
                      | None => ([], s)
                      | Some peer =>
                          match us_Addr peer with
                          | Some addr =>
                              ([SendUDP addr (hex_decode_prefix (bytes (us_PeerTokenHex session))
                                              ++ forwarded)], s)
                          | None => (sendTo (us_PeerWS peer) forwarded, s)
                          end
                      end
             end
    end.

(** ** The reaper *)

Definition fiveMinutes : Z := (5 * 60 * 1000000000)%Z.

(** Some live session of the machine holds the token. *)
Definition holdsToken (e : machineEntry) (token : string) : bool :=
  existsb (fun kv => bool_decide (token ∈ cs_UDPTokens (snd kv))) (map_to_list (me_Sessions e)).

Definition reapKeeps (now : Z) (s : sessions) (token : string) (u : udpSession) : bool :=
  if (now - fiveMinutes <? us_CreatedAt u)%Z then true
  else match lookup_entry s (us_MachineID u) with
       | None => false
       | Some (_, e) => holdsToken e token
       end.

(** One tick. *)
Definition reapUDP (now : Z) (s : sessions) : sessions :=
  with_udp s (filter (fun kv => reapKeeps now s (fst kv) (snd kv) = true) (ss_udpSessions s)).

(** ** Lemmas *)

(** The two UDP tokens of a session name each other. *)
Definition udp_linked (s : sessions) (key : string) (now : Z) (a c : conn) (ta tc : string) : Prop :=
  ss_udpSessions s !! ta = Some (UdpSession tc (Some c) "agent" None key now) /\
  ss_udpSessions s !! tc = Some (UdpSession ta (Some a) "client" None key now).

Lemma hex_decode_prefix_Some l d : hex_decode l = Some d -> hex_decode_prefix l = d.
Proof.
  revert l d. fix IH 1. intros [|a [|b l]] d; cbn; [by intros [= <-]|done|].
  destruct (hex_val a), (hex_val b); cbn; try done.
  destruct (hex_decode l) as [r|] eqn:E; [|done]. cbn. intros [= <-]. by rewrite (IH l r).
Qed.

Definition isToken (l : list Z) : Prop := length l = udpTokenLen /\ Forall is_byte l.

Lemma hexText_inj l k : Forall is_byte l -> Forall is_byte k -> hexText l = hexText k -> l = k.
Proof. intros Hl Hk E%of_bytes_inj. by apply hex_encode_inj. Qed.

Lemma hexText_nonempty l : isToken l -> hexText l <> "".
Proof.
  intros [Hl _] E. apply (f_equal (fun s => length (bytes s))) in E. unfold hexText in E.
  rewrite bytes_of_bytes, length_hex_encode, Hl in E. done.
Qed.

Lemma decode_hexText l : isToken l -> hex_decode_prefix (bytes (hexText l)) = l.
Proof.
  intros [_ Hl]. apply hex_decode_prefix_Some. unfold hexText.
  by rewrite bytes_of_bytes, hex_decode_encode.
Qed.

(** A probe is not a frame. *)
Lemma frame_not_probe f d : ForwardFrame f DefaultMaxHops = Some d -> f <> probeWord.
Proof. by intros Hf ->. Qed.

(** The branches of [relayDatagram] behind a known token. *)
Lemma relayDatagram_probe s raddr t u :
  isToken t -> ss_udpSessions s !! hexText t = Some u ->
  relayDatagram s raddr (t ++ probeWord) =
    ([SendUDP raddr (t ++ readyWord)],
     with_udp s (<[hexText t := with_Addr u raddr]> (ss_udpSessions s))).
Proof.
  intros [Hlen _] Hu. unfold relayDatagram.
  rewrite (proj2 (Nat.ltb_ge _ _)) by (rewrite length_app; lia).
  rewrite take_app_length', drop_app_length' by done. by rewrite Hu, bool_decide_true.
Qed.

Lemma relayDatagram_frame s raddr t u f d :
  isToken t -> ss_udpSessions s !! hexText t = Some u ->
  ForwardFrame f DefaultMaxHops = Some d ->
  let s' := with_udp s (<[hexText t := with_Addr u raddr]> (ss_udpSessions s)) in
  relayDatagram s raddr (t ++ f) =
    (if us_PeerTokenHex u =s "" then sendTo (us_PeerWS u) d
     else match ss_udpSessions s' !! us_PeerTokenHex u with
          | None => []
          | Some peer =>
              match us_Addr peer with
              | Some addr => [SendUDP addr (hex_decode_prefix (bytes (us_PeerTokenHex u)) ++ d)]
              | None => sendTo (us_PeerWS peer) d
              end
          end, s').
Proof.
  intros [Hlen _] Hu Hf s'. unfold relayDatagram.
  rewrite (proj2 (Nat.ltb_ge _ _)) by (rewrite length_app; lia).
  rewrite take_app_length', drop_app_length' by done. rewrite Hu.
  rewrite bool_decide_false by (by eapply frame_not_probe). rewrite Hf. fold s'.
  cbn [us_PeerTokenHex us_PeerWS with_Addr].
  destruct (us_PeerTokenHex u =s ""); [done|]. destruct (ss_udpSessions s' !! _); [|done].
  by destruct (us_Addr _).
Qed.

(** ** Theorems *)

(** Once the client has probed, the relay carries both directions over UDP: the probe is
    answered to its sender with the same token, then the agent's frame arrives at the client's
    address under the client's token, and the client's frame at the agent's address under the
    agent's, each with its hop count advanced and otherwise unchanged. *)
Theorem udp_relay_both_ways s key now a c A C addrA addrC f d g d' :
  isToken A -> isToken C -> A <> C -> udp_linked s key now a c (hexText A) (hexText C) ->
  ForwardFrame f DefaultMaxHops = Some d -> ForwardFrame g DefaultMaxHops = Some d' ->
  let '(out1, s1) := relayDatagram s addrC (C ++ probeWord) in
  let '(out2, s2) := relayDatagram s1 addrA (A ++ f) in
  let '(out3, s3) := relayDatagram s2 addrC (C ++ g) in
  out1 = [SendUDP addrC (C ++ readyWord)] /\ out2 = [SendUDP addrC (C ++ d)] /\
  out3 = [SendUDP addrA (A ++ d')] /\ ss_heap s3 = ss_heap s /\ ss_wsStates s3 = ss_wsStates s.
Proof.
  intros HA HC Hne [Ha Hc] Hf Hg.
  assert (hexText A <> hexText C) as Hn.
  { intros E. apply Hne, hexText_inj; [apply HA|apply HC|done]. }
  pose proof (hexText_nonempty A HA). pose proof (hexText_nonempty C HC).
  rewrite (relayDatagram_probe s addrC C _ HC Hc).
  set (s1 := with_udp s _).
  assert (ss_udpSessions s1 !! hexText A = Some (UdpSession (hexText C) (Some c) "agent" None key now)) as Ha1.
  { cbn. by rewrite lookup_insert_ne. }
  rewrite (relayDatagram_frame s1 addrA A _ f d HA Ha1 Hf). set (s2 := with_udp s1 _).
  assert (ss_udpSessions s2 !! hexText C =
          Some (UdpSession (hexText A) (Some a) "client" (Some addrC) key now)) as Hc2.
  { cbn. by rewrite lookup_insert_ne, lookup_insert_eq. }
  rewrite (relayDatagram_frame s2 addrC C _ g d' HC Hc2 Hg).
  cbn [us_PeerTokenHex]. rewrite !bool_decide_false, Hc2 by done.
  cbn [ss_udpSessions with_udp s2]. rewrite lookup_insert_ne, lookup_insert_eq by done.
  cbn [us_Addr with_Addr]. rewrite !decode_hexText by done. done.
Qed.

(** Datagrams stay within their session: one whose first 8 bytes are no current token does
    nothing; any other changes at most the recorded address of its own token, and what it sends, at
    most one message, is the answer to its sender's probe, or its frame to the peer of its token. *)
Theorem udp_relay_isolated s raddr buf out s' :
  relayDatagram s raddr buf = (out, s') ->
  let t := take udpTokenLen buf in
  out = [] /\ s' = s /\ (length buf < udpTokenLen \/ ss_udpSessions s !! hexText t = None) \/
  exists u, ss_udpSessions s !! hexText t = Some u /\
    s' = with_udp s (<[hexText t := with_Addr u raddr]> (ss_udpSessions s)) /\
    (out = [] \/ out = [SendUDP raddr (t ++ readyWord)] \/
     exists d, ForwardFrame (drop udpTokenLen buf) DefaultMaxHops = Some d /\
       (us_PeerTokenHex u = "" /\ out = sendTo (us_PeerWS u) d \/
        exists peer, ss_udpSessions s' !! us_PeerTokenHex u = Some peer /\
          out = match us_Addr peer with
                | Some addr => [SendUDP addr (hex_decode_prefix (bytes (us_PeerTokenHex u)) ++ d)]
                | None => sendTo (us_PeerWS peer) d
                end)).
Proof.
  intros Hr t. unfold relayDatagram in Hr.
  destruct (Nat.ltb_spec (length buf) udpTokenLen); [injection Hr as <- <-; by left; eauto|].
  fold t in Hr. destruct (ss_udpSessions s !! hexText t) as [u|] eqn:Hu;
    [|injection Hr as <- <-; by left; eauto].
  right. exists u. split; [done|].
  destruct (bool_decide (drop _ buf = probeWord)); [injection Hr as <- <-; by eauto|].
  destruct (ForwardFrame _ _) as [d|]; [|injection Hr as <- <-; by eauto].
  cbn [us_PeerTokenHex us_PeerWS with_Addr] in Hr.
  destruct (bool_decide_reflect (us_PeerTokenHex u = "")); [injection Hr as <- <-; naive_solver|].
  destruct (ss_udpSessions _ !! us_PeerTokenHex u) as [peer|] eqn:Hp;
    [|injection Hr as <- <-; by eauto].
  destruct (us_Addr peer) eqn:Hadr; injection Hr as <- <-; (split; [done|]); right; right;
    exists d; (split; [done|]); right; exists peer; by rewrite Hadr.
Qed.

(** A frame for a peer that has not probed is not delivered: the fallback writes it to the
    WebSocket of the side it came from, in both directions. *)
Theorem ws_fallback_echoes s key now a c A C addr f d :
  isToken A -> isToken C -> A <> C -> udp_linked s key now a c (hexText A) (hexText C) ->
  ForwardFrame f DefaultMaxHops = Some d ->
  fst (relayDatagram s addr (A ++ f)) = [Send a (MRaw true d)] /\
  fst (relayDatagram s addr (C ++ f)) = [Send c (MRaw true d)].
Proof.
  intros HA HC Hne [Ha Hc] Hf.
  assert (hexText A <> hexText C) as Hn.
  { intros E. apply Hne, hexText_inj; [apply HA|apply HC|done]. }
  pose proof (hexText_nonempty A HA). pose proof (hexText_nonempty C HC).
  rewrite (relayDatagram_frame s addr A _ f d HA Ha Hf), (relayDatagram_frame s addr C _ f d HC Hc Hf).
  cbn [us_PeerTokenHex ss_udpSessions with_udp fst]. rewrite !bool_decide_false by done.
  by rewrite !lookup_insert_ne, Ha, Hc by done.
Qed.

Lemma holdsToken_spec e t :
  holdsToken e t = true <-> exists sid cs, me_Sessions e !! sid = Some cs /\ t ∈ cs_UDPTokens cs.
Proof.
  unfold holdsToken. rewrite existsb_exists. split.
  - intros ([sid cs] & Hin & Ht%bool_decide_eq_true_1). exists sid, cs. split; [|done].
    by apply elem_of_map_to_list, list_elem_of_In.
  - intros (sid & cs & Hs & Ht). exists (sid, cs). split; [|by apply bool_decide_eq_true_2].
    by apply list_elem_of_In, elem_of_map_to_list.
Qed.

(** A tick of the reaper changes nothing but the token table, and keeps exactly the tokens
    younger than five minutes and those that a live session of their machine holds. *)
Theorem reapUDP_spec now s t u :
  (ss_udpSessions (reapUDP now s) !! t = Some u <->
   ss_udpSessions s !! t = Some u /\
   ((now - fiveMinutes < us_CreatedAt u)%Z \/
    exists p e sid cs, lookup_entry s (us_MachineID u) = Some (p, e) /\
      me_Sessions e !! sid = Some cs /\ t ∈ cs_UDPTokens cs)) /\
  ss_heap (reapUDP now s) = ss_heap s /\ ss_wsStates (reapUDP now s) = ss_wsStates s.
Proof.
  split; [|done]. unfold reapUDP. cbn [ss_udpSessions with_udp]. rewrite map_lookup_filter_Some.
  cbn [fst snd]. unfold reapKeeps.
  destruct (Z.ltb_spec (now - fiveMinutes) (us_CreatedAt u)).
  { split; [intros [? _]; by eauto|by intros [? _]]. }
  destruct (lookup_entry s _) as [[p e]|].
  - rewrite holdsToken_spec. split.
    + intros [? (sid & cs & ? & ?)]. split; [done|right]. by exists p, e, sid, cs.
    + intros [? [?|(? & ? & sid & cs & [= <- <-] & ? & ?)]]; [lia|]. split; [done|]. by exists sid, cs.
  - split; [by intros [_ ?]|]. intros [_ [?|(? & ? & ? & ? & ? & _)]]; [lia|done].
Qed.
