(* ===== verification/Session.v ===== *)
(** * Registration, sessions and teardown ([internal/hub/hub.go])

    The handlers of the WebSocket endpoint: an agent registers a machine, a client connects to it,
    the agent joins the session, the two are paired, frames are relayed, and connections go away.
    Each handler runs to its end as one transition of the shared state. *)

From S2P Require Import Prelude Auth Http HubConfig Relay SessionState Bridge UdpRelay.
From Stdlib Require Import ZArith Lia Ascii String.
From stdpp Require Import base gmap strings list fin_maps.

Section handlers.
  Context `{HR : RangeOrder} `{HA : Authorizer A}.
  Context (bridgeDir : gmap string bridgeConfig).

(** ** Registration *)

Definition machineKeyOf (agentID machineName : string) : string := agentID +:+ ":" +:+ machineName.

(** The move of a renamed machine's entry to its new key. *)
Definition moveRenamed (s : sessions) (regID machineKey : string) : sessions :=
  match ss_machinesByRegID s !! regID with
  | Some oldKey =>
      if oldKey =s machineKey then s
      else match lookup_entry s oldKey with
           | None => s
           | Some (p, entry) =>
               let oldName := me_MachineName entry in
               Sessions (ss_heap s) (<[machineKey := p]> (delete oldKey (ss_machines s)))
                 (if (oldName <>s "") && (default "" (ss_machinesByName s !! oldName) =s oldKey)
                  then delete oldName (ss_machinesByName s) else ss_machinesByName s)
                 (<[regID := machineKey]> (ss_machinesByRegID s))
                 (ss_wsStates s) (ss_udpSessions s) (ss_timers s)
           end
  | None => s
  end.

Definition newEntry (agentID regUUID : string) (now : Z) : machineEntry :=
  MachineEntry None 0 ∅ 0 agentID regUUID "" [] [] "" now 0 "" "" "" "" 0 None "" "" None.

(** The entry of the key, created when there is none. *)
Definition findOrCreate (env : senv A) (s : sessions) (agentID regID machineKey : string)
    : entryPtr * machineEntry * sessions :=
  match lookup_entry s machineKey with
  | Some (p, e) => (p, e, s)
  | None =>
      let regUUID := if regID =s "" then se_uuid env else regID in
      let e := newEntry agentID regUUID (se_now env) in
      let p := fresh (dom (ss_heap s)) in
      (p, e, Sessions (<[p := e]> (ss_heap s)) (<[machineKey := p]> (ss_machines s))
               (ss_machinesByName s)
               (if regID <>s "" then <[regID := machineKey]> (ss_machinesByRegID s)
                else ss_machinesByRegID s)
               (ss_wsStates s) (ss_udpSessions s) (ss_timers s))
  end.

(** The assignments to the entry, metadata kept where the message has none. *)
Definition registerEntry (now : Z) (c : conn) (msg : signalingMsg) (e : machineEntry)
    : machineEntry :=
  let keep (new old : string) := if new <>s "" then new else old in
  MachineEntry (Some c) (u64 (me_ControlGen e + 1)) (me_Sessions e) (me_NextIdx e) (me_AgentID e)
    (me_MachineRegistrationID e) (sm_MachineName msg) (default [] (sm_Ports msg)) (sm_Services msg)
    (sm_Token msg) (if (me_RegisteredAt e =? 0)%Z then now else me_RegisteredAt e) now
    (keep (sm_DisplayName msg) (me_DisplayName e)) (keep (sm_Hostname msg) (me_Hostname e))
    (keep (sm_OS msg) (me_OS e)) (keep (sm_AgentVersion msg) (me_AgentVersion e))
    (if (0 <? sm_ProtocolVersion msg)%Z then sm_ProtocolVersion msg
     else if (me_ProtocolVersion e =? 0)%Z then 1%Z else me_ProtocolVersion e)
    (match sm_Tags msg with Some t => Some t | None => me_Tags e end)
    (keep (sm_Location msg) (me_Location e)) (keep (sm_Owner msg) (me_Owner e))
    (match sm_Capabilities msg with Some c => Some c | None => me_Capabilities e end).

Definition showPorts (ports : list Z) : string := "ports=[" +:+ strings_Join " " (map Itoa ports) +:+ "]".

Definition handleRegister (env : senv A) (s : sessions) (c : conn) (state : wsState)
    (msg : signalingMsg) : list output * sessions :=
  let machineName := sm_MachineName msg in
  let agentID := sm_AgentID msg in
  if agentID =s "" then (sendError c "register: agentId is required", s)
  else
    let state := WsState "agent" (ws_MachineID state) machineName (ws_SessionID state)
      (ws_Paired state) (ws_Peer state) (ws_WGPubKey state) (ws_ControlGen state)
      (ws_RequestedPorts state) (ws_SessionDetail state) (ws_BridgeWS state) in
    let s := set_ws s c state in
    if az_enabled (se_auth env) &&
       negb (az_canRegister (se_auth env) (se_now env) (sm_Token msg) machineName)
    then (sendError c "Access denied", s)
    else
      let regID := sm_MachineRegistrationID msg in
      let machineKey := machineKeyOf agentID machineName in
      let s := if regID <>s "" then moveRenamed s regID machineKey else s in
      let '(p, entry, s) := findOrCreate env s agentID regID machineKey in
      let s := Sessions (ss_heap s) (ss_machines s)
        (if machineName <>s "" then <[machineName := machineKey]> (ss_machinesByName s)
         else ss_machinesByName s)
        (ss_machinesByRegID s) (ss_wsStates s) (ss_udpSessions s) (ss_timers s) in
      let closing :=
        match me_ControlWS entry with
        | Some old => if bool_decide (old = c) then [] else [CloseConn old]
        | None => []
        end in
      let entry := registerEntry (se_now env) c msg entry in
      let s := set_entry s p entry in
      let s := set_ws s c (WsState "agent" machineKey machineName (ws_SessionID state)
        (ws_Paired state) (ws_Peer state) (ws_WGPubKey state) (me_ControlGen entry)
        (ws_RequestedPorts state) (ws_SessionDetail state) (ws_BridgeWS state)) in
      let ports := map sd_Port (normalizeServices (me_Ports entry) (me_Services entry)) in
      let u := se_update env in
      let update :=
        if (uc_Channel u <>s "") || (0 <? size (uc_Sources u))%nat then Some u else None in
      (closing ++ [Event machineName "agent-register" (showPorts ports);
                   Send c (MRegistered machineName update)], s).

(** ** Connecting *)

(** The entry a machine name resolves to. *)
Definition resolveName (s : sessions) (machineName : string)
    : option (string * entryPtr * machineEntry) :=
  let agentID := default "" (ss_machinesByName s !! machineName) in
  if agentID =s "" then None
  else match lookup_entry s agentID with
       | Some (p, e) => Some (agentID, p, e)
       | None => None
       end.

(** The token test of a connect: the hub's policy when it enforces one, otherwise the token the
    agent registered with. *)
Inductive connectVerdict := Allowed | Denied | WrongToken.

Definition connectAuth (env : senv A) (e : machineEntry) (token machineName : string)
    : connectVerdict :=
  if az_enabled (se_auth env) then
    if az_canConnect (se_auth env) (se_now env) token machineName then Allowed else Denied
  else if (me_Token e <>s "") && negb (me_Token e =s token) then WrongToken
  else Allowed.

Definition set_SessionID (w : wsState) (sid : string) : wsState :=
  WsState (ws_Role w) (ws_MachineID w) (ws_MachineName w) sid (ws_Paired w) (ws_Peer w)
    (ws_WGPubKey w) (ws_ControlGen w) (ws_RequestedPorts w) (ws_SessionDetail w) (ws_BridgeWS w).
Definition set_MachineID (w : wsState) (m : string) : wsState :=
  WsState (ws_Role w) m (ws_MachineName w) (ws_SessionID w) (ws_Paired w) (ws_Peer w)
    (ws_WGPubKey w) (ws_ControlGen w) (ws_RequestedPorts w) (ws_SessionDetail w) (ws_BridgeWS w).

Definition handleConnect (env : senv A) (s : sessions) (c : conn) (state : wsState)
    (msg : signalingMsg) : list output * sessions :=
  let machineName := sm_MachineID msg in
  let state := WsState "client" (ws_MachineID state) machineName (ws_SessionID state)
    (ws_Paired state) (ws_Peer state) (sm_WGPubKey msg) (ws_ControlGen state)
    (match sm_Ports msg with Some ps => ps | None => ws_RequestedPorts state end)
    (ws_SessionDetail state) (ws_BridgeWS state) in
  let s := set_ws s c state in
  match resolveName s machineName with
  | None =>
      match bridgeDir !! machineName with
      | Some bc => handleBridgeConnect env s c state msg bc
      | None => (sendError c "Machine not found", s)
      end
  | Some (agentID, p, entry) =>
      let state := set_MachineID state agentID in
      let s := set_ws s c state in
      match me_ControlWS entry with
      | None => (sendError c "Machine not found", s)
      | Some controlWS =>
          match connectAuth env entry (sm_Token msg) machineName with
          | Denied => (sendError c "Access denied", s)
          | WrongToken =>
              ([Send c (MError "Invalid token"); Send c (MClose ClosePolicyViolation "Invalid token")], s)
          | Allowed =>
              let sessionID := hexText (se_rand1 env) in
              let state := set_SessionID state sessionID in
              let s := set_ws s c state in
              if (254 <=? me_NextIdx entry)%Z then
                (sendError c "Too many sessions for this machine (max 254)", s)
              else
                let sessionIdx := (me_NextIdx entry + 1)%Z in
                let session := ClientSession sessionID sessionIdx (Some c) None [] (se_now env) in
                let entry := with_NextIdx
                  (with_Sessions entry (<[sessionID := session]> (me_Sessions entry))) sessionIdx in
                let s := set_entry s p entry in
                let s := with_timers s (ss_timers s ++ [JoinTimer p agentID sessionID]) in
                ([Send controlWS (MSessionRequest sessionID (sm_WGPubKey msg) sessionIdx)], s)
          end
      end
  end.

(** ** Cleaning up *)

Definition cleanupSession (s : sessions) (sess : clientSession) : sessions :=
  let s := with_udp s (fold_left (fun u t => delete t u) (cs_UDPTokens sess) (ss_udpSessions s)) in
  let s := update_ws s (cs_AgentWS sess) unpair_ws in
  update_ws s (cs_ClientWS sess) unpair_ws.

(** The wake-up of a session's join timer: nothing when the session was joined or is gone. *)
Definition joinTimeout (s : sessions) (t : joinTimer) : list output * sessions :=
  match ss_heap s !! jt_entry t with
  | None => ([], s)
  | Some entry =>
      match me_Sessions entry !! jt_sessionID t with
      | Some sess =>
          match cs_AgentWS sess with
          | Some _ => ([], s)
          | None =>
              let s := set_entry s (jt_entry t)
                (with_Sessions entry (delete (jt_sessionID t) (me_Sessions entry))) in
              let s := cleanupSession s sess in
              (match cs_ClientWS sess with
               | Some c => [Send c (MClose CloseGoingAway "agent did not join session"); CloseConn c]
               | None => []
               end, s)
          end
      | None => ([], s)
      end
  end.

(** ** Joining and pairing *)

Definition pairSession (env : senv A) (s : sessions) (machineKey : string) (p : entryPtr)
    (entry : machineEntry) (session : clientSession) : list output * sessions :=
  let machineID := if me_MachineName entry =s "" then machineKey else me_MachineName entry in
  match cs_AgentWS session, cs_ClientWS session with
  | Some agentWS, Some clientWS =>
      let s := update_ws s (Some agentWS) (pair_ws clientWS) in
      let s := update_ws s (Some clientWS) (pair_ws agentWS) in
      let s :=
        match ss_wsStates s !! clientWS with
        | None => s
        | Some clientState =>
            let detail := sessionDetailFrom entry (ws_RequestedPorts clientState) in
            update_ws (update_ws s (Some clientWS) (detail_ws detail)) (Some agentWS) (detail_ws detail)
        end in
      let wgPubKey := match ss_wsStates s !! clientWS with Some w => ws_WGPubKey w | None => "" end in
      let detail := match ss_wsStates s !! clientWS with Some w => ws_SessionDetail w | None => "" end in
      let agentTokenHex := hexText (se_rand1 env) in
      let clientTokenHex := hexText (se_rand2 env) in
      let udp := <[clientTokenHex :=
                     UdpSession agentTokenHex (Some agentWS) "client" None machineKey (se_now env)]>
                 (<[agentTokenHex :=
                     UdpSession clientTokenHex (Some clientWS) "agent" None machineKey (se_now env)]>
                  (ss_udpSessions s)) in
      let s := with_udp s udp in
      let session := with_UDPTokens session [agentTokenHex; clientTokenHex] in
      let s := set_entry s p
        (with_Sessions entry (<[cs_SessionID session := session]> (me_Sessions entry))) in
      ([Event machineID "client-connect" detail;
        Send agentWS (MSessionStart wgPubKey); Send clientWS (MReady (cs_SessionIdx session));
        Send agentWS (MUdpOffer agentTokenHex); Send clientWS (MUdpOffer clientTokenHex)], s)
  | _, _ => ([], s)
  end.

Definition handleSessionJoin (env : senv A) (s : sessions) (c : conn) (state : wsState)
    (msg : signalingMsg) : list output * sessions :=
  let machineName := sm_MachineID msg in
  let sessionID := sm_SessionID msg in
  let state := WsState "agent-session" (ws_MachineID state) machineName sessionID
    (ws_Paired state) (ws_Peer state) (ws_WGPubKey state) (ws_ControlGen state)
    (ws_RequestedPorts state) (ws_SessionDetail state) (ws_BridgeWS state) in
  let s := set_ws s c state in
  match resolveName s machineName with
  | None => (sendError c "Machine not found", s)
  | Some (agentID, p, entry) =>
      let s := set_ws s c (set_MachineID state agentID) in
      match me_Sessions entry !! sessionID with
      | None => (sendError c "Session not found", s)
      | Some session =>
          let session := with_AgentWS session c in
          let entry := with_Sessions entry (<[sessionID := session]> (me_Sessions entry)) in
          let s := set_entry s p entry in
          match cs_ClientWS session with
          | None => (sendError c "Client gone", s)
          | Some _ => pairSession env s agentID p entry session
          end
      end
  end.

(** ** Disconnecting *)

Definition closeClient (sess : clientSession) (reason : string) : list output :=
  match cs_ClientWS sess with
  | Some c => [Send c (MClose CloseGoingAway reason); CloseConn c]
  | None => []
  end.
Definition closeAgent (sess : clientSession) : list output :=
  match cs_AgentWS sess with Some c => [CloseConn c] | None => [] end.

(** The sessions of a machine whose agent went away, in the order of the range. *)
Fixpoint dropSessions (s : sessions) (l : list (string * clientSession)) : list output * sessions :=
  match l with
  | [] => ([], s)
  | (_, sess) :: l' =>
      let s := cleanupSession s sess in
      let '(out, s) := dropSessions s l' in
      (closeClient sess "agent disconnected" ++ closeAgent sess ++ out, s)
  end.

Definition handleDisconnect (env : senv A) (s : sessions) (c : conn) : list output * sessions :=
  match ss_wsStates s !! c with
  | None => ([], s)
  | Some state =>
      let bridge := match ws_BridgeWS state with Some b => [CloseConn b] | None => [] end in
      if ws_MachineID state =s "" then (bridge, s)
      else match lookup_entry s (ws_MachineID state) with
           | None => (bridge, s)
           | Some (p, entry) =>
               let name := if ws_MachineName state =s "" then ws_MachineID state else ws_MachineName state in
               let detail := if ws_SessionDetail state =s "" then ws_Role state +:+ " disconnected"
                             else ws_SessionDetail state in
               let out := bridge ++ [Event name (ws_Role state +:+ "-disconnect") detail] in
               let sid := ws_SessionID state in
               let sess := me_Sessions entry !! sid in
               let removed := set_entry s p (with_Sessions entry (delete sid (me_Sessions entry))) in
               if ws_Role state =s "agent" then
                 if negb (ws_ControlGen state =? me_ControlGen entry)%Z then (out, s)
                 else
                   let entry' := with_Sessions
                     (with_Control entry None (me_ControlGen entry) (se_now env)) ∅ in
                   let s := set_entry s p entry' in
                   let '(out', s) := dropSessions s (range (me_Sessions entry)) in
                   (out ++ out', s)
               else if ws_Role state =s "agent-session" then
                 match sess with
                 | None => (out, removed)
                 | Some sess =>
                     (out ++ closeClient sess "agent session ended", cleanupSession removed sess)
                 end
               else if (ws_Role state =s "client") || (ws_Role state =s "helper") then
                 match sess with
                 | None => (out, removed)
                 | Some sess =>
                     (out ++ match cs_AgentWS sess with
                             | Some a => [Send a MSessionEnd; CloseConn a]
                             | None => []
                             end, cleanupSession removed sess)
                 end
               else (out, s)
           end
  end.

(** The deferred function of [handleWS]. *)
Definition closeWS (env : senv A) (s : sessions) (c : conn) : list output * sessions :=
  let '(out, s) := handleDisconnect env s c in
  (out ++ [CloseConn c], with_ws s (delete c (ss_wsStates s))).

(** ** The read loop *)

Fixpoint contains (sub l : list Z) : bool :=
  bool_decide (take (length sub) l = sub) ||
  match l with [] => false | _ :: l' => contains sub l' end.

Definition keepaliveText : list Z := [34%Z] ++ z_bytes "keepalive" ++ [34%Z].

(** One message; the [bool] says whether the loop goes on. *)
Definition handleFrame (env : senv A) (s : sessions) (c : conn) (f : wsFrame)
    : list output * sessions * bool :=
  match ss_wsStates s !! c with
  | None => ([], s, false)
  | Some state =>
      if ws_Paired state then
        if negb (wf_binary f) && (length (wf_data f) <? 64)%nat && contains keepaliveText (wf_data f)
        then ([], s, true)
        else if wf_binary f then
          if badFrame (wf_data f) then
            ([Send c (MClose CloseProtocolError "relay frame: unsupported version")], s, false)
          else match ForwardFrame (wf_data f) DefaultMaxHops with
               | None => ([], s, true)
               | Some data =>
                   (match ws_Peer state with Some peer => [Send peer (MRaw true data)] | None => [] end,
                    s, true)
               end
        else (match ws_Peer state with
              | Some peer => [Send peer (MRaw false (wf_data f))] | None => [] end, s, true)
      else if wf_binary f then
        ([Send c (MClose CloseProtocolError "Expected JSON for first message")], s, false)
      else match wf_msg f with
           | None => ([Send c (MClose CloseProtocolError "Expected JSON for first message")], s, false)
           | Some msg =>
               let run h : list output * sessions * bool := (h env s c state msg, true) in
               if sm_Type msg =s "register" then run handleRegister
               else if sm_Type msg =s "connect" then run handleConnect
               else if sm_Type msg =s "session-join" then run handleSessionJoin
               else if sm_Type msg =s "mgmt-response" then
                 ((if sm_RequestID msg <>s "" then [Deliver (sm_RequestID msg) (wf_data f)] else [],
                   s), true)
               else ([], s, true)
           end
  end.

(** A pong of a registered agent. *)
Definition handlePong (env : senv A) (s : sessions) (c : conn) : sessions :=
  match ss_wsStates s !! c with
  | None => s
  | Some state =>
      if (ws_Role state =s "agent") && (ws_MachineID state <>s "") then
        match lookup_entry s (ws_MachineID state) with
        | None => s
        | Some (p, e) => set_entry s p (with_Control e (me_ControlWS e) (me_ControlGen e) (se_now env))
        end
      else s
  end.

End handlers.
