(* ===== verification/SessionInvariant.v ===== *)
(** * Invariants of machines and sessions

    The events of the WebSocket side as a step relation on the shared state, and what holds in
    every state they reach: distinct session indexes, in range and never given out again. *)

From S2P Require Import Prelude Auth Http HubConfig Relay SessionState Bridge Session UdpRelay.
From Stdlib Require Import ZArith Lia Ascii String.
From stdpp Require Import base gmap strings list fin_maps relations.

(** ** How an entry changes *)

(** Sessions may go or be updated in place, the counter stays. *)
Definition kept (e e' : machineEntry) : Prop :=
  me_NextIdx e' = me_NextIdx e /\
  forall sid cs', me_Sessions e' !! sid = Some cs' ->
    exists cs, me_Sessions e !! sid = Some cs /\ cs_SessionID cs' = cs_SessionID cs /\
               cs_SessionIdx cs' = cs_SessionIdx cs.

(** One session is added under the next index. *)
Definition grown (e e' : machineEntry) : Prop :=
  (me_NextIdx e < 254)%Z /\ me_NextIdx e' = (me_NextIdx e + 1)%Z /\
  exists sid cs, me_Sessions e' = <[sid := cs]> (me_Sessions e) /\ cs_SessionID cs = sid /\
                 cs_SessionIdx cs = me_NextIdx e'.

Definition blank (e : machineEntry) : Prop := me_NextIdx e = 0%Z /\ me_Sessions e = ∅.

(** Every entry of the later state is a step from the earlier one, or a blank new entry; no pointer
    is lost. *)
Definition heap_step (s s' : sessions) : Prop :=
  forall p, match ss_heap s' !! p with
            | Some e' => match ss_heap s !! p with
                         | Some e => kept e e' \/ grown e e'
                         | None => blank e'
                         end
            | None => ss_heap s !! p = None
            end.

Lemma kept_refl e : kept e e.
Proof. split; [done|]. intros sid cs H. by exists cs. Qed.

Lemma kept_trans e1 e2 e3 : kept e1 e2 -> kept e2 e3 -> kept e1 e3.
Proof.
  intros [Hn1 H1] [Hn2 H2]. split; [congruence|]. intros sid cs H.
  destruct (H2 sid cs H) as (cs2 & Hc2 & ? & ?). destruct (H1 sid cs2 Hc2) as (cs1 & ? & ? & ?).
  exists cs1. split_and!; congruence.
Qed.

Lemma kept_Sessions e m :
  (forall sid cs', m !! sid = Some cs' ->
     exists cs, me_Sessions e !! sid = Some cs /\ cs_SessionID cs' = cs_SessionID cs /\
                cs_SessionIdx cs' = cs_SessionIdx cs) ->
  kept e (with_Sessions e m).
Proof. by split. Qed.

Lemma kept_delete e sid : kept e (with_Sessions e (delete sid (me_Sessions e))).
Proof.
  apply kept_Sessions. intros k cs. rewrite lookup_delete_Some. intros [_ Hk]. by exists cs.
Qed.

Lemma kept_update e sid cs cs' :
  me_Sessions e !! sid = Some cs -> cs_SessionID cs' = cs_SessionID cs ->
  cs_SessionIdx cs' = cs_SessionIdx cs ->
  kept e (with_Sessions e (<[sid := cs']> (me_Sessions e))).
Proof.
  intros Hs Hid Hidx. apply kept_Sessions. intros k c. rewrite lookup_insert_Some.
  intros [[<- <-]|[_ Hk]]; [by exists cs|by exists c].
Qed.

Lemma heap_step_same s s' : ss_heap s' = ss_heap s -> heap_step s s'.
Proof.
  intros E p. rewrite E. destruct (ss_heap s !! p); [left; apply kept_refl|done].
Qed.

Lemma heap_step_insert s s' p e e' :
  ss_heap s' = <[p := e']> (ss_heap s) -> ss_heap s !! p = Some e ->
  kept e e' \/ grown e e' -> heap_step s s'.
Proof.
  intros E Hp He q. rewrite E, lookup_insert. case_decide as Hq.
  - subst. by rewrite Hp.
  - destruct (ss_heap s !! q); [left; apply kept_refl|done].
Qed.

Lemma heap_step_new s s' p e' :
  ss_heap s' = <[p := e']> (ss_heap s) -> ss_heap s !! p = None -> blank e' -> heap_step s s'.
Proof.
  intros E Hp He q. rewrite E, lookup_insert. case_decide as Hq.
  - subst. by rewrite Hp.
  - destruct (ss_heap s !! q); [left; apply kept_refl|done].
Qed.

(** ** Operations that leave the entries alone *)

Lemma update_ws_heap s c f : ss_heap (update_ws s c f) = ss_heap s.
Proof. unfold update_ws. by repeat case_match. Qed.

Lemma cleanupSession_heap s sess : ss_heap (cleanupSession s sess) = ss_heap s.
Proof. unfold cleanupSession. by rewrite !update_ws_heap. Qed.

Lemma dropSessions_heap s l : ss_heap (snd (dropSessions s l)) = ss_heap s.
Proof.
  revert s. induction l as [|[sid sess] l IH]; intros s; [done|]. cbn.
  specialize (IH (cleanupSession s sess)). destruct (dropSessions _ l) as [out s'].
  cbn in *. by rewrite IH, cleanupSession_heap.
Qed.
#[export] Hint Rewrite update_ws_heap cleanupSession_heap dropSessions_heap : tela_simpl.

Lemma lookup_entry_Some s key p e :
  lookup_entry s key = Some (p, e) -> ss_machines s !! key = Some p /\ ss_heap s !! p = Some e.
Proof.
  unfold lookup_entry. intros H. apply bind_Some in H as (q & Hq & H).
  apply bind_Some in H as (x & Hx & [= -> ->]). done.
Qed.

Lemma resolveName_Some s name key p e :
  resolveName s name = Some (key, p, e) ->
  ss_machinesByName s !! name = Some key /\ key <> "" /\ ss_heap s !! p = Some e.
Proof.
  unfold resolveName. case_bool_decide as Hk; [done|].
  destruct (lookup_entry _ _) as [[q x]|] eqn:E; [|done]. intros [= <- <- <-].
  apply lookup_entry_Some in E as [_ E].
  destruct (ss_machinesByName s !! name); [done|]. by cbn in Hk.
Qed.

Lemma relayDatagram_heap s raddr buf : ss_heap (snd (relayDatagram s raddr buf)) = ss_heap s.
Proof. unfold relayDatagram. by repeat (case_match; try done). Qed.

(** ** The handlers *)

Section handlers.
  Context `{HR : RangeOrder} `{HA : Authorizer A} (bridgeDir : gmap string bridgeConfig).
  Implicit Types (env : senv A).

Lemma moveRenamed_heap s regID key : ss_heap (moveRenamed s regID key) = ss_heap s.
Proof. unfold moveRenamed. by repeat (case_match; try done). Qed.

Lemma findOrCreate_spec env s agentID regID key p e s' :
  findOrCreate env s agentID regID key = (p, e, s') ->
  ss_heap s !! p = Some e /\ ss_heap s' = ss_heap s \/
  ss_heap s !! p = None /\ ss_heap s' = <[p := e]> (ss_heap s) /\ blank e.
Proof.
  unfold findOrCreate. destruct (lookup_entry s key) as [[q x]|] eqn:E.
  - intros [= <- <- <-]. left. by apply lookup_entry_Some in E as [_ E].
  - intros [= <- <- <-]. right. cbn. split_and!; try done.
    apply not_elem_of_dom, is_fresh.
Qed.

Lemma kept_register now c msg e : kept e (registerEntry now c msg e).
Proof. split; [done|]. intros sid cs Hs. by exists cs. Qed.

Lemma handleRegister_heap env s c state msg :
  heap_step s (snd (handleRegister env s c state msg)).
Proof.
  unfold handleRegister. case_bool_decide; [by apply heap_step_same|].
  destruct (_ && _); [by apply heap_step_same|].
  set (s1 := if sm_MachineRegistrationID msg <>s "" then _ else _).
  assert (ss_heap s1 = ss_heap s) as Hs1.
  { unfold s1. case_match; [by rewrite moveRenamed_heap|done]. }
  destruct (findOrCreate env s1 _ _ _) as [[p e] s2] eqn:Hf. cbn [snd].
  apply findOrCreate_spec in Hf. rewrite Hs1 in Hf.
  destruct Hf as [[Hp Hs2]|(Hp & Hs2 & Hb)].
  - eapply heap_step_insert; [cbn; by rewrite Hs2|done|]. left.
    apply kept_register.
  - eapply heap_step_new; [cbn; rewrite Hs2; apply insert_insert_eq|done|done].
Qed.

Lemma handleBridgeConnect_heap env s c state msg bc :
  ss_heap (snd (handleBridgeConnect env s c state msg bc)) = ss_heap s.
Proof. unfold handleBridgeConnect. by repeat (case_match; try done). Qed.

Lemma handleConnect_heap env s c state msg :
  heap_step s (snd (handleConnect bridgeDir env s c state msg)).
Proof.
  unfold handleConnect. cbv zeta.
  destruct (resolveName _ _) as [[[key p] e]|] eqn:Hr.
  - destruct (me_ControlWS e) as [control|]; [|by apply heap_step_same].
    destruct (connectAuth _ _ _ _); [|by apply heap_step_same..].
    destruct (Z.leb_spec 254 (me_NextIdx e)); [by apply heap_step_same|].
    apply resolveName_Some in Hr as (_ & _ & Hp). cbn in Hp.
    eapply heap_step_insert; [done|exact Hp|]. right. split; [lia|]. split; [done|].
    by do 2 eexists.
  - destruct (bridgeDir !! _); apply heap_step_same; [by rewrite handleBridgeConnect_heap|done].
Qed.

Lemma pairSession_heap env s key p e sess :
  ss_heap (snd (pairSession env s key p e sess)) = ss_heap s \/
  exists sess', cs_SessionID sess' = cs_SessionID sess /\ cs_SessionIdx sess' = cs_SessionIdx sess /\
    ss_heap (snd (pairSession env s key p e sess)) =
      <[p := with_Sessions e (<[cs_SessionID sess := sess']> (me_Sessions e))]> (ss_heap s).
Proof.
  unfold pairSession. cbv zeta. destruct (cs_AgentWS sess), (cs_ClientWS sess); try (by left).
  right. exists (with_UDPTokens sess [hexText (se_rand1 env); hexText (se_rand2 env)]).
  split; [done|]. split; [done|]. cbn [snd ss_heap set_entry with_heap with_udp cs_SessionID with_UDPTokens].
  f_equal. case_match; by autorewrite with tela_simpl.
Qed.

Lemma handleSessionJoin_heap env s c state msg :
  (forall p e, ss_heap s !! p = Some e -> forall sid cs, me_Sessions e !! sid = Some cs ->
     cs_SessionID cs = sid) ->
  heap_step s (snd (handleSessionJoin env s c state msg)).
Proof.
  intros Hids. unfold handleSessionJoin. cbv zeta.
  destruct (resolveName _ _) as [[[key p] e]|] eqn:Hr; [|by apply heap_step_same].
  apply resolveName_Some in Hr as (_ & _ & Hp). cbn in Hp.
  destruct (me_Sessions e !! sm_SessionID msg) as [sess|] eqn:Hs; [|by apply heap_step_same].
  pose proof (Hids p e Hp _ _ Hs) as Hid.
  set (e1 := with_Sessions e (<[sm_SessionID msg := with_AgentWS sess c]> (me_Sessions e))).
  assert (kept e e1) as Hk by (by eapply kept_update).
  destruct (cs_ClientWS (with_AgentWS sess c)).
  - match goal with |- context [pairSession env ?s1 ?k ?q ?x ?cs] =>
      destruct (pairSession_heap env s1 k q x cs) as [Hh|(sess' & Hid' & Hidx' & Hh)] end;
      (eapply heap_step_insert; [rewrite Hh; cbn; rewrite ?insert_insert_eq; reflexivity|exact Hp|left]).
    + done.
    + eapply kept_trans; [exact Hk|]. cbn in Hid'. rewrite Hid. eapply kept_update;
        [cbn; rewrite lookup_insert_eq; reflexivity|done|done].
  - eapply heap_step_insert; [reflexivity|exact Hp|by left].
Qed.

Lemma handleDisconnect_heap env s c : heap_step s (snd (handleDisconnect env s c)).
Proof.
  unfold handleDisconnect. destruct (ss_wsStates s !! c) as [state|]; [|by apply heap_step_same].
  case_bool_decide; [by apply heap_step_same|].
  destruct (lookup_entry _ _) as [[p e]|] eqn:Hl; [|by apply heap_step_same].
  apply lookup_entry_Some in Hl as [_ Hp].
  destruct (ws_Role state =s "agent").
  - destruct (negb _); [by apply heap_step_same|].
    set (e1 := with_Sessions _ ∅).
    pose proof (dropSessions_heap (set_entry s p e1) (range (me_Sessions e))) as Hd.
    destruct (dropSessions _ _) as [out s1]. cbn in *.
    eapply heap_step_insert; [exact Hd|exact Hp|left]. split; [done|]. intros sid cs Hs. done.
  - destruct (ws_Role state =s "agent-session"); [|destruct (_ || _); [|by apply heap_step_same]];
      destruct (me_Sessions e !! _);
      (eapply heap_step_insert; [cbn; rewrite ?cleanupSession_heap; reflexivity|exact Hp|left];
       apply kept_delete).
Qed.

Lemma joinTimeout_heap s t : heap_step s (snd (joinTimeout s t)).
Proof.
  unfold joinTimeout. destruct (ss_heap s !! jt_entry t) as [e|] eqn:Hp; [|by apply heap_step_same].
  destruct (me_Sessions e !! _) as [sess|]; [|by apply heap_step_same].
  destruct (cs_AgentWS sess); [by apply heap_step_same|].
  eapply heap_step_insert; [cbn; rewrite cleanupSession_heap; reflexivity|exact Hp|left].
  apply kept_delete.
Qed.
End handlers.

(** ** The events of the WebSocket side *)

Section steps.
  Context `{HR : RangeOrder} `{HA : Authorizer A} (bridgeDir : gmap string bridgeConfig).
  Implicit Types (env : senv A).

(** A connection this hub opened to another one; its reader is not [handleWS]. *)
Definition isBridge (s : sessions) (c : conn) : bool :=
  match ss_wsStates s !! c with Some w => ws_Role w =s "bridge" | None => false end.

Inductive session_step (s : sessions) : list output -> sessions -> Prop :=
  | step_open c :
      ss_wsStates s !! c = None -> session_step s [] (set_ws s c newWsState)
  | step_frame env c f out s' :
      isBridge s c = false ->
      handleFrame bridgeDir env s c f = (out, s', true) -> session_step s out s'
  | step_last_frame env env' c f out s' :
      isBridge s c = false -> handleFrame bridgeDir env s c f = (out, s', false) ->
      session_step s (out ++ fst (closeWS env' s' c)) (snd (closeWS env' s' c))
  | step_close env c :
      isBridge s c = false -> session_step s (fst (closeWS env s c)) (snd (closeWS env s c))
  | step_pong env c : session_step s [] (handlePong env s c)
  | step_timeout t ts ts' :
      ss_timers s = ts ++ t :: ts' ->
      session_step s (fst (joinTimeout s t)) (with_timers (snd (joinTimeout s t)) (ts ++ ts'))
  | step_bridge_frame bc bridge client f out :
      isBridge s bridge = true -> bridgeReaderStep bc client f = Some out -> session_step s out s
  | step_bridge_end bridge client sid name token :
      isBridge s bridge = true ->
      session_step s (fst (bridgeTeardown s bridge client sid name token))
        (snd (bridgeTeardown s bridge client sid name token))
  | step_datagram raddr buf :
      session_step s (fst (relayDatagram s raddr buf)) (snd (relayDatagram s raddr buf))
  | step_reap now : session_step s [] (reapUDP now s).

Definition session_run : relation sessions := rtc (fun s s' => exists out, session_step s out s').

(** ** The invariant of entries *)

(** Session keys are the session's own ID; indexes are the octets 1 to 254, one session each. *)
Record entry_inv (e : machineEntry) : Prop := EntryInv {
  inv_NextIdx : (0 <= me_NextIdx e <= 254)%Z;
  inv_session : forall sid cs, me_Sessions e !! sid = Some cs ->
    cs_SessionID cs = sid /\ (1 <= cs_SessionIdx cs <= me_NextIdx e)%Z;
  inv_idx_inj : forall sid1 sid2 cs1 cs2,
    me_Sessions e !! sid1 = Some cs1 -> me_Sessions e !! sid2 = Some cs2 ->
    cs_SessionIdx cs1 = cs_SessionIdx cs2 -> sid1 = sid2
}.

Definition sessions_inv (s : sessions) : Prop :=
  forall p e, ss_heap s !! p = Some e -> entry_inv e.

Lemma blank_inv e : blank e -> entry_inv e.
Proof.
  intros [Hn Hs]. split; [lia|..]; setoid_rewrite Hs; by intros ? ?; rewrite lookup_empty.
Qed.

Lemma kept_inv e e' : kept e e' -> entry_inv e -> entry_inv e'.
Proof.
  intros [Hn Hk] [H1 H2 H3]. split; [by rewrite Hn|..].
  - intros sid cs' (cs & Hc & -> & ->)%Hk. rewrite Hn. by apply H2.
  - intros sid1 sid2 c1' c2' (c1 & Hc1 & _ & ->)%Hk (c2 & Hc2 & _ & ->)%Hk. by eapply H3.
Qed.

Lemma grown_inv e e' : grown e e' -> entry_inv e -> entry_inv e'.
Proof.
  intros (Hlt & Hn & sid & cs & Hs & Hid & Hidx) [H1 H2 H3]. split; [lia|..]; rewrite Hs.
  - intros k c [[<- <-]|[_ Hk]]%lookup_insert_Some; [split; [done|lia]|].
    destruct (H2 k c Hk). split; [done|lia].
  - intros k1 k2 c1 c2 [[<- <-]|[_ Hk1]]%lookup_insert_Some [[<- <-]|[_ Hk2]]%lookup_insert_Some E.
    + done.
    + destruct (H2 k2 c2 Hk2). lia.
    + destruct (H2 k1 c1 Hk1). lia.
    + by eapply H3.
Qed.

Lemma heap_step_inv s s' : heap_step s s' -> sessions_inv s -> sessions_inv s'.
Proof.
  intros Hstep Hinv p e' Hp. specialize (Hstep p). rewrite Hp in Hstep.
  destruct (ss_heap s !! p) as [e|] eqn:E; [|by apply blank_inv].
  destruct Hstep; [eapply kept_inv|eapply grown_inv]; eauto.
Qed.

Lemma heap_step_ext s1 s1' s2 s2' :
  ss_heap s1' = ss_heap s1 -> ss_heap s2' = ss_heap s2 -> heap_step s1 s2 -> heap_step s1' s2'.
Proof. unfold heap_step. by intros -> ->. Qed.

Lemma handleFrame_heap env s c f :
  sessions_inv s -> heap_step s (snd (fst (handleFrame bridgeDir env s c f))).
Proof.
  intros Hinv. unfold handleFrame.
  destruct (ss_wsStates s !! c) as [state|]; [|by apply heap_step_same].
  destruct (ws_Paired state).
  { repeat case_match; by apply heap_step_same. }
  destruct (wf_binary f); [by apply heap_step_same|].
  destruct (wf_msg f) as [msg|]; [|by apply heap_step_same].
  destruct (sm_Type msg =s "register"); [apply handleRegister_heap|].
  destruct (sm_Type msg =s "connect"); [apply handleConnect_heap|].
  destruct (sm_Type msg =s "session-join").
  { apply handleSessionJoin_heap. intros p e Hp sid cs Hs. by apply (Hinv p e Hp). }
  destruct (sm_Type msg =s "mgmt-response"); by apply heap_step_same.
Qed.

Lemma closeWS_heap env s c : heap_step s (snd (closeWS env s c)).
Proof.
  unfold closeWS. pose proof (handleDisconnect_heap env s c) as Hd.
  destruct (handleDisconnect env s c) as [out s']. by eapply heap_step_ext; [| |exact Hd].
Qed.

Lemma handlePong_heap env s c : heap_step s (handlePong env s c).
Proof.
  unfold handlePong. destruct (ss_wsStates s !! c); [|by apply heap_step_same].
  case_match; [|by apply heap_step_same].
  destruct (lookup_entry _ _) as [[p e]|] eqn:Hl; [|by apply heap_step_same].
  apply lookup_entry_Some in Hl as [_ Hp].
  eapply heap_step_insert; [done|exact Hp|left]. split; [done|]. intros sid cs Hs. by exists cs.
Qed.

(** Every event is at most two steps of the entries: a last frame, then the close. *)
Lemma session_step_heap s out s' :
  sessions_inv s -> session_step s out s' ->
  exists s1, heap_step s s1 /\ heap_step s1 s'.
Proof.
  assert (forall s', ss_heap s' = ss_heap s -> exists s1, heap_step s s1 /\ heap_step s1 s') as Hsame.
  { intros x E. exists s. split; by apply heap_step_same. }
  assert (forall s', heap_step s s' -> exists s1, heap_step s s1 /\ heap_step s1 s') as Hone.
  { intros x E. exists s. split; [by apply heap_step_same|done]. }
  intros Hinv Hstep.
  destruct Hstep as [c Hc|env c f out s' _ Hf|env env' c f out s' _ Hf|env c _|env c|t ts ts' Ht
    |bc b c f out _ _|b c sid n tk _|raddr buf|now]; try (by apply Hsame).
  - apply Hone. pose proof (handleFrame_heap env s c f Hinv) as Hh. by rewrite Hf in Hh.
  - exists s'. split; [|apply closeWS_heap].
    pose proof (handleFrame_heap env s c f Hinv) as Hh. by rewrite Hf in Hh.
  - apply Hone, closeWS_heap.
  - apply Hone, handlePong_heap.
  - apply Hone. by eapply heap_step_ext; [| |apply (joinTimeout_heap s t)].
  - apply Hsame, relayDatagram_heap.
Qed.

Lemma session_step_inv s out s' : sessions_inv s -> session_step s out s' -> sessions_inv s'.
Proof.
  intros Hinv (s1 & H1 & H2)%(session_step_heap s out s' Hinv).
  eauto using heap_step_inv.
Qed.

Lemma session_run_inv s s' : sessions_inv s -> session_run s s' -> sessions_inv s'.
Proof.
  intros Hinv Hrun. induction Hrun as [|s0 s1 s2 [out Hstep] _ IH]; [done|].
  eauto using session_step_inv.
Qed.

(** C10. From a hub with no machines, whatever connections open, send, time out and close: the
    session table of every machine is keyed by the sessions' own IDs, the live sessions of a
    machine have pairwise different indexes, and each index is an octet from 1 to 254, as the
    10.77.idx.0/24 addressing of the tunnels needs. *)
Theorem session_indexes_reachable s0 s p e :
  ss_heap s0 = ∅ -> session_run s0 s -> ss_heap s !! p = Some e -> entry_inv e.
Proof.
  intros H0 Hrun. revert p e. apply (session_run_inv s0 s); [|done].
  intros p e. by rewrite H0, lookup_empty.
Qed.

(** *** Indexes are not given out again *)

(** A later entry: the counter is no smaller, and what it has below the earlier counter it had then. *)
Definition later (e e' : machineEntry) : Prop :=
  (me_NextIdx e <= me_NextIdx e')%Z /\
  forall sid cs', me_Sessions e' !! sid = Some cs' -> (cs_SessionIdx cs' <= me_NextIdx e)%Z ->
    exists cs, me_Sessions e !! sid = Some cs /\ cs_SessionIdx cs = cs_SessionIdx cs'.

Lemma later_refl e : later e e.
Proof. split; [lia|]. intros sid cs Hc _. by exists cs. Qed.

Lemma later_trans e1 e2 e3 : later e1 e2 -> later e2 e3 -> later e1 e3.
Proof.
  intros [Hn1 H1] [Hn2 H2]. split; [lia|]. intros sid cs3 H3 Hle.
  destruct (H2 sid cs3 H3) as (cs2 & Hc2 & E2); [lia|].
  destruct (H1 sid cs2 Hc2) as (cs1 & Hc1 & E1); [lia|]. exists cs1. split; [done|congruence].
Qed.

Lemma kept_or_grown_later e e' : kept e e' \/ grown e e' -> later e e'.
Proof.
  intros [[Hn Hk]|(_ & Hn & sid & cs & Hs & _ & Hidx)]; (split; [lia|]).
  - intros sid cs' (cs & Hc & _ & E)%Hk _. by exists cs.
  - rewrite Hs. intros k c [[<- <-]|[_ Hk]]%lookup_insert_Some Hle; [lia|by exists c].
Qed.

Lemma heap_step_later s s' p e :
  heap_step s s' -> ss_heap s !! p = Some e -> exists e', ss_heap s' !! p = Some e' /\ later e e'.
Proof.
  intros Hstep Hp. specialize (Hstep p). rewrite Hp in Hstep.
  destruct (ss_heap s' !! p) as [e'|]; [|done]. exists e'. split; [done|].
  by apply kept_or_grown_later.
Qed.

Lemma session_run_later s s' p e :
  sessions_inv s -> session_run s s' -> ss_heap s !! p = Some e ->
  exists e', ss_heap s' !! p = Some e' /\ later e e'.
Proof.
  intros Hinv Hrun. revert Hinv e.
  induction Hrun as [s|s s1 s2 [out Hstep] _ IH]; intros Hinv e Hp.
  { exists e. split; [done|apply later_refl]. }
  destruct (session_step_heap _ _ _ Hinv Hstep) as (sm & Hm1 & Hm2).
  destruct (heap_step_later _ _ _ _ Hm1 Hp) as (em & Hpm & Hlm).
  destruct (heap_step_later _ _ _ _ Hm2 Hpm) as (e1 & Hp1 & Hl1).
  destruct (IH (session_step_inv _ _ _ Hinv Hstep) e1 Hp1) as (e2 & Hp2 & Hl2).
  exists e2. split; [done|]. eauto using later_trans.
Qed.

(** The index of a session is never given to another session of the machine: in every later
    state of the hub the machine still has its entry, its counter has not gone back, and a session
    with an index up to the earlier counter is one that already had that index then, under the same
    session ID. *)
Theorem session_index_not_reused s s' p e :
  sessions_inv s -> session_run s s' -> ss_heap s !! p = Some e ->
  exists e', ss_heap s' !! p = Some e' /\ (me_NextIdx e <= me_NextIdx e')%Z /\
    forall sid cs', me_Sessions e' !! sid = Some cs' -> (cs_SessionIdx cs' <= me_NextIdx e)%Z ->
      exists cs, me_Sessions e !! sid = Some cs /\ cs_SessionIdx cs = cs_SessionIdx cs'.
Proof.
  intros Hinv Hrun Hp. destruct (session_run_later _ _ _ _ Hinv Hrun Hp) as (e' & Hp' & Hn & Hs).
  exists e'. done.
Qed.

(** A machine that has had 254 sessions accepts no other while its entry lives, however few of
    them are left. *)
Theorem exhausted_machine_refuses s s' p e env c state msg key e' :
  sessions_inv s -> ss_heap s !! p = Some e -> me_NextIdx e = 254%Z -> session_run s s' ->
  resolveName s' (sm_MachineID msg) = Some (key, p, e') ->
  ss_heap (snd (handleConnect bridgeDir env s' c state msg)) = ss_heap s'.
Proof.
  intros Hinv Hp Hn Hrun Hr.
  destruct (session_run_later _ _ _ _ Hinv Hrun Hp) as (e2 & Hp2 & Hle & _).
  pose proof (resolveName_Some _ _ _ _ _ Hr) as (_ & _ & Hp'). assert (e2 = e') as -> by congruence.
  unfold handleConnect. cbv zeta. unfold resolveName, lookup_entry in *. cbn. rewrite Hr.
  destruct (me_ControlWS e'); [|done]. destruct (connectAuth _ _ _ _); try done.
  destruct (Z.leb_spec 254 (me_NextIdx e')); [done|lia].
Qed.
End steps.
