(* ===== verification/SessionProtocol.v ===== *)
(** * What the session handlers guarantee

    Who is let through to a machine, the handshake that pairs a client with an agent, and what is
    left after either of them, or a stale registration, goes away. *)

From S2P Require Import Prelude Auth Http HubConfig Relay SessionState Bridge Session UdpRelay SessionInvariant.
From Stdlib Require Import ZArith Lia Ascii String.
From stdpp Require Import base gmap strings list fin_maps.

(** ** Lemmas on the parts *)

Lemma lookup_update_ws s o f d :
  ss_wsStates (update_ws s o f) !! d =
  (if decide (o = Some d) then f <$> ss_wsStates s !! d else ss_wsStates s !! d).
Proof.
  unfold update_ws. destruct o as [c|]; [|done]. destruct (decide (Some c = Some d)) as [[= <-]|Hn].
  - destruct (ss_wsStates s !! c) as [w|] eqn:E; [|by rewrite E].
    cbn. by rewrite lookup_insert_eq.
  - destruct (ss_wsStates s !! c); [|done]. cbn. by rewrite lookup_insert_ne by congruence.
Qed.

Lemma update_ws_same s c f :
  ss_machines (update_ws s c f) = ss_machines s /\
  ss_machinesByName (update_ws s c f) = ss_machinesByName s /\
  ss_machinesByRegID (update_ws s c f) = ss_machinesByRegID s /\
  ss_udpSessions (update_ws s c f) = ss_udpSessions s /\
  ss_timers (update_ws s c f) = ss_timers s.
Proof. unfold update_ws. by repeat case_match. Qed.

Lemma cleanupSession_same s sess :
  ss_machines (cleanupSession s sess) = ss_machines s /\
  ss_machinesByName (cleanupSession s sess) = ss_machinesByName s /\
  ss_machinesByRegID (cleanupSession s sess) = ss_machinesByRegID s /\
  ss_timers (cleanupSession s sess) = ss_timers s.
Proof.
  unfold cleanupSession.
  destruct (update_ws_same (update_ws (with_udp s (fold_left (fun u t => delete t u)
    (cs_UDPTokens sess) (ss_udpSessions s))) (cs_AgentWS sess) unpair_ws)
    (cs_ClientWS sess) unpair_ws) as (-> & -> & -> & _ & ->).
  by destruct (update_ws_same (with_udp s (fold_left (fun u t => delete t u)
    (cs_UDPTokens sess) (ss_udpSessions s))) (cs_AgentWS sess) unpair_ws) as (-> & -> & -> & _ & ->).
Qed.

Lemma lookup_delete_tokens {V} (l : list string) (u : gmap string V) t :
  fold_left (fun u t => delete t u) l u !! t = if decide (t ∈ l) then None else u !! t.
Proof.
  revert u. induction l as [|k l IH]; intros u; cbn [fold_left].
  { by rewrite decide_False by apply not_elem_of_nil. }
  rewrite IH. destruct (decide (t ∈ l)); [by rewrite decide_True by (by right)|].
  destruct (decide (t = k)) as [->|Hn].
  - by rewrite lookup_delete_eq, decide_True by left.
  - by rewrite lookup_delete_ne, decide_False by (rewrite ?elem_of_cons; naive_solver).
Qed.

Lemma cleanupSession_udp s sess t :
  ss_udpSessions (cleanupSession s sess) !! t =
  if decide (t ∈ cs_UDPTokens sess) then None else ss_udpSessions s !! t.
Proof.
  unfold cleanupSession.
  edestruct update_ws_same as (_ & _ & _ & -> & _). edestruct update_ws_same as (_ & _ & _ & -> & _).
  cbn. apply lookup_delete_tokens.
Qed.

Definition unpaired (s : sessions) (c : conn) : Prop :=
  forall w, ss_wsStates s !! c = Some w -> ws_Paired w = false /\ ws_Peer w = None.

Lemma cleanupSession_ws s sess c :
  ss_wsStates (cleanupSession s sess) !! c =
  if decide (cs_AgentWS sess = Some c \/ cs_ClientWS sess = Some c)
  then unpair_ws <$> ss_wsStates s !! c else ss_wsStates s !! c.
Proof.
  assert (forall w, unpair_ws (unpair_ws w) = unpair_ws w) as Hidem by done.
  unfold cleanupSession. rewrite !lookup_update_ws. cbn [ss_wsStates with_udp].
  repeat case_decide; try naive_solver. by destruct (ss_wsStates s !! c).
Qed.

Lemma cleanupSession_unpaired s sess c :
  cs_AgentWS sess = Some c \/ cs_ClientWS sess = Some c -> unpaired (cleanupSession s sess) c.
Proof.
  intros Hc w. rewrite cleanupSession_ws, decide_True by done.
  destruct (ss_wsStates s !! c); [|done]. cbn. intros [= <-]. done.
Qed.

Lemma cleanupSession_keeps_unpaired s sess c : unpaired s c -> unpaired (cleanupSession s sess) c.
Proof.
  intros Hu w. rewrite cleanupSession_ws. case_decide; [|apply Hu].
  destruct (ss_wsStates s !! c); [|done]. cbn. intros [= <-]. done.
Qed.

(** ** Dropping the sessions of a machine *)

Section dropped.
  Context `{RangeOrder} {A : Type}.

Lemma dropSessions_same s l :
  ss_machines (snd (dropSessions s l)) = ss_machines s /\
  ss_machinesByName (snd (dropSessions s l)) = ss_machinesByName s.
Proof.
  revert s. induction l as [|[sid sess] l IH]; intros s; [done|]. cbn.
  destruct (IH (cleanupSession s sess)) as [E1 E2].
  destruct (dropSessions (cleanupSession s sess) l) as [out s']. cbn in *.
  rewrite E1, E2. by destruct (cleanupSession_same s sess) as (-> & -> & _).
Qed.

Lemma dropSessions_keeps_unpaired s l c :
  unpaired s c -> unpaired (snd (dropSessions s l)) c.
Proof.
  revert s. induction l as [|[sid sess] l IH]; intros s Hu; [done|]. cbn.
  pose proof (IH _ (cleanupSession_keeps_unpaired s sess c Hu)) as IH'.
  by destruct (dropSessions _ l).
Qed.

Lemma dropSessions_udp_gone s l t :
  ss_udpSessions s !! t = None -> ss_udpSessions (snd (dropSessions s l)) !! t = None.
Proof.
  revert s. induction l as [|[sid sess] l IH]; intros s Hu; [done|]. cbn.
  assert (ss_udpSessions (cleanupSession s sess) !! t = None) as Hc.
  { rewrite cleanupSession_udp. by case_decide. }
  specialize (IH _ Hc). by destruct (dropSessions _ l).
Qed.

Lemma dropSessions_ends s l sid sess :
  (sid, sess) ∈ l ->
  (forall t, t ∈ cs_UDPTokens sess -> ss_udpSessions (snd (dropSessions s l)) !! t = None) /\
  (forall c, cs_AgentWS sess = Some c \/ cs_ClientWS sess = Some c ->
     unpaired (snd (dropSessions s l)) c /\ CloseConn c ∈ fst (dropSessions s l)).
Proof.
  revert s. induction l as [|[k x] l IH]; intros s Hin; [by apply elem_of_nil in Hin|].
  apply elem_of_cons in Hin as [[= <- <-]|Hin]; cbn.
  - pose proof (dropSessions_udp_gone (cleanupSession s sess) l) as Hu.
    pose proof (dropSessions_keeps_unpaired (cleanupSession s sess) l) as Hk.
    destruct (dropSessions (cleanupSession s sess) l) as [out s']. cbn in *. split.
    + intros t Ht. apply Hu. by rewrite cleanupSession_udp, decide_True.
    + intros c Hc. split; [by apply Hk, cleanupSession_unpaired|].
      unfold closeClient, closeAgent. destruct Hc as [-> | ->]; set_solver.
  - destruct (IH (cleanupSession s x) Hin) as [H1 H2].
    destruct (dropSessions (cleanupSession s x) l) as [out s']. cbn in *. split; [done|].
    intros c Hc. destruct (H2 c Hc). split; [done|]. rewrite !elem_of_app. by right; right.
Qed.
End dropped.

(** ** Who gets through *)

(** Between two states only the state of the connection [c] differs, and not its pairing: no machine
    entry, machine key or name, no UDP token, no timer and no other connection. *)
Definition only_own (c : conn) (state : wsState) (s s' : sessions) : Prop :=
  s' = with_ws s (ss_wsStates s') /\
  (forall d, d <> c -> ss_wsStates s' !! d = ss_wsStates s !! d) /\
  (ss_wsStates s' !! c = ss_wsStates s !! c \/
   exists w, ss_wsStates s' !! c = Some w /\ ws_Paired w = ws_Paired state /\ ws_Peer w = ws_Peer state /\
     ws_SessionID w = ws_SessionID state).

(** The message of a connection is refused: the reason and the close of that connection are all that is
    sent, nothing else is closed, and nothing but the state of that connection is changed. *)
Definition refusals : list string :=
  ["Access denied"; "Invalid token"; "Machine not found"; "register: agentId is required"].
Definition refused (c : conn) (state : wsState) (s s' : sessions) (out : list output) : Prop :=
  (exists reason, reason ∈ refusals /\ out = sendError c reason) /\ only_own c state s s'.

(** What the hub checks of a connect, for local and bridged machines alike. *)
Definition connectPolicy `{Authorizer A} (env : senv A) (s : sessions) (msg : signalingMsg) : Prop :=
  if az_enabled (se_auth env)
  then az_canConnect (se_auth env) (se_now env) (sm_Token msg) (sm_MachineID msg) = true
  else forall key p e, resolveName s (sm_MachineID msg) = Some (key, p, e) ->
         me_Token e = "" \/ me_Token e = sm_Token msg.

Lemma only_own_refl c state s : only_own c state s s.
Proof. split; [by destruct s|]. split; [done|by left]. Qed.

Lemma only_own_set c state s s' w :
  ws_Paired w = ws_Paired state -> ws_Peer w = ws_Peer state -> ws_SessionID w = ws_SessionID state ->
  only_own c state s s' -> only_own c state s (set_ws s' c w).
Proof.
  intros H1 H2 H3 (Hs & Ho & _). split; [|split].
  - rewrite Hs. done.
  - intros d Hd. cbn. rewrite lookup_insert_ne by done. by apply Ho.
  - right. exists w. cbn. by rewrite lookup_insert_eq.
Qed.

Lemma refused_with c state s s' reason :
  reason ∈ refusals -> only_own c state s s' -> refused c state s s' (sendError c reason).
Proof. intros Hr Hs. split; [by eexists|done]. Qed.

Lemma connectAuth_Allowed `{Authorizer A} (env : senv A) e token name :
  connectAuth env e token name = Allowed ->
  if az_enabled (se_auth env) then az_canConnect (se_auth env) (se_now env) token name = true
  else me_Token e = "" \/ me_Token e = token.
Proof.
  unfold connectAuth. destruct (az_enabled _); [by destruct (az_canConnect _ _ _ _)|].
  destruct (bool_decide_reflect (me_Token e = "")); [by left|].
  destruct (bool_decide_reflect (me_Token e = token)); [by right|done].
Qed.

Section protocol.
  Context `{HR : RangeOrder} `{HA : Authorizer A} (bridgeDir : gmap string bridgeConfig).
  Implicit Types (env : senv A).

Lemma admitted (P : Prop) (R : list output -> sessions -> Prop) x : P -> let '(out, s') := x in P \/ R out s'.
Proof. destruct x. by left. Qed.

(** A branch that refuses. *)
Ltac refused_here :=
  apply refused_with;
  [refine (bool_decide_unpack _ _); vm_compute; exact I
  |repeat first [apply only_own_refl | apply only_own_set; [reflexivity..|]]].

Lemma connect_admitted_or_refused env s c state msg :
  let '(out, s') := handleConnect bridgeDir env s c state msg in
  connectPolicy env s msg \/ refused c state s s' out.
Proof.
  unfold handleConnect, connectPolicy. cbv zeta.
  assert (forall w, resolveName (set_ws s c w) (sm_MachineID msg) = resolveName s (sm_MachineID msg))
    as -> by done.
  destruct (resolveName s _) as [[[key p] e]|].
  - destruct (me_ControlWS e); [|right; refused_here].
    destruct (connectAuth _ _ _ _) eqn:Ha; [|right; refused_here..].
    apply connectAuth_Allowed in Ha. apply admitted. destruct (az_enabled _); [done|].
    by intros ? ? ? [= <- <- <-].
  - destruct (bridgeDir !! _) as [bc|]; [|right; refused_here].
    unfold handleBridgeConnect. destruct (az_enabled _); [|by apply admitted].
    destruct (az_canConnect _ _ _ _); cbn [negb andb]; [by apply admitted|right; refused_here].
Qed.

(** C11. A connect gets past the hub's policy or nowhere: on an enforcing hub [canConnect] admits its
    token to the machine it names, on an open hub the token is the one the agent registered with, when
    there is one; or else the connect is answered with the reason and the close of its own connection,
    nothing else is sent or closed, and no machine entry, key or name, UDP token, timer, pairing or
    other connection is changed. *)
Theorem connect_authorised env s c state msg :
  let '(out, s') := handleConnect bridgeDir env s c state msg in
  connectPolicy env s msg \/ refused c state s s' out.
Proof. apply connect_admitted_or_refused. Qed.

(** Against the interface: on an enforcing hub a connect or a registration with a token the store
    does not know alive is refused. *)
Lemma dead_token_refused env s c state msg :
  az_enabled (se_auth env) = true -> az_live (se_auth env) (se_now env) (sm_Token msg) = false ->
  refused c state s (snd (handleConnect bridgeDir env s c state msg))
    (fst (handleConnect bridgeDir env s c state msg)) /\
  refused c state s (snd (handleRegister env s c state msg)) (fst (handleRegister env s c state msg)).
Proof.
  intros Hen Hdead. split.
  - pose proof (connect_admitted_or_refused env s c state msg) as Hc.
    destruct (handleConnect _ _ _ _ _ _) as [out s']. destruct Hc as [Hp|?]; [|done].
    unfold connectPolicy in Hp. rewrite Hen in Hp. by rewrite (proj1 (az_dead _ _ _ _ Hen Hdead)) in Hp.
  - unfold handleRegister. rewrite Hen, (proj2 (az_dead _ _ _ _ Hen Hdead)). cbn [negb andb].
    case_bool_decide; cbn [fst snd]; refused_here.
Qed.

(** ** Pairing *)

(** The two ends of a session relay to each other. *)
Definition paired (s : sessions) (a b : conn) : Prop :=
  exists wa wb, ss_wsStates s !! a = Some wa /\ ss_wsStates s !! b = Some wb /\
    ws_Paired wa = true /\ ws_Peer wa = Some b /\ ws_Paired wb = true /\ ws_Peer wb = Some a.

Lemma pairSession_spec env s key p e sess a c wc :
  cs_AgentWS sess = Some a -> cs_ClientWS sess = Some c -> a <> c ->
  is_Some (ss_wsStates s !! a) -> ss_wsStates s !! c = Some wc ->
  let ta := hexText (se_rand1 env) in let tc := hexText (se_rand2 env) in
  exists out s', pairSession env s key p e sess = (out, s') /\
    paired s' a c /\ (ta <> tc -> udp_linked s' key (se_now env) a c ta tc) /\
    ss_heap s' !! p = Some (with_Sessions e
      (<[cs_SessionID sess := with_UDPTokens sess [ta; tc]]> (me_Sessions e))) /\
    Send a (MSessionStart (ws_WGPubKey wc)) ∈ out /\ Send c (MReady (cs_SessionIdx sess)) ∈ out /\
    Send a (MUdpOffer ta) ∈ out /\ Send c (MUdpOffer tc) ∈ out.
Proof.
  intros Ha Hc Hne [wa Hwa] Hwc ta tc. do 2 eexists. split; [apply surjective_pairing|].
  unfold pairSession. cbv zeta. rewrite Ha, Hc.
  set (s1 := update_ws (update_ws s (Some a) (pair_ws c)) (Some c) (pair_ws a)).
  assert (ss_wsStates s1 !! c = Some (pair_ws a wc)) as Hc1.
  { unfold s1. by rewrite !lookup_update_ws, Hwc, decide_True, decide_False by congruence. }
  assert (ss_wsStates s1 !! a = Some (pair_ws c wa)) as Ha1.
  { unfold s1. by rewrite !lookup_update_ws, Hwa, decide_False, decide_True by congruence. }
  rewrite Hc1. set (d := sessionDetailFrom _ _).
  set (s2 := update_ws (update_ws s1 _ _) _ _).
  assert (ss_wsStates s2 !! c = Some (detail_ws d (pair_ws a wc))) as Hc2.
  { unfold s2. by rewrite !lookup_update_ws, Hc1, decide_False, decide_True by congruence. }
  assert (ss_wsStates s2 !! a = Some (detail_ws d (pair_ws c wa))) as Ha2.
  { unfold s2. by rewrite !lookup_update_ws, Ha1, decide_True, decide_False by congruence. }
  rewrite Hc2. cbn [fst snd]. split_and!.
  - do 2 eexists. by cbn [ss_wsStates set_entry with_heap with_udp].
  - intros Hn. split; cbn; [by rewrite lookup_insert_ne, lookup_insert_eq by done|].
    by rewrite lookup_insert_eq.
  - cbn. by rewrite lookup_insert_eq.
  - set_solver.
  - set_solver.
  - set_solver.
  - set_solver.
Qed.

(** The frames of a paired connection go to its peer, one hop fewer. *)
Lemma paired_relays env s a b f d :
  paired s a b -> wf_binary f = true -> ForwardFrame (wf_data f) DefaultMaxHops = Some d ->
  handleFrame bridgeDir env s a f = ([Send b (MRaw true d)], s, true) /\
  handleFrame bridgeDir env s b f = ([Send a (MRaw true d)], s, true).
Proof.
  intros (wa & wb & Ha & Hb & Hpa & Hqa & Hpb & Hqb) Hf Hd.
  assert (badFrame (wf_data f) = false) as Hbad.
  { unfold ForwardFrame in Hd. by destruct (badFrame _). }
  unfold handleFrame. by rewrite Ha, Hb, Hpa, Hpb, Hf, Hbad, Hd, Hqa, Hqb.
Qed.

(** C13. The handshake: an admitted connect asks the agent for one session with the next index; once
    a connection joins under that session's ID, it and the client are paired with each other, the
    agent side learns the client's key and the client its index, their UDP tokens name each other,
    every good frame of one is relayed to the other, and the join timer finds nothing to do. *)
Theorem handshake_pairs env env' s c wc cm key p e control a wa jm f d :
  let sid := hexText (se_rand1 env) in
  let ta := hexText (se_rand1 env') in let tc := hexText (se_rand2 env') in
  resolveName s (sm_MachineID cm) = Some (key, p, e) -> me_ControlWS e = Some control ->
  connectAuth env e (sm_Token cm) (sm_MachineID cm) = Allowed -> (me_NextIdx e < 254)%Z ->
  sm_MachineID jm = sm_MachineID cm -> sm_SessionID jm = sid -> a <> c -> ta <> tc ->
  wf_binary f = true -> ForwardFrame (wf_data f) DefaultMaxHops = Some d ->
  let '(out, s1) := handleConnect bridgeDir env s c wc cm in
  let '(out', s2) := handleSessionJoin env' s1 a wa jm in
  out = [Send control (MSessionRequest sid (sm_WGPubKey cm) (me_NextIdx e + 1))] /\
  paired s2 a c /\ udp_linked s2 key (se_now env') a c ta tc /\
  Send a (MSessionStart (sm_WGPubKey cm)) ∈ out' /\ Send c (MReady (me_NextIdx e + 1)) ∈ out' /\
  handleFrame bridgeDir env' s2 a f = ([Send c (MRaw true d)], s2, true) /\
  handleFrame bridgeDir env' s2 c f = ([Send a (MRaw true d)], s2, true) /\
  joinTimeout s2 (JoinTimer p key sid) = ([], s2).
Proof.
  intros sid ta tc Hr Hctl Hauth Hn Hm Hs Hac Htok Hf Hd.
  unfold handleConnect. cbv zeta.
  assert (forall s', ss_heap s' = ss_heap s -> ss_machines s' = ss_machines s ->
    ss_machinesByName s' = ss_machinesByName s -> resolveName s' (sm_MachineID cm) = Some (key, p, e)) as Hres.
  { intros s' E1 E2 E3. unfold resolveName, lookup_entry in *. by rewrite E1, E2, E3. }
  rewrite Hres, Hctl, Hauth by done. destruct (Z.leb_spec 254 (me_NextIdx e)); [lia|].
  unfold handleSessionJoin. cbv zeta. rewrite Hm, Hs. fold sid.
  set (e1 := with_NextIdx _ _).
  match goal with |- context [resolveName ?x (sm_MachineID cm)] =>
    assert (resolveName x (sm_MachineID cm) = Some (key, p, e1)) as -> end.
  { pose proof (resolveName_Some _ _ _ _ _ Hr) as (Hk & Hne & _).
    unfold resolveName, lookup_entry in *. cbn in *. rewrite Hk in *. cbn in *.
    rewrite bool_decide_false in * by done.
    destruct (ss_machines s !! key) as [q|]; [|done]. cbn in *.
    destruct (ss_heap s !! q); [|done]. cbn in *. injection Hr as -> _. by rewrite lookup_insert_eq. }
  cbn [me_Sessions with_NextIdx with_Sessions e1]. rewrite lookup_insert_eq.
  cbn [with_AgentWS cs_ClientWS].
  match goal with |- context [pairSession env' ?s1 key p ?e2 ?cs] =>
    edestruct (pairSession_spec env' s1 key p e2 cs a c) as (out & s2 & -> & Hp & Hu & Hh & O1 & O2 & _) end.
  all: try done.
  { eexists. cbn. by rewrite lookup_insert_eq. }
  { cbn. by rewrite !(lookup_insert_ne _ a c), lookup_insert_eq by done. }
  destruct (paired_relays env' s2 a c f d Hp Hf Hd) as [R1 R2].
  split_and!; try done; [by apply Hu|].
  unfold joinTimeout. cbn [jt_entry jt_sessionID]. rewrite Hh. cbn. by rewrite lookup_insert_eq.
Qed.
End protocol.

(** ** Going away *)

Section closing.
  Context `{HR : RangeOrder} `{HA : Authorizer A}.
  Implicit Types (env : senv A).

Lemma closeWS_ws_gone env s c : ss_wsStates (snd (closeWS env s c)) !! c = None.
Proof. unfold closeWS. destruct (handleDisconnect env s c). cbn. apply lookup_delete_eq. Qed.

(** When the current control connection of a machine closes, the machine is left with no
    control connection and no session, and nothing of its sessions survives: their UDP tokens are
    gone, and each client and agent connection of them is unpaired and closed. *)
Theorem agent_close_ends_sessions env s c w p e :
  ss_wsStates s !! c = Some w -> ws_Role w = "agent" -> ws_MachineID w <> "" ->
  lookup_entry s (ws_MachineID w) = Some (p, e) -> ws_ControlGen w = me_ControlGen e ->
  let '(out, s') := closeWS env s c in
  (exists e', lookup_entry s' (ws_MachineID w) = Some (p, e') /\ me_ControlWS e' = None /\
     me_Sessions e' = ∅ /\ me_NextIdx e' = me_NextIdx e) /\
  (forall sid sess, me_Sessions e !! sid = Some sess ->
     (forall t, t ∈ cs_UDPTokens sess -> ss_udpSessions s' !! t = None) /\
     (forall d, cs_AgentWS sess = Some d \/ cs_ClientWS sess = Some d ->
        unpaired s' d /\ CloseConn d ∈ out)).
Proof.
  intros Hw Hrole Hid Hl Hgen. unfold closeWS, handleDisconnect.
  rewrite Hw, Hrole, bool_decide_false, Hl, Hgen, Z.eqb_refl by done. cbn [negb].
  rewrite bool_decide_true by done.
  set (e' := with_Sessions _ ∅). set (s1 := set_entry s p e').
  pose proof (dropSessions_heap s1 (range (me_Sessions e))) as Hh.
  destruct (dropSessions_same s1 (range (me_Sessions e))) as [Hm _].
  assert (forall sid sess, me_Sessions e !! sid = Some sess -> (sid, sess) ∈ range (me_Sessions e)) as Hin.
  { intros sid sess. by rewrite elem_of_range. }
  pose proof (fun sid sess Hs => dropSessions_ends s1 (range (me_Sessions e)) sid sess (Hin sid sess Hs)) as He.
  destruct (dropSessions s1 _) as [out s2]. cbn in Hh, Hm, He |- *. split.
  - exists e'. split; [|done]. unfold lookup_entry in *. cbn. rewrite Hm, Hh.
    destruct (ss_machines s !! ws_MachineID w) as [q|]; [|done]. cbn in *.
    destruct (ss_heap s !! q); [|done]. cbn in Hl. injection Hl as <- _. by rewrite lookup_insert_eq.
  - intros sid sess Hs. destruct (He sid sess Hs) as [Hu Hc]. split; [done|].
    intros d Hd. destruct (Hc d Hd) as [Hun Hcl]. split.
    + intros x Hx. cbn in Hx. apply lookup_delete_Some in Hx as [_ Hx]. by apply Hun.
    + rewrite !elem_of_app. by left; right.
Qed.

(** When a client closes, exactly its session ends: it leaves the machine's table, the other
    sessions stay, its UDP tokens are gone and all others stay, and the agent's session connection
    is told, unpaired and closed. *)
Theorem client_close_ends_session env s c w p e sess a :
  ss_wsStates s !! c = Some w -> ws_Role w = "client" -> ws_MachineID w <> "" ->
  lookup_entry s (ws_MachineID w) = Some (p, e) -> me_Sessions e !! ws_SessionID w = Some sess ->
  cs_AgentWS sess = Some a ->
  let '(out, s') := closeWS env s c in
  ss_heap s' = <[p := with_Sessions e (delete (ws_SessionID w) (me_Sessions e))]> (ss_heap s) /\
  (forall t, ss_udpSessions s' !! t =
     if decide (t ∈ cs_UDPTokens sess) then None else ss_udpSessions s !! t) /\
  unpaired s' a /\ Send a MSessionEnd ∈ out /\ CloseConn a ∈ out /\ ss_wsStates s' !! c = None.
Proof.
  intros Hw Hrole Hid Hl Hs Ha. unfold closeWS, handleDisconnect.
  rewrite Hw, Hrole, bool_decide_false, Hl, Hs, Ha by done. split_and!.
  - cbn -[cleanupSession]. by rewrite cleanupSession_heap.
  - intros t. cbn -[cleanupSession]. by rewrite cleanupSession_udp.
  - intros x Hx. cbn in Hx. apply lookup_delete_Some in Hx as [_ Hx]. revert Hx. by apply cleanupSession_unpaired; left.
  - set_solver.
  - set_solver.
  - apply lookup_delete_eq.
Qed.



End closing.
