(* ===== verification/SessionE2E.v ===== *)
(** * A small hub evaluated, and relay and store together

    One agent and one client of an enforcing hub, from the registration to the close, on which the
    theorems of the session and UDP files are instantiated, and the corner cases of the code.

    The last part joins relay and store: a revoked token is cut off. *)

From S2P Require Import Prelude Auth Http HubConfig AdminState Relay CertPin SessionState Bridge UdpRelay Session.
From S2P Require Import SessionInvariant SessionProtocol AdminTokens.
From Stdlib Require Import ZArith Lia Ascii String.
From stdpp Require Import base gmap strings list fin_maps relations.

Definition ex_auth : authStore :=
  newAuthStore (Some (AuthConfig [row "agent" "at" ""; row "alice" "ct" ""]
    {["m" := MachineACL "at" [ConnectGrant "ct" []] []]})).

Definition sid8 : list Z := [1; 2; 3; 4; 5; 6; 7; 8]%Z.
Definition tokA : list Z := [10; 2; 3; 4; 5; 6; 7; 8]%Z.
Definition tokC : list Z := [11; 2; 3; 4; 5; 6; 7; 255]%Z.

Definition ex_peer : bridgePeer :=
  BridgePeer true (ConnectionState [] []) 9 true
    [WsFrame false [] None (BodyJson (JObj [("type", JStr "ready"); ("sessionIdx", JNum 3)]))].
(** [r1] and [r2] are the two random draws of the handler that runs. *)
Definition ex_env (now : Z) (r1 r2 : list Z) : senv authStore :=
  SEnv now ex_auth (UpdateConfig "" ∅) "uuid-1" r1 r2 ex_peer.

Definition ex_msg (type machineID name agentID regID token sessionID : string) : signalingMsg :=
  SignalingMsg type 1 machineID name agentID regID token "wg-key" None [] "" "" "" "" None "" "" sessionID
    None "".
Definition text (msg : signalingMsg) : wsFrame := WsFrame false [] (Some msg) BodyEmpty.

Definition regMsg := ex_msg "register" "" "m" "A" "r1" "at" "".
Definition connectMsg := ex_msg "connect" "m" "" "" "" "ct" "".
Definition joinMsg := ex_msg "session-join" "m" "" "" "" "" (hexText sid8).

Definition noBridges : gmap string bridgeConfig := ∅.

(** The states: connections 1 (agent control), 2 (client) and 3 (agent session). *)
Definition h0 : sessions := Sessions ∅ ∅ ∅ ∅ ∅ ∅ [].
Definition h1 : sessions := set_ws (set_ws (set_ws h0 1 newWsState) 2 newWsState) 3 newWsState.
Definition after (env : senv authStore) (s : sessions) (c : conn) (f : wsFrame) : sessions :=
  snd (fst (handleFrame noBridges env s c f)).
Definition h2 : sessions := after (ex_env 1 [] []) h1 1 (text regMsg).
Definition h3 : sessions := after (ex_env 2 sid8 []) h2 2 (text connectMsg).
Definition h4 : sessions := after (ex_env 3 tokA tokC) h3 3 (text joinMsg).

Definition entry_of (s : sessions) : machineEntry :=
  default (newEntry "" "" 0) (snd <$> lookup_entry s "A:m").
Definition ws_of (s : sessions) (c : conn) : wsState := default newWsState (ss_wsStates s !! c).

Lemma run_open bd c s s' :
  ss_wsStates s !! c = None -> session_run bd (set_ws s c newWsState) s' -> session_run bd s s'.
Proof. intros Hc. apply rtc_l. exists []. by constructor. Qed.

Lemma run_frame env c f s s' :
  isBridge s c = false -> snd (handleFrame noBridges env s c f) = true -> session_run noBridges (after env s c f) s' ->
  session_run noBridges s s'.
Proof.
  intros Hb Hk. apply rtc_l. exists (fst (fst (handleFrame noBridges env s c f))).
  apply (step_frame noBridges s env c f); [done|]. unfold after. rewrite <- Hk. by destruct (handleFrame _ _ _ _ _) as [[??] ?].
Qed.

Lemma ex_run : session_run noBridges h0 h4.
Proof.
  apply (run_open _ 1); [reflexivity|]. apply (run_open _ 2); [reflexivity|].
  apply (run_open _ 3); [reflexivity|]. apply (run_frame (ex_env 1 [] []) 1 (text regMsg)); [reflexivity..|].
  apply (run_frame (ex_env 2 sid8 []) 2 (text connectMsg)); [reflexivity..|].
  apply (run_frame (ex_env 3 tokA tokC) 3 (text joinMsg)); [reflexivity..|]. apply rtc_refl.
Qed.

Lemma session_indexes_reachable_witness :
  entry_inv (entry_of h4) /\
  cs_SessionIdx <$> me_Sessions (entry_of h4) !! hexText sid8 = Some 1%Z.
Proof.
  split; [|vm_compute; reflexivity].
  apply (session_indexes_reachable noBridges h0 h4 0); [reflexivity|exact ex_run|vm_compute; reflexivity].
Defined.

Lemma h0_inv : sessions_inv h0.
Proof. intros p e Hp. change ((∅ : gmap nat machineEntry) !! p = Some e) in Hp. by rewrite lookup_empty in Hp. Qed.

(** The client closes; the counter stays, the session is gone. *)
Definition h5 : sessions := snd (closeWS (ex_env 4 [] []) h4 2).

Lemma session_index_not_reused_witness :
  exists e', ss_heap h5 !! 0 = Some e' /\ me_Sessions e' = ∅ /\ (1 <= me_NextIdx e')%Z.
Proof.
  destruct (session_index_not_reused noBridges h4 h5 0 (entry_of h4)) as (e' & Hp & Hn & _).
  - exact (session_run_inv noBridges h0 h4 h0_inv ex_run).
  - apply rtc_once. exists (fst (closeWS (ex_env 4 [] []) h4 2)).
    exact (step_close noBridges h4 (ex_env 4 [] []) 2 eq_refl).
  - vm_compute. reflexivity.
  - exists e'. vm_compute in Hp. injection Hp as <-. split; [vm_compute; reflexivity|].
    split; [reflexivity|exact Hn].
Defined.

(** The token of another machine's client is refused; the client's own is admitted. *)
Definition strangerMsg : signalingMsg := ex_msg "connect" "m" "" "" "" "stranger" "".

Lemma connect_authorised_witness :
  refused 2 newWsState h2 (snd (handleConnect noBridges (ex_env 2 sid8 []) h2 2 newWsState strangerMsg))
    (fst (handleConnect noBridges (ex_env 2 sid8 []) h2 2 newWsState strangerMsg)) /\
  fst (handleConnect noBridges (ex_env 2 sid8 []) h2 2 newWsState connectMsg) =
    [Send 1 (MSessionRequest (hexText sid8) "wg-key" 1)].
Proof.
  split; [|vm_compute; reflexivity].
  pose proof (connect_authorised noBridges (ex_env 2 sid8 []) h2 2 newWsState strangerMsg) as Hc.
  destruct (handleConnect noBridges (ex_env 2 sid8 []) h2 2 newWsState strangerMsg) as [out s'].
  destruct Hc as [Hp|Hr]; [|exact Hr]. exfalso. vm_compute in Hp. discriminate Hp.
Defined.

Definition frame (hop : Z) : list Z := [84; hop; 0; 0; 0; 0; 1; 42]%Z.
Definition binary (data : list Z) : wsFrame := WsFrame true data None BodyEmpty.

Lemma handshake_pairs_witness :
  paired h4 3 2 /\ udp_linked h4 "A:m" 3 3 2 (hexText tokA) (hexText tokC) /\
  fst (fst (handleFrame noBridges (ex_env 3 tokA tokC) h4 2 (binary (frame 0)))) =
    [Send 3 (MRaw true (frame 7))].
Proof.
  pose proof (handshake_pairs noBridges (ex_env 2 sid8 []) (ex_env 3 tokA tokC) h2 2 newWsState connectMsg
    "A:m" 0 (entry_of h2) 1 3 newWsState joinMsg (binary (frame 0)) (frame 7)) as Hs.
  cbv zeta in Hs.
  destruct (handleConnect _ _ _ _ _ _) as [out s1] eqn:E1.
  destruct (handleSessionJoin _ _ _ _ _) as [out' s2] eqn:E2.
  assert (s2 = h4) as ->.
  { vm_compute in E1. injection E1 as _ <-. vm_compute in E2. injection E2 as _ <-. reflexivity. }
  destruct Hs as (_ & Hp & Hu & _ & _ & _ & Hf & _).
  1-10: vm_compute; first [reflexivity | discriminate].
  split; [exact Hp|]. split; [exact Hu|]. rewrite Hf. reflexivity.
Defined.

Lemma agent_close_ends_sessions_witness :
  let s' := snd (closeWS (ex_env 4 [] []) h4 1) in
  ss_udpSessions s' !! hexText tokA = None /\ ss_udpSessions s' !! hexText tokC = None /\
  CloseConn 2 ∈ fst (closeWS (ex_env 4 [] []) h4 1) /\ unpaired s' 3.
Proof.
  pose proof (agent_close_ends_sessions (ex_env 4 [] []) h4 1 (ws_of h4 1) 0 (entry_of h4)) as Hs.
  destruct (closeWS (ex_env 4 [] []) h4 1) as [out s']. cbv zeta.
  destruct Hs as (_ & Hs).
  1,4: vm_compute; reflexivity.
  1,2,3: vm_compute; first [reflexivity | discriminate].
  destruct (Hs (hexText sid8) (ClientSession (hexText sid8) 1 (Some 2) (Some 3)
    [hexText tokA; hexText tokC] 2)) as [Ht Hc]; [vm_compute; reflexivity|].
  cbn [fst snd]. split; [apply Ht; left|]. split; [apply Ht; right; left|].
  split; [apply Hc; right; reflexivity|apply Hc; left; reflexivity].
Defined.

Lemma client_close_ends_session_witness :
  ss_udpSessions h5 !! hexText tokA = None /\ unpaired h5 3 /\
  Send 3 MSessionEnd ∈ fst (closeWS (ex_env 4 [] []) h4 2).
Proof.
  pose proof (client_close_ends_session (ex_env 4 [] []) h4 2 (ws_of h4 2) 0 (entry_of h4)
    (ClientSession (hexText sid8) 1 (Some 2) (Some 3) [hexText tokA; hexText tokC] 2) 3) as Hs.
  unfold h5. destruct (closeWS (ex_env 4 [] []) h4 2) as [out s'].
  destruct Hs as (_ & Ht & Hu & Ho & _).
  1-6: vm_compute; first [reflexivity | discriminate].
  split; [rewrite Ht; reflexivity|]. split; [exact Hu|exact Ho].
Defined.



Lemma tokA_token : isToken tokA.
Proof.
  split; [reflexivity|]. repeat (apply Forall_cons_2; [unfold is_byte; lia|]). apply Forall_nil_2.
Qed.

Lemma tokC_token : isToken tokC.
Proof.
  split; [reflexivity|]. repeat (apply Forall_cons_2; [unfold is_byte; lia|]). apply Forall_nil_2.
Qed.

Lemma udp_relay_both_ways_witness :
  let s1 := snd (relayDatagram h4 "client:9" (tokC ++ probeWord)) in
  fst (relayDatagram s1 "agent:7" (tokA ++ frame 0)) = [SendUDP "client:9" (tokC ++ frame 7)].
Proof.
  pose proof (udp_relay_both_ways h4 "A:m" 3 3 2 tokA tokC "agent:7" "client:9" (frame 0) (frame 7)
    (frame 3) (frame 2) tokA_token tokC_token) as Hs. cbv zeta.
  destruct (relayDatagram h4 "client:9" (tokC ++ probeWord)) as [out1 s1].
  cbn [snd]. destruct (relayDatagram s1 "agent:7" (tokA ++ frame 0)) as [out2 s2].
  destruct (relayDatagram s2 "client:9" (tokC ++ frame 3)) as [out3 s3].
  destruct Hs as (_ & -> & _).
  - discriminate.
  - split; vm_compute; reflexivity.
  - reflexivity.
  - reflexivity.
  - reflexivity.
Defined.

Definition stray : list output * sessions := relayDatagram h4 "x:1" (sid8 ++ frame 0).

Lemma udp_relay_isolated_witness : fst stray = [] /\ snd stray = h4.
Proof.
  destruct (udp_relay_isolated h4 "x:1" (sid8 ++ frame 0) (fst stray) (snd stray) (surjective_pairing _))
    as [(Ho & Hs & _)|(u & Hu & _)]; [split; [exact Ho|exact Hs]|].
  vm_compute in Hu. discriminate Hu.
Defined.

(** ** Corner cases *)

Definition tenMinutes : Z := 600000000000.

Definition open_env (now : Z) (r1 r2 : list Z) : senv authStore :=
  SEnv now (newAuthStore None) (UpdateConfig "" ∅) "uuid-1" r1 r2 ex_peer.

(** The agent comes back under a new name with the same registration: the session lives on in the
    renamed entry and still holds its UDP tokens, and the reaper removes both. *)
Example renamed_session_tokens_reaped :
  let s1 := snd (handleRegister (open_env 5 [] []) (set_ws h4 4 newWsState) 4 newWsState
                   (ex_msg "register" "" "m2" "A" "r1" "at" "")) in
  let s2 := reapUDP tenMinutes s1 in
  let e := default (newEntry "" "" 0) (snd <$> lookup_entry s2 "A:m2") in
  cs_UDPTokens <$> me_Sessions e !! hexText sid8 = Some [hexText tokA; hexText tokC] /\
  ss_udpSessions s2 = ∅.
Proof. vm_compute. done. Qed.

(** A live bridged session: its token goes at the first tick after five minutes. *)
Example bridge_token_reaped :
  let dir := {["far" := BridgeConfig "hub2" "wss://hub2" "bt" "" 0 ["far"]]} in
  let s1 := snd (handleConnect dir (open_env 5 sid8 tokC) h1 2 newWsState
                   (ex_msg "connect" "far" "" "" "" "ct" "")) in
  ws_Paired (ws_of s1 2) = true /\ ws_Peer (ws_of s1 2) = Some 9 /\
  is_Some (ss_udpSessions s1 !! hexText tokC) /\
  ss_udpSessions (reapUDP tenMinutes s1) !! hexText tokC = None.
Proof. vm_compute. repeat split. by eexists. Qed.

(** A second connect on the same connection starts a second session; the close ends only that one. *)
Example second_connect_outlives_close :
  let s1 := after (ex_env 2 tokA []) h3 2 (text connectMsg) in
  let s2 := snd (closeWS (ex_env 4 [] []) s1 2) in
  size (me_Sessions (entry_of s1)) = 2 /\ is_Some (me_Sessions (entry_of s2) !! hexText sid8) /\
  ss_wsStates s2 !! 2 = None.
Proof. vm_compute. repeat split. by eexists. Qed.

(** The echo of an agent's frame when the client has not probed. *)
Example echo_evaluated :
  fst (relayDatagram h4 "agent:7" (tokA ++ frame 0)) = [Send 3 (MRaw true (frame 7))].
Proof. vm_compute. done. Qed.

(** * From the admin API to the relay

    What an administrative operation means for the connections that come after it: the store the
    admin handlers leave behind is the one the session handlers ask. *)

(** C12. A revoked token is cut off at once: after a served revocation, whenever and on whatever
    connection the token comes in, a connect (to a local or a bridged machine) and a registration
    with it are answered with the reason and the close of that connection, nothing else is sent or
    closed, and no machine entry, machine key or name, UDP token, timer, pairing or other connection is
    changed. *)
Theorem revoked_token_cut_off `{RangeOrder} aenv st r id resp st' i e
    (bridgeDir : gmap string bridgeConfig) (env : senv authStore) s c state msg :
  adminRevokeToken aenv st r id = (resp, st') -> status resp = 200%Z ->
  (forall t, body resp <> PAlreadyRevoked id t) ->
  NoDup (te_Token <$> cfg_tokens st) -> findTokenEntryInCfg st id = Some (i, e) ->
  se_auth env = globalAuth st' -> sm_Token msg = te_Token e ->
  refused c state s (snd (handleConnect bridgeDir env s c state msg))
    (fst (handleConnect bridgeDir env s c state msg)) /\
  refused c state s (snd (handleRegister env s c state msg)) (fst (handleRegister env s c state msg)).
Proof.
  intros Hrun Hs Hb Hnd Hf Hauth Htok.
  destruct (revoke_kills _ _ _ _ _ _ _ _ Hrun Hs Hb Hnd Hf) as (Hen & _ & Hk).
  apply dead_token_refused; rewrite Hauth; [done|]. rewrite Htok. cbn.
  apply not_true_iff_false. rewrite valid_iff. intros [x Hx]. by apply (Hk (se_now env) x).
Qed.

(** The owner revokes alice; her next connect to a registered machine is refused. *)
Definition revoked : response * hubState :=
  adminRevokeToken (env_at 5) (hub_of [row "boss" "boss-token" "owner"; row "alice" "ct" ""]
    {["m" := MachineACL "" [ConnectGrant "ct" []] []]})
    (request_of "POST" "" "boss-token" "" BodyEmpty) "alice".
Definition revoked_env : senv authStore :=
  SEnv 7 (globalAuth (snd revoked)) (UpdateConfig "" ∅) "uuid-1" sid8 [] ex_peer.

Lemma revoked_token_cut_off_witness :
  refused 2 newWsState h2 (snd (handleConnect noBridges revoked_env h2 2 newWsState connectMsg))
    (fst (handleConnect noBridges revoked_env h2 2 newWsState connectMsg)) /\
  fst (handleConnect noBridges revoked_env h2 2 newWsState connectMsg) = sendError 2 "Access denied".
Proof.
  split; [|vm_compute; reflexivity].
  refine (proj1 (revoked_token_cut_off (env_at 5) _ _ "alice" (fst revoked) (snd revoked) 1
    (row "alice" "ct" "") noBridges revoked_env h2 2 newWsState connectMsg
    (surjective_pairing _) _ _ _ _ eq_refl eq_refl)).
  - vm_compute. reflexivity.
  - intros t. vm_compute. discriminate.
  - refine (bool_decide_unpack _ _). vm_compute. exact I.
  - reflexivity.
Defined.
