(* ===== verification/PortalE2E.v ===== *)
(** * A hub registering with a portal and syncing ([internal/hub/hub.go] against [internal/portal])

    The hub's side ([Portals]) and the server's side ([PortalServer]) of the portal protocol are
    joined: the server's responses become the exchanges the hub sees, its requests the ones the
    server serves.  Whenever the store accepts a hub, registration succeeds, and the sync token it
    leaves in the hub's configuration is the one the sync endpoint takes.

    The last part evaluates a small portal. *)

From S2P Require Import Prelude Http HubConfig PortalProtocol FilePath FileSys PortalFile PortalFileProofs PortalServer.
From S2P Require Portals.
From Stdlib Require Import ZArith Lia Ascii String.
From stdpp Require Import base gmap strings list.

(** ** The wire *)

Definition omit_empty (k v : string) : list (string * json) := if v =s "" then [] else [(k, JStr v)].

Definition json_of_visibility (v : HubVisibility) : json :=
  JObj (omit_empty "hubId" (hv_ID v) ++
        [("name", JStr (hv_Name v)); ("url", JStr (hv_URL v)); ("canManage", JBool (hv_CanManage v))] ++
        omit_empty "orgName" (hv_OrgName v)).

(** [json.Encoder] on the response structs; the bytes of a mirrored body are not decoded here. *)
Definition json_of_body (b : respBody) : reqBody :=
  match b with
  | RNone => BodyEmpty
  | RWellKnown id => BodyJson (JObj (
      [("hub_directory", JStr HubDirectoryPath); ("protocolVersion", JStr ProtocolVersion);
       ("supportedVersions", JArr (map JStr SupportedVersions))] ++ omit_empty "portalId" id))
  | RHubs hubs => BodyJson (JObj [("hubs", JArr (map json_of_visibility hubs))])
  | RAdded hubs syncToken updated => BodyJson (JObj (
      [("hubs", JArr (map json_of_visibility hubs))] ++ omit_empty "syncToken" syncToken ++
      if updated then [("updated", JBool true)] else []))
  | RSynced => BodyJson (JObj [("ok", JBool true)])
  | RToken t => BodyJson (JObj [("token", JStr t)])
  | RAgents agents => BodyJson (JObj [("agents",
      JArr (map (fun m => JObj (map_to_list m)) agents))])
  | RError msg => BodyJson (JObj [("error", JStr msg)])
  | RRaw _ => BodyBad
  end.

(** A hub's request as it reaches the server under the base URL. *)
Definition payloadBody (kvs : list (string * string)) : reqBody :=
  match kvs with [] => BodyEmpty | _ => BodyJson (JObj (map (fun kv => (fst kv, JStr (snd kv))) kvs)) end.
Definition as_request (jsonSize : json -> Z) (base : string) (o : Portals.outgoing) : preq :=
  PReq (Portals.out_Method o) (trim_prefix (Portals.out_URL o) base)
    (if Portals.out_Bearer o =s "" then "" else "Bearer " +:+ Portals.out_Bearer o)
    "" ∅ "application/json" "" "" [] (readCapped jsonSize (payloadBody (Portals.out_Payload o))).

Definition as_exchange (p : option presp) : Portals.exchange :=
  match p with
  | Some p => Portals.ExReply (pr_Status p) (json_of_body (pr_Body p))
  | None => Portals.ExFailed
  end.

Section wire.
  Context {T E U : Type} {PS : PortalStore T E U} {PL : PortalStoreLaws T E U} {IL : Interleaving}.
  Context (jsonSize : json -> Z) (net : upreq -> upresult) (base : string).
  Implicit Types (st : T) (env : E).

(** A payload within the server's limit. *)
Definition payload_fits (kvs : list (string * string)) : Prop :=
  forall j, payloadBody kvs = BodyJson j -> (jsonSize j <= decodeLimit)%Z.

(** The portal as the hub's environment, in a given state. *)
Definition portal_net (env : E) (st : T) : Portals.portalNet := fun o =>
  as_exchange (o_resp (serve net env st (as_request jsonSize base o))).

Lemma base_path path : trim_prefix (base +:+ path) base = path.
Proof. apply trim_prefix_app. Qed.

Lemma discover_finds env st token :
  trim_slashes base = base ->
  Portals.discoverHubDirectory (portal_net env st) base token = "/api/hubs".
Proof.
  intros Hb. unfold Portals.discoverHubDirectory, portal_net, as_request.
  cbn [Portals.out_URL Portals.out_Method Portals.out_Bearer Portals.out_Payload].
  rewrite Hb, base_path.
  change (serve net env st _) with (handleWellKnown st
    (PReq "GET" "/.well-known/tela" (if token =s "" then "" else "Bearer " +:+ token) "" ∅
      "application/json" "" "" [] BodyEmpty)).
  unfold handleWellKnown. cbn [pq_Method]. rewrite bool_decide_false by done.
  cbn [o_resp done_with as_exchange pr_Status pr_Body json_of_body].
  unfold omit_empty. destruct (PortalID st =s ""); reflexivity.
Qed.

Definition registration (token hubID name url viewer : string) : preq :=
  as_request jsonSize base (Portals.Outgoing "POST" (base +:+ "/api/hubs") token
    (Portals.registerPayload hubID name url viewer)).

(** The server understands the hub's payload: no unknown field, nothing missing. *)
Lemma payload_decodes token hubID name url viewer :
  hubID <> "" -> payload_fits (Portals.registerPayload hubID name url viewer) ->
  decodeAdd (pq_Body (registration token hubID name url viewer)) =
    Some (AddHubRequest name hubID url viewer "" "").
Proof.
  intros Hid Hfit. unfold registration, as_request. cbn [pq_Body Portals.out_Payload]. rewrite readCapped_fits by exact Hfit.
  unfold Portals.registerPayload.
  rewrite (bool_decide_false (hubID = "")) by done. cbn [negb].
  case_bool_decide as Hv; [subst|]; reflexivity.
Qed.

Lemma registration_served env st u token hubID name url viewer :
  token <> "" -> hubID <> "" -> name <> "" -> url <> "" -> payload_fits (Portals.registerPayload hubID name url viewer) ->
  (forall r, pq_Authorization r = "Bearer " +:+ token -> Authenticate st r = AuthUser u) ->
  serve net env st (registration token hubID name url viewer) =
    match AddHub env st u (MkHub name hubID url viewer "" "") with
    | (inl e, st') => done_with st' [] (writeStoreError e)
    | (inr (created, tok), st') =>
        respond_hubs st' [] u (fun hubs => RAdded hubs tok (negb created))
    end.
Proof.
  intros Ht Hid Hn Hu Hfit Ha. unfold serve.
  assert (mux (registration token hubID name url viewer) = ToHubsAdd) as ->.
  { unfold registration, as_request, mux. cbn [pq_Escaped pq_Method Portals.out_URL Portals.out_Method].
    rewrite base_path. reflexivity. }
  unfold handleHubsAdd, authenticate.
  rewrite Ha by (unfold registration, as_request; cbn; by rewrite bool_decide_false).
  rewrite payload_decodes by done. cbn [ar_Name ar_URL ar_HubID ar_ViewerToken ar_AdminToken ar_OrgName].
  by rewrite !bool_decide_false by done.
Qed.

Lemma sync_served env st name v tok hub :
  name <> "" -> v <> "" -> tok <> "" -> payload_fits (Portals.out_Payload (Portals.syncRequest name v (PortalEntry base "" tok "/api/hubs"))) ->
  VerifyHubSyncToken st name tok = inr hub ->
  serve net env st (as_request jsonSize base (Portals.syncRequest name v (PortalEntry base "" tok "/api/hubs"))) =
    match SetHubViewerToken env st name v with
    | (Some e, st') => done_with st' [] (writeStoreError e)
    | (None, st') => done_with st' [] (writeJSON 200 RSynced)
    end.
Proof.
  intros Hn Hv Ht Hfit Hver. unfold serve.
  set (r := as_request jsonSize base _).
  assert (mux r = ToHubSync) as ->.
  { unfold r, as_request, mux, Portals.syncRequest. cbn [pq_Escaped pq_Method Portals.out_URL Portals.out_Method pe_URL pe_HubDirectory].
    rewrite base_path. reflexivity. }
  unfold handleHubSync. assert (decodeSync (pq_Body r) = Some (name, v)) as ->.
  { unfold r, as_request. cbn [pq_Body]. by rewrite readCapped_fits by exact Hfit. }
  rewrite !bool_decide_false by done. cbn [orb].
  assert (bearerToken r = Some tok) as ->; [|by rewrite Hver].
  unfold bearerToken, r, as_request. cbn [pq_Authorization Portals.out_Bearer Portals.syncRequest pe_SyncToken].
  rewrite (bool_decide_false (tok = "")) by done.
  assert (has_prefix ("Bearer " +:+ tok) "Bearer " = true) as -> by (apply has_prefix_iff; by eexists).
  cbn [negb]. rewrite trim_prefix_app. by rewrite bool_decide_false.
Qed.

(** The hub reads the answer to its registration. *)
Lemma added_decodes hubs tok updated :
  tok <> "" ->
  exists kvs, json_fields (json_of_body (RAdded hubs tok updated)) = Some kvs /\
    Portals.decode_bool "updated" kvs false true = (updated, true) /\
    decode_string "syncToken" kvs "" true = (tok, true).
Proof.
  intros Ht. cbn [json_of_body]. unfold omit_empty. rewrite bool_decide_false by done.
  eexists. split; [reflexivity|]. by destruct updated.
Qed.

(** C35. Registration and sync fit together.  When the portal accepts the hub's token as a user's and
    its store takes the hub, the hub's registration succeeds and records this portal, the
    conventional directory and the sync token; and the sync request the hub then builds from that
    record is served: it gives the viewer token to the store, and when the store's call succeeds the
    answer is 200 and everybody who sees the hub sees that token; only when the store's call fails is
    the answer its error, with nothing changed.  Both bodies are within the server's limit. *)
Theorem register_then_sync env env' st u hubID token name url viewer st' created tok hubs hub v :
  trim_slashes base = base -> Portals.withScheme base = base ->
  token <> "" -> name <> "" -> url <> "" -> hubID <> "" -> v <> "" -> store_ok st -> env_ok env ->
  payload_fits (Portals.registerPayload hubID name url viewer) ->
  payload_fits (Portals.out_Payload (Portals.syncRequest name v (PortalEntry base "" tok "/api/hubs"))) ->
  (forall r, pq_Authorization r = "Bearer " +:+ token -> Authenticate st r = AuthUser u) ->
  AddHub env st u (MkHub name hubID url viewer "" "") = (inr (created, tok), st') -> tok <> "" ->
  ListHubsForUser st' u = inr hubs ->
  hub = MkHub name hubID url viewer "" "" ->
  let entry := PortalEntry base "" tok "/api/hubs" in
  let sync := as_request jsonSize base (Portals.syncRequest name v entry) in
  let o := serve net env' st' sync in
  Portals.registerWithPortal (portal_net env st) hubID base token name url viewer =
    inr (Portals.RegisterResult entry (negb created)) /\
  o_store (serve net env st (as_request jsonSize base (Portals.Outgoing "POST" (base +:+ "/api/hubs") token
    (Portals.registerPayload hubID name url viewer)))) = st' /\
  VerifyHubSyncToken st' name tok = inr hub /\
  let '(err, st'') := SetHubViewerToken env' st' name v in
  o_store o = st'' /\
  match err with
  | None =>
      o_resp o = Some (writeJSON 200 RSynced) /\
      forall u' h c, LookupHubForUser st' u' name = inr (h, c) ->
        LookupHubForUser st'' u' name = inr (set_ViewerToken h v, c)
  | Some e => o_resp o = Some (writeStoreError e) /\ same_view st' st''
  end.
Proof.
  intros Hb1 Hb2 Ht Hn Hu Hid Hv Hok Henv Hfr Hfs Ha Hadd Htok Hl -> entry sync o.
  pose proof (registration_served env st u token hubID name url viewer Ht Hid Hn Hu Hfr Ha) as Hreg.
  rewrite Hadd in Hreg. unfold respond_hubs in Hreg. rewrite Hl in Hreg.
  assert (VerifyHubSyncToken st' name tok = inr (MkHub name hubID url viewer "" "")) as Hver.
  { exact (add_verifies env st u (MkHub name hubID url viewer "" "") created tok st' Henv Hadd Htok). }
  split; [|split; [by fold (registration token hubID name url viewer); rewrite Hreg|split; [done|]]].
  - unfold Portals.registerWithPortal. rewrite Hb1, Hb2, discover_finds by done. unfold portal_net.
    fold (registration token hubID name url viewer). rewrite Hreg.
    cbn [o_resp done_with as_exchange pr_Status pr_Body writeJSON].
    destruct (added_decodes hubs tok (negb created) Htok) as (kvs & E1 & E2 & E3).
    change (200 =? 401)%Z with false. change ((200 <? 200) || (300 <=? 200))%Z with false. cbn iota.
    rewrite E1, E2, E3. cbn [andb negb]. by rewrite bool_decide_false.
  - pose proof (ok_AddHub env st u (MkHub name hubID url viewer "" "") Hok) as Hok'.
    rewrite Hadd in Hok'. cbn in Hok'.
    unfold o, sync, entry. rewrite (sync_served env' st' name v tok _ Hn Hv Htok Hfs Hver).
    destruct (SetHubViewerToken env' st' name v) as [[e|] st''] eqn:Hs; cbn [o_resp o_store done_with]; (split; [done|]).
    + split; [done|]. by eapply viewer_failed.
    + split; [done|]. intros u' h c Hlk. rewrite (viewer_lookup _ _ _ _ _ _ _ Hok' Hs), Hlk.
      by rewrite bool_decide_true.
Qed.

End wire.

(** * A small portal evaluated

    The theorems on the portal at concrete stores, requests and hubs, and the places where the
    server departs from its specification ([DESIGN-portal.md]) or fails. *)

Definition sync_token : string := HubSyncTokenPrefix +:+ "07070707070707070707070707070707".
Definition home : storedHub :=
  StoredHub "home" "id-1" "https://hub.example/" "view" "adm" (HashSyncToken sync_token) "".
Definition portal_store : Store :=
  MkStore demo_path "portal-1" (hashHex "operator") {[ "home" := home ]}.
Definition portal_state : fstate := (portal_store, demo_disk).

Definition ask (method path bearer : string) (body : reqBody) : preq :=
  PReq method path (if bearer =s "" then "" else "Bearer " +:+ bearer) "" ∅ "" "" "" [] body.

(** Every hub answers 200 with one machine. *)
Definition one_machine : upnet := fun _ =>
  UpOk (UpReply 200 "" "" [([123; 125]%Z, ReadEOF)]
    (BodyJson (JObj [("machines", JArr [JObj [("id", JStr "barn")]])]))).

Lemma portal_named : well_named portal_store.
Proof. intros k h. cbn. intros [<- <-]%lookup_singleton_Some. by split. Qed.

Lemma portal_gate_witness :
  mux (ask "GET" "/api/hubs" "wrong" BodyEmpty) = ToHubsList /\
  refusal portal_state
    (serve one_machine (demo_fenv "") portal_state (ask "GET" "/api/hubs" "wrong" BodyEmpty)).
Proof.
  assert (mux (ask "GET" "/api/hubs" "wrong" BodyEmpty) = ToHubsList) as Em by (by vm_compute).
  split; [exact Em|].
  pose proof (portal_gate one_machine (demo_fenv "") portal_state
    (ask "GET" "/api/hubs" "wrong" BodyEmpty)) as H.
  rewrite Em in H. apply H. intros u. by vm_compute.
Defined.

Definition proxied : preq := ask "PATCH" "/api/hub-admin/home/access/bob" "operator" BodyEmpty.

Lemma admin_proxy_exact_witness :
  let q := UpReq "PATCH" "https://hub.example/api/admin/access/bob" "adm" "" "" "" [] in
  o_sent (serve one_machine (demo_fenv "") portal_state proxied) = [q] /\
  o_store (serve one_machine (demo_fenv "") portal_state proxied) = portal_state /\
  exists u n hub op,
    url_Path proxied = "/api/hub-admin/" +:+ n +:+ "/" +:+ op /\
    adminPath proxied = inr (n, op) /\ n <> "" /\ op <> "" /\ has_prefix op "api/admin/" = false /\
    Authenticate portal_state proxied = AuthUser u /\
    LookupHubForUser portal_state u n = inr (hub, true) /\ h_AdminToken hub <> "" /\
    sent_ok one_machine q = true /\ q = adminUpstream proxied hub op /\
    up_Method q = pq_Method proxied /\ up_Body q = pq_Raw proxied /\ up_Bearer q = h_AdminToken hub /\
    up_URL q = with_query proxied (trim_slashes (h_URL hub) +:+ "/api/admin/" +:+ op).
Proof.
  intros q.
  assert (o_sent (serve one_machine (demo_fenv "") portal_state proxied) = [q]) as Es by (by vm_compute).
  split; [exact Es|].
  destruct (admin_proxy_exact one_machine (demo_fenv "") portal_state proxied q) as [H1 [H2 _]];
    [by vm_compute|].
  split; [exact H1|]. apply H2. rewrite Es. by apply list_elem_of_singleton.
Defined.

Definition syncing : preq := ask "PATCH" "/api/hubs/sync" sync_token
  (BodyJson (JObj [("name", JStr "home"); ("viewerToken", JStr "new")])).

Lemma sync_reaches_viewer_token_witness :
  let o := serve one_machine (demo_fenv "") portal_state syncing in
  o_resp o = Some (writeJSON 200 RSynced) /\ o_sent o = [] /\
  forall u, ListHubsForUser (o_store o) u = ListHubsForUser portal_state u.
Proof.
  intros o. assert (o_resp o = Some (writeJSON 200 RSynced)) as Er by (by vm_compute).
  split; [exact Er|].
  destruct (sync_reaches_viewer_token one_machine (demo_fenv "") portal_state syncing) as [H1 H2];
    [by vm_compute|apply portal_named|]. split; [exact H1|].
  destruct H2 as [[_ Hn]|(n & v & tok & h & _ & _ & _ & _ & _ & _ & _ & H & _)]; [|exact H].
  by destruct Hn.
Defined.

Definition fleet : preq := ask "GET" "/api/fleet/agents" "operator" BodyEmpty.
Definition home_listed : list HubVisibility := [MkHubVisibility "id-1" "home" "https://hub.example/" true ""].

Lemma fleet_aggregates_witness :
  let o := serve one_machine (demo_fenv "") portal_state fleet in
  exists l, o_resp o = Some (writeJSON 200 (RAgents l)) /\ length l = 1 /\ o_store o = portal_state.
Proof.
  destruct (fleet_aggregates one_machine (demo_fenv "") portal_state fleet LocalUser home_listed)
    as (H1 & _ & H2 & _); [by vm_compute|by vm_compute|by vm_compute|].
  destruct H2 as (l & Hl & Hp).
  { intros h. assert (manageable portal_state LocalUser home_listed = [toPublicHub home]) as ->
      by (by vm_compute). intros ->%list_elem_of_singleton. by vm_compute. }
  exists l. split; [exact Hl|]. split; [|exact H1].
  apply Permutation_length in Hp. rewrite Hp. by vm_compute.
Defined.

Definition other_secrets : Store := MkStore demo_path "portal-1" (hashHex "operator")
  {[ "home" := StoredHub "home" "id-1" "https://hub.example/" "v2" "a2" "s2" "" ]}.

Lemma directory_hides_secrets_witness :
  let r := ask "DELETE" "/api/hubs" "operator" BodyEmpty in
  directory_target (mux r) = true /\
  o_resp (serve one_machine (demo_fenv "") ((other_secrets, demo_disk) : fstate) r) =
  o_resp (serve one_machine (demo_fenv "") ((portal_store, demo_disk) : fstate) r).
Proof.
  intros r. assert (directory_target (mux r) = true) as Ed by (by vm_compute). split; [exact Ed|].
  apply (directory_hides_secrets one_machine demo_dir demo_file (demo_fenv "") portal_store other_secrets
    demo_disk r); [done|by apply demo_fits|apply demo_disk_ok|by vm_compute|apply portal_named| |exact Ed].
  unfold other_secrets, portal_store.
  split; cbn [s_path s_portalID s_adminTokenHash s_hubs]; [reflexivity..|].
  by rewrite !map_fmap_singleton.
Defined.

Definition demo_base : string := "https://portal.example".

Definition lab : Hub := MkHub "lab" "id-2" "https://lab.example" "view" "" "".
Definition lab_token : string := HubSyncTokenPrefix +:+
  "0707070707070707070707070707070707070707070707070707070707070707".
Definition lab_added : (portalErr + bool * string) * fstate :=
  AddHub (demo_fenv "") portal_state LocalUser lab.
Definition lab_listed : list HubVisibility :=
  match ListHubsForUser (snd lab_added) LocalUser with inr l => l | inl _ => [] end.

Lemma lab_taken : fst lab_added = inr (true, lab_token).
Proof. by vm_compute. Qed.

Lemma operator_known r :
  pq_Authorization r = "Bearer " +:+ "operator" -> Authenticate portal_state r = AuthUser LocalUser.
Proof. intros Hr. unfold Authenticate, fileStore, file_Authenticate. rewrite Hr. by vm_compute. Qed.

Lemma demo_rand : rand_ok (demo_fenv "").
Proof. intros b [= <-]. split; [|cbn; lia].
  repeat first [apply Forall_nil_2|apply Forall_cons_2; [unfold is_byte; lia|]]. Qed.

(** Texts within every limit. *)
Definition no_size (_ : json) : Z := 0.

Lemma register_then_sync_witness :
  Portals.registerWithPortal (portal_net no_size one_machine demo_base (demo_fenv "") portal_state)
    "id-2" demo_base "operator" "lab" "https://lab.example" "view" =
  inr (Portals.RegisterResult (PortalEntry demo_base "" lab_token "/api/hubs") (negb true)) /\
  o_resp (serve one_machine (demo_fenv "") (snd lab_added)
    (as_request no_size demo_base (Portals.syncRequest "lab" "v2" (PortalEntry demo_base "" lab_token "/api/hubs")))) = Some (writeJSON 200 RSynced).
Proof.
  destruct (register_then_sync no_size one_machine demo_base (demo_fenv "") (demo_fenv "") portal_state
    LocalUser "id-2" "operator" "lab" "https://lab.example" "view" (snd lab_added) true lab_token
    lab_listed lab "v2") as (Hreg & _ & _ & Hsync).
  - by vm_compute.
  - by vm_compute.
  - discriminate.
  - discriminate.
  - discriminate.
  - discriminate.
  - discriminate.
  - exact portal_named.
  - exact demo_rand.
  - by intros j [= <-].
  - by intros j [= <-].
  - exact operator_known.
  - exact (eq_trans (surjective_pairing lab_added) (f_equal (fun x => (x, snd lab_added)) lab_taken)).
  - discriminate.
  - reflexivity.
  - reflexivity.
  - split; [exact Hreg|]. assert (fst (SetHubViewerToken (demo_fenv "") (snd lab_added) "lab" "v2") = None) as Hs by (vm_compute; reflexivity).
    destruct (SetHubViewerToken (demo_fenv "") (snd lab_added) "lab" "v2") as [err st'']. cbn [fst] in Hs. subst err.
    exact (proj1 (proj2 Hsync)).
Defined.

(** ** Departures *)

(** A hub that lists a [null] machine ends the portal process. *)
Definition null_machine : upnet := fun _ =>
  UpOk (UpReply 200 "" "" [] (BodyJson (JObj [("machines", JArr [JNull])]))).
Example null_machine_ends_portal :
  o_resp (serve null_machine (demo_fenv "") portal_state fleet) = None.
Proof. by vm_compute. Qed.

(** The specification matches a re-registration by hubId; the store matches by name, so a renamed
    hub is listed twice. *)
Definition renamed : preq := ask "POST" "/api/hubs" "operator"
  (BodyJson (JObj [("name", JStr "casa"); ("hubId", JStr "id-1"); ("url", JStr "https://hub.example")])).
Example renamed_hub_listed_twice :
  exists o, serve one_machine (demo_fenv "") portal_state renamed = o /\
    match ListHubsForUser (o_store o) LocalUser with
    | inr l => map hv_ID l = ["id-1"; "id-1"]
    | inl _ => False
    end.
Proof. eexists. split; [reflexivity|]. by vm_compute. Qed.

(** A hub's own re-registration carries no admin token, and replaces the stored one by nothing. *)
Example reregistration_drops_admin_token :
  let r := registration no_size demo_base "operator" "id-1" "home" "https://hub.example" "view" in
  let st' := o_store (serve one_machine (demo_fenv "") portal_state r) in
  match LookupHubForUser st' LocalUser "home" with
  | inr (h, _) => h_AdminToken h = ""
  | inl _ => False
  end /\
  o_resp (serve one_machine (demo_fenv "") st' proxied) =
    Some (writeError 400 "no admin token stored for this hub").
Proof. by vm_compute. Qed.

(** An escaped dot segment passes the mux and leaves the admin prefix of the target. *)
Example admin_proxy_dot_segments :
  map up_URL (o_sent (serve one_machine (demo_fenv "") portal_state
    (ask "GET" "/api/hub-admin/home/%2e%2e/status" "operator" BodyEmpty))) =
    ["https://hub.example/api/admin/../status"].
Proof. by vm_compute. Qed.

(** An escaped slash in an operation reaches the hub as a separator. *)
Example admin_proxy_unescapes :
  map up_URL (o_sent (serve one_machine (demo_fenv "") portal_state
    (ask "GET" "/api/hub-admin/home/access/a%2Fb" "operator" BodyEmpty))) =
    ["https://hub.example/api/admin/access/a/b"].
Proof. by vm_compute. Qed.

(** Discovery without an id is refused with 400, not 502. *)
Example discovery_failure_status :
  pr_Status <$> o_resp (serve (fun _ => UpFailed) (demo_fenv "") portal_state
    (ask "POST" "/api/hubs" "operator"
      (BodyJson (JObj [("name", JStr "x"); ("url", JStr "https://x.example")])))) = Some 400%Z.
Proof. by vm_compute. Qed.

(** The token endpoint returns the stored admin token. *)
Example hub_token_returned :
  o_resp (serve one_machine (demo_fenv "") portal_state
    (ask "GET" "/api/hub-token/home" "operator" BodyEmpty)) =
    Some (PResp 200 (RToken "adm") jsonType "no-store" "").
Proof. by vm_compute. Qed.
