(* ===== verification/PortalClient.v ===== *)
(** * The portal client ([internal/portalclient/portalclient.go])

    Each method as the request it builds and what it makes of the reply.  The transport is the
    environment.  Composed with [PortalServer], the client reads back what the store holds. *)

From S2P Require Import Prelude Http PortalProtocol FilePath Url PortalServer PortalE2E.
From S2P Require Portals.
From Stdlib Require Import ZArith Lia Ascii String.
From stdpp Require Import base gmap strings list.

Record Client := MkClient { BaseURL : string; BearerToken : string }.

Record creq := CReq {
  cq_Method : string;
  cq_URL : string;
  cq_Authorization : string;        (** empty when absent, as the other headers *)
  cq_ContentType : string;
  cq_Headers : list (string * string);   (** what the caller of [HubAdmin] adds *)
  cq_Body : option json
}.

(** A reply: its status, its body as text and as [json.Unmarshal] parses it. *)
Record creply := CReply { cr_Status : Z; cr_Text : string; cr_Json : reqBody }.
Definition transport := creq -> option creply.

Inductive clientErr := CTransport | CHTTPError (code : Z) (msg : string) | CDecode | CArgument
  | CPending | CSlowDown | CExpired | CDenied.

Definition newRequest (c : Client) (method path : string) (body : option json) : creq :=
  CReq method (trim_slashes (BaseURL c) +:+ path)
    (if BearerToken c <>s "" then "Bearer " +:+ BearerToken c else "")
    (match body with Some _ => jsonType | None => "" end) [] body.

Definition without_auth (q : creq) : creq :=
  CReq (cq_Method q) (cq_URL q) "" (cq_ContentType q) (cq_Headers q) (cq_Body q).

(** The message of an error body, when it has one. *)
Definition error_of (b : reqBody) : string :=
  match json_fields b with
  | Some kvs => let '(e, ok) := decode_string "error" kvs "" true in if ok then e else ""
  | None => ""
  end.

(** [decodeOrError]: [dec] decodes the body into the result, [zero] is the result untouched. *)
Definition decodeOrError {A} (p : creply) (zero : A) (dec : reqBody -> option A) : clientErr + A :=
  if (cr_Status p <? 200)%Z || (300 <=? cr_Status p)%Z then
    inl (CHTTPError (cr_Status p)
      (if error_of (cr_Json p) <>s "" then error_of (cr_Json p) else trim_space (cr_Text p)))
  else if cr_Text p =s "" then inr zero
  else match dec (cr_Json p) with Some a => inr a | None => inl CDecode end.

Definition doJSON {A} (net : transport) (q : creq) (zero : A) (dec : reqBody -> option A)
    : clientErr + A :=
  match net q with
  | None => inl CTransport
  | Some p => decodeOrError p zero dec
  end.

(** ** Decoding *)

Fixpoint decode_int (name : string) (kvs : list (string * json)) (v : Z) (ok : bool) : Z * bool :=
  match kvs with
  | [] => (v, ok)
  | (k, j) :: kvs' =>
      if equal_fold k name then
        match j with
        | JNum n => decode_int name kvs' n ok
        | JNull => decode_int name kvs' v ok
        | _ => decode_int name kvs' v false
        end
      else decode_int name kvs' v ok
  end.

(** A struct inside a slice: [null] leaves it zero. *)
Definition struct_fields (j : json) : option (list (string * json)) :=
  match j with JNull => Some [] | JObj kvs => Some kvs | _ => None end.

Definition decode_visibility (j : json) : option HubVisibility :=
  match struct_fields j with
  | None => None
  | Some kvs =>
      let '(id, ok1) := decode_string "hubId" kvs "" true in
      let '(name, ok2) := decode_string "name" kvs "" true in
      let '(url, ok3) := decode_string "url" kvs "" true in
      let '(cm, ok4) := Portals.decode_bool "canManage" kvs false true in
      let '(org, ok5) := decode_string "orgName" kvs "" true in
      if ok1 && ok2 && ok3 && ok4 && ok5 then Some (MkHubVisibility id name url cm org) else None
  end.

(** A slice field of a struct, its last occurrence. *)
Definition decode_slice {A} (name : string) (dec : json -> option A) (kvs : list (string * json))
    : option (list A) :=
  fold_left (fun acc kv =>
    if equal_fold (fst kv) name then
      match snd kv with
      | JNull => (fun _ => []) <$> acc
      | JArr l => match acc, mapM dec l with Some _, Some x => Some x | _, _ => None end
      | _ => None
      end
    else acc) kvs (Some []).

Definition decode_hubs (b : reqBody) : option (list HubVisibility) :=
  match json_fields b with Some kvs => decode_slice "hubs" decode_visibility kvs | None => None end.

Record FleetAgent := MkFleetAgent {
  fa_ID : string;
  fa_AgentID : string;
  fa_MachineRegistrationID : string;
  fa_AgentConnected : bool;
  fa_SessionCount : Z;
  fa_DisplayName : option string;
  fa_Hostname : option string;
  fa_OS : option string;
  fa_AgentVersion : option string;
  fa_Tags : list string;
  fa_Location : option string;
  fa_Owner : option string;
  fa_RegisteredAt : option string;
  fa_LastSeen : option string;
  fa_Services : list (list (string * json));
  fa_Capabilities : option (list (string * json));
  fa_Hub : string;
  fa_HubURL : string;
  fa_HubID : string
}.

(** A [map[string]any]: its keys and values; [null] is the nil map. *)
Definition decode_map (j : json) : option (list (string * json)) :=
  match j with JNull => Some [] | JObj kvs => Some kvs | _ => None end.

Definition decode_caps (kvs : list (string * json)) : option (option (list (string * json))) :=
  fold_left (fun acc kv =>
    if equal_fold (fst kv) "capabilities" then
      match snd kv with
      | JNull => (fun _ => None) <$> acc
      | JObj m => (fun _ => Some m) <$> acc
      | _ => None
      end
    else acc) kvs (Some None).

Definition decode_agent (j : json) : option FleetAgent :=
  match struct_fields j with
  | None => None
  | Some kvs =>
      let '(id, ok1) := decode_string "id" kvs "" true in
      let '(agentID, ok2) := decode_string "agentId" kvs "" true in
      let '(regID, ok3) := decode_string "machineRegistrationId" kvs "" true in
      let '(conn, ok4) := Portals.decode_bool "agentConnected" kvs false true in
      let '(count, ok5) := decode_int "sessionCount" kvs 0%Z true in
      let '(display, ok6) := decode_string_ptr "displayName" kvs None true in
      let '(host, ok7) := decode_string_ptr "hostname" kvs None true in
      let '(os, ok8) := decode_string_ptr "os" kvs None true in
      let '(ver, ok9) := decode_string_ptr "agentVersion" kvs None true in
      let '(tags, ok10) := decode_strings "tags" kvs [] true in
      let '(loc, ok11) := decode_string_ptr "location" kvs None true in
      let '(owner, ok12) := decode_string_ptr "owner" kvs None true in
      let '(reg, ok13) := decode_string_ptr "registeredAt" kvs None true in
      let '(seen, ok14) := decode_string_ptr "lastSeen" kvs None true in
      let '(hub, ok15) := decode_string "hub" kvs "" true in
      let '(url, ok16) := decode_string "hubUrl" kvs "" true in
      let '(hubID, ok17) := decode_string "hubId" kvs "" true in
      match decode_slice "services" decode_map kvs, decode_caps kvs with
      | Some services, Some caps =>
          if ok1 && ok2 && ok3 && ok4 && ok5 && ok6 && ok7 && ok8 && ok9 && ok10 && ok11 && ok12 &&
             ok13 && ok14 && ok15 && ok16 && ok17
          then Some (MkFleetAgent id agentID regID conn count display host os ver tags loc owner reg
                 seen services caps hub url hubID)
          else None
      | _, _ => None
      end
  end.

(** ** The methods *)

Section client.
  Context (net : transport) (c : Client).

Record Discovery := MkDiscovery {
  d_HubDirectory : string; d_ProtocolVersion : string; d_SupportedVersions : list string;
  d_PortalID : string
}.

Definition decode_discovery (b : reqBody) : option Discovery :=
  match json_fields b with
  | None => None
  | Some kvs =>
      let '(dir, ok1) := decode_string "hub_directory" kvs "" true in
      let '(ver, ok2) := decode_string "protocolVersion" kvs "" true in
      let '(sup, ok3) := decode_strings "supportedVersions" kvs [] true in
      let '(id, ok4) := decode_string "portalId" kvs "" true in
      if ok1 && ok2 && ok3 && ok4 then Some (MkDiscovery dir ver sup id) else None
  end.

Definition Discover : clientErr + Discovery :=
  doJSON net (without_auth (newRequest c "GET" "/.well-known/tela" None))
    (MkDiscovery "" "" [] "") decode_discovery.

Definition ListHubs : clientErr + list HubVisibility :=
  doJSON net (newRequest c "GET" HubDirectoryPath None) [] decode_hubs.

Definition addBody (h : Hub) : json :=
  JObj ([("name", JStr (h_Name h))] ++ omit_empty "hubId" (h_HubID h) ++ [("url", JStr (h_URL h))] ++
        omit_empty "viewerToken" (h_ViewerToken h) ++ omit_empty "adminToken" (h_AdminToken h) ++
        omit_empty "orgName" (h_OrgName h)).

Record AddHubResponse := MkAddHubResponse {
  ah_Hubs : list HubVisibility; ah_SyncToken : string; ah_Updated : bool
}.
Definition decode_added (b : reqBody) : option AddHubResponse :=
  match json_fields b with
  | None => None
  | Some kvs =>
      let '(tok, ok1) := decode_string "syncToken" kvs "" true in
      let '(upd, ok2) := Portals.decode_bool "updated" kvs false true in
      match decode_slice "hubs" decode_visibility kvs with
      | Some hubs => if ok1 && ok2 then Some (MkAddHubResponse hubs tok upd) else None
      | None => None
      end
  end.

Definition cl_AddHub (h : Hub) : clientErr + AddHubResponse :=
  doJSON net (newRequest c "POST" HubDirectoryPath (Some (addBody h)))
    (MkAddHubResponse [] "" false) decode_added.

Definition ptr_field (k : string) (o : option string) : list (string * json) :=
  match o with Some v => [(k, JStr v)] | None => [] end.
Definition updateBody (currentName : string) (u : HubUpdate) : json :=
  JObj ([("currentName", JStr currentName)] ++ ptr_field "name" (hu_Name u) ++
        ptr_field "url" (hu_URL u) ++ ptr_field "viewerToken" (hu_ViewerToken u) ++
        ptr_field "adminToken" (hu_AdminToken u)).

Definition cl_UpdateHub (currentName : string) (u : HubUpdate) : clientErr + list HubVisibility :=
  doJSON net (newRequest c "PATCH" HubDirectoryPath (Some (updateBody currentName u))) [] decode_hubs.

Definition cl_DeleteHub (name : string) : clientErr + list HubVisibility :=
  doJSON net (newRequest c "DELETE" (HubDirectoryPath +:+ "?name=" +:+ QueryEscape name) None)
    [] decode_hubs.

Definition decode_agents (b : reqBody) : option (list FleetAgent) :=
  match json_fields b with Some kvs => decode_slice "agents" decode_agent kvs | None => None end.
Definition FleetAgents : clientErr + list FleetAgent :=
  doJSON net (newRequest c "GET" "/api/fleet/agents" None) [] decode_agents.

(** The extra headers are set in order; a later value of a key replaces an earlier one. *)
Definition hubAdminRequest (hubName operation method : string) (body : option json)
    (extra : list (string * string)) : creq :=
  let q := newRequest c method ("/api/hub-admin/" +:+ PathEscape hubName +:+ "/" +:+ operation) body in
  CReq (cq_Method q) (cq_URL q) (cq_Authorization q) (cq_ContentType q) extra (cq_Body q).
Definition HubAdmin (hubName operation method : string) (body : option json)
    (extra : list (string * string)) : clientErr + creply :=
  if (hubName =s "") || (operation =s "") then inl CArgument
  else
    match net (hubAdminRequest hubName operation method body extra) with
    | None => inl CTransport
    | Some p => inr p
    end.

Definition HubAdminJSON {A} (hubName operation method : string) (body : option json) (zero : A)
    (dec : reqBody -> option A) : clientErr + A :=
  match HubAdmin hubName operation method body [] with
  | inl e => inl e
  | inr p => decodeOrError p zero dec
  end.

(** The error carries the message only; its status is not kept. *)
Definition hubPublicProxy (hubName prefix : string) : clientErr + string :=
  if hubName =s "" then inl CArgument
  else match net (newRequest c "GET" (prefix +:+ PathEscape hubName) None) with
  | None => inl CTransport
  | Some p =>
      if (400 <=? cr_Status p)%Z then inl (CHTTPError (cr_Status p) (error_of (cr_Json p)))
      else inr (cr_Text p)
  end.
Definition HubStatus (hubName : string) := hubPublicProxy hubName "/api/hub-status/".
Definition HubHistory (hubName : string) := hubPublicProxy hubName "/api/hub-history/".

Definition decode_token (b : reqBody) : option string :=
  match json_fields b with
  | Some kvs => let '(t, ok) := decode_string "token" kvs "" true in if ok then Some t else None
  | None => None
  end.
Definition HubToken (hubName : string) : clientErr + string :=
  if hubName =s "" then inl CArgument
  else doJSON net (newRequest c "GET" ("/api/hub-token/" +:+ PathEscape hubName) None) "" decode_token.

(** *** The device grant *)

Record DeviceAuthorization := MkDeviceAuthorization {
  da_DeviceCode : string; da_UserCode : string; da_VerificationURI : string;
  da_VerificationURIComplete : string; da_ExpiresIn : Z; da_Interval : Z
}.
Definition decode_device (b : reqBody) : option DeviceAuthorization :=
  match json_fields b with
  | None => None
  | Some kvs =>
      let '(dc, ok1) := decode_string "device_code" kvs "" true in
      let '(uc, ok2) := decode_string "user_code" kvs "" true in
      let '(vu, ok3) := decode_string "verification_uri" kvs "" true in
      let '(vc, ok4) := decode_string "verification_uri_complete" kvs "" true in
      let '(ex, ok5) := decode_int "expires_in" kvs 0%Z true in
      let '(iv, ok6) := decode_int "interval" kvs 0%Z true in
      if ok1 && ok2 && ok3 && ok4 && ok5 && ok6
      then Some (MkDeviceAuthorization dc uc vu vc ex iv) else None
  end.

Definition StartDeviceAuth : clientErr + DeviceAuthorization :=
  doJSON net (without_auth (newRequest c "POST" "/api/oauth/device" (Some (JObj []))))
    (MkDeviceAuthorization "" "" "" "" 0 0) decode_device.

Definition decode_access (b : reqBody) : option (string * string) :=
  match json_fields b with
  | None => None
  | Some kvs =>
      let '(at_, ok1) := decode_string "access_token" kvs "" true in
      let '(tt_, ok2) := decode_string "token_type" kvs "" true in
      if ok1 && ok2 then Some (at_, tt_) else None
  end.

(** The fields of an OAuth error, as far as they decode. *)
Definition oauth_error (b : reqBody) : string * string :=
  match json_fields b with
  | None => ("", "")
  | Some kvs => (fst (decode_string "error" kvs "" true),
                 fst (decode_string "error_description" kvs "" true))
  end.

Definition PollDeviceToken (deviceCode : string) : clientErr + (string * string) :=
  let body := JObj [("grant_type", JStr "urn:ietf:params:oauth:grant-type:device_code");
                    ("device_code", JStr deviceCode)] in
  match net (without_auth (newRequest c "POST" "/api/oauth/token" (Some body))) with
  | None => inl CTransport
  | Some p =>
      if (200 <=? cr_Status p)%Z && (cr_Status p <? 300)%Z then
        match decode_access (cr_Json p) with Some r => inr r | None => inl CDecode end
      else
        let '(err, desc) := oauth_error (cr_Json p) in
        if err =s "authorization_pending" then inl CPending
        else if err =s "slow_down" then inl CSlowDown
        else if err =s "expired_token" then inl CExpired
        else if err =s "access_denied" then inl CDenied
        else inl (CHTTPError (cr_Status p)
               (if desc <>s "" then desc else if err <>s "" then err else trim_space (cr_Text p)))
  end.

End client.
