(* ===== verification/PortalClientProofs.v ===== *)
(** * The portal client against the portal server

    The wire between [PortalClient] and [PortalServer]: the URL is taken apart as the server does,
    JSON bodies are decoded by the other side's decoders.  Through it the client's methods are the
    store's operations. *)

From S2P Require Import Prelude Http PortalProtocol FilePath FileSys PortalFile PortalFileProofs Url PortalServer.
From S2P Require Import PortalE2E PortalClient.
From S2P Require Portals.
From Stdlib Require Import ZArith Lia Ascii String.
From stdpp Require Import base gmap strings list.

(** The request as the server receives it, a JSON text being of [jsonSize]. *)
Definition wire (jsonSize : json -> Z) (base : string) (q : creq) : preq :=
  let rest := trim_prefix (cq_URL q) base in
  let '(path, query) := match cut rest "?" with Some pq => pq | None => (rest, "") end in
  PReq (cq_Method q) path (cq_Authorization q) query (ParseQuery query) (cq_ContentType q) "" "" []
    (readCapped jsonSize (match cq_Body q with Some j => BodyJson j | None => BodyEmpty end)).

Section wire_facts.
  Context {T E U : Type} {PS : PortalStore T E U} {IL : Interleaving}.
  Context (jsonSize : json -> Z) (up : upreq -> upresult) (text : respBody -> string).
  Context (Htext : forall b, json_of_body b <> BodyEmpty -> text b <> "").
  Implicit Types (st : T) (env : E).

Definition reply_of (p : presp) : creply := CReply (pr_Status p) (text (pr_Body p)) (json_of_body (pr_Body p)).
Definition server_net (base : string) (env : E) (st : T) : transport := fun q =>
  reply_of <$> o_resp (serve up env st (wire jsonSize base q)).

(** An error response as the client reports it. *)
Definition client_error (p : presp) : clientErr :=
  CHTTPError (pr_Status p) (match pr_Body p with RError m => m | _ => "" end).

Lemma mapM_map {A B C} (f : A -> B) (g : B -> option C) (h : A -> C) l :
  (forall x, g (f x) = Some (h x)) -> mapM g (map f l) = Some (map h l).
Proof. intros H. induction l as [|x l IH]; [done|]. cbn. rewrite H. cbn. by rewrite IH. Qed.

Lemma visibility_roundtrip v : decode_visibility (json_of_visibility v) = Some v.
Proof.
  destruct v as [id name url cm org]. unfold json_of_visibility, omit_empty. cbn [hv_ID hv_Name hv_URL hv_CanManage hv_OrgName].
  repeat case_bool_decide; subst; reflexivity.
Qed.

Lemma hubs_roundtrip hubs : mapM decode_visibility (map json_of_visibility hubs) = Some hubs.
Proof. rewrite (mapM_map _ _ id); [by rewrite map_id|]. intros v. apply visibility_roundtrip. Qed.

Lemma decode_hubs_roundtrip hubs : decode_hubs (json_of_body (RHubs hubs)) = Some hubs.
Proof. cbn. unfold decode_slice. cbn. by rewrite hubs_roundtrip. Qed.

Lemma decode_added_roundtrip hubs tok upd :
  decode_added (json_of_body (RAdded hubs tok upd)) = Some (MkAddHubResponse hubs tok upd).
Proof.
  cbn [json_of_body]. unfold decode_added, omit_empty. cbn [json_fields].
  destruct upd; case_bool_decide; subst; cbn [app decode_string Portals.decode_bool];
    unfold decode_slice; cbn; by rewrite hubs_roundtrip.
Qed.

Lemma update_roundtrip cur u : decodeUpdate (BodyJson (updateBody cur u)) = Some (cur, u).
Proof. destruct u as [[] [] [] []]; reflexivity. Qed.

Lemma add_roundtrip h :
  decodeAdd (BodyJson (addBody h)) =
    Some (AddHubRequest (h_Name h) (h_HubID h) (h_URL h) (h_ViewerToken h) (h_AdminToken h) (h_OrgName h)).
Proof.
  destruct h as [n i u v a o]. unfold addBody, omit_empty. cbn [h_Name h_HubID h_URL h_ViewerToken h_AdminToken h_OrgName].
  repeat case_bool_decide; subst; reflexivity.
Qed.

(** ** The methods of the directory *)

Section directory.
  Context (env : E) (st : T) (u : U) (c : Client).
  Context (Hbase : trim_slashes (BaseURL c) = BaseURL c) (Htok : BearerToken c <> "").
  Context (Hauth : forall r, pq_Authorization r = "Bearer " +:+ BearerToken c -> Authenticate st r = AuthUser u).

Definition sent_as (method path : string) (body : option json) : preq :=
  wire jsonSize (BaseURL c) (newRequest c method path body).

Lemma wire_plain method body :
  sent_as method HubDirectoryPath body =
    PReq method HubDirectoryPath ("Bearer " +:+ BearerToken c) "" ∅
      (match body with Some _ => jsonType | None => "" end) "" "" []
      (readCapped jsonSize (match body with Some j => BodyJson j | None => BodyEmpty end)).
Proof.
  unfold sent_as, newRequest, wire. cbn [cq_Method cq_URL cq_Authorization cq_ContentType cq_Body].
  rewrite Hbase, trim_prefix_app, bool_decide_false by done. reflexivity.
Qed.

Lemma wire_delete n :
  sent_as "DELETE" (HubDirectoryPath +:+ "?name=" +:+ QueryEscape n) None =
    PReq "DELETE" HubDirectoryPath ("Bearer " +:+ BearerToken c) ("name=" +:+ QueryEscape n)
      {[ "name" := n ]} "" "" "" [] BodyEmpty.
Proof.
  unfold sent_as, newRequest, wire. cbn [cq_Method cq_URL cq_Authorization cq_ContentType cq_Body].
  rewrite Hbase, trim_prefix_app, bool_decide_false by done.
  assert (cut (HubDirectoryPath +:+ "?name=" +:+ QueryEscape n) "?" =
    Some (HubDirectoryPath, "name=" +:+ QueryEscape n)) as ->.
  { apply (cut_byte "?" HubDirectoryPath ("name=" +:+ QueryEscape n)).
    apply (bool_decide_unpack _). by vm_compute. }
  f_equal. apply (ParseQuery_single "name" n); by vm_compute.
Qed.

Lemma known r : pq_Authorization r = "Bearer " +:+ BearerToken c -> authenticate st r = inr u.
Proof. intros Hr. unfold authenticate. by rewrite Hauth. Qed.

(** What the client makes of an answer. *)
Lemma client_reads_hubs p {A} (zero : A) dec x :
  pr_Status p = 200%Z -> json_of_body (pr_Body p) <> BodyEmpty -> dec (json_of_body (pr_Body p)) = Some x ->
  decodeOrError (reply_of p) zero dec = inr x.
Proof.
  intros Hs Hb Hd. unfold decodeOrError, reply_of. cbn [cr_Status cr_Text cr_Json]. rewrite Hs.
  change ((200 <? 200) || (300 <=? 200))%Z with false. cbn iota.
  rewrite bool_decide_false by (by apply Htext). by rewrite Hd.
Qed.

Lemma client_reads_error p {A} (zero : A) dec msg :
  (pr_Status p < 200 \/ 300 <= pr_Status p)%Z -> pr_Body p = RError msg -> msg <> "" ->
  decodeOrError (reply_of p) zero dec = inl (client_error p).
Proof.
  intros Hs Hb Hm. unfold decodeOrError, reply_of, client_error. cbn [cr_Status cr_Text cr_Json]. rewrite Hb.
  assert ((pr_Status p <? 200)%Z || (300 <=? pr_Status p)%Z = true) as ->.
  { apply orb_true_iff. rewrite Z.ltb_lt, Z.leb_le. lia. }
  assert (error_of (json_of_body (RError msg)) = msg) as -> by reflexivity.
  by rewrite bool_decide_false.
Qed.

Lemma client_reads_store_error e {A} (zero : A) dec :
  decodeOrError (reply_of (writeStoreError e)) zero dec = inl (client_error (writeStoreError e)).
Proof. destruct e; (eapply client_reads_error; [right; cbn; lia|reflexivity|done]). Qed.

Lemma client_reads_refusal code msg {A} (zero : A) dec :
  (300 <= code)%Z -> exists e, decodeOrError (reply_of (writeError code msg)) zero dec = inl e.
Proof.
  intros Hs. unfold decodeOrError, reply_of. cbn [cr_Status pr_Status writeError writeJSON].
  assert ((code <? 200)%Z || (300 <=? code)%Z = true) as -> by (apply orb_true_iff; rewrite Z.ltb_lt, Z.leb_le; lia). by eexists.
Qed.

(** The client's answer to a list of hubs, or a store error, at the end of a handler. *)
Definition listed (st : T) : clientErr + list HubVisibility :=
  match ListHubsForUser st u with
  | inl e => inl (client_error (writeStoreError e))
  | inr hubs => inr hubs
  end.

Lemma respond_listed st' sent :
  match o_resp (respond_hubs st' sent u RHubs) with
  | Some p => decodeOrError (reply_of p) [] decode_hubs
  | None => inl CTransport
  end = listed st'.
Proof.
  unfold respond_hubs, listed. destruct (ListHubsForUser st' u) as [e|hubs]; cbn [o_resp done_with].
  - apply client_reads_store_error.
  - apply client_reads_hubs; [done|done|]. apply decode_hubs_roundtrip.
Qed.

Lemma doJSON_server {A} q (zero : A) dec :
  doJSON (server_net (BaseURL c) env st) q zero dec =
    match o_resp (serve up env st (wire jsonSize (BaseURL c) q)) with
    | Some p => decodeOrError (reply_of p) zero dec
    | None => inl CTransport
    end.
Proof. unfold doJSON, server_net. by destruct (o_resp _). Qed.

(** C36. Through the wire, the client's methods are the store's operations: each call reaches exactly
    that operation with exactly the caller's names and fields, escaped and unescaped on the way,
    leaves the state the operation leaves, and returns the listing of that state, or the error the
    operation gave, as status and message; a body over the server's limit changes nothing and is an
    error. *)
Theorem client_refines_store :
  (ListHubs (server_net (BaseURL c) env st) c = listed st) /\
  (forall cur d, cur <> "" ->
     let r := UpdateHub env st u cur d in
     let o := serve up env st (sent_as "PATCH" HubDirectoryPath (Some (updateBody cur d))) in
     let answer := cl_UpdateHub (server_net (BaseURL c) env st) c cur d in
     if (jsonSize (updateBody cur d) <=? decodeLimit)%Z then
       o_store o = snd r /\
       answer = match fst r with Some e => inl (client_error (writeStoreError e)) | None => listed (snd r) end
     else o_store o = st /\ exists e, answer = inl e) /\
  (forall n, n <> "" ->
     let r := DeleteHub env st u n in
     o_store (serve up env st (sent_as "DELETE" (HubDirectoryPath +:+ "?name=" +:+ QueryEscape n) None)) =
       snd r /\
     cl_DeleteHub (server_net (BaseURL c) env st) c n =
       match fst r with Some e => inl (client_error (writeStoreError e)) | None => listed (snd r) end) /\
  (forall h, h_Name h <> "" -> h_URL h <> "" -> h_HubID h <> "" ->
     let r := AddHub env st u h in
     let o := serve up env st (sent_as "POST" HubDirectoryPath (Some (addBody h))) in
     let answer := cl_AddHub (server_net (BaseURL c) env st) c h in
     if (jsonSize (addBody h) <=? decodeLimit)%Z then
       o_store o = snd r /\
       answer = match fst r with
       | inl e => inl (client_error (writeStoreError e))
       | inr (created, tok) =>
           match listed (snd r) with
           | inl e => inl e
           | inr hubs => inr (MkAddHubResponse hubs tok (negb created))
           end
       end
     else o_store o = st /\ exists e, answer = inl e).
Proof.
  split_and!.
  - unfold ListHubs. rewrite doJSON_server. fold (sent_as "GET" HubDirectoryPath None).
    rewrite wire_plain. unfold serve. change (mux _) with ToHubsList. unfold handleHubsList.
    rewrite known by done. apply respond_listed.
  - intros cur d Hc r o answer. unfold answer, o, cl_UpdateHub. rewrite doJSON_server.
    fold (sent_as "PATCH" HubDirectoryPath (Some (updateBody cur d))).
    rewrite wire_plain. unfold serve. change (mux _) with ToHubsUpdate. unfold handleHubsUpdate.
    rewrite known by done. cbn [pq_Body readCapped]. destruct (_ <=? _)%Z; [|split; [done|]; by apply client_reads_refusal].
    rewrite update_roundtrip, bool_decide_false by done.
    fold r. destruct r as [[e|] st']; cbn [fst snd].
    + split; [done|]. apply client_reads_store_error.
    + split; [|apply respond_listed]. unfold respond_hubs. by destruct (ListHubsForUser st' u).
  - intros n Hn r. unfold cl_DeleteHub. rewrite doJSON_server.
    fold (sent_as "DELETE" (HubDirectoryPath +:+ "?name=" +:+ QueryEscape n) None).
    rewrite wire_delete. unfold serve. change (mux _) with ToHubsDelete. unfold handleHubsDelete.
    rewrite known by done. cbn [pq_Query]. rewrite lookup_singleton_eq. cbn [from_option id].
    rewrite bool_decide_false by done. fold r. destruct r as [[e|] st']; cbn [fst snd].
    + split; [done|]. apply client_reads_store_error.
    + split; [|apply respond_listed]. unfold respond_hubs. by destruct (ListHubsForUser st' u).
  - intros h Hn Hu Hi r o answer. unfold answer, o, cl_AddHub. rewrite doJSON_server.
    fold (sent_as "POST" HubDirectoryPath (Some (addBody h))).
    rewrite wire_plain. unfold serve. change (mux _) with ToHubsAdd. unfold handleHubsAdd.
    rewrite known by done. cbn [pq_Body readCapped]. destruct (_ <=? _)%Z; [|split; [done|]; by apply client_reads_refusal].
    rewrite add_roundtrip.
    cbn [ar_Name ar_URL ar_HubID ar_ViewerToken ar_AdminToken ar_OrgName].
    rewrite !bool_decide_false by done. cbn [orb].
    assert (MkHub (h_Name h) (h_HubID h) (h_URL h) (h_ViewerToken h) (h_AdminToken h) (h_OrgName h) = h)
      as -> by (by destruct h).
    fold r. destruct r as [[e|[created tok]] st']; cbn [fst snd].
    + split; [done|]. apply client_reads_store_error.
    + unfold respond_hubs, listed. destruct (ListHubsForUser st' u) as [e|hubs]; cbn [o_store o_resp done_with].
      * split; [done|]. apply client_reads_store_error.
      * split; [done|]. apply client_reads_hubs; [done|done|]. apply decode_added_roundtrip.
Qed.

End directory.

End wire_facts.

(** ** At a concrete portal *)

Definition operator_client : Client := MkClient demo_base "operator".
Definition some_text (b : respBody) : string := "{}".

Lemma client_refines_store_witness :
  BearerToken operator_client <> "" /\
  ListHubs (server_net no_size one_machine some_text demo_base (demo_fenv "") portal_state) operator_client =
    inr home_listed.
Proof.
  assert (BearerToken operator_client <> "") as Hb by discriminate.
  assert (trim_slashes (BaseURL operator_client) = BaseURL operator_client) as Ht by (by vm_compute).
  split; [exact Hb|].
  destruct (client_refines_store no_size one_machine some_text (fun _ _ => ltac:(discriminate)) (demo_fenv "")
    portal_state LocalUser operator_client Ht Hb operator_known) as [H _].
  etransitivity; [exact H|]. by vm_compute.
Defined.
