(* ===== verification/Aggregate.v ===== *)
(** * Merging portal sources ([internal/portalaggregate/portalaggregate.go])

    Hubs and agents of several portals in one view, keyed by their stable ids.  The sources are
    fetched concurrently; the order in which their results arrive is the list the merge folds
    over. *)

From S2P Require Import Prelude Http PortalProtocol PortalServer PortalClient.
From Stdlib Require Import ZArith Lia Ascii String.
From stdpp Require Import base gmap strings list fin_maps.

Record HubSource := MkHubSource {
  hs_SourceName : string;
  hs_Name : string;
  hs_URL : string;
  hs_CanManage : bool;
  hs_OrgName : string
}.

Record MergedHub := MkMergedHub {
  mh_HubID : string;
  mh_Name : string;
  mh_URL : string;
  mh_Sources : list HubSource;
  mh_PreferredSource : string
}.

Record ServiceInfo := MkServiceInfo { si_Port : Z; si_Name : string; si_Protocol : string }.

Record MergedAgent := MkMergedAgent {
  ma_AgentID : string;
  ma_HubID : string;
  ma_HubName : string;
  ma_MachineRegistrationID : string;
  ma_MachineName : string;
  ma_DisplayName : string;
  ma_Online : bool;
  ma_SessionCount : Z;
  ma_Hostname : string;
  ma_OS : string;
  ma_AgentVersion : string;
  ma_Tags : list string;
  ma_Location : string;
  ma_Owner : string;
  ma_RegisteredAt : string;
  ma_LastSeen : string;
  ma_Services : list ServiceInfo;
  ma_Capabilities : option (list (string * json));
  ma_LinkedAgentIDs : list string;
  ma_Sources : list string
}.

Record Result := MkResult {
  res_Hubs : list MergedHub;
  res_Agents : list MergedAgent;
  res_UnreachableSources : list string
}.

(** What one source delivered: an error of either call, or both lists. *)
Record fetchResult := FetchResult {
  fr_name : string;
  fr_data : option (list HubVisibility * list FleetAgent)
}.

(** ** Keys *)

Definition hubKey (hv : HubVisibility) : string :=
  if hv_ID hv <>s "" then "id:" +:+ hv_ID hv
  else "name:" +:+ hv_Name hv +:+ "|" +:+ hv_URL hv.

Definition agentKeyFromFleet (fa : FleetAgent) : string :=
  if (fa_HubID fa <>s "") && (fa_AgentID fa <>s "") then fa_HubID fa +:+ "|" +:+ fa_AgentID fa
  else fa_Hub fa +:+ "|" +:+ fa_ID fa.

(** ** Selection *)

Definition is_local (s : HubSource) : bool := hs_SourceName s =s "local".

(** The first source that passes the first test that any passes; the first source otherwise. *)
Definition pick {A} (tests : list (HubSource -> bool)) (get : HubSource -> A) (none : A)
    (sources : list HubSource) : A :=
  match find_first (fun _ => true)
          (omap (fun test => find_first test sources) (tests ++ [fun _ => true])) with
  | Some s => get s
  | None => none
  end.

Definition pickHubName (current : string) : list HubSource -> string :=
  pick [is_local; hs_CanManage] hs_Name current.
Definition pickHubURL : list HubSource -> string := pick [is_local; hs_CanManage] hs_URL "".
Definition pickPreferredSource : list HubSource -> string :=
  pick [fun s => hs_CanManage s && is_local s; hs_CanManage] hs_SourceName "".

(** ** Conversion *)

Definition derefStr (o : option string) : string := default "" o.

Definition agentDisplayName (fa : FleetAgent) : string :=
  match fa_DisplayName fa with
  | Some d => if d <>s "" then d else fa_ID fa
  | None => fa_ID fa
  end.

Definition convertService (m : list (string * json)) : ServiceInfo :=
  MkServiceInfo
    (match json_key m "port" with Some (JNum n) => n | _ => 0%Z end)
    (as_string (json_key m "name")) (as_string (json_key m "protocol")).
Definition convertServices (raw : list (list (string * json))) : list ServiceInfo :=
  map convertService raw.

Definition appendUnique (s : list string) (v : string) : list string :=
  if existsb (fun x => x =s v) s then s else s ++ [v].

(** ** The merge *)

Definition hubState : Type := MergedHub * list HubSource.
Abbreviation hubMap := (gmap string hubState).
Abbreviation agentMap := (gmap string MergedAgent).

Definition sourceOf (name : string) (hv : HubVisibility) : HubSource :=
  MkHubSource name (hv_Name hv) (hv_URL hv) (hv_CanManage hv) (hv_OrgName hv).

Definition mergeHub (name : string) (m : hubMap) (hv : HubVisibility) : hubMap :=
  let '(hub, sources) := default (MkMergedHub (hv_ID hv) (hv_Name hv) (hv_URL hv) [] "", [])
                           (m !! hubKey hv) in
  <[hubKey hv := (hub, sources ++ [sourceOf name hv])]> m.

Definition newAgent (fa : FleetAgent) : MergedAgent :=
  MkMergedAgent (fa_AgentID fa) (fa_HubID fa) (fa_Hub fa) (fa_MachineRegistrationID fa) (fa_ID fa)
    (agentDisplayName fa) false (fa_SessionCount fa) (derefStr (fa_Hostname fa))
    (derefStr (fa_OS fa)) (derefStr (fa_AgentVersion fa)) (fa_Tags fa) (derefStr (fa_Location fa))
    (derefStr (fa_Owner fa)) (derefStr (fa_RegisteredAt fa)) (derefStr (fa_LastSeen fa))
    (convertServices (fa_Services fa)) (fa_Capabilities fa) [] [].

Definition or_else (a b : string) : string := if a =s "" then b else a.
Definition list_or {A} (a b : list A) : list A := match a with [] => b | _ => a end.

(** A further source for a known agent: the first nonempty value of each field stays, the larger
    session count wins. *)
Definition addAgent (ma : MergedAgent) (fa : FleetAgent) : MergedAgent :=
  MkMergedAgent (ma_AgentID ma) (ma_HubID ma) (or_else (ma_HubName ma) (fa_Hub fa))
    (ma_MachineRegistrationID ma) (ma_MachineName ma) (ma_DisplayName ma) (ma_Online ma)
    (if (ma_SessionCount ma <? fa_SessionCount fa)%Z then fa_SessionCount fa else ma_SessionCount ma)
    (or_else (ma_Hostname ma) (derefStr (fa_Hostname fa))) (or_else (ma_OS ma) (derefStr (fa_OS fa)))
    (or_else (ma_AgentVersion ma) (derefStr (fa_AgentVersion fa))) (list_or (ma_Tags ma) (fa_Tags fa))
    (or_else (ma_Location ma) (derefStr (fa_Location fa)))
    (or_else (ma_Owner ma) (derefStr (fa_Owner fa)))
    (or_else (ma_RegisteredAt ma) (derefStr (fa_RegisteredAt fa)))
    (or_else (ma_LastSeen ma) (derefStr (fa_LastSeen fa)))
    (list_or (ma_Services ma) (convertServices (fa_Services fa)))
    (match ma_Capabilities ma with Some c => Some c | None => fa_Capabilities fa end)
    (ma_LinkedAgentIDs ma) (ma_Sources ma).

Definition seen (name : string) (fa : FleetAgent) (ma : MergedAgent) : MergedAgent :=
  MkMergedAgent (ma_AgentID ma) (ma_HubID ma) (ma_HubName ma) (ma_MachineRegistrationID ma)
    (ma_MachineName ma) (ma_DisplayName ma) (fa_AgentConnected fa || ma_Online ma)
    (ma_SessionCount ma) (ma_Hostname ma) (ma_OS ma) (ma_AgentVersion ma) (ma_Tags ma)
    (ma_Location ma) (ma_Owner ma) (ma_RegisteredAt ma) (ma_LastSeen ma) (ma_Services ma)
    (ma_Capabilities ma) (ma_LinkedAgentIDs ma) (appendUnique (ma_Sources ma) name).

Definition mergeAgent (name : string) (m : agentMap) (fa : FleetAgent) : agentMap :=
  let ma := match m !! agentKeyFromFleet fa with
            | None => newAgent fa
            | Some ma => addAgent ma fa
            end in
  <[agentKeyFromFleet fa := seen name fa ma]> m.

Record working := Working { w_hubs : hubMap; w_agents : agentMap; w_unreachable : list string }.

Definition mergeSource (w : working) (fr : fetchResult) : working :=
  match fr_data fr with
  | None => Working (w_hubs w) (w_agents w) (w_unreachable w ++ [fr_name fr])
  | Some (hubs, agents) =>
      Working (fold_left (mergeHub (fr_name fr)) hubs (w_hubs w))
        (fold_left (mergeAgent (fr_name fr)) agents (w_agents w)) (w_unreachable w)
  end.

Definition set_links (ma : MergedAgent) (links : list string) : MergedAgent :=
  MkMergedAgent (ma_AgentID ma) (ma_HubID ma) (ma_HubName ma) (ma_MachineRegistrationID ma)
    (ma_MachineName ma) (ma_DisplayName ma) (ma_Online ma) (ma_SessionCount ma) (ma_Hostname ma)
    (ma_OS ma) (ma_AgentVersion ma) (ma_Tags ma) (ma_Location ma) (ma_Owner ma) (ma_RegisteredAt ma)
    (ma_LastSeen ma) (ma_Services ma) (ma_Capabilities ma) links (ma_Sources ma).

Definition finishHub (hs : hubState) : MergedHub :=
  let '(hub, sources) := hs in
  MkMergedHub (mh_HubID hub) (pickHubName (mh_Name hub) sources) (pickHubURL sources) sources
    (pickPreferredSource sources).

Section merge.
  Context {RO : RangeOrder}.

(** [agentIDIndex]: the keys of each agent id, in the order of the range. *)
Definition agentKeys (m : agentMap) (id : string) : list string :=
  fst <$> List.filter (fun kv => (ma_AgentID (snd kv) <>s "") && (ma_AgentID (snd kv) =s id)) (range m).

Definition linkAgent (m : agentMap) (key : string) (ma : MergedAgent) : MergedAgent :=
  if ma_AgentID ma <>s "" then
    set_links ma (fold_left (fun links other => if other <>s key then appendUnique links other else links)
                    (agentKeys m (ma_AgentID ma)) (ma_LinkedAgentIDs ma))
  else ma.

Definition gather (arrived : list fetchResult) : working :=
  fold_left mergeSource arrived (Working ∅ ∅ []).

Definition merge (arrived : list fetchResult) : Result :=
  let w := gather arrived in
  MkResult ((fun kv => finishHub (snd kv)) <$> range (w_hubs w))
    ((fun kv => linkAgent (w_agents w) (fst kv) (snd kv)) <$> range (w_agents w))
    (w_unreachable w).

End merge.

(** ** Folding into a map by key *)

Section keyed.
  Context {X V : Type} (key : X -> string) (upd : option V -> X -> V).

Definition keyed (m : gmap string V) (x : X) : gmap string V := <[key x := upd (m !! key x) x]> m.

(** What a key ends with depends on the elements of that key only. *)
Lemma keyed_lookup l m k :
  fold_left keyed l m !! k =
    fold_left (fun o x => Some (upd o x)) (List.filter (fun x => key x =s k) l) (m !! k).
Proof.
  revert m. induction l as [|x l IH]; intros m; [done|]. cbn [fold_left List.filter]. rewrite IH.
  unfold keyed at 1. rewrite lookup_insert. repeat case_decide; case_bool_decide; subst; done.
Qed.

End keyed.

Lemma fold_left_concat {A B C} (f : A -> B -> A) (g : C -> list B) l a :
  fold_left (fun a c => fold_left f (g c) a) l a = fold_left f (flat_map g l) a.
Proof. revert a. induction l as [|c l IH]; intros a; [done|]. cbn. by rewrite IH, fold_left_app. Qed.

Lemma fold_left_map {A B C} (f : A -> C -> A) (g : B -> C) l a :
  fold_left f (map g l) a = fold_left (fun a x => f a (g x)) l a.
Proof. revert a. induction l as [|x l IH]; intros a; [done|]. cbn. apply IH. Qed.

Lemma fold_left_ext {A B} (f g : A -> B -> A) l a :
  (forall a b, f a b = g a b) -> fold_left f l a = fold_left g l a.
Proof. intros H. revert a. induction l as [|x l IH]; intros a; [done|]. cbn. by rewrite H. Qed.

(** ** What the sources advertise *)

Definition hubs_of (fr : fetchResult) : list (string * HubVisibility) :=
  match fr_data fr with Some (hubs, _) => map (pair (fr_name fr)) hubs | None => [] end.
Definition agents_of (fr : fetchResult) : list (string * FleetAgent) :=
  match fr_data fr with Some (_, agents) => map (pair (fr_name fr)) agents | None => [] end.

Definition advertised (k : string) (arrived : list fetchResult) : list (string * HubVisibility) :=
  List.filter (fun p => hubKey (snd p) =s k) (flat_map hubs_of arrived).
Definition reported (k : string) (arrived : list fetchResult) : list (string * FleetAgent) :=
  List.filter (fun p => agentKeyFromFleet (snd p) =s k) (flat_map agents_of arrived).

Definition upd_hub (o : option hubState) (p : string * HubVisibility) : hubState :=
  let '(hub, sources) :=
    default (MkMergedHub (hv_ID (snd p)) (hv_Name (snd p)) (hv_URL (snd p)) [] "", []) o in
  (hub, sources ++ [sourceOf (fst p) (snd p)]).
Definition upd_agent (o : option MergedAgent) (p : string * FleetAgent) : MergedAgent :=
  seen (fst p) (snd p) (match o with None => newAgent (snd p) | Some ma => addAgent ma (snd p) end).

Lemma gather_parts arrived w :
  let w' := fold_left mergeSource arrived w in
  w_hubs w' = fold_left (keyed (fun p => hubKey (snd p)) upd_hub) (flat_map hubs_of arrived) (w_hubs w) /\
  w_agents w' = fold_left (keyed (fun p => agentKeyFromFleet (snd p)) upd_agent)
    (flat_map agents_of arrived) (w_agents w) /\
  w_unreachable w' = w_unreachable w ++
    omap (fun fr => match fr_data fr with None => Some (fr_name fr) | Some _ => None end) arrived.
Proof.
  revert w. induction arrived as [|fr l IH]; intros w; cbn zeta.
  { cbn. by rewrite app_nil_r. }
  cbn [fold_left flat_map]. destruct (IH (mergeSource w fr)) as (E1 & E2 & E3). rewrite E1, E2, E3.
  rewrite !fold_left_app. unfold mergeSource, hubs_of at 3, agents_of at 3.
  destruct fr as [name [[hubs agents]|]]; cbn [fr_data fr_name w_hubs w_agents w_unreachable].
  - rewrite !fold_left_map. split_and!; [| |done].
    + f_equal. apply fold_left_ext. intros m hv. unfold mergeHub, keyed, upd_hub. cbn [fst snd].
      by destruct (default _ _).
    + done.
  - split_and!; [done..|]. cbn. by rewrite <- app_assoc.
Qed.

(** ** The reference: each field as a function of what was reported under the key *)

Definition nonempty_list {A} (l : list A) : bool := match l with [] => false | _ => true end.
Definition first_nonempty (l : list string) : string := default "" (find_first (fun s => s <>s "") l).
Definition first_list {A} (l : list (list A)) : list A := default [] (find_first nonempty_list l).
Fixpoint first_some {A} (l : list (option A)) : option A :=
  match l with [] => None | Some a :: _ => Some a | None :: l' => first_some l' end.
Fixpoint max_list (l : list Z) : Z :=
  match l with [] => 0%Z | [x] => x | x :: l' => Z.max x (max_list l') end.
Definition distinct (l : list string) : list string := fold_left appendUnique l [].

Definition ref_agent (os : list (string * FleetAgent)) : option MergedAgent :=
  match os with
  | [] => None
  | (_, fa) :: _ =>
      let fs := map snd os in
      let field get := first_nonempty (map (fun fa => derefStr (get fa)) fs) in
      Some (MkMergedAgent (fa_AgentID fa) (fa_HubID fa) (first_nonempty (map fa_Hub fs))
        (fa_MachineRegistrationID fa) (fa_ID fa) (agentDisplayName fa)
        (existsb fa_AgentConnected fs) (max_list (map fa_SessionCount fs))
        (field fa_Hostname) (field fa_OS) (field fa_AgentVersion) (first_list (map fa_Tags fs))
        (field fa_Location) (field fa_Owner) (field fa_RegisteredAt) (field fa_LastSeen)
        (first_list (map (fun fa => convertServices (fa_Services fa)) fs))
        (first_some (map fa_Capabilities fs)) [] (distinct (map fst os)))
  end.





Lemma distinct_snoc l x : distinct (l ++ [x]) = appendUnique (distinct l) x.
Proof. unfold distinct. by rewrite fold_left_app. Qed.



(** The hub under a key: what its advertisements say. *)
Lemma hub_fold ps :
  fold_left (fun o p => Some (upd_hub o p)) ps None =
    match ps with
    | [] => None
    | (_, hv) :: _ => Some (MkMergedHub (hv_ID hv) (hv_Name hv) (hv_URL hv) [] "",
                            map (fun p => sourceOf (fst p) (snd p)) ps)
    end.
Proof.
  destruct ps as [|[n hv] ps]; [done|]. cbn [fold_left]. unfold upd_hub at 2. cbn [from_option fst snd app id].
  assert (forall l h s, fold_left (fun o p => Some (upd_hub o p)) l (Some (h, s)) =
    Some (h, s ++ map (fun p => sourceOf (fst p) (snd p)) l)) as H.
  { induction l as [|q l IH]; intros h s; [cbn; by rewrite app_nil_r|].
    cbn [fold_left map]. unfold upd_hub at 2. cbn [from_option id]. by rewrite IH, <- app_assoc. }
  by rewrite H.
Qed.

(** ** The merged views *)

Section views.
  Context {RO : RangeOrder}.
  Implicit Types (arrived : list fetchResult).


Lemma gather_hubs arrived k :
  w_hubs (gather arrived) !! k =
    match advertised k arrived with
    | [] => None
    | (_, hv) :: _ => Some (MkMergedHub (hv_ID hv) (hv_Name hv) (hv_URL hv) [] "",
                            map (fun p => sourceOf (fst p) (snd p)) (advertised k arrived))
    end.
Proof.
  destruct (gather_parts arrived (Working ∅ ∅ [])) as (E & _ & _). unfold gather. rewrite E.
  rewrite keyed_lookup. cbn [w_hubs]. rewrite lookup_empty. apply hub_fold.
Qed.

Lemma elem_of_appendUnique l v x : x ∈ appendUnique l v <-> x ∈ l \/ x = v.
Proof.
  unfold appendUnique. destruct (existsb _ l) eqn:E.
  - apply existsb_elem_of in E as (y & Hy & ->%bool_decide_eq_true). naive_solver.
  - rewrite elem_of_app, list_elem_of_singleton. done.
Qed.















(** ** What does not depend on the order of arrival *)

Lemma max_list_spec l : l <> [] -> max_list l ∈ l /\ forall x, x ∈ l -> (x <= max_list l)%Z.
Proof.
  induction l as [|x [|y l] IH]; intros Hl; [done| |].
  - split; [by left|]. intros z Hz%list_elem_of_singleton. cbn. lia.
  - destruct IH as [H1 H2]; [done|]. change (max_list (x :: y :: l)) with (Z.max x (max_list (y :: l))).
    split.
    + destruct (Z.max_spec x (max_list (y :: l))) as [[_ ->]|[_ ->]]; [by right|by left].
    + intros z [-> |Hz]%elem_of_cons; [lia|]. specialize (H2 z Hz). lia.
Qed.

Lemma max_list_perm l k : l ≡ₚ k -> max_list l = max_list k.
Proof.
  intros Hp. destruct l as [|x l]; [by apply Permutation_nil_l in Hp as <-|].
  assert (k <> []) as Hk by (intros ->; by apply Permutation_nil_r in Hp).
  destruct (max_list_spec (x :: l)) as [H1 H2]; [done|]. destruct (max_list_spec k Hk) as [H3 H4].
  revert H1 H2 H3 H4. generalize (max_list (x :: l)), (max_list k). intros a b H1 H2 H3 H4.
  rewrite Hp in H1. rewrite <- Hp in H3. specialize (H4 _ H1). specialize (H2 _ H3). lia.
Qed.

Lemma existsb_perm {A} (f : A -> bool) l k : l ≡ₚ k -> existsb f l = existsb f k.
Proof.
  intros Hp. apply eq_true_iff_eq. rewrite !existsb_elem_of. by setoid_rewrite Hp.
Qed.

Lemma elem_of_distinct l x : x ∈ distinct l <-> x ∈ l.
Proof.
  induction l as [|y l IH] using rev_ind; [done|].
  rewrite distinct_snoc, elem_of_appendUnique, elem_of_app, list_elem_of_singleton. by rewrite IH.
Qed.

Lemma filter_perm {A} (f : A -> bool) l k : l ≡ₚ k -> List.filter f l ≡ₚ List.filter f k.
Proof.
  induction 1 as [|x l k _ IH|x y l|l m k _ IH1 _ IH2]; cbn; [done| | |by etrans].
  - destruct (f x); [by f_equiv|done].
  - destruct (f x), (f y); try done. apply Permutation_swap.
Qed.

Lemma reported_perm k l l' : l ≡ₚ l' -> reported k l ≡ₚ reported k l'.
Proof. intros Hp. apply filter_perm. by apply Permutation_flat_map. Qed.
Lemma advertised_perm k l l' : l ≡ₚ l' -> advertised k l ≡ₚ advertised k l'.
Proof. intros Hp. apply filter_perm. by apply Permutation_flat_map. Qed.

(** The order in which the sources answer only shows in the display fields: under another order
    the same keys are reported, and each agent has the same online flag, the same session count,
    and the same set of sources; the hubs list the same advertisements. *)
Theorem merge_order arrived arrived' k :
  arrived ≡ₚ arrived' ->
  match ref_agent (reported k arrived), ref_agent (reported k arrived') with
  | Some a, Some b => ma_Online a = ma_Online b /\ ma_SessionCount a = ma_SessionCount b /\
      (forall s, s ∈ ma_Sources a <-> s ∈ ma_Sources b)
  | None, None => True
  | _, _ => False
  end /\
  match w_hubs (gather arrived) !! k, w_hubs (gather arrived') !! k with
  | Some (_, l), Some (_, l') => l ≡ₚ l'
  | None, None => True
  | _, _ => False
  end /\
  res_UnreachableSources (merge arrived) ≡ₚ res_UnreachableSources (merge arrived').
Proof.
  intros Hp. split_and!.
  - pose proof (reported_perm k _ _ Hp) as Hr.
    destruct (reported k arrived) as [|[n fa] os] eqn:E1, (reported k arrived') as [|[n' fa'] os'] eqn:E2.
    + done.
    + by apply Permutation_nil_l in Hr.
    + by apply Permutation_nil_r in Hr.
    + cbn [ref_agent ma_Online ma_SessionCount ma_Sources]. split_and!.
      * apply existsb_perm. by apply fmap_Permutation.
      * apply max_list_perm. by do 2 apply fmap_Permutation.
      * intros s. rewrite !elem_of_distinct. apply (fmap_Permutation fst) in Hr.
        change (s ∈ fst <$> ((n, fa) :: os) <-> s ∈ fst <$> ((n', fa') :: os')). by rewrite Hr.
  - pose proof (advertised_perm k _ _ Hp) as Hr. rewrite !gather_hubs.
    destruct (advertised k arrived) as [|[n hv] l], (advertised k arrived') as [|[n' hv'] l'].
    + done.
    + by apply Permutation_nil_l in Hr.
    + by apply Permutation_nil_r in Hr.
    + by apply fmap_Permutation.
  - unfold merge. cbn [res_UnreachableSources]. unfold gather.
    destruct (gather_parts arrived (Working ∅ ∅ [])) as (_ & _ & ->).
    destruct (gather_parts arrived' (Working ∅ ∅ [])) as (_ & _ & ->).
    cbn [w_unreachable app]. by rewrite Hp.
Qed.

End views.

(** ** Examples *)

Definition hv (id name url : string) (cm : bool) : HubVisibility := MkHubVisibility id name url cm "".
Definition agent (hub hubID id agentID : string) (connected : bool) (sessions : Z) : FleetAgent :=
  MkFleetAgent id agentID "" connected sessions None None None None [] None None None None [] None
    hub "" hubID.
Definition two_sources : list fetchResult :=
  [FetchResult "work" (Some ([hv "h1" "lab" "https://a" true], [agent "lab" "h1" "barn" "a1" false 2]));
   FetchResult "local" (Some ([hv "h1" "mine" "https://b" false; hv "h2" "other" "https://c" true],
     [agent "mine" "h1" "barn" "a1" true 1; agent "other" "h2" "barn" "a1" true 0]));
   FetchResult "down" None].

Example two_sources_merged :
  let r := merge two_sources in
  (map (fun h => (mh_HubID h, mh_Name h, mh_URL h, mh_PreferredSource h)) (res_Hubs r),
   map (fun a => (ma_HubID a, ma_Online a, ma_SessionCount a, ma_LinkedAgentIDs a, ma_Sources a))
     (res_Agents r),
   res_UnreachableSources r) =
  ([("h1", "mine", "https://b", "work"); ("h2", "other", "https://c", "local")],
   [("h1", true, 2%Z, ["h2|a1"], ["work"; "local"]); ("h2", true, 0%Z, ["h1|a1"], ["local"])],
   ["down"]).
Proof. vm_compute. done. Qed.

Lemma merge_order_witness :
  two_sources ≡ₚ rev two_sources /\
  res_UnreachableSources (merge two_sources) ≡ₚ res_UnreachableSources (merge (rev two_sources)).
Proof.
  split; [apply Permutation_rev|]. apply (merge_order two_sources (rev two_sources) "h1|a1").
  apply Permutation_rev.
Defined.

(** The comments promise the alphabetically first manageable source; it is the first to arrive. *)
Definition two_managers : list fetchResult :=
  [FetchResult "beta" (Some ([hv "h1" "b" "https://b" true], []));
   FetchResult "alpha" (Some ([hv "h1" "a" "https://a" true], []))].
Example first_to_arrive_wins :
  (map mh_Name (res_Hubs (merge two_managers)), map mh_Name (res_Hubs (merge (rev two_managers)))) =
  (["b"], ["a"]).
Proof. vm_compute. done. Qed.

(** Keys join their parts with a bar that names may contain: two different hubs of 1.0 portals can
    fall together, and so can two agents. *)
Example fallback_keys_collide :
  hubKey (hv "" "a|b" "c" true) = hubKey (hv "" "a" "b|c" true) /\
  agentKeyFromFleet (agent "x|y" "" "z" "" true 0) = agentKeyFromFleet (agent "x" "" "y|z" "" true 0).
Proof. by vm_compute. Qed.
