(* ===== verification/Flags.v ===== *)
(** * Command-line flags ([flag.FlagSet.Parse], [permuteArgs] in [internal/hub/hub.go] and
    [internal/client/admin.go])

    [permuteArgs] moves the flags before the positional arguments, because package [flag] stops at
    the first argument that is no flag.  Both are functions on the argument list; a flag set is the
    list of its names with the boolean ones marked. *)

From S2P Require Import Prelude.
From Stdlib Require Import ZArith Lia Ascii String.
From stdpp Require Import base gmap strings list.

Definition flagSet : Type := list (string * bool).
Definition Lookup (fl : flagSet) (name : string) : option bool :=
  snd <$> find_first (fun f => fst f =s name) fl.

(** Values as their text; a boolean flag holds [true] or [false]. *)
Abbreviation flagValues := (gmap string string).
Definition string_value (vals : flagValues) (name : string) : string := default "" (vals !! name).
Definition bool_value (vals : flagValues) (name : string) : bool := string_value vals name =s "true".

Inductive parsed := ParseHelp | ParseError | ParseOk (vals : flagValues) (args : list string).

Definition ParseBool (s : string) : option bool :=
  if existsb (fun t => s =s t) ["1"; "t"; "T"; "TRUE"; "true"; "True"] then Some true
  else if existsb (fun t => s =s t) ["0"; "f"; "F"; "FALSE"; "false"; "False"] then Some false
  else None.

(** ** One flag *)

Definition dash : ascii := "-".
Definition equals : ascii := "=".

(** An argument [parseOne] takes for a flag, with its name and value: [None] for a syntax error. *)
Definition flag_like (s : string) : bool :=
  match bytes s with c :: _ :: _ => Ascii.eqb c dash | _ => false end.

Definition flag_parts (s : string) : option (string * option string) :=
  let name := trim_prefix (trim_prefix s "-") "-" in
  match bytes name with
  | [] => None
  | c :: r =>
      if Ascii.eqb c dash || Ascii.eqb c equals then None
      else match cut_bytes [equals] r with
           | Some (a, b) => Some (of_bytes (c :: a), Some (of_bytes b))
           | None => Some (name, None)
           end
  end.

Inductive oneFlag :=
  | FlagHelp
  | FlagError
  | FlagSet (name value : string)     (** the argument sets it *)
  | FlagNeeds (name : string).        (** the next argument is its value *)

Definition one_flag (fl : flagSet) (s : string) : oneFlag :=
  match flag_parts s with
  | None => FlagError
  | Some (name, value) =>
      match Lookup fl name with
      | None => if (name =s "help") || (name =s "h") then FlagHelp else FlagError
      | Some true =>
          match ParseBool (default "true" value) with
          | Some b => FlagSet name (if b then "true" else "false")
          | None => FlagError
          end
      | Some false => match value with Some v => FlagSet name v | None => FlagNeeds name end
      end
  end.

(** [FlagSet.Parse] *)
Fixpoint Parse (fl : flagSet) (vals : flagValues) (args : list string) : parsed :=
  match args with
  | [] => ParseOk vals []
  | s :: rest =>
      if negb (flag_like s) then ParseOk vals args
      else if s =s "--" then ParseOk vals rest
      else match one_flag fl s with
      | FlagHelp => ParseHelp
      | FlagError => ParseError
      | FlagSet name v => Parse fl (<[name := v]> vals) rest
      | FlagNeeds name =>
          match rest with
          | [] => ParseError
          | v :: rest' => Parse fl (<[name := v]> vals) rest'
          end
      end
  end.

(** ** The permutation *)

Definition containsEquals (s : string) : bool := existsb (Ascii.eqb equals) (bytes s).

(** [strings.TrimLeft(a, "-")] *)
Definition flag_name (a : string) : string := of_bytes (drop_while (Ascii.eqb dash) (bytes a)).

(** Whether the argument after this one is moved along with it. *)
Definition takes_next (fl : flagSet) (a : string) : bool :=
  negb (containsEquals a) &&
  match Lookup fl (flag_name a) with Some isBool => negb isBool | None => true end.

Fixpoint permute (fl : flagSet) (args : list string) : list string * list string :=
  match args with
  | [] => ([], [])
  | a :: rest =>
      if a =s "--" then ([], rest)
      else if has_prefix a "-" then
        match rest with
        | v :: rest' =>
            if takes_next fl a then let '(fs, ps) := permute fl rest' in (a :: v :: fs, ps)
            else let '(fs, ps) := permute fl rest in (a :: fs, ps)
        | [] => ([a], [])
        end
      else let '(fs, ps) := permute fl rest in (fs, a :: ps)
  end.
Definition permuteArgs (fl : flagSet) (args : list string) : list string :=
  let '(fs, ps) := permute fl args in fs ++ ps.

(** ** The reference: flags anywhere

    What the users are promised: flags may stand between the positional arguments, and [--] ends
    them. *)

Fixpoint anywhere (fl : flagSet) (vals : flagValues) (args : list string) : parsed :=
  let positional a p := match p with ParseOk vals ps => ParseOk vals (a :: ps) | _ => p end in
  match args with
  | [] => ParseOk vals []
  | s :: rest =>
      if s =s "--" then ParseOk vals rest
      else if negb (flag_like s) then positional s (anywhere fl vals rest)
      else match one_flag fl s with
      | FlagHelp => ParseHelp
      | FlagError => ParseError
      | FlagSet name v => anywhere fl (<[name := v]> vals) rest
      | FlagNeeds name =>
          match rest with
          | [] => ParseError
          | v :: rest' => anywhere fl (<[name := v]> vals) rest'
          end
      end
  end.

(** ** The permutation implements the reference *)

#[local] Arguments Ascii.eqb : simpl never.

Lemma flag_like_prefix s : flag_like s = true -> has_prefix s "-" = true.
Proof.
  unfold flag_like, has_prefix. cbn [bytes]. change (bytes "-") with [dash]. cbn [drop_prefix].
  destruct (bytes s) as [|c [|d l]]; try done. intros E%Ascii.eqb_eq. by rewrite E.
Qed.

Lemma prefix_flag_like s : has_prefix s "-" = true -> s <> "-" -> flag_like s = true.
Proof.
  intros (r & ->)%has_prefix_iff Hne. unfold flag_like. rewrite bytes_app.
  change (bytes "-") with [dash]. destruct (bytes r) as [|c l] eqn:E; [|cbn; by rewrite Ascii.eqb_refl].
  exfalso. apply Hne. rewrite <- (of_bytes_bytes r), E. done.
Qed.

(** The name and the value are read alike on both sides. *)
Lemma flag_parts_name s name value :
  flag_like s = true -> flag_parts s = Some (name, value) ->
  containsEquals s = bool_decide (is_Some value) /\ (value = None -> flag_name s = name).
Proof.
  intros Hl Hp. apply flag_like_prefix in Hl as Hpre. apply has_prefix_iff in Hpre as [r ->].
  unfold flag_parts in Hp. rewrite trim_prefix_app in Hp.
  assert (containsEquals ("-" +:+ r) = containsEquals (trim_prefix r "-") /\
    (forall c l, bytes (trim_prefix r "-") = c :: l -> Ascii.eqb c dash = false ->
       flag_name ("-" +:+ r) = trim_prefix r "-")) as [He Hn].
  { unfold trim_prefix. change (bytes "-") with [dash]. cbn [drop_prefix].
    unfold containsEquals, flag_name. rewrite bytes_app. change (bytes "-") with [dash].
    destruct (bytes r) as [|c l] eqn:Er.
    - split; [by rewrite Er|]. by rewrite Er.
    - destruct (Ascii.eqb dash c) eqn:Hc.
      + apply Ascii.eqb_eq in Hc as <-. rewrite bytes_of_bytes. split; [done|].
        intros d m -> Hd. cbn. by rewrite (Ascii.eqb_sym dash d), Hd.
      + rewrite Er. split; [done|]. intros d m [= <- <-] Hd. cbn. rewrite Hc.
        by rewrite <- (of_bytes_bytes r), Er. }
  rewrite He.
  destruct (bytes (trim_prefix r "-")) as [|c l] eqn:Eb; [done|].
  destruct (Ascii.eqb c dash) eqn:Hd; [done|]. destruct (Ascii.eqb c equals) eqn:Hq; [done|].
  cbn [orb] in Hp. specialize (Hn c l eq_refl Hd).
  assert (containsEquals (trim_prefix r "-") = existsb (Ascii.eqb equals) l) as ->.
  { unfold containsEquals. rewrite Eb. cbn. by rewrite (Ascii.eqb_sym equals c), Hq. }
  destruct (cut_bytes [equals] l) as [[a b]|] eqn:Hcut.
  - injection Hp as <- <-. apply cut_bytes_Some in Hcut as ->. rewrite existsb_app. cbn.
    split; [by rewrite orb_true_r|done].
  - injection Hp as <- <-. split; [|done]. apply not_true_is_false. intros (x & Hx & E)%existsb_exists.
    apply Ascii.eqb_eq in E as <-. clear -Hcut Hx. induction l as [|y l IH]; [done|].
    cbn in Hcut. destruct (Ascii.eqb equals y) eqn:Hy; [done|].
    destruct (cut_bytes [equals] l) as [[a b]|]; [done|].
    destruct Hx as [->|Hx]; [by rewrite Ascii.eqb_refl in Hy|]. by apply IH.
Qed.

(** Whenever the parser goes on, the permutation moved as many arguments as it reads. *)
Lemma takes_next_spec fl s :
  flag_like s = true ->
  match one_flag fl s with
  | FlagSet _ _ => takes_next fl s = false
  | FlagNeeds _ => takes_next fl s = true
  | _ => True
  end.
Proof.
  intros Hl. unfold one_flag. destruct (flag_parts s) as [[name value]|] eqn:Hp; [|done].
  destruct (flag_parts_name _ _ _ Hl Hp) as [He Hn]. unfold takes_next. rewrite He.
  destruct (Lookup fl name) as [[]|] eqn:Hlk.
  - destruct (ParseBool _) as [b|]; [|done]. destruct value as [v|]; [done|].
    rewrite Hn, Hlk by done. done.
  - destruct value as [v|]; [done|]. rewrite Hn, Hlk by done. done.
  - destruct (_ || _); done.
Qed.

(** The positional arguments do not begin with something that reads as a flag. *)
Definition plain_head (ps : list string) : Prop :=
  match ps with s :: _ => flag_like s = false | [] => True end.

(** The last argument is a flag without its value. *)
Definition dangling (fl : flagSet) (args : list string) : Prop :=
  exists s name, list.last args = Some s /\ one_flag fl s = FlagNeeds name.

Lemma Parse_plain fl vals qs : plain_head qs -> Parse fl vals qs = ParseOk vals qs.
Proof. destruct qs as [|q qs]; [done|]. cbn. by intros ->. Qed.

Lemma dangling_cons fl s args : dangling fl args -> dangling fl (s :: args).
Proof. intros (a & n & Hl & Ho). exists a, n. destruct args; [done|]. done. Qed.

Lemma permute_parse fl args vals qs :
  "-" ∉ args -> plain_head qs ->
  match anywhere fl vals args with
  | ParseOk v ps => ps = snd (permute fl args) /\ Parse fl vals (fst (permute fl args) ++ qs) = ParseOk v qs
  | ParseHelp => Parse fl vals (fst (permute fl args) ++ qs) = ParseHelp
  | ParseError => Parse fl vals (fst (permute fl args) ++ qs) = ParseError \/ dangling fl args
  end.
Proof.
  intros Hd Hq. remember (length args) as n eqn:Hn. revert args vals Hn Hd.
  induction n as [n IH] using lt_wf_ind. intros args vals -> Hd.
  destruct args as [|s rest]; [split; [done|]; by apply Parse_plain|].
  rewrite not_elem_of_cons in Hd. destruct Hd as [Hs Hd]. cbn [anywhere permute].
  destruct (s =s "--") eqn:E2; [split; [done|]; by apply Parse_plain|].
  destruct (flag_like s) eqn:Hl; cbn [negb].
  2:{ destruct (has_prefix s "-") eqn:Hpre.
      { apply prefix_flag_like in Hpre; [congruence|done]. }
      specialize (IH (length rest) ltac:(cbn; lia) rest vals eq_refl Hd).
      destruct (permute fl rest) as [fs ps]. cbn [fst snd] in *.
      destruct (anywhere fl vals rest) as [| |v ps']; [done| |].
      - destruct IH as [?|?]; [by left|right; by apply dangling_cons].
      - destruct IH as [-> ?]. done. }
  rewrite (flag_like_prefix s Hl). pose proof (takes_next_spec fl s Hl) as Ht.
  assert (forall xs, Parse fl vals (s :: xs) = match one_flag fl s with
    | FlagHelp => ParseHelp | FlagError => ParseError
    | FlagSet name v => Parse fl (<[name := v]> vals) xs
    | FlagNeeds name => match xs with [] => ParseError | v :: r => Parse fl (<[name := v]> vals) r end end) as Hstep.
  { intros xs. cbn [Parse]. by rewrite Hl, E2. }
  assert (forall p : list string * list string, 
    fst (let '(fs, ps) := p in (s :: fs, ps)) = s :: fst p /\ snd (let '(fs, ps) := p in (s :: fs, ps)) = snd p)
    as Hproj by (by intros []).
  destruct (one_flag fl s) as [| |name v|name] eqn:Ho.
  - destruct rest as [|x r]; [apply (Hstep qs)|]. destruct (takes_next fl s).
    + destruct (permute fl r). apply Hstep.
    + rewrite (proj1 (Hproj _)). apply Hstep.
  - left. destruct rest as [|x r]; [apply (Hstep qs)|]. destruct (takes_next fl s).
    + destruct (permute fl r). apply Hstep.
    + rewrite (proj1 (Hproj _)). apply Hstep.
  - destruct rest as [|x r]; [split; [done|]; etrans; [apply (Hstep qs)|]; by apply Parse_plain|].
    rewrite Ht, (proj1 (Hproj _)), (proj2 (Hproj _)). cbn [app]. rewrite Hstep.
    specialize (IH (length (x :: r)) ltac:(cbn; lia) (x :: r) (<[name := v]> vals) eq_refl Hd).
    destruct (anywhere fl _ (x :: r)); [done| |done]. destruct IH as [?|?]; [by left|right; by apply dangling_cons].
  - destruct rest as [|x r]; [right; by exists s, name|]. rewrite Ht.
    rewrite not_elem_of_cons in Hd. destruct Hd as [_ Hd].
    specialize (IH (length r) ltac:(cbn; lia) r (<[name := x]> vals) eq_refl Hd).
    destruct (permute fl r) as [fs ps]. cbn [fst snd app] in *. rewrite Hstep.
    destruct (anywhere fl _ r); [done| |done]. destruct IH as [?|?]; [by left|right; by do 2 apply dangling_cons].
Qed.

(** Moving the flags first reads a command line as if flags were allowed anywhere: the values,
    the positional arguments and the errors are those of the reference, as long as the line has no
    lone dash, no positional argument that looks like a flag, and no last flag without its value. *)
Theorem permuteArgs_anywhere fl args :
  "-" ∉ args -> ~ dangling fl args -> plain_head (snd (permute fl args)) ->
  Parse fl ∅ (permuteArgs fl args) = anywhere fl ∅ args.
Proof.
  intros Hd Hdang Hp. pose proof (permute_parse fl args ∅ _ Hd Hp) as H.
  unfold permuteArgs. destruct (permute fl args) as [fs ps]. cbn [fst snd] in *.
  destruct (anywhere fl ∅ args) as [| |v ps']; [done| |].
  - by destruct H as [?|?].
  - by destruct H as [-> ?].
Qed.

Definition demo_flags : flagSet := [("config", false); ("json", true)].

Lemma permuteArgs_anywhere_witness :
  let args := ["bob"; "-json"; "web"; "--config=x"; "db"] in
  Parse demo_flags ∅ (permuteArgs demo_flags args) = anywhere demo_flags ∅ args /\
  anywhere demo_flags ∅ args = ParseOk {["json" := "true"; "config" := "x"]} ["bob"; "web"; "db"].
Proof.
  split; [|by vm_compute]. apply permuteArgs_anywhere.
  - apply (bool_decide_unpack _). by vm_compute.
  - intros (s & name & [= <-] & H). by vm_compute in H.
  - by vm_compute.
Defined.

(** [--] is dropped, so what it protects is read as a flag after all. *)
Example dashes_not_kept :
  let args := ["add"; "--"; "-x"] in
  anywhere demo_flags ∅ args = ParseOk ∅ ["add"; "-x"] /\
  anywhere demo_flags ∅ ["--"; "-x"] = ParseOk ∅ ["-x"] /\
  Parse demo_flags ∅ (permuteArgs demo_flags ["--"; "-x"]) = ParseError.
Proof. by vm_compute. Qed.

(** A last flag without its value takes the first positional argument instead of failing. *)
Example dangling_takes_positional :
  let args := ["bob"; "-config"] in
  anywhere demo_flags ∅ args = ParseError /\
  Parse demo_flags ∅ (permuteArgs demo_flags args) = ParseOk {["config" := "bob"]} [].
Proof. by vm_compute. Qed.

(** A lone dash takes the next argument along and stops the parser at once: the rest, flags
    included, is positional. *)
Example dash_stops_parsing :
  Parse demo_flags ∅ (permuteArgs demo_flags ["-"; "bob"; "-json"]) = ParseOk ∅ ["-"; "bob"; "-json"].
Proof. by vm_compute. Qed.
