(* ===== verification/HubCli.v ===== *)
(** * The hub's command line ([telahubd user] and [telahubd portal] in [internal/hub/hub.go])

    The offline commands: each parses its flags, loads the configuration file, changes the
    configuration and writes the file back.  A command is a function of its arguments, its standard
    input and the file system to an exit code, the lines of its standard output and the file system
    it leaves; the YAML codec is a parameter. *)

From S2P Require Import Prelude Auth HubConfig AdminState FilePath FileSys Flags Bridge.
From S2P Require Portals.
From Stdlib Require Import ZArith Lia Ascii String.
From stdpp Require Import base sorting gmap strings list fin_maps.

(** The encoder's document carries a comment before it, which the decoder skips. *)
Definition newline : string := String (ascii_of_nat 10) EmptyString.
Definition configHeader : string :=
  "# telahubd configuration" +:+ newline +:+
  "# Edit and restart the service to apply changes." +:+ newline +:+ newline.
Class HubCodec := {
  MarshalCfg : hubConfig -> option (list Z);
  UnmarshalCfg : list Z -> option hubConfig;
  unmarshal_cfg c d : MarshalCfg c = Some d -> UnmarshalCfg (z_bytes configHeader ++ d) = Some c
}.

Record cliEnv := CliEnv {
  ce_save : saveEnv;
  ce_unreadable : bool;                 (** reading the file fails for another reason *)
  ce_rand : nat -> option (list Z);     (** the draws of [rand.Read], in order *)
  ce_default : string;                  (** the default path of the configuration *)
  ce_getenv : string -> string;
  ce_is_dir : string -> bool;           (** [os.Stat] finds a directory *)
  ce_stdin : list string                (** the lines of standard input *)
}.

Inductive outItem :=
  | OLine (s : string)
  | OFmt (format : string) (args : list string)     (** [fmt.Printf] with a quoted argument *)
  | OTable (rows : list (list string))
  | OJson (rows : list (string * string * string)).

Record cmdOutcome := CmdOutcome {
  co_exit : Z;
  co_out : list outItem;
  co_fs : fsys;
  co_sent : list Portals.outgoing       (** requests to portals *)
}.
Definition exit_with (code : Z) (fs : fsys) : cmdOutcome := CmdOutcome code [] fs [].

(** ** The globals set from a configuration *)

Record hubGlobals := HubGlobals {
  g_httpPort : Z;
  g_udpPort : Z;                        (** [int32] *)
  g_udpHost : string;
  g_hubID : string;
  g_hubName : string;
  g_wwwDir : string;
  g_wwwDirOverride : bool;
  g_bridgeDir : gmap string bridgeConfig
}.
Definition initialGlobals : hubGlobals := HubGlobals 80 41820 "" "" "" "./www" false ∅.

Definition i32 (z : Z) : Z := ((z + 2147483648) mod 4294967296 - 2147483648)%Z.

Definition envStr (env : cliEnv) (key def : string) : string :=
  if ce_getenv env key <>s "" then ce_getenv env key else def.
Definition envInt (env : cliEnv) (key : string) (def : Z) : Z :=
  if ce_getenv env key <>s "" then default def (Atoi (ce_getenv env key)) else def.

Definition applyHubConfig (env : cliEnv) (cfg : option hubConfig) (g : hubGlobals) : hubGlobals :=
  let str get old := match cfg with Some c => if get c <>s "" then get c else old | None => old end in
  let int get old := match cfg with Some c => if (get c =? 0)%Z then old else get c | None => old end in
  let www old := match old with (dir, over) =>
    match cfg with
    | Some c => if (hc_WWWDir c <>s "") && ce_is_dir env (hc_WWWDir c) then (hc_WWWDir c, true) else old
    | None => old
    end end in
  let www_env old :=
    let v := ce_getenv env "TELAHUBD_WWW_DIR" in
    if (v <>s "") && ce_is_dir env v then (v, true) else old in
  let '(dir, over) := www_env (www (g_wwwDir g, g_wwwDirOverride g)) in
  let hubID := str hc_HubID (g_hubID g) in
  HubGlobals
    (envInt env "TELAHUBD_PORT" (int hc_Port (g_httpPort g)))
    (i32 (envInt env "TELAHUBD_UDP_PORT"
      (match cfg with
       | Some c => if (hc_UDPPort c =? 0)%Z then g_udpPort g else i32 (hc_UDPPort c)
       | None => g_udpPort g
       end)))
    (envStr env "TELAHUBD_UDP_HOST" (str hc_UDPHost (g_udpHost g)))
    hubID
    (envStr env "TELAHUBD_NAME" (str hc_Name (g_hubName g)))
    dir over
    (match cfg with Some c => initBridgeDir hubID c | None => g_bridgeDir g end).

Section commands.
  Context {HC : HubCodec} (env : cliEnv).

(** ** The configuration file *)

Inductive loaded := LoadOk (cfg : hubConfig) | LoadMissing | LoadError.

Definition loadHubConfig (fs : fsys) (path : string) : loaded :=
  if ce_unreadable env then LoadError
  else match ReadFile fs path with
  | RdNotExist => LoadMissing
  | RdError => LoadError
  | RdData d => match UnmarshalCfg d with Some cfg => LoadOk cfg | None => LoadError end
  end.

Definition blankConfig : hubConfig :=
  HubConfig "" 80 41820 "" "" "" 0 (AuthConfig [] ∅) ∅ (UpdateConfig "" ∅) []
    (ChannelsConfig false "" "").

Definition loadOrCreateHubConfig (fs : fsys) (path : string) : option hubConfig :=
  match loadHubConfig fs path with
  | LoadOk cfg => Some cfg
  | LoadMissing => Some blankConfig
  | LoadError => None
  end.

Definition writeHubConfig (fs : fsys) (path : string) (cfg : hubConfig) : bool * fsys :=
  writeDoc (ce_save env) fs path (app (z_bytes configHeader) <$> MarshalCfg cfg).

(** The parts every command begins and ends with. *)
Definition with_flags (fl : flagSet) (args : list string) (fs : fsys)
    (body : flagValues -> list string -> cmdOutcome) : cmdOutcome :=
  match Parse fl ∅ (permuteArgs fl args) with
  | ParseHelp => exit_with 0 fs
  | ParseError => exit_with 2 fs
  | ParseOk vals pos => body vals pos
  end.

Definition cfgPath (vals : flagValues) : string :=
  if string_value vals "config" =s "" then ce_default env else string_value vals "config".

Definition with_config (vals : flagValues) (fs : fsys)
    (body : string -> hubConfig -> cmdOutcome) : cmdOutcome :=
  match loadOrCreateHubConfig fs (cfgPath vals) with
  | None => exit_with 1 fs
  | Some cfg => body (cfgPath vals) cfg
  end.

Definition save_and_say (fs : fsys) (path : string) (cfg : hubConfig) (out : list string) : cmdOutcome :=
  let '(ok, fs') := writeHubConfig fs path cfg in
  if ok then CmdOutcome 0 (map OLine out) fs' [] else exit_with 1 fs'.

Definition configFlag : flagSet := [("config", false)].

(** ** [telahubd user] *)

Definition findTokenEntry (cfg : hubConfig) (id : string) : option tokenEntry :=
  find_first (fun t => te_ID t =s id) (Tokens (hc_Auth cfg)).

Definition saveThis : list string :=
  [""; "SAVE THIS TOKEN -- it will not be shown again."].
Definition restartHub : string := "Restart the hub to apply changes.".

Definition cmdUserBootstrap (args : list string) (fs : fsys) : cmdOutcome :=
  with_flags configFlag args fs (fun vals _ =>
  with_config vals fs (fun path cfg =>
    if (0 <? length (Tokens (hc_Auth cfg)))%nat then exit_with 1 fs
    else match generateToken (ce_rand env 0) with
    | None => exit_with 1 fs
    | Some token =>
        let viewerToken := default "" (generateToken (ce_rand env 1)) in
        let tokens := [TokenEntry "owner" token "owner" None None None] ++
          (if viewerToken <>s "" then [TokenEntry "console-viewer" viewerToken "viewer" None None None]
           else []) in
        let ms := <["*" := MachineACL "" [ConnectGrant token []] []]> (Machines (hc_Auth cfg)) in
        save_and_say fs path (set_Auth cfg (AuthConfig tokens ms))
          (["Auth bootstrapped successfully."; "  Config:  " +:+ path; "  Owner token: " +:+ token] ++
           saveThis ++ ["Restart the hub to activate auth enforcement."])
    end)).

Definition listRow (t : tokenEntry) : string * string * string :=
  (te_ID t, roleName (te_HubRole t), tokenPreview (te_Token t)).

Definition cmdUserList (args : list string) (fs : fsys) : cmdOutcome :=
  with_flags [("config", false); ("json", true)] args fs (fun vals _ =>
  with_config vals fs (fun path cfg =>
    match Tokens (hc_Auth cfg) with
    | [] => CmdOutcome 0 [OLine "No auth tokens configured. Run 'telahubd user bootstrap' to get started."] fs []
    | ts =>
        if bool_value vals "json" then CmdOutcome 0 [OJson (map listRow ts)] fs []
        else CmdOutcome 0 [OTable (["ID"; "ROLE"; "TOKEN (first 8)"] ::
          map (fun t => let '(id, role, preview) := listRow t in [id; role; preview]) ts)] fs []
    end)).

(** [show-owner] and [show-viewer] *)
Definition cmdUserShow (role : string) (args : list string) (fs : fsys) : cmdOutcome :=
  with_flags configFlag args fs (fun vals _ =>
  with_config vals fs (fun path cfg =>
    match find_first (fun t => te_HubRole t =s role) (Tokens (hc_Auth cfg)) with
    | Some t => CmdOutcome 0 [OLine (te_Token t)] fs []
    | None => exit_with 1 fs
    end)).
Definition cmdUserShowOwner := cmdUserShow "owner".
Definition cmdUserShowViewer := cmdUserShow "viewer".

Definition cmdUserAdd (args : list string) (fs : fsys) : cmdOutcome :=
  with_flags [("config", false); ("role", false)] args fs (fun vals pos =>
    match pos with
    | [] => exit_with 1 fs
    | id :: _ =>
        let role := string_value vals "role" in
        if (role <>s "") && (role <>s "owner") && (role <>s "admin") then exit_with 1 fs
        else with_config vals fs (fun path cfg =>
          if bool_decide (is_Some (findTokenEntry cfg id)) then exit_with 1 fs
          else match generateToken (ce_rand env 0) with
          | None => exit_with 1 fs
          | Some token =>
              save_and_say fs path
                (set_Tokens cfg (Tokens (hc_Auth cfg) ++ [TokenEntry id token role None None None]))
                ([("Added identity '" +:+ id +:+ "'") +:+
                  (if role <>s "" then " (role: " +:+ role +:+ ")" else "");
                  "  Token: " +:+ token] ++ saveThis ++ [restartHub])
          end)
    end).

(** What removing a token does to a machine's ACL. *)
Definition dropFromACL (token : string) (acl : machineACL) : machineACL :=
  MachineACL (if RegisterToken acl =s token then "" else RegisterToken acl)
    (if hasConnectGrant (ConnectTokens acl) token then removeConnectGrant (ConnectTokens acl) token
     else ConnectTokens acl)
    (ManageTokens acl).

Definition cmdUserRemove (args : list string) (fs : fsys) : cmdOutcome :=
  with_flags configFlag args fs (fun vals pos =>
    match pos with
    | [] => exit_with 1 fs
    | id :: _ =>
        with_config vals fs (fun path cfg =>
          let ts := Tokens (hc_Auth cfg) in
          match list.last (List.filter (fun t => te_ID t =s id) ts) with
          | None => exit_with 1 fs
          | Some removed =>
              save_and_say fs path
                (set_Auth cfg (AuthConfig (List.filter (fun t => te_ID t <>s id) ts)
                                 (dropFromACL (te_Token removed) <$> Machines (hc_Auth cfg))))
                ["Removed identity '" +:+ id +:+ "' and cleaned up machine ACLs."; restartHub]
          end)
    end).

Definition cmdUserGrant (args : list string) (fs : fsys) : cmdOutcome :=
  with_flags configFlag args fs (fun vals pos =>
    match pos with
    | id :: machineID :: _ =>
        with_config vals fs (fun path cfg =>
          match findTokenEntry cfg id with
          | None => exit_with 1 fs
          | Some entry =>
              let acl := acl_of (Machines (hc_Auth cfg)) machineID in
              if hasConnectGrant (ConnectTokens acl) (te_Token entry) then
                CmdOutcome 0 [OLine ("Identity '" +:+ id +:+ "' already has connect access to '" +:+
                                     machineID +:+ "'.")] fs []
              else
                let acl := MachineACL (RegisterToken acl)
                  (ConnectTokens acl ++ [ConnectGrant (te_Token entry) []]) (ManageTokens acl) in
                save_and_say fs path (set_Machines cfg (<[machineID := acl]> (Machines (hc_Auth cfg))))
                  ["Granted '" +:+ id +:+ "' connect access to '" +:+ machineID +:+ "'."; restartHub]
          end)
    | _ => exit_with 1 fs
    end).

Definition cmdUserRevoke (args : list string) (fs : fsys) : cmdOutcome :=
  with_flags configFlag args fs (fun vals pos =>
    match pos with
    | id :: machineID :: _ =>
        with_config vals fs (fun path cfg =>
          match findTokenEntry cfg id with
          | None => exit_with 1 fs
          | Some entry =>
              match Machines (hc_Auth cfg) !! machineID with
              | None => exit_with 1 fs
              | Some acl =>
                  if negb (hasConnectGrant (ConnectTokens acl) (te_Token entry)) then exit_with 1 fs
                  else
                    let acl := MachineACL (RegisterToken acl)
                      (removeConnectGrant (ConnectTokens acl) (te_Token entry)) (ManageTokens acl) in
                    save_and_say fs path
                      (set_Machines cfg (<[machineID := acl]> (Machines (hc_Auth cfg))))
                      ["Revoked '" +:+ id +:+ "' connect access to '" +:+ machineID +:+ "'."; restartHub]
              end
          end)
    | _ => exit_with 1 fs
    end).

(** The first row of the identity gets the new token; nothing else of the row changes. *)
Fixpoint setToken (id token : string) (ts : list tokenEntry) : list tokenEntry :=
  match ts with
  | [] => []
  | t :: ts' =>
      if te_ID t =s id then
        TokenEntry (te_ID t) token (te_HubRole t) (te_IssuedAt t) (te_ExpiresAt t) (te_RevokedAt t) :: ts'
      else t :: setToken id token ts'
  end.

Definition moveInACL (oldToken newToken : string) (acl : machineACL) : machineACL :=
  MachineACL (if RegisterToken acl =s oldToken then newToken else RegisterToken acl)
    (fst (replaceConnectGrantToken (ConnectTokens acl) oldToken newToken)) (ManageTokens acl).

Definition cmdUserRotate (args : list string) (fs : fsys) : cmdOutcome :=
  with_flags configFlag args fs (fun vals pos =>
    match pos with
    | [] => exit_with 1 fs
    | id :: _ =>
        with_config vals fs (fun path cfg =>
          match findTokenEntry cfg id with
          | None => exit_with 1 fs
          | Some entry =>
              match generateToken (ce_rand env 0) with
              | None => exit_with 1 fs
              | Some newToken =>
                  save_and_say fs path
                    (set_Auth cfg (AuthConfig (setToken id newToken (Tokens (hc_Auth cfg)))
                       (moveInACL (te_Token entry) newToken <$> Machines (hc_Auth cfg))))
                    (["Rotated token for '" +:+ id +:+ "'."; "  New token: " +:+ newToken] ++
                     saveThis ++ [restartHub])
              end
          end)
    end).

(** [handleUserCommand]: [args] are the arguments after [user]. *)
Definition handleUserCommand (args : list string) (fs : fsys) : cmdOutcome :=
  match args with
  | [] => exit_with 1 fs
  | subcmd :: args =>
      if subcmd =s "bootstrap" then cmdUserBootstrap args fs
      else if subcmd =s "list" then cmdUserList args fs
      else if subcmd =s "show-owner" then cmdUserShowOwner args fs
      else if subcmd =s "show-viewer" then cmdUserShowViewer args fs
      else if subcmd =s "add" then cmdUserAdd args fs
      else if subcmd =s "remove" then cmdUserRemove args fs
      else if subcmd =s "grant" then cmdUserGrant args fs
      else if subcmd =s "revoke" then cmdUserRevoke args fs
      else if subcmd =s "rotate" then cmdUserRotate args fs
      else exit_with 1 fs
  end.

(** ** [telahubd portal] *)

Section portal.
  Context `{RangeOrder} (net : Portals.portalNet).

(** [reader.ReadString] then [strings.TrimSpace]: the [n]-th line of the input. *)
Definition input (n : nat) : string := trim_space (nth n (ce_stdin env) "").

(** [ensureConsoleViewer] saves at once and ignores a failing save. *)
Definition ensuredViewer (fs : fsys) (path : string) (cfg : hubConfig)
    : bool * hubConfig * fsys :=
  let '(made, cfg, w) := ensureConsoleViewer (ce_rand env 0) cfg path in
  (made, cfg, match w with Some c => snd (writeHubConfig fs path c) | None => fs end).

Definition madeViewer (made : bool) : list outItem :=
  if made then [OLine "Created console-viewer token."] else [].

Definition cmdPortalAdd (args : list string) (fs : fsys) : cmdOutcome :=
  with_flags configFlag args fs (fun vals pos =>
    match pos with
    | name :: url :: _ =>
        let portalURL := Portals.withScheme (trim_slashes url) in
        let token := input 0 in
        with_config vals fs (fun path cfg =>
          let g := applyHubConfig env (Some cfg) initialGlobals in
          let '(made, cfg, fs1) := ensuredViewer fs path cfg in
          let named := if hc_Name cfg =s "" then g_hubName g else hc_Name cfg in
          let asked := OFmt "API token for %s (press Enter for none): " [portalURL] :: madeViewer made ++
            (if named =s "" then [OLine "Hub name for registration: "] else []) ++
            [OLine "Hub public URL (e.g. https://gohub.example.com): "] in
          let '(regHubName, next) := if named =s "" then (input 1, 2%nat) else (named, 1%nat) in
          let regHubURL := input next in
          if regHubURL =s "" then CmdOutcome 1 asked fs1 []
          else
            let viewerToken := match find_first (fun t => te_ID t =s "console-viewer")
                                     (Tokens (hc_Auth cfg)) with
                               | Some t => te_Token t | None => "" end in
            let asked := asked ++ [OFmt "Registering %q at %s... " [regHubName; portalURL]] in
            match Portals.registerWithPortal net (g_hubID g) portalURL token regHubName regHubURL
                    viewerToken with
            | inl _ => CmdOutcome 1 asked fs1 []
            | inr result =>
                let entry := Portals.rr_Entry result in
                let cfg := set_Portals cfg (<[name := entry]> (hc_Portals cfg)) in
                let said := asked ++
                  [OLine (if Portals.rr_Updated result then "updated" else "ok")] ++
                  (if pe_SyncToken entry <>s "" then
                     [OLine "Sync token received -- admin token will not be stored in config"]
                   else if token <>s "" then
                     [OLine "Warning: portal did not return a sync token -- storing admin token (upgrade portal to enable auto-sync)"]
                   else []) in
                let '(ok, fs2) := writeHubConfig fs1 path cfg in
                if ok then CmdOutcome 0 (said ++ [OFmt "Portal %q added (%s)" [name; portalURL];
                               OLine ("Config saved to " +:+ path)]) fs2 []
                else CmdOutcome 1 said fs2 []
            end)
    | _ => exit_with 1 fs
    end).

Definition zeroPortal : portalEntry := PortalEntry "" "" "" "".

(** The best-effort request to a portal whose admin token is known. *)
Definition deregister (cfg : hubConfig) (p : portalEntry) : list Portals.outgoing :=
  if (pe_URL p <>s "") && (pe_Token p <>s "") && (hc_Name cfg <>s "") then
    let hubDir := if pe_HubDirectory p =s "" then "/api/hubs" else pe_HubDirectory p in
    [Portals.Outgoing "DELETE" (pe_URL p +:+ hubDir +:+ "?name=" +:+ hc_Name cfg) (pe_Token p) []]
  else [].

Definition cmdPortalRemove (args : list string) (fs : fsys) : cmdOutcome :=
  with_flags configFlag args fs (fun vals pos =>
    match pos with
    | [] => exit_with 1 fs
    | name :: _ =>
        with_config vals fs (fun path cfg =>
          let p := default zeroPortal (hc_Portals cfg !! name) in
          if (pe_URL p =s "") && (pe_Token p =s "") && (pe_SyncToken p =s "") &&
             (pe_HubDirectory p =s "") then exit_with 1 fs
          else
            let reqs := deregister cfg p in
            let sent := List.filter (fun o => match net o with Portals.ExBadRequest => false | _ => true end) reqs in
            let said := flat_map (fun o => match net o with
              | Portals.ExReply code _ =>
                  if (code =? 200)%Z then [OLine ("Deregistered from " +:+ pe_URL p)] else []
              | _ => []
              end) reqs in
            let '(ok, fs') := writeHubConfig fs path (set_Portals cfg (delete name (hc_Portals cfg))) in
            if ok then CmdOutcome 0 (said ++ [OFmt "Portal %q removed." [name]]) fs' sent
            else CmdOutcome 1 said fs' sent)
    end).

(** The last four bytes of a longer token. *)
Definition maskedToken (none : string) (t : string) : string :=
  if t =s "" then none
  else if (4 <? slen t)%Z then "****" +:+ of_bytes (drop (length (bytes t) - 4) (bytes t)) else "****".

Definition sortedPortals (cfg : hubConfig) : list (string * portalEntry) :=
  merge_sort (fun a b => String.leb (fst a) (fst b)) (range (hc_Portals cfg)).

Definition noPortals : list outItem :=
  [OLine "No portals configured."; OLine "Add one with: telahubd portal add <name> <url>"].

Definition cmdPortalList (args : list string) (fs : fsys) : cmdOutcome :=
  with_flags [("config", false); ("json", true)] args fs (fun vals _ =>
  with_config vals fs (fun path cfg =>
    if (size (hc_Portals cfg) =? 0)%nat then CmdOutcome 0 noPortals fs []
    else
      let row none kv := (fst kv, pe_URL (snd kv), maskedToken none (pe_Token (snd kv))) in
      if bool_value vals "json" then CmdOutcome 0 [OJson (map (row "") (sortedPortals cfg))] fs []
      else CmdOutcome 0 [OTable (["NAME"; "URL"; "TOKEN"] ::
        map (fun kv => let '(n, u, t) := row "(none)" kv in [n; u; t]) (sortedPortals cfg))] fs [])).

Definition cmdPortalSync (args : list string) (fs : fsys) : cmdOutcome :=
  with_flags configFlag args fs (fun vals _ =>
  with_config vals fs (fun path cfg =>
    let g := applyHubConfig env (Some cfg) initialGlobals in
    if (size (hc_Portals cfg) =? 0)%nat then CmdOutcome 0 noPortals fs []
    else
      let '(made, cfg, fs1) := ensuredViewer fs path cfg in
      let auth := newAuthStore (Some (hc_Auth cfg)) in
      if consoleViewerToken auth =s "" then
        CmdOutcome 0 (madeViewer made ++ [OLine "No viewer token configured -- nothing to sync."]) fs1 []
      else if (if hc_Name cfg =s "" then g_hubName g else hc_Name cfg) =s "" then
        CmdOutcome 1 (madeViewer made) fs1 []
      else
        let st := HubState cfg "" auth ∅ None in
        let name := if hc_Name cfg =s "" then g_hubName g else hc_Name cfg in
        CmdOutcome 0 (madeViewer made ++
          [OFmt "Syncing viewer token for %q to %d portal(s)..."
             [name; FormatUint (Z.of_nat (size (hc_Portals cfg)))]; OLine "Done."]) fs1
          (Portals.syncViewerTokenToPortals (g_hubName g) st))).

(** [handlePortalCommand] *)
Definition handlePortalCommand (args : list string) (fs : fsys) : cmdOutcome :=
  match args with
  | [] => exit_with 1 fs
  | subcmd :: args =>
      if subcmd =s "add" then cmdPortalAdd args fs
      else if (subcmd =s "remove") || (subcmd =s "rm") then cmdPortalRemove args fs
      else if (subcmd =s "list") || (subcmd =s "ls") then cmdPortalList args fs
      else if subcmd =s "sync" then cmdPortalSync args fs
      else exit_with 1 fs
  end.

End portal.

End commands.
