(* ===== verification/HubCliProofs.v ===== *)
(** * What the hub's offline commands do to the configuration

    Every [telahubd user] command either changes nothing or applies one transition of an abstract
    relation to the configuration and saves it; identities and tokens stay distinct and no grant
    outlives its token along any sequence of them.

    The last part evaluates the commands on concrete configurations. *)

From S2P Require Import Prelude Auth HubConfig AdminState AdminTokens AdminAccess FilePath FileSys Flags HubCli.
From S2P Require Portals.
From Stdlib Require Import ZArith Lia Ascii String Relations.
From stdpp Require Import base countable gmap strings list fin_maps relations.

Abbreviation tokens c := (Tokens (hc_Auth c)).
Abbreviation acls c := (Machines (hc_Auth c)).

(** ** The abstract transitions *)

(** [draw n] is the token the [n]-th read of the random source gives. *)
Inductive offline (draw : nat -> option string) (c c' : hubConfig) : Prop :=
  | off_bootstrap owner viewer :
      tokens c = [] ->
      c' = set_Auth c (AuthConfig
             (ownerRow owner :: match viewer with Some v => [viewerRow v] | None => [] end)
             (<["*" := MachineACL "" [ConnectGrant owner []] []]> (acls c))) ->
      draw 0%nat = Some owner -> (forall v, viewer = Some v -> v <> "" /\ draw 1%nat = Some v) ->
      offline draw c c'
  | off_add id role token :
      (forall t, t ∈ tokens c -> te_ID t <> id) -> role ∈ ["";"owner";"admin"] ->
      draw 0%nat = Some token ->
      c' = set_Tokens c (tokens c ++ [TokenEntry id token role None None None]) -> offline draw c c'
  | off_remove t :
      t ∈ tokens c ->
      c' = set_Auth c (AuthConfig (List.filter (fun u => te_ID u <>s te_ID t) (tokens c))
             (dropFromACL (te_Token t) <$> acls c)) -> offline draw c c'
  | off_grant t m :
      t ∈ tokens c -> hasConnectGrant (ConnectTokens (acl_of (acls c) m)) (te_Token t) = false ->
      c' = set_Machines c (<[m := MachineACL (RegisterToken (acl_of (acls c) m))
             (ConnectTokens (acl_of (acls c) m) ++ [ConnectGrant (te_Token t) []])
             (ManageTokens (acl_of (acls c) m))]> (acls c)) -> offline draw c c'
  | off_revoke t m acl :
      t ∈ tokens c -> acls c !! m = Some acl ->
      c' = set_Machines c (<[m := MachineACL (RegisterToken acl)
             (removeConnectGrant (ConnectTokens acl) (te_Token t)) (ManageTokens acl)]> (acls c)) ->
      offline draw c c'
  | off_rotate t token :
      find_first (fun u => te_ID u =s te_ID t) (tokens c) = Some t ->
      draw 0%nat = Some token ->
      c' = set_Auth c (AuthConfig (setToken (te_ID t) token (tokens c))
             (moveInACL (te_Token t) token <$> acls c)) -> offline draw c c'.

(** The flag sets of the commands. *)
Definition commandFlags : list flagSet :=
  [configFlag; [("config", false); ("role", false)]; [("config", false); ("json", true)]].

Section refinement.
  Context {HC : HubCodec} (env : cliEnv) (uses : string -> Prop).

Definition draws (n : nat) : option string := generateToken (ce_rand env n).

(** Every path the arguments can select satisfies [uses]. *)
Definition selects (args : list string) : Prop :=
  forall fl vals pos, fl ∈ commandFlags -> Parse fl ∅ (permuteArgs fl args) = ParseOk vals pos ->
    uses (cfgPath env vals).

(** The outcome of a command that may save: nothing, or one transition of what it loaded. *)
Definition served (fs : fsys) (o : cmdOutcome) : Prop :=
  co_fs o = fs \/
  exists path cfg cfg' ok,
    uses path /\ loadOrCreateHubConfig env fs path = Some cfg /\ offline draws cfg cfg' /\
    writeHubConfig env fs path cfg' = (ok, co_fs o) /\ co_exit o = if ok then 0%Z else 1%Z.

Lemma served_exit code fs : served fs (exit_with code fs).
Proof. by left. Qed.

Lemma served_flags fl args fs body :
  fl ∈ commandFlags -> selects args ->
  (forall vals pos, uses (cfgPath env vals) -> served fs (body vals pos)) ->
  served fs (with_flags fl args fs body).
Proof.
  intros Hfl Hs H. unfold with_flags. destruct (Parse _ _ _) eqn:E; [apply served_exit..|].
  apply H. by eapply Hs.
Qed.

Lemma served_config vals fs body :
  uses (cfgPath env vals) ->
  (forall path cfg, uses path -> loadOrCreateHubConfig env fs path = Some cfg -> served fs (body path cfg)) ->
  served fs (with_config env vals fs body).
Proof.
  intros Hu H. unfold with_config. destruct (loadOrCreateHubConfig env fs _) eqn:E; [by apply H|apply served_exit].
Qed.

Lemma served_save fs path cfg cfg' out :
  uses path -> loadOrCreateHubConfig env fs path = Some cfg -> offline draws cfg cfg' ->
  served fs (save_and_say env fs path cfg' out).
Proof.
  intros Hu Hl Ho. right. unfold save_and_say. destruct (writeHubConfig env fs path cfg') as [ok fs'] eqn:E.
  exists path, cfg, cfg', ok. by destruct ok.
Qed.

Lemma findTokenEntry_Some cfg id t :
  findTokenEntry cfg id = Some t -> t ∈ tokens cfg /\ te_ID t = id.
Proof. unfold findTokenEntry. intros [? H]%find_first_Some. by prop_bool. Qed.

Lemma set_Auth_eta c ms : set_Machines c ms = set_Auth c (AuthConfig (tokens c) ms).
Proof. done. Qed.

(** The opening of each proof below. *)
#[local] Ltac command := intros Hsel; apply served_flags; [unfold commandFlags; set_solver|done|].

Lemma served_bootstrap args fs : selects args -> served fs (cmdUserBootstrap env args fs).
Proof.
  command. intros vals pos Hp. apply served_config; [done|]. intros path cfg Hu Hl.
  destruct (tokens cfg) eqn:Ht; [|apply served_exit]. cbn [length Nat.ltb Nat.leb].
  destruct (generateToken (ce_rand env 0)) as [token|] eqn:Hg; [|apply served_exit].
  apply (served_save _ path cfg); [done|done|].
  destruct (generateToken (ce_rand env 1)) as [v|] eqn:Hv; cbn [from_option id].
  2:{ apply (off_bootstrap _ _ _ token None); done. }
  destruct (bool_decide_reflect (v = "")) as [->|Hne]; cbn [negb].
  - apply (off_bootstrap _ _ _ token None); done.
  - apply (off_bootstrap _ _ _ token (Some v)); [done|done|done|].
    intros x [= <-]. done.
Qed.

Lemma served_show args fs role : selects args -> served fs (cmdUserShow env role args fs).
Proof.
  command. intros vals pos Hp. apply served_config; [done|]. intros path cfg Hu _. left.
  by destruct (find_first _ _).
Qed.

Lemma served_list args fs : selects args -> served fs (cmdUserList env args fs).
Proof.
  command. intros vals pos Hp. apply served_config; [done|]. intros path cfg Hu _. left.
  destruct (tokens cfg); [done|]. by destruct (bool_value _ _).
Qed.

Lemma served_add args fs : selects args -> served fs (cmdUserAdd env args fs).
Proof.
  command. intros vals [|id pos] Hp; [apply served_exit|]. cbn zeta.
  destruct (_ && _) eqn:Hr; [apply served_exit|]. apply served_config; [done|]. intros path cfg Hu Hl.
  destruct (findTokenEntry cfg id) eqn:Hf; [apply served_exit|]. rewrite bool_decide_false by (by intros []).
  destruct (generateToken (ce_rand env 0)) as [token|] eqn:Hg; [|apply served_exit].
  apply (served_save _ path cfg); [done|done|].
  apply (off_add _ _ _ id (string_value vals "role") token); [| |done|done].
  - intros t Ht E. unfold findTokenEntry in Hf. rewrite find_first_None in Hf.
    specialize (Hf t Ht). prop_bool. done.
  - rewrite !andb_false_iff in Hr. rewrite !negb_false_iff, !bool_decide_eq_true in Hr. set_solver.
Qed.

Lemma served_remove args fs : selects args -> served fs (cmdUserRemove env args fs).
Proof.
  command. intros vals [|id pos] Hp; [apply served_exit|]. apply served_config; [done|].
  intros path cfg Hu Hl. cbn zeta. destruct (list.last _) as [t|] eqn:Hf; [|apply served_exit].
  apply (served_save _ path cfg); [done|done|].
  apply last_Some_elem_of, list_elem_of_In, filter_In in Hf as [Ht E]. prop_bool. subst id.
  by apply (off_remove _ _ _ t); [apply list_elem_of_In|].
Qed.

Lemma served_grant args fs : selects args -> served fs (cmdUserGrant env args fs).
Proof.
  command. intros vals [|id [|m pos]] Hp; [apply served_exit..|]. apply served_config; [done|].
  intros path cfg Hu Hl. destruct (findTokenEntry cfg id) as [t|] eqn:Hf; [|apply served_exit]. cbn zeta.
  destruct (hasConnectGrant _ _) eqn:Hh; [by left|]. apply findTokenEntry_Some in Hf as [Ht _].
  apply (served_save _ path cfg); [done|done|]. by apply (off_grant _ _ _ t m).
Qed.

Lemma served_revoke args fs : selects args -> served fs (cmdUserRevoke env args fs).
Proof.
  command. intros vals [|id [|m pos]] Hp; [apply served_exit..|]. apply served_config; [done|].
  intros path cfg Hu Hl. destruct (findTokenEntry cfg id) as [t|] eqn:Hf; [|apply served_exit].
  destruct (acls cfg !! m) as [acl|] eqn:Hm; [|apply served_exit].
  destruct (negb _); [apply served_exit|]. apply findTokenEntry_Some in Hf as [Ht _].
  apply (served_save _ path cfg); [done|done|]. by apply (off_revoke _ _ _ t m acl).
Qed.

Lemma served_rotate args fs : selects args -> served fs (cmdUserRotate env args fs).
Proof.
  command. intros vals [|id pos] Hp; [apply served_exit|]. apply served_config; [done|].
  intros path cfg Hu Hl. destruct (findTokenEntry cfg id) as [t|] eqn:Hf; [|apply served_exit].
  destruct (generateToken (ce_rand env 0)) as [token|] eqn:Hg; [|apply served_exit].
  pose proof (findTokenEntry_Some _ _ _ Hf) as [_ <-].
  apply (served_save _ path cfg); [done|done|]. apply (off_rotate _ _ _ t token); [done|done|done].
Qed.

Lemma handleUserCommand_served args fs :
  selects (tail args) -> served fs (handleUserCommand env args fs).
Proof.
  unfold handleUserCommand. destruct args as [|sub args]; [intros _; apply served_exit|]. cbn [tail].
  intros Hs. repeat match goal with |- context [if ?b then _ else _] => destruct b end;
    eauto using served_bootstrap, served_list, served_show, served_add, served_remove, served_grant,
      served_revoke, served_rotate, served_exit.
Qed.

End refinement.

(** ** The invariant *)

(** The identity holding a token. *)
Definition held (c : hubConfig) (tok : string) : Prop := tok ∈ te_Token <$> tokens c.

(** Identities and tokens are distinct, tokens are non-empty, and no registration token or connect
    grant outlives its identity. *)
Record offline_inv (c : hubConfig) : Prop := {
  oi_ids : NoDup (te_ID <$> tokens c);
  oi_tokens : NoDup (te_Token <$> tokens c);
  oi_nonempty : ~ held c "";
  oi_register : forall m acl, acls c !! m = Some acl -> RegisterToken acl <> "" -> held c (RegisterToken acl);
  oi_connect : forall m acl g, acls c !! m = Some acl -> g ∈ ConnectTokens acl -> held c (cg_Token g)
}.

(** The tokens drawn are new. *)
Definition fresh_draws (draw : nat -> option string) (c : hubConfig) : Prop :=
  (forall n tok, draw n = Some tok -> tok <> "" /\ ~ held c tok) /\ (draw 0%nat <> draw 1%nat \/ draw 0%nat = None).

Lemma held_elem c t : t ∈ tokens c -> held c (te_Token t).
Proof. apply list_elem_of_fmap_2. Qed.

(** The first row of an identity, and what setting its token does. *)
Lemma setToken_split id token ts t :
  find_first (fun u => te_ID u =s id) ts = Some t ->
  exists l1 l2, ts = l1 ++ t :: l2 /\ te_ID t = id /\
    setToken id token ts = l1 ++ TokenEntry (te_ID t) token (te_HubRole t) (te_IssuedAt t)
                                   (te_ExpiresAt t) (te_RevokedAt t) :: l2.
Proof.
  induction ts as [|u ts IH]; [done|]. cbn. destruct (bool_decide_reflect (te_ID u = id)) as [E|E].
  - intros [= ->]. by exists [], ts.
  - intros (l1 & l2 & -> & ? & ->)%IH. by exists (u :: l1), l2.
Qed.

Section preserved.
  Context (draw : nat -> option string) (c : hubConfig) (I : offline_inv c) (F : fresh_draws draw c).

Lemma bootstrap_inv owner viewer :
  tokens c = [] -> draw 0%nat = Some owner -> (forall v, viewer = Some v -> v <> "" /\ draw 1%nat = Some v) ->
  offline_inv (set_Auth c (AuthConfig
    (ownerRow owner :: match viewer with Some v => [viewerRow v] | None => [] end)
    (<["*" := MachineACL "" [ConnectGrant owner []] []]> (acls c)))).
Proof.
  intros Ht Hown Hv. destruct F as [Hf Hd].
  destruct (Hf _ _ Hown) as [Hne _].
  assert (forall tok, ~ held c tok) as Hno by (intros tok; unfold held; rewrite Ht; apply not_elem_of_nil).
  split; cbn.
  - destruct viewer; cbn; (apply (bool_decide_unpack _); by vm_compute).
  - destruct viewer as [v|]; cbn; [|apply NoDup_singleton]. destruct (Hv v eq_refl) as [_ Hv1].
    apply NoDup_cons_2; [|apply NoDup_singleton]. intros E%list_elem_of_singleton. cbn in E.
    destruct Hd as [Hd|Hd]; congruence.
  - unfold held. cbn. destruct viewer as [v|]; cbn; rewrite ?elem_of_cons, elem_of_nil; [|naive_solver].
    destruct (Hv v eq_refl). naive_solver.
  - intros m acl. rewrite lookup_insert_Some. intros [[_ <-]|[_ Hm]]; [done|].
    intros Hr. destruct (Hno _ (oi_register c I m acl Hm Hr)).
  - intros m acl g. rewrite lookup_insert_Some. intros [[_ <-]|[_ Hm]] Hg.
    + apply list_elem_of_singleton in Hg as ->. by left.
    + destruct (Hno _ (oi_connect c I m acl g Hm Hg)).
Qed.

Lemma add_inv id role token :
  (forall t, t ∈ tokens c -> te_ID t <> id) -> draw 0%nat = Some token ->
  offline_inv (set_Tokens c (tokens c ++ [TokenEntry id token role None None None])).
Proof.
  intros Hid Ht. destruct F as [Hf _]. destruct (Hf _ _ Ht) as [Hne Hn].
  assert (forall x, held c x -> held (set_Tokens c (tokens c ++ [TokenEntry id token role None None None])) x) as Hmono.
  { intros x Hx. unfold held in *. cbn. rewrite fmap_app. by apply elem_of_app; left. }
  split; cbn.
  - rewrite fmap_app. apply NoDup_app. split_and!; [apply I| |apply NoDup_singleton].
    intros x (t & -> & Ht')%list_elem_of_fmap. intros E%list_elem_of_singleton. by destruct (Hid t Ht').
  - rewrite fmap_app. apply NoDup_app. split_and!; [apply I| |apply NoDup_singleton].
    intros x Hx E%list_elem_of_singleton. cbn in E. by subst.
  - unfold held. cbn. rewrite fmap_app, elem_of_app. intros [?|E]; [by apply (oi_nonempty c I)|].
    apply list_elem_of_singleton in E. cbn in E. congruence.
  - intros m acl Hm Hr. by apply Hmono, (oi_register c I m).
  - intros m acl g Hm Hg. by apply Hmono, (oi_connect c I m acl).
Qed.

Lemma remove_inv t :
  t ∈ tokens c ->
  offline_inv (set_Auth c (AuthConfig (List.filter (fun u => te_ID u <>s te_ID t) (tokens c))
                 (dropFromACL (te_Token t) <$> acls c))).
Proof.
  intros Ht. set (c' := set_Auth c _).
  assert (forall x, held c x -> x <> te_Token t -> held c' x) as Hkeep.
  { intros x (u & -> & Hu)%list_elem_of_fmap Hne. apply held_elem. cbn. apply list_elem_of_In, filter_In.
    split; [by apply list_elem_of_In|]. apply negb_true_iff, bool_decide_eq_false. intros E. apply Hne.
    f_equal. apply list_elem_of_lookup in Hu as [i Hi], Ht as [j Hj].
    assert (i = j) as ->; [|congruence]. eapply (NoDup_lookup (te_ID <$> tokens c)); [apply I|..].
    - by rewrite list_lookup_fmap, Hi.
    - by rewrite list_lookup_fmap, Hj; cbn; rewrite E. }
  assert (tokens c' `sublist_of` tokens c) as Hsub.
  { unfold c'. cbn. clear. induction (tokens c) as [|u l IH]; [done|]. cbn.
    destruct (te_ID u <>s te_ID t); [by apply sublist_skip|by apply sublist_cons]. }
  split.
  - eapply sublist_NoDup; [apply (oi_ids c I)|]. by apply fmap_sublist.
  - eapply sublist_NoDup; [apply (oi_tokens c I)|]. by apply fmap_sublist.
  - intros E. apply (oi_nonempty c I). eapply elem_of_sublist; [exact E|]. by apply fmap_sublist.
  - intros m acl. cbn. rewrite lookup_fmap_Some. intros (a & <- & Ha). cbn. case_bool_decide; [done|].
    intros Hr. apply Hkeep; [|done]. by eapply oi_register.
  - intros m acl g. cbn. rewrite lookup_fmap_Some. intros (a & <- & Ha). cbn.
    destruct (hasConnectGrant (ConnectTokens a) (te_Token t)) eqn:Hh; intros Hg.
    + apply list_elem_of_filter in Hg as [Hne Hg]. apply Hkeep; [|done]. by eapply oi_connect.
    + apply Hkeep; [by eapply oi_connect|]. intros E. apply not_true_iff_false in Hh. apply Hh.
      apply hasConnectGrant_iff. by exists g.
Qed.

(** Changing the ACL of one machine, with grants to identities that exist. *)
Lemma machine_inv m acl :
  (RegisterToken acl <> "" -> held c (RegisterToken acl)) ->
  (forall g, g ∈ ConnectTokens acl -> held c (cg_Token g)) ->
  offline_inv (set_Machines c (<[m := acl]> (acls c))).
Proof.
  intros Hr Hg. destruct I as [I1 I2 I3 I4 I5]. split; cbn; [done..| |].
  - intros m' a. rewrite lookup_insert_Some. intros [[_ <-]|[_ Hm]]; [done|by eapply I4].
  - intros m' a g. rewrite lookup_insert_Some. intros [[_ <-]|[_ Hm]]; [by apply Hg|by eapply I5].
Qed.

Lemma rotate_inv t token :
  find_first (fun u => te_ID u =s te_ID t) (tokens c) = Some t -> draw 0%nat = Some token ->
  offline_inv (set_Auth c (AuthConfig (setToken (te_ID t) token (tokens c))
                 (moveInACL (te_Token t) token <$> acls c))).
Proof.
  intros Hfind Hd. destruct F as [Hf _]. destruct (Hf _ _ Hd) as [Hne Hn].
  destruct (setToken_split _ token _ _ Hfind) as (l1 & l2 & El & _ & Es). set (c' := set_Auth c _).
  assert (te_Token <$> tokens c' = (te_Token <$> l1) ++ token :: (te_Token <$> l2)) as Ht.
  { unfold c'. cbn. by rewrite Es, fmap_app. }
  assert (te_Token <$> tokens c = (te_Token <$> l1) ++ te_Token t :: (te_Token <$> l2)) as Ht0
    by (by rewrite El, fmap_app).
  pose proof (oi_tokens c I) as Hnd. unfold held in Hn. rewrite Ht0 in Hnd, Hn.
  assert (forall x, held c x -> held c' (if x =s te_Token t then token else x)) as Hmove.
  { intros x. unfold held. rewrite Ht, Ht0, !elem_of_app, !elem_of_cons. case_bool_decide; naive_solver. }
  split.
  - assert (te_ID <$> tokens c' = te_ID <$> tokens c) as ->; [|apply I].
    unfold c'. cbn. by rewrite Es, El, !fmap_app.
  - rewrite Ht. rewrite NoDup_app, NoDup_cons, elem_of_app, elem_of_cons in *. set_solver.
  - intros E. unfold held in E. rewrite Ht in E. apply (oi_nonempty c I). unfold held. rewrite Ht0.
    rewrite !elem_of_app, !elem_of_cons in *. naive_solver.
  - intros m acl. cbn. rewrite lookup_fmap_Some. intros (a & <- & Ha). cbn. intros Hr.
    pose proof (oi_register c I m a Ha) as Hreg. case_bool_decide as E.
    + destruct (decide (RegisterToken a = "")) as [E0|E0].
      * destruct (oi_nonempty c I). rewrite <- E0, E. unfold held. rewrite Ht0. set_solver.
      * specialize (Hmove _ (Hreg E0)). by rewrite bool_decide_true in Hmove.
    + specialize (Hmove _ (Hreg Hr)). by rewrite bool_decide_false in Hmove.
  - intros m acl g. cbn. rewrite lookup_fmap_Some. intros (a & <- & Ha). cbn.
    intros (h & -> & Hh)%list_elem_of_fmap. specialize (Hmove _ (oi_connect c I m a h Ha Hh)).
    by case_bool_decide.
Qed.

Lemma acl_of_held m :
  (RegisterToken (acl_of (acls c) m) <> "" -> held c (RegisterToken (acl_of (acls c) m))) /\
  (forall g, g ∈ ConnectTokens (acl_of (acls c) m) -> held c (cg_Token g)).
Proof.
  unfold acl_of. destruct (acls c !! m) as [a|] eqn:Ha; cbn.
  - split; [by eapply oi_register|]. intros g. by eapply oi_connect.
  - split; [done|]. intros g Hg. by apply elem_of_nil in Hg.
Qed.

Lemma offline_keeps_inv c' : offline draw c c' -> offline_inv c'.
Proof.
  intros [owner viewer Ht -> Ho Hv|id role token Hid _ Hd ->|t Ht ->|t m Ht _ ->|t m acl Ht Hm ->|t token Hf Hd ->].
  - by apply bootstrap_inv.
  - by apply add_inv.
  - by apply remove_inv.
  - destruct (acl_of_held m) as [Hr Hc]. apply machine_inv; [done|]. cbn. intros g.
    rewrite elem_of_app, list_elem_of_singleton. intros [?| ->]; [by apply Hc|by apply held_elem].
  - apply machine_inv; cbn; [by eapply oi_register|]. intros g [_ Hg]%list_elem_of_filter. by eapply oi_connect.
  - by apply rotate_inv.
Qed.

End preserved.

(** ** Commands on a file *)

Section disk.
  Context {HC : HubCodec} (ds : ppath) (f : string) (Hg : good_elems (ds ++ [f])).

Local Abbreviation path := (abs (ds ++ [f])).

(** The configuration a command finds. *)
Definition stored (fs : fsys) : option hubConfig :=
  match fs !! (ds ++ [f]) with
  | Some (NFile d) => UnmarshalCfg d
  | _ => Some blankConfig
  end.

Lemma load_stored env fs cfg :
  disk_ok ds f fs -> loadOrCreateHubConfig env fs path = Some cfg -> stored fs = Some cfg.
Proof.
  intros [Hd Hs]. unfold loadOrCreateHubConfig, loadHubConfig, stored.
  destruct (ce_unreadable env); [done|]. rewrite ReadFile_child by done.
  destruct Hs as [-> |[d ->]]; [done|]. by destruct (UnmarshalCfg d).
Qed.

(** A save that succeeds is the configuration the next command finds. *)
Lemma write_stored env fs cfg ok fs' :
  disk_ok ds f fs -> writeHubConfig env fs path cfg = (ok, fs') ->
  if ok then disk_ok ds f fs' /\ stored fs' = Some cfg /\ (forall k, k <> ds ++ [f] -> fs' !! k = fs !! k)
  else fs' = fs \/ se_fault (ce_save env) "write" = true.
Proof.
  intros [Hd Hs] Hw. unfold writeHubConfig in Hw.
  apply writeDoc_child in Hw as [[-> ?]|[-> (d & Hm & ->)]]; [done| |done..].
  destruct (MarshalCfg cfg) as [m|] eqn:Em; [|done]. injection Hm as <-. split_and!.
  - split; [by apply dir_at_insert|apply plain_slot_file].
  - unfold stored. rewrite lookup_insert_eq. by apply unmarshal_cfg.
  - intros k Hk. by rewrite lookup_insert_ne.
Qed.

(** Each [telahubd user] command, whatever its arguments, either leaves every file as it was or
    applies one transition of the abstract relation to the stored configuration; it exits with 0 only
    when the new configuration is in the file, whole, and every other file is as before. *)
Theorem user_command_refines env args fs c :
  selects env (eq path) (tail args) -> se_fault (ce_save env) "write" = false ->
  disk_ok ds f fs -> stored fs = Some c ->
  let o := handleUserCommand env args fs in
  co_fs o = fs \/
  exists c', offline (draws env) c c' /\ co_exit o = 0%Z /\ disk_ok ds f (co_fs o) /\
    stored (co_fs o) = Some c' /\ (forall k, k <> ds ++ [f] -> co_fs o !! k = fs !! k).
Proof.
  intros Hsel Hw Hdisk Hc o.
  destruct (handleUserCommand_served env (eq path) args fs Hsel) as [?|H]; [by left|].
  destruct H as (p & cfg & c' & ok & <- & Hl & Ho & Hsave & Hexit). fold o in Hsave, Hexit.
  pose proof (load_stored _ _ _ Hdisk Hl) as E. rewrite Hc in E. injection E as <-.
  pose proof (write_stored _ _ _ _ _ Hdisk Hsave) as Hst. destruct ok.
  - right. exists c'. destruct Hst as (? & ? & ?). done.
  - destruct Hst as [Hst|Hst]; [by left|congruence].
Qed.

Inductive user_step (fs : fsys) : fsys -> Prop :=
  | user_command env args :
      selects env (eq path) (tail args) -> se_fault (ce_save env) "write" = false ->
      (forall c, stored fs = Some c -> fresh_draws (draws env) c) ->
      user_step fs (co_fs (handleUserCommand env args fs)).

(** Along any sequence of user commands, whatever their arguments and outcomes, the stored
    configuration stays readable, identities and tokens stay distinct, and no registration token or
    connect grant outlives the identity that holds it. *)
Theorem user_commands_inv fs fs' c :
  rtc user_step fs fs' -> disk_ok ds f fs -> stored fs = Some c -> offline_inv c ->
  exists c', stored fs' = Some c' /\ offline_inv c' /\ disk_ok ds f fs'.
Proof.
  intros Hr. revert c. induction Hr as [fs|fs g fs' Hs _ IH]; intros c Hd Hc I; [by exists c|].
  destruct Hs as [env args Hsel Hw Hf].
  destruct (handleUserCommand_served env (eq path) args fs Hsel) as [E|H]; [rewrite E in IH; by eapply IH|].
  destruct H as (p & cfg & c' & ok & <- & Hl & Ho & Hsave & _).
  pose proof (load_stored _ _ _ Hd Hl) as E. rewrite Hc in E. injection E as <-.
  pose proof (write_stored _ _ _ _ _ Hd Hsave) as Hst. destruct ok.
  - destruct Hst as (Hd' & Hc' & _). apply (IH c'); [done..|]. eapply offline_keeps_inv; [done|by apply Hf|done].
  - destruct Hst as [Hst|Hst]; [|congruence]. rewrite Hst in IH. by eapply IH.
Qed.

End disk.

(** ** What removing an identity does to the decisions *)

(** A hub restarted on the file enforces without the removed token, unless no identity is left. *)
Lemma offline_remove_denies c t now m :
  offline_inv c -> t ∈ tokens c ->
  let c' := set_Auth c (AuthConfig (List.filter (fun u => te_ID u <>s te_ID t) (tokens c))
                          (dropFromACL (te_Token t) <$> acls c)) in
  tokens c' <> [] ->
  let s := newAuthStore (Some (hc_Auth c')) in
  canConnect s now (te_Token t) m = false /\ canManage s now (te_Token t) m = false /\
  canRegister s now (te_Token t) m = false.
Proof.
  intros I Ht c' Hne s. unfold s. rewrite newAuthStore_nonempty by done.
  set (s' := AuthStore _ _ _).
  destruct (unauthenticated_denied s' now (te_Token t) m) as (? & ? & ? & _); [done| |done].
  intros e (_ & He & _). cbn in He. apply indexTokens_Some in He as (He & E & _).
  apply list_elem_of_In, filter_In in He as [He Hid]. apply list_elem_of_In in He. prop_bool.
  apply Hid. f_equal. apply list_elem_of_lookup in He as [i Hi], Ht as [j Hj].
  assert (i = j) as ->; [|congruence]. eapply (NoDup_lookup (te_Token <$> tokens c)); [apply I|..].
  - by rewrite list_lookup_fmap, Hi.
  - by rewrite list_lookup_fmap, Hj; cbn; rewrite E.
Qed.

(** * The hub's offline commands evaluated

    A concrete codec, the witnesses of the theorems of [HubCliProofs], and runs that show where the
    command line and the admin API part ways. *)

(** ** A codec with the law *)

Definition row_tuple (t : tokenEntry) := (te_ID t, te_Token t, te_HubRole t, te_IssuedAt t, te_ExpiresAt t, te_RevokedAt t).
Definition tuple_row t := let '(a, b, c, d, e, f) := t in TokenEntry a b c d e f.
Definition grant_tuple (g : connectGrant) := (cg_Token g, cg_Services g).
Definition tuple_grant p := let '(a, b) := p in ConnectGrant a b.
Definition acl_tuple (a : machineACL) := (RegisterToken a, map grant_tuple (ConnectTokens a), ManageTokens a).
Definition tuple_acl p := let '(a, b, c) := p in MachineACL a (map tuple_grant b) c.
Definition portal_tuple (p : portalEntry) := (pe_URL p, pe_Token p, pe_SyncToken p, pe_HubDirectory p).
Definition tuple_portal p := let '(a, b, c, d) := p in PortalEntry a b c d.
Definition bridge_tuple (b : bridgeConfig) := (bc_HubID b, bc_URL b, bc_Token b, bc_Pin b, bc_MaxHops b, bc_Machines b).
Definition tuple_bridge p := let '(a, b, c, d, e, f) := p in BridgeConfig a b c d e f.

Definition config_tuple (c : hubConfig) :=
  ((hc_HubID c, hc_Port c, hc_UDPPort c, hc_UDPHost c, hc_Name c, hc_WWWDir c, hc_ShutdownTimeout c),
   (map row_tuple (Tokens (hc_Auth c)), acl_tuple <$> Machines (hc_Auth c)),
   portal_tuple <$> hc_Portals c, (uc_Channel (hc_Update c), uc_Sources (hc_Update c)),
   map bridge_tuple (hc_Bridges c),
   (cc_Enabled (hc_Channels c), cc_Data (hc_Channels c), cc_PublicURL (hc_Channels c))).
Definition tuple_config p : hubConfig :=
  let '((hid, port, uport, uhost, name, www, st), (ts, ms), ps, (ch, src), bs, (en, da, pu)) := p in
  HubConfig hid port uport uhost name www st (AuthConfig (map tuple_row ts) (tuple_acl <$> ms))
    (tuple_portal <$> ps) (UpdateConfig ch src) (map tuple_bridge bs) (ChannelsConfig en da pu).

Lemma map_back {A B} (f : A -> B) (g : B -> A) l : (forall x, g (f x) = x) -> map g (map f l) = l.
Proof. intros H. induction l as [|x l IH]; [done|]. cbn. by rewrite H, IH. Qed.

Lemma fmap_back {A B} (f : A -> B) (g : B -> A) (m : gmap string A) : (forall x, g (f x) = x) -> g <$> (f <$> m) = m.
Proof.
  intros H. rewrite <- map_fmap_compose. rewrite <- (map_fmap_id m) at 2. apply map_fmap_ext.
  intros k x _. apply H.
Qed.

Lemma tuple_config_tuple c : tuple_config (config_tuple c) = c.
Proof.
  assert (forall a, tuple_acl (acl_tuple a) = a) as Ha.
  { intros []. cbn. by rewrite map_back by (by intros []). }
  destruct c as [? ? ? ? ? ? ? [] ? [] ? []]. cbn.
  rewrite !map_back by (by intros []). by rewrite !fmap_back by (by intros [] || apply Ha).
Qed.

(** The document is one number; the comment before it is dropped. *)
#[export, refine] Instance demo_hub_codec : HubCodec | 100 := {
  MarshalCfg c := Some [Z.pos (encode (config_tuple c))];
  UnmarshalCfg d := match drop (length (z_bytes configHeader)) d with
                    | [Z.pos p] => tuple_config <$> decode p
                    | _ => None
                    end
}.
Proof. intros c d [= <-]. rewrite drop_app_length, decode_encode.
  unfold fmap, option_fmap, option_map. by rewrite tuple_config_tuple. Defined.

(** ** A run *)

Definition demo_ds : ppath := ["etc"; "tela"].
Definition demo_name : string := "telahubd.yaml".
Definition demo_cfg_path : string := abs (demo_ds ++ [demo_name]).
Definition bare_disk : fsys := {[ ["etc"] := NDir; ["etc"; "tela"] := NDir ]}.
Definition cli (first : Z) : cliEnv :=
  CliEnv no_fault false (fun n => match n with O => Some [first; 0%Z] | S O => Some [first; 1%Z] | _ => None end) demo_cfg_path (fun _ => "") (fun _ => false) [].
Definition run_user (first : Z) (args : list string) (fs : fsys) : fsys :=
  co_fs (handleUserCommand (cli first) args fs).

Definition booted : fsys := run_user 1 ["bootstrap"] bare_disk.
Definition peopled : fsys :=
  run_user 3 ["grant"; "bob"; "web"] (run_user 2 ["add"; "bob"; "-role"; "admin"] booted).

Lemma demo_path_good : good_elems (demo_ds ++ [demo_name]).
Proof. apply (bool_decide_unpack _). by vm_compute. Qed.

Lemma bare_ok : disk_ok demo_ds demo_name bare_disk.
Proof.
  split; [|by left]. apply (dir_at_snoc ["etc"]); [|by vm_compute].
  apply (dir_at_snoc []); [|by vm_compute]. apply dir_at_nil.
Qed.

(** Arguments without a [-config] flag select the default path. *)
Definition selects_default (first : Z) (args : list string) : bool :=
  forallb (fun fl => match Parse fl ∅ (permuteArgs fl args) with
                     | ParseOk vals _ => cfgPath (cli first) vals =s demo_cfg_path
                     | _ => true
                     end) commandFlags.

Lemma selects_demo first args :
  selects_default first args = true -> selects (cli first) (eq demo_cfg_path) args.
Proof.
  intros Hs fl vals pos Hfl Hp. unfold selects_default in Hs.
  rewrite forallb_forall in Hs. specialize (Hs fl). rewrite Hp in Hs.
  apply list_elem_of_In, Hs in Hfl. by prop_bool.
Qed.

Lemma user_command_refines_witness :
  exists c', offline (draws (cli 1)) blankConfig c' /\ stored demo_ds demo_name booted = Some c'.
Proof.
  destruct (user_command_refines demo_ds demo_name demo_path_good (cli 1) ["bootstrap"] bare_disk blankConfig) as [H|H].
  - apply selects_demo. by vm_compute.
  - done.
  - apply bare_ok.
  - by vm_compute.
  - exfalso. apply (f_equal (fun fs : fsys => bool_decide (is_Some (fs !! (demo_ds ++ [demo_name]))))) in H.
    by vm_compute in H.
  - destruct H as (c' & Ho & _ & _ & Hst & _). exists c'. split; [exact Ho|exact Hst].
Defined.

Lemma blank_offline : offline_inv blankConfig.
Proof.
  split; cbn; [constructor|constructor|apply not_elem_of_nil| |]; intros m acl; [|intros g];
    by rewrite lookup_empty.
Qed.

(** The draws of a run are new when the two tokens are in no row. *)
Definition draws_new (first : Z) (c : hubConfig) : bool :=
  forallb (fun n => match draws (cli first) n with
                    | Some tok => (tok <>s "") && negb (existsb (fun t => te_Token t =s tok) (tokens c))
                    | None => false
                    end) [0%nat; 1%nat].

Lemma draws_fresh first c : draws_new first c = true -> fresh_draws (draws (cli first)) c.
Proof.
  unfold draws_new. rewrite forallb_forall. intros H. split.
  - intros n tok Hd. destruct (decide (n ∈ [0%nat; 1%nat])) as [Hn|Hn].
    + specialize (H n (proj1 (list_elem_of_In _ _) Hn)). rewrite Hd in H. prop_bool. split; [done|].
      intros (t & -> & Ht)%list_elem_of_fmap. apply not_true_iff_false in H0. apply H0.
      apply existsb_exists. exists t. split; [by apply list_elem_of_In|]. by apply bool_decide_eq_true.
    + destruct n as [|[|n]]; [set_solver..|]. done.
  - left. unfold draws, generateToken. cbn [cli ce_rand fmap option_fmap option_map]. by intros [= E].
Qed.

Lemma demo_step first args fs :
  selects_default first (tail args) = true ->
  match stored demo_ds demo_name fs with Some c => draws_new first c | None => false end = true ->
  user_step demo_ds demo_name fs (run_user first args fs).
Proof.
  intros Hs Hn. apply (user_command demo_ds demo_name fs (cli first) args).
  - by apply selects_demo.
  - reflexivity.
  - intros c Hc. rewrite Hc in Hn. by apply draws_fresh.
Qed.

Lemma peopled_run : rtc (user_step demo_ds demo_name) bare_disk peopled.
Proof.
  eapply rtc_l; [apply (demo_step 1 ["bootstrap"]); by vm_compute|].
  eapply rtc_l; [apply (demo_step 2 ["add"; "bob"; "-role"; "admin"]); by vm_compute|].
  eapply rtc_l; [apply (demo_step 3 ["grant"; "bob"; "web"]); by vm_compute|]. apply rtc_refl.
Qed.

Lemma user_commands_inv_witness :
  exists c', stored demo_ds demo_name peopled = Some c' /\ offline_inv c'.
Proof.
  destruct (user_commands_inv demo_ds demo_name demo_path_good bare_disk peopled blankConfig) as (c' & Hc & Hi & _).
  - apply peopled_run.
  - apply bare_ok.
  - by vm_compute.
  - apply blank_offline.
  - exists c'. split; [exact Hc|exact Hi].
Defined.

(** ** Where the command line and the admin API part ways *)

Definition peopled_cfg : hubConfig := default blankConfig (stored demo_ds demo_name peopled).
Definition cfg_after (args : list string) : hubConfig :=
  default blankConfig (stored demo_ds demo_name (run_user 4 args peopled)).

Example peopled_rows :
  map (fun t => (te_ID t, te_HubRole t)) (tokens peopled_cfg) =
  [("owner", "owner"); ("console-viewer", "viewer"); ("bob", "admin")].
Proof. by vm_compute. Qed.

(** The admin API refuses to remove the last owner; the command does not. *)
Example last_owner_removed :
  map te_ID (tokens (cfg_after ["remove"; "owner"])) = ["console-viewer"; "bob"] /\
  acls (cfg_after ["remove"; "owner"]) !! "*" = Some (MachineACL "" [] []).
Proof. by vm_compute. Qed.

(** An empty argument is an identity like any other; the admin API refuses it. *)
Example empty_identity_added :
  map te_ID (tokens (cfg_after ["add"; ""])) = ["owner"; "console-viewer"; "bob"; ""].
Proof. by vm_compute. Qed.

(** A rotation through the admin API clears the revocation; the command leaves the identity revoked,
    and neither moves the manage grants. *)
Definition revoked_bob : tokenEntry := TokenEntry "bob" "b0b" "" None None (Some 5%Z).
Definition managed_cfg : hubConfig :=
  set_Auth blankConfig (AuthConfig [revoked_bob] {[ "web" := MachineACL "" [] ["b0b"] ]}).
Definition managed_disk : fsys :=
  match MarshalCfg managed_cfg with
  | Some d => <[demo_ds ++ [demo_name] := NFile (z_bytes configHeader ++ d)]> bare_disk
  | None => bare_disk
  end.
Example rotation_keeps_revocation :
  match stored demo_ds demo_name (run_user 4 ["rotate"; "bob"] managed_disk) with
  | Some c => tokens c = [TokenEntry "bob" "0400" "" None None (Some 5%Z)] /\
              ManageTokens (acl_of (acls c) "web") = ["b0b"]
  | None => False
  end.
Proof. by vm_compute. Qed.

(** Removing an identity leaves its manage grants behind. *)
Example manage_grant_outlives :
  match stored demo_ds demo_name (run_user 4 ["remove"; "bob"] managed_disk) with
  | Some c => tokens c = [] /\ ManageTokens (acl_of (acls c) "web") = ["b0b"]
  | None => False
  end.
Proof. by vm_compute. Qed.

(** [portal remove] contacts the portal only when the stored entry has an admin token, which a
    registration never leaves behind: what [portal add] stored is never deregistered. *)
Lemma portal_never_deregistered cfg net hubID url token name huburl viewer result :
  Portals.registerWithPortal net hubID url token name huburl viewer = inr result ->
  deregister cfg (Portals.rr_Entry result) = [].
Proof.
  intros (Ht & _)%Portals.registerWithPortal_ok. unfold deregister. rewrite Ht.
  by rewrite (bool_decide_true ("" = "")), andb_false_r.
Qed.
