(* ===== verification/HubLog.v ===== *)
(** * The hub's log ring and event history ([internal/hub/hub.go], [admin_api.go])

    Two circular buffers: the last 1000 lines of the log, filled from the byte stream the logger
    writes, and the last 100 events of machines.  Each is proved to show the end of the sequence of
    everything that was ever put into it. *)

From S2P Require Import Prelude Auth Http HubConfig AdminState.
From Stdlib Require Import ZArith Lia Ascii String.
From stdpp Require Import base gmap strings list.

(** ** A circular buffer *)

Record ring (A : Type) := Ring { r_buf : list A; r_pos : nat; r_len : nat }.
Arguments Ring {A}.
Arguments r_buf {A}.
Arguments r_pos {A}.
Arguments r_len {A}.

Section ring.
  Context {A : Type} (size : nat) (zero : A).

(** A Go array of zero values, nothing written. *)
Definition emptyRing : ring A := Ring (repeat zero size) 0 0.

Definition ring_push (x : A) (r : ring A) : ring A :=
  Ring (<[r_pos r := x]> (r_buf r)) ((r_pos r + 1) mod size)
    (if (r_len r <? size)%nat then S (r_len r) else r_len r).

(** The ring shows [items], everything pushed so far, oldest first. *)
Record shows (items : list A) (r : ring A) : Prop := {
  sh_buf : length (r_buf r) = size;
  sh_pos : (r_pos r = length items mod size)%nat;
  sh_len : r_len r = Nat.min size (length items);
  sh_item : forall i, (i < r_len r)%nat ->
    r_buf r !! ((r_pos r + size - 1 - i) mod size)%nat = items !! (length items - 1 - i)%nat
}.

Hypothesis Hsize : (0 < size)%nat.

Lemma shows_empty : shows [] emptyRing.
Proof.
  split; cbn; [by rewrite repeat_length|by rewrite Nat.Div0.mod_0_l|lia|lia].
Qed.

Lemma mod_wrap a : (a < 2 * size)%nat -> (a mod size = if (a <? size)%nat then a else a - size)%nat.
Proof.
  intros Ha. destruct (Nat.ltb_spec a size); [by apply Nat.mod_small|].
  rewrite <- (Nat.mod_small (a - size) size) by lia. rewrite <- (Nat.Div0.mod_add (a - size) 1 size).
  f_equal. lia.
Qed.

Lemma shows_pos items r : shows items r -> (r_pos r < size)%nat.
Proof. intros S. rewrite (sh_pos _ _ S). apply Nat.mod_upper_bound. lia. Qed.

Lemma shows_push items r x : shows items r -> shows (items ++ [x]) (ring_push x r).
Proof.
  intros S. pose proof (shows_pos _ _ S) as Hp. destruct S as [Hb Hpos Hl Hi].
  assert (r_pos (ring_push x r) = (length items + 1) mod size)%nat as Hpos'.
  { cbn [ring_push r_pos]. by rewrite Hpos, Nat.Div0.add_mod_idemp_l. }
  split; rewrite ?length_app; cbn [length].
  - cbn. by rewrite length_insert.
  - exact Hpos'.
  - cbn [ring_push r_len]. rewrite Hl. destruct (Nat.ltb_spec (Nat.min size (length items)) size); lia.
  - intros i Hlt. cbn [ring_push r_buf].
    assert (i < size)%nat as His.
    { cbn [ring_push r_len] in Hlt. rewrite Hl in Hlt.
      destruct (Nat.ltb_spec (Nat.min size (length items)) size); lia. }
    assert (((r_pos (ring_push x r) + size - 1 - i) mod size =
             if (i =? 0)%nat then r_pos r else (r_pos r + size - 1 - (i - 1)) mod size)%nat) as Hidx.
    { assert (r_pos (ring_push x r) = if (r_pos r + 1 <? size)%nat then r_pos r + 1 else 0)%nat as ->.
      { cbn [ring_push r_pos]. rewrite mod_wrap by lia. destruct (_ <? _)%nat eqn:E; [done|].
        apply Nat.ltb_ge in E. lia. }
      rewrite !mod_wrap by (destruct (r_pos r + 1 <? size)%nat; lia).
      destruct (Nat.ltb_spec (r_pos r + 1) size), (Nat.eqb_spec i 0);
        repeat match goal with |- context [(?a <? ?b)%nat] => destruct (Nat.ltb_spec a b) end; lia. }
    rewrite Hidx. destruct (Nat.eqb_spec i 0) as [->|Hne].
    + rewrite list_lookup_insert_eq by lia. rewrite lookup_app_r by lia.
      by replace (length items + 1 - 1 - 0 - length items)%nat with 0%nat by lia.
    + assert (i - 1 < r_len r)%nat as Hi1.
      { cbn [ring_push r_len] in Hlt. destruct (_ <? _)%nat eqn:E in Hlt; [|apply Nat.ltb_ge in E]; lia. }
      rewrite list_lookup_insert_ne.
      * rewrite Hi by done. rewrite lookup_app_l by lia. f_equal. lia.
      * rewrite mod_wrap by lia. destruct (_ <? _)%nat eqn:E; [apply Nat.ltb_lt in E|apply Nat.ltb_ge in E]; lia.
Qed.

(** Pushing a list. *)
Lemma shows_pushes items xs r :
  shows items r -> shows (items ++ xs) (fold_left (fun r x => ring_push x r) xs r).
Proof.
  revert items r. induction xs as [|x xs IH]; intros items r S; [by rewrite app_nil_r|].
  cbn. rewrite cons_middle, app_assoc. by apply IH, shows_push.
Qed.

End ring.

(** ** The log *)

Definition logRingSize : nat := 1000.
Definition newline : ascii := ascii_of_nat 10.

Record logState := LogState { lg_ring : ring string; lg_partial : list ascii }.
Definition noLog : logState := LogState (emptyRing logRingSize "") [].

(** The loop over the complete lines of the buffer; each round shortens it. *)
Fixpoint takeLines (fuel : nat) (r : ring string) (b : list ascii) : ring string * list ascii :=
  match fuel with
  | O => (r, b)
  | S fuel =>
      match cut_bytes [newline] b with
      | Some (line, rest) => takeLines fuel (ring_push logRingSize (of_bytes line) r) rest
      | None => (r, b)
      end
  end.

(** [logRingWriter.Write], for the part of its argument the original writer accepts. *)
Definition logWrite (s : logState) (p : list ascii) : logState :=
  let b := lg_partial s ++ p in
  let '(r, b) := takeLines (S (length b)) (lg_ring s) b in LogState r b.

Definition snapshotLogRing (n : Z) (r : ring string) : list string :=
  let n := if ((n <=? 0) || (Z.of_nat (r_len r) <? n))%Z then r_len r else Z.to_nat n in
  let start := ((r_pos r + logRingSize - n) mod logRingSize)%nat in
  map (fun i => nth ((start + i) mod logRingSize)%nat (r_buf r) "") (seq 0 n).

(** The reference: the complete lines of a byte stream, and what follows the last newline. *)
Fixpoint lines_of (l : list ascii) : list (list ascii) * list ascii :=
  match l with
  | [] => ([], [])
  | c :: l' =>
      let '(ls, rest) := lines_of l' in
      if Ascii.eqb c newline then ([] :: ls, rest)
      else match ls with
           | [] => ([], c :: rest)
           | x :: ls' => ((c :: x) :: ls', rest)
           end
  end.

(** ** The history of events *)

Record historyEvent := HistoryEvent {
  he_MachineID : string;
  he_Event : string;
  he_Timestamp : string;
  he_Detail : string
}.
Definition maxHistory : nat := 100.
Definition noEvent : historyEvent := HistoryEvent "" "" "" "".
Definition noHistory : ring historyEvent := emptyRing maxHistory noEvent.

(** [timestamp]: the clock, formatted. *)
Definition recordEvent (timestamp machineID event detail : string) (h : ring historyEvent)
    : ring historyEvent :=
  ring_push maxHistory (HistoryEvent machineID event timestamp detail) h.

(** Most recent first. *)
Definition snapshotHistory (h : ring historyEvent) : list historyEvent :=
  map (fun i => nth ((r_pos h + maxHistory - 1 - i) mod maxHistory)%nat (r_buf h) noEvent)
    (seq 0 (r_len h)).

(** ** The endpoints *)

Inductive historyReply :=
  | HistoryNoContent
  | HistoryUnauthorized
  | HistoryEvents (l : list historyEvent).

Definition handleAPIHistory (env : environ) (st : hubState) (h : ring historyEvent) (r : request)
    : historyReply :=
  if r_Method r =s "OPTIONS" then HistoryNoContent
  else
    let callerToken := tokenFromRequest r in
    if isEnabled (globalAuth st) && (identityID (globalAuth st) (env_now env) callerToken =s "") then
      HistoryUnauthorized
    else HistoryEvents (List.filter (fun e =>
      negb (isEnabled (globalAuth st) &&
            negb (canViewMachine (globalAuth st) (env_now env) callerToken (he_MachineID e))))
      (snapshotHistory h)).

Definition handleAdminLogs (env : environ) (st : hubState) (r_log : ring string) (r : request) : response :=
  if r_Method r =s "OPTIONS" then reply 204 PNone
  else match requireOwnerOrAdmin env st r with
  | None => forbidden
  | Some _ =>
      if negb (r_Method r =s "GET") then errorReply 405 "method not allowed"
      else
        let n := if query_get r "lines" <>s "" then
                   match Atoi (query_get r "lines") with
                   | Some parsed => if (0 <? parsed)%Z then parsed else 100%Z
                   | None => 100%Z
                   end
                 else 100%Z in
        reply 200 (PLines (snapshotLogRing n r_log))
  end.

(** ** The log ring shows the end of the log *)

Lemma lines_of_app l p :
  lines_of (l ++ p) =
  (fst (lines_of l) ++ fst (lines_of (snd (lines_of l) ++ p)), snd (lines_of (snd (lines_of l) ++ p))).
Proof.
  induction l as [|c l IH]; [cbn; by destruct (lines_of p)|]. cbn [lines_of app].
  destruct (lines_of l) as [ls rest]. cbn [fst snd] in *. rewrite IH.
  destruct (Ascii.eqb c newline) eqn:E; [done|]. destruct ls as [|x ls].
  - cbn [fst snd app lines_of]. rewrite E. by destruct (lines_of (rest ++ p)) as [[|y ys] z].
  - done.
Qed.

Lemma lines_of_cut l line rest :
  cut_bytes [newline] l = Some (line, rest) ->
  lines_of l = (line :: fst (lines_of rest), snd (lines_of rest)) /\ (length rest < length l)%nat.
Proof.
  revert line rest. induction l as [|c l IH]; intros line rest; [done|]. cbn [cut_bytes drop_prefix].
  destruct (Ascii.eqb newline c) eqn:E.
  - intros [= <- <-]. cbn [lines_of]. rewrite Ascii.eqb_sym, E. destruct (lines_of l). cbn. split; [done|lia].
  - destruct (cut_bytes [newline] l) as [[a b]|] eqn:Hc; [|done]. intros [= <- <-].
    destruct (IH a b eq_refl) as [Hl Hlt]. cbn [lines_of]. rewrite Hl, Ascii.eqb_sym, E. cbn. split; [done|lia].
Qed.

Lemma lines_of_none l : cut_bytes [newline] l = None -> lines_of l = ([], l).
Proof.
  induction l as [|c l IH]; [done|]. cbn [cut_bytes drop_prefix lines_of].
  destruct (Ascii.eqb newline c) eqn:E; [done|]. destruct (cut_bytes [newline] l) as [[a b]|]; [done|].
  intros _. rewrite (IH eq_refl). by rewrite Ascii.eqb_sym, E.
Qed.

Lemma takeLines_spec fuel r b :
  (length b < fuel)%nat ->
  takeLines fuel r b =
    (fold_left (fun r x => ring_push logRingSize x r) (map of_bytes (fst (lines_of b))) r, snd (lines_of b)).
Proof.
  revert r b. induction fuel as [|fuel IH]; intros r b Hf; [lia|]. cbn [takeLines].
  destruct (cut_bytes [newline] b) as [[line rest]|] eqn:Hc.
  - destruct (lines_of_cut _ _ _ Hc) as [-> Hlt]. rewrite IH by lia. done.
  - by rewrite (lines_of_none _ Hc).
Qed.

Lemma logWrite_spec s p :
  logWrite s p = LogState
    (fold_left (fun r x => ring_push logRingSize x r) (map of_bytes (fst (lines_of (lg_partial s ++ p)))) (lg_ring s))
    (snd (lines_of (lg_partial s ++ p))).
Proof. unfold logWrite. by rewrite takeLines_spec by lia. Qed.

(** However the stream was cut into writes. *)
Lemma log_shows chunks :
  let s := fold_left logWrite chunks noLog in
  shows logRingSize (map of_bytes (fst (lines_of (concat chunks)))) (lg_ring s) /\
  lg_partial s = snd (lines_of (concat chunks)).
Proof.
  induction chunks as [|p chunks IH] using rev_ind; cbn zeta.
  - split; [|done]. apply shows_empty. unfold logRingSize. lia.
  - rewrite fold_left_app, concat_app. cbn [fold_left concat]. rewrite app_nil_r.
    destruct IH as [IH1 IH2]. rewrite logWrite_spec. cbn [lg_ring lg_partial].
    rewrite (lines_of_app (concat chunks) p), IH2. cbn [fst snd]. split; [|done].
    rewrite map_app. apply shows_pushes; [unfold logRingSize; lia|done].
Qed.

(** A window of a ring that shows [items]. *)
Lemma shows_nth {A} size (zero : A) items r i :
  (0 < size)%nat -> shows size items r -> (i < r_len r)%nat ->
  nth ((r_pos r + size - 1 - i) mod size)%nat (r_buf r) zero = nth (length items - 1 - i) items zero.
Proof.
  intros Hs S Hi. rewrite !nth_lookup. by rewrite (sh_item _ _ _ S).
Qed.

Lemma snapshot_window n items r :
  shows logRingSize items r -> (n <= r_len r)%nat ->
  map (fun i => nth (((r_pos r + logRingSize - n) mod logRingSize + i) mod logRingSize)%nat (r_buf r) "") (seq 0 n) =
  drop (length items - n) items.
Proof.
  intros S Hn. assert (0 < logRingSize)%nat as Hs by (unfold logRingSize; lia).
  pose proof (sh_len _ _ _ S) as Hl. apply list_eq. intros i. rewrite lookup_drop.
  destruct (decide (i < n)%nat) as [Hi|Hi].
  - rewrite list_lookup_fmap, lookup_seq_lt by done. cbn [fmap option_fmap option_map].
    assert (((r_pos r + logRingSize - n) mod logRingSize + (0 + i)) mod logRingSize =
            (r_pos r + logRingSize - 1 - (n - 1 - i)) mod logRingSize)%nat as ->.
    { rewrite Nat.Div0.add_mod_idemp_l. f_equal. lia. }
    rewrite (shows_nth _ _ items) by (done || lia).
    rewrite nth_lookup. replace (length items - 1 - (n - 1 - i))%nat with (length items - n + i)%nat by lia.
    destruct (items !! (length items - n + i)%nat) eqn:E; [done|]. apply lookup_ge_None in E. lia.
  - rewrite !lookup_ge_None_2; [done| |]; rewrite ?length_map, ?length_seq; lia.
Qed.

(** A snapshot of the log is the end of the log, whatever the pieces it was written in: the last
    [n] complete lines, or the last 1000 (or all there are) when [n] is out of range. *)
Theorem log_snapshot_is_tail chunks n :
  let log := map of_bytes (fst (lines_of (concat chunks))) in
  let kept := Nat.min logRingSize (length log) in
  let k := if ((n <=? 0) || (Z.of_nat kept <? n))%Z then kept else Z.to_nat n in
  snapshotLogRing n (lg_ring (fold_left logWrite chunks noLog)) = drop (length log - k) log.
Proof.
  cbn zeta. destruct (log_shows chunks) as [S _]. unfold snapshotLogRing.
  rewrite (snapshot_window _ _ _ S); rewrite (sh_len _ _ _ S); [done|].
  destruct (_ || _) eqn:E; [done|]. apply orb_false_iff in E as [E1 E2].
  apply Z.leb_gt in E1. apply Z.ltb_ge in E2. lia.
Qed.

(** ** The history shows the last events *)

Definition record (h : ring historyEvent) (e : historyEvent) : ring historyEvent :=
  recordEvent (he_Timestamp e) (he_MachineID e) (he_Event e) (he_Detail e) h.

Lemma history_shows evs : shows maxHistory evs (fold_left record evs noHistory).
Proof.
  induction evs as [|e evs IH] using rev_ind; [apply shows_empty; unfold maxHistory; lia|].
  rewrite fold_left_app. cbn. destruct e. apply shows_push; [unfold maxHistory; lia|done].
Qed.

Lemma snapshotHistory_rev evs :
  snapshotHistory (fold_left record evs noHistory) = take maxHistory (rev evs).
Proof.
  pose proof (history_shows evs) as Sh. assert (0 < maxHistory)%nat as Hs by (unfold maxHistory; lia).
  assert (rev evs = reverse evs) as -> by apply rev_alt.
  unfold snapshotHistory. apply list_eq. intros i. pose proof (sh_len _ _ _ Sh) as Hl.
  destruct (decide (i < r_len (fold_left record evs noHistory))%nat) as [Hi|Hi].
  - rewrite list_lookup_fmap, lookup_seq_lt by done. cbn [fmap option_fmap option_map].
    rewrite (shows_nth _ _ evs) by done. rewrite lookup_take_lt by lia.
    rewrite reverse_lookup by lia.
    rewrite nth_lookup. replace (length evs - 1 - (0 + i))%nat with (length evs - S i)%nat by lia.
    destruct (evs !! (length evs - S i)%nat) eqn:E; [done|]. apply lookup_ge_None in E. lia.
  - rewrite !lookup_ge_None_2; [done| |]; rewrite ?length_map, ?length_seq, ?length_take, ?length_reverse; lia.
Qed.

(** On a hub that enforces, the history shows a known caller exactly the events of machines it
    may view, among the last 100 recorded, the most recent first; an unknown caller is refused. *)
Theorem history_exact env st evs r :
  isEnabled (globalAuth st) = true -> r_Method r <> "OPTIONS" ->
  let caller := tokenFromRequest r in
  handleAPIHistory env st (fold_left record evs noHistory) r =
  if identityID (globalAuth st) (env_now env) caller =s "" then HistoryUnauthorized
  else HistoryEvents (List.filter (fun e => canViewMachine (globalAuth st) (env_now env) caller (he_MachineID e))
         (take maxHistory (rev evs))).
Proof.
  intros Hen Hm caller. unfold handleAPIHistory. rewrite bool_decide_false, Hen by done. cbn [andb].
  fold caller. destruct (_ =s ""); [done|]. f_equal. rewrite snapshotHistory_rev.
  apply List.filter_ext. intros e. by rewrite negb_involutive.
Qed.

(** ** A small hub evaluated *)

Definition log_hub : hubState :=
  let cfg := set_Auth emptyConfig (AuthConfig
    [TokenEntry "boss" "b" "owner" None None None; TokenEntry "ann" "a" "" None None None]
    {[ "web" := MachineACL "" [ConnectGrant "a" []] [] ]}) in
  HubState cfg "" (newAuthStore (Some (hc_Auth cfg))) ∅ None.
Definition log_env : environ := Environ 5 None true.
Definition ask_history (token : string) : request :=
  Request "GET" "/api/history" ("Bearer " +:+ token) None ∅ "" BodyEmpty.
Definition event (m : string) (n : Z) : historyEvent := HistoryEvent m "agent-register" "" (FormatUint n).

Lemma history_exact_witness :
  handleAPIHistory log_env log_hub (fold_left record [event "web" 1; event "db" 2; event "web" 3] noHistory)
    (ask_history "a") = HistoryEvents [event "web" 3; event "web" 1].
Proof.
  rewrite (history_exact log_env log_hub [event "web" 1; event "db" 2; event "web" 3] (ask_history "a"));
    [by vm_compute|by vm_compute|].
  apply (bool_decide_unpack _). by vm_compute.
Defined.

(** Two writes make one line, and one write two. *)
Example log_pieces :
  snapshotLogRing 5 (lg_ring (fold_left logWrite
    [bytes "hel"; bytes "lo" ++ [newline] ++ bytes "a" ++ [newline] ++ bytes "b"] noLog)) = ["hello"; "a"].
Proof. by vm_compute. Qed.
