(* ===== verification/HubStart.v ===== *)
(** * Starting the hub ([Main] and [serviceRunHub] in [internal/hub/hub.go])

    From the configuration file and the environment to the globals the hub serves with: the file is
    found and read, an owner and a console token are made when there are none, the hub gets its
    identity, and every change is written back.  A write that fails is ignored, as in the source.

    The last part evaluates starts on small disks. *)

From S2P Require Import Prelude Auth HubConfig AdminState FilePath FileSys Flags Bridge HubCli HubCliProofs.
From S2P Require Portals.
From Stdlib Require Import ZArith Lia Ascii String.
From stdpp Require Import base gmap strings list fin_maps.

(** The globals the hub serves with, and the file system it leaves. *)
Record started := Started {
  su_cfg : hubConfig;
  su_path : string;
  su_auth : authStore;
  su_globals : hubGlobals;
  su_fs : fsys
}.

Definition set_HubID (c : hubConfig) (id : string) : hubConfig :=
  HubConfig id (hc_Port c) (hc_UDPPort c) (hc_UDPHost c) (hc_Name c) (hc_WWWDir c)
    (hc_ShutdownTimeout c) (hc_Auth c) (hc_Portals c) (hc_Update c) (hc_Bridges c) (hc_Channels c).
Definition with_hubID (g : hubGlobals) (id : string) : hubGlobals :=
  HubGlobals (g_httpPort g) (g_udpPort g) (g_udpHost g) id (g_hubName g) (g_wwwDir g)
    (g_wwwDirOverride g) (g_bridgeDir g).

(** [io.ReadFull] into a zeroed array, its error ignored. *)
Definition newUUID (rnd : option (list Z)) : string :=
  let b := take 16 (default [] rnd) in format_uuid (b ++ repeat 0%Z (16 - length b)).

Section start.
  Context {HC : HubCodec} `{RangeOrder} (env : cliEnv) (net : Portals.portalNet).

(** A save whose error is ignored. *)
Definition write_if (fs : fsys) (path : string) (w : option hubConfig) : fsys :=
  match w with Some c => snd (writeHubConfig env fs path c) | None => fs end.

(** [data/telahubd.yaml], as an absolute path, is [data_path]. *)
Definition findConfig (fs : fsys) (flag_path data_path : string)
    : option (option hubConfig * string) :=
  if flag_path <>s "" then
    match loadHubConfig env fs flag_path with
    | LoadOk c => Some (Some c, flag_path)
    | LoadMissing => Some (None, flag_path)
    | LoadError => None                       (** [log.Fatalf] *)
    end
  else
    let try_path p :=
      match Stat fs p with
      | SInfo _ => match loadHubConfig env fs p with LoadOk c => Some (Some c, p) | _ => None end
      | _ => None
      end in
    match try_path data_path with
    | Some r => Some r
    | None => match try_path (ce_default env) with Some r => Some r | None => Some (None, "") end
    end.

(** The part [Main] and [serviceRunHub] share, from [applyHubConfig] on. *)
Definition boot (cfg : option hubConfig) (configPath data_path : string) (fs : fsys) : started :=
  let g := applyHubConfig env cfg initialGlobals in
  let cfg := default (HubConfig "" (g_httpPort g) (g_udpPort g) "" "" (g_wwwDir g) 0 (AuthConfig [] ∅)
                        ∅ (UpdateConfig "" ∅) [] (ChannelsConfig false "" "")) cfg in
  let '(_, cfg, w) := bootstrapFromEnv (ce_rand env 0) (ce_getenv env "TELA_OWNER_TOKEN") cfg configPath in
  let fs := write_if fs configPath w in
  let '(_, cfg, w) := autoBootstrapAuth (ce_rand env 1) (ce_rand env 2) cfg configPath in
  let fs := write_if fs configPath w in
  let unplaced := (configPath =s "") && negb (length (Tokens (hc_Auth cfg)) =? 0)%nat in
  let path := if unplaced then data_path else configPath in
  let fs := if unplaced then
              write_if (snd (MkdirAll fs (Dir data_path))) data_path (Some cfg)
            else fs in
  let '(_, cfg, w) := ensureConsoleViewer (ce_rand env 3) cfg path in
  let fs := write_if fs path w in
  let auth := newAuthStore (Some (hc_Auth cfg)) in
  let unnamed := hc_HubID cfg =s "" in
  let cfg := if unnamed then set_HubID cfg (newUUID (ce_rand env 4)) else cfg in
  let g := if unnamed then with_hubID g (hc_HubID cfg) else g in
  let fs := if unnamed && (path <>s "") then write_if fs path (Some cfg) else fs in
  let pe := Portals.PortalEnv (ce_getenv env "TELAHUBD_PORTAL_URL") (ce_getenv env "TELAHUBD_PORTAL_TOKEN")
              (ce_getenv env "TELAHUBD_PUBLIC_URL") (ce_getenv env "TELAHUBD_NAME") in
  let '(_, cfg, w) := Portals.bootstrapPortalsFromEnv net (g_hubID g) pe auth cfg path in
  Started cfg path auth g (write_if fs path w).

Definition startMain (flag_path data_path : string) (fs : fsys) : option started :=
  match findConfig fs flag_path data_path with
  | None => None
  | Some (cfg, configPath) => Some (boot cfg configPath data_path fs)
  end.

(** The service reads the system-wide file and stops without one. *)
Definition serviceRunHub (fs : fsys) : option started :=
  match loadHubConfig env fs (ce_default env) with
  | LoadOk cfg => Some (boot (Some cfg) (ce_default env) (ce_default env) fs)
  | _ => None
  end.

End start.

(** ** The hub never starts open *)

Section theorems.
  Context {HC : HubCodec} `{RangeOrder} (env : cliEnv) (net : Portals.portalNet).

(** Every read of the random source gives some bytes. *)
Definition random_works : Prop := forall n, exists b l, ce_rand env n = Some (b :: l).

Lemma drawn (Hr : random_works) n : exists t, generateToken (ce_rand env n) = Some t /\ t <> "".
Proof.
  destruct (Hr n) as (b & l & E). rewrite E. eexists. split; [done|]. by apply hex_encode_nonempty.
Qed.

Lemma bootstrapAuth_tokens rnd cfg path owner c w :
  bootstrapAuth rnd cfg path owner = (c, w) -> Tokens (hc_Auth c) <> [].
Proof. unfold bootstrapAuth. by intros [= <- <-]. Qed.

Lemma bootstrapFromEnv_kept rnd owner cfg path b c w :
  bootstrapFromEnv rnd owner cfg path = (b, c, w) -> Tokens (hc_Auth cfg) <> [] -> c = cfg /\ w = None.
Proof.
  unfold bootstrapFromEnv. destruct (owner =s ""); [by intros [= <- <- <-]|].
  destruct (Tokens (hc_Auth cfg)); [done|by intros [= <- <- <-]].
Qed.

Lemma autoBootstrapAuth_kept r1 r2 cfg path b c w :
  autoBootstrapAuth r1 r2 cfg path = (b, c, w) -> Tokens (hc_Auth cfg) <> [] -> c = cfg /\ w = None.
Proof.
  unfold autoBootstrapAuth. destruct (Tokens (hc_Auth cfg)); [done|by intros [= <- <- <-]].
Qed.

Lemma autoBootstrapAuth_some (Hr : random_works) n m cfg path b c w :
  autoBootstrapAuth (ce_rand env n) (ce_rand env m) cfg path = (b, c, w) -> Tokens (hc_Auth c) <> [].
Proof.
  unfold autoBootstrapAuth. destruct (Tokens (hc_Auth cfg)) eqn:E; [|intros [= <- <- <-]; by rewrite E].
  destruct (drawn Hr n) as (t & -> & _). destruct (bootstrapAuth _ _ _ t) as [c' w'] eqn:Hb.
  intros [= <- <- <-]. by eapply bootstrapAuth_tokens.
Qed.

(** Identities that exist are kept, at most one console viewer is added. *)
Definition viewer_added (ts ts' : list tokenEntry) : Prop :=
  ts' = ts \/ exists v, ts' = ts ++ [viewerRow v].

Lemma ensureConsoleViewer_tokens rnd cfg path b c w :
  ensureConsoleViewer rnd cfg path = (b, c, w) ->
  viewer_added (Tokens (hc_Auth cfg)) (Tokens (hc_Auth c)) /\ Machines (hc_Auth c) = Machines (hc_Auth cfg).
Proof.
  unfold ensureConsoleViewer, viewer_added. destruct (Tokens (hc_Auth cfg)) as [|t ts] eqn:E.
  { intros [= <- <- <-]. rewrite E. by auto. }
  destruct (existsb _ _); [intros [= <- <- <-]; rewrite E; by auto|].
  destruct (generateToken rnd) as [v|]; intros [= <- <- <-]; [|rewrite E; by auto].
  split; [right; by exists v|done].
Qed.

Lemma bootstrapPortals_auth hubID pe auth cfg path b c w :
  Portals.bootstrapPortalsFromEnv net hubID pe auth cfg path = (b, c, w) ->
  hc_Auth c = hc_Auth cfg /\ hc_HubID c = hc_HubID cfg.
Proof.
  unfold Portals.bootstrapPortalsFromEnv.
  repeat match goal with |- context [if ?b then _ else _] => destruct b end; try by intros [= <- <- <-].
  all: destruct (Portals.registerWithPortal _ _ _ _ _ _ _); by intros [= <- <- <-].
Qed.

Lemma bootstrapFromEnv_id rnd owner cfg path b c w :
  bootstrapFromEnv rnd owner cfg path = (b, c, w) -> hc_HubID c = hc_HubID cfg.
Proof.
  unfold bootstrapFromEnv, bootstrapAuth. destruct (owner =s ""); [by intros [= <- <- <-]|].
  destruct (Tokens (hc_Auth cfg)); by intros [= <- <- <-].
Qed.

Lemma autoBootstrapAuth_id r1 r2 cfg path b c w :
  autoBootstrapAuth r1 r2 cfg path = (b, c, w) -> hc_HubID c = hc_HubID cfg.
Proof.
  unfold autoBootstrapAuth, bootstrapAuth. destruct (Tokens (hc_Auth cfg)); [|by intros [= <- <- <-]].
  destruct (generateToken r1); by intros [= <- <- <-].
Qed.

Lemma ensureConsoleViewer_id rnd cfg path b c w :
  ensureConsoleViewer rnd cfg path = (b, c, w) -> hc_HubID c = hc_HubID cfg.
Proof.
  unfold ensureConsoleViewer. destruct (Tokens (hc_Auth cfg)); [by intros [= <- <- <-]|].
  destruct (existsb _ _); [by intros [= <- <- <-]|]. destruct (generateToken rnd); by intros [= <- <- <-].
Qed.

Lemma applyHubConfig_id cfg : g_hubID (applyHubConfig env (Some cfg) initialGlobals) = hc_HubID cfg.
Proof.
  unfold applyHubConfig. repeat match goal with |- context [let '(_, _) := ?x in _] => destruct x end. cbn.
  destruct (bool_decide_reflect (hc_HubID cfg = "")) as [->|]; done.
Qed.

Lemma boot_spec (Hr : random_works) cfg p data fs :
  let s := boot env net cfg p data fs in
  Tokens (hc_Auth (su_cfg s)) <> [] /\ su_auth s = newAuthStore (Some (hc_Auth (su_cfg s))) /\
  hc_HubID (su_cfg s) <> "" /\ g_hubID (su_globals s) = hc_HubID (su_cfg s) /\
  (forall c, cfg = Some c -> Tokens (hc_Auth c) <> [] ->
     viewer_added (Tokens (hc_Auth c)) (Tokens (hc_Auth (su_cfg s))) /\
     Machines (hc_Auth (su_cfg s)) = Machines (hc_Auth c)).
Proof.
  cbn zeta. unfold boot.
  set (g := applyHubConfig env cfg initialGlobals). match goal with |- context [default ?d cfg] => set (c0 := default d cfg) end.
  assert (hc_HubID c0 <> "" -> g_hubID g = hc_HubID c0) as Hid.
  { unfold c0, g. destruct cfg as [c|]; [|done]. intros _. apply applyHubConfig_id. }
  destruct (bootstrapFromEnv _ _ _ _) as [[b1 c1] w1] eqn:E1.
  destruct (autoBootstrapAuth _ _ _ _) as [[b2 c2] w2] eqn:E2.
  match goal with |- context [if ?b then data else p] => set (path := if b then data else p) end.
  destruct (ensureConsoleViewer _ _ path) as [[b3 c3] w3] eqn:E3.
  match goal with |- context [if ?b then set_HubID c3 ?u else c3] => set (c4 := if b then set_HubID c3 u else c3) end.
  match goal with |- context [if ?b then with_hubID g ?u else g] => set (g4 := if b then with_hubID g u else g) end.
  destruct (Portals.bootstrapPortalsFromEnv _ _ _ _ _ _) as [[b5 c5] w5] eqn:E5.
  apply bootstrapPortals_auth in E5 as [Ha5 Hi5]. cbn [su_cfg su_auth su_globals].
  assert (hc_Auth c4 = hc_Auth c3) as Ha4 by (unfold c4; by destruct (hc_HubID c3 =s "")).
  pose proof (autoBootstrapAuth_some Hr _ _ _ _ _ _ _ E2) as Hne2.
  destruct (ensureConsoleViewer_tokens _ _ _ _ _ _ E3) as [Hv3 Hm3]. rewrite Ha5, Ha4.
  assert (hc_HubID c3 = hc_HubID c0) as Hi3.
  { by rewrite (ensureConsoleViewer_id _ _ _ _ _ _ E3), (autoBootstrapAuth_id _ _ _ _ _ _ _ E2),
      (bootstrapFromEnv_id _ _ _ _ _ _ _ E1). }
  split_and!.
  - destruct Hv3 as [->|[v ->]]; [done|]. by destruct (Tokens (hc_Auth c2)).
  - done.
  - rewrite Hi5. unfold c4. destruct (bool_decide_reflect (hc_HubID c3 = "")) as [E|E]; [|done].
    apply format_uuid_ne.
  - rewrite Hi5. unfold g4, c4. destruct (bool_decide_reflect (hc_HubID c3 = "")) as [E|E]; [done|].
    rewrite Hi3 in *. by apply Hid.
  - intros c -> Hne. assert (c0 = c) as Ec by done.
    apply bootstrapFromEnv_kept in E1 as [-> _]; [|by rewrite Ec].
    apply autoBootstrapAuth_kept in E2 as [-> _]; [|by rewrite Ec].
    rewrite Ec in *. done.
Qed.

(** Secure by default: whatever the configuration file and the environment, a hub that starts
    enforces tokens (as long as there are random bytes to make one), keeps every identity and every
    ACL its file has, and presents the identity that is in its configuration. *)
Theorem startup_enforces flag data fs s :
  random_works -> startMain env net flag data fs = Some s ->
  isEnabled (su_auth s) = true /\ su_auth s = newAuthStore (Some (hc_Auth (su_cfg s))) /\
  g_hubID (su_globals s) = hc_HubID (su_cfg s) /\ hc_HubID (su_cfg s) <> "" /\
  (forall c p, findConfig env fs flag data = Some (Some c, p) -> Tokens (hc_Auth c) <> [] ->
     viewer_added (Tokens (hc_Auth c)) (Tokens (hc_Auth (su_cfg s))) /\
     Machines (hc_Auth (su_cfg s)) = Machines (hc_Auth c)).
Proof.
  intros Hr. unfold startMain. destruct (findConfig env fs flag data) as [[cfg p]|] eqn:Hf; [|done].
  intros [= <-]. destruct (boot_spec Hr cfg p data fs) as (Hne & Ha & Hid & Hg & Hk).
  split_and!; [|done..|].
  - rewrite Ha, newAuthStore_nonempty by done. done.
  - intros c p' [= -> <-]. by apply Hk.
Qed.

(** ** A second start changes nothing *)

Context (ds : ppath) (f : string) (Hg : good_elems (ds ++ [f])).

Local Abbreviation path := (abs (ds ++ [f])).

(** The disk works: no call fails and every configuration can be encoded. *)
Definition disk_works : Prop :=
  (forall call, se_fault (ce_save env) call = false) /\ forall c, is_Some (MarshalCfg c).

(** The file holds the configuration. *)
Definition in_file (fs : fsys) (c : hubConfig) : Prop :=
  disk_ok ds f fs /\ loadHubConfig env fs path = LoadOk c.

Lemma write_in_file fs c :
  disk_works -> ce_unreadable env = false -> disk_ok ds f fs -> in_file (write_if env fs path (Some c)) c.
Proof.
  intros [Hf Hm] Hu Hd. destruct (Hm c) as [d Ed]. unfold write_if, writeHubConfig. rewrite Ed. cbn [fmap option_fmap option_map].
  destruct Hd as [Hd Hs].
  destruct (writeDoc _ _ _ _) as [ok fs'] eqn:E. pose proof E as E0. apply writeDoc_child in E; [|done..].
  assert (fs' = <[ds ++ [f] := NFile (z_bytes configHeader ++ d)]> fs) as ->.
  { destruct E as [[-> [_|?]]|[_ (x & [= <-] & ->)]]; [|by rewrite Hf in H0|done].
    exfalso. revert E0. unfold writeDoc. rewrite Dir_abs_snoc, MkdirAll_present by (done || by apply (good_dir ds f)).
    rewrite !Hf. cbn [orb negb]. unfold WriteFile. rewrite resolve_child by done.
    by destruct Hs as [-> |[? ->]]. }
  split; [split; [by apply dir_at_insert|apply plain_slot_file]|].
  cbn [snd]. unfold loadHubConfig. rewrite Hu, ReadFile_child; [|done|by apply dir_at_insert|apply plain_slot_file].
  rewrite lookup_insert_eq. by rewrite (unmarshal_cfg c d Ed).
Qed.

(** A stage of the start either changes nothing or writes what it made. *)
Definition stage (c c' : hubConfig) (w : option hubConfig) : Prop := (c' = c /\ w = None) \/ w = Some c'.

Lemma stage_in_file fs c c' w :
  disk_works -> ce_unreadable env = false -> disk_ok ds f fs -> stage c c' w ->
  disk_ok ds f (write_if env fs path w) /\
  (in_file fs c \/ w = Some c' -> in_file (write_if env fs path w) c').
Proof.
  intros Hw Hu Hd [[-> ->]| ->].
  - split; [done|]. by intros [?|?].
  - pose proof (write_in_file fs c' Hw Hu Hd) as [? ?]. done.
Qed.

Lemma path_ne : (path <>s "") = true.
Proof. apply negb_true_iff, bool_decide_eq_false, abs_nonempty. Qed.

Lemma bootstrapFromEnv_stage rnd owner cfg b c w :
  bootstrapFromEnv rnd owner cfg path = (b, c, w) -> stage cfg c w.
Proof.
  unfold bootstrapFromEnv, bootstrapAuth, stage. rewrite path_ne. destruct (owner =s ""); [intros [= <- <- <-]; by left|].
  destruct (Tokens (hc_Auth cfg)); intros [= <- <- <-]; [by right|by left].
Qed.

Lemma autoBootstrapAuth_stage r1 r2 cfg b c w :
  autoBootstrapAuth r1 r2 cfg path = (b, c, w) -> stage cfg c w /\ (Tokens (hc_Auth cfg) = [] -> is_Some (generateToken r1) -> w = Some c).
Proof.
  unfold autoBootstrapAuth, bootstrapAuth, stage. rewrite path_ne.
  destruct (Tokens (hc_Auth cfg)); [|intros [= <- <- <-]; split; [by left|done]].
  destruct (generateToken r1); intros [= <- <- <-]; (split; [by auto|]); [done|by intros _ []].
Qed.

Definition has_viewer (c : hubConfig) : Prop := existsb (fun t => te_HubRole t =s "viewer") (Tokens (hc_Auth c)) = true.

Lemma ensureConsoleViewer_stage rnd cfg b c w :
  ensureConsoleViewer rnd cfg path = (b, c, w) ->
  stage cfg c w /\ (Tokens (hc_Auth cfg) <> [] -> is_Some (generateToken rnd) -> has_viewer c).
Proof.
  unfold ensureConsoleViewer, stage, has_viewer. rewrite path_ne.
  destruct (Tokens (hc_Auth cfg)) as [|t ts] eqn:E; [intros [= <- <- <-]; by auto|].
  destruct (existsb _ _) eqn:Hv.
  { intros [= <- <- <-]. rewrite E. split; [by left|]. by intros _ _. }
  destruct (generateToken rnd) as [v|]; intros [= <- <- <-]; (split; [by auto|]); [|by intros _ []].
  intros _ _. apply existsb_exists. exists (viewerRow v). split; [|done].
  cbn. right. apply in_app_iff. right. by left.
Qed.

Lemma ensureConsoleViewer_kept rnd cfg :
  has_viewer cfg -> ensureConsoleViewer rnd cfg path = (false, cfg, None).
Proof. unfold ensureConsoleViewer, has_viewer. destruct (Tokens (hc_Auth cfg)); [done|]. by intros ->. Qed.

Context (Hr : random_works) (Hw : disk_works) (Hp : ce_getenv env "TELAHUBD_PORTAL_URL" = "").

Lemma no_portals hubID auth cfg a b c p :
  Portals.bootstrapPortalsFromEnv net hubID (Portals.PortalEnv (ce_getenv env "TELAHUBD_PORTAL_URL") a b c) auth cfg p =
  (false, cfg, None).
Proof. unfold Portals.bootstrapPortalsFromEnv. cbn [Portals.penv_PORTAL_URL]. by rewrite Hp. Qed.

(** What a start leaves: a named configuration with a console viewer, in the file. *)
Lemma boot_in_file fs cfg :
  ce_unreadable env = false -> disk_ok ds f fs ->
  match cfg with Some c => loadHubConfig env fs path = LoadOk c | None => True end ->
  let s := boot env net cfg path path fs in
  su_path s = path /\ in_file (su_fs s) (su_cfg s) /\ has_viewer (su_cfg s) /\ hc_HubID (su_cfg s) <> "" /\
  Tokens (hc_Auth (su_cfg s)) <> [].
Proof.
  intros Hu Hd Hload. cbn zeta. pose proof (boot_spec Hr cfg path path fs) as (Hne & _ & Hid & _).
  revert Hne Hid. unfold boot.
  match goal with |- context [default ?d cfg] => set (c0 := default d cfg) end.
  destruct (bootstrapFromEnv _ _ _ _) as [[b1 c1] w1] eqn:E1.
  destruct (autoBootstrapAuth _ _ _ _) as [[b2 c2] w2] eqn:E2.
  rewrite (bool_decide_false _ (abs_nonempty _)). cbn [andb].
  destruct (ensureConsoleViewer _ _ path) as [[b3 c3] w3] eqn:E3.
  rewrite no_portals. cbn [su_cfg su_path su_fs write_if negb].
  set (c4 := if hc_HubID c3 =s "" then _ else c3). intros Hne Hid.
  pose proof (autoBootstrapAuth_some Hr _ _ _ _ _ _ _ E2) as Hne2.
  apply bootstrapFromEnv_stage in E1. apply autoBootstrapAuth_stage in E2 as [E2 Hmade].
  apply ensureConsoleViewer_stage in E3 as [E3 Hview].
  destruct (stage_in_file fs _ _ _ Hw Hu Hd E1) as [Hd1 S1].
  destruct (stage_in_file _ _ _ _ Hw Hu Hd1 E2) as [Hd2 S2].
  destruct (stage_in_file _ _ _ _ Hw Hu Hd2 E3) as [Hd3 S3].
  assert (in_file (write_if env (write_if env fs path w1) path w2) c2) as H2.
  { apply S2. destruct cfg as [c|]; [left; apply S1; by left|].
    destruct E1 as [[-> ->]| ->]; [right|left; by apply S1; right].
    apply Hmade; [done|]. destruct (drawn Hr 1) as (t & -> & _). by eexists. }
  assert (in_file (write_if env (write_if env (write_if env fs path w1) path w2) path w3) c3) as H3
    by (apply S3; by left).
  split_and!; [done| | |done|done].
  - unfold c4. destruct (hc_HubID c3 =s ""); [|done]. cbn [andb]. by apply write_in_file.
  - assert (has_viewer c3) as Hv3.
    { apply Hview; [done|]. destruct (drawn Hr 3) as (t & -> & _). by eexists. }
    unfold c4. by destruct (hc_HubID c3 =s "").
Qed.

(** Starting settles: what the first start makes (owner, console viewer, hub identity) is in the
    file when it serves, and a second start finds it, changes nothing and writes nothing. *)
Theorem startup_settles fs s :
  disk_ok ds f fs -> startMain env net path path fs = Some s ->
  exists s', startMain env net path path (su_fs s) = Some s' /\
    su_cfg s' = su_cfg s /\ su_auth s' = su_auth s /\ su_fs s' = su_fs s.
Proof.
  intros Hd. unfold startMain, findConfig. rewrite path_ne.
  destruct (ce_unreadable env) eqn:Hu; [unfold loadHubConfig; by rewrite Hu|].
  assert (exists cfg, (match loadHubConfig env fs path with
    | LoadOk c => Some (Some c, path) | LoadMissing => Some (None, path) | LoadError => None end = Some (cfg, path) \/
    loadHubConfig env fs path = LoadError) /\
    match cfg with Some c => loadHubConfig env fs path = LoadOk c | None => True end) as (cfg & Hc & Hload).
  { destruct (loadHubConfig env fs path) as [c| |]; [exists (Some c)|exists None|exists None]; by auto. }
  destruct Hc as [->| ->]; [|done]. intros [= <-].
  pose proof (boot_spec Hr cfg path path fs) as (_ & Ha & _).
  destruct (boot_in_file fs cfg Hu Hd Hload) as (_ & [Hd' Hl] & Hv & Hid & Hne).
  rewrite Hl. eexists. split; [done|]. rewrite Ha. generalize dependent (boot env net cfg path path fs).
  intros s Ha Hd' Hl Hv Hid Hne. unfold boot. cbn [from_option id].
  destruct (bootstrapFromEnv _ _ _ _) as [[b1 c1] w1] eqn:E1. apply bootstrapFromEnv_kept in E1 as [-> ->]; [|done].
  destruct (autoBootstrapAuth _ _ _ _) as [[b2 c2] w2] eqn:E2. apply autoBootstrapAuth_kept in E2 as [-> ->]; [|done].
  rewrite (bool_decide_false _ (abs_nonempty _)). cbn [andb].
  rewrite ensureConsoleViewer_kept by done. rewrite (bool_decide_false _ Hid). cbn [andb].
  by rewrite no_portals.
Qed.

End theorems.

(** * Starts of the hub evaluated

    The witnesses of [HubStart], and a start that loses a configuration. *)

Definition start_env (getenv : string -> string) : cliEnv :=
  CliEnv no_fault false (fun n => Some [Z.of_nat n; 7%Z]) demo_cfg_path getenv (fun _ => false) [].
Definition quiet : cliEnv := start_env (fun _ => "").
Definition no_net : Portals.portalNet := fun _ => Portals.ExFailed.

Definition first_start : option started := startMain quiet no_net demo_cfg_path demo_cfg_path bare_disk.
Definition first_started : started :=
  default (Started emptyConfig "" (newAuthStore None) initialGlobals ∅) first_start.

Lemma start_random getenv : random_works (start_env getenv).
Proof. intros n. by exists (Z.of_nat n), [7%Z]. Qed.

Lemma demo_disk_works : disk_works quiet.
Proof. split; [done|]. intros c. by eexists. Qed.

Example first_start_rows :
  map (fun t => (te_ID t, te_HubRole t)) (Tokens (hc_Auth (su_cfg first_started))) =
  [("owner", "owner"); ("console-viewer", "viewer")] /\
  hc_HubID (su_cfg first_started) = "04070000-0000-4000-8000-000000000000".
Proof. by vm_compute. Qed.

Lemma started_first : startMain quiet no_net demo_cfg_path demo_cfg_path bare_disk = Some first_started.
Proof. unfold first_started, first_start. assert (is_Some (startMain quiet no_net demo_cfg_path demo_cfg_path bare_disk)) as [s ->]; [|done].
  unfold startMain. assert (findConfig quiet bare_disk demo_cfg_path demo_cfg_path = Some (None, demo_cfg_path)) as ->
    by (by vm_compute). by eexists.
Qed.

Lemma startup_enforces_witness : isEnabled (su_auth first_started) = true.
Proof.
  refine (proj1 (startup_enforces quiet no_net demo_cfg_path demo_cfg_path bare_disk first_started _ _)).
  - apply start_random.
  - apply started_first.
Defined.

Lemma startup_settles_witness :
  exists s', startMain quiet no_net demo_cfg_path demo_cfg_path (su_fs first_started) = Some s' /\
    su_cfg s' = su_cfg first_started.
Proof.
  destruct (startup_settles quiet no_net demo_ds demo_name demo_path_good (start_random _) demo_disk_works eq_refl
    bare_disk first_started bare_ok started_first) as (s' & H1 & H2 & _).
  exists s'. split; [exact H1|exact H2].
Defined.

(** A default configuration that cannot be parsed is passed over without a word: the hub starts with
    a new owner and writes it over the file, and every identity in it is lost. *)
Definition data_ds : ppath := ["data"].
Definition data_path : string := abs (data_ds ++ [demo_name]).
Definition torn_disk : fsys :=
  <[data_ds ++ [demo_name] := NFile [1%Z; 2%Z]]> (<[data_ds := NDir]> bare_disk).
Example unparsable_config_overwritten :
  match startMain quiet no_net "" data_path torn_disk with
  | Some s => su_path s = data_path /\
              loadHubConfig quiet (su_fs s) data_path = LoadOk (su_cfg s) /\
              map te_ID (Tokens (hc_Auth (su_cfg s))) = ["owner"; "console-viewer"]
  | None => False
  end.
Proof. by vm_compute. Qed.

(** The same file named by the flag stops the start. *)
Example unparsable_config_named : startMain quiet no_net data_path data_path torn_disk = None.
Proof. by vm_compute. Qed.
