(* ===== verification/Agent.v ===== *)
(** * The agent: gateway, configuration, identity and registration ([internal/agent])

    Of [gateway.go]: the route table the gateway builds from its configuration, the route each request takes, and
    what the gateway adds to the agent's registration.  [sort.Slice] is not stable: the model takes
    any ordering of the routes by falling path length.

    The gateway comes first; configuration, identity and registration ([agent.go], [upstream.go]) are the
    second part. *)

From S2P Require Import Prelude Http HubConfig FilePath FileSys FileShare SessionState.
From S2P Require Url HubStart.
From Stdlib Require Import ZArith Lia Ascii String.
From stdpp Require Import base sorting gmap strings list fin_maps.

Record gatewayRoute := GatewayRoute { gr_Path : string; gr_Target : Z }.
Record gatewayConfig := GatewayConfig { gw_Port : Z; gw_Routes : list gatewayRoute }.

Record serviceDescriptor := ServiceDescriptor {
  svc_Port : Z; svc_Name : string; svc_Proto : string; svc_Description : string
}.

Definition longer (a b : gatewayRoute) : Prop := (slen (gr_Path b) <= slen (gr_Path a))%Z.
#[export] Instance longer_dec : RelDecision longer.
Proof. intros a b. unfold longer. apply _. Defined.
#[export] Instance longer_trans : Transitive longer.
Proof. intros a b c. unfold longer. lia. Qed.
#[export] Instance longer_total : Total longer.
Proof. intros a b. unfold longer. lia. Qed.

(** What [sort.Slice] with "longer path first" may do. *)
Class RouteSort := {
  sort_routes : list gatewayRoute -> list gatewayRoute;
  sort_routes_perm l : sort_routes l ≡ₚ l;
  sort_routes_sorted l : StronglySorted longer (sort_routes l)
}.
#[export, refine] Instance merge_route_sort : RouteSort | 100 := { sort_routes := merge_sort longer }.
Proof.
  - intros l. apply merge_sort_Permutation.
  - intros l. apply StronglySorted_merge_sort; apply _.
Defined.

Section gateway.
  Context {RS : RouteSort}.

(** The compiled table, or nothing to serve.  [host_ok]: the target URL parses, which depends on
    the target host only. *)
Definition compile (host_ok : bool) (cfg : option gatewayConfig) : list gatewayRoute :=
  match cfg with
  | None => []
  | Some cfg =>
      if (gw_Port cfg =? 0)%Z || (length (gw_Routes cfg) =? 0)%nat then []
      else if host_ok then sort_routes (gw_Routes cfg) else []
  end.

(** The target port of a request, or 502. *)
Definition route (compiled : list gatewayRoute) (path : string) : option Z :=
  gr_Target <$> find_first (fun r => has_prefix path (gr_Path r)) compiled.

Definition gatewayServiceDescriptors (cfg : option gatewayConfig) : list serviceDescriptor * list Z :=
  match cfg with
  | None => ([], [])
  | Some cfg =>
      if (gw_Port cfg =? 0)%Z then ([], [])
      else ([ServiceDescriptor (gw_Port cfg) "gateway" "http" "Path-based reverse proxy"], [gw_Port cfg])
  end.

Definition mergeGatewayIntoRegistration (reg : list serviceDescriptor * list Z)
    (cfg : option gatewayConfig) : list serviceDescriptor * list Z :=
  let '(svcs, ports) := gatewayServiceDescriptors cfg in
  (fst reg ++ svcs, snd reg ++ ports).

(** ** The reference: the longest configured prefix *)

Definition matches (path : string) (r : gatewayRoute) : bool := has_prefix path (gr_Path r).

(** The longest matching path of a list of routes. *)
Definition longest (path : string) (l : list gatewayRoute) : option gatewayRoute :=
  fold_right (fun r best =>
    if matches path r then
      match best with
      | Some b => if (slen (gr_Path b) <=? slen (gr_Path r))%Z then Some r else best
      | None => Some r
      end
    else best) None l.

Lemma slen_nonneg s : (0 <= slen s)%Z.
Proof. unfold slen. lia. Qed.

(** Two prefixes of one path with the same length are the same. *)
Lemma same_length_prefix path p q :
  has_prefix path p = true -> has_prefix path q = true -> slen p = slen q -> p = q.
Proof.
  rewrite !has_prefix_iff. intros [r Hr] [s Hs] Hl.
  assert (bytes p ++ bytes r = bytes q ++ bytes s) as E by (by rewrite <- !bytes_app, <- Hr, <- Hs).
  unfold slen in Hl. rewrite <- !length_bytes in Hl. apply bytes_inj.
  apply app_inj_1 in E as [? _]; [done|lia].
Qed.

Lemma longest_spec path l :
  match longest path l with
  | Some b => b ∈ l /\ matches path b = true /\
      forall r, r ∈ l -> matches path r = true -> (slen (gr_Path r) <= slen (gr_Path b))%Z
  | None => forall r, r ∈ l -> matches path r = false
  end.
Proof.
  induction l as [|x l IH]; [by intros r ?%elem_of_nil|]. cbn [longest fold_right].
  change (fold_right _ None l) with (longest path l).
  destruct (matches path x) eqn:Hx; [|destruct (longest path l) as [b|]].
  - destruct (longest path l) as [b|].
    + destruct IH as (Hb & Hm & Hmax). destruct (Z.leb_spec (slen (gr_Path b)) (slen (gr_Path x))).
      * split; [by left|]. split; [done|]. intros r [-> |Hr]%elem_of_cons Hmr; [lia|].
        specialize (Hmax r Hr Hmr). lia.
      * split; [by right|]. split; [done|]. intros r [-> |Hr]%elem_of_cons Hmr; [lia|auto].
    + split; [by left|]. split; [done|]. intros r [-> |Hr]%elem_of_cons Hmr; [lia|].
      by rewrite IH in Hmr.
  - destruct IH as (Hb & Hm & Hmax). split; [by right|]. split; [done|].
    intros r [-> |Hr]%elem_of_cons Hmr; [congruence|auto].
  - intros r [-> |Hr]%elem_of_cons; auto.
Qed.

(** In a list by falling length the first match is a longest one. *)
Lemma first_is_longest path l :
  StronglySorted longer l ->
  match find_first (matches path) l with
  | Some b => b ∈ l /\ matches path b = true /\
      forall r, r ∈ l -> matches path r = true -> (slen (gr_Path r) <= slen (gr_Path b))%Z
  | None => forall r, r ∈ l -> matches path r = false
  end.
Proof.
  induction 1 as [|x l Hl IH Hx]; [by intros r ?%elem_of_nil|]. cbn [find_first].
  destruct (matches path x) eqn:Hm.
  - split; [by left|]. split; [done|]. intros r [-> |Hr]%elem_of_cons _; [lia|].
    rewrite Forall_forall in Hx. by apply Hx.
  - destruct (find_first (matches path) l) as [b|].
    + destruct IH as (Hb & Hmb & Hmax). split; [by right|]. split; [done|].
      intros r [-> |Hr]%elem_of_cons Hmr; [congruence|auto].
    + intros r [-> |Hr]%elem_of_cons; auto.
Qed.

(** The gateway routes as documented, whatever order the unstable sort leaves equal lengths in:
    a request goes where the longest configured prefix of its path says, and to no target exactly
    when no route matches.  With distinct route paths the sort does not show at all. *)
Theorem route_longest_prefix cfg path :
  gw_Port cfg <> 0%Z -> NoDup (gr_Path <$> gw_Routes cfg) ->
  route (compile true (Some cfg)) path = gr_Target <$> longest path (gw_Routes cfg).
Proof.
  intros Hp Hnd. unfold compile. rewrite (proj2 (Z.eqb_neq _ _) Hp). cbn [orb].
  destruct (Nat.eqb_spec (length (gw_Routes cfg)) 0) as [Hz|Hz].
  { by destruct (gw_Routes cfg). }
  unfold route. change (fun r => has_prefix path (gr_Path r)) with (matches path).
  pose proof (first_is_longest path _ (sort_routes_sorted (gw_Routes cfg))) as Hf.
  pose proof (longest_spec path (gw_Routes cfg)) as Hl.
  destruct (find_first _ _) as [a|], (longest path _) as [b|]; cbn [fmap option_fmap option_map].
  - destruct Hf as (Ha & Hma & Hmaxa), Hl as (Hb & Hmb & Hmaxb). do 2 f_equal.
    rewrite sort_routes_perm in Ha.
    assert (gr_Path a = gr_Path b) as E.
    { apply (same_length_prefix path); [done..|]. specialize (Hmaxb a Ha Hma).
      specialize (Hmaxa b). rewrite sort_routes_perm in Hmaxa. specialize (Hmaxa Hb Hmb). lia. }
    clear -Ha Hb E Hnd. apply list_elem_of_lookup in Ha as [i Hi]. apply list_elem_of_lookup in Hb as [j Hj].
    assert (i = j) as ->; [|congruence].
    apply (NoDup_lookup _ i j (gr_Path a) Hnd); rewrite list_lookup_fmap; [by rewrite Hi|by rewrite Hj, E].
  - destruct Hf as (Ha & Hma & _). rewrite sort_routes_perm in Ha. by rewrite Hl in Hma.
  - destruct Hl as (Hb & Hmb & _). rewrite Hf in Hmb; [done|]. by rewrite sort_routes_perm.
  - done.
Qed.

End gateway.

(** ** Examples *)

Definition demo_gateway : gatewayConfig :=
  GatewayConfig 8080 [GatewayRoute "/" 3000; GatewayRoute "/api/" 4000; GatewayRoute "/api/v2/" 4002].

Lemma route_longest_prefix_witness :
  map (route (compile true (Some demo_gateway))) ["/api/v2/x"; "/api/x"; "/index"] =
    [Some 4002; Some 4000; Some 3000]%Z /\
  route (compile true (Some demo_gateway)) "/api/users" =
    gr_Target <$> longest "/api/users" (gw_Routes demo_gateway).
Proof.
  split; [by vm_compute|]. apply (route_longest_prefix demo_gateway "/api/users"); [done|].
  apply (bool_decide_unpack _). by vm_compute.
Defined.

(** A prefix ends anywhere in the path, also inside an element. *)
Example prefix_inside_element :
  route (compile true (Some (GatewayConfig 8080 [GatewayRoute "/api" 4000]))) "/apiary" = Some 4000%Z.
Proof. by vm_compute. Qed.

(** * The agent's configuration, identity and registration ([internal/agent/agent.go], [upstream.go])

    The configuration file and what loading makes of it, the state file with the identifiers of the
    agent and of its machines, and the registration each machine sends to the hub.  The YAML codecs
    and the credential lookup are parameters. *)

(** ** Configuration *)

Record upstreamConfig := UpstreamConfig { up_Port : Z; up_Target : string; up_Name : string }.

Record machineConfig := MachineConfig {
  mc_Name : string;
  mc_DisplayName : string;
  mc_Hostname : string;
  mc_OS : string;
  mc_Tags : list string;
  mc_Location : string;
  mc_Owner : string;
  mc_Ports : list Z;
  mc_Services : list serviceDescriptor;
  mc_Target : string;
  mc_Token : string;
  mc_FileShare : fileShareConfig;
  mc_Shares : list shareConfig;
  mc_Gateway : option gatewayConfig;
  mc_Upstreams : list upstreamConfig
}.

Record configFile := ConfigFile {
  cf_Hub : string;
  cf_Token : string;
  cf_Machines : list machineConfig;
  cf_Update : updateConfig
}.

Definition set_cf_Machines (c : configFile) (ms : list machineConfig) : configFile :=
  ConfigFile (cf_Hub c) (cf_Token c) ms (cf_Update c).
Definition set_cf_Update (c : configFile) (u : updateConfig) : configFile :=
  ConfigFile (cf_Hub c) (cf_Token c) (cf_Machines c) u.

Class AgentCodec := {
  MarshalAgent : configFile -> option (list Z);
  UnmarshalAgent : list Z -> option configFile;
  unmarshal_agent c d : MarshalAgent c = Some d -> UnmarshalAgent d = Some c
}.

(** ** Ports and services *)

Fixpoint portsFrom (services : list serviceDescriptor) (seen : gset Z) : list Z :=
  match services with
  | [] => []
  | s :: services =>
      if (svc_Port s =? 0)%Z then portsFrom services seen
      else if decide (svc_Port s ∈ seen) then portsFrom services seen
      else svc_Port s :: portsFrom services ({[svc_Port s]} ∪ seen)
  end.
Definition portsFromServices (services : list serviceDescriptor) : list Z := portsFrom services ∅.

(** Constructors take the name before the protocol. *)
Definition minimalServicesFromPorts (ports : list Z) : list serviceDescriptor :=
  map (fun p => ServiceDescriptor p "" "tcp" "") ports.

(** [strings.SplitN(spec, ":", 3)]. *)
Definition splitn3 (s : string) : list string :=
  match cut s ":" with
  | None => [s]
  | Some (a, r) => match cut r ":" with None => [a; r] | Some (b, c) => [a; b; c] end
  end.

Definition parsePortSpec (spec : string) : option serviceDescriptor :=
  let parts := splitn3 spec in
  match Atoi (trim_space (nth 0 parts "")) with
  | None => None
  | Some n =>
      if (n <? 1)%Z || (65535 <? n)%Z then None
      else Some (ServiceDescriptor n (if (2 <=? length parts)%nat then trim_space (nth 1 parts "") else "") "tcp"
                   (if (length parts =? 3)%nat then trim_space (nth 2 parts "") else ""))
  end.

Definition parsePortSpecs (s : string) : list serviceDescriptor :=
  omap (fun spec =>
    let spec := trim_space spec in if spec =s "" then None else parsePortSpec spec)
    (map of_bytes (Url.split_on "," (bytes s))).

(** ** Loading *)

Inductive loadError :=
  | LeRead | LeParse | LeNoHub | LeNoMachines
  | LeNoName (i : nat)
  | LeNoPorts (i : nat) (name : string).

Section load.
  Context {AC : AgentCodec}.
  Context (LookupToken : string -> string).   (** [credstore.LookupToken] *)

(** The assignments to one machine; [m] is the copy the loop reads. *)
Definition fillMachine (hub token : string) (m : machineConfig) : machineConfig :=
  let tok := if mc_Token m =s "" then token else mc_Token m in
  MachineConfig (mc_Name m) (mc_DisplayName m) (mc_Hostname m) (mc_OS m) (mc_Tags m) (mc_Location m) (mc_Owner m)
    (if is_nil (mc_Ports m) && negb (is_nil (mc_Services m)) then portsFromServices (mc_Services m) else mc_Ports m)
    (if is_nil (mc_Services m) && negb (is_nil (mc_Ports m)) then minimalServicesFromPorts (mc_Ports m) else mc_Services m)
    (if mc_Target m =s "" then "127.0.0.1" else mc_Target m)
    (if tok =s "" then LookupToken hub else tok)
    (mc_FileShare m) (mc_Shares m) (mc_Gateway m) (mc_Upstreams m).

Fixpoint fillMachines (hub token : string) (i : nat) (l : list machineConfig) : loadError + list machineConfig :=
  match l with
  | [] => inr []
  | m :: l =>
      if mc_Name m =s "" then inl (LeNoName i)
      else if is_nil (mc_Ports m) && is_nil (mc_Services m) then inl (LeNoPorts i (mc_Name m))
      else match fillMachines hub token (S i) l with
           | inl e => inl e
           | inr l => inr (fillMachine hub token m :: l)
           end
  end.

Definition loadConfig (fs : fsys) (path : string) : loadError + configFile :=
  match ReadFile fs path with
  | RdNotExist | RdError => inl LeRead
  | RdData d =>
      match UnmarshalAgent d with
      | None => inl LeParse
      | Some cfg =>
          if cf_Hub cfg =s "" then inl LeNoHub
          else if is_nil (cf_Machines cfg) then inl LeNoMachines
          else match fillMachines (cf_Hub cfg) (cf_Token cfg) 0 (cf_Machines cfg) with
               | inl e => inl e
               | inr ms => inr (set_cf_Machines cfg ms)
               end
      end
  end.

End load.

(** ** Identity *)

Definition newUUID (rnd : option (list Z)) : string := HubStart.newUUID rnd.

(** A [nil] machine state can come from the file. *)
Record agentState := AgentState {
  as_AgentID : string;
  as_Machines : gmap string (option string)
}.
Definition zeroState : agentState := AgentState "" ∅.

(** [yaml.Unmarshal] with its error ignored: whatever it has filled in. *)
Class StateCodec := {
  MarshalState : agentState -> option (list Z);
  UnmarshalState : list Z -> agentState;
  unmarshal_state s d : MarshalState s = Some d -> UnmarshalState d = s
}.

Section identity.
  Context {SC : StateCodec}.
  Context (rand : nat -> option (list Z)).    (** the draws of [newUUID], in order *)

(** The loop over the names: draws taken so far, machines, whether something was generated. *)
Fixpoint giveIds (names : list string) (k : nat) (ms : gmap string (option string)) (dirty : bool)
    : gmap string (option string) * bool :=
  match names with
  | [] => (ms, dirty)
  | n :: names =>
      if n =s "" then giveIds names k ms dirty
      else match ms !! n with
           | Some _ => giveIds names k ms dirty
           | None => giveIds names (S k) (<[n := Some (newUUID (rand k))]> ms) true
           end
  end.

Definition statePathOf (configDir configPath : string) : string :=
  FilePath.Join (if configPath <>s "" then Dir configPath else configDir) "telad.state".

Definition readState (fs : fsys) (path : string) : agentState :=
  match ReadFile fs path with RdData d => UnmarshalState d | _ => zeroState end.

Definition loadOrCreateAgentState (fault : saveEnv) (fs : fsys) (configDir configPath : string)
    (machineNames : list string) : agentState * fsys :=
  let dir := if configPath <>s "" then Dir configPath else configDir in
  let statePath := FilePath.Join dir "telad.state" in
  let st := readState fs statePath in
  let unnamed := as_AgentID st =s "" in
  let id := if unnamed then newUUID (rand 0) else as_AgentID st in
  let '(ms, dirty) := giveIds machineNames (if unnamed then 1 else 0) (as_Machines st) unnamed in
  let st := AgentState id ms in
  if dirty then
    let '(_, fs) := MkdirAll fs dir in
    let data := default [] (MarshalState st) in
    (st, if se_fault fault "open" then fs
         else default fs (WriteFile fs statePath (if se_fault fault "write" then take (se_short fault) data else data)))
  else (st, fs).

End identity.

Definition regIDFor (s : agentState) (machineName : string) : string :=
  match as_Machines s !! machineName with Some (Some id) => id | _ => "" end.

(** ** Registration *)

Record registration := Registration {
  rg_MachineName : string;
  rg_AgentID : string;
  rg_MachineRegistrationID : string;
  rg_DisplayName : string;
  rg_Hostname : string;
  rg_OS : string;
  rg_AgentVersion : string;
  rg_Tags : list string;
  rg_Location : string;
  rg_Owner : string;
  rg_Token : string;
  rg_Ports : list Z;
  rg_Services : list serviceDescriptor;
  rg_Shares : list parsedFileShareConfig;
  rg_Gateway : option gatewayConfig
}.

(** What the agent finds on its machine. *)
Record machineEnv := MachineEnv {
  mv_hostname : string;
  mv_goos : string;
  mv_version : string;
  mv_cwd : option string
}.

Fixpoint ensureShareDirs (fs : fsys) (shares : list parsedFileShareConfig) : bool * fsys :=
  match shares with
  | [] => (true, fs)
  | s :: shares =>
      let '(ok, fs) := ensureShareDir fs (ps_directory s) in
      if ok then ensureShareDirs fs shares else (false, fs)
  end.

(** The goroutine of one machine, up to its connection; [None] ends the process ([log.Fatalf]). *)
Definition machineRegistration (env : machineEnv) (state : agentState) (fs : fsys) (mc : machineConfig)
    : option registration * fsys :=
  match parseSharesConfig (mv_cwd env) (mc_Shares mc) (mc_FileShare mc) with
  | None => (None, fs)
  | Some (shares, _) =>
      let '(ok, fs) := ensureShareDirs fs shares in
      if negb ok then (None, fs)
      else
        let '(services, ports) := mergeGatewayIntoRegistration (mc_Services mc, mc_Ports mc) (mc_Gateway mc) in
        (Some (Registration (mc_Name mc) (as_AgentID state) (regIDFor state (mc_Name mc)) (mc_DisplayName mc)
          (if mc_Hostname mc =s "" then mv_hostname env else mc_Hostname mc)
          (if mc_OS mc =s "" then mv_goos env else mc_OS mc) (mv_version env)
          (mc_Tags mc) (mc_Location mc) (mc_Owner mc) (mc_Token mc) ports services shares (mc_Gateway mc)), fs)
  end.

Section messages.
  Context `{RangeOrder}.

Definition ProtocolVersion : Z := 1.

(** A field tagged [omitempty] is absent when it is empty. *)
Definition omitempty {X} (l : list X) : option (list X) := match l with [] => None | _ => Some l end.

Definition extensions (e : gset string) : list json := map (fun kv => JStr (fst kv)) (range (gset_to_gmap true e)).
Definition omit_json (name : string) (l : list json) : list (string * json) :=
  match l with [] => [] | _ => [(name, JArr l)] end.
Definition shareJson (c : fileShareCapability) : json :=
  JObj ([("name", JStr (ca_Name c)); ("writable", JBool (ca_Writable c)); ("allowDelete", JBool (ca_AllowDelete c));
         ("maxFileSize", JNum (ca_MaxFileSize c))] ++
        omit_json "blockedExtensions" (extensions (ca_BlockedExtensions c)) ++
        omit_json "allowedExtensions" (extensions (ca_AllowedExtensions c))).
Definition capabilitiesJson (shares : list parsedFileShareConfig) : list (string * json) :=
  omit_json "shares" (map shareJson (buildCapabilities shares)) ++ [("management", JBool true)].

Definition toServiceDesc (s : serviceDescriptor) : serviceDesc :=
  ServiceDesc (svc_Port s) (svc_Proto s) (svc_Name s) (svc_Description s).

(** The registration message as the hub decodes it. *)
Definition registerMsg (reg : registration) : signalingMsg :=
  SignalingMsg "register" ProtocolVersion "" (rg_MachineName reg) (rg_AgentID reg) (rg_MachineRegistrationID reg)
    (rg_Token reg) "" (omitempty (rg_Ports reg)) (map toServiceDesc (rg_Services reg)) (rg_DisplayName reg)
    (rg_Hostname reg) (rg_OS reg) (rg_AgentVersion reg) (omitempty (rg_Tags reg)) (rg_Location reg) (rg_Owner reg) ""
    (Some (capabilitiesJson (rg_Shares reg))) "".

(** The message sent after the configuration changed: neither protocol version nor registration
    identifier, and of the configuration only the display name, the tags, the location and the
    owner. *)
Definition reregisterMsg (reg : registration) (m : machineConfig) : signalingMsg :=
  SignalingMsg "register" 0 "" (mc_Name m) (rg_AgentID reg) "" (rg_Token reg) "" (omitempty (rg_Ports reg))
    (map toServiceDesc (rg_Services reg)) (mc_DisplayName m) (rg_Hostname reg) (rg_OS reg) (rg_AgentVersion reg)
    (omitempty (mc_Tags m)) (mc_Location m) (mc_Owner m) "" (Some (capabilitiesJson (rg_Shares reg))) "".

End messages.

(** ** Reconnecting

    Durations are nanoseconds; [jitter] is the truncated product of the delay, a quarter and a random
    factor between -1 and 1. *)

Definition second : Z := 1000000000.

Fixpoint backoff (attempt : nat) (d maxDelay : Z) : Z :=
  match attempt with
  | O => d
  | S attempt => if (maxDelay <? d * 2)%Z then maxDelay else backoff attempt (d * 2) maxDelay
  end.

Definition reconnectDelay (attempt : nat) (maxDelay : Z) (jitter : Z -> Z) : Z :=
  let d := backoff attempt (3 * second) maxDelay in
  let d := (d + jitter d)%Z in
  if (d <? second)%Z then second else d.

Inductive agentResult := agentDisconnected | agentRegistered | agentAuthRejected.

(** The reconnect loop: what the runs end with, in order; whether shutdown is signalled when run [n] has
    ended, and while the delay after it passes.  The result is the delays begun, and whether the loop
    ended ([true]) or the runs did. *)
Fixpoint runSingleMachine (jitter : nat -> Z -> Z) (stopped interrupted : nat -> bool) (results : list agentResult)
    (n attempt : nat) : list Z * bool :=
  match results with
  | [] => ([], false)
  | r :: results =>
      match r with
      | agentAuthRejected => ([], true)
      | _ =>
          let attempt := match r with agentRegistered => 0 | _ => attempt end in
          if stopped n then ([], true)
          else
            let delay := reconnectDelay attempt (300 * second) (jitter n) in
            if interrupted n then ([delay], true)
            else
              let '(ds, ended) := runSingleMachine jitter stopped interrupted results (S n) (S attempt) in
              (delay :: ds, ended)
      end
  end.
