(* ===== verification/HubStatus.v ===== *)
(** * What the hub shows of its machines, and requests to their agents ([internal/hub/hub.go])

    The status page, the discovery document, the presence probe and the management proxy: handlers
    that read the sessions ([SessionState]) under the access rules of the token store, without
    changing either.  A time is its number of seconds, zero for Go's zero time. *)

From S2P Require Import Prelude Auth Http HubConfig AdminState Relay CertPin SessionState Bridge Session.
From Stdlib Require Import ZArith Lia Ascii String.
From stdpp Require Import base gmap strings list fin_maps.

(** ** The status page *)

Record reachableThroughInfo := ReachableThroughInfo {
  rt_HubID : string;
  rt_HubName : string;
  rt_HubURL : string
}.

Record statusMachine := StatusMachine {
  row_ID : string;
  row_AgentID : string;
  row_MachineRegistrationID : string;
  row_DisplayName : option string;
  row_Hostname : option string;
  row_OS : option string;
  row_AgentVersion : option string;
  row_ProtocolVersion : Z;
  row_Tags : list string;
  row_Location : option string;
  row_Owner : option string;
  row_AgentConnected : bool;
  row_SessionCount : nat;
  row_RegisteredAt : option Z;
  row_LastSeen : option Z;
  row_Services : list serviceDesc;
  row_Capabilities : option (list (string * json));
  row_ReachableThrough : option reachableThroughInfo
}.

Definition nonEmpty (x : string) : option string := if x <>s "" then Some x else None.
Definition nonZero (t : Z) : option Z := if (t =? 0)%Z then None else Some t.

Section status.
  Context `{RangeOrder}.
  (** The store and the clock. *)
  Variables (auth : authStore) (now : Z).

(** The test both loops start with. *)
Definition mayView (token machineName : string) : bool :=
  negb (isEnabled auth && negb (canViewMachine auth now token machineName)).

(** The services of an entry, less those a filtered grant leaves out. *)
Definition shownServices (token : string) (e : machineEntry) : list serviceDesc :=
  let services := normalizeServices (me_Ports e) (me_Services e) in
  if isEnabled auth then
    match connectServicesFilter auth now token (me_MachineName e) with
    | Some allowed => filterServicesByName services allowed
    | None => services
    end
  else services.

Definition statusRow (token : string) (e : machineEntry) : statusMachine :=
  StatusMachine (me_MachineName e) (me_AgentID e) (me_MachineRegistrationID e)
    (nonEmpty (me_DisplayName e)) (nonEmpty (me_Hostname e)) (nonEmpty (me_OS e))
    (nonEmpty (me_AgentVersion e)) (if (0 <? me_ProtocolVersion e)%Z then me_ProtocolVersion e else 0)
    (default [] (me_Tags e)) (nonEmpty (me_Location e)) (nonEmpty (me_Owner e))
    (match me_ControlWS e with Some _ => true | None => false end) (size (me_Sessions e))
    (nonZero (me_RegisteredAt e)) (nonZero (me_LastSeen e)) (shownServices token e)
    (me_Capabilities e) None.

Definition bridgedRow (machineName : string) (bc : bridgeConfig) : statusMachine :=
  StatusMachine machineName "" "" None None None None 0 [] None None false 0 None None [] None
    (Some (ReachableThroughInfo (bc_HubID bc) "" (bc_URL bc))).

Definition statusRows (s : sessions) (bridgeDir : gmap string bridgeConfig) (token : string)
    : list statusMachine :=
  omap (fun kp => match ss_heap s !! kp.2 with
                  | Some e => if mayView token (me_MachineName e) then Some (statusRow token e) else None
                  | None => None
                  end) (range (ss_machines s)) ++
  omap (fun kb => if mayView token kb.1 then Some (bridgedRow kb.1 kb.2) else None) (range bridgeDir).

Inductive statusReply :=
  | StatusNoContent
  | StatusUnauthorized
  | StatusPage (machines : list statusMachine) (hubID hubName : option string).

Definition handleAPIStatus (s : sessions) (bridgeDir : gmap string bridgeConfig) (hubID hubName : string)
    (r : request) : statusReply :=
  if r_Method r =s "OPTIONS" then StatusNoContent
  else
    let callerToken := tokenFromRequest r in
    if isEnabled auth && (identityID auth now callerToken =s "") then StatusUnauthorized
    else StatusPage (statusRows s bridgeDir callerToken) (nonEmpty hubID) (nonEmpty hubName).

End status.

(** ** Discovery *)

Definition hubCapabilities : list string := ["per-service-access-control"].

Inductive wellKnownReply :=
  | WellKnownNoContent
  | WellKnownBadMethod
  | WellKnown (protocolVersion : string) (supported capabilities : list string) (hubID : option string).

Definition handleWellKnown (hubID : string) (r : request) : wellKnownReply :=
  if r_Method r =s "OPTIONS" then WellKnownNoContent
  else if r_Method r <>s "GET" then WellKnownBadMethod
  else WellKnown "1.1" ["1.1"] hubCapabilities (nonEmpty hubID).

(** ** The presence probe and the management proxy *)

Inductive agentsReply :=
  | AgentsNoContent
  | AgentsError (code : Z) (message : string)
  | AgentsPresence (id : string) (agentConnected : bool) (lastSeen : option Z)
  | AgentsResponse (data : list Z).

Definition handleAdminAgentPresence (auth : authStore) (now : Z) (s : sessions) (r : request)
    (machineName : string) : agentsReply :=
  if isEnabled auth && negb (canViewMachine auth now (tokenFromRequest r) machineName) then
    AgentsError 404 "machine not found"
  else match resolveName s machineName with
       | None => AgentsError 404 "machine not found"
       | Some (_, _, e) =>
           AgentsPresence machineName (match me_ControlWS e with Some _ => true | None => false end)
             (nonZero (me_LastSeen e))
       end.

(** What the proxy meets outside: the request identifier it draws, whether the write to the agent
    succeeds, and what the connections deliver while it waits (30 seconds at most). *)
Record agentsEnv := AgentsEnv {
  ae_rand : list Z;
  ae_writable : bool;
  ae_delivered : list output
}.

(** The first answer to the request identifier, if one arrives in time. *)
Definition awaited (reqID : string) (l : list output) : option (list Z) :=
  find_first (fun o => match o with Deliver id _ => id =s reqID | _ => false end) l ≫= fun o =>
  match o with Deliver _ data => Some data | _ => None end.

(** The message for the agent.  A body that is not JSON makes [json.Marshal] fail; its error is
    ignored, and what is sent is empty. *)
Definition mgmtRequest (reqID action : string) (r : request) : wsMessage :=
  if (r_Method r =s "POST") || (r_Method r =s "PUT") then
    match r_Body r with
    | BodyEmpty => MMgmtRequest reqID action None
    | BodyBad => MRaw false []
    | BodyJson j => MMgmtRequest reqID action (Some j)
    end
  else MMgmtRequest reqID action None.

Definition handleAdminAgents (auth : authStore) (now : Z) (ae : agentsEnv) (s : sessions) (r : request)
    : list output * agentsReply :=
  if r_Method r =s "OPTIONS" then ([], AgentsNoContent)
  else
    match splitn2 (trim_prefix (r_Path r) "/api/admin/agents/") "/" with
    | [m] =>
        if (m <>s "") && (r_Method r =s "GET") then ([], handleAdminAgentPresence auth now s r m)
        else ([], AgentsError 400 "expected /api/admin/agents/{machine}/{action} or GET /api/admin/agents/{machine}")
    | machineName :: action :: _ =>
        if (machineName =s "") || (action =s "") then
          ([], AgentsError 400 "expected /api/admin/agents/{machine}/{action} or GET /api/admin/agents/{machine}")
        else if negb (canManage auth now (tokenFromRequest r) machineName) then
          ([], AgentsError 403 ("manage permission required for " +:+ machineName))
        else match resolveName s machineName with
        | None => ([], AgentsError 404 "machine not found")
        | Some (_, _, e) =>
            match me_ControlWS e with
            | None => ([], AgentsError 503 "agent not connected")
            | Some controlWS =>
                let reqID := hexText (ae_rand ae) in
                let sent := [Send controlWS (mgmtRequest reqID action r)] in
                if ae_writable ae then
                  match awaited reqID (ae_delivered ae) with
                  | Some data => (sent, AgentsResponse data)
                  | None => (sent, AgentsError 504 "agent did not respond within 30 seconds")
                  end
                else ([], AgentsError 502 "failed to send to agent")
            end
        end
    | [] => ([], AgentsError 400 "expected /api/admin/agents/{machine}/{action} or GET /api/admin/agents/{machine}")
    end.

(** ** Properties *)

(** Who may see a machine: whoever may connect to it, and every viewer. *)
Definition may_view (auth : authStore) (now : Z) (token m : string) : Prop :=
  may_connect auth now token m \/
  exists e, token <> "" /\ authenticates auth now token e /\ te_HubRole e = "viewer".

Lemma isViewer_iff auth now token :
  isViewer auth now token = true <->
  enabled auth = true /\ exists e, token <> "" /\ authenticates auth now token e /\ te_HubRole e = "viewer".
Proof.
  unfold isViewer. destruct (bool_decide_reflect (token = "")) as [->|Ht].
  { split; [done|]. intros (_ & e & ? & _). done. }
  destruct (enabled auth); cbn; [|naive_solver].
  destruct (validEntry auth now token) as [e|] eqn:Ev.
  - rewrite bool_decide_eq_true. apply validEntry_Some in Ev as Ha. split; [naive_solver|].
    intros (_ & e' & _ & He' & Hr). apply validEntry_Some in He'. congruence.
  - split; [done|]. intros (_ & e & _ & He & _). apply validEntry_Some in He. congruence.
Qed.

Lemma mayView_iff auth now token m : mayView auth now token m = true <-> may_view auth now token m.
Proof.
  unfold mayView, may_view, canViewMachine, isEnabled. destruct (enabled auth) eqn:Hen; cbn.
  - rewrite negb_involutive. destruct (isViewer auth now token) eqn:Hv.
    + apply isViewer_iff in Hv as [_ Hv]. naive_solver.
    + rewrite canConnect_iff. split; [naive_solver|]. intros [?|Hx]; [done|].
      assert (isViewer auth now token = true); [|congruence]. apply isViewer_iff. done.
  - split; [|done]. intros _. left. by left.
Qed.

Lemma elem_of_statusRows `{RangeOrder} auth now s bridgeDir token row :
  row ∈ statusRows auth now s bridgeDir token <->
  (exists key p e, ss_machines s !! key = Some p /\ ss_heap s !! p = Some e /\
     may_view auth now token (me_MachineName e) /\ row = statusRow auth now token e) \/
  (exists m bc, bridgeDir !! m = Some bc /\ may_view auth now token m /\ row = bridgedRow m bc).
Proof.
  unfold statusRows. rewrite elem_of_app, !list_elem_of_omap. setoid_rewrite <- mayView_iff. split.
  - intros [([k p] & Hin & Hrow)|([m bc] & Hin & Hrow)]; apply elem_of_range in Hin; cbn in Hrow.
    + left. destruct (ss_heap s !! p) as [e|] eqn:He; [|done].
      destruct (mayView auth now token (me_MachineName e)) eqn:Hv; naive_solver.
    + right. destruct (mayView auth now token m) eqn:Hv; naive_solver.
  - intros [(k & p & e & Hm & He & Hv & ->)|(m & bc & Hb & Hv & ->)].
    + left. exists (k, p). rewrite elem_of_range. cbn. by rewrite He, Hv.
    + right. exists (m, bc). rewrite elem_of_range. cbn. by rewrite Hv.
Qed.

(** On an enforcing hub the status page goes to known identities only, and shows exactly the
    machines the caller may see, registered ones and bridged ones; of a machine on which the
    caller's grant names services, only those services are shown. *)
Theorem status_exact `{RangeOrder} auth now s bridgeDir hubID hubName r :
  enabled auth = true -> r_Method r <> "OPTIONS" ->
  let caller := tokenFromRequest r in
  match handleAPIStatus auth now s bridgeDir hubID hubName r with
  | StatusNoContent => False
  | StatusUnauthorized => identityID auth now caller = ""
  | StatusPage rows _ _ =>
      identityID auth now caller <> "" /\
      (forall row, row ∈ rows <->
        (exists key p e, ss_machines s !! key = Some p /\ ss_heap s !! p = Some e /\
           may_view auth now caller (me_MachineName e) /\ row = statusRow auth now caller e) \/
        (exists m bc, bridgeDir !! m = Some bc /\ may_view auth now caller m /\ row = bridgedRow m bc)) /\
      (forall row names sd, row ∈ rows -> connectServicesFilter auth now caller (row_ID row) = Some names ->
        sd ∈ row_Services row -> serviceFilterName sd ∈ names)
  end.
Proof.
  intros Hen Hm. cbn zeta. unfold handleAPIStatus, isEnabled. rewrite bool_decide_false, Hen by done.
  cbn [andb]. destruct (bool_decide_reflect (identityID auth now (tokenFromRequest r) = "")); [done|].
  split_and!; [done|intros row; apply elem_of_statusRows|].
  intros row names sd Hrow Hf Hsd. apply elem_of_statusRows in Hrow as [(k & p & e & _ & _ & _ & ->)|(m & bc & _ & _ & ->)].
  - cbn in Hf, Hsd. unfold shownServices, isEnabled in Hsd. rewrite Hen, Hf in Hsd.
    by apply filterServicesByName_spec in Hsd as [_ ?].
  - by apply elem_of_nil in Hsd.
Qed.

Lemma presence_no_response auth now s r m data : handleAdminAgentPresence auth now s r m <> AgentsResponse data.
Proof.
  unfold handleAdminAgentPresence. destruct (_ && _); [done|]. by destruct (resolveName s m) as [[[? ?] e]|].
Qed.

(** A branch of the proxy that sends nothing: what it tested contradicts the conditions of sending. *)
Ltac refused Hnil Hmay :=
  apply Hnil; [done|];
  intros ? ? (? & ? & ? & ? & ? & ? & ? & ? & ? & Hman & ? & ? & ? & _);
  apply Hmay in Hman; congruence.

(** The management proxy: a request reaches an agent exactly when it names a machine and an
    action, the caller may manage that machine, the machine is connected and the write succeeds;
    then one message goes to the machine's current control connection, and the caller is answered
    with the first response to that very request, or told that none came. *)
Theorem agents_proxy_exact auth now ae s r :
  let '(sent, reply) := handleAdminAgents auth now ae s r in
  (forall c m, Send c m ∈ sent <->
     exists machineName action key p e,
       splitn2 (trim_prefix (r_Path r) "/api/admin/agents/") "/" = [machineName; action] /\
       r_Method r <> "OPTIONS" /\ machineName <> "" /\ action <> "" /\
       may_manage auth now (tokenFromRequest r) machineName /\
       resolveName s machineName = Some (key, p, e) /\ me_ControlWS e = Some c /\
       ae_writable ae = true /\ m = mgmtRequest (hexText (ae_rand ae)) action r) /\
  (length sent <= 1)%nat /\
  (forall data, reply = AgentsResponse data <->
     sent <> [] /\ awaited (hexText (ae_rand ae)) (ae_delivered ae) = Some data).
Proof.
  unfold handleAdminAgents.
  pose proof (canManage_iff auth now (tokenFromRequest r)) as Hmay. set (parts := splitn2 _ "/").
  assert (forall rep P, (forall data, rep <> AgentsResponse data) -> (forall c m, ~ P c m) ->
    (forall c m, Send c m ∈ [] <-> P c m) /\ (length (@nil output) <= 1)%nat /\
    forall data, rep = AgentsResponse data <-> @nil output <> [] /\
      awaited (hexText (ae_rand ae)) (ae_delivered ae) = Some data) as Hnil.
  { intros rep P Hr HP. split_and!; [|cbn; lia|naive_solver].
    intros c m. split; [intros Hin; by apply elem_of_nil in Hin|intros Hp; by destruct (HP c m)]. }
  destruct (bool_decide_reflect (r_Method r = "OPTIONS")); [refused Hnil Hmay|].
  destruct parts as [|machineName [|action more]] eqn:Hparts; [refused Hnil Hmay| |].
  { destruct (_ && _); [|refused Hnil Hmay]. apply Hnil; [apply presence_no_response|].
    intros c m (? & ? & ? & ? & ? & E & _). congruence. }
  destruct (bool_decide_reflect (machineName = "")); [refused Hnil Hmay|].
  destruct (bool_decide_reflect (action = "")); [refused Hnil Hmay|]. cbn [orb].
  destruct (canManage auth now (tokenFromRequest r) machineName) eqn:Hcan; [|refused Hnil Hmay].
  apply Hmay in Hcan. cbn [negb].
  destruct (resolveName s machineName) as [[[key p] e]|] eqn:Hres; [|refused Hnil Hmay].
  destruct (me_ControlWS e) as [control|] eqn:Hc; [|refused Hnil Hmay].
  destruct (ae_writable ae) eqn:Hw; [|refused Hnil Hmay].
  assert (more = []) as ->.
  { unfold parts, splitn2 in Hparts. destruct (cut _ _) as [[? ?]|]; congruence. }
  assert (forall c m, Send c m ∈ [Send control (mgmtRequest (hexText (ae_rand ae)) action r)] <->
    exists machineName action key p e, parts = [machineName; action] /\ r_Method r <> "OPTIONS" /\
      machineName <> "" /\ action <> "" /\ may_manage auth now (tokenFromRequest r) machineName /\
      resolveName s machineName = Some (key, p, e) /\ me_ControlWS e = Some c /\ ae_writable ae = true /\
      m = mgmtRequest (hexText (ae_rand ae)) action r) as Hsent.
  { intros c m. rewrite list_elem_of_singleton. split.
    - intros [= -> ->]. exists machineName, action, key, p, e. by rewrite Hparts, Hw.
    - intros (mn & ac & k & q & e' & Hp & _ & _ & _ & _ & Hr & Hc' & _ & ->). congruence. }
  rewrite Hparts, Hw in Hsent.
  destruct (awaited _ _) as [data|] eqn:Haw; (split; [exact Hsent|split; [cbn; lia|]]);
    intros data'; split; [intros [= <-]|intros [_ [= ->]]| |intros [_ ?]]; done.
Qed.

(** The presence probe tells nothing of a machine the caller may not see: the answer is the one
    a hub without any machine gives. *)
Theorem presence_hides auth now s r m :
  ~ may_view auth now (tokenFromRequest r) m ->
  handleAdminAgentPresence auth now s r m =
  handleAdminAgentPresence auth now (Sessions ∅ ∅ ∅ ∅ ∅ ∅ []) r m.
Proof.
  rewrite <- mayView_iff. unfold mayView, handleAdminAgentPresence.
  destruct (_ && _); [done|]. intros Hx. by destruct Hx.
Qed.

(** ** A small hub evaluated *)

Definition st_auth : authStore := newAuthStore (Some (AuthConfig
  [TokenEntry "boss" "b" "owner" None None None; TokenEntry "ann" "a" "" None None None]
  {[ "web" := MachineACL "" [ConnectGrant "a" ["SSH"]] [] ]})).
Definition st_entry (m : string) (c : option conn) (ports : list Z) : machineEntry :=
  MachineEntry c 1 ∅ 0 ("agent-" +:+ m) "" m ports [] "" 10 20 "" "host" "" "" 1 None "" "" None.
Definition st_sessions : sessions :=
  Sessions {[ 1%nat := st_entry "web" (Some 7%nat) [22; 80]%Z; 2%nat := st_entry "db" None [5432]%Z ]}
    {[ "agent-web:web" := 1%nat; "agent-db:db" := 2%nat ]}
    {[ "web" := "agent-web:web"; "db" := "agent-db:db" ]} ∅ ∅ ∅ [].
Definition st_bridges : gmap string bridgeConfig :=
  {[ "far" := BridgeConfig "h2" "wss://far" "" "" 1 ["far"] ]}.
Definition st_request (method path token : string) : request :=
  Request method path ("Bearer " +:+ token) None ∅ "" BodyEmpty.

(** Ann sees one machine of the three, with one of its two services. *)
Lemma status_exact_witness :
  statusRows st_auth 5 st_sessions st_bridges "a" =
    [StatusMachine "web" "agent-web" "" None (Some "host") None None 1 [] None None true 0 (Some 10%Z) (Some 20%Z)
       [ServiceDesc 22 "tcp" "SSH" ""] None None] /\
  forall row names sd, row ∈ statusRows st_auth 5 st_sessions st_bridges "a" ->
    connectServicesFilter st_auth 5 "a" (row_ID row) = Some names ->
    sd ∈ row_Services row -> serviceFilterName sd ∈ names.
Proof.
  pose proof (status_exact st_auth 5 st_sessions st_bridges "h1" "" (st_request "GET" "/api/status" "a"))
    as E.
  split; [by vm_compute|]. intros row names sd Hrow.
  destruct E as (_ & _ & E); [by vm_compute|by vm_compute|]. by apply E.
Defined.

Lemma presence_hides_witness :
  handleAdminAgentPresence st_auth 5 st_sessions (st_request "GET" "/api/admin/agents/db" "a") "db" =
  AgentsError 404 "machine not found".
Proof.
  rewrite (presence_hides st_auth 5 st_sessions (st_request "GET" "/api/admin/agents/db" "a") "db");
    [by vm_compute|].
  rewrite <- mayView_iff. by vm_compute.
Defined.

Definition st_agents (l : list output) : agentsEnv := AgentsEnv [1; 2; 3; 4; 5; 6; 7; 255]%Z true l.

Example proxy_reaches_agent :
  handleAdminAgents st_auth 5 (st_agents [Deliver "x" []; Deliver "01020304050607ff" [123; 125]%Z]) st_sessions
    (st_request "GET" "/api/admin/agents/web/status" "b") =
  ([Send 7 (MMgmtRequest "01020304050607ff" "status" None)], AgentsResponse [123; 125]%Z).
Proof. by vm_compute. Qed.

(** A body that is not JSON is not refused: an empty message is sent, and the caller waits in vain. *)
Example proxy_bad_body :
  handleAdminAgents st_auth 5 (st_agents []) st_sessions
    (Request "POST" "/api/admin/agents/web/update" "Bearer b" None ∅ "" BodyBad) =
  ([Send 7 (MRaw false [])], AgentsError 504 "agent did not respond within 30 seconds").
Proof. by vm_compute. Qed.
