(* ===== verification/WsBind.v ===== *)
(** * The tunnel's transport ([internal/wsbind/bind.go])

    Address discovery ([STUNDiscover], [parseSTUNResponse]): the binding request, and the reading of the public address out of the response.  A message is a
    list of bytes; a slice expression out of range is a panic, a result of its own.

    The transport itself is the second part. *)

From S2P Require Import Prelude Relay Auth Http HubConfig SessionState UdpRelay.
From Stdlib Require Import ZArith Lia Ascii String.
From stdpp Require Import base list strings.

Definition stunMagicCookie : Z := 554869826.           (** 0x2112A442 *)

(** [binary.BigEndian.PutUint16] and [Uint16]. *)
Definition put_uint16 (v : Z) : list Z := [Z.land (Z.shiftr v 8) 255; Z.land v 255].
Definition uint16_of (b : list Z) : Z := Z.lor (nth 1 b 0%Z) (Z.shiftl (nth 0 b 0%Z) 8).

(** The request [STUNDiscover] writes, for its transaction identifier. *)
Definition stunRequest (txID : list Z) : list Z :=
  put_uint16 1 ++ put_uint16 0 ++ put_uint32 stunMagicCookie ++ txID.

Inductive stunResult :=
  | StunAddr (hostPort : string)
  | StunError (message : string)
  | StunPanic.

(** [fmt.Sprintf("%d.%d.%d.%d:%d", byte(ip>>24), ...)]. *)
Definition showIPv4 (ip port : Z) : string :=
  let b k := Itoa (u8 (Z.shiftr ip k)) in
  b 24%Z +:+ "." +:+ b 16%Z +:+ "." +:+ b 8%Z +:+ "." +:+ b 0%Z +:+ ":" +:+ Itoa port.

(** The loop over the attributes: each round takes at least four bytes. *)
Fixpoint stunAttrs (fuel : nat) (attrs : list Z) : stunResult :=
  match fuel with
  | O => StunError "no XOR-MAPPED-ADDRESS in STUN response"
  | S fuel =>
      if (length attrs <? 4)%nat then StunError "no XOR-MAPPED-ADDRESS in STUN response"
      else
        let attrType := uint16_of attrs in
        let attrLen := uint16_of (drop 2 attrs) in
        if (Z.of_nat (length attrs) <? 4 + attrLen)%Z then
          StunError "no XOR-MAPPED-ADDRESS in STUN response"
        else
          let attrVal := take (Z.to_nat attrLen) (drop 4 attrs) in
          if (attrType =? 32)%Z && (8 <=? attrLen)%Z && (nth 1 attrVal 0 =? 1)%Z then
            let port := Z.lxor (uint16_of (drop 2 attrVal)) (Z.shiftr stunMagicCookie 16) in
            let ip := Z.lxor (uint32_of (drop 4 attrVal)) stunMagicCookie in
            StunAddr (showIPv4 ip port)
          else
            let padded := Z.ldiff (attrLen + 3) 3 in
            if (Z.of_nat (length attrs) <? 4 + padded)%Z then StunPanic
            else stunAttrs fuel (drop (Z.to_nat (4 + padded)) attrs)
  end.

Definition parseSTUNResponse (resp txID : list Z) : stunResult :=
  if (length resp <? 20)%nat then StunError "STUN response too short"
  else if negb (uint16_of resp =? 257)%Z then StunError "unexpected STUN type"
  else if negb (uint32_of (drop 4 resp) =? stunMagicCookie)%Z then StunError "STUN magic cookie mismatch"
  else if negb (bool_decide (take 12 (drop 8 resp) = take 12 txID)) then
    StunError "STUN transaction ID mismatch"
  else
    let msgLen := uint16_of (drop 2 resp) in
    if (Z.of_nat (length resp) <? 20 + msgLen)%Z then StunError "STUN message length exceeds packet"
    else let attrs := take (Z.to_nat msgLen) (drop 20 resp) in stunAttrs (S (length attrs)) attrs.

(** ** The message format, as RFC 5389 writes it *)

Definition encodeAttr (attr : Z * list Z) : list Z :=
  let n := Z.of_nat (length attr.2) in
  put_uint16 attr.1 ++ put_uint16 n ++ attr.2 ++ repeat 0%Z (Z.to_nat (Z.ldiff (n + 3) 3 - n)).

Definition stunMessage (type : Z) (txID body : list Z) : list Z :=
  put_uint16 type ++ put_uint16 (Z.of_nat (length body)) ++ put_uint32 stunMagicCookie ++ txID ++ body.

(** XOR-MAPPED-ADDRESS of an IPv4 address. *)
Definition mappedAddress (ip port : Z) : Z * list Z :=
  (32%Z, [0; 1]%Z ++ put_uint16 (Z.lxor port (Z.shiftr stunMagicCookie 16)) ++
         put_uint32 (Z.lxor ip stunMagicCookie)).

(** ** Integers *)

Lemma lxor_bound a b k :
  (0 <= k)%Z -> (0 <= a < 2 ^ k)%Z -> (0 <= b < 2 ^ k)%Z -> (0 <= Z.lxor a b < 2 ^ k)%Z.
Proof.
  intros Hk Ha Hb. assert (0 <= Z.lxor a b)%Z as H0 by (apply Z.lxor_nonneg; lia). split; [done|].
  assert (Z.lxor a b mod 2 ^ k = Z.lxor a b)%Z as E.
  { apply Z.bits_inj'. intros n Hn. destruct (Z.ltb_spec n k).
    - by rewrite Z.mod_pow2_bits_low.
    - rewrite Z.mod_pow2_bits_high, Z.lxor_spec by lia.
      rewrite <- (Z.mod_small a (2 ^ k)), <- (Z.mod_small b (2 ^ k)) by done.
      by rewrite !Z.mod_pow2_bits_high by lia. }
  rewrite <- E. apply Z.mod_pos_bound. lia.
Qed.

Lemma lxor_cancel a b : Z.lxor (Z.lxor a b) b = a.
Proof. by rewrite Z.lxor_assoc, Z.lxor_nilpotent, Z.lxor_0_r. Qed.

Lemma uint16_put v l : (0 <= v < 65536)%Z -> uint16_of (put_uint16 v ++ l) = v.
Proof.
  intros Hv. unfold uint16_of, put_uint16. cbn [nth app]. change 255%Z with (Z.ones 8).
  apply Z.bits_inj'. intros n Hn. rewrite Z.lor_spec, !Z.land_ones, Z.shiftl_spec by lia.
  destruct (Z.ltb_spec n 8).
  - rewrite Z.mod_pow2_bits_low by lia. rewrite (Z.testbit_neg_r _ (n - 8)) by lia. by rewrite orb_false_r.
  - rewrite Z.mod_pow2_bits_high by lia. cbn [orb]. destruct (Z.ltb_spec n 16).
    + rewrite Z.mod_pow2_bits_low, Z.shiftr_spec by lia. f_equal. lia.
    + rewrite Z.mod_pow2_bits_high by lia. rewrite <- (Z.mod_small v (2 ^ 16)) by lia.
      by rewrite Z.mod_pow2_bits_high by lia.
Qed.

Lemma uint32_put_app v l : (0 <= v < 4294967296)%Z -> uint32_of (put_uint32 v ++ l) = v.
Proof. intros Hv. rewrite <- (uint32_put v Hv) at 2. done. Qed.

Lemma ldiff_pad n : Z.ldiff n 3 = (n - n mod 4)%Z.
Proof.
  change 3%Z with (Z.ones 2). rewrite Z.ldiff_ones_r, Z.shiftl_mul_pow2, Z.shiftr_div_pow2 by lia.
  change (2 ^ 2)%Z with 4%Z. pose proof (Z.div_mod n 4). lia.
Qed.

(** ** Reading attributes *)

Lemma byte_nth i l : Forall is_byte l -> is_byte (nth i l 0%Z).
Proof.
  intros Hl. destruct (nth_in_or_default i l 0%Z) as [Hin| -> ]; [|unfold is_byte; lia].
  rewrite Forall_forall in Hl. by apply Hl, list_elem_of_In.
Qed.

Lemma uint16_nonneg l : Forall is_byte l -> (0 <= uint16_of l)%Z.
Proof.
  intros Hl. unfold uint16_of. apply Z.lor_nonneg. rewrite Z.shiftl_nonneg.
  split; apply byte_nth; done.
Qed.

Lemma padded_le n : (0 <= n)%Z -> (n <= Z.ldiff (n + 3) 3 < n + 4)%Z.
Proof. intros Hn. rewrite ldiff_pad. pose proof (Z.mod_pos_bound (n + 3) 4). lia. Qed.

(** Once the fuel exceeds the length, more of it changes nothing: the loop ends by itself. *)
Lemma stunAttrs_fuel f1 f2 attrs :
  Forall is_byte attrs -> (length attrs < f1)%nat -> (length attrs < f2)%nat ->
  stunAttrs f1 attrs = stunAttrs f2 attrs.
Proof.
  revert f2 attrs. induction f1 as [|f1 IH]; intros [|f2] attrs Hb H1 H2; try lia. cbn [stunAttrs].
  destruct (Nat.ltb_spec (length attrs) 4); [done|]. destruct (_ <? _)%Z; [done|].
  destruct (_ && _); [done|]. destruct (_ <? _)%Z; [done|].
  pose proof (padded_le (uint16_of (drop 2 attrs)) (uint16_nonneg _ (Forall_drop _ _ _ Hb))).
  pose proof (uint16_nonneg (drop 2 attrs) (Forall_drop _ _ _ Hb)).
  apply IH; [by apply Forall_drop|..]; rewrite length_drop; lia.
Qed.

Lemma length_encodeAttr attr :
  Z.of_nat (length (encodeAttr attr)) = (4 + Z.ldiff (Z.of_nat (length attr.2) + 3) 3)%Z.
Proof.
  unfold encodeAttr. rewrite !length_app, repeat_length. cbn [length put_uint16].
  pose proof (padded_le (Z.of_nat (length attr.2))). lia.
Qed.

(** The fields of an attribute at the head of the list. *)
Lemma attr_fields attr tail :
  (0 <= attr.1 < 65536)%Z -> (Z.of_nat (length attr.2) < 65536)%Z ->
  let l := encodeAttr attr ++ tail in
  (4 <= length l)%nat /\ uint16_of l = attr.1 /\ uint16_of (drop 2 l) = Z.of_nat (length attr.2) /\
  (4 + Z.of_nat (length attr.2) <= Z.of_nat (length l))%Z /\ take (length attr.2) (drop 4 l) = attr.2.
Proof.
  intros Ht Hn. cbn zeta. pose proof (length_encodeAttr attr) as Hl.
  pose proof (padded_le (Z.of_nat (length attr.2))).
  rewrite length_app. split_and!; try lia.
  - unfold encodeAttr. rewrite <- !app_assoc. by apply uint16_put.
  - unfold encodeAttr. rewrite <- !app_assoc. cbn [drop put_uint16 app].
    change (uint16_of (put_uint16 (Z.of_nat (length attr.2)) ++ attr.2 ++
      repeat 0%Z (Z.to_nat (Z.ldiff (Z.of_nat (length attr.2) + 3) 3 - Z.of_nat (length attr.2))) ++ tail) =
      Z.of_nat (length attr.2)). apply uint16_put. lia.
  - unfold encodeAttr. rewrite <- !app_assoc. cbn [drop put_uint16 app]. apply take_app_length.
Qed.

(** An attribute of another type is skipped, with its padding. *)
Lemma stunAttrs_skip fuel attr tail :
  (0 <= attr.1 < 65536)%Z -> attr.1 <> 32%Z -> (Z.of_nat (length attr.2) < 65536)%Z ->
  stunAttrs (S fuel) (encodeAttr attr ++ tail) = stunAttrs fuel tail.
Proof.
  intros Ht Hne Hn. destruct (attr_fields attr tail Ht Hn) as (H4 & E1 & E2 & Hl & _).
  pose proof (length_encodeAttr attr) as Hlen. pose proof (padded_le (Z.of_nat (length attr.2))).
  cbn [stunAttrs]. rewrite E1, E2. rewrite (proj2 (Nat.ltb_ge _ _)) by lia.
  rewrite (proj2 (Z.ltb_ge _ _)) by lia. rewrite (proj2 (Z.eqb_neq _ _)) by done. cbn [andb].
  rewrite length_app, (proj2 (Z.ltb_ge _ _)) by lia. f_equal.
  rewrite <- Hlen, Nat2Z.id. apply drop_app_length.
Qed.

Lemma stunAttrs_mapped fuel ip port tail :
  (0 <= ip < 4294967296)%Z -> (0 <= port < 65536)%Z ->
  stunAttrs (S fuel) (encodeAttr (mappedAddress ip port) ++ tail) = StunAddr (showIPv4 ip port).
Proof.
  intros Hip Hport.
  destruct (attr_fields (mappedAddress ip port) tail) as (H4 & E1 & E2 & Hl & E3);
    [cbn; lia|done|].
  cbn [stunAttrs]. rewrite E1, E2, (proj2 (Nat.ltb_ge _ _)), (proj2 (Z.ltb_ge _ _)) by lia.
  rewrite Nat2Z.id, E3.
  assert (0 <= Z.lxor port (Z.shiftr stunMagicCookie 16) < 65536)%Z as Hp
    by (apply (lxor_bound _ _ 16); [lia|exact Hport|by vm_compute]).
  assert (0 <= Z.lxor ip stunMagicCookie < 4294967296)%Z as Hi
    by (apply (lxor_bound _ _ 32); [lia|exact Hip|by vm_compute]).
  cbn [fst snd mappedAddress length app nth put_uint16 put_uint32 Z.eqb Z.of_nat drop andb].
  change (uint16_of _) with (uint16_of (put_uint16 (Z.lxor port (Z.shiftr stunMagicCookie 16)) ++
    put_uint32 (Z.lxor ip stunMagicCookie))).
  change (uint32_of _) with (uint32_of (put_uint32 (Z.lxor ip stunMagicCookie))).
  rewrite (uint16_put _ _ Hp), (uint32_put _ Hi), !lxor_cancel. done.
Qed.

Lemma stunMessage_parts type txID body :
  length txID = 12%nat -> (0 <= type < 65536)%Z -> (Z.of_nat (length body) < 65536)%Z ->
  let m := stunMessage type txID body in
  length m = (20 + length body)%nat /\ uint16_of m = type /\
  uint32_of (drop 4 m) = stunMagicCookie /\ take 12 (drop 8 m) = txID /\
  uint16_of (drop 2 m) = Z.of_nat (length body) /\ drop 20 m = body.
Proof.
  intros Hid Ht Hb m. split_and!.
  - unfold m, stunMessage. rewrite !length_app, Hid. cbn. lia.
  - by apply uint16_put.
  - apply (uint32_put_app stunMagicCookie (txID ++ body)). unfold stunMagicCookie. lia.
  - change (drop 8 m) with (txID ++ body). by rewrite take_app_length'.
  - apply (uint16_put (Z.of_nat (length body)) (put_uint32 stunMagicCookie ++ txID ++ body)). lia.
  - change (drop 20 m) with (drop 12 (txID ++ body)). by rewrite drop_app_length'.
Qed.

(** A binding response of the transaction yields the address it carries, whatever other
    attributes, of whatever length, come before it, and whatever bytes follow. *)
Theorem parse_stun_roundtrip txID attrs ip port tail :
  length txID = 12%nat -> (0 <= ip < 4294967296)%Z -> (0 <= port < 65536)%Z ->
  Forall (fun attr => (0 <= attr.1 < 65536)%Z /\ attr.1 <> 32%Z /\ (Z.of_nat (length attr.2) < 65536)%Z) attrs ->
  let body := concat (map encodeAttr attrs) ++ encodeAttr (mappedAddress ip port) ++ tail in
  (Z.of_nat (length body) < 65536)%Z ->
  parseSTUNResponse (stunMessage 257 txID body) txID = StunAddr (showIPv4 ip port).
Proof.
  intros Hid Hip Hport Hattrs body Hbody. unfold parseSTUNResponse.
  destruct (stunMessage_parts 257 txID body) as (Hlen & -> & -> & -> & -> & -> ); [done|lia|done|].
  rewrite Hlen, (proj2 (Nat.ltb_ge _ _)), Z.eqb_refl by lia. cbn [negb Z.eqb Pos.eqb].
  rewrite (take_ge txID 12), bool_decide_true by (done || lia). cbn [negb].
  rewrite (proj2 (Z.ltb_ge _ _)), Nat2Z.id, take_ge by lia.
  assert (length attrs < S (length body))%nat as Hf.
  { unfold body. rewrite length_app. clear. induction attrs as [|a l IH]; cbn [map concat length]; [lia|].
    rewrite length_app. pose proof (length_encodeAttr a). pose proof (padded_le (Z.of_nat (length a.2))). lia. }
  revert Hf. generalize (S (length body)) as fuel. unfold body. clear Hbody Hlen body. intros fuel.
  revert fuel. induction Hattrs as [|a l (Ha1 & Ha2 & Ha3) _ IH]; intros [|fuel] Hf; cbn [length] in Hf; try lia.
  - by apply stunAttrs_mapped.
  - cbn [map concat]. rewrite <- app_assoc, stunAttrs_skip by done. apply IH. lia.
Qed.

(** A response whose length field is a multiple of four, as the format requires, is read
    without a panic, whatever else it contains. *)
Theorem parse_stun_no_panic resp txID :
  Forall is_byte resp -> (uint16_of (drop 2 resp) mod 4 = 0)%Z -> parseSTUNResponse resp txID <> StunPanic.
Proof.
  intros Hb H4. unfold parseSTUNResponse. destruct (_ <? _)%nat eqn:E20; [done|].
  destruct (negb _); [done|]. destruct (negb _); [done|]. destruct (negb _); [done|].
  destruct (_ <? _)%Z eqn:El; [done|]. apply Z.ltb_ge in El.
  set (attrs := take _ (drop 20 resp)).
  pose proof (uint16_nonneg (drop 2 resp) (Forall_drop _ _ _ Hb)) as Hn.
  assert (Forall is_byte attrs) as Ha by (by apply Forall_take, Forall_drop).
  assert (Z.of_nat (length attrs) mod 4 = 0)%Z as Hm.
  { unfold attrs. rewrite length_take, length_drop.
    replace (Z.of_nat _) with (uint16_of (drop 2 resp)) by lia. done. }
  clearbody attrs. generalize (S (length attrs)) as fuel. intros fuel.
  revert attrs Ha Hm. induction fuel as [|fuel IH]; intros attrs Ha Hm; cbn [stunAttrs]; [done|].
  destruct (length attrs <? 4)%nat; [done|].
  destruct (Z.ltb_spec (Z.of_nat (length attrs)) (4 + uint16_of (drop 2 attrs))); [done|].
  destruct (_ && _); [done|].
  pose proof (uint16_nonneg (drop 2 attrs) (Forall_drop _ _ _ Ha)) as Hk.
  assert (4 + Z.ldiff (uint16_of (drop 2 attrs) + 3) 3 <= Z.of_nat (length attrs))%Z as Hfit.
  { rewrite ldiff_pad. pose proof (Z.div_mod (Z.of_nat (length attrs)) 4).
    pose proof (Z.div_mod (uint16_of (drop 2 attrs) + 3) 4). pose proof (Z.mod_pos_bound (uint16_of (drop 2 attrs) + 3) 4). lia. }
  rewrite (proj2 (Z.ltb_ge _ _)) by lia. apply IH; [by apply Forall_drop|].
  rewrite length_drop, Nat2Z.inj_sub, Z2Nat.id by (pose proof (padded_le _ Hk); lia).
  rewrite ldiff_pad.
  replace (_ - _)%Z with (Z.of_nat (length attrs) - (1 + (uint16_of (drop 2 attrs) + 3) / 4) * 4)%Z
    by (pose proof (Z.div_mod (uint16_of (drop 2 attrs) + 3) 4); lia).
  rewrite Zminus_mod, Hm, Z.mod_mul by lia. done.
Qed.

(** ** Concrete responses *)

Definition ex_txID : list Z := [1; 2; 3; 4; 5; 6; 7; 8; 9; 10; 11; 12]%Z.
(** 192.0.2.1:54321, after an attribute of five bytes. *)
Definition ex_software : Z * list Z := (32802%Z, [116; 101; 115; 116; 49]%Z).
Definition ex_response : list Z :=
  stunMessage 257 ex_txID (encodeAttr ex_software ++ encodeAttr (mappedAddress 3221225985 54321)).

Lemma parse_stun_roundtrip_witness :
  parseSTUNResponse ex_response ex_txID = StunAddr "192.0.2.1:54321".
Proof.
  refine (parse_stun_roundtrip ex_txID [ex_software] 3221225985 54321 [] _ _ _ _ _); try done; [lia..|].
  repeat constructor; cbn; lia.
Defined.

Lemma parse_stun_no_panic_witness : parseSTUNResponse ex_response ex_txID <> StunPanic.
Proof.
  apply (parse_stun_no_panic ex_response ex_txID).
  - apply (bool_decide_unpack _). vm_compute. exact I.
  - by vm_compute.
Defined.

(** A last attribute without its padding: the slice goes past the end, and the process panics. *)
Example stun_unpadded_panics :
  parseSTUNResponse (stunMessage 257 ex_txID [128; 34; 0; 1; 116]%Z) ex_txID = StunPanic.
Proof. by vm_compute. Qed.

(** * The transport of a tunnel endpoint ([internal/wsbind/bind.go])

    A [Bind] carries the WireGuard datagrams of one session over the WebSocket, over the hub's UDP
    relay once [UpgradeUDP] succeeded, or straight to the peer once a hole punch succeeded.  The
    operations are transitions of one record; what an operation writes to the sockets is its output.
    A clock reading is in nanoseconds. *)

Definition tokenLen : nat := 8.
Definition udpHealthTimeout : Z := (60 * 1000000000)%Z.
Definition directProbeMsg : list Z := z_bytes "TPUNCH".

Record bind := Bind {
  b_sessionID : Z;                        (** [uint32] *)
  b_RecvCh : list (list Z);               (** the datagrams waiting in the channel *)
  b_bufSize : nat;                        (** its capacity *)
  b_closed : bool;                        (** the channel [closed] is closed *)
  b_open : bool;
  b_udpConn : bool;                       (** there is a UDP socket *)
  b_udpHubAddr : option udpAddr;
  b_udpToken : list Z;
  b_udpActive : bool;
  b_lastUDPRecv : Z;
  b_lastUDPSend : Z;
  b_directAddr : option udpAddr;
  b_directActive : bool;
  b_stunCh : list (list Z);               (** capacity 2 *)
  b_punchCh : list udpAddr                (** capacity 1 *)
}.

(** [New]; [sid] are the four random bytes. *)
Definition New (sid : list Z) (bufSize : nat) : bind :=
  Bind (uint32_of sid) [] bufSize false false false None [] false 0 0 None false [] [].

Definition set_recv (b : bind) (ch : list (list Z)) : bind :=
  Bind (b_sessionID b) ch (b_bufSize b) (b_closed b) (b_open b) (b_udpConn b) (b_udpHubAddr b) (b_udpToken b)
    (b_udpActive b) (b_lastUDPRecv b) (b_lastUDPSend b) (b_directAddr b) (b_directActive b) (b_stunCh b) (b_punchCh b).
Definition set_life (b : bind) (closed open : bool) : bind :=
  Bind (b_sessionID b) (b_RecvCh b) (b_bufSize b) closed open (b_udpConn b) (b_udpHubAddr b) (b_udpToken b)
    (b_udpActive b) (b_lastUDPRecv b) (b_lastUDPSend b) (b_directAddr b) (b_directActive b) (b_stunCh b) (b_punchCh b).
Definition set_udp (b : bind) (conn : bool) (addr : option udpAddr) (token : list Z) (active : bool) : bind :=
  Bind (b_sessionID b) (b_RecvCh b) (b_bufSize b) (b_closed b) (b_open b) conn addr token
    active (b_lastUDPRecv b) (b_lastUDPSend b) (b_directAddr b) (b_directActive b) (b_stunCh b) (b_punchCh b).
Definition set_times (b : bind) (recv send : Z) : bind :=
  Bind (b_sessionID b) (b_RecvCh b) (b_bufSize b) (b_closed b) (b_open b) (b_udpConn b) (b_udpHubAddr b) (b_udpToken b)
    (b_udpActive b) recv send (b_directAddr b) (b_directActive b) (b_stunCh b) (b_punchCh b).
Definition set_direct (b : bind) (addr : option udpAddr) (active : bool) : bind :=
  Bind (b_sessionID b) (b_RecvCh b) (b_bufSize b) (b_closed b) (b_open b) (b_udpConn b) (b_udpHubAddr b) (b_udpToken b)
    (b_udpActive b) (b_lastUDPRecv b) (b_lastUDPSend b) addr active (b_stunCh b) (b_punchCh b).
Definition set_chans (b : bind) (stun : list (list Z)) (punch : list udpAddr) : bind :=
  Bind (b_sessionID b) (b_RecvCh b) (b_bufSize b) (b_closed b) (b_open b) (b_udpConn b) (b_udpHubAddr b) (b_udpToken b)
    (b_udpActive b) (b_lastUDPRecv b) (b_lastUDPSend b) (b_directAddr b) (b_directActive b) stun punch.
Definition set_udpActive (b : bind) (active : bool) : bind :=
  set_udp b (b_udpConn b) (b_udpHubAddr b) (b_udpToken b) active.
Definition set_directActive (b : bind) (active : bool) : bind := set_direct b (b_directAddr b) active.

Inductive bindOut :=
  | UDPOut (addr : udpAddr) (data : list Z)
  | WSOut (binary : bool) (data : list Z).

(** The clock, and which of the writes of one call succeed, counted from 0. *)
Record bindEnv := BindEnv { be_now : Z; be_udp : nat -> bool; be_ws : nat -> bool }.

(** ** Sending *)

(** A loop of writes that stops at the first failure: what was written, the writes attempted, and
    whether all succeeded. *)
Fixpoint writes {O} (ok : nat -> bool) (k : nat) (l : list O) : list O * nat * bool :=
  match l with
  | [] => ([], k, true)
  | o :: l' => if ok k then let '(out, k', b) := writes ok (S k) l' in (o :: out, k', b) else ([], S k, false)
  end.

(** [token][header][datagram]. *)
Definition relayPacket (token : list Z) (sessionID : Z) (buf : list Z) : list Z :=
  take tokenLen (token ++ repeat 0%Z tokenLen) ++ [Magic; 0%Z; FlagData] ++ put_uint32 sessionID ++ buf.

Definition frames (b : bind) (bufs : list (list Z)) : list (list Z) :=
  map (fun buf => BuildDataFrame buf 0 (b_sessionID b)) bufs.

Definition sendWS (env : bindEnv) (b : bind) (bufs : list (list Z)) : list bindOut * bool :=
  let '(out, _, ok) := writes (be_ws env) 0 (map (WSOut true) (frames b bufs)) in (out, ok).

(** The state in which nothing has been heard on UDP for a minute although something was sent. *)
Definition unhealthy (now : Z) (b : bind) : bool :=
  (0 <? b_lastUDPRecv b)%Z && (udpHealthTimeout <? now - b_lastUDPRecv b)%Z &&
  (0 <? b_lastUDPSend b)%Z && (now - b_lastUDPSend b <? udpHealthTimeout)%Z.

(** The relay and WebSocket part of [Send], from UDP write [k] on, for the values it read. *)
Definition sendRelay (env : bindEnv) (k : nat) (b : bind) (bufs : list (list Z)) : list bindOut * bool * bind :=
  let useUDP := b_udpActive b in
  let sick := useUDP && unhealthy (be_now env) b in
  let b := if sick then set_udpActive b false else b in
  let useUDP := useUDP && negb sick in
  if useUDP && b_udpConn b then
    (* a write to no address fails *)
    let ok n := be_udp env n && bool_decide (b_udpHubAddr b <> None) in
    let pkts := map (fun buf => UDPOut (default "" (b_udpHubAddr b))
                                  (relayPacket (b_udpToken b) (b_sessionID b) buf)) bufs in
    match writes ok k pkts with
    | (out, _, true) => (out, true, set_times b (b_lastUDPRecv b) (be_now env))
    | (out, _, false) =>
        let b := set_udpActive b false in
        let '(out', ok) := sendWS env b bufs in (out ++ out', ok, b)
    end
  else let '(out, ok) := sendWS env b bufs in (out, ok, b).

(** The [bool] is the absence of an error. *)
Definition Send (env : bindEnv) (b : bind) (bufs : list (list Z)) : list bindOut * bool * bind :=
  match b_directAddr b with
  | Some dAddr =>
      if b_directActive b && b_udpConn b then
        match writes (be_udp env) 0 (map (UDPOut dAddr) (frames b bufs)) with
        | (out, _, true) => (out, true, b)
        | (out, k, false) =>
            let b := set_directActive b false in
            let '(out', ok, b) := sendRelay env k b bufs in (out ++ out', ok, b)
        end
      else sendRelay env 0 b bufs
  | None => sendRelay env 0 b bufs
  end.

Definition SendControlFrame (b : bind) (payload : list Z) : bindOut :=
  WSOut true (BuildControlFrame payload 0 (b_sessionID b)).

(** ** The UDP socket *)

(** What [UpgradeUDP] meets: the address the name resolves to, whether a socket opens and takes the
    probe, and the first datagram within two seconds. *)
Record upgradeEnv := UpgradeEnv {
  ue_addr : option udpAddr;
  ue_listen : bool;
  ue_write : bool;
  ue_reply : option (list Z);
  ue_now : Z
}.

Definition UpgradeUDP (env : upgradeEnv) (b : bind) (token : list Z) : list bindOut * bool * bind :=
  if negb (length token =? tokenLen)%nat then ([], false, b)
  else match ue_addr env with
  | None => ([], false, b)
  | Some addr =>
      if negb (ue_listen env) then ([], false, b)
      else if negb (ue_write env) then ([], false, b)
      else
        let out := [UDPOut addr (token ++ probeWord)] in
        match ue_reply env with
        | None => (out, false, b)
        | Some reply =>
            let buf := take 1500 reply in
            if negb (length buf =? tokenLen + length readyWord)%nat ||
               negb (bool_decide (drop tokenLen buf = readyWord)) then (out, false, b)
            else if negb (bool_decide (take tokenLen buf = token)) then (out, false, b)
            else (out, true, set_udp (set_times b (ue_now env) (b_lastUDPSend b)) true (Some addr) token true)
        end
  end.

(** A send on a channel of the given capacity that drops when the channel is full. *)
Definition offer {X} (cap : nat) (x : X) (ch : list X) : list X :=
  if (length ch <? cap)%nat then ch ++ [x] else ch.
Definition deliver (b : bind) (datagram : list Z) : bind :=
  set_recv b (offer (b_bufSize b) datagram (b_RecvCh b)).

(** One datagram read by [udpReader], into its buffer of 1500 bytes. *)
Definition udpRead (now : Z) (b : bind) (addr : udpAddr) (data : list Z) : bind :=
  let buf := take 1500 data in
  let n := length buf in
  if bool_decide (b_udpHubAddr b = Some addr) then
    let b := set_times b now (b_lastUDPSend b) in
    if (n <=? tokenLen + HeaderLen)%nat then b
    else if negb (nth tokenLen buf 0 =? Magic)%Z then b
    else deliver b (drop (tokenLen + HeaderLen) buf)
  else if (20 <=? n)%nat && (uint32_of (drop 4 buf) =? stunMagicCookie)%Z then
    set_chans b (offer 2 buf (b_stunCh b)) (b_punchCh b)
  else if bool_decide (buf = directProbeMsg) then
    let b := set_direct b (Some addr) (b_directActive b) in
    set_chans b (b_stunCh b) (offer 1 addr (b_punchCh b))
  else if bool_decide (b_directAddr b = Some addr) then
    let b := set_times b now (b_lastUDPSend b) in
    if (n <=? HeaderLen)%nat || negb (nth 0 buf 0 =? Magic)%Z then b
    else deliver b (drop HeaderLen buf)
  else b.

(** ** Discovery and hole punching *)

(** The datagrams [udpReader] reads while another operation waits. *)
Abbreviation reads := (list (Z * udpAddr * list Z)).
Definition udpReads (l : reads) (b : bind) : bind :=
  fold_left (fun b r => udpRead r.1.1 b r.1.2 r.2) l b.

(** [STUNDiscover]: [server] is the address the STUN server's name resolves to, and [arrived] what
    is read until the response is taken or the time is out. *)
Definition STUNDiscover (txID : option (list Z)) (server : option udpAddr) (written : bool) (arrived : reads)
    (b : bind) : list bindOut * stunResult * bind :=
  if negb (b_udpConn b) then ([], StunError "no UDP socket for STUN", b)
  else match txID, server with
  | Some txID, Some server =>
      if written then
        let out := [UDPOut server (stunRequest txID)] in
        let b := udpReads arrived b in
        match b_stunCh b with
        | resp :: rest => (out, parseSTUNResponse resp txID, set_chans b rest (b_punchCh b))
        | [] => (out, StunError "STUN timeout", b)
        end
      else ([], StunError "STUN send", b)
  | None, _ => ([], StunError "generate STUN txID", b)
  | _, None => ([], StunError "resolve STUN server", b)
  end.

(** What the loop of [AttemptDirect] selects, interleaved with what is read. *)
Inductive punchEvent :=
  | PunchTimeout
  | PunchTick (written : bool)
  | PunchSignal
  | PunchRead (now : Z) (addr : udpAddr) (data : list Z).

(** The [option bool] is the result: [None] while the loop runs. *)
Fixpoint punchLoop (peer : udpAddr) (b : bind) (evs : list punchEvent) : list bindOut * option bool * bind :=
  match evs with
  | [] => ([], None, b)
  | PunchTimeout :: _ => ([], Some false, b)
  | PunchTick written :: evs =>
      let '(out, res, b) := punchLoop peer b evs in
      ((if written then [UDPOut peer directProbeMsg] else []) ++ out, res, b)
  | PunchSignal :: evs =>
      match b_punchCh b with
      | actual :: rest => ([], Some true, set_direct (set_chans b (b_stunCh b) rest) (Some actual) true)
      | [] => punchLoop peer b evs
      end
  | PunchRead now addr data :: evs => punchLoop peer (udpRead now b addr data) evs
  end.

Definition AttemptDirect (peerAddr : option udpAddr) (evs : list punchEvent) (b : bind)
    : list bindOut * option bool * bind :=
  match peerAddr with
  | None => ([], Some false, b)
  | Some peer =>
      if negb (b_udpConn b) then ([], Some false, b)
      else punchLoop peer (set_chans b (b_stunCh b) []) evs
  end.

(** ** The device's side *)

Definition Open (b : bind) : bind := set_life b false true.

Definition Close (b : bind) : bind :=
  let b := if b_open b then set_life b true false else b in
  let b := if b_udpConn b then set_udp b false (b_udpHubAddr b) (b_udpToken b) false else b in
  set_direct b None false.

Inductive received := Received (data : list Z) | BindClosed | Blocked.

(** One call of the receive function with a buffer of [room] bytes; [closedFirst] is the choice of
    [select] when both channels are ready. *)
Definition receiveFunc (closedFirst : bool) (room : nat) (b : bind) : received * bind :=
  match b_RecvCh b with
  | data :: rest =>
      if b_closed b && closedFirst then (BindClosed, b)
      else (Received (take room data), set_recv b rest)
  | [] => if b_closed b then (BindClosed, b) else (Blocked, b)
  end.

(** ** The WebSocket reader of client and agent ([wsReader]) *)

(** A binary message: what is written back, and whether a keepalive response is signalled. *)
Definition wsBinary (b : bind) (data : list Z) : list bindOut * bool * bind :=
  match ParseHeader data with
  | None => ([], false, b)
  | Some h =>
      if (h_flags h =? FlagControl)%Z then
        match h_payload h with
        | 1%Z :: _ => ([SendControlFrame b [2%Z]], false, b)
        | 2%Z :: _ => ([], true, b)
        | _ => ([], false, b)
        end
      else ([], false, deliver b (h_payload h))
  end.

Record controlMessage := ControlMessage {
  cm_Type : string;
  cm_Message : string;
  cm_Token : string;
  cm_Port : Z;
  cm_Host : string
}.

Inductive task := GoDirectUpgrade | GoAttemptDirect (peer : string).

(** [add] of [tryUDPUpgrade]. *)
Definition addCandidate (l : list string) (h : string) : list string :=
  if (h <>s "") && negb (bool_decide (h ∈ l)) then l ++ [h] else l.

(** The hosts a client tries: the offered one, the hub's address on the WebSocket, and the hub URL's
    host ([None] when the URL does not parse). *)
Definition upgradeCandidates (host peerIP : string) (urlHost : option string) : list string :=
  let l := addCandidate (addCandidate [] host) peerIP in
  match urlHost with Some h => addCandidate l h | None => l end.

(** [net h port]: what an upgrade to that address meets. *)
Fixpoint tryUpgrades (net : string -> Z -> upgradeEnv) (port : Z) (token : list Z) (hosts : list string) (b : bind)
    : list bindOut * bind :=
  match hosts with
  | [] => ([], b)
  | h :: hosts =>
      let '(out, ok, b) := UpgradeUDP (net h port) b token in
      if ok then (out, b)
      else let '(out', b) := tryUpgrades net port token hosts b in (out ++ out', b)
  end.

Definition clientUDPUpgrade (net : string -> Z -> upgradeEnv) (peerIP : string) (urlHost : option string)
    (tokenHex : string) (port : Z) (host : string) (b : bind) : list bindOut * bind :=
  match hex_decode (bytes tokenHex) with
  | None => ([], b)
  | Some token => tryUpgrades net port token (upgradeCandidates host peerIP urlHost) b
  end.

Definition agentUDPUpgrade (net : string -> Z -> upgradeEnv) (urlHost : option string)
    (tokenHex : string) (port : Z) (host : string) (b : bind) : list bindOut * bind :=
  match (if host =s "" then urlHost else Some host) with
  | None => ([], b)
  | Some host =>
      match hex_decode (bytes tokenHex) with
      | None => ([], b)
      | Some token => let '(out, _, b) := UpgradeUDP (net host port) b token in (out, b)
      end
  end.

(** A text message: [upgrade] is the upgrade of the side that reads, and the last component whether
    the session is over, for the agent. *)
Definition wsText (agent : bool) (upgrade : string -> Z -> string -> bind -> list bindOut * bind) (b : bind)
    (msg : option controlMessage) : list bindOut * list task * bind * bool :=
  match msg with
  | None => ([], [], b, false)
  | Some msg =>
      if cm_Type msg =s "udp-offer" then
        if b_udpActive b then ([], [], b, false)
        else let '(out, b) := upgrade (cm_Token msg) (cm_Port msg) (cm_Host msg) b in
             (out, if b_udpActive b then [GoDirectUpgrade] else [], b, false)
      else if cm_Type msg =s "peer-endpoint" then
        if b_udpActive b && negb (b_directActive b) then ([], [GoAttemptDirect (cm_Message msg)], b, false)
        else ([], [], b, false)
      else if agent && (cm_Type msg =s "session-end") then ([], [], b, true)
      else ([], [], b, false)
  end.

(** ** The session keepalive ([StartSessionKeepalive]) *)

Definition KeepaliveInterval : Z := (30 * 1000000000)%Z.
Definition KeepaliveTimeout : Z := (45 * 1000000000)%Z.

Record keepalive := Keepalive { ka_waiting : bool; ka_lastReqAt : Z }.
Definition newKeepalive : keepalive := Keepalive false 0.

Inductive kaEvent := KaStop | KaTick (now : Z) (written : bool) | KaResp.
Inductive kaState := KaRunning (k : keepalive) | KaExited | KaClosed.

(** One round of the loop; [KaClosed] is the call of [closeFn]. *)
Definition kaStep (timeout : Z) (k : keepalive) (e : kaEvent) : kaState :=
  match e with
  | KaStop => KaExited
  | KaTick now written =>
      if ka_waiting k && (timeout <=? now - ka_lastReqAt k)%Z then KaClosed
      else if written then KaRunning (Keepalive true now) else KaExited
  | KaResp => KaRunning (Keepalive false (ka_lastReqAt k))
  end.
Fixpoint kaRun (timeout : Z) (k : keepalive) (evs : list kaEvent) : kaState :=
  match evs with
  | [] => KaRunning k
  | e :: evs => match kaStep timeout k e with KaRunning k => kaRun timeout k evs | st => st end
  end.
