(* ===== verification/WsBindProofs.v ===== *)
(** * The transport's guarantees

    What a [Bind] maintains however its operations interleave, that a send reaches one of the three
    paths in full, and that a datagram sent over the hub's relay or over the WebSocket is the
    datagram the peer's device receives. *)

From S2P Require Import Prelude Auth Http HubConfig Relay SessionState UdpRelay WsBind.
From Stdlib Require Import ZArith Lia Ascii String.
From stdpp Require Import base gmap strings list fin_maps relations.

(** ** Well-formed transports *)

Record bind_ok (b : bind) : Prop := {
  ok_udp : b_udpActive b = true ->
    b_udpConn b = true /\ length (b_udpToken b) = tokenLen /\ is_Some (b_udpHubAddr b);
  ok_direct : b_directActive b = true -> is_Some (b_directAddr b);
  ok_recv : (length (b_RecvCh b) <= b_bufSize b)%nat;
  ok_stun : (length (b_stunCh b) <= 2)%nat;
  ok_punch : (length (b_punchCh b) <= 1)%nat;
  ok_life : b_open b = true -> b_closed b = false
}.

(** Any operation, by any of the goroutines that hold the transport.  [AttemptDirect] contributes the
    two actions of its loop on the transport, and what it reads in between. *)
Inductive bind_step : bind -> bind -> Prop :=
  | bs_send env b bufs : bind_step b (snd (Send env b bufs))
  | bs_upgrade env b token : bind_step b (snd (UpgradeUDP env b token))
  | bs_read now b addr data : bind_step b (udpRead now b addr data)
  | bs_ws b data : bind_step b (snd (wsBinary b data))
  | bs_receive c room b : bind_step b (snd (receiveFunc c room b))
  | bs_stun txID server w l b : bind_step b (snd (STUNDiscover txID server w l b))
  | bs_punch peer evs b : bind_step b (snd (AttemptDirect peer evs b))
  | bs_open b : bind_step b (Open b)
  | bs_close b : bind_step b (Close b).

Lemma offer_le {X} cap (x : X) ch : (length ch <= cap)%nat -> (length (offer cap x ch) <= cap)%nat.
Proof. unfold offer. destruct (Nat.ltb_spec (length ch) cap); [rewrite length_app; cbn; lia|done]. Qed.

Lemma writes_spec {O} ok k (l : list O) out k' b :
  writes ok k l = (out, k', b) ->
  out = take (length out) l /\ (b = true -> out = l) /\ (b = false -> exists n, ok n = false).
Proof.
  revert k k' out. induction l as [|o l IH]; intros k k' out; cbn [writes]; [by intros [= <- _ <-]|].
  destruct (ok k) eqn:Hk; [|intros [= <- _ <-]; split_and!; [done..|by exists k]].
  destruct (writes ok (S k) l) as [[out' k2] b'] eqn:Hw. intros [= <- _ <-].
  destruct (IH _ _ _ Hw) as (H1 & H2 & H3). split_and!; [cbn; by rewrite <- H1| |done].
  intros Hb. by rewrite (H2 Hb).
Qed.

Lemma elem_of_take_in {X} (x : X) n l : x ∈ take n l -> x ∈ l.
Proof. intros (i & Hx & _)%elem_of_take. by eapply list_elem_of_lookup_2. Qed.

(** The parts of the record an operation leaves alone. *)
Lemma ok_deliver b d : bind_ok b -> bind_ok (deliver b d).
Proof. intros []. split; cbn; try done. by apply offer_le. Qed.
Lemma ok_times b r s : bind_ok b -> bind_ok (set_times b r s).
Proof. by intros []; split. Qed.
Lemma ok_udpOff b : bind_ok b -> bind_ok (set_udpActive b false).
Proof. by intros []; split. Qed.
Lemma ok_directOff b : bind_ok b -> bind_ok (set_directActive b false).
Proof. by intros []; split. Qed.

Lemma ok_read now b addr data : bind_ok b -> bind_ok (udpRead now b addr data).
Proof.
  intros Hok. unfold udpRead. set (buf := take 1500 data).
  destruct (bool_decide (b_udpHubAddr b = Some addr)).
  { destruct (_ <=? _)%nat; [by apply ok_times|]. destruct (negb _); [by apply ok_times|].
    by apply ok_deliver, ok_times. }
  destruct (_ && _); [destruct Hok; split; cbn; try done; by apply offer_le|].
  destruct (bool_decide (buf = directProbeMsg)).
  { destruct Hok; split; cbn; try done. by apply offer_le. }
  destruct (bool_decide (b_directAddr b = Some addr)); [|done].
  destruct (_ || _); [by apply ok_times|]. by apply ok_deliver, ok_times.
Qed.

Lemma ok_reads l b : bind_ok b -> bind_ok (udpReads l b).
Proof. revert b. induction l as [|r l IH]; intros b Hok; [done|]. cbn. by apply IH, ok_read. Qed.

Lemma ok_sendRelay env k b bufs : bind_ok b -> bind_ok (snd (sendRelay env k b bufs)).
Proof.
  intros Hok. unfold sendRelay. set (sick := _ && unhealthy _ _).
  assert (bind_ok (if sick then set_udpActive b false else b)) as Hb by (destruct sick; [by apply ok_udpOff|done]).
  generalize dependent (if sick then set_udpActive b false else b). intros b1 Hb.
  destruct (_ && b_udpConn b1).
  - destruct (writes _ k _) as [[out k'] [|]]; [by apply ok_times|].
    destruct (sendWS env _ bufs). by apply ok_udpOff.
  - by destruct (sendWS env b1 bufs).
Qed.

Lemma ok_send env b bufs : bind_ok b -> bind_ok (snd (Send env b bufs)).
Proof.
  intros Hok. unfold Send. destruct (b_directAddr b) as [d|]; [|by apply ok_sendRelay].
  destruct (_ && _); [|by apply ok_sendRelay]. destruct (writes _ 0 _) as [[out k] [|]]; [done|].
  pose proof (ok_sendRelay env k _ bufs (ok_directOff b Hok)). by destruct (sendRelay _ _ _ _) as [[? ?] ?].
Qed.

Lemma ok_upgrade env b token : bind_ok b -> bind_ok (snd (UpgradeUDP env b token)).
Proof.
  intros Hok. unfold UpgradeUDP. destruct (Nat.eqb_spec (length token) tokenLen) as [Hl|]; [|done]. cbn [negb].
  destruct (ue_addr env) as [addr|]; [|done]. destruct (negb _); [done|]. destruct (negb _); [done|].
  destruct (ue_reply env); [|done]. destruct (_ || _); [done|]. destruct (negb _); [done|].
  by destruct Hok; split.
Qed.

Lemma ok_punch_loop peer b evs : bind_ok b -> bind_ok (snd (punchLoop peer b evs)).
Proof.
  revert b. induction evs as [|e evs IH]; intros b Hok; [done|]. destruct e; cbn [punchLoop].
  - done.
  - specialize (IH b Hok). by destruct (punchLoop peer b evs) as [[? ?] ?].
  - destruct (b_punchCh b) as [|a rest] eqn:Hp; [by apply IH|].
    destruct Hok; split; cbn; try done. rewrite Hp in *. cbn in *. lia.
  - by apply IH, ok_read.
Qed.

Lemma ok_step b b' : bind_step b b' -> bind_ok b -> bind_ok b'.
Proof.
  intros [env b1 bufs|env b1 token|now b1 addr data|b1 data|c room b1|txID server w l b1|peer evs b1|b1|b1] Hok.
  - by apply ok_send.
  - by apply ok_upgrade.
  - by apply ok_read.
  - unfold wsBinary. destruct (ParseHeader data) as [h|]; [|done]. destruct (_ =? _)%Z; [|by apply ok_deliver].
    destruct (h_payload h) as [|[|[?|[]|]|] ?]; done.
  - unfold receiveFunc. destruct (b_RecvCh b1) as [|d rest] eqn:E; [by destruct (b_closed b1)|].
    destruct (_ && _); [done|]. destruct Hok; split; cbn; try done. rewrite E in *. cbn in *. lia.
  - unfold STUNDiscover. destruct (negb _); [done|]. destruct txID, server; try done. destruct w; [|done].
    pose proof (ok_reads l _ Hok) as Hr. destruct (b_stunCh (udpReads l b1)) as [|r rest] eqn:E; [done|].
    destruct Hr; split; cbn; try done. rewrite E in *. cbn in *. lia.
  - unfold AttemptDirect. destruct peer; [|done]. destruct (negb _); [done|]. apply ok_punch_loop.
    destruct Hok; split; cbn; try done. lia.
  - destruct Hok; by split.
  - unfold Close. destruct Hok as [Hu Hd Hr Hs Hp Hl].
    destruct (b_open b1) eqn:Ho, (b_udpConn b1) eqn:Hc; split; cbn; try done; rewrite ?Ho, ?Hc; try done;
      intros Ha; destruct (Hu Ha); done.
Qed.

(** C22. However the device, the socket reader, the WebSocket reader and the upgrade goroutines
    interleave: UDP is used only with a socket, an 8-byte token and a hub address, the direct path
    only with a peer's address, no channel exceeds its capacity, and an open transport is not
    closed. *)
Theorem bind_inv_reachable sid n b : rtc bind_step (New sid n) b -> bind_ok b.
Proof.
  intros Hr. assert (bind_ok (New sid n)) as H0 by (split; cbn; done || lia).
  induction Hr as [b|b1 b2 b3 Hs _ IH]; [done|]. apply IH. by eapply ok_step.
Qed.

(** ** Sending *)

Definition directPackets (b : bind) (bufs : list (list Z)) : list bindOut :=
  match b_directAddr b with Some d => map (UDPOut d) (frames b bufs) | None => [] end.
Definition relayPackets (b : bind) (bufs : list (list Z)) : list bindOut :=
  match b_udpHubAddr b with
  | Some h => map (fun buf => UDPOut h (relayPacket (b_udpToken b) (b_sessionID b) buf)) bufs
  | None => []
  end.
Definition wsPackets (b : bind) (bufs : list (list Z)) : list bindOut := map (WSOut true) (frames b bufs).

(** How a send ended: the last path tried, with all the datagrams on it, after what earlier paths
    took; a path that failed is not tried again. *)
Record sent_by (env : bindEnv) (b : bind) (bufs : list (list Z)) (out : list bindOut) (ok : bool) (b' : bind)
    : Prop := {
  sb_out : exists pre l, out = pre ++ l /\ (forall o, o ∈ pre -> o ∈ directPackets b bufs \/ o ∈ relayPackets b bufs) /\
    (ok = true /\ l = directPackets b bufs /\ b_directActive b = true \/
     ok = true /\ l = relayPackets b bufs /\ b_udpActive b' = true \/
     ok = true /\ l = wsPackets b bufs /\ b_udpActive b' && b_udpConn b' = false \/
     ok = false /\ l `prefix_of` wsPackets b bufs);
  sb_err : ok = false -> exists n, be_ws env n = false;
  sb_addrs : b_directAddr b' = b_directAddr b /\ b_udpHubAddr b' = b_udpHubAddr b;
  sb_direct : b_directActive b' = true -> b_udpConn b = true -> b_directAddr b <> None -> out = directPackets b bufs
}.

Lemma sendWS_spec env b bufs out ok :
  sendWS env b bufs = (out, ok) ->
  out `prefix_of` wsPackets b bufs /\ (ok = true -> out = wsPackets b bufs) /\
  (ok = false -> exists n, be_ws env n = false).
Proof.
  unfold sendWS. fold (wsPackets b bufs). destruct (writes _ 0 _) as [[o k] r] eqn:Hw. intros [= <- <-].
  destruct (writes_spec _ _ _ _ _ _ Hw) as (H1 & H2 & H3). split_and!; try done.
  rewrite H1. exists (drop (length o) (wsPackets b bufs)). by rewrite take_drop.
Qed.

(** A send over the WebSocket from a state whose UDP is off, after what earlier paths took. *)
Lemma sent_by_ws env b b' bufs pre out ok :
  sendWS env b' bufs = (out, ok) ->
  (forall o, o ∈ pre -> o ∈ directPackets b bufs \/ o ∈ relayPackets b bufs) ->
  b_sessionID b' = b_sessionID b -> b_directAddr b' = b_directAddr b -> b_udpHubAddr b' = b_udpHubAddr b ->
  b_udpActive b' && b_udpConn b' = false ->
  (b_directActive b' = true -> b_udpConn b = true -> b_directAddr b = None) ->
  sent_by env b bufs (pre ++ out) ok b'.
Proof.
  intros Hws Hpre Hs Hd Hh Hoff Hdir. destruct (sendWS_spec _ _ _ _ _ Hws) as (H1 & H2 & H3).
  assert (wsPackets b' bufs = wsPackets b bufs) as Ep by (unfold wsPackets, frames; by rewrite Hs).
  rewrite Ep in *. split; [|done..|].
  - exists pre, out. split_and!; [done..|]. destruct ok; [|auto]. right. right. left. auto.
  - intros Ha Hc Hn. by destruct Hn, (Hdir Ha Hc).
Qed.

Lemma sent_by_relay env k b b0 bufs pre out ok b' :
  bind_ok b -> sendRelay env k b bufs = (out, ok, b') ->
  (forall o, o ∈ pre -> o ∈ directPackets b0 bufs) ->
  b0 = b \/ b = set_directActive b0 false ->
  (b_directActive b = true -> b_udpConn b = true -> b_directAddr b = None) ->
  sent_by env b0 bufs (pre ++ out) ok b'.
Proof.
  intros Hok Hs Hpre Hb0 Hdir. unfold sendRelay in Hs.
  set (sick := b_udpActive b && unhealthy (be_now env) b) in *.
  assert (b_sessionID b0 = b_sessionID b /\ b_directAddr b0 = b_directAddr b /\ b_udpHubAddr b0 = b_udpHubAddr b /\
    b_udpConn b0 = b_udpConn b /\ b_udpToken b0 = b_udpToken b) as (Es & Ed & Eh & Ec & Et)
    by (destruct Hb0 as [-> | ->]; done).
  assert (relayPackets b0 bufs = relayPackets b bufs) as Er by (unfold relayPackets; by rewrite Eh, Es, Et).
  assert (forall o, o ∈ pre -> o ∈ directPackets b0 bufs \/ o ∈ relayPackets b0 bufs) as Hpre'
    by (intros o Ho; left; by apply Hpre).
  set (b1 := if sick then set_udpActive b false else b) in *.
  destruct (b_udpActive b && negb sick && b_udpConn b1) eqn:Huse.
  - assert (b1 = b /\ b_udpActive b = true) as [E Hact].
    { unfold b1. destruct (b_udpActive b), sick; done. }
    rewrite E in *. destruct (ok_udp _ Hok Hact) as (_ & _ & [h Hh]).
    rewrite Hh in Hs. cbn [default from_option id] in Hs.
    assert (map (fun buf => UDPOut h (relayPacket (b_udpToken b) (b_sessionID b) buf)) bufs = relayPackets b0 bufs)
      as Ep by (rewrite Er; unfold relayPackets; by rewrite Hh).
    rewrite Ep in Hs. destruct (writes _ k _) as [[o k'] r] eqn:Hw.
    destruct (writes_spec _ _ _ _ _ _ Hw) as (H1 & H2 & _). destruct r.
    + injection Hs as <- <- <-. rewrite (H2 eq_refl). split; [|done|by rewrite Ed, Eh|].
      * exists pre, (relayPackets b0 bufs). split_and!; [done..|]. right. left. auto.
      * intros Ha Hc Hn. destruct Hn. rewrite Ed. apply Hdir; [done|by rewrite <- Ec].
    + destruct (sendWS env _ bufs) as [o' ok'] eqn:Hws. injection Hs as <- <- <-. rewrite app_assoc.
      eapply sent_by_ws; [exact Hws| |done..|intros; rewrite Ed; apply Hdir; [done|by rewrite <- Ec]].
      intros x [Hx|Hx]%elem_of_app; [by apply Hpre'|]. right.
      rewrite H1 in Hx. by eapply elem_of_take_in.
  - destruct (sendWS env b1 bufs) as [o' ok'] eqn:Hws. injection Hs as <- <- <-.
    assert (b_udpActive b1 && b_udpConn b1 = false) as Hoff
      by (unfold b1 in *; destruct sick, (b_udpActive b) eqn:Ha; cbn in *; rewrite ?Ha; done).
    eapply sent_by_ws; [exact Hws|done|..|exact Hoff|]; try (unfold b1; by destruct sick).
    unfold b1. intros. rewrite Ed. apply Hdir; [by destruct sick|by rewrite <- Ec].
Qed.

(** Whatever writes fail, a send puts every datagram, in order and in full, on one path - the
    direct one, else the relay, else the WebSocket - reports an error only when the WebSocket fails,
    and leaves behind a transport that does not return by itself to a path that failed. *)
Theorem send_falls_back env b bufs out ok b' :
  bind_ok b -> Send env b bufs = (out, ok, b') -> sent_by env b bufs out ok b'.
Proof.
  intros Hok Hs. unfold Send in Hs. destruct (b_directAddr b) as [d|] eqn:Hd.
  2: { apply (sent_by_relay env 0 b b bufs [] out ok b' Hok Hs); [intros o Ho; by apply elem_of_nil in Ho|by left|done]. }
  destruct (b_directActive b && b_udpConn b) eqn:Huse.
  2: { apply (sent_by_relay env 0 b b bufs [] out ok b' Hok Hs); [intros o Ho; by apply elem_of_nil in Ho|by left|].
       intros Ha Hc. by rewrite Ha, Hc in Huse. }
  apply andb_true_iff in Huse as [Ha Hc].
  assert (map (UDPOut d) (frames b bufs) = directPackets b bufs) as Ep by (unfold directPackets; by rewrite Hd).
  rewrite Ep in Hs. destruct (writes _ 0 _) as [[o k] r] eqn:Hw.
  destruct (writes_spec _ _ _ _ _ _ Hw) as (H1 & H2 & _). destruct r.
  - injection Hs as <- <- <-. rewrite (H2 eq_refl). split; try done.
    exists [], (directPackets b bufs). split_and!; [done|intros ? Ho; by apply elem_of_nil in Ho|by left].
  - destruct (sendRelay env k _ bufs) as [[o' ok'] b2] eqn:Hr. injection Hs as <- <- <-.
    eapply sent_by_relay; [by apply ok_directOff|exact Hr| |by right|done].
    intros x Hx. rewrite H1 in Hx. by eapply elem_of_take_in.
Qed.

(** ** The session keepalive *)

Lemma kaRun_app timeout k l1 l2 :
  kaRun timeout k (l1 ++ l2) =
  match kaRun timeout k l1 with KaRunning k' => kaRun timeout k' l2 | st => st end.
Proof.
  revert k. induction l1 as [|e l1 IH]; intros k; [done|]. cbn. by destruct (kaStep timeout k e).
Qed.

(** A loop that waits has just sent a request, and nothing came since. *)
Lemma kaRun_waiting timeout evs k :
  kaRun timeout newKeepalive evs = KaRunning k -> ka_waiting k = true ->
  exists pre, evs = pre ++ [KaTick (ka_lastReqAt k) true].
Proof.
  destruct evs as [|e pre _] using rev_ind; [by intros [= <-]|]. rewrite kaRun_app.
  destruct (kaRun timeout newKeepalive pre) as [k0| |]; [|done..]. cbn. destruct e as [|t w|]; cbn; [done| |by intros [= <-] Hw; discriminate Hw].
  destruct (_ && _); [done|]. destruct w; [|done]. intros [= <-] _. by exists pre.
Qed.

(** The keepalive declares the session dead exactly when a request was sent, the next thing to
    happen was the next tick, and the tick came no earlier than the timeout after the request. *)
Theorem keepalive_closes_iff timeout evs :
  kaRun timeout newKeepalive evs = KaClosed <->
  exists pre t t' w post, evs = (pre ++ [KaTick t true]) ++ KaTick t' w :: post /\ (timeout <= t' - t)%Z /\
    exists k, kaRun timeout newKeepalive (pre ++ [KaTick t true]) = KaRunning k.
Proof.
  split.
  - induction evs as [|e evs IH] using rev_ind; [done|]. rewrite kaRun_app.
    destruct (kaRun timeout newKeepalive evs) as [k| |] eqn:Hr; [|done|].
    + intros Hc. cbn in Hc. destruct e as [|t' w|]; cbn in Hc; try done.
      destruct (ka_waiting k) eqn:Hw; cbn [andb] in Hc; [|by destruct w].
      destruct (Z.leb_spec timeout (t' - ka_lastReqAt k)); [|by destruct w].
      destruct (kaRun_waiting _ _ _ Hr Hw) as [pre ->].
      exists pre, (ka_lastReqAt k), t', w, []. split_and!; [done..|]. by exists k.
    + intros _. destruct (IH eq_refl) as (pre & t & t' & w & post & -> & Hle & Hk).
      exists pre, t, t', w, (post ++ [e]). split_and!; [by rewrite <- app_assoc|done|done].
  - intros (pre & t & t' & w & post & -> & Hle & k & Hk). rewrite kaRun_app, Hk. cbn.
    rewrite kaRun_app in Hk. destruct (kaRun timeout newKeepalive pre) as [k0| |]; [|done..]. cbn in Hk.
    destruct (_ && _); [done|]. injection Hk as <-. cbn. by rewrite (proj2 (Z.leb_le _ _)).
Qed.

(** Ticks [interval] apart, with or without answers in between. *)
Fixpoint everyInterval (interval last : Z) (evs : list kaEvent) : Prop :=
  match evs with
  | [] => True
  | KaTick now _ :: evs => now = (last + interval)%Z /\ everyInterval interval now evs
  | _ :: evs => everyInterval interval last evs
  end.

Lemma everyInterval_no_close interval timeout k last evs :
  (interval < timeout)%Z -> (ka_waiting k = true -> ka_lastReqAt k = last) -> everyInterval interval last evs ->
  kaRun timeout k evs <> KaClosed.
Proof.
  intros Hlt. revert k last. induction evs as [|e evs IH]; intros k last Hk Hev; [done|]. cbn [kaRun].
  destruct e as [|now w|]; cbn [kaStep everyInterval] in *; [done| |apply (IH _ last); done].
  destruct Hev as [-> Hev]. destruct (ka_waiting k) eqn:Hw; cbn [andb].
  - rewrite (Hk eq_refl), (proj2 (Z.leb_gt _ _)) by lia. destruct w; [|done]. by apply (IH _ (last + interval)%Z).
  - destruct w; [|done]. by apply (IH _ (last + interval)%Z).
Qed.

(** With the constants in use - a request every 30 seconds, a timeout of 45 - a peer that never
    answers is never noticed: each request restarts the clock before the timeout is reached. *)
Lemma keepalive_never_fires start evs :
  everyInterval KeepaliveInterval start evs -> kaRun KeepaliveTimeout newKeepalive evs <> KaClosed.
Proof. by apply everyInterval_no_close. Qed.
