(* ===== verification/TunnelE2E.v ===== *)
(** * A tunnel across the hub

    The transports of an agent and of a client ([WsBind]) joined by the hub's relay ([UdpRelay]) and
    by its WebSocket forwarding ([Session]): the upgrade the hub answers, and datagrams from one
    device to the other. *)

From S2P Require Import Prelude Auth Http HubConfig AdminState Relay CertPin SessionState Bridge UdpRelay Session.
From S2P Require Import WsBind WsBindProofs.
From Stdlib Require Import ZArith Lia Ascii String.
From stdpp Require Import base gmap strings list fin_maps.

(** ** Packets *)

Lemma relayPacket_frame token sid buf :
  length token = tokenLen -> relayPacket token sid buf = token ++ BuildDataFrame buf 0 sid.
Proof. intros Hl. unfold relayPacket. by rewrite take_app_length'. Qed.

Lemma length_frame buf hop sid : length (BuildDataFrame buf hop sid) = (HeaderLen + length buf)%nat.
Proof. done. Qed.

Lemma forward_frame flag payload sid :
  ForwardFrame (BuildFrame flag payload 0 sid) DefaultMaxHops = Some (BuildFrame flag payload 7 sid).
Proof. unfold ForwardFrame. by replace (badFrame _) with false. Qed.

Lemma parse_frame flag payload hop sid :
  exists h, ParseHeader (BuildFrame flag payload hop sid) = Some h /\ h_flags h = flag /\ h_payload h = payload.
Proof. unfold ParseHeader. replace (badFrame _) with false by done. eexists. split; [done|]. by split. Qed.

(** ** The relay path *)

(** What the hub sends back to the sender of a datagram. *)
Definition hubReply (s : sessions) (from : udpAddr) (data : list Z) : option (list Z) :=
  match fst (relayDatagram s from data) with
  | [SendUDP to reply] => if to =s from then Some reply else None
  | _ => None
  end.

(** An upgrade against the hub at [H], from [from]. *)
Definition upgradeAt (s : sessions) (H from : udpAddr) (token : list Z) (now : Z) (b : bind) : list bindOut * bool * bind :=
  UpgradeUDP (UpgradeEnv (Some H) true true (hubReply s from (token ++ probeWord)) now) b token.

(** The transport sends over UDP, with this token. *)
Record on_relay (H : udpAddr) (token : list Z) (b : bind) : Prop := {
  or_conn : b_udpConn b = true;
  or_active : b_udpActive b = true;
  or_addr : b_udpHubAddr b = Some H;
  or_token : b_udpToken b = token
}.

Lemma upgrade_succeeds s H from token now b u :
  isToken token -> ss_udpSessions s !! hexText token = Some u ->
  exists b', upgradeAt s H from token now b = ([UDPOut H (token ++ probeWord)], true, b') /\
    on_relay H token b' /\ b_directActive b' = b_directActive b /\ b_RecvCh b' = b_RecvCh b /\
    b_bufSize b' = b_bufSize b /\ b_lastUDPRecv b' = now.
Proof.
  intros Ht Hu. unfold upgradeAt, UpgradeUDP, hubReply. rewrite (relayDatagram_probe s from token u Ht Hu).
  destruct Ht as [Hlen _]. unfold udpTokenLen in Hlen. cbn [fst ue_addr ue_listen ue_write ue_reply ue_now].
  rewrite bool_decide_true by done. unfold tokenLen. rewrite Hlen. cbn [Nat.eqb negb].
  rewrite take_ge by (rewrite length_app, Hlen; cbn; lia).
  rewrite length_app, Hlen, take_app_length', drop_app_length' by done.
  cbn [length readyWord]. rewrite !bool_decide_true by done. cbn. by eexists.
Qed.

(** Conditions of a plain send over the relay. *)
Definition sends_relay (env : bindEnv) (b : bind) : Prop :=
  be_udp env 0%nat = true /\ unhealthy (be_now env) b = false /\ b_directActive b = false.

Lemma send_on_relay H token env b buf :
  on_relay H token b -> length token = tokenLen -> sends_relay env b ->
  Send env b [buf] =
    ([UDPOut H (token ++ BuildDataFrame buf 0 (b_sessionID b))], true, set_times b (b_lastUDPRecv b) (be_now env)).
Proof.
  intros [Hc Ha Hh Ht] Hl (Hok & Hs & Hd). unfold Send. rewrite Hd. cbn [andb].
  assert (sendRelay env 0 b [buf] =
    ([UDPOut H (token ++ BuildDataFrame buf 0 (b_sessionID b))], true, set_times b (b_lastUDPRecv b) (be_now env))) as E.
  { unfold sendRelay. rewrite Ha, Hs. cbn [andb negb]. rewrite Hc, Hh, Ht. cbn [map writes default from_option id].
    rewrite Hok, relayPacket_frame by done. by rewrite bool_decide_true. }
  by destruct (b_directAddr b).
Qed.

Lemma read_from_hub H token b now buf hop sid :
  b_udpHubAddr b = Some H -> length token = tokenLen -> (0 < length buf <= 1485)%nat ->
  b_RecvCh (udpRead now b H (token ++ BuildDataFrame buf hop sid)) = offer (b_bufSize b) buf (b_RecvCh b).
Proof.
  intros Hh Hl Hb. unfold udpRead. unfold tokenLen in *.
  rewrite take_ge by (rewrite length_app, length_frame; unfold HeaderLen; lia).
  rewrite length_app, length_frame, Hl, bool_decide_true by done.
  rewrite (proj2 (Nat.leb_gt _ _)) by lia.
  rewrite app_nth2, Hl by lia. cbn [Nat.sub nth BuildDataFrame BuildFrame app]. rewrite Z.eqb_refl. cbn [negb].
  change (8 + HeaderLen)%nat with (8 + 7)%nat. rewrite <- (drop_drop _ 7 8), drop_app_length' by done. done.
Qed.

(** A datagram of one side, through the hub, in the other side's channel. *)
Definition carries (H : udpAddr) (s : sessions) (from to : udpAddr) (b b' : bind) : Prop :=
  forall env now buf, sends_relay env b -> (0 < length buf <= 1485)%nat ->
  exists pkt pkt' s' b1,
    Send env b [buf] = ([UDPOut H pkt], true, b1) /\ relayDatagram s from pkt = ([SendUDP to pkt'], s') /\
    b_RecvCh (udpRead now b' H pkt') = offer (b_bufSize b') buf (b_RecvCh b').

Lemma carries_linked H s from to T T' b b' u v :
  isToken T -> isToken T' -> T <> T' -> on_relay H T b -> on_relay H T' b' ->
  ss_udpSessions s !! hexText T = Some u -> us_PeerTokenHex u = hexText T' ->
  ss_udpSessions s !! hexText T' = Some v -> us_Addr v = Some to ->
  carries H s from to b b'.
Proof.
  intros HT HT' Hne Hb Hb' Hu Hpeer Hv Hto env now buf Hs Hlen.
  assert (hexText T <> hexText T') as Hn by (intros E; apply Hne, hexText_inj; [apply HT|apply HT'|done]).
  exists (T ++ BuildDataFrame buf 0 (b_sessionID b)), (T' ++ BuildDataFrame buf 7 (b_sessionID b)).
  eexists _, _. split; [by apply (send_on_relay H); [|apply HT|]|]. split.
  - rewrite (relayDatagram_frame s from T u _ _ HT Hu (forward_frame FlagData _ _)). rewrite Hpeer.
    rewrite bool_decide_false by (by apply hexText_nonempty). cbn [ss_udpSessions with_udp].
    rewrite lookup_insert_ne, Hv, Hto by done. by rewrite decode_hexText.
  - apply read_from_hub; [apply (or_addr _ _ _ Hb')|apply HT'|done].
Qed.

(** C21. Once the hub has paired two sides and each has upgraded against it, the hub carries the
    datagrams of each device to the other, unchanged, in both directions. *)
Theorem tunnel_over_relay s key now a c A C H addrA addrC ba bc t1 t2 :
  isToken A -> isToken C -> A <> C -> udp_linked s key now a c (hexText A) (hexText C) ->
  let '(_, okc, bc') := upgradeAt s H addrC C t1 bc in
  let s1 := snd (relayDatagram s addrC (C ++ probeWord)) in
  let '(_, oka, ba') := upgradeAt s1 H addrA A t2 ba in
  let s2 := snd (relayDatagram s1 addrA (A ++ probeWord)) in
  okc = true /\ oka = true /\ carries H s2 addrC addrA bc' ba' /\ carries H s2 addrA addrC ba' bc'.
Proof.
  intros HA HC Hne [Ha Hc].
  assert (hexText A <> hexText C) as Hn by (intros E; apply Hne, hexText_inj; [apply HA|apply HC|done]).
  destruct (upgrade_succeeds s H addrC C t1 bc _ HC Hc) as (bc' & -> & Hbc & _). cbn zeta.
  rewrite (relayDatagram_probe s addrC C _ HC Hc). cbn [snd]. set (s1 := with_udp s _).
  assert (ss_udpSessions s1 !! hexText A = Some (UdpSession (hexText C) (Some c) "agent" None key now)) as Ha1
    by (cbn; by rewrite lookup_insert_ne).
  destruct (upgrade_succeeds s1 H addrA A t2 ba _ HA Ha1) as (ba' & -> & Hba & _). cbn zeta.
  rewrite (relayDatagram_probe s1 addrA A _ HA Ha1). cbn [snd]. set (s2 := with_udp s1 _).
  assert (ss_udpSessions s2 !! hexText A = Some (UdpSession (hexText C) (Some c) "agent" (Some addrA) key now)) as Ha2
    by (cbn; by rewrite lookup_insert_eq).
  assert (ss_udpSessions s2 !! hexText C = Some (UdpSession (hexText A) (Some a) "client" (Some addrC) key now)) as Hc2
    by (cbn; by rewrite lookup_insert_ne, lookup_insert_eq).
  split_and!; [done|done|..].
  - by eapply (carries_linked H s2 addrC addrA C A).
  - by eapply (carries_linked H s2 addrA addrC A C).
Qed.

(** ** The WebSocket path *)

Lemma send_over_ws env b buf :
  b_udpConn b = false -> be_ws env 0%nat = true ->
  exists b', Send env b [buf] = ([WSOut true (BuildDataFrame buf 0 (b_sessionID b))], true, b').
Proof.
  intros Hc Hw. unfold Send. rewrite Hc, andb_false_r.
  assert (exists b', sendRelay env 0 b [buf] = ([WSOut true (BuildDataFrame buf 0 (b_sessionID b))], true, b')) as [b' E].
  { unfold sendRelay. cbv zeta. set (sick := b_udpActive b && unhealthy (be_now env) b). set (b1 := if sick then set_udpActive b false else b).
    assert (b_udpConn b1 = false /\ b_sessionID b1 = b_sessionID b) as [Hc1 Hs1] by (unfold b1; by destruct sick).
    rewrite Hc1, andb_false_r. unfold sendWS, frames. cbn [map writes]. rewrite Hw, Hs1. by exists b1. }
  exists b'. by destruct (b_directAddr b).
Qed.

Section websocket.
  Context `{Authorizer A}.
  Variable bridgeDir : gmap string bridgeConfig.

(** Without UDP, a datagram crosses the hub as one binary message and arrives unchanged; a
    keepalive request is answered by the peer's reader, and the answer is signalled. *)
Theorem tunnel_over_websocket (env : senv A) (senvb : bindEnv) (s : sessions) (ca cc : conn) (wa wc : wsState) (b b' : bind) (buf : list Z) :
  ss_wsStates s !! ca = Some wa -> ws_Paired wa = true -> ws_Peer wa = Some cc ->
  ss_wsStates s !! cc = Some wc -> ws_Paired wc = true -> ws_Peer wc = Some ca ->
  b_udpConn b = false -> be_ws senvb 0%nat = true ->
  let frame data := WsFrame true data None BodyEmpty in
  (exists pkt pkt' b1, Send senvb b [buf] = ([WSOut true pkt], true, b1) /\
     handleFrame bridgeDir env s ca (frame pkt) = ([SessionState.Send cc (MRaw true pkt')], s, true) /\
     b_RecvCh (snd (wsBinary b' pkt')) = offer (b_bufSize b') buf (b_RecvCh b')) /\
  (exists req req' ans ans', SendControlFrame b [1%Z] = WSOut true req /\
     handleFrame bridgeDir env s ca (frame req) = ([SessionState.Send cc (MRaw true req')], s, true) /\
     wsBinary b' req' = ([WSOut true ans], false, b') /\
     handleFrame bridgeDir env s cc (frame ans) = ([SessionState.Send ca (MRaw true ans')], s, true) /\
     wsBinary b ans' = ([], true, b)).
Proof.
  intros Ha Hpa Hpea Hc Hpc Hpec Hoff Hw frame.
  assert (forall c w p flag payload sid, ss_wsStates s !! c = Some w -> ws_Paired w = true -> ws_Peer w = Some p ->
    handleFrame bridgeDir env s c (frame (BuildFrame flag payload 0 sid)) =
      ([SessionState.Send p (MRaw true (BuildFrame flag payload 7 sid))], s, true)) as Hhub.
  { intros c w p flag payload sid Hs Hp Hpe. unfold handleFrame, frame. cbn [wf_binary wf_data negb andb].
    rewrite Hs, Hp, Hpe. replace (badFrame _) with false by done. rewrite forward_frame. done. }
  split.
  - exists (BuildDataFrame buf 0 (b_sessionID b)), (BuildDataFrame buf 7 (b_sessionID b)).
    destruct (send_over_ws senvb b buf Hoff Hw) as [b1 Hsend]. exists b1. split_and!; [done| |].
    + by eapply Hhub.
    + unfold wsBinary, BuildDataFrame, BuildControlFrame. destruct (parse_frame FlagData buf 7 (b_sessionID b)) as (h & -> & Hf & Hp).
      rewrite Hf, Hp. done.
  - eexists _, (BuildControlFrame [1%Z] 7 (b_sessionID b)), _, (BuildControlFrame [2%Z] 7 (b_sessionID b')).
    split_and!; [done|by eapply Hhub| |by eapply Hhub|].
    + unfold wsBinary, BuildDataFrame, BuildControlFrame. destruct (parse_frame FlagControl [1%Z] 7 (b_sessionID b)) as (h & -> & Hf & Hp).
      by rewrite Hf, Hp.
    + unfold wsBinary, BuildDataFrame, BuildControlFrame. destruct (parse_frame FlagControl [2%Z] 7 (b_sessionID b')) as (h & -> & Hf & Hp).
      by rewrite Hf, Hp.
Qed.

End websocket.

(** ** Concrete transports *)

Definition tn_A : list Z := [10; 2; 3; 4; 5; 6; 7; 8]%Z.
Definition tn_C : list Z := [11; 2; 3; 4; 5; 6; 7; 255]%Z.
(** The hub just after it paired connection 3, the agent's, with connection 2, the client's. *)
Definition tn_hub : sessions :=
  Sessions ∅ ∅ ∅ ∅
    {[ 2%nat := pair_ws 3 newWsState; 3%nat := pair_ws 2 newWsState ]}
    {[ hexText tn_A := UdpSession (hexText tn_C) (Some 2%nat) "agent" None "A:m" 3;
       hexText tn_C := UdpSession (hexText tn_A) (Some 3%nat) "client" None "A:m" 3 ]} [].
Definition tn_bind : bind := Open (New [0; 0; 1; 0]%Z 4).
Definition tn_env : bindEnv := BindEnv 9 (fun _ => true) (fun _ => true).

Lemma tn_token l : length l = udpTokenLen -> bool_decide (Forall (fun z => 0 <= z < 256)%Z l) = true -> isToken l.
Proof. intros Hl Hb. split; [done|]. by apply bool_decide_eq_true_1 in Hb. Qed.

(** The client's datagram 7, 7 crosses to the agent. *)
Lemma tunnel_over_relay_witness :
  let bc := snd (upgradeAt tn_hub "hub:443" "client:9" tn_C 1 tn_bind) in
  let s1 := snd (relayDatagram tn_hub "client:9" (tn_C ++ probeWord)) in
  let ba := snd (upgradeAt s1 "hub:443" "agent:7" tn_A 2 tn_bind) in
  let s2 := snd (relayDatagram s1 "agent:7" (tn_A ++ probeWord)) in
  exists pkt pkt' s' b1, Send tn_env bc [[7; 7]%Z] = ([UDPOut "hub:443" pkt], true, b1) /\
    relayDatagram s2 "client:9" pkt = ([SendUDP "agent:7" pkt'], s') /\
    b_RecvCh (udpRead 10 ba "hub:443" pkt') = offer (b_bufSize ba) [7; 7]%Z (b_RecvCh ba).
Proof.
  cbv zeta.
  pose proof (tunnel_over_relay tn_hub "A:m" 3 3 2 tn_A tn_C "hub:443" "agent:7" "client:9" tn_bind tn_bind 1 2) as E.
  destruct (upgradeAt tn_hub "hub:443" "client:9" tn_C 1 tn_bind) as [[o1 k1] bc] eqn:E1. cbv zeta in E.
  destruct (upgradeAt (snd (relayDatagram tn_hub "client:9" (tn_C ++ probeWord))) "hub:443" "agent:7" tn_A 2 tn_bind)
    as [[o2 k2] ba].
  destruct E as (_ & _ & E & _).
  - apply tn_token; by vm_compute.
  - apply tn_token; by vm_compute.
  - discriminate.
  - split; by vm_compute.
  - apply E; [|cbn; lia]. vm_compute in E1. injection E1 as _ _ <-. split_and!; by vm_compute.
Defined.

Definition tn_store : authStore := newAuthStore None.
Definition tn_senv : senv authStore :=
  SEnv 1 tn_store (UpdateConfig "" ∅) "u" [] [] (BridgePeer false (ConnectionState [] []) 9 false []).

Lemma tunnel_over_websocket_witness :
  exists pkt pkt' b1, Send tn_env tn_bind [[7; 7]%Z] = ([WSOut true pkt], true, b1) /\
     handleFrame ∅ tn_senv tn_hub 2 (WsFrame true pkt None BodyEmpty) =
       ([SessionState.Send 3%nat (MRaw true pkt')], tn_hub, true) /\
     b_RecvCh (snd (wsBinary tn_bind pkt')) = [[7; 7]%Z].
Proof.
  destruct (tunnel_over_websocket ∅ tn_senv tn_env tn_hub 2 3 (pair_ws 3 newWsState) (pair_ws 2 newWsState)
    tn_bind tn_bind [7; 7]%Z) as [E _]; try reflexivity. exact E.
Defined.

(** The states the other theorems start from are reached. *)
Definition tn_upgraded : bind := snd (upgradeAt tn_hub "hub:443" "client:9" tn_C 1 tn_bind).

Lemma tn_reached : rtc bind_step (New [0; 0; 1; 0]%Z 4) tn_upgraded.
Proof.
  eapply rtc_l; [apply bs_open|]. eapply rtc_l; [|apply rtc_refl].
  apply (bs_upgrade (UpgradeEnv (Some "hub:443") true true (hubReply tn_hub "client:9" (tn_C ++ probeWord)) 1)).
Qed.

Lemma bind_inv_reachable_witness : bind_ok tn_upgraded.
Proof. apply (bind_inv_reachable [0; 0; 1; 0]%Z 4), tn_reached. Defined.

(** A socket that takes nothing: the datagram goes over the WebSocket, and the relay is given up. *)
Definition tn_dead : bindEnv := BindEnv 9 (fun _ => false) (fun _ => true).

Lemma send_falls_back_witness :
  exists out b', Send tn_dead tn_upgraded [[7]%Z] = (out, true, b') /\
    sent_by tn_dead tn_upgraded [[7]%Z] out true b' /\ b_udpActive b' = false.
Proof.
  destruct (Send tn_dead tn_upgraded [[7]%Z]) as [[out ok] b'] eqn:E. exists out, b'.
  pose proof (send_falls_back tn_dead tn_upgraded [[7]%Z] out ok b') as T.
  assert (ok = true /\ b_udpActive b' = false) as [-> Hoff].
  { vm_compute in E. injection E as _ <- <-. split; reflexivity. }
  split_and!; [reflexivity| |exact Hoff]. apply T; [|exact E].
  split; vm_compute; try lia; try discriminate; try done. intros _. by eauto.
Defined.

(** Six bytes from anywhere redirect an active direct path: nothing checks who sent the probe, and
    the datagrams that follow go to its sender without an error. *)
Example punch_redirects :
  let b := set_direct tn_upgraded (Some "peer:5") true in
  let b := udpRead 8 b "stranger:1" directProbeMsg in
  exists pkt, fst (fst (Send tn_env b [[7]%Z])) = [UDPOut "stranger:1" pkt] /\ b_directAddr b = Some "stranger:1".
Proof. cbv zeta. eexists. split; vm_compute; reflexivity. Qed.

(** A control frame with a reserved bit set is taken for a datagram. *)
Example reserved_bit_is_data :
  b_RecvCh (snd (wsBinary tn_bind (BuildFrame 3 [1%Z] 7 0))) = [[1%Z]].
Proof. by vm_compute. Qed.

(** The data keepalive is not relayed to the peer: the hub drops it. *)
Example data_keepalive_dropped :
  handleFrame ∅ tn_senv tn_hub 2
    (WsFrame false (z_bytes "{" ++ [34%Z] ++ z_bytes "type" ++ [34%Z] ++ z_bytes ":" ++ keepaliveText ++ z_bytes "}")
       None BodyEmpty) = ([], tn_hub, true).
Proof. by vm_compute. Qed.
