(* ===== verification/ChannelHost.v ===== *)
(** * Hosting release channels ([internal/hub/channels_admin.go], [channels_publish.go],
    [channels_server.go])

    The hub stores uploaded binaries under its data directory, hashes them into a channel's manifest,
    and serves both.  Handlers are functions of the hub's configuration, the file system and the
    request; [encoding/json] on manifests is a codec whose law is that a document decodes to what
    was encoded.  A body is the bytes the client sends, with whether it breaks off. *)

From S2P Require Import Prelude Auth Http HubConfig AdminState Sha256 Channel FilePath FileSys.
From Stdlib Require Import ZArith Lia Ascii String.
From stdpp Require Import base sorting gmap strings list fin_maps.

Class ManifestCodec := {
  MarshalIndent : Manifest -> option (list Z);
  UnmarshalManifest : list Z -> option Manifest;
  unmarshal_manifest m d : MarshalIndent m = Some d -> UnmarshalManifest (d ++ [10%Z]) = Some m
}.

(** What a handler writes. *)
Inductive hostReply :=
  | HsNoContent
  | HsError (code : Z) (message : string)
  | HsUploaded (channel name : string) (size : Z) (path : string)
  | HsPublished (m : Manifest) (manifestPath : string)
  | HsHealth
  | HsManifest (data : list Z)
  | HsFile (data : list Z) (immutable : bool)
  | HsListing (names : list (string * bool)) (immutable : bool)
  | HsRedirect (to : string).

(** The failures of one request: of the calls by name, and the body. *)
Record hostEnv := HostEnv {
  he_fault : string -> bool;
  he_short : nat;                (** how much of a failing write reaches the file *)
  he_body : list Z;
  he_broken : bool               (** reading the body fails at its end *)
}.

Definition maxChannelFileSize : Z := 500 * 1024 * 1024.

Definition is_alnum (c : ascii) : bool := is_lower c || is_digit c || is_upper c.
(** The regular expression [^[A-Za-z0-9][A-Za-z0-9._-]*$]. *)
Definition channelFileNameOK (name : string) : bool :=
  match bytes name with
  | [] => false
  | c :: l => is_alnum c && forallb (fun c => is_alnum c || Ascii.eqb c "." || Ascii.eqb c "_" || Ascii.eqb c "-") l
  end.

Definition cfg_channels (st : hubState) : channelsConfig := hc_Channels (globalCfg st).

(** ** Uploading *)

(** From the temporary file on; the deferred [os.Remove] comes last, whatever happened. *)
Definition storeUpload (he : hostEnv) (fs : fsys) (tmpPath dstPath : string) : option (Z * string) * fsys :=
  if he_fault he "open" then (Some (500, "open temp")%Z, fs)
  else match WriteFile fs tmpPath [] with
  | None => (Some (500, "open temp")%Z, fs)
  | Some fs =>
      let cleanup fs := default fs (Remove fs tmpPath) in
      let tooLarge := (maxChannelFileSize <? Z.of_nat (length (he_body he)))%Z in
      if tooLarge || he_broken he || he_fault he "write" then
        let fs := default fs (WriteFile fs tmpPath (take (he_short he) (he_body he))) in
        (Some (if he_fault he "write" then (500, "write body")
               else if tooLarge then (413, "file exceeds the limit") else (500, "write body"))%Z, cleanup fs)
      else
        let fs := default fs (WriteFile fs tmpPath (he_body he)) in
        if he_fault he "sync" then (Some (500, "sync temp")%Z, cleanup fs)
        else if he_fault he "close" then (Some (500, "close temp")%Z, cleanup fs)
        else match (if he_fault he "rename" then None else Rename fs tmpPath dstPath) with
             | None => (Some (500, "rename")%Z, cleanup fs)
             | Some fs => (None, cleanup fs)
             end
  end.

Definition handleAdminChannelsFiles (env : environ) (st : hubState) (he : hostEnv) (fs : fsys) (r : request)
    : hostReply * fsys :=
  if r_Method r =s "OPTIONS" then (HsNoContent, fs)
  else if r_Method r <>s "PUT" then (HsError 405 "method not allowed; use PUT", fs)
  else match requireOwnerOrAdmin env st r with
  | None => (HsError 403 "forbidden", fs)
  | Some _ =>
      match cut (trim_prefix (r_Path r) "/api/admin/channels/files/") "/" with
      | None => (HsError 400 "expected /api/admin/channels/files/{channel}/{name}", fs)
      | Some (channelName, name) =>
          if (channelName =s "") || (name =s "") then
            (HsError 400 "expected /api/admin/channels/files/{channel}/{name}", fs)
          else if negb (IsValid channelName) then (HsError 400 "invalid channel name", fs)
          else if negb (channelFileNameOK name) then (HsError 400 "invalid file name", fs)
          else if negb (cc_Enabled (cfg_channels st)) then (HsError 409 "channels.enabled is false", fs)
          else if cc_Data (cfg_channels st) =s "" then (HsError 500 "channels.data is not configured", fs)
          else
            let filesDir := FilePath.Join (FilePath.Join (cc_Data (cfg_channels st)) "files") channelName in
            let '(ok, fs) := MkdirAll fs filesDir in
            if he_fault he "mkdirall" || negb ok then (HsError 500 "create files dir", fs)
            else
              let dstPath := FilePath.Join filesDir name in
              match storeUpload he fs (dstPath +:+ ".tmp") dstPath with
              | (Some (code, msg), fs) => (HsError code msg, fs)
              | (None, fs) => (HsUploaded channelName name (Z.of_nat (length (he_body he))) dstPath, fs)
              end
      end
  end.

(** ** Publishing *)

Definition hashChannelFile (fs : fsys) (path : string) : option (string * Z) :=
  match OpenRead fs path with
  | Some d => Some (of_bytes (hex_encode (sha256 d)), Z.of_nat (length d))
  | None => None
  end.

Inductive publishError :=
  | PeReadDir | PeHash (name : string) | PeNoFiles | PeValidate (e : manifestError) | PeMarshal
  | PeMkdir | PeWrite.

Section publish.
  Context `{RangeOrder} {MC : ManifestCodec}.

(** The loop over the directory entries. *)
Fixpoint hashAll (fs : fsys) (filesDir : string) (entries : list (string * node)) (binaries : gmap string BinaryEntry)
    : string + gmap string BinaryEntry :=
  match entries with
  | [] => inr binaries
  | (_, NDir) :: entries => hashAll fs filesDir entries binaries
  | (name, _) :: entries =>
      match hashChannelFile fs (FilePath.Join filesDir name) with
      | None => inl name
      | Some (sha, size) => hashAll fs filesDir entries (<[name := MkBinaryEntry sha size]> binaries)
      end
  end.

Definition publishChannelManifest (now : Z) (fault : saveEnv) (fs : fsys)
    (dataDir channelName tag downloadBase : string) : (publishError + Manifest * string) * fsys :=
  let filesDir := FilePath.Join (FilePath.Join dataDir "files") channelName in
  match (if se_fault fault "readdir" then None else ReadDir fs filesDir) with
  | None => (inl PeReadDir, fs)
  | Some entries =>
      match hashAll fs filesDir entries ∅ with
      | inl name => (inl (PeHash name), fs)
      | inr binaries =>
          if bool_decide (size binaries = 0%nat) then (inl PeNoFiles, fs)
          else
            let m := MkManifest channelName tag tag now downloadBase binaries in
            match Validate (Some m) with
            | Some e => (inl (PeValidate e), fs)
            | None =>
                match MarshalIndent m with
                | None => (inl PeMarshal, fs)
                | Some out =>
                    let out := out ++ [10%Z] in
                    let '(ok, fs) := MkdirAll fs dataDir in
                    if se_fault fault "mkdirall" || negb ok then (inl PeMkdir, fs)
                    else
                      let manifestPath := FilePath.Join dataDir (channelName +:+ ".json") in
                      if se_fault fault "open" then (inl PeWrite, fs)
                      else match WriteFile fs manifestPath
                                   (if se_fault fault "write" then take (se_short fault) out else out) with
                           | None => (inl PeWrite, fs)
                           | Some fs => (if se_fault fault "write" then inl PeWrite else inr (m, manifestPath), fs)
                           end
                end
            end
      end
  end.

(** The message of [err.Error()] is shortened to its kind. *)
Definition publishMessage (e : publishError) : string :=
  match e with
  | PeReadDir => "read files dir" | PeHash name => "hash " +:+ name | PeNoFiles => "no files found"
  | PeValidate _ => "manifest validation" | PeMarshal => "marshal manifest"
  | PeMkdir => "create data dir" | PeWrite => "write manifest"
  end.

Definition downloadBaseOf (publicBase channelName : string) : string :=
  trim_slashes publicBase +:+ "/files/" +:+ channelName +:+ "/".

Definition handleAdminChannelsPublish (env : environ) (fault : saveEnv) (st : hubState) (fs : fsys) (r : request)
    : hostReply * fsys :=
  if r_Method r =s "OPTIONS" then (HsNoContent, fs)
  else if r_Method r <>s "POST" then (HsError 405 "method not allowed; use POST", fs)
  else match requireOwnerOrAdmin env st r with
  | None => (HsError 403 "forbidden", fs)
  | Some _ =>
      match json_fields (r_Body r) with
      | None => (HsError 400 "invalid JSON", fs)
      | Some kvs =>
          let '(channel, ok1) := decode_string "channel" kvs "" true in
          let '(tag, ok2) := decode_string "tag" kvs "" true in
          let '(baseURL, ok3) := decode_string "baseUrl" kvs "" true in
          if negb (ok1 && ok2 && ok3) then (HsError 400 "invalid JSON", fs)
          else
            let channel := trim_space (to_lower channel) in
            let tag := trim_space tag in
            if tag =s "" then (HsError 400 "tag is required", fs)
            else if negb (IsValid channel) then (HsError 400 "invalid channel name", fs)
            else if negb (cc_Enabled (cfg_channels st)) then (HsError 409 "channels.enabled is false", fs)
            else if cc_Data (cfg_channels st) =s "" then (HsError 500 "channels.data is not configured", fs)
            else
              let publicBase :=
                if trim_space baseURL =s "" then cc_PublicURL (cfg_channels st) else trim_space baseURL in
              if publicBase =s "" then
                (HsError 400 "channels.publicURL is not configured and no baseUrl override was supplied", fs)
              else match publishChannelManifest (env_now env) fault fs (cc_Data (cfg_channels st)) channel tag
                           (downloadBaseOf publicBase channel) with
                   | (inl e, fs) => (HsError 500 (publishMessage e), fs)
                   | (inr (m, path), fs) => (HsPublished m path, fs)
                   end
      end
  end.

End publish.

(** ** Serving *)

(** [http.FileServer] behind [http.StripPrefix]: the path below the prefix, made rooted and cleaned,
    is opened below the root. *)
Definition openBelow (fs : fsys) (root p : string) : walked :=
  resolve fs (FilePath.Join root (Clean p)) true.

Definition last_byte_slash (p : string) : bool := has_suffix p "/".

Definition fileServer (fs : fsys) (root path : string) (immutable : bool) : hostReply :=
  let path := if has_prefix path "/" then path else "/" +:+ path in
  if has_suffix path "/index.html" then HsRedirect "./"
  else match openBelow fs root path with
  | WFound p NDir =>
      if negb (last_byte_slash path) then HsRedirect (Base path +:+ "/")
      else match openBelow fs root (trim_slashes (Clean path) +:+ "/index.html") with
           | WFound _ (NFile d) => HsFile d immutable
           | _ => HsListing (map (fun en => (fst en, match snd en with NDir => true | _ => false end))
                               (default [] (ReadDir fs (abs p)))) immutable
           end
  | WFound _ (NFile d) =>
      if last_byte_slash path then HsRedirect ("../" +:+ Base path) else HsFile d immutable
  | WFound _ _ => HsError 500 "500 Internal Server Error"
  | WMissing _ | WNotExist | WError => HsError 404 "404 page not found"
  end.

Definition notFound : hostReply := HsError 404 "404 page not found".

Definition serveChannelFiles (fs : fsys) (path dataDir : string) : hostReply :=
  let filesDir := FilePath.Join dataDir "files" in
  let rel := trim_prefix (trim_prefix path "/channels/files/") "/" in
  let immutable := match Stat fs (FilePath.Join filesDir rel) with
                   | SInfo NDir => false | SInfo _ => true | _ => false end in
  if has_prefix path "/channels/files/" then fileServer fs filesDir (trim_prefix path "/channels/files/") immutable
  else notFound.

Definition serveChannelManifest (fs : fsys) (dataDir name : string) : hostReply :=
  let path := FilePath.Join dataDir (name +:+ ".json") in
  match Stat fs path with
  | SInfo NDir | SNotExist | SErr => notFound
  | SInfo _ => match OpenRead fs path with Some d => HsManifest d | None => HsError 500 "500 Internal Server Error" end
  end.

Definition handleChannels (st : hubState) (fs : fsys) (r : request) : hostReply :=
  if r_Method r =s "OPTIONS" then HsNoContent
  else if (r_Method r <>s "GET") && (r_Method r <>s "HEAD") then HsError 405 "method not allowed"
  else
    let rest := trim_prefix (r_Path r) "/channels" in
    if (rest =s "") || (rest =s "/") then HsHealth
    else
      let rest := trim_prefix rest "/" in
      let dataDir := cc_Data (cfg_channels st) in
      if dataDir =s "" then HsError 500 "channels.data not configured"
      else if (rest =s "files") || has_prefix rest "files/" then serveChannelFiles fs (r_Path r) dataDir
      else if has_suffix rest ".json" && negb (existsb (Ascii.eqb "/") (bytes rest)) then
        let name := trim_suffix rest ".json" in
        if negb (IsValid name) then notFound else serveChannelManifest fs dataDir name
      else notFound.
