(* ===== verification/ChannelHostProofs.v ===== *)
(** * Hosted channels keep their promises

    An upload replaces one file, whole or not at all; a published manifest lists exactly the files
    of its channel; what is served lies in the data directory; and an uploaded, published binary is
    one that the updaters accept.

    The last part evaluates an upload and a publish. *)

From S2P Require Import Prelude Auth Http HubConfig AdminState Sha256 Channel FilePath FileSys ChannelHost AdminTokens.
From Stdlib Require Import ZArith Lia Ascii String.
From stdpp Require Import base countable sorting gmap strings list fin_maps.

(** ** Names *)

Lemma slashless s : bool_decide (("/"%char : ascii) ∈ bytes s) = false -> forall b, b ∈ bytes s -> b <> "/"%char.
Proof. intros H b Hb ->. apply bool_decide_eq_false_1 in H. done. Qed.

Lemma good_elem_bytes (ok : ascii -> bool) e :
  e <> "" -> (forall c, c ∈ bytes e -> ok c = true) -> ok "/"%char = false ->
  (exists c, c ∈ bytes e /\ c <> "."%char) -> good_elem e.
Proof.
  intros Hne Hok Hs (c & Hc & Hd). split_and!; [done|..].
  - intros ->. apply list_elem_of_singleton in Hc. done.
  - intros ->. change (bytes "..") with ["."%char; "."%char] in Hc. rewrite !elem_of_cons, elem_of_nil in Hc. naive_solver.
  - intros Hin. apply Hok in Hin. congruence.
Qed.

Lemma nonempty_bytes s : s <> "" -> exists c l, bytes s = c :: l.
Proof.
  intros Hne. destruct (bytes s) as [|c l] eqn:E; [|by eauto].
  destruct Hne. by rewrite <- (of_bytes_bytes s), E.
Qed.

Lemma IsValid_nonempty c : IsValid c = true -> c <> "".
Proof. by intros H ->. Qed.

Lemma channel_suffix_good c s :
  IsValid c = true -> (forall b, b ∈ bytes s -> b <> "/"%char) -> good_elem (c +:+ s).
Proof.
  intros Hv Hs. destruct (nonempty_bytes c (IsValid_nonempty c Hv)) as (b & l & Hb).
  assert (forall x, x ∈ bytes c -> channel_byte x = true) as Hc by (intros x; by apply IsValid_byte).
  apply (good_elem_bytes (fun x => negb (Ascii.eqb x "/"))).
  - intros E. apply (f_equal bytes) in E. rewrite bytes_app, Hb in E. done.
  - intros x Hx. rewrite bytes_app, elem_of_app in Hx. apply negb_true_iff, Ascii.eqb_neq. destruct Hx as [Hx|Hx]; [|by apply Hs].
    intros ->. apply Hc in Hx. done.
  - done.
  - exists b. split; [rewrite bytes_app, Hb; by left|]. intros ->.
    assert (channel_byte "." = true); [apply Hc; rewrite Hb; by left|done].
Qed.

Lemma channel_good c : IsValid c = true -> good_elem c.
Proof.
  intros Hv. pose proof (channel_suffix_good c "" Hv) as H.
  assert (c +:+ "" = c) as E by (apply bytes_inj; by rewrite bytes_app, app_nil_r).
  rewrite E in H. apply H. intros b Hb. by apply elem_of_nil in Hb.
Qed.

Lemma manifest_name_good c : IsValid c = true -> good_elem (c +:+ ".json").
Proof. intros Hv. apply channel_suffix_good; [done|]. by apply slashless. Qed.

Lemma file_name_good n s :
  channelFileNameOK n = true -> (forall b, b ∈ bytes s -> b <> "/"%char) -> good_elem (n +:+ s).
Proof.
  unfold channelFileNameOK. destruct (bytes n) as [|c l] eqn:Hb; [done|]. intros [Hc Hl]%andb_true_iff Hs.
  rewrite forallb_forall in Hl.
  apply (good_elem_bytes (fun x => negb (Ascii.eqb x "/"))).
  - intros E. apply (f_equal bytes) in E. rewrite bytes_app, Hb in E. done.
  - intros x Hx. rewrite bytes_app, Hb in Hx. apply negb_true_iff, Ascii.eqb_neq. intros ->.
    apply elem_of_app in Hx as [[<-|Hx]%elem_of_cons|Hx]; [done| |by apply (Hs _ Hx)].
    apply list_elem_of_In, Hl in Hx. done.
  - done.
  - exists c. split; [rewrite bytes_app, Hb; by left|]. intros ->. done.
Qed.

Lemma abs_snoc_app es e s : abs (es ++ [e]) +:+ s = abs (es ++ [e +:+ s]).
Proof. rewrite !abs_snoc. by rewrite !string_app_assoc. Qed.

Lemma Join_abs ds es : good_elems ds -> good_elems es -> FilePath.Join (abs ds) (abs es) = abs (ds ++ es).
Proof.
  intros Hd He. rewrite <- (Clean_abs es) by done. rewrite Join_plain; [by rewrite real_elems_abs|done|by apply dots_split_abs].
Qed.

Lemma string_app_nil s : s +:+ "" = s.
Proof. apply bytes_inj. by rewrite bytes_app, app_nil_r. Qed.

(** ** Uploading *)

Section upload.
  Context (D : ppath) (n : string).
  Context (Hn : good_elems (D ++ [n])) (Ht : good_elems (D ++ [n +:+ ".tmp"])).

Lemma tmp_ne : n +:+ ".tmp" <> n.
Proof.
  intros E. apply (f_equal (fun s => length (bytes s))) in E. rewrite bytes_app, length_app in E. cbn in E. lia.
Qed.

(** What an upload may change, and its two outcomes. *)
Record uploaded (he : hostEnv) (fs : fsys) (failed : bool) (fs' : fsys) : Prop := {
  up_dst : fs' !! (D ++ [n]) = if failed then fs !! (D ++ [n]) else Some (NFile (he_body he));
  up_tmp : fs' = fs \/ fs' !! (D ++ [n +:+ ".tmp"]) = None;
  up_rest : forall k, ~ D ++ [n] `prefix_of` k -> ~ D ++ [n +:+ ".tmp"] `prefix_of` k -> fs' !! k = fs !! k;
  up_whole : failed = false -> (Z.of_nat (length (he_body he)) <= maxChannelFileSize)%Z /\ he_broken he = false
}.

Lemma abandoned he fs d :
  dir_at D fs -> plain_slot (D ++ [n]) fs ->
  let fs1 := <[D ++ [n +:+ ".tmp"] := NFile d]> fs in
  uploaded he fs true (default fs1 (Remove fs1 (abs (D ++ [n +:+ ".tmp"])))).
Proof.
  intros Hd Hs fs1. pose proof tmp_ne as Hne.
  assert (D ++ [n] <> D ++ [n +:+ ".tmp"]) as Hp by (intros E%child_inj; congruence).
  rewrite (Remove_child D (n +:+ ".tmp") Ht fs1 d); [|by apply dir_at_insert|apply lookup_insert_eq].
  cbn [default from_option id]. unfold fs1. rewrite delete_insert_eq. split; [|right; apply lookup_delete_eq| |done].
  - rewrite lookup_delete_ne by done. done.
  - intros k _ Hk. rewrite lookup_delete_ne; [done|]. intros <-. by apply Hk.
Qed.

Lemma storeUpload_spec he fs res fs' :
  dir_at D fs -> plain_slot (D ++ [n]) fs -> plain_slot (D ++ [n +:+ ".tmp"]) fs ->
  storeUpload he fs (abs (D ++ [n +:+ ".tmp"])) (abs (D ++ [n])) = (res, fs') ->
  uploaded he fs (bool_decide (is_Some res)) fs'.
Proof.
  intros Hd Hs Hst. unfold storeUpload. set (T := D ++ [n +:+ ".tmp"]) in *.
  assert (uploaded he fs true fs) as Hnone by (split; [done|by left|done|done]).
  destruct (he_fault he "open"); [by intros [= <- <-]|].
  assert (WriteFile fs (abs T) [] = Some (<[T := NFile []]> fs)) as -> by (by apply WriteFile_child).
  set (fs1 := <[T := NFile []]> fs).
  assert (dir_at D fs1 /\ forall d, default fs1 (WriteFile fs1 (abs T) d) = <[T := NFile d]> fs) as [Hd1 Hw].
  { split; [by apply dir_at_insert|]. intros d. unfold T.
    rewrite WriteFile_child; [|done|by apply dir_at_insert|apply plain_slot_file]. cbn. apply insert_insert_eq. }
  destruct (_ || _) eqn:Hbad.
  { intros [= <- <-]. rewrite Hw. by apply abandoned. }
  apply orb_false_iff in Hbad as [[Hlarge Hbr]%orb_false_iff _]. rewrite Hw.
  destruct (he_fault he "sync"); [intros [= <- <-]; by apply abandoned|].
  destruct (he_fault he "close"); [intros [= <- <-]; by apply abandoned|].
  set (fs2 := <[T := NFile (he_body he)]> fs).
  destruct (he_fault he "rename"); [intros [= <- <-]; by apply abandoned|].
  change (abs T) with (abs (D ++ [n +:+ ".tmp"])).
  destruct (Rename_child D n (n +:+ ".tmp") fs2 (he_body he)) as (fs3 & -> & H1 & H2 & H3); try done.
  - apply tmp_ne.
  - by apply dir_at_insert.
  - apply plain_slot_insert_ne; [|done]. intros E. by apply tmp_ne.
  - apply lookup_insert_eq.
  - assert (Remove fs3 (abs (D ++ [n +:+ ".tmp"])) = None) as ->.
    { unfold Remove. rewrite resolve_child; [by rewrite H2|done| |by left].
      intros q Hq Hp. rewrite H3; [by apply dir_at_insert| |]; intros [k ->]; destruct Hp as [k' E];
        apply (f_equal length) in E; rewrite !length_app in E; cbn in E; lia. }
    intros [= <- <-]. cbn [default from_option id].
    split; [exact H1|right; exact H2| |].
    + intros k Hk1 Hk2. rewrite H3 by done. unfold fs2. rewrite lookup_insert_ne; [done|]. intros <-. by apply Hk2.
    + intros _. apply Z.ltb_ge in Hlarge. done.
Qed.

End upload.

(** ** The upload handler *)

(** The directory of a channel, below the data directory at [ds]. *)
Definition filesAt (ds : ppath) (c : string) : ppath := ds ++ ["files"; c].

(** The data directory is configured and the channel's directory exists; what stands where the
    upload writes is nothing or a regular file. *)
Record host_ok (st : hubState) (ds : ppath) (c : string) (fs : fsys) : Prop := {
  ho_data : cc_Data (cfg_channels st) = abs ds;
  ho_good : good_elems ds;
  ho_dir : dir_at (filesAt ds c) fs
}.

Lemma filesDir_abs ds c :
  good_elems ds -> IsValid c = true ->
  FilePath.Join (FilePath.Join (abs ds) "files") c = abs (filesAt ds c) /\ good_elems (filesAt ds c).
Proof.
  intros Hg Hc. assert (good_elem "files") as Hf.
  { split_and!; try done. by apply (bool_decide_eq_false_1 ("/"%char ∈ bytes "files")). }
  assert (good_elems (filesAt ds c)) as Hg2.
  { unfold filesAt. apply Forall_app. split; [done|]. apply Forall_cons; split; [done|]. by apply Forall_singleton, channel_good. }
  split; [|done]. rewrite Join_elem by done. unfold filesAt.
  rewrite Join_elem; [by rewrite <- app_assoc|apply Forall_app; split; [done|by apply Forall_singleton]|by apply channel_good].
Qed.

Lemma cut_channel c n : IsValid c = true -> cut (c +:+ "/" +:+ n) "/" = Some (c, n).
Proof.
  intros Hc. assert (("/"%char : ascii) ∉ bytes c) as Hs by (by apply (channel_good c Hc)).
  unfold cut. rewrite !bytes_app. change (bytes "/") with ["/"%char : ascii].
  assert (cut_bytes ["/"%char] (bytes c ++ ["/"%char] ++ bytes n) = Some (bytes c, bytes n)) as ->.
  { induction (bytes c) as [|x l IH]; [done|]. rewrite not_elem_of_cons in Hs. destruct Hs as [Hx Hs].
    cbn [app cut_bytes drop_prefix]. rewrite (proj2 (Ascii.eqb_neq _ _)) by done. cbn [app] in IH. by rewrite IH. }
  by rewrite !of_bytes_bytes.
Qed.

Lemma upload_outcome env st he ds fs r c n rep fs' :
  host_ok st ds c fs -> plain_slot (filesAt ds c ++ [n]) fs -> plain_slot (filesAt ds c ++ [n +:+ ".tmp"]) fs ->
  r_Path r = "/api/admin/channels/files/" +:+ c +:+ "/" +:+ n -> IsValid c = true ->
  handleAdminChannelsFiles env st he fs r = (rep, fs') ->
  match rep with
  | HsUploaded c' n' size path =>
      c' = c /\ n' = n /\ requireOwnerOrAdmin env st r <> None /\ channelFileNameOK n = true /\
      cc_Enabled (cfg_channels st) = true /\ path = abs (filesAt ds c ++ [n]) /\
      size = Z.of_nat (length (he_body he)) /\ uploaded (filesAt ds c) n he fs false fs'
  | _ => uploaded (filesAt ds c) n he fs true fs'
  end.
Proof.
  intros [Hdata Hg Hd] Hs1 Hs2 Hpath Hc. unfold handleAdminChannelsFiles.
  assert (uploaded (filesAt ds c) n he fs true fs) as Hnone by (split; [done|by left|done|done]).
  destruct (r_Method r =s "OPTIONS"); [by intros [= <- <-]|].
  destruct (negb (r_Method r =s "PUT")); [by intros [= <- <-]|].
  destruct (requireOwnerOrAdmin env st r) as [who|] eqn:Hwho; [|by intros [= <- <-]].
  rewrite Hpath, trim_prefix_app, cut_channel by done.
  destruct (bool_decide_reflect (c = "")) as [->|_]; [done|]. cbn [orb].
  destruct (n =s ""); [by intros [= <- <-]|]. rewrite Hc. cbn [negb].
  destruct (channelFileNameOK n) eqn:Hn; [|by intros [= <- <-]]. cbn [negb].
  destruct (cc_Enabled (cfg_channels st)) eqn:Hen; [|by intros [= <- <-]]. cbn [negb].
  destruct (bool_decide (cc_Data (cfg_channels st) = "")); [by intros [= <- <-]|].
  rewrite Hdata. destruct (filesDir_abs ds c Hg Hc) as [-> Hgf].
  rewrite MkdirAll_present by done. destruct (he_fault he "mkdirall"); [by intros [= <- <-]|]. cbn [orb negb].
  assert (good_elem n) as Hgn.
  { rewrite <- (string_app_nil n). apply file_name_good; [done|]. intros b Hb. by apply elem_of_nil in Hb. }
  assert (good_elem (n +:+ ".tmp")) as Hgt by (apply file_name_good; [done|by apply slashless]).
  rewrite Join_elem, abs_snoc_app by done.
  destruct (storeUpload _ _ _ _) as [res fs2] eqn:Hup.
  apply (storeUpload_spec (filesAt ds c) n) in Hup; try done.
  2, 3: apply Forall_app; split; [done|by apply Forall_singleton].
  destruct res as [[code msg]|]; intros [= <- <-]; done.
Qed.

(** An upload is answered with success only for an owner or admin, with the bytes of the request
    as the file of that name in that channel; in every other case the file is what it was before.
    Nothing else changes but the temporary file beside it, which is gone afterwards. *)
Theorem upload_exact env st he ds fs r c n rep fs' :
  host_ok st ds c fs -> plain_slot (filesAt ds c ++ [n]) fs -> plain_slot (filesAt ds c ++ [n +:+ ".tmp"]) fs ->
  r_Path r = "/api/admin/channels/files/" +:+ c +:+ "/" +:+ n -> IsValid c = true ->
  handleAdminChannelsFiles env st he fs r = (rep, fs') ->
  match rep with
  | HsUploaded c' n' size path =>
      c' = c /\ n' = n /\ requireOwnerOrAdmin env st r <> None /\ channelFileNameOK n = true /\
      cc_Enabled (cfg_channels st) = true /\ path = abs (filesAt ds c ++ [n]) /\
      size = Z.of_nat (length (he_body he)) /\ uploaded (filesAt ds c) n he fs false fs'
  | _ => uploaded (filesAt ds c) n he fs true fs'
  end.
Proof. apply upload_outcome. Qed.

(** ** Publishing *)

Section publish.
  Context `{RangeOrder} {MC : ManifestCodec}.

(** The binaries are the entries that are not directories, hashed. *)
Lemma hashAll_spec fs filesDir entries b0 b :
  hashAll fs filesDir entries b0 = inr b ->
  forall name,
    (exists n, (name, n) ∈ entries /\ n <> NDir) /\
      (exists sha size, hashChannelFile fs (FilePath.Join filesDir name) = Some (sha, size) /\
         b !! name = Some (MkBinaryEntry sha size)) \/
    (forall n, (name, n) ∈ entries -> n = NDir) /\ b !! name = b0 !! name.
Proof.
  revert b0. induction entries as [|[e nd] entries IH]; intros b0 Hb name.
  { injection Hb as ->. right. split; [|done]. intros n Hn. by apply elem_of_nil in Hn. }
  assert (nd = NDir /\ hashAll fs filesDir entries b0 = inr b \/
    nd <> NDir /\ exists sha size, hashChannelFile fs (FilePath.Join filesDir e) = Some (sha, size) /\
      hashAll fs filesDir entries (<[e := MkBinaryEntry sha size]> b0) = inr b) as [[-> Hr]|(Hnd & sha & size & Hh & Hr)].
  { destruct nd; cbn [hashAll] in Hb; [by left|..]; right; (split; [done|]);
      destruct (hashChannelFile _ _) as [[sha size]|]; try done; by eauto. }
  - destruct (IH _ Hr name) as [((n & Hin & Hn) & Hs)|[Hall E]].
    + left. split; [|done]. exists n. split; [by right|done].
    + right. split; [|done]. intros n [[= -> ->]|Hn]%elem_of_cons; [done|by apply Hall].
  - destruct (IH _ Hr name) as [((n & Hin & Hn) & Hs)|[Hall E]].
    + left. split; [|done]. exists n. split; [by right|done].
    + destruct (decide (name = e)) as [->|Hne].
      * left. split; [exists nd; split; [by left|done]|]. exists sha, size. split; [done|].
        by rewrite E, lookup_insert_eq.
      * right. split; [|by rewrite E, lookup_insert_ne]. intros n [[= -> ->]|Hn]%elem_of_cons; [done|by apply Hall].
Qed.

(** What a published manifest says of the files of its channel. *)
Definition lists_files (fs : fsys) (filesDir : ppath) (m : Manifest) : Prop :=
  forall name, match mf_Binaries m !! name with
  | Some entry => exists d, OpenRead fs (FilePath.Join (abs filesDir) name) = Some d /\
                    entry = MkBinaryEntry (of_bytes (hex_encode (sha256 d))) (Z.of_nat (length d))
  | None => fs !! (filesDir ++ [name]) = None \/ fs !! (filesDir ++ [name]) = Some NDir
  end.

Lemma hashAll_lists fs D b :
  good_elems D -> dir_at D fs ->
  hashAll fs (abs D) (merge_sort by_name (children fs D)) ∅ = inr b ->
  forall c v t now base, lists_files fs D (MkManifest c v t now base b).
Proof.
  intros Hg Hd Hb c v t now base name. cbn [mf_Binaries].
  destruct (hashAll_spec _ _ _ _ _ Hb name) as [(_ & sha & size & Hh & ->)|[Hall ->]].
  - unfold hashChannelFile in Hh. destruct (OpenRead _ _) as [d|]; [|done]. injection Hh as <- <-. by eexists.
  - rewrite lookup_empty. destruct (fs !! (D ++ [name])) as [n|] eqn:En; [|by left]. right.
    f_equal. apply Hall. rewrite merge_sort_Permutation. by apply elem_of_children.
Qed.

Lemma publish_outcome env fault st ds fs r m path fs' :
  cc_Data (cfg_channels st) = abs ds -> good_elems ds -> dir_at (filesAt ds (mf_Channel m)) fs ->
  plain_slot (ds ++ [mf_Channel m +:+ ".json"]) fs ->
  handleAdminChannelsPublish env fault st fs r = (HsPublished m path, fs') ->
  requireOwnerOrAdmin env st r <> None /\ Validate (Some m) = None /\
  lists_files fs (filesAt ds (mf_Channel m)) m /\
  (exists d, serveChannelManifest fs' (abs ds) (mf_Channel m) = HsManifest d /\ UnmarshalManifest d = Some m) /\
  (forall k, k <> ds ++ [mf_Channel m +:+ ".json"] -> fs' !! k = fs !! k) /\
  (exists base, mf_DownloadBase m = downloadBaseOf base (mf_Channel m)) /\ IsValid (mf_Channel m) = true.
Proof.
  intros Hdata Hg Hdir Hslot Hp. unfold handleAdminChannelsPublish in Hp.
  destruct (r_Method r =s "OPTIONS"); [done|]. destruct (negb (r_Method r =s "POST")); [done|].
  destruct (requireOwnerOrAdmin env st r) as [who|]; [|done].
  destruct (json_fields (r_Body r)) as [kvs|]; [|done].
  destruct (decode_string "channel" kvs "" true) as [ch ok1].
  destruct (decode_string "tag" kvs "" true) as [tg ok2].
  destruct (decode_string "baseUrl" kvs "" true) as [bu ok3].
  destruct (negb _); [done|]. destruct (trim_space tg =s ""); [done|].
  destruct (IsValid (trim_space (to_lower ch))) eqn:Hv; [|done]. cbn [negb] in Hp.
  destruct (negb (cc_Enabled _)); [done|]. destruct (bool_decide (cc_Data (cfg_channels st) = "")); [done|].
  set (base := if trim_space bu =s "" then _ else _) in Hp. destruct (base =s ""); [done|]. clearbody base.
  destruct (publishChannelManifest _ _ _ _ _ _ _) as [[e|[m' p']] fs2] eqn:Hpub; [done|].
  injection Hp as -> -> ->. split; [done|]. rewrite Hdata in Hpub. clear Hdata.
  unfold publishChannelManifest in Hpub.
  destruct (filesDir_abs ds _ Hg Hv) as [Ef Hgf]. rewrite Ef in Hpub.
  destruct (se_fault fault "readdir"); [done|].
  destruct (ReadDir fs (abs (filesAt ds _))) as [entries|] eqn:Hrd; [|done].
  destruct (hashAll _ _ entries ∅) as [nm|b] eqn:Hh; [done|].
  destruct (bool_decide (size b = 0%nat)); [done|].
  destruct (Validate _) as [e|] eqn:Hval; [done|].
  destruct (MarshalIndent _) as [out|] eqn:Hout; [|done].
  destruct (MkdirAll fs (abs ds)) as [ok fs1] eqn:Hmk. destruct (_ || negb ok) eqn:Hok; [done|].
  destruct (se_fault fault "open"); [done|].
  destruct (se_fault fault "write"); [by destruct (WriteFile _ _ _)|].
  destruct (WriteFile _ _ _) as [fs3|] eqn:Hw; [|done]. injection Hpub as <- <- <-. cbn [mf_Channel] in *.
  assert (dir_at ds fs) as Hd.
  { intros q Hq Hpre. apply Hdir; [done|]. etrans; [exact Hpre|]. by eexists. }
  rewrite MkdirAll_present in Hmk by done. injection Hmk as _ <-.
  set (c := trim_space (to_lower ch)) in *.
  assert (good_elem (c +:+ ".json")) as Hgj by (by apply manifest_name_good).
  rewrite Join_elem in Hw by done.
  assert (good_elems (ds ++ [c +:+ ".json"])) as Hgm by (apply Forall_app; split; [done|by apply Forall_singleton]).
  rewrite (WriteFile_child ds) in Hw by done. injection Hw as <-.
  rewrite ReadDir_present in Hrd by done. injection Hrd as <-.
  split_and!; [done|by eapply hashAll_lists| | |by eexists|done].
  - exists (out ++ [10%Z]). split; [|by eapply unmarshal_manifest].
    unfold serveChannelManifest. rewrite Join_elem by done. unfold Stat, OpenRead.
    rewrite resolve_child; [|done|by apply dir_at_insert|apply plain_slot_file].
    by rewrite lookup_insert_eq.
  - intros k Hk. by rewrite lookup_insert_ne.
Qed.

(** A publication that succeeds was asked for by an owner or admin; its manifest is valid, lists
    exactly the files of the channel's directory with their sizes and SHA-256 hashes, and is the one
    that the channel's URL then serves; nothing else of the file system changed. *)
Theorem publish_exact env fault st ds fs r m path fs' :
  cc_Data (cfg_channels st) = abs ds -> good_elems ds -> dir_at (filesAt ds (mf_Channel m)) fs ->
  plain_slot (ds ++ [mf_Channel m +:+ ".json"]) fs ->
  handleAdminChannelsPublish env fault st fs r = (HsPublished m path, fs') ->
  requireOwnerOrAdmin env st r <> None /\ Validate (Some m) = None /\
  lists_files fs (filesAt ds (mf_Channel m)) m /\
  (exists d, serveChannelManifest fs' (abs ds) (mf_Channel m) = HsManifest d /\ UnmarshalManifest d = Some m) /\
  (forall k, k <> ds ++ [mf_Channel m +:+ ".json"] -> fs' !! k = fs !! k).
Proof.
  intros Hdata Hg Hdir Hslot Hp.
  destruct (publish_outcome _ _ _ _ _ _ _ _ _ Hdata Hg Hdir Hslot Hp) as (? & ? & ? & ? & ? & _). done.
Qed.

End publish.

(** ** Serving *)

Lemma openBelow_abs fs root p :
  good_elems root -> has_prefix p "/" = true ->
  exists qs, good_elems qs /\ Clean p = abs qs /\ openBelow fs (abs root) p = resolve fs (abs (root ++ qs)) true.
Proof.
  intros Hg Hp. destruct (Clean_rooted p Hp) as (qs & Hq & E). exists qs. split_and!; [done..|].
  unfold openBelow. by rewrite E, Join_abs.
Qed.

(** A file the file server finds lies below its root. *)
Lemma openBelow_below fs root p q d :
  good_elems root -> plain_tree root fs -> has_prefix p "/" = true ->
  openBelow fs (abs root) p = WFound q (NFile d) ->
  exists qs, good_elems qs /\ fs !! (root ++ qs) = Some (NFile d).
Proof.
  intros Hg Hpl Hp Ho. destruct (openBelow_abs fs root p Hg Hp) as (qs & Hq & _ & E).
  rewrite E in Ho. exists qs. split; [done|].
  assert (good_elems (root ++ qs)) as Hgq by (by apply Forall_app).
  pose proof (resolve_lands root fs qs true Hpl Hgq) as Hl. rewrite Ho in Hl. destruct Hl as [-> Hn].
  unfold node_at in Hn. by destruct (root ++ qs).
Qed.

Lemma slash_prefix s : has_prefix ("/" +:+ s) "/" = true.
Proof. apply has_prefix_iff. by exists s. Qed.

Lemma fileServer_no_manifest fs root path im d : fileServer fs root path im <> HsManifest d.
Proof.
  unfold fileServer. set (p := if has_prefix path "/" then path else "/" +:+ path).
  destruct (has_suffix _ _); [done|]. destruct (openBelow fs root p) as [? []| | |]; try done.
  - destruct (negb _); [done|]. by destruct (openBelow fs root _) as [? []| | |].
  - by destruct (last_byte_slash _).
Qed.

(** The path of a directory's index. *)
Lemma index_rooted qs : has_prefix (trim_slashes (abs qs) +:+ "/index.html") "/" = true.
Proof.
  assert (forall l, drop_while is_slash (l ++ ["/"%char]) = [] \/
    exists y, drop_while is_slash (l ++ ["/"%char]) = y ++ ["/"%char]) as Hd.
  { intros l. induction l as [|x l IH]; [by left|]. cbn [app drop_while].
    destruct (is_slash x); [done|]. right. by exists (x :: l). }
  apply has_prefix_iff. unfold trim_slashes, trim_right_with, abs. rewrite bytes_app, rev_app_distr.
  change (rev (bytes "/")) with ["/"%char : ascii].
  destruct (Hd (rev (bytes (join_slash qs)))) as [-> |[y ->]].
  - by exists "index.html".
  - rewrite rev_app_distr. exists (of_bytes (rev y) +:+ "/index.html"). apply bytes_inj.
    by rewrite !bytes_app, !bytes_of_bytes.
Qed.

Lemma fileServer_below fs root path im d im' :
  good_elems root -> plain_tree root fs -> fileServer fs (abs root) path im = HsFile d im' ->
  exists qs, good_elems qs /\ fs !! (root ++ qs) = Some (NFile d).
Proof.
  intros Hg Hpl. unfold fileServer.
  set (p := if has_prefix path "/" then path else "/" +:+ path).
  assert (has_prefix p "/" = true) as Hp.
  { unfold p. destruct (has_prefix path "/") eqn:E; [done|apply slash_prefix]. }
  destruct (has_suffix p "/index.html"); [done|].
  destruct (openBelow fs (abs root) p) as [q [|dd|t|]| | |] eqn:Ho; try done.
  - destruct (negb _); [done|].
    destruct (openBelow fs (abs root) (trim_slashes (Clean p) +:+ "/index.html")) as [q2 [|dd|t|]| | |] eqn:Ho2; try done.
    intros [= <- _]. apply (openBelow_below fs root _ _ dd) in Ho2; [done..|].
    destruct (openBelow_abs fs root p Hg Hp) as (qs & _ & -> & _). by apply index_rooted.
  - destruct (last_byte_slash p); [done|]. intros [= <- _]. by apply (openBelow_below fs root p q dd).
Qed.

(** Whatever the request, what the channel endpoints serve is a file below the files directory of
    the data directory, or the manifest of a channel with a valid name; no path leads elsewhere, as
    long as no symbolic link was placed in the files directory. *)
Theorem served_confined st fs ds r :
  cc_Data (cfg_channels st) = abs ds -> good_elems ds -> plain_tree (ds ++ ["files"]) fs ->
  match handleChannels st fs r with
  | HsFile d _ => exists qs, good_elems qs /\ fs !! (ds ++ "files" :: qs) = Some (NFile d)
  | HsManifest d => exists c, IsValid c = true /\ OpenRead fs (abs (ds ++ [c +:+ ".json"])) = Some d
  | _ => True
  end.
Proof.
  intros Hdata Hg Hpl. unfold handleChannels.
  destruct (r_Method r =s "OPTIONS"); [done|]. destruct (_ && _); [done|].
  destruct (_ || _); [done|]. rewrite Hdata. destruct (abs ds =s ""); [done|].
  set (rest := trim_prefix _ "/").
  assert (good_elem "files") as Hf.
  { split_and!; try done. by apply (bool_decide_eq_false_1 ("/"%char ∈ bytes "files")). }
  destruct (_ || _).
  - unfold serveChannelFiles. rewrite Join_elem by done. destruct (has_prefix _ _); [|done].
    destruct (fileServer _ _ _ _) as [| | | | | |d im| |] eqn:Hs; try done; [by apply fileServer_no_manifest in Hs|].
    apply fileServer_below in Hs as (qs & Hq & Hd); [|apply Forall_app; split; [done|by apply Forall_singleton]|done].
    exists qs. split; [done|]. by rewrite <- app_assoc in Hd.
  - destruct (_ && _); [|done]. destruct (IsValid (trim_suffix rest ".json")) eqn:Hv; [|done]. cbn [negb].
    unfold serveChannelManifest. rewrite Join_elem by (done || by apply manifest_name_good).
    destruct (Stat _ _) as [[]| |]; try done;
      (destruct (OpenRead _ _) as [d|] eqn:Ho; [|done]; by exists (trim_suffix rest ".json")).
Qed.

(** ** From the upload to the updater *)

Definition get (path : string) : request := Request "GET" path "" None ∅ "" BodyEmpty.

Lemma upto_slash_inj s e r f :
  no_slash e -> no_slash f -> s +:+ "/" +:+ e = r +:+ "/" +:+ f -> s = r /\ e = f.
Proof.
  intros He Hf E. assert (s +:+ "/" = r +:+ "/") as Es.
  { rewrite <- (upto_slash_app s e He), E. by apply upto_slash_app. }
  split.
  - apply bytes_inj. apply (f_equal bytes) in Es. rewrite !bytes_app in Es. by apply app_inv_tail in Es.
  - apply bytes_inj. apply (f_equal bytes) in E. apply (f_equal bytes) in Es. rewrite !bytes_app in *.
    rewrite !app_assoc, Es in E. by apply app_inv_head in E.
Qed.

Lemma Join_two ds c n :
  good_elems ds -> good_elem c -> good_elem n -> FilePath.Join (abs ds) (c +:+ "/" +:+ n) = abs (ds ++ [c; n]).
Proof.
  intros Hg Hc Hn. assert (good_elems [c; n]) as Hcn by (apply Forall_cons; split; [done|by apply Forall_singleton]).
  assert (c +:+ "/" +:+ n = join_slash [c; n]) as -> by done.
  assert (split_slash (join_slash [c; n]) = [c; n]) as Es by (apply split_join; [done|by apply good_no_slash]).
  unfold FilePath.Join. rewrite bool_decide_false by apply abs_nonempty.
  rewrite Clean_plain; [|apply rooted_app, rooted_abs|].
  - rewrite real_elems_app, real_elems_abs by done. unfold real_elems. by rewrite Es, filter_good.
  - rewrite split_slash_app, elem_of_app, Es. intros [?|Hin]; [by apply (dots_split_abs ds)|].
    by apply (good_no_dots [c; n]).
Qed.

(** The file server on a file of a channel. *)
Lemma serve_file fs ds c n d :
  good_elems ds -> IsValid c = true -> good_elem n -> n <> "index.html" -> dir_at (filesAt ds c) fs ->
  fs !! (filesAt ds c ++ [n]) = Some (NFile d) ->
  serveChannelFiles fs ("/channels/files/" +:+ c +:+ "/" +:+ n) (abs ds) = HsFile d true.
Proof.
  intros Hg Hc Hn Hidx Hd Hf. pose proof (channel_good c Hc) as Hgc.
  destruct (filesDir_abs ds c Hg Hc) as [_ Hgf].
  assert (good_elem "files") as Hgfi by (unfold filesAt in Hgf; apply Forall_app in Hgf as [_ Hx]; by apply Forall_cons in Hx as [? _]).
  assert (good_elems (ds ++ ["files"])) as Hgd by (apply Forall_app; split; [done|by apply Forall_singleton]).
  assert (filesAt ds c ++ [n] = (ds ++ ["files"]) ++ [c; n]) as El by (unfold filesAt; by rewrite <- !app_assoc).
  assert (resolve fs (abs ((ds ++ ["files"]) ++ [c; n])) true = WFound (filesAt ds c ++ [n]) (NFile d)) as Hr.
  { rewrite <- El, resolve_child; [by rewrite Hf|apply Forall_app; split; [done|by apply Forall_singleton]|done|].
    right. by eexists. }
  assert (no_slash c /\ no_slash n) as [Hsc Hsn] by (split; [apply Hgc|apply Hn]).
  assert (has_prefix (c +:+ "/" +:+ n) "/" = false) as Hpre.
  { apply not_true_is_false. intros (x & E)%has_prefix_iff. apply Hsc.
    destruct (nonempty_bytes c (proj1 Hgc)) as (b & l & Hb). apply (f_equal bytes) in E.
    rewrite !bytes_app, Hb in E. injection E as -> _. rewrite Hb. by left. }
  unfold serveChannelFiles. rewrite Join_elem by done. rewrite trim_prefix_app.
  assert (has_prefix ("/channels/files/" +:+ c +:+ "/" +:+ n) "/channels/files/" = true) as ->
    by (apply has_prefix_iff; by eexists).
  assert (trim_prefix (c +:+ "/" +:+ n) "/" = c +:+ "/" +:+ n) as ->.
  { unfold trim_prefix, has_prefix in *. by destruct (drop_prefix _ _). }
  rewrite Join_two by done. unfold Stat. rewrite Hr. cbn [stat_of].
  unfold fileServer. rewrite Hpre.
  assert (has_suffix ("/" +:+ c +:+ "/" +:+ n) "/index.html" = false) as ->.
  { apply not_true_is_false. intros (x & E)%has_suffix_iff.
    change "/index.html" with ("/" +:+ "index.html") in E. change ("/" +:+ c +:+ "/" +:+ n) with (("/" +:+ c) +:+ "/" +:+ n) in E.
    apply upto_slash_inj in E as [_ E]; [done|done|].
    by apply (bool_decide_eq_false_1 ("/"%char ∈ bytes "index.html")). }
  assert (openBelow fs (abs (ds ++ ["files"])) ("/" +:+ c +:+ "/" +:+ n) = WFound (filesAt ds c ++ [n]) (NFile d)) as ->.
  { unfold openBelow. change ("/" +:+ c +:+ "/" +:+ n) with (abs [c; n]).
    assert (good_elems [c; n]) as Hcn by (apply Forall_cons; split; [done|by apply Forall_singleton]).
    by rewrite Clean_abs, Join_abs, Hr. }
  unfold last_byte_slash. assert (has_suffix ("/" +:+ c +:+ "/" +:+ n) "/" = false) as ->; [|done].
  apply not_true_is_false. intros (x & E)%has_suffix_iff.
  change ("/" +:+ c +:+ "/" +:+ n) with (("/" +:+ c) +:+ "/" +:+ n) in E.
  change (x +:+ "/") with (x +:+ "/" +:+ "") in E. apply upto_slash_inj in E as [_ E]; [|done|intros Hin; by apply elem_of_nil in Hin].
  by apply Hn in E.
Qed.

(** The routing of the two kinds of path. *)
Lemma route_file st fs ds c n :
  cc_Data (cfg_channels st) = abs ds ->
  handleChannels st fs (get ("/channels/files/" +:+ c +:+ "/" +:+ n)) =
  serveChannelFiles fs ("/channels/files/" +:+ c +:+ "/" +:+ n) (abs ds).
Proof.
  intros Hdata. unfold handleChannels. cbn [r_Method get r_Path]. rewrite Hdata.
  assert (trim_prefix ("/channels/files/" +:+ c +:+ "/" +:+ n) "/channels" = "/" +:+ ("files/" +:+ c +:+ "/" +:+ n)) as ->
    by (apply (trim_prefix_app "/channels" ("/" +:+ ("files/" +:+ c +:+ "/" +:+ n)))).
  rewrite trim_prefix_app.
  assert (has_prefix ("files/" +:+ c +:+ "/" +:+ n) "files/" = true) as -> by (apply has_prefix_iff; by eexists).
  rewrite orb_true_r. done.
Qed.

Lemma route_manifest st fs ds c :
  cc_Data (cfg_channels st) = abs ds -> IsValid c = true ->
  handleChannels st fs (get ("/channels/" +:+ c +:+ ".json")) = serveChannelManifest fs (abs ds) c.
Proof.
  intros Hdata Hc. unfold handleChannels. cbn [r_Method get r_Path]. rewrite Hdata.
  change ("/channels/" +:+ c +:+ ".json") with ("/channels" +:+ ("/" +:+ (c +:+ ".json"))).
  rewrite !trim_prefix_app. pose proof (manifest_name_good c Hc) as (Hne & _ & _ & Hs).
  assert (("/" +:+ c +:+ ".json" =s "/") = false) as ->.
  { apply bool_decide_false. intros E. apply Hne. apply (f_equal bytes) in E. rewrite !bytes_app in E.
    cbn in E. injection E as E. destruct (bytes c); discriminate. }
  assert (has_suffix (c +:+ ".json") ".json" = true) as Hsuf by (apply has_suffix_iff; by eexists).
  assert ((c +:+ ".json" =s "files") || has_prefix (c +:+ ".json") "files/" = false) as ->.
  { apply orb_false_iff. split.
    - apply bool_decide_false. intros E. rewrite E in Hsuf. by vm_compute in Hsuf.
    - apply not_true_is_false. intros (x & E)%has_prefix_iff. apply Hs. rewrite E, bytes_app. by right; right; right; right; right; left. }
  rewrite Hsuf. assert (existsb (Ascii.eqb "/") (bytes (c +:+ ".json")) = false) as ->.
  { apply not_true_is_false. intros (x & Hx & E)%existsb_exists. apply Ascii.eqb_eq in E as <-.
    by apply Hs, list_elem_of_In. }
  cbn [negb andb]. rewrite trim_suffix_app, Hc. done.
Qed.

(** From the upload to the updater: a binary uploaded to a channel and then published is listed in
    the manifest the channel's URL serves, under the download URL of its path; a GET of that path
    serves the uploaded bytes; and the updater's check of them against the manifest's entry accepts. *)
Theorem published_binary_accepted `{RangeOrder} {MC : ManifestCodec} env1 env2 st he fault ds fs0 fs1 fs2 r1 r2 n size path m mpath :
  let c := mf_Channel m in
  IsValid c = true -> host_ok st ds c fs0 -> plain_slot (filesAt ds c ++ [n]) fs0 -> plain_slot (filesAt ds c ++ [n +:+ ".tmp"]) fs0 ->
  plain_slot (ds ++ [c +:+ ".json"]) fs0 -> n <> "index.html" ->
  r_Path r1 = "/api/admin/channels/files/" +:+ c +:+ "/" +:+ n ->
  handleAdminChannelsFiles env1 st he fs0 r1 = (HsUploaded c n size path, fs1) ->
  handleAdminChannelsPublish env2 fault st fs1 r2 = (HsPublished m mpath, fs2) ->
  Validate (Some m) = None /\
  (exists d, handleChannels st fs2 (get ("/channels/" +:+ c +:+ ".json")) = HsManifest d /\
     UnmarshalManifest d = Some m) /\
  handleChannels st fs2 (get ("/channels/files/" +:+ c +:+ "/" +:+ n)) = HsFile (he_body he) true /\
  (exists base, BinaryURL (Some m) n = base +:+ "/files/" +:+ c +:+ "/" +:+ n) /\
  exists entry, mf_Binaries m !! n = Some entry /\
    VerifyReader (he_body he) false (SHA256 entry) (Channel.Size entry) = (None, he_body he).
Proof.
  intros c Hc Hok Hs1 Hs2 Hsj Hidx Hpath Hup Hpub. pose proof Hok as [Hdata Hg Hd].
  apply (upload_outcome _ _ _ ds _ _ c n) in Hup; [|done..].
  destruct Hup as (_ & _ & _ & Hn & _ & _ & _ & [Hdst _ Hrest _]).
  assert (forall k, (length k <= length ds + 2)%nat -> fs1 !! k = fs0 !! k) as Hsame.
  { intros k Hk. apply Hrest; intros Hp%prefix_length; unfold filesAt in Hp; rewrite !length_app in Hp; cbn in Hp; lia. }
  assert (dir_at (filesAt ds c) fs1) as Hd1.
  { intros q Hq Hp. rewrite Hsame; [by apply Hd|]. apply prefix_length in Hp. unfold filesAt in Hp.
    rewrite length_app in Hp. exact Hp. }
  assert (plain_slot (ds ++ [c +:+ ".json"]) fs1) as Hsj1.
  { unfold plain_slot. rewrite Hsame; [done|]. rewrite length_app. cbn. lia. }
  destruct (publish_outcome _ _ _ _ _ _ _ _ _ Hdata Hg Hd1 Hsj1 Hpub)
    as (_ & Hval & Hl & (d & Hman & Hdec) & Hfs2 & (base & Hbase) & _). fold c in Hl, Hman, Hfs2, Hbase.
  assert (good_elem n) as Hgn.
  { rewrite <- (string_app_nil n). apply file_name_good; [done|]. intros b Hb. by apply elem_of_nil in Hb. }
  destruct (filesDir_abs ds c Hg Hc) as [_ Hgf].
  assert (forall k, (length ds + 1 < length k)%nat \/ k `prefix_of` filesAt ds c -> fs2 !! k = fs1 !! k) as Hsame2.
  { intros k Hk. apply Hfs2. intros ->. destruct Hk as [Hk|Hk].
    - rewrite length_app in Hk. cbn in Hk. lia.
    - unfold filesAt in Hk. apply prefix_app_inv in Hk. apply prefix_cons_inv_1 in Hk.
      assert (has_suffix "files" ".json" = true); [|done]. rewrite <- Hk. apply has_suffix_iff. by eexists. }
  split; [exact Hval|]. split_and!.
  - exists d. split; [|done]. by rewrite (route_manifest st fs2 ds c).
  - rewrite (route_file st fs2 ds) by done. apply serve_file; try done.
    + intros q Hq Hp. rewrite Hsame2 by (by right). by apply Hd1.
    + rewrite Hsame2; [done|]. left. unfold filesAt. rewrite !length_app. cbn. lia.
  - exists (trim_slashes base). unfold BinaryURL. rewrite Hbase. fold c. unfold downloadBaseOf.
    rewrite bool_decide_false.
    + unfold with_slash. assert (has_suffix (trim_slashes base +:+ "/files/" +:+ c +:+ "/") "/" = true) as ->.
      { apply has_suffix_iff. exists (trim_slashes base +:+ "/files/" +:+ c). by rewrite !string_app_assoc. }
      by rewrite !string_app_assoc.
    + intros E. apply (f_equal (fun s => length (bytes s))) in E. rewrite !bytes_app, !length_app in E. cbn in E. lia.
  - specialize (Hl n). destruct (mf_Binaries m !! n) as [entry|] eqn:He.
    + exists entry. split; [done|]. destruct Hl as (x & Hx & ->).
      rewrite Join_elem in Hx by done. unfold OpenRead in Hx. rewrite resolve_child in Hx.
      * rewrite Hdst in Hx. injection Hx as <-. unfold VerifyReader. cbn [SHA256 Channel.Size].
        rewrite Z.eqb_refl. cbn [negb]. rewrite andb_false_r, (proj2 (equal_fold_spec _ _) eq_refl). done.
      * apply Forall_app. split; [done|by apply Forall_singleton].
      * done.
      * right. by eexists.
    + rewrite Hdst in Hl. by destruct Hl.
Qed.

(** * Channel hosting, evaluated

    A manifest codec, a data directory with one channel, an upload and a publish. *)

(** ** A codec

    The document is one number, the code of the manifest's fields. *)

Definition manifest_code : Type :=
  string * string * string * Z * string * list (string * (string * Z)).

Definition manifest_to (m : Manifest) : manifest_code :=
  (mf_Channel m, mf_Version m, mf_Tag m, mf_PublishedAt m, mf_DownloadBase m,
   prod_map id (fun b => (SHA256 b, Channel.Size b)) <$> map_to_list (mf_Binaries m)).
Definition manifest_of (c : manifest_code) : Manifest :=
  let '(ch, v, t, p, d, b) := c in
  MkManifest ch v t p d (list_to_map (prod_map id (fun s => MkBinaryEntry (fst s) (snd s)) <$> b)).

Lemma manifest_of_to m : manifest_of (manifest_to m) = m.
Proof.
  destruct m as [ch v t p d b]. unfold manifest_of, manifest_to. cbn. f_equal.
  rewrite <- list_fmap_compose. transitivity (list_to_map (map_to_list b) : gmap string BinaryEntry);
    [f_equal|apply list_to_map_to_list].
  rewrite <- (list_fmap_id (map_to_list b)) at 2. apply list_fmap_ext. intros i [k []] _. done.
Qed.

#[export] Instance demo_codec : ManifestCodec.
Proof.
  refine {| MarshalIndent m := Some [Zpos (encode (manifest_to m))];
            UnmarshalManifest d := match d with Zpos p :: _ => manifest_of <$> decode p | _ => None end |}.
  intros m d E. injection E as <-. cbn [app]. rewrite decode_encode. cbn [fmap option_fmap option_map]. by rewrite manifest_of_to.
Defined.

(** ** A hub that hosts [stable] *)

Definition demo_srv : ppath := ["srv"].
Definition host_disk : fsys :=
  {[["srv"] := NDir; ["srv"; "files"] := NDir; ["srv"; "files"; "stable"] := NDir]}.
Definition host_hub : hubState :=
  let c := globalCfg demo_hub in
  with_cfg demo_hub (HubConfig (hc_HubID c) (hc_Port c) (hc_UDPPort c) (hc_UDPHost c) (hc_Name c) (hc_WWWDir c)
    (hc_ShutdownTimeout c) (hc_Auth c) (hc_Portals c) (hc_Update c) (hc_Bridges c)
    (ChannelsConfig true "/srv" "https://hub.example/channels")).

Definition demo_upload : request :=
  Request "PUT" "/api/admin/channels/files/stable/telad" "Bearer boss-token" None ∅ "" BodyEmpty.
Definition no_fails : hostEnv := HostEnv (fun _ => false) 0 [1%Z; 2%Z; 3%Z] false.
Definition after_upload : hostReply * fsys := handleAdminChannelsFiles (env_at 5) host_hub no_fails host_disk demo_upload.

Definition demo_publish : request :=
  Request "POST" "/api/admin/channels/publish" "Bearer boss-token" None ∅ ""
    (BodyJson (JObj [("channel", JStr "Stable"); ("tag", JStr "v1.2.3")])).
Definition after_publish : hostReply * fsys :=
  handleAdminChannelsPublish (env_at 7) no_fault host_hub (snd after_upload) demo_publish.
Definition demo_manifest_out : Manifest :=
  MkManifest "stable" "v1.2.3" "v1.2.3" 7 "https://hub.example/channels/files/stable/"
    {["telad" := MkBinaryEntry "039058c6f2c0cb492c533b0a4d14ef77cc0f78abccced5287d84a1a2011cfb81" 3]}.

Lemma demo_uploaded :
  after_upload = (HsUploaded "stable" "telad" 3 "/srv/files/stable/telad", snd after_upload).
Proof. refine (eq_trans (surjective_pairing after_upload) (f_equal (fun x => (x, snd after_upload)) _)). by vm_compute. Qed.

Lemma demo_published :
  after_publish = (HsPublished demo_manifest_out "/srv/stable.json", snd after_publish).
Proof. refine (eq_trans (surjective_pairing after_publish) (f_equal (fun x => (x, snd after_publish)) _)). by vm_compute. Qed.

Lemma demo_srv_good : good_elems demo_srv.
Proof. apply (bool_decide_unpack _). by vm_compute. Qed.

Lemma host_dir q : q <> [] -> q `prefix_of` filesAt demo_srv "stable" -> host_disk !! q = Some NDir.
Proof.
  intros Hne [k E]. destruct q as [|a [|b [|c [|d q]]]]; [done|..|discriminate];
    injection E; intros; subst; by vm_compute.
Qed.

Lemma demo_host_ok : host_ok host_hub demo_srv "stable" host_disk.
Proof. split; [done|apply demo_srv_good|exact host_dir]. Qed.

Lemma binary_slot : plain_slot (filesAt demo_srv "stable" ++ ["telad"]) host_disk.
Proof. left. by vm_compute. Qed.
Lemma temp_slot : plain_slot (filesAt demo_srv "stable" ++ ["telad" +:+ ".tmp"]) host_disk.
Proof. left. by vm_compute. Qed.

(** ** The theorems at these inputs *)

Lemma upload_exact_witness :
  uploaded (filesAt demo_srv "stable") "telad" no_fails host_disk false (snd after_upload).
Proof.
  pose proof (upload_exact (env_at 5) host_hub no_fails demo_srv host_disk demo_upload "stable" "telad" _ _
    demo_host_ok binary_slot temp_slot eq_refl eq_refl demo_uploaded) as H.
  apply H.
Defined.

Lemma uploaded_dir : dir_at (filesAt demo_srv "stable") (snd after_upload).
Proof.
  intros q Hq Hp. rewrite <- (host_dir q Hq Hp). apply upload_exact_witness; intros H; apply prefix_length in H, Hp;
    unfold filesAt in H, Hp; rewrite !length_app in *; cbn in *; lia.
Qed.

Lemma publish_exact_witness :
  (exists d, serveChannelManifest (snd after_publish) "/srv" "stable" = HsManifest d /\
     UnmarshalManifest d = Some demo_manifest_out) /\
  lists_files (snd after_upload) (filesAt demo_srv "stable") demo_manifest_out.
Proof.
  destruct (publish_exact (env_at 7) no_fault host_hub demo_srv (snd after_upload) demo_publish demo_manifest_out
    "/srv/stable.json" (snd after_publish)) as (_ & _ & H1 & H2 & _).
  - reflexivity.
  - exact demo_srv_good.
  - exact uploaded_dir.
  - left. by vm_compute.
  - exact demo_published.
  - split; [exact H2|exact H1].
Defined.

Lemma served_confined_witness :
  exists qs, good_elems qs /\ snd after_publish !! (demo_srv ++ "files" :: qs) = Some (NFile [1%Z; 2%Z; 3%Z]).
Proof.
  assert (plain_tree (demo_srv ++ ["files"]) (snd after_publish)) as Hp.
  { intros q t Hq. exfalso.
    assert (q ∈ (map_to_list (snd after_publish)).*1) as Hin
      by (apply list_elem_of_fmap; exists (q, NLink t); split; [done|by apply elem_of_map_to_list]).
    assert (forallb (fun e => match snd e with NLink _ => false | _ => true end) (map_to_list (snd after_publish)) = true) as Hl
      by (by vm_compute).
    rewrite forallb_forall in Hl. apply elem_of_map_to_list, list_elem_of_In, Hl in Hq. discriminate. }
  exact (served_confined host_hub (snd after_publish) demo_srv (ChannelHostProofs.get "/channels/files/stable/telad") eq_refl demo_srv_good Hp).
Defined.

Lemma published_binary_accepted_witness :
  handleChannels host_hub (snd after_publish) (ChannelHostProofs.get "/channels/files/stable/telad") = HsFile [1%Z; 2%Z; 3%Z] true.
Proof.
  destruct (published_binary_accepted (env_at 5) (env_at 7) host_hub no_fails no_fault demo_srv host_disk (snd after_upload)
    (snd after_publish) demo_upload demo_publish "telad" 3 "/srv/files/stable/telad" demo_manifest_out "/srv/stable.json")
    as (_ & _ & H & _).
  - reflexivity.
  - exact demo_host_ok.
  - exact binary_slot.
  - exact temp_slot.
  - left. by vm_compute.
  - discriminate.
  - reflexivity.
  - exact demo_uploaded.
  - exact demo_published.
  - exact H.
Defined.

(** ** Departures *)

(** The listing of all channels is served with a slash at the end only: [StripPrefix] does not
    strip the prefix from the path without it, which the handler's comments promise to serve. *)
Example files_without_slash :
  handleChannels host_hub host_disk (ChannelHostProofs.get "/channels/files") = HsError 404 "404 page not found" /\
  handleChannels host_hub host_disk (ChannelHostProofs.get "/channels/files/") = HsListing [("stable", true)] false.
Proof. by vm_compute. Qed.

(** Publishing while an upload is under way lists its temporary file, and so does a name that ends
    like one. *)
Definition uploading : fsys := <[["srv"; "files"; "stable"; "telad.tmp"] := NFile [1%Z]]> (snd after_upload).
Example unfinished_upload_listed :
  match fst (handleAdminChannelsPublish (env_at 7) no_fault host_hub uploading demo_publish) with
  | HsPublished m _ => (map_to_list (mf_Binaries m)).*1 = ["telad.tmp"; "telad"] \/
                       (map_to_list (mf_Binaries m)).*1 = ["telad"; "telad.tmp"]
  | _ => False
  end.
Proof. vm_compute. tauto. Qed.

(** A manifest write that breaks off leaves a document that does not decode, where an upload would
    have left the old file. *)
Definition torn : saveEnv := SaveEnv (String.eqb "write") 0.
Example manifest_torn :
  let fs := snd (handleAdminChannelsPublish (env_at 7) torn host_hub (snd after_publish) demo_publish) in
  (exists d, serveChannelManifest (snd after_publish) "/srv" "stable" = HsManifest d /\ UnmarshalManifest d <> None) /\
  serveChannelManifest fs "/srv" "stable" = HsManifest [] /\ UnmarshalManifest [] = None.
Proof.
  split; [|by vm_compute]. destruct publish_exact_witness as [(d & Hd & He) _]. exists d.
  split; [exact Hd|]. by rewrite He.
Qed.

(** One empty file in a channel and nothing can be published. *)
Example empty_file_blocks :
  fst (handleAdminChannelsPublish (env_at 7) no_fault host_hub
    (<[["srv"; "files"; "stable"; "notes"] := NFile []]> (snd after_upload)) demo_publish) =
  HsError 500 "manifest validation".
Proof. by vm_compute. Qed.
