(* ===== verification/AgentMgmt.v ===== *)
(** * The agent's control connection ([handleMgmtRequest] and [runAgent] in [internal/agent/agent.go])

    The active configuration and its file, the management actions the hub passes on, and what the
    agent does with each message of its control connection.  Messages are those of the hub
    ([wsMessage]); a request that follows its answer after half a second is the follow-up of the
    step.  Decoding the string fields of a machine is written out, that of its other fields is a
    parameter. *)

From S2P Require Import Prelude Http HubConfig AdminState Sha256 Channel FilePath FileSys FileShare Agent SessionState.
From S2P Require Import HubLog.
From S2P Require AdminUpdate.
From Stdlib Require Import ZArith Lia Ascii String.
From stdpp Require Import base gmap strings list fin_maps.

(** The fields of a machine that are not strings. *)
Record machineLists := MachineLists {
  ml_Tags : list string;
  ml_Ports : list Z;
  ml_Services : list serviceDescriptor;
  ml_FileShare : fileShareConfig;
  ml_Shares : list shareConfig;
  ml_Gateway : option gatewayConfig;
  ml_Upstreams : list upstreamConfig
}.
Class ListsDecoder := {
  decodeLists : list (string * json) -> machineLists -> machineLists * bool
}.

Definition listsOf (m : machineConfig) : machineLists :=
  MachineLists (mc_Tags m) (mc_Ports m) (mc_Services m) (mc_FileShare m) (mc_Shares m) (mc_Gateway m) (mc_Upstreams m).

(** What [config-get] shows of a machine. *)
Record redactedMachine := RedactedMachine {
  rm_Name : string;
  rm_DisplayName : string;
  rm_Hostname : string;
  rm_OS : string;
  rm_Tags : list string;
  rm_Location : string;
  rm_Owner : string;
  rm_Ports : list Z;
  rm_Services : list serviceDescriptor;
  rm_Target : string;
  rm_Shares : list shareConfig;
  rm_Gateway : option gatewayConfig;
  rm_Upstreams : list upstreamConfig
}.
Definition redact (m : machineConfig) : redactedMachine :=
  RedactedMachine (mc_Name m) (mc_DisplayName m) (mc_Hostname m) (mc_OS m) (mc_Tags m) (mc_Location m) (mc_Owner m)
    (mc_Ports m) (mc_Services m) (mc_Target m) (mc_Shares m) (mc_Gateway m) (mc_Upstreams m).

Inductive mgmtPayload :=
  | MpNone
  | MpConfig (hub configPath : string) (machines : list redactedMachine)
  | MpLines (lines : list string)
  | MpStatus (channel manifestUrl currentVersion latestVersion : string) (updateAvailable failed : bool)
  | MpChannel (channel manifestUrl : string)
  | MpSources (sources : gmap string string)
  | MpSourceSet (name base : string)
  | MpSourceRemoved (name : string).

Record mgmtResponse := MgmtResponse {
  mr_RequestID : string;
  mr_OK : bool;
  mr_Message : string;
  mr_Payload : mgmtPayload
}.

(** What follows the answer. *)
Inductive mgmtFollowUp :=
  | MfNone
  | MfRestart
  | MfUpdate (ver chOverride baseOverride : string).

Record agent := MkAgent {
  ag_cfg : option configFile;                 (** [activeConfig] *)
  ag_path : string;                           (** [activeConfigPath] *)
  ag_reregister : bool;                       (** [reregisterNeeded] *)
  ag_fetcher : Fetcher;                       (** [agentChannelFetcher] *)
  ag_fs : fsys
}.
Definition with_agcfg (a : agent) (c : configFile) : agent :=
  MkAgent (Some c) (ag_path a) (ag_reregister a) (ag_fetcher a) (ag_fs a).
Definition with_agfs (a : agent) (fs : fsys) : agent :=
  MkAgent (ag_cfg a) (ag_path a) (ag_reregister a) (ag_fetcher a) fs.
Definition with_reregister (a : agent) (b : bool) : agent :=
  MkAgent (ag_cfg a) (ag_path a) b (ag_fetcher a) (ag_fs a).
Definition with_fetcher (a : agent) (f : Fetcher) : agent :=
  MkAgent (ag_cfg a) (ag_path a) (ag_reregister a) f (ag_fs a).

(** An [int] field: the last number that is one. *)
Fixpoint decode_int (name : string) (kvs : list (string * json)) (v : Z) : Z :=
  match kvs with
  | [] => v
  | (k, j) :: kvs =>
      if equal_fold k name then
        match j with
        | JNum n => decode_int name kvs (if (i64 n =? n)%Z then n else v)
        | _ => decode_int name kvs v
        end
      else decode_int name kvs v
  end.

(** [json.Unmarshal] of a payload with its error ignored. *)
Definition payload_fields (p : option json) : list (string * json) :=
  match p with Some (JObj kvs) => kvs | _ => [] end.
Definition payload_string (p : option json) (name : string) : string :=
  fst (decode_string name (payload_fields p) "" true).

(** A [json.RawMessage] field. *)
Definition decode_raw (name : string) (kvs : list (string * json)) : option json :=
  fold_left (fun acc kv => if equal_fold (fst kv) name then Some (snd kv) else acc) kvs None.

Section mgmt.
  Context {AC : AgentCodec} {LD : ListsDecoder} `{RangeOrder}.
  Context (version : string).   (** the version of the running binary *)

(** [json.Unmarshal(fields, target)]. *)
Definition decodeMachine (kvs : list (string * json)) (m : machineConfig) : machineConfig * bool :=
  let str name get := decode_string name kvs (get m) true in
  let ls := decodeLists kvs (listsOf m) in
  let l := fst ls in
  (MachineConfig (fst (str "Name" mc_Name)) (fst (str "DisplayName" mc_DisplayName)) (fst (str "Hostname" mc_Hostname))
     (fst (str "OS" mc_OS)) (ml_Tags l) (fst (str "Location" mc_Location)) (fst (str "Owner" mc_Owner))
     (ml_Ports l) (ml_Services l) (fst (str "Target" mc_Target)) (fst (str "Token" mc_Token))
     (ml_FileShare l) (ml_Shares l) (ml_Gateway l) (ml_Upstreams l),
   snd (str "Name" mc_Name) && snd (str "DisplayName" mc_DisplayName) && snd (str "Hostname" mc_Hostname) &&
   snd (str "OS" mc_OS) && snd (str "Location" mc_Location) && snd (str "Owner" mc_Owner) &&
   snd (str "Target" mc_Target) && snd (str "Token" mc_Token) && snd ls).

Definition unmarshalMachine (fields : option json) (m : machineConfig) : machineConfig * bool :=
  match fields with
  | None => (m, false)
  | Some JNull => (m, true)
  | Some (JObj kvs) => decodeMachine kvs m
  | Some _ => (m, false)
  end.

(** Applies a function to the first machine of a name; [None] when there is none. *)
Fixpoint on_machine (name : string) (f : machineConfig -> machineConfig * bool) (ms : list machineConfig)
    : option (list machineConfig * bool) :=
  match ms with
  | [] => None
  | m :: ms =>
      if mc_Name m =s name then Some (fst (f m) :: ms, snd (f m))
      else match on_machine name f ms with
           | None => None
           | Some (ms, ok) => Some (m :: ms, ok)
           end
  end.

(** [yaml.Marshal] then [os.WriteFile]; the error tells which failed. *)
Inductive writeError := WeMarshal | WeWrite.
Definition writeAgentConfig (fault : saveEnv) (a : agent) (cfg : configFile) : option writeError * agent :=
  match MarshalAgent cfg with
  | None => (Some WeMarshal, a)
  | Some d =>
      if se_fault fault "open" then (Some WeWrite, a)
      else match WriteFile (ag_fs a) (ag_path a) (if se_fault fault "write" then take (se_short fault) d else d) with
           | None => (Some WeWrite, a)
           | Some fs => (if se_fault fault "write" then Some WeWrite else None, with_agfs a fs)
           end
  end.

Definition agentChannel (a : agent) : string * string :=
  match ag_cfg a with
  | None => (DefaultChannel, ResolveBase DefaultChannel ∅)
  | Some cfg =>
      let name := Normalize (uc_Channel (cf_Update cfg)) in
      (name, ResolveBase name (uc_Sources (cf_Update cfg)))
  end.

Definition latestReleaseFrom (net : network) (now : Z) (a : agent) (ch base : string) : option string * agent :=
  let '(agentCh, agentBase) := agentChannel a in
  let ch := if ch =s "" then agentCh else ch in
  let base := if base =s "" then agentBase else base in
  let '(m, f) := GetURL (ag_fetcher a) net now now (ManifestURL base ch) in
  (mf_Version <$> m, with_fetcher a f).
Definition latestRelease (net : network) (now : Z) (a : agent) : option string * agent :=
  latestReleaseFrom net now a "" "".

Definition mgmtOk (id : string) (p : mgmtPayload) : mgmtResponse := MgmtResponse id true "" p.
Definition mgmtNo (id msg : string) : mgmtResponse := MgmtResponse id false msg MpNone.

(** ** The actions *)

Definition configGet (a : agent) (id : string) : mgmtResponse :=
  match ag_cfg a with
  | None => mgmtNo id "no active config"
  | Some cfg => mgmtOk id (MpConfig (cf_Hub cfg) (ag_path a) (map redact (cf_Machines cfg)))
  end.

Definition configSet (fault : saveEnv) (a : agent) (id : string) (payload : option json) : mgmtResponse * agent :=
  match ag_cfg a with
  | None => (mgmtNo id "no config file to update", a)
  | Some cfg =>
      if ag_path a =s "" then (mgmtNo id "no config file to update", a)
      else match match payload with Some JNull => Some [] | Some (JObj kvs) => Some kvs | _ => None end with
      | None => (mgmtNo id "invalid payload", a)
      | Some kvs =>
          let '(machine, ok) := decode_string "machine" kvs "" true in
          if negb ok then (mgmtNo id "invalid payload", a)
          else match on_machine machine (unmarshalMachine (decode_raw "fields" kvs)) (cf_Machines cfg) with
          | None => (mgmtNo id ("machine not found: " +:+ machine), a)
          | Some (ms, ok) =>
              let cfg := set_cf_Machines cfg ms in
              let a := with_agcfg a cfg in
              if negb ok then (mgmtNo id "invalid fields", a)
              else match writeAgentConfig fault a cfg with
                   | (Some WeMarshal, a) => (mgmtNo id "marshal failed", a)
                   | (Some WeWrite, a) => (mgmtNo id "write failed", a)
                   | (None, a) => (mgmtOk id MpNone, with_reregister a true)
                   end
          end
      end
  end.

Definition mgmtLogs (r_log : ring string) (id : string) (payload : option json) : mgmtResponse :=
  let n := decode_int "lines" (payload_fields payload) 0 in
  mgmtOk id (MpLines (snapshotLogRing (if (n <=? 0)%Z then 100 else n) r_log)).

Definition mgmtUpdate (net : network) (now : Z) (a : agent) (id : string) (payload : option json)
    : mgmtResponse * agent * mgmtFollowUp :=
  let req_ver := payload_string payload "version" in
  let req_channel := payload_string payload "channel" in
  let req_base := payload_string payload "manifestBase" in
  let explicitVersion := (req_ver <>s "") && (req_ver <>s "latest") in
  let '(resolved, a) :=
    if (req_ver =s "") || (req_ver =s "latest") then latestReleaseFrom net now a req_channel req_base
    else (Some req_ver, a) in
  match resolved with
  | None => (mgmtNo id "failed to query latest release", a, MfNone)
  | Some ver =>
      if (ver =s version) && (version <>s "dev") then
        (MgmtResponse id true ("already running " +:+ ver) MpNone, a, MfNone)
      else
        let targetCh := if req_channel =s "" then fst (agentChannel a) else req_channel in
        if negb explicitVersion && (version <>s "dev") && negb (IsCrossChannel version targetCh)
           && negb (IsNewer ver version) then
          (mgmtNo id ("latest version on channel is " +:+ ver +:+ ", older than currently running " +:+ version +:+
             "; specify an explicit version to downgrade"), a, MfNone)
        else (MgmtResponse id true ("updating to " +:+ ver) MpNone, a, MfUpdate ver req_channel req_base)
  end.

Definition mgmtUpdateStatus (net : network) (now : Z) (a : agent) (id : string) : mgmtResponse * agent :=
  let '(ch, base) := agentChannel a in
  match latestRelease net now a with
  | (Some latest, a) =>
      (mgmtOk id (MpStatus ch (ManifestURL base ch) version latest (ShouldOfferUpdate version ch latest) false), a)
  | (None, a) => (mgmtOk id (MpStatus ch (ManifestURL base ch) version "" false true), a)
  end.

(** The end of the three actions that change the update settings. *)
Definition saveUpdate (fault : saveEnv) (a : agent) (id : string) (cfg : configFile) (answer : agent -> mgmtPayload)
    : mgmtResponse * agent :=
  let a := with_agcfg a cfg in
  match writeAgentConfig fault a cfg with
  | (Some _, a) => (mgmtNo id "write config", a)
  | (None, a) => (mgmtOk id (answer a), a)
  end.

Definition mgmtUpdateChannel (fault : saveEnv) (a : agent) (id : string) (payload : option json)
    : mgmtResponse * agent :=
  let channel := trim_space (to_lower (payload_string payload "channel")) in
  let manifestBase := payload_string payload "manifestBase" in
  if (channel <>s "") && negb (IsValid channel) then (mgmtNo id ("invalid channel name: " +:+ channel), a)
  else match ag_cfg a with
  | None => (mgmtNo id "no config file to update", a)
  | Some cfg =>
      if ag_path a =s "" then (mgmtNo id "no config file to update", a)
      else
        saveUpdate fault a id (set_cf_Update cfg (AdminUpdate.patchUpdate (cf_Update cfg) channel manifestBase))
          (fun a => let '(ch, base) := agentChannel a in MpChannel ch (ManifestURL base ch))
  end.

Definition mgmtSourcesList (a : agent) (id : string) : mgmtResponse :=
  mgmtOk id (MpSources (match ag_cfg a with Some cfg => uc_Sources (cf_Update cfg) | None => ∅ end)).

Definition with_sources (cfg : configFile) (m : gmap string string) : configFile :=
  set_cf_Update cfg (UpdateConfig (uc_Channel (cf_Update cfg)) m).

Definition mgmtSourcesSet (fault : saveEnv) (a : agent) (id : string) (payload : option json) : mgmtResponse * agent :=
  let name := trim_space (to_lower (payload_string payload "name")) in
  if negb (IsValid name) then (mgmtNo id ("invalid channel name: " +:+ name), a)
  else
    let base := AdminUpdate.sourceBase (payload_string payload "base") in
    match ag_cfg a with
    | None => (mgmtNo id "no config file to update", a)
    | Some cfg =>
        if ag_path a =s "" then (mgmtNo id "no config file to update", a)
        else saveUpdate fault a id (with_sources cfg (<[name := base]> (uc_Sources (cf_Update cfg))))
               (fun _ => MpSourceSet name base)
    end.

Definition mgmtSourcesRemove (fault : saveEnv) (a : agent) (id : string) (payload : option json)
    : mgmtResponse * agent :=
  let name := trim_space (to_lower (payload_string payload "name")) in
  match ag_cfg a with
  | None => (mgmtNo id "no config file to update", a)
  | Some cfg =>
      if ag_path a =s "" then (mgmtNo id "no config file to update", a)
      else match uc_Sources (cf_Update cfg) !! name with
           | None => (mgmtNo id ("no source entry for channel " +:+ name), a)
           | Some _ => saveUpdate fault a id (with_sources cfg (delete name (uc_Sources (cf_Update cfg))))
                         (fun _ => MpSourceRemoved name)
           end
  end.

Record mgmtEnv := MgmtEnv {
  mg_fault : saveEnv;
  mg_net : network;
  mg_now : Z;
  mg_log : ring string
}.

Definition handleMgmtRequest (env : mgmtEnv) (a : agent) (id action : string) (payload : option json)
    : mgmtResponse * agent * mgmtFollowUp :=
  if action =s "config-get" then (configGet a id, a, MfNone)
  else if action =s "config-set" then (configSet (mg_fault env) a id payload, MfNone)
  else if action =s "logs" then (mgmtLogs (mg_log env) id payload, a, MfNone)
  else if action =s "restart" then (MgmtResponse id true "restarting" MpNone, a, MfRestart)
  else if action =s "update" then mgmtUpdate (mg_net env) (mg_now env) a id payload
  else if action =s "update-status" then (mgmtUpdateStatus (mg_net env) (mg_now env) a id, MfNone)
  else if action =s "update-channel" then (mgmtUpdateChannel (mg_fault env) a id payload, MfNone)
  else if action =s "channel-sources-list" then (mgmtSourcesList a id, a, MfNone)
  else if action =s "channel-sources-set" then (mgmtSourcesSet (mg_fault env) a id payload, MfNone)
  else if action =s "channel-sources-remove" then (mgmtSourcesRemove (mg_fault env) a id payload, MfNone)
  else (mgmtNo id ("unknown action: " +:+ action), a, MfNone).

(** ** Staging an update

    On every platform but windows. *)
Definition downloadAndStageUpdate (exe : AdminUpdate.exeEnv) (net : network)
    (download : string -> option (Z * list Z * bool)) (now : Z) (a : agent) (ver chOverride baseOverride : string)
    : (AdminUpdate.stageError + list Z) * agent :=
  if negb (AdminUpdate.exe_found exe) then (inl AdminUpdate.StNoExecutable, a)
  else
    let '(ch, base) := agentChannel a in
    let ch := if chOverride <>s "" then chOverride else ch in
    let base := if baseOverride <>s "" then baseOverride else base in
    let '(m, f) := Fetch (ag_fetcher a) net now (ManifestURL base ch) in
    let a := with_fetcher a f in
    match m with
    | None => (inl AdminUpdate.StFetch, a)
    | Some m => (AdminUpdate.installFrom exe download m ver, a)
    end.

(** ** The control connection *)

(** The hub's defaults, merged into the local settings. *)
Definition mergeSource (s : gmap string string) (kv : string * string) : gmap string string :=
  if snd kv =s "" then s
  else match s !! fst kv with Some _ => s | None => <[fst kv := snd kv]> s end.
Definition mergeDefaults (d u : updateConfig) : updateConfig :=
  UpdateConfig (if (uc_Channel u =s "") && (uc_Channel d <>s "") then uc_Channel d else uc_Channel u)
    (fold_left mergeSource (range (uc_Sources d)) (uc_Sources u)).

Inductive agentOut :=
  | AoRegister (m : signalingMsg)
  | AoResponse (r : mgmtResponse)
  | AoSession (sessionID : string) (sessionIdx : Z) (helperPubKey : string).

(** The connection goes on with this result, ends with it, or the process dies of a panic. *)
Inductive agentNext := Goes (result : agentResult) | Ends (result : agentResult) | Panics.

Record agentStep := AgentStep {
  st_out : list agentOut;
  st_agent : agent;
  st_next : agentNext;
  st_follow : mgmtFollowUp
}.

(** The re-registration after a management request. *)
Definition reregister (reg : registration) (a : agent) : list agentOut * agent :=
  if ag_reregister a then
    let a := with_reregister a false in
    (match ag_cfg a with
     | None => []
     | Some cfg =>
         match find_first (fun m => mc_Name m =s rg_MachineName reg) (cf_Machines cfg) with
         | Some m => [AoRegister (reregisterMsg reg m)]
         | None => []
         end
     end, a)
  else ([], a).

(** One message read from the control connection; [MRaw] is text that is no control message. *)
Definition agentReceive (env : mgmtEnv) (reg : registration) (a : agent) (result : agentResult) (m : wsMessage)
    : agentStep :=
  match m with
  | MRegistered _ None => AgentStep [] a (Goes agentRegistered) MfNone
  | MRegistered _ (Some d) =>
      match ag_cfg a with
      | None => AgentStep [] a Panics MfNone
      | Some cfg =>
          AgentStep [] (with_agcfg a (set_cf_Update cfg (mergeDefaults d (cf_Update cfg)))) (Goes agentRegistered) MfNone
      end
  | MError msg =>
      let m := to_lower (if msg =s "" then "unknown error" else msg) in
      if Contains m "access denied" || Contains m "invalid token" then AgentStep [] a (Ends agentAuthRejected) MfNone
      else AgentStep [] a (Goes result) MfNone
  | MSessionRequest sessionID wgPubKey sessionIdx =>
      if (slen sessionID <? 8)%Z then AgentStep [] a Panics MfNone
      else AgentStep [AoSession sessionID sessionIdx wgPubKey] a (Goes result) MfNone
  | MMgmtRequest requestID action payload =>
      let '(r, a, follow) := handleMgmtRequest env a requestID action payload in
      let '(regs, a) := reregister reg a in
      AgentStep (AoResponse r :: regs) a (Goes result) follow
  | MClose _ _ => AgentStep [] a (Ends result) MfNone
  | MSessionStart _ | MReady _ | MUdpOffer _ | MSessionEnd | MConnect _ _ _ _ | MRaw _ _ =>
      AgentStep [] a (Goes result) MfNone
  end.

(** What a session's worker makes of its index: the agent's and the client's address, or a refusal. *)
Definition sessionAddresses (sessionIdx : Z) : option (string * string) :=
  let subnet := if (sessionIdx <? 1)%Z then 1%Z else sessionIdx in
  if (254 <? subnet)%Z then None
  else Some ("10.77." +:+ Itoa subnet +:+ ".1", "10.77." +:+ Itoa subnet +:+ ".2").

End mgmt.
