(* ===== verification/AgentProofs.v ===== *)
(** * The agent's configuration, identity and reconnecting are sound *)

From S2P Require Import Prelude Http HubConfig FilePath FileSys FileShare FileShareProofs Agent SessionState.
From S2P Require Url HubStart.
From Stdlib Require Import ZArith Lia Ascii String.
From stdpp Require Import base gmap strings list fin_maps.

(** ** Ports and services *)

Lemma portsFrom_spec services seen p :
  p ∈ portsFrom services seen <-> p <> 0%Z /\ (p ∉ seen) /\ exists s, s ∈ services /\ svc_Port s = p.
Proof.
  revert seen. induction services as [|s l IH]; intros seen; cbn [portsFrom].
  - rewrite elem_of_nil. split; [done|]. intros (_ & _ & s & Hs & _). by apply elem_of_nil in Hs.
  - destruct (Z.eqb_spec (svc_Port s) 0) as [Hz|Hz].
    { rewrite IH. split; intros (H1 & H2 & x & Hx & E); (split_and!; [done..|]); exists x; (split; [|done]).
      - by right.
      - apply elem_of_cons in Hx as [-> |Hx]; [congruence|done]. }
    destruct (decide (svc_Port s ∈ seen)) as [Hin|Hin].
    { rewrite IH. split; intros (H1 & H2 & x & Hx & E); (split_and!; [done..|]); exists x; (split; [|done]).
      - by right.
      - apply elem_of_cons in Hx as [-> |Hx]; [congruence|done]. }
    rewrite elem_of_cons, IH. split.
    + intros [-> |(H1 & H2 & x & Hx & E)].
      * split_and!; [done..|]. exists s. split; [by left|done].
      * split_and!; [done|set_solver|]. exists x. split; [by right|done].
    + intros (H1 & H2 & x & Hx & E). destruct (decide (p = svc_Port s)) as [-> |Hne]; [by left|]. right.
      split_and!; [done|set_solver|]. exists x. split; [|done].
      apply elem_of_cons in Hx as [-> |Hx]; [congruence|done].
Qed.

Lemma portsFrom_NoDup services seen : NoDup (portsFrom services seen).
Proof.
  revert seen. induction services as [|s l IH]; intros seen; cbn [portsFrom]; [constructor|].
  destruct (svc_Port s =? 0)%Z; [apply IH|]. destruct (decide _); [apply IH|].
  constructor; [|apply IH]. rewrite portsFrom_spec. set_solver.
Qed.

Lemma portsFrom_minimal ps seen :
  NoDup ps -> (forall p, p ∈ ps -> p <> 0%Z /\ p ∉ seen) -> portsFrom (minimalServicesFromPorts ps) seen = ps.
Proof.
  revert seen. induction ps as [|p ps IH]; intros seen Hn Hp; [done|]. cbn [minimalServicesFromPorts map portsFrom svc_Port].
  apply NoDup_cons in Hn as [Hnp Hn]. destruct (Hp p) as [Hz Hs]; [by left|].
  rewrite (proj2 (Z.eqb_neq p 0)) by done. rewrite decide_False by done. f_equal. apply IH; [done|].
  intros q Hq. destruct (Hp q) as [Hz' Hs']; [by right|]. split; [done|]. set_solver.
Qed.

(** ** Port specifications *)

Lemma drop_while_stops f l c k : drop_while f l = c :: k -> f c = false.
Proof. induction l as [|x l IH]; cbn; [done|]. destruct (f x) eqn:E; [done|]. intros [= <- <-]. done. Qed.

Lemma trimmed_last s c l : trim_space s = s -> rev (bytes s) = c :: l -> is_space c = false.
Proof.
  intros Ht Hr. apply (f_equal bytes) in Ht. unfold trim_space, trim_with, trim_right_with in Ht.
  rewrite !bytes_of_bytes in Ht. rewrite <- Ht, rev_involutive in Hr. by apply drop_while_stops in Hr.
Qed.

Lemma trim_space_edges s c l d k :
  bytes s = c :: l -> is_space c = false -> rev (bytes s) = d :: k -> is_space d = false -> trim_space s = s.
Proof.
  intros Hb Hc Hr Hd. unfold trim_space, trim_with, trim_right_with.
  assert (drop_while is_space (bytes s) = bytes s) as -> by (rewrite Hb; cbn; by rewrite Hc).
  rewrite bytes_of_bytes. assert (drop_while is_space (rev (bytes s)) = rev (bytes s)) as ->
    by (rewrite Hr; cbn; by rewrite Hd).
  by rewrite rev_involutive, of_bytes_bytes.
Qed.

Lemma Itoa_head n : (0 <= n)%Z -> exists c l, bytes (Itoa n) = c :: l /\ is_digit c = true.
Proof.
  intros Hn. unfold Itoa. rewrite (proj2 (Z.ltb_ge n 0)) by done.
  destruct (bytes (FormatUint n)) as [|c l] eqn:E; [by destruct (FormatUint_nonempty n)|].
  exists c, l. split; [done|]. apply (FormatUint_digit n); [done|]. rewrite E. by left.
Qed.

Lemma Itoa_no n (b : ascii) : (0 <= n)%Z -> is_digit b = false -> b ∉ bytes (Itoa n).
Proof.
  intros Hn Hb Hin. unfold Itoa in Hin. rewrite (proj2 (Z.ltb_ge n 0)) in Hin by done.
  apply FormatUint_digit in Hin; [congruence|done].
Qed.

Lemma digit_no_space c : is_digit c = true -> is_space c = false.
Proof. destruct c as [[] [] [] [] [] [] [] []]; by vm_compute. Qed.

(** How a specification is written. *)
Definition showSpec (s : serviceDescriptor) : string :=
  Itoa (svc_Port s) +:+ ":" +:+ svc_Name s +:+ ":" +:+ svc_Description s.

(** A service that a specification can express. *)
Record spec_ok (s : serviceDescriptor) : Prop := {
  so_port : (1 <= svc_Port s <= 65535)%Z;
  so_proto : svc_Proto s = "tcp";
  so_name : trim_space (svc_Name s) = svc_Name s /\ ((":"%char : ascii) ∉ bytes (svc_Name s)) /\
            (","%char : ascii) ∉ bytes (svc_Name s);
  so_desc : trim_space (svc_Description s) = svc_Description s /\ (","%char : ascii) ∉ bytes (svc_Description s)
}.

Lemma showSpec_no_comma s : spec_ok s -> (","%char : ascii) ∉ bytes (showSpec s).
Proof.
  intros [Hp _ (_ & _ & Hn) (_ & Hd)]. unfold showSpec. rewrite !bytes_app, !elem_of_app.
  intros [H|[H|[H|[H|H]]]]; [by apply (Itoa_no (svc_Port s) ",") in H; [|lia|]| |done| |done]; by apply list_elem_of_singleton in H.
Qed.

Lemma showSpec_trimmed s : spec_ok s -> trim_space (showSpec s) = showSpec s.
Proof.
  intros [Hp _ _ (Hd & _)]. destruct (Itoa_head (svc_Port s)) as (c & l & Hc & Hdig); [lia|].
  assert (exists d k, rev (bytes (showSpec s)) = d :: k /\ is_space d = false) as (d & k & Hr & Hsp).
  { unfold showSpec. rewrite !bytes_app, !rev_app_distr.
    destruct (rev (bytes (svc_Description s))) as [|d k] eqn:E.
    - by eexists _, _.
    - eexists d, _. split; [done|]. by apply (trimmed_last _ _ _ Hd E). }
  apply (trim_space_edges _ c (l ++ bytes (":" +:+ svc_Name s +:+ ":" +:+ svc_Description s)) d k);
    [|by apply digit_no_space|done|done].
  unfold showSpec. by rewrite bytes_app, Hc.
Qed.

Lemma parse_showSpec s : spec_ok s -> parsePortSpec (showSpec s) = Some s.
Proof.
  intros [Hp Hpr (Hn & Hcn & _) (Hd & _)]. unfold parsePortSpec, splitn3, showSpec.
  change (":" +:+ svc_Name s +:+ ":" +:+ svc_Description s) with (String ":" (svc_Name s +:+ String ":" (svc_Description s))).
  assert ((":"%char : ascii) ∉ bytes (Itoa (svc_Port s))) as Hi by (by apply Itoa_no; [lia|]).
  rewrite !cut_byte by done. cbn [nth length Nat.leb Nat.eqb].
  assert (trim_space (Itoa (svc_Port s)) = Itoa (svc_Port s)) as ->.
  { apply trim_with_none, forallb_forall. intros c Hc%list_elem_of_In. apply negb_true_iff, digit_no_space.
    unfold Itoa in Hc. rewrite (proj2 (Z.ltb_ge (svc_Port s) 0)) in Hc by lia. by apply FormatUint_digit in Hc; [|lia]. }
  rewrite Atoi_Itoa by lia. rewrite (proj2 (Z.ltb_ge (svc_Port s) 1)), (proj2 (Z.ltb_ge 65535 (svc_Port s))) by lia.
  cbn [orb]. rewrite Hn, Hd. destruct s. cbn in *. by subst.
Qed.

Lemma split_on_app c l m : c ∉ l -> Url.split_on c (l ++ c :: m) = l :: Url.split_on c m.
Proof.
  induction l as [|d l IH]; cbn; [by rewrite Ascii.eqb_refl|]. rewrite not_elem_of_cons. intros [Hd Hl].
  destruct (Ascii.eqb_spec d c) as [->|]; [done|]. by rewrite IH.
Qed.

Lemma split_concat l :
  l <> [] -> Forall (fun s => (","%char : ascii) ∉ bytes s) l ->
  Url.split_on "," (bytes (String.concat "," l)) = map bytes l.
Proof.
  induction l as [|s [|t l] IH]; intros Hne Hall; [done|..]; apply Forall_cons in Hall as [Hs Hl].
  - cbn. by apply Url.split_on_none.
  - change (String.concat "," (s :: t :: l)) with (s +:+ String "," (String.concat "," (t :: l))).
    rewrite bytes_app. change (bytes (String "," (String.concat "," (t :: l)))) with (","%char :: bytes (String.concat "," (t :: l))).
    rewrite split_on_app by done. by rewrite IH.
Qed.

(** Port specifications read back as the services they were written for. *)
Theorem parsePortSpecs_roundtrip l :
  l <> [] -> Forall spec_ok l -> parsePortSpecs (String.concat "," (map showSpec l)) = l.
Proof.
  intros Hne Hall. unfold parsePortSpecs. rewrite split_concat.
  - clear Hne. induction Hall as [|s l Hs Hl IH]; [done|]. cbn [map]. rewrite of_bytes_bytes. cbn [omap list_omap].
    rewrite showSpec_trimmed, parse_showSpec by done. rewrite bool_decide_false; [by f_equal|].
    intros E. destruct (Itoa_head (svc_Port s)) as (c & k & Hc & _); [destruct Hs as [[? ?]]; lia|].
    apply (f_equal bytes) in E. unfold showSpec in E. by rewrite bytes_app, Hc in E.
  - by destruct l.
  - apply Forall_map, (Forall_impl _ _ _ Hall). apply showSpec_no_comma.
Qed.

(** ** Loading *)

Section load.
  Context {AC : AgentCodec} (LookupToken : string -> string).

(** What a loaded machine satisfies. *)
Record machine_ok (hub token : string) (m : machineConfig) : Prop := {
  mo_name : mc_Name m <> "";
  mo_target : mc_Target m <> "";
  mo_services : mc_Services m <> [];
  mo_ports : mc_Ports m = [] -> forall s, s ∈ mc_Services m -> svc_Port s = 0%Z;
  mo_token : mc_Token m = "" -> token = "" /\ LookupToken hub = ""
}.

Lemma portsFromServices_nil l : portsFromServices l = [] -> forall s, s ∈ l -> svc_Port s = 0%Z.
Proof.
  intros E s Hs. destruct (decide (svc_Port s = 0%Z)) as [|Hne]; [done|]. exfalso.
  assert (svc_Port s ∈ portsFromServices l) as Hin by (apply portsFrom_spec; set_solver).
  rewrite E in Hin. by apply elem_of_nil in Hin.
Qed.

Lemma fillMachine_ok hub token m :
  mc_Name m <> "" -> is_nil (mc_Ports m) && is_nil (mc_Services m) = false ->
  machine_ok hub token (fillMachine LookupToken hub token m).
Proof.
  intros Hn Hps. set (tok := if mc_Token m =s "" then token else mc_Token m). split; cbn [fillMachine mc_Name mc_Target mc_Services mc_Ports mc_Token].
  - done.
  - by destruct (bool_decide_reflect (mc_Target m = "")).
  - destruct (mc_Services m); [|done]. destruct (mc_Ports m); done.
  - destruct (mc_Ports m); cbn [is_nil andb negb] in *; [|done].
    destruct (mc_Services m); [done|]. cbn [is_nil negb]. apply portsFromServices_nil.
  - unfold tok. destruct (bool_decide_reflect (mc_Token m = "")) as [_|Hm].
    + destruct (bool_decide_reflect (token = "")) as [Ht|Ht]; [by rewrite Ht|done].
    + by rewrite bool_decide_false.
Qed.

Lemma fillMachine_idem hub token m :
  machine_ok hub token m -> fillMachine LookupToken hub token m = m.
Proof.
  intros [Hn Ht Hs Hp Htok]. unfold fillMachine.
  assert (is_nil (mc_Services m) = false) as -> by (by destruct (mc_Services m)). cbn [andb negb].
  rewrite (bool_decide_false (mc_Target m = "")) by done.
  assert ((if is_nil (mc_Ports m) && true then portsFromServices (mc_Services m) else mc_Ports m) = mc_Ports m) as ->.
  { destruct (mc_Ports m); [|done]. cbn [is_nil andb]. destruct (portsFromServices (mc_Services m)) as [|p l] eqn:E; [done|].
    exfalso. assert (p ∈ portsFromServices (mc_Services m)) as Hin by (rewrite E; by left).
    apply portsFrom_spec in Hin as (Hz & _ & x & Hx & <-). by apply Hz, Hp. }
  assert (forall t, t = mc_Token m -> (if (if mc_Token m =s "" then token else mc_Token m) =s "" then LookupToken hub
    else if mc_Token m =s "" then token else mc_Token m) = t) as Htk.
  { intros t ->. destruct (bool_decide_reflect (mc_Token m = "")) as [Em|Hne]; [|by rewrite bool_decide_false].
    destruct (Htok Em) as [-> ->]. by rewrite bool_decide_true. }
  rewrite (Htk (mc_Token m) eq_refl). by destruct m.
Qed.

Lemma fillMachines_ok hub token i l ms :
  fillMachines LookupToken hub token i l = inr ms -> Forall (machine_ok hub token) ms /\ length ms = length l.
Proof.
  revert i ms. induction l as [|m l IH]; intros i ms; cbn [fillMachines]; [by intros [= <-]|].
  destruct (bool_decide_reflect (mc_Name m = "")) as [|Hn]; [done|].
  destruct (is_nil (mc_Ports m) && is_nil (mc_Services m)) eqn:Hps; [done|].
  destruct (fillMachines _ _ _ _ l) as [|ms'] eqn:E; [done|]. intros [= <-]. apply IH in E as [IH1 IH2].
  split; [|cbn; by rewrite IH2]. apply Forall_cons. split; [by apply fillMachine_ok|done].
Qed.

Lemma fillMachines_id hub token i l :
  Forall (machine_ok hub token) l -> fillMachines LookupToken hub token i l = inr l.
Proof.
  revert i. induction l as [|m l IH]; intros i; [done|]. intros [Hm Hl]%Forall_cons. cbn [fillMachines].
  rewrite (bool_decide_false (mc_Name m = "")) by apply Hm.
  assert (is_nil (mc_Ports m) && is_nil (mc_Services m) = false) as ->.
  { destruct Hm as [_ _ Hs _ _]. destruct (mc_Services m); [done|]. apply andb_false_r. }
  rewrite IH by done. by rewrite fillMachine_idem.
Qed.

Definition config_ok (cfg : configFile) : Prop :=
  cf_Hub cfg <> "" /\ cf_Machines cfg <> [] /\ Forall (machine_ok (cf_Hub cfg) (cf_Token cfg)) (cf_Machines cfg).

Lemma loadConfig_ok fs path cfg : loadConfig LookupToken fs path = inr cfg -> config_ok cfg.
Proof.
  unfold loadConfig. destruct (ReadFile fs path) as [d| |]; try done.
  destruct (UnmarshalAgent d) as [c|]; [|done].
  destruct (bool_decide_reflect (cf_Hub c = "")) as [|Hh]; [done|].
  destruct (cf_Machines c) as [|m ms] eqn:Hm; [done|]. cbn [is_nil].
  destruct (fillMachines _ _ _ _ (m :: ms)) as [|l] eqn:E; [done|]. intros [= <-].
  apply fillMachines_ok in E as [Hl1 Hl2]. split_and!; [done| |done]. cbn. by destruct l.
Qed.

Lemma loadConfig_saved fs path cfg d :
  config_ok cfg -> MarshalAgent cfg = Some d -> ReadFile fs path = RdData d -> loadConfig LookupToken fs path = inr cfg.
Proof.
  intros (Hh & Hm & Hall) Hd Hr. unfold loadConfig. rewrite Hr, (unmarshal_agent cfg) by done.
  rewrite bool_decide_false by done. destruct cfg as [hub tok ms u]. cbn in *. destruct ms as [|m ms]; [done|].
  cbn [is_nil]. by rewrite fillMachines_id.
Qed.

(** C20. Every configuration the agent accepts is well formed: it names a hub and machines, each machine
    has a name, a target and services, its ports are those of its services when it has none of its own,
    and it lacks a token only if neither the file nor the credential store has one.  What it saves of
    such a configuration, it loads again unchanged. *)
Theorem loadConfig_type fs path cfg :
  loadConfig LookupToken fs path = inr cfg ->
  config_ok cfg /\
  forall fs' path' d, MarshalAgent cfg = Some d -> ReadFile fs' path' = RdData d ->
    loadConfig LookupToken fs' path' = inr cfg.
Proof. intros Hl. apply loadConfig_ok in Hl as Hok. split; [done|]. intros fs' path' d. by apply loadConfig_saved. Qed.

End load.

(** ** Identity *)

Lemma newUUID_ne rnd : newUUID rnd <> "".
Proof. apply format_uuid_ne. Qed.

Section identity.
  Context {SC : StateCodec}.

Lemma giveIds_spec rand names k ms dirty ms' d' :
  giveIds rand names k ms dirty = (ms', d') ->
  (forall n x, ms !! n = Some x -> ms' !! n = Some x) /\
  (forall n x, ms' !! n = Some x -> ms !! n = None -> n ∈ names /\ exists i, x = Some (newUUID (rand i))) /\
  (forall n, n ∈ names -> n <> "" -> is_Some (ms' !! n)) /\
  (d' = false -> dirty = false /\ ms' = ms).
Proof.
  revert k ms dirty. induction names as [|n names IH]; intros k ms dirty; cbn [giveIds].
  { intros [= <- <-]. split_and!; [done| |by intros n ?%elem_of_nil|done]. intros n x H1 H2. congruence. }
  destruct (bool_decide_reflect (n = "")) as [->|Hn].
  { intros (H1 & H2 & H3 & H4)%IH. split_and!; [done| | |done].
    - intros m x Hx Hm. destruct (H2 m x Hx Hm) as [? ?]. split; [by right|done].
    - intros m [->|Hm]%elem_of_cons Hne; [done|by apply H3]. }
  destruct (ms !! n) as [y|] eqn:Hl.
  - intros (H1 & H2 & H3 & H4)%IH. split_and!; [done| | |done].
    + intros m x Hx Hm. destruct (H2 m x Hx Hm) as [? ?]. split; [by right|done].
    + intros m [->|Hm]%elem_of_cons Hne; [by exists y; apply H1|by apply H3].
  - intros (H1 & H2 & H3 & H4)%IH. split_and!.
    + intros m x Hx. apply H1. rewrite lookup_insert_ne; [done|]. congruence.
    + intros m x Hx Hm. destruct (decide (m = n)) as [->|Hne].
      * split; [by left|]. exists k. assert (ms' !! n = Some (Some (newUUID (rand k)))) as E
          by (apply H1, lookup_insert_eq). congruence.
      * destruct (H2 m x Hx) as [? ?]; [by rewrite lookup_insert_ne|]. split; [by right|done].
    + intros m [->|Hm]%elem_of_cons Hne; [|by apply H3]. eexists. apply H1, lookup_insert_eq.
    + intros ->. by destruct (H4 eq_refl).
Qed.

Lemma giveIds_known rand names k ms :
  (forall n, n ∈ names -> n <> "" -> is_Some (ms !! n)) -> giveIds rand names k ms false = (ms, false).
Proof.
  revert k. induction names as [|n names IH]; intros k Hall; [done|]. cbn [giveIds].
  rewrite IH by (intros m Hm; apply Hall; by right).
  destruct (bool_decide_reflect (n = "")) as [|Hn]; [done|].
  destruct (Hall n) as [x ->]; [by left|done|done].
Qed.

Lemma agentState_eta s : s = AgentState (as_AgentID s) (as_Machines s).
Proof. by destruct s. Qed.

Lemma state_name_good : good_elem "telad.state".
Proof. apply (bool_decide_unpack _). by vm_compute. Qed.

(** The start, with the paths resolved. *)
Lemma state_start fault ds f configDir fs rand names :
  good_elems (ds ++ [f]) -> disk_ok ds "telad.state" fs ->
  (forall s, is_Some (MarshalState s)) -> (forall call, se_fault fault call = false) ->
  let path := ds ++ ["telad.state"] in
  let st0 := readState fs (abs path) in
  let unnamed := as_AgentID st0 =s "" in
  let '(ms, dirty) := giveIds rand names (if unnamed then 1 else 0) (as_Machines st0) unnamed in
  let st := AgentState (if unnamed then newUUID (rand 0) else as_AgentID st0) ms in
  loadOrCreateAgentState rand fault fs configDir (abs (ds ++ [f])) names =
    (st, if dirty then <[path := NFile (default [] (MarshalState st))]> fs else fs).
Proof.
  intros Hgf [Hd Hs] Hm Hnf path st0 unnamed. unfold loadOrCreateAgentState.
  rewrite (bool_decide_false (abs (ds ++ [f]) = "")) by apply abs_nonempty. cbn [negb].
  assert (good_elems ds) as Hg by (by apply Forall_app in Hgf as [? _]).
  assert (good_elems path) as Hgs by (apply Forall_app; split; [done|]; apply Forall_singleton, state_name_good).
  rewrite Dir_abs_snoc, Join_elem by (done || apply state_name_good).
  fold path. fold st0. fold unnamed. destruct (giveIds _ _ _ _ _) as [ms dirty].
  destruct dirty; [|done]. rewrite MkdirAll_present by done. rewrite !Hnf. unfold path at 1. by rewrite WriteFile_child.
Qed.

Lemma readState_child ds fs st d :
  good_elems ds -> dir_at ds fs -> MarshalState st = Some d ->
  readState (<[ds ++ ["telad.state"] := NFile d]> fs) (abs (ds ++ ["telad.state"])) = st.
Proof.
  intros Hg Hd Hm. unfold readState. rewrite ReadFile_child.
  - rewrite lookup_insert_eq. by apply unmarshal_state.
  - apply Forall_app; split; [done|]. apply Forall_singleton, state_name_good.
  - by apply dir_at_insert.
  - apply plain_slot_file.
Qed.

(** The agent keeps its identity: a start gives the agent and every machine of its configuration
    an identifier, keeps every identifier the state file had, and, if the state file can be written,
    every later start with machines among these finds the same identifiers and writes nothing. *)
Theorem identity_stable fault ds f configDir fs rand names st fs' :
  good_elems (ds ++ [f]) -> disk_ok ds "telad.state" fs ->
  (forall s, is_Some (MarshalState s)) -> (forall call, se_fault fault call = false) ->
  loadOrCreateAgentState rand fault fs configDir (abs (ds ++ [f])) names = (st, fs') ->
  as_AgentID st <> "" /\
  (forall n, n ∈ names -> n <> "" -> is_Some (as_Machines st !! n)) /\
  (forall n x, as_Machines (readState fs (abs (ds ++ ["telad.state"]))) !! n = Some x -> as_Machines st !! n = Some x) /\
  forall rand' names', (forall n, n ∈ names' -> n ∈ names) ->
    loadOrCreateAgentState rand' fault fs' configDir (abs (ds ++ [f])) names' = (st, fs').
Proof.
  intros Hgf [Hd Hs] Hm Hnf Hst. pose proof (state_start fault ds f configDir fs rand names Hgf (conj Hd Hs) Hm Hnf) as Hstart.
  set (st0 := readState fs (abs (ds ++ ["telad.state"]))) in *. cbv zeta in Hstart.
  destruct (giveIds _ _ _ _ _) as [ms dirty] eqn:Hgive. rewrite Hst in Hstart. injection Hstart as -> ->.
  pose proof (giveIds_spec _ _ _ _ _ _ _ Hgive) as (Hkeep & _ & Hall & Hclean). cbn [as_AgentID as_Machines].
  assert ((if as_AgentID st0 =s "" then newUUID (rand 0) else as_AgentID st0) <> "") as Hid.
  { destruct (bool_decide_reflect (as_AgentID st0 = "")); [apply newUUID_ne|done]. }
  split_and!; [done|done|done|]. intros rand' names' Hsub.
  set (st := AgentState _ ms). set (fs1 := if dirty then _ else fs).
  assert (good_elems ds) as Hg by (by apply Forall_app in Hgf as [? _]).
  assert (readState fs1 (abs (ds ++ ["telad.state"])) = st) as Hr.
  { unfold fs1. destruct dirty.
    - destruct (Hm st) as [d Hdm]. rewrite Hdm. by apply readState_child.
    - destruct (Hclean eq_refl) as [Hid0 ->]. fold st0. unfold st. rewrite Hid0. apply agentState_eta. }
  assert (disk_ok ds "telad.state" fs1) as Hok.
  { unfold fs1. destruct dirty; [|by split]. split; [by apply dir_at_insert|apply plain_slot_file]. }
  pose proof (state_start fault ds f configDir fs1 rand' names' Hgf Hok Hm Hnf) as Hs2. cbv zeta in Hs2.
  rewrite Hr in Hs2. unfold st in Hs2. cbn [as_AgentID as_Machines] in Hs2. rewrite (bool_decide_false (_ = "")) in Hs2 by done.
  rewrite giveIds_known in Hs2 by (intros n Hn; apply Hall, Hsub, Hn). exact Hs2.
Qed.

End identity.

(** ** Reconnecting *)

Lemma backoff_bounds attempt d maxDelay :
  (0 < d <= maxDelay)%Z -> (d <= backoff attempt d maxDelay <= maxDelay)%Z.
Proof.
  revert d. induction attempt as [|n IH]; intros d Hd; cbn [backoff]; [lia|].
  destruct (Z.ltb_spec maxDelay (d * 2)); [lia|]. specialize (IH (d * 2)%Z). lia.
Qed.

Lemma backoff_exact attempt d maxDelay :
  (0 < d <= maxDelay)%Z -> backoff attempt d maxDelay = Z.min maxDelay (d * 2 ^ Z.of_nat attempt)%Z.
Proof.
  revert d. induction attempt as [|n IH]; intros d Hd; cbn [backoff]; [rewrite Z.mul_1_r; lia|].
  rewrite Nat2Z.inj_succ, Z.pow_succ_r by lia.
  pose proof (Z.pow_pos_nonneg 2 (Z.of_nat n)) as Hp.
  destruct (Z.ltb_spec maxDelay (d * 2)) as [Hl|Hl]; [nia|]. rewrite IH by lia. f_equal. ring.
Qed.

(** The jitter the code draws: at most a quarter of the delay either way. *)
Definition quarter_jitter (jitter : Z -> Z) : Prop := forall d, (0 <= d)%Z -> (- (d / 4) <= jitter d <= d / 4)%Z.

Lemma delay_bounds attempt j :
  quarter_jitter j ->
  let base := Z.min (300 * second) (3 * second * 2 ^ Z.of_nat attempt) in
  (base - base / 4 <= reconnectDelay attempt (300 * second) j <= base + base / 4)%Z /\
  (second <= reconnectDelay attempt (300 * second) j <= 375 * second)%Z.
Proof.
  intros Hq base. unfold reconnectDelay. rewrite backoff_exact by (unfold second; lia). fold base.
  assert (3 * second <= base <= 300 * second)%Z as Hb.
  { unfold base. pose proof (Z.pow_pos_nonneg 2 (Z.of_nat attempt)). unfold second. lia. }
  assert (0 <= base)%Z as H0 by (unfold second in Hb; lia). specialize (Hq base H0). clearbody base. unfold second in *.
  pose proof (Z.mul_div_le base 4 ltac:(lia)). pose proof (Z.div_pos base 4 H0 ltac:(lia)).
  destruct (Z.ltb_spec (base + j base) 1000000000); lia.
Qed.

(** The attempt numbers of the delays: zero after a registration, one more otherwise. *)
Fixpoint attempts (results : list agentResult) (attempt : nat) : list nat :=
  match results with
  | [] => []
  | agentRegistered :: l => 0 :: attempts l 1
  | _ :: l => attempt :: attempts l (S attempt)
  end.

Lemma run_delays jitter stopped interrupted results n attempt :
  let run := runSingleMachine jitter stopped interrupted results n attempt in
  (exists k, fst run = imap (fun i a => reconnectDelay a (300 * second) (jitter (n + i))) (take k (attempts results attempt))) /\
  (snd run = true -> agentAuthRejected ∈ results \/ exists i, stopped i = true \/ interrupted i = true).
Proof.
  revert n attempt. induction results as [|r l IH]; intros n attempt; cbn [runSingleMachine]; [split; [by exists 0|done]|].
  assert (forall a b, let run := if stopped n then ([], true) else
      let delay := reconnectDelay a (300 * second) (jitter n) in
      if interrupted n then ([delay], true)
      else let '(ds, ended) := runSingleMachine jitter stopped interrupted l (S n) b in (delay :: ds, ended) in
    (exists k, fst run = imap (fun i a => reconnectDelay a (300 * second) (jitter (n + i))) (take k (a :: attempts l b))) /\
    (snd run = true -> agentAuthRejected ∈ r :: l \/ exists i, stopped i = true \/ interrupted i = true)) as Hgo.
  { intros a b. destruct (stopped n) eqn:Hs; [split; [by exists 0|]; intros _; right; by exists n; left|].
    destruct (interrupted n) eqn:Hi.
    { split; [exists 1; cbn; by rewrite Nat.add_0_r|]; intros _; right; by exists n; right. }
    specialize (IH (S n) b). destruct (runSingleMachine _ _ _ l _ _) as [ds ended]; cbn [fst snd] in *.
    destruct IH as [(k & Hk) Hend]; split.
    - exists (S k). cbn [take imap]. rewrite Nat.add_0_r, Hk. f_equal.
      apply imap_ext. intros i x _. cbn. by rewrite Nat.add_succ_r.
    - intros E; destruct (Hend E) as [?|?]; [left; by right|by right]. }
  destruct r; [apply Hgo|apply Hgo|]. split; [by exists 0|]. intros _. left. by left.
Qed.

(** Reconnecting backs off: a delay is three seconds doubled for every attempt since the last
    registration, up to five minutes, give or take a quarter; it is never below one second nor above
    six and a quarter minutes; and the loop ends only when the hub rejected the agent or shutdown was
    signalled. *)
Theorem reconnect_backs_off jitter stopped interrupted results n :
  (forall i, quarter_jitter (jitter i)) ->
  let '(delays, ended) := runSingleMachine jitter stopped interrupted results n 0 in
  (forall i d, delays !! i = Some d -> exists a, attempts results 0 !! i = Some a /\
     let base := Z.min (300 * second) (3 * second * 2 ^ Z.of_nat a) in
     (base - base / 4 <= d <= base + base / 4)%Z /\ (second <= d <= 375 * second)%Z) /\
  (ended = true -> agentAuthRejected ∈ results \/ exists i, stopped i = true \/ interrupted i = true).
Proof.
  intros Hj. pose proof (run_delays jitter stopped interrupted results n 0) as [(k & Hk) Hend].
  destruct (runSingleMachine _ _ _ _ _ _) as [delays ended]. cbn [fst snd] in *. split; [|done].
  intros i d Hd. rewrite Hk, list_lookup_imap in Hd. destruct (take k (attempts results 0) !! i) as [a|] eqn:Ha; [|done].
  injection Hd as <-. exists a. apply lookup_take_Some in Ha as [Ha _]. split; [done|]. by apply delay_bounds.
Qed.

(** ** Evaluated *)

Definition demo_spec : list serviceDescriptor :=
  [ServiceDescriptor 22 "SSH" "tcp" ""; ServiceDescriptor 3389 "RDP" "tcp" "Remote Desktop: main"].
Lemma parsePortSpecs_roundtrip_witness :
  String.concat "," (map showSpec demo_spec) = "22:SSH:,3389:RDP:Remote Desktop: main" /\
  parsePortSpecs "22:SSH:,3389:RDP:Remote Desktop: main" = demo_spec.
Proof.
  split; [by vm_compute|]. apply (parsePortSpecs_roundtrip demo_spec).
  - discriminate.
  - repeat apply Forall_cons_2; [| |apply Forall_nil_2]; split; cbn [svc_Port svc_Proto svc_Name svc_Description];
      try lia; try reflexivity; repeat split; try (by vm_compute);
      intros Hin; apply list_elem_of_In in Hin; repeat (destruct Hin as [Hin|Hin]; [discriminate|]); destruct Hin.
Defined.

Lemma reconnect_backs_off_witness :
  runSingleMachine (fun _ _ => 0%Z) (fun n => (n =? 3)%nat) (fun _ => false)
    [agentDisconnected; agentDisconnected; agentRegistered; agentDisconnected] 0 0 =
    ([3 * second; 6 * second; 3 * second]%Z, true) /\
  (agentAuthRejected ∈ [agentDisconnected; agentDisconnected; agentRegistered; agentDisconnected] \/
   exists i, (i =? 3)%nat = true \/ false = true).
Proof.
  split; [by vm_compute|].
  pose proof (reconnect_backs_off (fun _ _ => 0%Z) (fun n => (n =? 3)%nat) (fun _ => false)
    [agentDisconnected; agentDisconnected; agentRegistered; agentDisconnected] 0) as H.
  apply H; [|reflexivity]. intros i d Hd. pose proof (Z.div_pos d 4). lia.
Defined.
