(* ===== verification/AgentMgmtProofs.v ===== *)
(** * Managing the agent

    What a management request may change, what it may reveal, how the hub's defaults are merged, and
    which updates are installed. *)

From S2P Require Import Prelude Http HubConfig AdminState Sha256 Channel FilePath FileSys FileShare Agent SessionState.
From S2P Require Import HubLog AgentMgmt.
From S2P Require AdminUpdate.
From Stdlib Require Import ZArith Lia Ascii String.
From stdpp Require Import base gmap strings list fin_maps.

(** ** Merging the hub's defaults *)

Section merge.
  Context `{RangeOrder}.

Definition prefer (local hub : option string) : option string :=
  match local with
  | Some v => Some v
  | None => match hub with Some b => if b =s "" then None else Some b | None => None end
  end.

Lemma merge_fold_notin l s k : k ∉ l.*1 -> fold_left mergeSource l s !! k = s !! k.
Proof.
  revert s. induction l as [|[a b] l IH]; intros s Hk; [done|]. cbn in Hk. apply not_elem_of_cons in Hk as [Hk Hl].
  cbn [fold_left]. rewrite IH by done. unfold mergeSource. cbn [fst snd]. destruct (b =s ""); [done|].
  destruct (s !! a); [done|]. by rewrite lookup_insert_ne.
Qed.

Lemma merge_fold_in l s k b :
  NoDup l.*1 -> (k, b) ∈ l -> fold_left mergeSource l s !! k = prefer (s !! k) (Some b).
Proof.
  revert s. induction l as [|[a c] l IH]; intros s Hn Hin; [by apply elem_of_nil in Hin|].
  cbn in Hn. apply NoDup_cons in Hn as [Ha Hn]. cbn [fold_left]. apply elem_of_cons in Hin as [[= <- <-]|Hin].
  - rewrite merge_fold_notin by done. unfold mergeSource, prefer. cbn [fst snd].
    destruct (bool_decide_reflect (b = "")) as [->|Hb]; [by destruct (s !! k)|].
    destruct (s !! k) eqn:E; [by rewrite E|]. by rewrite lookup_insert_eq.
  - rewrite (IH _ Hn Hin). assert (k <> a) as Hne.
    { intros ->. apply Ha, list_elem_of_fmap. by exists (a, b). }
    unfold mergeSource. cbn [fst snd]. destruct (c =s ""); [done|]. destruct (s !! a); [done|].
    by rewrite lookup_insert_ne.
Qed.

Lemma mergeDefaults_sources d u k :
  uc_Sources (mergeDefaults d u) !! k = prefer (uc_Sources u !! k) (uc_Sources d !! k).
Proof.
  cbn [mergeDefaults uc_Sources]. destruct (uc_Sources d !! k) as [b|] eqn:E.
  - apply merge_fold_in; [apply range_NoDup|]. by apply elem_of_range.
  - rewrite merge_fold_notin; [by destruct (uc_Sources u !! k)|].
    intros Hin%list_elem_of_fmap. destruct Hin as ([k' b] & -> & Hin). apply elem_of_range in Hin. cbn in E. congruence.
Qed.

Lemma mergeDefaults_idem d u : mergeDefaults d (mergeDefaults d u) = mergeDefaults d u.
Proof.
  destruct (mergeDefaults d (mergeDefaults d u)) as [c1 s1] eqn:E1, (mergeDefaults d u) as [c2 s2] eqn:E2.
  assert (s1 = s2) as ->.
  { apply map_eq. intros k. change s1 with (uc_Sources (UpdateConfig c1 s1)). change s2 with (uc_Sources (UpdateConfig c2 s2)).
    rewrite <- E1, mergeDefaults_sources, <- E2, mergeDefaults_sources. unfold prefer.
    destruct (uc_Sources u !! k); [done|]. destruct (uc_Sources d !! k) as [b|]; [|done]. by destruct (b =s ""). }
  f_equal. apply (f_equal uc_Channel) in E1, E2. cbn [mergeDefaults uc_Channel] in E1, E2. rewrite <- E1, <- E2.
  destruct (bool_decide_reflect (uc_Channel u = "")) as [Hu|Hu]; cbn [andb negb].
  - destruct (bool_decide_reflect (uc_Channel d = "")) as [Hd|Hd]; cbn [andb negb].
    + by rewrite andb_false_r.
    + by rewrite (bool_decide_false (uc_Channel d = "")).
  - by rewrite (bool_decide_false (uc_Channel u = "")).
Qed.

End merge.

(** ** What a request changes *)

(** The actions that save the configuration. *)
Definition saves (action : string) : bool :=
  bool_decide (action ∈ ["config-set"; "update-channel"; "channel-sources-set"; "channel-sources-remove"]).

Section effects.
  Context {AC : AgentCodec} {LD : ListsDecoder} `{RangeOrder} (version : string).

(** The configuration a request asks for; [false] for what of it is decoded before a field that does not
    fit. *)
Definition asked (payload : option json) (field : string) : string := trim_space (to_lower (payload_string payload field)).

Inductive allowed (action : string) (payload : option json) (c : configFile) : bool -> configFile -> Prop :=
  | al_machine kvs name pre m m' ok post :
      action = "config-set" -> payload = Some (JObj kvs) -> decode_string "machine" kvs "" true = (name, true) ->
      cf_Machines c = pre ++ m :: post -> Forall (fun x => mc_Name x <> name) pre -> mc_Name m = name ->
      unmarshalMachine (decode_raw "fields" kvs) m = (m', ok) ->
      allowed action payload c ok (set_cf_Machines c (pre ++ m' :: post))
  | al_channel :
      let channel := asked payload "channel" in
      action = "update-channel" -> channel = "" \/ IsValid channel = true ->
      allowed action payload c true
        (set_cf_Update c (AdminUpdate.patchUpdate (cf_Update c) channel (payload_string payload "manifestBase")))
  | al_source :
      let name := asked payload "name" in
      action = "channel-sources-set" -> IsValid name = true ->
      allowed action payload c true
        (with_sources c (<[name := AdminUpdate.sourceBase (payload_string payload "base")]> (uc_Sources (cf_Update c))))
  | al_unsource :
      let name := asked payload "name" in
      action = "channel-sources-remove" -> is_Some (uc_Sources (cf_Update c) !! name) ->
      allowed action payload c true (with_sources c (delete name (uc_Sources (cf_Update c)))).

Lemma on_machine_Some name f ms ms' ok :
  on_machine name f ms = Some (ms', ok) ->
  exists pre m post, ms = pre ++ m :: post /\ Forall (fun x => mc_Name x <> name) pre /\ mc_Name m = name /\
    ms' = pre ++ fst (f m) :: post /\ ok = snd (f m).
Proof.
  revert ms' ok. induction ms as [|m ms IH]; intros ms' ok; cbn [on_machine]; [done|].
  destruct (bool_decide_reflect (mc_Name m = name)) as [Hn|Hn].
  - intros [= <- <-]. exists [], m, ms. by split_and!.
  - destruct (on_machine name f ms) as [[ms1 ok1]|]; [|done]. intros [= <- <-].
    destruct (IH _ _ eq_refl) as (pre & x & post & -> & Hp & Hx & -> & ->).
    exists (m :: pre), x, post. split_and!; [done|by constructor|done..].
Qed.

Context (a : agent) (ds : ppath) (f : string) (fault : saveEnv).
Context (Hpath : ag_path a = abs (ds ++ [f])) (Hg : good_elems (ds ++ [f])) (Hok : disk_ok ds f (ag_fs a)).

(** The outcome of saving [cfg] from a state that differs from [a] in its configuration only: the whole
    document in the file; or nothing written; or what a write that broke off left. *)
Definition save_failed (cfg : configFile) (fs' : fsys) : Prop :=
  (fs' = ag_fs a /\ (MarshalAgent cfg = None \/ se_fault fault "open" = true)) \/
  (se_fault fault "write" = true /\
   exists d, MarshalAgent cfg = Some d /\ fs' = <[ds ++ [f] := NFile (take (se_short fault) d)]> (ag_fs a)).
Definition saved (cfg : configFile) (ok : bool) (a' : agent) : Prop :=
  ag_cfg a' = Some cfg /\
  if ok then exists d, MarshalAgent cfg = Some d /\ ag_fs a' = <[ds ++ [f] := NFile d]> (ag_fs a)
  else save_failed cfg (ag_fs a').

Lemma writeAgentConfig_saved cfg e a' :
  writeAgentConfig fault (with_agcfg a cfg) cfg = (e, a') -> saved cfg (bool_decide (e = None)) a'.
Proof.
  destruct Hok as [Hd Hs]. unfold writeAgentConfig. destruct (MarshalAgent cfg) as [d|] eqn:Hm.
  2: { intros [= <- <-]. split; [done|]. left. by auto. }
  destruct (se_fault fault "open") eqn:Hopen; [intros [= <- <-]; split; [done|left; by auto]|].
  cbn [with_agcfg ag_fs ag_path]. rewrite Hpath, WriteFile_child by done.
  destruct (se_fault fault "write") eqn:Hw; intros [= <- <-]; (split; [done|]); cbn.
  - right. split; [done|]. by exists d.
  - by exists d.
Qed.

Lemma saveUpdate_saved id cfg answer r a' :
  saveUpdate fault a id cfg answer = (r, a') -> mr_RequestID r = id /\ saved cfg (mr_OK r) a'.
Proof.
  unfold saveUpdate. destruct (writeAgentConfig _ _ _) as [e a1] eqn:Hw. apply writeAgentConfig_saved in Hw.
  destruct e as [e|]; intros [= <- <-]; done.
Qed.

(** The four saving actions, all at once. *)
Definition outcome (action : string) (payload : option json) (id : string) (r : mgmtResponse) (a' : agent) : Prop :=
  mr_RequestID r = id /\
  ((mr_OK r = false /\ ag_cfg a' = ag_cfg a /\ ag_fs a' = ag_fs a) \/
   exists c c' ok, ag_cfg a = Some c /\ allowed action payload c ok c' /\
     if ok then saved c' (mr_OK r) a' else mr_OK r = false /\ ag_cfg a' = Some c' /\ ag_fs a' = ag_fs a).

Lemma outcome_no action payload id msg : outcome action payload id (mgmtNo id msg) a.
Proof. split; [done|]. by left. Qed.

Lemma outcome_save action payload id c c' answer r a' :
  ag_cfg a = Some c -> allowed action payload c true c' -> saveUpdate fault a id c' answer = (r, a') ->
  outcome action payload id r a'.
Proof.
  intros Hc Hal (Hid & Hs)%saveUpdate_saved. split; [done|]. right. exists c, c', true. by split_and!.
Qed.

Lemma configSet_outcome id payload r a' :
  configSet fault a id payload = (r, a') -> outcome "config-set" payload id r a'.
Proof.
  unfold configSet. destruct (ag_cfg a) as [c|] eqn:Hc; [|intros [= <- <-]; apply outcome_no].
  destruct (ag_path a =s ""); [intros [= <- <-]; apply outcome_no|].
  destruct (match payload with Some JNull => Some [] | Some (JObj kvs) => Some kvs | _ => None end) as [kvs|] eqn:Hkvs;
    [|intros [= <- <-]; apply outcome_no].
  destruct (decode_string "machine" kvs "" true) as [machine ok] eqn:Hmach.
  destruct ok; cbn [negb]; [|intros [= <- <-]; apply outcome_no].
  destruct (on_machine _ _ _) as [[ms ok]|] eqn:Hon; [|intros [= <- <-]; apply outcome_no].
  apply on_machine_Some in Hon as (pre & m & post & Hms & Hpre & Hm & -> & ->).
  set (fields := decode_raw "fields" kvs) in *. set (c' := set_cf_Machines c _).
  assert ((payload = Some JNull /\ fields = None) \/ allowed "config-set" payload c (snd (unmarshalMachine fields m)) c') as [[Hnull Hf]|Hal].
  { destruct payload as [[]|]; try discriminate Hkvs; [left; by injection Hkvs as <-|right].
    injection Hkvs as ->. apply (al_machine _ _ _ kvs machine pre m _ _ post); try done. apply surjective_pairing. }
  - assert (c' = c) as ->.
    { unfold c'. rewrite Hf. cbn [unmarshalMachine fst]. rewrite <- Hms. by destruct c. }
    rewrite Hf. cbn [unmarshalMachine snd negb]. intros [= <- <-]. split; [done|]. left. by rewrite Hc.
  - destruct (snd (unmarshalMachine fields m)) eqn:Hsnd; cbn [negb].
    2: { intros [= <- <-]. split; [done|]. right. by exists c, c', false. }
    destruct (writeAgentConfig _ _ _) as [e a1] eqn:Hw. apply writeAgentConfig_saved in Hw as [Hcfg Hfs].
    destruct e as [[]|]; intros [= <- <-]; (split; [done|]); right; exists c, c', true; by split_and!.
Qed.

Lemma updateChannel_outcome id payload r a' :
  mgmtUpdateChannel fault a id payload = (r, a') -> outcome "update-channel" payload id r a'.
Proof.
  unfold mgmtUpdateChannel. set (ch := trim_space _). set (base := payload_string payload "manifestBase").
  destruct ((ch <>s "") && negb (IsValid ch)) eqn:Hv; [intros [= <- <-]; apply outcome_no|].
  destruct (ag_cfg a) as [c|] eqn:Hc; [|intros [= <- <-]; apply outcome_no].
  destruct (ag_path a =s ""); [intros [= <- <-]; apply outcome_no|].
  intros Hs. eapply outcome_save; [done| |exact Hs]. apply al_channel; [done|]. unfold asked. fold ch.
  destruct (bool_decide_reflect (ch = "")) as [|Hne]; [by left|right]. cbn in Hv. by apply negb_false_iff in Hv.
Qed.

Lemma sourcesSet_outcome id payload r a' :
  mgmtSourcesSet fault a id payload = (r, a') -> outcome "channel-sources-set" payload id r a'.
Proof.
  unfold mgmtSourcesSet. set (name := trim_space _).
  destruct (IsValid name) eqn:Hv; [|intros [= <- <-]; apply outcome_no]. cbn [negb].
  destruct (ag_cfg a) as [c|] eqn:Hc; [|intros [= <- <-]; apply outcome_no].
  destruct (ag_path a =s ""); [intros [= <- <-]; apply outcome_no|].
  intros Hs. eapply outcome_save; [done| |exact Hs]. by apply al_source.
Qed.

Lemma sourcesRemove_outcome id payload r a' :
  mgmtSourcesRemove fault a id payload = (r, a') -> outcome "channel-sources-remove" payload id r a'.
Proof.
  unfold mgmtSourcesRemove. set (name := trim_space _).
  destruct (ag_cfg a) as [c|] eqn:Hc; [|intros [= <- <-]; apply outcome_no].
  destruct (ag_path a =s ""); [intros [= <- <-]; apply outcome_no|].
  destruct (uc_Sources (cf_Update c) !! name) as [b|] eqn:Hb; [|intros [= <- <-]; apply outcome_no].
  intros Hs. eapply outcome_save; [done| |exact Hs]. by apply al_unsource.
Qed.

End effects.

Section requests.
  Context {AC : AgentCodec} {LD : ListsDecoder} `{RangeOrder} (version : string).

(** The updates read the channel and touch the fetcher only. *)
Lemma latestReleaseFrom_frame net now b ch base v b' :
  latestReleaseFrom net now b ch base = (v, b') -> exists fe, b' = with_fetcher b fe.
Proof.
  unfold latestReleaseFrom. destruct (agentChannel b) as [c0 b0]. destruct (GetURL _ _ _ _ _) as [m fe].
  intros [= <- <-]. by exists fe.
Qed.

Lemma mgmtUpdate_frame a net now id payload r a' fu :
  mgmtUpdate version net now a id payload = (r, a', fu) ->
  mr_RequestID r = id /\ (exists fe, a' = with_fetcher a fe) /\ (fu <> MfNone -> mr_OK r = true).
Proof.
  unfold mgmtUpdate. set (v := payload_string payload "version").
  set (latest := if _ || _ then _ else _). destruct latest as [o b] eqn:Hl.
  assert (exists fe, b = with_fetcher a fe) as Hb.
  { unfold latest in Hl. destruct (_ || _); [by apply latestReleaseFrom_frame in Hl|].
    injection Hl as <- <-. exists (ag_fetcher a). by destruct a. }
  destruct o as [ver|]; [|by intros [= <- <- <-]].
  destruct (_ && _); [by intros [= <- <- <-]|]. destruct (_ && _); by intros [= <- <- <-].
Qed.

Lemma handle_outcome env a id action payload ds f r a' fu :
  ag_path a = abs (ds ++ [f]) -> good_elems (ds ++ [f]) -> disk_ok ds f (ag_fs a) ->
  handleMgmtRequest version env a id action payload = (r, a', fu) ->
  mr_RequestID r = id /\ (fu <> MfNone -> mr_OK r = true) /\
  if saves action then outcome a ds f (mg_fault env) action payload id r a'
  else exists fe, a' = with_fetcher a fe.
Proof.
  intros Hp Hg Hok. unfold handleMgmtRequest.
  assert (a = with_fetcher a (ag_fetcher a)) as Hself by (by destruct a).
  destruct (bool_decide_reflect (action = "config-get")) as [->|_].
  { intros [= <- <- <-]. split_and!; [|done|by eexists]. unfold configGet. by destruct (ag_cfg a). }
  destruct (bool_decide_reflect (action = "config-set")) as [->|N10].
  { destruct (configSet _ _ _ _) as [r1 a1] eqn:E. intros [= <- <- <-].
    apply (configSet_outcome a ds f (mg_fault env) Hp Hg Hok) in E. split_and!; [apply E|done|exact E]. }
  destruct (bool_decide_reflect (action = "logs")) as [->|_]; [intros [= <- <- <-]; split_and!; [done..|by eexists]|].
  destruct (bool_decide_reflect (action = "restart")) as [->|_]; [intros [= <- <- <-]; split_and!; [done..|by eexists]|].
  destruct (bool_decide_reflect (action = "update")) as [->|_].
  { intros E. apply mgmtUpdate_frame in E as (? & ? & ?). by split_and!. }
  destruct (bool_decide_reflect (action = "update-status")) as [->|_].
  { unfold mgmtUpdateStatus. destruct (agentChannel a) as [ch base]. destruct (latestRelease _ _ a) as [o b] eqn:E.
    apply latestReleaseFrom_frame in E. destruct o; intros [= <- <- <-]; by split_and!. }
  destruct (bool_decide_reflect (action = "update-channel")) as [->|N14].
  { destruct (mgmtUpdateChannel _ _ _ _) as [r1 a1] eqn:E. intros [= <- <- <-].
    apply (updateChannel_outcome a ds f (mg_fault env) Hp Hg Hok) in E. split_and!; [apply E|done|exact E]. }
  destruct (bool_decide_reflect (action = "channel-sources-list")) as [->|_];
    [intros [= <- <- <-]; split_and!; [done..|by eexists]|].
  destruct (bool_decide_reflect (action = "channel-sources-set")) as [->|N19].
  { destruct (mgmtSourcesSet _ _ _ _) as [r1 a1] eqn:E. intros [= <- <- <-].
    apply (sourcesSet_outcome a ds f (mg_fault env) Hp Hg Hok) in E. split_and!; [apply E|done|exact E]. }
  destruct (bool_decide_reflect (action = "channel-sources-remove")) as [->|N22].
  { destruct (mgmtSourcesRemove _ _ _ _) as [r1 a1] eqn:E. intros [= <- <- <-].
    apply (sourcesRemove_outcome a ds f (mg_fault env) Hp Hg Hok) in E. split_and!; [apply E|done|exact E]. }
  intros [= <- <- <-]. split_and!; [done..|]. unfold saves.
  rewrite bool_decide_false; [by eexists|]. rewrite !elem_of_cons, elem_of_nil. naive_solver.
Qed.

Lemma handle_id env a id action payload :
  mr_RequestID (fst (fst (handleMgmtRequest version env a id action payload))) = id.
Proof.
  unfold handleMgmtRequest.
  destruct (action =s "config-get"); [cbn; unfold configGet; by destruct (ag_cfg a)|].
  destruct (action =s "config-set").
  { cbn. unfold configSet. repeat (case_match; try done). }
  destruct (action =s "logs"); [done|]. destruct (action =s "restart"); [done|].
  destruct (action =s "update").
  { destruct (mgmtUpdate _ _ _ _ _ _) as [[r b] fu] eqn:E. by apply mgmtUpdate_frame in E as [? _]. }
  destruct (action =s "update-status").
  { cbn. unfold mgmtUpdateStatus. repeat (case_match; try done). }
  assert (forall c answer, mr_RequestID (fst (saveUpdate (mg_fault env) a id c answer)) = id) as Hsave.
  { intros c answer. unfold saveUpdate. by destruct (writeAgentConfig _ _ _) as [[]]. }
  destruct (action =s "update-channel").
  { cbn. unfold mgmtUpdateChannel. repeat (case_match; try done). }
  destruct (action =s "channel-sources-list"); [done|].
  destruct (action =s "channel-sources-set").
  { cbn. unfold mgmtSourcesSet. repeat (case_match; try done). }
  destruct (action =s "channel-sources-remove"); [|done].
  cbn. unfold mgmtSourcesRemove. repeat (case_match; try done).
Qed.

(** C17. Managing the agent.  Every request is answered under its identifier, and only an accepted one
    is followed by a restart or an update.  A request other than the four that save settings changes
    neither the configuration nor any file.  One of those four that is answered with success leaves
    in force, and in the configuration file, the one change it asked for: of a single machine of the
    name it gave, or of the update settings; and no other file changes.  One that is refused leaves
    everything as it was; or, for machine fields that do not decode, keeps the file and has what was
    decoded before the error in force; or has the change in force although its save failed, and then the
    file is as it was unless the write itself broke off. *)
Theorem mgmt_effects env a id action payload ds f c r a' fu :
  ag_cfg a = Some c -> ag_path a = abs (ds ++ [f]) -> good_elems (ds ++ [f]) -> disk_ok ds f (ag_fs a) ->
  handleMgmtRequest version env a id action payload = (r, a', fu) ->
  mr_RequestID r = id /\ (fu <> MfNone -> mr_OK r = true) /\
  (saves action = false -> ag_cfg a' = Some c /\ ag_fs a' = ag_fs a) /\
  (saves action = true -> mr_OK r = true ->
     exists c' d, allowed action payload c true c' /\ ag_cfg a' = Some c' /\ MarshalAgent c' = Some d /\
       ag_fs a' = <[ds ++ [f] := NFile d]> (ag_fs a) /\ ReadFile (ag_fs a') (ag_path a) = RdData d) /\
  (saves action = true -> mr_OK r = false ->
     (ag_cfg a' = Some c /\ ag_fs a' = ag_fs a) \/
     exists c' ok, allowed action payload c ok c' /\ ag_cfg a' = Some c' /\
       if ok then save_failed a ds f (mg_fault env) c' (ag_fs a') else ag_fs a' = ag_fs a).
Proof.
  intros Hc Hp Hg Hok Hh. apply (handle_outcome _ _ _ _ _ ds f) in Hh as (Hid & Hfu & Ho); [|done..].
  split_and!; [done|done|..]; intros Hs; rewrite Hs in Ho.
  - destruct Ho as [fe ->]. by split.
  - intros Hr. destruct Ho as [_ [[Hf _]|(c0 & c' & ok & Hc0 & Hal & Hsv)]]; [congruence|]. rewrite Hr in Hsv.
    destruct ok; [|by destruct Hsv]. destruct Hsv as (Hcfg & d & Hd & Hfs). exists c', d. assert (c0 = c) as -> by congruence.
    split_and!; [done..|]. rewrite Hfs, Hp. destruct Hok as [Hdir Hslot].
    rewrite ReadFile_child; [by rewrite lookup_insert_eq|done|by apply dir_at_insert|apply plain_slot_file].
  - intros Hr. destruct Ho as [_ [(_ & H1 & H2)|(c0 & c' & ok & Hc0 & Hal & Hsv)]]; [left; by rewrite H1|right].
    assert (c0 = c) as -> by congruence. exists c', ok. rewrite Hr in Hsv. split; [done|].
    destruct ok; [by destruct Hsv|by destruct Hsv as (_ & ? & ?)].
Qed.

(** ** What a request reveals *)

Definition blind_machine (m : machineConfig) : machineConfig :=
  MachineConfig (mc_Name m) (mc_DisplayName m) (mc_Hostname m) (mc_OS m) (mc_Tags m) (mc_Location m) (mc_Owner m)
    (mc_Ports m) (mc_Services m) (mc_Target m) "" (mc_FileShare m) (mc_Shares m) (mc_Gateway m) (mc_Upstreams m).
Definition blind_config (c : configFile) : configFile :=
  ConfigFile (cf_Hub c) "" (map blind_machine (cf_Machines c)) (cf_Update c).
(** The agent with all its tokens erased. *)
Definition blind (a : agent) : agent :=
  MkAgent (blind_config <$> ag_cfg a) (ag_path a) (ag_reregister a) (ag_fetcher a) (ag_fs a).

Lemma decode_string_ok name kvs v w ok : snd (decode_string name kvs v ok) = snd (decode_string name kvs w ok).
Proof.
  revert v w ok. induction kvs as [|[k j] kvs IH]; intros v w ok; [done|]. cbn [decode_string].
  destruct (equal_fold k name); [|apply IH]. destruct j; apply IH.
Qed.

Lemma unmarshal_blind fields m :
  snd (unmarshalMachine fields (blind_machine m)) = snd (unmarshalMachine fields m).
Proof.
  destruct fields as [[]|]; try done. cbn [unmarshalMachine decodeMachine snd].
  rewrite (decode_string_ok "Token" kvs (mc_Token (blind_machine m)) (mc_Token m)). done.
Qed.

Lemma on_machine_blind name fields ms :
  snd <$> on_machine name (unmarshalMachine fields) (map blind_machine ms) =
  snd <$> on_machine name (unmarshalMachine fields) ms.
Proof.
  induction ms as [|m ms IH]; [done|]. cbn [map on_machine]. change (mc_Name (blind_machine m)) with (mc_Name m).
  destruct (mc_Name m =s name); [cbn; by rewrite unmarshal_blind|].
  destruct (on_machine _ _ ms) as [[]|], (on_machine _ _ (map blind_machine ms)) as [[]|]; cbn in *; congruence.
Qed.

Lemma agentChannel_update a b :
  cf_Update <$> ag_cfg a = cf_Update <$> ag_cfg b -> agentChannel a = agentChannel b.
Proof. unfold agentChannel. destruct (ag_cfg a), (ag_cfg b); cbn; [|done..]. intros E. injection E as E. by rewrite E. Qed.

Lemma agentChannel_blind a : agentChannel (blind a) = agentChannel a.
Proof. apply agentChannel_update. cbn. by destruct (ag_cfg a). Qed.

Context (Hm : forall c, is_Some (MarshalAgent c)).

Lemma write_blind fault a b c c' :
  ag_path a = ag_path b -> ag_fs a = ag_fs b ->
  fst (writeAgentConfig fault a c) = fst (writeAgentConfig fault b c') /\
  ag_cfg (snd (writeAgentConfig fault a c)) = ag_cfg a.
Proof.
  intros Hp Hf. unfold writeAgentConfig. destruct (Hm c) as [d ->], (Hm c') as [d' ->].
  destruct (se_fault fault "open"); [done|]. rewrite Hp, Hf. unfold WriteFile.
  destruct (resolve _ _ _) as [q n| | |]; [destruct n|..]; by destruct (se_fault fault "write").
Qed.

Lemma saveUpdate_blind fault a id c answer :
  (forall b b', cf_Update <$> ag_cfg b = cf_Update <$> ag_cfg b' -> answer b = answer b') ->
  fst (saveUpdate fault (blind a) id (blind_config c) answer) = fst (saveUpdate fault a id c answer).
Proof.
  intros Ha. unfold saveUpdate.
  pose proof (write_blind fault (with_agcfg a c) (with_agcfg (blind a) (blind_config c)) c (blind_config c) eq_refl eq_refl) as [E1 E2].
  pose proof (write_blind fault (with_agcfg (blind a) (blind_config c)) (with_agcfg a c) (blind_config c) c eq_refl eq_refl) as [_ E3].
  destruct (writeAgentConfig _ (with_agcfg a c) _) as [e1 b1], (writeAgentConfig _ (with_agcfg (blind a) _) _) as [e2 b2].
  cbn [fst snd] in *. subst e2. destruct e1; [done|]. cbn [fst]. f_equal. apply Ha. by rewrite E2, E3.
Qed.

Lemma configSet_blind fault a id payload :
  fst (configSet fault (blind a) id payload) = fst (configSet fault a id payload).
Proof.
  unfold configSet. cbn [blind ag_cfg ag_path]. destruct (ag_cfg a) as [c|] eqn:Hc; [|done]. cbn [fmap option_fmap option_map].
  destruct (ag_path a =s ""); [done|].
  destruct (match payload with Some JNull => Some [] | Some (JObj kvs) => Some kvs | _ => None end) as [kvs|]; [|done].
  destruct (decode_string "machine" kvs "" true) as [machine ok]. destruct ok; [|done]. cbn [negb].
  pose proof (on_machine_blind machine (decode_raw "fields" kvs) (cf_Machines c)) as Hb.
  change (cf_Machines (blind_config c)) with (map blind_machine (cf_Machines c)).
  destruct (on_machine _ _ (map blind_machine (cf_Machines c))) as [[ms1 ok1]|], (on_machine _ _ (cf_Machines c)) as [[ms2 ok2]|];
    try discriminate Hb; [|done]. injection Hb as ->. destruct ok2; [|done]. cbn [negb].
  pose proof (write_blind fault (with_agcfg a (set_cf_Machines c ms2))
    (with_agcfg (blind a) (set_cf_Machines (blind_config c) ms1)) (set_cf_Machines c ms2)
    (set_cf_Machines (blind_config c) ms1) eq_refl eq_refl) as [E _].
  unfold blind in E. destruct (writeAgentConfig fault _ (set_cf_Machines c ms2)) as [e1 b1].
  rewrite Hc in E. cbn [fmap option_fmap option_map] in E.
  destruct (writeAgentConfig fault _ (set_cf_Machines (blind_config c) ms1)) as [e2 b2]. cbn [fst] in E. subst e2.
  by destruct e1 as [[]|].
Qed.

(** The three changes of the update settings. *)
Ltac open_config a :=
  cbn [blind ag_cfg ag_path]; destruct (ag_cfg a) as [c|]; [|done]; cbn [fmap option_fmap option_map];
  destruct (ag_path a =s ""); [done|].

Lemma updateChannel_blind fault a id payload :
  fst (mgmtUpdateChannel fault (blind a) id payload) = fst (mgmtUpdateChannel fault a id payload).
Proof.
  unfold mgmtUpdateChannel. destruct (_ && _); [done|]. open_config a.
  apply (saveUpdate_blind fault a id (set_cf_Update c _)). intros b b' E. by rewrite (agentChannel_update b b' E).
Qed.

Lemma sourcesSet_blind fault a id payload :
  fst (mgmtSourcesSet fault (blind a) id payload) = fst (mgmtSourcesSet fault a id payload).
Proof.
  unfold mgmtSourcesSet. destruct (negb _); [done|]. open_config a.
  by apply (saveUpdate_blind fault a id (with_sources c _)).
Qed.

Lemma sourcesRemove_blind fault a id payload :
  fst (mgmtSourcesRemove fault (blind a) id payload) = fst (mgmtSourcesRemove fault a id payload).
Proof.
  unfold mgmtSourcesRemove. open_config a. change (cf_Update (blind_config c)) with (cf_Update c).
  destruct (_ !! _); [|done]. by apply (saveUpdate_blind fault a id (with_sources c _)).
Qed.

Lemma mgmtUpdate_blind net now a id payload :
  let '(r, _, fu) := mgmtUpdate version net now a id payload in
  let '(r', _, fu') := mgmtUpdate version net now (blind a) id payload in r' = r /\ fu' = fu.
Proof.
  assert (forall ch base, fst (latestReleaseFrom net now (blind a) ch base) = fst (latestReleaseFrom net now a ch base)) as Hl.
  { intros ch base. unfold latestReleaseFrom. rewrite agentChannel_blind. destruct (agentChannel a).
    cbn [blind ag_fetcher]. by destruct (GetURL _ _ _ _ _). }
  assert (forall b fe, agentChannel (with_fetcher b fe) = agentChannel b) as Hfe by done.
  unfold mgmtUpdate. set (v := payload_string payload "version"). set (ch := payload_string payload "channel").
  set (base := payload_string payload "manifestBase"). specialize (Hl ch base).
  assert (forall b o b', (if (v =s "") || (v =s "latest") then latestReleaseFrom net now b ch base else (Some v, b)) = (o, b') ->
    agentChannel b' = agentChannel b) as Hch.
  { intros b o b'. destruct (_ || _); [|by intros [= <- <-]]. intros E. by apply latestReleaseFrom_frame in E as [fe ->]. }
  destruct (if (v =s "") || (v =s "latest") then latestReleaseFrom net now a ch base else (Some v, a)) as [o b] eqn:E1.
  destruct (if (v =s "") || (v =s "latest") then latestReleaseFrom net now (blind a) ch base else (Some v, blind a)) as [o' b'] eqn:E2.
  assert (o' = o) as ->.
  { destruct (_ || _); [rewrite E1, E2 in Hl; exact Hl|congruence]. }
  apply Hch in E1, E2. rewrite E1, E2, agentChannel_blind.
  destruct o as [ver|]; [|done]. destruct (_ && _); [done|]. by destruct (_ && _).
Qed.

(** No answer of the agent, and nothing that follows one, depends on any token it holds: with all
    tokens erased from its configuration it answers every request the same. *)
Theorem answers_hide_tokens env a id action payload :
  let '(r, _, fu) := handleMgmtRequest version env a id action payload in
  let '(r', _, fu') := handleMgmtRequest version env (blind a) id action payload in r' = r /\ fu' = fu.
Proof.
  unfold handleMgmtRequest. destruct (action =s "config-get").
  { unfold configGet. cbn [blind ag_cfg ag_path]. destruct (ag_cfg a) as [c|]; [|done]. cbn. by rewrite map_map. }
  destruct (action =s "config-set").
  { pose proof (configSet_blind (mg_fault env) a id payload) as E. by destruct (configSet _ a _ _), (configSet _ (blind a) _ _). }
  destruct (action =s "logs"); [done|]. destruct (action =s "restart"); [done|].
  destruct (action =s "update"); [apply mgmtUpdate_blind|].
  destruct (action =s "update-status").
  { unfold mgmtUpdateStatus, latestRelease, latestReleaseFrom. rewrite agentChannel_blind. destruct (agentChannel a).
    cbn [blind ag_fetcher]. destruct (GetURL _ _ _ _ _) as [m fe]. by destruct m. }
  destruct (action =s "update-channel").
  { pose proof (updateChannel_blind (mg_fault env) a id payload) as E.
    by destruct (mgmtUpdateChannel _ a _ _), (mgmtUpdateChannel _ (blind a) _ _). }
  destruct (action =s "channel-sources-list").
  { unfold mgmtSourcesList. cbn [blind ag_cfg]. by destruct (ag_cfg a). }
  destruct (action =s "channel-sources-set").
  { pose proof (sourcesSet_blind (mg_fault env) a id payload) as E.
    by destruct (mgmtSourcesSet _ a _ _), (mgmtSourcesSet _ (blind a) _ _). }
  destruct (action =s "channel-sources-remove"); [|done].
  pose proof (sourcesRemove_blind (mg_fault env) a id payload) as E.
  by destruct (mgmtSourcesRemove _ a _ _), (mgmtSourcesRemove _ (blind a) _ _).
Qed.

End requests.

(** ** Updates *)

Section updates.
  Context {AC : AgentCodec} {LD : ListsDecoder} `{RangeOrder} (version : string).

Lemma InferFromVersion_valid v : InferFromVersion v = "" \/ IsValid (InferFromVersion v) = true.
Proof.
  unfold InferFromVersion. destruct (trim_space v) as [|c t]; [by left|].
  destruct (cut _ "-") as [[core pre]|]; [|destruct (looksLikeSemverCore _); [by right|by left]].
  destruct (negb _); [by left|]. destruct (IsValid (to_lower (before "." pre))) eqn:E; [by right|by left].
Qed.

(** A management request makes the agent update only forwards: what it updates to differs from the
    running release, and when no version was named and the channel is the running version's own, it is
    strictly newer; and what then replaces the executable was listed by a manifest fetched now from the
    channel asked for, is of that very version, and has the listed size and SHA-256. *)
Theorem agent_update_verified env a id payload r a' ver ch base exe net download now a1 data a2 :
  version <> "dev" ->
  handleMgmtRequest version env a id "update" payload = (r, a', MfUpdate ver ch base) ->
  ver <> version /\
  (payload_string payload "version" ∈ [""; "latest"] ->
   InferFromVersion version = (if ch =s "" then fst (agentChannel a) else ch) -> InferFromVersion version <> "" ->
   (CompareVersions version ver < 0)%Z) /\
  (downloadAndStageUpdate exe net download now a1 ver ch base = (inr data, a2) ->
   exists m entry,
     fetch net (ManifestURL (if base =s "" then snd (agentChannel a1) else base)
                            (if ch =s "" then fst (agentChannel a1) else ch)) = Some m /\
     Validate (Some m) = None /\ mf_Version m = ver /\
     mf_Binaries m !! AdminUpdate.exe_binaryName exe = Some entry /\
     Z.of_nat (length data) = Channel.Size entry /\ hex_decode (bytes (SHA256 entry)) = Some (sha256 data)).
Proof.
  intros Hdev Hh. change (mgmtUpdate version (mg_net env) (mg_now env) a id payload = (r, a', MfUpdate ver ch base)) in Hh.
  unfold mgmtUpdate in Hh. set (req := payload_string payload "version") in *.
  destruct (if (req =s "") || (req =s "latest") then _ else _) as [o b] eqn:Hres.
  assert (agentChannel b = agentChannel a) as Hb.
  { destruct (_ || _) in Hres; [|by injection Hres as _ <-]. by apply latestReleaseFrom_frame in Hres as [fe ->]. }
  destruct o as [v|]; [|done]. destruct (_ && _) eqn:Hsame in Hh; [done|].
  destruct (_ && _) eqn:Hguard in Hh; [done|]. injection Hh as _ _ <- <- <-.
  rewrite (bool_decide_false (version = "dev")) in Hsame by done. cbn [negb] in Hsame. rewrite andb_true_r in Hsame. prop_bool.
  set (ch := payload_string payload "channel") in *. set (base := payload_string payload "manifestBase").
  split_and!; [done|..].
  - intros Hreq Hinf Hne.
    assert (Normalize (InferFromVersion version) = InferFromVersion version) as Hnorm
      by (apply Normalize_id; by destruct (InferFromVersion_valid version)).
    assert ((req <>s "") && (req <>s "latest") = false) as Hex.
    { rewrite !elem_of_cons, elem_of_nil in Hreq. destruct Hreq as [-> | [-> | []]]; done. }
    rewrite Hex, Hb, <- Hinf, <- Hnorm in Hguard. cbn [negb] in Hguard.
    by apply (AdminUpdate.unguarded_newer _ _ (InferFromVersion version) Hdev).
  - unfold downloadAndStageUpdate, Fetch. destruct (AdminUpdate.exe_found exe); cbn [negb]; [|done].
    destruct (agentChannel a1) as [ch1 base1]. cbn [fst snd].
    assert ((if ch <>s "" then ch else ch1) = if ch =s "" then ch1 else ch) as -> by (by destruct (ch =s "")).
    assert ((if base <>s "" then base else base1) = if base =s "" then base1 else base) as -> by (by destruct (base =s "")).
    destruct (fetch net _) as [m|] eqn:Hf; [|done]. intros [= Hi _].
    destruct (AdminUpdate.installFrom_verified _ _ _ _ _ _ _ Hf Hi) as (entry & Hv & Hver & He & _ & Hrest).
    exists m, entry. split_and!; try done; apply Hrest.
Qed.

End updates.
