(* ===== verification/AgentE2E.v ===== *)
(** * Hub and agent together

    A management request from an administrator to the agent and back, a changed configuration on its
    way to the hub's registry, the hub's update settings adopted by its agents, and the addresses of
    the sessions the hub hands out.

    The second part evaluates a small agent and hub. *)

From S2P Require Import Prelude Auth Http HubConfig AdminState Channel FilePath FileSys FileShare Agent SessionState.
From S2P Require Import Bridge Relay Session SessionInvariant HubLog HubStatus AgentMgmt AgentMgmtProofs AdminTokens.
From S2P Require Import Sha256 UdpRelay SessionE2E AgentProofs.
From S2P Require AdminUpdate.
From Stdlib Require Import ZArith Lia Ascii String.
From stdpp Require Import base countable gmap strings list fin_maps relations.

(** The frame in which a response arrives at the hub. *)
Definition response_frame (resp : mgmtResponse) (fr : wsFrame) : Prop :=
  wf_binary fr = false /\
  exists sm, wf_msg fr = Some sm /\ sm_Type sm = "mgmt-response" /\ sm_RequestID sm = mr_RequestID resp.

Lemma deliver_response `{RangeOrder} {A} `{Authorizer A} (bridgeDir : gmap string bridgeConfig) (env : senv A) s c
    state resp fr :
  ss_wsStates s !! c = Some state -> ws_Paired state = false -> response_frame resp fr -> mr_RequestID resp <> "" ->
  handleFrame bridgeDir env s c fr = ([Deliver (mr_RequestID resp) (wf_data fr)], s, true).
Proof.
  intros Hs Hp (Hb & sm & Hm & Ht & Hid) Hne. unfold handleFrame. rewrite Hs, Hp, Hb, Hm, Ht, Hid. cbn.
  by rewrite (bool_decide_false (mr_RequestID resp = "")).
Qed.

Lemma awaited_skip id pre out post :
  (forall data, Deliver id data ∉ pre) -> awaited id (pre ++ Deliver id out :: post) = Some out.
Proof.
  intros Hpre. unfold awaited.
  assert (find_first (fun o => match o with Deliver i _ => i =s id | _ => false end) (pre ++ Deliver id out :: post) =
    Some (Deliver id out)) as ->; [|done].
  induction pre as [|o pre IH]; cbn [app find_first]; [by rewrite bool_decide_true|].
  destruct o; try (apply IH; intros d Hin; apply (Hpre d); by right).
  destruct (bool_decide_reflect (requestID = id)) as [->|].
  - destruct (Hpre data). by left.
  - apply IH. intros d Hin. apply (Hpre d). by right.
Qed.

(** C16. Management, end to end.  When a caller who may manage a connected machine asks for an action, the
    agent at the other end of the machine's control connection answers that very request first, and
    once the hub has read the answer's frame, unless an answer under the same identifier came before,
    the caller gets its bytes. *)
Theorem managed_end_to_end {AC : AgentCodec} {LD : ListsDecoder} `{RangeOrder} {A} `{Authorizer A} version auth now ae s r
    machineName action key p e control payload menv reg ag result
    (bridgeDir : gmap string bridgeConfig) (env : senv A) s' state :
  splitn2 (trim_prefix (r_Path r) "/api/admin/agents/") "/" = [machineName; action] ->
  r_Method r <> "OPTIONS" -> machineName <> "" -> action <> "" ->
  canManage auth now (tokenFromRequest r) machineName = true ->
  resolveName s machineName = Some (key, p, e) -> me_ControlWS e = Some control -> ae_writable ae = true ->
  let id := hexText (ae_rand ae) in
  id <> "" -> mgmtRequest id action r = MMgmtRequest id action payload ->
  ss_wsStates s' !! control = Some state -> ws_Paired state = false ->
  exists resp more,
    fst (handleAdminAgents auth now ae s r) = [Send control (MMgmtRequest id action payload)] /\
    st_out (agentReceive version menv reg ag result (MMgmtRequest id action payload)) = AoResponse resp :: more /\
    resp = fst (fst (handleMgmtRequest version menv ag id action payload)) /\
    forall fr pre post, response_frame resp fr ->
      (forall data, Deliver id data ∉ pre) ->
      ae_delivered ae = pre ++ fst (fst (handleFrame bridgeDir env s' control fr)) ++ post ->
      snd (handleAdminAgents auth now ae s r) = AgentsResponse (wf_data fr).
Proof.
  intros Hparts Hopt Hm Ha Hcan Hres Hctl Hw id Hid Hreq Hst Hpaired.
  unfold agentReceive. pose proof (handle_id version menv ag id action payload) as Hrid.
  destruct (handleMgmtRequest version menv ag id action payload) as [[resp ag1] fu]. cbn [fst] in Hrid.
  destruct (reregister reg ag1) as [regs ag2]. exists resp, regs. cbn [st_out].
  unfold handleAdminAgents. rewrite (bool_decide_false (r_Method r = "OPTIONS")) by done. rewrite Hparts.
  rewrite (bool_decide_false (machineName = "")), (bool_decide_false (action = "")) by done. cbn [orb].
  rewrite Hcan, Hres, Hctl, Hw. cbn [negb]. fold id. rewrite Hreq.
  split; [by destruct (awaited _ _)|]. split; [done|]. split; [done|].
  intros fr pre post Hfr Hpre Hdel.
  rewrite (deliver_response bridgeDir env s' control state resp fr) in Hdel by (done || by rewrite Hrid).
  cbn [fst app] in Hdel. rewrite Hrid in Hdel. by rewrite Hdel, awaited_skip.
Qed.

(** ** Sessions *)

Lemma address_inj i j x y :
  (0 <= i)%Z -> (0 <= j)%Z -> "10.77." +:+ Itoa i +:+ String "." x = "10.77." +:+ Itoa j +:+ String "." y -> i = j /\ x = y.
Proof.
  intros Hi Hj E. apply (f_equal (fun s => cut (trim_prefix s "10.77.") ".")) in E.
  assert (forall n, (0 <= n)%Z -> (("."%char : ascii) ∉ bytes (Itoa n)) /\ Itoa n = FormatUint n) as Hno.
  { intros n Hn. assert (Itoa n = FormatUint n) as En by (unfold Itoa; by rewrite (proj2 (Z.ltb_ge n 0))).
    split; [|done]. rewrite En. intros Hin. by apply FormatUint_digit in Hin. }
  destruct (Hno i Hi) as [Hdi Ei], (Hno j Hj) as [Hdj Ej]. rewrite !trim_prefix_app, !cut_byte in E by done.
  injection E as E ->. split; [|done]. rewrite Ei, Ej in E. by apply FormatUint_inj.
Qed.

Lemma octet_addresses i :
  (1 <= i <= 254)%Z ->
  sessionAddresses i = Some ("10.77." +:+ Itoa i +:+ ".1", "10.77." +:+ Itoa i +:+ ".2").
Proof.
  intros Hi. unfold sessionAddresses. rewrite (proj2 (Z.ltb_ge i 1)), (proj2 (Z.ltb_ge 254 i)) by lia. done.
Qed.

(** C19. Whatever the connections of a hub do, the agent accepts the index of every session of a machine,
    and no two live sessions of a machine share an address inside their tunnels. *)
Theorem session_addresses_distinct `{RangeOrder} {A} `{Authorizer A} (bridgeDir : gmap string bridgeConfig)
    s0 s p e sid1 sid2 cs1 cs2 :
  ss_heap s0 = ∅ -> session_run bridgeDir s0 s -> ss_heap s !! p = Some e ->
  me_Sessions e !! sid1 = Some cs1 -> me_Sessions e !! sid2 = Some cs2 -> sid1 <> sid2 ->
  exists a1 h1 a2 h2,
    sessionAddresses (cs_SessionIdx cs1) = Some (a1, h1) /\ sessionAddresses (cs_SessionIdx cs2) = Some (a2, h2) /\
    NoDup [a1; h1; a2; h2].
Proof.
  intros Hnone Hrun He Hs1 Hs2 Hne.
  assert (sessions_inv s) as Hall.
  { apply (session_run_inv bridgeDir s0 s); [|done]. intros q x. by rewrite Hnone, lookup_empty. }
  destruct (Hall p e He) as [Hn Hs Hinj].
  destruct (Hs sid1 cs1 Hs1) as [_ Hi1], (Hs sid2 cs2 Hs2) as [_ Hi2].
  assert (cs_SessionIdx cs1 <> cs_SessionIdx cs2) as Hd by (intros E; by apply Hne, (Hinj sid1 sid2 cs1 cs2)).
  eexists _, _, _, _. split; [apply octet_addresses; lia|]. split; [apply octet_addresses; lia|].
  repeat (apply NoDup_cons; split; [|]); [..|by apply NoDup_nil].
  all: rewrite ?elem_of_cons, elem_of_nil; intros Hin;
    repeat (destruct Hin as [Hin|Hin]; [apply address_inj in Hin as [? ?]; [congruence|lia|lia]|]); destruct Hin.
Qed.

(** ** The hub's update settings *)

Section hub.
  Context {AC : AgentCodec} {LD : ListsDecoder} `{RangeOrder} {A} `{Authorizer A} (version : string).

Lemma register_pushes (env : senv A) s c state msg name u :
  Send c (MRegistered name u) ∈ fst (handleRegister env s c state msg) ->
  u = (if (uc_Channel (se_update env) <>s "") || (0 <? size (uc_Sources (se_update env)))%nat
       then Some (se_update env) else None).
Proof.
  unfold handleRegister. set (o := if (uc_Channel (se_update env) <>s "") || _ then _ else _). clearbody o.
  destruct (bool_decide _); [unfold sendError; cbn [fst]; by rewrite !elem_of_cons, elem_of_nil; intros [?|[?|[]]]|].
  destruct (_ && _); [unfold sendError; cbn [fst]; by rewrite !elem_of_cons, elem_of_nil; intros [?|[?|[]]]|].
  destruct (findOrCreate _ _ _ _ _) as [[p entry] s1]. cbn [fst]. rewrite elem_of_app, !elem_of_cons, elem_of_nil.
  intros [Hin|[Hin|[Hin|[]]]]; [|done|congruence].
  destruct (me_ControlWS entry); [|by apply elem_of_nil in Hin].
  destruct (bool_decide _); [by apply elem_of_nil in Hin|by apply list_elem_of_singleton in Hin].
Qed.

Lemma mergeDefaults_channel d u : uc_Channel (mergeDefaults d u) = if uc_Channel u =s "" then uc_Channel d else uc_Channel u.
Proof.
  cbn. destruct (bool_decide_reflect (uc_Channel u = "")) as [E|]; cbn; [|done].
  destruct (bool_decide_reflect (uc_Channel d = "")); cbn; congruence.
Qed.

(** The hub's update settings reach its agents: when a registration is accepted, the agent takes over
    the hub's channel if it has none, and every source of the hub that names a place and that it has
    not set itself, whatever the order they arrive in; an agent without settings of its own then
    follows the channel the hub follows, from the same place; and a second registration changes
    nothing. *)
Theorem hub_settings_adopted (env : senv A) s c state msg name u menv reg a result cfg :
  Send c (MRegistered name u) ∈ fst (handleRegister env s c state msg) -> ag_cfg a = Some cfg ->
  let step := agentReceive version menv reg a result (MRegistered name u) in
  let local := cf_Update cfg in
  exists cfg', ag_cfg (st_agent step) = Some cfg' /\ st_next step = Goes agentRegistered /\
    uc_Channel (cf_Update cfg') = (if uc_Channel local =s "" then uc_Channel (se_update env) else uc_Channel local) /\
    (forall k, uc_Sources (cf_Update cfg') !! k = prefer (uc_Sources local !! k) (uc_Sources (se_update env) !! k)) /\
    (local = UpdateConfig "" ∅ -> forall st, AdminUpdate.cfg_update st = se_update env ->
       agentChannel (st_agent step) = AdminUpdate.hubChannel st) /\
    st_agent (agentReceive version menv reg (st_agent step) agentRegistered (MRegistered name u)) = st_agent step.
Proof.
  intros Hin Hcfg step local. apply register_pushes in Hin.
  set (hub := se_update env) in *.
  assert (exists cfg', ag_cfg (st_agent step) = Some cfg' /\ st_next step = Goes agentRegistered /\
    uc_Channel (cf_Update cfg') = (if uc_Channel local =s "" then uc_Channel hub else uc_Channel local) /\
    (forall k, uc_Sources (cf_Update cfg') !! k = prefer (uc_Sources local !! k) (uc_Sources hub !! k)) /\
    st_agent (agentReceive version menv reg (st_agent step) agentRegistered (MRegistered name u)) = st_agent step)
    as (cfg' & H1 & H2 & H3 & H4 & H5).
  { destruct u as [d|]; unfold step, agentReceive; rewrite ?Hcfg; cbn [st_agent st_next].
    - destruct (_ || _) in Hin; [|done]. injection Hin as ->.
      exists (set_cf_Update cfg (mergeDefaults hub local)). split_and!; [done|done|apply mergeDefaults_channel| |].
      + intros k. apply mergeDefaults_sources.
      + cbn [with_agcfg ag_cfg]. unfold with_agcfg. cbn. f_equal. f_equal. unfold set_cf_Update. cbn [cf_Update cf_Hub cf_Token cf_Machines].
        by rewrite mergeDefaults_idem.
    - exists cfg. destruct (_ || _) eqn:Hb in Hin; [done|]. apply orb_false_iff in Hb as [Hc Hs].
      apply negb_false_iff, bool_decide_eq_true in Hc. apply Nat.ltb_ge in Hs.
      assert (uc_Sources hub = ∅) as He by (apply map_size_empty_inv; lia).
      split_and!; [done|done| | |done].
      + fold local. rewrite Hc. by destruct (bool_decide_reflect (uc_Channel local = "")).
      + intros k. fold local. rewrite He, lookup_empty. by destruct (uc_Sources local !! k). }
  exists cfg'. split_and!; try done. intros Hloc st Hst. unfold agentChannel, AdminUpdate.hubChannel.
  rewrite H1, Hst. fold hub. rewrite Hloc in H3, H4. cbn [uc_Channel uc_Sources] in H3, H4.
  rewrite bool_decide_true in H3 by done. rewrite H3. f_equal. unfold ResolveBase. rewrite H4, lookup_empty. cbn [prefer].
  destruct (uc_Sources hub !! _) as [b|]; [|done].
  destruct (b =s "") eqn:E; rewrite ?E; done.
Qed.

(** ** Configuration changes *)

(** A change of the configuration reaches the hub.  After an accepted [config-set] on the
    configuration of a machine that is registered over this very connection, the agent follows its
    answer by a registration that the hub, if it still admits the agent, applies to the same entry:
    the sessions, the identity and the control connection stay, and tags, location, owner and
    display name become those of the new configuration wherever it gives one. *)
Theorem config_set_reaches_hub (env : senv A) s c state p e menv reg a result payload id cfg' m :
  let step := agentReceive version menv reg a result (MMgmtRequest id "config-set" payload) in
  let name := rg_MachineName reg in
  mr_OK (fst (configSet (mg_fault menv) a id payload)) = true ->
  ag_cfg (st_agent step) = Some cfg' -> find_first (fun x => mc_Name x =s name) (cf_Machines cfg') = Some m ->
  rg_AgentID reg <> "" -> name <> "" ->
  lookup_entry s (machineKeyOf (rg_AgentID reg) name) = Some (p, e) -> me_ControlWS e = Some c ->
  az_canRegister (se_auth env) (se_now env) (rg_Token reg) name = true ->
  exists msg e', st_out step = [AoResponse (fst (configSet (mg_fault menv) a id payload)); AoRegister msg] /\
    ag_reregister (st_agent step) = false /\
    ss_heap (snd (handleRegister env s c state msg)) !! p = Some e' /\
    ss_machines (snd (handleRegister env s c state msg)) = ss_machines s /\
    me_Sessions e' = me_Sessions e /\ me_MachineRegistrationID e' = me_MachineRegistrationID e /\
    me_ControlWS e' = Some c /\
    me_DisplayName e' = (if mc_DisplayName m =s "" then me_DisplayName e else mc_DisplayName m) /\
    me_Location e' = (if mc_Location m =s "" then me_Location e else mc_Location m) /\
    me_Owner e' = (if mc_Owner m =s "" then me_Owner e else mc_Owner m) /\
    me_Tags e' = (match mc_Tags m with [] => me_Tags e | t => Some t end).
Proof.
  intros step name Hok Hcfg Hm Hid Hn Hl Hc Hreg. unfold step, agentReceive in *.
  change (handleMgmtRequest version menv a id "config-set" payload)
    with (configSet (mg_fault menv) a id payload, MfNone) in *.
  assert (ag_reregister (snd (configSet (mg_fault menv) a id payload)) = true) as Hflag.
  { revert Hok. clear. unfold configSet. repeat (case_match; try done). }
  destruct (configSet (mg_fault menv) a id payload) as [r a1]. cbn [fst snd] in *.
  unfold reregister in *. rewrite Hflag in *. cbn [with_reregister ag_cfg st_agent ag_reregister st_out] in *.
  rewrite Hcfg. fold name in Hm |- *. rewrite Hm.
  assert (mc_Name m = name) as Hmn
    by (apply find_first_Some in Hm as (_ & Hx); by apply bool_decide_eq_true in Hx).
  exists (reregisterMsg reg m), (registerEntry (se_now env) c (reregisterMsg reg m) e).
  unfold handleRegister. cbn [reregisterMsg sm_AgentID sm_MachineName sm_Token sm_MachineRegistrationID].
  rewrite Hmn, (bool_decide_false (rg_AgentID reg = "")) by done. rewrite Hreg. cbn [negb]. rewrite andb_false_r.
  rewrite (bool_decide_true ("" = "")) by done. cbn [negb].
  unfold findOrCreate.
  match goal with |- context [lookup_entry ?x _] => change (lookup_entry x) with (lookup_entry s) end.
  rewrite Hl. cbn [snd]. split; [done|]. split; [done|]. split; [apply lookup_insert_eq|].
  split; [done|]. unfold registerEntry, omitempty. cbn.
  assert (forall x y : string, (if x <>s "" then x else y) = if x =s "" then y else x) as Hkeep by (intros x y; by destruct (x =s "")).
  rewrite !Hkeep. split_and!; try done. by destruct (mc_Tags m).
Qed.

End hub.

(** * A small agent, evaluated

    Codecs for the agent's files, a configuration with two machines, and the theorems about the agent
    and about hub and agent at these inputs; then the corner cases of the code. *)

(** ** Codecs: a document is one number *)

#[export] Instance serviceDescriptor_eq : EqDecision serviceDescriptor.
Proof. solve_decision. Defined.
#[export] Instance serviceDescriptor_countable : Countable serviceDescriptor.
Proof.
  apply (inj_countable' (fun s => (svc_Port s, svc_Name s, svc_Proto s, svc_Description s))
    (fun '(a, b, c, d) => ServiceDescriptor a b c d)). by intros [].
Defined.
#[export] Instance gatewayRoute_eq : EqDecision gatewayRoute.
Proof. solve_decision. Defined.
#[export] Instance gatewayRoute_countable : Countable gatewayRoute.
Proof. apply (inj_countable' (fun s => (gr_Path s, gr_Target s)) (fun '(a, b) => GatewayRoute a b)). by intros []. Defined.
#[export] Instance gatewayConfig_eq : EqDecision gatewayConfig.
Proof. solve_decision. Defined.
#[export] Instance gatewayConfig_countable : Countable gatewayConfig.
Proof. apply (inj_countable' (fun s => (gw_Port s, gw_Routes s)) (fun '(a, b) => GatewayConfig a b)). by intros []. Defined.
#[export] Instance shareConfig_eq : EqDecision shareConfig.
Proof. solve_decision. Defined.
#[export] Instance shareConfig_countable : Countable shareConfig.
Proof.
  apply (inj_countable' (fun s => (sc_Name s, sc_Path s, sc_Writable s, sc_MaxFileSize s, sc_MaxTotalSize s,
      (sc_AllowDelete s, sc_AllowedExtensions s, sc_BlockedExtensions s)))
    (fun '(a, b, c, d, e, (f, g, h)) => ShareConfig a b c d e f g h)). by intros [].
Defined.
#[export] Instance fileShareConfig_eq : EqDecision fileShareConfig.
Proof. solve_decision. Defined.
#[export] Instance fileShareConfig_countable : Countable fileShareConfig.
Proof. apply (inj_countable' (fun s => (fc_Enabled s, fc_Share s)) (fun '(a, b) => FileShareConfig a b)). by intros []. Defined.
#[export] Instance upstreamConfig_eq : EqDecision upstreamConfig.
Proof. solve_decision. Defined.
#[export] Instance upstreamConfig_countable : Countable upstreamConfig.
Proof. apply (inj_countable' (fun s => (up_Port s, up_Target s, up_Name s)) (fun '(a, b, c) => UpstreamConfig a b c)). by intros []. Defined.
#[export] Instance machineConfig_eq : EqDecision machineConfig.
Proof. solve_decision. Defined.
#[export] Instance machineConfig_countable : Countable machineConfig.
Proof.
  apply (inj_countable' (fun m => (mc_Name m, mc_DisplayName m, mc_Hostname m, mc_OS m, mc_Tags m,
      (mc_Location m, mc_Owner m, mc_Ports m, mc_Services m, mc_Target m),
      (mc_Token m, mc_FileShare m, mc_Shares m, mc_Gateway m, mc_Upstreams m)))
    (fun '(a, b, c, d, e, (f, g, h, i, j), (k, l, m, n, o)) => MachineConfig a b c d e f g h i j k l m n o)). by intros [].
Defined.

#[export] Instance demo_agent_codec : AgentCodec.
Proof.
  refine {| MarshalAgent c := Some [Zpos (encode (cf_Hub c, cf_Token c, cf_Machines c, uc_Channel (cf_Update c), uc_Sources (cf_Update c)))];
            UnmarshalAgent d := match d with
              | [Zpos p] => (fun '(h, t, ms, ch, src) => ConfigFile h t ms (UpdateConfig ch src)) <$> decode p
              | _ => None end |}.
  intros [h t ms [ch src]] d E. injection E as <-. by rewrite decode_encode.
Defined.

#[export] Instance demo_state_codec : StateCodec.
Proof.
  refine {| MarshalState s := Some [Zpos (encode (as_AgentID s, as_Machines s))];
            UnmarshalState d := match d with
              | [Zpos p] => default zeroState ((fun '(i, ms) => AgentState i ms) <$> decode p)
              | _ => zeroState end |}.
  intros [i ms] d E. injection E as <-. by rewrite decode_encode.
Defined.

(** Of the lists, the tags are decoded. *)
#[export] Instance demo_lists : ListsDecoder := {|
  decodeLists kvs l :=
    let '(tags, ok) := decode_strings "Tags" kvs (ml_Tags l) true in
    (MachineLists tags (ml_Ports l) (ml_Services l) (ml_FileShare l) (ml_Shares l) (ml_Gateway l) (ml_Upstreams l), ok)
|}.

(** ** Loading and identity *)

Definition no_shares : fileShareConfig := FileShareConfig false (ShareConfig "" "" false "" "" false [] []).
Definition ag_machine (name token : string) (ports : list Z) : machineConfig :=
  MachineConfig name "" "" "" [] "" "" ports [] "" token no_shares [] None [].
Definition ag_written : configFile :=
  ConfigFile "wss://hub.example" "" [ag_machine "m" "at" [22; 80]%Z; ag_machine "n" "" [5432]%Z] (UpdateConfig "" ∅).
Definition ag_ds : ppath := ["etc"; "tela"].
Definition ag_file : string := "telad.yaml".
Definition ag_disk : fsys :=
  <[ag_ds ++ [ag_file] := NFile (default [] (MarshalAgent ag_written))]> {[ ["etc"] := NDir; ["etc"; "tela"] := NDir ]}.
Definition ag_lookup (hub : string) : string := if hub =s "wss://hub.example" then "stored" else "".

Definition ag_loaded : loadError + configFile := loadConfig ag_lookup ag_disk (abs (ag_ds ++ [ag_file])).
Definition ag_config : configFile := match ag_loaded with inr c => c | inl _ => ag_written end.
Lemma ag_loaded_ok : ag_loaded = inr ag_config.
Proof. unfold ag_config. assert (exists c, ag_loaded = inr c) as [c ->]; [|done]. unfold ag_loaded. eexists. vm_compute. reflexivity. Qed.

Lemma loadConfig_type_witness :
  map mc_Token (cf_Machines ag_config) = ["at"; "stored"] /\ config_ok ag_lookup ag_config.
Proof.
  split; [by vm_compute|]. exact (proj1 (loadConfig_type ag_lookup ag_disk _ ag_config ag_loaded_ok)).
Defined.

Lemma ag_path_good : good_elems (ag_ds ++ [ag_file]).
Proof. apply (bool_decide_unpack _). by vm_compute. Qed.
Lemma ag_dir : dir_at ag_ds ag_disk.
Proof.
  apply (dir_at_snoc ["etc"]); [|by vm_compute]. apply (dir_at_snoc []); [|by vm_compute]. apply dir_at_nil.
Qed.

Definition ag_rand (n : nat) : option (list Z) := Some [Z.of_nat n; 7%Z].
Definition ag_named : agentState * fsys :=
  loadOrCreateAgentState ag_rand no_fault ag_disk "" (abs (ag_ds ++ [ag_file])) ["m"; "n"].

Lemma identity_stable_witness :
  regIDFor (fst ag_named) "n" = "02070000-0000-4000-8000-000000000000" /\
  loadOrCreateAgentState (fun _ => None) no_fault (snd ag_named) "" (abs (ag_ds ++ [ag_file])) ["n"] =
    (fst ag_named, snd ag_named).
Proof.
  split; [by vm_compute|].
  destruct (identity_stable no_fault ag_ds ag_file "" ag_disk ag_rand ["m"; "n"] (fst ag_named) (snd ag_named))
    as (_ & _ & _ & H).
  - exact ag_path_good.
  - split; [exact ag_dir|left; by vm_compute].
  - intros s. by eexists.
  - reflexivity.
  - apply surjective_pairing.
  - apply H. intros n Hn. by right.
Defined.

(** ** Management *)

Lemma triple_eta {X Y Z} (x : X * Y * Z) : x = (x.1.1, x.1.2, x.2).
Proof. by destruct x as [[? ?] ?]. Qed.

Definition ag_env : mgmtEnv := MgmtEnv no_fault AdminUpdate.demo_net 5 (lg_ring noLog).
Definition ag_fetch : Fetcher := MkFetcher "" 0 ∅.
Definition ag_now : agent := MkAgent (Some ag_config) (abs (ag_ds ++ [ag_file])) false ag_fetch ag_disk.
Definition ag_set : option json :=
  Some (JObj [("machine", JStr "m"); ("fields", JObj [("displayName", JStr "Main"); ("tags", JArr [JStr "lab"])])]).
Definition ag_after : mgmtResponse * agent * mgmtFollowUp :=
  handleMgmtRequest "v1.0.0" ag_env ag_now "r1" "config-set" ag_set.

Lemma ag_disk_ok : disk_ok ag_ds ag_file ag_disk.
Proof. split; [exact ag_dir|right; eexists; apply lookup_insert_eq]. Qed.

Lemma mgmt_effects_witness :
  mr_OK (fst (fst ag_after)) = true /\
  exists c' d, allowed "config-set" ag_set ag_config true c' /\ ag_cfg (snd (fst ag_after)) = Some c' /\
    ag_fs (snd (fst ag_after)) = <[ag_ds ++ [ag_file] := NFile d]> ag_disk.
Proof.
  assert (mr_OK (fst (fst ag_after)) = true) as Hok by (vm_compute; reflexivity). split; [exact Hok|].
  destruct (mgmt_effects "v1.0.0" ag_env ag_now "r1" "config-set" ag_set ag_ds ag_file ag_config
    (fst (fst ag_after)) (snd (fst ag_after)) (snd ag_after)) as (_ & _ & _ & H & _).
  - reflexivity.
  - reflexivity.
  - exact ag_path_good.
  - exact ag_disk_ok.
  - exact (triple_eta ag_after).
  - destruct (H eq_refl Hok) as (c' & d & H1 & H2 & _ & H3 & _). exists c', d. by split_and!.
Defined.

Lemma demo_marshals c : is_Some (MarshalAgent c).
Proof. by eexists. Qed.

Lemma answers_hide_tokens_witness :
  fst (fst (handleMgmtRequest "v1.0.0" ag_env (blind ag_now) "r1" "config-set" ag_set)) = fst (fst ag_after).
Proof.
  pose proof (answers_hide_tokens "v1.0.0" demo_marshals ag_env ag_now "r1" "config-set" ag_set) as H.
  unfold ag_after. destruct (handleMgmtRequest _ _ ag_now _ _ _) as [[r a] fu],
    (handleMgmtRequest _ _ (blind ag_now) _ _ _) as [[r' a'] fu']. exact (proj1 H).
Defined.

Definition ag_beta : agent :=
  MkAgent (Some (set_cf_Update ag_config (UpdateConfig "beta" ∅))) (abs (ag_ds ++ [ag_file])) false ag_fetch ag_disk.
Definition ag_update : mgmtResponse * agent * mgmtFollowUp :=
  handleMgmtRequest "v0.9.0-beta.1" ag_env ag_beta "r1" "update" None.
Definition ag_staged : (AdminUpdate.stageError + list Z) * agent :=
  downloadAndStageUpdate AdminUpdate.demo_exe AdminUpdate.demo_net AdminUpdate.demo_mirror 6 ag_beta "v0.9.0-beta.2" "" "".

Lemma agent_update_verified_witness :
  snd ag_update = MfUpdate "v0.9.0-beta.2" "" "" /\ fst ag_staged = inr [97; 98; 99]%Z /\
  (CompareVersions "v0.9.0-beta.1" "v0.9.0-beta.2" < 0)%Z /\
  exists m, mf_Version m = "v0.9.0-beta.2" /\ Validate (Some m) = None.
Proof.
  assert (snd ag_update = MfUpdate "v0.9.0-beta.2" "" "") as Hu by (vm_compute; reflexivity).
  assert (fst ag_staged = inr [97; 98; 99]%Z) as Hs by (vm_compute; reflexivity).
  split; [exact Hu|]. split; [exact Hs|].
  destruct (agent_update_verified "v0.9.0-beta.1" ag_env ag_beta "r1" None (fst (fst ag_update)) (snd (fst ag_update))
    "v0.9.0-beta.2" "" "" AdminUpdate.demo_exe AdminUpdate.demo_net AdminUpdate.demo_mirror 6 ag_beta
    [97; 98; 99]%Z (snd ag_staged)) as (_ & H1 & H2).
  - discriminate.
  - rewrite <- Hu. exact (triple_eta ag_update).
  - split.
    + apply H1; [left|vm_compute; reflexivity|vm_compute; discriminate].
    + destruct H2 as (m & _ & _ & Hv & Hver & _).
      * rewrite <- Hs. apply surjective_pairing.
      * exists m. by split.
Defined.

(** ** Hub and agent *)

Definition ag_reg (name regID token : string) : registration :=
  Registration name "A" regID "" "host" "linux" "v1.0.0" [] "" "" token [22]%Z [] [] None.
Definition ag_id : string := "01020304050607ff".
Definition ag_frame (id : string) : wsFrame :=
  WsFrame false [123; 125]%Z
    (Some (SignalingMsg "mgmt-response" 0 "" "" "" "" "" "" None [] "" "" "" "" None "" "" "" None id)) BodyEmpty.
Definition ag_hub : sessions := set_ws st_sessions 7 (WsState "agent" "agent-web:web" "web" "" false None "" 1 [] "" None).
Definition ag_delivered : list output := fst (fst (handleFrame noBridges (ex_env 1 [] []) ag_hub 7 (ag_frame ag_id))).
Definition ag_request : request :=
  Request "POST" "/api/admin/agents/web/logs" "Bearer b" None ∅ "" (BodyJson (JObj [("lines", JNum 5)])).

Lemma managed_end_to_end_witness :
  snd (handleAdminAgents st_auth 5 (st_agents ag_delivered) ag_hub ag_request) = AgentsResponse [123; 125]%Z.
Proof.
  destruct (managed_end_to_end "v1.0.0" st_auth 5 (st_agents ag_delivered) ag_hub ag_request "web" "logs" "agent-web:web" 1
    (st_entry "web" (Some 7%nat) [22; 80]%Z) 7 (Some (JObj [("lines", JNum 5)])) ag_env (ag_reg "web" "" "at") ag_now
    agentRegistered noBridges (ex_env 1 [] []) ag_hub
    (WsState "agent" "agent-web:web" "web" "" false None "" 1 [] "" None)) as (resp & more & _ & _ & Hresp & H).
  1: by vm_compute.
  1: discriminate. 1: discriminate. 1: discriminate.
  1: by vm_compute. 1: by vm_compute. 1: by vm_compute. 1: by vm_compute. 1: by vm_compute.
  1: by vm_compute. 1: by vm_compute. 1: by vm_compute.
  apply (H (ag_frame ag_id) [] []).
  - split; [reflexivity|]. eexists. split; [reflexivity|]. split; [reflexivity|].
    rewrite Hresp. symmetry. by vm_compute.
  - intros d Hin. by apply elem_of_nil in Hin.
  - by rewrite app_nil_r.
Defined.

(** A second client of the same machine. *)
Definition h4' : sessions := set_ws h4 4 newWsState.
Definition sid9 : list Z := [2; 2; 3; 4; 5; 6; 7; 8]%Z.
Definition h6 : sessions := after (ex_env 5 sid9 []) h4' 4 (text connectMsg).

Lemma session_addresses_distinct_witness :
  exists a1 h1 a2 h2,
    sessionAddresses 1 = Some (a1, h1) /\ sessionAddresses 2 = Some (a2, h2) /\ NoDup [a1; h1; a2; h2].
Proof.
  refine (session_addresses_distinct noBridges h0 h6 0 (entry_of h6) (hexText sid8) (hexText sid9)
    (ClientSession (hexText sid8) 1 (Some 2) (Some 3) [hexText tokA; hexText tokC] 2)
    (ClientSession (hexText sid9) 2 (Some 4) None [] 5) eq_refl _ _ _ _ _).
  - unfold session_run. transitivity h4; [exact ex_run|]. apply (run_open _ 4); [reflexivity|].
    apply (run_frame (ex_env 5 sid9 []) 4 (text connectMsg)); [reflexivity..|]. apply rtc_refl.
  - vm_compute. reflexivity.
  - vm_compute. reflexivity.
  - vm_compute. reflexivity.
  - discriminate.
Defined.

(** A hub on the channel [beta] with a source of its own; the registration of [m] is admitted. *)
Definition push_env : senv authStore :=
  SEnv 1 ex_auth (UpdateConfig "beta" {[ "beta" := "https://mirror.example/ch" ]}) "uuid-1" [] [] ex_peer.
Definition pushed : list output := fst (handleRegister push_env h1 1 newWsState regMsg).

Lemma hub_settings_adopted_witness :
  agentChannel (st_agent (agentReceive "v1.0.0" ag_env (ag_reg "m" "r1" "at") ag_now agentDisconnected
    (MRegistered "m" (Some (se_update push_env))))) = ("beta", "https://mirror.example/ch").
Proof.
  destruct (hub_settings_adopted "v1.0.0" push_env h1 1 newWsState regMsg "m" (Some (se_update push_env)) ag_env
    (ag_reg "m" "r1" "at") ag_now agentDisconnected ag_config) as (cfg' & _ & _ & _ & _ & H & _).
  - assert (In (Send 1 (MRegistered "m" (Some (se_update push_env)))) pushed) as Hin; [|by apply list_elem_of_In].
    vm_compute. tauto.
  - reflexivity.
  - rewrite (H eq_refl (with_cfg demo_hub (set_Update (globalCfg demo_hub) (se_update push_env))) eq_refl). by vm_compute.
Defined.

Definition ag_step : agentStep :=
  agentReceive "v1.0.0" ag_env (ag_reg "m" "r1" "at") ag_now agentRegistered (MMgmtRequest "q1" "config-set" ag_set).
Definition ag_machine_after : machineConfig :=
  MachineConfig "m" "Main" "" "" ["lab"] "" "" [22; 80]%Z
    (minimalServicesFromPorts [22; 80]%Z) "127.0.0.1" "at" no_shares [] None [].

Lemma config_set_reaches_hub_witness :
  exists msg e', ss_heap (snd (handleRegister (ex_env 3 [] []) h2 1 (ws_of h2 1) msg)) !! 0 = Some e' /\
    me_DisplayName e' = "Main" /\ me_Tags e' = Some ["lab"] /\ me_MachineRegistrationID e' = "r1".
Proof.
  destruct (config_set_reaches_hub "v1.0.0" (ex_env 3 [] []) h2 1 (ws_of h2 1) 0 (entry_of h2) ag_env
    (ag_reg "m" "r1" "at") ag_now agentRegistered ag_set "q1" (default ag_config (ag_cfg (st_agent ag_step)))
    ag_machine_after) as (msg & e' & _ & _ & H1 & _ & _ & H2 & _ & H3 & _ & _ & H4).
  1: by vm_compute. 1: by vm_compute. 1: by vm_compute. 1: discriminate. 1: discriminate.
  1: by vm_compute. 1: by vm_compute. 1: by vm_compute.
  exists msg, e'. split; [exact H1|]. split; [exact H3|]. split; [exact H4|]. rewrite H2. by vm_compute.
Defined.

(** ** Departures *)

Definition ag_ask (machine : string) (fields : list (string * json)) : option json :=
  Some (JObj [("machine", JStr machine); ("fields", JObj fields)]).
Definition ag_run (env : mgmtEnv) (payload : option json) : mgmtResponse * agent * mgmtFollowUp :=
  handleMgmtRequest "v1.0.0" env ag_now "q" "config-set" payload.
Definition ag_machines (a : agent) : list machineConfig := match ag_cfg a with Some c => cf_Machines c | None => [] end.

(** The hub checks who may manage the machine of the URL; the agent changes whichever of its machines
    the payload names.  A request that came in for [m] redirects [n]. *)
Example config_set_other_machine :
  let step := agentReceive "v1.0.0" ag_env (ag_reg "m" "r1" "at") ag_now agentRegistered
    (MMgmtRequest "q" "config-set" (ag_ask "n" [("target", JStr "10.0.0.9")])) in
  map mc_Target (ag_machines (st_agent step)) = ["127.0.0.1"; "10.0.0.9"].
Proof. by vm_compute. Qed.

(** A configuration answer leaves tokens out, but a change may set them. *)
Example config_set_token :
  map mc_Token (ag_machines (snd (fst (ag_run ag_env (ag_ask "m" [("token", JStr "mine")]))))) = ["mine"; "stored"].
Proof. by vm_compute. Qed.

(** Nothing checks the result: the saved configuration may be one the next start refuses. *)
Example config_set_unloadable :
  let '(r, a, _) := ag_run ag_env (ag_ask "m" [("name", JStr EmptyString)]) in
  mr_OK r = true /\ loadConfig ag_lookup (ag_fs a) (ag_path a) = inl (LeNoName 0).
Proof. by vm_compute. Qed.

(** A refused change stays in memory: the field before the bad one, and everything when the file could
    not be written. *)
Example refused_change_stays :
  let '(r, a, _) := ag_run ag_env (ag_ask "m" [("owner", JStr "eve"); ("location", JNum 3)]) in
  mr_OK r = false /\ map mc_Owner (ag_machines a) = ["eve"; ""] /\
  loadConfig ag_lookup (ag_fs a) (ag_path a) = ag_loaded.
Proof. vm_compute. split; [reflexivity|]. split; reflexivity. Qed.
Definition full_disk : mgmtEnv := MgmtEnv (SaveEnv (String.eqb "open") 0) AdminUpdate.demo_net 5 (lg_ring noLog).
Example unsaved_change_stays :
  let '(r, a, _) := ag_run full_disk (ag_ask "m" [("owner", JStr "eve")]) in
  mr_OK r = false /\ map mc_Owner (ag_machines a) = ["eve"; ""].
Proof. by vm_compute. Qed.

(** The first change writes the tokens of the credential store into the configuration file. *)
Example stored_token_written :
  let '(_, a, _) := ag_run ag_env (ag_ask "m" [("owner", JStr "bob")]) in
  match ReadFile (ag_fs a) (ag_path a) with
  | RdData d => match UnmarshalAgent d with Some c => map mc_Token (cf_Machines c) = ["at"; "stored"] | None => False end
  | _ => False
  end /\ map mc_Token (cf_Machines ag_written) = ["at"; ""].
Proof. by vm_compute. Qed.

(** An agent started from flags has no configuration; a hub with update settings ends its process. *)
Example flags_mode_panics :
  st_next (agentReceive "v1.0.0" ag_env (ag_reg "m" "r1" "at") (MkAgent None "" false ag_fetch ag_disk) agentDisconnected
    (MRegistered "m" (Some (UpdateConfig "beta" ∅)))) = Panics.
Proof. done. Qed.

(** So does a session identifier of fewer than eight bytes. *)
Example short_session_panics :
  st_next (agentReceive "v1.0.0" ag_env (ag_reg "m" "r1" "at") ag_now agentRegistered (MSessionRequest "abc" "k" 1)) = Panics.
Proof. by vm_compute. Qed.

(** Tags that are taken away stay at the hub, as does every metadata field that is emptied. *)
Definition tagged : sessions :=
  snd (handleRegister (ex_env 3 [] []) h2 1 (ws_of h2 1) (reregisterMsg (ag_reg "m" "r1" "at") ag_machine_after)).
Example cleared_tags_stay :
  let s := snd (handleRegister (ex_env 4 [] []) tagged 1 (ws_of tagged 1)
             (reregisterMsg (ag_reg "m" "r1" "at") (ag_machine "m" "at" [22; 80]%Z))) in
  me_Tags (entry_of s) = Some ["lab"] /\ me_DisplayName (entry_of s) = "Main".
Proof. by vm_compute. Qed.

(** A damaged state file is replaced without a word, and the agent is another one from then on. *)
Example damaged_state_replaced :
  let fs := <[ag_ds ++ ["telad.state"] := NFile [1; 2]%Z]> ag_disk in
  as_AgentID (fst (loadOrCreateAgentState ag_rand no_fault fs "" (abs (ag_ds ++ [ag_file])) ["m"])) =
  "00070000-0000-4000-8000-000000000000".
Proof. by vm_compute. Qed.
