(* ===== verification/ClientFiles.v ===== *)
(** * The client's side of file sharing ([internal/client/fileshare.go], the file routes of
      [internal/client/control.go], [handleFileShareConn] of [internal/agent/fileshare.go])

    A connection to the agent's file share is a conversation: the bytes the client sends, and what
    the agent answers to them until it has none left to read; a read past that waits for the agent's
    idle deadline and then fails.  The tunnel registry maps a machine to the agent behind it.
    [encoding/json] is a codec: a request or response whose text is valid UTF-8 is read back as it
    was written, and its encoding has no line break in it.

    The second part has the theorems. *)

From S2P Require Import Prelude FilePath FileSys Sha256 FileShare FileShareProofs.
From Stdlib Require Import ZArith Lia Ascii String.
From stdpp Require Import base gmap strings list fin_maps.

Definition newline : Z := 10.

Definition request_texts (r : fsRequest) : list string :=
  [fr_Op r; fr_Share r; fr_Path r; fr_Checksum r; fr_NewName r; fr_NewPath r].
Definition response_texts (r : fsResponse) : list string :=
  rs_Error r :: rs_Checksum r :: map en_Name (rs_Entries r) ++ map si_Name (rs_Shares r).

Class FsCodec := {
  utf8Valid : string -> bool;
  marshalRequest : fsRequest -> list Z;
  unmarshalRequest : list Z -> option fsRequest;
  marshalResponse : fsResponse -> list Z;
  unmarshalResponse : list Z -> option fsResponse;
  request_line r : newline ∉ marshalRequest r;
  response_line r : newline ∉ marshalResponse r;
  request_kept r : forallb utf8Valid (request_texts r) = true -> unmarshalRequest (marshalRequest r) = Some r;
  response_kept r : forallb utf8Valid (response_texts r) = true -> unmarshalResponse (marshalResponse r) = Some r
}.

(** ** The agent's end *)

Section agent.
Context `{FsCodec}.

Definition writeResponse (r : fsResponse) : list Z := marshalResponse r ++ [newline].
Definition written (s : sent) : list Z :=
  match s with SentResponse r => writeResponse r | SentBytes b => b end.

(** What the agent sends for what it reads, and the files it leaves; [n] bounds the requests. *)
Fixpoint connLoop (n : nat) (env : shareEnv) (shares : list parsedFileShareConfig) (fs : fsys)
    (input : list Z) : list Z * fsys :=
  match n with
  | O => ([], fs)
  | S n =>
      match readLine input with
      | None => ([], fs)
      | Some (line, input) =>
          let '(out, fs, input, on) := handleRequest env shares fs (unmarshalRequest line) input in
          let '(more, fs) := if on then connLoop n env shares fs input else ([], fs) in
          (concat (map written out) ++ more, fs)
      end
  end.

Definition handleFileShareConn (env : shareEnv) (shares : list parsedFileShareConfig) (fs : fsys)
    (input : list Z) : list Z * fsys :=
  connLoop (S (length input)) env shares fs input.
End agent.

(** ** Tunnels *)

Record agentEnd := AgentEnd { ag_shares : list parsedFileShareConfig; ag_fs : fsys }.
Abbreviation tunnels := (gmap string agentEnd).

(** [up] says whether a dial through the tunnel succeeds within its attempts. *)
Definition dialFileShare (up : bool) (ts : tunnels) (machine : string) : string + agentEnd :=
  match ts !! machine with
  | None => inl "no active tunnel"
  | Some a => if up then inr a else inl "cannot connect to file share"
  end.
Definition tryDialFileShare (up : bool) (ts : tunnels) (machine : string) : bool :=
  match ts !! machine with None => false | Some _ => up end.

Definition listTunnelMachines (ts : tunnels) : gset string := dom ts.

(** How a command ends; the text goes to standard error. *)
Inductive ended (A : Type) := EndOk (a : A) | EndError (err : string).
Arguments EndOk {A} a.
Arguments EndError {A} err.

Section client.
Context `{FsCodec}.

(** Everything sent over one connection, everything the agent answers. *)
Definition converse (env : shareEnv) (ts : tunnels) (machine : string) (a : agentEnd) (input : list Z)
    : list Z * tunnels :=
  let '(out, fs) := handleFileShareConn env (ag_shares a) (ag_fs a) input in
  (out, <[machine := AgentEnd (ag_shares a) fs]> ts).

Definition requestLine (req : fsRequest) : list Z := marshalRequest req ++ [newline].

(** The first line of an answer, and the bytes after it. *)
Definition firstResponse (out : list Z) : string + fsResponse * list Z :=
  match readLine out with
  | None => inl "read response failed"
  | Some (line, rest) =>
      match unmarshalResponse line with None => inl "invalid response" | Some r => inr (r, rest) end
  end.

Definition sendRequest (env : shareEnv) (ts : tunnels) (machine : string) (a : agentEnd) (req : fsRequest)
    : (string + fsResponse * list Z) * tunnels :=
  let '(out, ts) := converse env ts machine a (requestLine req) in (firstResponse out, ts).

(** ** The control server's file routes *)

Inductive proxyReply :=
  | PrPlain (code : Z) (text : string)           (** [http.Error] *)
  | PrError (code : Z) (error : string)          (** a JSON object with the error *)
  | PrAvailable
  | PrStream (body : list Z) (waited : bool).    (** 200; whether it sat out the agent's deadline *)

Definition checkControlAuth (auth token : string) : option proxyReply :=
  if (String.length auth <? 7)%nat then Some (PrPlain 401 "authorization required")
  else if String.substring 7 (String.length auth - 7) auth =s token then None
  else Some (PrPlain 401 "invalid token").

Definition handleFilesProbe (up : bool) (token : string) (ts : tunnels) (path auth : string) : proxyReply :=
  match checkControlAuth auth token with
  | Some e => e
  | None =>
      let machine := trim_prefix path "/files-probe/" in
      if machine =s "" then PrError 400 "machine name required"
      else if tryDialFileShare up ts machine then PrAvailable else PrError 503 "no file share"
  end.

(** [n, _ := strconv.ParseInt(s, 10, 64)]: the nearest bound when out of range. *)
Definition parseIntAny (s : string) : Z :=
  match Atoi s with
  | Some n => n
  | None =>
      let digits l := match l with [] => false | _ => forallb is_digit l end in
      match bytes s with
      | c :: l =>
          if Ascii.eqb c "-" then if digits l then (-9223372036854775808)%Z else 0%Z
          else if digits (if Ascii.eqb c "+" then l else c :: l) then 9223372036854775807%Z else 0%Z
      | [] => 0%Z
      end
  end.

(** The forwarding loop: what is written, and whether it ran into the end of the answer. *)
Fixpoint forwardChunks (n : nat) (input : list Z) : list Z * bool :=
  match n with
  | O => ([], true)
  | S n =>
      match readLine input with
      | None => ([], true)
      | Some (line, input) =>
          let trimmed := trim_space (of_z_bytes line) in
          if trimmed =s "CHUNK 0" then (line ++ [newline], false)
          else
            let k := if has_prefix trimmed "CHUNK " then Z.to_nat (parseIntAny (trim_prefix trimmed "CHUNK "))
                     else 0 in
            let '(more, waited) := forwardChunks n (drop k input) in
            (line ++ [newline] ++ take k input ++ more, waited)
      end
  end.

(** From the agent's answer on. *)
Definition proxyAnswer (out : list Z) : proxyReply :=
  match readLine out with
  | None => PrError 502 "proxy recv failed"
  | Some (line, rest) =>
      let '(ok, size) := match unmarshalResponse line with Some r => (rs_OK r, rs_Size r) | None => (false, 0%Z) end in
      let '(more, waited) := if ok && (0 <? size)%Z then forwardChunks (S (length rest)) rest else ([], false) in
      PrStream (line ++ [newline] ++ more) waited
  end.

Definition handleFiles (env : shareEnv) (up : bool) (token : string) (ts : tunnels)
    (method path auth : string) (reqBody : list Z) : proxyReply * tunnels :=
  match checkControlAuth auth token with
  | Some e => (e, ts)
  | None =>
      if method <>s "POST" then (PrPlain 405 "method not allowed", ts)
      else
        let machine := trim_prefix path "/files/" in
        if machine =s "" then (PrError 400 "machine name required", ts)
        else match dialFileShare up ts machine with
             | inl err => (PrError 503 err, ts)
             | inr a => let '(out, ts) := converse env ts machine a reqBody in (proxyAnswer out, ts)
             end
  end.

(** ** The commands

    [cw_own] is the process's own registry, [cw_file] the token in the control file and [cw_server]
    the control server that runs, its token and the registry of its process. *)

Record cliWorld := CliWorld {
  cw_own : tunnels;
  cw_file : option string;
  cw_server : option (string * tunnels)
}.

(** The message of a reply that is not 200. *)
Definition httpError (code : Z) (err : string) : string :=
  if err <>s "" then err else "HTTP " +:+ Itoa code.

(** The client gives up after 30 seconds, before the agent's idle deadline of 60. *)
Definition controlFileShareRequest (env : shareEnv) (up : bool) (w : cliWorld) (machine : string)
    (req : fsRequest) : (string + fsResponse * list Z) * cliWorld :=
  match cw_file w with
  | None => (inl "no running tela instance found", w)
  | Some fileToken =>
      match cw_server w with
      | None => (inl "control API request failed", w)
      | Some (token, ts) =>
          let '(reply, ts) := handleFiles env up token ts "POST" ("/files/" +:+ machine)
                                ("Bearer " +:+ fileToken) (requestLine req) in
          let w := CliWorld (cw_own w) (cw_file w) (Some (token, ts)) in
          (match reply with
           | PrStream body waited =>
               if waited then inl "read response failed" else firstResponse body
           | PrError code err => inl (httpError code err)
           | PrPlain code _ => inl (httpError code "")
           | PrAvailable => inl "invalid response"
           end, w)
      end
  end.

Definition fileShareRequest (env : shareEnv) (up : bool) (w : cliWorld) (machine : string) (req : fsRequest)
    : (string + fsResponse * list Z) * cliWorld :=
  match dialFileShare up (cw_own w) machine with
  | inr a =>
      let '(r, ts) := sendRequest env (cw_own w) machine a req in
      (r, CliWorld ts (cw_file w) (cw_server w))
  | inl _ => controlFileShareRequest env up w machine req
  end.

Definition answered {A} (r : string + fsResponse * list Z) (k : fsResponse -> list Z -> ended A) : ended A :=
  match r with
  | inl err => EndError err
  | inr (resp, rest) => if negb (rs_OK resp) then EndError (rs_Error resp) else k resp rest
  end.

Definition usage : string := "usage".
Definition plainRequest (op share path newName newPath : string) : fsRequest :=
  FsRequest op share path 0 "" newName newPath 0 0.

Definition cmdFilesLs (env : shareEnv) (up : bool) (w : cliWorld) (machine share : string) (args : list string)
    : ended (list fsEntry) * cliWorld :=
  if (machine =s "") || (share =s "") then (EndError usage, w)
  else
    let '(r, w) := fileShareRequest env up w machine (plainRequest "list" share (nth 0 args "") "" "") in
    (answered r (fun resp _ => EndOk (rs_Entries resp)), w).

(** The commands that send one request and report whether it was granted. *)
Definition oneRequest (env : shareEnv) (up : bool) (w : cliWorld) (machine : string) (req : fsRequest)
    : ended unit * cliWorld :=
  let '(r, w) := fileShareRequest env up w machine req in (answered r (fun _ _ => EndOk ()), w).

Definition cmdFilesRm (env : shareEnv) (up : bool) (w : cliWorld) (machine share : string) (args : list string) :=
  match args with
  | p :: _ =>
      if (machine =s "") || (share =s "") then (EndError usage, w)
      else oneRequest env up w machine (plainRequest "delete" share p "" "")
  | [] => (EndError usage, w)
  end.
Definition cmdFilesMkdir (env : shareEnv) (up : bool) (w : cliWorld) (machine share : string) (args : list string) :=
  match args with
  | p :: _ =>
      if (machine =s "") || (share =s "") then (EndError usage, w)
      else oneRequest env up w machine (plainRequest "mkdir" share p "" "")
  | [] => (EndError usage, w)
  end.
Definition cmdFilesRename (env : shareEnv) (up : bool) (w : cliWorld) (machine share : string) (args : list string) :=
  match args with
  | oldPath :: newName :: _ =>
      if (machine =s "") || (share =s "") then (EndError usage, w)
      else oneRequest env up w machine (plainRequest "rename" share oldPath newName "")
  | _ => (EndError usage, w)
  end.
Definition cmdFilesMv (env : shareEnv) (up : bool) (w : cliWorld) (machine share : string) (args : list string) :=
  match args with
  | src :: dst :: _ =>
      if (machine =s "") || (share =s "") then (EndError usage, w)
      else oneRequest env up w machine (plainRequest "move" share src "" dst)
  | _ => (EndError usage, w)
  end.

Definition access_of (s : fsShareInfo) : string :=
  if si_Writable s then if si_AllowDelete s then "read-write (delete allowed)" else "read-write"
  else "read-only".
Definition cmdFilesInfo (env : shareEnv) (up : bool) (w : cliWorld) (machine : string)
    : ended (list (string * string)) * cliWorld :=
  if machine =s "" then (EndError usage, w)
  else
    let '(r, w) := fileShareRequest env up w machine (plainRequest "list-shares" "" "" "" "") in
    (answered r (fun resp _ => EndOk (map (fun s => (si_Name s, access_of s)) (rs_Shares resp))), w).

(** *** Download *)

(** The receiving loop: an error or none, and what was written by then.  [strict] is the test of the
    count that [cmdFilesGet] makes and [mountDownloadToFile] does not: a negative size copies nothing. *)
Fixpoint recvChunks (n : nat) (strict : bool) (got input : list Z) : option string * list Z :=
  match n with
  | O => (Some "read chunk header", got)
  | S n =>
      match readLine input with
      | None => (Some "read chunk header", got)
      | Some (line, input) =>
          let line := trim_crlf (of_z_bytes line) in
          if negb (has_prefix line "CHUNK ") then (Some "protocol error: expected CHUNK", got)
          else match Atoi (trim_prefix line "CHUNK ") with
               | None => (Some "invalid chunk size", got)
               | Some chunkSize =>
                   if (chunkSize =? 0)%Z then (None, got)
                   else
                     let k := Z.to_nat chunkSize in
                     let got := got ++ take k input in
                     if (length input <? k)%nat || strict && (chunkSize <? 0)%Z
                     then (Some "reading chunk data", got)
                     else recvChunks n strict got (drop k input)
               end
      end
  end.

(** How a download ends: the local file and what it holds.  A failure leaves the file behind, a
    mismatch removes it. *)
Inductive download :=
  | Downloaded (localPath : string) (data : list Z)
  | DownloadFailed (err : string) (left_ : option (string * list Z)).

(** [canCreate] says whether [os.Create] succeeds. *)
Definition cmdFilesGet (env : shareEnv) (up canCreate : bool) (w : cliWorld)
    (machine share output : string) (args : list string) : download * cliWorld :=
  match args with
  | remotePath :: _ =>
      if (machine =s "") || (share =s "") then (DownloadFailed usage None, w)
      else
        let '(r, w) := fileShareRequest env up w machine (plainRequest "read" share remotePath "" "") in
        (match r with
         | inl err => DownloadFailed err None
         | inr (resp, rest) =>
             if negb (rs_OK resp) then DownloadFailed (rs_Error resp) None
             else
               let localPath := if output =s "" then Base remotePath else output in
               if negb canCreate then DownloadFailed "creating" None
               else match recvChunks (S (length rest)) true [] rest with
                    | (Some err, data) => DownloadFailed err (Some (localPath, data))
                    | (None, data) =>
                        if (rs_Checksum resp <>s "") && (checksumOf data <>s rs_Checksum resp)
                        then DownloadFailed "checksum mismatch (file deleted)" None
                        else Downloaded localPath data
                    end
         end, w)
  | [] => (DownloadFailed usage None, w)
  end.

(** *** Upload *)

Definition putRequest (share remoteName : string) (data : list Z) : fsRequest :=
  FsRequest "write" share remoteName (Z.of_nat (length data)) (checksumOf data) "" "" 0 0.

(** Everything the upload writes to the connection. *)
Definition putBytes (share remoteName : string) (data : list Z) : list Z :=
  requestLine (putRequest share remoteName data) ++ sendChunks (length data) data.

(** [disk] is the local file system; the upload uses the process's own tunnels only. *)
Definition cmdFilesPut (env : shareEnv) (up : bool) (disk : fsys) (w : cliWorld)
    (machine share : string) (args : list string) : ended string * cliWorld :=
  match args with
  | localPath :: more =>
      if (machine =s "") || (share =s "") then (EndError usage, w)
      else
        let remoteName := match more with [] => Base localPath | n :: _ => n end in
        match Stat disk localPath with
        | SInfo NDir => (EndError "cannot upload directories", w)
        | SInfo _ =>
            match OpenRead disk localPath with
            | None => (EndError "open", w)
            | Some data =>
                match dialFileShare up (cw_own w) machine with
                | inl err => (EndError err, w)
                | inr a =>
                    let '(out, ts) := converse env (cw_own w) machine a (putBytes share remoteName data) in
                    (answered (firstResponse out) (fun _ _ => EndOk remoteName),
                     CliWorld ts (cw_file w) (cw_server w))
                end
            end
        | _ => (EndError "stat", w)
        end
  | [] => (EndError usage, w)
  end.
End client.

(** * Theorems about file sharing from the client's side ([ClientFiles])

    The agent's handlers on a file of an existing directory of a share, without "if it answers";
    the transfer format as the client and the control server read it; an upload followed by a
    download, from the process that holds the tunnel and from another. *)

(** ** The transfer format *)

Lemma chunk_line n : (0 <= n)%Z -> newline ∉ z_bytes ("CHUNK " +:+ Itoa n).
Proof.
  intros Hn. unfold z_bytes. intros (c & Hc & Hin)%list_elem_of_fmap.
  apply chunk_line_bytes in Hin as [Hin _]; [|lia]. apply Hin.
  unfold code in Hc. unfold newline in Hc. assert (N_of_ascii c = 10%N) as E by lia.
  by rewrite <- (ascii_N_embedding c), E.
Qed.

Lemma readLine_header n rest :
  (0 <= n)%Z -> readLine (chunkHeader n ++ rest) = Some (z_bytes ("CHUNK " +:+ Itoa n), rest).
Proof. intros Hn. unfold chunkHeader. rewrite <- app_assoc. by apply readLine_app, chunk_line. Qed.

Lemma trim_crlf_header n : (0 <= n)%Z -> trim_crlf ("CHUNK " +:+ Itoa n) = "CHUNK " +:+ Itoa n.
Proof.
  intros Hn. unfold trim_crlf, trim_right_with. rewrite drop_while_none; [by rewrite rev_involutive, of_bytes_bytes|].
  rewrite forallb_rev. apply forallb_forall. intros c Hin%list_elem_of_In.
  apply chunk_line_bytes in Hin as [H1 H2]; [|lia].
  destruct (Ascii.eqb_spec c "010"), (Ascii.eqb_spec c "013"); done.
Qed.

Lemma has_prefix_header n : has_prefix ("CHUNK " +:+ Itoa n) "CHUNK " = true.
Proof. apply has_prefix_iff. by eexists. Qed.

Lemma recvChunks_header n strict got k rest :
  (0 <= k < 9223372036854775808)%Z ->
  recvChunks (S n) strict got (chunkHeader k ++ rest) =
    if (k =? 0)%Z then (None, got)
    else if (length rest <? Z.to_nat k)%nat then (Some "reading chunk data", got ++ take (Z.to_nat k) rest)
    else recvChunks n strict (got ++ take (Z.to_nat k) rest) (drop (Z.to_nat k) rest).
Proof.
  intros Hk. cbn [recvChunks]. rewrite readLine_header, of_z_bytes_z_bytes, trim_crlf_header by lia.
  rewrite has_prefix_header. cbn [negb]. rewrite trim_prefix_app, Atoi_Itoa by done.
  assert ((k <? 0)%Z = false) as -> by (apply Z.ltb_ge; lia). by rewrite andb_false_r, orb_false_r.
Qed.

(** One block of the sending loop. *)
Lemma sendChunks_step m data :
  data <> [] ->
  let c := Z.to_nat maxChunkSize in
  sendChunks (S m) data = chunkHeader (Z.of_nat (length (take c data))) ++ take c data ++ sendChunks m (drop c data) /\
  0 < length (take c data) <= c /\ length (drop c data) < length data /\ Z.of_nat c = 16384%Z.
Proof.
  intros Hne c. split; [by destruct data|]. rewrite length_take, length_drop.
  assert (0 < length data) by (destruct data; [done|cbn; lia]).
  assert (Z.of_nat c = 16384%Z) as Hc by done. lia.
Qed.

Lemma recvChunks_sent n m strict got data rest :
  length data <= m -> length data < n ->
  recvChunks n strict got (sendChunks m data ++ rest) = (None, got ++ data).
Proof.
  revert n got data. induction m as [|m IH]; intros n got data Hm Hn; (destruct n as [|n]; [lia|]).
  - destruct data; [|cbn in Hm; lia]. cbn [sendChunks]. rewrite recvChunks_header by lia. by rewrite Z.eqb_refl, app_nil_r.
  - destruct (decide (data = [])) as [->|Hne].
    { cbn [sendChunks]. rewrite recvChunks_header by lia. by rewrite Z.eqb_refl, app_nil_r. }
    destruct (sendChunks_step m data Hne) as (-> & Hl & Hd & Hc). set (c := Z.to_nat maxChunkSize) in *.
    rewrite <- !app_assoc, recvChunks_header by lia.
    assert ((Z.of_nat (length (take c data)) =? 0)%Z = false) as -> by (apply Z.eqb_neq; lia).
    rewrite Nat2Z.id, take_app_length, drop_app_length.
    assert ((length (take c data ++ sendChunks m (drop c data) ++ rest) <? length (take c data))%nat = false) as ->
      by (apply Nat.ltb_ge; rewrite length_app; lia).
    rewrite IH by lia. by rewrite <- app_assoc, take_drop.
Qed.

Lemma sendChunks_length m data : length data <= m -> length data < length (sendChunks m data).
Proof.
  revert data. induction m as [|m IH]; intros data Hm.
  { destruct data; [vm_compute; lia|cbn in Hm; lia]. }
  destruct (decide (data = [])) as [->|Hne]; [vm_compute; lia|].
  destruct (sendChunks_step m data Hne) as (-> & Hl & Hd & Hc). set (c := Z.to_nat maxChunkSize) in *.
  specialize (IH (drop c data)). rewrite !length_app. pose proof (length_drop data c).
  pose proof (f_equal length (take_drop c data)) as Htd. rewrite length_app in Htd. lia.
Qed.

Lemma trim_space_header n : (0 <= n)%Z -> trim_space ("CHUNK " +:+ Itoa n) = "CHUNK " +:+ Itoa n.
Proof.
  intros Hn. unfold trim_space, trim_with.
  change (drop_while is_space (bytes ("CHUNK " +:+ Itoa n))) with (bytes ("CHUNK " +:+ Itoa n)).
  rewrite of_bytes_bytes. unfold trim_right_with.
  assert (exists l c, bytes ("CHUNK " +:+ Itoa n) = l ++ [c] /\ is_space c = false) as (l & c & E & Hc).
  { rewrite bytes_app. unfold Itoa. destruct (Z.ltb_spec n 0); [lia|].
    destruct (bytes (FormatUint n)) as [|x d _] eqn:Ed using rev_ind;
      [by pose proof (FormatUint_nonempty n)|].
    exists (bytes "CHUNK " ++ d), x. rewrite app_assoc. split; [done|].
    assert (is_digit x = true) as Hx by (apply (FormatUint_digit n); [done|]; rewrite Ed; set_solver).
    destruct x as [[] [] [] [] [] [] [] []]; done. }
  rewrite E, rev_app_distr. cbn [rev app drop_while]. rewrite Hc. cbn [rev].
  by rewrite rev_involutive, <- E, of_bytes_bytes.
Qed.

Lemma forwardChunks_sent n m data rest :
  length data <= m -> length data < n ->
  forwardChunks n (sendChunks m data ++ rest) = (sendChunks m data, false).
Proof.
  revert n data. induction m as [|m IH]; intros n data Hm Hn; (destruct n as [|n]; [lia|]).
  - destruct data; [|cbn in Hm; lia]. cbn [sendChunks forwardChunks].
    rewrite readLine_header, of_z_bytes_z_bytes, trim_space_header by lia. done.
  - destruct (decide (data = [])) as [->|Hne].
    { cbn [sendChunks forwardChunks]. rewrite readLine_header, of_z_bytes_z_bytes, trim_space_header by lia. done. }
    destruct (sendChunks_step m data Hne) as (-> & Hl & Hd & Hc). set (c := Z.to_nat maxChunkSize) in *.
    rewrite <- !app_assoc. cbn [forwardChunks].
    rewrite readLine_header, of_z_bytes_z_bytes, trim_space_header by lia. set (k := length (take c data)) in *.
    assert ("CHUNK " +:+ Itoa (Z.of_nat k) <> "CHUNK 0") as Hk.
    { intros E. change "CHUNK 0" with ("CHUNK " +:+ Itoa 0) in E.
      apply (f_equal (fun s => trim_prefix s "CHUNK ")) in E. rewrite !trim_prefix_app in E.
      apply (f_equal Atoi) in E. rewrite !Atoi_Itoa in E by lia. injection E. lia. }
    rewrite bool_decide_false by done. rewrite has_prefix_header, trim_prefix_app.
    unfold parseIntAny. rewrite Atoi_Itoa by lia. rewrite Nat2Z.id. unfold k.
    rewrite take_app_length, drop_app_length, IH by lia.
    unfold chunkHeader. by rewrite <- !app_assoc.
Qed.

(** ** Handlers on a file of an existing directory *)

Lemma Contains_app_l a b sub : Contains (a +:+ b) sub = false -> Contains a sub = false.
Proof.
  intros Hc. apply not_true_is_false. unfold Contains at 1. destruct (cut a sub) as [[x y]|] eqn:E; [|done].
  intros _. apply cut_Some in E. apply (Contains_false _ _ x (y +:+ b) Hc). by rewrite E, !string_app_assoc.
Qed.

(** A relative path without "..": the textual tests of the sandbox pass. *)
Lemma validatePath_below cfg ds k p fs :
  share_at cfg ds -> Contains p ".." = false -> real_elems p = k -> k <> [] ->
  validatePath fs cfg p =
    (let joined := abs (ds ++ k) in
     if is_link (Lstat fs joined) then inl "symlinks not allowed"
     else match Lstat fs joined with
          | SNotExist => if is_link (Lstat fs (Dir joined)) then inl "symlinks not allowed" else inr joined
          | _ => inr joined
          end).
Proof.
  intros [Hdir Hds] Hdots Hk Hne. unfold validatePath.
  rewrite Hdots, Hdir, Join_plain by (done || by apply Contains_no_dots). rewrite Hk.
  assert (good_elems k) as Hg by (rewrite <- Hk; by apply real_elems_good, Contains_no_dots).
  rewrite Rel_below, decide_False by done.
  assert (has_prefix (join_slash k) ".." = false) as ->; [|done].
  apply not_true_is_false. intros (b & Hb)%has_prefix_iff.
  destruct k as [|y ys]; [done|].
  assert (y ∈ split_slash p) as Hy.
  { assert (y ∈ real_elems p) as Hin by (rewrite Hk; left). by apply list_elem_of_filter in Hin as [_ ?]. }
  apply split_slash_sub in Hy as (u & v & Hv).
  assert (exists t, y = ".." +:+ t) as (t & ->).
  { apply Forall_cons in Hg as [(H1 & H2 & H3 & Hn) _].
    destruct ys as [|z zs]; [by exists b|]. rewrite join_slash_cons in Hb by done.
    destruct y as [|c1 [|c2 y]]; [done| |].
    - cbn in Hb. injection Hb as -> Hb. done.
    - cbn in Hb. injection Hb as -> -> Hb. by exists y. }
  apply (Contains_false p ".." u (t +:+ v)); [done|]. rewrite Hv at 1. by rewrite string_app_assoc.
Qed.

(** The share, the path and its place, whose directory exists. *)
Record placed (cfg : parsedFileShareConfig) (ds es : ppath) (e p : string) (fs : fsys) : Prop := Placed {
  pl_share : share_at cfg ds;
  pl_dots : Contains p ".." = false;
  pl_elems : real_elems p = es ++ [e];
  pl_dir : dir_at (ds ++ es) fs;
  pl_slot : plain_slot (ds ++ es ++ [e]) fs
}.

Section placed.
Context (cfg : parsedFileShareConfig) (ds es : ppath) (e p : string).

Lemma placed_good fs : placed cfg ds es e p fs -> good_elems ((ds ++ es) ++ [e]).
Proof.
  intros [[_ Hds] Hd He _ _]. rewrite <- app_assoc, <- He. apply Forall_app. split; [done|].
  apply real_elems_good. by apply Contains_no_dots.
Qed.

Lemma placed_path fs : placed cfg ds es e p fs -> p <> "".
Proof. intros [_ _ He _ _] ->. by destruct es. Qed.

Lemma placed_validated fs : placed cfg ds es e p fs -> validatePath fs cfg p = inr (abs (ds ++ es ++ [e])).
Proof.
  intros Hp. pose proof (placed_good fs Hp) as Hg. destruct Hp as [Hat Hdots He Hd Hs].
  rewrite (validatePath_below cfg ds (es ++ [e])) by (done || by destruct es).
  rewrite app_assoc in Hs |- *. unfold Lstat. rewrite resolve_child by done.
  destruct Hs as [-> |[d ->]]; cbn [stat_of is_link]; [|done].
  rewrite Dir_abs_snoc, resolve_dir by (done || by apply Forall_app in Hg as [? _]). done.
Qed.

Lemma handleRead_placed env fs req data :
  placed cfg ds es e p fs -> fr_Path req = p -> fs !! (ds ++ es ++ [e]) = Some (NFile data) ->
  sv_fault env "open" = false ->
  handleRead env fs cfg req =
    ([SentResponse (FsResponse true "" [] [] (Z.of_nat (length data)) (checksumOf data) 0);
      SentBytes (sendChunks (length data) data)], fs).
Proof.
  intros Hp Hpath Hf Ho. unfold handleRead.
  rewrite Hpath, bool_decide_false, (placed_validated fs Hp) by exact (placed_path fs Hp).
  pose proof (placed_good fs Hp) as Hg. destruct Hp as [_ _ _ Hd Hs]. rewrite app_assoc in Hf, Hs |- *.
  unfold Lstat, OpenRead. rewrite !resolve_child, Hf by done. cbn [stat_of]. by rewrite Ho.
Qed.

(** What the share allows to be written there. *)
Record allowed (fs : fsys) (size : Z) : Prop := Allowed {
  al_writable : ps_writable cfg = true;
  al_ext : isExtensionAllowed cfg p = true;
  al_size : (0 < size <= ps_maxFileSize cfg)%Z;
  al_total : (0 < ps_maxTotalSize cfg)%Z ->
             (i64 (dirTotalSize fs (ps_directory cfg) + size) <= ps_maxTotalSize cfg)%Z
}.

Lemma writeChecks_placed fs req :
  placed cfg ds es e p fs -> fr_Path req = p -> allowed fs (fr_Size req) ->
  writeChecks fs cfg req = inr (abs (ds ++ es ++ [e])).
Proof.
  intros Hp Hpath [Hw He [H0 Hmax] Htot]. unfold writeChecks.
  rewrite Hw, Hpath, bool_decide_false, (placed_validated fs Hp), He by exact (placed_path fs Hp).
  destruct (Z.leb_spec (fr_Size req) 0); [lia|]. destruct (Z.ltb_spec (ps_maxFileSize cfg) (fr_Size req)); [lia|].
  cbn [negb]. destruct (Z.ltb_spec 0 (ps_maxTotalSize cfg)); [|done]. cbn [andb].
  destruct (Z.ltb_spec (ps_maxTotalSize cfg) (i64 (dirTotalSize fs (ps_directory cfg) + fr_Size req))); [|done].
  specialize (Htot ltac:(lia)). lia.
Qed.

(** The write itself, when no call fails and the temporary name is free. *)
Record writes (env : shareEnv) (fs : fsys) : Prop := Writes {
  wr_ok : forall call, sv_fault env call = false;
  wr_drawn : drawn env;
  wr_other : e <> ".tela-upload-" +:+ sv_tmp env;
  wr_free : fs !! (ds ++ es ++ [".tela-upload-" +:+ sv_tmp env]) = None
}.

Lemma handleWrite_placed env fs req data rest :
  placed cfg ds es e p fs -> fr_Path req = p -> allowed fs (fr_Size req) -> writes env fs ->
  fr_Size req = Z.of_nat (length data) -> (fr_Checksum req <> "" -> fr_Checksum req = checksumOf data) ->
  exists fs',
    handleWrite env fs cfg req (sendChunks (length data) data ++ rest) =
      (([SentResponse (FsResponse true "" [] [] (Z.of_nat (length data)) "" 0)], fs'), rest) /\
    placed cfg ds es e p fs' /\ fs' !! (ds ++ es ++ [e]) = Some (NFile data) /\
    forall k, ~ (ds ++ es ++ [e]) `prefix_of` k ->
      ~ (ds ++ es ++ [".tela-upload-" +:+ sv_tmp env]) `prefix_of` k -> fs' !! k = fs !! k.
Proof.
  intros Hp Hpath Hal [Hok Hdr Hne Hfree] Hsize Hsum.
  pose proof (placed_good fs Hp) as Hg. pose proof (drawn_good env Hdr) as Hgn.
  set (t := ".tela-upload-" +:+ sv_tmp env) in *.
  assert (good_elems (ds ++ es)) as Hgd by (by apply Forall_app in Hg as [? _]).
  assert (good_elems ((ds ++ es) ++ [t])) as Hgt by (apply Forall_app; split; [done|by apply Forall_singleton]).
  pose proof Hp as [Hat Hdots Hel Hd Hs]. unfold handleWrite. rewrite (writeChecks_placed fs req Hp Hpath Hal).
  rewrite (app_assoc ds es [e]) in *. rewrite (app_assoc ds es [t]) in *.
  rewrite Dir_abs_snoc, !Hok, MkdirAll_present by done. cbn [negb].
  fold t. rewrite CreateTemp_child, Hfree by (done || by left).
  rewrite chunks_roundtrip_at.
  2: lia. 2: { rewrite length_app. pose proof (sendChunks_length (length data) data ltac:(lia)). lia. }
  2: { cbn [app]. lia. }
  cbn [app]. assert (checkReceived req data = None) as ->.
  { unfold checkReceived. rewrite Hsize, Z.eqb_refl. cbn [negb].
    destruct (bool_decide_reflect (fr_Checksum req = "")) as [_|Hc]; [done|]. cbn [negb andb].
    rewrite (Hsum Hc). by rewrite bool_decide_true. }
  unfold WriteOpen. rewrite insert_insert_eq. set (fs1 := <[(ds ++ es) ++ [t] := NFile data]> fs).
  destruct (Rename_child (ds ++ es) e t fs1 data) as (fs2 & -> & He & Ht & Hframe); try done.
  { by apply dir_at_insert. }
  { by apply plain_slot_insert_ne. }
  { apply lookup_insert_eq. }
  assert (dir_at (ds ++ es) fs2) as Hd2.
  { intros q Hq Hpre. rewrite Hframe.
    - unfold fs1. rewrite lookup_insert_ne; [by apply Hd|]. symmetry. by apply dir_at_child_ne.
    - intros H%prefix_length. apply prefix_length in Hpre. rewrite length_app in H. cbn in H. lia.
    - intros H%prefix_length. apply prefix_length in Hpre. rewrite length_app in H. cbn in H. lia. }
  exists fs2. assert (dropTemp fs2 (abs ((ds ++ es) ++ [t])) = fs2) as ->.
  { unfold dropTemp, Remove. rewrite resolve_child, Ht by (done || by left). done. }
  split_and!; [done| |done|].
  - split; try done. rewrite app_assoc. right. by exists data.
  - intros k Hk Hkt. rewrite Hframe by done. unfold fs1. rewrite lookup_insert_ne; [done|].
    intros <-. by apply Hkt.
Qed.
End placed.

(** ** Conversations *)

Section client.
Context `{FsCodec}.

Lemma connLoop_request n env shares fs req input :
  forallb utf8Valid (request_texts req) = true ->
  connLoop (S n) env shares fs (requestLine req ++ input) =
    (let '(out, fs', input', on) := handleRequest env shares fs (Some req) input in
     let '(more, fs'') := if on then connLoop n env shares fs' input' else ([], fs') in
     (concat (map written out) ++ more, fs'')).
Proof.
  intros Hv. cbn [connLoop]. unfold requestLine. rewrite <- app_assoc. cbn [app].
  rewrite readLine_app by apply request_line. by rewrite request_kept.
Qed.

Lemma connLoop_nil n env shares fs : connLoop n env shares fs [] = ([], fs).
Proof. by destruct n. Qed.

(** A request that is all there is to read, and is not a subscription. *)
Lemma converse_one env ts machine a req input out fs' :
  forallb utf8Valid (request_texts req) = true ->
  handleRequest env (ag_shares a) (ag_fs a) (Some req) input = (out, fs', [], true) ->
  converse env ts machine a (requestLine req ++ input) =
    (concat (map written out), <[machine := AgentEnd (ag_shares a) fs']> ts).
Proof.
  intros Hv Hr. unfold converse, handleFileShareConn. rewrite connLoop_request, Hr by done.
  rewrite connLoop_nil. by rewrite app_nil_r.
Qed.

Lemma firstResponse_written r rest :
  forallb utf8Valid (response_texts r) = true -> firstResponse (writeResponse r ++ rest) = inr (r, rest).
Proof.
  intros Hv. unfold firstResponse, writeResponse. rewrite <- app_assoc. cbn [app].
  by rewrite readLine_app, response_kept by (done || apply response_line).
Qed.

Lemma handleRequest_share env shares fs req input cfg :
  find_first (fun s => ps_name s =s fr_Share req) shares = Some cfg ->
  (fr_Op req = "read" ->
   handleRequest env shares fs (Some req) input = (handleRead env fs cfg req, input, true)) /\
  (fr_Op req = "write" ->
   handleRequest env shares fs (Some req) input = (handleWrite env fs cfg req input, true)).
Proof. intros Hf. unfold handleRequest. split; intros ->; by rewrite Hf. Qed.

(** The texts an upload or download of [p] carries. *)
Definition texts_valid (share p : string) (data : list Z) : Prop :=
  forallb utf8Valid ["read"; "write"; ""; share; p; checksumOf data] = true.

Lemma texts_valid_spec share p data :
  texts_valid share p data ->
  forallb utf8Valid (request_texts (plainRequest "read" share p "" "")) = true /\
  forallb utf8Valid (request_texts (putRequest share p data)) = true /\
  (forall n, forallb utf8Valid (response_texts (FsResponse true "" [] [] n (checksumOf data) 0)) = true) /\
  (forall n, forallb utf8Valid (response_texts (FsResponse true "" [] [] n "" 0)) = true).
Proof.
  unfold texts_valid. intros Hv. cbn [forallb] in Hv. repeat rewrite andb_true_iff in Hv.
  destruct Hv as (H1 & H2 & H3 & H4 & H5 & H6 & _).
  unfold request_texts, response_texts, plainRequest, putRequest. cbn.
  rewrite H1, H2, H3, H4, H5, H6. done.
Qed.

(** What the agent answers to a read of a file there is. *)
Definition readAnswer (data : list Z) : list Z :=
  writeResponse (FsResponse true "" [] [] (Z.of_nat (length data)) (checksumOf data) 0)
    ++ sendChunks (length data) data.

Lemma converse_read env ts machine a cfg ds es e p share data :
  find_first (fun s => ps_name s =s share) (ag_shares a) = Some cfg ->
  placed cfg ds es e p (ag_fs a) -> ag_fs a !! (ds ++ es ++ [e]) = Some (NFile data) ->
  sv_fault env "open" = false -> texts_valid share p data ->
  converse env ts machine a (requestLine (plainRequest "read" share p "" "")) =
    (readAnswer data, <[machine := a]> ts).
Proof.
  intros Hcfg Hp Hf Ho Hv. apply texts_valid_spec in Hv as (Hv & _).
  rewrite <- (app_nil_r (requestLine _)).
  erewrite converse_one; [|done|].
  2:{ destruct (handleRequest_share env (ag_shares a) (ag_fs a) (plainRequest "read" share p "" "") [] cfg Hcfg)
        as [Hr _]. rewrite Hr by done.
      by rewrite (handleRead_placed cfg ds es e p env (ag_fs a) (plainRequest "read" share p "" "") data). }
  cbn [map concat written]. rewrite app_nil_r. by destruct a.
Qed.

(** The end of a download whose answer is [readAnswer]. *)
Lemma receive_answer data :
  recvChunks (S (length (sendChunks (length data) data))) true [] (sendChunks (length data) data) = (None, data).
Proof.
  pose proof (sendChunks_length (length data) data ltac:(lia)) as Hl.
  pose proof (recvChunks_sent (S (length (sendChunks (length data) data))) (length data) true [] data []) as Hr.
  rewrite app_nil_r in Hr. apply Hr; lia.
Qed.

Lemma checksumOf_ne data : checksumOf data <> "".
Proof. done. Qed.

(** A get whose request is answered so. *)
Lemma cmdFilesGet_answered env w w' machine share output p data :
  machine <> "" -> share <> "" -> texts_valid share p data ->
  fileShareRequest env true w machine (plainRequest "read" share p "" "") =
    (firstResponse (readAnswer data), w') ->
  cmdFilesGet env true true w machine share output [p] =
    (Downloaded (if output =s "" then Base p else output) data, w').
Proof.
  intros Hm Hs Hv Hr. apply texts_valid_spec in Hv as (_ & _ & Hv & _). unfold cmdFilesGet.
  rewrite !bool_decide_false by done. cbn [orb]. rewrite Hr.
  unfold readAnswer. rewrite firstResponse_written by apply Hv. cbn [rs_OK negb].
  rewrite receive_answer. cbn [rs_Checksum].
  rewrite (bool_decide_false (checksumOf data = "")) by apply checksumOf_ne.
  by rewrite bool_decide_true.
Qed.

(** ** The control server *)

Lemma substring_all (s : string) : String.substring 0 (String.length s) s = s.
Proof. induction s as [|c s IH]; [done|]. cbn. by rewrite IH. Qed.

Lemma checkControlAuth_bearer token : checkControlAuth ("Bearer " +:+ token) token = None.
Proof.
  unfold checkControlAuth.
  change (String.length ("Bearer " +:+ token)) with (S (S (S (S (S (S (S (String.length token)))))))).
  destruct (Nat.ltb_spec (S (S (S (S (S (S (S (String.length token)))))))) 7); [lia|].
  replace (S (S (S (S (S (S (S (String.length token)))))) ) - 7)%nat with (String.length token) by lia.
  change (String.substring 7 (String.length token) ("Bearer " +:+ token))
    with (String.substring 0 (String.length token) token).
  rewrite substring_all. by rewrite bool_decide_true.
Qed.

Lemma handleFiles_bearer env ts token machine a body :
  machine <> "" -> ts !! machine = Some a ->
  handleFiles env true token ts "POST" ("/files/" +:+ machine) ("Bearer " +:+ token) body =
    (let '(out, ts) := converse env ts machine a body in (proxyAnswer out, ts)).
Proof.
  intros Hm Ha. unfold handleFiles. rewrite checkControlAuth_bearer, trim_prefix_app.
  rewrite (bool_decide_false (machine = "")) by done. cbn [negb bool_decide].
  unfold dialFileShare. by rewrite Ha.
Qed.

(** The proxy passes a read of a file that is not empty on as it is, and ends with it. *)
Lemma proxyAnswer_read data :
  data <> [] -> (forall n, forallb utf8Valid (response_texts (FsResponse true "" [] [] n (checksumOf data) 0)) = true) ->
  proxyAnswer (readAnswer data) = PrStream (readAnswer data) false.
Proof.
  intros Hne Hv. unfold proxyAnswer, readAnswer, writeResponse. rewrite <- app_assoc. cbn [app].
  rewrite readLine_app by apply response_line. rewrite response_kept by apply Hv. cbn [rs_OK rs_Size andb].
  destruct (Z.ltb_spec 0 (Z.of_nat (length data))); [|destruct data; [done|cbn in *; lia]].
  pose proof (sendChunks_length (length data) data ltac:(lia)) as Hl.
  rewrite <- (app_nil_r (sendChunks (length data) data)) at 2.
  by rewrite forwardChunks_sent by lia.
Qed.

Lemma insert_same (ts : tunnels) machine a : ts !! machine = Some a -> <[machine := a]> ts = ts.
Proof. apply insert_id. Qed.

(** From another process a file comes through the control server of the one that holds the
    tunnels: with the token of the control file and a file that is not empty, a get delivers
    exactly its bytes and changes nothing anywhere. *)
Theorem proxied_get env w token ts machine share p (output : string) data a cfg ds es e :
  machine <> "" -> share <> "" -> cw_own w = ∅ -> cw_file w = Some token -> cw_server w = Some (token, ts) ->
  ts !! machine = Some a -> find_first (fun s => ps_name s =s share) (ag_shares a) = Some cfg ->
  placed cfg ds es e p (ag_fs a) -> ag_fs a !! (ds ++ es ++ [e]) = Some (NFile data) -> data <> [] ->
  sv_fault env "open" = false -> texts_valid share p data ->
  cmdFilesGet env true true w machine share output [p] =
    (Downloaded (if output =s "" then Base p else output) data, w).
Proof.
  intros Hm Hs Hown Hfile Hserver Ha Hcfg Hp Hf Hne Ho Hv.
  destruct (texts_valid_spec share p data Hv) as (_ & _ & Hv3 & _).
  apply cmdFilesGet_answered; [done..|]. unfold fileShareRequest, dialFileShare.
  rewrite Hown, lookup_empty. unfold controlFileShareRequest. rewrite Hfile, Hserver.
  rewrite (handleFiles_bearer _ _ _ _ a) by done.
  erewrite converse_read by done. rewrite proxyAnswer_read by done.
  rewrite insert_same by done. destruct w as [own file server]. cbn in *. by rewrite Hown, Hserver, Hfile.
Qed.
End client.
