(* ===== verification/Mount.v ===== *)
(** * The mounted file shares ([internal/client/mount.go])

    The WebDAV file system of [tela mount]: a process beside the one that holds the tunnels, which
    it reaches through the control server.  A request to the server is tried up to five times; the
    attempts' fates are parameters, as are the clock and the calls that fail on the agent.
    Modification times are left out, and a machine's name is taken to need no escaping in a URL. *)

From S2P Require Import Prelude FilePath FileSys Sha256 FileShare ClientFiles.
From Stdlib Require Import ZArith Lia Ascii String.
From stdpp Require Import base gmap strings list fin_maps.

(** Lengths of time are in nanoseconds. *)
Definition mountCacheTTL : Z := 30 * 1000000000.
Definition mountPageSize : Z := 500.

(** [ms_token] is read from the control file once; [ms_server] is the control server's own token and
    the tunnels of its process. *)
Record mountState := MountState {
  ms_token : string;
  ms_server : string * tunnels;
  ms_cache : gmap string (list fsEntry * Z);
  ms_real : gmap string string;      (** [mountSanitizedToReal] *)
  ms_safe : gmap string string       (** [mountRealToSanitized] *)
}.

Definition with_server (st : mountState) (ts : tunnels) : mountState :=
  MountState (ms_token st) (fst (ms_server st), ts) (ms_cache st) (ms_real st) (ms_safe st).
Definition with_cache (st : mountState) (c : gmap string (list fsEntry * Z)) : mountState :=
  MountState (ms_token st) (ms_server st) c (ms_real st) (ms_safe st).

(** The fate of one attempt: [LostReply] reaches the agent but runs into the client's deadline. *)
Inductive attempt := Reached | TunnelDown | Unreachable | LostReply.

(** One operation's surroundings: the fate of attempt [k] of its [i]th request, the agent's calls
    that fail, the clock, and whether a probe's dial succeeds. *)
Record mountEnv := MountEnv {
  me_fate : nat -> nat -> attempt;
  me_agent : shareEnv;
  me_now : Z;
  me_up : bool
}.

(** [mountFsRequest] as the agent reads it: it has no checksum. *)
Definition mountFsRequest (op share path newName newPath : string) (offset limit : Z) : fsRequest :=
  FsRequest op share path 0 "" newName newPath offset limit.

(** ** Names

    [localize] is the [filepath.Localize] of Unix: the path is valid UTF-8, has no NUL, and no
    element of it is empty, "." or ".." unless it is "." alone. *)

Section names.
Context (utf8 : string -> bool).

Definition validPath (name : string) : bool :=
  utf8 name &&
  ((name =s ".") ||
   forallb (fun e => negb (existsb (String.eqb e) [EmptyString; "."; ".."])) (split_slash name)).
Definition localize (name : string) : bool := validPath name && forallb (fun c => negb (code c =? 0)%Z) (bytes name).

Definition safe_byte (c : ascii) : ascii :=
  if existsb (Ascii.eqb c) ["/"; "\"; ":"; "*"; "?"; "034"; "<"; ">"; "|"]%char || (code c <? 32)%Z
  then "_"%char else c.

Definition safeName (name : string) : string :=
  let safe := trim_right_with (fun c => Ascii.eqb c "." || Ascii.eqb c " ") (of_bytes (map safe_byte (bytes name))) in
  if safe =s "" then "_" else safe.

(** The name and the state with the mapping entered. *)
Definition mountSanitizeName (st : mountState) (name : string) : string * mountState :=
  let safe := if localize name && (name <>s "") then name else safeName name in
  (safe, MountState (ms_token st) (ms_server st) (ms_cache st) (<[safe := name]> (ms_real st))
           (<[name := safe]> (ms_safe st))).
End names.

Definition mountResolveName (st : mountState) (sanitized : string) : string :=
  default sanitized (ms_real st !! sanitized).

(** Machine, share and path of a WebDAV name. *)
Definition mountParsePath (st : mountState) (name : string) : string * string * string :=
  let name := trim_prefix name "/" in
  if name =s "" then ("", "", "")
  else match cut name "/" with
       | None => (mountResolveName st name, "", "")
       | Some (m, rest) =>
           match cut rest "/" with
           | None => (mountResolveName st m, rest, "")
           | Some (s, p) => (mountResolveName st m, s, p)
           end
       end.

(** [filepath.Dir] with the current directory as no path. *)
Definition parentOf (path : string) : string := let d := Dir path in if d =s "." then "" else d.

Definition cacheKey (machine share path : string) : string :=
  machine +:+ ":" +:+ share +:+ ":" +:+ path.

Definition mountInvalidateCache (st : mountState) (machine share path : string) : mountState :=
  with_cache st (delete (cacheKey machine share (parentOf path)) (delete (cacheKey machine share path) (ms_cache st))).

(** ** Requests *)

Section mount.
Context `{FsCodec}.

(** One POST to the control server: the reply, if it arrives, and the tunnels after it. *)
Definition postFiles (env : mountEnv) (st : mountState) (fate : attempt) (machine : string) (body : list Z)
    : option proxyReply * mountState :=
  match fate with
  | Unreachable => (None, st)
  | _ =>
      let up := match fate with TunnelDown => false | _ => true end in
      let '(reply, ts) := handleFiles (me_agent env) up (fst (ms_server st)) (snd (ms_server st)) "POST"
                            ("/files/" +:+ machine) ("Bearer " +:+ ms_token st) body in
      (match fate with LostReply => None | _ => Some reply end, with_server st ts)
  end.

(** The first line of a reply; [inl] is the error. *)
Definition mountReply (reply : proxyReply) : string + fsResponse :=
  match reply with
  | PrStream body _ =>
      match readLine body with
      | Some (line, _) =>
          match unmarshalResponse line with Some r => inr r | None => inl "invalid response" end
      | None => inl "invalid response"
      end
  | PrError code err => inl (httpError code err)
  | PrPlain code _ => inl (httpError code "")
  | PrAvailable => inl "invalid response"
  end.

(** [fates] are those of the attempts left. *)
Fixpoint tryRequests (env : mountEnv) (st : mountState) (fates : list attempt) (machine : string)
    (body : list Z) (lastErr : string) : (string + fsResponse) * mountState :=
  match fates with
  | [] => (inl lastErr, st)
  | fate :: fates =>
      let '(reply, st) := postFiles env st fate machine body in
      match reply with
      | None => tryRequests env st fates machine body "control API unreachable"
      | Some (PrError code err) =>
          if (code =? 503)%Z then tryRequests env st fates machine body "tunnel unavailable (reconnecting)"
          else (inl (httpError code err), st)
      | Some reply => (mountReply reply, st)
      end
  end.

(** Seconds before each attempt. *)
Definition delays : list Z := [0; 2; 4; 8; 16]%Z.

(** The [i]th request of an operation. *)
Definition mountFileShareRequest (env : mountEnv) (i : nat) (st : mountState) (machine share : string)
    (op : fsRequest) : (string + fsResponse) * mountState :=
  let op := FsRequest (fr_Op op) share (fr_Path op) (fr_Size op) (fr_Checksum op) (fr_NewName op)
              (fr_NewPath op) (fr_Offset op) (fr_Limit op) in
  tryRequests env st (map (me_fate env i) (seq 0 (length delays))) machine (requestLine op) "".

(** ** Listings *)

(** The pages from [offset] on; the outer [None] is a loop cut off after [n] pages. *)
Fixpoint fetchPages (n : nat) (env : mountEnv) (i : nat) (st : mountState) (machine share path : string)
    (all : list fsEntry) (offset : Z) : option ((string + list fsEntry) * mountState) :=
  match n with
  | O => None
  | S n =>
      let '(r, st) := mountFileShareRequest env i st machine share
                        (mountFsRequest "list" share path "" "" offset mountPageSize) in
      match r with
      | inl err => Some (inl err, st)
      | inr resp =>
          if negb (rs_OK resp) then Some (inl (rs_Error resp), st)
          else
            let all := all ++ rs_Entries resp in
            let got := (offset + Z.of_nat (length (rs_Entries resp)))%Z in
            if (rs_Total resp =? 0)%Z || (rs_Total resp <=? got)%Z then Some (inr all, st)
            else fetchPages n env (S i) st machine share path all got
      end
  end.

(** [n] bounds the pages. *)
Definition mountCachedList (n : nat) (env : mountEnv) (st : mountState) (machine share path : string)
    : option ((string + list fsEntry) * mountState) :=
  let key := cacheKey machine share path in
  let fetch :=
    '(r, st) ← fetchPages n env 0 st machine share path [] 0;
    Some (match r with
          | inl err => (inl err, st)
          | inr entries => (inr entries, with_cache st (<[key := (entries, me_now env)]> (ms_cache st)))
          end) in
  match ms_cache st !! key with
  | Some (entries, fetched) =>
      if (me_now env - fetched <? mountCacheTTL)%Z then Some (inr entries, st) else fetch
  | None => fetch
  end.

(** ** The file system *)

Inductive mountErr := ErrPermission | ErrNotExist | ErrOther (text : string).

(** The one request of an operation that changes the share. *)
Definition changeRequest (env : mountEnv) (st : mountState) (machine share : string) (op : fsRequest)
    : option mountErr * mountState :=
  let '(r, st) := mountFileShareRequest env 0 st machine share op in
  (match r with
   | inl err => Some (ErrOther err)
   | inr resp => if rs_OK resp then None else Some (ErrOther (rs_Error resp))
   end, st).

Definition Mkdir (env : mountEnv) (st : mountState) (name : string) : option mountErr * mountState :=
  let '(machine, share, remotePath) := mountParsePath st name in
  if (machine =s "") || (share =s "") || (remotePath =s "") then (Some ErrPermission, st)
  else match changeRequest env st machine share (mountFsRequest "mkdir" share remotePath "" "" 0 0) with
       | (Some e, st) => (Some e, st)
       | (None, st) => (None, mountInvalidateCache st machine share remotePath)
       end.

Definition RemoveAll (env : mountEnv) (st : mountState) (name : string) : option mountErr * mountState :=
  let '(machine, share, remotePath) := mountParsePath st name in
  if (machine =s "") || (share =s "") || (remotePath =s "") then (Some ErrPermission, st)
  else match changeRequest env st machine share (mountFsRequest "delete" share remotePath "" "" 0 0) with
       | (Some e, st) => (Some e, st)
       | (None, st) => (None, mountInvalidateCache st machine share remotePath)
       end.

Definition Rename (env : mountEnv) (st : mountState) (oldName newName : string) : option mountErr * mountState :=
  let '(oldMachine, oldShare, oldPath) := mountParsePath st oldName in
  let '(newMachine, newShare, newPath) := mountParsePath st newName in
  if (oldMachine =s "") || (oldShare =s "") || (oldPath =s "")
     || (newMachine =s "") || (newShare =s "") || (newPath =s "") then (Some ErrPermission, st)
  else if (oldMachine <>s newMachine) || (oldShare <>s newShare) then
    (Some (ErrOther "cannot move between machines or shares"), st)
  else
    let req := if Dir oldPath =s Dir newPath
               then mountFsRequest "rename" oldShare oldPath (Base newPath) "" 0 0
               else mountFsRequest "move" oldShare oldPath "" newPath 0 0 in
    match changeRequest env st oldMachine oldShare req with
    | (Some e, st) => (Some e, st)
    | (None, st) =>
        (None, mountInvalidateCache (mountInvalidateCache st oldMachine oldShare oldPath) oldMachine oldShare newPath)
    end.

(** A directory's name, or a file's name and size. *)
Inductive fileInfo := DirInfo (name : string) | FileInfo (name : string) (size : option Z).

Definition info_of (e : fsEntry) : fileInfo :=
  if en_IsDir e then DirInfo (en_Name e) else FileInfo (en_Name e) (en_Size e).

Definition Stat (n : nat) (env : mountEnv) (st : mountState) (name : string)
    : option ((mountErr + fileInfo) * mountState) :=
  let '(machine, share, remotePath) := mountParsePath st name in
  if machine =s "" then Some (inr (DirInfo "/"), st)
  else if share =s "" then Some (inr (DirInfo machine), st)
  else if remotePath =s "" then Some (inr (DirInfo share), st)
  else
    '(r, st) ← mountCachedList n env st machine share (parentOf remotePath);
    Some (match r with
          | inl _ => inl ErrNotExist
          | inr entries =>
              match find_first (fun e => en_Name e =s Base remotePath) entries with
              | Some e => inr (info_of e)
              | None => inl ErrNotExist
              end
          end, st).

(** What [OpenFile] hands out. *)
Record telaFile := TelaFile {
  tf_machine : string;
  tf_share : string;
  tf_path : string;
  tf_writable : bool;
  tf_buffer : option (list Z);             (** what was written, once anything was *)
  tf_loaded : option (option (list Z * nat)) (** once read from: the content and the position, or the failure *)
}.
Inductive opened :=
  | ORoot
  | OMachine (machine : string)
  | OShare (machine share path : string)
  | OFile (f : telaFile).

Definition OpenFile (n : nat) (env : mountEnv) (st : mountState) (name : string) (writable : bool)
    : option (opened * mountState) :=
  let '(machine, share, remotePath) := mountParsePath st name in
  if machine =s "" then Some (ORoot, st)
  else if share =s "" then Some (OMachine machine, st)
  else if remotePath =s "" then Some (OShare machine share "", st)
  else
    '(r, st) ← mountCachedList n env st machine share (parentOf remotePath);
    let is_dir := match r with
                  | inl _ => false
                  | inr entries => existsb (fun e => (en_Name e =s Base remotePath) && en_IsDir e) entries
                  end in
    Some (if is_dir then OShare machine share remotePath
          else OFile (TelaFile machine share remotePath writable None None), st).

(** ** Directories *)

(** The slice read, whether it comes with [io.EOF], and the position after it. *)
Definition mountReaddir {A} (entries : list A) (pos : nat) (count : Z) : list A * bool * nat :=
  if (count <=? 0)%Z then (drop pos entries, false, length entries)
  else if (length entries <=? pos)%nat then ([], true, pos)
  else
    let end_ := Nat.min (pos + Z.to_nat count) (length entries) in
    (take (end_ - pos) (drop pos entries), (length entries <=? end_)%nat, end_).

Definition hasInvalidXMLChars (s : string) : bool :=
  existsb (fun c => negb (existsb (Z.eqb (code c)) [9; 10; 13]%Z) && (code c <? 32)%Z) (bytes s).

(** [order] is the order in which the server lists its tunnels. *)
Definition mountProbeFileShare (env : mountEnv) (st : mountState) (machine : string) : bool :=
  match handleFilesProbe (me_up env) (fst (ms_server st)) (snd (ms_server st))
          ("/files-probe/" +:+ machine) ("Bearer " +:+ ms_token st) with
  | PrAvailable => true
  | _ => false
  end.
Definition mountListMachines (env : mountEnv) (st : mountState) (order : list string) : list string :=
  match checkControlAuth ("Bearer " +:+ ms_token st) (fst (ms_server st)) with
  | Some _ => []
  | None => List.filter (mountProbeFileShare env st) order
  end.

(** The entries a directory reads in on first use; [None] is a failure. *)
Fixpoint sanitizeAll (utf8 : string -> bool) (st : mountState) (machines : list string)
    : list fileInfo * mountState :=
  match machines with
  | [] => ([], st)
  | m :: machines =>
      let '(safe, st) := mountSanitizeName utf8 st m in
      let '(rest, st) := sanitizeAll utf8 st machines in
      (DirInfo safe :: rest, st)
  end.
Definition rootEntries (env : mountEnv) (st : mountState) (order : list string) : list fileInfo * mountState :=
  sanitizeAll utf8Valid st (mountListMachines env st order).

Definition machineEntries (env : mountEnv) (st : mountState) (machine : string)
    : option (list fileInfo) * mountState :=
  let '(r, st) := mountFileShareRequest env 0 st machine "" (mountFsRequest "list-shares" "" "" "" "" 0 0) in
  (match r with inl _ => None | inr resp => Some (map (fun s => DirInfo (si_Name s)) (rs_Shares resp)) end, st).

Definition shareEntries (n : nat) (env : mountEnv) (st : mountState) (machine share path : string)
    : option (option (list fileInfo) * mountState) :=
  '(r, st) ← mountCachedList n env st machine share path;
  Some (match r with
        | inl _ => None
        | inr entries => Some (map info_of (List.filter (fun e => negb (hasInvalidXMLChars (en_Name e))) entries))
        end, st).

(** ** Files *)

(** What [mountDownloadToFile] leaves in the file, or its error. *)
Definition mountDownloadToFile (env : mountEnv) (st : mountState) (machine share path : string)
    : (string + list Z) * mountState :=
  let '(reply, st) := postFiles env st (me_fate env 0 0) machine
                        (requestLine (plainRequest "read" share path "" "")) in
  (match reply with
   | None => inl "request failed"
   | Some (PrStream body _) =>
       match readLine body with
       | None => inl "read header"
       | Some (_, rest) =>
           match recvChunks (S (length rest)) false [] rest with
           | (Some err, _) => inl err
           | (None, data) => inr data
           end
       end
   | Some (PrError code err) => inl (httpError code err)
   | Some (PrPlain code _) => inl (httpError code "")
   | Some PrAvailable => inl "read header"
   end, st).

(** One chunk with everything. *)
Definition uploadBytes (share path : string) (data : list Z) : list Z :=
  requestLine (FsRequest "write" share path (Z.of_nat (length data)) "" "" "" 0 0)
    ++ chunkHeader (Z.of_nat (length data)) ++ data ++ chunkHeader 0.

Definition mountUploadFile (env : mountEnv) (st : mountState) (machine share path : string) (data : list Z)
    : option string * mountState :=
  let '(reply, st) := postFiles env st (me_fate env 0 0) machine (uploadBytes share path data) in
  (match reply with
   | None => Some "request failed"
   | Some reply =>
       match mountReply reply with
       | inl err => Some err
       | inr resp => if rs_OK resp then None else Some (rs_Error resp)
       end
   end, st).

Definition with_buffer (f : telaFile) (b : option (list Z)) : telaFile :=
  TelaFile (tf_machine f) (tf_share f) (tf_path f) (tf_writable f) b (tf_loaded f).
Definition with_loaded (f : telaFile) (l : option (option (list Z * nat))) : telaFile :=
  TelaFile (tf_machine f) (tf_share f) (tf_path f) (tf_writable f) (tf_buffer f) l.

Definition Write (f : telaFile) (p : list Z) : option mountErr * telaFile :=
  if negb (tf_writable f) then (Some ErrPermission, f)
  else (None, with_buffer f (Some (default [] (tf_buffer f) ++ p))).

(** Downloads on first use. *)
Definition ensureLoaded (env : mountEnv) (st : mountState) (f : telaFile) : telaFile * mountState :=
  match tf_loaded f with
  | Some _ => (f, st)
  | None =>
      let '(r, st) := mountDownloadToFile env st (tf_machine f) (tf_share f) (tf_path f) in
      (with_loaded f (Some (match r with inl _ => None | inr data => Some (data, O) end)), st)
  end.

(** The bytes read and whether [io.EOF] comes with them. *)
Definition Read (env : mountEnv) (st : mountState) (f : telaFile) (n : nat) : list Z * bool * telaFile * mountState :=
  let '(f, st) := ensureLoaded env st f in
  match tf_loaded f with
  | Some (Some (data, pos)) =>
      let p := take n (drop pos data) in
      (p, (0 <? n)%nat && is_nil p, with_loaded f (Some (Some (data, (pos + length p)%nat))), st)
  | _ => ([], true, f, st)
  end.

(** [mountTelaFile.Stat]: the size listed for the name, directories included. *)
Definition FileStat (n : nat) (env : mountEnv) (st : mountState) (f : telaFile)
    : option (option (option Z) * mountState) :=
  '(r, st) ← mountCachedList n env st (tf_machine f) (tf_share f) (parentOf (tf_path f));
  Some (match r with
        | inl _ => None
        | inr entries =>
            en_Size <$> find_first (fun e => en_Name e =s Base (tf_path f)) entries
        end, st).

Inductive whence := SeekStart | SeekCurrent | SeekEnd.

(** [None] is the error of a negative position; a listed size left open counts as 0. *)
Definition Seek (n : nat) (env : mountEnv) (st : mountState) (f : telaFile) (offset : Z) (w : whence)
    : option (option Z * telaFile * mountState) :=
  if tf_writable f then Some (Some 0%Z, f, st)
  else match tf_loaded f with
       | Some (Some (data, pos)) =>
           let target := match w with
                         | SeekStart => offset
                         | SeekCurrent => (Z.of_nat pos + offset)%Z
                         | SeekEnd => (Z.of_nat (length data) + offset)%Z
                         end in
           Some (if (target <? 0)%Z then (None, f, st)
                 else (Some target, with_loaded f (Some (Some (data, Z.to_nat target))), st))
       | _ =>
           match w with
           | SeekEnd =>
               '(r, st) ← FileStat n env st f;
               Some (Some (match r with Some size => (default 0 size + offset)%Z | None => 0%Z end), f, st)
           | _ => Some (Some 0%Z, f, st)
           end
       end.

(** Uploads what was written. *)
Definition Close (env : mountEnv) (st : mountState) (f : telaFile) : option mountErr * mountState :=
  match (if tf_writable f then tf_buffer f else None) with
  | None => (None, st)
  | Some data =>
      let finish st := (None, mountInvalidateCache st (tf_machine f) (tf_share f) (tf_path f)) in
      if is_nil data then finish st
      else match mountUploadFile env st (tf_machine f) (tf_share f) (tf_path f) data with
           | (Some err, st) => (Some (ErrOther err), st)
           | (None, st) => finish st
           end
  end.
End mount.

(** [registerTunnel] clears the listings cached in its own process, which are not those of the
    process that serves the mount. *)
Definition registerTunnel (ts : tunnels) (cache : gmap string (list fsEntry * Z)) (machine : string) (a : agentEnd)
    : tunnels * gmap string (list fsEntry * Z) :=
  (<[machine := a]> ts,
   filter (fun kv => negb (has_prefix (fst kv) (machine +:+ ":"))) cache).
Definition unregisterTunnel (ts : tunnels) (machine : string) : tunnels := delete machine ts.
