(* ===== verification/MountProofs.v ===== *)
(** * Theorems about the mounted file shares ([Mount])

    What a mounted share shows and does is what the agent's share is and does: listings in pages,
    a reconnect behind the scenes, directories made through the mount, reads and writes of files,
    and the names of machines.

    The last part evaluates a client, its mount and an agent. *)

From S2P Require Import Prelude FilePath FileSys Sha256 FileShare FileShareProofs ClientFiles Mount.
From Stdlib Require Import ZArith Lia Ascii String.
From stdpp Require Import base countable gmap strings list fin_maps sorting.

Section mount.
Context `{FsCodec}.

(** The mount has the control server's token, and the server a tunnel to the machine. *)
Record joined (st : mountState) (machine : string) (a : agentEnd) : Prop := Joined {
  jn_token : fst (ms_server st) = ms_token st;
  jn_machine : machine <> "";
  jn_tunnel : snd (ms_server st) !! machine = Some a
}.

(** The state after the agent's files became [fs]. *)
Definition agent_now (st : mountState) (machine : string) (a : agentEnd) (fs : fsys) : mountState :=
  with_server st (<[machine := AgentEnd (ag_shares a) fs]> (snd (ms_server st))).

Lemma with_server_same st : with_server st (snd (ms_server st)) = st.
Proof. by destruct st as [? [] ? ? ?]. Qed.

Lemma agent_now_same st machine a : joined st machine a -> agent_now st machine a (ag_fs a) = st.
Proof.
  intros [_ _ Ha]. unfold agent_now. destruct a as [shares fs]. cbn.
  rewrite insert_id by done. apply with_server_same.
Qed.

Lemma joined_now st machine a fs :
  joined st machine a -> joined (agent_now st machine a fs) machine (AgentEnd (ag_shares a) fs).
Proof. intros [Ht Hm Ha]. split; [done|done|]. cbn. apply lookup_insert_eq. Qed.

(** ** Requests *)

Lemma proxyAnswer_stream r rest :
  forallb utf8Valid (response_texts r) = true ->
  exists b w, proxyAnswer (writeResponse r ++ rest) = PrStream (writeResponse r ++ b) w.
Proof.
  intros Hv. unfold proxyAnswer, writeResponse. rewrite <- app_assoc. cbn [app].
  rewrite readLine_app by apply response_line. rewrite response_kept by done.
  destruct (rs_OK r && _); [destruct (forwardChunks _ _) as [b w]|]; do 2 eexists; by rewrite <- app_assoc.
Qed.

Lemma mountReply_stream r b w :
  forallb utf8Valid (response_texts r) = true -> mountReply (PrStream (writeResponse r ++ b) w) = inr r.
Proof.
  intros Hv. unfold mountReply, writeResponse. rewrite <- app_assoc. cbn [app].
  by rewrite readLine_app, response_kept by (done || apply response_line).
Qed.

Lemma mountReply_written r rest :
  forallb utf8Valid (response_texts r) = true -> mountReply (proxyAnswer (writeResponse r ++ rest)) = inr r.
Proof. intros Hv. destruct (proxyAnswer_stream r rest Hv) as (b & w & ->). by apply mountReply_stream. Qed.

Lemma postFiles_reached env st machine a body :
  joined st machine a ->
  postFiles env st Reached machine body =
    (let '(out, ts) := converse (me_agent env) (snd (ms_server st)) machine a body in
     (Some (proxyAnswer out), with_server st ts)).
Proof.
  intros [Ht Hm Ha]. unfold postFiles. rewrite <- Ht, (handleFiles_bearer _ _ _ _ a) by done.
  by destruct (converse _ _ _ _ _).
Qed.

(** An attempt that does not reach the agent. *)
Definition misses (x : attempt) : Prop := x = TunnelDown \/ x = Unreachable.
Definition rides (fates : list attempt) : Prop :=
  exists pre post, fates = pre ++ Reached :: post /\ Forall misses pre.

(** The [i]th request of the operation gets through within the attempts it has. *)
Definition gets_through (env : mountEnv) (i : nat) : Prop :=
  rides (map (me_fate env i) (seq 0 (length delays))).

Lemma postFiles_misses env st x machine a body :
  joined st machine a -> misses x ->
  postFiles env st x machine body = (None, st) \/
  exists err, postFiles env st x machine body = (Some (PrError 503 err), st).
Proof.
  intros [Ht Hm Ha] [-> | ->]; [right|by left]. exists "cannot connect to file share".
  unfold postFiles, handleFiles. rewrite <- Ht, checkControlAuth_bearer, trim_prefix_app.
  rewrite (bool_decide_false (machine = "")) by done. cbn [negb bool_decide].
  unfold dialFileShare. rewrite Ha. f_equal. apply with_server_same.
Qed.

Lemma tryRequests_rides env st fates machine a body lastErr r rest ts :
  joined st machine a -> rides fates ->
  converse (me_agent env) (snd (ms_server st)) machine a body = (writeResponse r ++ rest, ts) ->
  forallb utf8Valid (response_texts r) = true ->
  tryRequests env st fates machine body lastErr = (inr r, with_server st ts).
Proof.
  intros Hj (pre & post & -> & Hpre) Hc Hv. revert lastErr.
  induction Hpre as [|x pre Hx Hpre IH]; intros lastErr; cbn [app tryRequests].
  - rewrite (postFiles_reached _ _ _ a), Hc by done. destruct (proxyAnswer_stream r rest Hv) as (b & wt & ->).
    by rewrite mountReply_stream.
  - destruct (postFiles_misses env st x machine a body Hj Hx) as [-> |[err ->]]; apply IH.
Qed.

(** One request that the agent answers. *)
Lemma mountFileShareRequest_answered env i st machine a share op r out fs' :
  let req := FsRequest (fr_Op op) share (fr_Path op) (fr_Size op) (fr_Checksum op) (fr_NewName op)
               (fr_NewPath op) (fr_Offset op) (fr_Limit op) in
  joined st machine a -> gets_through env i ->
  forallb utf8Valid (request_texts req) = true -> forallb utf8Valid (response_texts r) = true ->
  handleRequest (me_agent env) (ag_shares a) (ag_fs a) (Some req) [] = (SentResponse r :: out, fs', [], true) ->
  mountFileShareRequest env i st machine share op = (inr r, agent_now st machine a fs').
Proof.
  intros req Hj Hg Hq Hv Hr. unfold mountFileShareRequest. fold req.
  eapply tryRequests_rides; [exact Hj|exact Hg| |exact Hv].
  rewrite <- (app_nil_r (requestLine req)). erewrite converse_one by done. by cbn [map concat written].
Qed.

(** ** Listings *)

Section listing.
Context (env : mountEnv) (machine share path : string) (a : agentEnd) (cfg : parsedFileShareConfig).
Context (entries : list fsEntry).

Definition listRequest (offset limit : Z) : fsRequest := mountFsRequest "list" share path "" "" offset limit.

(** The agent's whole listing of the directory, and texts the encoding keeps. *)
Record lists : Prop := Lists {
  ls_share : find_first (fun s => ps_name s =s share) (ag_shares a) = Some cfg;
  ls_entries : handleList (me_agent env) (ag_fs a) cfg (listRequest 0 0) =
    ([SentResponse (FsResponse true "" entries [] 0 "" (Z.of_nat (length entries)))], ag_fs a);
  ls_texts : forallb utf8Valid ["list"; ""; share; path] = true;
  ls_names : forallb utf8Valid (map en_Name entries) = true
}.

Lemma handleList_page offset limit :
  lists -> handleList (me_agent env) (ag_fs a) cfg (listRequest offset limit) =
    ([SentResponse (FsResponse true "" (paginate offset limit entries) [] 0 "" (Z.of_nat (length entries)))], ag_fs a).
Proof.
  intros [_ Hl _ _]. revert Hl. unfold handleList. cbn [fr_Path listRequest mountFsRequest].
  destruct (if path <>s "" then _ else _) as [|dir]; [done|].
  destruct (if sv_fault _ _ then _ else _) as [l|]; [|done].
  cbn [fr_Offset fr_Limit mountFsRequest]. unfold paginate at 1. cbn. by intros [= <- _].
Qed.

Lemma forallb_sub {A} (f : A -> bool) (l k : list A) : k ⊆ l -> forallb f l = true -> forallb f k = true.
Proof.
  intros Hs. rewrite !forallb_forall. intros Hl x Hx. apply Hl. apply list_elem_of_In, Hs, list_elem_of_In, Hx.
Qed.

Lemma paginate_sub {A} offset limit (l : list A) : paginate offset limit l ⊆ l.
Proof.
  intros x. unfold paginate. intros Hx.
  assert (x ∈ (if (0 <? offset)%Z then drop (Z.to_nat offset) l else l)) as Hd.
  { destruct (_ && _); [|done]. by eapply subseteq_take. }
  destruct (0 <? offset)%Z; [by eapply subseteq_drop|done].
Qed.

Lemma page_request st i offset limit :
  lists -> joined st machine a -> gets_through env i ->
  mountFileShareRequest env i st machine share (listRequest offset limit) =
    (inr (FsResponse true "" (paginate offset limit entries) [] 0 "" (Z.of_nat (length entries))), st).
Proof.
  intros Hl Hj Hg. rewrite <- (agent_now_same st machine a Hj) at 2.
  pose proof (handleList_page offset limit Hl) as Hp. destruct Hl as [Hs _ Ht Hn].
  cbn [forallb] in Ht. repeat rewrite andb_true_iff in Ht. destruct Ht as (T1 & T2 & T3 & T4 & _).
  eapply mountFileShareRequest_answered; [done|done| | |].
  - unfold request_texts. cbn. by rewrite T1, T2, T3, T4.
  - unfold response_texts. cbn [rs_Error rs_Checksum rs_Entries rs_Shares map forallb]. rewrite T2, app_nil_r. cbn.
    eapply forallb_sub; [|exact Hn]. intros x (en & -> & Hen)%list_elem_of_fmap. apply list_elem_of_fmap. exists en. split; [done|by eapply paginate_sub].
  - unfold handleRequest. cbn [fr_Op listRequest mountFsRequest fr_Share]. cbn [fr_Path fr_Size fr_Checksum].
    rewrite (bool_decide_false ("list" = "list-shares")), Hs by done.
    rewrite (bool_decide_true ("list" = "list")) by done.
    unfold listRequest, mountFsRequest in Hp. cbn in Hp |- *. by rewrite Hp.
Qed.

(** A page in the middle. *)
Lemma paginate_mid {A} k (l : list A) :
  paginate (Z.of_nat k) mountPageSize l = take (Z.to_nat mountPageSize) (drop k l).
Proof.
  unfold paginate. rewrite Nat2Z.id.
  assert ((if (0 <? Z.of_nat k)%Z then drop k l else l) = drop k l) as ->.
  { destruct (Z.ltb_spec 0 (Z.of_nat k)); [done|]. by assert (k = 0) as -> by lia. }
  assert ((0 <? mountPageSize)%Z = true) as -> by done. cbn [andb].
  destruct (Z.ltb_spec mountPageSize (Z.of_nat (length (drop k l)))); [done|].
  rewrite take_ge; [done|]. unfold mountPageSize in *. lia.
Qed.

Lemma fetchPages_whole n st i k :
  lists -> joined st machine a -> (forall j, gets_through env j) ->
  k <= length entries -> length entries - k < n ->
  fetchPages n env i st machine share path (take k entries) (Z.of_nat k) = Some (inr entries, st).
Proof.
  intros Hl Hj Hg. revert i k. induction n as [|n IH]; intros i k Hk Hn; [lia|]. cbn [fetchPages].
  fold (listRequest (Z.of_nat k) mountPageSize). rewrite page_request by done.
  cbn [rs_OK rs_Entries rs_Total negb]. rewrite paginate_mid.
  set (c := Z.to_nat mountPageSize). assert (0 < c) by (unfold c, mountPageSize; lia).
  assert (take k entries ++ take c (drop k entries) = take (k + c) entries) as Happ by apply take_take_drop.
  rewrite Happ. assert (length (take c (drop k entries)) = Nat.min c (length entries - k)) as Hlen.
  { by rewrite length_take, length_drop. }
  destruct (Z.eqb_spec (Z.of_nat (length entries)) 0) as [E|E]; cbn [orb].
  { rewrite take_ge by lia. done. }
  destruct (Z.leb_spec (Z.of_nat (length entries)) (Z.of_nat k + Z.of_nat (length (take c (drop k entries)))))
    as [Hle|Hgt].
  { rewrite take_ge by lia. done. }
  replace (Z.of_nat k + Z.of_nat (length (take c (drop k entries))))%Z with (Z.of_nat (k + c)) by lia.
  apply IH; lia.
Qed.

End listing.

(** C26. A mounted directory shows what the agent's share holds, whole, however many pages it takes and
    whatever reconnects lie between: the pages end, they make up the listing [tela files ls] gives,
    and until the listing expires it is answered again without asking the agent. *)
Theorem listing_whole n env st machine share path a cfg entries :
  lists env share path a cfg entries -> joined st machine a -> (forall i, gets_through env i) ->
  ms_cache st !! cacheKey machine share path = None -> length entries < n -> share <> "" ->
  exists st',
    mountCachedList n env st machine share path = Some (inr entries, st') /\
    ms_server st' = ms_server st /\
    (forall n' env', (me_now env' - me_now env < mountCacheTTL)%Z ->
       mountCachedList n' env' st' machine share path = Some (inr entries, st')) /\
    fst (cmdFilesLs (me_agent env) true (CliWorld (snd (ms_server st)) None None) machine share [path])
      = EndOk entries.
Proof.
  intros Hl Hj Hg Hc Hn Hs. eexists. split_and!.
  - unfold mountCachedList. rewrite Hc.
    pose proof (fetchPages_whole env machine share path a cfg entries n st 0 0 Hl Hj Hg) as Hf.
    change (take 0 entries) with (@nil fsEntry) in Hf. change (Z.of_nat 0) with 0%Z in Hf. rewrite Hf by (done || lia). reflexivity.
  - done.
  - intros n' env' Hnow. unfold mountCachedList. cbn [ms_cache with_cache]. rewrite lookup_insert_eq.
    by destruct (Z.ltb_spec (me_now env' - me_now env) mountCacheTTL); [|lia].
  - destruct Hj as [_ Hm Ha]. unfold cmdFilesLs. rewrite !bool_decide_false by done. cbn [orb nth].
    unfold fileShareRequest, dialFileShare. cbn [cw_own]. rewrite Ha. unfold sendRequest.
    destruct Hl as [Hsh He Ht Hnames].
    cbn [forallb] in Ht. repeat rewrite andb_true_iff in Ht. destruct Ht as (T1 & T2 & T3 & T4 & _).
    rewrite <- (app_nil_r (requestLine _)).
    erewrite converse_one; [| |].
    2:{ unfold request_texts. cbn. by rewrite T1, T2, T3, T4. }
    2:{ unfold handleRequest. cbn [plainRequest fr_Op fr_Share]. rewrite (bool_decide_false ("list" = "list-shares")), Hsh by done.
        rewrite (bool_decide_true ("list" = "list")) by done. exact (f_equal (fun o => (o, [], true)) He). }
    cbn [map concat written]. rewrite firstResponse_written; [done|].
    unfold response_texts. cbn [rs_Error rs_Checksum rs_Entries rs_Shares map forallb]. by rewrite T2, app_nil_r.
Qed.

(** A control server that cannot dial changes nothing and gives an error. *)
Lemma handleFiles_down env token ts method path auth body reply ts' :
  handleFiles env false token ts method path auth body = (reply, ts') ->
  ts' = ts /\ exists err, mountReply reply = inl err.
Proof.
  unfold handleFiles, checkControlAuth, dialFileShare.
  destruct (_ <? _)%nat; [intros [= <- <-]; split; [done|by eexists]|].
  destruct (_ =s token); [|intros [= <- <-]; split; [done|by eexists]].
  destruct (method <>s "POST"); [intros [= <- <-]; split; [done|by eexists]|]. cbv zeta.
  destruct (_ =s _); [intros [= <- <-]; split; [done|by eexists]|].
  destruct (ts !! _); intros [= <- <-]; (split; [done|by eexists]).
Qed.

(** 503 means that nothing was sent. *)
Lemma handleFiles_503 env up token ts method path auth body err ts' :
  handleFiles env up token ts method path auth body = (PrError 503 err, ts') -> ts' = ts.
Proof.
  unfold handleFiles. destruct (checkControlAuth _ _) as [x|]; [by intros [= _ <-]|].
  destruct (method <>s "POST"); [by intros [= _ <-]|]. cbv zeta.
  destruct (_ =s _); [by intros [= _ <-]|].
  destruct (dialFileShare _ _ _) as [x|a]; [by intros [= _ <-]|].
  destruct (converse _ _ _ _ _) as [out ts1]. intros [= Hp _]. exfalso. revert Hp. unfold proxyAnswer.
  destruct (readLine out) as [[line rest]|]; [|done].
  destruct (match unmarshalResponse line with Some r => _ | None => _ end) as [ok size].
  destruct (ok && _); [destruct (forwardChunks _ _)|]; done.
Qed.

(** What becomes of a request in the attempts it has when no reply is lost. *)
Lemma tryRequests_once env st fates machine body lastErr r st' :
  Forall (fun x => x <> LostReply) fates ->
  tryRequests env st fates machine body lastErr = (r, st') ->
  (st' = st /\ exists err, r = inl err) \/
  exists reply ts,
    handleFiles (me_agent env) true (fst (ms_server st)) (snd (ms_server st)) "POST" ("/files/" +:+ machine)
      ("Bearer " +:+ ms_token st) body = (reply, ts) /\
    st' = with_server st ts /\ r = mountReply reply.
Proof.
  intros Hall. revert lastErr.
  induction Hall as [|x fates Hx Hall IH]; intros lastErr; [intros [= <- <-]; left; by eauto|].
  cbn [tryRequests]. unfold postFiles at 1.
  destruct x; [| | |done].
  - destruct (handleFiles _ _ _ _ _ _ _ _) as [reply ts] eqn:Eh.
    destruct reply as [c t|c t| |b wt]; try (intros [= <- <-]; right; by eexists _, _).
    destruct (Z.eqb_spec c 503) as [->|].
    + apply handleFiles_503 in Eh as ->. rewrite with_server_same. apply IH.
    + intros [= <- <-]. right. by eexists _, _.
  - destruct (handleFiles _ false _ _ _ _ _ _) as [reply ts] eqn:Eh.
    apply handleFiles_down in Eh as (-> & err & Herr). rewrite with_server_same.
    destruct reply as [c t|c t| |b wt]; try (intros [= <- <-]; left; split; [done|by eexists]).
    destruct (c =? 503)%Z; [apply IH|intros [= <- <-]; left; split; [done|by eexists]].
  - apply IH.
Qed.

(** Retrying does not repeat: when no reply is lost on the way back, one operation's request is
    carried out by the agent at most once, however many attempts fail before; either nothing
    reached the agent and the caller has an error, or it was run once and the caller has its answer. *)
Theorem request_at_most_once env i st machine share op r st' :
  let req := FsRequest (fr_Op op) share (fr_Path op) (fr_Size op) (fr_Checksum op) (fr_NewName op)
               (fr_NewPath op) (fr_Offset op) (fr_Limit op) in
  (forall k, me_fate env i k <> LostReply) ->
  mountFileShareRequest env i st machine share op = (r, st') ->
  (st' = st /\ exists err, r = inl err) \/
  exists reply ts,
    handleFiles (me_agent env) true (fst (ms_server st)) (snd (ms_server st)) "POST" ("/files/" +:+ machine)
      ("Bearer " +:+ ms_token st) (requestLine req) = (reply, ts) /\
    st' = with_server st ts /\ r = mountReply reply.
Proof.
  intros req Hf. apply tryRequests_once. apply Forall_forall. intros x (k & -> & _)%list_elem_of_fmap. apply Hf.
Qed.
(** ** Directories made through the mount *)

Lemma join_slash_snoc es e : es <> [] -> join_slash (es ++ [e]) = join_slash es +:+ "/" +:+ e.
Proof.
  induction es as [|x es IH]; [done|]. intros _. destruct (decide (es = [])) as [->|Hn]; [done|].
  change ((x :: es) ++ [e]) with (x :: (es ++ [e])).
  rewrite !join_slash_cons, IH by (done || by destruct es). by rewrite !string_app_assoc.
Qed.

Lemma upto_slash_single e : no_slash e -> upto_slash e = "".
Proof.
  induction e as [|c e IH]; [done|]. unfold no_slash. cbn [bytes list_ascii_of_string].
  rewrite not_elem_of_cons. intros [Hc He]. cbn [upto_slash]. rewrite IH by done.
  rewrite bool_decide_true by done. by destruct (Ascii.eqb_spec c "/").
Qed.

Lemma good_head e es : good_elems (e :: es) -> rooted (join_slash (e :: es)) = false /\ join_slash (e :: es) <> "".
Proof.
  intros [(Hne & _ & _ & Hn) _]%Forall_cons. destruct e as [|c e]; [done|].
  assert (exists r, join_slash (String c e :: es) = String c r) as (r & ->).
  { destruct es as [|x es]; [by exists e|]. rewrite join_slash_cons by done. by exists (e +:+ "/" +:+ join_slash (x :: es)). }
  split; [|done]. apply not_true_is_false. unfold rooted. intros (q & Hq)%has_prefix_iff. injection Hq as -> _. apply Hn. left.
Qed.

(** The path of clean relative elements. *)
Lemma parentOf_rel es e : good_elems (es ++ [e]) -> parentOf (join_slash (es ++ [e])) = join_slash es.
Proof.
  intros [Hes He]%Forall_app. destruct (proj1 (Forall_singleton _ _) He) as (_ & _ & _ & He').
  unfold parentOf, Dir. destruct es as [|x es]; [cbn [app]; by rewrite upto_slash_single|].
  rewrite join_slash_snoc, upto_slash_app by done. destruct (good_head x es Hes) as [Hr Hne].
  assert (Clean (join_slash (x :: es) +:+ "/") = join_slash (x :: es)) as ->.
  { unfold Clean. rewrite bool_decide_false by (by destruct (join_slash (x :: es))).
    assert (rooted (join_slash (x :: es) +:+ "/") = false) as ->.
    { apply not_true_is_false. intros Hc. apply (eq_true_false_abs (rooted (join_slash (x :: es)))); [|done].
      destruct (join_slash (x :: es)); [done|]. apply has_prefix_iff in Hc as (q & Hq). injection Hq as -> _.
      apply has_prefix_iff. by eexists. }
    change (join_slash (x :: es) +:+ "/") with (join_slash (x :: es) +:+ "/" +:+ "").
    rewrite split_slash_app, split_join by (done || by apply good_no_slash).
    rewrite clean_elems_plain.
    2:{ rewrite elem_of_app. intros [?|?%list_elem_of_singleton]; [by apply (good_no_dots (x :: es))|done]. }
    cbn [rev]. rewrite app_nil_l, filter_app, filter_good by done. cbn [split_slash]. by rewrite filter_cons_False, app_nil_r by (by intros [? _]). }
  rewrite bool_decide_false; [done|]. intros E.
  apply (f_equal split_slash) in E. rewrite split_join in E by (done || by apply good_no_slash).
  injection E as -> _. by apply Forall_cons in Hes as [(_ & ? & _) _].
Qed.

Lemma Base_rel es e : good_elems (es ++ [e]) -> Base (join_slash (es ++ [e])) = e.
Proof.
  intros Hg. pose proof Hg as [Hes He]%Forall_app. apply Forall_singleton in He as (Hne & _ & _ & Hn).
  unfold Base.
  assert (join_slash (es ++ [e]) <> "") as Hj.
  { destruct es as [|x es]; [done|]. by apply (good_head x (es ++ [e])). }
  rewrite bool_decide_false by done.
  assert (trim_right_with (fun c => Ascii.eqb c "/") (join_slash (es ++ [e])) = join_slash (es ++ [e])) as ->.
  { assert (exists l, bytes (join_slash (es ++ [e])) = l ++ bytes e) as (l & El).
    { destruct es as [|x es]; [by exists []|]. rewrite join_slash_snoc, !bytes_app by done.
      eexists. by rewrite app_assoc. }
    unfold trim_right_with. destruct (bytes e) as [|c b _] eqn:Eb using rev_ind; [by destruct e|].
    rewrite El, app_assoc, rev_app_distr. cbn [rev app drop_while].
    destruct (Ascii.eqb_spec c "/") as [->|_].
    { exfalso. apply Hn. unfold no_slash. rewrite Eb. apply elem_of_app. right. by apply list_elem_of_singleton. }
    cbn [rev]. rewrite rev_involutive, <- app_assoc, <- El. apply of_bytes_bytes. }
  rewrite bool_decide_false by done. rewrite split_join by ((by destruct es) || (by apply good_no_slash)).
  by rewrite last_snoc.
Qed.

(** Listing an existing directory of the share: every node but links. *)
Definition listed (fs : fsys) (d : ppath) : list fsEntry := omap entry_of (merge_sort by_name (children fs d)).

Lemma elem_of_listed fs d x :
  x ∈ listed fs d <-> exists n, fs !! (d ++ [en_Name x]) = Some n /\ entry_of (en_Name x, n) = Some x.
Proof.
  unfold listed. rewrite list_elem_of_omap. split.
  - intros ([k n] & Hin & He). rewrite merge_sort_Permutation in Hin. apply elem_of_children in Hin.
    assert (en_Name x = k) as -> by (destruct n; cbn in He; (done || by injection He as <-)). by exists n.
  - intros (n & Hn & He). exists (en_Name x, n). split; [|done]. rewrite merge_sort_Permutation. by apply elem_of_children.
Qed.

Lemma handleList_dir env cfg ds es p fs req :
  share_at cfg ds -> fr_Path req = p -> Contains p ".." = false -> p = join_slash es -> good_elems (ds ++ es) ->
  dir_at (ds ++ es) fs -> sv_fault env "readdir" = false -> fr_Offset req = 0%Z -> fr_Limit req = 0%Z ->
  handleList env fs cfg req =
    ([SentResponse (FsResponse true "" (listed fs (ds ++ es)) [] 0 "" (Z.of_nat (length (listed fs (ds ++ es)))))], fs).
Proof.
  intros Hat Hp Hdots Hj Hg Hd Hf Ho Hl. unfold handleList.
  assert ((if fr_Path req <>s "" then validatePath fs cfg (fr_Path req) else inr (ps_directory cfg))
    = inr (abs (ds ++ es))) as ->.
  { rewrite Hp. destruct (decide (es = [])) as [->|Hne].
    { rewrite (bool_decide_true (p = "")) by done. cbn [negb]. by rewrite app_nil_r, (sa_dir _ _ Hat). }
    pose proof (proj2 (proj1 (Forall_app _ _ _) Hg)) as Hge.
    assert (p <> "") as Hpne by (destruct es as [|x es]; [done|]; rewrite Hj; by apply good_head).
    rewrite bool_decide_false by done. cbn [negb].
    rewrite (validatePath_below cfg ds es); [|done|done| |done].
    - unfold Lstat. by rewrite resolve_dir.
    - rewrite Hj. unfold real_elems. rewrite split_join by (done || by apply good_no_slash). by apply filter_good. }
  rewrite Hf, ReadDir_present, Ho, Hl by done. cbv zeta. fold (listed fs (ds ++ es)). done.
Qed.

Lemma handleMkdir_placed cfg ds es e p env fs req :
  placed cfg ds es e p fs -> fr_Path req = p -> ps_writable cfg = true -> fs !! (ds ++ es ++ [e]) = None ->
  sv_fault env "mkdir" = false ->
  handleMkdir env fs cfg req = ([SentResponse succeeded], <[ds ++ es ++ [e] := NDir]> fs).
Proof.
  intros Hp Hpath Hw Hnone Hf. unfold handleMkdir.
  rewrite Hw, Hpath, bool_decide_false, (placed_validated cfg ds es e p fs Hp), Hf by exact (placed_path _ _ _ _ _ _ Hp).
  pose proof (placed_good _ _ _ _ _ _ Hp) as Hg. destruct Hp as [_ _ _ Hd Hs]. rewrite app_assoc in Hnone, Hs |- *.
  unfold FileSys.Mkdir. rewrite resolve_child, Hnone by done. done.
Qed.

(** The cache has nothing under a directory or its parent once they are cleared. *)
Lemma invalidated st machine share path :
  ms_cache (mountInvalidateCache st machine share path) !! cacheKey machine share (parentOf path) = None.
Proof. unfold mountInvalidateCache. cbn [ms_cache with_cache]. apply lookup_delete_eq. Qed.

Lemma with_cache_joined st c machine a : joined st machine a -> joined (with_cache st c) machine a.
Proof. by intros [Ht Hm Ha]. Qed.

(** What is made through the mount is seen through the mount: a directory made in an existing
    directory of a writable share is there on the agent, and the next look at its name finds a
    directory, even when a listing from before was still in the cache. *)
Theorem mkdir_then_stat env env' st name machine share a cfg ds es e :
  let p := join_slash (es ++ [e]) in
  let fs1 := <[ds ++ es ++ [e] := NDir]> (ag_fs a) in
  joined st machine a -> mountParsePath st name = (machine, share, p) -> share <> "" ->
  find_first (fun s => ps_name s =s share) (ag_shares a) = Some cfg -> ps_writable cfg = true ->
  placed cfg ds es e p (ag_fs a) -> ag_fs a !! (ds ++ es ++ [e]) = None ->
  gets_through env 0 -> (forall i, gets_through env' i) ->
  sv_fault (me_agent env) "mkdir" = false -> sv_fault (me_agent env') "readdir" = false ->
  forallb utf8Valid ["mkdir"; "list"; ""; share; p; join_slash es] = true ->
  forallb utf8Valid (map en_Name (listed fs1 (ds ++ es))) = true ->
  exists st1 st2,
    Mkdir env st name = (None, st1) /\
    snd (ms_server st1) !! machine = Some (AgentEnd (ag_shares a) fs1) /\
    Stat (S (length (listed fs1 (ds ++ es)))) env' st1 name = Some (inr (DirInfo e), st2).
Proof.
  intros p fs1 Hj Hparse Hshare Hcfg Hw Hp Hnone Hg Hg' Hf Hf' Ht Hnames.
  pose proof (placed_good _ _ _ _ _ _ Hp) as Hgood.
  assert (good_elems (es ++ [e])) as Hge by (rewrite <- app_assoc in Hgood; by apply Forall_app in Hgood as [_ ?]).
  pose proof (placed_path _ _ _ _ _ _ Hp) as Hpne.
  cbn [forallb] in Ht. repeat rewrite andb_true_iff in Ht. destruct Ht as (T1 & T2 & T3 & T4 & T5 & T6 & _).
  set (st1 := mountInvalidateCache (agent_now st machine a fs1) machine share p).
  assert (joined st1 machine (AgentEnd (ag_shares a) fs1)) as Hj1
    by (apply with_cache_joined; by apply joined_now).
  assert (Mkdir env st name = (None, st1)) as Hmk.
  { unfold Mkdir. rewrite Hparse. rewrite !bool_decide_false by (done || apply Hj). cbn [orb].
    unfold changeRequest.
    erewrite (mountFileShareRequest_answered env 0 st machine a share _ succeeded [] fs1);
      [done|done|done| | |].
    - unfold request_texts. cbn. by rewrite T1, T3, T4, T5.
    - cbn. by rewrite T3.
    - unfold handleRequest. cbn [mountFsRequest fr_Op fr_Share fr_Path fr_Size fr_Checksum].
      rewrite (bool_decide_false ("mkdir" = "list-shares")), Hcfg by done.
      by rewrite (handleMkdir_placed cfg ds es e p). }
  assert (lists env' share (join_slash es) (AgentEnd (ag_shares a) fs1) cfg (listed fs1 (ds ++ es))) as Hl.
  { split; [done| | |done].
    - cbn [ag_fs]. eapply handleList_dir; try done; [apply Hp| | |].
      + destruct (decide (es = [])) as [->|Hne]; [done|]. pose proof (pl_dots _ _ _ _ _ _ Hp) as Hd.
        unfold p in Hd. rewrite join_slash_snoc in Hd by done. by apply Contains_app_l in Hd.
      + by apply Forall_app in Hgood as [? _].
      + unfold fs1. rewrite app_assoc. apply dir_at_insert, Hp.
    - cbn [forallb]. by rewrite T2, T3, T4, T6. }
  eexists st1, _. split; [done|]. split; [apply Hj1|].
  unfold Stat.
  assert (mountParsePath st1 name = (machine, share, p)) as -> by exact Hparse.
  rewrite !bool_decide_false by (done || apply Hj). unfold p. rewrite parentOf_rel, Base_rel by done.
  unfold mountCachedList.
  assert (ms_cache st1 !! cacheKey machine share (join_slash es) = None) as ->.
  { rewrite <- (parentOf_rel es e Hge). apply invalidated. }
  pose proof (fetchPages_whole env' machine share (join_slash es) _ cfg (listed fs1 (ds ++ es))
    (S (length (listed fs1 (ds ++ es)))) st1 0 0 Hl Hj1 Hg') as Hpages.
  change (take 0 _) with (@nil fsEntry) in Hpages. change (Z.of_nat 0) with 0%Z in Hpages.
  rewrite Hpages by lia. cbn [mbind option_bind].
  assert (FsEntry e None true ∈ listed fs1 (ds ++ es)) as Hin.
  { apply elem_of_listed. exists NDir. split; [|done]. cbn [en_Name]. unfold fs1. rewrite <- app_assoc. apply lookup_insert_eq. }
  destruct (find_first (fun x => en_Name x =s e) (listed fs1 (ds ++ es))) as [x|] eqn:Ex.
  - apply find_first_Some in Ex as [Hx He%bool_decide_eq_true]. apply elem_of_listed in Hx as (n & Hn & Hxe).
    rewrite He in Hn. unfold fs1 in Hn. rewrite <- app_assoc, lookup_insert_eq in Hn. injection Hn as <-.
    cbn in Hxe. injection Hxe as <-. cbn in He. subst. reflexivity.
  - exfalso. pose proof (proj1 (find_first_None _ _) Ex _ Hin) as Hno. cbn in Hno. by rewrite bool_decide_true in Hno.
Qed.
(** ** Files *)

(** Reads one after the other, and what a file of these bytes gives to them. *)
Fixpoint readMany (env : mountEnv) (st : mountState) (f : telaFile) (ns : list nat) : list (list Z * bool) :=
  match ns with
  | [] => []
  | n :: ns => let '(p, eof, f, st) := Read env st f n in (p, eof) :: readMany env st f ns
  end.
Fixpoint readsOf (data : list Z) (ns : list nat) : list (list Z * bool) :=
  match ns with
  | [] => []
  | n :: ns => (take n data, is_nil data) :: readsOf (drop n data) ns
  end.

Lemma readMany_loaded env st f data pos ns :
  Forall (fun n => 0 < n) ns -> tf_loaded f = Some (Some (data, pos)) ->
  readMany env st f ns = readsOf (drop pos data) ns.
Proof.
  intros Hns. revert f pos. induction Hns as [|n ns Hn _ IH]; intros f pos Hf; [done|].
  cbn [readMany readsOf]. unfold Read, ensureLoaded. rewrite Hf, Hf.
  rewrite (IH _ (pos + length (take n (drop pos data)))) by done. f_equal.
  - f_equal. destruct n; [lia|]. by destruct (drop pos data).
  - f_equal. rewrite <- drop_drop. rewrite length_take.
    destruct (decide (n <= length (drop pos data))); [by rewrite Nat.min_l by lia|].
    rewrite Nat.min_r by lia. by rewrite !drop_ge by lia.
Qed.

Lemma readMany_failed env st f ns :
  tf_loaded f = Some None -> readMany env st f ns = map (fun _ => ([], true)) ns.
Proof.
  intros Hf. induction ns as [|n ns IH]; [done|]. cbn [readMany map]. unfold Read, ensureLoaded.
  by rewrite Hf, Hf, IH.
Qed.

Lemma readsOf_nil ns : readsOf [] ns = map (fun _ => ([], true)) ns.
Proof. induction ns as [|n ns IH]; [done|]. cbn. by rewrite take_nil, drop_nil, IH. Qed.

Lemma download_placed env st machine share a cfg ds es e p data :
  joined st machine a -> me_fate env 0 0 = Reached ->
  find_first (fun s => ps_name s =s share) (ag_shares a) = Some cfg ->
  placed cfg ds es e p (ag_fs a) -> ag_fs a !! (ds ++ es ++ [e]) = Some (NFile data) ->
  sv_fault (me_agent env) "open" = false -> texts_valid share p data ->
  mountDownloadToFile env st machine share p =
    (if is_nil data then inl "read chunk header" else inr data, st).
Proof.
  intros Hj Hr Hcfg Hp Hf Ho Hv. pose proof (texts_valid_spec share p data Hv) as (_ & _ & Hv3 & _).
  unfold mountDownloadToFile. rewrite Hr, (postFiles_reached _ _ _ a) by done.
  erewrite converse_read by done. rewrite insert_same by apply Hj. rewrite with_server_same.
  destruct (decide (data = [])) as [->|Hne].
  - unfold proxyAnswer, readAnswer, writeResponse. rewrite <- app_assoc. cbn [app].
    rewrite readLine_app by apply response_line. rewrite response_kept by apply Hv3. cbn [rs_OK rs_Size andb].
    change (0 <? Z.of_nat (length []))%Z with false. cbn [app is_nil].
    by rewrite readLine_app by apply response_line.
  - rewrite proxyAnswer_read by done. unfold readAnswer, writeResponse. rewrite <- app_assoc. cbn [app].
    rewrite readLine_app by apply response_line. destruct data as [|z data]; [done|]. cbn [is_nil].
    set (d := z :: data). pose proof (sendChunks_length (length d) d ltac:(lia)) as Hl.
    pose proof (recvChunks_sent (S (length (sendChunks (length d) d))) (length d) false [] d []) as Hrc.
    rewrite app_nil_r in Hrc. by rewrite Hrc by lia.
Qed.

(** A mounted file reads as the agent has it: whatever the sizes of the reads, they give the bytes of
    the file one after the other, and the end exactly when none are left. *)
Theorem mounted_reads env st machine share a cfg ds es e p data writable ns :
  joined st machine a -> me_fate env 0 0 = Reached ->
  find_first (fun s => ps_name s =s share) (ag_shares a) = Some cfg ->
  placed cfg ds es e p (ag_fs a) -> ag_fs a !! (ds ++ es ++ [e]) = Some (NFile data) ->
  sv_fault (me_agent env) "open" = false -> texts_valid share p data -> Forall (fun n => 0 < n) ns ->
  readMany env st (TelaFile machine share p writable None None) ns = readsOf data ns /\
  concat (map fst (readsOf data ns)) = take (sum_list ns) data.
Proof.
  intros Hj Hr Hcfg Hp Hf Ho Hv Hns. split.
  - destruct Hns as [|n ns Hn Hns]; [done|]. cbn [readMany readsOf]. unfold Read, ensureLoaded. cbn [tf_loaded tf_machine tf_share tf_path].
    erewrite download_placed by done. destruct data as [|z data]; cbn [is_nil].
    + cbn [with_loaded tf_loaded]. rewrite readMany_failed, take_nil, drop_nil, readsOf_nil by done. done.
    + cbn [with_loaded tf_loaded]. rewrite (readMany_loaded _ _ _ (z :: data) (0 + length (take n (drop 0 (z :: data))))) by done.
      rewrite drop_0, length_take. destruct n as [|n]; [lia|]. f_equal. f_equal.
      destruct (decide (S n <= length (z :: data))); [by rewrite Nat.min_l by lia|].
      rewrite Nat.min_r by lia. by rewrite !drop_ge by (cbn in *; lia).
  - clear. revert data. induction ns as [|n ns IH]; intros data; [done|]. cbn [readsOf map concat fst sum_list].
    rewrite IH. by rewrite take_take_drop.
Qed.

(** *** Writing *)

Definition writeMany (f : telaFile) (ps : list (list Z)) : telaFile := fold_left (fun f p => snd (Write f p)) ps f.

Lemma Write_buffer f b p : tf_writable f = true -> snd (Write (with_buffer f (Some b)) p) = with_buffer f (Some (b ++ p)).
Proof. intros Hw. unfold Write. cbn [tf_writable with_buffer]. by rewrite Hw. Qed.

Lemma writeMany_more f b ps :
  tf_writable f = true -> writeMany (with_buffer f (Some b)) ps = with_buffer f (Some (b ++ concat ps)).
Proof.
  intros Hw. revert b. induction ps as [|q ps IH]; intros b; [cbn; by rewrite app_nil_r|].
  change (writeMany (with_buffer f (Some b)) (q :: ps)) with (writeMany (snd (Write (with_buffer f (Some b)) q)) ps).
  rewrite Write_buffer, IH by done. cbn [concat]. by rewrite app_assoc.
Qed.

Lemma writeMany_buffer f ps :
  tf_writable f = true -> ps <> [] ->
  writeMany f ps = with_buffer f (Some (default [] (tf_buffer f) ++ concat ps)).
Proof.
  intros Hw Hne. destruct ps as [|p ps]; [done|].
  change (writeMany f (p :: ps)) with (writeMany (snd (Write f p)) ps).
  assert (snd (Write f p) = with_buffer f (Some (default [] (tf_buffer f) ++ p))) as -> by (unfold Write; by rewrite Hw).
  rewrite writeMany_more by done. cbn [concat]. by rewrite app_assoc.
Qed.

(** What the upload of a small file sends is what the sending loop sends. *)
Lemma sendChunks_small data :
  data <> [] -> (Z.of_nat (length data) <= maxChunkSize)%Z ->
  sendChunks (length data) data = chunkHeader (Z.of_nat (length data)) ++ data ++ chunkHeader 0.
Proof.
  intros Hne Hl. destruct (length data) as [|m] eqn:El; [by destruct data|].
  destruct (sendChunks_step m data Hne) as (-> & _ & _ & Hc). set (c := Z.to_nat maxChunkSize) in *.
  assert (length data <= c) by (unfold maxChunkSize in *; lia).
  rewrite take_ge, drop_ge, El by done. by destruct m.
Qed.

Definition uploadRequest (share p : string) (data : list Z) : fsRequest :=
  FsRequest "write" share p (Z.of_nat (length data)) "" "" "" 0 0.

Lemma upload_valid share p data :
  texts_valid share p data -> forallb utf8Valid (request_texts (uploadRequest share p data)) = true.
Proof.
  unfold texts_valid. intros Hv. cbn [forallb] in Hv. repeat rewrite andb_true_iff in Hv.
  destruct Hv as (H1 & H2 & H3 & H4 & H5 & _). unfold request_texts. cbn. by rewrite H2, H3, H4, H5.
Qed.

(** The reply to an upload, whatever the agent goes on to make of the rest of it. *)
Lemma upload_reply env st machine share a cfg p data r out fs' rest :
  joined st machine a -> me_fate env 0 0 = Reached ->
  find_first (fun s => ps_name s =s share) (ag_shares a) = Some cfg ->
  texts_valid share p data -> forallb utf8Valid (response_texts r) = true ->
  handleWrite (me_agent env) (ag_fs a) cfg (uploadRequest share p data)
    (chunkHeader (Z.of_nat (length data)) ++ data ++ chunkHeader 0) = ((SentResponse r :: out, fs'), rest) ->
  exists st', mountUploadFile env st machine share p data = (if rs_OK r then None else Some (rs_Error r), st') /\
    (rest = [] -> st' = agent_now st machine a fs').
Proof.
  intros Hj Hr Hcfg Hv Hvr Hw. unfold mountUploadFile. rewrite Hr, (postFiles_reached _ _ _ a) by done.
  unfold uploadBytes. fold (uploadRequest share p data). unfold converse, handleFileShareConn.
  rewrite connLoop_request by by apply upload_valid.
  destruct (handleRequest_share (me_agent env) (ag_shares a) (ag_fs a) (uploadRequest share p data)
    (chunkHeader (Z.of_nat (length data)) ++ data ++ chunkHeader 0) cfg Hcfg) as [_ Hh].
  rewrite Hh, Hw by done. cbn [map written concat]. set (n := length _).
  destruct (connLoop n _ _ fs' rest) as [more fs2] eqn:Ec. rewrite <- app_assoc, mountReply_written by done.
  eexists. split; [done|]. intros ->. rewrite connLoop_nil in Ec. by injection Ec as <- <-.
Qed.

(** A chunk over the limit is refused before anything is stored. *)
Lemma handleWrite_large cfg ds es e env fs share p data :
  placed cfg ds es e p fs -> allowed cfg p fs (Z.of_nat (length data)) -> writes ds es e env fs ->
  (maxChunkSize < Z.of_nat (length data) < 9223372036854775808)%Z ->
  exists fs' rest, handleWrite env fs cfg (uploadRequest share p data)
    (chunkHeader (Z.of_nat (length data)) ++ data ++ chunkHeader 0) =
    (([SentResponse (failed "chunk too large")], fs'), rest).
Proof.
  intros Hp Hal Hwr [Hbig Hint]. unfold handleWrite. rewrite (writeChecks_placed cfg ds es e p) by done.
  pose proof (placed_good _ _ _ _ _ _ Hp) as Hg. destruct Hp as [Hat _ _ Hd Hs]. destruct Hwr as [Hok Hdr Ho Hfree].
  assert (good_elems (ds ++ es)) as Hgd by (by apply Forall_app in Hg as [? _]).
  rewrite (app_assoc ds es [e]) in *. rewrite (app_assoc ds es [_]) in Hfree.
  rewrite Dir_abs_snoc, !Hok, MkdirAll_present by done. cbn [negb].
  rewrite CreateTemp_child, Hfree; [|by apply Forall_app; split; [|apply Forall_singleton, drawn_good]|done|by left].
  rewrite readChunks_header by lia.
  destruct (Z.eqb_spec (Z.of_nat (length data)) 0); [unfold maxChunkSize in *; lia|].
  destruct (Z.ltb_spec maxChunkSize (Z.of_nat (length data))); [|lia]. by do 2 eexists.
Qed.

Lemma mounted_small env st machine share a cfg ds es e p ps :
  let data := concat ps in
  let f := writeMany (TelaFile machine share p true None None) ps in
  joined st machine a -> me_fate env 0 0 = Reached ->
  find_first (fun s => ps_name s =s share) (ag_shares a) = Some cfg ->
  placed cfg ds es e p (ag_fs a) -> allowed cfg p (ag_fs a) (Z.of_nat (length data)) ->
  writes ds es e (me_agent env) (ag_fs a) -> texts_valid share p data ->
  (Z.of_nat (length data) <= maxChunkSize)%Z ->
  exists fs1, Close env st f = (None, mountInvalidateCache (agent_now st machine a fs1) machine share p) /\
    placed cfg ds es e p fs1 /\ fs1 !! (ds ++ es ++ [e]) = Some (NFile data) /\
    (forall k, ~ (ds ++ es ++ [e]) `prefix_of` k ->
       ~ (ds ++ es ++ [".tela-upload-" +:+ sv_tmp (me_agent env)]) `prefix_of` k -> fs1 !! k = ag_fs a !! k).
Proof.
  intros data f Hj Hr Hcfg Hp Hal Hwr Hv Hsm. pose proof (texts_valid_spec share p data Hv) as (_ & _ & _ & Hv4).
  assert (data <> []) as Hne.
  { intros E. destruct Hal as [_ _ [H0 _] _]. rewrite E in H0. cbn in H0. lia. }
  assert (ps <> []) as Hps by (intros ->; by apply Hne).
  unfold f. rewrite writeMany_buffer by done. unfold Close. cbn [tf_writable tf_buffer with_buffer default app].
  fold data. cbn [tf_machine tf_share tf_path with_buffer].
  assert (is_nil data = false) as -> by (by destruct data).
  destruct (handleWrite_placed cfg ds es e p (me_agent env) (ag_fs a) (uploadRequest share p data) data [])
    as (fs1 & Hw & Hp1 & Hf1 & Hframe); try done.
  rewrite app_nil_r, sendChunks_small in Hw by done.
  destruct (upload_reply env st machine share a cfg p data _ [] fs1 [] Hj Hr Hcfg Hv (Hv4 _) Hw) as (st' & -> & Hst).
  cbn [rs_OK]. rewrite Hst by done. exists fs1. by split_and!.
Qed.

(** A mounted file written and closed: up to 16 KiB the agent stores exactly what was written, in
    any number of writes, and nothing else changes there; anything longer goes up as one chunk,
    which the agent refuses, and closing fails. *)
Theorem mounted_write env st machine share a cfg ds es e p ps :
  let data := concat ps in
  let f := writeMany (TelaFile machine share p true None None) ps in
  joined st machine a -> me_fate env 0 0 = Reached ->
  find_first (fun s => ps_name s =s share) (ag_shares a) = Some cfg ->
  placed cfg ds es e p (ag_fs a) -> allowed cfg p (ag_fs a) (Z.of_nat (length data)) ->
  writes ds es e (me_agent env) (ag_fs a) -> texts_valid share p data ->
  utf8Valid "chunk too large" = true ->
  (Z.of_nat (length data) < 9223372036854775808)%Z ->
  if (Z.of_nat (length data) <=? maxChunkSize)%Z then
    exists st' fs1, Close env st f = (None, st') /\
      snd (ms_server st') !! machine = Some (AgentEnd (ag_shares a) fs1) /\
      fs1 !! (ds ++ es ++ [e]) = Some (NFile data) /\
      ms_cache st' !! cacheKey machine share (parentOf p) = None /\
      (forall k, ~ (ds ++ es ++ [e]) `prefix_of` k ->
         ~ (ds ++ es ++ [".tela-upload-" +:+ sv_tmp (me_agent env)]) `prefix_of` k -> fs1 !! k = ag_fs a !! k)
  else fst (Close env st f) = Some (ErrOther "chunk too large").
Proof.
  intros data f Hj Hr Hcfg Hp Hal Hwr Hv Hlarge Hint.
  destruct (Z.leb_spec (Z.of_nat (length data)) maxChunkSize) as [Hsm|Hbig].
  { destruct (mounted_small env st machine share a cfg ds es e p ps) as (fs1 & Hcl & _ & Hf1 & Hframe); try done.
    eexists _, fs1. split; [exact Hcl|]. split_and!; try done; [|apply invalidated]. cbn. apply lookup_insert_eq. }
  assert (data <> []) as Hne by (intros E; rewrite E in Hbig; cbn in Hbig; unfold maxChunkSize in Hbig; lia).
  assert (ps <> []) as Hps by (intros ->; by apply Hne).
  unfold f. rewrite writeMany_buffer by done. unfold Close. cbn [tf_writable tf_buffer with_buffer default app].
  fold data. cbn [tf_machine tf_share tf_path with_buffer].
  assert (is_nil data = false) as -> by (by destruct data).
  destruct (handleWrite_large cfg ds es e (me_agent env) (ag_fs a) share p data) as (fs' & rest & Hw); try done.
  assert (forallb utf8Valid (response_texts (failed "chunk too large")) = true) as Hvr.
  { unfold texts_valid in Hv. cbn [forallb] in Hv. repeat rewrite andb_true_iff in Hv.
    unfold response_texts. cbn. rewrite Hlarge. by destruct Hv as (_ & _ & -> & _). }
  by destruct (upload_reply env st machine share a cfg p data _ [] fs' rest Hj Hr Hcfg Hv Hvr Hw) as (st' & -> & _).
Qed.
(** C25. A file goes up and comes down whole.  A file written through the mount in any number of writes,
    not empty and of at most 16 KiB, and closed, is stored by the agent byte for byte with nothing else
    changed there; and [tela files get], from another process through the control server that holds the
    tunnels, then delivers exactly these bytes, checked against the agent's SHA-256. *)
Theorem mount_then_get env env' st machine share a cfg ds es e p ps (output : string) :
  let data := concat ps in
  let f := writeMany (TelaFile machine share p true None None) ps in
  machine <> "" -> share <> "" -> joined st machine a -> me_fate env 0 0 = Reached ->
  find_first (fun s => ps_name s =s share) (ag_shares a) = Some cfg ->
  placed cfg ds es e p (ag_fs a) -> allowed cfg p (ag_fs a) (Z.of_nat (length data)) ->
  writes ds es e (me_agent env) (ag_fs a) -> sv_fault env' "open" = false -> texts_valid share p data ->
  (Z.of_nat (length data) <= maxChunkSize)%Z ->
  exists st' fs1, Close env st f = (None, st') /\
    snd (ms_server st') !! machine = Some (AgentEnd (ag_shares a) fs1) /\
    fs1 !! (ds ++ es ++ [e]) = Some (NFile data) /\
    (forall k, ~ (ds ++ es ++ [e]) `prefix_of` k ->
       ~ (ds ++ es ++ [".tela-upload-" +:+ sv_tmp (me_agent env)]) `prefix_of` k -> fs1 !! k = ag_fs a !! k) /\
    let w := CliWorld ∅ (Some (fst (ms_server st'))) (Some (ms_server st')) in
    cmdFilesGet env' true true w machine share output [p] =
      (Downloaded (if output =s "" then Base p else output) data, w).
Proof.
  intros data f Hm Hs Hj Hr Hcfg Hp Hal Hwr Ho Hv Hsm.
  destruct (mounted_small env st machine share a cfg ds es e p ps) as (fs1 & Hcl & Hp1 & Hf1 & Hframe); try done.
  eexists _, fs1. split; [exact Hcl|]. split; [apply lookup_insert_eq|]. split; [done|]. split; [done|].
  assert (data <> []) as Hne.
  { intros E. destruct Hal as [_ _ [H0 _] _]. fold data in H0. rewrite E in H0. cbn in H0. lia. }
  set (st' := mountInvalidateCache _ _ _ _). cbv zeta. destruct (ms_server st') as [token ts] eqn:Hsrv. cbn [fst].
  assert (ts !! machine = Some (AgentEnd (ag_shares a) fs1)) as Hts.
  { change ts with (snd (token, ts)). rewrite <- Hsrv. apply lookup_insert_eq. }
  by apply (proxied_get env' (CliWorld ∅ (Some token) (Some (token, ts))) token ts machine share p output data
    (AgentEnd (ag_shares a) fs1) cfg ds es e).
Qed.
End mount.

(** ** Names *)

Lemma trim_prefix_slash s : trim_prefix ("/" +:+ s) "/" = s.
Proof. apply trim_prefix_app. Qed.

Lemma cut_slash m rest : no_slash m -> cut (m +:+ "/" +:+ rest) "/" = Some (m, rest).
Proof. intros Hm. by apply cut_byte. Qed.

Lemma drop_while_In f (c : ascii) l : In c (drop_while f l) -> In c l.
Proof. induction l as [|x l IH]; [done|]. cbn [drop_while]. destruct (f x); [intros ?; right; by apply IH|done]. Qed.

Lemma safeName_spec name : no_slash (safeName name) /\ safeName name <> "".
Proof.
  unfold safeName. case_bool_decide as Hs; [split; [|done]; by apply (bool_decide_unpack (("/"%char : ascii) ∉ bytes "_"))|].
  split; [|done]. unfold no_slash, trim_right_with. rewrite !bytes_of_bytes, list_elem_of_In, <- in_rev.
  intros (c & Hc & _)%drop_while_In%in_rev%in_map_iff. destruct c as [[] [] [] [] [] [] [] []]; done.
Qed.

Lemma sanitized_safe utf8 st name safe st' :
  no_slash name -> mountSanitizeName utf8 st name = (safe, st') ->
  no_slash safe /\ safe <> "" /\ ms_real st' = <[safe := name]> (ms_real st).
Proof.
  intros Hn. unfold mountSanitizeName. intros [= <- <-].
  destruct (localize utf8 name && (name <>s "")) eqn:E; [|by destruct (safeName_spec name)].
  apply andb_true_iff in E as [_ Hne]. apply negb_true_iff, bool_decide_eq_false in Hne. done.
Qed.

(** The names a root directory shows. *)
Definition info_name (i : fileInfo) : string := match i with DirInfo n | FileInfo n _ => n end.

Lemma sanitizeAll_real utf8 st machines infos st' x :
  sanitizeAll utf8 st machines = (infos, st') -> x ∉ map info_name infos -> ms_real st' !! x = ms_real st !! x.
Proof.
  revert st infos. induction machines as [|m ms IH]; intros st infos; cbn [sanitizeAll].
  { by intros [= <- <-]. }
  destruct (mountSanitizeName utf8 st m) as [safe st1] eqn:Es.
  destruct (sanitizeAll utf8 st1 ms) as [rest st2] eqn:Er. intros [= <- <-]. cbn [map info_name].
  rewrite not_elem_of_cons. intros [Hx Hin]. rewrite (IH _ _ Er Hin).
  unfold mountSanitizeName in Es. injection Es as <- <-. cbn [ms_real]. by rewrite lookup_insert_ne.
Qed.

(** A machine is found under the name it is shown by: once the root is listed, and the names shown
    are all different, every path below a shown directory leads to the machine listed there, with
    the share and the path it names. *)
Theorem shown_names_resolve utf8 st machines infos st' i m info share p :
  sanitizeAll utf8 st machines = (infos, st') -> Forall no_slash machines ->
  NoDup (map info_name infos) -> machines !! i = Some m -> infos !! i = Some info -> no_slash share ->
  mountParsePath st' ("/" +:+ info_name info +:+ "/" +:+ share +:+ "/" +:+ p) = (m, share, p).
Proof.
  intros Hs Hm Hnd Hi Hinfo Hshare.
  assert (no_slash (info_name info) /\ info_name info <> "" /\ ms_real st' !! info_name info = Some m) as (H1 & H2 & H3).
  { revert st infos i Hs Hnd Hi Hinfo. induction Hm as [|x ms Hx Hm IH]; intros st infos i; cbn [sanitizeAll]; [done|].
    destruct (mountSanitizeName utf8 st x) as [safe st1] eqn:Es.
    destruct (sanitizeAll utf8 st1 ms) as [rest st2] eqn:Er. intros [= <- <-] Hnd Hi Hinfo. cbn [map info_name] in Hnd.
    apply NoDup_cons in Hnd as [Hsafe Hnd]. destruct i as [|i]; cbn in Hi, Hinfo; [|by eapply IH].
    injection Hi as ->. injection Hinfo as <-. cbn [info_name].
    apply sanitized_safe in Es as (Hn & Hne & Hr); [|done]. split_and!; [done..|].
    rewrite (sanitizeAll_real _ _ _ _ _ _ Er Hsafe), Hr. apply lookup_insert_eq. }
  unfold mountParsePath. rewrite trim_prefix_slash.
  rewrite bool_decide_false by (by destruct (info_name info)).
  rewrite cut_slash, cut_slash by done. unfold mountResolveName. by rewrite H3.
Qed.

(** ** Reading a directory *)

(** Reading [count] entries at a time until the end is signalled; [n] bounds the calls. *)
Fixpoint readdirAll {A} (n : nat) (entries : list A) (pos : nat) (count : Z) : option (list A) :=
  match n with
  | O => None
  | S n =>
      let '(l, eof, pos) := mountReaddir entries pos count in
      if eof then Some l else r ← readdirAll n entries pos count; Some (l ++ r)
  end.

(** However a directory is read, it is read whole: all at once, or in slices of any positive size,
    which end with the end of the directory, are consecutive and miss nothing. *)
Theorem readdir_drains {A} (entries : list A) count :
  fst (fst (mountReaddir entries 0 0)) = entries /\
  ((0 < count)%Z -> forall n, length entries < n -> readdirAll n entries 0 count = Some entries).
Proof.
  split; [done|]. intros Hc.
  assert (forall n pos, pos <= length entries -> length entries - pos < n ->
    readdirAll n entries pos count = Some (drop pos entries)) as Hall; [|intros n Hn; by rewrite Hall by lia].
  induction n as [|n IH]; intros pos Hp Hn; [lia|]. cbn [readdirAll]. unfold mountReaddir.
  destruct (Z.leb_spec count 0); [lia|].
  destruct (Nat.leb_spec (length entries) pos); [by rewrite drop_ge|].
  set (e := Nat.min (pos + Z.to_nat count) (length entries)).
  destruct (Nat.leb_spec (length entries) e).
  { rewrite take_ge; [done|]. rewrite length_drop. lia. }
  rewrite IH by lia. cbn [mbind option_bind]. f_equal. replace e with (pos + (e - pos)) at 2 by lia.
  by rewrite <- drop_drop, take_drop.
Qed.

(** * File sharing from the client: a codec, evaluated instances and corner cases

    One agent with a writable share, reached over a tunnel, over the control server and through the
    mount; the theorems of [ClientFiles] and of this file at these inputs, and what the code
    does where one would not expect it. *)

(** ** A codec: the code of a value in binary digits *)

Fixpoint digits_of (p : positive) : list Z :=
  match p with xH => [] | xO p => 48%Z :: digits_of p | xI p => 49%Z :: digits_of p end.
Fixpoint of_digits (l : list Z) : option positive :=
  match l with
  | [] => Some xH
  | 48%Z :: l => xO <$> of_digits l
  | 49%Z :: l => xI <$> of_digits l
  | _ => None
  end.

Lemma of_digits_of p : of_digits (digits_of p) = Some p.
Proof. induction p as [p IH|p IH|]; cbn; [by rewrite IH..|done]. Qed.

Lemma digits_line p : newline ∉ digits_of p.
Proof.
  induction p as [p IH|p IH|]; cbn; [..|apply not_elem_of_nil]; apply not_elem_of_cons; by split.
Qed.

Definition request_to (r : fsRequest) :=
  (fr_Op r, fr_Share r, fr_Path r, fr_Size r, fr_Checksum r, fr_NewName r, fr_NewPath r, fr_Offset r, fr_Limit r).
Definition request_of t : fsRequest :=
  let '(o, s, p, z, c, n, q, a, b) := t in FsRequest o s p z c n q a b.
Definition entry_to (e : fsEntry) := (en_Name e, en_Size e, en_IsDir e).
Definition entry_from (t : string * option Z * bool) := let '(n, z, d) := t in FsEntry n z d.
Definition share_to (s : fsShareInfo) := (si_Name s, si_Writable s, si_AllowDelete s).
Definition share_from (t : string * bool * bool) := let '(n, w, d) := t in FsShareInfo n w d.
Definition response_to (r : fsResponse) :=
  (rs_OK r, rs_Error r, map entry_to (rs_Entries r), map share_to (rs_Shares r), rs_Size r, rs_Checksum r, rs_Total r).
Definition response_of t : fsResponse :=
  let '(k, e, es, ss, z, c, n) := t in FsResponse k e (map entry_from es) (map share_from ss) z c n.

Lemma request_of_to r : request_of (request_to r) = r.
Proof. by destruct r. Qed.
Lemma response_of_to r : response_of (response_to r) = r.
Proof.
  destruct r as [k e es ss z c n]. cbn. f_equal; rewrite map_map; rewrite <- map_id; apply map_ext; by intros [].
Qed.

#[export] Instance bit_codec : FsCodec.
Proof.
  refine {| utf8Valid _ := true;
            marshalRequest r := digits_of (encode (request_to r));
            unmarshalRequest l := p ← of_digits l; request_of <$> decode p;
            marshalResponse r := digits_of (encode (response_to r));
            unmarshalResponse l := p ← of_digits l; response_of <$> decode p |}.
  - intros r. apply digits_line.
  - intros r. apply digits_line.
  - intros r _. rewrite of_digits_of. cbn [mbind option_bind]. rewrite decode_encode. cbn -[request_of request_to]. by rewrite request_of_to.
  - intros r _. rewrite of_digits_of. cbn [mbind option_bind]. rewrite decode_encode. cbn -[response_of response_to].
    by rewrite response_of_to.
Defined.

(** ** One agent *)

Definition demo_agent : agentEnd := AgentEnd [demo_share] demo_fs.
Definition demo_tunnels : tunnels := {["box" := demo_agent]}.
Definition other_world : cliWorld := CliWorld ∅ (Some "secret") (Some ("secret", demo_tunnels)).
Definition demo_mount : mountState := MountState "secret" ("secret", demo_tunnels) ∅ ∅ ∅.
Definition calm : mountEnv := MountEnv (fun _ _ => Reached) demo_env 0 true.
Definition local_disk : fsys := {[["new.txt"] := NFile [104; 111]%Z]}.

Lemma demo_lookup : demo_tunnels !! "box" = Some demo_agent.
Proof. reflexivity. Qed.

Lemma demo_joined : joined demo_mount "box" demo_agent.
Proof. by split. Qed.

Lemma demo_dir : dir_at (["srv"; "share"] ++ []) demo_fs.
Proof. intros q Hq [k Hk]. destruct q as [|x [|y [|z q]]]; [done|..]; simplify_eq; reflexivity. Qed.

Lemma demo_placed e : real_elems e = [e] -> Contains e ".." = false ->
  plain_slot (["srv"; "share"] ++ [] ++ [e]) demo_fs -> placed demo_share ["srv"; "share"] [] e e demo_fs.
Proof. intros He Hc Hs. split; [exact demo_at|done|done|exact demo_dir|exact Hs]. Qed.

Lemma placed_a : placed demo_share ["srv"; "share"] [] "a.txt" "a.txt" demo_fs.
Proof. apply demo_placed; [done..|]. right. by exists [104; 105]%Z. Qed.
Lemma placed_new : placed demo_share ["srv"; "share"] [] "new.txt" "new.txt" demo_fs.
Proof. apply demo_placed; [done..|]. by left. Qed.

Lemma demo_writes e : e <> ".tela-upload-42" -> writes ["srv"; "share"] [] e demo_env demo_fs.
Proof. intros He. split; [done|exact demo_drawn|exact He|reflexivity]. Qed.

Lemma small_allowed : allowed demo_share "new.txt" demo_fs 2.
Proof.
  split; [done|reflexivity|split; [reflexivity|discriminate]|]. intros _. apply Z.leb_le. vm_compute. reflexivity.
Qed.

Lemma calm_through i : gets_through calm i.
Proof. exists [], [Reached; Reached; Reached; Reached]. by split. Qed.

Lemma demo_texts share p d : texts_valid share p d.
Proof. reflexivity. Qed.

(** The tunnel is down at first. *)
Definition bumpy : mountEnv :=
  MountEnv (fun _ k => if (k <? 3)%nat then (if (k =? 1)%nat then Unreachable else TunnelDown) else Reached) demo_env 0 true.
Lemma bumpy_through i : gets_through bumpy i.
Proof. exists [TunnelDown; Unreachable; TunnelDown], [Reached]. split; [done|]. repeat constructor; (by left) || by right. Qed.

(** ** The theorems at these inputs *)

Lemma mount_then_get_witness :
  exists st', Close calm demo_mount (writeMany (TelaFile "box" "docs" "new.txt" true None None) [[104]; [111]]%Z) = (None, st') /\
    fst (cmdFilesGet demo_env true true (CliWorld ∅ (Some (fst (ms_server st'))) (Some (ms_server st'))) "box" "docs" "copy"
      ["new.txt"]) = Downloaded "copy" [104; 111]%Z.
Proof.
  destruct (mount_then_get calm demo_env demo_mount "box" "docs" demo_agent demo_share ["srv"; "share"] [] "new.txt" "new.txt"
    [[104]; [111]]%Z "copy") as (st' & fs1 & Hc & _ & _ & _ & Hg).
  - discriminate.
  - discriminate.
  - exact demo_joined.
  - reflexivity.
  - reflexivity.
  - exact placed_new.
  - exact small_allowed.
  - exact (demo_writes "new.txt" ltac:(discriminate)).
  - reflexivity.
  - exact (demo_texts _ _ _).
  - cbn. discriminate.
  - exists st'. split; [exact Hc|]. cbv zeta in Hg. rewrite Hg. reflexivity.
Defined.

Lemma proxied_get_witness :
  cmdFilesGet demo_env true true other_world "box" "docs" EmptyString ["a.txt"] =
    (Downloaded "a.txt" [104; 105]%Z, other_world).
Proof.
  rewrite (proxied_get demo_env other_world "secret" demo_tunnels "box" "docs" "a.txt" EmptyString [104; 105]%Z
    demo_agent demo_share ["srv"; "share"] [] "a.txt"); try reflexivity; try discriminate.
  exact placed_a.
Defined.

Definition demo_entries : list fsEntry := [FsEntry "a.txt" (Some 2%Z) false].
Lemma demo_lists env : me_agent env = demo_env -> lists env "docs" EmptyString demo_agent demo_share demo_entries.
Proof.
  intros He. split; [reflexivity| |reflexivity|reflexivity]. rewrite He.
  apply (f_equal (fun o => (o, demo_fs))). vm_compute. reflexivity.
Qed.

Lemma listing_whole_witness :
  exists st', mountCachedList 2 bumpy demo_mount "box" "docs" EmptyString = Some (inr demo_entries, st').
Proof.
  destruct (listing_whole 2 bumpy demo_mount "box" "docs" EmptyString demo_agent demo_share demo_entries
    (demo_lists bumpy eq_refl) demo_joined bumpy_through eq_refl ltac:(cbn; lia) ltac:(discriminate))
    as (st' & Hc & _). by exists st'.
Defined.

Definition mkdir_op : fsRequest := mountFsRequest "mkdir" EmptyString "d" EmptyString EmptyString 0 0.
Lemma request_at_most_once_witness :
  exists reply ts,
    handleFiles demo_env true "secret" demo_tunnels "POST" "/files/box" "Bearer secret"
      (requestLine (FsRequest "mkdir" "docs" "d" 0 EmptyString EmptyString EmptyString 0 0)) = (reply, ts) /\
    snd (mountFileShareRequest bumpy 0 demo_mount "box" "docs" mkdir_op) = with_server demo_mount ts.
Proof.
  destruct (request_at_most_once bumpy 0 demo_mount "box" "docs" mkdir_op
    (fst (mountFileShareRequest bumpy 0 demo_mount "box" "docs" mkdir_op))
    (snd (mountFileShareRequest bumpy 0 demo_mount "box" "docs" mkdir_op))) as [[_ [err He]]|(reply & ts & Hh & Hst & _)].
  - intros [|[|[|k]]]; discriminate.
  - apply surjective_pairing.
  - exfalso. revert He. vm_compute. discriminate.
  - exists reply, ts. split; [exact Hh|exact Hst].
Defined.

(** A listing made before is in the cache. *)
Definition stale_mount : mountState := with_cache demo_mount {["box:docs:" := (demo_entries, 0%Z)]}.
Lemma stale_joined : joined stale_mount "box" demo_agent.
Proof. by split. Qed.
Lemma placed_d : placed demo_share ["srv"; "share"] [] "d" "d" demo_fs.
Proof. apply demo_placed; [done..|]. by left. Qed.

Lemma mkdir_then_stat_witness :
  exists st1 st2, Mkdir bumpy stale_mount "/box/docs/d" = (None, st1) /\
    Stat 3 calm st1 "/box/docs/d" = Some (inr (DirInfo "d"), st2).
Proof.
  destruct (mkdir_then_stat bumpy calm stale_mount "/box/docs/d" "box" "docs" demo_agent demo_share ["srv"; "share"] [] "d"
    stale_joined eq_refl ltac:(discriminate) eq_refl eq_refl placed_d eq_refl (bumpy_through 0) calm_through eq_refl eq_refl
    eq_refl) as (st1 & st2 & H1 & _ & H2).
  - vm_compute. reflexivity.
  - exists st1, st2. split; [exact H1|]. rewrite <- H2. f_equal.
Defined.

Lemma mounted_reads_witness :
  readMany calm demo_mount (TelaFile "box" "docs" "a.txt" false None None) [1; 5; 1] =
    [([104%Z], false); ([105%Z], false); ([], true)].
Proof.
  rewrite (proj1 (mounted_reads calm demo_mount "box" "docs" demo_agent demo_share ["srv"; "share"] [] "a.txt" "a.txt"
    [104; 105]%Z false [1; 5; 1] demo_joined eq_refl eq_refl placed_a eq_refl eq_refl (demo_texts _ _ _)
    ltac:(repeat constructor; lia))). reflexivity.
Defined.

Lemma mounted_write_witness :
  exists st' (fs1 : fsys),
    Close calm demo_mount (writeMany (TelaFile "box" "docs" "new.txt" true None None) [[104]; [111]]%Z) = (None, st') /\
    fs1 !! ["srv"; "share"; "new.txt"] = Some (NFile [104; 111]%Z).
Proof.
  destruct (mounted_write calm demo_mount "box" "docs" demo_agent demo_share ["srv"; "share"] [] "new.txt" "new.txt"
    [[104]; [111]]%Z demo_joined eq_refl eq_refl placed_new small_allowed (demo_writes "new.txt" ltac:(discriminate))
    (demo_texts _ _ _) eq_refl eq_refl) as (st' & fs1 & Hc & _ & Hf & _).
  exists st', fs1. split; [exact Hc|exact Hf].
Defined.

Lemma shown_names_resolve_witness :
  mountParsePath (snd (sanitizeAll (fun _ => true) demo_mount ["box"; ".."])) "/_/docs/x/y" = ("..", "docs", "x/y").
Proof.
  apply (shown_names_resolve (fun _ => true) demo_mount ["box"; ".."] [DirInfo "box"; DirInfo "_"] _ 1 ".." (DirInfo "_") "docs" "x/y").
  - vm_compute. reflexivity.
  - repeat constructor; by apply (bool_decide_unpack (("/"%char : ascii) ∉ _)).
  - repeat constructor; rewrite ?elem_of_cons, ?elem_of_nil; naive_solver.
  - reflexivity.
  - reflexivity.
  - by apply (bool_decide_unpack (("/"%char : ascii) ∉ _)).
Defined.

Lemma readdir_drains_witness : readdirAll 4 [1; 2; 3] 0 2 = Some [1; 2; 3].
Proof. apply (readdir_drains [1; 2; 3] 2); cbn; lia. Defined.

(** ** Corner cases *)

Definition files_of (ts : tunnels) : option fsys := ag_fs <$> ts !! "box".

(** An upload that is refused is read on as requests: a file whose text is a request has it carried out. *)
Definition smuggled : list Z := [10%Z] ++ requestLine (plainRequest "delete" "docs" "a.txt" EmptyString EmptyString) ++ [10%Z].
Example rejected_upload_executed :
  let '(out, ts) := converse demo_env demo_tunnels "box" demo_agent (putBytes "docs" "evil.exe" smuggled) in
  (match firstResponse out with inr (r, _) => rs_Error r | inl e => e end) = "file extension not allowed" /\
  (files_of ts ≫= fun fs => fs !! ["srv"; "share"; "a.txt"]) = None.
Proof. vm_compute. split; reflexivity. Qed.

(** An empty file: a get succeeds over the process's own tunnel and fails over the control server, which
    forwards chunks only after a size. *)
Definition empty_tunnels : tunnels :=
  {["box" := AgentEnd [demo_share] (<[["srv"; "share"; "e"] := NFile []]> demo_fs)]}.
Example empty_file_not_proxied :
  fst (cmdFilesGet demo_env true true (CliWorld empty_tunnels None None) "box" "docs" EmptyString ["e"]) = Downloaded "e" [] /\
  fst (cmdFilesGet demo_env true true (CliWorld ∅ (Some "secret") (Some ("secret", empty_tunnels))) "box" "docs" EmptyString ["e"])
    = DownloadFailed "read chunk header" (Some ("e", [])).
Proof. vm_compute. split; reflexivity. Qed.

(** A put does not fall back on the control server: from another process it never works. *)
Example put_without_tunnel :
  fst (cmdFilesPut demo_env true local_disk other_world "box" "docs" ["new.txt"]) = EndError "no active tunnel" /\
  fst (cmdFilesMkdir demo_env true other_world "box" "docs" ["d"]) = EndOk ().
Proof. vm_compute. split; reflexivity. Qed.

(** The answer to a stored upload has a size, so the control server waits for chunks that never come,
    until the agent hangs up. *)
Example mounted_write_waits :
  match fst (postFiles calm demo_mount Reached "box" (uploadBytes "docs" "new.txt" [104; 111]%Z)) with
  | Some (PrStream _ waited) => waited = true
  | _ => False
  end.
Proof. vm_compute. reflexivity. Qed.

(** A file emptied or made empty through the mount is not sent: closing succeeds and the old content stays. *)
Example empty_write_dropped :
  let '(r, st) := Close calm demo_mount (snd (Write (TelaFile "box" "docs" "a.txt" true None None) [])) in
  r = None /\ (files_of (snd (ms_server st)) ≫= fun fs => fs !! ["srv"; "share"; "a.txt"]) = Some (NFile [104; 105]%Z).
Proof. vm_compute. split; reflexivity. Qed.

(** Seeking before the first read is answered and forgotten: the read that follows starts at the beginning. *)
Example range_read_wrong :
  match Seek 2 calm demo_mount (TelaFile "box" "docs" "a.txt" false None None) 1 SeekStart with
  | Some (_, f, st) => fst (fst (fst (Read calm st f 1))) = [104%Z]
  | None => False
  end.
Proof. vm_compute. reflexivity. Qed.

(** A reply lost on the way back makes the operation run again: the directory is made, the caller is told
    that it exists. *)
Definition lossy : mountEnv :=
  MountEnv (fun _ k => if (k =? 0)%nat then LostReply else Reached) demo_env 0 true.
Example lost_reply_repeats :
  let '(r, st) := Mkdir lossy demo_mount "/box/docs/d" in
  r = Some (ErrOther "directory already exists") /\
  (files_of (snd (ms_server st)) ≫= fun fs => fs !! ["srv"; "share"; "d"]) = Some NDir.
Proof. vm_compute. split; reflexivity. Qed.

(** Two machines shown by one name lead to the later one. *)
Example shown_names_collide :
  let '(infos, st) := sanitizeAll (fun _ => true) demo_mount ["/x"; "_x"] in
  map info_name infos = ["_x"; "_x"] /\ mountParsePath st "/_x" = ("_x", EmptyString, EmptyString).
Proof. vm_compute. split; reflexivity. Qed.

(** A slash is allowed by [Localize], so such a machine is shown by a name that is a path. *)
Example slash_name_shown :
  let '(infos, st) := sanitizeAll (fun _ => true) demo_mount ["a/b"] in
  map info_name infos = ["a/b"] /\ mountParsePath st "/a/b" = ("a", "b", EmptyString).
Proof. vm_compute. split; reflexivity. Qed.

(** The cache keys of two shares can be the same string. *)
Example cache_keys_collide : cacheKey "a:b" "c" "d" = cacheKey "a" "b" "c:d" /\ cacheKey "a:b" "c" EmptyString = cacheKey "a" "b:c" EmptyString.
Proof. vm_compute. split; reflexivity. Qed.

(** A renamed directory: listings of its subdirectories stay in the cache, and files that are gone are
    still found. *)
Definition tree_mount : mountState :=
  MountState "secret" ("secret", {["box" := AgentEnd [demo_share]
    (<[["srv"; "share"; "d"] := NDir]> (<[["srv"; "share"; "d"; "s"] := NDir]>
       (<[["srv"; "share"; "d"; "s"; "f"] := NFile [1%Z]]> demo_fs)))]})
    {["box:docs:d/s" := ([FsEntry "f" (Some 1%Z) false], 0%Z)]} ∅ ∅.
Example renamed_children_stale :
  let '(r, st) := Rename calm tree_mount "/box/docs/d" "/box/docs/e" in
  r = None /\ fst <$> Stat 2 calm st "/box/docs/d/s/f" = Some (inr (FileInfo "f" (Some 1%Z))).
Proof. vm_compute. split; reflexivity. Qed.

(** Any seven characters do for the scheme of the authorization. *)
Example any_scheme : checkControlAuth "nothingsecret" "secret" = None.
Proof. reflexivity. Qed.

(** A refused download is reported as a broken transfer: the agent's reason is dropped. *)
Example download_reason_lost :
  fst (mountDownloadToFile calm demo_mount "box" "docs" "missing") = inl "read chunk header".
Proof. vm_compute. reflexivity. Qed.

(** A negative chunk size is an error to a get and nothing to the mount. *)
Example negative_chunk :
  let l := z_bytes "CHUNK -3" ++ [10%Z] ++ chunkHeader 0 in
  recvChunks 5 true [] l = (Some "reading chunk data", []) /\ recvChunks 5 false [] l = (None, []).
Proof. vm_compute. split; reflexivity. Qed.
