(* ===== verification/ClientConnect.v ===== *)
(** * How the client connects ([internal/client/client.go])

    From the command line or a profile to local listeners: ports and service names become mappings,
    connections to one machine are merged, each mapping gets a local port, and a session is set up
    with the hub.  A port is a [uint16]: what does not fit wraps.  The operating system's part - which
    ports are free, what the hub answers, what the random jitter is - is a parameter. *)

From S2P Require Import Prelude Url Sha256 FileShare SessionState Agent AgentMgmt.
From Stdlib Require Import ZArith Lia Ascii String.
From stdpp Require Import base gmap strings list fin_maps.

Definition u16 (n : Z) : Z := (n mod 65536)%Z.

Record portMapping := PortMapping { pm_local : Z; pm_remote : Z }.

(** ** Port specifications *)

Fixpoint take_digits (l : list ascii) : list ascii :=
  match l with
  | c :: l => if is_digit c then c :: take_digits l else []
  | [] => []
  end.

(** [fmt.Sscanf(s, "%d", &n)]: a sign and the digits that follow; what comes after is not looked at. *)
Definition sscanD (s : string) : option Z :=
  match drop_while is_space (bytes s) with
  | c :: l =>
      let '(sign, l) := if Ascii.eqb c "-" then ("-", l) else if Ascii.eqb c "+" then (EmptyString, l) else (EmptyString, c :: l) in
      match take_digits l with
      | [] => None
      | d => Atoi (sign +:+ of_bytes d)
      end
  | [] => None
  end.

Definition parsePort (s : string) : option Z :=
  n ← sscanD (trim_space s);
  if ((n <? 1) || (65535 <? n))%Z then None else Some n.

(** One element of the specification; [Some None] is an empty one, [None] the error. *)
Definition parsePortPart (part : string) : option (option portMapping) :=
  let part := trim_space part in
  if part =s "" then Some None
  else match cut part ":" with
       | Some (l, r) => local ← parsePort l; remote ← parsePort r; Some (Some (PortMapping local remote))
       | None => p ← parsePort part; Some (Some (PortMapping p p))
       end.
Definition split_comma (s : string) : list string := map of_bytes (split_on "," (bytes s)).
Definition parsePorts (spec : string) : option (list portMapping) :=
  omap id <$> mapM parsePortPart (split_comma spec).

(** ** Service names *)

Record hubService := HubService { hs_Port : Z; hs_Name : string; hs_Label : string }.
Record hubMachine := HubMachine { hm_ID : string; hm_Services : list hubService }.

Definition serviceLabel (s : hubService) : string :=
  if hs_Name s <>s "" then hs_Name s
  else if hs_Label s <>s "" then hs_Label s
  else if (0 <? hs_Port s)%Z then "port " +:+ Itoa (hs_Port s)
  else "service".

Inductive mapError :=
  | InvalidPort
  | Unresolvable                                       (** the hub's status could not be fetched *)
  | NoMachine (machineID : string)
  | NoService (name machineID : string) (available : list string).

Definition addNamed (name : string) (port : Z) (m : gmap string Z) : gmap string Z :=
  if name <>s "" then <[to_lower name := port]> m else m.
Definition svcMap (services : list hubService) : gmap string Z :=
  foldl (fun m s => addNamed (hs_Label s) (hs_Port s) (addNamed (hs_Name s) (hs_Port s) m)) ∅ services.

Fixpoint resolveEach (machine : hubMachine) (names : list string) : mapError + list portMapping :=
  match names with
  | [] => inr []
  | name :: names =>
      if name =s "" then resolveEach machine names
      else match svcMap (hm_Services machine) !! to_lower name with
           | None =>
               inl (NoService name (hm_ID machine)
                      (map (fun s => serviceLabel s +:+ ":" +:+ Itoa (hs_Port s)) (hm_Services machine)))
           | Some port =>
               match resolveEach machine names with
               | inl e => inl e
               | inr rest => inr (PortMapping (u16 port) (u16 port) :: rest)
               end
           end
  end.

(** [status] is what the hub's status page lists, [None] when it cannot be had. *)
Definition resolveServiceNames (status : option (list hubMachine)) (servicesFlag machineID : string)
    : mapError + list portMapping :=
  match status with
  | None => inl Unresolvable
  | Some machines =>
      match find_first (fun m => hm_ID m =s machineID) machines with
      | None => inl (NoMachine machineID)
      | Some machine => resolveEach machine (map trim_space (split_comma servicesFlag))
      end
  end.

Definition buildMappings (status : option (list hubMachine)) (portsFlag servicesFlag : string)
    (legacyLocal legacyTarget : Z) (machineID : string) : mapError + list portMapping :=
  let legacy := if (legacyLocal =? 0)%Z then []
                else [PortMapping (u16 legacyLocal) (u16 (if (legacyTarget =? 0)%Z then legacyLocal else legacyTarget))] in
  match (if portsFlag <>s "" then parsePorts portsFlag else Some []) with
  | None => inl InvalidPort
  | Some ports =>
      match (if servicesFlag <>s "" then resolveServiceNames status servicesFlag machineID else inr []) with
      | inl e => inl e
      | inr services => inr (legacy ++ ports ++ services)
      end
  end.

(** ** Profiles *)

Record profileService := ProfileService { vs_Remote : Z; vs_Local : Z; vs_Name : string }.
Record profileConnection := ProfileConnection {
  pc_HubID : string;
  pc_Hub : string;
  pc_AgentID : string;
  pc_Machine : string;
  pc_Token : string;
  pc_Address : string;
  pc_Services : list profileService
}.

Record mergedConn := MergedConn {
  mc_hub : string;
  mc_machine : string;
  mc_token : string;
  mc_address : string;
  mc_services : list profileService
}.

(** One more entry for a machine that is there already. *)
Definition absorb (m : mergedConn) (token : string) (services : list profileService) : mergedConn :=
  MergedConn (mc_hub m) (mc_machine m) (if mc_token m =s "" then token else mc_token m) (mc_address m)
    (mc_services m ++ services).

(** The loop over the profile: [seen] maps a hub and machine to the place of their entry in [merged].
    [resolve] is [mustResolveHub], whose failure ends the process; [lookup] the credential store. *)
Fixpoint mergeConnections (resolve : string -> option string) (lookup : string -> string)
    (conns : list profileConnection) (seen : gmap string nat) (merged : list mergedConn)
    : option (list mergedConn) :=
  match conns with
  | [] => Some merged
  | c :: conns =>
      hubURL ← resolve (pc_Hub c);
      let token := if (pc_Token c =s "") && (hubURL <>s "") then lookup hubURL else pc_Token c in
      if (hubURL =s "") || (pc_Machine c =s "") then mergeConnections resolve lookup conns seen merged
      else
        let key := hubURL +:+ "||" +:+ pc_Machine c in
        match seen !! key with
        | Some idx => mergeConnections resolve lookup conns seen (alter (fun m => absorb m token (pc_Services c)) idx merged)
        | None =>
            mergeConnections resolve lookup conns (<[key := length merged]> seen)
              (merged ++ [MergedConn hubURL (pc_Machine c) token (pc_Address c) (pc_Services c)])
        end
  end.

(** What a connection asks for: ports by number, names, and local ports for names. *)
Definition numbered (svc : profileService) : option portMapping :=
  if vs_Name svc <>s "" then None
  else if (0 <? vs_Remote svc)%Z then
    Some (PortMapping (u16 (if (vs_Local svc =? 0)%Z then vs_Remote svc else vs_Local svc)) (u16 (vs_Remote svc)))
  else None.
Definition named (svc : profileService) : option string :=
  if vs_Name svc <>s "" then Some (vs_Name svc) else None.
Definition localOverrides (services : list profileService) : gmap string Z :=
  foldl (fun m svc => if (vs_Name svc <>s "") && (0 <? vs_Local svc)%Z then <[vs_Name svc := vs_Local svc]> m else m) ∅ services.

(** The names are resolved together and matched to the answers by position. *)
Definition overridden (overrides : gmap string Z) (names : list string) (resolved : list portMapping) : list portMapping :=
  imap (fun j m => match names !! j ≫= (fun name => overrides !! name) with
                   | Some local => PortMapping (u16 local) (pm_remote m)
                   | None => m
                   end) resolved.

Definition join_comma (names : list string) : string := String.concat "," names.

Definition profileMappings (status : option (list hubMachine)) (machine : string) (services : list profileService)
    : mapError + list portMapping :=
  let names := omap named services in
  match names with
  | [] => inr (omap numbered services)
  | _ =>
      match resolveServiceNames status (join_comma names) machine with
      | inl e => inl e
      | inr resolved => inr (omap numbered services ++ overridden (localOverrides services) names resolved)
      end
  end.

(** ** Local ports *)

(** [net.Listen] on 127.0.0.1, by port: the port asked for, then those ten thousand above it and on.
    The fuel is the number of ports left. *)
Fixpoint bindFrom (fuel : nat) (free : Z -> bool) (port p : Z) : option Z :=
  match fuel with
  | O => None
  | S fuel =>
      if (65535 <? p)%Z then None
      else if negb (p =? port)%Z && (p <? port + 10000)%Z then bindFrom fuel free port (p + 1)
      else if free p then Some p
      else bindFrom fuel free port (p + 1)
  end.
Definition bindLocal (free : Z -> bool) (port : Z) : option Z := bindFrom (Z.to_nat (65536 - port)) free port port.

(** The mappings that got a listener, with the port it is on; each listener takes its port. *)
Fixpoint bindPersistentListeners (free : Z -> bool) (mappings : list portMapping) : list (portMapping * Z) :=
  match mappings with
  | [] => []
  | m :: mappings =>
      match bindLocal free (pm_local m) with
      | None => bindPersistentListeners free mappings
      | Some p => (m, p) :: bindPersistentListeners (fun q => free q && negb (q =? p)%Z) mappings
      end
  end.

Definition portNames : list (Z * string) :=
  [(22, "SSH"); (80, "HTTP"); (443, "HTTPS"); (3389, "RDP"); (5900, "VNC"); (8080, "HTTP"); (8443, "HTTPS")]%Z.
Definition portLabel (port : Z) : string :=
  match find_first (fun kv => fst kv =? port)%Z portNames with
  | Some (_, name) => name
  | None => "port " +:+ Itoa port
  end.

(** ** The loopback address of a machine *)

Definition octet (hi lo : Z) : Z := ((hi * 256 + lo) mod 255 + 1)%Z.
Definition LoopbackAddr (prefix hubURL machine : string) : string :=
  match sha256 (z_bytes (hubURL +:+ "/" +:+ machine)) with
  | h0 :: h1 :: h2 :: h3 :: _ => prefix +:+ "." +:+ Itoa (octet h0 h1) +:+ "." +:+ Itoa (octet h2 h3)
  | _ => EmptyString
  end.

(** ** The hub's side of a URL *)

(** [strings.Replace(s, old, new, 1)]. *)
Definition replace1 (s old new : string) : string :=
  match cut s old with Some (a, b) => a +:+ new +:+ b | None => s end.
Definition wsToHTTP (wsURL : string) : string :=
  trim_slashes (replace1 (replace1 wsURL "wss://" "https://") "ws://" "http://").

(** ** Setting up a session *)

(** The fields of a message from the hub that the set-up reads. *)
Record controlMessage := ControlMessage {
  cm_Type : string;
  cm_Message : string;
  cm_WGPubKey : string;
  cm_Ports : list Z;
  cm_Token : string;
  cm_Port : Z;
  cm_Host : string;
  cm_SessionIdx : Z
}.

Record handshake := Handshake {
  hk_ready : bool;
  hk_sessionIdx : Z;
  hk_agentPubKey : string;
  hk_agentPorts : list Z;
  hk_udp : string * Z * string      (** token, port and host of the relay *)
}.
Definition newHandshake : handshake := Handshake false 0 EmptyString [] (EmptyString, 0%Z, EmptyString).

(** How [runSession] can end before the tunnel, or the state it goes on with. *)
Inductive sessionStart :=
  | Established (h : handshake)
  | Fatal                          (** [errFatal]: the token is not valid *)
  | MachineNotFound                (** [errMachineNotFound] *)
  | HubError (message : string)
  | Lost                           (** the connection ended: [nil] *)
  | Panicked.

(** One message, [None] when it does not parse: the state, or the end. *)
Definition onMessage (h : handshake) (msg : option controlMessage) : handshake + sessionStart :=
  match msg with
  | None => inl h
  | Some m =>
      let h' :=
        if cm_Type m =s "ready" then inl (Handshake true (cm_SessionIdx m) (hk_agentPubKey h) (hk_agentPorts h) (hk_udp h))
        else if cm_Type m =s "wg-pubkey" then
          if (slen (cm_WGPubKey m) <? 8)%Z then inr Panicked
          else inl (Handshake (hk_ready h) (hk_sessionIdx h) (cm_WGPubKey m) (cm_Ports m) (hk_udp h))
        else if cm_Type m =s "udp-offer" then
          inl (Handshake (hk_ready h) (hk_sessionIdx h) (hk_agentPubKey h) (hk_agentPorts h) (cm_Token m, cm_Port m, cm_Host m))
        else if cm_Type m =s "error" then
          let lower := to_lower (cm_Message m) in
          if FileShare.Contains lower "invalid token" then inr Fatal
          else if FileShare.Contains lower "not found" then inr MachineNotFound
          else inr (HubError (cm_Message m))
        else inl h in
      match h' with
      | inr e => inr e
      | inl h => if hk_ready h && (hk_agentPubKey h <>s "") then inr (Established h) else inl h
      end
  end.

Fixpoint awaitSession (h : handshake) (msgs : list (option controlMessage)) : sessionStart :=
  match msgs with
  | [] => Lost
  | msg :: msgs => match onMessage h msg with inr e => e | inl h => awaitSession h msgs end
  end.

(** The tunnel's addresses, the agent's and the client's. *)
Definition clientAddresses (sessionIdx : Z) : string * string :=
  let subnet := if (sessionIdx <? 1)%Z then 1%Z else sessionIdx in
  let subnet := if (254 <? subnet)%Z then 254%Z else subnet in
  ("10.77." +:+ Itoa subnet +:+ ".1", "10.77." +:+ Itoa subnet +:+ ".2").

(** The ports the hub is told of. *)
Definition connectPorts (mappings : list portMapping) : option (list Z) :=
  match mappings with [] => None | _ => Some (map pm_remote mappings) end.

(** The listeners a session opens itself: none with a bridge or without mappings, so the agent's ports are
    never used. *)
Definition sessionListeners (free : Z -> bool) (bridge : bool) (overrideMappings : list portMapping) (agentPorts : list Z)
    : list (portMapping * Z) :=
  if bridge || (length overrideMappings =? 0)%nat then []
  else
    let mappings := if (length overrideMappings =? 0)%nat && negb (length agentPorts =? 0)%nat
                    then map (fun p => PortMapping p p) agentPorts else overrideMappings in
    bindPersistentListeners free mappings.

(** All listeners of [tela connect] with a session to an agent that advertises these ports. *)
Definition connectListeners (free : Z -> bool) (mappings : list portMapping) (agentPorts : list Z)
    : list (portMapping * Z) :=
  match mappings with
  | [] => sessionListeners free false [] agentPorts
  | _ => bindPersistentListeners free mappings ++ sessionListeners free true mappings agentPorts
  end.

(** What [runSession] gives back to its caller. *)
Inductive sessionErr := SNil | SFatal | SErr.
Definition startErr (s : sessionStart) : option sessionErr :=
  match s with
  | Established _ | Lost => Some SNil
  | Fatal => Some SFatal
  | MachineNotFound | HubError _ => Some SErr
  | Panicked => None
  end.

(** The reconnect loop of [cmdConnect], [Connect] and [runProfile]: the delays before the runs that
    follow, and whether it ended on a fatal error; the runs' results are given. *)
Fixpoint connectLoop (jitter : nat -> Z -> Z) (results : list sessionErr) (n attempt : nat) : list Z * bool :=
  match results with
  | [] => ([], false)
  | SFatal :: _ => ([], true)
  | r :: results =>
      let attempt := match r with SNil => 0 | _ => attempt end in
      let '(ds, fatal) := connectLoop jitter results (S n) (S attempt) in
      (reconnectDelay attempt (300 * second) (jitter n) :: ds, fatal)
  end.
