(* ===== verification/ClientConnectProofs.v ===== *)
(** * Theorems about connecting ([ClientConnect])

    Port specifications and service names, the merging of a profile's connections, local ports, the
    set-up of a session and the addresses in it. *)

From S2P Require Import Prelude Url Sha256 Auth Http FileShare FileShareProofs SessionState Session HubStatus Agent.
From S2P Require Import AgentMgmt AgentProofs ClientConnect.
From Stdlib Require Import ZArith Lia Ascii String.
From stdpp Require Import base gmap strings list fin_maps.

(** ** Port specifications *)

Definition port_ok (p : Z) : Prop := (1 <= p <= 65535)%Z.
Definition mapping_ok (m : portMapping) : Prop := port_ok (pm_local m) /\ port_ok (pm_remote m).
Definition showMapping (m : portMapping) : string := Itoa (pm_local m) +:+ ":" +:+ Itoa (pm_remote m).

Lemma take_digits_all l : Forall (fun c => is_digit c = true) l -> take_digits l = l.
Proof. induction 1 as [|c l Hc _ IH]; [done|]. cbn. by rewrite Hc, IH. Qed.

Lemma Itoa_digits n : (0 <= n)%Z -> Forall (fun c => is_digit c = true) (bytes (Itoa n)).
Proof.
  intros Hn. apply Forall_forall. intros c. unfold Itoa. rewrite (proj2 (Z.ltb_ge n 0)) by lia.
  by apply FormatUint_digit.
Qed.

Lemma Itoa_trimmed n : (0 <= n)%Z -> trim_space (Itoa n) = Itoa n.
Proof.
  intros Hn. apply trim_with_none, forallb_forall. intros c Hc%list_elem_of_In. apply negb_true_iff, digit_no_space.
  pose proof (Itoa_digits n Hn) as Hd. rewrite Forall_forall in Hd. by apply Hd.
Qed.

Lemma sscanD_Itoa n : (0 <= n < 9223372036854775808)%Z -> sscanD (Itoa n) = Some n.
Proof.
  intros Hn. pose proof (Itoa_digits n ltac:(lia)) as Hd. destruct (Itoa_head n) as (c & l & E & Hc); [lia|].
  unfold sscanD. rewrite E in Hd |- *. cbn [drop_while]. rewrite digit_no_space by done.
  destruct (Ascii.eqb_spec c "-") as [->|]; [done|]. destruct (Ascii.eqb_spec c "+") as [->|]; [done|].
  rewrite take_digits_all by done. rewrite <- E, of_bytes_bytes.
  change (EmptyString +:+ Itoa n) with (Itoa n). by apply Atoi_Itoa.
Qed.

Lemma parsePort_Itoa p : port_ok p -> parsePort (Itoa p) = Some p.
Proof.
  unfold port_ok. intros Hp. unfold parsePort. rewrite Itoa_trimmed, sscanD_Itoa by lia. cbn [mbind option_bind].
  by rewrite (proj2 (Z.ltb_ge p 1)), (proj2 (Z.ltb_ge 65535 p)) by lia.
Qed.

Lemma parsePort_ok s p : parsePort s = Some p -> port_ok p.
Proof.
  unfold parsePort, port_ok. destruct (sscanD _) as [n|]; [|done]. cbn [mbind option_bind].
  destruct (Z.ltb_spec n 1), (Z.ltb_spec 65535 n); try done. intros [= <-]. lia.
Qed.

Lemma showMapping_head m : mapping_ok m -> exists c l, bytes (showMapping m) = c :: l /\ is_digit c = true.
Proof.
  intros [Hl _]. unfold port_ok in Hl. destruct (Itoa_head (pm_local m)) as (c & l & E & Hc); [lia|].
  exists c, (l ++ bytes (":" +:+ Itoa (pm_remote m))). unfold showMapping. by rewrite bytes_app, E.
Qed.

Lemma showMapping_trimmed m : mapping_ok m -> trim_space (showMapping m) = showMapping m.
Proof.
  intros [Hl Hr]. unfold port_ok in *. destruct (showMapping_head m) as (c & l & E & Hc); [by split|].
  assert (exists d k, rev (bytes (showMapping m)) = d :: k /\ is_digit d = true) as (d & k & Ek & Hd).
  { pose proof (Itoa_digits (pm_remote m) ltac:(lia)) as Hd. destruct (Itoa_head (pm_remote m)) as (x & y & Ey & _); [lia|].
    unfold showMapping. rewrite !bytes_app, !rev_app_distr. apply Forall_rev in Hd.
    destruct (rev (bytes (Itoa (pm_remote m)))) as [|d k] eqn:Er.
    - rewrite Ey in Er. apply (f_equal length) in Er. rewrite length_rev in Er. done.
    - apply Forall_cons in Hd as [Hd _]. by eexists d, _. }
  by apply (trim_space_edges _ c l d k); [|apply digit_no_space|..|apply digit_no_space].
Qed.

Lemma parsePortPart_show m : mapping_ok m -> parsePortPart (showMapping m) = Some (Some m).
Proof.
  intros Hm. unfold parsePortPart. rewrite showMapping_trimmed by done.
  destruct (showMapping_head m Hm) as (c & l & E & _). rewrite bool_decide_false.
  2:{ intros Ee. by rewrite Ee in E. }
  destruct Hm as [Hl Hr]. unfold port_ok in *. unfold showMapping.
  change (":" +:+ Itoa (pm_remote m)) with (String ":" (Itoa (pm_remote m))).
  rewrite cut_byte by (by apply Itoa_no; [lia|]). rewrite !parsePort_Itoa by done. by destruct m.
Qed.

Lemma split_comma_concat l :
  l <> [] -> Forall (fun s => (","%char : ascii) ∉ bytes s) l -> split_comma (String.concat "," l) = l.
Proof.
  intros Hne Hall. unfold split_comma. rewrite split_concat by done. rewrite map_map.
  rewrite <- (map_id l) at 2. apply map_ext. intros s. apply of_bytes_bytes.
Qed.

(** Every mapping of a port specification has ports from 1 to 65535, and the mappings written as a
    specification are read back as they were. *)
Theorem parsePorts_roundtrip :
  (forall spec ms, parsePorts spec = Some ms -> Forall mapping_ok ms) /\
  (forall ms, ms <> [] -> Forall mapping_ok ms -> parsePorts (String.concat "," (map showMapping ms)) = Some ms).
Proof.
  split.
  - intros spec ms. unfold parsePorts. destruct (mapM _ _) as [l|] eqn:E; [|done]. cbn. intros [= <-].
    apply mapM_Some in E. apply Forall_forall. intros m Hm%list_elem_of_omap.
    destruct Hm as (o & Ho & Hid). cbn in Hid. subst o.
    apply list_elem_of_lookup in Ho as [i Hi]. destruct (Forall2_lookup_r _ _ _ _ _ E Hi) as (part & _ & Hp).
    revert Hp. unfold parsePortPart. destruct (_ =s _); [done|].
    destruct (cut _ _) as [[a b]|].
    + destruct (parsePort a) as [x|] eqn:Ex; [|done]. destruct (parsePort b) as [y|] eqn:Ey; [|done].
      cbn. intros [= <-]. split; by eapply parsePort_ok.
    + destruct (parsePort _) as [x|] eqn:Ex; [|done]. cbn. intros [= <-]. split; by eapply parsePort_ok.
  - intros ms Hne Hall. unfold parsePorts. rewrite split_comma_concat.
    + assert (mapM parsePortPart (map showMapping ms) = Some (map Some ms)) as ->.
      { apply mapM_Some. clear Hne. induction Hall as [|m ms Hm _ IH]; cbn; constructor; [by apply parsePortPart_show|done]. }
      cbn [fmap option_fmap option_map]. f_equal. clear. induction ms as [|m ms IH]; [done|]. cbn. by f_equal.
    + by destruct ms.
    + apply Forall_map, (Forall_impl _ _ _ Hall). intros m [Hl Hr]. unfold port_ok in *. unfold showMapping.
      rewrite !bytes_app, !elem_of_app. intros [Hin|[Hin|Hin]]; [revert Hin; by apply Itoa_no; [lia|]| |revert Hin; by apply Itoa_no; [lia|]].
      by apply list_elem_of_singleton in Hin.
Qed.

(** ** Merging the connections of a profile *)

(** One connection on its own: [None] when its hub does not resolve, [Some None] when it is skipped. *)
Definition single (resolve : string -> option string) (lookup : string -> string) (c : profileConnection)
    : option (option mergedConn) :=
  hubURL ← resolve (pc_Hub c);
  Some (if (hubURL =s "") || (pc_Machine c =s "") then None
        else Some (MergedConn hubURL (pc_Machine c)
               (if (pc_Token c =s "") && (hubURL <>s "") then lookup hubURL else pc_Token c)
               (pc_Address c) (pc_Services c))).

Definition keyOf (m : mergedConn) : string := mc_hub m +:+ "||" +:+ mc_machine m.

(** The elements in the order of their first occurrences. *)
Fixpoint uniq (l : list string) : list string :=
  match l with [] => [] | k :: l => k :: List.filter (fun x => negb (x =s k)) (uniq l) end.

Definition sameKey (k : string) (l : list mergedConn) : list mergedConn := List.filter (fun x => keyOf x =s k) l.

(** The first of them that is not empty. *)
Fixpoint firstToken (l : list string) : string :=
  match l with [] => EmptyString | t :: l => if t =s "" then firstToken l else t end.

(** The entry of a machine is made of all connections to it. *)
Definition gathers (m : mergedConn) (same : list mergedConn) : Prop :=
  (exists x rest, same = x :: rest /\ mc_hub m = mc_hub x /\ mc_machine m = mc_machine x /\ mc_address m = mc_address x) /\
  mc_token m = firstToken (map mc_token same) /\ mc_services m = concat (map mc_services same).

Definition mergeStep (st : gmap string nat * list mergedConn) (x : mergedConn) : gmap string nat * list mergedConn :=
  let '(seen, merged) := st in
  match seen !! keyOf x with
  | Some idx => (seen, alter (fun m => absorb m (mc_token x) (mc_services x)) idx merged)
  | None => (<[keyOf x := length merged]> seen, merged ++ [x])
  end.

Lemma mergeConnections_singles resolve lookup conns os seen merged :
  mapM (single resolve lookup) conns = Some os ->
  mergeConnections resolve lookup conns seen merged = Some (snd (foldl mergeStep (seen, merged) (omap id os))).
Proof.
  intros Hm%mapM_Some. revert seen merged. induction Hm as [|c o conns os Hc _ IH]; intros seen merged; [done|].
  unfold single in Hc. cbn [mergeConnections]. destruct (resolve (pc_Hub c)) as [url|]; [|done].
  cbn [mbind option_bind] in Hc |- *. injection Hc as <-.
  destruct (_ || _); [apply IH|]. cbn [omap list_omap id foldl mergeStep]. unfold keyOf at 1 2. cbn [mc_hub mc_machine mc_token mc_services].
  destruct (seen !! _); apply IH.
Qed.

Lemma elem_of_uniq l k : k ∈ uniq l <-> k ∈ l.
Proof.
  induction l as [|a l IH]; [done|]. cbn [uniq]. rewrite !elem_of_cons. split.
  - intros [->|Hin]; [by left|]. apply list_elem_of_In, filter_In in Hin as [Hin _]. right. by apply IH, list_elem_of_In.
  - intros [->|Hin]; [by left|]. destruct (decide (k = a)) as [->|Hne]; [by left|]. right.
    apply list_elem_of_In, filter_In. split; [by apply list_elem_of_In, IH|]. by rewrite bool_decide_false.
Qed.

Lemma uniq_snoc l k : uniq (l ++ [k]) = if decide (k ∈ l) then uniq l else uniq l ++ [k].
Proof.
  induction l as [|a l IH]; [done|]. cbn [app uniq]. rewrite IH. destruct (decide (k ∈ l)) as [Hin|Hin].
  - rewrite decide_True by (by right). done.
  - rewrite List.filter_app. cbn [List.filter]. destruct (decide (k = a)) as [->|Hne].
    + rewrite bool_decide_true by done. cbn [negb]. rewrite app_nil_r, decide_True by left. done.
    + rewrite bool_decide_false by done. cbn [negb]. rewrite decide_False; [done|]. by intros [->|?]%elem_of_cons.
Qed.

Lemma NoDup_uniq l : NoDup (uniq l).
Proof.
  induction l as [|a l IH]; [constructor|]. cbn [uniq]. constructor.
  - intros Hin%list_elem_of_In%filter_In. destruct Hin as [_ Hin]. by rewrite bool_decide_true in Hin.
  - rewrite NoDup_ListNoDup in IH |- *. by apply List.NoDup_filter.
Qed.

Lemma firstToken_snoc l t : firstToken (l ++ [t]) = if firstToken l =s "" then t else firstToken l.
Proof.
  induction l as [|a l IH]; cbn [app firstToken].
  - case_bool_decide as Ht; [by rewrite Ht|done].
  - destruct (bool_decide_reflect (a = "")) as [->|Hne]; [exact IH|by rewrite bool_decide_false].
Qed.

Lemma gathers_absorb m same x : gathers m same -> gathers (absorb m (mc_token x) (mc_services x)) (same ++ [x]).
Proof.
  intros [Hex [Ht Hs]]. split; [|split].
  - destruct Hex as (y & rest & -> & H1 & H2 & H3). by exists y, (rest ++ [x]).
  - rewrite map_app. change (map mc_token [x]) with [mc_token x]. by rewrite firstToken_snoc, <- Ht.
  - rewrite map_app, concat_app, <- Hs. cbn. by rewrite app_nil_r.
Qed.

(** What the loop has made of the connections so far. *)
Record merges (l : list mergedConn) (st : gmap string nat * list mergedConn) : Prop := Merges {
  mg_keys : map keyOf (snd st) = uniq (map keyOf l);
  mg_seen : forall k i, fst st !! k = Some i <-> map keyOf (snd st) !! i = Some k;
  mg_entries : forall m, m ∈ snd st -> gathers m (sameKey (keyOf m) l)
}.

Lemma lookup_keys (merged : list mergedConn) i k :
  map keyOf merged !! i = Some k <-> exists m, merged !! i = Some m /\ keyOf m = k.
Proof.
  change (map keyOf merged) with (keyOf <$> merged). rewrite list_lookup_fmap. destruct (merged !! i); cbn; naive_solver.
Qed.

Lemma sameKey_snoc k l x : sameKey k (l ++ [x]) = if keyOf x =s k then sameKey k l ++ [x] else sameKey k l.
Proof.
  unfold sameKey. rewrite List.filter_app. cbn [List.filter]. destruct (keyOf x =s k); [done|by rewrite app_nil_r].
Qed.

Lemma mergeStep_merges l st x : merges l st -> merges (l ++ [x]) (mergeStep st x).
Proof.
  destruct st as [seen merged]. intros [Hk Hs He]. cbn [fst snd] in *. unfold mergeStep.
  pose proof (NoDup_uniq (map keyOf l)) as Hnd. rewrite <- Hk in Hnd.
  assert (keyOf x ∈ map keyOf l <-> exists i, seen !! keyOf x = Some i) as Hin.
  { rewrite <- elem_of_uniq, <- Hk, list_elem_of_lookup. split; intros [i Hi]; exists i; by apply Hs. }
  destruct (seen !! keyOf x) as [idx|] eqn:Ex.
  - pose proof (proj1 (Hs _ _) Ex) as Hidx. apply lookup_keys in Hidx as (m0 & Hm0 & Hkey).
    assert (forall f, (forall m, keyOf (f m) = keyOf m) -> map keyOf (alter f idx merged) = map keyOf merged) as Halt.
    { intros f Hf. apply list_eq. intros i. change (map keyOf ?a) with (keyOf <$> a). rewrite !list_lookup_fmap.
      destruct (decide (i = idx)) as [->|Hne]; [rewrite list_lookup_alter_eq, Hm0; exact (f_equal Some (Hf m0))|by rewrite list_lookup_alter_ne]. }
    split; cbn [fst snd].
    + rewrite Halt by done. rewrite Hk, map_app. cbn [map]. rewrite uniq_snoc. rewrite decide_True; [done|]. apply Hin. by exists idx.
    + intros k i. rewrite Halt by done. apply Hs.
    + intros m [i Hi]%list_elem_of_lookup. rewrite sameKey_snoc. destruct (decide (i = idx)) as [->|Hne].
      * rewrite list_lookup_alter_eq, Hm0 in Hi. cbn in Hi. injection Hi as <-.
        change (keyOf (absorb m0 (mc_token x) (mc_services x))) with (keyOf m0). rewrite bool_decide_true by done.
        apply gathers_absorb, He. by eapply list_elem_of_lookup_2.
      * rewrite list_lookup_alter_ne in Hi by done. rewrite bool_decide_false; [apply He; by eapply list_elem_of_lookup_2|].
        intros E. apply Hne. eapply NoDup_lookup; [exact Hnd| |]; apply lookup_keys; [by exists m|by exists m0].
  - assert (keyOf x ∉ map keyOf l) as Hnin by (intros [i Hi]%Hin; done).
    split; cbn [fst snd].
    + rewrite !map_app, Hk. cbn [map]. by rewrite uniq_snoc, decide_False.
    + intros k i. rewrite map_app. cbn [map]. rewrite lookup_insert. case_decide as Hkx.
      * subst k. split.
        -- intros [= <-]. rewrite lookup_app_r by (by rewrite length_map). by rewrite length_map, Nat.sub_diag.
        -- intros Hi. apply lookup_app_Some in Hi as [Hi|[Hge Hi]].
           ++ exfalso. apply Hnin. rewrite <- elem_of_uniq, <- Hk. by eapply list_elem_of_lookup_2.
           ++ rewrite length_map in *. apply list_lookup_singleton_Some in Hi as [Hi _]. f_equal. lia.
      * rewrite Hs. split; intros Hi.
        -- by apply lookup_app_l_Some.
        -- apply lookup_app_Some in Hi as [Hi|[_ Hi]]; [done|]. apply list_lookup_singleton_Some in Hi as [_ Hi]. congruence.
    + intros m [Hm| ->%list_elem_of_singleton]%elem_of_app.
      * rewrite sameKey_snoc, bool_decide_false; [by apply He|]. intros E. apply Hnin. rewrite E.
        rewrite <- elem_of_uniq, <- Hk. by apply list_elem_of_fmap_2.
      * rewrite sameKey_snoc, bool_decide_true by done.
        assert (sameKey (keyOf x) l = []) as ->.
        { unfold sameKey. destruct (List.filter _ l) as [|y r] eqn:Ef; [done|]. exfalso. apply Hnin.
          assert (In y (y :: r)) as Hy by (by left). rewrite <- Ef in Hy. apply filter_In in Hy as [Hy Hky%bool_decide_eq_true].
          rewrite <- Hky. apply list_elem_of_fmap_2. by apply list_elem_of_In. }
        cbn [app]. split; [by exists x, []|]. cbn. case_bool_decide as Ht; [by rewrite Ht, app_nil_r|by rewrite app_nil_r].
Qed.

(** A profile makes one connection to each machine of a hub: in the order the machines are first
    named, each with the services of all its entries, the first token that is not empty, and the
    address of the first entry; an entry without hub or machine adds nothing. *)
Theorem merged_connections resolve lookup conns os :
  mapM (single resolve lookup) conns = Some os ->
  let singles := omap id os in
  exists merged, mergeConnections resolve lookup conns ∅ [] = Some merged /\
    map keyOf merged = uniq (map keyOf singles) /\ NoDup (map keyOf merged) /\
    forall m, m ∈ merged -> gathers m (sameKey (keyOf m) singles).
Proof.
  intros Hos singles. rewrite (mergeConnections_singles _ _ _ os) by done. fold singles. eexists. split; [done|].
  assert (merges singles (foldl mergeStep (∅, []) singles)) as [Hk _ He].
  { generalize singles. intros l. induction l as [|x l IH] using rev_ind.
    - split; cbn; [done|by intros k i; rewrite lookup_empty|]. intros m Hm. by apply elem_of_nil in Hm.
    - rewrite foldl_snoc. by apply mergeStep_merges. }
  split_and!; [done| |done]. rewrite Hk. apply NoDup_uniq.
Qed.

(** ** Service names *)

(** A row of the hub's status page as the client reads it; the hub sends no labels. *)
Definition machine_of (row : statusMachine) : hubMachine :=
  HubMachine (row_ID row) (map (fun sd => HubService (sd_Port sd) (sd_Name sd) EmptyString) (row_Services row)).

Lemma svcMap_Some services k p :
  svcMap services !! k = Some p ->
  exists s, s ∈ services /\ hs_Port s = p /\
    ((hs_Name s <> "" /\ to_lower (hs_Name s) = k) \/ (hs_Label s <> "" /\ to_lower (hs_Label s) = k)).
Proof.
  unfold svcMap. induction services as [|s l IH] using rev_ind; [done|]. rewrite foldl_snoc.
  set (m := foldl _ ∅ l) in *. intros Hk.
  assert (m !! k = Some p \/ hs_Port s = p /\
    ((hs_Name s <> "" /\ to_lower (hs_Name s) = k) \/ (hs_Label s <> "" /\ to_lower (hs_Label s) = k))) as [Hm|[Hp Hs]].
  { revert Hk. unfold addNamed.
    destruct (bool_decide_reflect (hs_Label s = "")), (bool_decide_reflect (hs_Name s = "")); cbn [negb];
      rewrite ?lookup_insert; repeat case_decide; naive_solver. }
  - destruct (IH Hm) as (s' & Hs' & ?). exists s'. split; [apply elem_of_app; by left|done].
  - exists s. split; [apply elem_of_app; right; by apply list_elem_of_singleton|done].
Qed.

Lemma resolveEach_from machine names ms m :
  resolveEach machine names = inr ms -> m ∈ ms ->
  exists name p, name ∈ names /\ svcMap (hm_Services machine) !! to_lower name = Some p /\ m = PortMapping (u16 p) (u16 p).
Proof.
  revert ms. induction names as [|n names IH]; intros ms; cbn [resolveEach].
  { intros [= <-] Hm. by apply elem_of_nil in Hm. }
  destruct (n =s "").
  { intros Hr Hm. destruct (IH _ Hr Hm) as (name & p & Hn & Hp). exists name, p. split; [by right|done]. }
  destruct (svcMap _ !! _) as [p|] eqn:Ep; [|done]. destruct (resolveEach machine names) as [e|rest]; [done|].
  intros [= <-] [-> |Hm]%elem_of_cons; [exists n, p; split; [by left|done]|].
  destruct (IH _ eq_refl Hm) as (name & q & Hn & Hq). exists name, q. split; [by right|done].
Qed.

(** Naming a service reaches nothing the hub does not show: what names resolve to, from the status
    page the hub gives a token, are ports of services listed there under those names, on a machine
    of that identifier that the token may see, less the services a filtered grant leaves out. *)
Theorem resolved_services_shown `{RangeOrder} auth now s bridgeDir hubID hubName r rows id name servicesFlag machineID ms m :
  handleAPIStatus auth now s bridgeDir hubID hubName r = StatusPage rows id name ->
  resolveServiceNames (Some (map machine_of rows)) servicesFlag machineID = inr ms -> m ∈ ms ->
  may_view auth now (tokenFromRequest r) machineID /\
  exists row sd n, row ∈ rows /\ row_ID row = machineID /\ sd ∈ row_Services row /\
    n ∈ map trim_space (split_comma servicesFlag) /\ to_lower n = to_lower (sd_Name sd) /\
    pm_remote m = u16 (sd_Port sd) /\ pm_local m = u16 (sd_Port sd) /\
    (forall names, enabled auth = true ->
       connectServicesFilter auth now (tokenFromRequest r) machineID = Some names ->
       serviceFilterName sd ∈ names).
Proof.
  intros Hpage Hres Hm. unfold resolveServiceNames in Hres.
  destruct (find_first _ _) as [machine|] eqn:Ef; [|done].
  apply find_first_Some in Ef as [Hin Hid%bool_decide_eq_true].
  apply list_elem_of_fmap in Hin as (row & -> & Hrow). cbn [machine_of hm_ID] in Hid.
  destruct (resolveEach_from _ _ _ _ Hres Hm) as (n & p & Hn & Hp & ->).
  apply svcMap_Some in Hp as (hs & Hhs & <- & Hname). cbn [machine_of hm_Services] in Hhs.
  apply list_elem_of_fmap in Hhs as (sd & -> & Hsd). cbn [hs_Name hs_Label hs_Port] in *.
  destruct Hname as [[_ Hname]|[? _]]; [|done].
  revert Hpage. unfold handleAPIStatus. destruct (r_Method r =s "OPTIONS"); [done|].
  destruct (_ && _); [done|]. intros [= <- _ _]. pose proof Hrow as Hrow'.
  apply elem_of_statusRows in Hrow' as [(k & q & e & _ & _ & Hv & ->)|(mn & bc & _ & _ & ->)];
    [|by apply elem_of_nil in Hsd].
  cbn [statusRow row_ID] in Hid. subst machineID. split; [done|].
  exists (statusRow auth now (tokenFromRequest r) e), sd, n. split_and!; try done.
  intros names Hen Hf. cbn [statusRow row_Services] in Hsd. unfold shownServices, isEnabled in Hsd.
  rewrite Hen, Hf in Hsd. by apply filterServicesByName_spec in Hsd as [_ ?].
Qed.

(** The port a name stands for on a machine, among those the hub shows. *)
Definition servicePort (machines : list hubMachine) (machineID name : string) : option Z :=
  machine ← find_first (fun m => hm_ID m =s machineID) machines;
  svcMap (hm_Services machine) !! to_lower (trim_space name).

(** What a named service of a profile asks for, by itself. *)
Definition wanted (machines : list hubMachine) (machineID : string) (svc : profileService) : option portMapping :=
  port ← servicePort machines machineID (vs_Name svc);
  let local := if (0 <? vs_Local svc)%Z then vs_Local svc else port in
  Some (PortMapping (u16 local) (u16 port)).

Definition is_named (svc : profileService) : bool := vs_Name svc <>s "".
Definition clean_name (name : string) : Prop := ((","%char : ascii) ∉ bytes name) /\ trim_space name <> "".

Definition inSum {E A} (r : E + A) : option A := match r with inl _ => None | inr a => Some a end.

Lemma resolveEach_mapM machine names :
  Forall (fun n => n <> "") names ->
  inSum (resolveEach machine names) =
  mapM (fun n => p ← svcMap (hm_Services machine) !! to_lower n; Some (PortMapping (u16 p) (u16 p))) names.
Proof.
  induction 1 as [|n names Hn _ IH]; [done|]. cbn [resolveEach mapM]. rewrite bool_decide_false by done.
  destruct (svcMap _ !! _) as [p|]; [|done]. cbn [mbind option_bind]. rewrite <- IH.
  by destruct (resolveEach machine names).
Qed.

Lemma omap_named services : omap named services = map vs_Name (List.filter is_named services).
Proof.
  induction services as [|svc services IH]; [done|]. cbn [omap list_omap List.filter]. unfold named at 1, is_named at 1.
  destruct (_ =s _); cbn [negb map]; [exact IH|by rewrite <- IH].
Qed.

Lemma localOverrides_lookup services svc :
  NoDup (omap named services) -> svc ∈ services -> vs_Name svc <> "" ->
  localOverrides services !! vs_Name svc = if (0 <? vs_Local svc)%Z then Some (vs_Local svc) else None.
Proof.
  intros Hnd Hin Hne. rewrite omap_named in Hnd.
  assert (forall l, vs_Name svc ∉ map vs_Name (List.filter is_named l) -> localOverrides l !! vs_Name svc = None) as Hnone.
  { intros l. induction l as [|x l IH] using rev_ind; [done|]. unfold localOverrides. rewrite foldl_snoc.
    fold (localOverrides l). rewrite List.filter_app, map_app, elem_of_app. cbn [List.filter].
    intros Hx. destruct (is_named x) eqn:En.
    - unfold is_named in En. rewrite En. cbn [andb]. destruct (0 <? vs_Local x)%Z; [|apply IH; naive_solver].
      rewrite lookup_insert_ne; [apply IH; naive_solver|]. intros E. apply Hx. right. cbn. rewrite E. by left.
    - unfold is_named in En. rewrite En. cbn [andb]. apply IH. naive_solver. }
  revert Hnd Hin. induction services as [|x l IH] using rev_ind; intros Hnd Hin; [by apply elem_of_nil in Hin|].
  unfold localOverrides. rewrite foldl_snoc. fold (localOverrides l).
  rewrite List.filter_app, map_app in Hnd. apply NoDup_app in Hnd as (Hl & Hdisj & _). cbn [List.filter] in Hdisj.
  apply elem_of_app in Hin as [Hin| ->%list_elem_of_singleton].
  - assert (vs_Name svc ∈ map vs_Name (List.filter is_named l)) as Hsvc.
    { apply list_elem_of_fmap_2, list_elem_of_In, filter_In. split; [by apply list_elem_of_In|].
      unfold is_named. by rewrite bool_decide_false. }
    specialize (Hdisj _ Hsvc). destruct (is_named x) eqn:En; unfold is_named in En; rewrite En; cbn [andb]; [|by apply IH].
    destruct (0 <? vs_Local x)%Z; [|by apply IH]. rewrite lookup_insert_ne; [by apply IH|].
    intros E. apply Hdisj. cbn. rewrite E. by left.
  - assert (is_named x = true) as En by (unfold is_named; by rewrite bool_decide_false).
    rewrite En in Hdisj. unfold is_named in En. rewrite En. cbn [andb].
    destruct (0 <? vs_Local x)%Z; [by rewrite lookup_insert_eq|].
    apply Hnone. intros Hin. apply (Hdisj _ Hin). by left.
Qed.

Lemma wanted_overridden machine machines machineID overrides svcs :
  find_first (fun m => hm_ID m =s machineID) machines = Some machine ->
  Forall (fun svc => overrides !! vs_Name svc = if (0 <? vs_Local svc)%Z then Some (vs_Local svc) else None) svcs ->
  mapM (wanted machines machineID) svcs =
  overridden overrides (map vs_Name svcs) <$>
    mapM (fun n => p ← svcMap (hm_Services machine) !! to_lower n; Some (PortMapping (u16 p) (u16 p)))
      (map trim_space (map vs_Name svcs)).
Proof.
  intros Hf. induction 1 as [|svc svcs Ho _ IH]; [done|]. cbn [mapM map]. rewrite IH. unfold wanted at 1, servicePort.
  rewrite Hf. cbn [mbind option_bind]. destruct (svcMap _ !! _) as [p|]; [|done]. cbn [mbind option_bind].
  clear IH. destruct (mapM _ _) as [r|]; [|done]. cbn. f_equal. unfold overridden. cbn [imap].
  cbn. rewrite Ho. f_equal. by destruct (0 <? vs_Local svc)%Z.
Qed.

(** The mappings of a profile entry with clean names, each once, are those of its numbered services
    and one for each named service, of the port the hub shows under that name and the local port
    that service asks for; and it fails exactly when some name is not shown. *)
Theorem profile_services_mapped machines machineID services :
  Forall clean_name (omap named services) -> NoDup (omap named services) ->
  inSum (profileMappings (Some machines) machineID services) =
  (fun resolved => omap numbered services ++ resolved) <$> mapM (wanted machines machineID) (List.filter is_named services).
Proof.
  intros Hclean Hnd. unfold profileMappings. destruct (omap named services) as [|n names] eqn:En.
  - rewrite omap_named in En. apply map_eq_nil in En. rewrite En. cbn. by rewrite app_nil_r.
  - rewrite <- En in *. unfold resolveServiceNames, join_comma.
    assert (omap named services <> []) as Hne by (by rewrite En).
    destruct (find_first _ _) as [machine|] eqn:Ef.
    + rewrite split_comma_concat by (done || (eapply Forall_impl; [exact Hclean|]; by intros ? [? ?])).
      rewrite (wanted_overridden machine _ _ (localOverrides services)); [|done|].
      * rewrite <- omap_named, <- resolveEach_mapM.
        -- by destruct (resolveEach _ _).
        -- apply Forall_map. eapply Forall_impl; [exact Hclean|]. by intros ? [? ?].
      * apply Forall_forall. intros svc Hin%list_elem_of_In%filter_In. destruct Hin as [Hin%list_elem_of_In Hn].
        unfold is_named in Hn. apply localOverrides_lookup; [done|done|]. by apply negb_true_iff, bool_decide_eq_false in Hn.
    + cbn [inSum]. rewrite omap_named in Hne. destruct (List.filter is_named services) as [|svc svcs]; [done|].
      cbn [mapM]. assert (wanted machines machineID svc = None) as -> by (unfold wanted, servicePort; by rewrite Ef). done.
Qed.

(** ** Local ports *)

(** The ports tried, in order. *)
Definition candidates (port : Z) : list Z :=
  List.filter (fun p => negb (negb (p =? port) && (p <? port + 10000)))%Z (seqZ port (65536 - port)).

Lemma bindFrom_find n free port p :
  (p + Z.of_nat n = 65536)%Z ->
  bindFrom n free port p =
  find_first free (List.filter (fun p => negb (negb (p =? port) && (p <? port + 10000)))%Z (seqZ p (Z.of_nat n))).
Proof.
  revert p. induction n as [|n IH]; intros p Hp; [done|]. rewrite seqZ_cons by lia.
  replace (Z.pred (Z.of_nat (S n))) with (Z.of_nat n) by lia. cbn [bindFrom List.filter].
  rewrite (proj2 (Z.ltb_ge 65535 p)) by lia. rewrite IH by lia. replace (Z.succ p) with (p + 1)%Z by lia.
  destruct (negb (p =? port)%Z && (p <? port + 10000)%Z); cbn [negb]; [done|]. cbn [find_first]. by destruct (free p).
Qed.

Lemma bindLocal_find free port : port_ok port -> bindLocal free port = find_first free (candidates port).
Proof.
  unfold port_ok, bindLocal, candidates. intros Hp. rewrite bindFrom_find by lia. by rewrite Z2Nat.id by lia.
Qed.

Lemma elem_of_candidates p q :
  port_ok p -> q ∈ candidates p <-> (q = p \/ p + 10000 <= q <= 65535)%Z.
Proof.
  unfold port_ok, candidates. intros Hp. rewrite list_elem_of_In, filter_In, <- list_elem_of_In, elem_of_seqZ.
  rewrite negb_true_iff, andb_false_iff, negb_false_iff, Z.eqb_eq, Z.ltb_ge. lia.
Qed.

Lemma candidates_head p : port_ok p -> exists l, candidates p = p :: l.
Proof.
  unfold port_ok, candidates. intros Hp. rewrite seqZ_cons by lia. cbn [List.filter].
  rewrite Z.eqb_refl. cbn. by eexists.
Qed.

(** What holds of the listeners, given which ports are free before. *)
Record listening (free : Z -> bool) (mappings : list portMapping) (l : list (portMapping * Z)) : Prop := Listening {
  ln_sub : sublist (map fst l) mappings;
  ln_distinct : NoDup (map snd l);
  ln_ports : forall m p, (m, p) ∈ l -> free p = true /\ (p = pm_local m \/ pm_local m + 10000 <= p <= 65535)%Z;
  ln_asked : forall m p, (m, p) ∈ l -> p <> pm_local m -> free (pm_local m) = false \/ pm_local m ∈ map snd l;
  ln_skipped : forall m, m ∈ mappings -> (exists p, (m, p) ∈ l) \/
    forall p, (p = pm_local m \/ pm_local m + 10000 <= p <= 65535)%Z -> free p = false \/ p ∈ map snd l
}.

Lemma taken_free free p q : free q && negb (q =? p)%Z = false -> free q = false \/ q = p.
Proof. destruct (free q); [|by left]. destruct (Z.eqb_spec q p); [by right|done]. Qed.

(** C32. Every mapping gets a local port of its own, free, the one asked for if it is to be had, else one
    at least ten thousand above it and at most 65535; a mapping goes without only when no such port is
    left. *)
Theorem listeners_sound free mappings :
  Forall mapping_ok mappings -> listening free mappings (bindPersistentListeners free mappings).
Proof.
  intros Hok. revert free. induction Hok as [|m mappings [Hm _] _ IH]; intros free.
  { split; cbn; [done|constructor|..]; intros m; [intros p Hp|intros p Hp|intros Hp]; by apply elem_of_nil in Hp. }
  cbn [bindPersistentListeners]. rewrite bindLocal_find by done. destruct (find_first free (candidates (pm_local m))) as [p|] eqn:Ef.
  - pose proof (find_first_Some _ _ _ Ef) as [Hc Hfree]. apply elem_of_candidates in Hc; [|done].
    destruct (IH (fun q => free q && negb (q =? p)%Z)) as [Hsub Hnd Hports Hasked Hskip].
    set (l := bindPersistentListeners _ mappings) in *. split; cbn [map fst snd].
    + by apply sublist_skip.
    + constructor; [|done]. intros Hin. apply list_elem_of_fmap in Hin as ([m' q] & -> & Hin).
      destruct (Hports _ _ Hin) as [Hf _]. apply andb_true_iff in Hf as [_ Hf%negb_true_iff]. cbn in Hf. by rewrite Z.eqb_refl in Hf.
    + intros m' q [[= -> ->]|Hin]%elem_of_cons; [done|]. destruct (Hports _ _ Hin) as [Hf%andb_true_iff Hq]. by split; [apply Hf|].
    + intros m' q [[= -> ->]|Hin]%elem_of_cons Hne.
      * left. destruct (candidates_head _ Hm) as [tl Htl]. rewrite Htl in Ef. cbn in Ef.
        destruct (free (pm_local m)); [congruence|done].
      * destruct (Hasked _ _ Hin Hne) as [[Hf| ->]%taken_free|Hin']; [by left|right; by left|right; by right].
    + intros m' [->|Hin]%elem_of_cons; [left; exists p; by left|].
      destruct (Hskip _ Hin) as [[q Hq]|Hall]; [left; exists q; by right|]. right. intros q Hq.
      destruct (Hall q Hq) as [[Hf| ->]%taken_free|Hin']; [by left|right; by left|right; by right].
  - destruct (IH free) as [Hsub Hnd Hports Hasked Hskip]. split; [by apply sublist_cons|done..|].
    intros m' [->|Hin]%elem_of_cons; [|by apply Hskip]. right. intros p Hp. left.
    rewrite find_first_None in Ef. by apply Ef, elem_of_candidates.
Qed.

(** ** Setting up a session *)

(** A message the set-up goes on after: no error, and a key that is not cut short. *)
Definition benign (msg : option controlMessage) : Prop :=
  forall m, msg = Some m -> cm_Type m <> "error" /\ (cm_Type m = "wg-pubkey" -> 8 <= slen (cm_WGPubKey m))%Z.
Definition of_type (t : string) (msgs : list (option controlMessage)) : Prop := exists m, Some m ∈ msgs /\ cm_Type m = t.
Definition set_up (h : handshake) : bool := hk_ready h && (hk_agentPubKey h <>s "").

Lemma set_up_iff h : set_up h = true <-> hk_ready h = true /\ hk_agentPubKey h <> "".
Proof. unfold set_up. by rewrite andb_true_iff, negb_true_iff, bool_decide_eq_false. Qed.

Lemma onMessage_benign h msg :
  benign msg -> set_up h = false -> exists h',
    onMessage h msg = (if set_up h' then inr (Established h') else inl h') /\
    (hk_ready h' = true <-> hk_ready h = true \/ of_type "ready" [msg]) /\
    (hk_agentPubKey h' <> "" <-> hk_agentPubKey h <> "" \/ of_type "wg-pubkey" [msg]).
Proof.
  intros Hb Hh. assert (forall t, of_type t [msg] <-> exists m, msg = Some m /\ cm_Type m = t) as Ht.
  { intros t. unfold of_type. setoid_rewrite list_elem_of_singleton. naive_solver. }
  setoid_rewrite Ht. destruct msg as [m|]; [|exists h; cbn; rewrite Hh; naive_solver].
  destruct (Hb m eq_refl) as [He Hk]. unfold onMessage. fold (set_up h).
  destruct (bool_decide_reflect (cm_Type m = "ready")) as [Er|Er].
  { eexists. split; [reflexivity|]. cbn. naive_solver congruence. }
  destruct (bool_decide_reflect (cm_Type m = "wg-pubkey")) as [Ew|Ew].
  { specialize (Hk Ew). rewrite (proj2 (Z.ltb_ge _ _)) by lia. eexists. split; [reflexivity|]. cbn.
    assert (cm_WGPubKey m <> "") by (intros E; rewrite E in Hk; unfold slen in Hk; cbn in Hk; lia). naive_solver congruence. }
  destruct (cm_Type m =s "udp-offer"); [eexists; split; [reflexivity|]; cbn; naive_solver congruence|].
  rewrite bool_decide_false by done. eexists. split; [reflexivity|]. naive_solver congruence.
Qed.

Lemma onMessage_malign h msg : ~ benign msg -> set_up h = false -> exists e, onMessage h msg = inr e /\ forall h', e <> Established h'.
Proof.
  intros Hb Hh. destruct msg as [m|]; [|destruct Hb; by intros ?].
  unfold onMessage. destruct (bool_decide_reflect (cm_Type m = "ready")) as [Er|Er].
  { destruct Hb. intros m' [= <-]. rewrite Er. by split. }
  destruct (bool_decide_reflect (cm_Type m = "wg-pubkey")) as [Ew|Ew].
  { destruct (Z.ltb_spec (slen (cm_WGPubKey m)) 8) as [Hl|Hl]; [by eexists|].
    destruct Hb. intros m' [= <-]. rewrite Ew. by split. }
  destruct (bool_decide_reflect (cm_Type m = "udp-offer")) as [Eu|Eu].
  { destruct Hb. intros m' [= <-]. rewrite Eu. by split. }
  destruct (bool_decide_reflect (cm_Type m = "error")) as [Ee|Ee].
  { repeat destruct (FileShare.Contains _ _); by eexists. }
  destruct Hb. by intros m' [= <-].
Qed.

Lemma of_type_cons t msg msgs : of_type t (msg :: msgs) <-> of_type t [msg] \/ of_type t msgs.
Proof. unfold of_type. setoid_rewrite elem_of_cons. setoid_rewrite elem_of_nil. naive_solver. Qed.

Lemma benign_dec msg : benign msg \/ ~ benign msg.
Proof.
  destruct msg as [m|]; [|left; by intros ?].
  destruct (decide (cm_Type m = "error")) as [He|He]; [right; intros Hb; by destruct (Hb m eq_refl)|].
  destruct (decide (cm_Type m = "wg-pubkey")) as [Hw|Hw]; [|left; intros m' [= <-]; by split].
  destruct (decide (8 <= slen (cm_WGPubKey m))%Z) as [Hl|Hl]; [left; intros m' [= <-]; by split|].
  right. intros Hb. destruct (Hb m eq_refl) as [_ Hk]. by apply Hl, Hk.
Qed.

(** A session is set up exactly when the hub's messages, up to some point, hold a ready message and
    the agent's key, in either order and among any others, and no error and no short key before. *)
Theorem session_established h msgs :
  set_up h = false ->
  (exists h', awaitSession h msgs = Established h') <->
  exists before after, msgs = before ++ after /\ Forall benign before /\
    (hk_ready h = true \/ of_type "ready" before) /\ (hk_agentPubKey h <> "" \/ of_type "wg-pubkey" before).
Proof.
  assert (forall t, ~ of_type t []) as Hnil by (intros t (m & Hm & _); by apply elem_of_nil in Hm).
  revert h. induction msgs as [|msg msgs IH]; intros h Hh; cbn [awaitSession].
  { split; [by intros [? ?]|]. intros (b & a & E & _ & Hr & Hk). symmetry in E. apply app_nil in E as [-> ->].
    destruct Hr as [Hr|[]%Hnil], Hk as [Hk|[]%Hnil]. by rewrite (proj2 (set_up_iff h)) in Hh. }
  destruct (benign_dec msg) as [Hb|Hb].
  - destruct (onMessage_benign h msg Hb Hh) as (h' & -> & Hr & Hk). destruct (set_up h') eqn:Eh.
    + split; [|by eexists]. intros _. apply set_up_iff in Eh as [Hr' Hk']. exists [msg], msgs. cbn. naive_solver.
    + rewrite IH by done. split.
      * intros (b & a & -> & Hall & Hr' & Hk'). exists (msg :: b), a. rewrite !(of_type_cons _ msg b). cbn. naive_solver.
      * intros (b & a & E & Hall & Hr' & Hk'). destruct b as [|x b].
        { destruct Hr' as [Hr'|[]%Hnil], Hk' as [Hk'|[]%Hnil]. by rewrite (proj2 (set_up_iff h)) in Hh. }
        cbn in E. injection E as <- ->. rewrite (of_type_cons _ msg b) in Hr'; rewrite (of_type_cons _ msg b) in Hk'. apply Forall_cons in Hall as [_ Hall].
        exists b, a. naive_solver.
  - destruct (onMessage_malign h msg Hb Hh) as (e & -> & He). split; [intros [h' E]; by apply He in E|].
    intros (b & a & E & Hall & Hr & Hk). destruct b as [|x b].
    { destruct Hr as [Hr|[]%Hnil], Hk as [Hk|[]%Hnil]. by rewrite (proj2 (set_up_iff h)) in Hh. }
    cbn in E. injection E as <- ->. by apply Forall_cons in Hall as [? _].
Qed.

(** The client and the agent compute the same addresses from an index the agent accepts. *)
Lemma addresses_agree idx a c : sessionAddresses idx = Some (a, c) -> clientAddresses idx = (a, c).
Proof.
  unfold sessionAddresses, clientAddresses. cbn zeta. destruct (idx <? 1)%Z; [by intros [= <- <-]|].
  destruct (254 <? idx)%Z; [done|]. by intros [= <- <-].
Qed.

(** ** The loopback address *)

Lemma octet_range hi lo : (1 <= octet hi lo <= 255)%Z.
Proof. unfold octet. pose proof (Z.mod_pos_bound (hi * 256 + lo) 255). lia. Qed.

(** A machine's address is under the prefix, with neither of its last two numbers zero or beyond 255. *)
Lemma LoopbackAddr_form prefix hubURL machine :
  exists a b, (1 <= a <= 255)%Z /\ (1 <= b <= 255)%Z /\
    LoopbackAddr prefix hubURL machine = prefix +:+ "." +:+ Itoa a +:+ "." +:+ Itoa b.
Proof.
  unfold LoopbackAddr. pose proof (length_sha256 (z_bytes (hubURL +:+ "/" +:+ machine))) as Hl.
  destruct (sha256 _) as [|h0 [|h1 [|h2 [|h3 l]]]]; try done.
  exists (octet h0 h1), (octet h2 h3). split_and!; [apply octet_range..|done].
Qed.

(** ** The reconnect loop *)

(** The delays stay within a second and six and a quarter minutes; the loop ends by itself only when
    the hub rejects the token. *)
Lemma connectLoop_bounds jitter results n attempt :
  (forall i, quarter_jitter (jitter i)) ->
  let '(delays, fatal) := connectLoop jitter results n attempt in
  Forall (fun d => second <= d <= 375 * second)%Z delays /\ (fatal = true <-> SFatal ∈ results).
Proof.
  intros Hj. revert n attempt. induction results as [|r results IH]; intros n attempt; cbn [connectLoop].
  { split; [constructor|]. split; [done|]. intros H. by apply elem_of_nil in H. }
  destruct r; [|split; [constructor|split; [by left|done]]|].
  - specialize (IH (S n) 1%nat). destruct (connectLoop _ _ _ _) as [ds fatal]. destruct IH as [Hd Hf].
    split; [constructor; [by apply delay_bounds|done]|]. rewrite Hf, elem_of_cons. naive_solver.
  - specialize (IH (S n) (S attempt)). destruct (connectLoop _ _ _ _) as [ds fatal]. destruct IH as [Hd Hf].
    split; [constructor; [by apply delay_bounds|done]|]. rewrite Hf, elem_of_cons. naive_solver.
Qed.
