(* ===== verification/TunnelBridge.v ===== *)
(** * The bridge between the client's listeners and its tunnels ([internal/client/client.go])

    Listeners outlive sessions: a [tunnelBridge] holds the tunnel of the session that is up, and a
    dial that finds none waits on a channel the next session closes.  Sessions and dials run at the
    same time; the model is a world of one bridge and any number of dials, and an event is one
    critical section or one blocking operation of one of them.  A channel is a number, and is
    closed when it is in [w_closed]. *)

From S2P Require Import Prelude ClientConnect.
From Stdlib Require Import ZArith Lia Ascii String.
From stdpp Require Import base gmap strings list fin_maps sets.

Record tunnelBridge := TunnelBridge {
  tb_tnet : option nat;            (** the tunnel's network stack *)
  tb_agentIP : string;
  tb_ready : nat
}.

(** Where a [DialContext] is. *)
Inductive dialer :=
  | Starting (port : Z)                                    (** at the head of the loop *)
  | Dialing (port : Z) (tnet : nat) (agentIP : string)     (** read a tunnel, inside [DialContextTCPAddrPort] *)
  | Failed (port : Z)                                      (** the dial failed, the context is alive *)
  | Waiting (port : Z) (ready : nat)                       (** in a [select] *)
  | Connected (port : Z) (tnet : nat) (agentIP : string)
  | Cancelled.

Record world := World {
  w_bridge : tunnelBridge;
  w_closed : gset nat;
  w_next : nat;                    (** channels are made from here on *)
  w_stopped : bool;                (** the context of all dials is done *)
  w_dialers : gmap nat dialer
}.

Definition newTunnelBridge : world := World (TunnelBridge None EmptyString 0) ∅ 1 false ∅.

Definition SetTunnel (tnet : nat) (agentIP : string) (w : world) : world :=
  let ready := tb_ready (w_bridge w) in
  if decide (ready ∈ w_closed w) then
    World (TunnelBridge (Some tnet) agentIP (w_next w)) ({[ w_next w ]} ∪ w_closed w) (S (w_next w)) (w_stopped w) (w_dialers w)
  else World (TunnelBridge (Some tnet) agentIP ready) ({[ ready ]} ∪ w_closed w) (w_next w) (w_stopped w) (w_dialers w).

Definition ClearTunnel (w : world) : world :=
  World (TunnelBridge None EmptyString (w_next w)) (w_closed w) (S (w_next w)) (w_stopped w) (w_dialers w).

Definition with_dialer (i : nat) (d : dialer) (w : world) : world :=
  World (w_bridge w) (w_closed w) (w_next w) (w_stopped w) (<[i := d]> (w_dialers w)).

Inductive event :=
  | ESet (tnet : nat) (agentIP : string)
  | EClear
  | EStop
  | EAccept (i : nat) (remotePort : Z)      (** a local connection: its dial starts *)
  | ERead (i : nat)                         (** reads the bridge *)
  | EDialed (i : nat) (ok : bool)           (** the tunnel's network answers *)
  | EReread (i : nat)                       (** reads the channel again after a failure *)
  | EWake (i : nat)                         (** the channel is closed *)
  | ECancel (i : nat).                      (** the context is done *)

(** One event; [None] when it cannot happen there. *)
Definition step (e : event) (w : world) : option world :=
  match e with
  | ESet tnet agentIP => Some (SetTunnel tnet agentIP w)
  | EClear => Some (ClearTunnel w)
  | EStop => Some (World (w_bridge w) (w_closed w) (w_next w) true (w_dialers w))
  | EAccept i port =>
      match w_dialers w !! i with
      | None => Some (with_dialer i (Starting port) w)
      | Some _ => None
      end
  | ERead i =>
      match w_dialers w !! i with
      | Some (Starting port) =>
          Some (with_dialer i (match tb_tnet (w_bridge w) with
                               | Some tnet => Dialing port tnet (tb_agentIP (w_bridge w))
                               | None => Waiting port (tb_ready (w_bridge w))
                               end) w)
      | _ => None
      end
  | EDialed i ok =>
      match w_dialers w !! i with
      | Some (Dialing port tnet agentIP) =>
          Some (with_dialer i (if ok then Connected (u16 port) tnet agentIP
                               else if w_stopped w then Cancelled else Failed port) w)
      | _ => None
      end
  | EReread i =>
      match w_dialers w !! i with
      | Some (Failed port) => Some (with_dialer i (Waiting port (tb_ready (w_bridge w))) w)
      | _ => None
      end
  | EWake i =>
      match w_dialers w !! i with
      | Some (Waiting port ready) => if decide (ready ∈ w_closed w) then Some (with_dialer i (Starting port) w) else None
      | _ => None
      end
  | ECancel i =>
      match w_dialers w !! i with
      | Some (Waiting _ _) => if w_stopped w then Some (with_dialer i Cancelled w) else None
      | _ => None
      end
  end.

Fixpoint run (evs : list event) (w : world) : option world :=
  match evs with
  | [] => Some w
  | e :: evs => step e w ≫= run evs
  end.

(** A bridge belongs to one caller of [runSession], which installs one tunnel and clears it before it
    returns; its runs follow one another. *)
Definition in_order (w : world) (e : event) : Prop :=
  match e with
  | ESet _ _ => tb_tnet (w_bridge w) = None
  | EClear => tb_tnet (w_bridge w) <> None
  | _ => True
  end.

Inductive reach : list event -> world -> Prop :=
  | reach_new : reach [] newTunnelBridge
  | reach_step evs w e w' : reach evs w -> in_order w e -> step e w = Some w' -> reach (evs ++ [e]) w'.

#[export] Instance in_order_dec w e : Decision (in_order w e).
Proof. destruct e; cbn; apply _. Defined.

Fixpoint ordered (evs : list event) (w : world) : option world :=
  match evs with
  | [] => Some w
  | e :: evs => if decide (in_order w e) then step e w ≫= ordered evs else None
  end.

(** ** Properties *)

Lemma reach_ordered evs w evs' w' : reach evs w -> ordered evs' w = Some w' -> reach (evs ++ evs') w'.
Proof.
  revert evs w. induction evs' as [|e evs' IH]; intros evs w Hr; cbn [ordered].
  - intros [= <-]. by rewrite app_nil_r.
  - case_decide as Ho; [|done]. destruct (step e w) as [w1|] eqn:Es; [|done]. cbn [mbind option_bind]. intros H.
    change (evs ++ e :: evs') with (evs ++ [e] ++ evs'). rewrite app_assoc. apply (IH _ w1); [|done].
    by eapply reach_step.
Qed.

Definition waits_on (d : dialer) : option nat := match d with Waiting _ ready => Some ready | _ => None end.

Record bridge_inv (w : world) : Prop := BridgeInv {
  bi_next : forall c, c ∈ w_closed w -> c < w_next w;
  bi_ready : tb_ready (w_bridge w) < w_next w;
  bi_up : tb_tnet (w_bridge w) <> None <-> tb_ready (w_bridge w) ∈ w_closed w;
  bi_waits : forall i d ch, w_dialers w !! i = Some d -> waits_on d = Some ch ->
    ch ∈ w_closed w \/ ch = tb_ready (w_bridge w)
}.

(** A dial's own step keeps the invariant if it waits, if it does, on the channel of the bridge. *)
Lemma inv_with_dialer i d w :
  bridge_inv w -> (forall ch, waits_on d = Some ch -> ch = tb_ready (w_bridge w)) -> bridge_inv (with_dialer i d w).
Proof.
  intros [Hn Hr Hu Hw] Hd. split; cbn; [done..|]. intros j d' ch. rewrite lookup_insert. case_decide; [|apply Hw].
  intros [= <-] Hch. right. by apply Hd.
Qed.

Lemma step_inv e w w' : bridge_inv w -> in_order w e -> step e w = Some w' -> bridge_inv w'.
Proof.
  intros Hi Ho. pose proof Hi as [Hn Hr Hu Hw]. destruct e as [t ip| | |i p|i|i ok|i|i|i]; cbn [step in_order] in *.
  - intros [= <-]. assert (tb_ready (w_bridge w) ∉ w_closed w) as Hnot by (rewrite <- Hu, Ho; naive_solver).
    unfold SetTunnel. rewrite decide_False by done. split; cbn.
    + intros c [->%elem_of_singleton|Hc]%elem_of_union; [done|by apply Hn].
    + done.
    + split; [intros _; set_solver|done].
    + intros i d ch Hd Hch. destruct (Hw _ _ _ Hd Hch); [left; set_solver|by right].
  - intros [= <-]. apply Hu in Ho. split; cbn.
    + intros c Hc%Hn. lia.
    + lia.
    + split; [done|]. intros Hc%Hn. lia.
    + intros i d ch Hd Hch. destruct (Hw _ _ _ Hd Hch) as [?| ->]; by left.
  - intros [= <-]. by split.
  - destruct (_ !! i); [done|]. intros [= <-]. by apply inv_with_dialer.
  - destruct (_ !! i) as [[]|]; try done. intros [= <-]. apply inv_with_dialer; [done|].
    destruct (tb_tnet _); cbn; congruence.
  - destruct (_ !! i) as [[]|]; try done. intros [= <-]. apply inv_with_dialer; [done|].
    destruct ok; [done|]. by destruct (w_stopped w).
  - destruct (_ !! i) as [[]|]; try done. intros [= <-]. apply inv_with_dialer; [done|]. cbn; congruence.
  - destruct (_ !! i) as [[]|]; try done. case_decide; [|done]. intros [= <-]. by apply inv_with_dialer.
  - destruct (_ !! i) as [[]|]; try done. destruct (w_stopped w); [|done]. intros [= <-]. by apply inv_with_dialer.
Qed.

Lemma reach_inv evs w : reach evs w -> bridge_inv w.
Proof.
  induction 1 as [|evs w e w' _ IH Ho Hs]; [|by eapply step_inv].
  split; cbn; [set_solver|lia|set_solver|intros i d ch Hd; by rewrite lookup_empty in Hd].
Qed.

(** The events of one dial that are not its end by the context. *)
Definition own (i : nat) (e : event) : bool :=
  match e with
  | ERead j | EDialed j _ | EReread j | EWake j => (i =? j)%nat
  | _ => false
  end.

Definition asked (d : dialer) : option Z :=
  match d with Starting p | Dialing p _ _ | Failed p | Waiting p _ => Some p | _ => None end.

Lemma with_dialer_twice i d d' w : with_dialer i d (with_dialer i d' w) = with_dialer i d w.
Proof. unfold with_dialer. cbn. by rewrite insert_insert_eq. Qed.

Lemma with_dialer_lookup i d w : w_dialers (with_dialer i d w) !! i = Some d.
Proof. apply lookup_insert_eq. Qed.

(** Events that leave the session and the context as they are. *)
Definition calm (e : event) : bool := match e with ESet _ _ | EClear | EStop => false | _ => true end.
Definition own_steps (i : nat) (evs : list event) : nat := length (filter (fun e => own i e = true) evs).

(** How many of its own steps a dial is away from the port, when the tunnel that is up does not refuse
    it; only a dial through an earlier tunnel is as many as five. *)
Definition distance (b : tunnelBridge) (d : dialer) : nat :=
  match d with
  | Starting _ => 2
  | Dialing _ t ip => if decide (tb_tnet b = Some t /\ tb_agentIP b = ip) then 1 else 5
  | Failed _ => 4
  | Waiting _ _ => 3
  | Connected _ _ _ | Cancelled => 0
  end.

(** The dial is through to the port it asked for, by the tunnel that is up or by the one it had read. *)
Definition through (i : nat) (p : Z) (d : dialer) (w w' : world) : Prop :=
  exists t ip, w_dialers w' !! i = Some (Connected (u16 p) t ip) /\
    ((tb_tnet (w_bridge w) = Some t /\ tb_agentIP (w_bridge w) = ip) \/ d = Dialing p t ip).
(** The tunnel that is up refused it. *)
Definition refused (i : nat) (p : Z) (evs : list event) (w : world) : Prop :=
  exists before after w1 t, evs = before ++ EDialed i false :: after /\ run before w = Some w1 /\
    tb_tnet (w_bridge w) = Some t /\ w_dialers w1 !! i = Some (Dialing p t (tb_agentIP (w_bridge w))).

Lemma refused_later i p evs e w w' :
  step e w = Some w' -> w_bridge w' = w_bridge w -> refused i p evs w' -> refused i p (e :: evs) w.
Proof.
  intros Hs Hb (l1 & l2 & w1 & t & -> & Hrun & Ht & Hd). rewrite Hb in *. exists (e :: l1), l2, w1, t.
  split_and!; try done. cbn [run]. by rewrite Hs.
Qed.

(** A dial that is on its way has a step to take. *)
Lemma dial_enabled i d p t w :
  bridge_inv w -> tb_tnet (w_bridge w) = Some t -> w_dialers w !! i = Some d -> asked d = Some p ->
  exists e, own i e = true /\ is_Some (step e w).
Proof.
  intros Hi Ht Hd Hp. destruct d as [q|q t' ip|q|q ch|q t' ip|]; try done.
  - exists (ERead i). cbn. rewrite Nat.eqb_refl, Hd. split; [done|by eexists].
  - exists (EDialed i true). cbn. rewrite Nat.eqb_refl, Hd. split; [done|by eexists].
  - exists (EReread i). cbn. rewrite Nat.eqb_refl, Hd. split; [done|by eexists].
  - exists (EWake i). cbn. rewrite Nat.eqb_refl, Hd. split; [done|].
    rewrite decide_True; [by eexists|]. destruct (bi_waits w Hi _ _ ch Hd eq_refl) as [?| ->]; [done|].
    apply (bi_up w Hi). by rewrite Ht.
Qed.

Ltac mine_or_not :=
  lazymatch goal with
  | |- context [(?i =? ?j)%nat] => destruct (Nat.eqb_spec i j) as [<-|?]
  | _ => idtac
  end.

(** A step that leaves the session alone: another's leaves the dial alone; its own brings it nearer, or
    through, or is a refusal. *)
Lemma calm_step i p d t e w w' :
  bridge_inv w -> tb_tnet (w_bridge w) = Some t -> w_stopped w = false -> w_dialers w !! i = Some d -> asked d = Some p ->
  calm e = true -> step e w = Some w' ->
  w_bridge w' = w_bridge w /\ w_stopped w' = false /\
  if own i e then
    through i p d w w' \/ (e = EDialed i false /\ d = Dialing p t (tb_agentIP (w_bridge w))) \/
    exists d', w_dialers w' !! i = Some d' /\ asked d' = Some p /\ distance (w_bridge w) d' < distance (w_bridge w) d /\
      forall t' ip, d' = Dialing p t' ip -> tb_tnet (w_bridge w) = Some t' /\ tb_agentIP (w_bridge w) = ip
  else w_dialers w' !! i = Some d.
Proof.
  intros Hi Ht Hs Hd Hp Hc. destruct e as [?? | | |j q|j|j ok|j|j|j]; try done; cbn [step own].
  all: mine_or_not.
  - destruct (w_dialers w !! j) eqn:Ej; [done|]. intros [= <-]. split_and!; [done..|]. cbn. rewrite lookup_insert_ne; [done|congruence].
  - rewrite Hd. destruct d; try done. injection Hp as ->. rewrite Ht. intros [= <-]. split_and!; [done..|]. right; right.
    eexists. split; [apply with_dialer_lookup|]. split; [done|]. cbn [distance]. rewrite decide_True by done. split; [lia|].
    by intros ?? [= <- <-].
  - destruct (w_dialers w !! j) as [[]|]; try done. intros [= <-]. split_and!; [done..|]. cbn. by rewrite lookup_insert_ne.
  - rewrite Hd. destruct d as [|q t' ip| | | |]; try done. injection Hp as ->. rewrite Hs. destruct ok; intros [= <-]; (split_and!; [done..|]).
    + left. exists t', ip. split; [apply with_dialer_lookup|by right].
    + destruct (decide (tb_tnet (w_bridge w) = Some t' /\ tb_agentIP (w_bridge w) = ip)) as [[Et <-]|Hold].
      * right; left. split; [done|]. congruence.
      * right; right. eexists. split; [apply with_dialer_lookup|]. cbn [distance asked]. rewrite decide_False by done.
        split; [done|]. split; [lia|done].
  - destruct (w_dialers w !! j) as [[]|]; try done. intros [= <-]. split_and!; [done..|]. cbn. by rewrite lookup_insert_ne.
  - rewrite Hd. destruct d; try done. injection Hp as ->. intros [= <-]. split_and!; [done..|]. right; right.
    eexists. split; [apply with_dialer_lookup|]. cbn [distance asked]. split; [done|]. split; [lia|done].
  - destruct (w_dialers w !! j) as [[]|]; try done. intros [= <-]. split_and!; [done..|]. cbn. by rewrite lookup_insert_ne.
  - rewrite Hd. destruct d; try done. injection Hp as ->. case_decide; [|done]. intros [= <-]. split_and!; [done..|]. right; right.
    eexists. split; [apply with_dialer_lookup|]. cbn [distance asked]. split; [done|]. split; [lia|done].
  - destruct (w_dialers w !! j) as [[]|]; try done. case_decide; [|done]. intros [= <-]. split_and!; [done..|]. cbn. by rewrite lookup_insert_ne.
  - destruct (w_dialers w !! j) as [[]|]; try done. by rewrite Hs.
Qed.

(** Over, it stays over. *)
Lemma through_stays i p d w w1 evs w2 :
  through i p d w w1 -> run evs w1 = Some w2 -> through i p d w w2.
Proof.
  revert w1. induction evs as [|e evs IH]; intros w1 Hth; cbn [run]; [by intros [= <-]|].
  destruct (step e w1) as [w1'|] eqn:Hs; [|done]. cbn [mbind option_bind]. apply IH.
  destruct Hth as (t & ip & Hd & Hor). exists t, ip. split; [|done]. clear IH Hor.
  destruct e as [?? | | |j q|j|j ok|j|j|j]; cbn [step] in Hs; try (injection Hs as <-; cbn; try done).
  { unfold SetTunnel. by case_decide. }
  { destruct (w_dialers w1 !! j) eqn:Ej; [done|]. injection Hs as <-. cbn. rewrite lookup_insert_ne; [done|congruence]. }
  all: destruct (decide (i = j)) as [<-|]; [by rewrite Hd in Hs|]; destruct (w_dialers w1 !! j) as [[]|]; try done.
  all: try (case_decide; [|done]); try (destruct (w_stopped w1); [|done]); injection Hs as <-; cbn; by rewrite lookup_insert_ne.
Qed.

Lemma gets_through i p evs : forall d w w' t,
  bridge_inv w -> tb_tnet (w_bridge w) = Some t -> w_stopped w = false -> w_dialers w !! i = Some d -> asked d = Some p ->
  Forall (fun e => calm e = true) evs -> run evs w = Some w' -> distance (w_bridge w) d <= own_steps i evs ->
  through i p d w w' \/ refused i p evs w.
Proof.
  induction evs as [|e evs IH]; intros d w w' t Hi Ht Hs Hd Hp Hc Hrun Hdist.
  { destruct d; try done; cbn in Hdist; try lia. case_decide; lia. }
  apply Forall_cons in Hc as [He Hc]. cbn [run] in Hrun. destruct (step e w) as [w1|] eqn:Hst; [|done].
  cbn [mbind option_bind] in Hrun.
  assert (bridge_inv w1) as Hi1 by (eapply step_inv; [exact Hi| |exact Hst]; by destruct e).
  destruct (calm_step i p d t e w w1 Hi Ht Hs Hd Hp He Hst) as (Hb & Hs1 & Hown).
  unfold own_steps in Hdist. rewrite filter_cons in Hdist. fold (own_steps i evs) in Hdist.
  assert (forall d', (d' = d \/ forall t' ip, d' = Dialing p t' ip -> tb_tnet (w_bridge w) = Some t' /\ tb_agentIP (w_bridge w) = ip) ->
    through i p d' w1 w' \/ refused i p evs w1 -> through i p d w w' \/ refused i p (e :: evs) w) as Hback.
  { intros d' Hd' [(t' & ip & Hc' & Hor)|Hr]; [left|right; by eapply refused_later].
    exists t', ip. split; [done|]. rewrite Hb in Hor. destruct Hor as [?|E]; [by left|].
    destruct Hd' as [<-|Hd']; [by right|left; by apply Hd']. }
  destruct (own i e) eqn:Ho.
  - rewrite decide_True in Hdist by done. cbn [length] in Hdist.
    destruct Hown as [Hth|[[-> ->]|(d' & Hd' & Hp' & Hlt & Hdial)]].
    + left. by eapply through_stays.
    + right. exists [], evs, w, t. by split_and!.
    + apply (Hback d'); [by right|]. apply (IH d' w1 w' t); try done; [by rewrite Hb|]. rewrite Hb. unfold own_steps in *. lia.
  - rewrite decide_False in Hdist by congruence. apply (Hback d); [by left|].
    apply (IH d w1 w' t); try done; by rewrite Hb.
Qed.

Lemma distance_five b d : distance b d <= 5.
Proof. destruct d; cbn; try lia. case_decide; lia. Qed.

(** C27. No dial is left behind: in every state the sessions and dials can reach, a dial that is not over
    waits, if it waits, for a channel that is closed already or that the next session closes.  While a
    tunnel is up nothing holds it: it has a step of its own to take; and however the steps of all dials
    interleave from there, by the fifth of its own it is through to the port it asked for, by the tunnel
    that is up or by the one it had read, or has been refused by the tunnel that is up. *)
Theorem no_dial_stranded evs w i d p :
  reach evs w -> w_dialers w !! i = Some d -> asked d = Some p -> w_stopped w = false ->
  (forall ch, waits_on d = Some ch -> ch ∈ w_closed w \/ forall t ip, ch ∈ w_closed (SetTunnel t ip w)) /\
  (forall t, tb_tnet (w_bridge w) = Some t ->
     (exists e, own i e = true /\ is_Some (step e w)) /\
     forall evs' w', Forall (fun e => calm e = true) evs' -> run evs' w = Some w' -> 5 <= own_steps i evs' ->
       through i p d w w' \/ refused i p evs' w).
Proof.
  intros Hr Hd Hp Hs. pose proof (reach_inv _ _ Hr) as Hi. split.
  - intros ch Hch. destruct (bi_waits w Hi _ _ _ Hd Hch) as [?| ->]; [by left|].
    destruct (decide (tb_ready (w_bridge w) ∈ w_closed w)); [by left|]. right. intros t ip.
    unfold SetTunnel. rewrite decide_False by done. cbn. set_solver.
  - intros t Ht. split; [by eapply dial_enabled|]. intros evs' w' Hc Hrun Hn.
    eapply gets_through; try done. etrans; [apply distance_five|exact Hn].
Qed.

(** A dial through a tunnel went to the port its local connection asked for, through a tunnel some
    session installed. *)
Definition dial_inv (evs : list event) (w : world) : Prop :=
  (forall t, tb_tnet (w_bridge w) = Some t -> ESet t (tb_agentIP (w_bridge w)) ∈ evs) /\
  forall i d, w_dialers w !! i = Some d ->
    (forall p, asked d = Some p -> EAccept i p ∈ evs) /\
    (forall p t ip, d = Dialing p t ip -> ESet t ip ∈ evs) /\
    (forall q t ip, d = Connected q t ip -> ESet t ip ∈ evs /\ exists p, q = u16 p /\ EAccept i p ∈ evs).

Lemma dial_inv_own evs e i d w :
  dial_inv evs w ->
  (forall p, asked d = Some p -> EAccept i p ∈ evs ++ [e]) ->
  (forall p t ip, d = Dialing p t ip -> ESet t ip ∈ evs ++ [e]) ->
  (forall q t ip, d = Connected q t ip -> ESet t ip ∈ evs ++ [e] /\ exists p, q = u16 p /\ EAccept i p ∈ evs ++ [e]) ->
  dial_inv (evs ++ [e]) (with_dialer i d w).
Proof.
  intros [Ht Hd] H1 H2 H3. split; cbn; [intros t Hb; apply elem_of_app; left; by apply Ht|].
  intros j d'. rewrite lookup_insert. case_decide as E; [intros [= <-]; by subst j|]. intros Hj.
  destruct (Hd _ _ Hj) as (A & B & C). setoid_rewrite elem_of_app. naive_solver.
Qed.

Lemma dial_inv_same evs e w w' :
  dial_inv evs w -> w_dialers w' = w_dialers w ->
  (forall t, tb_tnet (w_bridge w') = Some t -> ESet t (tb_agentIP (w_bridge w')) ∈ evs ++ [e]) -> dial_inv (evs ++ [e]) w'.
Proof.
  intros [_ Hd] E Ht. split; [done|]. intros i d. rewrite E. intros Hi. destruct (Hd _ _ Hi) as (A & B & C).
  setoid_rewrite elem_of_app. naive_solver.
Qed.

Lemma reach_dials evs w : reach evs w -> dial_inv evs w.
Proof.
  induction 1 as [|evs w e w' _ IH _ Hs]; [by split|]. pose proof IH as [Ht Hd].
  assert (forall x, x ∈ evs -> x ∈ evs ++ [e]) as Hold by (intros x Hx; apply elem_of_app; by left).
  destruct e as [t ip| | |i p|i|i ok|i|i|i]; cbn [step] in Hs.
  - injection Hs as <-. assert (ESet t ip ∈ evs ++ [ESet t ip]) by (apply elem_of_app; right; by left).
    unfold SetTunnel. case_decide; (apply (dial_inv_same _ _ w); [done|done|]); cbn; by intros ? [= <-].
  - injection Hs as <-. by apply (dial_inv_same _ _ w).
  - injection Hs as <-. apply (dial_inv_same _ _ w); [done|done|]. cbn. intros t Hb. by apply Hold, Ht.
  - destruct (_ !! i); [done|]. injection Hs as <-. apply dial_inv_own; [done| |done..].
    intros q [= <-]. apply elem_of_app. right. by left.
  - destruct (_ !! i) as [[]|] eqn:Ei; try done. injection Hs as <-. destruct (Hd _ _ Ei) as (A & _ & _).
    apply dial_inv_own; [done|..]; destruct (tb_tnet _) as [t|] eqn:Eb; try done; naive_solver.
  - destruct (_ !! i) as [[]|] eqn:Ei; try done. injection Hs as <-. destruct (Hd _ _ Ei) as (A & B & _).
    apply dial_inv_own; [done|..]; destruct ok; try done; destruct (w_stopped w); naive_solver.
  - destruct (_ !! i) as [[]|] eqn:Ei; try done. injection Hs as <-. destruct (Hd _ _ Ei) as (A & _ & _).
    apply dial_inv_own; [done|naive_solver..].
  - destruct (_ !! i) as [[]|] eqn:Ei; try done. case_decide; [|done]. injection Hs as <-. destruct (Hd _ _ Ei) as (A & _ & _).
    apply dial_inv_own; [done|naive_solver..].
  - destruct (_ !! i) as [[]|] eqn:Ei; try done. destruct (w_stopped w); [|done]. injection Hs as <-.
    by apply dial_inv_own.
Qed.

(** While the port is refused, the dial goes round: four steps lead back to the very same state, and
    none of them waits for anything. *)
Lemma refused_spins evs w i p t ip :
  reach evs w -> w_stopped w = false -> tb_tnet (w_bridge w) = Some t -> tb_agentIP (w_bridge w) = ip ->
  w_dialers w !! i = Some (Dialing p t ip) ->
  run [EDialed i false; EReread i; EWake i; ERead i] w = Some w.
Proof.
  intros Hr Hs Ht Hip Hd. pose proof (reach_inv _ _ Hr) as Hi. cbn [run step]. rewrite Hd, Hs. cbn [mbind option_bind].
  rewrite with_dialer_lookup. cbn [mbind option_bind]. rewrite with_dialer_lookup.
  rewrite decide_True by (apply (bi_up w Hi); cbn; by rewrite Ht). cbn [mbind option_bind].
  rewrite with_dialer_lookup. cbn. rewrite Ht, Hip, !with_dialer_twice. unfold with_dialer. rewrite insert_id by done. by destruct w.
Qed.

(** ** Evaluated *)

(** Two connections arrive before the first session, one is refused by its end, and the second session
    serves both. *)
Definition demo_events : list event :=
  [EAccept 1 22; EAccept 2 65616; ERead 1; ERead 2; ESet 7 "10.77.1.1"; EWake 1; ERead 1; EClear;
   EDialed 1 false; EReread 1; ESet 8 "10.77.2.1"; EWake 2; ERead 2].

Definition demo_world : world :=
  World (TunnelBridge (Some 8) "10.77.2.1" 1) {[0; 1]} 2 false
    {[ 1 := Waiting 22 1; 2 := Dialing 65616 8 "10.77.2.1" ]}.

Lemma demo_reached : reach demo_events demo_world.
Proof. apply (reach_ordered [] newTunnelBridge demo_events demo_world reach_new). by vm_compute. Qed.

(** The first is woken, dials and gets through, while the second is refused and tries again. *)
Definition demo_more : list event :=
  [EWake 1; EDialed 2 false; ERead 1; EReread 2; EWake 2; EDialed 1 true; ERead 2; EDialed 2 true].

(** Five steps of the second dial's own, one of them the refusal. *)
Lemma no_dial_stranded_witness :
  exists w', run demo_more demo_world = Some w' /\
    (through 2 65616 (Dialing 65616 8 "10.77.2.1") demo_world w' \/ refused 2 65616 demo_more demo_world).
Proof.
  destruct (run demo_more demo_world) as [w'|] eqn:E; [exists w'; split; [done|]|by vm_compute in E].
  destruct (no_dial_stranded demo_events demo_world 2 (Dialing 65616 8 "10.77.2.1") 65616 demo_reached eq_refl eq_refl eq_refl)
    as [_ H]. destruct (H 8 eq_refl) as [_ Hall]. apply Hall; [|exact E|].
  - repeat constructor.
  - apply Nat.leb_le. vm_compute. reflexivity.
Defined.

(** Clearing twice, which no session does, leaves a dial behind: its channel is not closed any more. *)
Example cleared_twice_strands :
  option_map (fun w => (bool_decide (0 ∈ w_closed w), tb_tnet (w_bridge w), w_dialers w !! 1))
    (run [EAccept 1 22; ERead 1; EClear; ESet 7 "10.77.1.1"] newTunnelBridge) =
  Some (false, Some 7, Some (Waiting 22 0)).
Proof. by vm_compute. Qed.
