(* ===== verification/ClientConfig.v ===== *)
(** * The client's hubs and credentials ([internal/client/client.go])

    Named hub directories ([config.yaml]), local hub names ([hubs.yaml]), how a hub reference becomes
    a URL, and the commands that keep both and the credential store.  The files are [FileSys] files
    under a codec for YAML; the network is a function from a URL and a bearer token to the answer. *)

From S2P Require Import Prelude Http FilePath FileSys Credstore CertPin PortalClient ClientConnect.
From Stdlib Require Import ZArith Lia Ascii String.
From stdpp Require Import base gmap strings list fin_maps sorting.

(** The answer to a GET: the status and the body; [None] when there is none. *)
Definition fetch := string -> string -> option (Z * reqBody).

(** ** URLs *)

Definition ensureWSScheme (u : string) : string :=
  let lower := to_lower u in
  if has_prefix lower "ws://" || has_prefix lower "wss://" then u
  else if has_prefix lower "http://" then "ws://" +:+ of_bytes (drop 7 (bytes u))
  else if has_prefix lower "https://" then "wss://" +:+ of_bytes (drop 8 (bytes u))
  else "wss://" +:+ u.

(** ** hubs.yaml *)

Record hubEntry := HubEntry { he_URL : string; he_Pin : string }.

(** A value in the [hubs] mapping: the structured shape, a text, or nothing. *)
Inductive hubNode := HubMapping (e : hubEntry) | HubScalar (s : string) | HubNone.
Definition structured (n : hubNode) : option hubEntry :=
  match n with HubMapping e => Some e | HubNone => Some (HubEntry "" "") | HubScalar _ => None end.
Definition flat (n : hubNode) : option hubEntry :=
  match n with HubScalar s => Some (HubEntry s "") | HubNone => Some (HubEntry "" "") | HubMapping _ => None end.

(** A mapping decodes when each of its values does. *)
Definition decodeAll (dec : hubNode -> option hubEntry) (nodes : gmap string hubNode) : option (gmap string hubEntry) :=
  if decide (map_Forall (fun _ n => is_Some (dec n)) nodes) then Some (omap dec nodes) else None.

(** [hubsConfig.UnmarshalYAML]: the structured shape, else the flat one of older files. *)
Definition hubsOf (nodes : gmap string hubNode) : option (gmap string hubEntry) :=
  match decodeAll structured nodes with Some m => Some m | None => decodeAll flat nodes end.

(** ** config.yaml *)

Record remoteEntry := RemoteEntry { re_URL : string; re_Token : string; re_HubDirectory : string }.
Record telaConfig := TelaConfig {
  tc_Remotes : gmap string remoteEntry;
  tc_Portal : option (string * string)       (** the old block: URL and token *)
}.

Class ConfigCodec := {
  UnmarshalHubs : list Z -> option (gmap string hubNode);
  MarshalTela : telaConfig -> option (list Z);
  UnmarshalTela : list Z -> option telaConfig;
  unmarshal_tela c d : MarshalTela c = Some d -> UnmarshalTela d = Some c
}.

Definition telaWellKnown (b : reqBody) : option (string * list string) :=
  match json_fields b with
  | Some kvs =>
      let '(dir, ok1) := decode_string "hub_directory" kvs "" true in
      let '(caps, ok2) := decode_strings "capabilities" kvs [] true in
      if ok1 && ok2 then Some (dir, caps) else None
  | None => None
  end.

Record remoteHubEntry := RemoteHubEntry { rh_Name : string; rh_URL : string }.
Definition decode_remoteHub (j : json) : option remoteHubEntry :=
  match struct_fields j with
  | Some kvs =>
      let '(name, ok1) := decode_string "name" kvs "" true in
      let '(url, ok2) := decode_string "url" kvs "" true in
      if ok1 && ok2 then Some (RemoteHubEntry name url) else None
  | None => None
  end.
Definition decode_directory (b : reqBody) : option (list remoteHubEntry) :=
  match json_fields b with Some kvs => decode_slice "hubs" decode_remoteHub kvs | None => None end.

(** https becomes wss, http becomes ws: the first of each. *)
Definition httpToWS (url : string) : string := replace1 (replace1 url "https://" "wss://") "http://" "ws://".

(** The loops [for i { for j > i { if names[i] > names[j] swap } }]: one run of the inner loop takes the
    least to the front. *)
Fixpoint bubble (x : string) (l : list string) : string * list string :=
  match l with
  | [] => (x, [])
  | y :: l =>
      if String.ltb y x then let '(m, l) := bubble y l in (m, x :: l)
      else let '(m, l) := bubble x l in (m, y :: l)
  end.
Fixpoint exchange (n : nat) (l : list string) : list string :=
  match n, l with
  | S n, x :: l => let '(m, l) := bubble x l in m :: exchange n l
  | _, _ => l
  end.
Definition sortNames (l : list string) : list string := exchange (length l) l.

Section client.
  Context {CC : ConfigCodec} `{RangeOrder}.
  (** The network, the environment of the saves, and the two files. *)
  Context (net : fetch) (env : saveEnv) (hubsPath telaPath : string).

Definition loadHubsConfig (fs : fsys) : option (gmap string hubEntry) :=
  match ReadFile fs hubsPath with
  | RdData d => nodes ← UnmarshalHubs d; hubsOf nodes
  | _ => None
  end.

Definition saveTelaConfig (fs : fsys) (cfg : telaConfig) : bool * fsys :=
  writeDoc env fs telaPath (MarshalTela (TelaConfig (tc_Remotes cfg) None)).

(** The old block becomes the remote [portal] unless there is one, and the file is written. *)
Definition loadTelaConfig (fs : fsys) : option telaConfig * fsys :=
  match ReadFile fs telaPath with
  | RdData d =>
      match UnmarshalTela d with
      | None => (None, fs)
      | Some cfg =>
          match tc_Portal cfg with
          | Some (url, token) =>
              if url =s "" then (Some cfg, fs)
              else
                let remotes := match tc_Remotes cfg !! "portal" with
                               | Some _ => tc_Remotes cfg
                               | None => <["portal" := RemoteEntry url token ""]> (tc_Remotes cfg)
                               end in
                let cfg := TelaConfig remotes None in
                (Some cfg, snd (saveTelaConfig fs cfg))
          | None => (Some cfg, fs)
          end
      end
  | _ => (None, fs)
  end.

(** ** Discovery *)

Definition hubDirectoryDefault : string := "/api/hubs".
Definition discoverHubDirectory (baseURL token : string) : string :=
  match net (trim_slashes baseURL +:+ "/.well-known/tela") token with
  | Some (status, body) =>
      if (status =? 200)%Z then
        match telaWellKnown body with
        | Some (dir, _) => if dir =s "" then hubDirectoryDefault else dir
        | None => hubDirectoryDefault
        end
      else hubDirectoryDefault
  | None => hubDirectoryDefault
  end.

Definition fetchHubCapabilities (baseURL token : string) : option (list string) :=
  match net (wsToHTTP baseURL +:+ "/.well-known/tela") token with
  | Some (status, body) => if (status =? 200)%Z then snd <$> telaWellKnown body else None
  | None => None
  end.
Definition hubHasCapability (caps : list string) (name : string) : bool := existsb (fun c => c =s name) caps.

(** ** From a name to a URL *)

Inductive queryErr := QUnreachable | QUnauthorized | QStatus (code : Z) | QInvalid | QNotFound.

Definition queryRemote (remote : remoteEntry) (hubName : string) : queryErr + string :=
  let hubDir := if re_HubDirectory remote =s "" then hubDirectoryDefault else re_HubDirectory remote in
  match net (trim_slashes (re_URL remote) +:+ hubDir) (re_Token remote) with
  | None => inl QUnreachable
  | Some (status, body) =>
      if (status =? 401)%Z then inl QUnauthorized
      else if negb (status =? 200)%Z then inl (QStatus status)
      else match decode_directory body with
           | None => inl QInvalid
           | Some hubs =>
               match find_first (fun h => equal_fold (rh_Name h) hubName) hubs with
               | Some h => inr (httpToWS (rh_URL h))
               | None => inl QNotFound
               end
           end
  end.

(** The remotes one after the other; the error is the last one's. *)
Fixpoint tryRemotes (remotes : gmap string remoteEntry) (names : list string) (hubName : string) (last : queryErr) : queryErr + string :=
  match names with
  | [] => inl last
  | rn :: names =>
      match remotes !! rn with
      | None => tryRemotes remotes names hubName last
      | Some remote =>
          match queryRemote remote hubName with
          | inr url => inr url
          | inl e => tryRemotes remotes names hubName e
          end
      end
  end.

Definition resolveHubFromRemotes (fs : fsys) (name : string) : option string * fsys :=
  match loadTelaConfig fs with
  | (None, fs) => (None, fs)
  | (Some cfg, fs) =>
      match tryRemotes (tc_Remotes cfg) (sortNames (map fst (range (tc_Remotes cfg)))) name QNotFound with
      | inr url => (Some url, fs)
      | inl _ => (None, fs)
      end
  end.

Definition is_ws (value : string) : bool :=
  let lower := to_lower value in has_prefix lower "ws://" || has_prefix lower "wss://".

(** [None] is the error, on which [mustResolveHub] ends the process. *)
Definition resolveHubURL (fs : fsys) (value : string) : option string * fsys :=
  if value =s "" then (Some "", fs)
  else if is_ws value then (Some value, fs)
  else match resolveHubFromRemotes fs value with
       | (Some url, fs) => (Some url, fs)
       | (None, fs) => ((fun e => he_URL e) <$> (loadHubsConfig fs ≫= lookup value), fs)
       end.

(** ** tela remote *)

(** The answer to the question for a token: a line, trimmed. *)
Definition cmdRemoteAdd (fs : fsys) (name url line : string) : bool * fsys :=
  let remoteURL := trim_slashes url in
  let remoteURL := if negb (has_prefix remoteURL "http://") && negb (has_prefix remoteURL "https://")
                   then "https://" +:+ remoteURL else remoteURL in
  let token := trim_space line in
  let hubDirectory := discoverHubDirectory remoteURL token in
  match net (remoteURL +:+ hubDirectory) token with
  | Some (200%Z, _) =>
      let '(cfg, fs) := loadTelaConfig fs in
      let cfg := default (TelaConfig ∅ None) cfg in
      saveTelaConfig fs (TelaConfig (<[name := RemoteEntry remoteURL token hubDirectory]> (tc_Remotes cfg)) (tc_Portal cfg))
  | _ => (false, fs)
  end.

Definition cmdRemoteRemove (fs : fsys) (name : string) : bool * fsys :=
  match loadTelaConfig fs with
  | (None, fs) => (false, fs)
  | (Some cfg, fs) =>
      match tc_Remotes cfg !! name with
      | None => (false, fs)
      | Some _ => saveTelaConfig fs (TelaConfig (delete name (tc_Remotes cfg)) (tc_Portal cfg))
      end
  end.

(** The rows shown: at most the last four bytes of a token. *)
Definition tokenDisplay (token : string) : string :=
  if token =s "" then "(none)"
  else "****" +:+ of_bytes (drop (length (bytes token) - 4) (bytes token)).
Definition cmdRemoteList (fs : fsys) : list (string * string * string) * fsys :=
  match loadTelaConfig fs with
  | (None, fs) => ([], fs)
  | (Some cfg, fs) =>
      (omap (fun n => (fun r => (n, re_URL r, tokenDisplay (re_Token r))) <$> tc_Remotes cfg !! n)
         (sortNames (map fst (range (tc_Remotes cfg)))), fs)
  end.

End client.

(** ** Credentials *)

Section credentials.
  Context {CC : CredCodec} (env : saveEnv) (user system : string).

(** [pinVerifier]: whether a connection is accepted. *)
Definition pinVerifier (fs : fsys) (hubURL : string) (cs : connectionState) : option pinError :=
  let expectedPin := LookupPin fs user system hubURL in
  if expectedPin =s "" then None else Verify cs expectedPin.

Definition cmdLogin (fs : fsys) (url pin tokenLine identityLine : string) : bool * fsys :=
  let hubURL := ensureWSScheme url in
  if (pin <>s "") && match Parse pin with inl _ => true | inr _ => false end then (false, fs)
  else
    let token := trim_space tokenLine in
    if token =s "" then (false, fs)
    else match Load fs user with
         | None => (false, fs)
         | Some store =>
             let pin := if pin <>s "" then Normalize pin
                        else let '(existing, ok) := Get store hubURL in if ok then cr_Pin existing else "" in
             Save env fs (CredSet store hubURL (MkCredential token (trim_space identityLine) pin)) user
         end.

Inductive pinResult := PinShown (pin : string) | PinDone | PinFailed.
(** [fingerprints]: the arguments after the URL. *)
Definition cmdPin (fs : fsys) (url : string) (fingerprints : list string) (clear : bool) : pinResult * fsys :=
  let hubURL := ensureWSScheme url in
  let saved r := let '(ok, fs) := r in (if ok : bool then PinDone else PinFailed, fs) in
  if is_nil fingerprints && negb clear then (PinShown (LookupPin fs user system hubURL), fs)
  else if clear then
    if negb (is_nil fingerprints) then (PinFailed, fs) else saved (SetPin env fs user hubURL "")
  else match fingerprints with
       | [fp] =>
           let pin := Normalize fp in
           match Parse pin with
           | inl _ => (PinFailed, fs)
           | inr _ => saved (SetPin env fs user hubURL pin)
           end
       | _ => (PinFailed, fs)
       end.

(** Nothing stored is no failure. *)
Definition cmdLogout (fs : fsys) (url : string) : bool * fsys :=
  match Load fs user with
  | None => (true, fs)
  | Some store =>
      match CredRemove store (ensureWSScheme url) with
      | (false, _) => (true, fs)
      | (true, store) => Save env fs store user
      end
  end.

(** The request and the URL it goes to; the answer, [None] when there is none. *)
Definition pairURL (url : string) : string := wsToHTTP (ensureWSScheme url) +:+ "/api/pair".
Definition cmdPair (post : string -> json -> option (Z * reqBody)) (fs : fsys) (url code : string) : bool * fsys :=
  if (url =s "") || (code =s "") then (false, fs)
  else match post (pairURL url) (JObj [("code", JStr code)]) with
       | None => (false, fs)
       | Some (status, body) =>
           match json_fields body with
           | None => (false, fs)
           | Some result =>
               if ((status <? 200) || (300 <=? status))%Z then (false, fs)
               else
                 let token := as_string (json_key result "token") in
                 let identity := as_string (json_key result "identity") in
                 if token =s "" then (false, fs)
                 else match Load fs user with
                      | None => (false, fs)
                      | Some store => Save env fs (CredSet store (ensureWSScheme url) (MkCredential token identity "")) user
                      end
           end
       end.

End credentials.
