(* ===== verification/ClientConfigProofs.v ===== *)
(** * Theorems about the client's hubs and credentials ([ClientConfig])

    From a name to a URL, alone and with the portal; what the commands store and what the next
    connection finds. *)

From S2P Require Import Prelude Url Auth Http HubConfig FilePath FileSys Sha256 Credstore CertPin AdminState Pair.
From S2P Require Import PortalProtocol PortalServer PortalE2E PortalClient PortalClientProofs ClientConnect.
From S2P Require Import ClientConfig.
From Stdlib Require Import ZArith Lia Ascii String.
From stdpp Require Import base gmap strings list fin_maps sorting.

(** ** The sort *)

Lemma ltb_le x y : String.ltb y x = false <-> String.le x y.
Proof.
  unfold String.le, String.ltb, String.leb. rewrite String.compare_antisym.
  destruct (x ?= y)%string; cbn; split; try done; intros [].
Qed.

Lemma bubble_spec x l m l' :
  bubble x l = (m, l') -> m :: l' ≡ₚ x :: l /\ String.le m x /\ Forall (String.le m) l'.
Proof.
  revert x m l'. induction l as [|y l IH]; intros x m l'; cbn [bubble].
  { intros [= <- <-]. by split_and!. }
  destruct (String.ltb y x) eqn:E.
  - destruct (bubble y l) as [m1 l1] eqn:Eb. intros [= <- <-]. destruct (IH _ _ _ Eb) as (Hp & Hy & Hf).
    assert (String.le y x) as Hyx.
    { destruct (String.le_total y x) as [?|Hle]; [done|]. apply ltb_le in Hle. congruence. }
    assert (String.le m1 x) as Hm by (by etrans). split_and!; [|done|by constructor].
    by rewrite Permutation_swap, Hp.
  - apply ltb_le in E. destruct (bubble x l) as [m1 l1] eqn:Eb. intros [= <- <-]. destruct (IH _ _ _ Eb) as (Hp & Hx & Hf).
    split_and!; [|done|constructor; [by etrans|done]].
    rewrite Permutation_swap, Hp. apply Permutation_swap.
Qed.

Lemma exchange_spec n l : n = length l -> exchange n l ≡ₚ l /\ StronglySorted String.le (exchange n l).
Proof.
  revert l. induction n as [|n IH]; intros [|x l] Hn; try done; [by repeat constructor|].
  cbn [exchange]. destruct (bubble x l) as [m l'] eqn:Eb. destruct (bubble_spec _ _ _ _ Eb) as (Hp & _ & Hf).
  assert (n = length l') as Hl by (apply Permutation_length in Hp; cbn in *; lia).
  destruct (IH l' Hl) as [Hp' Hs]. split; [by rewrite Hp'|]. constructor; [done|].
  apply Forall_forall. intros y Hy. rewrite Hp' in Hy. rewrite Forall_forall in Hf. by apply Hf.
Qed.

(** The exchange loops sort: the result is the one sorted list of the names, in whatever order they came. *)
Lemma sortNames_sorts l : sortNames l ≡ₚ l /\ StronglySorted String.le (sortNames l).
Proof. by apply exchange_spec. Qed.

(** ** Resolution *)

Section resolution.
  Context {CC : ConfigCodec} {RO : RangeOrder} (net : fetch) (env : saveEnv) (hubsPath telaPath : string).

Lemma tryRemotes_sorted remotes names hubName last :
  StronglySorted String.le names -> (forall n, n ∈ names -> is_Some (remotes !! n)) ->
  forall url, tryRemotes net remotes names hubName last = inr url <->
    exists rn remote, rn ∈ names /\ remotes !! rn = Some remote /\ queryRemote net remote hubName = inr url /\
      forall rn' remote' url', rn' ∈ names -> remotes !! rn' = Some remote' ->
        queryRemote net remote' hubName = inr url' -> String.le rn rn'.
Proof.
  intros Hs. revert last. induction Hs as [|rn names Hs IH Hf]; intros last Hall url; cbn [tryRemotes].
  { split; [done|]. intros (rn & ? & Hin & _). by apply elem_of_nil in Hin. }
  destruct (Hall rn) as [remote Hr]; [by left|]. rewrite Hr. rewrite Forall_forall in Hf.
  destruct (queryRemote net remote hubName) as [e|u] eqn:Eq.
  - rewrite IH by (intros n Hn; apply Hall; by right). split.
    + intros (r & rem & Hin & Hl & Hq & Hleast). exists r, rem. split_and!; [by right|done|done|].
      intros r' rem' u' [->|Hin']%elem_of_cons Hl' Hq'; [congruence|by eapply Hleast].
    + intros (r & rem & [->|Hin]%elem_of_cons & Hl & Hq & Hleast); [congruence|]. exists r, rem. split_and!; [done..|].
      intros r' rem' u' Hin'. apply Hleast. by right.
  - split.
    + intros [= ->]. exists rn, remote. split_and!; [by left|done|done|].
      intros r' rem' u' [->|Hin']%elem_of_cons _ _; [done|by apply Hf].
    + intros (r & rem & [->|Hin]%elem_of_cons & Hl & Hq & Hleast); [congruence|].
      assert (String.le r rn) as Hle by (eapply Hleast; [by left|done|done]).
      assert (r = rn) as -> by (apply (anti_symm String.le); [done|by apply Hf]). congruence.
Qed.

(** The remotes in force. *)
Definition remotesOf (fs : fsys) : gmap string remoteEntry :=
  match fst (loadTelaConfig env telaPath fs) with Some cfg => tc_Remotes cfg | None => ∅ end.

(** The remote answers with the name's URL, and no remote before it in the order of names answers. *)
Definition first_answer (fs : fsys) (name url : string) : Prop :=
  exists rn remote, remotesOf fs !! rn = Some remote /\ queryRemote net remote name = inr url /\
    forall rn' remote' url', remotesOf fs !! rn' = Some remote' -> queryRemote net remote' name = inr url' -> String.le rn rn'.

Lemma resolveHubFromRemotes_spec fs name url :
  fst (resolveHubFromRemotes net env telaPath fs name) = Some url <-> first_answer fs name url.
Proof.
  unfold resolveHubFromRemotes, first_answer, remotesOf. destruct (loadTelaConfig env telaPath fs) as [[cfg|] fs']; cbn [fst].
  2:{ split; [done|]. intros (rn & remote & Hr & _). by rewrite lookup_empty in Hr. }
  set (names := map fst (range (tc_Remotes cfg))). destruct (sortNames_sorts names) as [Hp Hs].
  assert (forall n, n ∈ sortNames names <-> is_Some (tc_Remotes cfg !! n)) as Hn.
  { intros n. rewrite Hp. unfold names. rewrite list_elem_of_fmap. split.
    - intros ([k v] & -> & Hkv%elem_of_range). by exists v.
    - intros [v Hv]. exists (n, v). split; [done|]. by apply elem_of_range. }
  pose proof (tryRemotes_sorted (tc_Remotes cfg) _ name QNotFound Hs (fun n => proj1 (Hn n)) url) as Ht.
  assert (fst match tryRemotes net (tc_Remotes cfg) (sortNames names) name QNotFound with
              | inl _ => (None, fs') | inr u => (Some u, fs') end = Some url <->
          tryRemotes net (tc_Remotes cfg) (sortNames names) name QNotFound = inr url) as ->.
  { destruct (tryRemotes _ _ _ _ _); cbn; naive_solver. }
  rewrite Ht. split.
  - intros (rn & remote & _ & Hr & Hq & Hl). exists rn, remote. split_and!; [done..|].
    intros r' rem' u' Hr'. apply (Hl _ _ _); [|done]. apply Hn. by exists rem'.
  - intros (rn & remote & Hr & Hq & Hl). exists rn, remote. split_and!; [apply Hn; by exists remote|done..|].
    intros r' rem' u' _. apply Hl.
Qed.

Lemma resolveHubFromRemotes_fs fs name : snd (resolveHubFromRemotes net env telaPath fs name) = snd (loadTelaConfig env telaPath fs).
Proof.
  unfold resolveHubFromRemotes. destruct (loadTelaConfig env telaPath fs) as [[cfg|] fs']; [|done].
  by destruct (tryRemotes _ _ _ _ _).
Qed.

(** What a hub reference means: nothing for nothing, a WebSocket URL for itself, and for a name what
    the first remote in the order of the names says that knows it - the order the map of remotes is
    walked in does not matter - and what the local file says when none does. *)
Theorem resolve_spec fs value url :
  fst (resolveHubURL net env hubsPath telaPath fs value) = Some url <->
  (value = "" /\ url = "") \/
  (value <> "" /\ is_ws value = true /\ url = value) \/
  (value <> "" /\ is_ws value = false /\
   (first_answer fs value url \/
    (~ (exists url', first_answer fs value url') /\
     exists hubs e, loadHubsConfig hubsPath (snd (loadTelaConfig env telaPath fs)) = Some hubs /\
       hubs !! value = Some e /\ he_URL e = url))).
Proof.
  unfold resolveHubURL. destruct (bool_decide_reflect (value = "")) as [->|Hne].
  { cbn. split; [intros [= <-]; by left|]. intros [[_ ->]|[[? _]|[? _]]]; done. }
  destruct (is_ws value) eqn:Ew.
  { cbn. split; [intros [= <-]; right; by left|]. intros [[? _]|[(_ & _ & ->)|(_ & ? & _)]]; done. }
  pose proof (resolveHubFromRemotes_spec fs value) as Hspec. pose proof (resolveHubFromRemotes_fs fs value) as Hfs.
  destruct (resolveHubFromRemotes _ _ _ _ _) as [[u|] fs']; cbn [fst snd] in Hspec, Hfs.
  - cbn. split.
    + intros [= <-]. right. right. split_and!; [done..|]. left. by apply Hspec.
    + intros [[? _]|[(_ & ? & _)|(_ & _ & [Hf|[Hno _]])]]; [done|done|by apply Hspec|].
      destruct Hno. exists u. by apply Hspec.
  - cbn [fst]. rewrite <- Hfs. split.
    + destruct (loadHubsConfig hubsPath fs') as [hubs|]; cbn; [|done].
      destruct (hubs !! value) as [e|] eqn:Ee; cbn; [|done]. intros [= <-]. right. right. split_and!; [done..|]. right.
      split; [intros [u' Hu']; by apply Hspec in Hu'|by exists hubs, e].
    + intros [[? _]|[(_ & ? & _)|(_ & _ & [Hf|(_ & hubs & e & -> & He & <-)])]]; [done|done|by apply Hspec in Hf|].
      cbn. by rewrite He.
Qed.

End resolution.

(** ** The portal as a remote *)

(** A GET as the client sends it. *)
Definition getRequest (url token : string) : creq :=
  CReq "GET" url (if token <>s "" then "Bearer " +:+ token else "") "" [] None.

Section portal.
  Context {T E U : Type} {PS : PortalStore T E U} {IL : Interleaving}.
  Context (jsonSize : json -> Z) (up : upreq -> upresult) (penv : E) (st : T).

(** A portal at a base URL as the client's network. *)
Definition portal_fetch (base : string) : fetch := fun url token =>
  (fun p => (pr_Status p, json_of_body (pr_Body p))) <$> o_resp (serve up penv st (wire jsonSize base (getRequest url token))).

Lemma wire_get base path token :
  bool_decide (("?"%char : ascii) ∉ bytes path) = true ->
  exists r, wire jsonSize base (getRequest (base +:+ path) token) = r /\ pq_Method r = "GET" /\ pq_Escaped r = path /\
    pq_Authorization r = (if token <>s "" then "Bearer " +:+ token else "").
Proof.
  intros Hq%bool_decide_eq_true. eexists. split; [reflexivity|]. unfold wire, getRequest. cbn [cq_URL cq_Method cq_Authorization].
  rewrite trim_prefix_app. destruct (cut path "?") as [[a b]|] eqn:Ec; [|done].
  exfalso. apply Hq. apply cut_Some in Ec as ->. rewrite !bytes_app. apply elem_of_app. right. by left.
Qed.

Lemma serve_hubs_list r :
  pq_Method r = "GET" -> pq_Escaped r = HubDirectoryPath -> serve up penv st r = handleHubsList st r.
Proof. intros Hm Hp. unfold serve, mux. by rewrite Hm, Hp. Qed.

Lemma serve_well_known r :
  pq_Method r = "GET" -> pq_Escaped r = "/.well-known/tela" -> serve up penv st r = handleWellKnown st r.
Proof. intros Hm Hp. unfold serve, mux. by rewrite Hm, Hp. Qed.

(** What the portal announces is the directory the client asks for. *)
Lemma portal_discovered base token :
  trim_slashes base = base -> discoverHubDirectory (portal_fetch base) base token = HubDirectoryPath.
Proof.
  intros Hb. unfold discoverHubDirectory, portal_fetch. rewrite Hb.
  destruct (wire_get base "/.well-known/tela" token) as (r & -> & Hm & Hp & _); [by vm_compute|].
  rewrite serve_well_known by done. unfold handleWellKnown. rewrite Hm. cbn.
  change (bool_decide ("GET" = "HEAD")) with false. unfold telaWellKnown. cbn. unfold omit_empty.
  by destruct (PortalID st =s "").
Qed.

Lemma decode_visible v : decode_remoteHub (json_of_visibility v) = Some (RemoteHubEntry (hv_Name v) (hv_URL v)).
Proof.
  destruct v as [id name url cm org]. unfold json_of_visibility, omit_empty. cbn [hv_ID hv_Name hv_URL hv_CanManage hv_OrgName].
  repeat case_bool_decide; subst; reflexivity.
Qed.

Lemma decode_directory_list hubs :
  decode_directory (json_of_body (RHubs hubs)) = Some (map (fun v => RemoteHubEntry (hv_Name v) (hv_URL v)) hubs).
Proof.
  unfold decode_directory, decode_slice. cbn.
  rewrite (mapM_map _ _ (fun v => RemoteHubEntry (hv_Name v) (hv_URL v))); [done|]. apply decode_visible.
Qed.

Lemma find_first_map {A B} (g : A -> B) (f : B -> bool) l : find_first f (map g l) = g <$> find_first (fun a => f (g a)) l.
Proof. induction l as [|a l IH]; [done|]. cbn. by destruct (f (g a)). Qed.

(** The portal's answer about a name is what its store lists for the user of the token. *)
Lemma portal_query base dir token u hubs name :
  trim_slashes base = base -> token <> "" -> (dir = "" \/ dir = HubDirectoryPath) ->
  (forall r, pq_Authorization r = "Bearer " +:+ token -> Authenticate st r = AuthUser u) ->
  ListHubsForUser st u = inr hubs ->
  queryRemote (portal_fetch base) (RemoteEntry base token dir) name =
    match find_first (fun v => equal_fold (hv_Name v) name) hubs with
    | Some v => inr (httpToWS (hv_URL v))
    | None => inl QNotFound
    end.
Proof.
  intros Hb Ht Hdir Ha Hl. unfold queryRemote. cbn [re_URL re_Token re_HubDirectory]. rewrite Hb.
  assert ((if dir =s "" then hubDirectoryDefault else dir) = HubDirectoryPath) as -> by (by destruct Hdir as [-> | ->]).
  unfold portal_fetch. destruct (wire_get base HubDirectoryPath token) as (r & -> & Hm & Hp & Hauth); [by vm_compute|].
  rewrite (bool_decide_false _ Ht) in Hauth. cbn [negb] in Hauth.
  rewrite serve_hubs_list by done. unfold handleHubsList, authenticate. rewrite Ha by done.
  unfold respond_hubs. rewrite Hl. cbn [o_resp done_with writeJSON pr_Status pr_Body fmap option_fmap option_map].
  change ((200 =? 401)%Z) with false. change ((200 =? 200)%Z) with true. cbn [negb].
  rewrite decode_directory_list, find_first_map. by destruct (find_first _ hubs).
Qed.

End portal.

(** ** Files *)

(** A path of a regular file in an existing directory. *)
Record doc_at (ds : ppath) (f : string) (fs : fsys) : Prop := DocAt {
  da_good : good_elems (ds ++ [f]);
  da_dir : dir_at ds fs;
  da_slot : plain_slot (ds ++ [f]) fs
}.
Definition doc_path (ds : ppath) (f : string) : string := abs (ds ++ [f]).

Lemma doc_written env ds f fs data fs' :
  doc_at ds f fs -> writeDoc env fs (doc_path ds f) data = (true, fs') ->
  exists d, data = Some d /\ fs' = <[ds ++ [f] := NFile d]> fs /\ doc_at ds f fs' /\ ReadFile fs' (doc_path ds f) = RdData d.
Proof.
  intros [Hg Hd Hs] Hw. destruct (writeDoc_true _ _ _ _ _ _ Hg Hd Hs Hw) as (d & -> & ->). exists d. split_and!; try done.
  - split; [done|by apply dir_at_insert|apply plain_slot_file].
  - unfold doc_path. rewrite ReadFile_child; [|done|by apply dir_at_insert|apply plain_slot_file]. by rewrite lookup_insert_eq.
Qed.

(** Writing one file leaves another alone. *)
Lemma doc_other env ds f es g fs data fs' :
  doc_at ds f fs -> doc_at es g fs -> ds ++ [f] <> es ++ [g] -> ~ ds ++ [f] `prefix_of` es ->
  writeDoc env fs (doc_path ds f) data = (true, fs') ->
  doc_at es g fs' /\ ReadFile fs' (doc_path es g) = ReadFile fs (doc_path es g).
Proof.
  intros Hf [Hg Hd Hs] Hne Hnp Hw. destruct (doc_written _ _ _ _ _ _ Hf Hw) as (d & _ & -> & _ & _).
  assert (dir_at es (<[ds ++ [f] := NFile d]> fs)) as Hd'.
  { intros q Hq Hp. rewrite lookup_insert_ne; [by apply Hd|]. by intros <-. }
  assert (plain_slot (es ++ [g]) (<[ds ++ [f] := NFile d]> fs)) as Hs' by (unfold plain_slot; by rewrite lookup_insert_ne).
  split; [by split|]. unfold doc_path. rewrite !ReadFile_child by done. by rewrite lookup_insert_ne.
Qed.

Section adding.
  Context {CC : ConfigCodec} {RO : RangeOrder} (env : saveEnv).

Lemma saved_config ds f fs cfg fs' :
  doc_at ds f fs -> saveTelaConfig env (doc_path ds f) fs cfg = (true, fs') ->
  fst (loadTelaConfig env (doc_path ds f) fs') = Some (TelaConfig (tc_Remotes cfg) None) /\
  snd (loadTelaConfig env (doc_path ds f) fs') = fs' /\ doc_at ds f fs'.
Proof.
  intros Hd Hs. destruct (doc_written _ _ _ _ _ _ Hd Hs) as (d & Hm & -> & Hd' & Hr).
  unfold loadTelaConfig. rewrite Hr, (unmarshal_tela _ _ Hm). by split.
Qed.
End adding.

Section adding_portal.
  Context {T E U : Type} {PS : PortalStore T E U} {IL : Interleaving} {CC : ConfigCodec} {RO : RangeOrder}.
  Context (jsonSize : json -> Z) (up : upreq -> upresult) (penv : E) (st : T) (env : saveEnv).

(** A portal added once is how names resolve from then on: after [tela remote add] with a token
    the portal knows, every name the portal's store lists for that user resolves, without regard to
    case, to the first such hub's URL in its WebSocket form. *)
Theorem remote_add_then_resolve ds f fs fs' hubsPath name base line u hubs hub v :
  let net := portal_fetch jsonSize up penv st base in
  let telaPath := doc_path ds f in
  doc_at ds f fs -> snd (loadTelaConfig env telaPath fs) = fs ->
  (forall n, is_Some (remotesOf env telaPath fs !! n) -> n = name) ->
  trim_slashes base = base -> has_prefix base "http://" || has_prefix base "https://" = true ->
  trim_space line <> "" ->
  (forall r, pq_Authorization r = "Bearer " +:+ trim_space line -> Authenticate st r = AuthUser u) ->
  ListHubsForUser st u = inr hubs ->
  cmdRemoteAdd net env telaPath fs name base line = (true, fs') ->
  hub <> "" -> is_ws hub = false -> find_first (fun x => equal_fold (hv_Name x) hub) hubs = Some v ->
  fst (resolveHubURL net env hubsPath telaPath fs' hub) = Some (httpToWS (hv_URL v)).
Proof.
  intros net telaPath Hd Hmig Honly Hb Hs Ht Ha Hl Hadd Hne Hw Hv.
  unfold cmdRemoteAdd in Hadd. rewrite Hb in Hadd. rewrite <- negb_orb, Hs in Hadd. cbn [negb] in Hadd.
  unfold net in Hadd. rewrite portal_discovered in Hadd by done.
  destruct (portal_fetch jsonSize up penv st base (base +:+ HubDirectoryPath) (trim_space line)) as [[[] ?]|]; try done.
  repeat (match type of Hadd with context[match ?p with _ => _ end] => is_var p; destruct p; try done end).
  assert (exists remotes portal, saveTelaConfig env telaPath fs
      (TelaConfig (<[name := RemoteEntry base (trim_space line) HubDirectoryPath]> remotes) portal) = (true, fs') /\
      remotes = remotesOf env telaPath fs) as (remotes & portal & Hsave & Hrem).
  { unfold remotesOf. destruct (loadTelaConfig env telaPath fs) as [[cfg|] fs1]; cbn in Hmig, Hadd |- *; subst fs1; by eexists _, _. }
  destruct (saved_config env ds f fs _ fs' Hd Hsave) as (Hload & _ & _). cbn [tc_Remotes] in Hload.
  assert (resolveHubFromRemotes net env telaPath fs' hub = (Some (httpToWS (hv_URL v)), snd (loadTelaConfig env telaPath fs'))) as Hr.
  { rewrite <- (resolveHubFromRemotes_fs net env telaPath fs' hub).
    assert (fst (resolveHubFromRemotes net env telaPath fs' hub) = Some (httpToWS (hv_URL v))) as <-; [|apply surjective_pairing].
    apply resolveHubFromRemotes_spec. unfold first_answer.
    assert (remotesOf env telaPath fs' = <[name := RemoteEntry base (trim_space line) HubDirectoryPath]> remotes) as ->.
    { unfold remotesOf, telaPath. by rewrite Hload. }
    exists name, (RemoteEntry base (trim_space line) HubDirectoryPath). rewrite lookup_insert_eq. split_and!; [done| |].
    - unfold net. rewrite (portal_query jsonSize up penv st base _ _ u hubs) by (done || by right). by rewrite Hv.
    - intros rn' remote' url'. rewrite lookup_insert. case_decide as En; [by subst|].
      intros Hrn _. rewrite Hrem in Hrn. rewrite (Honly rn') by (by exists remote'). done. }
  unfold resolveHubURL. rewrite bool_decide_false, Hw by done. by rewrite Hr.
Qed.

End adding_portal.

(** ** The credential store *)

Section stored.
  Context {CC : CredCodec} (env : saveEnv) (ds es : ppath) (f g : string).

(** Two files, neither in the other's way. *)
Record apart (fs : fsys) : Prop := Apart {
  ap_user : doc_at ds f fs;
  ap_system : doc_at es g fs;
  ap_ne : ds ++ [f] <> es ++ [g];
  ap_not_above : ~ ds ++ [f] `prefix_of` es
}.

Local Abbreviation user := (doc_path ds f).
Local Abbreviation system := (doc_path es g).

Lemma cred_saved fs s fs' :
  apart fs -> Save env fs s user = (true, fs') ->
  Load fs' user = Some s /\ Load fs' system = Load fs system /\ apart fs'.
Proof.
  intros [Hu Hs Hne Hnp] Hsave. destruct (doc_written _ _ _ _ _ _ Hu Hsave) as (d & Hm & _ & Hu' & Hr).
  destruct (doc_other _ _ _ _ _ _ _ _ Hu Hs Hne Hnp Hsave) as [Hs' Hr']. split_and!; [|by unfold Load; rewrite Hr'|by split].
  unfold Load. rewrite Hr. by apply unmarshal_cred.
Qed.

Lemma Get_CredSet s u v c : Get (CredSet s u c) v = if decide (NormalizeHubURL u = NormalizeHubURL v) then (c, true) else Get s v.
Proof. unfold Get, CredSet. cbn [cs_Hubs]. rewrite lookup_insert. by case_decide. Qed.

Lemma token_stored fs s u c fs' v :
  apart fs -> Load fs user = Some s -> Save env fs (CredSet s u c) user = (true, fs') ->
  LookupToken fs' user system v =
    if decide (NormalizeHubURL u = NormalizeHubURL v) then cr_Token c else LookupToken fs user system v.
Proof.
  intros Ha Hl Hs. destruct (cred_saved _ _ _ Ha Hs) as (Hu & Hsys & _). unfold LookupToken.
  rewrite Hu, Hsys, Hl, Get_CredSet. by case_decide.
Qed.

Lemma pin_stored fs s u c fs' v :
  apart fs -> Load fs user = Some s -> Save env fs (CredSet s u c) user = (true, fs') ->
  LookupPin fs' user system v =
    if decide (NormalizeHubURL u = NormalizeHubURL v)
    then if cr_Pin c =s "" then LookupPin fs system system v else cr_Pin c
    else LookupPin fs user system v.
Proof.
  intros Ha Hl Hs. destruct (cred_saved _ _ _ Ha Hs) as (Hu & Hsys & _). unfold LookupPin.
  rewrite Hu, Hsys, Hl, Get_CredSet. case_decide; [|done]. cbn [andb].
  destruct (bool_decide_reflect (cr_Pin c = "")) as [->|]; cbn [negb]; [|done].
  destruct (Load fs system) as [x|]; [|done]. destruct (Get x v) as [c' ok]. by destruct (ok && _).
Qed.

(** A login is for the hub, however its URL is written: afterwards every URL that normalises alike
    has that token, every other URL the one it had; and a pin stays unless a new one is given. *)
Theorem login_stores fs url pin tokenLine identityLine s fs' v :
  apart fs -> Load fs user = Some s ->
  cmdLogin env user fs url pin tokenLine identityLine = (true, fs') ->
  let same := NormalizeHubURL (ensureWSScheme url) = NormalizeHubURL v in
  LookupToken fs' user system v = (if decide same then trim_space tokenLine else LookupToken fs user system v) /\
  LookupPin fs' user system v = (if decide (same /\ pin <> "") then Normalize pin else LookupPin fs user system v) /\
  (same -> LookupToken fs' user system v <> "").
Proof.
  intros Ha Hl Hlog same. unfold cmdLogin in Hlog.
  destruct (_ && match Parse pin with inl _ => true | inr _ => false end) eqn:Ebad; [done|].
  destruct (bool_decide_reflect (trim_space tokenLine = "")) as [|Ht]; [done|]. rewrite Hl in Hlog.
  pose proof (token_stored _ _ _ _ _ v Ha Hl Hlog) as HT. pose proof (pin_stored _ _ _ _ _ v Ha Hl Hlog) as HP.
  cbn [cr_Token cr_Pin] in HT, HP. fold same in HT, HP. split_and!; [exact HT| |intros Hs; rewrite HT; destruct (decide same); [exact Ht|contradiction]].
  rewrite HP. destruct (decide same) as [Hs|Hs].
  2:{ rewrite (decide_False (P := same /\ pin <> "")); [reflexivity|]. intros [? _]. contradiction. }
  destruct (bool_decide_reflect (pin = "")) as [->|Hp]; cbn [negb] in *.
  - rewrite (decide_False (P := same /\ EmptyString <> EmptyString)) by (intros [_ Hn]; by apply Hn). unfold LookupPin. rewrite Hl.
    assert (Get s v = Get s (ensureWSScheme url)) as -> by (unfold Get; by rewrite Hs).
    destruct (Get s (ensureWSScheme url)) as [c []]; cbn [andb].
    + destruct (cr_Pin c =s ""); [|done]. cbn [negb]. destruct (Load fs system) as [x|]; [|done].
      destruct (Get x v) as [c' ok]. by destruct (ok && _).
    + rewrite bool_decide_true by done. destruct (Load fs system) as [x|]; [|done].
      destruct (Get x v) as [c' ok]. by destruct (ok && _).
  - rewrite decide_True by done. rewrite bool_decide_false; [done|].
    cbn in Ebad. destruct (Parse pin) as [e|d] eqn:Epin; [done|]. unfold Normalize. rewrite Epin.
    intros E. apply Hp. destruct pin; [done|]. apply (f_equal slen) in E. by rewrite slen_to_lower in E.
Qed.

(** ** Pins *)




End stored.

(** ** Pairing with the hub *)

(** What the hub's answer is as JSON, and the hub as the client's network. *)
Definition paired_body (p : payload) : reqBody :=
  match p with
  | PPaired token identity type => BodyJson (JObj [("token", JStr token); ("identity", JStr identity); ("type", JStr type)])
  | PError msg => BodyJson (JObj [("error", JStr msg)])
  | _ => BodyEmpty
  end.
Definition pair_request (j : json) : request := Request "POST" "/api/pair" "" None ∅ "" (BodyJson j).
Definition hub_pair (henv : environ) (st : pairState) (url : string) (j : json) : option (Z * reqBody) :=
  let resp := fst (handlePair henv st (pair_request j)) in Some (status resp, paired_body (body resp)).

Section pairing.
  Context {CC : CredCodec} (env : saveEnv) (ds es : ppath) (f g : string).

(** C28. Pairing end to end: when [tela pair] reports success, the code was stored at the hub and is used
    up, the token under every spelling of the hub's URL is one the hub issued in that exchange, a
    connect code's token may connect to each machine the code names, and the tokens of other hubs
    stay; of a pin for the hub in the user's file nothing is left. *)
Theorem pair_end_to_end henv st fs url code s fs' v :
  apart ds es f g fs -> Load fs (doc_path ds f) = Some s ->
  cmdPair env (doc_path ds f) (hub_pair henv st) fs url code = (true, fs') ->
  let st' := snd (handlePair henv st (pair_request (JObj [("code", JStr code)]))) in
  let same := NormalizeHubURL (ensureWSScheme url) = NormalizeHubURL v in
  let lookup fs := LookupToken fs (doc_path ds f) (doc_path es g) in
  exists pc token, ps_codes st !! code = Some pc /\ (env_now henv <= pc_ExpiresAt pc)%Z /\ ps_codes st' !! code = None /\
    generateToken (env_rand henv) = Some token /\
    lookup fs' v = (if decide same then token else lookup fs v) /\
    (same -> LookupPin fs' (doc_path ds f) (doc_path es g) v = LookupPin fs (doc_path es g) (doc_path es g) v) /\
    (pc_Type pc = "connect" -> coherent (ps_hub st) -> cfg_tokens (ps_hub st) <> [] -> fresh_token (ps_hub st) token ->
     forall m now, m ∈ pc_Machines pc -> canConnect (globalAuth (ps_hub st')) now token m = true).
Proof.
  intros Ha Hl Hpair st' same lookup. unfold cmdPair, hub_pair in Hpair.
  destruct (_ || (code =s "")); [done|]. set (r := pair_request (JObj [("code", JStr code)])) in *.
  destruct (handlePair henv st r) as [resp st1] eqn:Eh. cbn [fst snd] in *. subst st'.
  destruct (body resp) as [| |?|????|???|???|??|???|?|?|??|?|?????|???|?|?????|???|token identity type|?|??|??????? |??|?|?] eqn:Eb;
    cbn [paired_body json_fields] in Hpair; try done.
  { cbn in Hpair. by destruct (_ || _). }
  destruct (_ || _)%Z; [done|].
  change (as_string (json_key _ "token")) with token in Hpair. change (as_string (json_key _ "identity")) with identity in Hpair.
  destruct (token =s ""); [done|]. rewrite Hl in Hpair.
  destruct (handlePair_served _ _ _ _ _ _ _ _ Eh Eb) as (c & pc & Ec & _ & Hc & Hexp & Hty & Hgen & _ & Hcodes & _).
  change (codeOf r) with code in Ec. subst c.
  exists pc, token. rewrite Hcodes, lookup_delete_eq. split_and!; try done.
  - pose proof (token_stored env ds es f g _ _ _ _ _ v Ha Hl Hpair) as HT. exact HT.
  - intros Hs. pose proof (pin_stored env ds es f g _ _ _ _ _ v Ha Hl Hpair) as HP. fold same in HP. rewrite HP.
    destruct (decide same); [reflexivity|contradiction].
  - intros Hconn Hco Hne Hfr m now Hm. rewrite Hconn in Hty. subst type.
    destruct (pair_connect_grants _ _ _ _ _ _ _ now Eh Eb Hco Hne Hfr) as (pc' & Hc' & _ & Hgr & _).
    change (codeOf r) with code in Hc'. rewrite Hc in Hc'. injection Hc' as <-. by apply Hgr.
Qed.

End pairing.
