(* ===== verification/Profiles.v ===== *)
(** * Connection profiles ([internal/client/client.go])

    The files under [~/.tela/profiles]: references to environment variables in them, loading with the
    lazy migration, and the commands that list, create, migrate and delete them.  A file is read and
    written through a codec; [yaml_profiles] is the one that the struct tags give over a YAML library,
    with its law proved.  The environment is a function.

    Theorems follow, and then [tela dns hosts] ([internal/client/dns.go]), which reads a profile. *)

From S2P Require Import Prelude FilePath FileSys FileShare ClientConnect ClientConfig ClientConfigProofs Flags.
From S2P Require HubStart.
From Stdlib Require Import ZArith Lia Ascii String.
From stdpp Require Import base gmap strings list fin_maps sorting fin_sets.

(** ** [os.ExpandEnv] *)

Definition isShellSpecialVar (c : ascii) : bool :=
  is_digit c || existsb (Ascii.eqb c) ["*"; "#"; "$"; "@"; "!"; "?"; "-"]%char.
Definition isAlphaNum (c : ascii) : bool :=
  Ascii.eqb c "_" || is_digit c || is_lower c || is_upper c.

Fixpoint take_alnum (l : list ascii) : list ascii :=
  match l with c :: l => if isAlphaNum c then c :: take_alnum l else [] | [] => [] end.
(** What stands before the first closing brace, when there is one. *)
Fixpoint upto_brace (l : list ascii) : option (list ascii) :=
  match l with
  | [] => None
  | c :: l => if Ascii.eqb c "}" then Some [] else cons c <$> upto_brace l
  end.

(** The name after a dollar sign, and how many bytes it takes. *)
Definition getShellName (s : list ascii) : list ascii * nat :=
  match s with
  | [] => ([], 0)
  | c :: r =>
      if Ascii.eqb c "{" then
        match r with
        | d :: e :: _ =>
            if isShellSpecialVar d && Ascii.eqb e "}" then ([d], 3)
            else match upto_brace r with
                 | Some [] => ([], 2)
                 | Some name => (name, length name + 2)
                 | None => ([], 1)
                 end
        | _ => match upto_brace r with Some _ => ([], 2) | None => ([], 1) end
        end
      else if isShellSpecialVar c then ([c], 1)
      else (take_alnum s, length (take_alnum s))
  end.

Fixpoint expand (fuel : nat) (getenv : string -> string) (l : list ascii) : list ascii :=
  match fuel, l with
  | S fuel, c :: rest =>
      if Ascii.eqb c "$" && negb (is_nil rest) then
        let '(name, w) := getShellName rest in
        (match name with
         | [] => if (0 <? w)%nat then [] else [c]
         | _ => bytes (getenv (of_bytes name))
         end) ++ expand fuel getenv (drop w rest)
      else c :: expand fuel getenv rest
  | _, _ => l
  end.
Definition ExpandEnv (getenv : string -> string) (s : string) : string :=
  of_bytes (expand (length (bytes s)) getenv (bytes s)).

(** ** Profiles *)

Record profileMount := ProfileMount { pm_Mount : string; pm_Port : Z; pm_Auto : bool }.
Record connectionProfile := ConnectionProfile {
  cp_ID : string;
  cp_Name : string;
  cp_Connections : list profileConnection;
  cp_MTU : Z;
  cp_Mount : profileMount;
  cp_LoopbackPrefix : string
}.
Definition with_identity (p : connectionProfile) (id name : string) : connectionProfile :=
  ConnectionProfile id name (cp_Connections p) (cp_MTU p) (cp_Mount p) (cp_LoopbackPrefix p).

Class ProfileCodec := {
  MarshalProfile : connectionProfile -> option (list Z);
  UnmarshalProfile : string -> option connectionProfile;
  unmarshal_profile p d : MarshalProfile p = Some d -> UnmarshalProfile (of_z_bytes d) = Some p
}.

(** *** The file of a profile

    The YAML library by its documentation: a value is written as a tree, a struct by the names of its
    fields' tags; and a document is read by the type it is read into, a field that is absent as the zero
    value, a name the type does not have not at all.  The second component of what is read tells whether
    everything of it fits its type. *)

Inductive yvalue :=
  | YStr (s : string)
  | YInt (n : Z)
  | YBool (b : bool)
  | YSeq (l : list yvalue)
  | YMap (kvs : list (string * yvalue)).
Inductive ytype :=
  | TStr
  | TInt
  | TBool
  | TSeq (t : ytype)
  | TStruct (fields : list (string * ytype)).

Definition yfield (k : string) (kvs : list (string * yvalue)) : option yvalue := snd <$> find_first (fun kv => String.eqb (fst kv) k) kvs.

Fixpoint yzero (t : ytype) : yvalue :=
  match t with
  | TStr => YStr ""
  | TInt => YInt 0
  | TBool => YBool false
  | TSeq _ => YSeq []
  | TStruct fs => YMap (map (fun kt => match kt with (k, t) => (k, yzero t) end) fs)
  end.
Fixpoint yfits (t : ytype) (v : yvalue) : bool :=
  match t, v with
  | TStr, YStr _ | TInt, YInt _ | TBool, YBool _ => true
  | TSeq t, YSeq l => forallb (yfits t) l
  | TStruct fs, YMap kvs =>
      forallb (fun kt => match kt with (k, t) => match yfield k kvs with Some v => yfits t v | None => true end end) fs
  | _, _ => false
  end.
Fixpoint yread (t : ytype) (v : yvalue) : yvalue :=
  match t, v with
  | TSeq t, YSeq l => YSeq (map (yread t) l)
  | TStruct fs, YMap kvs =>
      YMap (map (fun kt => match kt with (k, t) => (k, match yfield k kvs with Some v => yread t v | None => yzero t end) end) fs)
  | _, _ => v
  end.

Class Yaml := {
  MarshalYaml : yvalue -> option (list Z);
  UnmarshalYaml : ytype -> string -> yvalue * bool;
  unmarshal_yaml t v d : MarshalYaml v = Some d -> yfits t v = true -> UnmarshalYaml t (of_z_bytes d) = (yread t v, true)
}.

Definition str_field (k : string) (v : yvalue) : string :=
  match v with YMap kvs => match yfield k kvs with Some (YStr s) => s | _ => "" end | _ => "" end.
Definition int_field (k : string) (v : yvalue) : Z :=
  match v with YMap kvs => match yfield k kvs with Some (YInt n) => n | _ => 0%Z end | _ => 0%Z end.
Definition bool_field (k : string) (v : yvalue) : bool :=
  match v with YMap kvs => match yfield k kvs with Some (YBool b) => b | _ => false end | _ => false end.
Definition seq_field (k : string) (v : yvalue) : list yvalue :=
  match v with YMap kvs => match yfield k kvs with Some (YSeq l) => l | _ => [] end | _ => [] end.
Definition map_field (k : string) (v : yvalue) : yvalue :=
  match v with YMap kvs => default (YMap []) (yfield k kvs) | _ => YMap [] end.

(** [omitempty]. *)
Definition some_str (k s : string) : list (string * yvalue) := if s =s "" then [] else [(k, YStr s)].
Definition some_int (k : string) (n : Z) : list (string * yvalue) := if (n =? 0)%Z then [] else [(k, YInt n)].
Definition some_bool (k : string) (b : bool) : list (string * yvalue) := if b then [(k, YBool b)] else [].

(** The struct tags. *)
Definition serviceType : ytype := TStruct [("remote", TInt); ("local", TInt); ("name", TStr)].
Definition connectionType : ytype :=
  TStruct [("hubId", TStr); ("hub", TStr); ("agentId", TStr); ("machine", TStr); ("token", TStr); ("address", TStr);
           ("services", TSeq serviceType)].
Definition mountType : ytype := TStruct [("mount", TStr); ("port", TInt); ("auto", TBool)].
Definition profileType : ytype :=
  TStruct [("id", TStr); ("name", TStr); ("connections", TSeq connectionType); ("mtu", TInt); ("mount", mountType);
           ("dns", TStruct [("loopback_prefix", TStr)])].

Definition serviceDoc (v : profileService) : yvalue :=
  YMap ([("remote", YInt (vs_Remote v))] ++ some_int "local" (vs_Local v) ++ some_str "name" (vs_Name v)).
Definition connectionDoc (c : profileConnection) : yvalue :=
  YMap (some_str "hubId" (pc_HubID c) ++ [("hub", YStr (pc_Hub c))] ++ some_str "agentId" (pc_AgentID c) ++
        [("machine", YStr (pc_Machine c)); ("token", YStr (pc_Token c))] ++ some_str "address" (pc_Address c) ++
        if is_nil (pc_Services c) then [] else [("services", YSeq (map serviceDoc (pc_Services c)))]).
Definition mountDoc (m : profileMount) : list (string * yvalue) :=
  let kvs := some_str "mount" (pm_Mount m) ++ some_int "port" (pm_Port m) ++ some_bool "auto" (pm_Auto m) in
  if is_nil kvs then [] else [("mount", YMap kvs)].
Definition profileDoc (p : connectionProfile) : yvalue :=
  YMap (some_str "id" (cp_ID p) ++ some_str "name" (cp_Name p) ++ [("connections", YSeq (map connectionDoc (cp_Connections p)))] ++
        some_int "mtu" (cp_MTU p) ++ mountDoc (cp_Mount p) ++
        if cp_LoopbackPrefix p =s "" then [] else [("dns", YMap [("loopback_prefix", YStr (cp_LoopbackPrefix p))])]).

Definition serviceOf (v : yvalue) : profileService := ProfileService (int_field "remote" v) (int_field "local" v) (str_field "name" v).
Definition connectionOf (v : yvalue) : profileConnection :=
  ProfileConnection (str_field "hubId" v) (str_field "hub" v) (str_field "agentId" v) (str_field "machine" v)
    (str_field "token" v) (str_field "address" v) (map serviceOf (seq_field "services" v)).
Definition mountOf (v : yvalue) : profileMount := ProfileMount (str_field "mount" v) (int_field "port" v) (bool_field "auto" v).
Definition profileOf (v : yvalue) : connectionProfile :=
  ConnectionProfile (str_field "id" v) (str_field "name" v) (map connectionOf (seq_field "connections" v)) (int_field "mtu" v)
    (mountOf (map_field "mount" v)) (str_field "loopback_prefix" (map_field "dns" v)).

Lemma some_str_cases k s : some_str k s = [] /\ s = "" \/ some_str k s = [(k, YStr s)].
Proof. unfold some_str. case_bool_decide; [by left|by right]. Qed.
Lemma some_int_cases k n : some_int k n = [] /\ n = 0%Z \/ some_int k n = [(k, YInt n)].
Proof. unfold some_int. destruct (Z.eqb_spec n 0); [by left|by right]. Qed.
Lemma some_bool_cases k b : some_bool k b = [] /\ b = false \/ some_bool k b = [(k, YBool b)].
Proof. destruct b; [by right|by left]. Qed.

(** Every field omitted or written. *)
Ltac fields_omitted :=
  repeat match goal with
  | |- context [some_str ?k ?s] => destruct (some_str_cases k s) as [[-> ->]| ->]
  | |- context [some_int ?k ?n] => destruct (some_int_cases k n) as [[-> ->]| ->]
  | |- context [some_bool ?k ?b] => destruct (some_bool_cases k b) as [[-> ->]| ->]
  end.

(** A list is read as its elements are. *)
Lemma list_reads {A B} (t : ytype) (doc : A -> yvalue) (back : yvalue -> B) (f : A -> B) :
  (forall a, yfits t (doc a) = true /\ back (yread t (doc a)) = f a) -> forall l,
  forallb (yfits t) (map doc l) = true /\ map back (map (yread t) (map doc l)) = map f l.
Proof.
  intros H l. split.
  - rewrite forallb_forall. intros v (a & <- & _)%in_map_iff. apply H.
  - rewrite !map_map. apply map_ext. intros a. apply H.
Qed.

Lemma service_reads v : yfits serviceType (serviceDoc v) = true /\ serviceOf (yread serviceType (serviceDoc v)) = v.
Proof. destruct v as [r l n]. unfold serviceDoc. cbn [vs_Remote vs_Local vs_Name]. by fields_omitted. Qed.

Lemma connection_reads c :
  yfits connectionType (connectionDoc c) = true /\ connectionOf (yread connectionType (connectionDoc c)) = c.
Proof.
  destruct c as [hi h ai m t ad vs]. unfold connectionDoc. cbn [pc_HubID pc_Hub pc_AgentID pc_Machine pc_Token pc_Address pc_Services].
  destruct (list_reads serviceType serviceDoc serviceOf (fun v => v) service_reads vs) as [Hf Hr]. rewrite map_id in Hr.
  destruct (is_nil vs) eqn:Hn; [destruct vs; [|done]; by fields_omitted|]. clear Hn.
  set (l := map serviceDoc vs) in *. clearbody l.
  fields_omitted; (split; [cbn -[serviceType]; by rewrite Hf|unfold connectionOf; cbn -[serviceType serviceOf]; by rewrite Hr]).
Qed.

Lemma mount_reads m : mountDoc m = [] /\ m = ProfileMount "" 0 false \/
  exists v, mountDoc m = [("mount", v)] /\ yfits mountType v = true /\ mountOf (yread mountType v) = m.
Proof.
  destruct m as [d p a]. unfold mountDoc. cbn [pm_Mount pm_Port pm_Auto].
  fields_omitted; first [by left | right; by eexists].
Qed.

Lemma profile_reads p : yfits profileType (profileDoc p) = true /\ profileOf (yread profileType (profileDoc p)) = p.
Proof.
  destruct p as [i n cs mtu m lp]. unfold profileDoc. cbn [cp_ID cp_Name cp_Connections cp_MTU cp_Mount cp_LoopbackPrefix].
  destruct (list_reads connectionType connectionDoc connectionOf (fun c => c) connection_reads cs) as [Hf Hr]. rewrite map_id in Hr.
  set (l := map connectionDoc cs) in *. clearbody l.
  destruct (mount_reads m) as [[-> ->]|(v & -> & Hmf & Hmr)]; destruct (bool_decide_reflect (lp = "")) as [->|Hlp]; fields_omitted.
  all: split; [cbn -[connectionType mountType]; rewrite Hf, ?Hmf; reflexivity|].
  all: unfold profileOf; cbn -[connectionType mountType connectionOf mountOf]; rewrite Hr, ?Hmr; reflexivity.
Qed.

(** The client's codec. *)
Definition yaml_profiles {Y : Yaml} : ProfileCodec.
Proof.
  refine {| MarshalProfile p := MarshalYaml (profileDoc p);
            UnmarshalProfile s := let '(v, ok) := UnmarshalYaml profileType s in if ok : bool then Some (profileOf v) else None |}.
  intros p d Hd. destruct (profile_reads p) as [Hf Hr]. rewrite (unmarshal_yaml _ _ _ Hd Hf). by rewrite Hr.
Defined.

(** Sixteen random bytes, or the time when there are none. *)
Definition newProfileUUID (rnd : option (list Z)) (clock : string) : string :=
  match rnd with Some b => HubStart.newUUID (Some b) | None => "0-0-0-0-" +:+ clock end.

Definition is_profile_name (name : string) : bool := has_suffix name ".yaml" || has_suffix name ".yml".
Definition stem (name : string) : string := trim_suffix name (Ext name).

Section profiles.
  Context {PC : ProfileCodec}.
  Variables (profilesDir : string) (getenv : string -> string).

Definition profilePath (name : string) : string :=
  if negb (FileShare.Contains name "/") && negb (has_suffix name ".yaml") && negb (has_suffix name ".yml")
  then FilePath.Join profilesDir (name +:+ ".yaml") else name.

(** What the migration makes of a profile: the identity it lacks, the name of its file. *)
Definition dirty (name : string) (p : connectionProfile) : bool := (cp_ID p =s "") || negb (cp_Name p =s name).
Definition migrated (uuid name : string) (p : connectionProfile) : connectionProfile :=
  with_identity p (if cp_ID p =s "" then uuid else cp_ID p) name.

(** A failing [os.WriteFile] truncates the file first. *)
Definition writeProfile (fault : saveEnv) (fs : fsys) (path : string) (data : list Z) : bool * fsys :=
  if se_fault fault "open" then (false, fs)
  else match WriteFile fs path (if se_fault fault "write" then take (se_short fault) data else data) with
       | None => (false, fs)
       | Some fs' => (negb (se_fault fault "write"), fs')
       end.

Definition loadProfile (uuid : string) (fault : saveEnv) (fs : fsys) (name : string) : option connectionProfile * fsys :=
  let path := profilePath name in
  match ReadFile fs path with
  | RdData d =>
      match UnmarshalProfile (ExpandEnv getenv (of_z_bytes d)) with
      | None => (None, fs)
      | Some profile =>
          if is_nil (cp_Connections profile) then (None, fs)
          else
            let expectedName := trim_suffix (Base path) (Ext path) in
            let result := migrated uuid expectedName profile in
            if dirty expectedName profile then
              (Some result, match MarshalProfile result with
                            | Some out => snd (writeProfile fault fs path out)
                            | None => fs
                            end)
            else (Some profile, fs)
      end
  | _ => (None, fs)
  end.

(** ** tela profile *)

Inductive dirResult := DirEntries (l : list (string * node)) | DirMissing | DirError.
Definition profileEntries (fs : fsys) : dirResult :=
  match ReadDir fs profilesDir with
  | Some l => DirEntries l
  | None => match Stat fs profilesDir with SNotExist => DirMissing | _ => DirError end
  end.
Definition is_dir (n : node) : bool := match n with NDir => true | _ => false end.

(** The names shown; [None] is the error. *)
Definition cmdProfileList (fs : fsys) : option (list string) :=
  match profileEntries fs with
  | DirEntries l => Some (omap (fun e => if negb (is_dir (snd e)) && is_profile_name (fst e) then Some (stem (fst e)) else None) l)
  | DirMissing => Some []
  | DirError => None
  end.

Definition cmdProfileShow (fs : fsys) (name : string) : option (list Z) :=
  match ReadFile fs (FilePath.Join profilesDir (name +:+ ".yaml")) with
  | RdData d => Some d
  | RdNotExist => match ReadFile fs (FilePath.Join profilesDir (name +:+ ".yml")) with RdData d => Some d | _ => None end
  | RdError => None
  end.

(** [template] is the text a new profile starts with. *)
Definition cmdProfileCreate (template : string -> list Z) (fault : saveEnv) (fs : fsys) (name : string) : bool * fsys :=
  let '(ok, fs1) := MkdirAll fs profilesDir in
  if se_fault fault "mkdirall" || negb ok then (false, fs1)
  else
    let path := FilePath.Join profilesDir (name +:+ ".yaml") in
    match Stat fs1 path with
    | SInfo _ => (false, fs1)
    | _ => writeProfile fault fs1 path (template name)
    end.

Definition cmdProfileDelete (fs : fsys) (name : string) : bool * fsys :=
  let remove path := match Remove fs path with Some fs' => (true, fs') | None => (false, fs) end in
  let yaml := FilePath.Join profilesDir (name +:+ ".yaml") in
  let yml := FilePath.Join profilesDir (name +:+ ".yml") in
  match Stat fs yaml with
  | SNotExist => match Stat fs yml with SNotExist => (false, fs) | _ => remove yml end
  | _ => remove yaml
  end.

Inductive migration := Skipped | UpToDate | Migrated | Unreadable.
(** One entry of the directory; [uuid] is what a new identity would be. *)
Definition migrateEntry (uuid : string) (fault : saveEnv) (fs : fsys) (e : string * node) : migration * fsys :=
  let name := fst e in
  if is_dir (snd e) then (Skipped, fs)
  else if negb (has_suffix name ".yaml") && negb (has_suffix name ".yml") then (Skipped, fs)
  else
    let path := FilePath.Join profilesDir name in
    match ReadFile fs path with
    | RdData d =>
        match UnmarshalProfile (of_z_bytes d) with
        | None => (Unreadable, fs)
        | Some profile =>
            if negb (dirty (stem name) profile) then (UpToDate, fs)
            else match MarshalProfile (migrated uuid (stem name) profile) with
                 | None => (Unreadable, fs)
                 | Some out =>
                     let '(ok, fs) := writeProfile fault fs path out in
                     (if ok : bool then Migrated else Unreadable, fs)
                 end
        end
    | _ => (Unreadable, fs)
    end.

(** The entries in order; [uuids] and [faults] are what each meets. *)
Fixpoint migrateEntries (uuids : nat -> string) (faults : nat -> saveEnv) (k : nat) (fs : fsys) (l : list (string * node))
    : list migration * fsys :=
  match l with
  | [] => ([], fs)
  | e :: l =>
      let '(m, fs) := migrateEntry (uuids k) (faults k) fs e in
      let '(ms, fs) := migrateEntries uuids faults (S k) fs l in
      (m :: ms, fs)
  end.
Definition cmdProfileMigrate (uuids : nat -> string) (faults : nat -> saveEnv) (fs : fsys) : option (list migration) * fsys :=
  match profileEntries fs with
  | DirEntries l => let '(ms, fs) := migrateEntries uuids faults 0 fs l in (Some ms, fs)
  | DirMissing => (Some [], fs)
  | DirError => (None, fs)
  end.

End profiles.

(** * Theorems about connection profiles ([Profiles])

    What expanding references does, that loading settles, and what the migration of all profiles
    leaves as it was. *)

(** ** References to the environment *)

Lemma expand_plain fuel getenv l : ("$"%char : ascii) ∉ l -> expand fuel getenv l = l.
Proof.
  revert l. induction fuel as [|n IH]; [done|]. intros [|c l] Hl; [done|]. cbn [expand].
  apply not_elem_of_cons in Hl as [Hc Hl]. destruct (Ascii.eqb_spec c "$") as [->|]; [done|]. cbn [andb]. by rewrite IH.
Qed.

(** A text without dollar signs is as it was. *)
Lemma ExpandEnv_plain getenv s : ("$"%char : ascii) ∉ bytes s -> ExpandEnv getenv s = s.
Proof. intros Hs. unfold ExpandEnv. by rewrite expand_plain, of_bytes_bytes. Qed.

Lemma expand_plain_app fuel getenv a l :
  ("$"%char : ascii) ∉ a -> length a <= fuel -> expand fuel getenv (a ++ l) = a ++ expand (fuel - length a) getenv l.
Proof.
  revert fuel. induction a as [|c a IH]; intros fuel Ha Hf; [by rewrite Nat.sub_0_r|]. destruct fuel as [|n]; [cbn in Hf; lia|].
  apply not_elem_of_cons in Ha as [Hc Ha]. cbn [app expand length]. destruct (Ascii.eqb_spec c "$") as [->|]; [done|].
  cbn [andb]. rewrite IH by (done || cbn in Hf; lia). done.
Qed.

Lemma upto_brace_name name l : ("}"%char : ascii) ∉ name -> upto_brace (name ++ "}"%char :: l) = Some name.
Proof.
  induction name as [|c name IH]; intros Hn; [done|]. apply not_elem_of_cons in Hn as [Hc Hn]. cbn.
  destruct (Ascii.eqb_spec c "}") as [->|]; [done|]. by rewrite IH.
Qed.

(** The name between braces, whatever follows. *)
Lemma getShellName_braced name l :
  name <> [] -> ("}"%char : ascii) ∉ name ->
  getShellName ("{"%char :: name ++ "}"%char :: l) = (name, length name + 2).
Proof.
  intros Hne Hn. cbn [getShellName]. change (Ascii.eqb "{" "{") with true. cbn iota.
  pose proof (upto_brace_name name l Hn) as Hu. destruct name as [|d [|e name]]; [done| |].
  - cbn [app] in *. change (Ascii.eqb "}" "}") with true. rewrite andb_true_r, Hu. by destruct (isShellSpecialVar d).
  - cbn [app] in *. apply not_elem_of_cons in Hn as [_ Hn]. apply not_elem_of_cons in Hn as [He _].
    destruct (Ascii.eqb_spec e "}") as [->|]; [done|]. by rewrite andb_false_r, Hu.
Qed.

(** More fuel than bytes changes nothing. *)
Lemma expand_fuel getenv n m l : length l <= n -> length l <= m -> expand n getenv l = expand m getenv l.
Proof.
  revert m l. induction n as [|n IH]; intros [|m] [|c l] Hn Hm; cbn in Hn, Hm; try done; try lia.
  cbn [expand]. destruct (_ && _); [|f_equal; apply IH; lia].
  destruct (getShellName l) as [name w]. f_equal. apply IH; rewrite length_drop; lia.
Qed.

(** A reference is replaced by the variable's value, and the expansion goes on behind it. *)
Lemma ExpandEnv_reference getenv a name b :
  ("$"%char : ascii) ∉ bytes a -> name <> EmptyString -> ("}"%char : ascii) ∉ bytes name ->
  ExpandEnv getenv (a +:+ "${" +:+ name +:+ "}" +:+ b) = a +:+ getenv name +:+ ExpandEnv getenv b.
Proof.
  intros Ha Hne Hn. unfold ExpandEnv. rewrite !bytes_app. change (bytes "${") with ["$"; "{"]%char. change (bytes "}") with ["}"]%char.
  rewrite expand_plain_app by (done || rewrite length_app; lia). cbn [app].
  set (rest := ("{"%char :: bytes name ++ "}"%char :: bytes b)).
  assert (length (bytes b) <= length rest) as Hlen by (unfold rest; cbn [length]; rewrite length_app; cbn [length]; lia).
  assert (bytes name <> []) as Hbn by (intros E; apply Hne; by destruct name).
  replace (length (bytes a ++ "$"%char :: rest) - length (bytes a)) with (S (length rest))
    by (rewrite length_app; cbn [length]; lia).
  cbn [expand]. change (Ascii.eqb "$" "$") with true. cbn [is_nil negb andb].
  unfold rest at 1 2. cbn [is_nil negb andb]. rewrite getShellName_braced by done. destruct (bytes name) as [|x y] eqn:Ebn; [done|]. rewrite <- Ebn.
  rewrite of_bytes_bytes. rewrite !of_bytes_app, !of_bytes_bytes. do 2 f_equal.
  replace (drop (length (bytes name) + 2) rest) with (bytes b).
  2:{ unfold rest. replace (length (bytes name) + 2) with (S (length (bytes name) + 1)) by lia. cbn [drop].
      by rewrite <- Ebn, drop_app_add. }
  f_equal. apply expand_fuel; lia.
Qed.

(** ** Loading *)

Section loading.
  Context {PC : ProfileCodec} (profilesDir : string) (getenv : string -> string).

Lemma writeProfile_true fault ds f fs data fs' :
  doc_at ds f fs -> writeProfile fault fs (doc_path ds f) data = (true, fs') -> fs' = <[ds ++ [f] := NFile data]> fs.
Proof.
  intros [Hg Hd Hs]. unfold writeProfile, doc_path. destruct (se_fault fault "open"); [done|].
  rewrite WriteFile_child by done. destruct (se_fault fault "write"); [done|]. by intros [= <-].
Qed.

Lemma doc_at_write ds f fs data :
  doc_at ds f fs -> doc_at ds f (<[ds ++ [f] := NFile data]> fs) /\
  ReadFile (<[ds ++ [f] := NFile data]> fs) (doc_path ds f) = RdData data.
Proof.
  intros [Hg Hd Hs]. split; [split; [done|by apply dir_at_insert|apply plain_slot_file]|].
  unfold doc_path. rewrite ReadFile_child; [|done|by apply dir_at_insert|apply plain_slot_file]. by rewrite lookup_insert_eq.
Qed.

Lemma dirty_migrated uuid name p : uuid <> "" -> dirty name (migrated uuid name p) = false.
Proof.
  intros Hu. unfold dirty, migrated. cbn. rewrite (bool_decide_true (name = name)) by done. rewrite orb_false_r.
  apply bool_decide_eq_false. by destruct (bool_decide_reflect (cp_ID p = "")).
Qed.

Lemma migrated_clean uuid name p : dirty name p = false -> migrated uuid name p = p.
Proof.
  unfold dirty, migrated, with_identity. intros [Hid%bool_decide_eq_false Hn%negb_false_iff%bool_decide_eq_true]%orb_false_iff.
  rewrite (bool_decide_false _ Hid), <- Hn. by destruct p.
Qed.

Lemma loadProfile_found uuid fault fs name path d q :
  profilePath profilesDir name = path -> ReadFile fs path = RdData d ->
  UnmarshalProfile (ExpandEnv getenv (of_z_bytes d)) = Some q -> cp_Connections q <> [] ->
  let stem := trim_suffix (Base path) (Ext path) in
  loadProfile profilesDir getenv uuid fault fs name =
    if dirty stem q then
      (Some (migrated uuid stem q), match MarshalProfile (migrated uuid stem q) with
                                    | Some out => snd (writeProfile fault fs path out)
                                    | None => fs
                                    end)
    else (Some q, fs).
Proof.
  intros <- Hr Hu Hc stem. unfold loadProfile. rewrite Hr, Hu.
  destruct (cp_Connections q) as [|x l] eqn:E; [done|]. reflexivity.
Qed.

(** Loading a profile settles: what is loaded is the file's content, references expanded, with an
    identity and under the name of the file.  A profile that had both is not written, and loads the
    same again; else what was written, once it got to the disk and holds no dollar sign, is what
    every later load finds, and none writes any more. *)
Theorem load_settles uuid fault ds f fs name p fs' :
  doc_at ds f fs -> profilePath profilesDir name = doc_path ds f -> uuid <> "" ->
  loadProfile profilesDir getenv uuid fault fs name = (Some p, fs') ->
  let stem := trim_suffix (Base (doc_path ds f)) (Ext (doc_path ds f)) in
  cp_ID p <> "" /\ cp_Name p = stem /\
  (exists d q, fs !! (ds ++ [f]) = Some (NFile d) /\ UnmarshalProfile (ExpandEnv getenv (of_z_bytes d)) = Some q /\
     p = migrated uuid stem q) /\
  ((fs' = fs /\ forall uuid' fault', loadProfile profilesDir getenv uuid' fault' fs name = (Some p, fs)) \/
   forall out, MarshalProfile p = Some out -> fst (writeProfile fault fs (doc_path ds f) out) = true ->
     (("$"%char : ascii) ∉ bytes (of_z_bytes out)) ->
     fs' = <[ds ++ [f] := NFile out]> fs /\
     forall uuid' fault', loadProfile profilesDir getenv uuid' fault' fs' name = (Some p, fs')).
Proof.
  intros Hdoc Hpath Hu Hload stem. pose proof Hdoc as [Hg Hd Hs].
  assert (exists d q, ReadFile fs (doc_path ds f) = RdData d /\ fs !! (ds ++ [f]) = Some (NFile d) /\
    UnmarshalProfile (ExpandEnv getenv (of_z_bytes d)) = Some q /\ cp_Connections q <> []) as (d & q & Hr & Hf & Hq & Hc).
  { unfold loadProfile in Hload. rewrite Hpath in Hload. pose proof (ReadFile_child ds f Hg fs Hd Hs) as Hrc.
    fold (doc_path ds f) in Hrc. rewrite Hrc in Hload |- *.
    destruct Hs as [Hn|[d Hf]]; [by rewrite Hn in Hload|]. rewrite Hf in Hload |- *.
    destruct (UnmarshalProfile _) as [q|] eqn:Eq; [|done]. exists d, q. split_and!; try done.
    intros E. by rewrite E in Hload. }
  pose proof (fun uuid fault => loadProfile_found uuid fault fs name _ d q Hpath Hr Hq Hc) as Hfound. fold stem in Hfound.
  rewrite Hfound in Hload. destruct (dirty stem q) eqn:Edirty.
  - injection Hload as <- <-. pose proof (dirty_migrated uuid stem q Hu) as Hclean.
    pose proof Hclean as [Hid%bool_decide_eq_false _]%orb_false_iff. split_and!; [done|done|by exists d, q|].
    right. intros out Hm Hw Hno. rewrite Hm.
    destruct (writeProfile fault fs (doc_path ds f) out) as [ok fs1] eqn:Ew. cbn in Hw |- *. subst ok.
    apply writeProfile_true in Ew as ->; [|done]. split; [done|]. intros uuid' fault'.
    destruct (doc_at_write ds f fs out Hdoc) as [_ Hr'].
    rewrite (loadProfile_found uuid' fault' _ name _ out (migrated uuid stem q) Hpath Hr'); [by fold stem; rewrite Hclean| |done].
    rewrite ExpandEnv_plain by done. by apply unmarshal_profile.
  - injection Hload as <- <-. pose proof Edirty as [Hid%bool_decide_eq_false Hn%negb_false_iff%bool_decide_eq_true]%orb_false_iff.
    split_and!; [done|done|exists d, q; by rewrite migrated_clean|]. left. split; [done|]. intros uuid' fault'. rewrite Hfound, Edirty. reflexivity.
Qed.

(** ** Migrating all profiles *)

(** The profiles of a directory: its files with the right endings. *)
Definition is_profile (e : string * node) : bool := negb (is_dir (snd e)) && is_profile_name (fst e).

(** What the migration makes of one entry of the directory. *)
Definition settled (f : string) (n : node) (o : option node) : Prop :=
  match n with
  | NFile d =>
      match UnmarshalProfile (of_z_bytes d) with
      | Some p =>
          if is_profile_name f then
            exists d' uuid, o = Some (NFile d') /\ UnmarshalProfile (of_z_bytes d') = Some (migrated uuid (stem f) p) /\
              (dirty (stem f) p = false -> d' = d)
          else o = Some n
      | None => o = Some n
      end
  | _ => o = Some n
  end.

(** A directory holds files and directories under proper names. *)
Definition plain_entry (ds : ppath) (fs : fsys) (e : string * node) : Prop :=
  good_elem (fst e) /\ fs !! (ds ++ [fst e]) = Some (snd e) /\ (snd e = NDir \/ exists d, snd e = NFile d).

Lemma settled_same (f : string) (n : node) (fs : fsys) (ds : ppath) : fs !! (ds ++ [f]) = Some n ->
  (match n with NFile d => forall p, UnmarshalProfile (of_z_bytes d) = Some p -> is_profile_name f = true -> dirty (stem f) p = false | _ => True end) ->
  settled f n (fs !! (ds ++ [f])).
Proof.
  intros Hf Hc. unfold settled. destruct n as [|d|t|]; try done. destruct (UnmarshalProfile _) as [p|] eqn:Ep; [|done].
  destruct (is_profile_name f) eqn:En; [|done]. exists d, EmptyString. split_and!; [done| |done].
  rewrite Ep. f_equal. symmetry. apply migrated_clean. by apply Hc.
Qed.

Lemma migrateEntry_spec uuid ds e fs :
  profilesDir = abs ds -> good_elems ds -> dir_at ds fs -> plain_entry ds fs e -> (forall p, is_Some (MarshalProfile p)) ->
  let fs' := snd (migrateEntry profilesDir uuid no_fault fs e) in
  settled (fst e) (snd e) (fs' !! (ds ++ [fst e])) /\ (fs' = fs \/ exists d, fs' = <[ds ++ [fst e] := NFile d]> fs).
Proof.
  intros Hdir Hg Hd (Hge & Hf & Hkind) Hm. unfold migrateEntry. destruct e as [f n]. cbn [fst snd] in *.
  assert (good_elems (ds ++ [f])) as Hgf by (apply Forall_app; split; [done|by constructor]).
  destruct Hkind as [->|[d ->]]; cbn [is_dir].
  { split; [by apply settled_same|by left]. }
  rewrite <- negb_orb. fold (is_profile_name f).
  destruct (is_profile_name f) eqn:En; cbn [negb].
  2:{ split; [|by left]. apply settled_same; [done|]. intros; congruence. }
  rewrite Hdir, Join_elem by done. fold (doc_path ds f).
  assert (doc_at ds f fs) as Hdoc by (split; [done|done|right; by exists d]).
  assert (ReadFile fs (doc_path ds f) = RdData d) as Hr.
  { unfold doc_path. rewrite ReadFile_child; [by rewrite Hf|done|done|right; by exists d]. }
  rewrite Hr. destruct (UnmarshalProfile (of_z_bytes d)) as [p|] eqn:Ep.
  2:{ split; [|by left]. apply settled_same; [done|]. intros; congruence. }
  destruct (dirty (stem f) p) eqn:Edirty; cbn [negb].
  2:{ split; [|by left]. apply settled_same; [done|]. intros; congruence. }
  destruct (Hm (migrated uuid (stem f) p)) as [out Hout]. rewrite Hout.
  destruct (writeProfile no_fault fs (doc_path ds f) out) as [ok fs1] eqn:Ew.
  assert (ok = true) as ->.
  { unfold writeProfile, doc_path in Ew. cbn [se_fault no_fault] in Ew. rewrite WriteFile_child in Ew; [by injection Ew|done|done|right; by exists d]. }
  apply writeProfile_true in Ew as ->; [|done]. cbn [snd]. split; [|right; by exists out].
  unfold settled. rewrite Ep, En. exists out, uuid. rewrite lookup_insert_eq. split_and!; [done|by apply unmarshal_profile|congruence].
Qed.

Lemma migrateEntries_spec uuids ds l k fs :
  profilesDir = abs ds -> good_elems ds -> dir_at ds fs -> NoDup (map fst l) -> Forall (plain_entry ds fs) l ->
  (forall p, is_Some (MarshalProfile p)) ->
  let fs' := snd (migrateEntries profilesDir uuids (fun _ => no_fault) k fs l) in
  (forall e, e ∈ l -> settled (fst e) (snd e) (fs' !! (ds ++ [fst e]))) /\
  (forall g, (forall e, e ∈ l -> g <> ds ++ [fst e]) -> fs' !! g = fs !! g).
Proof.
  intros Hdir Hg Hd Hnd Hl Hm. revert k fs Hd Hl. induction l as [|e l IH]; intros k fs Hd Hl; cbn [migrateEntries].
  { split; [intros e He; by apply elem_of_nil in He|done]. }
  cbn [map] in Hnd. apply NoDup_cons in Hnd as [Hnin Hnd]. apply Forall_cons in Hl as [He Hl].
  destruct (migrateEntry_spec (uuids k) ds e fs Hdir Hg Hd He Hm) as [Hset Hsame].
  destruct (migrateEntry _ _ _ _ _) as [m fs1]. cbn [snd] in Hset, Hsame.
  assert (forall e', e' ∈ l -> ds ++ [fst e'] <> ds ++ [fst e]) as Hne.
  { intros e' He' E. apply child_inj in E. apply Hnin. rewrite <- E. by apply list_elem_of_fmap_2. }
  assert (forall g, g <> ds ++ [fst e] -> fs1 !! g = fs !! g) as Hkeep.
  { intros g Hg'. destruct Hsame as [->|[d ->]]; [done|]. by rewrite lookup_insert_ne. }
  assert (dir_at ds fs1) as Hd1 by (destruct Hsame as [->|[d ->]]; [done|by apply dir_at_insert]).
  assert (Forall (plain_entry ds fs1) l) as Hl1.
  { rewrite Forall_forall in Hl |- *. intros e' He'. destruct (Hl e' He') as (A & B & C). split_and!; [done| |done].
    rewrite Hkeep; [done|by apply Hne]. }
  destruct (IH Hnd (S k) fs1 Hd1 Hl1) as [IHs IHk]. destruct (migrateEntries _ _ _ _ _ _) as [ms fs2]. cbn [snd] in *. split.
  - intros e' [->|He']%elem_of_cons; [|by apply IHs]. rewrite IHk; [done|]. intros e' He' E. by apply (Hne e' He').
  - intros g Hg'. rewrite IHk; [|intros e' He'; apply Hg'; by right]. apply Hkeep, Hg'. by left.
Qed.

(** Migrating the profiles gives each that parses an identity and the name of its file and changes
    nothing else of it: references to variables stay references.  A profile that had both, a file that
    is no profile or does not parse, and everything outside the directory stay as they were. *)
Theorem migrate_exact uuids ds fs :
  profilesDir = abs ds -> good_elems ds -> dir_at ds fs ->
  (forall e n, fs !! (ds ++ [e]) = Some n -> plain_entry ds fs (e, n)) -> (forall p, is_Some (MarshalProfile p)) ->
  let '(ms, fs') := cmdProfileMigrate profilesDir uuids (fun _ => no_fault) fs in
  is_Some ms /\
  (forall f n, fs !! (ds ++ [f]) = Some n -> settled f n (fs' !! (ds ++ [f]))) /\
  (forall g, (forall f, g <> ds ++ [f]) -> fs' !! g = fs !! g).
Proof.
  intros Hdir Hg Hd Hplain Hm. unfold cmdProfileMigrate, profileEntries. rewrite Hdir, ReadDir_present by done. rewrite <- Hdir.
  set (l := merge_sort by_name (children fs ds)).
  assert (l ≡ₚ children fs ds) as Hp by apply merge_sort_Permutation.
  assert (forall e, e ∈ l <-> fs !! (ds ++ [fst e]) = Some (snd e)) as Hl.
  { intros [f n]. rewrite Hp. apply elem_of_children. }
  assert (NoDup (map fst l)) as Hnd.
  { rewrite (Permutation_map fst Hp). apply NoDup_children. }
  destruct (migrateEntries_spec uuids ds l 0 fs Hdir Hg Hd Hnd) as [Hs Hk]; [|done|].
  { apply Forall_forall. intros [f n] He. apply Hplain. by apply (Hl (f, n)). }
  destruct (migrateEntries _ _ _ _ _ _) as [ms fs']. cbn [snd] in *. split_and!; [done| |].
  - intros f n Hf. apply (Hs (f, n)). by apply (Hl (f, n)).
  - intros g Hg'. apply Hk. intros e _. apply Hg'.
Qed.

End loading.

(** * Local names ([internal/client/dns.go])

    [tela dns hosts] prints a line of a hosts file for every machine of a profile: the address set for
    it, or one computed from its hub and its name.  The theorem relates the lines to the connections
    [tela connect] makes of the same profile. *)

Definition defaultDNSSuffix : string := "tela".
Definition dnsName (suffix machine : string) : string := if suffix =s "" then machine else machine +:+ "." +:+ suffix.

(** [%-18s]. *)
Definition padRight (n : nat) (s : string) : string := s +:+ of_bytes (repeat " "%char (n - length (bytes s))).
Definition hostsLine (e : string * string) : string := padRight 18 (fst e) +:+ " " +:+ snd e.

Definition by_host (a b : string * string) : Prop := String.leb (snd a) (snd b) = true.
#[export] Instance by_host_dec : RelDecision by_host.
Proof. intros a b. unfold by_host. apply _. Defined.

Inductive dnsResult := DnsLines (lines : list string) | DnsExit (code : Z).

Section dns.
  Context {PC : ProfileCodec} (profilesDir : string) (getenv : string -> string).
  (** [mustResolveHub], whose failure ends the process. *)
  Context (resolve : string -> option string).

Definition defaultProfileName (fs : fsys) : string :=
  match ReadDir fs profilesDir with
  | None => ""
  | Some l => match find_first (fun e => negb (is_dir (snd e)) && (Ext (fst e) =s ".yaml")) l with
              | Some e => trim_suffix (fst e) ".yaml"
              | None => ""
              end
  end.

(** The loop over the connections: address and name of every machine, once. *)
Fixpoint hostEntries (lbPrefix suffix : string) (conns : list profileConnection) (seen : gset string)
    (entries : list (string * string)) : option (list (string * string)) :=
  match conns with
  | [] => Some entries
  | c :: conns =>
      hubURL ← resolve (pc_Hub c);
      let machine := pc_Machine c in
      if (hubURL =s "") || (machine =s "") || bool_decide (machine ∈ seen) then hostEntries lbPrefix suffix conns seen entries
      else
        let addr := if pc_Address c =s "" then LoopbackAddr lbPrefix hubURL machine else pc_Address c in
        hostEntries lbPrefix suffix conns ({[ machine ]} ∪ seen) (entries ++ [(addr, dnsName suffix machine)])
  end.

Definition profileHosts (profile : connectionProfile) (suffix : string) : option (list (string * string)) :=
  let lbPrefix := if cp_LoopbackPrefix profile =s "" then "127.88" else cp_LoopbackPrefix profile in
  merge_sort by_host <$> hostEntries lbPrefix suffix (cp_Connections profile) ∅ [].

Definition cmdDNSHosts (uuid : string) (fault : saveEnv) (args : list string) (fs : fsys) : dnsResult * fsys :=
  match Flags.Parse [("profile", false); ("suffix", false)] ∅ args with
  | ParseHelp => (DnsExit 0, fs)
  | ParseError => (DnsExit 2, fs)
  | ParseOk vals _ =>
      let name := if string_value vals "profile" =s "" then defaultProfileName fs else string_value vals "profile" in
      let suffix := default defaultDNSSuffix (vals !! "suffix") in
      if name =s "" then (DnsExit 1, fs)
      else match loadProfile profilesDir getenv uuid fault fs name with
      | (None, fs) => (DnsExit 1, fs)
      | (Some profile, fs) =>
          (match profileHosts profile suffix with
           | None => DnsExit 1
           | Some entries => DnsLines ("# Tela local names -- generated by 'tela dns hosts'" :: map hostsLine entries)
           end, fs)
      end
  end.

Definition cmdDNS (uuid : string) (fault : saveEnv) (args : list string) (fs : fsys) : dnsResult * fsys :=
  match args with
  | [] => (DnsExit 1, fs)
  | a :: rest =>
      if a =s "hosts" then cmdDNSHosts uuid fault rest fs
      else if (a =s "help") || (a =s "-h") || (a =s "--help") then (DnsLines [], fs)
      else (DnsExit 1, fs)
  end.

(** ** The names and the connections *)

Section hosts.
  Context (lookup : string -> string) (lbPrefix suffix : string).
  Implicit Types (conns : list profileConnection) (seen : gset string) (entries : list (string * string)) (merged : list mergedConn).

Lemma dnsName_inj a b : dnsName suffix a = dnsName suffix b -> a = b.
Proof.
  unfold dnsName. case_bool_decide; [done|]. intros E%(f_equal bytes). rewrite !bytes_app in E.
  apply bytes_inj. by apply app_inv_tail in E.
Qed.

(** What a machine's line says of a connection to it. *)
Definition lineOf (m : mergedConn) : string * string :=
  (if mc_address m =s "" then LoopbackAddr lbPrefix (mc_hub m) (mc_machine m) else mc_address m, dnsName suffix (mc_machine m)).
Definition line_names entries : list string := map snd entries.

(** The loops over the connections side by side. *)
Record alongside seen entries (known : gmap string nat) merged : Prop := Alongside {
  al_line : forall e, e ∈ entries -> exists m, m ∈ merged /\ lineOf m = e;
  al_machine : forall m, m ∈ merged -> mc_machine m ∈ seen;
  al_seen : forall x, x ∈ seen <-> dnsName suffix x ∈ line_names entries;
  al_nodup : NoDup (line_names entries);
  al_known : forall k i, known !! k = Some i -> exists m, merged !! i = Some m /\ k = mc_hub m +:+ "||" +:+ mc_machine m
}.

Lemma lineOf_absorb m token services : lineOf (absorb m token services) = lineOf m.
Proof. reflexivity. Qed.

Lemma elem_of_alter (f : mergedConn -> mergedConn) i merged x :
  x ∈ alter f i merged -> x ∈ merged \/ exists y, y ∈ merged /\ x = f y.
Proof.
  intros [j Hj]%list_elem_of_lookup. destruct (decide (i = j)) as [->|Hne].
  - rewrite list_lookup_alter_eq in Hj. apply fmap_Some in Hj as (y & Hy & ->). right. exists y. split; [by eapply list_elem_of_lookup_2|done].
  - rewrite list_lookup_alter_ne in Hj by done. left. by eapply list_elem_of_lookup_2.
Qed.

Lemma split_at_byte {A : Type} (c : A) (a b x y : list A) : c ∉ a -> c ∉ b -> a ++ c :: x = b ++ c :: y -> a = b /\ x = y.
Proof.
  revert b. induction a as [|d a IH]; intros [|e b] Ha Hb E; cbn in E; rewrite ?not_elem_of_cons in *.
  - by injection E as E.
  - injection E as E1 E2. by destruct Hb.
  - injection E as E1 E2. by destruct Ha.
  - injection E as E1 E2. destruct (IH b ltac:(tauto) ltac:(tauto) E2) as [-> ->]. by subst.
Qed.

Lemma key_inj (h m h' m' : string) : ("|"%char : ascii) ∉ bytes m -> ("|"%char : ascii) ∉ bytes m' ->
  h +:+ "||" +:+ m = h' +:+ "||" +:+ m' -> h = h' /\ m = m'.
Proof.
  intros Hm Hm' E%(f_equal (fun s => rev (bytes s))). rewrite !bytes_app, !rev_app_distr in E.
  change (rev (bytes "||")) with ["|"; "|"]%char in E. rewrite <- !app_assoc in E. cbn [app] in E.
  apply split_at_byte in E as [Em Eh]; [|by rewrite list_elem_of_In, <- in_rev, <- list_elem_of_In..]. injection Eh as Eh.
  apply (f_equal (@rev ascii)) in Em, Eh. rewrite !rev_involutive in Em, Eh. by split; apply bytes_inj.
Qed.

Lemma loops_alongside conns seen entries known merged entries' merged' :
  (forall c, c ∈ conns -> ("|"%char : ascii) ∉ bytes (pc_Machine c)) ->
  (forall m, m ∈ merged -> ("|"%char : ascii) ∉ bytes (mc_machine m)) ->
  alongside seen entries known merged ->
  hostEntries lbPrefix suffix conns seen entries = Some entries' ->
  mergeConnections resolve lookup conns known merged = Some merged' ->
  exists seen' known', alongside seen' entries' known' merged'.
Proof.
  revert seen entries known merged. induction conns as [|c conns IH]; intros seen entries known merged Hbar Hm Hal He Hg.
  { injection He as <-. injection Hg as <-. by exists seen, known. }
  cbn [hostEntries mergeConnections] in He, Hg. destruct (resolve (pc_Hub c)) as [hub|]; [|done]. cbn [mbind option_bind] in He, Hg.
  pose proof (Hbar c ltac:(by left)) as Hc. assert (forall c, c ∈ conns -> ("|"%char : ascii) ∉ bytes (pc_Machine c)) as Hbar' by (intros; apply Hbar; by right).
  specialize (fun s e k g => IH s e k g Hbar'). destruct (bool_decide_reflect (hub = "")) as [_|Hhub]; cbn [orb] in He, Hg; [by eapply IH|].
  destruct (bool_decide_reflect (pc_Machine c = "")) as [_|Hmac]; cbn [orb] in He, Hg; [by eapply IH|].
  destruct Hal as [Hl Hs Hsn Hnd Hk]. set (tok := if _ && _ then _ else _) in Hg.
  destruct (known !! (hub +:+ "||" +:+ pc_Machine c)) as [i|] eqn:Hkey.
  - destruct (Hk _ _ Hkey) as (m & Hi & E). apply list_elem_of_lookup_2 in Hi as Hin.
    apply key_inj in E as [Eh Em]; [|done|by apply Hm]. rewrite bool_decide_true in He by (rewrite Em; by apply Hs).
    eapply IH; [|..|exact He|exact Hg].
    + intros x [Hx|(y & Hy & ->)]%elem_of_alter; [by apply Hm|by apply (Hm y)].
    + split; try done.
      * intros e (x & Hx & Hlx)%Hl. apply list_elem_of_lookup in Hx as [j Hj]. destruct (decide (i = j)) as [->|Hne].
        -- exists (absorb x tok (pc_Services c)). split; [|by rewrite lineOf_absorb].
           apply list_elem_of_lookup. exists j. by rewrite list_lookup_alter_eq, Hj.
        -- exists x. split; [|done]. apply list_elem_of_lookup. exists j. by rewrite list_lookup_alter_ne.
      * intros x [Hx|(y & Hy & ->)]%elem_of_alter; [by apply Hs|by apply (Hs y)].
      * intros k j (x & Hx & ->)%Hk. destruct (decide (i = j)) as [->|Hne].
        -- exists (absorb x tok (pc_Services c)). by rewrite list_lookup_alter_eq, Hx.
        -- exists x. by rewrite list_lookup_alter_ne.
  - set (new := MergedConn _ _ _ _ _) in Hg.
    assert (forall x, x ∈ merged ++ [new] -> ("|"%char : ascii) ∉ bytes (mc_machine x)) as Hm'.
    { intros x [Hx| ->%list_elem_of_singleton]%elem_of_app; [by apply Hm|done]. }
    assert (forall k j, <[hub +:+ "||" +:+ pc_Machine c := length merged]> known !! k = Some j ->
      exists m, (merged ++ [new]) !! j = Some m /\ k = mc_hub m +:+ "||" +:+ mc_machine m) as Hk'.
    { intros k j [[<- <-]|[Hne (x & Hx & ->)%Hk]]%lookup_insert_Some.
      - exists new. by rewrite lookup_app_r, Nat.sub_diag by done.
      - exists x. split; [by apply lookup_app_l_Some|done]. }
    destruct (bool_decide_reflect (pc_Machine c ∈ seen)) as [Hin|Hnin]; (eapply IH; [exact Hm'| |exact He|exact Hg]); split; try done.
    + intros e (x & Hx & Hlx)%Hl. exists x. split; [rewrite elem_of_app; by left|done].
    + intros x [Hx| ->%list_elem_of_singleton]%elem_of_app; [by apply Hs|done].
    + intros e [(x & Hx & Hlx)%Hl| ->%list_elem_of_singleton]%elem_of_app.
      * exists x. split; [rewrite elem_of_app; by left|done].
      * exists new. split; [rewrite elem_of_app; right; by left|reflexivity].
    + intros x [Hx%Hs| ->%list_elem_of_singleton]%elem_of_app; set_solver.
    + intros x. unfold line_names. rewrite map_app, elem_of_app, elem_of_union, elem_of_singleton, (Hsn x). cbn [map snd].
      rewrite list_elem_of_singleton. split; [intros [->|?]; [by right|by left]|intros [?|E%dnsName_inj]; [by right|by left]].
    + unfold line_names. rewrite map_app. apply NoDup_app. split_and!; [done| |apply NoDup_singleton].
      intros y Hy ->%list_elem_of_singleton. apply Hnin, Hsn. exact Hy.
Qed.

End hosts.

(** The lines of [tela dns hosts] name the machines [tela connect] connects to with the same profile:
    each machine once, with the address set for its first connection or the one computed
    from that connection's hub. *)
Theorem hosts_name_connections lookup profile suffix lines merged :
  (forall c, c ∈ cp_Connections profile -> ("|"%char : ascii) ∉ bytes (pc_Machine c)) ->
  profileHosts profile suffix = Some lines ->
  mergeConnections resolve lookup (cp_Connections profile) ∅ [] = Some merged ->
  let lbPrefix := if cp_LoopbackPrefix profile =s "" then "127.88" else cp_LoopbackPrefix profile in
  NoDup (map snd lines) /\
  (forall e, e ∈ lines -> exists m, m ∈ merged /\ lineOf lbPrefix suffix m = e) /\
  (forall m, m ∈ merged -> dnsName suffix (mc_machine m) ∈ map snd lines).
Proof.
  intros Hbar Hp Hg lbPrefix. unfold profileHosts in Hp. fold lbPrefix in Hp.
  destruct (hostEntries lbPrefix suffix (cp_Connections profile) ∅ []) as [entries|] eqn:He; [|done]. injection Hp as <-.
  destruct (loops_alongside lookup lbPrefix suffix (cp_Connections profile) ∅ [] ∅ [] entries merged Hbar) as (seen & known & Hal); try done.
  - by intros m Hm%elem_of_nil.
  - split; [by intros e He'%elem_of_nil|by intros m Hm%elem_of_nil| |constructor|done].
    intros x. unfold line_names. cbn. rewrite elem_of_nil. set_solver.
  - destruct Hal as [Hl Hs Hsn Hnd _]. pose proof (merge_sort_Permutation by_host entries) as Hperm. split_and!.
    + rewrite (Permutation_map snd Hperm). exact Hnd.
    + intros e He'. rewrite Hperm in He'. by apply Hl.
    + intros m Hm. rewrite (Permutation_map snd Hperm). by apply Hsn, Hs.
Qed.

End dns.
