(* ===== verification/ClientExamples.v ===== *)
(** * The client: codecs, evaluated instances and corner cases

    The theorems about connecting, resolving, credentials and profiles at small inputs, and what the
    code does where one would not expect it. *)

From S2P Require Import Prelude Auth Http HubConfig FilePath FileSys Sha256 SessionState Session HubStatus Credstore.
From S2P Require Import CertPin AdminState Pair PortalProtocol PortalFile PortalFileProofs PortalServer PortalE2E Agent.
From S2P Require Import AgentMgmt AgentProofs FileShare FileShareProofs MountProofs ClientConnect ClientConnectProofs.
From S2P Require Import ClientConfig ClientConfigProofs Profiles.
From Stdlib Require Import ZArith Lia Ascii String.
From stdpp Require Import base countable gmap strings list fin_maps.

(** ** Ports, services and listeners *)

Definition demo_mappings : list portMapping := [PortMapping 2222 22; PortMapping 80 80]%Z.
Lemma parsePorts_roundtrip_witness :
  String.concat "," (map showMapping demo_mappings) = "2222:22,80:80" /\ parsePorts "2222:22,80:80" = Some demo_mappings.
Proof.
  split; [by vm_compute|]. apply (proj2 parsePorts_roundtrip demo_mappings); [discriminate|].
  repeat apply Forall_cons_2; [..|apply Forall_nil_2]; split; unfold port_ok; cbn; lia.
Defined.

(** Ann's token, with a grant for SSH on one machine. *)
Definition ann_request : request := st_request "GET" "/api/status" "a".
Definition ann_page : list statusMachine := statusRows st_auth 5 st_sessions st_bridges "a".
Lemma resolved_services_shown_witness :
  resolveServiceNames (Some (map machine_of ann_page)) "ssh" "web" = inr [PortMapping 22 22] /\
  may_view st_auth 5 "a" "web".
Proof.
  assert (resolveServiceNames (Some (map machine_of ann_page)) "ssh" "web" = inr [PortMapping 22 22]) as Hr by (by vm_compute).
  split; [exact Hr|].
  apply (resolved_services_shown st_auth 5 st_sessions st_bridges "h1" "" ann_request ann_page (nonEmpty "h1") (nonEmpty "")
    "ssh" "web" [PortMapping 22 22] (PortMapping 22 22)); [by vm_compute|exact Hr|apply list_elem_of_singleton; reflexivity].
Defined.

(** The service her grant leaves out does not resolve. *)
Example unshown_service :
  resolveServiceNames (Some (map machine_of ann_page)) "HTTP" "web" = inl (NoService "HTTP" "web" ["SSH:22"]).
Proof. by vm_compute. Qed.

Definition demo_conn (hub machine token : string) (port : Z) : profileConnection :=
  ProfileConnection "" hub "" machine token "" [ProfileService port 0 ""].
Definition demo_conns : list profileConnection :=
  [demo_conn "wss://h" "web" "" 22; demo_conn "wss://h" "db" "t2" 5432; demo_conn "wss://h" "web" "t1" 80]%Z.
Definition demo_merged : list mergedConn :=
  [MergedConn "wss://h" "web" "t1" "" [ProfileService 22 0 ""; ProfileService 80 0 ""];
   MergedConn "wss://h" "db" "t2" "" [ProfileService 5432 0 ""]]%Z.
Lemma merged_connections_witness :
  mergeConnections Some (fun _ => EmptyString) demo_conns ∅ [] = Some demo_merged /\ NoDup (map keyOf demo_merged).
Proof.
  assert (mergeConnections Some (fun _ => EmptyString) demo_conns ∅ [] = Some demo_merged) as E by (by vm_compute).
  split; [exact E|].
  destruct (merged_connections Some (fun _ => EmptyString) demo_conns (default [] (mapM (single Some (fun _ => EmptyString)) demo_conns)))
    as (merged & Hm & _ & Hnd & _); [by vm_compute|].
  assert (Some merged = Some demo_merged) as Heq by (rewrite <- Hm; exact E). injection Heq as <-. exact Hnd.
Defined.

Definition svc_machine : hubMachine := HubMachine "web" [HubService 22 "SSH" ""; HubService 80 "http" "Web"]%Z.
Definition named_services : list profileService :=
  [ProfileService 0 2222 "ssh"; ProfileService 5900 0 ""; ProfileService 0 0 "web"]%Z.
Lemma profile_services_mapped_witness :
  inSum (profileMappings (Some [svc_machine]) "web" named_services) =
  Some [PortMapping 5900 5900; PortMapping 2222 22; PortMapping 80 80]%Z.
Proof.
  rewrite (profile_services_mapped [svc_machine] "web" named_services); [by vm_compute| |].
  - repeat apply Forall_cons_2; [..|apply Forall_nil_2]; split; try (by vm_compute); apply (bool_decide_unpack _); by vm_compute.
  - apply (bool_decide_unpack _). by vm_compute.
Defined.

(** Port 22 is taken; the second mapping asks for the port the first one was given. *)
Definition busy (p : Z) : bool := negb (p =? 22)%Z.
Definition two_mappings : list portMapping := [PortMapping 22 22; PortMapping 10022 80]%Z.
Lemma listeners_sound_witness :
  bindPersistentListeners busy two_mappings = [(PortMapping 22 22, 10022); (PortMapping 10022 80, 20022)]%Z /\
  NoDup (map snd (bindPersistentListeners busy two_mappings)).
Proof.
  split; [by vm_compute|].
  apply (listeners_sound busy two_mappings). repeat apply Forall_cons_2; [..|apply Forall_nil_2]; split; unfold port_ok; cbn; lia.
Defined.

(** ** Setting up a session *)

Definition msg (t m key : string) (idx : Z) : option controlMessage := Some (ControlMessage t m key [22]%Z "" 0 "" idx).
Definition demo_messages : list (option controlMessage) :=
  [None; msg "wg-pubkey" "" "0123456789abcdef" 0; msg "udp-offer" "" "" 0; msg "ready" "" "" 3].
Lemma session_established_witness :
  set_up newHandshake = false /\ exists h, awaitSession newHandshake demo_messages = Established h.
Proof.
  assert (set_up newHandshake = false) as Hs by reflexivity. split; [exact Hs|].
  apply (session_established newHandshake demo_messages Hs). exists demo_messages, []. split_and!.
  - by rewrite app_nil_r.
  - repeat apply Forall_cons_2; [..|apply Forall_nil_2]; intros m; [discriminate|intros [= <-]..]; cbn;
      split; try discriminate; intros _; unfold slen; cbn; lia.
  - right. eexists. split; [|shelve]. do 3 right. left. Unshelve. all: try reflexivity.
  - right. eexists. split; [|shelve]. right. left. Unshelve. all: try reflexivity.
Defined.

(** The text after the digits of a port is not looked at. *)
Example port_with_tail : parsePort "22abc" = Some 22%Z.
Proof. by vm_compute. Qed.
(** The old flag takes any number, and what does not fit wraps. *)
Example legacy_port_wraps : buildMappings None EmptyString EmptyString 65558 0 "web" = inr [PortMapping 22 22].
Proof. by vm_compute. Qed.
(** Without ports or services no listener is opened, whatever the agent advertises. *)
Example no_mappings_no_listeners : connectListeners (fun _ => true) [] [22; 80]%Z = [].
Proof. by vm_compute. Qed.
(** A connection lost before the session is up counts as a session: the delay starts over. *)
Example lost_handshake_resets :
  startErr Lost = Some SNil /\
  fst (connectLoop (fun _ _ => 0%Z) [SErr; SErr; SErr; SNil] 0 0) = [3 * second; 6 * second; 12 * second; 3 * second]%Z.
Proof. by vm_compute. Qed.
(** The first eight characters of the agent's key are shown, though it may have fewer. *)
Example short_key_panics : awaitSession newHandshake [msg "wg-pubkey" "" "abc" 0] = Panicked.
Proof. by vm_compute. Qed.
(** Beyond 254 the client stays at the last subnet, which is another session's; the agent gives up. *)
Example subnets_disagree :
  sessionAddresses 300 = None /\ clientAddresses 300 = ("10.77.254.1", "10.77.254.2").
Proof. by vm_compute. Qed.
(** The key of a connection is not taken apart again: two machines can share one. *)
Example keys_collide :
  option_map (map mc_machine)
    (mergeConnections Some (fun _ => EmptyString) [demo_conn "wss://a" "b||c" "" 22; demo_conn "wss://a||b" "c" "" 80]%Z ∅ []) =
  Some ["b||c"].
Proof. by vm_compute. Qed.
(** A name with a comma is two names to the resolution, and the local ports behind it move. *)
Example comma_shifts_local_ports :
  inSum (profileMappings (Some [HubMachine "m" [HubService 1 "a" ""; HubService 2 "b" ""; HubService 3 "c" ""]]) "m"
    [ProfileService 0 1000 "a,b"; ProfileService 0 2000 "c"]) =
  Some [PortMapping 1000 1; PortMapping 2000 2; PortMapping 3 3]%Z.
Proof. by vm_compute. Qed.
(** The same service twice: both entries get the local port of the last. *)
Example named_twice_same_local :
  inSum (profileMappings (Some [svc_machine]) "web" [ProfileService 0 2222 "ssh"; ProfileService 0 2223 "ssh"]) =
  Some [PortMapping 2223 22; PortMapping 2223 22]%Z.
Proof. by vm_compute. Qed.

(** ** Codecs *)

Lemma z_bytes_digits p : z_bytes (of_z_bytes (digits_of p)) = digits_of p.
Proof.
  unfold z_bytes, of_z_bytes. rewrite bytes_of_bytes, map_map.
  induction p as [p IH|p IH|]; [..|done]; cbn [digits_of map]; by rewrite IH.
Qed.

Definition remote_to (r : remoteEntry) : string * string * string := (re_URL r, re_Token r, re_HubDirectory r).
Definition remote_from (t : string * string * string) : remoteEntry := RemoteEntry t.1.1 t.1.2 t.2.
Definition node_from (t : (string * string) + option string) : hubNode :=
  match t with inl (u, p) => HubMapping (HubEntry u p) | inr (Some s) => HubScalar s | inr None => HubNone end.
Definition demo_doc (t : gmap string ((string * string) + option string)) : list Z := digits_of (encode t).

Definition hubs_from (t : gmap string ((string * string) + option string)) : gmap string hubNode := node_from <$> t.
Definition tela_to (c : telaConfig) : gmap string (string * string * string) * option (string * string) :=
  (remote_to <$> tc_Remotes c, tc_Portal c).
Definition tela_from (t : gmap string (string * string * string) * option (string * string)) : telaConfig :=
  TelaConfig (remote_from <$> t.1) t.2.
Lemma tela_from_to c : tela_from (tela_to c) = c.
Proof.
  destruct c as [rs portal]. unfold tela_from, tela_to. cbn [fst snd tc_Remotes tc_Portal]. f_equal.
  rewrite <- map_fmap_compose. rewrite <- (map_fmap_id rs) at 2. apply map_fmap_ext. by intros k [] _.
Qed.

#[export] Instance demo_config_codec : ConfigCodec.
Proof.
  refine {| UnmarshalHubs l := p ← of_digits l; hubs_from <$> decode p;
            MarshalTela c := Some (digits_of (encode (tela_to c)));
            UnmarshalTela l := p ← of_digits l; tela_from <$> decode p |}.
  intros c d [= <-]. rewrite of_digits_of. cbn [mbind option_bind]. rewrite decode_encode.
  cbn [fmap option_fmap option_map]. by rewrite tela_from_to.
Defined.

#[export] Instance profileService_eq : EqDecision profileService.
Proof. solve_decision. Defined.
#[export] Instance profileConnection_eq : EqDecision profileConnection.
Proof. solve_decision. Defined.
#[export] Instance profileMount_eq : EqDecision profileMount.
Proof. solve_decision. Defined.
#[export] Instance connectionProfile_eq : EqDecision connectionProfile.
Proof. solve_decision. Defined.

Definition service_to (v : profileService) := (vs_Remote v, vs_Local v, vs_Name v).
Definition service_from (t : Z * Z * string) : profileService := ProfileService t.1.1 t.1.2 t.2.
Definition conn_to (c : profileConnection) :=
  (pc_HubID c, pc_Hub c, pc_AgentID c, pc_Machine c, pc_Token c, pc_Address c, map service_to (pc_Services c)).
Definition conn_from (t : string * string * string * string * string * string * list (Z * Z * string)) : profileConnection :=
  let '(i, h, a, m, k, d, s) := t in ProfileConnection i h a m k d (map service_from s).
Definition profile_to (p : connectionProfile) :=
  (cp_ID p, cp_Name p, map conn_to (cp_Connections p), cp_MTU p, pm_Mount (cp_Mount p), pm_Port (cp_Mount p),
   pm_Auto (cp_Mount p), cp_LoopbackPrefix p).
Definition profile_from t : connectionProfile :=
  let '(i, n, cs, mtu, m, po, au, lp) := t in ConnectionProfile i n (map conn_from cs) mtu (ProfileMount m po au) lp.

Lemma profile_from_to p : profile_from (profile_to p) = p.
Proof.
  destruct p as [i n cs mtu [m po au] lp]. cbn. f_equal. rewrite map_map. rewrite <- map_id. apply map_ext.
  intros [a b c d e g s]. cbn. f_equal. rewrite map_map. rewrite <- map_id. apply map_ext. by intros [].
Qed.

(** Every profile has a text: its code in binary digits. *)
Definition digit_codec : ProfileCodec.
Proof.
  refine {| MarshalProfile p := Some (digits_of (encode (profile_to p)));
            UnmarshalProfile s := q ← of_digits (z_bytes s); profile_from <$> decode q |}.
  intros p d [= <-]. rewrite z_bytes_digits, of_digits_of. cbn [mbind option_bind]. rewrite decode_encode.
  cbn [fmap option_fmap option_map]. by rewrite profile_from_to.
Defined.

(** A readable text, of profiles with one connection and no more in them than it shows. *)
Definition line_profile (s : string) : option connectionProfile :=
  match split_comma s with
  | [id; name; hub; machine; token] =>
      Some (ConnectionProfile id name [ProfileConnection "" hub "" machine token "" []] 0 (ProfileMount "" 0 false) "")
  | _ => None
  end.
Definition profile_line (p : connectionProfile) : string :=
  String.concat "," ([cp_ID p; cp_Name p] ++ flat_map (fun c => [pc_Hub c; pc_Machine c; pc_Token c]) (cp_Connections p)).
Definition line_codec : ProfileCodec.
Proof.
  refine {| MarshalProfile p := let d := z_bytes (profile_line p) in
              if decide (line_profile (of_z_bytes d) = Some p) then Some d else None;
            UnmarshalProfile := line_profile |}.
  intros p d. cbn zeta. destruct (decide _) as [E|]; [|done]. by intros [= <-].
Defined.

(** ** Resolution *)

Lemma pair_eta {A B} (x : A * B) a : fst x = a -> x = (a, snd x).
Proof. by intros <-; destruct x. Qed.

Definition tela_dir : ppath := ["home"; ".tela"].
Abbreviation config_path := (doc_path tela_dir "config.yaml").
Definition hubs_path : string := doc_path tela_dir "hubs.yaml".
Abbreviation portal_net := (portal_fetch no_size one_machine (demo_fenv "") portal_state demo_base).

Lemma config_doc : doc_at tela_dir "config.yaml" demo_disk0.
Proof.
  split; [apply (bool_decide_unpack _); by vm_compute|apply demo_dirs|left; by vm_compute].
Qed.

Lemma config_missing : loadTelaConfig no_fault config_path demo_disk0 = (None, demo_disk0).
Proof.
  assert (ReadFile demo_disk0 config_path = RdNotExist) as E by (vm_compute; reflexivity).
  unfold loadTelaConfig. by rewrite E.
Qed.

Abbreviation remote_added := (cmdRemoteAdd portal_net no_fault config_path demo_disk0 "work" demo_base " operator ").

(** The portal lists the hub as [home]. *)
Lemma remote_added_ok : cmdRemoteAdd portal_net no_fault config_path demo_disk0 "work" demo_base " operator " = (true, snd remote_added).
Proof. apply pair_eta. by vm_compute. Qed.

Lemma remote_add_then_resolve_witness :
  fst (resolveHubURL portal_net no_fault hubs_path config_path (snd remote_added) "HOME") = Some "wss://hub.example/".
Proof.
  pose proof (remote_add_then_resolve no_size one_machine (demo_fenv "") portal_state no_fault tela_dir "config.yaml" demo_disk0
    (snd remote_added) hubs_path "work" demo_base " operator " LocalUser home_listed "HOME"
    (MkHubVisibility "id-1" "home" "https://hub.example/" true "")) as H.
  etransitivity; [apply H|by vm_compute].
  - exact config_doc.
  - exact (f_equal snd config_missing).
  - intros n [r Hr]. exfalso. revert Hr. unfold remotesOf. rewrite config_missing. cbn [fst].
    rewrite lookup_empty. discriminate.
  - by vm_compute.
  - by vm_compute.
  - discriminate.
  - intros r Hr. by apply operator_known.
  - by vm_compute.
  - exact remote_added_ok.
  - discriminate.
  - by vm_compute.
  - by vm_compute.
Defined.

(** A URL with http or https is not taken for one: it is looked up as a name. *)
Example http_url_not_resolved :
  fst (resolveHubURL (fun _ _ => None) no_fault hubs_path config_path demo_disk0 "https://hub.example") = None.
Proof. by vm_compute. Qed.

(** The directory's path is appended as it is announced: without a slash it goes on with the host, and
    the token with it. *)
Definition elsewhere : fetch := fun url token =>
  if url =s "https://portal.example/.well-known/tela" then
    Some (200%Z, BodyJson (JObj [("hub_directory", JStr ".evil.example/hubs")]))
  else if (url =s "https://portal.example.evil.example/hubs") && (token =s "operator") then
    Some (200%Z, BodyJson (JObj [("hubs", JArr [])]))
  else None.
Example directory_continues_host :
  fst (cmdRemoteAdd elsewhere no_fault config_path demo_disk0 "work" demo_base "operator") = true.
Proof. by vm_compute. Qed.

(** A configuration that does not parse is replaced when a remote is added. *)
Definition damaged_config : fsys := <[tela_dir ++ ["config.yaml"] := NFile [33]%Z]> demo_disk0.
Example damaged_config_replaced :
  fst (loadTelaConfig no_fault config_path damaged_config) = None /\
  option_map (fun c => map fst (map_to_list (tc_Remotes c)))
    (fst (loadTelaConfig no_fault config_path
      (snd (cmdRemoteAdd portal_net no_fault config_path damaged_config "work" demo_base "operator")))) = Some ["work"].
Proof. by vm_compute. Qed.

(** A scheme further on in the URL is replaced too. *)
Example scheme_in_query_replaced : httpToWS "wss://h/?next=http://x" = "wss://h/?next=ws://x".
Proof. by vm_compute. Qed.

(** A file with entries of both shapes does not load. *)
Example mixed_shapes_refused :
  hubsOf {["a" := HubMapping (HubEntry "wss://a" ""); "b" := HubScalar "wss://b"]} = None.
Proof. by vm_compute. Qed.

(** The last four characters of a token are all of it when it is short. *)
Example short_token_shown : tokenDisplay "abcd" = "****abcd".
Proof. by vm_compute. Qed.

(** ** Credentials *)

Definition cred_f : string := "credentials.yaml".
Definition etc_dir : ppath := ["etc"; "tela"].
Lemma demo_apart hubs : apart tela_dir etc_dir cred_f cred_f (demo_cred_disk hubs).
Proof.
  assert (forall ds : ppath, bool_decide (good_elems (ds ++ [cred_f])) = true -> good_elems (ds ++ [cred_f])) as Hg.
  { intros ds Hds. by apply bool_decide_eq_true in Hds. }
  assert (forall m : CredStore, is_Some (MarshalCred m)) as Hm by (intros m; by eexists).
  unfold demo_cred_disk. destruct (Hm (MkCredStore hubs noUpdate)) as [du ->].
  destruct (Hm (MkCredStore {["wss://hub.example" := MkCredential "system-token" "" ""]} noUpdate)) as [dsys ->].
  split.
  - split; [apply Hg; by vm_compute| |right; by eexists].
    apply (dir_at_snoc ["home"]); [|done]. apply (dir_at_snoc []); [apply dir_at_nil|done].
  - split; [apply Hg; by vm_compute| |right; by eexists].
    apply (dir_at_snoc ["etc"]); [|done]. apply (dir_at_snoc []); [apply dir_at_nil|done].
  - discriminate.
  - apply (bool_decide_unpack _). by vm_compute.
Qed.

Definition demo_hubs : gmap string Credential := cs_Hubs demo_store.
Definition cred_user : string := doc_path tela_dir cred_f.
Definition cred_system : string := doc_path etc_dir cred_f.
Definition logged_in : bool * fsys := cmdLogin no_fault cred_user (demo_cred_disk demo_hubs) "https://hub.example/" "" "new" "".

Lemma login_stores_witness :
  fst logged_in = true /\ LookupToken (snd logged_in) cred_user cred_system "WSS://hub.example" = "new".
Proof.
  assert (fst logged_in = true) as Hok by (by vm_compute). split; [exact Hok|].
  destruct (login_stores no_fault tela_dir etc_dir cred_f cred_f (demo_cred_disk demo_hubs) "https://hub.example/" "" "new" ""
    demo_store (snd logged_in) "WSS://hub.example") as (H & _).
  - apply demo_apart.
  - by vm_compute.
  - exact (pair_eta _ _ Hok).
  - etransitivity; [exact H|]. by vm_compute.
Defined.

Definition demo_key : certificate := Certificate [1; 2; 3]%Z.
Definition demo_tls (c : certificate) : connectionState := ConnectionState [] [c].
Abbreviation pinned :=
  (cmdPin no_fault cred_user cred_system (demo_cred_disk demo_hubs) "hub.example" [Capture (Some demo_key)] false).



(** The pin of an entry in [hubs.yaml] is read and never asked for. *)
Example hubs_yaml_pin_ignored :
  let fs := <[tela_dir ++ ["hubs.yaml"] := NFile (demo_doc {["work" := inl ("wss://other.example", Capture (Some demo_key))]})]>
              (demo_cred_disk demo_hubs) in
  option_map (fun m => he_Pin <$> m !! "work") (loadHubsConfig hubs_path fs) = Some (Some (Capture (Some demo_key))) /\
  fst (resolveHubURL (fun _ _ => None) no_fault hubs_path config_path fs "work") = Some "wss://other.example" /\
  pinVerifier cred_user cred_system fs "wss://other.example" (demo_tls (Certificate [9]%Z)) = None.
Proof. by vm_compute. Qed.

Definition pinned_hubs : gmap string Credential :=
  {["wss://hub.example" := MkCredential "mine" "" (Capture (Some demo_key))]}.
Definition paired : bool * fsys :=
  cmdPair no_fault cred_user (hub_pair (env_at 6) asked) (demo_cred_disk pinned_hubs) "hub.example" "1234-".

(** A hub that was pinned is paired with again: the token is the new one, the pin is gone. *)
Lemma pair_end_to_end_witness :
  fst paired = true /\
  LookupToken (snd paired) cred_user cred_system "wss://hub.example/" = "1234" /\
  LookupPin (demo_cred_disk pinned_hubs) cred_user cred_system "wss://hub.example/" = Capture (Some demo_key) /\
  LookupPin (snd paired) cred_user cred_system "wss://hub.example/" = "".
Proof.
  assert (fst paired = true) as Hok by (by vm_compute). split; [exact Hok|].
  destruct (pair_end_to_end no_fault tela_dir etc_dir cred_f cred_f (env_at 6) asked (demo_cred_disk pinned_hubs) "hub.example" "1234-"
    (MkCredStore pinned_hubs noUpdate) (snd paired) "wss://hub.example/") as (pc & token & _ & _ & _ & Hgen & Ht & Hp & _).
  - apply demo_apart.
  - by vm_compute.
  - exact (pair_eta _ _ Hok).
  - assert (generateToken (env_rand (env_at 6)) = Some "1234") as E by (by vm_compute). rewrite E in Hgen. injection Hgen as <-.
    split_and!; [etransitivity; [exact Ht|by vm_compute]|by vm_compute|].
    etransitivity; [apply Hp; by vm_compute|by vm_compute].
Defined.

(** ** Profiles *)

Definition old_profile : connectionProfile :=
  ConnectionProfile "" "" [ProfileConnection "" "wss://h" "" "web" "${TOKEN}" "" []] 0 (ProfileMount "" 0 false) "".
Definition with_token (t : string) (id name : string) : connectionProfile :=
  ConnectionProfile id name [ProfileConnection "" "wss://h" "" "web" t "" []] 0 (ProfileMount "" 0 false) "".
Definition profiles_dir : ppath := ["home"; ".tela"; "profiles"].
Definition profiles_path : string := abs profiles_dir.
Definition profile_disk (d : list Z) : fsys :=
  <[profiles_dir := NDir]> (<[profiles_dir ++ ["work.yaml"] := NFile d]> demo_disk0).
Definition old_text : list Z := z_bytes (profile_line old_profile).
Definition demo_getenv (name : string) : string := if name =s "TOKEN" then "s3cret" else "".

Lemma profile_dirs d : dir_at profiles_dir (profile_disk d).
Proof.
  change profiles_dir with (tela_dir ++ ["profiles"]). apply dir_at_snoc.
  - intros q Hq Hp. unfold profile_disk. rewrite !lookup_insert_ne.
    + exact (proj1 demo_dirs q Hq Hp).
    + intros E. subst q. apply prefix_length in Hp. cbn in Hp. lia.
    + intros E. subst q. apply prefix_length in Hp. cbn in Hp. lia.
  - unfold profile_disk. by rewrite lookup_insert_eq.
Qed.

Lemma profile_doc d : doc_at profiles_dir "work.yaml" (profile_disk d).
Proof.
  split; [apply (bool_decide_unpack _); by vm_compute|apply profile_dirs|right; exists d].
  unfold profile_disk. by rewrite lookup_insert_ne, lookup_insert_eq.
Qed.

Definition loaded : option connectionProfile * fsys :=
  @loadProfile line_codec profiles_path demo_getenv "u-1" no_fault (profile_disk old_text) "work".
Definition settled_profile : connectionProfile := with_token "s3cret" "u-1" "work".

Lemma load_settles_witness :
  fst loaded = Some settled_profile /\
  @loadProfile line_codec profiles_path demo_getenv "u-2" no_fault (snd loaded) "work" = (Some settled_profile, snd loaded).
Proof.
  assert (fst loaded = Some settled_profile) as Hok by (by vm_compute). split; [exact Hok|].
  destruct (@load_settles line_codec profiles_path demo_getenv "u-1" no_fault profiles_dir "work.yaml" (profile_disk old_text) "work"
    settled_profile (snd loaded)) as (_ & _ & _ & [[_ H]|H]).
  - apply profile_doc.
  - by vm_compute.
  - discriminate.
  - exact (pair_eta _ _ Hok).
  - exfalso. specialize (H "u-2" no_fault). apply (f_equal (fun x => option_map cp_ID (fst x))) in H. vm_compute in H. discriminate.
  - apply (H (z_bytes (profile_line settled_profile))); [reflexivity|vm_compute; reflexivity|].
    apply (bool_decide_unpack _). by vm_compute.
Defined.

(** Loading an old profile puts the values of the variables into the file. *)
Example secret_written :
  old_text = z_bytes ",,wss://h,web,${TOKEN}" /\
  snd loaded !! (profiles_dir ++ ["work.yaml"]) = Some (NFile (z_bytes "u-1,work,wss://h,web,s3cret")).
Proof. by vm_compute. Qed.

Definition old_digits : list Z := digits_of (encode (profile_to old_profile)).
Definition digits_disk : fsys := profile_disk old_digits.
Example migrated_one :
  fst (@cmdProfileMigrate digit_codec profiles_path (fun _ => "u-3") (fun _ => no_fault) digits_disk) = Some [Migrated].
Proof. vm_compute. reflexivity. Qed.

Lemma work_there d : profile_disk d !! (profiles_dir ++ ["work.yaml"]) = Some (NFile d).
Proof. unfold profile_disk. rewrite lookup_insert_ne by discriminate. apply lookup_insert_eq. Qed.

Lemma settled_parsed `{ProfileCodec} f d p o :
  UnmarshalProfile (of_z_bytes d) = Some p -> is_profile_name f = true -> settled f (NFile d) o ->
  exists d' uuid, o = Some (NFile d') /\ UnmarshalProfile (of_z_bytes d') = Some (migrated uuid (stem f) p).
Proof. unfold settled. intros -> -> (d' & uuid & Ho & Hu & _). by exists d', uuid. Qed.

Lemma old_digits_read : @UnmarshalProfile digit_codec (of_z_bytes old_digits) = Some old_profile.
Proof. vm_compute. reflexivity. Qed.

Lemma profile_entries e n : digits_disk !! (profiles_dir ++ [e]) = Some n -> plain_entry profiles_dir digits_disk (e, n).
Proof.
  intros Hn. unfold digits_disk, profile_disk in Hn. apply lookup_insert_Some in Hn as [[E _]|[_ Hn]].
  { apply (f_equal length) in E. rewrite length_app in E. cbn in E. lia. }
  apply lookup_insert_Some in Hn as [[E <-]|[_ Hn]].
  - apply app_inv_head in E. injection E as <-.
    split_and!; [apply (bool_decide_unpack _); vm_compute; exact I|exact (work_there old_digits)|right; by eexists].
  - exfalso.
    assert (map_Forall (fun l _ => length l <= 3)%nat demo_disk0) as Hshort by (apply (bool_decide_unpack _); vm_compute; exact I).
    specialize (Hshort _ _ Hn). cbn beta in Hshort. rewrite length_app in Hshort. cbn in Hshort. lia.
Qed.

(** The migration of all profiles keeps the reference. *)
Lemma migrate_exact_witness :
  let '(ms, fs') := @cmdProfileMigrate digit_codec profiles_path (fun _ => "u-3") (fun _ => no_fault) digits_disk in
  is_Some ms /\
  exists d p, fs' !! (profiles_dir ++ ["work.yaml"]) = Some (NFile d) /\
    @UnmarshalProfile digit_codec (of_z_bytes d) = Some p /\ map pc_Token (cp_Connections p) = ["${TOKEN}"].
Proof.
  pose proof (@migrate_exact digit_codec profiles_path (fun _ => "u-3") profiles_dir digits_disk) as H.
  destruct (@cmdProfileMigrate _ _ _ _ _) as [ms fs'].
  destruct H as (Hms & Hs & _).
  - reflexivity.
  - apply (bool_decide_unpack _). by vm_compute.
  - apply profile_dirs.
  - exact profile_entries.
  - intros p. by eexists.
  - split; [exact Hms|].
    destruct (@settled_parsed digit_codec "work.yaml" _ _ _ old_digits_read eq_refl (Hs "work.yaml" (NFile old_digits) (work_there old_digits)))
      as (d' & uuid & Hd & Hu). exists d', (migrated uuid (stem "work.yaml") old_profile).
    split; [exact Hd|]. split; [exact Hu|reflexivity].
Defined.

(** A profile that ends in [.yml] is listed and shown, and not found by its name. *)
Example yml_not_found :
  let fs := <[profiles_dir := NDir]> (<[profiles_dir ++ ["home.yml"] := NFile old_text]> demo_disk0) in
  cmdProfileList profiles_path fs = Some ["home"] /\ cmdProfileShow profiles_path fs "home" = Some old_text /\
  fst (@loadProfile line_codec profiles_path demo_getenv "u-1" no_fault fs "home") = None.
Proof. by vm_compute. Qed.
