(* ===== verification/ClientAdmin.v ===== *)
(** * The remote administration commands ([tela admin], [internal/client/admin.go])

    A command is a function of its arguments in a small command monad: it reads the environment and
    the local files, sends requests to the hub, prints, and ends or exits with a code.  The network
    is a parameter with a state of its own, so the hub at the other end can be a model of the hub
    ([AdminE2E]) or anything else. *)

From S2P Require Import Prelude Http Flags Url FileSys Timestamp ClientConnect ClientConfig.
From Stdlib Require Import ZArith Lia Ascii String.
From stdpp Require Import base gmap strings list.

(** ** Requests and answers *)

(** [hq_Pinned]: the connection is refused when a recorded certificate pin does not match. *)
Record httpReq := HttpReq {
  hq_Method : string;
  hq_URL : string;
  hq_Bearer : string;
  hq_Body : option json;
  hq_Pinned : bool
}.

(** An answer with the size of its body, which the client reads to a limit. *)
Record answer := Answer { an_Status : Z; an_Body : reqBody; an_Size : Z }.

(** What the commands ask of the client's own files: the address behind a name, and the token
    stored for a hub. *)
Class HubBook := {
  bookResolve : fsys -> string -> option string * fsys;
  bookToken : fsys -> string -> string
}.

(** ** Commands *)

(** Text on standard output: a line, a line around a value printed with [%v], a row of a table, or
    an indented JSON document. *)
Inductive printed :=
  | Line (s : string)
  | ValueLine (before : string) (v : option json) (after : string)
  | Row (cells : list string)
  | Doc (kvs : list (string * json)).

Inductive outcome (A : Type) := Done (a : A) | Exit (code : Z).
Arguments Done {A} a.
Arguments Exit {A} code.

(** The members of a decoded object. *)
Abbreviation fields := (list (string * json)).

Section commands.
  Context {W : Type} {HB : HubBook}.
  (** The network; the environment variables; the clock; the JSON value of a text. *)
  Context (send : httpReq -> W -> option answer * W).
  Context (getenv : string -> string) (now : Z) (parseJSON : string -> option json).
  (** [time.ParseDuration], and the float that [Sscanf] reads off a text as days, as a duration. *)
  Context (ParseDuration SscanDays : string -> option Z).

Record cli := Cli {
  cl_fs : fsys;
  cl_world : W;
  cl_out : list printed;
  cl_err : list string
}.

Definition cmd (A : Type) : Type := cli -> outcome A * cli.
Definition ret {A} (a : A) : cmd A := fun s => (Done a, s).
Definition bind {A B} (c : cmd A) (k : A -> cmd B) : cmd B := fun s =>
  match c s with
  | (Done a, s) => k a s
  | (Exit code, s) => (Exit code, s)
  end.

#[local] Notation "'let*' x ':=' c 'in' k" := (bind c (fun x => k))
  (at level 10, x binder, c at level 100, k at level 200).
#[local] Notation "c ;; k" := (bind c (fun _ => k)) (at level 100, k at level 200, right associativity).

Definition exit {A} (code : Z) : cmd A := fun s => (Exit code, s).
Definition emit (p : printed) : cmd unit := fun s =>
  (Done tt, Cli (cl_fs s) (cl_world s) (cl_out s ++ [p]) (cl_err s)).
Definition println (s : string) : cmd unit := emit (Line s).
Definition eprintln (e : string) : cmd unit := fun s =>
  (Done tt, Cli (cl_fs s) (cl_world s) (cl_out s) (cl_err s ++ [e])).
Definition die {A} (e : string) : cmd A := eprintln e;; exit 1.
Definition ask (r : httpReq) : cmd (option answer) := fun s =>
  let '(a, w) := send r (cl_world s) in (Done a, Cli (cl_fs s) w (cl_out s) (cl_err s)).

(** ** The environment and the flags *)

Definition envOrDefault (key fallback : string) : string :=
  if getenv key <>s "" then getenv key else fallback.

Definition adminTokenDefault : string :=
  if getenv "TELA_OWNER_TOKEN" <>s "" then getenv "TELA_OWNER_TOKEN" else getenv "TELA_TOKEN".

(** The two flags every command has, and the values a flag set begins with. *)
Definition hubFlags : flagSet := [("hub", false); ("token", false)].
Definition hubValues : flagValues :=
  {[ "hub" := envOrDefault "TELA_HUB" ""; "token" := adminTokenDefault ]}.

(** [flag.ExitOnError]: asking for help ends with 0, a bad command line with 2. *)
Definition parseFlags (extra : flagSet) (defaults : flagValues) (args : list string)
    : cmd (flagValues * list string) :=
  match Flags.Parse (hubFlags ++ extra) (defaults ∪ hubValues) args with
  | ParseOk vals rest => ret (vals, rest)
  | ParseHelp => exit 0
  | ParseError => exit 2
  end.
Definition permuted (extra : flagSet) (defaults : flagValues) (args : list string)
    : cmd (flagValues * list string) :=
  parseFlags extra defaults (permuteArgs (hubFlags ++ extra) args).

(** [strconv.ParseInt(s, 0, 64)], which [flag.Int] reads its value with: digits after an optional
    base, with single underscores between them when the base is given by its prefix. *)
Definition digitIn (base : Z) (c : ascii) : option Z :=
  match hex_val c with Some v => if (v <? base)%Z then Some v else None | None => None end.
Fixpoint digitsIn (base : Z) (underscored : bool) (l : list ascii) (acc : Z) (afterDigit : bool) : option Z :=
  match l with
  | [] => if afterDigit then Some acc else None
  | c :: l' =>
      if underscored && Ascii.eqb c "_" then
        match l' with
        | d :: _ => if afterDigit && negb (Ascii.eqb d "_") then digitsIn base underscored l' acc false else None
        | [] => None
        end
      else match digitIn base c with
           | Some v => digitsIn base underscored l' (acc * base + v)%Z true
           | None => None
           end
  end.
Definition unsignedText (l : list ascii) : option Z :=
  match l with
  | "0"%char :: c :: l' =>
      let prefixed base := digitsIn base true l' 0%Z true in
      let nonEmptyAfter (o : option Z) := match l' with [] => None | _ => o end in
      if Ascii.eqb (lower_byte c) "x" then nonEmptyAfter (prefixed 16%Z)
      else if Ascii.eqb (lower_byte c) "b" then nonEmptyAfter (prefixed 2%Z)
      else if Ascii.eqb (lower_byte c) "o" then nonEmptyAfter (prefixed 8%Z)
      else digitsIn 8 true (c :: l') 0%Z true
  | _ => digitsIn 10 true l 0%Z false
  end.
Definition ParseInt0 (s : string) : option Z :=
  let ranged (o : option Z) :=
    v ← o; if ((-9223372036854775808 <=? v) && (v <? 9223372036854775808))%Z then Some v else None in
  match bytes s with
  | c :: l => if Ascii.eqb c "-" then ranged (Z.opp <$> unsignedText l)
              else if Ascii.eqb c "+" then ranged (unsignedText l)
              else ranged (unsignedText (c :: l))
  | [] => None
  end.

(** Every value the parser gives to a flag before it stops. *)
Fixpoint valuesGiven (fl : flagSet) (name : string) (args : list string) : list string :=
  match args with
  | [] => []
  | s :: rest =>
      if negb (flag_like s) || (s =s "--") then []
      else match one_flag fl s with
      | FlagHelp | FlagError => []
      | FlagSet n v => (if n =s name then [v] else []) ++ valuesGiven fl name rest
      | FlagNeeds n =>
          match rest with
          | [] => []
          | v :: rest' => (if n =s name then [v] else []) ++ valuesGiven fl name rest'
          end
      end
  end.
(** The flag [-n] of the log commands is an integer. *)
Definition permutedInt (extra : flagSet) (name : string) (dflt : Z) (args : list string)
    : cmd (flagValues * list string * Z) :=
  let args := permuteArgs (hubFlags ++ extra) args in
  if forallb (fun v => match ParseInt0 v with Some _ => true | None => false end)
       (valuesGiven (hubFlags ++ extra) name args) then
    let* p := parseFlags extra ∅ args in
    ret (p, default dflt (v ← fst p !! name; ParseInt0 v))
  else exit 2.

(** ** Reaching the hub *)

Definition mustResolveHub (value : string) : cmd string := fun s =>
  let '(o, fs) := bookResolve (cl_fs s) value in
  let s := Cli fs (cl_world s) (cl_out s) (cl_err s) in
  match o with
  | Some url => (Done url, s)
  | None => die "Error: cannot resolve the hub" s
  end.
Definition lookupToken (hub : string) : cmd string := fun s => (Done (bookToken (cl_fs s) hub), s).

Definition adminParseHubAndToken (vals : flagValues) : cmd (string * string) :=
  let* hubURL := mustResolveHub (string_value vals "hub") in
  let token := string_value vals "token" in
  if hubURL =s "" then die "Error: -hub is required (or set TELA_HUB)"
  else
    let* token := if token =s "" then lookupToken hubURL else ret token in
    if token =s "" then
      die "Error: -token is required (or set TELA_OWNER_TOKEN / TELA_TOKEN, or use 'tela login')"
    else ret (hubURL, token).

(** The same three lines in each agent command. *)
Definition agentHubAndToken (vals : flagValues) : cmd (string * string) :=
  let* hub := mustResolveHub (string_value vals "hub") in
  let tok := string_value vals "token" in
  let* tok := if tok =s "" then lookupToken hub else ret tok in
  ret (hub, tok).

(** A JSON object as a [map[string]any]; anything else leaves the map empty. *)
Definition bodyLimit : Z := 65536.
Definition resultOf (a : answer) : fields :=
  if (bodyLimit <? an_Size a)%Z then []
  else match an_Body a with BodyJson (JObj kvs) => kvs | _ => [] end.

(** [None]: the request could not be built or the hub could not be reached. *)
Definition adminHTTP (method hubURL path token : string) (body : option json) : cmd (option (Z * fields)) :=
  let* a := ask (HttpReq method (wsToHTTP hubURL +:+ path) token body true) in
  ret ((fun a => (an_Status a, resultOf a)) <$> a).

Definition adminCheckError (status : Z) (result : fields) : cmd unit :=
  if ((200 <=? status) && (status <? 300))%Z then ret tt
  else
    let errMsg := match json_key result "error" with Some (JStr e) => e | _ => "unknown error" end in
    die ("Error (HTTP " +:+ Itoa status +:+ "): " +:+ errMsg).

(** The four lines after every request: an error ends the command, and so does a refusal. *)
Definition call (method hubURL path token : string) (body : option json) : cmd fields :=
  let* r := adminHTTP method hubURL path token body in
  match r with
  | None => die "Error: could not reach hub"
  | Some (status, result) => adminCheckError status result;; ret result
  end.

Definition rstr (result : fields) (k : string) : string := as_string (json_key result k).
Definition rbool (result : fields) (k : string) : bool :=
  match json_key result k with Some (JBool b) => b | _ => false end.
Definition rarr (result : fields) (k : string) : list json :=
  match json_key result k with Some (JArr l) => l | _ => [] end.
Definition strings_of (l : list json) : list string :=
  omap (fun j => match j with JStr s => Some s | _ => None end) l.
Definition objects_of (l : list json) : list fields :=
  omap (fun j => match j with JObj kvs => Some kvs | _ => None end) l.

(** The elements one after the other. *)
Fixpoint each {A} (f : A -> cmd unit) (l : list A) : cmd unit :=
  match l with [] => ret tt | a :: l => f a;; each f l end.
Definition json_strings (l : list (string * string)) : json := JObj (map (fun kv => (kv.1, JStr kv.2)) l).

Definition nowActive : string := "Change is already active (no hub restart needed).".
Definition saveThis : string := "SAVE THIS TOKEN -- it will not be shown again.".

(** ** tela admin tokens *)

(** A row of the table of identities; the expiry only counts while it parses. *)
Definition tokenStatus (revoked expires : string) : string :=
  if revoked <>s "" then "revoked"
  else if expires <>s "" then
    match ParseRFC3339 expires with
    | Some exp => if (exp <? now)%Z then "expired" else "active"
    | None => "active"
    end
  else "active".
Definition orDash (s : string) : string := if s =s "" then "-" else s.
Definition tokenRow (e : fields) : printed :=
  let expires := rstr e "expiresAt" in
  Row [rstr e "id"; rstr e "role"; tokenStatus (rstr e "revokedAt") expires; orDash expires;
       orDash (rstr e "issuedAt"); rstr e "tokenPreview"].

Definition cmdAdminListTokens (args : list string) : cmd unit :=
  let* p := parseFlags [("json", true)] {[ "json" := "false" ]} args in
  let* ht := adminParseHubAndToken (fst p) in
  let* result := call "GET" (fst ht) "/api/admin/tokens" (snd ht) None in
  if bool_value (fst p) "json" then emit (Doc result)
  else match rarr result "tokens" with
       | [] => println "No auth tokens configured."
       | tokens =>
           emit (Row ["ID"; "ROLE"; "STATUS"; "EXPIRES"; "ISSUED"; "TOKEN PREVIEW"]);;
           each (fun e => emit (tokenRow e)) (objects_of tokens)
       end.

(** The expiry as an instant: a timestamp, or a number of days, weeks or years from now. *)
Definition parseExpires (s : string) : option Z :=
  match ParseRFC3339 s with
  | Some t => Some t
  | None =>
      match rev (bytes s) with
      | unit :: (_ :: _) as nstr =>
          match Atoi (of_bytes (rev nstr)) with
          | Some n =>
              if (n <=? 0)%Z then None
              else if Ascii.eqb unit "d" then Some (AddDate now 0 n)
              else if Ascii.eqb unit "w" then Some (AddDate now 0 (i64 (7 * n)))
              else if Ascii.eqb unit "y" then Some (AddDate now n 0)
              else None
          | None => None
          end
      | _ => None
      end
  end.

(** The body of the request, in the order [encoding/json] writes a map. *)
Definition addTokenBody (id role : string) (expiresAt : option string) : json :=
  json_strings (match expiresAt with Some t => [("expiresAt", t)] | None => [] end ++
                [("id", id)] ++ (if role =s "" then [] else [("role", role)])).

Definition cmdAdminAddToken (args : list string) : cmd unit :=
  let* p := permuted [("role", false); ("expires", false)] {[ "role" := ""; "expires" := "" ]} args in
  match snd p with
  | [] => die "Usage: tela admin add-token <id> -hub <hub> -token <token> [-role owner|admin] [-expires <when>]"
  | id :: _ =>
      let* ht := adminParseHubAndToken (fst p) in
      let role := string_value (fst p) "role" in
      let expires := string_value (fst p) "expires" in
      let* expiresAt :=
        if expires =s "" then ret None
        else match parseExpires expires with
             | Some t => ret (Some (FormatRFC3339 t))
             | None => die "Error: invalid -expires value"
             end in
      let* result := call "POST" (fst ht) "/api/admin/tokens" (snd ht) (Some (addTokenBody id role expiresAt)) in
      println ("Added identity '" +:+ id +:+ "'" +:+
               (if role =s "" then "" else " (role: " +:+ role +:+ ")") +:+
               match expiresAt with Some t => " (expires: " +:+ t +:+ ")" | None => "" end);;
      println ("  Token: " +:+ rstr result "token");;
      println "";;
      println saveThis;;
      println nowActive
  end.

(** The first positional arguments a command needs, or its usage line. *)
Definition needArgs (n : nat) (usage : string) (rest : list string) : cmd unit :=
  if (length rest <? n)%nat then die usage else ret tt.
Definition arg (rest : list string) (i : nat) : string := default "" (rest !! i).

Definition cmdAdminRemoveToken (args : list string) : cmd unit :=
  let* p := permuted [] ∅ args in
  needArgs 1 "Usage: tela admin remove-token <id> -hub <hub> -token <token>" (snd p);;
  let id := arg (snd p) 0 in
  let* ht := adminParseHubAndToken (fst p) in
  let* _ := call "DELETE" (fst ht) ("/api/admin/access/" +:+ PathEscape id) (snd ht) None in
  println ("Removed identity '" +:+ id +:+ "' and cleaned up machine ACLs.");;
  println nowActive.

Definition cmdAdminRotate (args : list string) : cmd unit :=
  let* p := permuted [] ∅ args in
  needArgs 1 "Usage: tela admin rotate <id> -hub <hub> -token <token>" (snd p);;
  let id := arg (snd p) 0 in
  let* ht := adminParseHubAndToken (fst p) in
  let* result := call "POST" (fst ht) ("/api/admin/rotate/" +:+ id) (snd ht) None in
  println ("Rotated token for '" +:+ id +:+ "'.");;
  println ("  New token: " +:+ rstr result "token");;
  println "";;
  println saveThis;;
  println nowActive.

Definition cmdAdminRevokeToken (args : list string) : cmd unit :=
  let* p := permuted [] ∅ args in
  needArgs 1 "Usage: tela admin tokens revoke <id> -hub <hub> -token <token>" (snd p);;
  let id := arg (snd p) 0 in
  let* ht := adminParseHubAndToken (fst p) in
  let* result := call "POST" (fst ht) ("/api/admin/tokens/" +:+ PathEscape id +:+ "/revoke") (snd ht) None in
  let at_ := json_key result "revokedAt" in
  if rstr result "status" =s "already-revoked" then
    emit (ValueLine ("Identity '" +:+ id +:+ "' was already revoked at ") at_ ".")
  else
    emit (ValueLine ("Revoked identity '" +:+ id +:+ "' at ") at_ ".");;
    println nowActive.

Definition cmdAdminTokens (args : list string) : cmd unit :=
  match args with
  | [] => die "Usage: tela admin tokens list|add|rotate|revoke|remove"
  | sub :: rest =>
      if sub =s "list" then cmdAdminListTokens rest
      else if sub =s "add" then cmdAdminAddToken rest
      else if sub =s "rotate" then cmdAdminRotate rest
      else if sub =s "revoke" then cmdAdminRevokeToken rest
      else if (sub =s "remove") || (sub =s "rm") then cmdAdminRemoveToken rest
      else die ("Unknown tokens subcommand: " +:+ sub)
  end.

(** ** tela admin portals *)

Definition portalRow (e : fields) : printed :=
  Row [rstr e "name"; rstr e "url"; if rbool e "hasSyncToken" then "yes" else "no"].

Definition cmdAdminListPortals (args : list string) : cmd unit :=
  let* p := parseFlags [("json", true)] {[ "json" := "false" ]} args in
  let* ht := adminParseHubAndToken (fst p) in
  let* result := call "GET" (fst ht) "/api/admin/portals" (snd ht) None in
  if bool_value (fst p) "json" then emit (Doc result)
  else match rarr result "portals" with
       | [] => println "No portals configured."
       | portals =>
           emit (Row ["NAME"; "URL"; "SYNC TOKEN"]);;
           each (fun e => emit (portalRow e)) (objects_of portals)
       end.

Definition addPortalBody (name portalURL hubURL portalToken : string) : json :=
  json_strings ([("hubUrl", hubURL); ("name", name)] ++
    (if portalToken =s "" then [] else [("portalToken", portalToken)]) ++ [("portalUrl", portalURL)]).

Definition cmdAdminAddPortal (args : list string) : cmd unit :=
  let* p := permuted [("portal-url", false); ("portal-token", false); ("hub-url", false)]
              {[ "portal-url" := ""; "portal-token" := ""; "hub-url" := "" ]} args in
  needArgs 1 "Usage: tela admin add-portal <name> -hub <hub> -token <token> -portal-url <url> [-hub-url <url>] [-portal-token <token>]" (snd p);;
  let name := arg (snd p) 0 in
  let* ht := adminParseHubAndToken (fst p) in
  let portalURL := string_value (fst p) "portal-url" in
  if portalURL =s "" then die "Error: -portal-url is required"
  else
    let hubURL := string_value (fst p) "hub-url" in
    let effectiveHubURL := if hubURL =s "" then wsToHTTP (fst ht) else hubURL in
    let* result := call "POST" (fst ht) "/api/admin/portals" (snd ht)
      (Some (addPortalBody name portalURL effectiveHubURL (string_value (fst p) "portal-token"))) in
    println ((if rstr result "status" =s "updated" then "Updated portal '" else "Added portal '") +:+
             name +:+ "' (" +:+ rstr result "url" +:+ ")");;
    println (if rbool result "hasSyncToken"
             then "Sync token received -- viewer token updates will be automatic."
             else "Warning: no sync token returned -- upgrade the portal to enable auto-sync.");;
    println nowActive.

Definition cmdAdminRemovePortal (args : list string) : cmd unit :=
  let* p := permuted [] ∅ args in
  needArgs 1 "Usage: tela admin remove-portal <name> -hub <hub> -token <token>" (snd p);;
  let name := arg (snd p) 0 in
  let* ht := adminParseHubAndToken (fst p) in
  let* _ := call "DELETE" (fst ht) ("/api/admin/portals/" +:+ PathEscape name) (snd ht) None in
  println ("Removed portal '" +:+ name +:+ "'.");;
  println nowActive.

Definition cmdAdminPortals (args : list string) : cmd unit :=
  match args with
  | [] => die "Usage: tela admin portals list|add|remove"
  | sub :: rest =>
      if sub =s "list" then cmdAdminListPortals rest
      else if sub =s "add" then cmdAdminAddPortal rest
      else if (sub =s "remove") || (sub =s "rm") then cmdAdminRemovePortal rest
      else die ("Unknown portals subcommand: " +:+ sub)
  end.

(** ** tela admin pair-code *)

Definition durationOf (s : string) : option Z :=
  if has_suffix s "d" then SscanDays (trim_suffix s "d") else ParseDuration s.

Definition pairCodeBody (machineID codeType : string) (machines : list string) (expiresIn : Z) : json :=
  JObj ([("machineId", JStr machineID)] ++
        (if codeType =s "" then [] else [("type", JStr codeType)]) ++
        [("machines", JArr (map JStr machines)); ("expiresIn", JNum expiresIn)]).

Definition cmdAdminPairCode (args : list string) : cmd unit :=
  let* p := permuted [("expires", false); ("type", false); ("machines", false)]
              {[ "expires" := "10m"; "type" := "connect"; "machines" := "*" ]} args in
  needArgs 1 "Usage: tela admin pair-code <machineId> -hub <hub> -token <token> [-expires 10m] [-type connect] [-machines *]" (snd p);;
  let machineID := arg (snd p) 0 in
  let* ht := adminParseHubAndToken (fst p) in
  match durationOf (string_value (fst p) "expires") with
  | None => die "Error: invalid -expires value"
  | Some dur =>
      let codeType := string_value (fst p) "type" in
      let machineList := map trim_space (split_comma (string_value (fst p) "machines")) in
      let* result := call "POST" (fst ht) "/api/admin/pair-code" (snd ht)
        (Some (pairCodeBody machineID codeType machineList (Z.quot dur perSecond))) in
      let code := rstr result "code" in
      println ("Generated pairing code: " +:+ code);;
      println ("Expires: " +:+ rstr result "expiresAt");;
      println "";;
      if codeType =s "connect" then
        println "Client pairing command:";;
        println ("  tela pair -hub " +:+ fst ht +:+ " -code " +:+ code)
      else
        println "Agent onboarding command:";;
        println ("  telad pair -hub " +:+ fst ht +:+ " -code " +:+ code)
  end.

(** ** Channels and their sources, of a hub or an agent *)

(** Rows sorted by name: an insertion sort by exchanges, for which the order of the map does not
    matter. *)
Fixpoint insertName (x : string) (l : list string) : list string :=
  match l with
  | [] => [x]
  | y :: l' => if String.ltb x y then x :: l else y :: insertName x l'
  end.
Definition insertionSort (l : list string) : list string :=
  fold_left (fun acc x => insertName x acc) l [].

Definition labelled (label : string) : cmd unit := if label =s "" then ret tt else println label.

(** The keys of a decoded object, each once. *)
Definition keys_of (kvs : fields) : list string := remove_dups (map fst kvs).

Definition printSourcesList (label : string) (result : fields) : cmd unit :=
  labelled label;;
  match json_key result "sources" with
  | Some (JObj ((_ :: _) as raw)) =>
      emit (Row ["CHANNEL"; "BASE URL"]);;
      each (fun n => emit (Row [n; rstr raw n])) (insertionSort (keys_of raw))
  | _ => println "  (no source overrides configured)"
  end.

Definition printChannelStatus (label : string) (result : fields) : cmd unit :=
  let cur := rstr result "currentVersion" in
  let latest := rstr result "latestVersion" in
  let errMsg := rstr result "error" in
  labelled label;;
  println ("  channel:         " +:+ rstr result "channel");;
  println ("  manifest:        " +:+ rstr result "manifestUrl");;
  println ("  current version: " +:+ cur);;
  if latest <>s "" then
    let state := if rbool result "updateAvailable" then "update available"
                 else if (latest <>s cur) && (cur <>s "dev") then "ahead of channel HEAD"
                 else "up to date" in
    println ("  latest version:  " +:+ latest +:+ "  (" +:+ state +:+ ")")
  else if errMsg <>s "" then println ("  latest version:  unavailable (" +:+ errMsg +:+ ")")
  else ret tt.

(** ** tela admin agent *)

Definition agentPath (machine action : string) : string :=
  "/api/admin/agents/" +:+ QueryEscape machine +:+ "/" +:+ action.
Definition agentRequired : string := "Error: -hub, -token, and -machine are required".

Definition adminAgentChannelSources (hub tok machine : string) (args : list string) : cmd unit :=
  let list_ :=
    let* result := call "POST" hub (agentPath machine "channel-sources-list") tok None in
    printSourcesList machine result in
  match args with
  | [] => list_
  | sub :: rest =>
      if sub =s "list" then list_
      else if sub =s "set" then
        match rest with
        | name :: base :: _ =>
            let* result := call "POST" hub (agentPath machine "channel-sources-set") tok
              (Some (json_strings [("base", base); ("name", name)])) in
            println (machine +:+ ": set source for channel " +:+ rstr result "name" +:+ ": " +:+ rstr result "base")
        | _ => die "Error: 'sources set' requires <name> <url>"
        end
      else if sub =s "remove" then
        match rest with
        | name :: _ =>
            let* result := call "POST" hub (agentPath machine "channel-sources-remove") tok
              (Some (json_strings [("name", name)])) in
            println (machine +:+ ": removed source for channel " +:+ rstr result "name")
        | _ => die "Error: 'sources remove' requires <name>"
        end
      else die ("Error: unknown sources action " +:+ sub +:+ " (expected list, set, remove)")
  end.

Definition channelBody (channel manifestBase : string) : json :=
  json_strings (("channel", channel) :: (if manifestBase =s "" then [] else [("manifestBase", manifestBase)])).

(** Hub, token and machine, of which none may be empty. *)
Definition agentTarget (vals : flagValues) : cmd (string * string * string) :=
  let* ht := agentHubAndToken vals in
  let machine := string_value vals "machine" in
  if (fst ht =s "") || (snd ht =s "") || (machine =s "") then die agentRequired
  else ret (ht, machine).

Definition cmdAdminAgentChannel (args : list string) : cmd unit :=
  let* p := permuted [("machine", false); ("manifest-base", false)] {[ "machine" := ""; "manifest-base" := "" ]} args in
  let* t := agentTarget (fst p) in
  let '(hub, tok, machine) := t in
  match snd p with
  | [] =>
      let* result := call "POST" hub (agentPath machine "update-status") tok None in
      printChannelStatus machine result
  | sub :: rest =>
      if sub =s "sources" then adminAgentChannelSources hub tok machine rest
      else if sub <>s "set" then die ("Error: unknown action " +:+ sub +:+ " (expected 'set' or 'sources')")
      else match rest with
           | [] => die "Error: 'set' requires a channel name (dev, beta, stable, or a custom channel)"
           | ch :: _ =>
               let* result := call "POST" hub (agentPath machine "update-channel") tok
                 (Some (channelBody ch (string_value (fst p) "manifest-base"))) in
               match json_key result "channel" with
               | Some (JStr ch) =>
                   println (machine +:+ ": channel set to " +:+ ch);;
                   match json_key result "manifestUrl" with
                   | Some (JStr mu) => println ("  manifest: " +:+ mu)
                   | _ => ret tt
                   end
               | _ => println (machine +:+ ": channel updated")
               end
           end
  end.

Definition machineFlag : flagSet := [("machine", false)].

Definition cmdAdminAgentConfig (args : list string) : cmd unit :=
  let* p := permuted machineFlag {[ "machine" := "" ]} args in
  let* t := agentTarget (fst p) in
  let '(hub, tok, machine) := t in
  let* result := call "GET" hub (agentPath machine "config-get") tok None in
  emit (Doc result).

Definition cmdAdminAgentSet (args : list string) : cmd unit :=
  let* p := permuted machineFlag {[ "machine" := "" ]} args in
  let* t := agentTarget (fst p) in
  let '(hub, tok, machine) := t in
  match snd p with
  | [] => die "Error: provide JSON fields to update"
  | raw :: _ =>
      match parseJSON raw with
      | None => die "Error: marshal request"
      | Some j =>
          let* _ := call "POST" hub (agentPath machine "config-set") tok
            (Some (JObj [("fields", j); ("machine", JStr machine)])) in
          println "Config updated."
      end
  end.

Definition serviceNames (mm : fields) : string :=
  let name s := match json_key s "name" with Some (JStr n) => Some n | _ => None end in
  String.concat ", " (omap name (objects_of (rarr mm "services"))).
Definition agentRow (mm : fields) : printed :=
  Row [rstr mm "id"; if rbool mm "agentConnected" then "online" else "offline"; rstr mm "agentVersion";
       serviceNames mm].

Definition cmdAdminAgentList (args : list string) : cmd unit :=
  let* p := permuted [] ∅ args in
  let* ht := agentHubAndToken (fst p) in
  if (fst ht =s "") || (snd ht =s "") then die "Error: -hub and -token are required"
  else
    let* result := call "GET" (fst ht) "/api/status" (snd ht) None in
    match rarr result "machines" with
    | [] => println "No agents registered."
    | machines =>
        emit (Row ["MACHINE"; "STATUS"; "VERSION"; "SERVICES"]);;
        each (fun mm => emit (agentRow mm)) (objects_of machines)
    end.

Definition cmdAdminAgentLogs (args : list string) : cmd unit :=
  let* pn := permutedInt [("machine", false); ("n", false)] "n" 100%Z args in
  let* t := agentTarget (fst (fst pn)) in
  let '(hub, tok, machine) := t in
  let* result := call "POST" hub (agentPath machine "logs") tok (Some (JObj [("lines", JNum (snd pn))])) in
  each println (strings_of (rarr result "lines")).

Definition cmdAdminAgentRestart (args : list string) : cmd unit :=
  let* p := permuted machineFlag {[ "machine" := "" ]} args in
  let* t := agentTarget (fst p) in
  let '(hub, tok, machine) := t in
  let* _ := call "POST" hub (agentPath machine "restart") tok None in
  println ("Restart requested for '" +:+ machine +:+ "'.").

(** A nil map is still a value: without a version the body is the text [null]. *)
Definition versionBody (version : string) : json :=
  if version =s "" then JNull else json_strings [("version", version)].

Definition cmdAdminAgentUpdate (args : list string) : cmd unit :=
  let* p := permuted [("machine", false); ("version", false)] {[ "machine" := ""; "version" := "" ]} args in
  let* t := agentTarget (fst p) in
  let '(hub, tok, machine) := t in
  let* result := call "POST" hub (agentPath machine "update") tok
    (Some (versionBody (string_value (fst p) "version"))) in
  match json_key result "message" with
  | Some (JStr msg) => println (machine +:+ ": " +:+ msg)
  | _ => println ("Update requested for '" +:+ machine +:+ "'.")
  end.

Definition cmdAdminAgent (args : list string) : cmd unit :=
  match args with
  | [] => die "tela admin agent -- remote agent management"
  | sub :: rest =>
      if sub =s "config" then cmdAdminAgentConfig rest
      else if sub =s "set" then cmdAdminAgentSet rest
      else if sub =s "list" then cmdAdminAgentList rest
      else if sub =s "logs" then cmdAdminAgentLogs rest
      else if sub =s "restart" then cmdAdminAgentRestart rest
      else if sub =s "update" then cmdAdminAgentUpdate rest
      else if sub =s "channel" then cmdAdminAgentChannel rest
      else die ("Unknown agent command: " +:+ sub)
  end.

(** ** tela admin hub *)

Definition adminHubChannelSources (hub tok : string) (args : list string) : cmd unit :=
  let list_ :=
    let* result := call "GET" hub "/api/admin/update/sources" tok None in
    printSourcesList hub result in
  match args with
  | [] => list_
  | sub :: rest =>
      if sub =s "list" then list_
      else if sub =s "set" then
        match rest with
        | name :: base :: _ =>
            let* result := call "PUT" hub ("/api/admin/update/sources/" +:+ PathEscape name) tok
              (Some (json_strings [("base", base)])) in
            println (hub +:+ ": set source for channel " +:+ rstr result "name" +:+ ": " +:+ rstr result "base")
        | _ => die "Error: 'sources set' requires <name> <url>"
        end
      else if sub =s "remove" then
        match rest with
        | name :: _ =>
            let* result := call "DELETE" hub ("/api/admin/update/sources/" +:+ PathEscape name) tok None in
            println (hub +:+ ": removed source for channel " +:+ rstr result "name")
        | _ => die "Error: 'sources remove' requires <name>"
        end
      else die ("Error: unknown sources action " +:+ sub +:+ " (expected list, set, remove)")
  end.

Definition cmdAdminHubStatus (args : list string) : cmd unit :=
  let* p := permuted [] ∅ args in
  let* ht := adminParseHubAndToken (fst p) in
  let* result := call "GET" (fst ht) "/api/admin/update" (snd ht) None in
  printChannelStatus (fst ht) result.

Definition cmdAdminHubLogs (args : list string) : cmd unit :=
  let* pn := permutedInt [("n", false)] "n" 100%Z args in
  let* ht := adminParseHubAndToken (fst (fst pn)) in
  let* result := call "GET" (fst ht) ("/api/admin/logs?lines=" +:+ Itoa (snd pn)) (snd ht) None in
  each println (strings_of (rarr result "lines")).

Definition cmdAdminHubRestart (args : list string) : cmd unit :=
  let* p := permuted [] ∅ args in
  let* ht := adminParseHubAndToken (fst p) in
  let* _ := call "POST" (fst ht) "/api/admin/restart" (snd ht) None in
  println ("Restart requested for " +:+ fst ht +:+ ".").

Definition cmdAdminHubUpdate (args : list string) : cmd unit :=
  let* p := permuted [("version", false)] {[ "version" := "" ]} args in
  let* ht := adminParseHubAndToken (fst p) in
  let* result := call "POST" (fst ht) "/api/admin/update" (snd ht)
    (Some (versionBody (string_value (fst p) "version"))) in
  match json_key result "message" with
  | Some (JStr msg) => println (fst ht +:+ ": " +:+ msg)
  | _ => println ("Update requested for " +:+ fst ht +:+ ".")
  end.

Definition cmdAdminHubChannel (args : list string) : cmd unit :=
  let* p := permuted [("manifest-base", false)] {[ "manifest-base" := "" ]} args in
  let* ht := adminParseHubAndToken (fst p) in
  match snd p with
  | [] =>
      let* result := call "GET" (fst ht) "/api/admin/update" (snd ht) None in
      printChannelStatus (fst ht) result
  | sub :: rest =>
      if sub =s "sources" then adminHubChannelSources (fst ht) (snd ht) rest
      else if sub <>s "set" then die ("Error: unknown action " +:+ sub +:+ " (expected 'set' or 'sources')")
      else match rest with
           | [] => die "Error: 'set' requires a channel name (dev, beta, stable, or a custom channel)"
           | ch :: _ =>
               let* result := call "PATCH" (fst ht) "/api/admin/update" (snd ht)
                 (Some (channelBody ch (string_value (fst p) "manifest-base"))) in
               match json_key result "channel" with
               | Some (JStr ch) =>
                   println (fst ht +:+ ": channel set to " +:+ ch);;
                   match json_key result "manifestUrl" with
                   | Some (JStr mu) => println ("  manifest: " +:+ mu)
                   | _ => ret tt
                   end
               | _ => ret tt
               end
           end
  end.

Definition cmdAdminHub (args : list string) : cmd unit :=
  match args with
  | [] => die "tela admin hub -- hub lifecycle management"
  | sub :: rest =>
      if sub =s "status" then cmdAdminHubStatus rest
      else if sub =s "logs" then cmdAdminHubLogs rest
      else if sub =s "restart" then cmdAdminHubRestart rest
      else if sub =s "update" then cmdAdminHubUpdate rest
      else if sub =s "channel" then cmdAdminHubChannel rest
      else die ("Unknown hub command: " +:+ sub)
  end.

(** ** tela admin access *)

Definition machineSummary (machines : list json) : string :=
  String.concat " | " (map (fun m => rstr m "machineId" +:+ ": " +:+
    String.concat ", " (strings_of (rarr m "permissions"))) (objects_of machines)).
Definition accessRow (e : fields) : printed :=
  let role := rstr e "role" in
  Row [rstr e "id"; role;
       if (role =s "owner") || (role =s "admin") then "* (all permissions)"
       else if role =s "viewer" then "(view only)"
       else match rarr e "machines" with
            | [] => "(no permissions)"
            | machines => machineSummary machines
            end].

Definition adminAccessList (args : list string) : cmd unit :=
  let* p := permuted [("json", true)] {[ "json" := "false" ]} args in
  let* ht := adminParseHubAndToken (fst p) in
  let* result := call "GET" (fst ht) "/api/admin/access" (snd ht) None in
  if bool_value (fst p) "json" then emit (Doc result)
  else match rarr result "access" with
       | [] => println "No access entries configured."
       | entries =>
           emit (Row ["IDENTITY"; "ROLE"; "MACHINES"]);;
           each (fun e => emit (accessRow e)) (objects_of entries)
       end.

(** The probe does not go through the pinned client. *)
Definition probeCapabilities (hub tok : string) : cmd (option (list string)) :=
  let* a := ask (HttpReq "GET" (wsToHTTP hub +:+ "/.well-known/tela") tok None false) in
  ret (match a with
       | Some a => if (an_Status a =? 200)%Z then snd <$> telaWellKnown (an_Body a) else None
       | None => None
       end).

Definition servicesCapability : string := "per-service-access-control".
Definition checkServicesCapability (hub tok : string) : cmd (option string) :=
  let* caps := probeCapabilities hub tok in
  ret (match caps with
       | None => Some "could not probe hub capabilities"
       | Some caps => if hubHasCapability caps servicesCapability then None
                      else Some "the hub does not support per-service access control"
       end).

(** The names in a [-services] value; blank ones are dropped. *)
Definition servicesOf (flag : string) : list string :=
  if trim_space flag =s "" then []
  else filter (fun s => s <> "") (map trim_space (split_comma flag)).

Definition grantPath (id machineID : string) : string :=
  "/api/admin/access/" +:+ PathEscape id +:+ "/machines/" +:+ PathEscape machineID.
Definition grantBody (perms services : list string) : json :=
  JObj (("permissions", JArr (map JStr perms)) ::
        match services with [] => [] | _ => [("services", JArr (map JStr services))] end).

Definition cmdAdminAccessGrant (args : list string) : cmd unit :=
  let* p := permuted [("services", false)] {[ "services" := "" ]} args in
  needArgs 3 "Usage: tela admin access grant <id> <machineId> <permissions> [-services name,name]" (snd p);;
  let id := arg (snd p) 0 in
  let machineID := arg (snd p) 1 in
  let perms := split_comma (arg (snd p) 2) in
  let services := servicesOf (string_value (fst p) "services") in
  let scoped := match services with [] => false | _ => true end in
  if scoped && negb (existsb (fun perm => trim_space perm =s "connect") perms) then
    die "Error: -services requires 'connect' in <permissions>."
  else
    let* ht := adminParseHubAndToken (fst p) in
    let* cerr := if scoped then checkServicesCapability (fst ht) (snd ht) else ret None in
    match cerr with
    | Some e => die ("Error: " +:+ e)
    | None =>
        let* _ := call "PUT" (fst ht) (grantPath id machineID) (snd ht) (Some (grantBody perms services)) in
        println ("Set '" +:+ id +:+ "' permissions on '" +:+ machineID +:+ "' to [" +:+
                 String.concat ", " perms +:+ "]" +:+
                 (if scoped then " (services: " +:+ String.concat ", " services +:+ ")." else "."))
    end.

Definition cmdAdminAccessRevoke (args : list string) : cmd unit :=
  let* p := permuted [] ∅ args in
  needArgs 2 "Usage: tela admin access revoke <id> <machineId>" (snd p);;
  let id := arg (snd p) 0 in
  let machineID := arg (snd p) 1 in
  let* ht := adminParseHubAndToken (fst p) in
  let* _ := call "DELETE" (fst ht) (grantPath id machineID) (snd ht) None in
  println ("Revoked all '" +:+ id +:+ "' permissions on '" +:+ machineID +:+ "'.").

Definition cmdAdminAccessRename (args : list string) : cmd unit :=
  let* p := permuted [] ∅ args in
  needArgs 2 "Usage: tela admin access rename <id> <newId>" (snd p);;
  let id := arg (snd p) 0 in
  let newID := arg (snd p) 1 in
  let* ht := adminParseHubAndToken (fst p) in
  let* _ := call "PATCH" (fst ht) ("/api/admin/access/" +:+ PathEscape id) (snd ht)
    (Some (json_strings [("id", newID)])) in
  println ("Renamed '" +:+ id +:+ "' to '" +:+ newID +:+ "'.").

Definition cmdAdminAccessRemove (args : list string) : cmd unit :=
  let* p := permuted [] ∅ args in
  needArgs 1 "Usage: tela admin access remove <id>" (snd p);;
  let id := arg (snd p) 0 in
  let* ht := adminParseHubAndToken (fst p) in
  let* _ := call "DELETE" (fst ht) ("/api/admin/access/" +:+ PathEscape id) (snd ht) None in
  println ("Removed identity '" +:+ id +:+ "' and all its permissions.").

Definition cmdAdminAccess (args : list string) : cmd unit :=
  match args with
  | sub :: rest =>
      if sub =s "grant" then cmdAdminAccessGrant rest
      else if sub =s "revoke" then cmdAdminAccessRevoke rest
      else if sub =s "rename" then cmdAdminAccessRename rest
      else if sub =s "remove" then cmdAdminAccessRemove rest
      else adminAccessList args
  | [] => adminAccessList args
  end.

(** ** tela admin *)

Definition cmdAdmin (args : list string) : cmd unit :=
  let usage := "tela admin -- remote hub administration" in
  match args with
  | [] => die usage
  | sub :: rest =>
      if sub =s "access" then cmdAdminAccess rest
      else if sub =s "agent" then cmdAdminAgent rest
      else if sub =s "hub" then cmdAdminHub rest
      else if sub =s "tokens" then cmdAdminTokens rest
      else if sub =s "portals" then cmdAdminPortals rest
      else if sub =s "rotate" then cmdAdminRotate rest
      else if sub =s "pair-code" then cmdAdminPairCode rest
      else if (sub =s "help") || (sub =s "-h") || (sub =s "--help") then eprintln usage
      else die ("Unknown admin command: " +:+ sub)
  end.

(** ** Sequencing *)

Lemma bind_Done {A B} (c : cmd A) (k : A -> cmd B) s a s1 : c s = (Done a, s1) -> bind c k s = k a s1.
Proof. unfold bind. by intros ->. Qed.

Lemma bind_Exit {A B} (c : cmd A) (k : A -> cmd B) s code s1 :
  c s = (Exit code, s1) -> bind c k s = (Exit code, s1).
Proof. unfold bind. by intros ->. Qed.

End commands.
