(* ===== verification/ClientAdminProofs.v ===== *)
(** * What the administration commands may do, against any network

    The commands are classified by their effect: quiet ones neither send nor print, printing ones
    always succeed, and a whole command is a quiet part, at most one request, and printing.  The
    classification composes, so one lemma per command gives the theorem for [tela admin]. *)

From S2P Require Import Prelude Http Flags Url FileSys Timestamp ClientConnect ClientConfig ClientAdmin.
From Stdlib Require Import ZArith Lia Ascii String.
From stdpp Require Import base gmap strings list.

Create HintDb tela_cmd discriminated.

Section effects.
  Context {W : Type} {HB : HubBook} (network : httpReq -> W -> option answer * W).
  Context (getenv : string -> string) (now : Z) (parseJSON : string -> option json).
  Context (ParseDuration SscanDays : string -> option Z).

(** A request and what came back. *)
Abbreviation event := (httpReq * option answer)%type.

(** The network with a record of what went over it. *)
Definition logged (r : httpReq) (w : W * list event) : option answer * (W * list event) :=
  let '(a, w') := network r (fst w) in (a, (w', snd w ++ [(r, a)])).

Abbreviation state := (cli (W := W * list event)).
Abbreviation command A := (cmd (W := W * list event) A).
Implicit Types s : state.

Definition logOf (s : state) : list event := snd (cl_world s).
Definition netOf (s : state) : W := fst (cl_world s).

(** The answers of a run of events are the network's, one after the other. *)
Inductive exchanged : W -> list event -> W -> Prop :=
  | ex_none w : exchanged w [] w
  | ex_step w r a w1 l w2 : network r w = (a, w1) -> exchanged w1 l w2 -> exchanged w ((r, a) :: l) w2.

(** ** The classes *)

(** From the files [fs], neither sends nor prints; a value it gives and the files it leaves satisfy the
    postcondition. *)
Definition Quiet {A : Type} (fs : fsys) (c : command A) (Q : A -> fsys -> Prop) : Prop := forall s, cl_fs s = fs ->
  cl_world (snd (c s)) = cl_world s /\ cl_out (snd (c s)) = cl_out s /\
  match fst (c s) with Done a => Q a (cl_fs (snd (c s))) | Exit _ => True end.

(** Succeeds, having printed. *)
Definition Prints (c : command unit) : Prop := forall s,
  fst (c s) = Done tt /\ cl_world (snd (c s)) = cl_world s.

(** What a command line gives, flag by flag: the flags of each command, with [-hub] and [-token] of
    every one of them, whose values are otherwise those of the environment. *)
Definition line (extra : flagSet) (dflt : flagValues) (args : list string) : parsed :=
  Flags.Parse (hubFlags ++ extra) (dflt ∪ hubValues getenv) args.
Definition freeLine (extra : flagSet) (dflt : flagValues) (args : list string) : parsed :=
  line extra dflt (permuteArgs (hubFlags ++ extra) args).
Definition listLine : list string -> parsed := line [("json", true)] {[ "json" := "false" ]}.

Definition tokensLine (args : list string) : parsed :=
  match args with
  | [] => ParseHelp
  | sub :: rest =>
      if sub =s "list" then listLine rest
      else if sub =s "add" then freeLine [("role", false); ("expires", false)] {[ "role" := ""; "expires" := "" ]} rest
      else freeLine [] ∅ rest
  end.
Definition portalsLine (args : list string) : parsed :=
  match args with
  | [] => ParseHelp
  | sub :: rest =>
      if sub =s "list" then listLine rest
      else if sub =s "add" then
        freeLine [("portal-url", false); ("portal-token", false); ("hub-url", false)]
          {[ "portal-url" := ""; "portal-token" := ""; "hub-url" := "" ]} rest
      else freeLine [] ∅ rest
  end.
Definition pairCodeLine : list string -> parsed :=
  freeLine [("expires", false); ("type", false); ("machines", false)]
    {[ "expires" := "10m"; "type" := "connect"; "machines" := "*" ]}.
Definition agentLine (args : list string) : parsed :=
  match args with
  | [] => ParseHelp
  | sub :: rest =>
      let ofMachine := freeLine machineFlag {[ "machine" := "" ]} rest in
      if sub =s "config" then ofMachine
      else if sub =s "set" then ofMachine
      else if sub =s "list" then freeLine [] ∅ rest
      else if sub =s "logs" then freeLine [("machine", false); ("n", false)] ∅ rest
      else if sub =s "restart" then ofMachine
      else if sub =s "update" then freeLine [("machine", false); ("version", false)] {[ "machine" := ""; "version" := "" ]} rest
      else freeLine [("machine", false); ("manifest-base", false)] {[ "machine" := ""; "manifest-base" := "" ]} rest
  end.
Definition hubLine (args : list string) : parsed :=
  match args with
  | [] => ParseHelp
  | sub :: rest =>
      if sub =s "status" then freeLine [] ∅ rest
      else if sub =s "logs" then freeLine [("n", false)] ∅ rest
      else if sub =s "restart" then freeLine [] ∅ rest
      else if sub =s "update" then freeLine [("version", false)] {[ "version" := "" ]} rest
      else freeLine [("manifest-base", false)] {[ "manifest-base" := "" ]} rest
  end.
Definition accessLine (args : list string) : parsed :=
  let entries := freeLine [("json", true)] {[ "json" := "false" ]} args in
  match args with
  | [] => entries
  | sub :: rest =>
      if sub =s "grant" then freeLine [("services", false)] {[ "services" := "" ]} rest
      else if sub =s "revoke" then freeLine [] ∅ rest
      else if sub =s "rename" then freeLine [] ∅ rest
      else if sub =s "remove" then freeLine [] ∅ rest
      else entries
  end.
Definition adminLine (args : list string) : parsed :=
  match args with
  | [] => ParseHelp
  | sub :: rest =>
      if sub =s "access" then accessLine rest
      else if sub =s "agent" then agentLine rest
      else if sub =s "hub" then hubLine rest
      else if sub =s "tokens" then tokensLine rest
      else if sub =s "portals" then portalsLine rest
      else if sub =s "rotate" then freeLine [] ∅ rest
      else pairCodeLine rest
  end.

(** The hub and the token a command line means: the hub its [-hub] resolves to among the client's
    remotes and hubs, and the value of its [-token] or, for want of one, the token the client's files
    then hold for that hub. *)
Definition credential (fs : fsys) (p : parsed) (hub tok : string) : Prop :=
  hub <> "" /\ tok <> "" /\ exists vals rest fs',
    p = ParseOk vals rest /\ bookResolve fs (string_value vals "hub") = (Some hub, fs') /\
    tok = (if string_value vals "token" =s "" then bookToken fs' hub else string_value vals "token").

Definition addressed (hub tok : string) (r : httpReq) : Prop :=
  hq_Bearer r = tok /\ exists path, hq_URL r = wsToHTTP hub +:+ path.

Definition served (o : option answer) : Prop :=
  exists a, o = Some a /\ (200 <= an_Status a < 300)%Z.

(** The answer to a probe that lets a service-scoped grant go out. *)
Definition capable (o : option answer) : Prop :=
  exists a dir caps, o = Some a /\ an_Status a = 200%Z /\ telaWellKnown (an_Body a) = Some (dir, caps) /\
    hubHasCapability caps servicesCapability = true.
Definition probe (hub tok : string) (r : httpReq) : Prop :=
  r = HttpReq "GET" (wsToHTTP hub +:+ "/.well-known/tela") tok None false.

(** A body that does not ask for a service-scoped grant. *)
Definition unscoped (b : option json) : Prop :=
  match b with Some (JObj kvs) => json_key kvs "services" = None | _ => True end.

(** What one command sends: nothing; one request over the pinned connection, whose refusal or loss
    ends the command; or, before a service-scoped grant, a probe and then the request only if the
    probe was answered by a hub that can honour it. *)
Inductive transcript {A} (hub tok : string) : outcome A -> list event -> Prop :=
  | tr_one o r a :
      addressed hub tok r -> hq_Pinned r = true -> unscoped (hq_Body r) ->
      (forall x, o = Done x -> served a) -> transcript hub tok o [(r, a)]
  | tr_probe code p a : probe hub tok p -> transcript hub tok (Exit code) [(p, a)]
  | tr_scoped o p b r a :
      probe hub tok p -> capable b -> addressed hub tok r -> hq_Pinned r = true -> hq_Method r = "PUT" ->
      (forall x, o = Done x -> served a) -> transcript hub tok o [(p, b); (r, a)].

(** The specification of a whole command from the files [fs], which may address itself as [K] says. *)
Definition Spec (K : string -> string -> Prop) (fs : fsys) (c : command unit) : Prop := forall s, cl_fs s = fs ->
  exists l, logOf (snd (c s)) = logOf s ++ l /\ exchanged (netOf s) l (netOf (snd (c s))) /\
    (forall code, fst (c s) = Exit code -> cl_out (snd (c s)) = cl_out s) /\
    (l = [] \/ exists hub tok, K hub tok /\ transcript hub tok (fst (c s)) l).

(** ** Composition *)

Implicit Types K : string -> string -> Prop.

Lemma quiet_ret {A : Type} (fs : fsys) (a : A) : Quiet fs (ret a) (fun a' fs' => fs' = fs /\ a' = a).
Proof. by intros s <-. Qed.

Lemma quiet_exit {A : Type} (fs : fsys) (code : Z) (Q : A -> fsys -> Prop) : Quiet fs (exit code) Q.
Proof. by intros s _. Qed.

Lemma quiet_bind {A B : Type} (fs : fsys) (c : command A) (k : A -> command B) (Q : A -> fsys -> Prop) (R : B -> fsys -> Prop) :
  Quiet fs c Q -> (forall a fs', Q a fs' -> Quiet fs' (k a) R) -> Quiet fs (bind c k) R.
Proof.
  intros Hc Hk s Hfs. destruct (Hc s Hfs) as (Hw & Ho & HQ). unfold bind.
  destruct (c s) as [[a|code] s1]; cbn in *; [|done].
  destruct (Hk a _ HQ s1 eq_refl) as (Hw' & Ho' & HR). rewrite Hw', Ho', Hw, Ho. done.
Qed.

Lemma quiet_die {A : Type} (fs : fsys) (e : string) (Q : A -> fsys -> Prop) : Quiet fs (die e) Q.
Proof. by intros s _. Qed.

Lemma prints_emit p : Prints (emit p).
Proof. by intros s. Qed.

Lemma prints_ret : Prints (ret tt).
Proof. by intros s. Qed.

Lemma prints_bind c (k : unit -> command unit) : Prints c -> Prints (k tt) -> Prints (bind c k).
Proof.
  intros Hc Hk s. destruct (Hc s) as [Ho Hw]. unfold bind. destruct (c s) as [o s1]. cbn in *. subst o.
  destruct (Hk s1) as [Ho Hw']. by rewrite Hw'.
Qed.

Lemma prints_each {A} (f : A -> command unit) l : (forall a, Prints (f a)) -> Prints (each f l).
Proof. intros Hf. induction l as [|a l IH]; [apply prints_ret|]. by apply prints_bind. Qed.

Lemma spec_quiet K (fs : fsys) (c : command unit) (Q : unit -> fsys -> Prop) : Quiet fs c Q -> Spec K fs c.
Proof.
  intros Hc s Hfs. destruct (Hc s Hfs) as (Hw & Ho & _). exists []. unfold logOf, netOf. rewrite Hw, app_nil_r.
  auto using ex_none.
Qed.

Lemma spec_bind {A : Type} K (fs : fsys) (c : command A) (k : A -> command unit) (Q : A -> fsys -> Prop) :
  Quiet fs c Q -> (forall a fs', Q a fs' -> Spec K fs' (k a)) -> Spec K fs (bind c k).
Proof.
  intros Hc Hk s Hfs. destruct (Hc s Hfs) as (Hw & Ho & HQ). unfold bind.
  destruct (c s) as [[a|code] s1]; cbn in *.
  - destruct (Hk a _ HQ s1 eq_refl) as (l & Hl & He & Hx & Hr). exists l. unfold logOf, netOf in *. rewrite Hw in Hl, He.
    split; [done|]. split; [done|]. split; [|done]. intros code Hcode. rewrite <- Ho. by eapply Hx.
  - exists []. unfold logOf, netOf. rewrite Hw, app_nil_r. auto using ex_none.
Qed.

Lemma spec_prints K (fs : fsys) (c : command unit) : Prints c -> Spec K fs c.
Proof.
  intros Hc s _. destruct (Hc s) as [Ho Hw]. exists []. unfold logOf, netOf. rewrite Hw, Ho, app_nil_r.
  split; [done|]. split; [apply ex_none|]. split; [done|]. by left.
Qed.

(** One request, and the two ways on. *)
Lemma call_runs method hub path tok body s :
  let r := HttpReq method (wsToHTTP hub +:+ path) tok body true in
  exists a s1, logOf s1 = logOf s ++ [(r, a)] /\ network r (netOf s) = (a, netOf s1) /\ cl_out s1 = cl_out s /\
    (served a /\ (exists result, call logged method hub path tok body s = (Done result, s1)) \/
     exists code, call logged method hub path tok body s = (Exit code, s1)).
Proof.
  intros r. unfold call, adminHTTP, bind, ask, logged. fold r. unfold netOf.
  destruct (network r (fst (cl_world s))) as [a w']. exists a. cbn [fst snd cl_fs cl_out cl_err ret].
  destruct a as [a|]; cbn [fmap option_fmap option_map].
  - unfold adminCheckError. destruct (_ && _)%Z eqn:Hs.
    + eexists. split; [|split; [|split; [|left; split; [|by eexists]]]]; [done..|].
      exists a. prop_bool. split; [done|lia].
    + eexists. split; [|split; [|split; [|right; by eexists]]]; done.
  - eexists. split; [|split; [|split; [|right; by eexists]]]; done.
Qed.

Lemma spec_call K (fs : fsys) (method hub path tok : string) body (k : fields -> command unit) :
  K hub tok -> unscoped body -> (forall result, Prints (k result)) ->
  Spec K fs (bind (call logged method hub path tok body) k).
Proof.
  intros Hcr Hb Hk s _. destruct (call_runs method hub path tok body s) as (a & s1 & Hl & Hn & Ho & Hrun).
  set (r := HttpReq method (wsToHTTP hub +:+ path) tok body true) in *.
  assert (addressed hub tok r) as Hr by (split; [done|by exists path]).
  assert (exchanged (netOf s) [(r, a)] (netOf s1)) as He by (by repeat econstructor).
  exists [(r, a)]. unfold bind. destruct Hrun as [(Hs & result & ->)|[code ->]].
  - destruct (Hk result s1) as [Hd Hw]. unfold logOf, netOf in *. rewrite Hw, Hd.
    split; [done|]. split; [done|]. split; [done|].
    right. exists hub, tok. split; [done|]. by apply tr_one.
  - split; [done|]. split; [done|]. split; [done|]. right. exists hub, tok. split; [done|]. by apply tr_one.
Qed.

Lemma prints_labelled label : Prints (labelled label).
Proof. unfold labelled. destruct (_ =s _); [apply prints_ret|apply prints_emit]. Qed.

(** ** The shared parts *)

Lemma quiet_parseFlags (fs : fsys) (extra : flagSet) (dflt : flagValues) (args : list string) :
  Quiet fs (parseFlags getenv extra dflt args) (fun p fs' => fs' = fs /\ line extra dflt args = ParseOk (fst p) (snd p)).
Proof.
  unfold parseFlags, line. destruct (Flags.Parse _ _ _); [apply quiet_exit|apply quiet_exit|].
  intros s <-. done.
Qed.

Lemma quiet_permuted (fs : fsys) (extra : flagSet) (dflt : flagValues) (args : list string) :
  Quiet fs (permuted getenv extra dflt args) (fun p fs' => fs' = fs /\ freeLine extra dflt args = ParseOk (fst p) (snd p)).
Proof. apply quiet_parseFlags. Qed.

Lemma quiet_permutedInt (fs : fsys) (extra : flagSet) (name : string) (dflt : Z) (args : list string) :
  Quiet fs (permutedInt getenv extra name dflt args)
    (fun p fs' => fs' = fs /\ freeLine extra ∅ args = ParseOk (fst (fst p)) (snd (fst p))).
Proof.
  unfold permutedInt. destruct (forallb _ _); [|apply quiet_exit].
  eapply quiet_bind; [apply quiet_parseFlags|]. intros a fs' [-> Hl] s <-. done.
Qed.

Lemma quiet_needArgs (fs : fsys) (n : nat) (usage : string) (rest : list string) : Quiet fs (needArgs n usage rest) (fun _ fs' => fs' = fs).
Proof. unfold needArgs. destruct (_ <? _)%nat; [apply quiet_die|by intros s <-]. Qed.

(** The hub, and the token for it. *)
Definition tokenFor (fs : fsys) (vals : flagValues) (hub tok : string) : Prop :=
  exists fs', bookResolve fs (string_value vals "hub") = (Some hub, fs') /\
    tok = (if string_value vals "token" =s "" then bookToken fs' hub else string_value vals "token").

Lemma tokenFor_credential (fs : fsys) (vals : flagValues) (rest : list string) (p : parsed) (hub tok : string) :
  p = ParseOk vals rest -> tokenFor fs vals hub tok -> hub <> "" -> tok <> "" -> credential fs p hub tok.
Proof. intros Hp (fs' & Hb & Ht) Hh Hk. split_and!; [done|done|]. by exists vals, rest, fs'. Qed.

Lemma quiet_hubAndToken (fs : fsys) (vals : flagValues) : Quiet fs (agentHubAndToken vals) (fun ht _ => tokenFor fs vals (fst ht) (snd ht)).
Proof.
  intros s <-. unfold agentHubAndToken, bind, mustResolveHub, lookupToken, tokenFor.
  destruct (bookResolve (cl_fs s) (string_value vals "hub")) as [[url|] fs'] eqn:E; cbn; [|done].
  case_bool_decide; cbn; split_and!; try done; by exists fs'.
Qed.

Lemma quiet_adminParse (fs : fsys) (vals : flagValues) (rest : list string) (p : parsed) : p = ParseOk vals rest ->
  Quiet fs (adminParseHubAndToken vals) (fun ht _ => credential fs p (fst ht) (snd ht)).
Proof.
  intros Hp s <-. pose proof (fun hub tok => tokenFor_credential (cl_fs s) vals rest p hub tok Hp) as Hc. revert Hc.
  unfold adminParseHubAndToken, bind, mustResolveHub, lookupToken, die, eprintln, exit, ret, tokenFor.
  destruct (bookResolve (cl_fs s) (string_value vals "hub")) as [[url|] fs'] eqn:E; cbn; [|done]. intros Hc.
  destruct (bool_decide_reflect (url = "")) as [|Hu]; cbn; [done|].
  destruct (bool_decide_reflect (string_value vals "token" = "")) as [Ht|Ht]; cbn.
  - destruct (bool_decide_reflect (bookToken fs' url = "")) as [|Hb]; cbn; [done|].
    split_and!; [done|done|]. apply Hc; [by exists fs'|done|done].
  - destruct (bool_decide_reflect (string_value vals "token" = "")) as [|Hb]; cbn; [done|].
    split_and!; [done|done|]. apply Hc; [by exists fs'|done|done].
Qed.

Lemma quiet_agentTarget (fs : fsys) (vals : flagValues) (rest : list string) (p : parsed) : p = ParseOk vals rest ->
  Quiet fs (agentTarget vals) (fun t _ => credential fs p (fst (fst t)) (snd (fst t))).
Proof.
  intros Hp. unfold agentTarget. eapply quiet_bind; [apply quiet_hubAndToken|]. intros [hub tok] fs' Ht.
  cbn [fst snd] in *. destruct (_ || _) eqn:E; [apply quiet_die|]. intros s _. prop_bool.
  split_and!; [done|done|]. by eapply tokenFor_credential.
Qed.

Lemma spec_die K (fs : fsys) (e : string) : Spec K fs (die e).
Proof. eapply (spec_quiet _ _ _ (fun _ _ => True)), quiet_die. Qed.

Lemma spec_eprintln K (fs : fsys) (e : string) : Spec K fs (eprintln e).
Proof. by apply (spec_quiet _ _ _ (fun _ _ => True)). Qed.

(** ** The commands *)

(** Each tactic looks at the shape of the command and applies the lemma for it. *)
Ltac prints :=
  repeat lazymatch goal with
  | |- Prints (emit _) => apply prints_emit
  | |- Prints (println _) => apply prints_emit
  | |- Prints (ret _) => apply prints_ret
  | |- Prints (labelled _) => apply prints_labelled
  | |- Prints (each _ _) => apply prints_each; intros ?
  | |- Prints (bind _ _) => apply prints_bind
  | |- Prints (match _ with _ => _ end) => case_scrut
  | |- Prints _ => solve [auto with tela_cmd]
  end.

(** A body without a [services] member. *)
Ltac unscoped_body :=
  first [exact I | reflexivity
        | unfold addTokenBody, addPortalBody, pairCodeBody, channelBody, versionBody; repeat case_match;
          first [exact I|reflexivity]].

Ltac quiet_step :=
  lazymatch goal with
  | |- Quiet _ (permuted _ _ _ _) _ => apply quiet_permuted
  | |- Quiet _ (permutedInt _ _ _ _ _) _ => apply quiet_permutedInt
  | |- Quiet _ (parseFlags _ _ _ _) _ => apply quiet_parseFlags
  | |- Quiet _ (needArgs _ _ _) _ => apply quiet_needArgs
  | |- Quiet _ (adminParseHubAndToken _) _ => eapply quiet_adminParse; eassumption
  | |- Quiet _ (agentTarget _) _ => eapply quiet_agentTarget; eassumption
  | |- Quiet _ (ret _) _ => by intros ?
  | |- Quiet _ (die _) _ => apply quiet_die
  | |- Quiet _ (match ?x with _ => _ end) _ => destruct x; quiet_step
  end.
Ltac command_spec :=
  repeat (cbv beta zeta; lazymatch goal with
  | H : _ = _ /\ _ |- _ => destruct H as [? ?]
  | H : ?fs' = ?fs |- Spec _ ?fs' _ => subst fs'
  | |- Spec _ _ (die _) => apply spec_die
  | |- Spec _ _ (eprintln _) => apply spec_eprintln
  | |- Spec _ _ (bind (call _ _ _ _ _ _) _) => apply spec_call; [assumption|unscoped_body|intros ?; prints]
  | |- Spec ?K ?fs (bind (ret ?a) ?k) => change (Spec K fs (k a))
  | |- Spec _ _ (bind (match _ with _ => _ end) _) =>
      apply (spec_bind _ _ _ _ (fun _ _ => True)); [quiet_step|intros ? ? ?; cbv beta in *]
  | |- Spec _ _ (bind _ _) => eapply spec_bind; [solve [quiet_step]|intros ? ? ?; cbv beta in *]
  | t : (string * string * string)%type |- _ => destruct t as [[? ?] ?]; cbn [fst snd] in *
  | |- Spec _ _ (match _ with _ => _ end) => case_scrut
  | |- Spec _ _ _ => solve [auto with tela_cmd]
  end).

Lemma prints_sources label result : Prints (printSourcesList (W := W * list event) label result).
Proof. unfold printSourcesList. prints. Qed.

Lemma prints_status label result : Prints (printChannelStatus (W := W * list event) label result).
Proof. unfold printChannelStatus. prints. Qed.
Hint Resolve prints_sources prints_status : tela_cmd.

Lemma spec_agentSources K (fs : fsys) (hub tok : string) machine args :
  K hub tok -> Spec K fs (adminAgentChannelSources logged hub tok machine args).
Proof. intros Hcr. unfold adminAgentChannelSources. command_spec. Qed.

Lemma spec_hubSources K (fs : fsys) (hub tok : string) args :
  K hub tok -> Spec K fs (adminHubChannelSources logged hub tok args).
Proof. intros Hcr. unfold adminHubChannelSources. command_spec. Qed.

Hint Resolve spec_agentSources spec_hubSources : tela_cmd.

Lemma spec_ListTokens (fs : fsys) (args : list string) : Spec (credential fs (listLine args)) fs
  (cmdAdminListTokens logged getenv now args).
Proof. unfold cmdAdminListTokens. command_spec. Qed.

Lemma spec_AddToken (fs : fsys) (args : list string) : Spec (credential fs (freeLine [("role", false); ("expires", false)] {[ "role" := ""; "expires" := "" ]} args)) fs
  (cmdAdminAddToken logged getenv now args).
Proof. unfold cmdAdminAddToken. command_spec. Qed.

Lemma spec_RemoveToken (fs : fsys) (args : list string) : Spec (credential fs (freeLine [] ∅ args)) fs
  (cmdAdminRemoveToken logged getenv args).
Proof. unfold cmdAdminRemoveToken. command_spec. Qed.

Lemma spec_Rotate (fs : fsys) (args : list string) : Spec (credential fs (freeLine [] ∅ args)) fs
  (cmdAdminRotate logged getenv args).
Proof. unfold cmdAdminRotate. command_spec. Qed.

Lemma spec_RevokeToken (fs : fsys) (args : list string) : Spec (credential fs (freeLine [] ∅ args)) fs
  (cmdAdminRevokeToken logged getenv args).
Proof. unfold cmdAdminRevokeToken. command_spec. Qed.

Lemma spec_ListPortals (fs : fsys) (args : list string) : Spec (credential fs (listLine args)) fs
  (cmdAdminListPortals logged getenv args).
Proof. unfold cmdAdminListPortals. command_spec. Qed.

Lemma spec_AddPortal (fs : fsys) (args : list string) : Spec (credential fs (freeLine [("portal-url", false); ("portal-token", false); ("hub-url", false)]
    {[ "portal-url" := ""; "portal-token" := ""; "hub-url" := "" ]} args)) fs
  (cmdAdminAddPortal logged getenv args).
Proof. unfold cmdAdminAddPortal. command_spec. Qed.

Lemma spec_RemovePortal (fs : fsys) (args : list string) : Spec (credential fs (freeLine [] ∅ args)) fs
  (cmdAdminRemovePortal logged getenv args).
Proof. unfold cmdAdminRemovePortal. command_spec. Qed.

Lemma spec_PairCode (fs : fsys) (args : list string) : Spec (credential fs (pairCodeLine args)) fs
  (cmdAdminPairCode logged getenv ParseDuration SscanDays args).
Proof. unfold cmdAdminPairCode, pairCodeLine. command_spec. Qed.

Lemma spec_AgentChannel (fs : fsys) (args : list string) : Spec (credential fs (freeLine [("machine", false); ("manifest-base", false)]
    {[ "machine" := ""; "manifest-base" := "" ]} args)) fs
  (cmdAdminAgentChannel logged getenv args).
Proof. unfold cmdAdminAgentChannel. command_spec. Qed.

Lemma spec_AgentConfig (fs : fsys) (args : list string) : Spec (credential fs (freeLine machineFlag {[ "machine" := "" ]} args)) fs
  (cmdAdminAgentConfig logged getenv args).
Proof. unfold cmdAdminAgentConfig. command_spec. Qed.

Lemma spec_AgentSet (fs : fsys) (args : list string) : Spec (credential fs (freeLine machineFlag {[ "machine" := "" ]} args)) fs
  (cmdAdminAgentSet logged getenv parseJSON args).
Proof. unfold cmdAdminAgentSet. command_spec. Qed.

Lemma spec_AgentList (fs : fsys) (args : list string) : Spec (credential fs (freeLine [] ∅ args)) fs
  (cmdAdminAgentList logged getenv args).
Proof.
  unfold cmdAdminAgentList. eapply spec_bind; [apply quiet_permuted|intros p fs' [-> Hp]].
  eapply spec_bind; [apply quiet_hubAndToken|]. intros [hub tok] fs' Ht. cbn [fst snd] in *.
  destruct (_ || _) eqn:E; [apply spec_die|]. assert (credential fs (freeLine [] ∅ args) hub tok).
  { prop_bool. by eapply tokenFor_credential. }
  command_spec.
Qed.

Lemma spec_AgentLogs (fs : fsys) (args : list string) : Spec (credential fs (freeLine [("machine", false); ("n", false)] ∅ args)) fs
  (cmdAdminAgentLogs logged getenv args).
Proof. unfold cmdAdminAgentLogs. command_spec. Qed.

Lemma spec_AgentRestart (fs : fsys) (args : list string) : Spec (credential fs (freeLine machineFlag {[ "machine" := "" ]} args)) fs
  (cmdAdminAgentRestart logged getenv args).
Proof. unfold cmdAdminAgentRestart. command_spec. Qed.

Lemma spec_AgentUpdate (fs : fsys) (args : list string) : Spec (credential fs (freeLine [("machine", false); ("version", false)]
    {[ "machine" := ""; "version" := "" ]} args)) fs
  (cmdAdminAgentUpdate logged getenv args).
Proof. unfold cmdAdminAgentUpdate. command_spec. Qed.

Lemma spec_HubStatus (fs : fsys) (args : list string) : Spec (credential fs (freeLine [] ∅ args)) fs
  (cmdAdminHubStatus logged getenv args).
Proof. unfold cmdAdminHubStatus. command_spec. Qed.

Lemma spec_HubLogs (fs : fsys) (args : list string) : Spec (credential fs (freeLine [("n", false)] ∅ args)) fs
  (cmdAdminHubLogs logged getenv args).
Proof. unfold cmdAdminHubLogs. command_spec. Qed.

Lemma spec_HubRestart (fs : fsys) (args : list string) : Spec (credential fs (freeLine [] ∅ args)) fs
  (cmdAdminHubRestart logged getenv args).
Proof. unfold cmdAdminHubRestart. command_spec. Qed.

Lemma spec_HubUpdate (fs : fsys) (args : list string) : Spec (credential fs (freeLine [("version", false)] {[ "version" := "" ]} args)) fs
  (cmdAdminHubUpdate logged getenv args).
Proof. unfold cmdAdminHubUpdate. command_spec. Qed.

Lemma spec_HubChannel (fs : fsys) (args : list string) : Spec (credential fs (freeLine [("manifest-base", false)] {[ "manifest-base" := "" ]} args)) fs
  (cmdAdminHubChannel logged getenv args).
Proof. unfold cmdAdminHubChannel. command_spec. Qed.

Lemma spec_AccessRevoke (fs : fsys) (args : list string) : Spec (credential fs (freeLine [] ∅ args)) fs
  (cmdAdminAccessRevoke logged getenv args).
Proof. unfold cmdAdminAccessRevoke. command_spec. Qed.

Lemma spec_AccessRename (fs : fsys) (args : list string) : Spec (credential fs (freeLine [] ∅ args)) fs
  (cmdAdminAccessRename logged getenv args).
Proof. unfold cmdAdminAccessRename. command_spec. Qed.

Lemma spec_AccessRemove (fs : fsys) (args : list string) : Spec (credential fs (freeLine [] ∅ args)) fs
  (cmdAdminAccessRemove logged getenv args).
Proof. unfold cmdAdminAccessRemove. command_spec. Qed.

Lemma spec_accessList (fs : fsys) (args : list string) : Spec (credential fs (freeLine [("json", true)] {[ "json" := "false" ]} args)) fs
  (adminAccessList logged getenv args).
Proof. unfold adminAccessList. command_spec. Qed.

(** The probe goes out only for a scoped grant, and what it answers decides. *)
Lemma check_runs hub tok s :
  let r := HttpReq "GET" (wsToHTTP hub +:+ "/.well-known/tela") tok None false in
  exists a s1, logOf s1 = logOf s ++ [(r, a)] /\ network r (netOf s) = (a, netOf s1) /\ cl_out s1 = cl_out s /\
    ((exists e, checkServicesCapability logged hub tok s = (Done (Some e), s1)) \/
     checkServicesCapability logged hub tok s = (Done None, s1) /\ capable a).
Proof.
  intros r. unfold checkServicesCapability, probeCapabilities, bind, ask, logged. fold r. unfold netOf.
  destruct (network r (fst (cl_world s))) as [a w']. exists a.
  exists (Cli (cl_fs s) (w', snd (cl_world s) ++ [(r, a)]) (cl_out s) (cl_err s)).
  split; [done|]. split; [done|]. split; [done|]. cbn [fst snd cl_fs cl_out cl_err ret].
  destruct a as [a|]; [|left; by eexists]. destruct (Z.eqb_spec (an_Status a) 200) as [Hs|]; [|left; by eexists].
  destruct (telaWellKnown (an_Body a)) as [[dir caps]|] eqn:Hwk; cbn [fmap option_fmap option_map snd]; [|left; by eexists].
  destruct (hubHasCapability caps servicesCapability) eqn:Hc; [right|left; by eexists].
  split; [done|]. by exists a, dir, caps.
Qed.

Lemma spec_grant (fs : fsys) (args : list string) : Spec (credential fs (freeLine [("services", false)] {[ "services" := "" ]} args)) fs
  (cmdAdminAccessGrant logged getenv args).
Proof.
  unfold cmdAdminAccessGrant. eapply spec_bind; [apply quiet_permuted|intros p fs' [-> Hp]].
  eapply spec_bind; [apply quiet_needArgs|intros _ fs' ->]. cbv zeta.
  destruct (servicesOf (string_value (fst p) "services")) as [|n ns] eqn:Hsv.
  - cbn [andb]. command_spec.
  - cbn [andb]. destruct (negb _); [apply spec_die|]. eapply spec_bind; [eapply quiet_adminParse, Hp|].
    intros [hub tok] fs' Hcr s _. cbn [fst snd] in *.
    destruct (check_runs hub tok s) as (b & s1 & Hl & Hn & Ho & Hrun).
    set (p0 := HttpReq "GET" (wsToHTTP hub +:+ "/.well-known/tela") tok None false) in *.
    destruct Hrun as [[e Hrun]|[Hrun Hb]]; rewrite (bind_Done _ _ _ _ _ Hrun).
    + exists [(p0, b)]. split; [done|]. split; [by repeat econstructor|]. split; [done|]. right. exists hub, tok. split; [done|]. by apply tr_probe.
    + clear Hrun. set (path := grantPath _ _). set (body := grantBody _ _). set (k := fun _ : fields => _).
      assert (forall result, Prints (k result)) as Hk by (intros result; unfold k; prints). clearbody path body k.
      destruct (call_runs "PUT" hub path tok (Some body) s1) as (a & s2 & Hl2 & Hn2 & Ho2 & Hrun).
      set (r := HttpReq "PUT" _ _ _ _) in *. exists [(p0, b); (r, a)].
      assert (logOf s2 = logOf s ++ [(p0, b); (r, a)]) as Hlog by (by rewrite Hl2, Hl, <- app_assoc).
      assert (addressed hub tok r) as Hr by (split; [done|by exists path]).
      assert (exchanged (netOf s) [(p0, b); (r, a)] (netOf s2)) as He by (by repeat econstructor).
      destruct Hrun as [(Hs & result & Hrun)|[code Hrun]].
      * rewrite (bind_Done _ _ _ _ _ Hrun). destruct (Hk result s2) as [Hd Hw]. unfold logOf, netOf in *.
        rewrite Hw, Hd. split; [done|]. split; [done|]. split; [done|].
        right. exists hub, tok. split; [done|]. by apply tr_scoped.
      * rewrite (bind_Exit _ _ _ _ _ Hrun). split; [done|]. split; [done|]. split; [intros ? _; cbn; congruence|].
        right. exists hub, tok. split; [done|]. by apply tr_scoped.
Qed.

Hint Resolve spec_grant spec_accessList spec_AccessRevoke spec_AccessRename spec_AccessRemove spec_ListTokens
  spec_AddToken spec_RemoveToken spec_Rotate spec_RevokeToken spec_ListPortals spec_AddPortal spec_RemovePortal
  spec_PairCode spec_AgentChannel spec_AgentConfig spec_AgentSet spec_AgentList spec_AgentLogs spec_AgentRestart
  spec_AgentUpdate spec_HubStatus spec_HubLogs spec_HubRestart spec_HubUpdate spec_HubChannel : tela_cmd.

(** The dispatchers and the flags of what they dispatch to go by the same names. *)
Ltac dispatch_spec :=
  repeat (cbv beta iota zeta; lazymatch goal with
  | |- Spec _ _ (if ?b then _ else _) => destruct b eqn:?; cbn [orb] in *
  | |- Spec _ _ (die _) => apply spec_die
  | |- Spec _ _ (eprintln _) => apply spec_eprintln
  | |- Spec _ _ _ => solve [auto with tela_cmd]
  end).

Lemma spec_Tokens (fs : fsys) (args : list string) :
  Spec (credential fs (tokensLine args)) fs (cmdAdminTokens logged getenv now args).
Proof. unfold cmdAdminTokens, tokensLine. destruct args as [|sub rest]; dispatch_spec. Qed.

Lemma spec_Portals (fs : fsys) (args : list string) :
  Spec (credential fs (portalsLine args)) fs (cmdAdminPortals logged getenv args).
Proof. unfold cmdAdminPortals, portalsLine. destruct args as [|sub rest]; dispatch_spec. Qed.

Lemma spec_Agent (fs : fsys) (args : list string) :
  Spec (credential fs (agentLine args)) fs (cmdAdminAgent logged getenv parseJSON args).
Proof. unfold cmdAdminAgent, agentLine. destruct args as [|sub rest]; dispatch_spec. Qed.

Lemma spec_Hub (fs : fsys) (args : list string) :
  Spec (credential fs (hubLine args)) fs (cmdAdminHub logged getenv args).
Proof. unfold cmdAdminHub, hubLine. destruct args as [|sub rest]; dispatch_spec. Qed.

Lemma spec_Access (fs : fsys) (args : list string) :
  Spec (credential fs (accessLine args)) fs (cmdAdminAccess logged getenv args).
Proof. unfold cmdAdminAccess, accessLine. destruct args as [|sub rest]; dispatch_spec. Qed.

Lemma spec_admin (fs : fsys) (args : list string) :
  Spec (credential fs (adminLine args)) fs (cmdAdmin logged getenv now parseJSON ParseDuration SscanDays args).
Proof.
  unfold cmdAdmin, adminLine. destruct args as [|sub rest]; [apply spec_die|]. cbv zeta.
  destruct (sub =s "access"); [apply spec_Access|]. destruct (sub =s "agent"); [apply spec_Agent|].
  destruct (sub =s "hub"); [apply spec_Hub|]. destruct (sub =s "tokens"); [apply spec_Tokens|].
  destruct (sub =s "portals"); [apply spec_Portals|]. destruct (sub =s "rotate"); [apply spec_Rotate|].
  destruct (sub =s "pair-code"); [apply spec_PairCode|].
  destruct ((sub =s "help") || _ || _); [apply spec_eprintln|apply spec_die].
Qed.

(** C9. Whatever the hub answers, a [tela admin] command sends at most one management request, over the
    pinned connection to the hub that its own [-hub] (or the environment) resolves to, with the token of
    its own [-token] (or the environment) or, for want of one, the token stored for that hub.  It ends
    well only if that request was answered with a 2xx status, and otherwise prints no result.  Only a
    grant restricted to services sends something before: the capability probe, which bears the token and
    does not check the hub's pin.  The restricted grant goes out only if the hub answered that it honours
    the restriction. *)
Theorem admin_command_transcript args (s : state) :
  let '(o, s') := cmdAdmin logged getenv now parseJSON ParseDuration SscanDays args s in
  exists l, logOf s' = logOf s ++ l /\ exchanged (netOf s) l (netOf s') /\
    (forall code, o = Exit code -> cl_out s' = cl_out s) /\
    (l = [] \/ exists hub tok, credential (cl_fs s) (adminLine args) hub tok /\ transcript hub tok o l).
Proof.
  pose proof (spec_admin (cl_fs s) args s eq_refl) as Hs.
  by destruct (cmdAdmin _ _ _ _ _ _ args s).
Qed.

End effects.
