(* ===== verification/AdminE2E.v ===== *)
(** * The administration commands against the hub

    [hubSend] is the hub as the network of [ClientAdmin]: it reads the request's target as Go's
    server does, hands it to the handler the multiplexer of [internal/hub/hub.go] names for it, and
    encodes the reply as JSON.  Paths that the access commands do not use are a parameter.

    The last part evaluates commands on a small hub. *)

From S2P Require Import Prelude Auth Http HubConfig AdminState AdminTokens AdminAccess Portals HubStatus FilePath.
From S2P Require Import FileSys Credstore Flags Url Timestamp ClientConnect ClientConfig ClientAdmin ClientAdminProofs.
From S2P Require Import ClientExamples.
From Stdlib Require Import ZArith Lia Ascii String.
From stdpp Require Import base gmap strings list.

(** ** Replies as JSON *)

Definition optional (k : string) (t : option Z) : fields :=
  match t with Some t => [(k, JStr (MarshalTime t))] | None => [] end.
Definition listed (k : string) (l : list string) : fields :=
  match l with [] => [] | _ => [(k, JArr (map JStr l))] end.

Definition json_of_tokenView (v : adminTokenView) : json :=
  JObj ([("id", JStr (tv_ID v)); ("role", JStr (tv_Role v)); ("tokenPreview", JStr (tv_TokenPreview v))] ++
        optional "issuedAt" (tv_IssuedAt v) ++ optional "expiresAt" (tv_ExpiresAt v) ++
        optional "revokedAt" (tv_RevokedAt v)).
Definition json_of_machine (m : machineAccess) : json :=
  JObj ([("machineId", JStr (ma_MachineID m)); ("permissions", JArr (map JStr (ma_Permissions m)))] ++
        listed "services" (ma_Services m)).
Definition json_of_access (e : accessEntry) : json :=
  JObj ([("id", JStr (ae_ID e)); ("role", JStr (ae_Role e)); ("tokenPreview", JStr (ae_TokenPreview e));
         ("machines", JArr (map json_of_machine (ae_Machines e)))] ++
        optional "issuedAt" (ae_IssuedAt e) ++ optional "expiresAt" (ae_ExpiresAt e) ++
        optional "revokedAt" (ae_RevokedAt e) ++ [("version", JNum (ae_Version e))] ++
        listed "wildcardInherited" (ae_WildcardInherited e) ++
        listed "wildcardInheritedServices" (ae_WildcardInheritedServices e)).
Definition json_of_portal (p : adminPortalView) : json :=
  JObj [("name", JStr (pv_Name p)); ("url", JStr (pv_URL p)); ("hubDirectory", JStr (pv_HubDirectory p));
        ("hasSyncToken", JBool (pv_HasSyncToken p))].

(** The replies of the token, access and portal endpoints; [None] is an empty body.  What was removed
    stands under [id] or [name]. *)
Definition json_of_payload (removed : string) (p : payload) : option json :=
  match p with
  | PNone => None
  | PError msg => Some (JObj [("error", JStr msg)])
  | PTokens l => Some (JObj [("tokens", JArr (map json_of_tokenView l))])
  | PCreated id role token v =>
      Some (JObj [("id", JStr id); ("role", JStr role); ("token", JStr token); ("version", JNum v)])
  | PRotated id token v =>
      Some (JObj [("id", JStr id); ("status", JStr "rotated"); ("token", JStr token); ("version", JNum v)])
  | PRevokedToken id t v =>
      Some (JObj ([("id", JStr id)] ++ optional "revokedAt" t ++ [("status", JStr "revoked"); ("version", JNum v)]))
  | PAlreadyRevoked id t =>
      Some (JObj ([("id", JStr id)] ++ optional "revokedAt" t ++ [("status", JStr "already-revoked")]))
  | PConflict id v e =>
      Some (JObj [("current", json_of_access e);
                  ("error", JStr "access entry has been modified since last read");
                  ("id", JStr id); ("version", JNum v)])
  | PAccessList l => Some (JObj [("access", JArr (map json_of_access l))])
  | PAccess e => Some (json_of_access e)
  | PUpdated id v => Some (JObj [("id", JStr id); ("status", JStr "updated"); ("version", JNum v)])
  | PRemoved name => Some (JObj [(removed, JStr name); ("status", JStr "removed")])
  | PSetAccess id m perms services v =>
      Some (JObj ([("id", JStr id); ("machineId", JStr m); ("permissions", JArr (map JStr perms))] ++
                  listed "services" services ++ [("status", JStr "updated"); ("version", JNum v)]))
  | PRevokedMachine id m v =>
      Some (JObj [("id", JStr id); ("machineId", JStr m); ("status", JStr "revoked"); ("version", JNum v)])
  | PPortals l => Some (JObj [("portals", JArr (map json_of_portal l))])
  | PPortalAdded updated name url dir sync =>
      Some (JObj [("hasSyncToken", JBool sync); ("hubDirectory", JStr dir); ("name", JStr name);
                  ("status", JStr (if updated then "updated" else "created")); ("url", JStr url)])
  | _ => None
  end.

(** The client's files behind [bookResolve] and [bookToken]: the names the hub directories of the
    remotes and [hubs.yaml] know, and the credential store. *)
Definition clientBook {CC : ConfigCodec} {CR : CredCodec} `{RangeOrder} (net : fetch) (env : saveEnv)
    (hubsPath telaPath user system : string) : HubBook := {|
  bookResolve := resolveHubURL net env hubsPath telaPath;
  bookToken := fun fs hub => LookupToken fs user system hub
|}.

(** ** The target of a request

    The client writes the escaped path and the query of the URL; the server splits off the query,
    and unescapes the path for the handler. *)

Definition controlByte (c : ascii) : bool := (code c <? 32)%Z || (code c =? 127)%Z.
Definition before (c : ascii) (l : list ascii) : list ascii := hd [] (split_on c l).

(** The escaped path and the query; nothing for a URL that does not parse or is not the hub's. *)
Definition target (base url : string) : option (string * string) :=
  rest ← drop_prefix (bytes base) (bytes url);
  if existsb controlByte rest then None
  else
    let rest := before "#" rest in
    let '(p, q) := match cut (of_bytes rest) "?" with Some pq => pq | None => (of_bytes rest, "") end in
    _ ← PathUnescape p; Some (p, q).

(** [cleanPath] of the multiplexer. *)
Definition cleanPath (p : string) : string :=
  if p =s "" then "/"
  else
    let p := if has_prefix p "/" then p else "/" +:+ p in
    let np := Clean p in
    if has_suffix p "/" && (np <>s "/") then np +:+ "/" else np.

(** The unescaped elements of a path, the empty one before the first slash left out. *)
Definition elements (p : string) : list string :=
  map (fun e => default e (PathUnescape e)) (tl (split_slash p)).

Section hub.
  Context `{RangeOrder} (net : portalNet) (hubID hubName : string).
  (** The hub's address; the size of an encoded body; every other path of the hub. *)
  Context (base : string) (jsonSize : json -> Z) (others : request -> hubState -> answer * hubState).
  Context (env : environ).

Definition encoded (removed : string) (r : response) : answer :=
  match json_of_payload removed (body r) with
  | Some j => Answer (status r) (BodyJson j) (jsonSize j)
  | None => Answer (status r) BodyEmpty 0
  end.

Definition wellKnownAnswer (r : request) : answer :=
  match HubStatus.handleWellKnown hubID r with
  | WellKnownNoContent => Answer 204 BodyEmpty 0
  | WellKnownBadMethod => Answer 405 BodyEmpty 0
  | WellKnown v sup caps id =>
      let j := JObj ([("capabilities", JArr (map JStr caps))] ++
        match id with Some i => [("hubId", JStr i)] | None => [] end ++
        [("protocolVersion", JStr v); ("supportedVersions", JArr (map JStr sup))]) in
      Answer 200 (BodyJson j) (jsonSize j)
  end.

(** The handlers of tokens, access and portals read at most 4096 bytes of a body; what is cut does not
    parse. *)
Definition adminBodyLimit : Z := 4096.
Definition readLimited (r : request) : request :=
  match r_Body r with
  | BodyJson j =>
      if (jsonSize j <=? adminBodyLimit)%Z then r
      else Request (r_Method r) (r_Path r) (r_Authorization r) (r_Cookie r) (r_Query r) (r_IfMatch r) BodyBad
  | _ => r
  end.

(** The handler of a path: [/api/admin/tokens] is exact, [/api/admin/tokens/] takes everything
    below it. *)
Definition dispatch (elems : list string) (r : request) (st : hubState) : answer * hubState :=
  let reply removed (p : response * hubState) := (encoded removed (fst p), snd p) in
  let limited := readLimited r in
  match elems with
  | [".well-known"; "tela"] => (wellKnownAnswer r, st)
  | ["api"; "admin"; "tokens"] => reply "id" (handleAdminTokens ParseRFC3339 env st limited)
  | "api" :: "admin" :: "tokens" :: _ :: _ => reply "id" (handleAdminTokenAction env st r)
  | "api" :: "admin" :: "rotate" :: _ :: _ => reply "id" (handleAdminRotate env st r)
  | "api" :: "admin" :: "access" :: _ => reply "id" (handleAdminAccess env st limited)
  | "api" :: "admin" :: "portals" :: _ => reply "name" (handleAdminPortals net hubID hubName env st limited)
  | _ => others r st
  end.

Definition hubRequest (method path query bearer : string) (b : reqBody) : request :=
  Request method (default path (PathUnescape path))
    (if bearer =s "" then "" else "Bearer " +:+ bearer) None (ParseQuery query) "" b.

(** A path that is not clean is redirected with 301, which the client follows with a GET without a
    body. *)
Definition hubSend (r : httpReq) (st : hubState) : option answer * hubState :=
  match target base (hq_URL r) with
  | None => (None, st)
  | Some (path, query) =>
      let b := match hq_Body r with Some j => BodyJson j | None => BodyEmpty end in
      let cleaned := cleanPath path in
      let '(method, path, b) :=
        if cleaned =s path then (hq_Method r, path, b) else ("GET", cleaned, BodyEmpty) in
      let '(a, st) := dispatch (elements path) (hubRequest method path query (hq_Bearer r) b) st in
      (Some a, st)
  end.

(** ** Escaped paths arrive as they were meant *)

(** A name that can stand as an element of a path. *)
Definition segment (e : string) : Prop := e <> "" /\ e <> "." /\ e <> "..".
Definition escapedPath (es : list string) : string := abs (map PathEscape es).

Lemma PathEscape_inj a b : PathEscape a = PathEscape b -> a = b.
Proof. intros E. apply (f_equal PathUnescape) in E. rewrite !PathUnescape_escape in E. by injection E. Qed.

Lemma escaped_byte e d : d ∈ bytes (PathEscape e) -> controlByte d = false /\ d <> "#"%char /\ d <> "?"%char /\ d <> "/"%char.
Proof.
  intros Hd. apply PathEscape_bytes in Hd as [-> |Hk]; [by repeat split|]. revert Hk.
  destruct d as [[] [] [] [] [] [] [] []]; intros Hk; vm_compute in Hk; try discriminate Hk; by repeat split.
Qed.

Lemma escaped_good e : segment e -> good_elem (PathEscape e).
Proof.
  intros (H0 & H1 & H2). split_and!.
  - intros E. by apply (PathEscape_inj e "") in E.
  - intros E. by apply (PathEscape_inj e ".") in E.
  - intros E. by apply (PathEscape_inj e "..") in E.
  - intros Hd. by apply escaped_byte in Hd as (_ & _ & _ & ?).
Qed.

Lemma escaped_path_byte es d :
  d ∈ bytes (escapedPath es) -> d = "/"%char \/ controlByte d = false /\ d <> "#"%char /\ d <> "?"%char.
Proof.
  unfold escapedPath, abs. rewrite bytes_app, elem_of_app.
  intros [Hd|Hd]; [apply list_elem_of_singleton in Hd; by left|].
  induction es as [|e [|f es] IH]; cbn [map] in *; [by apply elem_of_nil in Hd| |].
  - apply escaped_byte in Hd as (? & ? & ? & _). by right.
  - rewrite join_slash_cons, !bytes_app, !elem_of_app in Hd by done.
    destruct Hd as [Hd|[Hd|Hd]]; [|apply list_elem_of_singleton in Hd; by left|by apply IH].
    apply escaped_byte in Hd as (? & ? & ? & _). by right.
Qed.

Lemma unescape_escape e l :
  unescape false (bytes (PathEscape e) ++ l) = app (bytes e) <$> unescape false l.
Proof.
  unfold PathEscape. rewrite bytes_of_bytes. induction (bytes e) as [|c k IH]; [cbn; by destruct (unescape false l)|].
  cbn [flat_map]. rewrite <- app_assoc. destruct (keep_path c) eqn:Hk.
  - cbn [app]. rewrite unescape_keep, IH; [by destruct (unescape false l)| |done]. intros ->. by vm_compute in Hk.
  - rewrite unescape_percent, IH. by destruct (unescape false l).
Qed.

Lemma unescape_path es : PathUnescape (escapedPath es) = Some (abs es).
Proof.
  unfold PathUnescape, escapedPath, abs. rewrite bytes_app.
  change (bytes "/") with ["/"%char]. cbn [app]. rewrite unescape_keep by done.
  assert (unescape false (bytes (join_slash (map PathEscape es))) = Some (bytes (join_slash es))) as ->.
  { induction es as [|e [|f es] IH]; [done| |].
    - cbn [map]. rewrite <- (app_nil_r (bytes _)). change (join_slash [PathEscape e]) with (PathEscape e).
      rewrite unescape_escape. cbn. by rewrite app_nil_r.
    - cbn [map] in *. rewrite (join_slash_cons e), (join_slash_cons (PathEscape e)), !bytes_app, unescape_escape by done.
      change (bytes "/") with ["/"%char]. cbn [app]. rewrite unescape_keep, IH by done. reflexivity. }
  cbn. f_equal. change (String "/" (of_bytes (bytes (join_slash es))) = "/" +:+ join_slash es).
  by rewrite of_bytes_bytes.
Qed.

Lemma cut_absent c s : c ∉ bytes s -> cut s (String c "") = None.
Proof.
  intros Hc. destruct (cut s (String c "")) as [[a b]|] eqn:E; [|done].
  apply cut_Some in E. subst s. rewrite !bytes_app, !elem_of_app in Hc. destruct Hc. right; left. by left.
Qed.

Lemma target_escaped es : target base (base +:+ escapedPath es) = Some (escapedPath es, "").
Proof.
  unfold target. rewrite bytes_app, drop_prefix_app. cbn [mbind option_bind].
  destruct (existsb controlByte _) eqn:Hc.
  { apply existsb_exists in Hc as (d & Hd%list_elem_of_In & E).
    apply escaped_path_byte in Hd as [-> |(? & _)]; [by vm_compute in E|congruence]. }
  unfold before. rewrite split_on_none; [cbn [hd]|].
  - rewrite of_bytes_bytes. rewrite cut_absent; [by rewrite unescape_path|].
    intros Hd. by apply escaped_path_byte in Hd as [?|(_ & _ & ?)].
  - intros Hd. by apply escaped_path_byte in Hd as [?|(_ & ? & _)].
Qed.

Lemma good_escaped es : Forall segment es -> good_elems (map PathEscape es).
Proof. intros Hs. apply Forall_map. eapply Forall_impl; [exact Hs|]. intros e. apply escaped_good. Qed.

Lemma last_byte_suffix s c : has_suffix s (String c "") = true -> exists r, s = r +:+ String c "".
Proof. apply has_suffix_iff. Qed.

Lemma cleanPath_abs es : es <> [] -> good_elems es -> cleanPath (abs es) = abs es.
Proof.
  intros Hne Hg. unfold cleanPath.
  rewrite bool_decide_false by done. rewrite (rooted_abs es : has_prefix (abs es) "/" = true).
  rewrite Clean_abs by done. destruct (has_suffix _ "/" && _) eqn:E; [|done]. exfalso.
  apply andb_true_iff in E as [E _]. apply last_byte_suffix in E as [r E].
  pose proof (split_abs _ Hg) as Hsp. rewrite E in Hsp.
  change (r +:+ "/") with (r +:+ "/" +:+ "") in Hsp. rewrite split_slash_app in Hsp.
  rewrite decide_False in Hsp by done.
  destruct (split_slash_cons r) as (x & xs & Hr). rewrite Hr in Hsp. injection Hsp as _ Hsp.
  assert ("" ∈ es) as Hin by (rewrite <- Hsp, elem_of_app; right; by left).
  rewrite Forall_forall in Hg. by apply Hg in Hin as [? _].
Qed.

Lemma cleanPath_escaped es : es <> [] -> Forall segment es -> cleanPath (escapedPath es) = escapedPath es.
Proof. intros Hne Hs. apply cleanPath_abs; [by destruct es|by apply good_escaped]. Qed.

Lemma elements_escaped es : es <> [] -> Forall segment es -> elements (escapedPath es) = es.
Proof.
  intros Hne Hs. unfold elements, escapedPath. rewrite split_abs by (by apply good_escaped).
  rewrite decide_False by (by destruct es). cbn [tl]. rewrite map_map. rewrite <- (map_id es) at 2.
  apply map_ext. intros e. by rewrite PathUnescape_escape.
Qed.

(** A request for a path built of escaped names reaches the handler with the path of those names. *)
Lemma hubSend_escaped es method tok body pinned st :
  es <> [] -> Forall segment es ->
  hubSend (HttpReq method (base +:+ escapedPath es) tok body pinned) st =
  let r := Request method (abs es) (if tok =s "" then "" else "Bearer " +:+ tok) None ∅ ""
             (match body with Some j => BodyJson j | None => BodyEmpty end) in
  (Some (fst (dispatch es r st)), snd (dispatch es r st)).
Proof.
  intros Hne Hs. unfold hubSend. cbn [hq_URL hq_Body hq_Method hq_Bearer]. rewrite target_escaped.
  rewrite cleanPath_escaped, bool_decide_true by done. cbv zeta. rewrite elements_escaped by done.
  unfold hubRequest. rewrite unescape_path. cbn [default]. change (ParseQuery "") with (∅ : gmap string string).
  by destruct (dispatch es _ st).
Qed.

(** ** An operator's command *)

Context {HB : HubBook} (getenv : string -> string) (now : Z).
Abbreviation state := (cli (W := hubState)).

(** The hub is found under the name given, a token for it is given or stored, and the hub knows that
    token as an owner's or an admin's. *)
Record operator (s : state) (vals : flagValues) (hub tok : string) (fs' : fsys) : Prop := {
  op_found : bookResolve (cl_fs s) (string_value vals "hub") = (Some hub, fs');
  op_base : wsToHTTP hub = base;
  op_hub : hub <> "";
  op_token : tok = if string_value vals "token" =s "" then bookToken fs' hub else string_value vals "token";
  op_some : tok <> "";
  op_admin : isOwnerOrAdmin (globalAuth (cl_world s)) (env_now env) tok = true
}.

Lemma operator_parse s vals hub tok fs' :
  operator s vals hub tok fs' ->
  adminParseHubAndToken vals s = (Done (hub, tok), Cli fs' (cl_world s) (cl_out s) (cl_err s)).
Proof.
  intros [Hf _ Hh Ht Hs _]. unfold adminParseHubAndToken, bind, mustResolveHub, lookupToken, ret.
  rewrite Hf. cbn [fst snd cl_fs cl_world cl_out cl_err]. rewrite (bool_decide_false (hub = "")) by done.
  revert Ht. case_bool_decide as Hv; intros ->; cbn [cl_fs]; by rewrite bool_decide_false.
Qed.

(** What a request for an escaped path comes to. *)
Lemma call_escaped es method hub tok b (s : state) :
  wsToHTTP hub = base -> tok <> "" -> es <> [] -> Forall segment es ->
  let r := Request method (abs es) ("Bearer " +:+ tok) None ∅ ""
             (match b with Some j => BodyJson j | None => BodyEmpty end) in
  let '(a, st') := dispatch es r (cl_world s) in
  call hubSend method hub (escapedPath es) tok b s =
  let s' := Cli (cl_fs s) st' (cl_out s) (cl_err s) in
  if ((200 <=? an_Status a) && (an_Status a <? 300))%Z then (Done (resultOf a), s')
  else (Exit 1, snd (die (A := unit) ("Error (HTTP " +:+ Itoa (an_Status a) +:+ "): " +:+
     match json_key (resultOf a) "error" with Some (JStr e) => e | _ => "unknown error" end) s')).
Proof.
  intros Hb Ht Hne Hs r. destruct (dispatch es r (cl_world s)) as [a st'] eqn:Hd.
  unfold call, adminHTTP, ask, bind. rewrite Hb, hubSend_escaped by done. cbv zeta.
  rewrite (bool_decide_false (tok = "")) by done. fold r. rewrite Hd.
  cbn [fst snd ret fmap option_fmap option_map cl_fs cl_out cl_err]. unfold adminCheckError.
  by destruct (_ && _)%Z.
Qed.

(** The handler finds the operator in the request. *)
Lemma operator_admitted s vals hub tok fs' method path b :
  operator s vals hub tok fs' ->
  requireOwnerOrAdmin env (cl_world s) (Request method path ("Bearer " +:+ tok) None ∅ "" b) = Some tok.
Proof.
  intros Ho. unfold requireOwnerOrAdmin. rewrite (tokenFromRequest_bearer _ tok) by done.
  by rewrite (op_admin _ _ _ _ _ Ho).
Qed.

Lemma cut_bytes_first c sep a b : c ∉ a -> cut_bytes (c :: sep) (a ++ (c :: sep) ++ b) = Some (a, b).
Proof.
  induction a as [|x a IH]; intros Hc.
  - pose proof (drop_prefix_app (c :: sep) b) as E. cbn [app] in *. cbn [cut_bytes]. by rewrite E.
  - rewrite not_elem_of_cons in Hc. destruct Hc as [Hx Hc]. specialize (IH Hc). cbn [app] in IH.
    cbn [app cut_bytes drop_prefix]. destruct (Ascii.eqb_spec c x); [done|]. by rewrite IH.
Qed.

Lemma cut_machines id mid : no_slash id -> cut (id +:+ "/machines/" +:+ mid) "/machines/" = Some (id, mid).
Proof.
  intros Hn. unfold cut. rewrite !bytes_app.
  change (bytes "/machines/") with ("/"%char :: bytes "machines/").
  rewrite cut_bytes_first by done. by rewrite !of_bytes_bytes.
Qed.

(** ** Granting *)

Lemma decode_perms perms services :
  match grantBody perms services with
  | JObj kvs => decode_strings "permissions" kvs [] true = (perms, true) /\
                decode_strings "services" kvs [] true = (services, true)
  | _ => False
  end.
Proof.
  assert (forall l, decode_elems (map JStr l) = Some l) as Hd by (by induction l as [|x l IH]; [|cbn; rewrite IH]).
  unfold grantBody. destruct services as [|n ns]; cbn [decode_strings].
  - change (equal_fold "permissions" "permissions") with true. change (equal_fold "permissions" "services") with false.
    cbn iota. by rewrite Hd.
  - change (equal_fold "permissions" "permissions") with true. change (equal_fold "permissions" "services") with false.
    change (equal_fold "services" "permissions") with false. change (equal_fold "services" "services") with true.
    cbn iota. by rewrite !Hd.
Qed.

(** A served PUT without If-Match. *)
Lemma set_access_runs (st : hubState) r id mid perms services i e :
  r_IfMatch r = "" -> r_Body r = BodyJson (grantBody perms services) ->
  findTokenEntryInCfg st id = Some (i, e) ->
  exists v v' st', adminSetMachineAccess env st r id mid = (Response 200 v (PSetAccess id mid perms services v'), st').
Proof.
  intros Hm Hb Hf. unfold adminSetMachineAccess. rewrite Hb. unfold json_fields.
  pose proof (decode_perms perms services) as Hd. destruct (grantBody perms services) as [| | | | |kvs]; try done.
  destruct Hd as [-> ->]. cbn [andb negb]. rewrite Hf. unfold checkIfMatch. rewrite Hm.
  change (parseIfMatch "") with (@None Z). cbv iota.
  destruct (persistConfig env _) as [ok st2]. destruct (bumpAccessVersion _ id) as [v av]. by do 3 eexists.
Qed.

Lemma find_grants_none t services perms acl :
  findConnectGrant (ConnectTokens acl) t = None ->
  findConnectGrant (ConnectTokens (fold_left (grantPerm t services) perms acl)) t =
  if bool_decide ("connect" ∈ perms) then Some (ConnectGrant t services) else None.
Proof.
  assert (forall perms acl g, findConnectGrant (ConnectTokens acl) t = Some g ->
    findConnectGrant (ConnectTokens (fold_left (grantPerm t services) perms acl)) t = Some g) as Hkeep.
  { clear. induction perms as [|p perms IH]; intros acl g Hg; [done|]. cbn [fold_left]. apply IH. unfold grantPerm.
    repeat case_bool_decide; cbn [ConnectTokens]; try done. clear -Hg.
    induction (ConnectTokens acl) as [|x l IH]; [done|]. cbn in *. by case_bool_decide; auto. }
  revert acl. induction perms as [|p perms IH]; intros acl Hn; [exact Hn|]. cbn [fold_left].
  destruct (decide (p = "connect")) as [->|Hp].
  - rewrite (bool_decide_true ("connect" ∈ "connect" :: perms)) by left. apply Hkeep. unfold grantPerm.
    rewrite bool_decide_false, bool_decide_true by done. cbn [ConnectTokens]. clear -Hn.
    induction (ConnectTokens acl) as [|x l IH]; cbn in *; [by rewrite bool_decide_true|]. case_bool_decide; [done|by apply IH].
  - rewrite IH.
    + rewrite (bool_decide_ext ("connect" ∈ p :: perms) ("connect" ∈ perms)) by (rewrite elem_of_cons; naive_solver). done.
    + unfold grantPerm. repeat case_bool_decide; done.
Qed.

(** The token that alone may register the machine after its access was set; empty when none is named. *)
Definition registerAfter (st : hubState) (e : tokenEntry) (mid : string) (perms : list string) : string :=
  let before := RegisterToken (acl_of (cfg_machines st) mid) in
  if bool_decide ("register" ∈ perms) then te_Token e else if before =s te_Token e then "" else before.

(** Who may register a machine after the access of an identity to [mid] was set. *)
Lemma set_access_register (st : hubState) r id mid v perms services v' st' i e later :
  adminSetMachineAccess env st r id mid = (Response 200 v (PSetAccess id mid perms services v'), st') ->
  coherent st -> findTokenEntryInCfg st id = Some (i, e) ->
  (forall t, canRegister (globalAuth st') later t mid =
     isOwnerOrAdmin (globalAuth st) later t ||
     ((registerAfter st e mid perms =s "") || (registerAfter st e mid perms =s t)) && valid (globalAuth st) later t) /\
  (forall m t, m <> mid -> canRegister (globalAuth st') later t m = canRegister (globalAuth st) later t m).
Proof.
  intros Hrun Hco Hf. apply adminSetMachineAccess_outcome in Hrun as [[? _]|Hrun]; [done|].
  destruct Hrun as (i' & e' & st1 & perms' & services' & Hf' & _ & _ & Hresp & HC).
  injection Hresp as _ <- <- _. rewrite Hf in Hf'. injection Hf' as <- <-.
  apply findTokenEntryInCfg_Some in Hf as [Hrow _].
  assert (cfg_tokens st <> []) as Hne by (intros E; by rewrite E in Hrow).
  pose proof (committed_store HC Hne) as Es'. pose proof (coherent_store st Hco Hne) as Es.
  assert (forall t, validEntry (globalAuth st') later t = validEntry (globalAuth st) later t) as Hv
    by (intros t; by rewrite Es', Es).
  split.
  - intros t. unfold canRegister, isOwnerOrAdmin, valid. rewrite Hv, Es', Es. cbn [enabled machines negb].
    destruct (ownerOrAdminRole _); [done|]. cbn [orb]. rewrite lookup_insert_eq, grants_register.
    unfold registerAfter. destruct (bool_decide ("register" ∈ perms)).
    + case_bool_decide as E; cbn [negb orb andb]; [done|]. by case_bool_decide.
    + cbn [scrubACL RegisterToken]. destruct (RegisterToken _ =s te_Token e); [done|].
      case_bool_decide as E; cbn [negb orb andb]; [done|]. by case_bool_decide.
  - intros m t Hm. unfold canRegister, valid. rewrite Hv, Es', Es. cbn [enabled machines negb].
    by rewrite lookup_insert_ne.
Qed.

(** The scope a served grant leaves on the machine. *)
Lemma set_access_scope (st : hubState) r id mid v perms services v' st' i e later :
  adminSetMachineAccess env st r id mid = (Response 200 v (PSetAccess id mid perms services v'), st') ->
  findTokenEntryInCfg st id = Some (i, e) -> NoDup (te_Token <$> cfg_tokens st) -> te_Token e <> "" ->
  live e later -> ~ privileged e -> te_HubRole e <> "viewer" -> "connect" ∈ perms ->
  connectServicesFilter (globalAuth st') later (te_Token e) mid = match services with [] => None | _ => Some services end.
Proof.
  intros Hrun Hf Hnd Htok Hl Hnp Hnv Hc.
  apply adminSetMachineAccess_outcome in Hrun as [[? _]|Hrun]; [done|].
  destruct Hrun as (i' & e' & st1 & perms' & services' & Hf' & _ & _ & Hresp & HC).
  injection Hresp as _ <- <- _. rewrite Hf in Hf'. injection Hf' as <- <-.
  apply findTokenEntryInCfg_Some in Hf as [Hrow Hid].
  assert (cfg_tokens st <> []) as Hne by (intros E; by rewrite E in Hrow).
  pose proof (committed_store HC Hne) as Es'.
  assert (validEntry (globalAuth st') later (te_Token e) = Some e) as Hv.
  { apply validEntry_Some. rewrite Es'. split; [done|]. split; [|done].
    apply indexTokens_elem; [done| |done]. by eapply list_elem_of_lookup_2. }
  assert (ownerOrAdminRole (Some e) = false) as Hor.
  { apply not_true_iff_false. cbn. rewrite orb_true_iff, !bool_decide_eq_true. done. }
  unfold connectServicesFilter. rewrite Hv, Hor, (bool_decide_false (te_HubRole e = "viewer")) by done.
  rewrite Es'. cbn [enabled machines negb orb]. rewrite acl_of_insert, (bool_decide_true (mid = mid)) by done.
  rewrite find_grants_none, bool_decide_true by (done || (pose proof (scrubACL_connect (te_Token e)
    (acl_of (cfg_machines st) mid) (te_Token e)) as E; rewrite bool_decide_true in E by done;
    unfold hasConnectGrant in E; by destruct (findConnectGrant _ _))).
  by destruct services.
Qed.

Lemma probe_own hub tok (s : state) :
  wsToHTTP hub = base -> checkServicesCapability hubSend hub tok s = (Done None, s).
Proof.
  intros Hb. unfold checkServicesCapability, probeCapabilities, ask, bind. rewrite Hb.
  change "/.well-known/tela" with (escapedPath [".well-known"; "tela"]).
  rewrite hubSend_escaped by (done || (repeat constructor; discriminate)). cbn [dispatch fst snd ret].
  unfold wellKnownAnswer, HubStatus.handleWellKnown. cbn [r_Method].
  rewrite bool_decide_false, bool_decide_true by done. cbn [negb an_Status an_Body].
  destruct (nonEmpty hubID); by destruct s.
Qed.

Lemma access_path id mid :
  abs ["api"; "admin"; "access"; id; "machines"; mid] = "/api/admin/access/" +:+ id +:+ "/machines/" +:+ mid.
Proof. reflexivity. Qed.

Lemma readLimited_fits r : (forall j, r_Body r = BodyJson j -> (jsonSize j <= adminBodyLimit)%Z) -> readLimited r = r.
Proof.
  intros Hj. unfold readLimited. destruct (r_Body r) as [| |j] eqn:E; [done..|].
  specialize (Hj j eq_refl). apply Z.leb_le in Hj. by rewrite Hj.
Qed.

(** The PUT of a grant, as the hub serves it. *)
Lemma grant_served (s : state) vals hub tok fs' id mid perms services i e :
  operator s vals hub tok fs' -> no_slash id -> segment mid ->
  (jsonSize (grantBody perms services) <= adminBodyLimit)%Z ->
  findTokenEntryInCfg (cl_world s) id = Some (i, e) ->
  let r := Request "PUT" (abs ["api"; "admin"; "access"; id; "machines"; mid]) ("Bearer " +:+ tok) None ∅ ""
             (BodyJson (grantBody perms services)) in
  exists v v' st', adminSetMachineAccess env (cl_world s) r id mid = (Response 200 v (PSetAccess id mid perms services v'), st') /\
    exists a, dispatch ["api"; "admin"; "access"; id; "machines"; mid] r (cl_world s) = (a, st') /\ an_Status a = 200%Z.
Proof.
  intros Ho Hid Hmid Hsize Hf r.
  destruct (set_access_runs (cl_world s) r id mid perms services i e eq_refl eq_refl Hf) as (v & v' & st' & Hrun).
  exists v, v', st'. split; [done|].
  assert (handleAdminAccess env (cl_world s) r = (Response 200 v (PSetAccess id mid perms services v'), st')) as Hh.
  { unfold handleAdminAccess. change (r_Method r) with "PUT". rewrite bool_decide_false by done.
    unfold r at 1. rewrite (operator_admitted _ _ _ _ _ _ _ _ Ho). cbv zeta.
    assert (trim_prefix (trim_prefix (r_Path r) "/api/admin/access") "/" = id +:+ "/machines/" +:+ mid) as ->.
    { change (r_Path r) with ("/api/admin/access" +:+ ("/" +:+ (id +:+ "/machines/" +:+ mid))). by rewrite !trim_prefix_app. }
    assert (id +:+ "/machines/" +:+ mid <> "") as Hne.
    { intros E. apply (f_equal bytes) in E. rewrite bytes_app in E. by apply app_eq_nil in E as [_ ?]. }
    rewrite (bool_decide_false (id +:+ _ = "")), cut_machines by done.
    rewrite (bool_decide_false (mid = "")) by apply Hmid. by rewrite bool_decide_true. }
  eexists. split; [cbn [dispatch]; rewrite readLimited_fits, Hh by (by intros j [= <-]); reflexivity|reflexivity].
Qed.

(** C7. An operator's grant does at the hub what it says.  [tela admin access grant] for an identity that is
    neither owner nor admin, with a body within the hub's limit, ends well.  From then on the identity's
    token may connect to and manage the machine exactly as the permissions name, apart from what the
    wildcard grants it; its connections are limited to exactly the services listed, or to none in
    particular if none are; and what every other token may connect to or manage is as before.  Owners
    and admins apart, the machine is registered by the identity alone if that permission is named, else
    by whom it was before, and by every live token when that is nobody; other machines as before. *)
Theorem grant_end_to_end args (s : state) vals id mid ptext more hub tok fs' i e later :
  let fl := hubFlags ++ [("services", false)] in
  let perms := split_comma ptext in
  let services := servicesOf (string_value vals "services") in
  Flags.Parse fl ({[ "services" := "" ]} ∪ hubValues getenv) (permuteArgs fl args) =
    ParseOk vals (id :: mid :: ptext :: more) ->
  operator s vals hub tok fs' ->
  (services = [] \/ existsb (fun p => trim_space p =s "connect") perms = true) ->
  (jsonSize (grantBody perms services) <= adminBodyLimit)%Z ->
  segment id -> no_slash id -> segment mid ->
  coherent (cl_world s) -> NoDup (te_Token <$> cfg_tokens (cl_world s)) ->
  findTokenEntryInCfg (cl_world s) id = Some (i, e) -> te_Token e <> "" -> live e later -> ~ privileged e ->
  let '(o, s') := cmdAdminAccessGrant hubSend getenv args s in
  let auth' := globalAuth (cl_world s') in
  let wild := acl_of (cfg_machines (cl_world s)) "*" in
  o = Done tt /\
  canConnect auth' later (te_Token e) mid =
    bool_decide ("connect" ∈ perms) || (mid <>s "*") && hasConnectGrant (ConnectTokens wild) (te_Token e) /\
  canManage auth' later (te_Token e) mid =
    bool_decide ("manage" ∈ perms) || (mid <>s "*") && inTokenList (ManageTokens wild) (te_Token e) /\
  (let reg := registerAfter (cl_world s) e mid perms in
   forall t, canRegister auth' later t mid =
     isOwnerOrAdmin (globalAuth (cl_world s)) later t ||
     ((reg =s "") || (reg =s t)) && valid (globalAuth (cl_world s)) later t) /\
  ("connect" ∈ perms -> te_HubRole e <> "viewer" ->
   connectServicesFilter auth' later (te_Token e) mid = match services with [] => None | _ => Some services end) /\
  (forall m t, t <> te_Token e ->
     canConnect auth' later t m = canConnect (globalAuth (cl_world s)) later t m /\
     canManage auth' later t m = canManage (globalAuth (cl_world s)) later t m) /\
  (forall m t, m <> mid -> canRegister auth' later t m = canRegister (globalAuth (cl_world s)) later t m).
Proof.
  intros fl perms services Hparse Ho Hsv Hsize Hid Hslash Hmid Hco Hnd Hf Htok Hl Hnp.
  unfold cmdAdminAccessGrant, permuted, parseFlags. fold fl. rewrite Hparse.
  rewrite (bind_Done (ret (vals, id :: mid :: ptext :: more)) _ s _ s eq_refl). cbn [snd fst].
  erewrite (bind_Done (needArgs 3 _ _) _ s tt s) by reflexivity.
  change (arg (id :: mid :: ptext :: more) 0) with id. change (arg (id :: mid :: ptext :: more) 1) with mid.
  change (split_comma (arg (id :: mid :: ptext :: more) 2)) with perms. cbv zeta. fold services.
  assert ((match services with [] => false | _ => true end) &&
          negb (existsb (fun perm => trim_space perm =s "connect") perms) = false) as ->.
  { destruct Hsv as [-> | ->]; [done|by rewrite andb_false_r]. }
  rewrite (bind_Done _ _ _ _ _ (operator_parse _ _ _ _ _ Ho)). cbn [fst snd].
  set (s1 := Cli fs' (cl_world s) (cl_out s) (cl_err s)).
  assert ((if match services with [] => false | _ => true end then checkServicesCapability hubSend hub tok
           else ret None) s1 = (Done None, s1)) as Hprobe.
  { destruct services; [done|]. apply probe_own, Ho. }
  rewrite (bind_Done _ _ _ _ _ Hprobe).
  destruct (grant_served s vals hub tok fs' id mid perms services i e Ho Hslash Hmid Hsize Hf)
    as (v & v' & st' & Hrun & a & Hd & Ha).
  pose proof (call_escaped ["api"; "admin"; "access"; id; "machines"; mid] "PUT" hub tok
    (Some (grantBody perms services)) s1 (op_base _ _ _ _ _ Ho) (op_some _ _ _ _ _ Ho) ltac:(done)) as Hcall.
  cbv zeta in Hcall. cbn [cl_world s1] in Hcall. rewrite Hd in Hcall. rewrite Ha in Hcall.
  change (escapedPath _) with (grantPath id mid) in Hcall.
  rewrite (bind_Done _ _ _ _ _ (Hcall ltac:(repeat constructor; (discriminate || apply Hid || apply Hmid)))).
  unfold println, emit. cbn [cl_world].
  destruct (set_access_exact env (cl_world s) _ id mid v perms services v' st' i e later Hrun Hco Hnd Hf Htok Hl Hnp)
    as (Hc & Hm & _ & Hother).
  destruct (set_access_register (cl_world s) _ id mid v perms services v' st' i e later Hrun Hco Hf) as [Hr Hr'].
  split_and!; try done. intros Hcon Hnv. by apply (set_access_scope _ _ _ _ _ _ _ _ _ _ _ _ Hrun Hf).
Qed.

(** ** Adding an identity *)

Lemma decode_addToken id role expires :
  match addTokenBody id role expires with
  | JObj kvs => decode_string "id" kvs "" true = (id, true) /\ decode_string "role" kvs "" true = (role, true) /\
                decode_string "expiresAt" kvs "" true = (default "" expires, true)
  | _ => False
  end.
Proof.
  unfold addTokenBody, json_strings. destruct expires as [t|], (bool_decide_reflect (role = "")) as [->|]; by vm_compute.
Qed.

(** The expiry the hub keeps for a text. *)
Definition keptExpiry (expires : option string) (exp : option Z) : Prop :=
  match expires with
  | None => exp = None
  | Some t => t <> "" /\ exists x, ParseRFC3339 t = Some x /\ exp = Some x
  end.

Lemma add_token_runs (st : hubState) r id role expires exp token :
  r_Body r = BodyJson (addTokenBody id role expires) -> id <> "" -> role ∈ ["";"owner";"admin"] ->
  findTokenEntryInCfg st id = None -> generateToken (env_rand env) = Some token -> keptExpiry expires exp ->
  exists v v' st', adminAddToken ParseRFC3339 env st r = (Response 201 v (PCreated id role token v'), st') /\
    committed st st' (cfg_tokens st ++ [TokenEntry id token role (Some (env_now env)) exp None]) (cfg_machines st).
Proof.
  intros Hb Hid Hrole Hf Hg Hexp. unfold adminAddToken. rewrite Hb. unfold json_fields.
  pose proof (decode_addToken id role expires) as Hd. destruct (addTokenBody id role expires) as [| | | | |kvs]; try done.
  destruct Hd as (-> & -> & ->). cbn [andb negb orb]. rewrite (bool_decide_false (id = "")) by done.
  assert ((role <>s "") && (role <>s "owner") && (role <>s "admin") = false) as ->.
  { rewrite !elem_of_cons, elem_of_nil in Hrole. destruct Hrole as [-> |[-> |[-> |[]]]]; reflexivity. }
  rewrite Hf, Hg.
  assert ((if default "" expires =s "" then Some None
           else match ParseRFC3339 (default "" expires) with Some t => Some (Some t) | None => None end) = Some exp) as ->.
  { destruct expires as [t|]; cbn in *; [|by subst]. destruct Hexp as (Ht & x & -> & ->). by rewrite bool_decide_false. }
  destruct (persistConfig env _) as [ok st2] eqn:Hp.
  destruct (ensureAccessVersion (versions st2) id) as [v av]. do 3 eexists. split; [reflexivity|].
  exact (persist_committed _ st _ _ _ _ Hp eq_refl).
Qed.

(** The reply a served POST prints from. *)
Definition created (id role token : string) (v : Z) : fields :=
  [("id", JStr id); ("role", JStr role); ("token", JStr token); ("version", JNum v)].

(** C8. [tela admin tokens add] by an operator, with a body within the hub's limit, creates the identity it
    names.  The token it prints is the new identity's, is accepted by the hub from then on, and until the
    second of the expiry asked for (a time whose year has four digits) or without end; no other identity
    and no permission changes. *)
Theorem add_token_end_to_end args (s : state) vals id more hub tok fs' token expiresAt :
  let fl := hubFlags ++ [("role", false); ("expires", false)] in
  let role := string_value vals "role" in
  let expires := string_value vals "expires" in
  let st := cl_world s in
  Flags.Parse fl ({[ "role" := ""; "expires" := "" ]} ∪ hubValues getenv) (permuteArgs fl args) =
    ParseOk vals (id :: more) ->
  operator s vals hub tok fs' -> id <> "" -> role ∈ ["";"owner";"admin"] ->
  match expiresAt with
  | None => expires = ""
  | Some t => expires <> "" /\ parseExpires now expires = Some t /\ fourDigitYear t
  end ->
  findTokenEntryInCfg st id = None -> generateToken (env_rand env) = Some token -> fresh_token st token ->
  NoDup (te_Token <$> cfg_tokens st) ->
  (forall v, (jsonSize (JObj (created id role token v)) <= bodyLimit)%Z) ->
  (jsonSize (addTokenBody id role (FormatRFC3339 <$> expiresAt)) <= adminBodyLimit)%Z ->
  let '(o, s') := cmdAdminAddToken hubSend getenv now args s in
  let exp := (fun t => (t / perSecond * perSecond)%Z) <$> expiresAt in
  o = Done tt /\ Line ("  Token: " +:+ token) ∈ cl_out s' /\
  cfg_tokens (cl_world s') = cfg_tokens st ++ [TokenEntry id token role (Some (env_now env)) exp None] /\
  cfg_machines (cl_world s') = cfg_machines st /\
  forall later, valid (globalAuth (cl_world s')) later token = match exp with Some t => (later <=? t)%Z | None => true end.
Proof.
  intros fl role expires st Hparse Ho Hid Hrole Hexp Hf Hg Hfresh Hnd Hsize Hfits.
  set (text := FormatRFC3339 <$> expiresAt). set (exp := (fun t => (t / perSecond * perSecond)%Z) <$> expiresAt).
  unfold cmdAdminAddToken, permuted, parseFlags. fold fl. rewrite Hparse.
  rewrite (bind_Done (ret (vals, id :: more)) _ s _ s eq_refl). cbn [snd fst].
  rewrite (bind_Done _ _ _ _ _ (operator_parse _ _ _ _ _ Ho)). cbn [fst snd]. cbv zeta.
  set (s1 := Cli fs' (cl_world s) (cl_out s) (cl_err s)). fold role expires.
  assert ((if expires =s "" then ret None
           else match parseExpires now expires with
                | Some t => ret (Some (FormatRFC3339 t))
                | None => die "Error: invalid -expires value" end) s1 = (Done text, s1)) as Htext.
  { destruct expiresAt as [t|]; cbn in Hexp.
    - destruct Hexp as (He & Hp & _). by rewrite bool_decide_false, Hp.
    - by rewrite Hexp. }
  rewrite (bind_Done _ _ _ _ _ Htext).
  assert (keptExpiry text exp) as Hkept.
  { destruct expiresAt as [t|]; [|done]. destruct Hexp as (_ & _ & Hy). pose proof (Parse_Format t Hy) as Hp.
    split; [|by eexists]. intros E. by rewrite E in Hp. }
  set (r := Request "POST" (abs ["api"; "admin"; "tokens"]) ("Bearer " +:+ tok) None ∅ ""
             (BodyJson (addTokenBody id role text))).
  destruct (add_token_runs st r id role text exp token eq_refl Hid Hrole Hf Hg Hkept) as (v & v' & st' & Hrun & HC).
  assert (handleAdminTokens ParseRFC3339 env st r = (Response 201 v (PCreated id role token v'), st')) as Hh.
  { unfold handleAdminTokens. change (r_Method r) with "POST". rewrite bool_decide_false by done.
    unfold r at 1. unfold st at 1. rewrite (operator_admitted _ _ _ _ _ _ _ _ Ho).
    by rewrite bool_decide_false, bool_decide_true. }
  pose proof (call_escaped ["api"; "admin"; "tokens"] "POST" hub tok (Some (addTokenBody id role text)) s1
    (op_base _ _ _ _ _ Ho) (op_some _ _ _ _ _ Ho) ltac:(done) ltac:(repeat constructor; discriminate)) as Hcall.
  cbv zeta in Hcall. cbn [dispatch] in Hcall. change (cl_world s1) with st in Hcall. fold r in Hcall.
  rewrite readLimited_fits in Hcall by (by intros j [= <-]). rewrite Hh in Hcall.
  change (escapedPath _) with "/api/admin/tokens" in Hcall.
  cbn [fst snd] in Hcall. change (an_Status (encoded _ _)) with 201%Z in Hcall.
  change ((200 <=? 201) && (201 <? 300))%Z with true in Hcall. cbv iota in Hcall.
  rewrite (bind_Done _ _ _ _ _ Hcall).
  assert (rstr (resultOf (encoded "id" (Response 201 v (PCreated id role token v')))) "token" = token) as Htoken.
  { unfold resultOf. cbn [encoded json_of_payload body an_Size an_Body].
    pose proof (Hsize v') as Hs. unfold created in Hs. apply Z.ltb_ge in Hs. by rewrite Hs. }
  split_and!.
  - reflexivity.
  - unfold println, emit, bind, ret. cbn [cl_out cl_world cl_fs cl_err]. rewrite Htoken.
    rewrite !elem_of_app. left. left. left. right. by left.
  - apply HC.
  - apply HC.
  - intros later. unfold println, emit, bind, ret. cbn [cl_out cl_world cl_fs cl_err].
    assert (cfg_tokens st ++ [TokenEntry id token role (Some (env_now env)) exp None] <> []) as Hne by (by destruct (cfg_tokens st)).
    rewrite (committed_store HC Hne). set (row := TokenEntry _ _ _ _ _ _) in *. destruct Hfresh as (Htk & Hfr & _).
    unfold valid, validEntry. rewrite (bool_decide_false (token = "")) by done. cbn [byToken].
    assert (indexTokens (cfg_tokens st ++ [row]) !! token = Some row) as ->.
    { change token with (te_Token row). apply indexTokens_elem; [|rewrite elem_of_app; right; by left|done].
      rewrite fmap_app. apply NoDup_app. split; [done|]. split; [|apply NoDup_singleton].
      intros x (y & -> & Hy)%list_elem_of_fmap. cbn. rewrite list_elem_of_singleton. by apply Hfr. }
    unfold isValid, isRevoked, isExpired, row. cbn [te_RevokedAt te_ExpiresAt]. rewrite bool_decide_false by (by intros []).
    destruct exp as [t|]; cbn [negb andb]; [|done]. rewrite <- Z.leb_antisym. by destruct (later <=? t)%Z.
Qed.

End hub.

(** * The administration commands evaluated

    The theorems of [ClientAdminProofs] and [AdminE2E] on a small hub, and what the commands do where
    one would not expect it. *)

(** ** Dates *)

Definition feb29 : Z := (dayOf 2024 2 29 * secondsPerDay * perSecond)%Z.
Example calendar_examples :
  dateOf 0 = (1970, 1, 1)%Z /\ dateOf (-1) = (1969, 12, 31)%Z /\
  FormatRFC3339 feb29 = "2024-02-29T00:00:00Z" /\
  FormatRFC3339 (AddDate feb29 1 0) = "2025-03-01T00:00:00Z" /\
  FormatRFC3339 (AddDate feb29 0 366) = "2025-03-01T00:00:00Z" /\
  MarshalTime (feb29 + 5000000)%Z = "2024-02-29T00:00:00.005Z" /\
  ParseRFC3339 "2024-02-29T01:00:00.5+01:00" = Some (feb29 + 500000000)%Z /\
  ParseRFC3339 "2023-02-29T00:00:00Z" = None.
Proof. by vm_compute. Qed.

(** A year of five digits is written and not read back: a token that should last ten thousand years is
    refused by the hub. *)
Example far_year :
  parseExpires feb29 "9999y" = Some (AddDate feb29 9999 0) /\
  FormatRFC3339 (AddDate feb29 9999 0) = "12023-03-01T00:00:00Z" /\
  ParseRFC3339 "12023-03-01T00:00:00Z" = None.
Proof. by vm_compute. Qed.

(** ** A hub and an operator *)

Definition no_net : portalNet := fun _ => ExFailed.
Definition no_fetch : fetch := fun _ _ => None.
Definition ops_book : HubBook := clientBook no_fetch no_fault "/hubs.yaml" "/tela.yaml" demo_user SystemPath.
Definition ops_hub : hubState :=
  hub_of [row "boss" "mine" "owner"; row "alice" "alice-token" ""; row "al" "al-token" "";
          row "a/b" "slash-token" ""] {["m" := MachineACL "" [ConnectGrant "alice-token" []] []]}.
Definition notFound (r : request) (st : hubState) : answer * hubState := (Answer 404 BodyEmpty 0, st).
Definition small (j : json) : Z := 100.

(** The hub comes from the environment, and the token from the credential store. *)
Definition ops_env (k : string) : string := if k =s "TELA_HUB" then "wss://hub.example" else "".

Definition ops_send : httpReq -> hubState -> option answer * hubState :=
  hubSend no_net "" "" "https://hub.example" small notFound (env_at 5).
Definition ops_start (st : hubState) : cli (W := hubState) := Cli demo_disk0 st [] [].
Definition ops_run (args : list string) (st : hubState) : outcome unit * cli (W := hubState) :=
  cmdAdmin (HB := ops_book) ops_send ops_env feb29 (fun _ => None) (fun _ => None) (fun _ => None) args (ops_start st).

Definition hub_after (args : list string) : hubState := cl_world (snd (ops_run args ops_hub)).
Definition printed_by (args : list string) : outcome unit * list printed * list string :=
  let '(o, s) := ops_run args ops_hub in (o, cl_out s, cl_err s).

Example grant_runs :
  printed_by ["access"; "grant"; "alice"; "m"; "connect,manage"; "-services"; "SSH, web"] =
    (Done tt, [Line "Set 'alice' permissions on 'm' to [connect, manage] (services: SSH, web)."], []) /\
  connectServicesFilter (globalAuth (hub_after ["access"; "grant"; "alice"; "m"; "connect"; "-services"; "SSH, web"])) 9
    "alice-token" "m" = Some ["SSH"; "web"].
Proof. by vm_compute. Qed.

Example add_runs :
  printed_by ["tokens"; "add"; "bob"; "-expires"; "30d"] =
    (Done tt, [Line "Added identity 'bob' (expires: 2024-03-30T00:00:00Z)"; Line "  Token: 1234"; Line "";
               Line saveThis; Line nowActive], []).
Proof. by vm_compute. Qed.

(** ** The theorems at these inputs *)

Definition grant_args : list string := ["alice"; "m"; "connect,manage"; "-services"; "SSH, web"].
Definition grant_vals : flagValues := {[ "services" := "SSH, web"; "hub" := "wss://hub.example"; "token" := "" ]}.

Lemma ops_found : resolveHubURL no_fetch no_fault "/hubs.yaml" "/tela.yaml" demo_disk0 "wss://hub.example" =
  (Some "wss://hub.example", demo_disk0).
Proof.
  unfold resolveHubURL. rewrite bool_decide_false by discriminate.
  assert (is_ws "wss://hub.example" = true) as -> by (vm_compute; reflexivity). reflexivity.
Qed.

Lemma ops_stored : LookupToken demo_disk0 demo_user SystemPath "wss://hub.example" = "mine".
Proof. by vm_compute. Qed.

Lemma ops_operator vals :
  string_value vals "hub" = "wss://hub.example" -> string_value vals "token" = EmptyString ->
  operator (HB := ops_book) "https://hub.example" (env_at 5) (ops_start ops_hub) vals "wss://hub.example" "mine" demo_disk0.
Proof.
  intros Hh Ht. constructor; [rewrite Hh; exact ops_found|by vm_compute|discriminate| |discriminate|by vm_compute].
  rewrite Ht. symmetry. exact ops_stored.
Qed.

Lemma ops_distinct : NoDup (te_Token <$> cfg_tokens ops_hub).
Proof. apply (bool_decide_unpack _). by vm_compute. Qed.

Lemma grant_end_to_end_witness :
  let '(o, s') := cmdAdminAccessGrant (HB := ops_book) ops_send ops_env grant_args (ops_start ops_hub) in
  o = Done tt /\
  canConnect (globalAuth (cl_world s')) 9 "alice-token" "m" =
    bool_decide ("connect" ∈ ["connect"; "manage"]) || true && false.
Proof.
  assert (Flags.Parse (hubFlags ++ [("services", false)]) ({[ "services" := EmptyString ]} ∪ hubValues ops_env)
    (permuteArgs (hubFlags ++ [("services", false)]) grant_args) =
    ParseOk grant_vals ["alice"; "m"; "connect,manage"]) as Hparse by (by vm_compute).
  pose proof (grant_end_to_end (HB := ops_book) no_net EmptyString EmptyString "https://hub.example" small notFound (env_at 5)
    ops_env grant_args (ops_start ops_hub) grant_vals "alice" "m" "connect,manage" [] "wss://hub.example" "mine" demo_disk0
    1 (row "alice" "alice-token" EmptyString) 9 Hparse (ops_operator grant_vals eq_refl eq_refl)) as Hgrant.
  cbv zeta in Hgrant. unfold ops_send.
  destruct (cmdAdminAccessGrant _ ops_env grant_args (ops_start ops_hub)) as [o s'].
  destruct Hgrant as (Ho & Hc & _).
  - right. by vm_compute.
  - by vm_compute.
  - by repeat split.
  - unfold no_slash. apply (bool_decide_unpack _). by vm_compute.
  - by repeat split.
  - reflexivity.
  - exact ops_distinct.
  - by vm_compute.
  - discriminate.
  - by split.
  - by intros [|].
  - split; [exact Ho|exact Hc].
Defined.

Definition add_args : list string := ["bob"; "-expires"; "30d"].
Definition add_vals : flagValues :=
  {[ "role" := EmptyString; "expires" := "30d"; "hub" := "wss://hub.example"; "token" := EmptyString ]}.
Definition add_expiry : Z := (feb29 + 30 * secondsPerDay * perSecond)%Z.

Lemma ops_fresh : fresh_token ops_hub "1234".
Proof.
  split; [discriminate|]. split.
  - intros e He. repeat (apply elem_of_cons in He as [-> |He]; [discriminate|]). by apply elem_of_nil in He.
  - intros m acl Hm.
    change (({["m" := MachineACL "" [ConnectGrant "alice-token" []] []]} : gmap string machineACL) !! m = Some acl) in Hm.
    apply lookup_singleton_Some in Hm as [_ <-]. split; [discriminate|]. split; [reflexivity|apply not_elem_of_nil].
Qed.

Lemma add_token_end_to_end_witness :
  let '(o, s') := cmdAdminAddToken (HB := ops_book) ops_send ops_env feb29 add_args (ops_start ops_hub) in
  o = Done tt /\ Line "  Token: 1234" ∈ cl_out s' /\
  forall later, valid (globalAuth (cl_world s')) later "1234" = (later <=? add_expiry / perSecond * perSecond)%Z.
Proof.
  assert (Flags.Parse (hubFlags ++ [("role", false); ("expires", false)])
    ({[ "role" := EmptyString; "expires" := EmptyString ]} ∪ hubValues ops_env)
    (permuteArgs (hubFlags ++ [("role", false); ("expires", false)]) add_args) = ParseOk add_vals ["bob"]) as Hparse
    by (by vm_compute).
  pose proof (add_token_end_to_end (HB := ops_book) no_net EmptyString EmptyString "https://hub.example" small notFound (env_at 5)
    ops_env feb29 add_args (ops_start ops_hub) add_vals "bob" [] "wss://hub.example" "mine" demo_disk0 "1234"
    (Some add_expiry) Hparse (ops_operator add_vals eq_refl eq_refl)) as Hadd.
  cbv zeta in Hadd. unfold ops_send.
  destruct (cmdAdminAddToken _ ops_env feb29 add_args (ops_start ops_hub)) as [o s'].
  destruct Hadd as (Ho & Hl & _ & _ & Hv).
  - discriminate.
  - by left.
  - split; [discriminate|]. split; [by vm_compute|by vm_compute].
  - by vm_compute.
  - by vm_compute.
  - exact ops_fresh.
  - exact ops_distinct.
  - intros v. by vm_compute.
  - by vm_compute.
  - split; [exact Ho|]. split; [exact Hl|exact Hv].
Defined.

(** ** Where the commands surprise *)

(** [rotate] does not escape the name: what follows a question mark is a query, and the identity before
    it is rotated under the wrong heading. *)
Example rotate_unescaped :
  printed_by ["rotate"; "alice?x"] =
    (Done tt, [Line "Rotated token for 'alice?x'."; Line "  New token: 1234"; Line ""; Line saveThis; Line nowActive], []) /\
  te_Token <$> cfg_tokens (hub_after ["rotate"; "alice?x"]) = ["mine"; "1234"; "al-token"; "slash-token"].
Proof. by vm_compute. Qed.

(** The hub splits the unescaped path, so an identity with a slash cannot be revoked; and removing a name
    of the form [id/machines/m] revokes a permission instead, and reports a removal. *)
Example slash_in_identity :
  printed_by ["tokens"; "revoke"; "a/b"] = (Exit 1, [], ["Error (HTTP 404): unknown action: b/revoke"]) /\
  printed_by ["access"; "remove"; "alice/machines/m"] =
    (Done tt, [Line "Removed identity 'alice/machines/m' and all its permissions."], []) /\
  cfg_tokens (hub_after ["access"; "remove"; "alice/machines/m"]) = cfg_tokens ops_hub /\
  canConnect (globalAuth (hub_after ["access"; "remove"; "alice/machines/m"])) 9 "alice-token" "m" = false.
Proof. by vm_compute. Qed.

(** A [-services] value of blanks and commas asks for a restriction and gets none. *)
Example blank_services_widen :
  fst (fst (printed_by ["access"; "grant"; "al"; "m"; "connect"; "-services"; ","])) = Done tt /\
  canConnect (globalAuth (hub_after ["access"; "grant"; "al"; "m"; "connect"; "-services"; ","])) 9 "al-token" "m" = true /\
  connectServicesFilter (globalAuth (hub_after ["access"; "grant"; "al"; "m"; "connect"; "-services"; ","])) 9 "al-token" "m" = None.
Proof. by vm_compute. Qed.

(** The check for [connect] trims the permissions; what is sent is not trimmed, and the hub ignores names
    it does not know: the command reports a permission that was not given. *)
Example spaced_permission_lost :
  printed_by ["access"; "grant"; "alice"; "m"; "manage, connect"; "-services"; "SSH"] =
    (Done tt, [Line "Set 'alice' permissions on 'm' to [manage,  connect] (services: SSH)."], []) /\
  canConnect (globalAuth (hub_after ["access"; "grant"; "alice"; "m"; "manage, connect"; "-services"; "SSH"])) 9
    "alice-token" "m" = false.
Proof. by vm_compute. Qed.

(** A machine's name goes into the path escaped as a query value: a space arrives as a plus sign. *)
Example machine_with_space :
  target "https://hub.example" ("https://hub.example" +:+ agentPath "my box" "restart") =
    Some ("/api/admin/agents/my+box/restart", EmptyString) /\
  PathUnescape "/api/admin/agents/my+box/restart" = Some "/api/admin/agents/my+box/restart".
Proof. by vm_compute. Qed.

(** An answer of more than 64 KiB is cut off, does not parse, and the list is reported as empty. *)
Example long_list_is_empty :
  let send := hubSend no_net EmptyString EmptyString "https://hub.example" (fun _ => 70000%Z) notFound (env_at 5) in
  let '(o, s) := cmdAdminAccess (HB := ops_book) send ops_env [] (ops_start ops_hub) in
  (o, cl_out s) = (Done tt, [Line "No access entries configured."]).
Proof. by vm_compute. Qed.
