(* ===== verification/PortalSources.v ===== *)
(** * The portals of the desktop application ([cmd/telagui/portal_sources.go])

    The portals the application talks to: its own, embedded one, and those the user signed in to.
    The list of the latter is a YAML file; every function loads it, changes it and saves it again
    under one mutex, so each is one transition of the disk.

    The second part has the theorems. *)

From S2P Require Import Prelude Http PortalProtocol FilePath FileSys PortalFile PortalClient Url Timestamp.
From Stdlib Require Import ZArith Lia Ascii String.
From stdpp Require Import base gmap strings list fin_maps relations.

Definition PortalSourceKindEmbedded : string := "embedded".
Definition PortalSourceKindRemote : string := "remote".

Record PortalSource := MkPortalSource {
  ps_Name : string; ps_Kind : string; ps_URL : string; ps_BearerToken : string;
  ps_Enabled : bool; ps_AddedAt : string
}.

Record portalSourcesFile := SourcesFile {
  sf_ActiveName : string;
  sf_EmbeddedEnabled : option bool;
  sf_Remote : list PortalSource
}.

Class SourcesCodec := {
  MarshalSources : portalSourcesFile -> option (list Z);
  UnmarshalSources : list Z -> option portalSourcesFile;
  unmarshal_sources s d : MarshalSources s = Some d -> UnmarshalSources d = Some s
}.

Definition embeddedSourceName : string := "Local".

Inductive sourceErr :=
  | SeFile                              (** the file cannot be read, parsed or saved *)
  | SeNotRunning | SeNotFound | SeReserved | SeRequired | SeExists | SeNotRemovable
  | SeURL | SeDiscover (e : clientErr) | SeProtocol (v : string) | SeStart (e : clientErr)
  | SeExpired | SeDenied | SeExpiredEarly | SePoll (e : clientErr) | SeCancelled.

Definition with_Enabled (s : PortalSource) (b : bool) : PortalSource :=
  MkPortalSource (ps_Name s) (ps_Kind s) (ps_URL s) (ps_BearerToken s) b (ps_AddedAt s).
Definition with_Name (s : PortalSource) (n : string) : PortalSource :=
  MkPortalSource n (ps_Kind s) (ps_URL s) (ps_BearerToken s) (ps_Enabled s) (ps_AddedAt s).
Definition with_Remote (f : portalSourcesFile) (l : list PortalSource) : portalSourcesFile :=
  SourcesFile (sf_ActiveName f) (sf_EmbeddedEnabled f) l.

Definition migratePortalSources (old : portalSourcesFile) : portalSourcesFile :=
  let embedded := (sf_ActiveName old =s "") || (sf_ActiveName old =s embeddedSourceName) in
  SourcesFile "" (Some embedded)
    (map (fun s => with_Enabled s (if embedded then true else ps_Name s =s sf_ActiveName old)) (sf_Remote old)).

Definition embeddedIsEnabledIn (f : portalSourcesFile) : bool := default true (sf_EmbeddedEnabled f).

(** The first element a predicate picks, changed. *)
Fixpoint update_first {A} (p : A -> bool) (g : A -> A) (l : list A) : list A :=
  match l with
  | [] => []
  | x :: l' => if p x then g x :: l' else x :: update_first p g l'
  end.
(** The last one. *)
Definition update_last {A} (p : A -> bool) (g : A -> A) (l : list A) : list A :=
  rev (update_first p g (rev l)).

Definition named_source (n : string) (s : PortalSource) : bool := ps_Name s =s n.

Section sources.
  (** Two environments, because loading an old file saves it as well: [lenv] is what a load meets,
      [env] the save of an operation. *)
  Context {SC : SourcesCodec} (lenv env : fileEnv) (path : string).

Definition savePortalSources (env : fileEnv) (f : portalSourcesFile) (fs : fsys) : bool * fsys :=
  let '(ok, trace) := replaceFile env fs path ".portal-sources-" (MarshalSources f) in
  (ok, default fs (head trace)).

(** A file without [embeddedEnabled] is from before several portals could be enabled; its error when
    it is saved again is ignored. *)
Definition loadPortalSources (fs : fsys) : option portalSourcesFile * fsys :=
  match (if fe_fault lenv "readfile" then RdError else ReadFile fs path) with
  | RdNotExist => (Some (SourcesFile "" (Some true) []), fs)
  | RdError => (None, fs)
  | RdData d =>
      match UnmarshalSources d with
      | None => (None, fs)
      | Some out =>
          match sf_EmbeddedEnabled out with
          | None => let out := migratePortalSources out in (Some out, snd (savePortalSources lenv out fs))
          | Some _ => (Some out, fs)
          end
      end
  end.

Definition save_or_fail (f : portalSourcesFile) (fs : fsys) : option sourceErr * fsys :=
  let '(ok, fs) := savePortalSources env f fs in (if ok then None else Some SeFile, fs).

(** ** Sources and clients.  The embedded portal, when it runs, is its URL and bearer token. *)

Definition embeddedSource (portal : option (string * string)) : option PortalSource :=
  (fun '(url, bearer) => MkPortalSource embeddedSourceName PortalSourceKindEmbedded url bearer true "") <$> portal.

Definition portalClientForSource (portal : option (string * string)) (name : string) (fs : fsys)
    : (sourceErr + Client) * fsys :=
  if (name =s "") || (name =s embeddedSourceName) then
    (match embeddedSource portal with
     | None => inl SeNotRunning
     | Some e => inr (MkClient (ps_URL e) (ps_BearerToken e))
     end, fs)
  else
    let '(f, fs) := loadPortalSources fs in
    (match f with
     | None => inl SeFile
     | Some f =>
         match find_first (named_source name) (sf_Remote f) with
         | Some s => inr (MkClient (ps_URL s) (ps_BearerToken s))
         | None => inl SeNotFound
         end
     end, fs).

(** The name, and whether there was no error. *)
Definition firstEnabledSourceName (fs : fsys) : (string * bool) * fsys :=
  let '(f, fs) := loadPortalSources fs in
  (match f with
   | None => (embeddedSourceName, false)
   | Some f =>
       if embeddedIsEnabledIn f then (embeddedSourceName, true)
       else match find_first ps_Enabled (sf_Remote f) with
            | Some s => (ps_Name s, true)
            | None => (embeddedSourceName, true)
            end
   end, fs).

Definition clientsOf (portal : option (string * string)) (f : portalSourcesFile) : gmap string Client :=
  let out : gmap string Client :=
    if embeddedIsEnabledIn f then
      match embeddedSource portal with
      | Some e => {[ embeddedSourceName := MkClient (ps_URL e) (ps_BearerToken e) ]}
      | None => ∅
      end
    else ∅ in
  fold_left (fun m s => if ps_Enabled s then <[ps_Name s := MkClient (ps_URL s) (ps_BearerToken s)]> m else m)
    (sf_Remote f) out.

Definition enabledPortalClients (portal : option (string * string)) (fs : fsys)
    : option (gmap string Client) * fsys :=
  let '(f, fs) := loadPortalSources fs in (clientsOf portal <$> f, fs).

(** ** Which source answers for a hub *)

Record sourceResult := SourceResult { sr_Source : string; sr_URL : string; sr_CanManage : bool }.

(** What the goroutine of one source sends: a zero result when the request fails or the hub is not
    listed. *)
Definition sourceAnswer (lists : Client -> clientErr + list HubVisibility) (hubName : string)
    (name : string) (c : Client) : sourceResult :=
  match lists c with
  | inl _ => SourceResult "" "" false
  | inr hubs =>
      match find_first (fun h => hv_Name h =s hubName) hubs with
      | Some h => SourceResult name (hv_URL h) (hv_CanManage h)
      | None => SourceResult "" "" false
      end
  end.

(** The loop over the results as they arrive. *)
Fixpoint chooseSource (best : sourceResult) (arrived : list sourceResult) : sourceResult :=
  match arrived with
  | [] => best
  | r :: arrived' =>
      if sr_Source r =s "" then chooseSource best arrived'
      else
        let best := if sr_Source best =s "" then r else best in
        if sr_CanManage r && (sr_Source r =s embeddedSourceName) then r
        else chooseSource (if sr_CanManage r && negb (sr_CanManage best) then r else best) arrived'
  end.

(** [arrival] is the order in which the sources answer; the [bool] is whether there was no error. *)
Definition sourceForHub (portal : option (string * string)) (lists : Client -> clientErr + list HubVisibility)
    (arrival : gmap string Client -> list (string * Client)) (hubName : string) (fs : fsys)
    : (string * string * bool) * fsys :=
  let '(clients, fs) := enabledPortalClients portal fs in
  match clients with
  | None => let '((n, _), fs) := firstEnabledSourceName fs in ((n, "", false), fs)
  | Some clients =>
      let best := chooseSource (SourceResult "" "" false)
        (map (fun nc => sourceAnswer lists hubName (fst nc) (snd nc)) (arrival clients)) in
      if sr_Source best =s "" then
        let '((n, _), fs) := firstEnabledSourceName fs in ((n, "", false), fs)
      else ((sr_Source best, sr_URL best, true), fs)
  end.

(** ** The methods behind the settings page *)

Definition PortalListSources (portal : option (string * string)) (fs : fsys)
    : option (list PortalSource) * fsys :=
  let '(f, fs) := loadPortalSources fs in
  ((fun f => match embeddedSource portal with
             | Some e => [with_Enabled e (embeddedIsEnabledIn f)] | None => [] end ++ sf_Remote f) <$> f, fs).

Definition PortalSetSourceEnabled (name : string) (enabled : bool) (fs : fsys) : option sourceErr * fsys :=
  let '(f, fs) := loadPortalSources fs in
  match f with
  | None => (Some SeFile, fs)
  | Some f =>
      if (name =s "") || (name =s embeddedSourceName) then
        save_or_fail (SourcesFile (sf_ActiveName f) (Some enabled) (sf_Remote f)) fs
      else if existsb (named_source name) (sf_Remote f) then
        save_or_fail (with_Remote f (update_first (named_source name) (fun s => with_Enabled s enabled) (sf_Remote f))) fs
      else (Some SeNotFound, fs)
  end.

(** The loop stops with an error at the first source of the new name, and otherwise keeps the last
    index of the old one. *)
Definition PortalRenameSource (oldName newName : string) (fs : fsys) : option sourceErr * fsys :=
  let oldName := trim_space oldName in
  let newName := trim_space newName in
  if (oldName =s "") || (newName =s "") then (Some SeRequired, fs)
  else if (oldName =s embeddedSourceName) || (newName =s embeddedSourceName) then (Some SeReserved, fs)
  else
    let '(f, fs) := loadPortalSources fs in
    match f with
    | None => (Some SeFile, fs)
    | Some f =>
        if existsb (named_source newName) (sf_Remote f) then (Some SeExists, fs)
        else if negb (existsb (named_source oldName) (sf_Remote f)) then (Some SeNotFound, fs)
        else save_or_fail (with_Remote f
               (update_last (named_source oldName) (fun s => with_Name s newName) (sf_Remote f))) fs
    end.

Definition PortalRemoveSource (name : string) (fs : fsys) : option sourceErr * fsys :=
  if (name =s "") || (name =s embeddedSourceName) then (Some SeNotRemovable, fs)
  else
    let '(f, fs) := loadPortalSources fs in
    match f with
    | None => (Some SeFile, fs)
    | Some f =>
        if negb (existsb (named_source name) (sf_Remote f)) then (Some SeNotFound, fs)
        else save_or_fail (with_Remote f (filter (fun s => named_source name s = false) (sf_Remote f))) fs
    end.

(** A name that is taken is replaced. *)
Definition savePortalSourceFromToken (now : Z) (name baseURL bearer : string) (fs : fsys)
    : option sourceErr * fsys :=
  let '(f, fs) := loadPortalSources fs in
  match f with
  | None => (Some SeFile, fs)
  | Some f =>
      let added := FormatRFC3339 now in
      let remote :=
        if existsb (named_source name) (sf_Remote f) then
          update_first (named_source name)
            (fun s => MkPortalSource (ps_Name s) (ps_Kind s) baseURL bearer true added) (sf_Remote f)
        else sf_Remote f ++ [MkPortalSource name PortalSourceKindRemote baseURL bearer true added] in
      save_or_fail (with_Remote f remote) fs
  end.

(** ** Signing in *)

(** Path and fragment are dropped, and the query; the sign that there was an empty one is kept. *)
Definition normalizePortalURL (raw : string) : option string :=
  let raw := trim_space raw in
  if raw =s "" then None
  else
    let raw := match cut raw "://" with Some _ => raw | None => "https://" +:+ raw end in
    u ← Parse raw;
    if (u_Scheme u <>s "http") && (u_Scheme u <>s "https") then None
    else if u_Host u =s "" then None
    else Some (base_string (MkURL (u_Scheme u) (u_User u) (u_Host u) "" "" (u_ForceQuery u) "")).

Definition supportsProtocol1 (disc : Discovery) : bool :=
  (d_ProtocolVersion disc =s "1.0") || existsb (fun v => v =s "1.0") (d_SupportedVersions disc).

Record PortalDeviceAuthStartResult := DeviceAuthStart {
  ds_BaseURL : string; ds_DeviceCode : string; ds_UserCode : string; ds_VerificationURI : string;
  ds_ExpiresIn : Z; ds_Interval : Z
}.

(** [VerificationURI] is also the page the browser opens, when it is not empty. *)
Definition PortalDeviceAuthStart (net : transport) (rawURL : string) : sourceErr + PortalDeviceAuthStartResult :=
  match normalizePortalURL rawURL with
  | None => inl SeURL
  | Some baseURL =>
      let c := MkClient baseURL "" in
      match Discover net c with
      | inl e => inl (SeDiscover e)
      | inr disc =>
          if negb (supportsProtocol1 disc) then inl (SeProtocol (d_ProtocolVersion disc))
          else match StartDeviceAuth net c with
          | inl e => inl (SeStart e)
          | inr auth =>
              let browseTo := if da_VerificationURIComplete auth =s "" then da_VerificationURI auth
                              else da_VerificationURIComplete auth in
              inr (DeviceAuthStart baseURL (da_DeviceCode auth) (da_UserCode auth) browseTo
                     (da_ExpiresIn auth) (da_Interval auth))
          end
      end
  end.

(** One round of the polling loop: what the portal answers, how long that takes, and whether the
    application is closed during the wait that follows. *)
Record pollRound := PollRound { pr_Answer : clientErr + (string * string); pr_Latency : Z; pr_Closed : bool }.

(** How long the loop asks, whatever lifetime the portal gave the code; and how long a request may take. *)
Definition pollDeadline : Z := 20 * 60 * perSecond.
Definition pollTimeout : Z := 15 * perSecond.

(** The result, with the time at which it is there.  Instants are nanoseconds;
    the interval is a 64-bit [time.Duration], and a negative one is no wait. *)
Fixpoint pollDevice (fuel : nat) (rounds : nat -> pollRound) (k : nat) (now deadline interval : Z)
    : option ((sourceErr + string) * Z) :=
  match fuel with
  | O => None
  | S fuel' =>
      if (deadline <? now)%Z then Some (inl SeExpired, now)
      else
        let r := rounds k in
        let now := (now + pr_Latency r)%Z in
        let wait interval :=
          if pr_Closed r then Some (inl SeCancelled, now)
          else pollDevice fuel' rounds (S k) (now + Z.max 0 interval) deadline interval in
        match pr_Answer r with
        | inr (access, _) => Some (inr access, now)
        | inl CPending => wait interval
        | inl CSlowDown => wait (i64 (interval + 5 * perSecond))
        | inl CDenied => Some (inl SeDenied, now)
        | inl CExpired => Some (inl SeExpiredEarly, now)
        | inl e => Some (inl (SePoll e), now)
        end
  end.

(** Every wait takes at least a second, unless the interval overflows. *)
Definition pollFuel : nat := 1202.

(** The third component is the time at which the loop is left. *)
Definition PortalDeviceAuthComplete (rounds : nat -> pollRound) (now : Z) (sourceName baseURL deviceCode : string)
    (intervalSeconds : Z) (fs : fsys) : option (option sourceErr * fsys * Z) :=
  let sourceName := trim_space sourceName in
  if sourceName =s "" then Some (Some SeRequired, fs, now)
  else if sourceName =s embeddedSourceName then Some (Some SeReserved, fs, now)
  else if (baseURL =s "") || (deviceCode =s "") then Some (Some SeRequired, fs, now)
  else
    let interval := i64 ((if (intervalSeconds <=? 0)%Z then 5 else intervalSeconds) * perSecond)%Z in
    match pollDevice pollFuel rounds 0 now (now + pollDeadline) interval with
    | None => None
    | Some (inl e, now) => Some (Some e, fs, now)
    | Some (inr access, now) => Some (savePortalSourceFromToken now sourceName baseURL access fs, now)
    end.

End sources.

(** * What the list of portals guarantees

    Every change of the list is one step of a pure function on it, whatever save fails; names stay
    distinct, so a source's client is its own; the choice among sources that know a hub; and the
    polling of the device grant, which ends. *)

(** ** Choosing a source *)

Section choice.
  Implicit Types (r best : sourceResult) (l : list sourceResult).

Definition answers r : Prop := sr_Source r <> "".
Definition embedded_manages r : Prop := sr_Source r = embeddedSourceName /\ sr_CanManage r = true.

(** What the loop maintains of the best result. *)
Lemma chooseSource_spec best l :
  let b := chooseSource best l in
  (sr_Source b = "" <-> sr_Source best = "" /\ Forall (fun r => sr_Source r = "") l) /\
  (b = best \/ b ∈ l) /\
  (sr_CanManage b = false -> answers b ->
     (answers best -> sr_CanManage best = false) /\
     Forall (fun r => answers r -> sr_CanManage r = false) l) /\
  (Exists (fun r => embedded_manages r) l -> embedded_manages b).
Proof.
  revert best. induction l as [|r l IH]; intros best; cbn zeta; cbn [chooseSource].
  { split; [|split; [|split]]; [by rewrite Forall_nil; tauto|by left|by intros; split; [|constructor]|by intros ?%Exists_nil]. }
  rewrite Forall_cons, Exists_cons, elem_of_cons.
  destruct (bool_decide_reflect (sr_Source r = "")) as [Er|Er].
  { destruct (IH best) as (H1 & H2 & H3 & H4). split; [|split; [|split]].
    - rewrite H1. tauto.
    - tauto.
    - intros Hc Ha. destruct (H3 Hc Ha) as [H5 H6]. split; [done|]. constructor; [|done]. by intros ?.
    - intros [[E _]|He]; [|by apply H4]. rewrite Er in E. discriminate. }
  set (best' := if sr_Source best =s "" then r else best).
  destruct (sr_CanManage r && (sr_Source r =s embeddedSourceName)) eqn:Hloc.
  { apply andb_true_iff in Hloc as [Hm El%bool_decide_eq_true]. split; [|split; [|split]].
    - split; [by intros E; rewrite E in Er|by intros [_ [E _]]; rewrite E in Er].
    - right. by left.
    - by rewrite Hm.
    - intros _. by split. }
  destruct (IH (if sr_CanManage r && negb (sr_CanManage best') then r else best')) as (H1 & H2 & H3 & H4).
  set (b := chooseSource _ l) in *.
  assert (sr_Source best' <> "") as Hb'.
  { unfold best'. by destruct (bool_decide_reflect (sr_Source best = "")). }
  assert (sr_Source (if sr_CanManage r && negb (sr_CanManage best') then r else best') <> "") as Hn
    by (destruct (sr_CanManage r && negb (sr_CanManage best')); assumption).
  assert (best' = best \/ best' = r) as Hor by (unfold best'; destruct (_ =s _); auto).
  split; [|split; [|split]].
  - rewrite H1. split; [by intros [E _]|]. intros [_ [E _]]. by rewrite E in Er.
  - destruct H2 as [E|H2]; [rewrite E|by right; right].
    destruct (sr_CanManage r && negb (sr_CanManage best')); [by right; left|].
    destruct Hor as [E'|E']; rewrite E'; [by left|by right; left].
  - intros Hc Ha. destruct (H3 Hc Ha) as [H5 H6]. specialize (H5 Hn).
    assert (sr_CanManage r = false /\ sr_CanManage best' = false) as [H7 H8].
    { destruct (sr_CanManage r) eqn:E1, (sr_CanManage best') eqn:E2; cbn in H5; rewrite ?E1, ?E2 in H5; by split. }
    split; [|by constructor]. intros Hab. unfold best' in H8. by rewrite bool_decide_false in H8.
  - intros [[E Hm]|He]; [|by apply H4]. by rewrite Hm, E in Hloc.
Qed.

End choice.

Section sources.
  Context {SC : SourcesCodec} (ds : ppath) (f : string).
  Implicit Types (l : portalSourcesFile) (fs : fsys) (env lenv : fileEnv) (portal : option (string * string)).

Definition sources_path : string := abs (ds ++ [f]).
Definition sources_tmp : string := ".portal-sources-".

(** The list a load sees: an old document counts as migrated. *)
Definition up_to_date l : portalSourcesFile :=
  match sf_EmbeddedEnabled l with None => migratePortalSources l | Some _ => l end.
Definition listOn fs : option portalSourcesFile :=
  match fs !! (ds ++ [f]) with
  | Some (NFile d) => up_to_date <$> UnmarshalSources d
  | _ => Some (SourcesFile "" (Some true) [])
  end.

Lemma up_to_date_enabled l : sf_EmbeddedEnabled (up_to_date l) <> None.
Proof. unfold up_to_date. by destruct (sf_EmbeddedEnabled l) eqn:E; rewrite ?E. Qed.

Lemma up_to_date_id l : sf_EmbeddedEnabled l <> None -> up_to_date l = l.
Proof. unfold up_to_date. by destruct (sf_EmbeddedEnabled l). Qed.

Lemma listOn_enabled fs l : listOn fs = Some l -> sf_EmbeddedEnabled l <> None.
Proof.
  unfold listOn. destruct (fs !! _) as [[|d| |]|]; try (by intros [= <-]).
  intros (x & _ & ->)%fmap_Some. apply up_to_date_enabled.
Qed.

(** The disk as a save with this environment expects it. *)
Abbreviation fit env fs := (ready ds f env sources_tmp fs).

Lemma save_list env l fs ok fs' :
  fit env fs -> sf_EmbeddedEnabled l <> None -> savePortalSources sources_path env l fs = (ok, fs') ->
  listOn fs' = (if ok then Some l else listOn fs) /\ (forall env', fit env' fs -> fit env' fs').
Proof.
  intros Hr Hl. unfold savePortalSources. change ".portal-sources-" with sources_tmp.
  destruct (replaceFile env fs sources_path sources_tmp (MarshalSources l))
    as [ok' tr] eqn:E. intros [= -> <-].
  destruct (replaceFile_done ds f env sources_tmp fs _ ok tr Hr E) as (g & -> & H). cbn [from_option id].
  assert ((forall k, ~ ds ++ [f] `prefix_of` k -> ~ ds ++ [temp_name env sources_tmp] `prefix_of` k -> g !! k = fs !! k) /\
          plain_slot (ds ++ [temp_name env sources_tmp]) g /\ disk_ok ds f g) as (Ho & Hsl & Hdk).
  { destruct ok; [destruct H as (d & _ & ? & ? & ? & ?)|destruct H as (? & ? & H)].
    - split_and!; [done|by left|done].
    - split_and!; [intros k _; apply H|done|done]. }
  split.
  - destruct ok.
    + destruct H as (d & Hm & _ & Hf & _). unfold listOn. rewrite Hf. rewrite (unmarshal_sources _ _ Hm).
      cbn. by rewrite up_to_date_id.
    + unfold listOn. by rewrite (but_temp_file _ _ _ _ _ _ (rd_ne _ _ _ _ _ Hr) H).
  - intros env' [H1 H2 H3 H4 H5]. split; try done.
    destruct (decide (temp_name env' sources_tmp = temp_name env sources_tmp)) as [->|Hne]; [done|].
    unfold plain_slot. rewrite Ho; [done| |]; intros Hp%child_prefix; congruence.
Qed.

Lemma load_list lenv fs :
  fit lenv fs -> fe_fault lenv "readfile" = false ->
  fst (loadPortalSources lenv sources_path fs) = listOn fs /\
  listOn (snd (loadPortalSources lenv sources_path fs)) = listOn fs /\
  (forall env, fit env fs -> fit env (snd (loadPortalSources lenv sources_path fs))).
Proof.
  intros Hr Hf. unfold loadPortalSources. rewrite Hf. destruct (rd_disk _ _ _ _ _ Hr) as [Hd Hs].
  unfold sources_path at 1 3 5. rewrite (ReadFile_child ds f (rd_file _ _ _ _ _ Hr)) by done.
  unfold listOn at 1. destruct Hs as [Hn|[d Hn]]; rewrite Hn; [by split_and!|].
  destruct (UnmarshalSources d) as [out|] eqn:Hu; [|by split_and!]. unfold up_to_date. cbn [fmap option_fmap option_map].
  destruct (sf_EmbeddedEnabled out) eqn:He; [by split_and!|]. cbn [fst snd].
  destruct (savePortalSources sources_path lenv (migratePortalSources out) fs) as [ok fs'] eqn:E.
  destruct (save_list lenv (migratePortalSources out) fs ok fs' Hr ltac:(cbn; discriminate) E) as [Hl Hp]. split_and!; [done| |done].
  cbn [snd]. rewrite Hl. destruct ok; [|done]. unfold listOn. rewrite Hn, Hu. cbn. unfold up_to_date. by rewrite He.
Qed.

(** ** The operations as a function on the list *)

Inductive sourceOp :=
  | SoEnable (name : string) (enabled : bool) | SoRename (old new : string) | SoRemove (name : string)
  | SoSignIn (now : Z) (name url bearer : string).

Definition runSource lenv env (op : sourceOp) fs : option sourceErr * fsys :=
  match op with
  | SoEnable n b => PortalSetSourceEnabled lenv env sources_path n b fs
  | SoRename o n => PortalRenameSource lenv env sources_path o n fs
  | SoRemove n => PortalRemoveSource lenv env sources_path n fs
  | SoSignIn now n url tok => savePortalSourceFromToken lenv env sources_path now n url tok fs
  end.

Definition known (n : string) l : bool := existsb (named_source n) (sf_Remote l).

Definition effect (op : sourceOp) l : sourceErr + portalSourcesFile :=
  match op with
  | SoEnable n b =>
      if (n =s "") || (n =s embeddedSourceName) then inr (SourcesFile (sf_ActiveName l) (Some b) (sf_Remote l))
      else if known n l then
        inr (with_Remote l (update_first (named_source n) (fun s => with_Enabled s b) (sf_Remote l)))
      else inl SeNotFound
  | SoRename o n =>
      let o := trim_space o in let n := trim_space n in
      if (o =s "") || (n =s "") then inl SeRequired
      else if (o =s embeddedSourceName) || (n =s embeddedSourceName) then inl SeReserved
      else if known n l then inl SeExists
      else if known o l then
        inr (with_Remote l (update_last (named_source o) (fun s => with_Name s n) (sf_Remote l)))
      else inl SeNotFound
  | SoRemove n =>
      if (n =s "") || (n =s embeddedSourceName) then inl SeNotRemovable
      else if known n l then
        inr (with_Remote l (filter (fun s => named_source n s = false) (sf_Remote l)))
      else inl SeNotFound
  | SoSignIn now n url tok =>
      let added := FormatRFC3339 now in
      inr (with_Remote l
        (if known n l then
           update_first (named_source n)
             (fun s => MkPortalSource (ps_Name s) (ps_Kind s) url tok true added) (sf_Remote l)
         else sf_Remote l ++ [MkPortalSource n PortalSourceKindRemote url tok true added]))
  end.

(** The result of an operation against what the list becomes. *)
Definition amounts (r : option sourceErr * fsys) fs (e : sourceErr + portalSourcesFile) : Prop :=
  (forall env, fit env fs -> fit env (snd r)) /\
  match e with
  | inl err => fst r = Some err /\ listOn (snd r) = listOn fs
  | inr l' => fst r = None /\ listOn (snd r) = Some l' \/ fst r = Some SeFile /\ listOn (snd r) = listOn fs
  end.

Lemma refused_amounts err fs fs' :
  listOn fs' = listOn fs -> (forall env, fit env fs -> fit env fs') -> amounts (Some err, fs') fs (inl err).
Proof. by intros. Qed.

Lemma saved_amounts env l fs fs' :
  listOn fs' = listOn fs -> (forall env, fit env fs -> fit env fs') -> fit env fs' ->
  sf_EmbeddedEnabled l <> None -> amounts (save_or_fail env sources_path l fs') fs (inr l).
Proof.
  intros Hl Hp Hr He. unfold save_or_fail. destruct (savePortalSources sources_path env l fs') as [ok fs''] eqn:E.
  destruct (save_list env l fs' ok fs'' Hr He E) as [Hs Hp']. split; [by intros ? ?; apply Hp', Hp|].
  destruct ok; [by left|right]. cbn [fst snd]. split; [done|congruence].
Qed.

Lemma runSource_amounts lenv env op fs l :
  fit lenv fs -> fit env fs -> fe_fault lenv "readfile" = false -> listOn fs = Some l ->
  amounts (runSource lenv env op fs) fs (effect op l).
Proof.
  intros Hrl Hre Hf Hl. pose proof (listOn_enabled fs l Hl) as Hen.
  destruct (load_list lenv fs Hrl Hf) as (L1 & L2 & L3).
  destruct (loadPortalSources lenv sources_path fs) as [o fs'] eqn:E. cbn [fst snd] in *. subst o. rewrite Hl in E.
  assert (forall l', sf_EmbeddedEnabled l' <> None -> amounts (save_or_fail env sources_path l' fs') fs (inr l')) as Hsave
    by (intros; by apply saved_amounts; auto).
  assert (forall err, amounts (Some err, fs') fs (inl err)) as Hno by (by intros; apply refused_amounts).
  assert (forall err, amounts (Some err, fs) fs (inl err)) as Hno' by (by intros; apply refused_amounts).
  destruct op as [n b|o n|n|now n url tok]; cbn [runSource effect].
  - unfold PortalSetSourceEnabled. rewrite E. destruct (_ || _); [by apply Hsave|].
    unfold known. destruct (existsb _ _); [by apply Hsave|done].
  - unfold PortalRenameSource. cbv zeta. destruct (_ || _); [done|]. destruct (_ || _); [done|]. rewrite E.
    fold (known (trim_space n) l) (known (trim_space o) l). destruct (known (trim_space n) l); [done|].
    destruct (known (trim_space o) l); [by apply Hsave|done].
  - unfold PortalRemoveSource. destruct (_ || _); [done|]. rewrite E. fold (known n l).
    destruct (known n l); [by apply Hsave|done].
  - unfold savePortalSourceFromToken. rewrite E. fold (known n l). by apply Hsave.
Qed.

(** ** Names stay distinct *)

Record sources_ok l : Prop := SourcesOk {
  so_names : NoDup (ps_Name <$> sf_Remote l);
  so_free : Forall (fun s => ps_Name s <> "" /\ ps_Name s <> embeddedSourceName) (sf_Remote l)
}.

Lemma update_first_fmap {A B} (g : A -> B) p h (xs : list A) :
  (forall x, g (h x) = g x) -> g <$> update_first p h xs = g <$> xs.
Proof. intros Hg. induction xs as [|x xs IH]; [done|]. cbn. destruct (p x); cbn; by rewrite ?Hg, ?IH. Qed.

Lemma update_first_Forall {A} (P : A -> Prop) p h (xs : list A) :
  (forall x, P x -> P (h x)) -> Forall P xs -> Forall P (update_first p h xs).
Proof. intros Hh. induction 1 as [|x xs Hx Hxs IH]; [constructor|]. cbn. destruct (p x); constructor; auto. Qed.

Lemma known_spec n l : known n l = true <-> n ∈ ps_Name <$> sf_Remote l.
Proof.
  unfold known. rewrite existsb_elem_of, list_elem_of_fmap. unfold named_source. split.
  - intros (s & Hs & E%bool_decide_eq_true). by exists s.
  - intros (s & -> & Hs). exists s. by rewrite bool_decide_eq_true.
Qed.

(** Renaming one source keeps the names distinct. *)
Lemma rename_NoDup o n (xs : list PortalSource) :
  n ∉ ps_Name <$> xs -> NoDup (ps_Name <$> xs) ->
  NoDup (ps_Name <$> update_first (named_source o) (fun s => with_Name s n) xs) /\
  (forall m, m ∈ ps_Name <$> update_first (named_source o) (fun s => with_Name s n) xs -> m = n \/ m ∈ ps_Name <$> xs).
Proof.
  induction xs as [|x xs IH]; [by split; [|auto]|]. rewrite !fmap_cons, not_elem_of_cons, !NoDup_cons.
  intros [Hnx Hn] [Hx Hnd]. destruct (IH Hn Hnd) as [H1 H2]. cbn [update_first].
  destruct (named_source o x); rewrite fmap_cons; setoid_rewrite elem_of_cons.
  - cbn [with_Name ps_Name]. split; [by apply NoDup_cons|]. intros m [->|Hm]; auto.
  - split.
    + apply NoDup_cons. split; [|done]. intros Hin. destruct (H2 _ Hin) as [E|?]; [by apply Hnx|done].
    + intros m [->|Hm]; [by right; left|]. destruct (H2 m Hm); auto.
Qed.

Lemma names_rev (xs : list PortalSource) : ps_Name <$> rev xs ≡ₚ ps_Name <$> xs.
Proof. by rewrite <- Permutation_rev. Qed.

Lemma effect_ok op l l' :
  sources_ok l -> (match op with SoSignIn _ n _ _ => n <> "" /\ n <> embeddedSourceName | _ => True end) ->
  effect op l = inr l' -> sources_ok l'.
Proof.
  intros [Hnd Hfree] Hop He. destruct op as [n b|o n|n|now n url tok]; cbn [effect] in He.
  - destruct (_ || _); [by injection He as <-|]. destruct (known n l); [|done]. injection He as <-. split; cbn.
    + by rewrite update_first_fmap.
    + by apply update_first_Forall.
  - cbv zeta in He. destruct ((trim_space o =s "") || (trim_space n =s "")) eqn:H1; [done|].
    destruct ((trim_space o =s embeddedSourceName) || (trim_space n =s embeddedSourceName)) eqn:H2; [done|].
    destruct (known (trim_space n) l) eqn:Hn; [done|]. destruct (known (trim_space o) l); [|done].
    injection He as <-. apply orb_false_iff in H1 as [_ H1%bool_decide_eq_false], H2 as [_ H2%bool_decide_eq_false].
    assert (trim_space n ∉ ps_Name <$> rev (sf_Remote l)) as Hnot.
    { rewrite names_rev, <- known_spec, Hn. done. }
    split; cbn; unfold update_last.
    + rewrite names_rev. apply rename_NoDup; [done|]. by rewrite names_rev.
    + apply Forall_rev, update_first_Forall; [by intros|]. by apply Forall_rev.
  - destruct (_ || _); [done|]. destruct (known n l); [|done]. injection He as <-. split; cbn.
    + eapply sublist_NoDup; [exact Hnd|]. apply fmap_sublist, sublist_filter.
    + rewrite Forall_forall in *. intros s [_ Hs]%list_elem_of_filter. auto.
  - injection He as <-. destruct (known n l) eqn:Hn; split; cbn.
    + by rewrite update_first_fmap.
    + by apply update_first_Forall.
    + rewrite fmap_app, NoDup_app. split_and!; [done| |by apply NoDup_singleton].
      intros m Hm Hin%list_elem_of_singleton. subst m. apply (known_spec n l) in Hm. cbn in Hm. rewrite Hm in Hn. done.
    + apply Forall_app. split; [done|]. by constructor.
Qed.

(** ** Clients *)

Lemma clients_fold n (xs : list PortalSource) (m : gmap string Client) :
  NoDup (ps_Name <$> xs) ->
  fold_left (fun m s => if ps_Enabled s then <[ps_Name s := MkClient (ps_URL s) (ps_BearerToken s)]> m else m) xs m !! n =
  match find_first (named_source n) xs with
  | Some s => if ps_Enabled s then Some (MkClient (ps_URL s) (ps_BearerToken s)) else m !! n
  | None => m !! n
  end.
Proof.
  revert m. induction xs as [|x xs IH]; intros m Hnd; [done|]. rewrite fmap_cons in Hnd.
  apply NoDup_cons in Hnd as [Hx Hnd]. cbn [fold_left find_first]. rewrite IH by done. unfold named_source at 2.
  destruct (bool_decide_reflect (ps_Name x = n)) as [<-|Hne].
  - assert (find_first (named_source (ps_Name x)) xs = None) as ->.
    { apply find_first_None. intros y Hy. apply bool_decide_eq_false. intros E. apply Hx. rewrite <- E.
      apply list_elem_of_fmap. by exists y. }
    destruct (ps_Enabled x); [apply lookup_insert_eq|done].
  - assert ((if ps_Enabled x then <[ps_Name x := MkClient (ps_URL x) (ps_BearerToken x)]> m else m) !! n = m !! n) as ->
      by (destruct (ps_Enabled x); [by apply lookup_insert_ne|done]).
    done.
Qed.

(** Which client a name has among the enabled sources. *)
Definition client_of portal l (n : string) : option Client :=
  if n =s embeddedSourceName then
    if embeddedIsEnabledIn l then (fun '(url, bearer) => MkClient url bearer) <$> portal else None
  else
    s ← find_first (named_source n) (sf_Remote l);
    if ps_Enabled s then Some (MkClient (ps_URL s) (ps_BearerToken s)) else None.

Lemma clientsOf_exact portal l n : sources_ok l -> clientsOf portal l !! n = client_of portal l n.
Proof.
  intros [Hnd Hfree]. unfold clientsOf, client_of. rewrite clients_fold by done.
  set (m := if embeddedIsEnabledIn l then _ else _).
  assert (m !! n = if n =s embeddedSourceName then
    if embeddedIsEnabledIn l then (fun '(url, bearer) => MkClient url bearer) <$> portal else None else None) as Hm.
  { unfold m, embeddedSource. destruct (embeddedIsEnabledIn l), portal as [[url tok]|]; cbn;
      destruct (bool_decide_reflect (n = embeddedSourceName)) as [->|Hne]; try done.
    - rewrite lookup_insert_ne by (intros E; by apply Hne). apply lookup_empty. }
  rewrite Hm. destruct (bool_decide_reflect (n = embeddedSourceName)) as [->|Hne].
  - destruct (find_first _ _) as [s|] eqn:E; [|done]. apply find_first_Some in E as [Hin Hs].
    apply bool_decide_eq_true in Hs. rewrite Forall_forall in Hfree. by destruct (Hfree s Hin).
  - destruct (find_first _ _) as [s|]; [|done]. cbn. by destruct (ps_Enabled s).
Qed.

(** ** Any sequence of operations *)

(** One operation of the running application, with any failures but that of reading the list. *)
Inductive source_step : fsys -> fsys -> Prop :=
  | source_step_run lenv env op fs :
      fit lenv fs -> fit env fs -> fe_fault lenv "readfile" = false ->
      match op with SoSignIn _ n _ _ => n <> "" /\ n <> embeddedSourceName | _ => True end ->
      source_step fs (snd (runSource lenv env op fs)).

Definition good_list fs : Prop := exists l, listOn fs = Some l /\ sources_ok l.

Lemma source_step_good fs fs' : source_step fs fs' -> good_list fs -> good_list fs'.
Proof.
  intros [lenv env op g Hl He Hf Hop] (l & Hg & Hok).
  destruct (runSource_amounts lenv env op g l Hl He Hf Hg) as [_ Ha].
  destruct (effect op l) as [err|l'] eqn:E.
  - exists l. split; [|done]. destruct Ha as [_ ->]. done.
  - destruct Ha as [[_ Ha]|[_ Ha]]; [exists l'|exists l]; (split; [congruence|]); [by eapply effect_ok|done].
Qed.

(** The list of portals over the life of the application.  Each operation is one step of the pure
    [effect] on the list or an error that leaves it as it was, whatever save fails; names stay distinct
    and apart from the embedded portal's; and at every moment an enabled source is asked with its own URL
    and token, and the embedded portal with the ones of this run. *)
Theorem source_list_refines fs0 fs portal :
  good_list fs0 -> rtc source_step fs0 fs ->
  exists l, listOn fs = Some l /\ sources_ok l /\
    (forall lenv env op, fit lenv fs -> fit env fs -> fe_fault lenv "readfile" = false ->
       amounts (runSource lenv env op fs) fs (effect op l)) /\
    (forall lenv, fit lenv fs -> fe_fault lenv "readfile" = false ->
       exists m, fst (enabledPortalClients lenv sources_path portal fs) = Some m /\
         forall n, m !! n = client_of portal l n).
Proof.
  intros H0 Hsteps.
  assert (good_list fs) as (l & Hl & Hok) by (induction Hsteps; eauto using source_step_good).
  exists l. split_and!; [done..| |].
  - intros lenv env op H1 H2 H3. by apply runSource_amounts.
  - intros lenv H1 H2. exists (clientsOf portal l). split; [|intros n; by apply clientsOf_exact].
    destruct (load_list lenv fs H1 H2) as [E _]. unfold enabledPortalClients.
    destruct (loadPortalSources lenv sources_path fs) as [o fs']. cbn [fst] in *. by rewrite E, Hl.
Qed.

(** ** The source of a hub *)

(** What a source says of a hub. *)
Definition lists_hub (lists : Client -> clientErr + list HubVisibility) (hub : string) (c : Client) (h : HubVisibility) : Prop :=
  exists hubs, lists c = inr hubs /\ find_first (fun h => hv_Name h =s hub) hubs = Some h.

Lemma sourceAnswer_spec lists hub n c :
  n <> "" ->
  (sr_Source (sourceAnswer lists hub n c) = "" /\ forall h, ~ lists_hub lists hub c h) \/
  (exists h, lists_hub lists hub c h /\ sourceAnswer lists hub n c = SourceResult n (hv_URL h) (hv_CanManage h)).
Proof.
  intros Hn. unfold sourceAnswer, lists_hub. destruct (lists c) as [e|hubs].
  - left. split; [done|]. by intros h (? & ? & _).
  - destruct (find_first _ hubs) as [h|] eqn:E.
    + right. exists h. split; [by exists hubs|done].
    + left. split; [done|]. intros h (? & [= <-] & E'). congruence.
Qed.

(** Whatever the order in which the portals answer, the source chosen for a hub is an enabled one that
    lists the hub, with the URL it lists; one through which the user may manage the hub if there is such
    a source, and the embedded portal if it is one of these; and there is none only if no enabled source
    lists the hub. *)
Theorem source_for_hub_best lenv portal lists arrival hub fs l :
  fit lenv fs -> fe_fault lenv "readfile" = false -> listOn fs = Some l -> sources_ok l ->
  (forall m, arrival m ≡ₚ map_to_list m) ->
  let '(source, url, ok) := fst (sourceForHub lenv sources_path portal lists arrival hub fs) in
  if ok then
    exists c h, client_of portal l source = Some c /\ lists_hub lists hub c h /\ url = hv_URL h /\
      (hv_CanManage h = false ->
         forall n c' h', client_of portal l n = Some c' -> lists_hub lists hub c' h' -> hv_CanManage h' = false) /\
      (forall c' h', client_of portal l embeddedSourceName = Some c' -> lists_hub lists hub c' h' ->
         hv_CanManage h' = true -> source = embeddedSourceName)
  else forall n c' h', client_of portal l n = Some c' -> ~ lists_hub lists hub c' h'.
Proof.
  intros Hfit Hf Hl Hok Harr. unfold sourceForHub, enabledPortalClients.
  destruct (load_list lenv fs Hfit Hf) as [E _]. destruct (loadPortalSources lenv sources_path fs) as [o fs'].
  cbn [fst] in E. rewrite E, Hl. cbn [fmap option_fmap option_map].
  set (results := map _ _).
  assert (forall n c, client_of portal l n = Some c -> n <> "" /\ sourceAnswer lists hub n c ∈ results) as Hin.
  { intros n c Hc. split.
    - intros ->. unfold client_of in Hc. rewrite bool_decide_false in Hc by done.
      destruct (find_first _ _) as [s|] eqn:Es; [|done]. apply find_first_Some in Es as [Hs Hn%bool_decide_eq_true].
      destruct Hok as [_ Hfree]. rewrite Forall_forall in Hfree. by destruct (Hfree s Hs).
    - apply list_elem_of_fmap. exists (n, c). split; [done|]. rewrite Harr. apply elem_of_map_to_list.
      by rewrite clientsOf_exact. }
  assert (forall r, r ∈ results -> exists n c, client_of portal l n = Some c /\ r = sourceAnswer lists hub n c) as Hout.
  { intros r ((n, c) & -> & Hr)%list_elem_of_fmap. exists n, c. split; [|done]. rewrite Harr in Hr.
    apply elem_of_map_to_list in Hr. by rewrite clientsOf_exact in Hr. }
  destruct (chooseSource_spec (SourceResult "" "" false) results) as (H1 & H2 & H3 & H4).
  set (b := chooseSource _ results) in *. destruct (bool_decide_reflect (sr_Source b = "")) as [Eb|Eb].
  - destruct (firstEnabledSourceName lenv sources_path fs') as [[n ?] ?]. cbn [fst].
    intros m c h Hc Hh. destruct (Hin m c Hc) as [Hm Hr]. apply H1 in Eb as [_ Hall].
    rewrite Forall_forall in Hall. specialize (Hall _ Hr).
    destruct (sourceAnswer_spec lists hub m c Hm) as [[_ Hno]|(h' & _ & E')]; [by eapply Hno|].
    rewrite E' in Hall. done.
  - cbn [fst]. destruct H2 as [Hb|Hb]; [by rewrite Hb in Eb|]. destruct (Hout b Hb) as (n & c & Hc & Er).
    destruct (Hin n c Hc) as [Hn _]. destruct (sourceAnswer_spec lists hub n c Hn) as [[E' _]|(h & Hh & E')].
    { rewrite Er, E' in Eb. done. }
    rewrite E' in Er. rewrite Er in H3, H4 |- *. cbn [sr_Source sr_URL sr_CanManage] in *.
    exists c, h. split_and!; [done|done|done| |].
    + intros Hm n' c' h' Hc' (hubs & Hhubs & Hfind). destruct (Hin n' c' Hc') as [Hn' Hr'].
      destruct (H3 Hm Hn) as [_ Hall]. rewrite Forall_forall in Hall. specialize (Hall _ Hr').
      unfold sourceAnswer in Hall. rewrite Hhubs, Hfind in Hall. by apply Hall.
    + intros c' h' Hc' (hubs & Hhubs & Hfind) Hm. destruct (Hin _ _ Hc') as [Hn' Hr'].
      apply H4. apply Exists_exists. eexists. split; [exact Hr'|].
      unfold sourceAnswer. rewrite Hhubs, Hfind. by split.
Qed.

(** ** Polling ends *)

Definition undecided (a : clientErr + (string * string)) : bool :=
  match a with inl CPending | inl CSlowDown => true | _ => false end.

(** What the portal said when the loop is left at [t] with [r], having started in round [k]. *)
Definition polled (rounds : nat -> pollRound) (k : nat) (r : sourceErr + string) : Prop :=
  match r with
  | inr access => exists i ty, (k <= i)%nat /\ pr_Answer (rounds i) = inr (access, ty) /\
      forall j, (k <= j < i)%nat -> undecided (pr_Answer (rounds j)) = true /\ pr_Closed (rounds j) = false
  | inl _ => True
  end.

Lemma polled_next rounds k r :
  undecided (pr_Answer (rounds k)) = true -> pr_Closed (rounds k) = false -> polled rounds (S k) r -> polled rounds k r.
Proof.
  intros Hu Hcl. destruct r as [|access]; [done|]. intros (i & ty & Hik & Ha & Hall). exists i, ty. split_and!; [lia|done|].
  intros j Hj. destruct (decide (j = k)) as [->|Hne]; [done|]. apply Hall. lia.
Qed.

(** The longest wait: every request to slow down adds five seconds, and before twenty minutes are over
    there are at most 22 of them, as the waits add up. *)
Definition longestWait (interval : Z) : Z := interval + 110 * perSecond.
Definition leftBy (start interval : Z) (r : sourceErr + string) : Z :=
  start + pollDeadline + pollTimeout + match r with inr _ => 0 | inl _ => longestWait interval end.

(** The loop is left in time, [m] requests to slow down behind it: every wait takes a second, so the
    deadline passes before the fuel runs out. *)
Lemma pollDevice_ends fuel rounds k now start iv m :
  (forall i, (0 <= pr_Latency (rounds i) <= pollTimeout)%Z) ->
  (perSecond <= iv)%Z -> (longestWait iv < 9223372036854775808)%Z -> (0 <= m)%Z ->
  (5 * perSecond * (m * (m + 1)) <= 2 * (now - start))%Z -> (now <= start + pollDeadline + pollTimeout + longestWait iv)%Z ->
  (0 < fuel)%nat -> (start + pollDeadline - now < Z.of_nat fuel * perSecond - perSecond)%Z ->
  exists r t, pollDevice fuel rounds k now (start + pollDeadline) (iv + 5 * m * perSecond) = Some (r, t) /\
    (now <= t <= leftBy start iv r)%Z /\ polled rounds k r.
Proof.
  intros Hlat Hi Hov. revert k now m. induction fuel as [|fuel IH]; intros k now m Hm Hsum Hb Hpos Hfuel; [lia|].
  cbn [pollDevice]. destruct (Z.ltb_spec (start + pollDeadline) now) as [|Hdl]; [eexists _, _; split_and!; [done|lia|unfold leftBy; lia|done]|].
  pose proof (Hlat k) as Hk. set (t := (now + pr_Latency (rounds k))%Z).
  assert (m <= 21)%Z as Hm21 by (unfold pollDeadline, perSecond in *; nia).
  assert (forall m', (m <= m' <= m + 1)%Z -> (m' = m \/ m' = m + 1)%Z ->
    undecided (pr_Answer (rounds k)) = true -> pr_Closed (rounds k) = false ->
    exists r t', pollDevice fuel rounds (S k) (t + Z.max 0 (iv + 5 * m' * perSecond)) (start + pollDeadline) (iv + 5 * m' * perSecond) = Some (r, t') /\
      (now <= t' <= leftBy start iv r)%Z /\ polled rounds k r) as Hnext.
  { intros m' Hr Hc Hu Hcl. unfold longestWait, pollDeadline, pollTimeout, perSecond in *.
    destruct (IH (S k) (t + Z.max 0 (iv + 5 * m' * 1000000000))%Z m') as (r & t' & E & Ht' & Hp); [lia|destruct Hc as [-> | ->]; nia|lia..|].
    exists r, t'. split_and!; [done|lia|lia|by apply polled_next]. }
  assert (forall e, exists r t', Some (inl e : sourceErr + string, t) = Some (r, t') /\ (now <= t' <= leftBy start iv r)%Z /\ polled rounds k r) as Herr
    by (intros e; exists (inl e), t; unfold leftBy, longestWait, perSecond in *; split_and!; [done|lia|lia|done]).
  destruct (pr_Answer (rounds k)) as [e|[access ty]] eqn:Ha.
  - destruct e; try apply Herr; (destruct (pr_Closed (rounds k)) eqn:Hcl; [apply Herr|]).
    + apply (Hnext m); try done; lia.
    + assert (i64 (iv + 5 * m * perSecond + 5 * perSecond) = iv + 5 * (m + 1) * perSecond)%Z as ->
        by (rewrite i64_small; unfold longestWait, perSecond in *; lia).
      apply (Hnext (m + 1)%Z); try done; lia.
  - exists (inr access), t. unfold leftBy. split_and!; [done|lia|lia|]. exists k, ty. split_and!; [lia|done|]. intros j Hj. lia.
Qed.

(** ** Signing in *)

Lemma find_first_update m n (g : PortalSource -> PortalSource) (xs : list PortalSource) :
  (forall s, ps_Name (g s) = ps_Name s) ->
  find_first (named_source m) (update_first (named_source n) g xs) =
    if m =s n then g <$> find_first (named_source m) xs else find_first (named_source m) xs.
Proof.
  intros Hg. induction xs as [|x xs IH]; [by destruct (m =s n)|]. cbn [update_first find_first].
  change (named_source n x) with (ps_Name x =s n). change (named_source m x) with (ps_Name x =s m).
  destruct (bool_decide_reflect (ps_Name x = n)) as [E|E]; cbn [find_first].
  - change (named_source m (g x)) with (ps_Name (g x) =s m). rewrite Hg, E.
    destruct (bool_decide_reflect (m = n)) as [->|Hne]; [by rewrite bool_decide_true|].
    by rewrite !bool_decide_false.
  - change (named_source m x) with (ps_Name x =s m). rewrite IH.
    destruct (bool_decide_reflect (ps_Name x = m)) as [<-|]; [|done]. by rewrite bool_decide_false.
Qed.

(** The source that was signed in to, and the others. *)
Lemma effect_sign_in now n url tok l l' :
  effect (SoSignIn now n url tok) l = inr l' ->
  (exists s, find_first (named_source n) (sf_Remote l') = Some s /\ ps_URL s = url /\ ps_BearerToken s = tok /\
             ps_Enabled s = true) /\
  forall m, m <> n -> find_first (named_source m) (sf_Remote l') = find_first (named_source m) (sf_Remote l).
Proof.
  cbn [effect]. intros [= <-]. cbn [sf_Remote with_Remote]. destruct (known n l) eqn:Hk.
  - split.
    + rewrite find_first_update, bool_decide_true by done. destruct (find_first (named_source n) (sf_Remote l)) as [s|] eqn:E.
      * by eexists.
      * exfalso. unfold known in Hk. apply existsb_elem_of in Hk as (s & Hs & Hn).
        by rewrite (proj1 (find_first_None _ _) E s Hs) in Hn.
    + intros m Hm. by rewrite find_first_update, bool_decide_false.
  - setoid_rewrite find_first_app. split.
    + assert (find_first (named_source n) (sf_Remote l) = None) as ->.
      { apply find_first_None. intros s Hs. destruct (named_source n s) eqn:E; [|done]. exfalso.
        assert (known n l = true) by (apply existsb_elem_of; by exists s). congruence. }
      cbn [find_first]. unfold named_source. cbn [ps_Name]. rewrite bool_decide_true by done. by eexists.
    + intros m Hm. destruct (find_first _ (sf_Remote l)); [done|]. cbn [find_first]. unfold named_source. cbn [ps_Name].
      by rewrite bool_decide_false.
Qed.

(** C34. Signing in to a portal comes to an end, whatever the portal answers: a token is there at the latest
    with the request under way twenty minutes after the start, which has fifteen seconds; a failure at the
    latest after the wait that follows that request, which is the interval the portal asked for (five
    seconds if none) and at most 110 seconds more.  If it succeeds, the portal gave the
    token after answers that left it open, the source of that name is asked with that token from then on,
    and every other source is as it was; if not, the list is as it was. *)
Theorem device_sign_in lenv env rounds now name baseURL code secs fs l portal :
  fit lenv fs -> fit env fs -> fe_fault lenv "readfile" = false -> listOn fs = Some l ->
  (forall i, (0 <= pr_Latency (rounds i) <= pollTimeout)%Z) -> (secs <= 9000000000)%Z ->
  let interval := ((if (secs <=? 0)%Z then 5 else secs) * perSecond)%Z in
  exists e fs' t, PortalDeviceAuthComplete lenv env sources_path rounds now name baseURL code secs fs = Some (e, fs', t) /\
    (now <= t)%Z /\ (t <= now + pollDeadline + pollTimeout + longestWait interval)%Z /\
    match e with
    | Some _ => listOn fs' = listOn fs
    | None => (t <= now + pollDeadline + pollTimeout)%Z /\ exists i access ty l', pr_Answer (rounds i) = inr (access, ty) /\
        (forall j, (j < i)%nat -> undecided (pr_Answer (rounds j)) = true /\ pr_Closed (rounds j) = false) /\
        listOn fs' = Some l' /\
        (forall m, m <> trim_space name -> find_first (named_source m) (sf_Remote l') = find_first (named_source m) (sf_Remote l)) /\
        forall lenv', fit lenv' fs' -> fe_fault lenv' "readfile" = false ->
          fst (portalClientForSource lenv' sources_path portal (trim_space name) fs') = inr (MkClient baseURL access)
    end.
Proof.
  intros Hfl Hfe Hf Hl Hlat Hsecs iv.
  assert (perSecond <= iv <= 9000000000 * perSecond)%Z as Hiv by (unfold iv, perSecond; destruct (Z.leb_spec secs 0); lia).
  assert (forall e : sourceErr, exists e' fs' t, Some (Some e, fs, now) = Some (e', fs', t) /\ (now <= t)%Z /\
    (t <= now + pollDeadline + pollTimeout + longestWait iv)%Z /\ e' <> None /\ fs' = fs) as Hearly.
  { intros e. eexists _, _, _. unfold longestWait, pollDeadline, pollTimeout, perSecond in *. split_and!; try done; lia. }
  unfold PortalDeviceAuthComplete. cbv zeta.
  destruct (bool_decide_reflect (trim_space name = "")) as [E1|E1]; [|destruct (bool_decide_reflect (trim_space name = embeddedSourceName)) as [E2|E2]; [|destruct (_ || _)]].
  1-3: edestruct Hearly as (e & fs' & t & -> & H1 & H2 & H3 & ->); exists e, fs, t; split_and!; try done; by destruct e.
  fold iv. assert (i64 iv = iv) as -> by (apply i64_small; unfold perSecond in Hiv; lia).
  destruct (pollDevice_ends pollFuel rounds 0 now now iv 0 Hlat) as (r & t & Hpoll & [Hlo Hhi] & Hr);
    [unfold longestWait, pollFuel, pollDeadline, pollTimeout, perSecond in *; lia..|]. rewrite Z.add_0_r in Hpoll. rewrite Hpoll.
  destruct r as [e|access]; [eexists _, _, _; split_and!; [done|done|unfold leftBy in Hhi; lia|done]|]. destruct Hr as (i & ty & _ & Ha & Hall).
  unfold leftBy in Hhi.
  pose proof (runSource_amounts lenv env (SoSignIn t (trim_space name) baseURL access) fs l Hfl Hfe Hf Hl) as Hrun.
  cbn [runSource] in Hrun. destruct (savePortalSourceFromToken _ _ _ _ _ _ _ _) as [e fs'].
  exists e, fs', t. split; [done|]. split; [done|]. split; [unfold longestWait, perSecond in *; lia|]. destruct (effect _ l) as [err|l'] eqn:He; [done|].
  destruct Hrun as [_ [[Hn Hl']|[Hn Hl']]]; cbn [fst snd] in Hn, Hl'; subst e; [|done].
  destruct (effect_sign_in _ _ _ _ _ _ He) as [(s & Hs & <- & <- & _) Hother].
  split; [lia|]. exists i, (ps_BearerToken s), ty, l'. split_and!; [done| |done|done|].
  - intros j Hj. apply Hall. lia.
  - intros lenv' H1 H2. unfold portalClientForSource. rewrite !bool_decide_false by done. cbn [orb].
    destruct (load_list lenv' fs' H1 H2) as [Hload _]. destruct (loadPortalSources lenv' sources_path fs') as [o g].
    cbn [fst] in *. by rewrite Hload, Hl', Hs.
Qed.

End sources.
