(* ===== verification/PortalEmbed.v ===== *)
(** * The portal inside the desktop application ([cmd/telagui/portal_embed.go])

    The application runs the portal server on its own file store, behind a bearer token drawn at every
    start; address and token stand in an endpoint file.  At a start the hubs of the files from before
    the portal, [hubs.yaml] and the credential store, are taken over.  The store's file, [hubs.yaml],
    the credential store and the endpoint file are files of one disk.

    The second part shows what a start leaves. *)

From S2P Require Import Prelude PortalProtocol FilePath FileSys PortalFile Credstore ClientConfig Timestamp Sha256.
From S2P Require Import PortalFileProofs.
From Stdlib Require Import ZArith Lia Ascii String.
From stdpp Require Import base gmap strings list fin_maps.

Record portalEndpoint := MkPortalEndpoint {
  ep_URL : string; ep_BearerToken : string; ep_StorePath : string; ep_StartedAt : string; ep_Pid : Z
}.

(** [encoding/json] on the endpoint file. *)
Class EndpointCodec := {
  MarshalEndpoint : portalEndpoint -> option (list Z);
  UnmarshalEndpoint : list Z -> option portalEndpoint;
  unmarshal_endpoint e d : MarshalEndpoint e = Some d -> UnmarshalEndpoint d = Some e
}.

Record portalEmbed := PortalEmbed {
  em_store : Store; em_storePath : string; em_endpointURL : string; em_bearerToken : string
}.

(** ** Hub URLs *)

Definition canonicalHubURL (raw : string) : string :=
  let raw := trim_space raw in
  if raw =s "" then ""
  else
    let raw :=
      if has_prefix raw "wss://" then "https://" +:+ trim_prefix raw "wss://"
      else if has_prefix raw "ws://" then "http://" +:+ trim_prefix raw "ws://"
      else raw in
    trim_suffix raw "/".

(** Up to the first of the three bytes. *)
Fixpoint before_any (stop l : list ascii) : list ascii :=
  match l with
  | [] => []
  | c :: l' => if existsb (Ascii.eqb c) stop then [] else c :: before_any stop l'
  end.

Definition hostFromURL (rawURL : string) : string :=
  let s := canonicalHubURL rawURL in
  let s := if has_prefix s "https://" then trim_prefix s "https://"
           else if has_prefix s "http://" then trim_prefix s "http://" else s in
  of_bytes (before_any (bytes "/?#") (bytes s)).

(** ** The hubs from before the portal *)

Record legacyHub := LegacyHub { lh_name : string; lh_url : string; lh_adminToken : string; lh_fromAliases : bool }.
Definition with_token (h : legacyHub) (t : string) : legacyHub :=
  LegacyHub (lh_name h) (lh_url h) t (lh_fromAliases h).

Section embed.
  Context {RO : RangeOrder} {YC : ShapeCodec} {CC : ConfigCodec} {KC : CredCodec} {EC : EndpointCodec}.
  Context (hubsPath credPath storePath endpointPath : string).

(** The structured shape if it decodes and is not empty, else the flat one of older files. *)
Definition aliases (fs : fsys) : gmap string hubEntry :=
  match ReadFile fs hubsPath with
  | RdData d =>
      match UnmarshalHubs d with
      | None => ∅
      | Some nodes =>
          match decodeAll structured nodes with
          | Some m => if decide (m = ∅) then default ∅ (decodeAll flat nodes) else m
          | None => default ∅ (decodeAll flat nodes)
          end
      end
  | _ => ∅
  end.

Definition addAlias (hubs : gmap string legacyHub) (a : string * hubEntry) : gmap string legacyHub :=
  let canonical := canonicalHubURL (he_URL (snd a)) in
  <[canonical := LegacyHub (fst a) canonical "" true]> hubs.

Definition addCredential (hubs : gmap string legacyHub) (c : string * Credential) : gmap string legacyHub :=
  let canonical := canonicalHubURL (fst c) in
  match hubs !! canonical with
  | Some existing => <[canonical := with_token existing (cr_Token (snd c))]> hubs
  | None => <[canonical := LegacyHub (hostFromURL canonical) canonical (cr_Token (snd c)) false]> hubs
  end.

(** Keyed by canonical URL; of two aliases of one hub the later in the order of the map counts. *)
Definition legacyHubs (fs : fsys) : gmap string legacyHub :=
  let hubs := fold_left addAlias (range (aliases fs)) ∅ in
  match Load fs credPath with
  | Some cs => fold_left addCredential (range (cs_Hubs cs)) hubs
  | None => hubs
  end.

Definition hubOf (h : legacyHub) : Hub := MkHub (lh_name h) "" (lh_url h) "" (lh_adminToken h) "".

(** The next environment, the number imported, and the store. *)
Definition importOne (envs : nat -> fileEnv) (have : list string) (acc : nat * Z * fstate) (h : legacyHub)
    : nat * Z * fstate :=
  let '(k, n, st) := acc in
  if (lh_name h =s "") || (lh_url h =s "") then acc
  else if bool_decide (lh_name h ∈ have) then acc
  else
    let '(r, st) := file_AddHub (envs k) st LocalUser (hubOf h) in
    (S k, match r with inr _ => (n + 1)%Z | inl _ => n end, st).

(** [hubs.yaml] goes whenever there was any hub to import, imported or not. *)
Definition importLegacyHubs (envs : nat -> fileEnv) (removeFails : bool) (st : fstate) : option Z * fstate :=
  let hubs := legacyHubs (snd st) in
  if decide (hubs = ∅) then (Some 0%Z, st)
  else match file_ListHubsForUser st LocalUser with
  | inl _ => (None, st)
  | inr existing =>
      let '(_, imported, (s, fs)) :=
        fold_left (importOne envs (map hv_Name existing)) (map snd (range hubs)) (0%nat, 0%Z, st) in
      (Some imported, (s, if removeFails then fs else default fs (Remove fs hubsPath)))
  end.

(** ** Start and stop *)

Definition generatePortalBearerToken (rnd : option (list Z)) : option string :=
  (fun r => hex_of (take 32 r)) <$> rnd.

(** What a start takes from outside; the environment of an addition is numbered. *)
Record startEnv := StartEnv {
  st_mkdir : bool; st_open : fileEnv; st_adds : nat -> fileEnv; st_removeFails : bool;
  st_rand : option (list Z); st_admin : fileEnv; st_addr : option string;
  st_endpoint : fileEnv; st_now : Z; st_pid : Z
}.

Definition writeEndpointFile (env : startEnv) (p : portalEmbed) (fs : fsys) : bool * fsys :=
  let body := MkPortalEndpoint (em_endpointURL p) (em_bearerToken p) (em_storePath p)
                (FormatRFC3339 (st_now env)) (st_pid env) in
  let '(made, fs) := MkdirAll fs (Dir endpointPath) in
  if fe_fault (st_endpoint env) "mkdirall" || negb made then (false, fs)
  else
    let '(ok, trace) := replaceFile (st_endpoint env) fs endpointPath ".portal-endpoint-" (MarshalEndpoint body) in
    (ok, default fs (head trace)).

(** A failing import is reported and does not stop the start. *)
Definition startEmbeddedPortal (env : startEnv) (fs : fsys) : option portalEmbed * fsys :=
  let '(ok, fs) := MkdirAll fs (Dir storePath) in
  if st_mkdir env || negb ok then (None, fs)
  else match Open (st_open env) fs storePath with
  | None => (None, fs)
  | Some store =>
      let '(_, (store, fs)) := importLegacyHubs (st_adds env) (st_removeFails env) (store, fs) in
      match generatePortalBearerToken (st_rand env) with
      | None => (None, fs)
      | Some bearer =>
          match SetAdminToken (st_admin env) (store, fs) bearer with
          | (Some _, (_, fs)) => (None, fs)
          | (None, (store, fs)) =>
              match st_addr env with
              | None => (None, fs)
              | Some addr =>
                  let pe := PortalEmbed store storePath ("http://" +:+ addr) bearer in
                  let '(ok, fs) := writeEndpointFile env pe fs in
                  if ok then (Some pe, fs) else (None, fs)
              end
          end
      end
  end.

(** Closing the server leaves the store; the endpoint file is removed. *)
Definition stop (fs : fsys) : fsys := default fs (Remove fs endpointPath).

End embed.

(** ** Which hubs are taken over *)

Section legacy.
  Context {RO : RangeOrder} {CC : ConfigCodec} {KC : CredCodec} (hubsPath credPath : string).

(** Every hub is stored under its own canonical URL. *)
Definition keyed (m : gmap string legacyHub) : Prop := forall u h, m !! u = Some h -> lh_url h = u.

Lemma addAlias_keyed m a : keyed m -> keyed (addAlias m a).
Proof.
  intros Hm u h. unfold addAlias. rewrite lookup_insert. case_decide as E; [|apply Hm]. by intros [= <-].
Qed.

Lemma addCredential_keyed m c : keyed m -> keyed (addCredential m c).
Proof.
  intros Hm u h. unfold addCredential. destruct (m !! canonicalHubURL (fst c)) as [x|] eqn:E;
    rewrite lookup_insert; case_decide as Eu; try apply Hm; intros [= <-]; [|done].
  cbn. rewrite (Hm _ _ E). done.
Qed.

Lemma fold_keyed {A} (step : gmap string legacyHub -> A -> gmap string legacyHub) l m :
  (forall m a, keyed m -> keyed (step m a)) -> keyed m -> keyed (fold_left step l m).
Proof. intros Hs. revert m. induction l as [|a l IH]; intros m Hm; [done|]. apply IH. by apply Hs. Qed.

Lemma legacyHubs_keyed fs : keyed (legacyHubs hubsPath credPath fs).
Proof.
  unfold legacyHubs. assert (keyed (fold_left addAlias (range (aliases hubsPath fs)) ∅)) as H.
  { apply fold_keyed; [apply addAlias_keyed|]. by intros u h. }
  destruct (Load fs credPath); [|done]. apply fold_keyed; [apply addCredential_keyed|done].
Qed.

Definition has_url (u : string) (m : gmap string legacyHub) : Prop := is_Some (m !! u).

Lemma addAlias_has u m a : has_url u m \/ canonicalHubURL (he_URL (snd a)) = u -> has_url u (addAlias m a).
Proof. unfold has_url, addAlias. rewrite lookup_insert. case_decide; [by eexists|]. by intros [?|?]. Qed.

Lemma addCredential_has u m c : has_url u m \/ canonicalHubURL (fst c) = u -> has_url u (addCredential m c).
Proof.
  unfold has_url, addCredential. destruct (m !! canonicalHubURL (fst c)); rewrite lookup_insert;
    (case_decide; [by eexists|]); by intros [?|?].
Qed.

Lemma fold_has {A} (step : gmap string legacyHub -> A -> gmap string legacyHub) (url : A -> string) l m u :
  (forall m a, has_url u m \/ url a = u -> has_url u (step m a)) ->
  has_url u m \/ u ∈ url <$> l -> has_url u (fold_left step l m).
Proof.
  intros Hs. revert m. induction l as [|a l IH]; intros m Hm.
  - destruct Hm as [Hm|Hm%elem_of_nil]; done.
  - cbn [fold_left]. apply IH. rewrite fmap_cons, elem_of_cons in Hm.
    destruct Hm as [Hm|[->|Hm]]; [left; apply Hs; by left|left; apply Hs; by right|by right].
Qed.

(** No URL of either file is left out. *)
Lemma legacyHubs_complete fs :
  (forall n e, aliases hubsPath fs !! n = Some e -> has_url (canonicalHubURL (he_URL e)) (legacyHubs hubsPath credPath fs)) /\
  (forall cs u c, Load fs credPath = Some cs -> cs_Hubs cs !! u = Some c ->
     has_url (canonicalHubURL u) (legacyHubs hubsPath credPath fs)).
Proof.
  split.
  - intros n e He. unfold legacyHubs.
    assert (has_url (canonicalHubURL (he_URL e)) (fold_left addAlias (range (aliases hubsPath fs)) ∅)) as H.
    { apply (fold_has addAlias (fun a => canonicalHubURL (he_URL (snd a)))); [intros; by apply addAlias_has|].
      right. apply list_elem_of_fmap. exists (n, e). split; [done|]. by apply elem_of_range. }
    destruct (Load fs credPath); [|done].
    apply (fold_has addCredential (fun c => canonicalHubURL (fst c))); [intros; by apply addCredential_has|by left].
  - intros cs u c Hc Hu. unfold legacyHubs. rewrite Hc.
    apply (fold_has addCredential (fun c => canonicalHubURL (fst c))); [intros; by apply addCredential_has|].
    right. apply list_elem_of_fmap. exists (u, c). split; [done|]. by apply elem_of_range.
Qed.

End legacy.

(** * What a start of the embedded portal leaves

    From the disk before a start to the running portal: the store it serves, the hubs taken over from
    the older files, and who may talk to it. *)

Section start.
  Context {RO : RangeOrder} {YC : ShapeCodec} {CC : ConfigCodec} {KC : CredCodec} {EC : EndpointCodec}.
  (** The configuration directory with the store and [hubs.yaml], and the directory of the endpoint. *)
  Context (ds es : ppath) (f hf ef : string) (credPath : string).
  Context (Hhubs : good_elems (ds ++ [hf])) (Hfh : f <> hf).
  Implicit Types (fs g : fsys) (s : Store) (st : fstate) (envs : nat -> fileEnv).

Definition store_path : string := abs (ds ++ [f]).
Definition hubs_path : string := abs (ds ++ [hf]).
Definition endpoint_path : string := abs (es ++ [ef]).

(** ** The frame of a store operation *)

Lemma commit_frame env s s1 fs back e st' :
  fits ds f env fs -> synced ds f (s, fs) -> s_path s1 = s_path s -> commit env s1 fs back = (e, st') ->
  only_these ds f (tmp_name env) fs (snd st').
Proof.
  intros [Hpl Hr Ht] Hsy Ep. unfold commit. cbv zeta.
  pose proof (saveLocked_states ds f env Hpl s1 fs) as Hs.
  rewrite Ep in Hs. specialize (Hs (sy_path _ _ _ Hsy) (sy_disk _ _ _ Hsy) Ht).
  destruct (saveLocked env s1 fs) as [[] tr]; unfold after_save; cbn [fst snd].
  - destruct Hs as (data & fs' & tr' & Hm & -> & (_ & _ & _ & Ho) & _). by intros [= _ <-].
  - destruct Hs as [Hne Hall]. destruct tr as [|g tr]; [done|]. intros [= _ <-]. cbn.
    by inversion Hall as [|?? (_ & _ & Hg) _].
Qed.

Lemma only_these_child k t fs g : k <> f -> k <> t -> only_these ds f t fs g -> g !! (ds ++ [k]) = fs !! (ds ++ [k]).
Proof. intros H1 H2 Ho. apply Ho; intros E%child_prefix; congruence. Qed.

(** Nothing but what stands below certain names of the directory changed. *)
Definition framed (names : string -> Prop) (fs g : fsys) : Prop :=
  forall p, (forall e, names e -> ~ ds ++ [e] `prefix_of` p) -> g !! p = fs !! p.
#[export] Instance framed_refl names : Reflexive (framed names).
Proof. by intros fs p _. Qed.
#[export] Instance framed_trans names : Transitive (framed names).
Proof. intros x y z H1 H2 p Hp. by rewrite H2, H1. Qed.

Lemma framed_weaken (names names' : string -> Prop) fs g :
  (forall e, names e -> names' e) -> framed names fs g -> framed names' fs g.
Proof. intros Hn H p Hp. apply H. auto. Qed.

Lemma only_these_framed (names : string -> Prop) t fs g : names f -> names t -> only_these ds f t fs g -> framed names fs g.
Proof. intros Hf Ht H p Hp. apply H; auto. Qed.

Lemma framed_child names k fs g : ~ names k -> framed names fs g -> g !! (ds ++ [k]) = fs !! (ds ++ [k]).
Proof. intros Hk H. apply H. intros e He E%child_prefix. by subst. Qed.

(** One addition: the hub is in the store, or nothing changed; memory and disk agree either way. *)
Lemma add_outcome env s fs hub r st' :
  fits ds f env fs -> synced ds f (s, fs) -> file_AddHub env (s, fs) LocalUser hub = (r, st') ->
  synced ds f st' /\ only_these ds f (tmp_name env) fs (snd st') /\
  match r with
  | inl _ => fst st' = s
  | inr _ => exists h, toPublicHub h = hub /\ fst st' = with_hubs s (<[h_Name hub := h]> (s_hubs s))
  end.
Proof.
  intros Hfit Hsy E. pose proof (run_spec ds f env (OpAdd hub) (s, fs) Hfit Hsy) as Hrun.
  cbn [run] in Hrun. rewrite E in Hrun. cbn [fst snd] in Hrun. destruct Hrun as [Hs1 Hs2]; [done|].
  split; [done|]. unfold file_AddHub in E. destruct (_ || _).
  { injection E as <- <-. by split. }
  destruct (GenerateSyncToken (fe_rand env)) as [tok|]; [|injection E as <- <-; by split].
  cbv zeta in E.
  match type of E with match ?c with _ => _ end = _ => destruct c as [[e|] st''] eqn:Ec end;
    (assert (only_these ds f (tmp_name env) fs (snd st'')) as Hfr
       by (eapply commit_frame; [exact Hfit|exact Hsy| |exact Ec]; reflexivity)); injection E as <- <-.
  - split; [done|]. by apply Hs2.
  - split; [done|]. apply commit_None in Ec. rewrite Ec. eexists. split; [|done]. apply toPublicHub_stored.
Qed.

(** ** The additions of an import *)

(** Every drawn temporary name is a new one, and the calls that read work. *)
Record draws envs : Prop := Draws {
  dr_placed k : placed ds f (envs k);
  dr_read k : fe_fault (envs k) "readfile" = false;
  dr_fresh j k : j <> k -> tmp_name (envs j) <> tmp_name (envs k);
  dr_hubs k : tmp_name (envs k) <> hf
}.

Definition free_from envs (k : nat) fs : Prop := forall j, (k <= j)%nat -> fs !! (ds ++ [tmp_name (envs j)]) = None.

(** The store has its old hubs, and new ones of the list only. *)
Record imported_so_far (s0 s : Store) (have : list string) (done_ : list legacyHub) : Prop := Imported {
  im_id : s_portalID s = s_portalID s0;
  im_hash : s_adminTokenHash s = s_adminTokenHash s0;
  im_old n : n ∈ have -> s_hubs s !! n = s_hubs s0 !! n;
  im_new n h : n ∉ have -> s_hubs s !! n = Some h ->
    s_hubs s0 !! n = Some h \/ exists l, l ∈ done_ /\ toPublicHub h = hubOf l /\ lh_name l = n
}.

Lemma imported_add s0 s have dn h l :
  imported_so_far s0 s have dn -> toPublicHub h = hubOf l -> lh_name l ∉ have ->
  imported_so_far s0 (with_hubs s (<[lh_name l := h]> (s_hubs s))) have (dn ++ [l]).
Proof.
  intros [H1 H2 H3 H4] Hh Hn. split; try done; cbn [s_hubs with_hubs].
  - intros n Hin. rewrite lookup_insert_ne; [by apply H3|]. intros E; by rewrite <- E in Hin.
  - intros n x Hin. rewrite lookup_insert. case_decide as E.
    + intros [= <-]. right. exists l. split; [rewrite elem_of_app; right; by left|done].
    + intros Hx. destruct (H4 n x Hin Hx) as [?|(l' & ? & ?)]; [by left|]. right. exists l'.
      split; [rewrite elem_of_app; by left|done].
Qed.

Lemma imported_more s0 s have dn l : imported_so_far s0 s have dn -> imported_so_far s0 s have (dn ++ [l]).
Proof.
  intros [H1 H2 H3 H4]. split; try done. intros n h Hin Hh.
  destruct (H4 n h Hin Hh) as [?|(l' & ? & ?)]; [by left|]. right. exists l'. split; [rewrite elem_of_app; by left|done].
Qed.

(** Without failures an addition succeeds. *)
Definition no_failures envs : Prop :=
  (forall k call, fe_fault (envs k) call = false) /\ (forall k, is_Some (fe_rand (envs k))) /\
  (forall shape, is_Some (Marshal shape)).

Lemma add_succeeds envs k s fs l :
  no_failures envs -> fits ds f (envs k) fs -> synced ds f (s, fs) -> fs !! (ds ++ [tmp_name (envs k)]) = None ->
  lh_name l <> "" -> lh_url l <> "" -> exists c t st', file_AddHub (envs k) (s, fs) LocalUser (hubOf l) = (inr (c, t), st').
Proof.
  intros (Hnf & Hr & Hm) [Hpl _ Ht] Hsy Hfree Hn Hu. unfold file_AddHub. cbn [hubOf h_Name h_URL].
  rewrite !bool_decide_false by done. cbn [orb]. destruct (Hr k) as [rnd ->]. cbn [GenerateSyncToken]. cbv zeta.
  match goal with |- context [commit ?e ?s1 ?g ?b] => set (s' := s1); set (back := b) end.
  assert (fst (saveLocked (envs k) s' fs) = true) as Hok.
  { rewrite (saveLocked_works ds f (envs k) Hpl) by (apply Hsy || done). unfold save_works. rewrite Hfree.
    destruct (Hm (shapeOf s')) as [d ->]. cbn [existsb]. by rewrite !Hnf. }
  unfold commit. cbv zeta. rewrite Hok. by eexists _, _, _.
Qed.

Lemma import_fold envs have s0 l : forall dn k n s fs,
  draws envs -> synced ds f (s, fs) -> free_from envs k fs -> imported_so_far s0 s have dn ->
  exists k' n' s' fs',
    fold_left (importOne envs have) l (k, n, (s, fs)) = (k', n', (s', fs')) /\
    synced ds f (s', fs') /\ imported_so_far s0 s' have (dn ++ l) /\ s_path s' = s_path s /\
    framed (fun e => e = f \/ exists i, e = tmp_name (envs i)) fs fs' /\
    (forall m, is_Some (s_hubs s !! m) -> is_Some (s_hubs s' !! m)) /\
    (no_failures envs -> forall x, x ∈ l -> lh_name x <> "" -> lh_url x <> "" -> lh_name x ∉ have ->
       is_Some (s_hubs s' !! lh_name x)).
Proof.
  induction l as [|x l IH]; intros dn k n s fs Hdr Hsy Hfree Him.
  { exists k, n, s, fs. rewrite app_nil_r. split_and!; try done. by intros ? ? ?%elem_of_nil. }
  cbn [fold_left]. cbn [importOne].
  destruct ((lh_name x =s "") || (lh_url x =s "")) eqn:Hempty; cycle 1.
  - destruct (bool_decide (lh_name x ∈ have)) eqn:Hhave; cycle 1.
    + assert (fits ds f (envs k) fs) as Hfit by (split; [apply Hdr|apply Hdr|left; by apply Hfree]).
      destruct (file_AddHub (envs k) (s, fs) LocalUser (hubOf x)) as [r [s1 fs1]] eqn:Ea.
      destruct (add_outcome _ _ _ _ _ _ Hfit Hsy Ea) as (Hsy1 & Hfr & Hr). cbn [fst snd] in *.
      apply bool_decide_eq_false in Hhave.
      assert (imported_so_far s0 s1 have (dn ++ [x])) as Him1.
      { destruct r as [e|p]; [subst s1; by apply imported_more|]. destruct Hr as (h & Hh & ->). by apply imported_add. }
      assert (free_from envs (S k) fs1) as Hfree1.
      { intros j Hj. rewrite (only_these_child _ (tmp_name (envs k)) fs).
        - apply Hfree. lia.
        - apply Hdr.
        - apply Hdr. lia.
        - done. }
      destruct (IH (dn ++ [x]) (S k) (match r with inr _ => (n + 1)%Z | inl _ => n end) s1 fs1 Hdr Hsy1 Hfree1 Him1)
        as (k' & n' & s' & fs' & E & C1 & C2 & C3 & C4 & C7 & C8).
      exists k', n', s', fs'. rewrite <- app_assoc in C2.
      assert (s_path s1 = s_path s) as Hp by (destruct r as [e|p]; [by subst|by destruct Hr as (h & _ & ->)]).
      split_and!; try done.
      * congruence.
      * etrans; [|exact C4]. apply (only_these_framed _ (tmp_name (envs k))); [by left|by right; exists k|done].
      * intros m Hm. apply C7. destruct r as [e|p]; [by subst|]. destruct Hr as (h & _ & ->). cbn.
        rewrite lookup_insert. by destruct (decide (lh_name x = m)); [eexists|].
      * intros Hnf y Hy Hy1 Hy2 Hy3. apply elem_of_cons in Hy as [->|Hy]; [|by apply C8].
        apply C7. destruct (add_succeeds envs k s fs x Hnf Hfit Hsy ltac:(by apply Hfree) Hy1 Hy2) as (c & t & st' & Ea').
        rewrite Ea' in Ea. injection Ea as <- _. destruct Hr as (h & _ & ->). cbn. rewrite lookup_insert_eq. by eexists.
    + apply bool_decide_eq_true in Hhave.
      destruct (IH (dn ++ [x]) k n s fs Hdr Hsy Hfree ltac:(by apply imported_more))
        as (k' & n' & s' & fs' & E & C1 & C2 & C3 & C4 & C7 & C8).
      exists k', n', s', fs'. rewrite <- app_assoc in C2. split_and!; try done.
      intros Hnf y [->|Hy]%elem_of_cons H1 H2 H3; [done|by apply C8].
  - destruct (IH (dn ++ [x]) k n s fs Hdr Hsy Hfree ltac:(by apply imported_more))
      as (k' & n' & s' & fs' & E & C1 & C2 & C3 & C4 & C7 & C8).
    exists k', n', s', fs'. rewrite <- app_assoc in C2. split_and!; try done.
    intros Hnf y [->|Hy]%elem_of_cons H1 H2 H3; [|by apply C8].
    by rewrite !bool_decide_false in Hempty.
Qed.

(** ** The steps of a start *)

Lemma plain_framed names k fs g : ~ names k -> framed names fs g -> plain_slot (ds ++ [k]) fs -> plain_slot (ds ++ [k]) g.
Proof. intros Hk Hf. unfold plain_slot. by rewrite (framed_child names k fs g Hk Hf). Qed.

(** The names of the hubs of a store. *)
Definition names_of s : list string :=
  map hv_Name (sortHubVisibility ((fun kv => visible (snd kv)) <$> range (s_hubs s))).

Lemma names_of_spec s n : well_named s -> n ∈ names_of s <-> is_Some (s_hubs s !! n).
Proof.
  intros Hw. unfold names_of, sortHubVisibility.
  assert (map hv_Name (sort_names hv_Name ((fun kv => visible (snd kv)) <$> range (s_hubs s))) ≡ₚ
          (fun kv => sh_Name (snd kv)) <$> range (s_hubs s)) as ->.
  { change (map hv_Name) with (fmap (M := list) hv_Name). rewrite sort_names_perm. by rewrite <- list_fmap_compose. }
  rewrite list_elem_of_fmap. split.
  - intros ([k h] & -> & Hin%elem_of_range). cbn. destruct (Hw _ _ Hin) as [-> _]. by eexists.
  - intros [h Hh]. exists (n, h). split; [cbn; by destruct (Hw _ _ Hh)|by apply elem_of_range].
Qed.

(** What the import leaves: the old hubs as they were; under any other name only what the legacy files
    say of a hub of that name; and, when nothing fails, every name of theirs that was free.  A hub whose
    name no other of them has is then stored with its own URL and token. *)
Definition taken_over (envs : nat -> fileEnv) (legacy : gmap string legacyHub) (s0 s : Store) : Prop :=
  (forall n h, s_hubs s0 !! n = Some h -> s_hubs s !! n = Some h) /\
  (forall n h, s_hubs s0 !! n = None -> s_hubs s !! n = Some h ->
     exists l, legacy !! lh_url l = Some l /\ toPublicHub h = hubOf l /\ lh_name l = n) /\
  (no_failures envs -> forall u l, legacy !! u = Some l -> lh_name l <> "" -> u <> "" -> s_hubs s0 !! lh_name l = None ->
     exists l' h, legacy !! lh_url l' = Some l' /\ lh_name l' = lh_name l /\
       s_hubs s !! lh_name l = Some h /\ toPublicHub h = hubOf l' /\
       ((forall u' x, legacy !! u' = Some x -> lh_name x = lh_name l -> u' = u) -> l' = l)).

Lemma import_outcome envs rm s fs :
  draws envs -> synced ds f (s, fs) -> free_from envs 0 fs -> plain_slot (ds ++ [hf]) fs ->
  exists n s' fs', importLegacyHubs hubs_path credPath envs rm (s, fs) = (Some n, (s', fs')) /\
    synced ds f (s', fs') /\ s_path s' = s_path s /\
    taken_over envs (legacyHubs hubs_path credPath fs) s s' /\
    framed (fun e => e = f \/ e = hf \/ exists i, e = tmp_name (envs i)) fs fs'.
Proof.
  intros Hdr Hsy Hfree Hh. unfold importLegacyHubs. cbn [snd].
  pose proof (legacyHubs_keyed hubs_path credPath fs) as Hkeyed. set (legacy := legacyHubs _ _ fs) in *.
  destruct (decide (legacy = ∅)) as [E|_].
  { exists 0%Z, s, fs. split_and!; try done. rewrite E. split_and!; [done|congruence|by intros _ u l ?%lookup_empty_Some]. }
  unfold file_ListHubsForUser. cbn [fst]. cbv iota beta. fold (names_of s).
  pose proof (sy_named _ _ _ Hsy) as Hw. cbn [fst] in Hw.
  assert (imported_so_far s s (names_of s) []) as Him.
  { split; try done. intros n h Hn Hs. by left. }
  destruct (import_fold envs (names_of s) s (map snd (range legacy)) [] 0 0%Z s fs Hdr Hsy Hfree Him)
    as (k' & n' & s' & fs' & Efold & C1 & C2 & C3 & C4 & C5 & C6). cbn [app] in C2.
  match goal with |- context [fold_left ?g ?xs ?a] =>
    replace (fold_left g xs a) with (k', n', (s', fs') : fstate) by exact (eq_sym Efold) end. clear Efold.
  assert (forall l, l ∈ map snd (range legacy) <-> legacy !! lh_url l = Some l) as Hlegacy.
  { intros l. change (map snd (range legacy)) with (snd <$> range legacy). rewrite list_elem_of_fmap. split.
    - intros ([u x] & -> & Hin%elem_of_range). cbn. by rewrite (Hkeyed _ _ Hin).
    - intros Hl. exists (lh_url l, l). split; [done|]. by apply elem_of_range. }
  set (fs'' := if rm then fs' else default fs' (Remove fs' hubs_path)).
  exists n', s', fs''. split; [done|].
  assert (plain_slot (ds ++ [hf]) fs') as Hh'.
  { eapply plain_framed; [|exact C4|done]. intros [->|[i Hi]]; [done|]. by destruct (dr_hubs _ Hdr i). }
  assert (fs'' = fs' \/ fs'' = delete (ds ++ [hf]) fs') as Hdel.
  { unfold fs''. destruct rm; [by left|]. destruct (sy_disk _ _ _ C1) as [Hd _]. cbn [snd] in Hd.
    destruct Hh' as [Hn|[d Hn]].
    - left. unfold Remove, hubs_path. rewrite (resolve_child ds hf Hhubs) by (done || by left). by rewrite Hn.
    - right. unfold hubs_path. by rewrite (Remove_child ds hf Hhubs fs' d). }
  assert (framed (fun e => e = hf) fs' fs'') as Hf''.
  { destruct Hdel as [-> | ->]; [done|]. intros p Hp. apply lookup_delete_ne. intros <-. by apply (Hp hf). }
  split_and!.
  - destruct C1 as [S1 S2 S3 [S4 S4'] S5]. split; try done; cbn [fst snd] in *.
    + destruct Hdel as [-> | ->]; [by split|]. split; [by apply dir_at_delete|].
      unfold plain_slot. rewrite lookup_delete_ne; [done|]. by intros ?%child_inj.
    + rewrite (framed_child (fun e => e = hf) f fs' fs'' Hfh Hf''). done.
  - done.
  - destruct C2 as [_ _ I1 I2]. split_and!.
    + intros n h Hn. rewrite I1; [done|]. apply names_of_spec; [done|]. by eexists.
    + intros n h Hn Hs. destruct (I2 n h) as [?|(l & Hin & Hl)]; [|done|congruence|].
      * rewrite names_of_spec, Hn by done. by intros [].
      * exists l. split; [by apply Hlegacy|done].
    + intros Hnf u l Hl Hname Hu Hfr. assert (lh_url l = u) as Hurl by (by apply Hkeyed).
      assert (lh_name l ∉ names_of s) as Hin by (rewrite names_of_spec, Hfr by done; by intros []).
      destruct (C6 Hnf l) as [h Hh0]; try done; [|by rewrite Hurl|]; [apply Hlegacy; by rewrite Hurl|].
      destruct (I2 _ _ Hin Hh0) as [?|(l' & Hl' & Hpub & Hn)]; [congruence|]. apply Hlegacy in Hl'.
      exists l', h. split_and!; [done..|]. intros Huniq. specialize (Huniq _ _ Hl' Hn). congruence.
  - etrans; [eapply framed_weaken; [|exact C4]|eapply framed_weaken; [|exact Hf'']]; cbn; naive_solver.
Qed.

Lemma commit_works env s s1 fs back :
  fits ds f env fs -> synced ds f (s, fs) -> s_path s1 = s_path s ->
  (forall call, fe_fault env call = false) -> is_Some (Marshal (shapeOf s1)) ->
  fs !! (ds ++ [tmp_name env]) = None -> fst (commit env s1 fs back) = None.
Proof.
  intros [Hpl _ Ht] Hsy Ep Hnf [d Hd] Hfree. unfold commit. cbv zeta.
  assert (fst (saveLocked env s1 fs) = true) as ->; [|done].
  rewrite (saveLocked_works ds f env Hpl) by (rewrite ?Ep; apply Hsy || done).
  unfold save_works. rewrite Hfree, Hd. cbn [existsb]. by rewrite !Hnf.
Qed.

(** Installing the token: done, with memory and disk in agreement, or the disk as it was. *)
Lemma admin_outcome env s fs token e st' :
  fits ds f env fs -> synced ds f (s, fs) -> token <> "" -> SetAdminToken env (s, fs) token = (e, st') ->
  framed (fun x => x = f \/ x = tmp_name env) fs (snd st') /\
  (e = None -> fst st' = with_adminHash s (hashHex token) /\ synced ds f st').
Proof.
  intros Hfit Hsy Ht. unfold SetAdminToken. rewrite bool_decide_false by done. cbv zeta. intros E. split.
  - eapply only_these_framed; [by left|by right|]. by eapply commit_frame; [| | |exact E].
  - intros ->. assert (well_named (with_adminHash s (hashHex token))) as Hw by apply (sy_named _ _ _ Hsy).
    by destruct (commit_synced ds f env s _ fs _ _ _ Hfit Hsy Hw eq_refl eq_refl E).
Qed.

(** ** A start *)

(** The disk and the outside world as a start expects them: the directories are there, temporary names
    are fresh, reading works, and the store's document has its id. *)
Record startable (env : startEnv) (run : string) fs : Prop := Startable {
  sb_run : es = ds ++ [run] /\ run <> f /\ run <> hf /\ run <> tmp_name (st_admin env) /\
           (forall k, run <> tmp_name (st_adds env k));
  sb_good : good_elems (ds ++ [f]);
  sb_disk : disk_ok ds f fs;
  sb_hubs : plain_slot (ds ++ [hf]) fs;
  sb_mkdir : st_mkdir env = false;
  sb_read : fe_fault (st_open env) "readfile" = false;
  sb_doc d shape : fs !! (ds ++ [f]) = Some (NFile d) -> Unmarshal d = Some shape -> fs_PortalID shape <> "";
  sb_draws : draws (st_adds env);
  sb_free : free_from (st_adds env) 0 fs;
  sb_admin : placed ds f (st_admin env) /\ fe_fault (st_admin env) "readfile" = false;
  sb_admin_tmp : fs !! (ds ++ [tmp_name (st_admin env)]) = None /\ tmp_name (st_admin env) <> hf /\
                 forall k, tmp_name (st_admin env) <> tmp_name (st_adds env k);
  sb_endpoint : ready es ef (st_endpoint env) ".portal-endpoint-" fs;
  sb_rand b : st_rand env = Some b -> b <> []
}.

(** Nothing fails. *)
Record all_works (env : startEnv) fs : Prop := AllWorks {
  aw_open : is_Some (Open (st_open env) fs store_path);
  aw_adds : no_failures (st_adds env);
  aw_admin call : fe_fault (st_admin env) call = false;
  aw_rand : is_Some (st_rand env);
  aw_addr : is_Some (st_addr env);
  aw_endpoint call : fe_fault (st_endpoint env) call = false;
  aw_marshal e : is_Some (MarshalEndpoint e);
  aw_free : fs !! (es ++ [temp_name (st_endpoint env) ".portal-endpoint-"]) = None
}.

Lemma ready_framed env run names fs g :
  es = ds ++ [run] -> ~ names run -> framed names fs g -> ready es ef env ".portal-endpoint-" fs ->
  ready es ef env ".portal-endpoint-" g.
Proof.
  intros -> Hrun Hf [H1 H2 H3 [H4 H4'] H5].
  assert (forall p, ds ++ [run] `prefix_of` p -> g !! p = fs !! p) as Hin.
  { intros p Hp. apply Hf. intros e He Hpre.
    destruct (prefix_weak_total (ds ++ [run]) (ds ++ [e]) p Hp Hpre) as [E|E]; apply child_prefix in E; by subst. }
  split; [done..| |].
  - split; [|unfold plain_slot; rewrite Hin; [done|by eexists]].
    intros q Hne Hq. rewrite Hf; [by apply H4|]. intros e He Hpre.
    assert (ds ++ [e] `prefix_of` ds ++ [run]) as E by (by etrans). apply child_prefix in E. by subst.
  - unfold plain_slot. rewrite Hin; [done|by eexists].
Qed.

Lemma synced_frame names s fs g : ~ names f -> framed names fs g -> dir_at ds g -> synced ds f (s, fs) -> synced ds f (s, g).
Proof.
  intros Hn Hfr Hd [H1 H2 H3 [H4 H4'] H5]. split; try done; cbn [fst snd] in *.
  - split; [done|]. by eapply plain_framed.
  - by rewrite (framed_child names f fs g).
Qed.

(** What the endpoint file says. *)
Definition endpoint_on fs : option portalEndpoint :=
  match fs !! (es ++ [ef]) with Some (NFile d) => UnmarshalEndpoint d | _ => None end.

Lemma bearer_inj t t' : "Bearer " +:+ t = "Bearer " +:+ t' -> t = t'.
Proof. intros E. rewrite <- (trim_prefix_app "Bearer " t), E. apply trim_prefix_app. Qed.

Lemma Authenticate_exact token s fs r :
  s_adminTokenHash s = hashHex token -> hashHex token <> "" ->
  file_Authenticate (s, fs) r = AuthUser LocalUser <->
  exists t, pq_Authorization r = "Bearer " +:+ t /\ t <> "" /\ hashHex t = hashHex token.
Proof.
  intros Hh Hne. unfold file_Authenticate. cbn [fst]. rewrite Hh, (bool_decide_false (hashHex token = "")) by done.
  destruct (has_prefix (pq_Authorization r) "Bearer ") eqn:Hp; cbn [negb].
  - apply has_prefix_iff in Hp as [t Ht]. rewrite Ht, trim_prefix_app.
    destruct (bool_decide_reflect (t = "")) as [->|Hte].
    { split; [done|]. intros (t' & <-%bearer_inj & Ht' & _). done. }
    destruct (bool_decide_reflect (hashHex t = hashHex token)) as [E|E]; cbn [negb].
    + split; [|done]. intros _. by exists t.
    + split; [done|]. by intros (t' & <-%bearer_inj & _ & Hh').
  - split; [done|]. intros (t & E & _). rewrite E in Hp.
    assert (has_prefix ("Bearer " +:+ t) "Bearer " = true) as Hp' by (apply has_prefix_iff; by exists t). congruence.
Qed.

Lemma hex_of_ne l : l <> [] -> hex_of l <> "".
Proof.
  intros Hl E. apply (f_equal bytes) in E. unfold hex_of in E. rewrite bytes_of_bytes in E.
  apply (f_equal length) in E. rewrite length_hex_encode in E. cbn in E. by destruct l.
Qed.

Lemma hashHex_ne t : hashHex t <> "".
Proof. apply hex_of_ne. intros E. apply (f_equal length) in E. by rewrite length_sha256 in E. Qed.

Lemma endpoint_dir env fs : ready es ef env ".portal-endpoint-" fs -> MkdirAll fs (Dir endpoint_path) = (true, fs).
Proof.
  intros [Hg _ _ [Hd _] _]. unfold endpoint_path. rewrite Dir_abs_snoc by done.
  apply MkdirAll_present; [by eapply good_dir|done].
Qed.

(** Writing the endpoint: the file says where the portal is, and the store is as it was. *)
Lemma endpoint_outcome env run pe s fs ok fs' :
  es = ds ++ [run] -> run <> f -> ready es ef (st_endpoint env) ".portal-endpoint-" fs -> synced ds f (s, fs) ->
  writeEndpointFile endpoint_path env pe fs = (ok, fs') ->
  ok = true -> synced ds f (s, fs') /\ exists ep, endpoint_on fs' = Some ep /\
    ep_URL ep = em_endpointURL pe /\ ep_BearerToken ep = em_bearerToken pe.
Proof.
  intros Hes Hrun Hr Hsy. unfold writeEndpointFile. set (body := MkPortalEndpoint _ _ _ _ _).
  rewrite (endpoint_dir _ _ Hr). destruct (fe_fault _ "mkdirall"); [by intros [= <- _]|]. cbn [orb negb].
  destruct (replaceFile _ _ _ _ _) as [ok' tr] eqn:E. intros [= -> <-] ->.
  destruct (replaceFile_done es ef (st_endpoint env) _ fs _ true tr Hr E) as (g & -> & d & Hd & (Hdk & Hf & _ & Ho)).
  cbn [from_option id]. split.
  - apply (synced_frame (fun e => e = run) s fs g).
    + by intros ->.
    + intros p Hp. specialize (Hp run eq_refl). rewrite <- Hes in Hp.
      apply Ho; intros Hpre; apply Hp; (etrans; [|exact Hpre]); by eexists.
    + intros q Hne Hq. destruct Hdk as [Hdk _]. apply Hdk; [done|]. rewrite Hes. etrans; [exact Hq|by eexists].
    + done.
  - exists body. split; [|done]. unfold endpoint_on. rewrite Hf. by apply unmarshal_endpoint.
Qed.

Lemma endpoint_works env pe fs :
  ready es ef (st_endpoint env) ".portal-endpoint-" fs -> (forall call, fe_fault (st_endpoint env) call = false) ->
  (forall e, is_Some (MarshalEndpoint e)) -> fs !! (es ++ [temp_name (st_endpoint env) ".portal-endpoint-"]) = None ->
  fst (writeEndpointFile endpoint_path env pe fs) = true.
Proof.
  intros Hr Hnf Hm Hfree. unfold writeEndpointFile. rewrite (endpoint_dir _ _ Hr), Hnf. cbn [orb negb]. destruct (Hm (MkPortalEndpoint (em_endpointURL pe) (em_bearerToken pe)
    (em_storePath pe) (FormatRFC3339 (st_now env)) (st_pid env))) as [d ->].
  pose proof (replaceFile_works es ef (st_endpoint env) _ fs d Hr Hnf Hfree) as Hw.
  unfold endpoint_path. by destruct (replaceFile _ _ _ _ _).
Qed.

(** C15. A start of the embedded portal.  If no call fails it succeeds; and whenever it succeeds, the
    running store and the file on disk agree.  Every hub the store had before is as it was, and every new
    one is a hub of the older files with its URL and token.  If no call failed, every name of those that
    was free is taken: by its own hub, unless several of them have that name, and then by one of these.
    The endpoint file names the running portal's address and a bearer token such that the
    portal admits exactly the requests that carry it. *)
Theorem embedded_portal_ready env run fs :
  startable env run fs ->
  let '(o, fs') := startEmbeddedPortal hubs_path credPath store_path endpoint_path env fs in
  (all_works env fs -> o <> None) /\
  forall em, o = Some em -> exists s0,
    Open (st_open env) fs store_path = Some s0 /\ synced ds f (em_store em, fs') /\
    taken_over (st_adds env) (legacyHubs hubs_path credPath fs) s0 (em_store em) /\
    exists ep, endpoint_on fs' = Some ep /\ ep_URL ep = em_endpointURL em /\
      forall r, file_Authenticate (em_store em, fs') r = AuthUser LocalUser <->
        exists t, pq_Authorization r = "Bearer " +:+ t /\ t <> "" /\ hashHex t = hashHex (ep_BearerToken ep).
Proof.
  intros Hsb. pose proof Hsb as [(Hes & R1 & R2 & R3 & R4) Hg Hdk Hh Hmk Hrd Hdoc Hdr Hfree [Ha1 Ha2] (T1 & T2 & T3) Hep Hrnd].
  unfold startEmbeddedPortal, store_path. rewrite Dir_abs_snoc by done.
  rewrite MkdirAll_present by (apply Hdk || by eapply good_dir). rewrite Hmk. cbn [orb negb].
  destruct (Open (st_open env) fs (abs (ds ++ [f]))) as [s0|] eqn:Ho; cycle 1.
  { split; [|done]. intros [[s Hs] _ _ _ _ _ _ _]. unfold store_path in Hs. congruence. }
  assert (synced ds f (s0, fs)) as Hsy by exact (Open_agrees ds f (st_open env) fs s0 Hrd Hg Hdk Ho Hdoc).
  destruct (import_outcome (st_adds env) (st_removeFails env) s0 fs Hdr Hsy Hfree Hh)
    as (n & s1 & fs1 & -> & Hsy1 & _ & Htake & Hfr1).
  destruct (generatePortalBearerToken (st_rand env)) as [bearer|] eqn:Hb; cycle 1.
  { split; [|done]. intros [_ _ _ [r Hr] _ _ _ _]. by rewrite Hr in Hb. }
  assert (bearer <> "") as Hbne.
  { unfold generatePortalBearerToken in Hb. destruct (st_rand env) as [b|] eqn:Eb; [|done]. injection Hb as <-.
    apply hex_of_ne. specialize (Hrnd b eq_refl). by destruct b. }
  assert (fs1 !! (ds ++ [tmp_name (st_admin env)]) = None) as Hfree1.
  { rewrite <- T1. eapply framed_child; [|exact Hfr1]. intros [E|[E|[k E]]]; [by eapply pl_ne|done|by apply (T3 k)]. }
  assert (fits ds f (st_admin env) fs1) as Hfit by (split; [done|done|by left]).
  destruct (SetAdminToken (st_admin env) (s1, fs1) bearer) as [e [s2 fs2]] eqn:Ea.
  destruct (admin_outcome _ _ _ _ _ _ Hfit Hsy1 Hbne Ea) as [Hfr2 Hadm]. cbn [fst snd] in *.
  destruct e as [e|].
  { split; [|done]. intros [_ (_ & _ & Hm) Hnf _ _ _ _ _]. exfalso.
    pose proof (commit_works (st_admin env) s1 (with_adminHash s1 (hashHex bearer)) fs1
      (fun _ => with_adminHash s1 (hashHex bearer)) Hfit Hsy1 eq_refl Hnf (Hm _) Hfree1) as Hc.
    unfold SetAdminToken in Ea. rewrite bool_decide_false in Ea by done. by rewrite Ea in Hc. }
  destruct (Hadm eq_refl) as [-> Hsy2].
  destruct (st_addr env) as [addr|] eqn:Haddr; cycle 1.
  { split; [|done]. intros [_ _ _ _ [a Haa] _ _ _]. congruence. }
  set (names := fun e => e = f \/ e = hf \/ (exists i, e = tmp_name (st_adds env i)) \/ e = tmp_name (st_admin env)).
  assert (~ names run) as Hnr by (intros [->|[->|[[i ->]| ->]]]; [done|done|by eapply R4|done]).
  assert (framed names fs fs2) as Hfr.
  { etrans; [eapply framed_weaken; [|exact Hfr1]|eapply framed_weaken; [|exact Hfr2]]; unfold names; cbn; naive_solver. }
  pose proof (ready_framed (st_endpoint env) run names fs fs2 Hes Hnr Hfr Hep) as Hep2.
  set (pe := PortalEmbed _ _ _ _). destruct (writeEndpointFile endpoint_path env pe fs2) as [ok fs3] eqn:Ew.
  destruct ok; (split; [|intros em; (discriminate || intros [= <-])]).
  - discriminate.
  - exists s0. split; [done|].
    destruct (endpoint_outcome env run pe _ fs2 true fs3 Hes R1 Hep2 Hsy2 Ew eq_refl) as (Hsy3 & ep & Hep3 & Hu & Htok).
    split; [done|]. split; [exact Htake|]. exists ep. split_and!; [done|done|].
    intros r. rewrite Htok. apply Authenticate_exact; [done|apply hashHex_ne].
  - intros [_ _ _ _ _ Hnf Hm Hfe]. pose proof (endpoint_works env pe fs2 Hep2 Hnf Hm) as Hw. rewrite Ew in Hw.
    cbn [fst] in Hw. discriminate Hw. rewrite Hfr; [done|]. intros e He Hpre. rewrite Hes in Hpre.
    assert (ds ++ [run] `prefix_of` (ds ++ [run]) ++ [temp_name (st_endpoint env) ".portal-endpoint-"]) as Hpre' by (by eexists).
    destruct (prefix_weak_total _ _ _ Hpre Hpre') as [E|E]; apply child_prefix in E; subst; by apply Hnr.
Qed.

End start.
