(* ===== verification/DesktopExamples.v ===== *)
(** * The desktop application evaluated

    The theorems about its list of portals and its embedded portal at small inputs, and what the code
    does where one would not expect it. *)

From S2P Require Import Prelude Http PortalProtocol FilePath FileSys PortalFile PortalFileProofs PortalClient Credstore.
From S2P Require Import ClientConfig Url Timestamp MountProofs ClientExamples PortalSources PortalEmbed.
From Stdlib Require Import ZArith Lia Ascii String.
From stdpp Require Import base countable gmap strings list fin_maps relations.

(** ** Codecs *)

Definition source_to (s : PortalSource) := (ps_Name s, ps_Kind s, ps_URL s, ps_BearerToken s, ps_Enabled s, ps_AddedAt s).
Definition source_from (t : string * string * string * string * bool * string) : PortalSource :=
  MkPortalSource t.1.1.1.1.1 t.1.1.1.1.2 t.1.1.1.2 t.1.1.2 t.1.2 t.2.
Lemma source_from_to (l : list PortalSource) : map source_from (map source_to l) = l.
Proof. rewrite map_map. rewrite <- (map_id l) at 2. apply map_ext. by intros []. Qed.

#[export] Instance demo_sources_codec : SourcesCodec.
Proof.
  refine {| MarshalSources f := Some (digits_of (encode (sf_ActiveName f, sf_EmbeddedEnabled f, map source_to (sf_Remote f))));
            UnmarshalSources l := p ← of_digits l;
              t ← decode p : option (string * option bool * list (string * string * string * string * bool * string));
              Some (SourcesFile t.1.1 t.1.2 (map source_from t.2)) |}.
  intros [a e r] d [= <-]. rewrite of_digits_of. cbn [mbind option_bind]. rewrite decode_encode.
  cbn [mbind option_bind fst snd sf_ActiveName sf_EmbeddedEnabled sf_Remote]. by rewrite source_from_to.
Defined.

#[export] Instance demo_endpoint_codec : EndpointCodec.
Proof.
  refine {| MarshalEndpoint e := Some (digits_of (encode (ep_URL e, ep_BearerToken e, ep_StorePath e, ep_StartedAt e, ep_Pid e)));
            UnmarshalEndpoint l := p ← of_digits l;
              t ← decode p : option (string * string * string * string * Z);
              Some (MkPortalEndpoint t.1.1.1.1 t.1.1.1.2 t.1.1.2 t.1.2 t.2) |}.
  intros [a b c d e] l [= <-]. rewrite of_digits_of. cbn [mbind option_bind]. by rewrite decode_encode.
Defined.

(** ** A disk *)

Definition conf : ppath := ["home"; ".tela"].
Definition run_dir : ppath := ["home"; ".tela"; "run"].
Definition old_hubs : gmap string ((string * string) + option string) :=
  {[ "barn" := inl ("wss://barn.example/", "pin-1"); "attic" := inl ("ws://attic:8080", "") ]}.
Definition old_creds : CredStore :=
  MkCredStore {[ "wss://barn.example" := MkCredential "barn-token" "" ""; "https://solo.example" := MkCredential "solo-token" "" "" ]} noUpdate.
Definition desk_disk : fsys :=
  <[conf ++ ["hubs.yaml"] := NFile (demo_doc old_hubs)]>
  (<[conf ++ ["credentials.yaml"] := NFile (default [] (MarshalCred old_creds))]>
   {[ ["home"] := NDir; conf := NDir; run_dir := NDir ]}).

(** Numbered temporary names, and calls that fail when named. *)
Definition tick (k : nat) : string := of_bytes (repeat "x"%char k).
Definition desk_fenv (fault : option string) (k : nat) : fileEnv :=
  FileEnv (Some (repeat 7%Z 32)) (fun call => match fault with Some f => call =s f | None => false end) (tick k) 3.
Definition desk_start (fault : option string) : startEnv :=
  StartEnv false (desk_fenv None 0) (fun k => desk_fenv fault (S (S k))) false (Some (repeat 9%Z 32))
    (desk_fenv None 1) (Some "127.0.0.1:4711") (desk_fenv None 0) 0 77.

Abbreviation desk_store := "portal.yaml".
Definition start_desk (fault : option string) (fs : fsys) : option portalEmbed * fsys :=
  startEmbeddedPortal (hubs_path conf "hubs.yaml") "/home/.tela/credentials.yaml"
    (store_path conf desk_store) (endpoint_path run_dir "portal-endpoint.json") (desk_start fault) fs.

(** The hubs a running portal lists: name, URL and token. *)
Definition shown (o : option portalEmbed) : list (string * string * string) :=
  match o with
  | Some em => map (fun kv => (fst kv, sh_URL (snd kv), sh_AdminToken (snd kv))) (map_to_list (s_hubs (em_store em)))
  | None => []
  end.

Example hubs_taken_over :
  shown (fst (start_desk None desk_disk)) ≡ₚ
    [("barn", "https://barn.example", "barn-token"); ("attic", "http://attic:8080", "");
     ("solo.example", "https://solo.example", "solo-token")] /\
  ep_URL <$> endpoint_on run_dir "portal-endpoint.json" (snd (start_desk None desk_disk)) = Some "http://127.0.0.1:4711".
Proof. split; [apply (bool_decide_unpack _)|]; by vm_compute. Qed.

(** A save that fails during the import loses the hubs: none is in the store, and [hubs.yaml] is
    removed all the same. *)
Example failed_import_loses_hubs :
  shown (fst (start_desk (Some "rename") desk_disk)) = [] /\ is_Some (fst (start_desk (Some "rename") desk_disk)) /\
  snd (start_desk (Some "rename") desk_disk) !! (conf ++ ["hubs.yaml"]) = None.
Proof. split; [by vm_compute|]. split; [|by vm_compute]. apply (bool_decide_unpack _). by vm_compute. Qed.

(** Two names of one hub: one is kept, and the file with both is removed. *)
Example second_name_lost :
  let fs := <[conf ++ ["hubs.yaml"] := NFile (demo_doc
    {[ "a" := inl ("wss://one.example", ""); "b" := inl ("https://one.example/", "") ]})]>
    {[ ["home"] := NDir; conf := NDir; run_dir := NDir ]} in
  length (shown (fst (start_desk None fs))) = 1 /\ snd (start_desk None fs) !! (conf ++ ["hubs.yaml"]) = None.
Proof. by vm_compute. Qed.

(** The pin of an entry is not taken over, and goes with the file. *)
Example pin_dropped :
  he_Pin <$> aliases (hubs_path conf "hubs.yaml") desk_disk !! "barn" = Some "pin-1" /\
  Load (snd (start_desk None desk_disk)) "/home/.tela/credentials.yaml" = Some old_creds /\
  snd (start_desk None desk_disk) !! (conf ++ ["hubs.yaml"]) = None.
Proof. split_and!; vm_compute; reflexivity. Qed.

(** ** A start, by the theorem *)

Lemma tick_length k : String.length (tick k) = k.
Proof. unfold tick. rewrite <- length_bytes, bytes_of_bytes. apply repeat_length. Qed.

Lemma tmp_inj (j k : nat) (fa fb : option string) : tmp_name (desk_fenv fa j) = tmp_name (desk_fenv fb k) -> j = k.
Proof.
  unfold tmp_name. cbn [fe_tmp desk_fenv]. intros E%(f_equal (fun t => length (bytes t))).
  rewrite !bytes_app, !length_app, !length_bytes, !tick_length in E. lia.
Qed.

Lemma tmp_good (k : nat) : good_elem (".portal-" +:+ tick k +:+ ".tmp").
Proof.
  split_and!; try (intros E%(f_equal (fun t => length (bytes t))); rewrite !bytes_app, !length_app in E; cbn in E; lia).
  unfold no_slash. rewrite !bytes_app. unfold tick. rewrite bytes_of_bytes, !not_elem_of_app. split_and!.
  - apply (bool_decide_unpack _). by vm_compute.
  - intros Hin%list_elem_of_In%repeat_spec. discriminate.
  - apply (bool_decide_unpack _). by vm_compute.
Qed.

Lemma tmp_other (fa : option string) (k : nat) (name : string) : has_prefix name ".portal-" = false -> tmp_name (desk_fenv fa k) <> name.
Proof.
  intros Hp E. assert (has_prefix name ".portal-" = true); [|congruence]. rewrite <- E. apply has_prefix_iff.
  unfold tmp_name. by eexists.
Qed.

Lemma conf_good name : good_elem name -> good_elems (conf ++ [name]).
Proof. intros Hn. repeat constructor; try (apply Hn || discriminate); (apply (bool_decide_unpack _); by vm_compute). Qed.

Lemma desk_placed (fa : option string) (k : nat) : placed conf desk_store (desk_fenv fa k).
Proof.
  split.
  - apply conf_good. split_and!; try discriminate. apply (bool_decide_unpack _). by vm_compute.
  - apply conf_good. by apply tmp_good.
  - by apply (tmp_other fa k).
Qed.

Lemma desk_dirs : dir_at run_dir desk_disk.
Proof.
  apply (dir_at_snoc ["home"; ".tela"] "run"); [|vm_compute; reflexivity].
  apply (dir_at_snoc ["home"] ".tela"); [|vm_compute; reflexivity].
  apply (dir_at_snoc [] "home"); [apply dir_at_nil|vm_compute; reflexivity].
Qed.

Lemma desk_child name : plain_slot (conf ++ [name]) desk_disk -> disk_ok conf name desk_disk.
Proof.
  intros Hs. split; [|done]. intros q Hne Hq. apply desk_dirs; [done|]. etrans; [exact Hq|]. by exists ["run"].
Qed.

Lemma fresh_tmp (fa : option string) (k : nat) : desk_disk !! (conf ++ [tmp_name (desk_fenv fa k)]) = None.
Proof.
  unfold desk_disk, run_dir. pose proof (tmp_other fa k) as Ht.
  assert (conf ++ [tmp_name (desk_fenv fa k)] <> conf ++ ["hubs.yaml"]) as H1 by (intros E%child_inj; by eapply Ht; [|exact E]).
  assert (conf ++ [tmp_name (desk_fenv fa k)] <> conf ++ ["credentials.yaml"]) as H2 by (intros E%child_inj; by eapply Ht; [|exact E]).
  assert (conf ++ [tmp_name (desk_fenv fa k)] <> conf ++ ["run"]) as H3 by (intros E%child_inj; by eapply Ht; [|exact E]).
  rewrite !lookup_insert_ne by (congruence || discriminate). apply lookup_singleton_ne. intros E. exact (H3 (eq_sym E)).
Qed.

Lemma desk_startable : startable conf run_dir desk_store "hubs.yaml" "portal-endpoint.json" (desk_start None) "run" desk_disk.
Proof.
  split.
  - split_and!; try done; intros E; by eapply (tmp_other _ _ "run"); [|symmetry; exact E].
  - apply (pl_file _ _ _ (desk_placed None 0)).
  - apply desk_child. left. vm_compute. reflexivity.
  - right. eexists. vm_compute. reflexivity.
  - done.
  - done.
  - intros d shape E. vm_compute in E. discriminate.
  - split; intros.
    + apply desk_placed.
    + done.
    + intros E%tmp_inj. lia.
    + by apply tmp_other.
  - intros j _. apply (fresh_tmp None (S (S j))).
  - split; [apply desk_placed|done].
  - split_and!; [apply (fresh_tmp None 1)|by apply tmp_other|]. intros k E%tmp_inj. lia.
  - split.
    + apply (bool_decide_unpack _). by vm_compute.
    + apply (bool_decide_unpack _). by vm_compute.
    + discriminate.
    + split; [apply desk_dirs|left; by vm_compute].
    + left. by vm_compute.
  - intros b [= <-]. discriminate.
Qed.

Lemma desk_works : all_works conf run_dir desk_store (desk_start None) desk_disk.
Proof.
  split; try (by intros; eexists); try done; try (by vm_compute).
Qed.

Lemma embedded_portal_ready_witness :
  exists em, fst (start_desk None desk_disk) = Some em /\ synced conf desk_store (em_store em, snd (start_desk None desk_disk)).
Proof.
  assert (good_elems (conf ++ ["hubs.yaml"])) as Hg.
  { apply conf_good. split_and!; try discriminate. apply (bool_decide_unpack _). vm_compute. exact I. }
  pose proof (embedded_portal_ready conf run_dir desk_store "hubs.yaml" "portal-endpoint.json"
    "/home/.tela/credentials.yaml" Hg ltac:(discriminate) (desk_start None) "run" desk_disk desk_startable) as H.
  change (startEmbeddedPortal _ _ _ _ _ _) with (start_desk None desk_disk) in H.
  destruct (start_desk None desk_disk) as [o fs']. destruct H as [Hw He]. specialize (Hw desk_works).
  destruct o as [em|]; [|contradiction]. destruct (He em eq_refl) as (s0 & _ & Hs & _).
  exists em. split; [reflexivity|exact Hs].
Defined.

(** ** A list of portals *)

Definition src (name url tok : string) (on : bool) : PortalSource :=
  MkPortalSource name PortalSourceKindRemote url tok on "2026-01-01T00:00:00Z".
Definition list0 : portalSourcesFile :=
  SourcesFile "" (Some true) [src "work" "https://work.example" "w" true; src "home" "https://home.example" "h" false].
Definition cfg_dir : ppath := ["cfg"].
Abbreviation sources_file := "portal-sources.yaml".
Definition list_disk (l : portalSourcesFile) : fsys :=
  <[cfg_dir ++ [sources_file] := NFile (default [] (MarshalSources l))]> {[ cfg_dir := NDir ]}.
Definition sources_env (fault : string) (tmp : string) : fileEnv :=
  FileEnv None (fun call => call =s fault) tmp 0.

Lemma list_good name : good_elem name -> good_elems (cfg_dir ++ [name]).
Proof. intros Hn. repeat constructor; try (apply Hn || discriminate); (apply (bool_decide_unpack _); by vm_compute). Qed.

Lemma list_ready l fault (tmp : string) :
  tmp = "1" \/ tmp = "2" -> ready cfg_dir sources_file (sources_env fault tmp) sources_tmp (list_disk l).
Proof.
  intros Ht. split.
  - apply list_good. split_and!; try discriminate. apply (bool_decide_unpack _). by vm_compute.
  - apply list_good. destruct Ht as [-> | ->]; (split_and!; try discriminate; apply (bool_decide_unpack _); by vm_compute).
  - by destruct Ht as [-> | ->].
  - split; [|by right; eexists; apply lookup_insert_eq].
    apply (dir_at_snoc [] "cfg"); [apply dir_at_nil|]. unfold list_disk. rewrite lookup_insert_ne by done. apply lookup_singleton_eq.
  - left. unfold list_disk. rewrite lookup_insert_ne by (by destruct Ht as [-> | ->]).
    apply lookup_singleton_ne. by destruct Ht as [-> | ->].
Qed.

Lemma list_on l : sf_EmbeddedEnabled l <> None -> listOn cfg_dir sources_file (list_disk l) = Some l.
Proof.
  intros Hl. unfold listOn, list_disk. rewrite lookup_insert_eq.
  rewrite (unmarshal_sources l); [cbn; by rewrite up_to_date_id|reflexivity].
Qed.

Lemma list0_ok : sources_ok list0.
Proof. split; apply (bool_decide_unpack _); vm_compute; exact I. Qed.

Definition toggled : option sourceErr * fsys :=
  runSource cfg_dir sources_file (sources_env "x" "1") (sources_env "x" "2") (SoEnable "home" true) (list_disk list0).

Lemma toggled_step : source_step cfg_dir sources_file (list_disk list0) (snd toggled).
Proof. apply source_step_run; [apply list_ready; by left|apply list_ready; by right|reflexivity|exact I]. Qed.

Lemma source_list_refines_witness :
  fst toggled = None /\ exists l, listOn cfg_dir sources_file (snd toggled) = Some l /\ sources_ok l.
Proof.
  split; [vm_compute; reflexivity|].
  destruct (source_list_refines cfg_dir sources_file (list_disk list0) (snd toggled) None) as (l & Hl & Hok & _).
  - exists list0. split; [apply list_on; discriminate|exact list0_ok].
  - apply rtc_once, toggled_step.
  - exists l. split; [exact Hl|exact Hok].
Defined.

(** A failing save leaves the list, and is reported. *)
Example toggle_fails :
  let r := runSource cfg_dir sources_file (sources_env "x" "1") (sources_env "rename" "2") (SoEnable "home" true) (list_disk list0) in
  fst r = Some SeFile /\ listOn cfg_dir sources_file (snd r) = Some list0.
Proof. vm_compute. split; reflexivity. Qed.

(** A source cannot be renamed to the name it has. *)
Example rename_to_itself :
  fst (runSource cfg_dir sources_file (sources_env "x" "1") (sources_env "x" "2") (SoRename "home" " home ") (list_disk list0)) =
  Some SeExists.
Proof. vm_compute. reflexivity. Qed.

(** The file from before several portals could be enabled: the active one stays enabled. *)
Example old_list_migrated :
  listOn cfg_dir sources_file (list_disk (SourcesFile "home" None (sf_Remote list0))) =
    Some (SourcesFile "" (Some false) [src "work" "https://work.example" "w" false; src "home" "https://home.example" "h" true]).
Proof. vm_compute. reflexivity. Qed.

(** *** Which portal answers *)

Definition own_portal : option (string * string) := Some ("http://127.0.0.1:4711", "own").
Definition both_list (c : Client) : clientErr + list HubVisibility :=
  if BearerToken c =s "own" then inr [MkHubVisibility "1" "barn" "https://barn.example" true ""]
  else inr [MkHubVisibility "1" "barn" "https://barn.work" true ""; MkHubVisibility "2" "lab" "https://lab.work" false ""].
Definition later_first (m : gmap string Client) : list (string * Client) := rev (map_to_list m).

Lemma source_for_hub_best_witness :
  fst (sourceForHub (sources_env "x" "1") (sources_path cfg_dir sources_file) own_portal both_list later_first "barn"
    (list_disk list0)) = ("Local", "https://barn.example", true) /\
  exists c h, client_of own_portal list0 "Local" = Some c /\ lists_hub both_list "barn" c h /\ "https://barn.example" = hv_URL h.
Proof.
  assert (fst (sourceForHub (sources_env "x" "1") (sources_path cfg_dir sources_file) own_portal both_list later_first "barn"
    (list_disk list0)) = ("Local", "https://barn.example", true)) as E by (vm_compute; reflexivity).
  split; [exact E|].
  pose proof (source_for_hub_best cfg_dir sources_file (sources_env "x" "1") own_portal both_list later_first "barn"
    (list_disk list0) list0) as H.
  rewrite E in H. destruct H as (c & h & Hc & Hh & Hu & _).
  - apply list_ready. left. reflexivity.
  - reflexivity.
  - apply list_on. discriminate.
  - exact list0_ok.
  - intros m. unfold later_first. symmetry. apply Permutation_rev.
  - exists c, h. split; [exact Hc|]. split; [exact Hh|exact Hu].
Defined.

(** *** Signing in *)

Definition device_rounds (k : nat) : pollRound :=
  PollRound (match k with 0%nat => inl CPending | 1%nat => inl CSlowDown | _ => inr ("device-token", "Bearer") end) 1000 false.
Definition signed_in : option (option sourceErr * fsys * Z) :=
  PortalDeviceAuthComplete (sources_env "x" "1") (sources_env "x" "2") (sources_path cfg_dir sources_file)
    device_rounds 0 " lab " "https://lab.example" "code" 5 (list_disk list0).

Lemma device_sign_in_witness :
  ((fun o => fst (fst o)) <$> signed_in) = Some None /\
  exists e fs' t, signed_in = Some (e, fs', t) /\ (t <= 1330 * perSecond)%Z /\ (e = None -> exists l', listOn cfg_dir sources_file fs' = Some l').
Proof.
  split; [vm_compute; reflexivity|].
  destruct (device_sign_in cfg_dir sources_file (sources_env "x" "1") (sources_env "x" "2") device_rounds 0 " lab "
    "https://lab.example" "code" 5 (list_disk list0) list0 None) as (e & fs' & t & E & _ & Ht & H).
  - apply list_ready. left. reflexivity.
  - apply list_ready. right. reflexivity.
  - reflexivity.
  - apply list_on. discriminate.
  - intros i. unfold pollTimeout, perSecond. cbn. lia.
  - lia.
  - exists e, fs', t. split; [exact E|]. split; [exact Ht|]. intros ->. destruct H as (_ & i & a & ty & l' & _ & _ & Hl & _). exists l'. exact Hl.
Defined.

(** An interval that does not fit 64 bits of nanoseconds turns negative: the portal is asked without a
    pause, here more than a thousand times in less than two milliseconds. *)
Example huge_interval_spins :
  PortalDeviceAuthComplete (sources_env "x" "1") (sources_env "x" "2") (sources_path cfg_dir sources_file)
    (fun _ => PollRound (inl CPending) 1000 false) 0 "lab" "https://lab.example" "code" 9300000000 (list_disk list0) = None.
Proof. vm_compute. reflexivity. Qed.

(** *** Addresses of portals *)

Example normalize_examples :
  map normalizePortalURL ["portal.example"; " HTTPS://Portal.Example:8443/a?b#c "; "ftp://x"; ""; "https:///x"; "http://[::1]:8080/"] =
    [Some "https://portal.example"; Some "https://Portal.Example:8443"; None; None; None; Some "http://[::1]:8080"].
Proof. vm_compute. reflexivity. Qed.

(** A question mark at the end survives, and the paths of the protocol become its query. *)
Example question_mark_kept :
  normalizePortalURL "https://portal.example/?" = Some "https://portal.example?" /\
  cq_URL (newRequest (MkClient "https://portal.example?" "") "GET" "/.well-known/tela" None) =
    "https://portal.example?/.well-known/tela".
Proof. vm_compute. split; reflexivity. Qed.
