(* ===== verification/ClientUpdate.v ===== *)
(** * The client's release channel and its self-update ([internal/client/channel.go], [update.go])

    [tela channel] keeps a channel and the sources of channels in the credential store, shows what the
    channel offers and downloads binaries of it; [tela update] replaces the running binary.  Commands
    are those of [ClientAdmin], without requests to a hub; what is installed is a list of the file
    systems a crash could leave, the latest first. *)

From S2P Require Import Prelude Flags FilePath FileSys HubConfig Timestamp Channel Credstore PortalFile ClientAdmin.
From S2P Require AdminUpdate.
From Stdlib Require Import ZArith Lia Ascii String.
From stdpp Require Import base gmap strings list.

(** What the commands meet: the paths of the credential store and of the running binary, the working
    directory, the platform, the network, and which calls fail. *)
Record updEnv := UpdEnv {
  ue_credPath : string;
  ue_save : saveEnv;
  ue_cwd : string;
  ue_exe : option string;                            (** [os.Executable] without links *)
  ue_platform : string;                              (** GOOS-GOARCH, not windows *)
  ue_version : string;
  ue_net : network;
  ue_download : string -> option (Z * list Z * bool);
  ue_file : fileEnv
}.

#[local] Notation "'let*' x ':=' c 'in' k" := (bind c (fun x => k))
  (at level 10, x binder, c at level 100, k at level 200).
#[local] Notation "c ;; k" := (bind c (fun _ => k)) (at level 100, k at level 200, right associativity).

(** ** A verified download put into place *)

(** The download goes to a temporary file beside [path], which takes the place of [path] only when it
    has the size and the digest of [entry]; with [force] a failing rename is tried again with [path]
    removed. *)
Definition installDownload (env : fileEnv) (force : bool) (fs : fsys) (path pre : string)
    (data : list Z) (readFails : bool) (entry : BinaryEntry) : bool * list fsys :=
  match (if fe_fault env "createtemp" then None
         else CreateTemp fs (Dir path) (pre +:+ fe_tmp env +:+ ".tmp")) with
  | None => (false, [fs])
  | Some (tmpPath, p, fs1) =>
      let part := WriteOpen fs1 p (take (fe_short env) data) in
      let full := WriteOpen fs1 p data in
      if fe_fault env "write" then (false, [dropTmp env part tmpPath; part; fs1; fs])
      else match VerifyReader data readFails (SHA256 entry) (Channel.Size entry) with
      | (Some _, _) => (false, [dropTmp env full tmpPath; full; part; fs1; fs])
      | (None, _) =>
          match (if fe_fault env "rename" then None else Rename full tmpPath path) with
          | Some fs2 => (true, [fs2; full; part; fs1; fs])
          | None =>
              if force then
                let gone := default full (Remove full path) in
                match (if fe_fault env "rename again" then None else Rename gone tmpPath path) with
                | Some fs2 => (true, [fs2; gone; full; part; fs1; fs])
                | None => (false, [dropTmp env gone tmpPath; gone; full; part; fs1; fs])
                end
              else (false, [dropTmp env full tmpPath; full; part; fs1; fs])
          end
      end
  end.

Section commands.
  Context {CC : CredCodec} `{RangeOrder} (env : updEnv).

Abbreviation cmd := (ClientAdmin.cmd (W := unit)).
Definition loadStore : cmd (option CredStore) := fun s => (Done (Load (cl_fs s) (ue_credPath env)), s).
Definition withDisk (fs : fsys) (s : cli (W := unit)) : cli := Cli fs (cl_world s) (cl_out s) (cl_err s).
Definition saveStore (store : CredStore) : cmd bool := fun s =>
  let '(ok, fs) := Save (ue_save env) (cl_fs s) store (ue_credPath env) in (Done ok, withDisk fs s).

(** [cliflag.Help]: the help flags are flags like others; any of them ends the command well. *)
Definition withHelp (extra : flagSet) : flagSet := [("h", true); ("?", true); ("help", true)] ++ extra.
Definition parseArgs (extra : flagSet) (args : list string) : cmd (option (flagValues * list string)) :=
  match Flags.Parse (withHelp extra) ∅ args with
  | ParseOk vals rest =>
      if bool_value vals "h" || bool_value vals "?" || bool_value vals "help" then ret None
      else ret (Some (vals, rest))
  | ParseHelp => exit 0
  | ParseError => exit 2
  end.
Definition parsePermuted (extra : flagSet) (args : list string) : cmd (option (flagValues * list string)) :=
  parseArgs extra (permuteArgs (withHelp extra) args).
(** A command that shows its usage instead when help was asked for. *)
Definition unlessHelp (o : option (flagValues * list string)) (k : flagValues -> list string -> cmd unit) : cmd unit :=
  match o with Some (vals, rest) => k vals rest | None => eprintln "tela channel -- client release channel" end.

(** ** The channel in effect *)

Definition sourcesOf (store : option CredStore) : gmap string string :=
  match store with Some s => uc_Sources (cs_Update s) | None => ∅ end.

(** Channel and base URL of a store, the default when there is none. *)
Definition channelOf (store : option CredStore) : string * string :=
  match store with
  | None => (DefaultChannel, ResolveBase DefaultChannel ∅)
  | Some s => let name := Normalize (uc_Channel (cs_Update s)) in (name, ResolveBase name (uc_Sources (cs_Update s)))
  end.
Definition loadClientChannel : cmd (string * string) := let* store := loadStore in ret (channelOf store).

Definition overridden (override : string) (cur : string * string) : string * string :=
  (if override <>s "" then Normalize override else fst cur, snd cur).
Definition resolveChannel (override : string) : cmd (string * string) :=
  let* cur := loadClientChannel in ret (overridden override cur).

(** A fetcher used once. *)
Definition manifestOf (base ch : string) : option Manifest :=
  fst (Channel.Get (MkFetcher base 0 ∅) (ue_net env) 0 0 ch).

(** ** Settings *)

Definition with_update (s : CredStore) (u : updateConfig) : CredStore := MkCredStore (cs_Hubs s) u.
Definition with_source (s : CredStore) (name base : string) : CredStore :=
  with_update s (UpdateConfig (uc_Channel (cs_Update s)) (<[name := base]> (uc_Sources (cs_Update s)))).
Definition with_channel (s : CredStore) (name : string) : CredStore :=
  with_update s (UpdateConfig name (uc_Sources (cs_Update s))).

(** The directory of a manifest's URL pasted in place of the base. *)
Definition stripManifest (base : string) : string :=
  if has_suffix base ".json" then default base (AdminUpdate.before_last "/" base) else base.

Definition channelName (s : string) : string := trim_space (to_lower s).

Definition saveOrExit (store : CredStore) : cmd unit :=
  let* ok := saveStore store in
  if ok then ret tt else die "Error: save credential store".
Definition loadOrExit : cmd CredStore :=
  let* store := loadStore in
  match store with Some s => ret s | None => die "Error: load credential store" end.

Definition setClientChannel (args : list string) : cmd unit :=
  let* p := parsePermuted [("manifest-base", false)] args in
  unlessHelp p (fun vals rest =>
    match rest with
    | [] => die "Error: 'set' requires a channel name (dev, beta, stable, or a custom channel)"
    | a :: _ =>
        let name := channelName a in
        if negb (IsValid name) then die ("Error: invalid channel name " +:+ name)
        else
          let* store := loadOrExit in
          let manifestBase := string_value vals "manifest-base" in
          let store := with_channel store name in
          let store := if manifestBase <>s "" then with_source store name (stripManifest (trim_slashes manifestBase))
                       else store in
          saveOrExit store;;
          println ("Client channel set to " +:+ name);;
          println ("  manifest: " +:+ ManifestURL (ResolveBase name (uc_Sources (cs_Update store))) name)
    end).

Definition setClientSource (args : list string) : cmd unit :=
  let* p := parsePermuted [] args in
  unlessHelp p (fun _ rest =>
    match rest with
    | a :: b :: _ =>
        let name := channelName a in
        if negb (IsValid name) then die ("Error: invalid channel name " +:+ name)
        else
          let base := stripManifest (trim_slashes (trim_space b)) in
          let* store := loadOrExit in
          saveOrExit (with_source store name base);;
          println ("Set source for channel " +:+ name +:+ ": " +:+ base)
    | _ => die "Error: 'sources set' requires <name> <url>"
    end).

Definition removeClientSource (args : list string) : cmd unit :=
  let* p := parsePermuted [] args in
  unlessHelp p (fun _ rest =>
    match rest with
    | [] => die "Error: 'sources remove' requires <name>"
    | a :: _ =>
        let name := channelName a in
        let* store := loadOrExit in
        let u := cs_Update store in
        match uc_Sources u !! name with
        | None => die ("Error: no source entry for channel " +:+ name)
        | Some _ =>
            (if (name =s Normalize (uc_Channel u)) && negb (IsKnown name)
             then eprintln "Note: the removed channel is selected and has no baked-in default" else ret tt);;
            saveOrExit (with_update store (UpdateConfig (uc_Channel u) (delete name (uc_Sources u))));;
            println ("Removed source for channel " +:+ name)
        end
    end).

(** ** Listings *)

Definition builtIn : list string := [Dev; Beta; Stable].
Definition sourceRow (sources : gmap string string) (name : string) : printed :=
  Row [name; ResolveBase name sources;
       match sources !! name with
       | Some v => if v <>s "" then "(override)" else "(built-in default)"
       | None => "(built-in default)"
       end].
Definition listClientSources (args : list string) : cmd unit :=
  let* p := parseArgs [] args in
  unlessHelp p (fun _ _ =>
    let* store := loadOrExit in
    let sources := uc_Sources (cs_Update store) in
    let custom := filter (fun n => n ∉ builtIn) (map fst (range sources)) in
    emit (Row ["CHANNEL"; "BASE URL"]);;
    each (fun n => emit (sourceRow sources n)) builtIn;;
    each (fun n => emit (Row [n; default "" (sources !! n); "(custom)"])) (insertionSort custom)).

Definition updateState (current channel latest : string) : string :=
  if ShouldOfferUpdate current channel latest then "update available"
  else if (latest <>s current) && (current <>s "dev") then "ahead of channel HEAD" else "up to date".

Definition showClientChannel (args : list string) : cmd unit :=
  let* p := parsePermuted [] args in
  unlessHelp p (fun _ _ =>
    let* cb := loadClientChannel in
    println ("  channel:         " +:+ fst cb);;
    println ("  manifest:        " +:+ ManifestURL (snd cb) (fst cb));;
    println ("  current version: " +:+ ue_version env);;
    match manifestOf (snd cb) (fst cb) with
    | None => println "  latest version:  unavailable"
    | Some m => println ("  latest version:  " +:+ mf_Version m +:+ "  (" +:+
                         updateState (ue_version env) (mf_Channel m) (mf_Version m) +:+ ")")
    end).

Definition showChannelManifest (args : list string) : cmd unit :=
  let* p := parsePermuted [("channel", false)] args in
  unlessHelp p (fun vals _ =>
    let* cb := resolveChannel (string_value vals "channel") in
    match manifestOf (snd cb) (fst cb) with
    | None => die ("Error: fetch " +:+ fst cb +:+ " manifest")
    | Some m =>
        println ("Channel:     " +:+ mf_Channel m);;
        println ("Version:     " +:+ mf_Version m);;
        println ("Tag:         " +:+ mf_Tag m);;
        println ("Published:   " +:+ FormatRFC3339 (mf_PublishedAt m));;
        println ("Source:      " +:+ ManifestURL (snd cb) (fst cb));;
        println "";;
        println "Binaries:";;
        each (fun n => match mf_Binaries m !! n with
                       | Some b => emit (Row [n; Itoa (Channel.Size b); "sha256:" +:+ SHA256 b])
                       | None => ret tt
                       end) (insertionSort (map fst (range (mf_Binaries m))))
    end).

(** ** Downloads *)

(** A relative path is one of the working directory. *)
Definition inCwd (path : string) : string :=
  if has_prefix path "/" then path else ue_cwd env +:+ "/" +:+ path.

(** The latest state of an installation is the disk from then on. *)
Definition install (force : bool) (path pre : string) (data : list Z) (readFails : bool) (entry : BinaryEntry)
    : cmd bool := fun s =>
  let '(ok, trace) := installDownload (ue_file env) force (cl_fs s) path pre data readFails entry in
  (Done ok, withDisk (default (cl_fs s) (head trace)) s).

Definition pathExists (path : string) : cmd bool := fun s =>
  (Done (match Stat (cl_fs s) path with SInfo _ => true | _ => false end), s).

(** From the request to the file in place. *)
Definition fetchInto (force : bool) (url path pre : string) (entry : BinaryEntry) : cmd unit :=
  match ue_download env url with
  | None => die "Error: download"
  | Some (code, data, readFails) =>
      if negb (code =? 200)%Z then die ("Error: download returned HTTP " +:+ Itoa code)
      else
        let* ok := install force path pre data readFails entry in
        if ok then ret tt else die "Error: install"
  end.

Definition downloadChannelBinary (args : list string) : cmd unit :=
  let* p := parsePermuted [("channel", false); ("o", false); ("force", true)] args in
  unlessHelp p (fun vals rest =>
    match rest with
    | [] => die "Error: 'download' requires a binary name (e.g. telad-linux-amd64)"
    | binaryName :: _ =>
        let* cb := resolveChannel (string_value vals "channel") in
        match manifestOf (snd cb) (fst cb) with
        | None => die ("Error: fetch " +:+ fst cb +:+ " manifest")
        | Some m =>
            match mf_Binaries m !! binaryName with
            | None => die ("Error: manifest has no binary named " +:+ binaryName)
            | Some entry =>
                let out := string_value vals "o" in
                let dest := if out =s "" then binaryName else out in
                let force := bool_value vals "force" in
                let* there := pathExists (inCwd dest) in
                if there && negb force then die ("Error: " +:+ dest +:+ " already exists (use -force to overwrite)")
                else
                  println ("Channel:   " +:+ mf_Channel m);;
                  println ("Version:   " +:+ mf_Version m);;
                  println ("Source:    " +:+ BinaryURL (Some m) binaryName);;
                  println ("Size:      " +:+ Itoa (Channel.Size entry) +:+ " bytes");;
                  println ("Expected:  sha256:" +:+ SHA256 entry);;
                  println "";;
                  fetchInto force (BinaryURL (Some m) binaryName) (inCwd dest) ".tela-download-" entry;;
                  println ("OK: " +:+ mf_Version m +:+ " downloaded to " +:+ dest +:+ " (sha256 verified)")
            end
        end
    end).

Definition clientChannelSources (args : list string) : cmd unit :=
  match args with
  | a :: rest =>
      if has_prefix a "-" then listClientSources args
      else if a =s "list" then listClientSources rest
      else if a =s "set" then setClientSource rest
      else if a =s "remove" then removeClientSource rest
      else die ("Unknown sources command: " +:+ a)
  | [] => listClientSources args
  end.

Definition cmdChannel (args : list string) : cmd unit :=
  match args with
  | a :: rest =>
      if has_prefix a "-" then showClientChannel args
      else if a =s "set" then setClientChannel rest
      else if a =s "show" then showChannelManifest rest
      else if a =s "download" then downloadChannelBinary rest
      else if a =s "sources" then clientChannelSources rest
      else die ("Unknown channel command: " +:+ a)
  | [] => showClientChannel args
  end.

(** ** tela update *)

(** The override, the stored preference, the channel of the running version, or the default. *)
Definition updateChannel (store : option CredStore) (override : string) : string * string :=
  let cur := channelOf store in
  let unset := match store with Some s => uc_Channel (cs_Update s) =s "" | None => true end in
  let inferred := InferFromVersion (ue_version env) in
  let cur := if unset && (inferred <>s "") then (inferred, ResolveBase inferred (sourcesOf store)) else cur in
  if override <>s "" then (Normalize override, ResolveBase (Normalize override) (sourcesOf store)) else cur.

(** Backwards on the channel of the running version. *)
Definition refusesDowngrade (m : Manifest) : bool :=
  (ue_version env <>s "dev") && negb (IsCrossChannel (ue_version env) (mf_Channel m)) &&
  negb (IsNewer (mf_Version m) (ue_version env)).

Definition binaryName : string := "tela-" +:+ ue_platform env.

Definition cmdUpdate (args : list string) : cmd unit :=
  let* p := parseArgs [("channel", false); ("dry-run", true)] args in
  unlessHelp p (fun vals rest =>
    match rest with
    | a :: _ => die ("Error: unexpected argument " +:+ a)
    | [] =>
        let* store := loadStore in
        let override := string_value vals "channel" in
        let '(ch, base) := updateChannel store override in
        if (override <>s "") && negb (IsValid ch) then die ("Error: invalid channel " +:+ override)
        else if base =s "" then die ("Error: channel " +:+ ch +:+ " has no source URL")
        else match manifestOf base ch with
        | None => die ("Error: fetch " +:+ ch +:+ " manifest")
        | Some m =>
            match mf_Binaries m !! binaryName with
            | None => die ("Error: manifest has no binary named " +:+ binaryName)
            | Some entry =>
                println ("Channel:  " +:+ mf_Channel m);;
                println ("Current:  " +:+ ue_version env);;
                println ("Latest:   " +:+ mf_Version m);;
                if (mf_Version m =s ue_version env) && (ue_version env <>s "dev") then println "Already up to date."
                else if refusesDowngrade m then die "Error: tela update refuses same-channel downgrades"
                else if bool_value vals "dry-run" then println ("Dry run: would download " +:+ binaryName)
                else match ue_exe env with
                | None => die "Error: cannot find executable path"
                | Some exe =>
                    println ("Source:   " +:+ BinaryURL (Some m) binaryName);;
                    println ("Size:     " +:+ Itoa (Channel.Size entry) +:+ " bytes");;
                    println ("Expected: sha256:" +:+ SHA256 entry);;
                    fetchInto false (BinaryURL (Some m) binaryName) exe ".tela-update-" entry;;
                    println ("OK: tela updated to " +:+ mf_Version m)
                end
            end
        end
    end).

End commands.
