(* ===== verification/ClientUpdateProofs.v ===== *)
(** * Theorems about the client's channel and its update ([ClientUpdate])

    A command is a function of the disk here: [Wp c fs P] says what it ends with and which disk it
    leaves.  With it: what the settings commands change, what an update may install, and an update of
    the client from a channel a hub hosts. *)

From S2P Require Import Prelude Flags FilePath FileSys HubConfig Http AdminState Timestamp Sha256 Channel Credstore.
From S2P Require Import PortalFile ClientAdmin ClientUpdate.
From S2P Require AdminUpdate.
From Stdlib Require Import ZArith Lia Ascii String.
From stdpp Require Import base gmap strings list.

(** ** Commands as functions of the disk *)

Create HintDb tela_wp discriminated.

Section wp.
Abbreviation cmd := (ClientAdmin.cmd (W := unit)).

Definition Wp {A : Type} (c : cmd A) (fs : fsys) (P : outcome A -> fsys -> Prop) : Prop :=
  forall s, cl_fs s = fs -> P (fst (c s)) (cl_fs (snd (c s))).

Lemma wp_ret {A : Type} (a : A) (fs : fsys) (P : outcome A -> fsys -> Prop) : P (Done a) fs -> Wp (ret a) fs P.
Proof. by intros HP s <-. Qed.

Lemma wp_bind {A B : Type} (c : cmd A) (k : A -> cmd B) (fs : fsys) (P : outcome B -> fsys -> Prop) :
  Wp c fs (fun o fs1 => match o with Done a => Wp (k a) fs1 P | Exit n => P (Exit n) fs1 end) ->
  Wp (bind c k) fs P.
Proof.
  intros Hc s Hs. specialize (Hc s Hs). unfold bind. destruct (c s) as [[a|n] s1]; [by apply Hc|done].
Qed.

Lemma wp_mono {A : Type} (c : cmd A) (fs : fsys) (P Q : outcome A -> fsys -> Prop) :
  Wp c fs P -> (forall o fs', P o fs' -> Q o fs') -> Wp c fs Q.
Proof. intros Hc HPQ s Hs. apply HPQ. by apply Hc. Qed.

Lemma wp_exit {A : Type} (n : Z) (fs : fsys) (P : outcome A -> fsys -> Prop) : P (Exit n) fs -> Wp (exit n) fs P.
Proof. by intros HP s <-. Qed.

Lemma wp_die {A : Type} (e : string) (fs : fsys) (P : outcome A -> fsys -> Prop) : P (Exit 1%Z) fs -> Wp (die e) fs P.
Proof. by intros HP s <-. Qed.

Lemma wp_emit (p : printed) (fs : fsys) (P : outcome unit -> fsys -> Prop) : P (Done tt) fs -> Wp (emit p) fs P.
Proof. by intros HP s <-. Qed.

Lemma wp_eprintln (e : string) (fs : fsys) (P : outcome unit -> fsys -> Prop) : P (Done tt) fs -> Wp (eprintln e) fs P.
Proof. by intros HP s <-. Qed.

(** Printing a line and going on. *)
Lemma wp_then {B : Type} (e : string) (k : cmd B) (fs : fsys) (P : outcome B -> fsys -> Prop) : Wp k fs P -> Wp (bind (println e) (fun _ => k)) fs P.
Proof. intros Hk. apply wp_bind, wp_emit. exact Hk. Qed.

Lemma wp_each {A : Type} (f : A -> cmd unit) (l : list A) (fs : fsys) (P : outcome unit -> fsys -> Prop) :
  (forall a : A, Wp (f a) fs (fun o fs' => o = Done tt /\ fs' = fs)) -> P (Done tt) fs -> Wp (each f l) fs P.
Proof.
  intros Hf HP. induction l as [|a l IH]; [by apply wp_ret|]. cbn [each]. apply wp_bind.
  eapply wp_mono; [apply Hf|]. by intros ? ? [-> ->].
Qed.

End wp.

(** ** A download put into place *)

Section install.
  Context (ds : ppath) (f : string) (env : fileEnv) (pre : string).

(** The bytes have the size and the digest an entry of a manifest names. *)
Definition verified (entry : BinaryEntry) (data : list Z) : Prop :=
  Z.of_nat (length data) = Channel.Size entry /\ hex_decode (bytes (SHA256 entry)) = Some (sha256 data).

(** Without [force], every state a crash could leave has the file as it was, or the download was
    accepted and in the last state the file is the download. *)
Lemma installDownload_states (fs : fsys) (data : list Z) (fails : bool) (entry : BinaryEntry) :
  ready ds f env pre fs ->
  match installDownload env false fs (abs (ds ++ [f])) pre data fails entry with
  | (false, tr) => tr <> [] /\ Forall (but_temp ds f env pre fs) tr
  | (true, tr) => exists fs' tr', fst (VerifyReader data fails (SHA256 entry) (Channel.Size entry)) = None /\
      tr = fs' :: tr' /\ replaced ds f env pre data fs fs' /\ Forall (but_temp ds f env pre fs) tr'
  end.
Proof.
  intros Hr. pose proof Hr as [Hgf Hgt Hne [Hd Hs] Hts].
  assert (but_temp ds f env pre fs fs) as H0 by (by split_and!).
  unfold installDownload. rewrite Dir_abs_snoc by done.
  destruct (fe_fault env "createtemp"); [by states|]. fold (temp_name env pre).
  rewrite (CreateTemp_child ds (temp_name env pre) Hgt) by done.
  destruct (fs !! (ds ++ [temp_name env pre])) as [n|]; [by states|].
  assert (forall x, but_temp ds f env pre fs
    (WriteOpen (<[ds ++ [temp_name env pre] := NFile []]> fs) (ds ++ [temp_name env pre]) x)) as Hw.
  { intros x. unfold WriteOpen. by apply but_temp_insert, but_temp_insert. }
  pose proof (but_temp_insert ds f env pre _ _ [] Hne H0) as H1.
  assert (forall x, but_temp ds f env pre fs (dropTmp env (WriteOpen (<[ds ++ [temp_name env pre] := NFile []]> fs)
    (ds ++ [temp_name env pre]) x) (abs (ds ++ [temp_name env pre])))) as Hx.
  { intros x. apply but_temp_drop; try done. apply Hw. }
  destruct (fe_fault env "write"); [states; apply Hw || apply Hx|].
  destruct (VerifyReader data fails _ _) as [[e|] w] eqn:Hv; [states; apply Hw || apply Hx|].
  destruct (fe_fault env "rename"); [states; apply Hw || apply Hx|].
  destruct (swap_replaces ds f env pre fs data Hr) as (fs' & -> & Hrep).
  exists fs'. eexists. split_and!; [done|done|done|all_states; apply Hw].
Qed.

(** Without a fault an accepted download is put into place. *)
Lemma installDownload_works (fs : fsys) (data : list Z) (entry : BinaryEntry) (force : bool) :
  ready ds f env pre fs -> (forall call, fe_fault env call = false) -> fs !! (ds ++ [temp_name env pre]) = None ->
  fst (VerifyReader data false (SHA256 entry) (Channel.Size entry)) = None ->
  exists fs' tr, installDownload env force fs (abs (ds ++ [f])) pre data false entry = (true, fs' :: tr) /\
    replaced ds f env pre data fs fs'.
Proof.
  intros Hr Hnf Hfree Hv. pose proof Hr as [Hgf Hgt Hne [Hd Hs] Hts].
  unfold installDownload. rewrite Dir_abs_snoc by done. rewrite !Hnf. fold (temp_name env pre).
  rewrite (CreateTemp_child ds (temp_name env pre) Hgt) by done. rewrite Hfree.
  destruct (VerifyReader data false _ _) as [[e|] w]; [done|].
  destruct (swap_replaces ds f env pre fs data Hr) as (fs' & -> & Hrep). by eexists _, _.
Qed.

End install.

(** ** What an update may install *)

Section update.
  Context {CC : CredCodec} `{RangeOrder} (env : updEnv).

Lemma manifestOf_fetch base ch : manifestOf env base ch = fetch (ue_net env) (ManifestURL base ch).
Proof. unfold manifestOf, Channel.Get, GetURL. cbn. by destruct (fetch _ _). Qed.

Lemma wp_parseArgs (extra : flagSet) (args : list string) (fs : fsys) (k : option (flagValues * list string) -> cmd unit)
    (P : outcome unit -> fsys -> Prop) :
  (forall code, P (Exit code) fs) ->
  (forall vals rest, Flags.Parse (withHelp extra) ∅ args = ParseOk vals rest -> Wp (k (Some (vals, rest))) fs P) ->
  (forall vals rest, Flags.Parse (withHelp extra) ∅ args = ParseOk vals rest ->
     existsb (bool_value vals) ["h"; "?"; "help"] = true -> Wp (k None) fs P) ->
  Wp (bind (parseArgs extra args) k) fs P.
Proof.
  intros HP Hs Hn. apply wp_bind. unfold parseArgs.
  destruct (Flags.Parse _ _ _) as [| |vals rest] eqn:E; [apply wp_exit, HP..|].
  destruct (bool_value vals "h" || bool_value vals "?" || bool_value vals "help") eqn:Hh; apply wp_ret; [|by apply Hs].
  eapply Hn; [done|]. cbn [existsb]. by rewrite orb_false_r, orb_assoc.
Qed.

Lemma wp_loadStore {B : Type} (k : option CredStore -> cmd B) (fs : fsys) (P : outcome B -> fsys -> Prop) :
  Wp (k (Load fs (ue_credPath env))) fs P -> Wp (bind (loadStore env) k) fs P.
Proof. intros Hk. apply wp_bind. intros s <-. exact Hk. Qed.

Lemma wp_loadOrExit {B : Type} (k : CredStore -> cmd B) (fs : fsys) (P : outcome B -> fsys -> Prop) :
  (Load fs (ue_credPath env) = None -> P (Exit 1%Z) fs) ->
  (forall store, Load fs (ue_credPath env) = Some store -> Wp (k store) fs P) ->
  Wp (bind (loadOrExit env) k) fs P.
Proof.
  intros Hn Hk. apply wp_bind. unfold loadOrExit. apply wp_loadStore.
  destruct (Load fs _) as [store|]; [by apply wp_ret, Hk|by apply wp_die, Hn].
Qed.

(** A download put into place, or not, with its four states. *)
Lemma wp_fetchInto (ds : ppath) (f pre url : string) (entry : BinaryEntry) (fs : fsys) (k : cmd unit) (P : outcome unit -> fsys -> Prop) :
  ready ds f (ue_file env) pre fs ->
  (forall fs' code, but_temp ds f (ue_file env) pre fs fs' -> P (Exit code) fs') ->
  (forall data fails fs', ue_download env url = Some (200%Z, data, fails) ->
     fst (VerifyReader data fails (SHA256 entry) (Channel.Size entry)) = None ->
     replaced ds f (ue_file env) pre data fs fs' -> Wp k fs' P) ->
  Wp (bind (fetchInto env false url (abs (ds ++ [f])) pre entry) (fun _ => k)) fs P.
Proof.
  intros Hr HP Hk. assert (but_temp ds f (ue_file env) pre fs fs) as H0 by (destruct Hr as [? ? ? [? ?] ?]; by split_and!).
  apply wp_bind. unfold fetchInto.
  destruct (ue_download env url) as [[[code data] fails]|]; [|by apply wp_die, HP].
  destruct (Z.eqb_spec code 200) as [->|]; cbn [negb]; [|by apply wp_die, HP].
  apply wp_bind. intros s <-. unfold install.
  pose proof (installDownload_states ds f (ue_file env) pre (cl_fs s) data fails entry Hr) as Hst.
  destruct (installDownload _ _ _ _ _ _ _ _) as [[] tr]; cbn.
  - destruct Hst as (fs' & tr' & Hv & -> & Hrep & _). cbn. apply wp_ret. by eapply Hk.
  - destruct Hst as [Hne Hall]. destruct tr as [|fs' tr]; [done|]. cbn. apply wp_die, HP. by inversion Hall.
Qed.

(** Why an update ends well with nothing installed: help was asked for, it was a dry run, or the
    channel offers the running version. *)
Definition nothing_to_do (args : list string) : Prop :=
  exists vals rest, Flags.Parse (withHelp [("channel", false); ("dry-run", true)]) ∅ args = ParseOk vals rest /\
    (existsb (bool_value vals) ["h"; "?"; "help"; "dry-run"] = true \/
     exists base ch m, fetch (ue_net env) (ManifestURL base ch) = Some m /\ mf_Version m = ue_version env).

(** What an update ends with, from a disk to a disk: the binary [ds]/[f] as it was, or the download
    [data] of the manifest of the channel in effect in its place. *)
Definition update_outcome (args : list string) (ds : ppath) (f : string) (fs : fsys) (o : outcome unit) (fs' : fsys) : Prop :=
  (but_temp ds f (ue_file env) ".tela-update-" fs fs' /\ (o = Done tt -> nothing_to_do args)) \/
  (o = Done tt /\ exists vals m entry data,
     let '(ch, base) := updateChannel env (Load fs (ue_credPath env)) (string_value vals "channel") in
     Flags.Parse (withHelp [("channel", false); ("dry-run", true)]) ∅ args = ParseOk vals [] /\
     bool_value vals "dry-run" = false /\ base <> "" /\
     fetch (ue_net env) (ManifestURL base ch) = Some m /\ Validate (Some m) = None /\
     mf_Binaries m !! binaryName env = Some entry /\
     ue_download env (BinaryURL (Some m) (binaryName env)) = Some (200%Z, data, false) /\ verified entry data /\
     (ue_version env <> "dev" -> mf_Version m <> ue_version env /\
        (IsCrossChannel (ue_version env) (mf_Channel m) = false -> IsNewer (mf_Version m) (ue_version env) = true)) /\
     replaced ds f (ue_file env) ".tela-update-" data fs fs').

Lemma wp_cmdUpdate (args : list string) (ds : ppath) (f : string) (fs : fsys) :
  ue_exe env = Some (abs (ds ++ [f])) -> ready ds f (ue_file env) ".tela-update-" fs ->
  Wp (cmdUpdate env args) fs (update_outcome args ds f fs).
Proof.
  intros Hexe Hr. unfold cmdUpdate.
  assert (but_temp ds f (ue_file env) ".tela-update-" fs fs) as H0 by (destruct Hr as [? ? ? [? ?] ?]; by split_and!).
  apply wp_parseArgs; [intros code; by left| |].
  2:{ intros vals rest Hp Hh. apply wp_eprintln. left. split; [done|]. intros _. exists vals, rest. split; [done|]. left.
      cbn [existsb] in Hh |- *. rewrite !orb_true_iff in *. tauto. }
  intros vals [|a rest] Hp; [|apply wp_die; by left]. cbn [unlessHelp]. apply wp_loadStore.
  assert (forall n, (but_temp ds f (ue_file env) ".tela-update-" fs fs /\ (@Exit unit n = Done tt -> nothing_to_do args))) as Hex
    by done.
  destruct (updateChannel env _ _) as [ch base] eqn:Hch.
  destruct (_ && negb (IsValid ch)); [apply wp_die; by left|].
  case_bool_decide as Hbase; [apply wp_die; by left|]. rewrite manifestOf_fetch.
  destruct (fetch (ue_net env) (ManifestURL base ch)) as [m|] eqn:Hf; [|apply wp_die; by left].
  destruct (mf_Binaries m !! binaryName env) as [entry|] eqn:He; [|apply wp_die; by left].
  do 3 apply wp_then.
  destruct ((mf_Version m =s ue_version env) && (ue_version env <>s "dev")) eqn:Hcur.
  { apply wp_emit. left. split; [done|]. intros _. exists vals, []. split; [done|]. right.
    exists base, ch, m. prop_bool. tauto. }
  destruct (refusesDowngrade env m) eqn:Hdown; [apply wp_die; by left|].
  destruct (bool_value vals "dry-run") eqn:Hdry.
  { apply wp_emit. left. split; [done|]. intros _. exists vals, []. split; [done|]. left.
    cbn [existsb]. rewrite Hdry. by rewrite !orb_true_r. }
  rewrite Hexe. do 3 apply wp_then. apply wp_fetchInto with (ds := ds) (f := f); [done| |].
  { intros fs' code Hb. by left. }
  intros data fails fs' Hd Hv Hrep. apply wp_emit. right. split; [done|]. exists vals, m, entry, data. rewrite Hch.
  destruct (VerifyReader_ok m (binaryName env) entry data fails (fetch_valid _ _ _ Hf) He) as [Hacc _].
  destruct (proj1 Hacc Hv) as (-> & Hl & Hsha). pose proof (fetch_valid _ _ _ Hf) as Hval.
  split_and!; try done. intros Hdev. unfold refusesDowngrade in Hdown.
  rewrite (bool_decide_false (ue_version env = "dev")) in Hcur, Hdown by done. cbn [negb] in Hcur, Hdown. rewrite andb_true_r in Hcur.
  split; [by apply bool_decide_eq_false in Hcur|]. intros Hx. rewrite Hx in Hdown. by destruct (IsNewer _ _).
Qed.

(** C18. What [tela update] may do to the running binary.  Whatever the network answers and whatever call
    fails, the binary is as it was, and the command ends well only when there was nothing to do; or it
    is the download of the manifest that the channel in effect serves now, with the size and the SHA-256
    listed, of a version other than the running one, and on the channel of the running version a newer
    one. *)
Theorem update_installs_verified (args : list string) (ds : ppath) (f : string) (s : cli (W := unit)) :
  ue_exe env = Some (abs (ds ++ [f])) -> ready ds f (ue_file env) ".tela-update-" (cl_fs s) ->
  update_outcome args ds f (cl_fs s) (fst (cmdUpdate env args s)) (cl_fs (snd (cmdUpdate env args s))).
Proof. intros Hexe Hr. by apply wp_cmdUpdate. Qed.

End update.

(** ** What the settings commands change *)

Section settings.
  Context {CC : CredCodec} `{RangeOrder} (env : updEnv) (ds : ppath) (f : string).
  Context (Hpath : ue_credPath env = abs (ds ++ [f])) (Hgood : good_elems (ds ++ [f])).

Definition parsed_as (extra : flagSet) (args : list string) (vals : flagValues) (rest : list string) : Prop :=
  Flags.Parse (withHelp extra) ∅ (permuteArgs (withHelp extra) args) = ParseOk vals rest.

(** The settings after a command, from the settings before it. *)
Inductive setting : list string -> updateConfig -> updateConfig -> Prop :=
  | set_channel args vals n rest u :
      parsed_as [("manifest-base", false)] args vals (n :: rest) -> IsValid (channelName n) = true ->
      string_value vals "manifest-base" = "" ->
      setting ("set" :: args) u (UpdateConfig (channelName n) (uc_Sources u))
  | set_channel_base args vals n rest u :
      parsed_as [("manifest-base", false)] args vals (n :: rest) -> IsValid (channelName n) = true ->
      string_value vals "manifest-base" <> "" ->
      setting ("set" :: args) u (UpdateConfig (channelName n)
        (<[channelName n := stripManifest (trim_slashes (string_value vals "manifest-base"))]> (uc_Sources u)))
  | set_source args vals n b rest u :
      parsed_as [] args vals (n :: b :: rest) -> IsValid (channelName n) = true ->
      setting ("sources" :: "set" :: args) u (UpdateConfig (uc_Channel u)
        (<[channelName n := stripManifest (trim_slashes (trim_space b))]> (uc_Sources u)))
  | remove_source args vals n rest u :
      parsed_as [] args vals (n :: rest) -> is_Some (uc_Sources u !! channelName n) ->
      setting ("sources" :: "remove" :: args) u (UpdateConfig (uc_Channel u) (delete (channelName n) (uc_Sources u))).

(** Nothing is written, or a failing write spoils the file, or the settings are saved. *)
Definition settled (args : list string) (fs : fsys) (o : outcome unit) (fs' : fsys) : Prop :=
  fs' = fs \/ ((exists code, o = Exit code) /\ se_fault (ue_save env) "write" = true) \/
  (o = Done tt /\ exists store u d, Load fs (ue_credPath env) = Some store /\ setting args (cs_Update store) u /\
     Load fs' (ue_credPath env) = Some (with_update store u) /\ fs' = <[ds ++ [f] := NFile d]> fs).

Lemma wp_reads {A : Type} (c : cmd A) (fs : fsys) (args : list string) (k : A -> cmd unit) :
  Wp c fs (fun _ fs' => fs' = fs) -> (forall a, Wp (k a) fs (settled args fs)) -> Wp (bind c k) fs (settled args fs).
Proof.
  intros Hc Hk. apply wp_bind. eapply wp_mono; [exact Hc|]. intros [a|n] fs' ->; [apply Hk|by left].
Qed.

Lemma wp_parsePermuted (extra : flagSet) (args full : list string) (fs : fsys) (k : option (flagValues * list string) -> cmd unit) :
  (forall vals rest, parsed_as extra args vals rest -> Wp (k (Some (vals, rest))) fs (settled full fs)) ->
  Wp (k None) fs (settled full fs) -> Wp (bind (parsePermuted extra args) k) fs (settled full fs).
Proof. intros Hs Hn. apply wp_parseArgs; [by left|exact Hs|done]. Qed.

Lemma wp_usage (full : list string) (fs : fsys) (k : flagValues -> list string -> cmd unit) :
  Wp (unlessHelp None k) fs (settled full fs).
Proof. apply wp_eprintln. by left. Qed.

(** Saving settings that follow from the old ones, and what is printed after. *)
Lemma wp_save (full : list string) (store store' : CredStore) (fs : fsys) (k : cmd unit) :
  disk_ok ds f fs -> Load fs (ue_credPath env) = Some store ->
  store' = with_update store (cs_Update store') -> setting full (cs_Update store) (cs_Update store') ->
  (forall fs', Wp k fs' (fun o fs'' => o = Done tt /\ fs'' = fs')) ->
  Wp (bind (saveOrExit env store') (fun _ => k)) fs (settled full fs).
Proof.
  intros [Hd Hs] Hl Hw Hset Hk. apply wp_bind. unfold saveOrExit. apply wp_bind. intros s <-. unfold saveStore.
  rewrite Hpath in Hl. unfold settled. rewrite Hpath.
  destruct (Save (ue_save env) (cl_fs s) store' (abs (ds ++ [f]))) as [[] fs'] eqn:E; cbn.
  - apply wp_ret. eapply wp_mono; [apply Hk|]. intros o fs'' [-> ->]. right; right. split; [done|].
    pose proof (Load_saved ds f Hgood _ _ _ _ Hd Hs E) as Hl'.
    destruct (Save_true ds f Hgood _ _ _ _ Hd Hs E) as (d & _ & E'). exists store, (cs_Update store'), d.
    by rewrite <- Hw.
  - apply wp_die. destruct (writeDoc_child _ _ _ _ _ _ _ Hgood Hd Hs E) as [[_ [->|Hf]]|[? _]]; [by left| |done].
    right; left. split; [by eexists|done].
Qed.

Lemma wp_setClientChannel (args : list string) (fs : fsys) :
  disk_ok ds f fs -> Wp (setClientChannel env args) fs (settled ("set" :: args) fs).
Proof.
  intros Hd. unfold setClientChannel. apply wp_parsePermuted; [|apply wp_usage].
  intros vals [|n rest] Hp; [apply wp_die; by left|]. cbn [unlessHelp].
  destruct (IsValid (channelName n)) eqn:Hv; [|apply wp_die; by left]. cbn [negb].
  apply wp_loadOrExit; [by left|]. intros store Hl.
  eapply wp_save; [done|done| | |].
  - by destruct (negb _).
  - case_bool_decide as Hb; cbn [negb];
      [exact (set_channel args vals n rest (cs_Update store) Hp Hv Hb)|exact (set_channel_base args vals n rest (cs_Update store) Hp Hv Hb)].
  - intros fs'. apply wp_then, wp_emit. done.
Qed.

Lemma wp_setClientSource (args : list string) (fs : fsys) :
  disk_ok ds f fs -> Wp (setClientSource env args) fs (settled ("sources" :: "set" :: args) fs).
Proof.
  intros Hd. unfold setClientSource. apply wp_parsePermuted; [|apply wp_usage].
  intros vals [|n [|b rest]] Hp; [apply wp_die; by left..|]. cbn [unlessHelp].
  destruct (IsValid (channelName n)) eqn:Hv; [|apply wp_die; by left]. cbn [negb].
  apply wp_loadOrExit; [by left|]. intros store Hl.
  eapply wp_save; [done|done|done|exact (set_source args vals n b rest (cs_Update store) Hp Hv)|]. intros fs'. by apply wp_emit.
Qed.

Lemma wp_removeClientSource (args : list string) (fs : fsys) :
  disk_ok ds f fs -> Wp (removeClientSource env args) fs (settled ("sources" :: "remove" :: args) fs).
Proof.
  intros Hd. unfold removeClientSource. apply wp_parsePermuted; [|apply wp_usage].
  intros vals [|n rest] Hp; [apply wp_die; by left|]. cbn [unlessHelp].
  apply wp_loadOrExit; [by left|]. intros store Hl.
  destruct (uc_Sources (cs_Update store) !! channelName n) as [b|] eqn:Hn; [|apply wp_die; by left].
  assert (forall fs', Wp (println ("Removed source for channel " +:+ channelName n)) fs' (fun o fs'' => o = Done tt /\ fs'' = fs'))
    as Hk by (intros fs'; by apply wp_emit).
  apply wp_bind. destruct (_ && _); [apply wp_eprintln|apply wp_ret];
    (eapply wp_save; [done|done|done|exact (remove_source args vals n rest (cs_Update store) Hp (ex_intro _ b Hn))|exact Hk]).
Qed.

Lemma wp_listClientSources (args full : list string) (fs : fsys) :
  Wp (listClientSources env args) fs (settled full fs).
Proof.
  unfold listClientSources. apply wp_parseArgs; [by left| |intros; apply wp_usage].
  intros vals rest _. cbn [unlessHelp]. apply wp_loadOrExit; [by left|]. intros store _.
  do 2 (apply wp_reads; [by (apply wp_emit) || (apply wp_each; [intros; by apply wp_emit|done])|intros _]).
  apply wp_each; [intros; by apply wp_emit|by left].
Qed.

Lemma wp_showClientChannel (args full : list string) (fs : fsys) :
  Wp (showClientChannel env args) fs (settled full fs).
Proof.
  unfold showClientChannel. apply wp_parsePermuted; [|apply wp_usage].
  intros vals rest _. cbn [unlessHelp]. apply wp_reads; [apply wp_loadStore; by apply wp_ret|]. intros cb.
  do 3 apply wp_then. destruct (manifestOf _ _ _); apply wp_emit; by left.
Qed.

Lemma wp_showChannelManifest (args full : list string) (fs : fsys) :
  Wp (showChannelManifest env args) fs (settled full fs).
Proof.
  unfold showChannelManifest. apply wp_parsePermuted; [|apply wp_usage].
  intros vals rest _. cbn [unlessHelp]. apply wp_reads.
  { unfold resolveChannel. apply wp_bind, wp_loadStore, wp_ret. by apply wp_ret. }
  intros cb. destruct (manifestOf _ _ _) as [m|]; [|apply wp_die; by left]. do 7 apply wp_then.
  apply wp_each; [|by left]. intros n. destruct (mf_Binaries m !! n); [by apply wp_emit|by apply wp_ret].
Qed.

(** What [tela channel] changes, except for a download.  A command either leaves every file as it was;
    or spoils the credential store when its write fails, and says so; or ends well having changed the
    settings in the one way its arguments ask for, with every token, identity and pin as it was. *)
Theorem channel_settings (args : list string) (s : cli (W := unit)) :
  disk_ok ds f (cl_fs s) -> head args <> Some "download" ->
  settled args (cl_fs s) (fst (cmdChannel env args s)) (cl_fs (snd (cmdChannel env args s))).
Proof.
  intros Hd Hdl. assert (Wp (cmdChannel env args) (cl_fs s) (settled args (cl_fs s))) as HW; [|by apply HW].
  destruct args as [|a args]; [apply wp_showClientChannel|]. cbn [cmdChannel].
  destruct (has_prefix a "-"); [apply wp_showClientChannel|].
  case_bool_decide as Ha; [subst a; by apply wp_setClientChannel|].
  destruct (a =s "show"); [apply wp_showChannelManifest|].
  destruct (a =s "download") eqn:E; [apply bool_decide_eq_true in E as ->; done|]. clear E.
  case_bool_decide as Hs; [|apply wp_die; by left]. subst a.
  destruct args as [|b args]; [apply wp_listClientSources|]. cbn [clientChannelSources].
  destruct (has_prefix b "-"); [apply wp_listClientSources|]. destruct (b =s "list"); [apply wp_listClientSources|].
  case_bool_decide as Hb; [subst b; by apply wp_setClientSource|].
  case_bool_decide as Hr; [subst b; by apply wp_removeClientSource|apply wp_die; by left].
Qed.

End settings.
