(* ===== verification/UpdateE2E.v ===== *)
(** * A client that updates itself from a channel a hub hosts

    [ChannelHost] at one end, [ClientUpdate] at the other: an administrator uploads a binary of the
    client to the hub and publishes its channel; a user selects that channel and updates.

    The last part evaluates a hub and a client. *)

From S2P Require Import Prelude Flags FilePath FileSys HubConfig Http AdminState Timestamp Sha256 Channel Credstore.
From S2P Require Import PortalFile ChannelHost ChannelHostProofs ClientAdmin ClientUpdate ClientUpdateProofs.
From S2P Require Import AdminTokens.
From Stdlib Require Import ZArith Lia Ascii String.
From stdpp Require Import base gmap strings list fin_maps.

(** ** The hub as the client's network: what a GET below its address [host] is answered with *)

Section network.
  Context {MC : ManifestCodec} (host : string) (st : hubState) (hfs : fsys).

Definition answerTo (url : string) : option hostReply :=
  if has_prefix url host then Some (handleChannels st hfs (ChannelHostProofs.get (trim_prefix url host))) else None.

(** The client reads at most a mebibyte of a manifest. *)
Definition manifestLimit : Z := 1048576.
Definition readManifest (d : list Z) : list Z :=
  if (Z.of_nat (length d) <=? manifestLimit)%Z then d else take (Z.to_nat manifestLimit) d.
Definition hubManifests : network := fun url =>
  match answerTo url with
  | Some (HsManifest d) => Some (200%Z, UnmarshalManifest (readManifest d))
  | Some (HsFile _ _) | Some (HsListing _ _) => Some (200%Z, None)
  | Some (HsError code _) => Some (code, None)
  | _ => None
  end.
Definition hubDownloads (url : string) : option (Z * list Z * bool) :=
  match answerTo url with
  | Some (HsManifest d) | Some (HsFile d _) => Some (200%Z, d, false)
  | Some (HsError code _) => Some (code, [], false)
  | _ => None
  end.

Lemma answerTo_host (path : string) :
  answerTo (host +:+ path) = Some (handleChannels st hfs (ChannelHostProofs.get path)).
Proof.
  unfold answerTo. rewrite (proj2 (has_prefix_iff _ _)) by (by eexists). by rewrite trim_prefix_app.
Qed.

End network.

(** The base URL of the channels of a hub. *)
Definition channelsAt (host : string) : string := host +:+ "/channels".

Lemma trim_channelsAt host : trim_slashes (channelsAt host) = channelsAt host.
Proof. unfold channelsAt. by apply trim_slashes_app. Qed.

Lemma strip_channelsAt host : stripManifest (channelsAt host) = channelsAt host.
Proof.
  unfold stripManifest. assert (has_suffix (channelsAt host) ".json" = false) as ->; [|done].
  apply not_true_is_false. intros (r & E)%has_suffix_iff. apply (f_equal (fun s => rev (bytes s))) in E.
  unfold channelsAt in E. rewrite !bytes_app, !rev_app_distr in E. discriminate E.
Qed.

Lemma with_slash_no (s t : string) : has_suffix (s +:+ t) "/" = false -> with_slash (s +:+ t) = s +:+ t +:+ "/".
Proof. intros E. unfold with_slash. rewrite E. by rewrite string_app_assoc. Qed.

Lemma manifest_url host c : IsValid c = true ->
  ManifestURL (channelsAt host) c = host +:+ "/channels/" +:+ c +:+ ".json".
Proof.
  intros Hc. unfold ManifestURL. rewrite bool_decide_false.
  2:{ unfold channelsAt. intros E. apply (f_equal (fun s => length (bytes s))) in E.
      rewrite bytes_app, length_app in E. cbn in E. lia. }
  rewrite Normalize_id by done. unfold channelsAt. rewrite with_slash_no.
  - by rewrite !string_app_assoc.
  - apply not_true_is_false. intros (r & E)%has_suffix_iff. apply (f_equal (fun s => rev (bytes s))) in E.
    rewrite !bytes_app, !rev_app_distr in E. discriminate E.
Qed.

(** ** Selecting a channel *)

Lemma no_dash c : has_prefix c "-" = false -> flag_like c = false /\ (c =s "--") = false.
Proof.
  intros Hc. split.
  - unfold flag_like. destruct (bytes c) as [|x [|y l]] eqn:E; [done..|].
    apply not_true_is_false. intros ->%Ascii.eqb_eq. unfold has_prefix in Hc. rewrite E in Hc. discriminate.
  - apply bool_decide_eq_false. intros ->. discriminate.
Qed.

Lemma channelName_valid c : IsValid c = true -> channelName c = c.
Proof. intros Hc. unfold channelName. by rewrite to_lower_valid, trim_space_valid. Qed.

Definition setFlags : flagSet := withHelp [("manifest-base", false)].

Lemma parse_set_args b c :
  has_prefix c "-" = false ->
  Flags.Parse setFlags ∅ (permuteArgs setFlags ["-manifest-base"; b; c]) = ParseOk {[ "manifest-base" := b ]} [c].
Proof.
  intros Hc. destruct (no_dash c Hc) as [Hl Hd]. unfold permuteArgs.
  assert (permute setFlags ["-manifest-base"; b; c] = (["-manifest-base"; b], [c])) as ->.
  { cbn [permute]. rewrite Hd, Hc. reflexivity. }
  cbn [app Parse]. rewrite Hl.
  assert (one_flag setFlags "-manifest-base" = FlagNeeds "manifest-base") as -> by (vm_compute; reflexivity).
  reflexivity.
Qed.

(** ** Another file written beside a file that is to be replaced *)

Lemma dir_at_insert_file (ds p : ppath) (fs : fsys) (d : list Z) :
  dir_at ds fs -> plain_slot p fs -> dir_at ds (<[p := NFile d]> fs).
Proof.
  intros Hd Hp q Hne Hq. specialize (Hd q Hne Hq). destruct (decide (p = q)) as [<-|Hpq]; [|by rewrite lookup_insert_ne].
  destruct Hp as [Hp|[x Hp]]; congruence.
Qed.

Lemma plain_slot_insert (p q : ppath) (fs : fsys) (d : list Z) :
  plain_slot q fs -> plain_slot q (<[p := NFile d]> fs).
Proof.
  intros Hq. destruct (decide (p = q)) as [<-|Hpq]; [apply plain_slot_file|].
  unfold plain_slot. by rewrite lookup_insert_ne.
Qed.

Lemma ready_insert (ds : ppath) (f : string) (env : fileEnv) (pre : string) (p : ppath) (fs : fsys) (d : list Z) :
  ready ds f env pre fs -> plain_slot p fs -> ready ds f env pre (<[p := NFile d]> fs).
Proof.
  intros [H1 H2 H3 [H4 H5] H6] Hp. split; try done; [|by apply plain_slot_insert].
  split; [by apply dir_at_insert_file|by apply plain_slot_insert].
Qed.

Section client.
  Context {CC : CredCodec} `{RangeOrder} (env : updEnv) (cds : ppath) (cf : string).
  Context (Hpath : ue_credPath env = abs (cds ++ [cf])) (Hgood : good_elems (cds ++ [cf])).
  Context (Hsaves : forall call, se_fault (ue_save env) call = false).

Lemma Save_works (store : CredStore) (fs : fsys) (d : list Z) :
  disk_ok cds cf fs -> MarshalCred store = Some d ->
  Save (ue_save env) fs store (ue_credPath env) = (true, <[cds ++ [cf] := NFile d]> fs).
Proof.
  intros [Hd Hs] Hm. unfold Save, writeDoc. rewrite Hpath, Dir_abs_snoc by done.
  rewrite MkdirAll_present by (done || by apply (good_dir cds cf)).
  by rewrite !Hsaves, Hm, WriteFile_child.
Qed.

(** Selecting channel [c] with its source. *)
Definition selected (store : CredStore) (c base : string) : CredStore := with_source (with_channel store c) c base.

Lemma wp_select (host c : string) (store : CredStore) (fs : fsys) (d : list Z) :
  IsValid c = true -> has_prefix c "-" = false -> disk_ok cds cf fs -> Load fs (ue_credPath env) = Some store ->
  MarshalCred (selected store c (channelsAt host)) = Some d ->
  Wp (cmdChannel env ["set"; "-manifest-base"; channelsAt host; c]) fs
     (fun o fs' => o = Done tt /\ fs' = <[cds ++ [cf] := NFile d]> fs).
Proof.
  intros Hc Hdash Hdisk Hload Hm. cbn [cmdChannel].
  change (has_prefix "set" "-") with false. change ("set" =s "set") with true. cbv iota.
  unfold setClientChannel, parsePermuted.
  apply wp_bind. unfold parseArgs. fold setFlags. rewrite parse_set_args by done.
  change (bool_value {[ "manifest-base" := channelsAt host ]} "h" ||
          bool_value {[ "manifest-base" := channelsAt host ]} "?" ||
          bool_value {[ "manifest-base" := channelsAt host ]} "help") with false.
  apply wp_ret. cbn [unlessHelp]. rewrite channelName_valid, Hc by done. cbn [negb].
  apply wp_loadOrExit; [congruence|]. intros store' E. rewrite Hload in E. injection E as <-.
  change (string_value {[ "manifest-base" := channelsAt host ]} "manifest-base") with (channelsAt host).
  rewrite (bool_decide_false (channelsAt host = "")).
  2:{ unfold channelsAt. intros E. apply (f_equal (fun s => length (bytes s))) in E.
      rewrite bytes_app, length_app in E. cbn in E. lia. }
  cbn [negb]. rewrite trim_channelsAt, strip_channelsAt. fold (selected store c (channelsAt host)).
  apply wp_bind. unfold saveOrExit. apply wp_bind. intros s Hs. unfold saveStore. rewrite Hs.
  rewrite (Save_works _ fs d) by done. cbn. apply wp_ret. apply wp_then, wp_emit. done.
Qed.

(** An update with the channel in effect offering another version, and nothing failing. *)
Lemma wp_update (ds : ppath) (f ch base : string) (m : Manifest) (entry : BinaryEntry) (data : list Z) (fs : fsys) :
  ue_exe env = Some (abs (ds ++ [f])) -> ready ds f (ue_file env) ".tela-update-" fs ->
  (forall call, fe_fault (ue_file env) call = false) ->
  fs !! (ds ++ [temp_name (ue_file env) ".tela-update-"]) = None ->
  updateChannel env (Load fs (ue_credPath env)) "" = (ch, base) -> base <> "" ->
  fetch (ue_net env) (ManifestURL base ch) = Some m -> mf_Binaries m !! binaryName env = Some entry ->
  ue_download env (BinaryURL (Some m) (binaryName env)) = Some (200%Z, data, false) ->
  fst (VerifyReader data false (SHA256 entry) (Channel.Size entry)) = None ->
  mf_Version m <> ue_version env -> refusesDowngrade env m = false ->
  Wp (cmdUpdate env []) fs (fun o fs' => o = Done tt /\ replaced ds f (ue_file env) ".tela-update-" data fs fs').
Proof.
  intros Hexe Hr Hnf Hfree Hch Hbase Hf He Hd Hv Hver Hdown. unfold cmdUpdate. apply wp_bind, wp_ret. cbn [unlessHelp].
  apply wp_loadStore. change (string_value ∅ "channel") with "". rewrite Hch. cbn [negb andb].
  change (negb ("" =s "")) with false. cbn [andb].
  rewrite (bool_decide_false (base = "")) by done. rewrite manifestOf_fetch, Hf, He. do 3 apply wp_then.
  rewrite (bool_decide_false (mf_Version m = _)) by done. cbn [andb]. rewrite Hdown.
  change (bool_value ∅ "dry-run") with false. cbv iota. rewrite Hexe. do 3 apply wp_then.
  apply wp_bind. unfold fetchInto. rewrite Hd. cbn [negb]. change (200 =? 200)%Z with true. cbn [negb].
  apply wp_bind. intros s <-. unfold install.
  destruct (installDownload_works ds f (ue_file env) ".tela-update-" (cl_fs s) data entry false Hr Hnf Hfree Hv)
    as (fs' & tr & -> & Hrep). cbn. apply wp_ret, wp_emit. done.
Qed.

End client.

(** ** From the upload to the running binary *)

(** A name that is no directory is on the way to a file only if it is that file. *)
Lemma slot_on_way (ds q : ppath) (f : string) (fs : fsys) :
  dir_at ds fs -> q <> [] -> plain_slot q fs -> q `prefix_of` ds ++ [f] -> q = ds ++ [f].
Proof.
  intros Hd Hq Hs [k E]. destruct k as [|x k _] using rev_ind; [by rewrite app_nil_r in E|].
  rewrite app_assoc in E. apply app_inj_tail in E as [E _].
  specialize (Hd q Hq (ex_intro _ k E)). destruct Hs as [Hs|[y Hs]]; congruence.
Qed.

(** A replaced file leaves another file, and the way to it. *)
Lemma replaced_beside (cds ds : ppath) (cf f : string) (env : fileEnv) (pre : string) (data : list Z) (fs fs' : fsys) :
  ready ds f env pre fs -> replaced ds f env pre data fs fs' -> disk_ok cds cf fs ->
  cds ++ [cf] <> ds ++ [f] -> cds ++ [cf] <> ds ++ [temp_name env pre] ->
  disk_ok cds cf fs' /\ fs' !! (cds ++ [cf]) = fs !! (cds ++ [cf]).
Proof.
  intros [_ _ _ [_ Hs] Ht] (_ & _ & _ & Ho) [Hd Hc] Hne Hnt.
  assert (forall q, q `prefix_of` cds ++ [cf] -> fs' !! q = fs !! q) as Hq.
  { intros q Hq. apply Ho; intros Hp; pose proof (PreOrder_Transitive _ _ _ Hp Hq) as Hw.
    - apply (slot_on_way cds _ cf fs Hd) in Hw; [congruence|by destruct ds|done].
    - apply (slot_on_way cds _ cf fs Hd) in Hw; [congruence|by destruct ds|done]. }
  split; [|by apply Hq]. split.
  - intros q Hqne Hp. rewrite Hq by (by apply prefix_app_r). by apply Hd.
  - unfold plain_slot. by rewrite Hq.
Qed.

Section hosted.
  Context {MC : ManifestCodec} {CC : CredCodec} `{RangeOrder}.
  (** The hub's state and data directory; the client's environment, the places of its credential store
      and of its binary. *)
  Context (st : hubState) (hds : ppath) (env : updEnv) (cds ds : ppath) (cf f : string).

(** The hub can take an upload of [n] to the channel [c] and publish it. *)
Record can_host (c n : string) (h : fsys) : Prop := {
  ch_ok : host_ok st hds c h;
  ch_file : plain_slot (filesAt hds c ++ [n]) h;
  ch_tmp : plain_slot (filesAt hds c ++ [n +:+ ".tmp"]) h;
  ch_manifest : plain_slot (hds ++ [c +:+ ".json"]) h
}.

(** The client can save its settings and replace its binary: the directories exist, the files are in
    different places, and no call fails. *)
Record can_update (fs : fsys) : Prop := {
  cu_cred : ue_credPath env = abs (cds ++ [cf]);
  cu_good : good_elems (cds ++ [cf]);
  cu_disk : disk_ok cds cf fs;
  cu_saves : forall call, se_fault (ue_save env) call = false;
  cu_exe : ue_exe env = Some (abs (ds ++ [f]));
  cu_ready : ready ds f (ue_file env) ".tela-update-" fs;
  cu_calls : forall call, fe_fault (ue_file env) call = false;
  cu_free : fs !! (ds ++ [temp_name (ue_file env) ".tela-update-"]) = None;
  cu_apart : cds ++ [cf] <> ds ++ [f];
  cu_apart_tmp : cds ++ [cf] <> ds ++ [temp_name (ue_file env) ".tela-update-"]
}.

Lemma updateChannel_selected (store : CredStore) (c base : string) :
  IsValid c = true -> base <> "" -> updateChannel env (Some (selected store c base)) "" = (c, base).
Proof.
  intros Hc Hb. unfold updateChannel. change (negb ("" =s "")) with false. cbv iota zeta. unfold selected.
  cbn [with_source with_channel with_update cs_Update uc_Channel channelOf uc_Sources].
  rewrite (bool_decide_false (c = "")) by (by intros ->). cbn [andb].
  rewrite Normalize_id by done. unfold ResolveBase. rewrite lookup_insert_eq. by rewrite bool_decide_false.
Qed.

Lemma channelsAt_ne host : channelsAt host <> "".
Proof.
  unfold channelsAt. intros E. apply (f_equal (fun s => length (bytes s))) in E.
  rewrite bytes_app, length_app in E. cbn in E. lia.
Qed.

Lemma binary_url host (m : Manifest) (n : string) :
  mf_DownloadBase m = downloadBaseOf (channelsAt host) (mf_Channel m) ->
  BinaryURL (Some m) n = host +:+ "/channels/files/" +:+ mf_Channel m +:+ "/" +:+ n.
Proof.
  intros E. unfold BinaryURL. rewrite E. unfold downloadBaseOf. rewrite trim_channelsAt. unfold channelsAt.
  rewrite bool_decide_false.
  2:{ intros E'. apply (f_equal (fun s => length (bytes s))) in E'. rewrite !bytes_app, !length_app in E'. cbn in E'. lia. }
  unfold with_slash. rewrite (proj2 (has_suffix_iff _ _)).
  - by rewrite !string_app_assoc.
  - exists (host +:+ "/channels/files/" +:+ mf_Channel m). by rewrite !string_app_assoc.
Qed.

(** C40. A client follows a channel that a hub hosts.  An administrator uploads the binary of the client's
    platform to a channel of the hub and publishes the channel under the hub's address; then a user's
    [tela channel set] with that address and [tela update] both succeed, and the running binary is,
    byte for byte, the one uploaded - unless the running version is the published one or, on the same
    channel, newer - while the credentials stay what they were.  The manifest is within the mebibyte that is
    read of one. *)
Theorem hosted_channel_update env1 env2 he fault h0 h1 h2 r1 r2 size path mpath host m store d (s : cli (W := unit)) :
  let c := mf_Channel m in let n := binaryName env in
  IsValid c = true -> has_prefix c "-" = false ->
  can_host c n h0 -> r_Path r1 = "/api/admin/channels/files/" +:+ c +:+ "/" +:+ n ->
  handleAdminChannelsFiles env1 st he h0 r1 = (HsUploaded c n size path, h1) ->
  handleAdminChannelsPublish env2 fault st h1 r2 = (HsPublished m mpath, h2) ->
  mf_DownloadBase m = downloadBaseOf (channelsAt host) c ->
  (forall dm, handleChannels st h2 (ChannelHostProofs.get ("/channels/" +:+ c +:+ ".json")) = HsManifest dm ->
   (Z.of_nat (length dm) <= manifestLimit)%Z) ->
  ue_net env = hubManifests host st h2 -> ue_download env = hubDownloads host st h2 ->
  can_update (cl_fs s) -> Load (cl_fs s) (ue_credPath env) = Some store ->
  MarshalCred (selected store c (channelsAt host)) = Some d ->
  mf_Version m <> ue_version env -> refusesDowngrade env m = false ->
  let '(o1, s1) := cmdChannel env ["set"; "-manifest-base"; channelsAt host; c] s in
  let '(o2, s2) := cmdUpdate env [] s1 in
  o1 = Done tt /\ o2 = Done tt /\ cl_fs s2 !! (ds ++ [f]) = Some (NFile (he_body he)) /\
  exists store', Load (cl_fs s2) (ue_credPath env) = Some store' /\ cs_Hubs store' = cs_Hubs store.
Proof.
  intros c n Hc Hdash [Hho Hf1 Hf2 Hf3] Hpath Hup Hpub Hbase Hsize Hnet Hdl [Hcp Hg Hdisk Hsv Hexe Hr Hnf Hfree Hap Hat] Hload Hm Hver Hdown.
  assert (n <> "index.html") as Hidx by (unfold n, binaryName; intros E; by inversion E).
  destruct (published_binary_accepted env1 env2 st he fault hds h0 h1 h2 r1 r2 n size path m mpath Hc Hho Hf1 Hf2 Hf3 Hidx
    Hpath Hup Hpub) as (Hval & (dm & Hman & Hum) & Hserve & _ & entry & He & Hv).
  fold c in Hman, Hserve. specialize (Hsize _ Hman).
  pose proof (wp_select env cds cf Hcp Hg Hsv host c store (cl_fs s) d Hc Hdash Hdisk Hload Hm s eq_refl) as [Ho1 Hs1].
  destruct (cmdChannel env _ s) as [o1 s1]. cbn [fst snd] in Ho1, Hs1.
  assert (Load (cl_fs s1) (ue_credPath env) = Some (selected store c (channelsAt host))) as Hl1.
  { rewrite Hs1, Hcp, Load_child; [|done|apply dir_at_insert, Hdisk|apply plain_slot_file].
    rewrite lookup_insert_eq. by apply unmarshal_cred. }
  assert (ready ds f (ue_file env) ".tela-update-" (cl_fs s1)) as Hr1 by (rewrite Hs1; apply ready_insert; [done|apply Hdisk]).
  assert (disk_ok cds cf (cl_fs s1)) as Hdisk1.
  { rewrite Hs1. destruct Hdisk. split; [by apply dir_at_insert|apply plain_slot_file]. }
  assert (cl_fs s1 !! (ds ++ [temp_name (ue_file env) ".tela-update-"]) = None) as Hfree1 by (by rewrite Hs1, lookup_insert_ne).
  assert (updateChannel env (Load (cl_fs s1) (ue_credPath env)) "" = (c, channelsAt host)) as Hch.
  { rewrite Hl1. apply updateChannel_selected; [done|apply channelsAt_ne]. }
  assert (fetch (ue_net env) (ManifestURL (channelsAt host) c) = Some m) as Hfetch.
  { rewrite Hnet. unfold fetch, hubManifests. rewrite manifest_url, answerTo_host by done. rewrite Hman.
    unfold readManifest. rewrite (proj2 (Z.leb_le _ _) Hsize), Hum.
    change (200 =? 200)%Z with true. cbn [negb]. by rewrite Hval. }
  assert (ue_download env (BinaryURL (Some m) n) = Some (200%Z, he_body he, false)) as Hdown'.
  { rewrite Hdl. unfold hubDownloads. rewrite (binary_url host) by done. fold c. rewrite answerTo_host. by rewrite Hserve. }
  pose proof (wp_update env ds f c (channelsAt host) m entry (he_body he) (cl_fs s1) Hexe Hr1 Hnf Hfree1 Hch (channelsAt_ne host)
    Hfetch He Hdown' (f_equal fst Hv) Hver Hdown s1 eq_refl) as [Ho2 Hrep].
  destruct (cmdUpdate env [] s1) as [o2 s2]. cbn [fst snd] in Ho2, Hrep.
  split; [done|]. split; [done|]. split; [apply Hrep|]. exists (selected store c (channelsAt host)). split; [|done].
  destruct (replaced_beside cds ds cf f (ue_file env) _ _ _ _ Hr1 Hrep Hdisk1 Hap Hat) as [[Hd2 Hs2] E].
  rewrite <- Hl1, Hcp, !Load_child by (done || apply Hdisk1). by rewrite E.
Qed.

End hosted.

(** * The client's channel commands and its update, evaluated

    The theorems of [ClientUpdateProofs] and [UpdateE2E] on a small hub and client, and what the
    commands do where they depart from their documentation. *)

(** ** The hub: the client's binary is uploaded and its channel published *)

Definition binary_upload : request :=
  Request "PUT" "/api/admin/channels/files/stable/tela-linux-amd64" "Bearer boss-token" None ∅ "" BodyEmpty.
Definition hub_uploaded : hostReply * fsys := handleAdminChannelsFiles (env_at 5) host_hub no_fails host_disk binary_upload.
Definition hub_published : hostReply * fsys :=
  handleAdminChannelsPublish (env_at 7) no_fault host_hub (snd hub_uploaded) demo_publish.
Definition tela_manifest : Manifest :=
  MkManifest "stable" "v1.2.3" "v1.2.3" 7 "https://hub.example/channels/files/stable/"
    {["tela-linux-amd64" := MkBinaryEntry "039058c6f2c0cb492c533b0a4d14ef77cc0f78abccced5287d84a1a2011cfb81" 3]}.

Lemma tela_uploaded :
  hub_uploaded = (HsUploaded "stable" "tela-linux-amd64" 3 "/srv/files/stable/tela-linux-amd64", snd hub_uploaded).
Proof. refine (eq_trans (surjective_pairing hub_uploaded) (f_equal (fun x => (x, snd hub_uploaded)) _)). by vm_compute. Qed.
Lemma tela_published : hub_published = (HsPublished tela_manifest "/srv/stable.json", snd hub_published).
Proof. refine (eq_trans (surjective_pairing hub_published) (f_equal (fun x => (x, snd hub_published)) _)). by vm_compute. Qed.

Lemma stable_can_host : can_host host_hub demo_srv "stable" "tela-linux-amd64" host_disk.
Proof. split; [exact demo_host_ok|left; vm_compute; reflexivity..]. Qed.

(** ** The client *)

Definition cred_dir : ppath := ["home"; ".tela"].
Definition exe_dir : ppath := ["opt"].
Abbreviation cred_file := "credentials.yaml".
Definition old_store : CredStore :=
  MkCredStore {[ "https://hub.example" := MkCredential "secret" "me" "pin" ]} (UpdateConfig "" {[ "lab" := "https://lab.example/c" ]}).
Definition client_disk (store : CredStore) : fsys :=
  <[cred_dir ++ [cred_file] := NFile (default [] (MarshalCred store))]>
  (<[exe_dir ++ ["tela"] := NFile [9%Z]]> {[ ["home"] := NDir; cred_dir := NDir; exe_dir := NDir ]}).
Definition client_env (version : string) (net : network) (download : string -> option (Z * list Z * bool))
    (fault : string -> bool) : updEnv :=
  UpdEnv "/home/.tela/credentials.yaml" no_fault "/opt" (Some "/opt/tela") "linux-amd64" version net download
    (FileEnv None fault "7" 1).
Definition hub_env (version : string) : updEnv :=
  client_env version (hubManifests "https://hub.example" host_hub (snd hub_published))
    (hubDownloads "https://hub.example" host_hub (snd hub_published)) (fun _ => false).
Definition client (store : CredStore) : cli := Cli (client_disk store) tt [] [].

Lemma home_good name : good_elem name -> good_elems (cred_dir ++ [name]).
Proof. intros Hn. repeat constructor; try (apply Hn || discriminate); (apply (bool_decide_unpack _); by vm_compute). Qed.
Lemma opt_good name : good_elem name -> good_elems (exe_dir ++ [name]).
Proof. intros Hn. repeat constructor; try (apply Hn || discriminate); (apply (bool_decide_unpack _); by vm_compute). Qed.
Lemma cred_good : good_elems (cred_dir ++ [cred_file]).
Proof. apply home_good. split_and!; try discriminate. apply (bool_decide_unpack _). by vm_compute. Qed.

Lemma client_cred_disk store : disk_ok cred_dir cred_file (client_disk store).
Proof.
  split; [|right; eexists; apply lookup_insert_eq].
  apply (dir_at_snoc ["home"] ".tela"); [apply (dir_at_snoc [] "home"); [apply dir_at_nil|]|]; by vm_compute.
Qed.

Lemma client_ready store fault :
  ready exe_dir "tela" (FileEnv None fault "7" 1) ".tela-update-" (client_disk store).
Proof.
  split.
  - apply opt_good. split_and!; try discriminate. apply (bool_decide_unpack _). by vm_compute.
  - apply opt_good. split_and!; try discriminate. apply (bool_decide_unpack _). by vm_compute.
  - discriminate.
  - split; [apply (dir_at_snoc [] "opt"); [apply dir_at_nil|]; by vm_compute|right; exists [9%Z]; by vm_compute].
  - left. by vm_compute.
Qed.

Lemma client_load store : Load (client_disk store) "/home/.tela/credentials.yaml" = Some store.
Proof.
  change "/home/.tela/credentials.yaml" with (abs (cred_dir ++ [cred_file])).
  rewrite (Load_child cred_dir cred_file cred_good) by apply client_cred_disk. unfold client_disk. rewrite lookup_insert_eq.
  by apply unmarshal_cred.
Qed.

Lemma client_can_update version net download :
  can_update (client_env version net download (fun _ => false)) cred_dir exe_dir cred_file "tela" (client_disk old_store).
Proof.
  split; try reflexivity.
  - exact cred_good.
  - apply client_cred_disk.
  - apply client_ready.
  - discriminate.
  - discriminate.
Qed.

Lemma published_fits dm :
  handleChannels host_hub (snd hub_published) (ChannelHostProofs.get "/channels/stable.json") = HsManifest dm ->
  (Z.of_nat (length dm) <= manifestLimit)%Z.
Proof.
  assert (match handleChannels host_hub (snd hub_published) (ChannelHostProofs.get "/channels/stable.json") with
          | HsManifest dm => Z.of_nat (length dm) <=? manifestLimit | _ => true end = true)%Z as H by (vm_compute; reflexivity).
  intros E. rewrite E in H. by apply Z.leb_le.
Qed.

(** ** The theorems at these inputs *)

Lemma hosted_channel_update_witness :
  let s2 := snd (cmdUpdate (hub_env "v1.2.2") []
    (snd (cmdChannel (hub_env "v1.2.2") ["set"; "-manifest-base"; "https://hub.example/channels"; "stable"] (client old_store)))) in
  cl_fs s2 !! ["opt"; "tela"] = Some (NFile [1; 2; 3]%Z) /\
  exists store', Load (cl_fs s2) "/home/.tela/credentials.yaml" = Some store' /\ cs_Hubs store' = cs_Hubs old_store.
Proof.
  pose proof (hosted_channel_update host_hub demo_srv (hub_env "v1.2.2") cred_dir exe_dir cred_file "tela" (env_at 5) (env_at 7) no_fails
    no_fault host_disk (snd hub_uploaded) (snd hub_published) binary_upload demo_publish 3 "/srv/files/stable/tela-linux-amd64"
    "/srv/stable.json" "https://hub.example" tela_manifest old_store
    (default [] (MarshalCred (selected old_store "stable" "https://hub.example/channels"))) (client old_store)
    eq_refl eq_refl stable_can_host eq_refl tela_uploaded tela_published eq_refl published_fits eq_refl eq_refl
    (client_can_update _ _ _) (client_load _) eq_refl) as H.
  specialize (H ltac:(discriminate) eq_refl).
  change (channelsAt "https://hub.example") with "https://hub.example/channels" in H.
  change (mf_Channel tela_manifest) with "stable" in H.
  destruct (cmdChannel _ _ _) as [o1 s1]. cbn [snd]. destruct (cmdUpdate _ _ s1) as [o2 s2].
  destruct H as (_ & _ & H). exact H.
Defined.

(** A download that is not what the manifest names: the binary stays. *)
Definition tampered_env : updEnv :=
  client_env "v1.2.2" (hubManifests "https://hub.example" host_hub (snd hub_published))
    (fun _ => Some (200, [1; 2; 4], false)%Z) (fun _ => false).
Definition following : CredStore := selected old_store "stable" "https://hub.example/channels".

Lemma tampered_exit : fst (cmdUpdate tampered_env [] (client following)) = Exit 1%Z.
Proof. vm_compute. reflexivity. Qed.

Lemma update_installs_verified_witness :
  cl_fs (snd (cmdUpdate tampered_env [] (client following))) !! ["opt"; "tela"] = Some (NFile [9%Z]).
Proof.
  destruct (update_installs_verified tampered_env [] exe_dir "tela" (client following) eq_refl (client_ready _ _))
    as [[H _]|[H _]].
  - change ["opt"; "tela"] with (exe_dir ++ ["tela"]). rewrite (fun Hne => but_temp_file exe_dir "tela" _ _ _ _ Hne H).
    + vm_compute. reflexivity.
    + discriminate.
  - rewrite tampered_exit in H. discriminate.
Defined.

Definition lab_source : list string := ["sources"; "set"; "lab"; " https://mirror.example/x/lab.json"].
Lemma channel_settings_witness :
  settled (hub_env "v1.2.2") cred_dir cred_file lab_source (client_disk old_store)
    (fst (cmdChannel (hub_env "v1.2.2") lab_source (client old_store)))
    (cl_fs (snd (cmdChannel (hub_env "v1.2.2") lab_source (client old_store)))) /\
  (uc_Sources ∘ cs_Update <$> Load (cl_fs (snd (cmdChannel (hub_env "v1.2.2") lab_source (client old_store)))) "/home/.tela/credentials.yaml") =
    Some {[ "lab" := "https://mirror.example/x" ]}.
Proof.
  split; [|vm_compute; reflexivity].
  refine (channel_settings (hub_env "v1.2.2") cred_dir cred_file eq_refl cred_good lab_source (client old_store) _ _).
  - apply client_cred_disk.
  - discriminate.
Defined.

(** ** Where the commands depart from their documentation *)

(** A network with one manifest, which says what was asked for. *)
Definition only (url : string) (m : Manifest) : network := fun u => if u =s url then Some (200%Z, Some m) else None.
Definition run_out (o : outcome unit * cli (W := unit)) : outcome unit * list printed * list string :=
  (fst o, cl_out (snd o), cl_err (snd o)).

(** [-channel] of [show] and [download] keeps the base of the configured channel: with [lab] selected,
    [stable] is looked for on the host of [lab], where [tela update -channel stable] asks the public host. *)
Definition on_lab : CredStore := MkCredStore ∅ (UpdateConfig "lab" {[ "lab" := "https://lab.example/c" ]}).
Example override_keeps_base :
  overridden "stable" (channelOf (Some on_lab)) = ("stable", "https://lab.example/c") /\
  updateChannel (hub_env "v1.2.2") (Some on_lab) "stable" = ("stable", DefaultManifestBase).
Proof. vm_compute. split; reflexivity. Qed.

(** A name that is no channel is taken for [dev], because [Normalize] always gives a valid one: the check
    that follows it refuses nothing, and the dry run offers a development build. *)
Definition dev_manifest : Manifest :=
  MkManifest "dev" "v1.3.0-dev.5" "v1.3.0-dev.5" 0 "https://dl.example/" (mf_Binaries tela_manifest).
Example invalid_override_is_dev :
  fst (fst (run_out (cmdUpdate (client_env "v1.2.2" (only (ManifestURL DefaultManifestBase "dev") dev_manifest) (fun _ => None) (fun _ => false))
    ["-channel"; "no such channel!"; "-dry-run"] (client old_store)))) = Done tt.
Proof. vm_compute. reflexivity. Qed.

(** Without a stored preference the update follows the channel of the running version, and
    [tela channel] shows [dev]. *)
Example shown_channel_differs :
  updateChannel (hub_env "v1.2.2") (Some old_store) "" = ("stable", DefaultManifestBase) /\
  channelOf (Some old_store) = ("dev", DefaultManifestBase).
Proof. vm_compute. split; reflexivity. Qed.

(** With [-force], a rename that keeps failing loses the file that was to be replaced. *)
Example forced_download_loses_file :
  let r := cmdChannel (client_env "v1.2.2" (ue_net (hub_env "v1.2.2")) (ue_download (hub_env "v1.2.2"))
    (fun call => (call =s "rename") || (call =s "rename again"))) ["download"; "tela-linux-amd64"; "-force"; "-o"; "tela"] (client following) in
  fst r = Exit 1%Z /\ cl_fs (snd r) !! ["opt"; "tela"] = None.
Proof. vm_compute. split; reflexivity. Qed.

(** A settings command whose write fails leaves a store without its tokens. *)
Example torn_settings :
  let env := UpdEnv "/home/.tela/credentials.yaml" (SaveEnv (fun call => call =s "write") 0) "/opt" None "linux-amd64" "dev"
               (fun _ => None) (fun _ => None) (FileEnv None (fun _ => false) "7" 0) in
  let r := cmdChannel env ["set"; "beta"] (client old_store) in
  fst r = Exit 1%Z /\ cl_fs (snd r) !! (cred_dir ++ [cred_file]) = Some (NFile []).
Proof. vm_compute. split; reflexivity. Qed.
