(* ===== verification/AppAdmin.v ===== *)
(** * Administration in the desktop application ([cmd/telagui/app.go])

    The application reaches a hub's admin API only through a portal: it asks which portal knows the hub,
    and sends the operation to that portal's proxy.  Each method here is the operation it sends and what
    it hands to the window; with it the hub directory, which the portal keeps as well.  A method may save
    a migrated list of portals, so the file system is threaded. *)

From S2P Require Import Prelude Http FilePath FileSys ClientConnect PortalProtocol PortalFile Url PortalClient.
From S2P Require Import HubConfig Credstore ClientConfig PortalSources PortalEmbed Channel.
From S2P Require Portals Aggregate.
From Stdlib Require Import ZArith Lia Ascii String.
From stdpp Require Import base gmap strings list fin_maps.

(** Why a call gave no answer, or not the one wanted. *)
Inductive appErr :=
  | AeArgument                       (** no hub named *)
  | AeSource (e : sourceErr)
  | AeClient (e : clientErr)
  | AeBody                           (** the text of a body is not JSON *)
  | AeHub (msg : string)             (** the hub's message *)
  | AeStatus (code : Z)
  | AeParse
  | AeMessage (msg : string).

(** What a method hands to the window: the hub's body as it is, an encoded value or map, or an object
    with an error. *)
Inductive shown :=
  | ShBody (p : creply)
  | ShJson (j : json)
  | ShMap (m : gmap string json)
  | ShSources (l : list (string * string))
  | ShError (e : appErr).

(** The text of an error, as the methods build it: the message between quotes, whatever it holds. *)
Definition dquote : string := String "034" "".
Definition errorText (msg : string) : string :=
  "{" +:+ dquote +:+ "error" +:+ dquote +:+ ":" +:+ dquote +:+ msg +:+ dquote +:+ "}".
Definition messageOf (e : appErr) : option string :=
  match e with
  | AeHub msg | AeMessage msg => Some msg
  | AeStatus code => Some ("HTTP " +:+ Itoa code)
  | _ => None
  end.

(** ** Reading answers *)

(** A [map[string]string]: a value of another type leaves its key with the empty string. *)
Definition decode_map_strings (name : string) (kvs : list (string * json)) : gmap string string * bool :=
  fold_left (fun '(m, ok) kv =>
    if equal_fold (fst kv) name then
      match snd kv with
      | JNull => (∅, ok)
      | JObj l => fold_left (fun '(m, ok) kv =>
                    (<[fst kv := as_string (Some (snd kv))]> m,
                     ok && match snd kv with JStr _ | JNull => true | _ => false end)) l (m, ok)
      | _ => (m, false)
      end
    else (m, ok)) kvs (∅, true).

(** The answer of an agent: whether it said ok, its message, an error, and the payload as it came. *)
Record envelope := Envelope { ev_OK : option bool; ev_Message : string; ev_Error : string; ev_Payload : option json }.
Definition decode_bool_ptr (name : string) (kvs : list (string * json)) : option bool * bool :=
  fold_left (fun '(v, ok) kv =>
    if equal_fold (fst kv) name then
      match snd kv with JBool b => (Some b, ok) | JNull => (None, ok) | _ => (v, false) end
    else (v, ok)) kvs (None, true).
Definition decode_envelope (b : reqBody) : option envelope :=
  match json_fields b with
  | None => None
  | Some kvs =>
      let '(okf, ok1) := decode_bool_ptr "ok" kvs in
      let '(msg, ok2) := decode_string "message" kvs "" true in
      let '(err, ok3) := decode_string "error" kvs "" true in
      let payload := fold_left (fun acc kv => if equal_fold (fst kv) "payload" then Some (snd kv) else acc) kvs None in
      if ok1 && ok2 && ok3 then Some (Envelope okf msg err payload) else None
  end.

Definition rejected (ev : envelope) : option string :=
  if ev_Error ev <>s "" then Some (ev_Error ev)
  else match ev_OK ev with
       | Some false => Some (if ev_Message ev =s "" then "agent rejected request" else ev_Message ev)
       | _ => None
       end.

Definition unwrapMgmtResponse (p : creply) : shown :=
  match decode_envelope (cr_Json p) with
  | None => ShError AeParse
  | Some ev =>
      match rejected ev with
      | Some msg => ShError (AeMessage msg)
      | None => match ev_Payload ev with Some j => ShJson j | None => ShJson (JObj [("ok", JBool true)]) end
      end
  end.

Section app.
  Context {SC : SourcesCodec} `{RangeOrder} (lenv : fileEnv) (sourcesPath : string).
  (** The embedded portal, if it runs; the network of the portal clients; the order in which the portals
      answer; the direct GETs; the JSON value of a text. *)
  Context (portal : option (string * string)) (net : transport)
    (arrival : gmap string Client -> list (string * Client)) (get : ClientConfig.fetch) (parseJSON : string -> option json).

(** ** The call through a portal *)

Definition hubSource (hubName : string) (fs : fsys) : (string * string * bool) * fsys :=
  sourceForHub lenv sourcesPath portal (ListHubs net) arrival hubName fs.

(** That no portal knows the hub does not end the call. *)
Definition adminProxyCallCtx (hubName method operation : string) (body : option json) (extra : list (string * string))
    (fs : fsys) : (appErr + creply) * fsys :=
  if hubName =s "" then (inl AeArgument, fs)
  else
    let '((sourceName, _, _), fs) := hubSource hubName fs in
    let '(client, fs) := portalClientForSource lenv sourcesPath portal sourceName fs in
    match client with
    | inl e => (inl (AeSource e), fs)
    | inr c =>
        let operation := trim_prefix (trim_prefix operation "/api/admin/") "/" in
        match HubAdmin net c hubName operation method body extra with
        | inl e => (inl (AeClient e), fs)
        | inr p => (inr p, fs)
        end
    end.

(** The message of a refusal. *)
Definition refusal (p : creply) : appErr :=
  if error_of (cr_Json p) <>s "" then AeHub (error_of (cr_Json p)) else AeStatus (cr_Status p).

Definition adminProxyCall (hubName method operation : string) (body : option json) (fs : fsys) : (appErr + creply) * fsys :=
  let '(r, fs) := adminProxyCallCtx hubName method operation body [] fs in
  (match r with
   | inl e => inl e
   | inr p => if (400 <=? cr_Status p)%Z then inl (refusal p) else inr p
   end, fs).

(** The answer is shown as it comes. *)
Definition passed (r : (appErr + creply) * fsys) : shown * fsys :=
  (match fst r with inl e => ShError e | inr p => ShBody p end, snd r).
Definition admin (hubName method operation : string) (body : option json) (fs : fsys) : shown * fsys :=
  passed (adminProxyCall hubName method operation body fs).

(** ** Tokens *)

Definition strings (l : list (string * string)) : json := JObj (map (fun kv => (fst kv, JStr (snd kv))) l).

Definition AdminListTokens (hubName : string) : fsys -> shown * fsys := admin hubName "GET" "tokens" None.
Definition AdminCreateToken (hubName id role expiresAt : string) : fsys -> shown * fsys :=
  admin hubName "POST" "tokens"
    (Some (strings ((if trim_space expiresAt <>s "" then [("expiresAt", expiresAt)] else []) ++ [("id", id); ("role", role)]))).
Definition AdminRevokeToken (hubName id : string) : fsys -> shown * fsys :=
  admin hubName "POST" ("tokens/" +:+ PathEscape id +:+ "/revoke") None.
Definition AdminDeleteToken (hubName id : string) : fsys -> shown * fsys :=
  admin hubName "DELETE" ("access/" +:+ PathEscape id) None.
Definition AdminRotateToken (hubName id : string) : fsys -> shown * fsys :=
  admin hubName "POST" ("rotate/" +:+ QueryEscape id) None.

(** ** Access, with the version the user saw *)

Definition conflictOf (p : creply) (id : string) : gmap string json :=
  let payload : gmap string json :=
    match cr_Json p with
    | BodyJson (JObj kvs) => fold_left (fun m kv => <[fst kv := snd kv]> m) kvs ∅
    | _ => {[ "error" := JStr "access entry has been modified since last read" ]}
    end in
  let payload := <["conflict" := JBool true]> payload in
  match payload !! "id" with
  | Some _ => payload
  | None => if id <>s "" then <["id" := JStr id]> payload else payload
  end.

Definition ifMatchHeader (ifMatch : string) : list (string * string) :=
  if ifMatch <>s "" then [("If-Match", dquote +:+ ifMatch +:+ dquote)] else [].

Definition adminMutateAccess (hubName method operation : string) (body : option json) (ifMatch id : string) (fs : fsys)
    : shown * fsys :=
  let '(r, fs) := adminProxyCallCtx hubName method operation body (ifMatchHeader ifMatch) fs in
  (match r with
   | inl e => ShError e
   | inr p =>
       if (cr_Status p =? 412)%Z then ShMap (conflictOf p id)
       else if (400 <=? cr_Status p)%Z then ShError (refusal p)
       else ShBody p
   end, fs).

Definition accessPath (id : string) : string := "access/" +:+ PathEscape id.
Definition machinePath (id machineId : string) : string := accessPath id +:+ "/machines/" +:+ PathEscape machineId.

(** The permissions go out as they stand between the commas; the services are trimmed. *)
Definition accessServices (services : string) : list string :=
  if trim_space services =s "" then []
  else List.filter (fun s => s <>s "") (map trim_space (split_comma services)).
Definition accessBody (perms services : list string) : json :=
  JObj ([("permissions", JArr (map JStr perms))] ++
        match services with [] => [] | _ => [("services", JArr (map JStr services))] end).

Definition AdminListAccess (hubName : string) : fsys -> shown * fsys := admin hubName "GET" "access" None.
Definition AdminSetMachineAccess (hubName id machineId permissions services ifMatch : string) : fsys -> shown * fsys :=
  adminMutateAccess hubName "PUT" (machinePath id machineId)
    (Some (accessBody (split_comma permissions) (accessServices services))) ifMatch id.
Definition AdminRevokeMachineAccess (hubName id machineId ifMatch : string) : fsys -> shown * fsys :=
  adminMutateAccess hubName "DELETE" (machinePath id machineId) None ifMatch id.
Definition AdminRenameAccess (hubName id newId ifMatch : string) : fsys -> shown * fsys :=
  adminMutateAccess hubName "PATCH" (accessPath id) (Some (strings [("id", newId)])) ifMatch id.
Definition AdminChangeRole (hubName id role ifMatch : string) : fsys -> shown * fsys :=
  adminMutateAccess hubName "PATCH" (accessPath id) (Some (strings [("role", role)])) ifMatch id.

(** ** Portals, pairing, the rest of the admin API *)

Definition AdminListPortals (hubName : string) : fsys -> shown * fsys := admin hubName "GET" "portals" None.
Definition AdminGeneratePairCode (hubName pairType role machineId expiresIn : string) : fsys -> shown * fsys :=
  admin hubName "POST" "pair-code"
    (Some (strings ((if expiresIn <>s "" then [("expiresIn", expiresIn)] else []) ++
                    (if machineId <>s "" then [("machineId", machineId)] else []) ++
                    [("role", role); ("type", pairType)]))).

(** A body given as text must be JSON. *)
Definition adminText (hubName method operation bodyText : string) (fs : fsys) : shown * fsys :=
  if bodyText =s "" then admin hubName method operation None fs
  else match parseJSON bodyText with
       | Some j => admin hubName method operation (Some j) fs
       | None =>
           (* the portal is chosen before the body is encoded *)
           let '(r, fs) := adminProxyCallCtx hubName method "" None [] fs in
           (ShError (match r with inl (AeClient _) | inr _ => AeBody | inl e => e end), fs)
       end.
Definition AdminAPICall (hubName method operation bodyJSON : string) : fsys -> shown * fsys :=
  adminText hubName method operation bodyJSON.

(** Only owners and admins can list tokens. *)
Definition GetTokenRole (hubName : string) (fs : fsys) : string * fsys :=
  let '(r, fs) := adminProxyCall hubName "GET" "tokens" None fs in
  (match r with inl _ => "unknown" | inr _ => "owner" end, fs).

(** ** Agents *)

Definition agentOp (machineID action : string) : string := "agents/" +:+ QueryEscape machineID +:+ "/" +:+ action.

Definition GetAgentConfig (hubName machineID : string) : fsys -> shown * fsys :=
  admin hubName "GET" (agentOp machineID "config-get") None.
(** The name of the machine goes into the text as it is. *)
Definition configText (machineID fieldsJSON : string) : string :=
  "{" +:+ dquote +:+ "machine" +:+ dquote +:+ ":" +:+ dquote +:+ machineID +:+ dquote +:+ "," +:+
  dquote +:+ "fields" +:+ dquote +:+ ":" +:+ fieldsJSON +:+ "}".
Definition SetAgentConfig (hubName machineID fieldsJSON : string) : fsys -> shown * fsys :=
  adminText hubName "POST" (agentOp machineID "config-set") (configText machineID fieldsJSON).
Definition GetAgentLogs (hubName machineID : string) (lines : Z) : fsys -> shown * fsys :=
  admin hubName "POST" (agentOp machineID "logs") (Some (JObj [("lines", JNum (if (lines <=? 0)%Z then 100 else lines)%Z)])).
Definition RestartAgent (hubName machineID : string) : fsys -> shown * fsys :=
  admin hubName "POST" (agentOp machineID "restart") None.

(** The version is quoted as Go quotes it, which for printable ASCII is what JSON does. *)
Definition versionBody (version : string) : json := JObj (if version <>s "" then [("version", JStr version)] else []).
Definition UpdateAgent (hubName machineID version : string) : fsys -> shown * fsys :=
  admin hubName "POST" (agentOp machineID "update") (Some (versionBody version)).
Definition GetAgentChannelInfo (hubName machineID : string) : fsys -> shown * fsys :=
  admin hubName "POST" (agentOp machineID "update-status") None.

Definition channelChange (channelName manifestBase : string) : json :=
  strings ([("channel", channelName)] ++ if manifestBase <>s "" then [("manifestBase", manifestBase)] else []).
Definition SetAgentChannel (hubName machineID channelName manifestBase : string) : fsys -> shown * fsys :=
  admin hubName "POST" (agentOp machineID "update-channel") (Some (channelChange channelName manifestBase)).

(** The custom channels of a list of sources. *)
Definition customSources (m : gmap string string) : shown :=
  ShSources (List.filter (fun kv => negb (IsKnown (fst kv))) (range m)).
Definition GetAgentSources (hubName machineID : string) (fs : fsys) : shown * fsys :=
  let '(r, fs) := adminProxyCall hubName "POST" (agentOp machineID "channel-sources-list") None fs in
  (match r with
   | inl e => ShError e
   | inr p =>
       match decode_envelope (cr_Json p) with
       | None => ShError AeParse
       | Some ev =>
           match rejected ev with
           | Some msg => ShError (AeMessage msg)
           | None => customSources (match ev_Payload ev with
                                    | Some (JObj kvs) => fst (decode_map_strings "sources" kvs)
                                    | _ => ∅
                                    end)
           end
       end
   end, fs).

(** What is wrong with a source before it is sent. *)
Definition sourceProblem (name manifestBase : string) : option string :=
  if negb (IsValid name) then Some "invalid channel name"
  else if IsKnown name then Some "cannot override built-in channel"
  else if trim_space manifestBase =s "" then Some "manifestBase is required"
  else None.
Definition unwrapped (r : (appErr + creply) * fsys) : shown * fsys :=
  (match fst r with inl e => ShError e | inr p => unwrapMgmtResponse p end, snd r).
Definition SetAgentSource (hubName machineID name manifestBase : string) (fs : fsys) : shown * fsys :=
  let name := Normalize name in
  match sourceProblem name manifestBase with
  | Some msg => (ShError (AeMessage msg), fs)
  | None => unwrapped (adminProxyCall hubName "POST" (agentOp machineID "channel-sources-set")
                         (Some (strings [("base", manifestBase); ("name", name)])) fs)
  end.
Definition RemoveAgentSource (hubName machineID name : string) (fs : fsys) : shown * fsys :=
  let name := Normalize name in
  if IsKnown name then (ShError (AeMessage "cannot remove built-in channel"), fs)
  else unwrapped (adminProxyCall hubName "POST" (agentOp machineID "channel-sources-remove")
                    (Some (strings [("name", name)])) fs).

(** ** The hub itself *)

Definition GetHubLogs (hubName : string) (lines : Z) : fsys -> shown * fsys :=
  admin hubName "GET" ("logs?lines=" +:+ Itoa (if (lines <=? 0)%Z then 500 else lines)%Z) None.
Definition UpdateHub (hubName version : string) : fsys -> shown * fsys :=
  admin hubName "POST" "update" (Some (versionBody version)).
Definition RestartHub (hubName : string) : fsys -> shown * fsys := admin hubName "POST" "restart" None.
Definition GetHubChannelInfo (hubName : string) : fsys -> shown * fsys := admin hubName "GET" "update" None.
Definition SetHubChannel (hubName channelName manifestBase : string) : fsys -> shown * fsys :=
  admin hubName "PATCH" "update" (Some (channelChange channelName manifestBase)).

Definition GetHubSources (hubName : string) (fs : fsys) : shown * fsys :=
  let '(r, fs) := adminProxyCall hubName "GET" "update/sources" None fs in
  (match r with
   | inl e => ShError e
   | inr p =>
       match json_fields (cr_Json p) with
       | None => ShError AeParse
       | Some kvs =>
           let '(m, ok1) := decode_map_strings "sources" kvs in
           let '(err, ok2) := decode_string "error" kvs "" true in
           if negb (ok1 && ok2) then ShError AeParse
           else if err <>s "" then ShError (AeMessage err)
           else customSources m
       end
   end, fs).
Definition SetHubSource (hubName name manifestBase : string) (fs : fsys) : shown * fsys :=
  let name := Normalize name in
  match sourceProblem name manifestBase with
  | Some msg => (ShError (AeMessage msg), fs)
  | None => admin hubName "PUT" ("update/sources/" +:+ PathEscape name) (Some (strings [("base", manifestBase)])) fs
  end.
Definition RemoveHubSource (hubName name : string) (fs : fsys) : shown * fsys :=
  let name := Normalize name in
  if IsKnown name then (ShError (AeMessage "cannot remove built-in channel"), fs)
  else admin hubName "DELETE" ("update/sources/" +:+ PathEscape name) None fs.

(** What the hub can do, asked without a portal; an error comes with an empty list. *)
Definition HubCapabilities (hubName : string) (fs : fsys) : (option appErr * list string) * fsys :=
  let '((_, hubURL, ok), fs) := hubSource hubName fs in
  (if negb ok || (hubURL =s "") then (Some (AeMessage "unknown hub"), [])
   else match get (trim_slashes hubURL +:+ "/.well-known/tela") "" with
   | None => (Some (AeClient CTransport), [])
   | Some (status, body) =>
       if negb (status =? 200)%Z then (Some (AeStatus status), [])
       else match json_fields body with
       | None => (Some AeParse, [])
       | Some kvs => let '(caps, ok) := decode_strings "capabilities" kvs [] true in
                     if ok then (None, caps) else (Some AeParse, [])
       end
   end, fs).

(** The status and the history: over the portal's public proxy, else over its admin proxy; if both
    fail the first error is kept. *)
Definition fetchHubPublicEndpoint (hubName path : string) (fs : fsys) : (appErr + string) * fsys :=
  let '((sourceName, _, ok), fs) := hubSource hubName fs in
  if negb ok then (inl (AeSource SeNotFound), fs)
  else
    let '(client, fs) := portalClientForSource lenv sourcesPath portal sourceName fs in
    match client with
    | inl e => (inl (AeSource e), fs)
    | inr c =>
        if negb ((path =s "/api/status") || (path =s "/api/history")) then (inl AeArgument, fs)
        else match (if path =s "/api/status" then HubStatus net c hubName else HubHistory net c hubName) with
        | inr body => (inr body, fs)
        | inl e =>
            let '(fallback, fs) := adminProxyCall hubName "GET" (trim_prefix path "/api/") None fs in
            (match fallback with inr p => inr (cr_Text p) | inl _ => inl (AeClient e) end, fs)
        end
    end.

(** ** The hub directory *)

Definition probeHubID (hubURL token : string) : string :=
  match get (hubURL +:+ "/api/status") token with
  | Some (status, body) =>
      if (status =? 200)%Z then
        match json_fields body with
        | Some kvs => let '(id, ok) := decode_string "hubId" kvs "" true in if ok then id else ""
        | None => ""
        end
      else ""
  | None => ""
  end.

(** The client of the first enabled source. *)
Definition firstClient (fs : fsys) : (appErr + (string * Client)) * fsys :=
  let '((sourceName, ok), fs) := firstEnabledSourceName lenv sourcesPath fs in
  if negb ok then (inl (AeSource SeFile), fs)
  else
    let '(client, fs) := portalClientForSource lenv sourcesPath portal sourceName fs in
    (match client with inl e => inl (AeSource e) | inr c => inr (sourceName, c) end, fs).

Definition AppAddHub (rawURL token : string) (fs : fsys) : option appErr * fsys :=
  let rawURL := trim_space rawURL in
  if rawURL =s "" then (Some AeArgument, fs)
  else
    let hubURL := canonicalHubURL rawURL in
    let hubID := probeHubID hubURL token in
    let '(r, fs) := firstClient fs in
    match r with
    | inl e => (Some e, fs)
    | inr (_, c) =>
        (match cl_AddHub net c (MkHub (hostFromURL hubURL) hubID hubURL "" token "") with
         | inl e => Some (AeClient e)
         | inr _ => None
         end, fs)
    end.

Definition resolveHubNameByURLCtx (rawURL : string) (fs : fsys) : (appErr + string) * fsys :=
  let rawURL := trim_space rawURL in
  if rawURL =s "" then (inl AeArgument, fs)
  else
    let canonical := canonicalHubURL rawURL in
    let '(r, fs) := firstClient fs in
    match r with
    | inl e => (inl e, fs)
    | inr (_, c) =>
        (match ListHubs net c with
         | inl e => inl (AeClient e)
         | inr hubs =>
             match find_first (fun h => canonicalHubURL (hv_URL h) =s canonical) hubs with
             | Some h => inr (hv_Name h)
             | None => inl (AeSource SeNotFound)
             end
         end, fs)
    end.

(** A URL given is brought to its canonical form; those of the directory are compared as they are. *)
Definition RemoveHub (hubNameOrURL : string) (fs : fsys) : option appErr * fsys :=
  let hubNameOrURL := trim_space hubNameOrURL in
  if hubNameOrURL =s "" then (Some AeArgument, fs)
  else
    let '(r, fs) := firstClient fs in
    match r with
    | inl e => (Some e, fs)
    | inr (_, c) =>
        (match ListHubs net c with
         | inl e => Some (AeClient e)
         | inr hubs =>
             match find_first (fun h => (hv_Name h =s hubNameOrURL) || (hv_URL h =s canonicalHubURL hubNameOrURL)) hubs with
             | None => Some (AeSource SeNotFound)
             | Some h => match cl_DeleteHub net c (hv_Name h) with inl e => Some (AeClient e) | inr _ => None end
             end
         end, fs)
    end.

(** What each enabled source delivers, as the sources finish. *)
Definition fetchSource (nc : string * Client) : Aggregate.fetchResult :=
  Aggregate.FetchResult (fst nc)
    (match ListHubs net (snd nc) with
     | inl _ => None
     | inr hubs => match FleetAgents net (snd nc) with inl _ => None | inr agents => Some (hubs, agents) end
     end).

Record KnownHub := MkKnownHub { kh_Name : string; kh_URL : string; kh_Source : string }.
Definition GetKnownHubs (fs : fsys) : list KnownHub * fsys :=
  let '(clients, fs) := enabledPortalClients lenv sourcesPath portal fs in
  (match clients with
   | None => []
   | Some clients =>
       map (fun h => MkKnownHub (Aggregate.mh_Name h) (Aggregate.mh_URL h) (Aggregate.mh_PreferredSource h))
         (Aggregate.res_Hubs (Aggregate.merge (map fetchSource (arrival clients))))
   end, fs).

(** ** Tokens for the command-line client *)

(** Each hub under its URL and under the WebSocket form of it. *)
Definition urlToName (hubs : list KnownHub) : gmap string string :=
  fold_left (fun m h =>
    let normalized := trim_slashes (to_lower (kh_URL h)) in
    <[httpToWS normalized := kh_Name h]> (<[normalized := kh_Name h]> m)) hubs ∅.

(** One connection of the profile: a token is fetched for a hub that has none. *)
Definition syncOne (names : gmap string string) (acc : CredStore * bool * fsys) (hub : string) : CredStore * bool * fsys :=
  let '(store, changed, fs) := acc in
  if hub =s "" then acc
  else if snd (Credstore.Get store hub) then acc
  else match names !! trim_slashes (to_lower hub) with
  | None => acc
  | Some hubName =>
      let '((sourceName, _, _), fs) := hubSource hubName fs in
      let '(client, fs) := portalClientForSource lenv sourcesPath portal sourceName fs in
      match client with
      | inl _ => (store, changed, fs)
      | inr c =>
          match HubToken net c hubName with
          | inl _ => (store, changed, fs)
          | inr token =>
              if token =s "" then (store, changed, fs)
              else (CredSet store hub (MkCredential token "" ""), true, fs)
          end
      end
  end.

(** An unreadable credential store counts as an empty one. *)
Definition syncHubTokensToCredstore {CC : CredCodec} (env : saveEnv) (credPath : string) (connections : list string) (fs : fsys)
    : fsys :=
  let store := default (MkCredStore ∅ noUpdate) (Load fs credPath) in
  let '(hubs, fs) := GetKnownHubs fs in
  let '(store, changed, fs) := fold_left (syncOne (urlToName hubs)) connections (store, false, fs) in
  if changed then snd (Save env fs store credPath) else fs.

End app.
