(* ===== verification/AppE2E.v ===== *)
(** * The desktop application's administration, through a portal, at the hub

    A desktop sends an operation to a portal's proxy, the portal to the hub with the token it keeps, and
    the hub's admin API answers: [AppAdmin], [PortalClient], [PortalServer] and the admin handlers of the
    hub, composed.  What is on the wire is bytes; JSON is a codec with the law that it decodes what was
    encoded.

    The last part evaluates two desktops, a portal and a hub. *)

From S2P Require Import Prelude Auth Http HubConfig AdminState AdminTokens AdminAccess AdminInvariant FilePath FileSys.
From S2P Require Import ClientAdmin AdminE2E PortalProtocol PortalFile Credstore ClientConnect ClientConfig Url.
From S2P Require Import PortalServer PortalE2E PortalClient PortalSources PortalFileProofs MountProofs.
From S2P Require Import ClientExamples DesktopExamples AppAdmin.
From S2P Require Portals Aggregate.
From Stdlib Require Import ZArith Lia Ascii String.
From stdpp Require Import base countable gmap strings list fin_maps.

Class JsonText := {
  EncodeJSON : json -> list Z;
  DecodeJSON : list Z -> reqBody;
  decode_encode_json j : DecodeJSON (EncodeJSON j) = BodyJson j;
  encode_some j : EncodeJSON j <> []
}.

Section composed.
  Context {T E U : Type} {PS : PortalStore T E U} {IL : Interleaving} {JT : JsonText} {SC : SourcesCodec} `{RangeOrder}.
  (** The hub: its own portals' network, its identity, its address, its environment and the handlers
      not modelled with the admin API. *)
  Context (hnet : Portals.portalNet) (hubID myName base : string) (jsonSize : json -> Z)
    (others : request -> hubState -> answer * hubState) (henv : environ).
  Context (text : respBody -> string).

Definition body_of (d : list Z) : reqBody := match d with [] => BodyEmpty | _ => DecodeJSON d end.
Definition bytes_of (b : option json) : list Z := match b with Some j => EncodeJSON j | None => [] end.

(** ** The hub behind the portal *)

Definition hubAt (q : upreq) (hst : hubState) : option (answer * hubState) :=
  match AdminE2E.target base (up_URL q) with
  | None => None
  | Some (path, query) =>
      let cleaned := AdminE2E.cleanPath path in
      let '(method, path, b) :=
        if cleaned =s path then (up_Method q, path, body_of (up_Body q)) else ("GET", cleaned, BodyEmpty) in
      Some (dispatch hnet hubID myName jsonSize others henv (AdminE2E.elements path)
        (Request method (default path (PathUnescape path)) (if up_Bearer q =s "" then "" else "Bearer " +:+ up_Bearer q)
           None (ParseQuery query) (up_IfMatch q) b) hst)
  end.

Definition answered (a : answer) : upreply :=
  UpReply (an_Status a) "application/json" ""
    [(match an_Body a with BodyJson j => EncodeJSON j | _ => [] end, ReadEOF)] (an_Body a).
Definition hubNet (hst : hubState) : upnet := fun q =>
  match hubAt q hst with Some (a, _) => UpOk (answered a) | None => UpFailed end.
(** The hub's state after the requests a portal sent it. *)
Definition hubAfter (sent : list upreq) (hst : hubState) : hubState :=
  fold_left (fun hst q => match hubAt q hst with Some (_, hst') => hst' | None => hst end) sent hst.

(** ** The portal behind the desktop *)

Definition header (q : creq) (k : string) : string :=
  default "" (snd <$> find_first (fun h => fst h =s k) (rev (cq_Headers q))).
Definition onWire (purl : string) (q : creq) : preq :=
  let rest := trim_prefix (cq_URL q) purl in
  let '(path, query) := match cut rest "?" with Some pq => pq | None => (rest, "") end in
  PReq (cq_Method q) path (cq_Authorization q) query (ParseQuery query) (cq_ContentType q)
    (header q "If-Match") (header q "If-None-Match") (bytes_of (cq_Body q))
    (match cq_Body q with Some j => BodyJson j | None => BodyEmpty end).

Definition replied (p : presp) : creply :=
  CReply (pr_Status p) (text (pr_Body p))
    (match pr_Body p with RRaw d => body_of d | b => json_of_body b end).
Definition served (penv : E) (pst : T) (hst : hubState) (purl : string) (q : creq) : outcome T :=
  serve (hubNet hst) penv pst (onWire purl q).
Definition portalNet (penv : E) (pst : T) (purl : string) (hst : hubState) : transport := fun q =>
  replied <$> o_resp (served penv pst hst purl q).

(** ** One desktop

    Its files, its embedded portal if any, its network given the hub's state, and the order in which its
    portals answer. *)

Record desktop := Desktop {
  dk_env : fileEnv; dk_path : string; dk_portal : option (string * string);
  dk_net : hubState -> transport; dk_arrival : gmap string Client -> list (string * Client); dk_fs : fsys
}.

(** The changes of an identity the window offers, and the operation of the hub each is. *)
Inductive change :=
  | Grant (machineId permissions services : string)
  | Ungrant (machineId : string)
  | Rename (newId : string)
  | ChangeRole (role : string).

Definition opOf (ch : change) : accessOp :=
  match ch with Grant m _ _ => OpSetMachine m | Ungrant m => OpRevokeMachine m | _ => OpPatch end.
Definition changeMethod (ch : change) : string :=
  match ch with Grant _ _ _ => "PUT" | Ungrant _ => "DELETE" | _ => "PATCH" end.
Definition changeBody (ch : change) : option json :=
  match ch with
  | Grant _ p s => Some (accessBody (split_comma p) (accessServices s))
  | Ungrant _ => None
  | Rename i => Some (strings [("id", i)])
  | ChangeRole r => Some (strings [("role", r)])
  end.
Definition changePath (id : string) (ch : change) : list string :=
  ["access"; id] ++ match ch with Grant m _ _ | Ungrant m => ["machines"; m] | _ => [] end.

Section desk.
  Context (dk : desktop) (hubName : string).

Definition appChange (hst : hubState) (id ifMatch : string) (ch : change) : shown :=
  let with_app {R : Type} (f : fileEnv -> string -> option (string * string) -> transport ->
    (gmap string Client -> list (string * Client)) -> R) : R :=
    f (dk_env dk) (dk_path dk) (dk_portal dk) (dk_net dk hst) (dk_arrival dk) in
  fst (match ch with
       | Grant m p s => with_app AdminSetMachineAccess hubName id m p s ifMatch (dk_fs dk)
       | Ungrant m => with_app AdminRevokeMachineAccess hubName id m ifMatch (dk_fs dk)
       | Rename i => with_app AdminRenameAccess hubName id i ifMatch (dk_fs dk)
       | ChangeRole r => with_app AdminChangeRole hubName id r ifMatch (dk_fs dk)
       end).
Definition changeRequest (c : Client) (id ifMatch : string) (ch : change) : creq :=
  hubAdminRequest c hubName (join_slash (map PathEscape (changePath id ch))) (changeMethod ch) (changeBody ch)
    (ifMatchHeader ifMatch).

(** The desktop reaches the hub: it chooses the source of a client whose portal knows the desktop's user,
    lets that user manage the hub, and has the hub's address and a token for it. *)
Record reaches (c : Client) (penv : E) (pst : T) (u : U) (hub : Hub) (hst : hubState) : Prop := Reaches {
  re_source : exists sn url ok fs1 fs2,
    hubSource (dk_env dk) (dk_path dk) (dk_portal dk) (dk_net dk hst) (dk_arrival dk) hubName (dk_fs dk) =
      ((sn, url, ok), fs1) /\
    portalClientForSource (dk_env dk) (dk_path dk) (dk_portal dk) sn fs1 = (inr c, fs2);
  re_net : forall q, has_prefix (cq_URL q) (BaseURL c) = true -> dk_net dk hst q = portalNet penv pst (BaseURL c) hst q;
  re_base : trim_slashes (BaseURL c) = BaseURL c;
  re_token : BearerToken c <> "";
  re_user : forall r, pq_Authorization r = "Bearer " +:+ BearerToken c -> Authenticate pst r = AuthUser u;
  re_hub : LookupHubForUser pst u hubName = inr (hub, true);
  re_url : trim_slashes (h_URL hub) = base;
  re_admin : h_AdminToken hub <> ""
}.

(** The hub after the portal has served a change. *)
Definition changed (c : Client) (penv : E) (pst : T) (hst : hubState) (id ifMatch : string) (ch : change) : hubState :=
  hubAfter (o_sent (served penv pst hst (BaseURL c) (changeRequest c id ifMatch ch))) hst.

End desk.

(** ** A change arrives at the hub as it was meant *)

(** A name that keeps its place in a path it is put into unescaped, as the portal does: neither empty nor
    dots, and without a slash, a question mark, a number sign, a percent sign or a control byte.  The
    wildcard is one. *)
Definition plainByte (c : ascii) : bool :=
  negb (controlByte c) && bool_decide (c ∉ ["/"; "?"; "#"; "%"]%char).
Definition plain (e : string) : Prop := segment e /\ Forall (fun c => plainByte c = true) (bytes e).

Lemma plain_byte e c : plain e -> c ∈ bytes e ->
  controlByte c = false /\ c <> "/"%char /\ c <> "?"%char /\ c <> "#"%char /\ c <> "%"%char.
Proof.
  intros [_ Hb] Hc. rewrite Forall_forall in Hb. apply Hb, andb_true_iff in Hc as [Hc Hn].
  apply negb_true_iff in Hc. apply bool_decide_eq_true in Hn. split_and!; [done|..]; intros ->; apply Hn; set_solver.
Qed.

Lemma plain_no_slash e : plain e -> no_slash e.
Proof. intros He Hd. by apply (plain_byte e) in Hd as (_ & ? & _). Qed.

Lemma plain_good es : Forall plain es -> good_elems es.
Proof.
  intros Hs. eapply Forall_impl; [exact Hs|]. intros e He. split_and!; [apply He..|].
  by apply plain_no_slash.
Qed.

Lemma plain_path_byte es c : Forall plain es -> c ∈ bytes (abs es) ->
  c = "/"%char \/ controlByte c = false /\ c <> "?"%char /\ c <> "#"%char /\ c <> "%"%char.
Proof.
  intros Hs. unfold abs. rewrite bytes_app, elem_of_app.
  intros [Hc|Hc]; [apply list_elem_of_singleton in Hc; by left|].
  induction Hs as [|e es He Hs IH]; [by apply elem_of_nil in Hc|].
  assert (c ∈ bytes e \/ c = "/"%char \/ c ∈ bytes (join_slash es)) as [Hc'|[?|?]]; [|right|by left|by apply IH].
  - destruct es as [|f es]; [by left|]. rewrite join_slash_cons, !bytes_app, !elem_of_app in Hc by done.
    destruct Hc as [?|[Hc|?]]; [by left|right; left; by apply list_elem_of_singleton in Hc|by right; right].
  - by apply (plain_byte e) in Hc' as (? & _ & ?).
Qed.

Lemma unescape_plain s : ("%"%char) ∉ bytes s -> PathUnescape s = Some s.
Proof.
  intros Hs. unfold PathUnescape. assert (unescape false (bytes s) = Some (bytes s)) as ->.
  { induction (bytes s) as [|c l IH]; [done|]. rewrite not_elem_of_cons in Hs. destruct Hs as [? Hs].
    rewrite unescape_keep, IH by done. done. }
  cbn. by rewrite of_bytes_bytes.
Qed.

Lemma unescape_plain_path es : Forall plain es -> PathUnescape (abs es) = Some (abs es).
Proof. intros Hs. apply unescape_plain. by intros [?|(_ & _ & _ & ?)]%plain_path_byte. Qed.

Lemma target_plain base' es : Forall plain es -> AdminE2E.target base' (base' +:+ abs es) = Some (abs es, "").
Proof.
  intros Hs. unfold AdminE2E.target. rewrite bytes_app, drop_prefix_app. cbn [mbind option_bind].
  destruct (existsb controlByte _) eqn:Hc.
  { apply existsb_exists in Hc as (d & Hd%list_elem_of_In & Hd0).
    apply plain_path_byte in Hd as [-> |(? & _)]; [by vm_compute in Hd0|congruence|done]. }
  unfold before. rewrite split_on_none; [cbn [hd]|by intros [?|(_ & _ & ? & _)]%plain_path_byte].
  rewrite of_bytes_bytes, cut_absent; [by rewrite unescape_plain_path|by intros [?|(_ & ? & _)]%plain_path_byte].
Qed.

Lemma elements_plain es : es <> [] -> Forall plain es -> AdminE2E.elements (abs es) = es.
Proof.
  intros Hne Hs. unfold AdminE2E.elements. rewrite split_abs by (by apply plain_good). rewrite decide_False by done.
  cbn [tl]. rewrite <- (map_id es) at 2. apply map_ext_in. intros e He%list_elem_of_In.
  rewrite Forall_forall in Hs. rewrite unescape_plain; [done|]. by intros (_ & _ & _ & _ & ?)%(plain_byte e); [|apply Hs].
Qed.

Lemma plain_segments es : Forall plain es -> Forall segment es.
Proof. intros Hs. eapply Forall_impl; [exact Hs|]. by intros e []. Qed.

Lemma cut_slash_at a b : no_slash a -> cut (a +:+ "/" +:+ b) "/" = Some (a, b).
Proof. intros Hn. unfold cut. rewrite !bytes_app. change (bytes "/") with ["/"%char]. rewrite cut_bytes_first by done. by rewrite !of_bytes_bytes. Qed.

Lemma abs_cons e f es : abs (e :: f :: es) = "/" +:+ e +:+ abs (f :: es).
Proof. unfold abs. rewrite (join_slash_cons e) by done. reflexivity. Qed.

Lemma segments_escaped es : es <> [] -> Forall segment es -> segments (escapedPath es) = es.
Proof.
  intros Hne Hs. unfold segments, escapedPath. rewrite split_abs by (by apply good_escaped).
  rewrite decide_False by (by destruct es). rewrite map_map. rewrite <- (map_id es) at 2.
  apply map_ext. intros e. unfold unescaped. by rewrite PathUnescape_escape.
Qed.

Lemma clean_escaped es : es <> [] -> Forall segment es -> PortalServer.cleanPath (escapedPath es) = escapedPath es.
Proof.
  intros Hne Hs. pose proof (cleanPath_escaped es Hne Hs) as Hc. unfold AdminE2E.cleanPath in Hc.
  rewrite bool_decide_false in Hc by done. exact Hc.
Qed.

Definition operationPath (hubName id : string) (ch : change) : list string :=
  ["api"; "hub-admin"; hubName] ++ changePath id ch.
Definition hubPath (id : string) (ch : change) : list string := ["api"; "admin"] ++ changePath id ch.

Lemma operation_url hubName c id ifMatch ch :
  trim_slashes (BaseURL c) = BaseURL c ->
  cq_URL (changeRequest hubName c id ifMatch ch) = BaseURL c +:+ escapedPath (operationPath hubName id ch).
Proof.
  intros Hb. unfold changeRequest, hubAdminRequest, newRequest. cbn [cq_URL]. by rewrite Hb.
Qed.

Definition quoted (ifMatch : string) : string := if ifMatch =s "" then "" else dquote +:+ ifMatch +:+ dquote.

Lemma change_on_wire hubName c id ifMatch ch :
  trim_slashes (BaseURL c) = BaseURL c ->
  onWire (BaseURL c) (changeRequest hubName c id ifMatch ch) =
    PReq (changeMethod ch) (escapedPath (operationPath hubName id ch))
      (if BearerToken c =s "" then "" else "Bearer " +:+ BearerToken c) "" ∅
      (cq_ContentType (changeRequest hubName c id ifMatch ch)) (quoted ifMatch) ""
      (bytes_of (changeBody ch)) (match changeBody ch with Some j => BodyJson j | None => BodyEmpty end).
Proof.
  intros Hb. unfold onWire. rewrite operation_url, trim_prefix_app by done.
  rewrite cut_absent by (intros [?|(_ & _ & ?)]%escaped_path_byte; done).
  unfold changeRequest, hubAdminRequest, newRequest, header, quoted, ifMatchHeader.
  cbn [cq_Method cq_Authorization cq_ContentType cq_Headers cq_Body].
  by case_bool_decide; case_bool_decide.
Qed.

Lemma change_routed hubName id ch m : Forall segment (operationPath hubName id ch) ->
  forall r, pq_Escaped r = escapedPath (operationPath hubName id ch) -> pq_Method r = m -> mux r = ToAdminProxy.
Proof.
  intros Hs r Hp Hm. unfold mux. rewrite Hp, clean_escaped, segments_escaped by (done || by destruct ch).
  rewrite (bool_decide_true (_ = _)) by done. by destruct ch.
Qed.

Lemma change_path hubName id ch : no_slash hubName -> hubName <> "" ->
  forall r, pq_Escaped r = escapedPath (operationPath hubName id ch) ->
  adminPath r = inr (hubName, join_slash (changePath id ch)).
Proof.
  intros Hn Hne r Hp. unfold adminPath, url_Path, unescaped. rewrite Hp, unescape_path. cbn [default from_option Datatypes.id].
  assert (abs (operationPath hubName id ch) = "/api/hub-admin/" +:+ hubName +:+ "/" +:+ join_slash (changePath id ch)) as Ha.
  { unfold operationPath. cbn [app]. by rewrite !abs_cons. }
  rewrite Ha, trim_prefix_app, bool_decide_false.
  - rewrite cut_slash_at, (bool_decide_false (hubName = "")) by done. by destruct ch.
  - intros He. apply (f_equal (fun s => length (bytes s))) in He. rewrite (bytes_app "/api/hub-admin/"), length_app in He.
    change (length (bytes "/api/hub-admin/")) with 15%nat in He. lia.
Qed.

(** The request that leaves the portal: the operation stands in its path unescaped. *)
Lemma change_forwarded dk hubName c penv pst u hub hst id ifMatch ch :
  reaches dk hubName c penv pst u hub hst -> no_slash hubName -> segment hubName -> Forall plain (changePath id ch) ->
  exists ct, served penv pst hst (BaseURL c) (changeRequest hubName c id ifMatch ch) =
    forward (hubNet hst) pst
      (UpReq (changeMethod ch) (base +:+ abs (hubPath id ch)) (h_AdminToken hub) ct (quoted ifMatch) ""
         (bytes_of (changeBody ch))) ur_ETag.
Proof.
  intros Hr Hn Hseg Hp. unfold served. rewrite change_on_wire by apply (re_base _ _ _ _ _ _ _ _ Hr).
  assert (Forall segment (operationPath hubName id ch)) as Hs.
  { unfold operationPath. apply Forall_app. split; [|by apply plain_segments].
    repeat constructor; done || apply Hseg. }
  unfold serve. erewrite change_routed by done. unfold handleAdminProxy.
  erewrite change_path by (done || apply Hseg). unfold authenticate.
  rewrite (re_user _ _ _ _ _ _ _ _ Hr)
    by (cbn [pq_Authorization]; by rewrite bool_decide_false by apply (re_token _ _ _ _ _ _ _ _ Hr)).
  rewrite (re_hub _ _ _ _ _ _ _ _ Hr). cbn [negb]. rewrite bool_decide_false by apply (re_admin _ _ _ _ _ _ _ _ Hr).
  eexists. f_equal. unfold adminUpstream, with_query. rewrite (re_url _ _ _ _ _ _ _ _ Hr).
  cbn [pq_Method pq_RawQuery pq_IfMatch pq_IfNoneMatch pq_Raw]. f_equal.
Qed.

(** The request as the hub's handler sees it. *)
Definition atHub (tok id ifMatch : string) (ch : change) : request :=
  Request (changeMethod ch) (abs (hubPath id ch)) ("Bearer " +:+ tok) None ∅ (quoted ifMatch)
    (match changeBody ch with Some j => BodyJson j | None => BodyEmpty end).

Lemma body_of_bytes b : body_of (bytes_of b) = match b with Some j => BodyJson j | None => BodyEmpty end.
Proof.
  destruct b as [j|]; [|done]. unfold body_of, bytes_of. pose proof (encode_some j). rewrite <- decode_encode_json.
  by destruct (EncodeJSON j).
Qed.

(** The body of the change is within what the hub reads of one. *)
Definition bodyFits (ch : change) : Prop := forall j, changeBody ch = Some j -> (jsonSize j <= adminBodyLimit)%Z.

Lemma change_at_hub tok ct hst id ifMatch ch : tok <> "" -> Forall plain (changePath id ch) -> bodyFits ch ->
  hubAt (UpReq (changeMethod ch) (base +:+ abs (hubPath id ch)) tok ct (quoted ifMatch) ""
           (bytes_of (changeBody ch))) hst =
  Some (encoded jsonSize "id" (fst (handleAdminAccess henv hst (atHub tok id ifMatch ch))),
        snd (handleAdminAccess henv hst (atHub tok id ifMatch ch))).
Proof.
  intros Ht Hp Hfit. unfold hubAt. cbn [up_URL up_Method up_Body up_Bearer up_IfMatch].
  assert (Forall plain (hubPath id ch)) as Hs by (apply Forall_app; split; [by repeat constructor|done]).
  rewrite target_plain by done. cbv zeta.
  rewrite cleanPath_abs, bool_decide_true, elements_plain, unescape_plain_path, body_of_bytes, bool_decide_false
    by (done || (by apply plain_good) || by destruct ch).
  assert (readLimited jsonSize (atHub tok id ifMatch ch) = atHub tok id ifMatch ch) as Hl
    by (apply readLimited_fits; intros j; unfold atHub; cbn [r_Body]; destruct (changeBody ch) eqn:Hb; [|done];
        intros [= <-]; by apply Hfit).
  destruct ch; cbn [dispatch hubPath changePath app]; cbv zeta; fold (atHub tok id ifMatch);
    rewrite <- Hl; try done.
Qed.

Lemma access_path_trimmed id ch : trim_prefix (trim_prefix (abs (hubPath id ch)) "/api/admin/access") "/" =
  id +:+ match ch with Grant m _ _ | Ungrant m => "/machines/" +:+ m | _ => "" end.
Proof.
  assert (abs (hubPath id ch) = "/api/admin/access" +:+ "/" +:+
    id +:+ match ch with Grant m _ _ | Ungrant m => "/machines/" +:+ m | _ => "" end) as ->.
  { destruct ch; unfold hubPath, changePath; cbn [app]; rewrite !abs_cons; unfold abs; cbn; by rewrite ?string_app_nil_r. }
  by rewrite !trim_prefix_app.
Qed.

Lemma cut_machines_none id : no_slash id -> cut id "/machines/" = None.
Proof.
  intros Hn. destruct (cut id "/machines/") as [[a b]|] eqn:Hc; [|done]. exfalso. apply Hn.
  apply cut_Some in Hc as ->. rewrite !bytes_app, !elem_of_app. right; left. by left.
Qed.

Lemma change_handled hst tok id ifMatch ch : Forall plain (changePath id ch) ->
  let r := atHub tok id ifMatch ch in
  handleAdminAccess henv hst r =
    match requireOwnerOrAdmin henv hst r with
    | None => (forbidden, hst)
    | Some _ => runAccessOp henv hst r id (opOf ch)
    end.
Proof.
  intros Hp r. assert (plain id /\ match ch with Grant m _ _ | Ungrant m => m <> "" | _ => True end) as [Hid Hm].
  { rewrite Forall_forall in Hp. split; [apply Hp; right; by left|].
    destruct ch; try done; (assert (plain machineId) as [[? _] _]; [apply Hp; unfold changePath; cbn [app]; set_solver|done]). }
  pose proof (plain_no_slash id Hid) as Hn. destruct Hid as [[Hne _] _].
  unfold handleAdminAccess. rewrite bool_decide_false by (by destruct ch).
  destruct (requireOwnerOrAdmin henv hst r); [|done]. change (r_Path r) with (abs (hubPath id ch)).
  rewrite access_path_trimmed. cbv zeta. rewrite bool_decide_false by (intros He; by destruct id).
  destruct ch; rewrite ?string_app_nil_r, ?cut_machines, ?cut_machines_none, ?(bool_decide_false (machineId = "")) by done; done.
Qed.

(** What the window gets of the hub's reply. *)
Definition shownOf (id : string) (p : creply) : shown :=
  if (cr_Status p =? 412)%Z then ShMap (conflictOf p id)
  else if (400 <=? cr_Status p)%Z then ShError (refusal p)
  else ShBody p.

Lemma appChange_mutates dk hubName hst id ifMatch ch :
  appChange dk hubName hst id ifMatch ch =
  fst (adminMutateAccess (dk_env dk) (dk_path dk) (dk_portal dk) (dk_net dk hst) (dk_arrival dk) hubName (changeMethod ch)
         (join_slash (map PathEscape (changePath id ch))) (changeBody ch) ifMatch id (dk_fs dk)).
Proof. by destruct ch. Qed.

Lemma change_sent dk hubName c penv pst u hub hst id ifMatch ch p :
  reaches dk hubName c penv pst u hub hst -> hubName <> "" ->
  dk_net dk hst (changeRequest hubName c id ifMatch ch) = Some p ->
  appChange dk hubName hst id ifMatch ch = shownOf id p.
Proof.
  intros Hr Hne Hp. rewrite appChange_mutates. unfold adminMutateAccess, adminProxyCallCtx.
  rewrite bool_decide_false by done. destruct (re_source _ _ _ _ _ _ _ _ Hr) as (sn & url & ok & fs1 & fs2 & -> & ->).
  assert (forall x, trim_prefix (trim_prefix ("access" +:+ x) "/api/admin/") "/" = "access" +:+ x) as Ht by done.
  assert (exists x, join_slash (map PathEscape (changePath id ch)) = "access" +:+ x) as [x Hx] by (destruct ch; by eexists).
  unfold changeRequest in Hp. rewrite Hx in Hp. rewrite Hx, Ht. unfold HubAdmin. rewrite bool_decide_false by done.
  rewrite (bool_decide_false (_ +:+ x = "")) by done. cbn [orb]. by rewrite Hp.
Qed.

Lemma encoded_status r : an_Status (encoded jsonSize "id" r) = status r.
Proof. unfold encoded. by destruct (json_of_payload "id" (body r)). Qed.

Lemma encoded_bytes r :
  body_of (match an_Body (encoded jsonSize "id" r) with BodyJson j => EncodeJSON j | _ => [] end) =
  an_Body (encoded jsonSize "id" r).
Proof.
  unfold encoded. destruct (json_of_payload "id" (body r)) as [j|]; [|done]. cbn [an_Body].
  exact (body_of_bytes (Some j)).
Qed.

(** A change as if it were made at the hub with this token: the window shows the reply of the hub's
    handler to it, and the hub becomes what the handler leaves. *)
Definition as_at_hub (tok : string) (hst : hubState) (id ifMatch : string) (ch : change) (sh : shown) (hst' : hubState) : Prop :=
  let '(resp, st) := handleAdminAccess henv hst (atHub tok id ifMatch ch) in
  (exists t, sh = shownOf id (CReply (status resp) t (an_Body (encoded jsonSize "id" resp)))) /\ hst' = st.

(** A change goes through the portal so. *)
Lemma change_served dk hubName c penv pst u hub hst id ifMatch ch resp hst' :
  reaches dk hubName c penv pst u hub hst -> no_slash hubName -> segment hubName -> Forall plain (changePath id ch) -> bodyFits ch ->
  handleAdminAccess henv hst (atHub (h_AdminToken hub) id ifMatch ch) = (resp, hst') ->
  (exists t, appChange dk hubName hst id ifMatch ch =
     shownOf id (CReply (status resp) t (an_Body (encoded jsonSize "id" resp)))) /\
  changed hubName c penv pst hst id ifMatch ch = hst'.
Proof.
  intros Hr Hn Hseg Hp Hfit Hh.
  destruct (change_forwarded dk hubName c penv pst u hub hst id ifMatch ch Hr Hn Hseg Hp) as [ct Hf].
  pose proof (change_at_hub (h_AdminToken hub) ct hst id ifMatch ch (re_admin _ _ _ _ _ _ _ _ Hr) Hp Hfit) as Ha.
  rewrite Hh in Ha. cbn [fst snd] in Ha.
  unfold changed. rewrite Hf. unfold forward, hubNet. rewrite Ha. split; [|cbn [o_sent done_with hubAfter fold_left]; by rewrite Ha].
  eexists. eapply change_sent; [done|apply Hseg|].
  rewrite (re_net _ _ _ _ _ _ _ _ Hr).
  - unfold portalNet. rewrite Hf. unfold forward, hubNet. rewrite Ha. unfold replied. cbn.
    rewrite app_nil_r, encoded_status, encoded_bytes. reflexivity.
  - rewrite operation_url by apply (re_base _ _ _ _ _ _ _ _ Hr). apply has_prefix_iff. by eexists.
Qed.

(** ** Statuses *)

Lemma conflict_answer st r id e resp st' : checkIfMatch st r id e = (Some resp, st') ->
  status resp = 412%Z /\ forall t, body resp <> PAlreadyRevoked id t.
Proof.
  unfold checkIfMatch. destruct (parseIfMatch _); [|done]. destruct (ensureAccessVersion _ _).
  destruct (_ =? _)%Z; [done|]. destruct (buildAccessEntry _ _). by intros [= <- <-].
Qed.

Lemma answers_refuse env st r id ch resp st' :
  runAccessOp env st r id (opOf ch) = (resp, st') ->
  (status resp = 200%Z \/ (400 <= status resp)%Z) /\ (forall t, body resp <> PAlreadyRevoked id t).
Proof.
  destruct ch; cbn [opOf runAccessOp]; intros Hrun.
  all: unfold adminSetMachineAccess, adminRevokeMachineAccess, adminPatchAccess, patchEntry in Hrun.
  all: repeat match type of Hrun with context [match ?x with _ => _ end] => destruct x eqn:? end.
  all: try (injection Hrun as <- <-; cbn; split; [lia|done]).
  all: simplify_eq; match goal with Hc : checkIfMatch _ _ _ _ = (Some _, _) |- _ =>
         apply conflict_answer in Hc as [-> ?]; split; [lia|done] end.
Qed.

End composed.

(** ** Two desktops *)

Section two.
  Context {T E U : Type} {PS : PortalStore T E U} {IL : Interleaving} {JT : JsonText} {SC : SourcesCodec} `{RangeOrder}.
  Context (hnet : Portals.portalNet) (hubID myName base : string) (jsonSize : json -> Z)
    (others : request -> hubState -> answer * hubState) (text : respBody -> string).

Lemma shown_body id p p' : shownOf id p = ShBody p' -> (cr_Status p < 400)%Z.
Proof. unfold shownOf. destruct (Z.eqb_spec (cr_Status p) 412); [done|]. destruct (Z.leb_spec 400 (cr_Status p)); [done|lia]. Qed.

Lemma quoted_version v : (0 <= v < 18446744073709551616)%Z -> parseIfMatch (quoted (FormatUint v)) = Some v.
Proof.
  intros Hv. unfold quoted. pose proof (FormatUint_nonempty v) as Hne. rewrite bool_decide_false by (intros He; by rewrite He in Hne).
  assert (dquote +:+ FormatUint v +:+ dquote = "" +:+ of_bytes ([quote] ++ bytes (FormatUint v) ++ [quote])) as ->.
  { apply bytes_inj. rewrite bytes_app, bytes_app. change ("" +:+ ?x) with x. by rewrite bytes_of_bytes. }
  apply parseIfMatch_quoted; [done|by left|by right].
Qed.

(** C30. A change goes through the portal as if it were made at the hub with the portal's token, and none
    is lost to another.  Two desktops, each at its own portal with its own token for the hub, change an
    identity from the same version, in bodies the hub reads whole and for identities and machines (the
    wildcard among them) whose names can stand in a path unescaped.  Each window shows what the hub's
    handler answers to that request with the portal's token, and the hub is left as the handler leaves
    it.  Once the first has been given the hub's reply, the second is shown the conflict or an error,
    and the hub keeps what the first wrote. *)
Theorem desktop_no_lost_update henv henv' dk dk' hubName hubName' c c' penv penv' pst pst' u u' hub hub' hst id v ch ch' :
  let hst1 := changed hnet hubID myName base jsonSize others henv hubName c penv pst hst id (FormatUint v) ch in
  let hst2 := changed hnet hubID myName base jsonSize others henv' hubName' c' penv' pst' hst1 id (FormatUint v) ch' in
  let shown1 := appChange dk hubName hst id (FormatUint v) ch in
  let shown2 := appChange dk' hubName' hst1 id (FormatUint v) ch' in
  (0 <= v < 18446744073709551615)%Z -> NoDup (te_ID <$> cfg_tokens hst) ->
  no_slash hubName -> segment hubName -> no_slash hubName' -> segment hubName' ->
  Forall plain (changePath id ch) -> Forall plain (changePath id ch') -> bodyFits jsonSize ch -> bodyFits jsonSize ch' ->
  reaches hnet hubID myName base jsonSize others henv text dk hubName c penv pst u hub hst ->
  reaches hnet hubID myName base jsonSize others henv' text dk' hubName' c' penv' pst' u' hub' hst1 ->
  as_at_hub jsonSize henv (h_AdminToken hub) hst id (FormatUint v) ch shown1 hst1 /\
  as_at_hub jsonSize henv' (h_AdminToken hub') hst1 id (FormatUint v) ch' shown2 hst2 /\
  ((exists p, shown1 = ShBody p) -> (forall p, shown2 <> ShBody p) /\ unchanged hst1 hst2).
Proof.
  intros hst1 hst2 shown1 shown2 Hv Hnd Hn Hs Hn' Hs' Hp Hp' Hf Hf' Hr Hr'. unfold as_at_hub.
  destruct (handleAdminAccess henv hst (atHub (h_AdminToken hub) id (FormatUint v) ch)) as [resp st1] eqn:Hh.
  destruct (change_served hnet hubID myName base jsonSize others henv text dk hubName c penv pst u hub hst id _ ch _ _
    Hr Hn Hs Hp Hf Hh) as [[t Ht] Hst]. fold hst1 in Hst. subst st1.
  destruct (handleAdminAccess henv' hst1 (atHub (h_AdminToken hub') id (FormatUint v) ch')) as [resp' st2] eqn:Hh'.
  destruct (change_served hnet hubID myName base jsonSize others henv' text dk' hubName' c' penv' pst' u' hub' hst1 id _ ch' _ _
    Hr' Hn' Hs' Hp' Hf' Hh') as [[t' Ht'] Hst]. fold hst2 in Hst. subst st2.
  split; [by split; [eexists|]|]. split; [by split; [eexists|]|]. intros [p Hb].
  unfold shown1 in Hb. rewrite Ht in Hb. apply shown_body in Hb. cbn [cr_Status] in Hb.
  rewrite change_handled in Hh, Hh' by done.
  destruct (requireOwnerOrAdmin henv hst _); [|injection Hh as <- _; by cbn in Hb].
  destruct (answers_refuse _ _ _ _ _ _ _ Hh) as [[Hok|?] Har]; [|lia].
  assert (status resp' <> 200%Z /\ unchanged hst1 hst2 /\ (status resp' = 200%Z \/ (400 <= status resp')%Z)) as (Hne & Hun & Hst).
  { destruct (requireOwnerOrAdmin henv' hst1 _); [|injection Hh' as <- <-; split_and!; [done|apply unchanged_refl|by right]].
    assert (status resp' <> 200%Z /\ unchanged hst1 hst2) as [? ?].
    { refine (stale_refused _ _ _ _ _ _ _ _ _ _ _ _ v Hh Hok Har Hnd _ _ Hv Hh'); apply quoted_version; lia. }
    split_and!; [done..|]. by apply (answers_refuse _ _ _ _ _ _ _ Hh'). }
  split; [|done]. intros p' Hb'. unfold shown2 in Hb'. rewrite Ht' in Hb'. apply shown_body in Hb'. cbn [cr_Status] in Hb'. lia.
Qed.

End two.

(** * The desktop application's administration evaluated

    Two desktops, a portal and a hub at concrete values, and what the application does where one would
    not expect it. *)

(** ** JSON on the wire *)

Abbreviation jtree := (gen_tree (option (bool + Z + string))).
Fixpoint tree_of (j : json) : jtree :=
  match j with
  | JNull => GenLeaf None
  | JBool b => GenLeaf (Some (inl (inl b)))
  | JNum n => GenLeaf (Some (inl (inr n)))
  | JStr s => GenLeaf (Some (inr s))
  | JArr l => GenNode 0 (map tree_of l)
  | JObj kvs => GenNode 1 (map (fun kv => GenNode 2 [GenLeaf (Some (inr (fst kv))); tree_of (snd kv)]) kvs)
  end.
Fixpoint of_tree (t : jtree) : json :=
  match t with
  | GenLeaf None => JNull
  | GenLeaf (Some (inl (inl b))) => JBool b
  | GenLeaf (Some (inl (inr n))) => JNum n
  | GenLeaf (Some (inr s)) => JStr s
  | GenNode 0 l => JArr (map of_tree l)
  | GenNode _ l => JObj (map (fun t => match t with
                                       | GenNode _ [GenLeaf (Some (inr k)); v] => (k, of_tree v)
                                       | _ => ("", JNull)
                                       end) l)
  end.

Fixpoint of_tree_of (j : json) : of_tree (tree_of j) = j.
Proof.
  destruct j as [| | | |l|kvs]; cbn [tree_of of_tree]; try done; f_equal; rewrite map_map.
  - induction l as [|x l IH]; [done|]. cbn [map]. by rewrite of_tree_of, IH.
  - induction kvs as [|[k x] l IH]; [done|]. cbn [map fst snd of_tree]. by rewrite of_tree_of, IH.
Qed.

#[export] Instance demo_json_text : JsonText.
Proof.
  refine {| EncodeJSON j := 49%Z :: digits_of (encode (tree_of j));
            DecodeJSON l := match (p ← of_digits (tl l); decode p) with
                            | Some t => BodyJson (of_tree t) | None => BodyBad end |}; [|done].
  intros j. cbn [tl]. rewrite of_digits_of. cbn [mbind option_bind]. rewrite decode_encode. by rewrite of_tree_of.
Defined.

(** ** A portal, a hub and two desktops *)

Definition boss_home : storedHub := StoredHub "home" "id-1" "https://hub.example/" "view" "boss-token" "" "".
Definition desk_portal : fstate :=
  (MkStore demo_path "portal-1" (hashHex "operator") {[ "home" := boss_home ]}, demo_disk).
Definition desk_client : Client := MkClient "http://127.0.0.1:4711" "operator".
Definition desk_sources : list PortalSource := [].
Definition desk_fs : fsys := {[ ["home"] := NDir; ["home"; ".tela"] := NDir ]}.
Abbreviation hub_world f :=
  (f (fun _ => Portals.ExFailed) "id-1" "hub" "https://hub.example" (fun _ => 0%Z) (fun _ st => (Answer 404 BodyEmpty 0, st))).
Definition desk_net (henv : environ) (hst : hubState) : transport := fun q =>
  if has_prefix (cq_URL q) "http://127.0.0.1:4711"
  then hub_world portalNet henv (fun _ => "body") (demo_fenv "") desk_portal "http://127.0.0.1:4711" hst q else None.
Definition desk (henv : environ) : desktop :=
  Desktop (demo_fenv "") "/home/.tela/portal-sources.yaml" (Some ("http://127.0.0.1:4711", "operator")) (desk_net henv)
    (fun m => map_to_list m) desk_fs.

Abbreviation granting := (Grant "*" "connect" "ssh").
Abbreviation shown_at henv hst ch := (appChange (desk henv) "home" hst "alice" (FormatUint 1) ch).
Definition after_grant : hubState :=
  hub_world changed (env_at 5) "home" desk_client (demo_fenv "") desk_portal AdminTokens.demo_hub "alice" (FormatUint 1) granting.

Lemma desk_reaches henv hst :
  hub_world reaches henv (fun _ => "body") (desk henv) "home" desk_client (demo_fenv "") desk_portal LocalUser
    (toPublicHub boss_home) hst.
Proof.
  split.
  - eexists "Local", "https://hub.example/", true, desk_fs, desk_fs. split; vm_compute; reflexivity.
  - intros q Hq. cbn [dk_net desk]. unfold desk_net. change (BaseURL desk_client) with "http://127.0.0.1:4711" in *. by rewrite Hq.
  - vm_compute; reflexivity.
  - discriminate.
  - intros r Hr. unfold Authenticate, fileStore, file_Authenticate. rewrite Hr. vm_compute; reflexivity.
  - vm_compute; reflexivity.
  - vm_compute; reflexivity.
  - discriminate.
Qed.

Ltac plain_names :=
  repeat (apply Forall_cons_2; [split; [by repeat split|by repeat (constructor; [by vm_compute|])]|]); constructor.
Lemma grant_path : Forall plain (changePath "alice" (Grant "*" "connect" "ssh")).
Proof. plain_names. Qed.
Lemma rename_path : Forall plain (changePath "alice" (Rename "bob")).
Proof. plain_names. Qed.

Lemma first_granted : exists p, appChange (desk (env_at 5)) "home" AdminTokens.demo_hub "alice" (FormatUint 1) granting = ShBody p.
Proof. eexists. vm_compute. reflexivity. Qed.

Lemma home_segment : segment "home". Proof. by repeat split. Qed.

(** Two desktops saw version 1 of "alice": one grants her every machine, the other would rename her. *)
Lemma desktop_no_lost_update_witness :
  let after := hub_world changed (env_at 6) "home" desk_client (demo_fenv "") desk_portal after_grant "alice" (FormatUint 1) (Rename "bob") in
  (exists p, appChange (desk (env_at 5)) "home" AdminTokens.demo_hub "alice" (FormatUint 1) granting = ShBody p) /\
  as_at_hub (fun _ => 0%Z) (env_at 6) "boss-token" after_grant "alice" (FormatUint 1) (Rename "bob")
    (appChange (desk (env_at 6)) "home" after_grant "alice" (FormatUint 1) (Rename "bob")) after /\
  (forall p', appChange (desk (env_at 6)) "home" after_grant "alice" (FormatUint 1) (Rename "bob") <> ShBody p') /\
  unchanged after_grant after.
Proof.
  cbv zeta.
  pose proof (desktop_no_lost_update (fun _ => Portals.ExFailed) "id-1" "hub" "https://hub.example" (fun _ => 0%Z)
    (fun _ st => (Answer 404 BodyEmpty 0, st)) (fun _ => "body") (env_at 5) (env_at 6) (desk (env_at 5)) (desk (env_at 6)) "home" "home"
    desk_client desk_client (demo_fenv "") (demo_fenv "") desk_portal desk_portal LocalUser LocalUser
    (toPublicHub boss_home) (toPublicHub boss_home) AdminTokens.demo_hub "alice" 1 granting (Rename "bob")) as Hw.
  cbv zeta in Hw. unfold after_grant.
  destruct Hw as (_ & H2 & H3).
  - lia.
  - apply (bool_decide_unpack _). vm_compute. exact I.
  - apply (bool_decide_unpack _). vm_compute. exact I.
  - exact home_segment.
  - apply (bool_decide_unpack _). vm_compute. exact I.
  - exact home_segment.
  - exact grant_path.
  - exact rename_path.
  - intros j _. by vm_compute.
  - intros j _. by vm_compute.
  - apply desk_reaches.
  - apply desk_reaches.
  - split; [exact first_granted|]. split; [exact H2|]. exact (H3 first_granted).
Defined.

(** ** Where the code surprises *)

Abbreviation with_desk f :=
  (f (demo_fenv "") "/home/.tela/portal-sources.yaml" (Some ("http://127.0.0.1:4711", "operator")) (desk_net (env_at 5) AdminTokens.demo_hub)).

(** The space after a comma stays with the permission, and the hub grants only what stands before it. *)
Example unspaced_permission_lost :
  (fun a => (ConnectTokens a, ManageTokens a)) <$>
    cfg_machines (hub_world changed (env_at 5) "home" desk_client (demo_fenv "") desk_portal AdminTokens.demo_hub "alice" (FormatUint 1)
      (Grant "m" "connect, manage" "")) !! "m" = Some ([ConnectGrant "alice-token" []], []).
Proof. by vm_compute. Qed.

(** A space of an identity arrives as a plus sign. *)
Example rotated_identity_changed : PathUnescape ("rotate/" +:+ QueryEscape "night desk") = Some "rotate/night+desk".
Proof. by vm_compute. Qed.

(** A name that is not valid is taken for the default channel. *)
Example invalid_source_built_in :
  fst (with_desk SetHubSource (fun m => map_to_list m) "home" "my channel!" "https://x.example" desk_fs) =
    ShError (AeMessage "cannot override built-in channel").
Proof. by vm_compute. Qed.

(** A hub listed with a slash at the end is not found by its own URL. *)
Example listed_url_not_found :
  ListHubs (desk_net (env_at 5) AdminTokens.demo_hub) desk_client = inr home_listed /\
  fst (with_desk RemoveHub "https://hub.example/" desk_fs) = Some (AeSource SeNotFound).
Proof. by vm_compute. Qed.

(** A credential store that cannot be read is overwritten. *)
Definition torn_fs : fsys := <[["home"; ".tela"; "credentials.yaml"] := NFile [0%Z]]> desk_fs.
Example torn_credentials_overwritten :
  Load torn_fs "/home/.tela/credentials.yaml" = None /\
  cs_Hubs <$> Load (with_desk syncHubTokensToCredstore (fun m => map_to_list m) no_fault "/home/.tela/credentials.yaml"
    ["https://hub.example"] torn_fs) "/home/.tela/credentials.yaml" =
    Some {[ "https://hub.example" := MkCredential "boss-token" "" "" ]}.
Proof. by vm_compute. Qed.
