(* ===== verification/AppProfiles.v ===== *)
(** * The desktop application's profiles, ports and settings ([cmd/telagui/app.go])

    The application writes the profiles the command-line client connects with: it picks the local ports,
    saves the connections, and keeps hub identities and names up to date.  It shares the credential
    store and the release channel with the client as well.  File operations are those of [Profiles], and
    so is the YAML library: [yaml_apps] reads and writes by the application's own struct tags. *)

From S2P Require Import Prelude Http FilePath FileSys FileShare PortalProtocol PortalFile PortalClient PortalSources.
From S2P Require Import HubConfig Credstore Channel ClientConnect ClientConfig Profiles AppAdmin.
From S2P Require ClientUpdate Aggregate.
From Stdlib Require Import ZArith Lia Ascii String.
From stdpp Require Import base gmap strings list fin_maps fin_sets.

(** ** Local ports *)

Record PortRequest := MkPortRequest { prq_Key : string; prq_ServicePort : Z }.
Record PortAssignment := MkPortAssignment { pa_Key : string; pa_LocalPort : Z }.

Section ports.
  (** Whether both probes of [isPortAvailable] can listen. *)
  Context (isPortAvailable : Z -> bool).

Definition freePort (assigned : gset Z) (port : Z) : bool := negb (bool_decide (port ∈ assigned)) && isPortAvailable port.
Fixpoint scanPorts (n : nat) (assigned : gset Z) (candidate : Z) : option Z :=
  match n with
  | O => None
  | S n => if freePort assigned candidate then Some candidate else scanPorts n assigned (i64 (candidate + 1))
  end.

(** The advertised port, one of the hundred from 10000 above it, or as a last resort the advertised one
    all the same. *)
Definition AssignLocalPort (assigned : gset Z) (servicePort : Z) : Z * gset Z :=
  let port :=
    if freePort assigned servicePort then servicePort
    else default servicePort (scanPorts 100 assigned (i64 (servicePort + 10000))) in
  (port, {[ port ]} ∪ assigned).

Fixpoint resolvePorts (assigned : gset Z) (requests : list PortRequest) : list PortAssignment * gset Z :=
  match requests with
  | [] => ([], assigned)
  | r :: requests =>
      let '(port, assigned) := AssignLocalPort assigned (prq_ServicePort r) in
      let '(results, assigned) := resolvePorts assigned requests in
      (MkPortAssignment (prq_Key r) port :: results, assigned)
  end.
(** Earlier assignments are forgotten. *)
Definition ResolveAllPorts (requests : list PortRequest) : list PortAssignment * gset Z := resolvePorts ∅ requests.
Definition ReleaseLocalPort (assigned : gset Z) (port : Z) : gset Z := assigned ∖ {[ port ]}.

End ports.

Definition AppLoopbackAddr (hubURL machine : string) : string := LoopbackAddr "127.88" hubURL machine.

(** ** Small helpers *)

Definition toWSURL (hubURL : string) : string :=
  if has_prefix hubURL "https://" then "wss://" +:+ trim_prefix hubURL "https://"
  else if has_prefix hubURL "http://" then "ws://" +:+ trim_prefix hubURL "http://"
  else if negb (has_prefix hubURL "wss://") && negb (has_prefix hubURL "ws://") then "wss://" +:+ hubURL
  else hubURL.

Definition is_hex_digit (c : ascii) : bool :=
  is_digit c || ((code "a" <=? code c)%Z && (code c <=? code "f")%Z) || ((code "A" <=? code c)%Z && (code c <=? code "F")%Z).
Definition DetectCredentialType (input : string) : string :=
  let input := bytes (trim_space input) in
  if (length input =? 9)%nat && match input !! 4 with Some c => Ascii.eqb c "-" | None => false end then "code"
  else if (length input =? 64)%nat && forallb is_hex_digit input then "token"
  else "unknown".

Definition sanitizeFilenameComponent (s : string) : string :=
  of_bytes (map (fun c => if is_lower c || is_upper c || is_digit c || existsb (Ascii.eqb c) ["."; "-"; "_"]%char then c else "_"%char) (bytes s)).

(** ** Profiles *)

Record appConnection := AppConnection {
  ac_HubID : string; ac_Hub : string; ac_AgentID : string; ac_Machine : string; ac_Token : string;
  ac_Services : list profileService
}.
Record appProfile := AppProfile {
  ap_ID : string; ap_Name : string; ap_Connections : list appConnection; ap_MTU : Z; ap_Mount : profileMount
}.
Definition noProfile : appProfile := AppProfile "" "" [] 0 (ProfileMount "" 0 false).

(** The client's view of the application's profile; the application knows
    neither the address of a connection nor the loopback prefix. *)
Definition to_connection (c : appConnection) : profileConnection :=
  ProfileConnection (ac_HubID c) (ac_Hub c) (ac_AgentID c) (ac_Machine c) (ac_Token c) "" (ac_Services c).
Definition to_client (p : appProfile) : connectionProfile :=
  ConnectionProfile (ap_ID p) (ap_Name p) (map to_connection (ap_Connections p)) (ap_MTU p) (ap_Mount p) "".

(** Decoding gives what it could decode and whether all of it could be. *)
Class AppProfileCodec := {
  MarshalApp : appProfile -> option (list Z);
  UnmarshalApp : list Z -> appProfile * bool;
  unmarshal_app p d : MarshalApp p = Some d -> UnmarshalApp d = (p, true)
}.

(** *** The application's struct tags, beside those of the client in [Profiles] *)

Definition appServiceType : ytype := TStruct [("name", TStr); ("local", TInt); ("remote", TInt)].
Definition appConnectionType : ytype :=
  TStruct [("hubId", TStr); ("hub", TStr); ("agentId", TStr); ("machine", TStr); ("token", TStr); ("services", TSeq appServiceType)].
Definition appMountType : ytype := TStruct [("mount", TStr); ("port", TInt); ("auto", TBool)].
Definition appProfileType : ytype :=
  TStruct [("id", TStr); ("name", TStr); ("connections", TSeq appConnectionType); ("mtu", TInt); ("mount", appMountType)].

Definition appServiceDoc (v : profileService) : yvalue :=
  YMap ([("name", YStr (vs_Name v)); ("local", YInt (vs_Local v))] ++ some_int "remote" (vs_Remote v)).
Definition appConnectionDoc (c : appConnection) : yvalue :=
  YMap (some_str "hubId" (ac_HubID c) ++ [("hub", YStr (ac_Hub c))] ++ some_str "agentId" (ac_AgentID c) ++
        [("machine", YStr (ac_Machine c))] ++ some_str "token" (ac_Token c) ++
        [("services", YSeq (map appServiceDoc (ac_Services c)))]).
Definition appMountDoc (m : profileMount) : list (string * yvalue) :=
  let kvs := some_str "mount" (pm_Mount m) ++ some_int "port" (pm_Port m) ++ some_bool "auto" (pm_Auto m) in
  if is_nil kvs then [] else [("mount", YMap kvs)].
Definition appProfileDoc (p : appProfile) : yvalue :=
  YMap (some_str "id" (ap_ID p) ++ some_str "name" (ap_Name p) ++
        [("connections", YSeq (map appConnectionDoc (ap_Connections p)))] ++ some_int "mtu" (ap_MTU p) ++ appMountDoc (ap_Mount p)).

Definition appConnectionOf (v : yvalue) : appConnection :=
  AppConnection (str_field "hubId" v) (str_field "hub" v) (str_field "agentId" v) (str_field "machine" v)
    (str_field "token" v) (map serviceOf (seq_field "services" v)).
Definition appProfileOf (v : yvalue) : appProfile :=
  AppProfile (str_field "id" v) (str_field "name" v) (map appConnectionOf (seq_field "connections" v)) (int_field "mtu" v)
    (mountOf (map_field "mount" v)).

(** *** What one program writes, as the other reads it *)

Lemma app_service_reads v : yfits appServiceType (appServiceDoc v) = true /\ serviceOf (yread appServiceType (appServiceDoc v)) = v.
Proof. destruct v as [r l n]. unfold appServiceDoc. cbn [vs_Remote vs_Local vs_Name]. by fields_omitted. Qed.
Lemma client_service_reads v : yfits serviceType (appServiceDoc v) = true /\ serviceOf (yread serviceType (appServiceDoc v)) = v.
Proof. destruct v as [r l n]. unfold appServiceDoc. cbn [vs_Remote vs_Local vs_Name]. by fields_omitted. Qed.

Lemma app_connection_reads c :
  yfits appConnectionType (appConnectionDoc c) = true /\ appConnectionOf (yread appConnectionType (appConnectionDoc c)) = c.
Proof.
  destruct c as [hi h ai m t vs]. unfold appConnectionDoc. cbn [ac_HubID ac_Hub ac_AgentID ac_Machine ac_Token ac_Services].
  destruct (list_reads appServiceType appServiceDoc serviceOf (fun v => v) app_service_reads vs) as [Hf Hr]. rewrite map_id in Hr.
  set (l := map appServiceDoc vs) in *. clearbody l.
  fields_omitted; (split; [cbn -[appServiceType]; by rewrite Hf|unfold appConnectionOf; cbn -[appServiceType serviceOf]; by rewrite Hr]).
Qed.
Lemma client_connection_reads c :
  yfits connectionType (appConnectionDoc c) = true /\ connectionOf (yread connectionType (appConnectionDoc c)) = to_connection c.
Proof.
  destruct c as [hi h ai m t vs]. unfold appConnectionDoc. cbn [ac_HubID ac_Hub ac_AgentID ac_Machine ac_Token ac_Services].
  destruct (list_reads serviceType appServiceDoc serviceOf (fun v => v) client_service_reads vs) as [Hf Hr]. rewrite map_id in Hr.
  set (l := map appServiceDoc vs) in *. clearbody l.
  fields_omitted; (split; [cbn -[serviceType]; by rewrite Hf|unfold connectionOf; cbn -[serviceType serviceOf]; by rewrite Hr]).
Qed.

Lemma app_profile_reads p : yfits appProfileType (appProfileDoc p) = true /\ appProfileOf (yread appProfileType (appProfileDoc p)) = p.
Proof.
  destruct p as [i n cs mtu m]. unfold appProfileDoc. cbn [ap_ID ap_Name ap_Connections ap_MTU ap_Mount].
  destruct (list_reads appConnectionType appConnectionDoc appConnectionOf (fun c => c) app_connection_reads cs) as [Hf Hr]. rewrite map_id in Hr.
  set (l := map appConnectionDoc cs) in *. clearbody l. change appMountDoc with mountDoc.
  destruct (mount_reads m) as [[-> ->]|(v & -> & Hmf & Hmr)]; fields_omitted.
  all: split; [cbn -[appConnectionType appMountType]; change appMountType with mountType; rewrite Hf, ?Hmf; reflexivity|].
  all: unfold appProfileOf; cbn -[appConnectionType appMountType appConnectionOf mountOf]; change appMountType with mountType; rewrite Hr, ?Hmr; reflexivity.
Qed.
Lemma client_profile_reads p :
  yfits profileType (appProfileDoc p) = true /\ profileOf (yread profileType (appProfileDoc p)) = to_client p.
Proof.
  destruct p as [i n cs mtu m]. unfold appProfileDoc, to_client. cbn [ap_ID ap_Name ap_Connections ap_MTU ap_Mount].
  destruct (list_reads connectionType appConnectionDoc connectionOf to_connection client_connection_reads cs) as [Hf Hr].
  set (l := map appConnectionDoc cs) in *. clearbody l. change appMountDoc with mountDoc.
  destruct (mount_reads m) as [[-> ->]|(v & -> & Hmf & Hmr)]; fields_omitted.
  all: split; [cbn -[connectionType mountType]; rewrite Hf, ?Hmf; reflexivity|].
  all: unfold profileOf; cbn -[connectionType mountType connectionOf mountOf]; rewrite Hr, ?Hmr; reflexivity.
Qed.

Definition yaml_apps {Y : Yaml} : AppProfileCodec.
Proof.
  refine {| MarshalApp p := MarshalYaml (appProfileDoc p);
            UnmarshalApp d := let '(v, ok) := UnmarshalYaml appProfileType (of_z_bytes d) in (appProfileOf v, ok) |}.
  intros p d Hd. destruct (app_profile_reads p) as [Hf Hr]. rewrite (unmarshal_yaml _ _ _ Hd Hf). by rewrite Hr.
Defined.

(** The client reads the application's profile whole. *)
Lemma client_reads_app {Y : Yaml} p d :
  @MarshalApp yaml_apps p = Some d -> @UnmarshalProfile yaml_profiles (of_z_bytes d) = Some (to_client p).
Proof.
  intros Hd. destruct (client_profile_reads p) as [Hf Hr]. change (MarshalYaml (appProfileDoc p) = Some d) in Hd.
  change (@UnmarshalProfile yaml_profiles) with (fun s => let '(v, ok) := UnmarshalYaml profileType s in if ok : bool then Some (profileOf v) else None).
  cbv beta. rewrite (unmarshal_yaml _ _ _ Hd Hf). by rewrite Hr.
Qed.

Definition set_identity (p : appProfile) (id name : string) : appProfile :=
  AppProfile id name (ap_Connections p) (ap_MTU p) (ap_Mount p).
Definition set_connections (p : appProfile) (l : list appConnection) : appProfile :=
  AppProfile (ap_ID p) (ap_Name p) l (ap_MTU p) (ap_Mount p).
Definition set_HubID (c : appConnection) (id : string) : appConnection :=
  AppConnection id (ac_Hub c) (ac_AgentID c) (ac_Machine c) (ac_Token c) (ac_Services c).
Definition without_token (c : appConnection) : appConnection :=
  AppConnection (ac_HubID c) (ac_Hub c) (ac_AgentID c) (ac_Machine c) "" (ac_Services c).

Section profiles.
  Context {PC : ProfileCodec} {AC : AppProfileCodec} {SC : SourcesCodec} `{RangeOrder}.
  Context (lenv : fileEnv) (sourcesPath : string) (portal : option (string * string)) (net : transport)
    (arrival : gmap string Client -> list (string * Client)).
  (** The active profile is known by name. *)
  Context (profilesDir : string).

Definition appProfilePath (current : string) : string := FilePath.Join profilesDir (current +:+ ".yaml").

(** The profile as far as it could be read, whether it differs from the file, whether it was read. *)
Definition loadProfileFile (uuid : string) (fs : fsys) (path : string) : appProfile * bool * bool :=
  match ReadFile fs path with
  | RdData d =>
      let '(profile, ok) := UnmarshalApp d in
      if negb ok then (profile, false, false)
      else
        let id := if ap_ID profile =s "" then uuid else ap_ID profile in
        let expectedName := trim_suffix (Base path) (Ext path) in
        (set_identity profile id expectedName, (ap_ID profile =s "") || (ap_Name profile <>s expectedName), true)
  | _ => (noProfile, false, false)
  end.

Definition writeProfileFile (fault : saveEnv) (fs : fsys) (path : string) (profile : appProfile) : bool * fsys :=
  match MarshalApp profile with None => (false, fs) | Some d => writeDoc fault fs path (Some d) end.

(** The identities of the hubs the portals list, by the name shown. *)
Definition hubIDs (hubs : list Aggregate.MergedHub) : gmap string string :=
  fold_left (fun m h => if Aggregate.mh_HubID h <>s "" then <[Aggregate.mh_Name h := Aggregate.mh_HubID h]> m else m) hubs ∅.
Definition fillHubID (byName : gmap string string) (c : appConnection) : appConnection * bool :=
  if (ac_HubID c <>s "") || (ac_Hub c =s "") then (c, false)
  else match byName !! ac_Hub c with Some id => (set_HubID c id, true) | None => (c, false) end.
Definition fillConnectionHubIDs (conns : list appConnection) (fs : fsys) : (list appConnection * bool) * fsys :=
  if negb (existsb (fun c => ac_HubID c =s "") conns) then ((conns, false), fs)
  else
    let '(clients, fs) := enabledPortalClients lenv sourcesPath portal fs in
    match clients with
    | None => ((conns, false), fs)
    | Some clients =>
        if bool_decide (clients = ∅) then ((conns, false), fs)
        else
          let merged := Aggregate.merge (map (fetchSource net) (arrival clients)) in
          let filled := map (fillHubID (hubIDs (Aggregate.res_Hubs merged))) conns in
          ((map fst filled, existsb snd filled), fs)
    end.

(** A profile brought up to date; the third component is whether it is to be written. *)
Definition refreshed (profile : appProfile) (dirty : bool) (fs : fsys) : appProfile * bool * fsys :=
  let '((conns, changed), fs) := fillConnectionHubIDs (ap_Connections profile) fs in
  (set_connections profile conns, dirty || changed, fs).

(** The result of the write is ignored. *)
Definition LoadProfile (uuid : string) (fault : saveEnv) (current : string) (fs : fsys) : option (list appConnection) * fsys :=
  let path := appProfilePath current in
  let '(profile, dirty, ok) := loadProfileFile uuid fs path in
  if negb ok then (None, fs)
  else
    let '(profile, dirty, fs) := refreshed profile dirty fs in
    (Some (ap_Connections profile), if dirty then snd (writeProfileFile fault fs path profile) else fs).

(** [connections] is what the text of the window decodes to.  Identity, MTU and mount are those of the
    profile there is, as far as it could be read. *)
Definition SaveProfile (uuid : string) (fault : saveEnv) (current : string) (connections : option (list appConnection)) (fs : fsys)
    : option string * fsys :=
  match connections with
  | None => (None, fs)
  | Some connections =>
      let path := appProfilePath current in
      let '(existing, _, _) := loadProfileFile uuid fs path in
      let id := if ap_ID existing =s "" then uuid else ap_ID existing in
      let name := if ap_Name existing =s "" then trim_suffix (Base path) (Ext path) else ap_Name existing in
      let profile := AppProfile id name (map without_token connections) (ap_MTU existing) (ap_Mount existing) in
      let '(ok, fs) := writeProfileFile fault fs path profile in
      (if ok then Some path else None, fs)
  end.

(** *** All profiles *)

Inductive migrated := MgSkipped | MgFailed | MgMigrated | MgUpToDate.
Definition migrateFile (uuid : string) (fault : saveEnv) (fs : fsys) (e : string * node) : migrated * fsys :=
  if is_dir (snd e) || negb (is_profile_name (fst e)) then (MgSkipped, fs)
  else
    let path := FilePath.Join profilesDir (fst e) in
    let '(profile, dirty, ok) := loadProfileFile uuid fs path in
    if negb ok then (MgFailed, fs)
    else
      let '(profile, dirty, fs) := refreshed profile dirty fs in
      if dirty then let '(ok, fs) := writeProfileFile fault fs path profile in (if ok then MgMigrated else MgFailed, fs)
      else (MgUpToDate, fs).
Fixpoint migrateFiles (uuids : nat -> string) (faults : nat -> saveEnv) (k : nat) (fs : fsys) (l : list (string * node))
    : list migrated * fsys :=
  match l with
  | [] => ([], fs)
  | e :: l =>
      let '(m, fs) := migrateFile (uuids k) (faults k) fs e in
      let '(ms, fs) := migrateFiles uuids faults (S k) fs l in
      (m :: ms, fs)
  end.
(** The files and what became of each; [None] when the directory cannot be read. *)
Definition MigrateAllProfiles (uuids : nat -> string) (faults : nat -> saveEnv) (fs : fsys) : option (list migrated) * fsys :=
  match ReadDir fs profilesDir with
  | None => (None, fs)
  | Some l => let '(ms, fs) := migrateFiles uuids faults 0 fs l in (Some ms, fs)
  end.

Definition ListProfiles (current : string) (fs : fsys) : list string :=
  match ReadDir fs profilesDir with
  | None => [current]
  | Some l =>
      match omap (fun e =>
        if is_dir (snd e) then None
        else if has_suffix (fst e) ".yaml" then Some (trim_suffix (fst e) ".yaml")
        else if has_suffix (fst e) ".yml" then Some (trim_suffix (fst e) ".yml")
        else None) l with
      | [] => [current]
      | names => names
      end
  end.

Definition GetProfileYAML (current : string) (fs : fsys) : list Z :=
  match ReadFile fs (appProfilePath current) with RdData d => d | _ => [] end.

(** The new current profile, and whether a running client is disconnected first. *)
Definition SwitchProfile (name current : string) : string * bool := (name, name <>s current).

Definition emptyProfile : list Z := z_bytes ("connections: []" +:+ String "010" "").
(** That the directory cannot be made is not an error here. *)
Definition CreateProfile (fault : saveEnv) (name : string) (fs : fsys) : bool * fsys :=
  let name := trim_space name in
  if name =s "" then (false, fs)
  else
    let fs := if se_fault fault "mkdirall" then fs else snd (MkdirAll fs profilesDir) in
    let path := FilePath.Join profilesDir (name +:+ ".yaml") in
    match Stat fs path with
    | SInfo _ => (false, fs)
    | _ => writeProfile fault fs path emptyProfile
    end.

(** With it the name of the active profile. *)
Definition RenameProfile (oldName newName current : string) (fs : fsys) : (bool * string) * fsys :=
  let newName := trim_space newName in
  let oldPath := FilePath.Join profilesDir (oldName +:+ ".yaml") in
  let newPath := FilePath.Join profilesDir (newName +:+ ".yaml") in
  if newName =s "" then ((false, current), fs)
  else match Stat fs oldPath, Stat fs newPath with
  | SInfo _, SInfo _ => ((false, current), fs)
  | SInfo _, _ =>
      match Rename fs oldPath newPath with
      | None => ((false, current), fs)
      | Some fs => ((true, if current =s oldName then newName else current), fs)
      end
  | _, _ => ((false, current), fs)
  end.

Definition DeleteProfile (name current : string) (fs : fsys) : bool * fsys :=
  if name =s current then (false, fs)
  else match Remove fs (FilePath.Join profilesDir (name +:+ ".yaml")) with Some fs => (true, fs) | None => (false, fs) end.

(** *** One setting of the active profile *)

Definition readProfile (current : string) (fs : fsys) : option appProfile :=
  match ReadFile fs (appProfilePath current) with
  | RdData d => let '(p, ok) := UnmarshalApp d in if ok : bool then Some p else None
  | _ => None
  end.
Definition changeProfile (f : appProfile -> appProfile) (fault : saveEnv) (current : string) (fs : fsys) : bool * fsys :=
  match readProfile current fs with
  | None => (false, fs)
  | Some p =>
      match MarshalApp (f p) with
      | None => (false, fs)
      | Some out => writeProfile fault fs (appProfilePath current) out
      end
  end.
Definition GetProfileMTU (current : string) (fs : fsys) : Z := default 0%Z (ap_MTU <$> readProfile current fs).
Definition SetProfileMTU (mtu : Z) : saveEnv -> string -> fsys -> bool * fsys :=
  changeProfile (fun p => AppProfile (ap_ID p) (ap_Name p) (ap_Connections p) mtu (ap_Mount p)).
Definition GetMountConfig (current : string) (fs : fsys) : profileMount := default (ap_Mount noProfile) (ap_Mount <$> readProfile current fs).
Definition SetMountConfig (mount : profileMount) : saveEnv -> string -> fsys -> bool * fsys :=
  changeProfile (fun p => AppProfile (ap_ID p) (ap_Name p) (ap_Connections p) (ap_MTU p) mount).

End profiles.

(** ** The credential store and the release channel *)

Section store.
  Context {CC : CredCodec} `{RangeOrder} (env : saveEnv) (credPath : string).

(** What the window is told: a value, or why not. *)
Inductive storeErr := StName | StKnown | StRequired | StLoad | StSave | StMissing.

Definition withStore (f : CredStore -> storeErr + CredStore) (fs : fsys) : (storeErr + CredStore) * fsys :=
  match Load fs credPath with
  | None => (inl StLoad, fs)
  | Some store =>
      match f store with
      | inl e => (inl e, fs)
      | inr store => let '(ok, fs) := Save env fs store credPath in (if ok : bool then inr store else inl StSave, fs)
      end
  end.

Definition without_source (s : CredStore) (name : string) : CredStore :=
  ClientUpdate.with_update s (UpdateConfig (uc_Channel (cs_Update s)) (delete name (uc_Sources (cs_Update s)))).

(** Channel, URL of the manifest, and the base when a store could be read. *)
Definition GetClientChannel (fs : fsys) : string * string * option string :=
  match Load fs credPath with
  | None => (DefaultChannel, ManifestURL "" DefaultChannel, None)
  | Some s => let '(ch, base) := ClientUpdate.channelOf (Some s) in (ch, ManifestURL base ch, Some base)
  end.

Definition SetClientChannel (channelName manifestBase : string) (fs : fsys) : (storeErr + string * string) * fsys :=
  let ch := Normalize channelName in
  if negb (IsValid ch) then (inl StName, fs)
  else
    let '(r, fs) := withStore (fun s =>
      let s := ClientUpdate.with_channel s ch in
      inr (if manifestBase <>s "" then ClientUpdate.with_source s ch manifestBase
           else if IsKnown ch then without_source s ch else s)) fs in
    (match r with inl e => inl e | inr s => inr (ch, ManifestURL (ResolveBase ch (uc_Sources (cs_Update s))) ch) end, fs).

(** The custom channels; the list of all starts with the built-in ones, without a base. *)
Definition GetClientSources (fs : fsys) : list (string * string) :=
  match Load fs credPath with
  | None => []
  | Some s => List.filter (fun kv => negb (IsKnown (fst kv))) (range (uc_Sources (cs_Update s)))
  end.
Definition GetChannelSources (fs : fsys) : list (string * string) :=
  [("dev", ""); ("beta", ""); ("stable", "")] ++ GetClientSources fs.

Definition SetClientSource (name manifestBase : string) (fs : fsys) : (storeErr + CredStore) * fsys :=
  let name := Normalize name in
  if negb (IsValid name) then (inl StName, fs)
  else if IsKnown name then (inl StKnown, fs)
  else if trim_space manifestBase =s "" then (inl StRequired, fs)
  else withStore (fun s => inr (ClientUpdate.with_source s name manifestBase)) fs.
Definition RemoveClientSource (name : string) (fs : fsys) : (storeErr + CredStore) * fsys :=
  let name := Normalize name in
  if IsKnown name then (inl StKnown, fs) else withStore (fun s => inr (without_source s name)) fs.

(** The custom channels of the settings are copied once; one the store has already wins. *)
Definition migrateCustomChannels (custom : list (string * string)) (fs : fsys) : (storeErr + CredStore) * fsys :=
  withStore (fun s => inr (fold_left (fun s c =>
    let name := Normalize (fst c) in
    if (name =s "") || IsKnown name then s
    else match uc_Sources (cs_Update s) !! name with
         | Some _ => s
         | None => if trim_space (snd c) =s "" then s else ClientUpdate.with_source s name (snd c)
         end) custom s)) fs.

Definition ListCredentials (fs : fsys) : list (string * string) :=
  match Load fs credPath with
  | None => []
  | Some s => map (fun kv => (fst kv, cr_Identity (snd kv))) (range (cs_Hubs s))
  end.
(** The key is taken as it is. *)
Definition RemoveCredential (hubURL : string) (fs : fsys) : (storeErr + CredStore) * fsys :=
  withStore (fun s => match cs_Hubs s !! hubURL with
                      | None => inl StMissing
                      | Some _ => inr (MkCredStore (delete hubURL (cs_Hubs s)) (cs_Update s))
                      end) fs.

End store.
