(* ===== verification/AppProfilesProofs.v ===== *)
(** * Theorems about the desktop application's profiles and ports ([AppProfiles])

    The ports it assigns do not clash, and the profile it saves is the one the client connects with.

    The last part evaluates them. *)

From S2P Require Import Prelude FilePath FileSys FileShare Credstore ClientConnect ClientConfig ClientConfigProofs.
From S2P Require Import Profiles AppProfiles HubConfig Channel MountProofs ClientExamples.
From Stdlib Require Import ZArith Lia Ascii String.
From stdpp Require Import base countable gmap strings list fin_maps fin_sets.

(** ** Ports *)

Section ports.
  Context (isPortAvailable : Z -> bool).
  Implicit Types (A : gset Z) (p sp : Z) (reqs : list PortRequest).

Definition fits (taken : list Z) (p : Z) : Prop := isPortAvailable p = true /\ p ∉ taken.
Definition candidate (sp : Z) (k : nat) : Z := (sp + 10000 + Z.of_nat k)%Z.

Lemma freePort_fits A (taken : list Z) p : (forall q, q ∈ A <-> q ∈ taken) -> freePort isPortAvailable A p = true <-> fits taken p.
Proof.
  intros HA. unfold freePort, fits. rewrite andb_true_iff, negb_true_iff, bool_decide_eq_false, HA. tauto.
Qed.

Lemma scanPorts_spec (n : nat) A c : (0 <= c)%Z -> (c + Z.of_nat n < 9223372036854775808)%Z ->
  match scanPorts isPortAvailable n A c with
  | Some p => exists k, k < n /\ p = (c + Z.of_nat k)%Z /\ freePort isPortAvailable A p = true /\
                forall j, j < k -> freePort isPortAvailable A (c + Z.of_nat j)%Z = false
  | None => forall k, k < n -> freePort isPortAvailable A (c + Z.of_nat k)%Z = false
  end.
Proof.
  revert c. induction n as [|n IH]; intros c H0 H1; [cbn; lia|]. cbn [scanPorts].
  destruct (freePort isPortAvailable A c) eqn:Hf.
  { exists 0. rewrite Z.add_0_r. split_and!; [lia|done|done|lia]. }
  rewrite i64_small by lia. specialize (IH (c + 1)%Z ltac:(lia) ltac:(lia)).
  assert (forall k : nat, (c + 1 + Z.of_nat k)%Z = (c + Z.of_nat (S k))%Z) as Hs by lia.
  destruct (scanPorts _ n A _) as [p|].
  - destruct IH as (k & Hk & -> & Hp & Hj). exists (S k). rewrite <- Hs. split_and!; [lia|done|done|].
    intros [|j] Hlt; [by rewrite Z.add_0_r|]. rewrite <- Hs. apply Hj. lia.
  - intros [|k] Hk; [by rewrite Z.add_0_r|]. rewrite <- Hs. apply IH. lia.
Qed.

(** What a request may be given, after the ports taken. *)
Definition given (taken : list Z) (sp p : Z) : Prop :=
  fits taken p /\ (p = sp \/ ~ fits taken sp /\ exists k, k < 100 /\ p = candidate sp k /\ forall j, j < k -> ~ fits taken (candidate sp j)) \/
  p = sp /\ ~ fits taken sp /\ forall k, k < 100 -> ~ fits taken (candidate sp k).

Lemma AssignLocalPort_given A (taken : list Z) sp : (forall q, q ∈ A <-> q ∈ taken) -> (0 <= sp <= 65535)%Z ->
  let '(p, A') := AssignLocalPort isPortAvailable A sp in given taken sp p /\ (forall q, q ∈ A' <-> q ∈ taken ++ [p]).
Proof.
  intros HA Hsp. unfold AssignLocalPort.
  assert (forall p : Z, forall q, q ∈ {[p]} ∪ A <-> q ∈ taken ++ [p]) as Hset by (intros p q; set_solver).
  split; [|apply Hset]. unfold given. pose proof (fun p => freePort_fits A taken p HA) as Hfit.
  assert (forall p, freePort isPortAvailable A p = false -> ~ fits taken p) as Hnot
    by (intros p Hp Hq; apply Hfit in Hq; congruence).
  destruct (freePort isPortAvailable A sp) eqn:Hf; [left; split; [by apply Hfit|by left]|].
  rewrite i64_small by lia. pose proof (scanPorts_spec 100 A (sp + 10000)%Z ltac:(lia) ltac:(lia)) as Hscan.
  destruct (scanPorts _ 100 A _) as [p|]; cbn [default from_option].
  - destruct Hscan as (k & Hk & -> & Hp & Hj). left. split; [by apply Hfit|]. right. split; [by apply Hnot|].
    exists k. split_and!; [done|done|]. intros j Hlt. by apply Hnot, Hj.
  - right. split_and!; [done|by apply Hnot|]. intros k Hk. by apply Hnot, Hscan.
Qed.

Lemma resolvePorts_given A (taken : list Z) reqs : (forall q, q ∈ A <-> q ∈ taken) ->
  (forall r, r ∈ reqs -> (0 <= prq_ServicePort r <= 65535)%Z) ->
  let out := fst (resolvePorts isPortAvailable A reqs) in
  map pa_Key out = map prq_Key reqs /\
  forall i r a, reqs !! i = Some r -> out !! i = Some a ->
    given (taken ++ map pa_LocalPort (take i out)) (prq_ServicePort r) (pa_LocalPort a).
Proof.
  revert A taken. induction reqs as [|r reqs IH]; intros A taken HA Hr; [done|]. cbn [resolvePorts].
  pose proof (AssignLocalPort_given A taken (prq_ServicePort r) HA ltac:(apply Hr; by left)) as Hg.
  destruct (AssignLocalPort _ _ _) as [p A1]. destruct Hg as [Hg HA1].
  specialize (IH A1 (taken ++ [p]) HA1 ltac:(intros; apply Hr; by right)).
  destruct (resolvePorts _ A1 reqs) as [out A2]. cbn [fst map] in *. destruct IH as [Hk IH]. split; [by rewrite Hk|].
  intros [|i] r' a Hi Ha; cbn in Hi, Ha.
  - simplify_eq. cbn. by rewrite app_nil_r.
  - specialize (IH i r' a Hi Ha). rewrite <- app_assoc in IH. exact IH.
Qed.

Lemma candidates_taken (taken : list Z) sp : (forall k, k < 100 -> candidate sp k ∈ taken) -> 100 <= length taken.
Proof.
  intros Hin. transitivity (length (candidate sp <$> seq 0 100)); [by rewrite length_fmap, length_seq|].
  apply submseteq_length, NoDup_submseteq.
  - apply NoDup_fmap_2_strong, NoDup_seq. intros a b _ _. unfold candidate. lia.
  - intros x (k & -> & Hk)%list_elem_of_fmap. apply Hin. apply elem_of_seq in Hk. lia.
Qed.

Lemma NoDup_earlier {A : Type} (l : list A) : (forall i x, l !! i = Some x -> x ∉ take i l) -> NoDup l.
Proof.
  intros Hl. apply NoDup_alt. intros i j x Hi Hj. destruct (lt_eq_lt_dec i j) as [[Hlt|?]|Hlt]; [|done|]; exfalso.
  - apply (Hl j x Hj). apply list_elem_of_lookup. exists i. rewrite lookup_take. by rewrite decide_True by lia.
  - apply (Hl i x Hi). apply list_elem_of_lookup. exists j. rewrite lookup_take. by rewrite decide_True by lia.
Qed.

(** The local ports of a selection: every service gets its own port if nothing else has it, else the
    first of a hundred ports above it that is free, and only when none is keeps its own port all the same.
    Up to a hundred services whose hundred ports are available get distinct, available ports. *)
Theorem ports_assigned reqs :
  (forall r, r ∈ reqs -> (0 <= prq_ServicePort r <= 65535)%Z) ->
  let out := fst (ResolveAllPorts isPortAvailable reqs) in
  let ports := map pa_LocalPort out in
  map pa_Key out = map prq_Key reqs /\
  (forall i r p, reqs !! i = Some r -> ports !! i = Some p -> given (take i ports) (prq_ServicePort r) p) /\
  (length reqs <= 100 -> (forall r k, r ∈ reqs -> k < 100 -> isPortAvailable (candidate (prq_ServicePort r) k) = true) ->
   NoDup ports /\ forall p, p ∈ ports -> isPortAvailable p = true).
Proof.
  intros Hr out ports. destruct (resolvePorts_given ∅ [] reqs ltac:(set_solver) Hr) as [Hk Hg]. change (fst (resolvePorts _ ∅ reqs)) with out in Hk, Hg.
  assert (forall i r p, reqs !! i = Some r -> ports !! i = Some p -> given (take i ports) (prq_ServicePort r) p) as Hgiven.
  { intros i r p Hi Hp. unfold ports in Hp. change (map pa_LocalPort out) with (pa_LocalPort <$> out) in Hp.
    apply list_lookup_fmap_Some in Hp as (a & -> & Ha). specialize (Hg i r a Hi Ha). cbn [app] in Hg.
    unfold ports. by rewrite firstn_map. }
  split_and!; [done|done|]. intros Hlen Hav.
  assert (forall i p, ports !! i = Some p -> fits (take i ports) p) as Hfit.
  { intros i p Hp. assert (exists r, reqs !! i = Some r) as [r Hi].
    { apply lookup_lt_is_Some. apply lookup_lt_Some in Hp. unfold ports in Hp. rewrite length_map in Hp.
      apply (f_equal length) in Hk. rewrite !length_map in Hk. lia. }
    destruct (Hgiven i r p Hi Hp) as [[? _]|(_ & _ & Hall)]; [done|]. exfalso.
    assert (100 <= length (take i ports)) as Hl.
    { apply (candidates_taken _ (prq_ServicePort r)). intros k Hlt. destruct (decide (candidate (prq_ServicePort r) k ∈ take i ports)) as [?|Hn]; [done|].
      destruct (Hall k Hlt). split; [|done]. apply Hav; [by eapply list_elem_of_lookup_2|done]. }
    apply lookup_lt_Some in Hi. rewrite length_take in Hl. lia. }
  split.
  - apply NoDup_earlier. intros i p Hp. by apply Hfit.
  - intros p [i Hp]%list_elem_of_lookup. by apply (Hfit i).
Qed.

End ports.

(** ** The profile the client reads *)

Section profiles.
  Context {Y : Yaml} `{RangeOrder} (profilesDir : string) (getenv : string -> string).
  #[local] Existing Instances yaml_profiles yaml_apps.

Lemma client_path name :
  FileShare.Contains name "/" = false -> is_profile_name name = false ->
  profilePath profilesDir name = appProfilePath profilesDir name.
Proof. unfold profilePath, is_profile_name. intros -> [-> ->]%orb_false_iff. reflexivity. Qed.

(** What is read before a save: nothing, or the profile there is under the name of its file. *)
Lemma loadProfileFile_at uuid ds f fs : doc_at ds f fs ->
  let stem := trim_suffix (Base (doc_path ds f)) (Ext (doc_path ds f)) in
  loadProfileFile uuid fs (doc_path ds f) =
    match fs !! (ds ++ [f]) with
    | Some (NFile d) =>
        let '(q, ok) := UnmarshalApp d in
        if negb ok then (q, false, false)
        else (set_identity q (if ap_ID q =s "" then uuid else ap_ID q) stem, (ap_ID q =s "") || (ap_Name q <>s stem), true)
    | _ => (noProfile, false, false)
    end.
Proof.
  intros [Hg Hd Hs] stem. unfold loadProfileFile.
  pose proof (ReadFile_child ds f Hg fs Hd Hs) as Hr. fold (doc_path ds f) in Hr. rewrite Hr.
  by destruct Hs as [-> |[d ->]].
Qed.

Lemma writeProfileFile_true fault ds f fs p fs' : doc_at ds f fs ->
  writeProfileFile fault fs (doc_path ds f) p = (true, fs') ->
  exists out, MarshalApp p = Some out /\ fs' = <[ds ++ [f] := NFile out]> fs /\ ReadFile fs' (doc_path ds f) = RdData out.
Proof.
  intros Hdoc Hw. unfold writeProfileFile in Hw. destruct (MarshalApp p) as [out|]; [|done].
  destruct (doc_written _ _ _ _ _ _ Hdoc Hw) as (d & [= <-] & -> & _ & Hr). by exists out.
Qed.

(** What a save keeps of what was read. *)
Lemma existing_kept (uuid stem : string) (ds : ppath) (f : string) (fs : fsys) : (fs !! (ds ++ [f]) = None \/ exists d, fs !! (ds ++ [f]) = Some (NFile d)) ->
  exists e x y,
    match fs !! (ds ++ [f]) with
    | Some (NFile d) => let '(q, ok) := UnmarshalApp d in
        if negb ok then (q, false, false)
        else (set_identity q (if ap_ID q =s "" then uuid else ap_ID q) stem, (ap_ID q =s "") || (ap_Name q <>s stem), true)
    | _ => (noProfile, false, false) end = (e, x, y) /\
    ((forall d, fs !! (ds ++ [f]) = Some (NFile d) -> snd (UnmarshalApp d) = true) -> ap_Name e = "" \/ ap_Name e = stem) /\
    forall d, fs !! (ds ++ [f]) = Some (NFile d) -> let q := fst (UnmarshalApp d) in
      ap_MTU e = ap_MTU q /\ ap_Mount e = ap_Mount q /\ (ap_ID q <> "" -> ap_ID e = ap_ID q).
Proof.
  intros [-> |[d ->]]; [do 3 eexists; split; [reflexivity|]; split; [by left|done]|].
  destruct (UnmarshalApp d) as [q [|]] eqn:E; do 3 eexists; (split; [reflexivity|]; split).
  - by right.
  - intros d' [= <-]. rewrite E. cbn. split_and!; [done|done|]. intros Hi. by rewrite bool_decide_false.
  - intros Hp. specialize (Hp d eq_refl). by rewrite E in Hp.
  - intros d' [= <-]. by rewrite E.
Qed.

(** C31. What the application saves is what the client connects with, as the struct tags of the two programs
    read each other's files: the connections of the window without their tokens, under the name of the
    file, with the identity, the MTU and the mount of the profile there was, as far as that could be
    decoded.  A profile that did not decode whole can carry another name, which the client then corrects;
    otherwise it finds nothing to write.  The client expands variables in what it reads, so the saved text
    must have no dollar sign. *)
Theorem saved_profile_connects uuid fault current conns ds f fs path fs' :
  doc_at ds f fs -> appProfilePath profilesDir current = doc_path ds f ->
  FileShare.Contains current "/" = false -> is_profile_name current = false ->
  uuid <> "" -> trim_suffix (Base (doc_path ds f)) (Ext (doc_path ds f)) <> "" -> conns <> [] ->
  SaveProfile profilesDir uuid fault current (Some conns) fs = (Some path, fs') ->
  (forall out, fs' !! (ds ++ [f]) = Some (NFile out) -> ("$"%char : ascii) ∉ bytes (of_z_bytes out)) ->
  exists out p, path = doc_path ds f /\ fs' = <[ds ++ [f] := NFile out]> fs /\
    (forall uuid' fault', fst (loadProfile profilesDir getenv uuid' fault' fs' current) = Some p) /\
    ((forall d, fs !! (ds ++ [f]) = Some (NFile d) -> snd (UnmarshalApp d) = true) ->
     forall uuid' fault', snd (loadProfile profilesDir getenv uuid' fault' fs' current) = fs') /\
    cp_Connections p = map (fun c => to_connection (without_token c)) conns /\
    cp_ID p <> "" /\ cp_Name p = trim_suffix (Base path) (Ext path) /\ cp_LoopbackPrefix p = "" /\
    (forall d, fs !! (ds ++ [f]) = Some (NFile d) ->
      let q := fst (UnmarshalApp d) in
      (ap_ID q <> "" -> cp_ID p = ap_ID q) /\ cp_MTU p = ap_MTU q /\ cp_Mount p = ap_Mount q).
Proof.
  intros Hdoc Hpath Hc Hn Hu Hstem Hne Hsave Hplain. unfold SaveProfile in Hsave. rewrite Hpath, (loadProfileFile_at _ _ _ _ Hdoc) in Hsave.
  set (stem := trim_suffix (Base (doc_path ds f)) (Ext (doc_path ds f))) in *.
  destruct (existing_kept uuid stem ds f fs (da_slot _ _ _ Hdoc)) as (e & x & y & He & Hname & Hkept).
  rewrite He in Hsave. set (p := AppProfile _ _ _ _ _) in Hsave.
  destruct (writeProfileFile fault fs (doc_path ds f) p) as [ok fs1] eqn:Hw.
  destruct ok; [|done]. injection Hsave as <- <-.
  destruct (writeProfileFile_true _ _ _ _ _ _ Hdoc Hw) as (out & Hm & Hfs & Hr).
  assert (ap_ID p <> "") as Hpi by (unfold p; cbn [ap_ID]; by destruct (bool_decide_reflect (ap_ID e = ""))).
  assert (("$"%char : ascii) ∉ bytes (of_z_bytes out)) as Hout by (apply Hplain; by rewrite Hfs, lookup_insert_eq).
  assert (profilePath profilesDir current = doc_path ds f) as Hpp by (rewrite client_path by done; exact Hpath).
  assert (UnmarshalProfile (ExpandEnv getenv (of_z_bytes out)) = Some (to_client p)) as Hread
    by (rewrite ExpandEnv_plain by exact Hout; by apply client_reads_app).
  pose proof (fun uuid' fault' => loadProfile_found profilesDir getenv uuid' fault' fs1 current _ out (to_client p) Hpp Hr Hread
    ltac:(cbn; by destruct conns)) as Hload.
  fold stem in Hload. exists out, (with_identity (to_client p) (ap_ID p) stem). split_and!; try done.
  - intros uuid' fault'. rewrite Hload. unfold dirty, Profiles.migrated. cbn [to_client cp_ID cp_Name]. rewrite (bool_decide_false (ap_ID p = "")) by done.
    destruct (bool_decide_reflect (ap_Name p = stem)) as [E|]; [rewrite <- E|]; reflexivity.
  - intros Hparse uuid' fault'. rewrite Hload. unfold dirty. cbn [to_client cp_ID cp_Name].
    rewrite (bool_decide_false (ap_ID p = "")) by done. rewrite (bool_decide_true (ap_Name p = stem)); [done|].
    unfold p. cbn [ap_Name]. destruct (Hname Hparse) as [-> | ->]; [done|]. by rewrite bool_decide_false.
  - cbn. by rewrite map_map.
  - intros d Hd. destruct (Hkept d Hd) as (Hmtu & Hmount & Hid). cbn zeta. split; [|by split].
    intros Hi. specialize (Hid Hi). cbn. rewrite Hid. by rewrite bool_decide_false.
Qed.

End profiles.

(** * The desktop application's profiles and ports evaluated

    Its theorems at small inputs, and what the code does where one would not expect it. *)

(** ** A YAML library: the code of the tree in binary digits *)

Fixpoint tree_of (v : yvalue) : gen_tree (string + Z + bool) :=
  match v with
  | YStr s => GenLeaf (inl (inl s))
  | YInt n => GenLeaf (inl (inr n))
  | YBool b => GenLeaf (inr b)
  | YSeq l => GenNode 0 (map tree_of l)
  | YMap kvs => GenNode 1 (map (fun kv => GenNode 2 [GenLeaf (inl (inl (fst kv))); tree_of (snd kv)]) kvs)
  end.
Fixpoint of_tree (t : gen_tree (string + Z + bool)) : yvalue :=
  match t with
  | GenLeaf (inl (inl s)) => YStr s
  | GenLeaf (inl (inr n)) => YInt n
  | GenLeaf (inr b) => YBool b
  | GenNode 0 l => YSeq (map of_tree l)
  | GenNode _ l => YMap (map (fun kv => match kv with GenNode _ [GenLeaf (inl (inl k)); t] => (k, of_tree t) | _ => ("", YMap []) end) l)
  end.
Fixpoint of_tree_of (v : yvalue) : of_tree (tree_of v) = v.
Proof.
  destruct v as [s|n|b|l|kvs]; try reflexivity; cbn; f_equal.
  - induction l as [|v l IH]; [reflexivity|]. cbn. by rewrite of_tree_of, IH.
  - induction kvs as [|[k v] kvs IH]; [reflexivity|]. cbn. by rewrite of_tree_of, IH.
Qed.

#[export] Instance demo_yaml : Yaml.
Proof.
  refine {| MarshalYaml v := Some (digits_of (encode (tree_of v)));
            UnmarshalYaml t s :=
              match p ← of_digits (z_bytes s); decode p with
              | Some tree => let v := of_tree tree in if yfits t v then (yread t v, true) else (YMap [], false)
              | None => (YMap [], false)
              end |}.
  intros t v d [= <-] Hf. rewrite z_bytes_digits, of_digits_of. cbn [mbind option_bind]. rewrite decode_encode. cbv zeta.
  by rewrite of_tree_of, Hf.
Defined.
#[local] Existing Instances yaml_profiles yaml_apps.

(** ** Ports *)

Definition listenable (busy : list Z) (port : Z) : bool := (port <? 65536)%Z && negb (bool_decide (port ∈ busy)).
Definition wanted : list PortRequest := [MkPortRequest "a" 22; MkPortRequest "b" 22; MkPortRequest "c" 80].

Lemma wanted_ports r : r ∈ wanted -> r = MkPortRequest "a" 22 \/ r = MkPortRequest "b" 22 \/ r = MkPortRequest "c" 80.
Proof. unfold wanted. rewrite !elem_of_cons, elem_of_nil. tauto. Qed.

Lemma ports_assigned_witness :
  let out := fst (ResolveAllPorts (listenable [80%Z]) wanted) in
  map pa_LocalPort out = [22; 10022; 10080]%Z /\ NoDup (map pa_LocalPort out).
Proof.
  intros out. split; [by vm_compute|].
  destruct (ports_assigned (listenable [80%Z]) wanted) as (_ & _ & H).
  - intros r [-> |[-> | ->]]%wanted_ports; cbn; lia.
  - apply H; [cbn; lia|]. intros r k [-> |[-> | ->]]%wanted_ports Hk; unfold listenable, candidate; cbn [prq_ServicePort];
      (apply andb_true_iff; split; [apply Z.ltb_lt; lia|]; apply negb_true_iff, bool_decide_eq_false; rewrite list_elem_of_singleton; lia).
Defined.

(** A busy port from 55536 on has no candidate that is a port, and is assigned although it is busy. *)
Example high_port_busy :
  map pa_LocalPort (fst (ResolveAllPorts (listenable [60000%Z]) [MkPortRequest "a" 60000; MkPortRequest "b" 60000])) = [60000; 60000]%Z.
Proof. by vm_compute. Qed.

(** ** Profiles *)

Definition client_profile : connectionProfile :=
  ConnectionProfile "id-1" "work" [ProfileConnection "" "wss://hub.example" "" "web" "secret" "127.9.9.9" []] 1280 (ProfileMount "T" 0 true) "127.77".
Definition client_disk : fsys := profile_disk (default [] (MarshalProfile client_profile)).
Definition picked : list appConnection := [AppConnection "" "lab" "" "db" "secret" [ProfileService 5432 5432 "pg"]].
Abbreviation desk_saved := (SaveProfile profiles_path "u-1" no_fault "work" (Some picked) client_disk).
Abbreviation client_loads fs := (loadProfile profiles_path (fun _ => "") "u-2" no_fault fs "work").

Lemma desk_saved_ok : desk_saved = (Some (doc_path profiles_dir "work.yaml"), snd desk_saved).
Proof. apply pair_eta. by vm_compute. Qed.

Lemma desk_text out : snd desk_saved !! (profiles_dir ++ ["work.yaml"]) = Some (NFile out) -> ("$"%char : ascii) ∉ bytes (of_z_bytes out).
Proof.
  assert (match snd desk_saved !! (profiles_dir ++ ["work.yaml"]) with
          | Some (NFile out) => bool_decide (("$"%char : ascii) ∉ bytes (of_z_bytes out)) | _ => true end = true) as H by (vm_compute; reflexivity).
  intros Hs. rewrite Hs in H. exact (bool_decide_eq_true_1 _ H).
Qed.

Lemma saved_profile_connects_witness :
  (fun p => (cp_ID p, cp_Name p, cp_MTU p, map pc_Machine (cp_Connections p), map pc_Token (cp_Connections p))) <$> fst (client_loads (snd desk_saved)) =
    Some ("id-1", "work", 1280%Z, ["db"], [""]).
Proof.
  destruct (saved_profile_connects profiles_path (fun _ => "") "u-1" no_fault "work" picked profiles_dir "work.yaml" client_disk
    (doc_path profiles_dir "work.yaml") (snd desk_saved)) as (out & p & _ & _ & Hl & _ & Hc & _ & Hn & _ & Hk).
  - apply profile_doc.
  - by vm_compute.
  - by vm_compute.
  - by vm_compute.
  - discriminate.
  - by vm_compute.
  - discriminate.
  - exact desk_saved_ok.
  - exact desk_text.
  - rewrite Hl. cbn [fmap option_fmap option_map]. rewrite Hc, Hn.
    destruct (Hk _ (work_there _)) as (Hi & Hm & _). rewrite Hm, Hi by (vm_compute; discriminate). by vm_compute.
Defined.

(** Any change the application makes drops what it does not know: the address of a connection and the
    loopback prefix of the client. *)
Example mtu_drops_address :
  (fun p => (map pc_Address (cp_Connections p), cp_LoopbackPrefix p)) <$> fst (client_loads client_disk) = Some (["127.9.9.9"], "127.77") /\
  (fun p => (map pc_Address (cp_Connections p), cp_LoopbackPrefix p)) <$>
    fst (client_loads (snd (SetProfileMTU profiles_path 1400 no_fault "work" client_disk))) = Some ([""], "").
Proof. by vm_compute. Qed.

(** A profile that does not parse is replaced by a save, with its MTU and mount. *)
Example damaged_profile_replaced :
  is_Some (fst (SaveProfile profiles_path "u-1" no_fault "work" (Some picked) (profile_disk (z_bytes "x")))).
Proof. apply (bool_decide_unpack _). by vm_compute. Qed.

(** A name can lead out of the directory. *)
Example delete_leaves_directory :
  let fs := <[tela_dir ++ ["credentials.yaml"] := NFile []]> client_disk in
  fst (DeleteProfile profiles_path "../credentials" "work" fs) = true /\
  snd (DeleteProfile profiles_path "../credentials" "work" fs) !! (tela_dir ++ ["credentials.yaml"]) = None.
Proof. by vm_compute. Qed.

(** A profile that ends in [.yml] is listed, and cannot be loaded or deleted. *)
Example listed_yml_not_loaded :
  let fs := <[profiles_dir ++ ["old.yml"] := NFile (default [] (MarshalProfile client_profile))]> client_disk in
  ListProfiles profiles_path "work" fs = ["old"; "work"] /\ readProfile profiles_path "old" fs = None /\
  fst (DeleteProfile profiles_path "old" "work" fs) = false.
Proof. by vm_compute. Qed.

(** ** Settings *)

(** An invalid name selects the default channel. *)
Example invalid_channel_selected :
  fst (SetClientChannel no_fault cred_user "nightly!" "" (demo_cred_disk demo_hubs)) = inr ("dev", ManifestURL "" "dev").
Proof. by vm_compute. Qed.
