(* ===== verification/ClientControl.v ===== *)
(** * The control server of a running client ([internal/client/control.go])

    A client that runs serves its state on a local port: an HTTP API behind a token the control file
    holds, and a WebSocket that receives events and takes commands.  The lists behind the API and the
    connected event receivers are one state; a request, a command and a broadcast are transitions of
    it.  Every receiver has a queue of 64 events, which its writer empties. *)

From S2P Require Import Prelude Http FilePath FileSys FileShare ClientFiles PortalProtocol PortalFile PortalClient.
From S2P Require Import PortalServer PortalSources HubConfig Credstore ClientConnect ClientConfig AppAdmin.
From Stdlib Require Import ZArith Lia Ascii String.
From stdpp Require Import base gmap strings list.

Record BoundService := MkBoundService {
  bs_Name : string; bs_Local : Z; bs_Remote : Z; bs_BindAddr : string; bs_Machine : string; bs_Hub : string
}.
Record activeConnection := ActiveConnection {
  ac_Index : Z; ac_Hub : string; ac_Machine : string; ac_Status : string; ac_Tunnel : string
}.

(** A connected receiver: what waits for it and what was written to it. *)
Record wsClient := WsClient { wc_ID : nat; wc_Events : list json; wc_Written : list json }.

Record control := Control {
  ct_Output : string;
  ct_Services : list BoundService;
  ct_Conns : list activeConnection;
  ct_Clients : list wsClient;
  ct_Verbose : bool;
  ct_Stopped : bool                  (** [stopCh] is closed *)
}.
Definition with_clients (st : control) (l : list wsClient) : control :=
  Control (ct_Output st) (ct_Services st) (ct_Conns st) l (ct_Verbose st) (ct_Stopped st).
Definition with_verbose (st : control) (b : bool) : control :=
  Control (ct_Output st) (ct_Services st) (ct_Conns st) (ct_Clients st) b (ct_Stopped st).
Definition closeStopCh (st : control) : control :=
  Control (ct_Output st) (ct_Services st) (ct_Conns st) (ct_Clients st) (ct_Verbose st) true.

(** ** Events *)

Definition queueCap : nat := 64.
(** A full queue drops the event. *)
Definition offer (ev : json) (c : wsClient) : wsClient :=
  if (length (wc_Events c) <? queueCap)%nat then WsClient (wc_ID c) (wc_Events c ++ [ev]) (wc_Written c) else c.
Definition broadcastEvent (ev : json) (st : control) : control := with_clients st (map (offer ev) (ct_Clients st)).
Definition addWSClient (id : nat) (st : control) : control := with_clients st (ct_Clients st ++ [WsClient id [] []]).
Definition removeWSClient (id : nat) (st : control) : control :=
  with_clients st (filter (fun c => wc_ID c <> id) (ct_Clients st)).
(** The writer of a receiver takes the first event that waits. *)
Definition writeNext (c : wsClient) : wsClient :=
  match wc_Events c with [] => c | ev :: l => WsClient (wc_ID c) l (wc_Written c ++ [ev]) end.
Definition writerStep (id : nat) (st : control) : control :=
  with_clients st (map (fun c => if (wc_ID c =? id)%nat then writeNext c else c) (ct_Clients st)).

Definition json_of_service (s : BoundService) : list (string * json) :=
  [("name", JStr (bs_Name s)); ("local", JNum (bs_Local s)); ("remote", JNum (bs_Remote s));
   ("bindAddr", JStr (bs_BindAddr s)); ("machine", JStr (bs_Machine s)); ("hub", JStr (bs_Hub s))].
Definition serviceBound (s : BoundService) : json := JObj (("type", JStr "service_bound") :: json_of_service s).
Definition addBoundService (s : BoundService) (st : control) : control :=
  broadcastEvent (serviceBound s)
    (Control (ct_Output st) (ct_Services st ++ [s]) (ct_Conns st) (ct_Clients st) (ct_Verbose st) (ct_Stopped st)).
Definition setActiveConnections (l : list activeConnection) (st : control) : control :=
  Control (ct_Output st) (ct_Services st) l (ct_Clients st) (ct_Verbose st) (ct_Stopped st).
Definition json_of_connection (c : activeConnection) : json :=
  JObj [("index", JNum (ac_Index c)); ("hub", JStr (ac_Hub c)); ("machine", JStr (ac_Machine c));
        ("status", JStr (ac_Status c)); ("tunnel", JStr (ac_Tunnel c))].

(** The writer of the log keeps the last half of the megabyte when the output passes it. *)
Definition outputCap : nat := Z.to_nat (1024 * 1024).
Definition outputKept : nat := Z.to_nat (512 * 1024).
Definition logWrite (p : string) (st : control) : control :=
  let out := bytes (ct_Output st) ++ bytes p in
  let out := if (outputCap <? length out)%nat then drop (length out - outputKept) out else out in
  Control (of_bytes out) (ct_Services st) (ct_Conns st) (ct_Clients st) (ct_Verbose st) (ct_Stopped st).

(** ** HTTP *)

Record controlReq := ControlReq { rq_Method : string; rq_Escaped : string; rq_Auth : string; rq_Body : list Z }.

Inductive controlReply :=
  | CtPlain (code : Z) (text : string)
  | CtJson (code : Z) (j : json)
  | CtRedirect
  | CtTerminal (token : string)      (** the page, with the token in its script *)
  | CtOutput (text : string)
  | CtFiles (p : proxyReply).

Inductive controlRoute :=
  | RtRoot | RtConnections | RtServices | RtTunnels | RtReconnect | RtVerbose | RtFilesProbe | RtFiles
  | RtTerminal | RtOutput | RtUpgrade | RtRedirect.

(** The pattern of the mux for a path; a path that is not clean, and one that lacks the slash of its
    pattern, redirect. *)
Definition controlMux (escaped : string) : controlRoute :=
  let path := PortalServer.cleanPath escaped in
  if path <>s escaped then RtRedirect
  else match segments path with
  | ["connections"] => RtConnections
  | ["services"] => RtServices
  | ["tunnels"] => RtTunnels
  | ["reconnect"] => RtReconnect
  | ["verbose"] => RtVerbose
  | ["files-probe"] | ["files"] => RtRedirect
  | "files-probe" :: _ => RtFilesProbe
  | "files" :: _ => RtFiles
  | ["ws"] => RtUpgrade
  | ["terminal"] => RtTerminal
  | ["output"] => RtOutput
  | _ => RtRoot
  end.

Section server.
  Context `{FsCodec} `{RangeOrder} (env : shareEnv).
  (** The token, the profile, the version, how long the server runs, the tunnels and whether dials
      through them succeed. *)
  Context (token profileName version uptime : string) (up : bool).

Definition notAllowed : controlReply := CtPlain 405 "method not allowed".
Definition get_only (r : controlReq) (j : json) : controlReply :=
  if rq_Method r <>s "GET" then notAllowed else CtJson 200 j.

Definition handleRoot (r : controlReq) (st : control) : controlReply * control :=
  if rq_Method r =s "GET" then
    (CtJson 200 (JObj [("_links", JObj [("connections", JStr "/connections"); ("services", JStr "/services")]);
       ("connections", JNum (Z.of_nat (length (ct_Conns st)))); ("profile", JStr profileName);
       ("services", JNum (Z.of_nat (length (ct_Services st)))); ("uptime", JStr uptime); ("version", JStr version)]), st)
  else if rq_Method r =s "DELETE" then (CtJson 202 (JObj [("status", JStr "shutting down")]), closeStopCh st)
  else (notAllowed, st).

Definition handleVerbose (r : controlReq) (st : control) : controlReply * control :=
  let reply b := CtJson 200 (JObj [("verbose", JBool b)]) in
  if rq_Method r =s "GET" then (reply (ct_Verbose st), st)
  else if rq_Method r =s "PUT" then (reply (negb (ct_Verbose st)), with_verbose st (negb (ct_Verbose st)))
  else (notAllowed, st).

(** The routes that ask for the token. *)
Definition serveAuthorized (rt : controlRoute) (r : controlReq) (ts : tunnels) (st : control) : controlReply * control * tunnels :=
  let path := unescaped (rq_Escaped r) in
  match rt with
  | RtRoot => (handleRoot r st, ts)
  | RtConnections => (get_only r (JArr (map json_of_connection (ct_Conns st))), st, ts)
  | RtServices => (get_only r (JArr (map (fun s => JObj (json_of_service s)) (ct_Services st))), st, ts)
  | RtTunnels => (get_only r (JArr (map (fun kv => JObj [("machine", JStr (fst kv))]) (range ts))), st, ts)
  | RtReconnect =>
      (if rq_Method r <>s "POST" then notAllowed else CtJson 202 (JObj [("status", JStr "reconnect requested")]), st, ts)
  | RtVerbose => (handleVerbose r st, ts)
  | RtFilesProbe => (CtFiles (handleFilesProbe up token ts path (rq_Auth r)), st, ts)
  | RtFiles => let '(p, ts) := handleFiles env up token ts (rq_Method r) path (rq_Auth r) (rq_Body r) in (CtFiles p, st, ts)
  | RtOutput => (if rq_Method r <>s "GET" then notAllowed else CtOutput (ct_Output st), st, ts)
  | _ => (notAllowed, st, ts)
  end.

(** [/terminal] is served to everybody; an upgrade is [wsConnect]. *)
Definition serveControl (r : controlReq) (ts : tunnels) (st : control) : controlReply * control * tunnels :=
  match controlMux (rq_Escaped r) with
  | RtRedirect => (CtRedirect, st, ts)
  | RtTerminal => (if rq_Method r <>s "GET" then notAllowed else CtTerminal token, st, ts)
  | RtUpgrade => (CtPlain 400 "Bad Request", st, ts)
  | rt =>
      if match rt with RtRoot => unescaped (rq_Escaped r) <>s "/" | _ => false end then (CtPlain 404 "404 page not found", st, ts)
      else match checkControlAuth (rq_Auth r) token with
           | Some e => (CtFiles e, st, ts)
           | None => serveAuthorized rt r ts st
           end
  end.

(** ** The WebSocket *)

Definition connectionState (connected : bool) : json :=
  JObj ([("type", JStr "connection_state"); ("connected", JBool connected)] ++
        if connected then [("profileName", JStr profileName)] else []).

(** The token stands in the query or is the first message; every receiver hears of the new one. *)
Definition wsConnect (id : nat) (qToken : string) (first : option string) (st : control) : option control :=
  if (qToken =s token) || bool_decide (first = Some token)
  then Some (broadcastEvent (connectionState true) (addWSClient id st)) else None.

(** A message of a receiver; what does not decode is ignored. *)
Definition wsCommand (msg : reqBody) (st : control) : control :=
  match json_fields msg with
  | None => st
  | Some kvs =>
      let '(type, ok1) := decode_string "type" kvs "" true in
      let '(enabled, ok2) := decode_bool_ptr "enabled" kvs in
      if negb (ok1 && ok2) then st
      else if type =s "disconnect" then closeStopCh st
      else if type =s "set_verbose" then with_verbose st (default (negb (ct_Verbose st)) enabled)
      else st
  end.

(** ** Everything that happens *)

Inductive controlAction :=
  | ActRequest (r : controlReq) (ts : tunnels)
  | ActConnect (id : nat) (qToken : string) (first : option string)
  | ActCommand (id : nat) (msg : reqBody)
  | ActGone (id : nat)                      (** the reader failed, or the writer, or it wrote the last state at a stop *)
  | ActWrite (id : nat)
  | ActEvent (ev : json)                    (** of the file subscriptions and the log *)
  | ActBound (s : BoundService)
  | ActConns (l : list activeConnection)
  | ActLog (p : string).

(** Only a connected receiver sends commands; ids are not used twice. *)
Definition connected (id : nat) (st : control) : bool := existsb (fun c => (wc_ID c =? id)%nat) (ct_Clients st).
Definition act (a : controlAction) (st : control) : control :=
  match a with
  | ActRequest r ts => snd (fst (serveControl r ts st))
  | ActConnect id q f => if connected id st then st else default st (wsConnect id q f st)
  | ActCommand id msg => if connected id st then wsCommand msg st else st
  | ActGone id => removeWSClient id st
  | ActWrite id => writerStep id st
  | ActEvent ev => broadcastEvent ev st
  | ActBound s => addBoundService s st
  | ActConns l => setActiveConnections l st
  | ActLog p => logWrite p st
  end.
Definition run (l : list controlAction) (st : control) : control := fold_left (fun st a => act a st) l st.

(** The events of an action, which every receiver is offered. *)
Definition emitted (a : controlAction) (st : control) : list json :=
  match a with
  | ActEvent ev => [ev]
  | ActBound s => [serviceBound s]
  | ActConnect id q f => if connected id st then [] else match wsConnect id q f st with Some _ => [connectionState true] | None => [] end
  | _ => []
  end.
Fixpoint events (l : list controlAction) (st : control) : list json :=
  match l with [] => [] | a :: l => emitted a st ++ events l (act a st) end.

End server.
