(* ===== verification/ClientControlProofs.v ===== *)
(** * Theorems about the control server ([ClientControl])

    Who may change the state or read it, and what a receiver of events gets.

    The last part evaluates the control server, and the local names of [Profiles]. *)

From S2P Require Import Prelude Http FileSys FileShare ClientFiles PortalProtocol PortalServer ClientControl.
From S2P Require Import FileShareProofs MountProofs ClientConnect ClientConfig Profiles.
From Stdlib Require Import ZArith Lia Ascii String.
From stdpp Require Import base gmap strings list fin_maps.

Section control.
  Context `{FsCodec} `{RangeOrder} (env : shareEnv) (token profileName version uptime : string) (up : bool).
  Implicit Types (st : control) (c : wsClient) (a : controlAction).
  Abbreviation serve := (serveControl env token profileName version uptime up).
  Abbreviation step := (act env token profileName version uptime up).
  Abbreviation steps := (run env token profileName version uptime up).
  Abbreviation offered := (events env token profileName version uptime up).

(** ** The gate *)

(** What can be done without the token. *)
Definition outsider a : Prop :=
  match a with
  | ActRequest r _ => checkControlAuth (rq_Auth r) token <> None
  | ActConnect _ q f => q <> token /\ f <> Some token
  | ActCommand _ _ | ActGone _ | ActWrite _ => True
  | _ => False
  end.

Definition refusal (p : controlReply) : Prop :=
  match p with
  | CtRedirect => True
  | CtPlain code _ => (400 <= code)%Z
  | CtFiles (PrPlain code _) => code = 401%Z
  | _ => False
  end.

Lemma refused_unauthorized auth e : checkControlAuth auth token = Some e -> exists text, e = PrPlain 401 text.
Proof.
  unfold checkControlAuth. destruct (_ <? 7)%nat; [intros [= <-]; by eexists|]. case_bool_decide; [done|].
  intros [= <-]. by eexists.
Qed.

Lemma serve_outsider r ts st : checkControlAuth (rq_Auth r) token <> None ->
  snd (fst (serve r ts st)) = st /\ snd (serve r ts st) = ts /\
  (forall ts' st', fst (fst (serve r ts' st')) = fst (fst (serve r ts st))) /\
  (refusal (fst (fst (serve r ts st))) \/ controlMux (rq_Escaped r) = RtTerminal /\ rq_Method r = "GET").
Proof.
  intros Ha. unfold serveControl. destruct (checkControlAuth _ token) as [e|] eqn:He; [|done].
  apply refused_unauthorized in He as [text ->].
  destruct (controlMux (rq_Escaped r)); repeat (case_bool_decide; [|]); cbn; split_and!; try done; try (left; cbn; lia); try (by right).
  all: by left.
Qed.

Lemma connect_outsider id (q : string) (f : option string) st : q <> token -> f <> Some token -> wsConnect token profileName id q f st = None.
Proof. intros Hq Hf. unfold wsConnect. by rewrite !bool_decide_false. Qed.

(** Without the token of the control file nothing can be done to a running client: every request is
    answered in the same way whatever the client does, with a refusal but for the page [/terminal], and
    while no receiver is connected no sequence of requests, connection attempts and messages from
    outside changes the client's state. *)
Theorem control_gate :
  (forall r ts st, checkControlAuth (rq_Auth r) token <> None ->
     (forall ts' st', fst (fst (serve r ts' st')) = fst (fst (serve r ts st))) /\ snd (serve r ts st) = ts /\
     (refusal (fst (fst (serve r ts st))) \/ controlMux (rq_Escaped r) = RtTerminal /\ rq_Method r = "GET")) /\
  (forall l st, (forall a, a ∈ l -> outsider a) -> ct_Clients st = [] -> steps l st = st).
Proof.
  split.
  - intros r ts st Ha. destruct (serve_outsider r ts st Ha) as (_ & ? & ? & ?). by split_and!.
  - intros l st Hl Hc. induction l as [|a l IH]; [done|]. unfold run in *. cbn [fold_left].
    assert (step a st = st) as ->; [|apply IH; intros b Hb; apply Hl; by right].
    specialize (Hl a ltac:(by left)). destruct a as [r ts|id q f|id msg|id|id| | | |]; try done; cbn [act outsider] in *.
    + by apply serve_outsider.
    + destruct Hl as [Hq Hf]. rewrite connect_outsider by done. by destruct (connected id st).
    + unfold connected. by rewrite Hc.
    + unfold removeWSClient. rewrite Hc. destruct st; cbn in *. by subst.
    + unfold writerStep. rewrite Hc. destruct st; cbn in *. by subst.
Qed.

(** ** Events *)

(** What a receiver was written and what waits for it. *)
Definition view c : list json := wc_Written c ++ wc_Events c.

(** [c'] is [c] after it was offered the events [evs]. *)
Record follows (evs : list json) c c' : Prop := Follows {
  fo_id : wc_ID c' = wc_ID c;
  fo_view : exists k, view c' = view c ++ k /\ k `sublist_of` evs /\ (length (wc_Events c) + length evs <= queueCap -> k = evs);
  fo_queue : length (wc_Events c) <= queueCap -> length (wc_Events c') <= queueCap /\ length (wc_Events c') <= length (wc_Events c) + length evs
}.

Lemma follows_refl c : follows [] c c.
Proof. split; [done|exists []; split_and!; [by rewrite app_nil_r|done|done]|cbn; lia]. Qed.

Lemma follows_offer ev c : follows [ev] c (offer ev c).
Proof.
  unfold offer. destruct (length (wc_Events c) <? queueCap) eqn:Hf.
  - apply Nat.ltb_lt in Hf. split; [done| |cbn; rewrite length_app; cbn; lia].
    exists [ev]. unfold view. cbn. rewrite app_assoc. by split_and!.
  - apply Nat.ltb_ge in Hf. split; [done| |cbn; lia]. exists []. split_and!; [by rewrite app_nil_r|by apply sublist_nil_l|cbn; lia].
Qed.

Lemma follows_write c : follows [] c (writeNext c).
Proof.
  unfold writeNext. destruct (wc_Events c) as [|ev l] eqn:He; [apply follows_refl|].
  split; [done| |cbn; rewrite He; cbn; lia]. exists []. unfold view. cbn. rewrite He, app_nil_r, <- app_assoc. by split_and!.
Qed.

Lemma wsCommand_clients msg st : ct_Clients (wsCommand msg st) = ct_Clients st.
Proof.
  unfold wsCommand. destruct (json_fields msg); [|done]. destruct (decode_string _ _ _ _), (AppAdmin.decode_bool_ptr _ _).
  destruct (negb _); [done|]. by repeat case_bool_decide.
Qed.

Lemma serve_clients r ts st : ct_Clients (snd (fst (serve r ts st))) = ct_Clients st.
Proof.
  unfold serveControl. destruct (controlMux (rq_Escaped r)) eqn:Hm; try done.
  all: cbn [negb]; try (destruct (negb (bool_decide (unescaped (rq_Escaped r) = "/"))); [done|]).
  all: destruct (checkControlAuth _ _); [done|]; cbn [serveAuthorized]; try done.
  - unfold handleRoot. by repeat case_bool_decide.
  - unfold handleVerbose. by repeat case_bool_decide.
  - by destruct (handleFiles _ _ _ _ _ _ _ _).
Qed.

(** Every receiver after an action was one before it, unless it connected by it. *)
Lemma step_follows a st c' :
  c' ∈ ct_Clients (step a st) -> (forall q f, a <> ActConnect (wc_ID c') q f) ->
  exists c, c ∈ ct_Clients st /\ follows (emitted token profileName a st) c c'.
Proof.
  intros Hc Hn. destruct a as [r ts|id q f|id msg|id|id|ev|s|l|p]; cbn [act emitted] in *.
  - rewrite serve_clients in Hc. exists c'. split; [done|apply follows_refl].
  - destruct (connected id st); [exists c'; split; [done|apply follows_refl]|].
    destruct (wsConnect token profileName id q f st) as [st1|] eqn:Hw; [|exists c'; split; [done|apply follows_refl]].
    unfold wsConnect in Hw. destruct (_ || _); [|done]. injection Hw as <-. cbn in Hc.
    rewrite map_app, elem_of_app in Hc. destruct Hc as [(c & -> & Hc)%list_elem_of_fmap|Hc].
    + exists c. split; [done|apply follows_offer].
    + apply list_elem_of_singleton in Hc as ->. by destruct (Hn q f).
  - destruct (connected id st); [rewrite wsCommand_clients in Hc|]; (exists c'; split; [done|apply follows_refl]).
  - apply list_elem_of_filter in Hc as [_ Hc]. exists c'. split; [done|apply follows_refl].
  - cbn in Hc. apply list_elem_of_fmap in Hc as (c & -> & Hc). exists c. split; [done|].
    destruct (wc_ID c =? id); [apply follows_write|apply follows_refl].
  - cbn in Hc. apply list_elem_of_fmap in Hc as (c & -> & Hc). exists c. split; [done|apply follows_offer].
  - cbn in Hc. apply list_elem_of_fmap in Hc as (c & -> & Hc). exists c. split; [done|apply follows_offer].
  - exists c'. split; [done|apply follows_refl].
  - exists c'. split; [done|apply follows_refl].
Qed.

Lemma follows_trans evs evs' c c1 c2 :
  length (wc_Events c) <= queueCap -> follows evs c c1 -> follows evs' c1 c2 -> follows (evs ++ evs') c c2.
Proof.
  intros Hq [Hi (k & Hk & Hs & Hall) Hc] [Hi' (k' & Hk' & Hs' & Hall') Hc']. destruct (Hc Hq) as [Hq1 Hl1]. destruct (Hc' Hq1) as [Hq2 Hl2].
  split; [congruence| |intros _; rewrite length_app; lia].
  exists (k ++ k'). split_and!; [by rewrite Hk', Hk, app_assoc|by apply sublist_app|].
  rewrite length_app. intros Hlen. rewrite Hall, Hall' by lia. done.
Qed.

Lemma step_queue a st :
  (forall c, c ∈ ct_Clients st -> length (wc_Events c) <= queueCap) ->
  forall c, c ∈ ct_Clients (step a st) -> length (wc_Events c) <= queueCap.
Proof.
  intros Hq c' Hc.
  assert ((exists id q f, a = ActConnect id q f) \/ forall q f, a <> ActConnect (wc_ID c') q f) as [(id & q & f & ->)|Hno]
    by (destruct a; try (by right); left; by eexists _, _, _).
  2: { destruct (step_follows a st c' Hc Hno) as (c & Hin & Hf). by apply (fo_queue _ _ _ Hf), Hq. }
  cbn [act] in Hc. destruct (connected id st); [by apply Hq|].
  destruct (wsConnect token profileName id q f st) as [st1|] eqn:Hw; [|by apply Hq].
  unfold wsConnect in Hw. destruct (_ || _); [|done]. injection Hw as <-. cbn in Hc.
  apply list_elem_of_fmap in Hc as (c & -> & Hin). apply (fo_queue _ _ _ (follows_offer _ c)).
  apply elem_of_app in Hin as [Hin|Hin]; [by apply Hq|]. apply list_elem_of_singleton in Hin as ->. cbn. lia.
Qed.

Lemma run_follows l st c' :
  (forall c, c ∈ ct_Clients st -> length (wc_Events c) <= queueCap) ->
  c' ∈ ct_Clients (steps l st) -> (forall q f, ActConnect (wc_ID c') q f ∉ l) ->
  exists c, c ∈ ct_Clients st /\ follows (offered l st) c c'.
Proof.
  revert st. induction l as [|a l IH]; intros st Hq Hc Hn; [exists c'; split; [done|apply follows_refl]|].
  cbn [events]. unfold run in Hc. cbn [fold_left] in Hc.
  destruct (IH (step a st)) as (c1 & Hc1 & Hf1).
  - by apply step_queue.
  - exact Hc.
  - intros q f Hin. apply (Hn q f). by right.
  - destruct (step_follows a st c1 Hc1) as (c & Hin & Hf).
    + rewrite <- (fo_id _ _ _ Hf1). intros q f ->. apply (Hn q f). by left.
    + exists c. split; [done|]. eapply follows_trans; [by apply Hq|done|done].
Qed.

(** A receiver that connected with the token hears of it first, and from then on of what happens, in
    order: what was written to it and what waits for it is a part of the events in the order in which
    they were sent, all of them as long as they fit its queue, which never holds more than 64. *)
Theorem events_delivered id (q : string) (f : option string) st st1 l c :
  (forall c, c ∈ ct_Clients st -> length (wc_Events c) <= queueCap) -> connected id st = false ->
  wsConnect token profileName id q f st = Some st1 ->
  (forall q f, ActConnect id q f ∉ l) -> c ∈ ct_Clients (steps l st1) -> wc_ID c = id ->
  (q = token \/ f = Some token) /\ length (wc_Events c) <= queueCap /\
  (exists k, view c = connectionState profileName true :: k /\ k `sublist_of` offered l st1) /\
  (length (offered l st1) < queueCap -> view c = connectionState profileName true :: offered l st1).
Proof.
  intros Hq Hid Hw Hn Hc Hcid. assert (q = token \/ f = Some token) as Hauth.
  { unfold wsConnect in Hw. destruct (bool_decide_reflect (q = token)); [by left|].
    destruct (bool_decide_reflect (f = Some token)); [by right|done]. }
  assert (step (ActConnect id q f) st = st1) as Hs by (cbn [act]; by rewrite Hid, Hw).
  destruct (run_follows l st1 c) as (c1 & Hc1 & Hf); [rewrite <- Hs; by apply step_queue|done|by rewrite Hcid|].
  assert (c1 = WsClient id [connectionState profileName true] []) as ->.
  { pose proof (fo_id _ _ _ Hf) as Hi. unfold wsConnect in Hw. destruct (_ || _); [|done]. injection Hw as <-. cbn in Hc1.
    apply list_elem_of_fmap in Hc1 as (c0 & -> & Hin). apply elem_of_app in Hin as [Hin|Hin].
    - exfalso. assert (connected id st = true); [|congruence]. apply existsb_exists. exists c0.
      split; [by apply list_elem_of_In|]. apply Nat.eqb_eq. rewrite <- Hcid, Hi. unfold offer. by destruct (_ <? _).
    - apply list_elem_of_singleton in Hin as ->. reflexivity. }
  destruct Hf as [_ (k & Hk & Hsub & Hall) Hqueue]. cbn in Hk. split_and!.
  - done.
  - apply Hqueue. cbn. unfold queueCap. lia.
  - by exists k.
  - intros Hlen. rewrite Hk, Hall; [done|]. cbn [wc_Events length]. lia.
Qed.

End control.

(** * The control server and local names evaluated

    The theorems about them at small inputs, and what the code does where one would not expect it. *)

Definition quiet : control := Control "" [] [] [] false false.
Definition req (method path auth : string) : controlReq := ControlReq method path auth [].
Abbreviation running f := (f demo_env "s3cret" "work" "v1" "1m0s" false).

Lemma control_gate_witness :
  fst (fst (running serveControl (req "DELETE" "/" "Bearer guess") ∅ quiet)) = CtFiles (PrPlain 401 "invalid token") /\
  running run [ActRequest (req "DELETE" "/" "Bearer guess") ∅; ActConnect 1 "guess" None; ActCommand 1 (BodyJson (JObj [("type", JStr "disconnect")]))] quiet = quiet.
Proof.
  split; [by vm_compute|].
  refine (proj2 (control_gate demo_env "s3cret" "work" "v1" "1m0s" false) _ quiet _ eq_refl).
  intros a. rewrite !elem_of_cons, elem_of_nil. intros [-> |[-> |[-> |[]]]]; cbn [outsider]; [by vm_compute|by split|done].
Defined.

(** The page of the terminal is served without the token and holds it, and with it the client is stopped. *)
Example terminal_hands_out_token :
  fst (fst (running serveControl (req "GET" "/terminal" "") ∅ quiet)) = CtTerminal "s3cret" /\
  ct_Stopped (snd (fst (running serveControl (req "DELETE" "/" "Bearer s3cret") ∅ quiet))) = true.
Proof. by vm_compute. Qed.

(** Any seven characters stand for the scheme. *)
Example scheme_not_checked :
  fst (fst (running serveControl (req "GET" "/verbose" "Basic: s3cret") ∅ quiet)) = CtJson 200 (JObj [("verbose", JBool false)]).
Proof. by vm_compute. Qed.

Definition joined : control := broadcastEvent (connectionState "work" true) (addWSClient 7 quiet).
Definition happening : list controlAction :=
  [ActEvent (JStr "a"); ActWrite 7; ActBound (MkBoundService "web" 8080 80 "127.0.0.1" "barn" "wss://h"); ActWrite 7].

Lemma events_delivered_witness :
  map (fun c => (length (wc_Written c), length (wc_Events c))) (ct_Clients (running run happening joined)) = [(2, 1)] /\
  forall c, c ∈ ct_Clients (running run happening joined) -> wc_ID c = 7 ->
    view c = connectionState "work" true :: running events happening joined.
Proof.
  split; [by vm_compute|]. intros c Hc Hi.
  refine (proj2 (proj2 (proj2 (events_delivered demo_env "s3cret" "work" "v1" "1m0s" false 7 "s3cret" None quiet joined happening c
    _ _ _ _ Hc Hi))) _).
  - by intros ? ?%elem_of_nil.
  - reflexivity.
  - reflexivity.
  - intros q f. unfold happening. by rewrite !elem_of_cons, elem_of_nil; intros [?|[?|[?|[?|[]]]]].
  - vm_compute. lia.
Defined.

(** ** Local names *)

Definition two_hubs : connectionProfile :=
  ConnectionProfile "id-1" "work" [ProfileConnection "" "one" "" "barn" "" "" []; ProfileConnection "" "two" "" "barn" "" "127.9.9.9" [];
    ProfileConnection "" "one" "" "attic" "" "127.1.2.3" []] 0 (ProfileMount "" 0 false) "127.77".
Definition by_url (hub : string) : option string := Some ("wss://" +:+ hub).

Lemma hosts_name_connections_witness :
  exists lines merged, profileHosts by_url two_hubs "tela" = Some lines /\
    mergeConnections by_url (fun _ => "") (cp_Connections two_hubs) ∅ [] = Some merged /\
    map snd lines = ["attic.tela"; "barn.tela"] /\ NoDup (map snd lines).
Proof.
  destruct (profileHosts by_url two_hubs "tela") as [lines|] eqn:Hl; [|exfalso; revert Hl; vm_compute; discriminate].
  destruct (mergeConnections by_url (fun _ => "") (cp_Connections two_hubs) ∅ []) as [merged|] eqn:Hm; [|exfalso; revert Hm; vm_compute; discriminate].
  exists lines, merged. split_and!; [done|done| |].
  - revert Hl. vm_compute. by intros [= <-].
  - refine (proj1 (hosts_name_connections "" (fun _ => "") by_url (fun _ => "") two_hubs "tela" lines merged _ Hl Hm)).
    intros c. unfold two_hubs. cbn [cp_Connections]. rewrite !elem_of_cons, elem_of_nil.
    intros [-> |[-> |[-> |[]]]]; apply (bool_decide_unpack _); by vm_compute.
Defined.

(** A machine of the same name on another hub has no line of its own, though the client connects to it. *)
Example second_hub_unnamed :
  (length <$> profileHosts by_url two_hubs "tela") = Some 2 /\
  (length <$> mergeConnections by_url (fun _ => "") (cp_Connections two_hubs) ∅ []) = Some 3.
Proof. by vm_compute. Qed.
